(* ===== verification/_CoqProject ===== *)
-Q . S2P
Prelude.v
Names.v
NameText.v
Text.v
DnsName.v
Compress.v
RrTypes.v
HashTab.v
RrList.v
Cent.v
CentSpec.v
Cache.v
CacheInv.v
CachePurge.v
CacheAdd.v
CacheOps.v
CacheThms.v
Answer.v
AnswerRr.v
AnswerSet.v
AnswerThms.v
Query.v
QueryDecode.v
Keeps.v
Framing.v
QuerySafe.v
QueryThms.v
Reply.v
ReplyData.v
ReplySpec.v
ReplyThms.v
Disk.v
DiskSpec.v
DiskWrite.v
DiskTrip.v
DiskThms.v
DynList.v
Exec.v
ExecStages.v
ExecSpec.v
ExecThms.v
Net.v
NetSpec.v
QuerySm.v
SmSpec.v
QueryExec.v
QueryRun.v
QueryLoop.v
QueryStep.v
QueryIoThms.v
Resolve.v
Recurse.v
Forward.v
Parallel.v
ResolveSpec.v
RecurseSpec.v
RecurseLoop.v
RecursePick.v
RecurseRun.v
RecurseThms.v
RecurseLimits.v
Threads.v
Servers.v
ServersSpec.v
ServersRun.v
ServersMark.v
ServersThms.v
Serve.v
ServeThms.v
Hosts.v
HostsThms.v
