(* ===== verification/Prelude.v ===== *)
(** * A verification of pdnsd, the caching name server of the proxy

    The application runs pdnsd (src/orbotservice/src/main/jni/pdnsd/src) so that programs
    behind the tunnel can resolve names.  This library models the part of pdnsd that handles
    data from the network and keeps the cache, in C as it stands in the repository, and proves
    what it does.  File names below are relative to that directory.

    ** The program

    A query arrives at a server thread of dns_answer.c, is decoded, and answered from the
    cache (cache.c, with the hash table of hash.c) or by asking name servers (dns_query.c),
    whose replies are checked, turned into cache entries and added to the cache.  The answer is
    composed in dns_answer.c with the name compression of dns.c.  Names are handled in wire
    form by helpers.c; rr_types.c and rr_types.h hold the tables of record types.  At the start
    and at the end the cache is read from and written to a file.  The table of the servers to ask
    is shared by the threads that answer queries, one that tests whether servers are up, and one that
    takes commands (servers.c).

    ** The model

    Memory that C accesses as bytes is a [list Z]; an access outside of it makes the computation
    [None].  So do dangling pointers, the wrong member of a union, a violated assertion and
    exhausted fuel, and a theorem that says that a computation [runs] to a result says that none
    of this happens.  Integers are [Z] with the wrap-around of their width written out ([u8],
    [u16], [u32], [hash_add]) where the code relies on it or could overflow.  The cache is a
    record with the entries at their addresses, the buckets of the hash table, the list of record
    sets, and the statistics; the operations are computations in a state monad [M] on it, with
    early returns as sums ([R], [W], [tryM]) where the code has them.  What the environment
    decides is an input: the outcomes of [malloc] (the list [mem] of the state), the clock
    ([now], read once per operation), the sizes of the machine ([Platform], with the instances
    [LP64] and [ILP32]), the outcome of writes to a file, and the results of system calls on
    sockets with the bytes that are received, of [poll], [time] and [random] ([kernel]).  Times and
    their sums with times-to-live are unbounded integers; the wrap-around of a [time_t] of 32 bits is
    not modelled.  The
    table of servers, which other threads change, may be different at every look at it.
    Computations with sockets act on a
    [world], which tracks open sockets and blocks of the heap, so that to close a socket or to free a
    block twice has no result either.
    The threads around the table of servers are programs of their own type ([thread] of Threads),
    with the mutex, waits on conditions, accesses to the shared data and inputs as constructors;
    a step relation interleaves them in any order.  Loops without a bound are a constructor too
    ([Iter]), so they need no fuel.  A wait may end at any time, with a timeout or without, and the
    signal that interrupts tests takes effect at once.

    ** Files

    - Prelude: memory, tactics and lemmas for all.
    - Names, NameText, Text: names in wire form and as text (helpers.c, helpers.h); [rhnlen],
      [rhnicmp], [rhncpy], [str2rhn], [parsestr2rhn], [rhn2str], [escapestr], [hexdump].
    - DnsName, Compress: [decompress_name], [domain_match] and [compress_name] of dns.c, with
      the relation [name_at] that says which name stands at an offset of a message (RFC 1035).
    - RrTypes: the tables of rr_types.h.
    - HashTab: hash.c as an implementation of a finite map from names without case.
    - RrList: the doubly linked list of record sets and its merge sort (cache.c 880-1055), both
      as links in a memory and as a sequence.
    - Cent, CentSpec: one cache entry (cache.h, cache.c 558-1173) and its well-formedness
      [cent_ok].
    - Cache: the operations on the whole cache (cache.c 486-532, 1188-1366, 1759-2298, hash.c
      195-264).  CacheInv: the invariant [inv] and deletion.  CachePurge: [purge_cache].
      CacheAdd: [add_cache].  CacheOps: the abstract cache [abs], a map from folded names to
      entries, and lookup.  CacheThms: the theorems.
    - DynList: dynamic arrays and lists (list.c, list.h) on blocks of memory.
    - Disk, DiskSpec, DiskWrite, DiskTrip, DiskThms: the cache file, [write_disk_cache] and
      [read_disk_cache] (cache.c 46-139, 1374-1742).
    - Answer, AnswerRr, AnswerSet, AnswerThms: writing records into a reply (dns_answer.c).
    - Keeps: operations that do not touch the order of the list of record sets, and make no memory.
    - Framing: the parts of a reply, its questions and the records of its sections, and the counters of its header.
    - Query, QueryDecode, QuerySafe, QueryThms: decoding of queries, composition of answers and
      error replies, [process_query] (dns_answer.c).
    - Reply, ReplyData, ReplySpec, ReplyThms: from the records of a reply to cache entries,
      [rr_to_cache] and [rrs2cent] (dns_query.c 184-678).
    - Exec, ExecStages, ExecSpec, ExecThms: what [p_exec_query] does with a reply once it has
      been received (dns_query.c 1095-1118, 1360-1921), the function [use_reply].
    - Net, NetSpec: sockets, the heap and system calls, and [bind_socket] (dns_query.c 683-791).
    - QuerySm, SmSpec: the query state machine [p_query_sm] (dns_query.c 75-148, 793-1093), what
      it holds in each state and what went through its socket.
    - QueryExec, QueryRun, QueryLoop, QueryStep, QueryIoThms: [p_exec_query] with its retries,
      [p_cancel_query] and what callers do to a query (dns_query.c 1138-1363, 1928-2012,
      2179-2184, 2309-2323), as steps of a query.
    - Resolve, ResolveSpec: when the cache answers and which servers know a name,
      [lookup_cache_status], [use_server], [lookup_ns] (dns_query.c 2886-3073, 3324-3460).
    - Recurse: the recursion over name servers, [auth_ok], [p_recursive_query], [p_dns_resolve],
      [p_dns_cached_resolve], [r_dns_cached_resolve], [dns_rootserver_resolv], [query_uptest]
      (dns_query.c 2014-2880, 3076-3322, 3463-3798).  Forward, Parallel: the number of calls grows,
      and several queries at once hold separate parts of the world.  RecurseSpec: the computations
      that hold nothing at their end ([still]) and the interface between two levels of the
      recursion ([ResolverOk]).  RecurseLoop: the loops around [poll].  RecursePick: the choice of
      servers.  RecurseRun: the resolver of each level.  RecurseThms, RecurseLimits: the theorems.
    - Threads: threads under one mutex, their steps, what makes one of them safe whatever the others
      do ([safe]), and a scheduler for examples.
    - Servers: the table of servers and what threads do with it (servers.c, servers.h, conff.c
      275-291): [uptest], [retest], [servstat_thread], [mark_servers], [sched_server_test],
      [test_onquery], [change_servers], the locks, and the exchange of the table on a reload.
      ServersSpec: what stays the same.  ServersRun: each operation is safe.  ServersMark: what
      [mark_servers] does, and how long the thread sleeps.  ServersThms: the theorems.
    - Serve, ServeThms: the servers that take queries over UDP and TCP and the threads that answer them, with
      the limits on their number (dns_answer.c 1345-2105, [write_all] of helpers.h).
    - Hosts, HostsThms: local data; [a2ptrstr], [add_host] and [read_hosts] of dns.c and
      [add_reverse_cache] of cache.c.

    ** What is shown

    - Names: the conversions stay within their buffers for every input, accept exactly the texts
      that denote a name, and are inverse to each other; [decompress_name] terminates on every
      message and returns the name that stands there; what [compress_name] writes is read back
      as the same name.
    - Hash table and list: refinement of a finite map and of a sequence; the sort is a sort.
    - Cache: every operation keeps the invariant whatever allocations fail; adding, looking up,
      purging, deleting, invalidating and emptying do to the abstract cache what they should;
      every record in the cache was there before or was added under its name.
    - File: reading is safe for every content of the file, and what is written is read back.
    - Queries: for every message and every pattern of failing allocations nothing leaves its
      buffer, and the reply is well formed: it has the identification and the return code, and
      behind its header the questions of the query and records by section, as many as the header
      counts; names in it are labels with an end or a pointer, and that pointers lead to the right place is
      shown as long as no record has been left out ([add_rr_correct]).  Which messages are ignored,
      refused with which code, and accepted.
    - Replies of servers: every message is processed safely; its records become cache entries
      in the layout of their type; a server that is not trusted cannot put records for names outside
      its domain into the cache (without the option paranoid all servers are trusted); the entry
      returned has the records of the answer section, all of them unless the reply is damaged or
      one has a type that cannot be read.
    - Execution of queries: in every order of calls and for every outcome of system calls and
      allocations no block or socket is released twice or leaked; however a query got to where it is, over TCP or UDP, an entry comes only from a reply to the
      query that was sent, from its server and with its identifier; a query over TCP ends after a
      bounded number of calls; [bind_socket] fails only when no port of the range is free.
    - Recursion over name servers: the resolver ends at every depth, closes and frees whatever its
      parallel queries hold, and returns success only with a well-formed entry; together with
      [process_query] it answers every message safely.  Which servers of the configuration are asked, and which
      servers that the cache knows instead of root servers; when
      the cache is believed; when the servers of an authority section are asked, and for which of the zones received.
      Two theorems show where the time limits fail.
    - Table of servers: in every interleaving of the threads no freed table or array is used, the
      count of users is right, the table stays in place while it is in use, and there is no
      deadlock, provided that no root servers are to be discovered ([no_discovery]); with a
      discovery under way this fails in two ways ([discovery_unprotected]).  What
      [mark_servers] does to the table that it finds, and when the next test takes place.
    - Servers for queries: in every order in which threads are created, start and end, the counters
      are exact and the limits are kept ([service_limited]: one on the threads that work, and one on all of them); a query over UDP is answered by one
      datagram with the reply that [process_query] composes, in full, or cut off at the limit of the
      client with the TC bit set; over TCP the reply has the lower 16 bits of its length in front, whatever pieces the
      query arrives in, and the connection is closed and all memory freed on every path.  The
      length has 16 bits, and [frame_limit] shows what a client reads of a longer reply.
    - Local data: every hosts file is read safely, and only addresses and names that stand in one of
      its lines come into the cache; the names under in-addr.arpa and ip6.arpa are those of RFC 1035
      and RFC 3596.  The records for reverse resolving of an entry with name servers break the
      invariant of the cache ([reverse_miscounted]).
    - Dynamic arrays and lists: [da_grow1] agrees with [da_resize], and the items of a list are read
      back in order; other files have plain lists in their place.

    ** Bounds and fuel

    Loops whose recursion is not structural have fuel that the theorems show to be enough:
    the length of the object plus one for loops over a name, a text or a list; 257 for the
    compression pointers between two labels, since the code gives up after 255 of them in one
    name; 2 for [add_cache], whose jump to [retry] is taken at most once; [MAX_HOPS], 20, is
    a constant of the code, which bounds the chain of CNAME records in an answer; the length of
    the file plus one for the entries of the cache file, each of which has at least one byte; 2
    for [p_query_sm], which changes from TCP to UDP once; 3 for [p_exec_query], which sends a query
    again once without RD and once without the OPT record; three times the range for
    [bind_socket], which tries twice as many random ports and then each port once.
    The loop of [p_recursive_query] around [poll] has no bound of its own: as [flood_keeps_waiting]
    shows, a sender of junk keeps it going.  Theorems about the resolver assume ([environment])
    that no server announces an empty message where [realloc] frees for a size of zero
    ([no_empty_reply]; [empty_reply_double_free] shows what happens otherwise), and that [poll] reports nothing any more from the [T]-th system call on, for any [T] ([quiet]); then
    the fuel [polls_max], which has to exceed [T], together with the number of servers is
    enough.  The depth of the recursion is the argument [hops] of the code.
    [environment] also says that the configuration is sane: names in it are well formed, at least
    one query is sent at a time, and debug messages are off in paranoid mode, in which [auth_ok]
    prints through a null pointer.
    The loop of the TCP server that reads a query ends after its length in steps, since each read returns a
    byte or is the last; [write_all] needs as many steps as there are bytes, provided that a
    write of some bytes does not return 0 ([writes_some]), on which the code would loop forever.  The rounds of the
    servers themselves are single steps; they may follow each other in any number.
    [limit_after] computes again the limit that [process_query] leaves in its argument [udp].
    [sort_rrl] keeps 32 partial lists, enough below 2^32 entries, which is a hypothesis
    ([countable_rrl], [room]) where the sort can be reached.

    ** Interfaces

    [process_query] uses the resolver [dns_cached_resolve] only through the class [Resolver] of
    QuerySafe, which says what an entry that it returns is like; the resolver of the program is an
    instance ([dns_cached_resolve_ok] of RecurseRun), and so is one that answers from
    the cache.  The list of name servers that [p_exec_query] fills is a list of its
    items here.  The layouts of the structures in the cache file are instances of the class
    [Stored] of Disk with the law [StoredOk].

    ** Not modelled

    The addresses of clients and of the interface on which a query arrived, the opening of the sockets of
    the servers and the report on threads (rest of dns_answer.c); locks other than that of the table
    of servers, so that a query is one step here with respect to the cache; IPv6 servers,
    for which the program is not configured; pings and interfaces (icmp.c, netdev.c), whose results are
    inputs here; the configuration parser (conf-parser.c, the rest of conff.c, and [llist] of list.c), with the
    local zones that it enters into the cache; its results are parameters here; the dump of the cache for the control
    socket (cache.c 2300-2731, status.c); start, logging and threads (main.c, error.c, thread.c).
    The vendored programs badvpn, tun2socks and lwIP, libancillary and the Java code of the
    application are not part of this library. *)
From stdpp Require Export base list numbers option gmap sorting.
From Stdlib Require Export ZArith Lia.

(** ** Memory

    A C object that is accessed as an array of bytes (a name, a message, a
    character buffer) is a [list Z] of byte values; a pointer into it is an
    offset.  Reading or writing outside the object is undefined behaviour in C;
    here it makes the whole computation [None].  Computations are in stdpp's
    option monad, so [x ← m; k] propagates the failure, and a theorem that a
    result is [Some _] is a memory-safety theorem. *)

Definition DNSNAMEBUFSIZE : nat := 256.

Definition is_byte (b : Z) : Prop := (0 <= b < 256)%Z.

#[export] Instance is_byte_dec b : Decision (is_byte b).
Proof. unfold is_byte. apply _. Defined.

Abbreviation bytes := (Forall is_byte).

Definition rd (m : list Z) (i : nat) : option Z := m !! i.

Definition wr (m : list Z) (i : nat) (v : Z) : option (list Z) :=
  if decide (i < length m) then Some (<[i:=v]> m) else None.

(** [memcpy(&m[i], src, length src)], one byte after the other. *)
Fixpoint wr_bytes (m : list Z) (i : nat) (src : list Z) : option (list Z) :=
  match src with
  | [] => Some m
  | b :: src' => m' ← wr m i b; wr_bytes m' (S i) src'
  end.

(** [memcpy] out of an object: the [n] bytes that start at offset [i]. *)
Definition rd_bytes (m : list Z) (i n : nat) : option (list Z) :=
  if decide (i + n <= length m) then Some (take n (drop i m)) else None.

(** The flag tests of the C code: [f & m] used as a condition. *)
Definition tst (f m : Z) : bool := negb (Z.land f m =? 0)%Z.

Definition u8 (x : Z) : Z := (x mod 2 ^ 8)%Z.
Definition u16 (x : Z) : Z := (x mod 2 ^ 16)%Z.
Definition u32 (x : Z) : Z := (x mod 2 ^ 32)%Z.

(** [ctype.h] in the C locale. *)
Definition tolower (c : Z) : Z := if ((65 <=? c) && (c <=? 90))%Z then (c + 32)%Z else c.
Definition toupper (c : Z) : Z := if ((97 <=? c) && (c <=? 122))%Z then (c - 32)%Z else c.
Definition isgraph (c : Z) : bool := ((33 <=? c) && (c <=? 126))%Z.
Definition isprint (c : Z) : bool := ((32 <=? c) && (c <=? 126))%Z.

(** ** Tactics *)

(** Open one bind (or match) whose scrutinee decides the goal or a hypothesis. *)
Ltac inv_bind :=
  repeat match goal with
  | H : mbind _ _ = Some _ |- _ => apply bind_Some in H; destruct H as (? & ? & H)
  | H : (if ?b then _ else _) = Some _ |- _ => destruct b eqn:?; try discriminate H
  | H : Some _ = Some _ |- _ => injection H as H; try subst
  | H : (_, _) = (_, _) |- _ => injection H as ? ?; try subst
  | p : (_ * _)%type |- _ => destruct p
  end.

(** Turn boolean tests in the context into propositions [lia] understands. *)
Ltac boolp :=
  repeat match goal with
  | H : (_ && _) = true |- _ => apply andb_true_iff in H as [? ?]
  | H : (_ || _) = false |- _ => apply orb_false_iff in H as [? ?]
  | H : (_ =? _)%Z = true |- _ => apply Z.eqb_eq in H
  | H : (_ =? _)%Z = false |- _ => apply Z.eqb_neq in H
  | H : (_ <? _)%Z = true |- _ => apply Z.ltb_lt in H
  | H : (_ <? _)%Z = false |- _ => apply Z.ltb_ge in H
  | H : (_ <=? _)%Z = true |- _ => apply Z.leb_le in H
  | H : (_ <=? _)%Z = false |- _ => apply Z.leb_gt in H
  | H : (_ =? _)%nat = true |- _ => apply Nat.eqb_eq in H
  | H : (_ =? _)%nat = false |- _ => apply Nat.eqb_neq in H
  | H : (_ <? _)%nat = true |- _ => apply Nat.ltb_lt in H
  | H : (_ <? _)%nat = false |- _ => apply Nat.ltb_ge in H
  | H : (_ <=? _)%nat = true |- _ => apply Nat.leb_le in H
  | H : (_ <=? _)%nat = false |- _ => apply Nat.leb_gt in H
  end.

(** Decide the boolean tests of the goal by arithmetic. *)
Ltac bool_true e := replace e with true by (symmetry; first
  [ apply Z.eqb_eq | apply Z.ltb_lt | apply Z.leb_le
  | apply Nat.eqb_eq | apply Nat.ltb_lt | apply Nat.leb_le ]; lia).
Ltac bool_false e := replace e with false by (symmetry; first
  [ apply Z.eqb_neq | apply Z.ltb_ge | apply Z.leb_gt
  | apply Nat.eqb_neq | apply Nat.ltb_ge | apply Nat.leb_gt ]; lia).

(** Split conjunctions that are written as such, without unfolding definitions. *)
Ltac splits := repeat match goal with |- _ /\ _ => split end.

(** Reduce a bind whose first computation is known, and nothing else. *)
Ltac sbind := cbn [mbind option_bind fst snd].

Create HintDb pdnsd.

#[global] Arguments rd : simpl never.
#[global] Arguments wr : simpl never.
#[global] Arguments rd_bytes : simpl never.

(** ** Reading and writing *)

Lemma rd_Some_lt m i b : rd m i = Some b -> i < length m.
Proof. apply lookup_lt_Some. Qed.

Lemma rd_lt m i : i < length m -> exists b, rd m i = Some b.
Proof. apply lookup_lt_is_Some_2. Qed.

Lemma rd_byte m i b : bytes m -> rd m i = Some b -> is_byte b.
Proof. intros Hm Hb. exact (Forall_lookup_1 _ _ _ _ Hm Hb). Qed.

Lemma wr_lt m i v : i < length m -> wr m i v = Some (<[i:=v]> m).
Proof. intros H. unfold wr. by rewrite decide_True by done. Qed.

Lemma wr_Some m i v m' :
  wr m i v = Some m' -> i < length m /\ m' = <[i:=v]> m /\ length m' = length m.
Proof.
  unfold wr. destruct (decide (i < length m)) as [Hlt|Hge]; intros [= <-].
  split_and!; [done..|]. apply length_insert.
Qed.

(** Writing at the boundary of a known prefix extends the prefix. *)
Lemma wr_app_mid (l m : list Z) v :
  0 < length m -> wr (l ++ m) (length l) v = Some (l ++ v :: drop 1 m).
Proof.
  intros Hm. destruct m as [|x m]; [simpl in Hm; lia|].
  rewrite wr_lt by (rewrite length_app; simpl; lia).
  rewrite insert_app_r_alt by lia. rewrite Nat.sub_diag. done.
Qed.

Lemma wr_bytes_length src m i m' :
  wr_bytes m i src = Some m' -> length m' = length m.
Proof.
  revert m i. induction src as [|b src IH]; intros m i H; cbn in H.
  - by inv_bind.
  - inv_bind. apply IH in H. apply wr_Some in H0. lia.
Qed.

Lemma wr_bytes_app_mid src l m :
  length src <= length m ->
  wr_bytes (l ++ m) (length l) src = Some (l ++ src ++ drop (length src) m).
Proof.
  revert l m. induction src as [|b src IH]; intros l m H; cbn [wr_bytes length] in *.
  - by rewrite drop_0.
  - rewrite wr_app_mid by lia. sbind.
    change (l ++ b :: drop 1 m) with (l ++ [b] ++ drop 1 m). rewrite app_assoc.
    replace (S (length l)) with (length (l ++ [b])) by (rewrite length_app; simpl; lia).
    rewrite IH by (rewrite length_drop; lia).
    rewrite drop_drop, <- app_assoc. done.
Qed.

Lemma wr_bytes_total src m i :
  i + length src <= length m -> exists m', wr_bytes m i src = Some m' /\ length m' = length m.
Proof.
  revert m i. induction src as [|b src IH]; intros m i H; cbn [wr_bytes length] in *.
  - eauto.
  - rewrite wr_lt by lia. sbind. destruct (IH (<[i:=b]> m) (S i)) as (m' & -> & Hl).
    + rewrite length_insert. lia.
    + exists m'. by rewrite Hl, length_insert.
Qed.

Lemma rd_bytes_app pre l post :
  rd_bytes (pre ++ l ++ post) (length pre) (length l) = Some l.
Proof.
  unfold rd_bytes. rewrite decide_True by (rewrite !length_app; lia).
  by rewrite drop_app_length, take_app_length.
Qed.

Lemma rd_app_mid (pre post : list Z) b : rd (pre ++ b :: post) (length pre) = Some b.
Proof. apply list_lookup_middle. done. Qed.

(** Move one element from the front of the right part to the left part. *)
Lemma snoc_assoc {A} (p l : list A) x : p ++ x :: l = (p ++ [x]) ++ l.
Proof. by rewrite <- app_assoc. Qed.

Lemma length_snoc {A} (p : list A) x : length (p ++ [x]) = length p + 1.
Proof. apply length_app. Qed.

Lemma bytes_insert m i v : bytes m -> is_byte v -> bytes (<[i:=v]> m).
Proof. intros. by apply Forall_insert. Qed.

Lemma tolower_byte c : is_byte c -> is_byte (tolower c).
Proof. unfold is_byte, tolower. destruct ((65 <=? c) && (c <=? 90))%Z eqn:E; boolp; lia. Qed.

(** Case folding either way identifies the same characters. *)
Lemma toupper_tolower a b : tolower a = tolower b -> toupper a = toupper b.
Proof.
  unfold tolower, toupper.
  repeat match goal with |- context [if ?b then _ else _] => destruct b eqn:? end;
  repeat match goal with H : andb _ _ = false |- _ => apply andb_false_iff in H as [H|H] end;
  boolp; lia.
Qed.

Lemma u8_byte x : is_byte (u8 x).
Proof. apply Z.mod_pos_bound. lia. Qed.

Lemma u8_small x : is_byte x -> u8 x = x.
Proof. apply Z.mod_small. Qed.

#[export] Hint Resolve u8_byte tolower_byte bytes_insert : pdnsd.
