(* ===== verification/Names.v ===== *)
(** Domain names in length-byte notation: the operations of
    [pdnsd/src/helpers.c] and [helpers.h] on them.

    A name in C memory is a sequence of labels, each preceded by its length
    byte, ended by a zero byte.  A pointer to it is the part of the object that
    starts there, so a function that is given [data+ilen] is given
    [drop ilen data].  The specification side is a list of labels: [enc_name ls]
    is the encoding of [ls]. *)
From S2P Require Import Prelude.

(** ** Specification: label lists and their encoding *)

Definition enc_label (l : list Z) : list Z := Z.of_nat (length l) :: l.
Definition enc_labels (ls : list (list Z)) : list Z := concat (map enc_label ls).
Definition enc_name (ls : list (list Z)) : list Z := enc_labels ls ++ [0%Z].

Definition wf_label (l : list Z) : Prop := 1 <= length l <= 63 /\ bytes l.
Definition wf_name (ls : list (list Z)) : Prop :=
  Forall wf_label ls /\ length (enc_name ls) <= DNSNAMEBUFSIZE.

(** Case-insensitive equality of names, label by label. *)
Definition lower_name (ls : list (list Z)) : list (list Z) := map (map tolower) ls.
Definition name_eqi (a b : list (list Z)) : Prop := lower_name a = lower_name b.

#[export] Instance name_eqi_dec a b : Decision (name_eqi a b).
Proof. unfold name_eqi. apply _. Defined.

#[export] Instance name_eqi_equiv : Equivalence name_eqi.
Proof. unfold name_eqi. split; [done|by intros ?? ->|by intros ??? -> ->]. Qed.

(** ** Operations of helpers.h *)

(** [unsigned rhnlen(const unsigned char *rhn)]: each iteration advances [i],
    so the size of the object bounds the number of iterations. *)
Fixpoint rhnlen_loop (fuel : nat) (rhn : list Z) (i : nat) : option nat :=
  match fuel with
  | O => None
  | S f =>
      lb ← rd rhn i;
      if (lb =? 0)%Z then Some (i + 1) else rhnlen_loop f rhn (i + 1 + Z.to_nat lb)
  end.
Definition rhnlen (rhn : list Z) : option nat := rhnlen_loop (S (length rhn)) rhn 0.

(** Advancing a pointer by [n], which must stay within (or one past) the object. *)
Definition adv (p : list Z) (n : nat) : option (list Z) :=
  if decide (n <= length p) then Some (drop n p) else None.

Fixpoint skipsegs (nm : list Z) (k : nat) : option (list Z) :=
  match k with
  | O => Some nm
  | S k' =>
      lb ← rd nm 0;
      if (lb =? 0)%Z then Some nm
      else nm' ← adv nm (Z.to_nat lb + 1); skipsegs nm' k'
  end.

Fixpoint skiprhn_loop (fuel : nat) (rhn : list Z) : option (list Z) :=
  match fuel with
  | O => None
  | S f =>
      lb ← rd rhn 0;
      rhn1 ← adv rhn 1;
      if (lb =? 0)%Z then Some rhn1
      else rhn2 ← adv rhn1 (Z.to_nat lb); skiprhn_loop f rhn2
  end.
Definition skiprhn (rhn : list Z) : option (list Z) := skiprhn_loop (S (length rhn)) rhn.

Fixpoint rhnsegcnt_loop (fuel : nat) (rhn : list Z) (res : nat) : option nat :=
  match fuel with
  | O => None
  | S f =>
      lb ← rd rhn 0;
      if (lb =? 0)%Z then Some res
      else rhn' ← adv rhn (Z.to_nat lb + 1); rhnsegcnt_loop f rhn' (res + 1)
  end.
Definition rhnsegcnt (rhn : list Z) : option nat := rhnsegcnt_loop (S (length rhn)) rhn 0.

(** [rhnicmp]: the inner do-while compares [n] characters from offset [i];
    [Some None] is its [return 0]. *)
Fixpoint rhnicmp_label (n : nat) (a b : list Z) (i : nat) : option (option nat) :=
  match n with
  | O => Some (Some i)
  | S n' =>
      x ← rd a i; y ← rd b i;
      if (tolower x =? tolower y)%Z then rhnicmp_label n' a b (i + 1) else Some None
  end.

Fixpoint rhnicmp_loop (fuel : nat) (a b : list Z) (i : nat) : option bool :=
  match fuel with
  | O => None
  | S f =>
      lb ← rd a i; lb' ← rd b i;
      if negb (lb =? lb')%Z then Some false
      else if (lb =? 0)%Z then Some true
      else r ← rhnicmp_label (Z.to_nat lb) a b (i + 1);
           match r with
           | None => Some false
           | Some i' => rhnicmp_loop f a b i'
           end
  end.
Definition rhnicmp (a b : list Z) : option bool := rhnicmp_loop (S (length a)) a b 0.

(** ** Operations of helpers.c *)

(** [rhncpy(dst, src)]: the assertion does not return when it fails. *)
Definition rhncpy (dst src : list Z) : option (nat * list Z) :=
  len ← rhnlen src;
  if decide (len <= DNSNAMEBUFSIZE) then
    w ← rd_bytes src 0 len;
    dst' ← wr_bytes dst 0 w;
    Some (len, dst')
  else None.

Fixpoint isnormalencdomname_loop (fuel : nat) (rhn : list Z) (maxlen i : nat) : option bool :=
  match fuel with
  | O => None
  | S f =>
      if (maxlen <=? i) then Some false
      else lb ← rd rhn i;
           if (lb =? 0)%Z then Some true
           else if (0x3f <? lb)%Z then Some false
           else isnormalencdomname_loop f rhn maxlen (i + 1 + Z.to_nat lb)
  end.
Definition isnormalencdomname (rhn : list Z) (maxlen : nat) : option bool :=
  let maxlen := if (DNSNAMEBUFSIZE <? maxlen) then DNSNAMEBUFSIZE else maxlen in
  isnormalencdomname_loop (S maxlen) rhn maxlen 0.

#[global] Arguments enc_name : simpl never.
#[global] Arguments enc_labels : simpl never.
#[global] Arguments enc_label : simpl never.

(** ** Facts about encodings *)

Lemma enc_labels_cons l ls : enc_labels (l :: ls) = enc_label l ++ enc_labels ls.
Proof. done. Qed.

Lemma enc_name_cons l ls : enc_name (l :: ls) = enc_label l ++ enc_name ls.
Proof. unfold enc_name. by rewrite enc_labels_cons, <- app_assoc. Qed.

Lemma enc_labels_app a b : enc_labels (a ++ b) = enc_labels a ++ enc_labels b.
Proof. unfold enc_labels. by rewrite map_app, concat_app. Qed.

Lemma enc_name_app a b : enc_name (a ++ b) = enc_labels a ++ enc_name b.
Proof. unfold enc_name. by rewrite enc_labels_app, <- app_assoc. Qed.

Lemma length_enc_label l : length (enc_label l) = S (length l).
Proof. done. Qed.

Lemma length_enc_name ls : length (enc_name ls) = S (length (enc_labels ls)).
Proof. unfold enc_name. rewrite length_app. simpl. lia. Qed.

(** Every label takes at least two bytes. *)
Lemma labels_le_length ls : Forall wf_label ls -> 2 * length ls <= length (enc_labels ls).
Proof.
  induction 1 as [|l ls [Hl _] _ IH]; [done|].
  rewrite enc_labels_cons, length_app, length_enc_label. simpl. lia.
Qed.

Lemma wf_name_labels ls : wf_name ls -> length ls < 128.
Proof.
  intros [Hw Hl]. pose proof (labels_le_length ls Hw).
  rewrite length_enc_name in Hl. unfold DNSNAMEBUFSIZE in Hl. lia.
Qed.

Lemma wf_name_suffix a b : wf_name (a ++ b) -> wf_name b.
Proof.
  intros [Hw Hl]. apply Forall_app in Hw as [_ Hb]. split; [done|].
  rewrite enc_name_app, length_app in Hl. lia.
Qed.

Lemma bytes_enc_label l : wf_label l -> bytes (enc_label l).
Proof.
  intros [Hl Hb]. unfold enc_label. constructor; [|done]. unfold is_byte. lia.
Qed.

Lemma bytes_enc_labels ls : Forall wf_label ls -> bytes (enc_labels ls).
Proof.
  induction 1 as [|l ls Hl _ IH]; [constructor|].
  rewrite enc_labels_cons. apply Forall_app. split; [by apply bytes_enc_label|done].
Qed.

Lemma bytes_enc_name ls : Forall wf_label ls -> bytes (enc_name ls).
Proof.
  intros H. apply Forall_app. split; [by apply bytes_enc_labels|].
  repeat constructor; unfold is_byte; lia.
Qed.

(** Reading the length byte of the first label of a name at an offset. *)
Lemma rd_enc_cons pre l ls r :
  rd (pre ++ enc_name (l :: ls) ++ r) (length pre) = Some (Z.of_nat (length l)).
Proof. rewrite enc_name_cons. apply rd_app_mid. Qed.

Lemma rd_enc_nil pre r : rd (pre ++ enc_name [] ++ r) (length pre) = Some 0%Z.
Proof. apply rd_app_mid. Qed.

Lemma rd_enc_label l r : rd (enc_label l ++ r) 0 = Some (Z.of_nat (length l)).
Proof. done. Qed.

(** Regroup a name so that its first label belongs to the prefix. *)
Lemma enc_regroup pre l ls r :
  pre ++ enc_name (l :: ls) ++ r = (pre ++ enc_label l) ++ enc_name ls ++ r.
Proof. by rewrite enc_name_cons, <- !app_assoc. Qed.

Lemma length_pre_label (pre l : list Z) :
  length (pre ++ enc_label l) = length pre + 1 + length l.
Proof. rewrite length_app, length_enc_label. lia. Qed.

(** A non-empty label has a non-zero length byte. *)
Lemma wf_label_nonzero l : wf_label l -> (Z.of_nat (length l) =? 0)%Z = false.
Proof. intros [H _]. apply Z.eqb_neq. lia. Qed.

(** The encoding is prefix free: at most one name starts at a position. *)
Lemma enc_name_inj a b ra rb :
  Forall wf_label a -> Forall wf_label b ->
  enc_name a ++ ra = enc_name b ++ rb -> a = b /\ ra = rb.
Proof.
  intros Ha. revert b. induction Ha as [|l a Hl _ IH]; intros b Hb E.
  - destruct Hb as [|l b Hl _]; [by injection E|].
    rewrite enc_name_cons in E. injection E as E _. destruct Hl as [Hl _]. lia.
  - rewrite enc_name_cons in E. destruct Hb as [|l' b Hl' Hb].
    + injection E as E _. destruct Hl as [Hl _]. lia.
    + rewrite enc_name_cons, <- !app_assoc in E. injection E as E1 E2.
      apply app_inj_1 in E2 as [-> E2]; [|lia].
      destruct (IH _ Hb E2) as [-> ->]. done.
Qed.

(** ** [rhnlen], [skipsegs], [rhnsegcnt] on encoded names *)

Lemma rhnlen_loop_enc ls : forall pre r f,
  Forall wf_label ls -> length ls < f ->
  rhnlen_loop f (pre ++ enc_name ls ++ r) (length pre) = Some (length pre + length (enc_name ls)).
Proof.
  induction ls as [|l ls IH]; intros pre r f Hw Hf; (destruct f as [|f]; [simpl in Hf; lia|]).
  - cbn [rhnlen_loop]. rewrite rd_enc_nil. done.
  - apply Forall_cons in Hw as [Hl Hw]. cbn [rhnlen_loop].
    rewrite rd_enc_cons. sbind. rewrite wf_label_nonzero by done. rewrite Nat2Z.id.
    rewrite enc_regroup, <- length_pre_label, IH by (simpl in Hf; done || lia).
    rewrite enc_name_cons, !length_app, length_enc_label. f_equal. lia.
Qed.

Lemma length_ls_le_enc ls r : Forall wf_label ls -> length ls < S (length (enc_name ls ++ r)).
Proof.
  intros Hw. pose proof (labels_le_length _ Hw).
  rewrite length_app, length_enc_name. lia.
Qed.

Lemma rhnlen_enc ls r :
  Forall wf_label ls -> rhnlen (enc_name ls ++ r) = Some (length (enc_name ls)).
Proof.
  intros Hw. unfold rhnlen. change (enc_name ls ++ r) with ([] ++ enc_name ls ++ r).
  rewrite (rhnlen_loop_enc ls []) by (done || by apply length_ls_le_enc). done.
Qed.

Lemma adv_app p r : adv (p ++ r) (length p) = Some r.
Proof.
  unfold adv. rewrite decide_True by (rewrite length_app; lia). by rewrite drop_app_length.
Qed.

Lemma adv_label l r : adv (enc_label l ++ r) (length l + 1) = Some r.
Proof.
  replace (length l + 1) with (length (enc_label l)) by (rewrite length_enc_label; lia).
  apply adv_app.
Qed.

Lemma skipsegs_enc ls r k :
  Forall wf_label ls -> skipsegs (enc_name ls ++ r) k = Some (enc_name (drop k ls) ++ r).
Proof.
  revert ls. induction k as [|k IH]; intros ls Hw; [done|].
  destruct Hw as [|l ls Hl Hw]; [done|].
  rewrite enc_name_cons, <- app_assoc. cbn [skipsegs]. rewrite rd_enc_label. sbind.
  rewrite wf_label_nonzero by done. rewrite Nat2Z.id.
  rewrite adv_label. sbind. by apply IH.
Qed.

Lemma rhnsegcnt_loop_enc ls : forall r f n,
  Forall wf_label ls -> length ls < f ->
  rhnsegcnt_loop f (enc_name ls ++ r) n = Some (n + length ls).
Proof.
  induction ls as [|l ls IH]; intros r f n Hw Hf; (destruct f as [|f]; [simpl in Hf; lia|]).
  - by rewrite Nat.add_0_r.
  - apply Forall_cons in Hw as [Hl Hw]. rewrite enc_name_cons, <- app_assoc.
    cbn [rhnsegcnt_loop]. rewrite rd_enc_label. sbind. rewrite wf_label_nonzero by done. rewrite Nat2Z.id.
    rewrite adv_label. sbind. rewrite IH by (simpl in Hf; done || lia). f_equal. simpl. lia.
Qed.

Lemma rhnsegcnt_enc ls r :
  Forall wf_label ls -> rhnsegcnt (enc_name ls ++ r) = Some (length ls).
Proof.
  intros Hw. unfold rhnsegcnt.
  rewrite rhnsegcnt_loop_enc by (done || by apply length_ls_le_enc). done.
Qed.

Lemma skiprhn_loop_enc ls : forall r f,
  Forall wf_label ls -> length ls < f -> skiprhn_loop f (enc_name ls ++ r) = Some r.
Proof.
  induction ls as [|l ls IH]; intros r f Hw Hf; (destruct f as [|f]; [simpl in Hf; lia|]).
  - done.
  - apply Forall_cons in Hw as [Hl Hw]. rewrite enc_name_cons, <- app_assoc.
    cbn [skiprhn_loop]. rewrite rd_enc_label. sbind. rewrite wf_label_nonzero by done. rewrite Nat2Z.id.
    change (adv (enc_label l ++ enc_name ls ++ r) 1) with (Some (l ++ enc_name ls ++ r)). sbind.
    rewrite adv_app. sbind. rewrite IH by (simpl in Hf; done || lia). done.
Qed.

Lemma skiprhn_enc ls r : Forall wf_label ls -> skiprhn (enc_name ls ++ r) = Some r.
Proof. intros Hw. apply skiprhn_loop_enc; [done|by apply length_ls_le_enc]. Qed.
(** ** Case-insensitive comparison *)

Lemma rhnicmp_label_app la lb : forall pa pb ra rb,
  length la = length lb -> length pa = length pb ->
  rhnicmp_label (length la) (pa ++ la ++ ra) (pb ++ lb ++ rb) (length pa) =
  Some (if decide (map tolower la = map tolower lb) then Some (length pa + length la) else None).
Proof.
  revert lb. induction la as [|x la IH]; intros [|y lb] pa pb ra rb Hl Hp; try discriminate.
  - cbn. by rewrite Nat.add_0_r.
  - cbn [length rhnicmp_label]. cbn [app]. rewrite rd_app_mid, Hp, rd_app_mid. sbind.
    destruct (tolower x =? tolower y)%Z eqn:E; boolp.
    + rewrite (snoc_assoc pa), (snoc_assoc pb).
      replace (length pb + 1) with (length (pa ++ [x])) by (rewrite length_snoc; lia).
      rewrite (IH lb (pa ++ [x]) (pb ++ [y])) by (rewrite ?length_snoc; simpl in *; lia).
      rewrite length_snoc. cbn [map].
      destruct (decide (map tolower la = map tolower lb)) as [E2|E2].
      * rewrite decide_True by congruence. do 2 f_equal. lia.
      * rewrite decide_False by congruence. done.
    + rewrite decide_False; [done|]. simpl. congruence.
Qed.

Lemma rhnicmp_loop_enc la : forall lb pa pb ra rb f,
  Forall wf_label la -> Forall wf_label lb -> length pa = length pb -> length la < f ->
  rhnicmp_loop f (pa ++ enc_name la ++ ra) (pb ++ enc_name lb ++ rb) (length pa) =
  Some (bool_decide (name_eqi la lb)).
Proof.
  induction la as [|l la IH]; intros lb pa pb ra rb f Ha Hb Hp Hf;
    (destruct f as [|f]; [simpl in Hf; lia|]); cbn [rhnicmp_loop].
  - rewrite rd_enc_nil. sbind. rewrite Hp. destruct Hb as [|l' lb Hl' Hb].
    + rewrite rd_enc_nil. done.
    + rewrite rd_enc_cons. sbind. rewrite Z.eqb_sym, wf_label_nonzero by done. done.
  - apply Forall_cons in Ha as [Hl Ha]. rewrite rd_enc_cons. sbind. rewrite Hp.
    destruct Hb as [|l' lb Hl' Hb].
    + rewrite rd_enc_nil. sbind. rewrite wf_label_nonzero by done. done.
    + rewrite rd_enc_cons. sbind. rewrite (wf_label_nonzero l) by done.
      destruct (Z.eqb_spec (Z.of_nat (length l)) (Z.of_nat (length l'))) as [E|E]; cbn [negb].
      * apply Nat2Z.inj in E. rewrite Nat2Z.id, !enc_name_cons, <- !app_assoc. unfold enc_label.
        cbn [app]. rewrite (snoc_assoc pa), (snoc_assoc pb), <- (length_snoc pb (Z.of_nat (length l'))). 
        replace (length (pb ++ [Z.of_nat (length l')]))
          with (length (pa ++ [Z.of_nat (length l)])) by (rewrite !length_snoc; lia).
        rewrite rhnicmp_label_app by (rewrite ?length_snoc; lia). sbind.
        rewrite <- length_app.
        assert (Hq : length ((pa ++ [Z.of_nat (length l)]) ++ l) =
                     length ((pb ++ [Z.of_nat (length l')]) ++ l'))
          by (rewrite !length_app; simpl; lia).
        rewrite !(app_assoc _ _ (enc_name _ ++ _)).
        destruct (decide (map tolower l = map tolower l')) as [E2|E2]; cbn [negb].
        -- rewrite IH by (done || simpl in Hf; lia). f_equal. apply bool_decide_ext.
           unfold name_eqi, lower_name. simpl. split; congruence.
        -- symmetry. f_equal. apply bool_decide_false. unfold name_eqi. simpl. congruence.
      * symmetry. f_equal. apply bool_decide_false. unfold name_eqi. simpl. intros [= H _].
        apply (f_equal length) in H. rewrite !length_map in H. congruence.
Qed.

Lemma rhnicmp_enc la lb ra rb :
  Forall wf_label la -> Forall wf_label lb ->
  rhnicmp (enc_name la ++ ra) (enc_name lb ++ rb) = Some (bool_decide (name_eqi la lb)).
Proof.
  intros Ha Hb. apply (rhnicmp_loop_enc la lb [] []); [done..|].
  by apply length_ls_le_enc.
Qed.

(** ** Validation and copying *)

Lemma isnormal_loop_spec f : forall m maxlen i,
  bytes m -> maxlen <= length m -> maxlen - i < f ->
  exists b, isnormalencdomname_loop f m maxlen i = Some b /\
    (b = true <-> exists ls r, drop i m = enc_name ls ++ r /\ Forall wf_label ls /\
                    i + length (enc_name ls) <= maxlen).
Proof.
  induction f as [|f IH]; intros m maxlen i Hm Hl Hf; [lia|]. cbn [isnormalencdomname_loop].
  destruct (maxlen <=? i) eqn:Hi; boolp.
  { exists false. split; [done|]. split; [done|]. intros (ls & r & _ & _ & H).
    rewrite length_enc_name in H. lia. }
  destruct (rd_lt m i) as [lb Hlb]; [lia|]. rewrite Hlb. sbind.
  pose proof (rd_byte _ _ _ Hm Hlb) as Hb. pose proof (drop_S _ _ _ Hlb) as Hd.
  destruct (lb =? 0)%Z eqn:E0; boolp.
  { exists true. split; [done|]. split; [intros _|done]. subst lb.
    exists [], (drop (S i) m). rewrite Hd. split_and!; [done|constructor|simpl; lia]. }
  destruct (0x3f <? lb)%Z eqn:E1; boolp.
  { exists false. split; [done|]. split; [done|]. intros ([|l ls] & r & E & Hw & _);
      rewrite Hd in E; rewrite ?enc_name_cons in E; injection E as E _; [done|].
    apply Forall_cons in Hw as [[? _] _]. lia. }
  destruct (IH m maxlen (i + 1 + Z.to_nat lb) Hm Hl ltac:(lia)) as (b & -> & Hiff).
  exists b. split; [done|]. rewrite Hiff. unfold is_byte in Hb. split.
  - intros (ls & r & E & Hw & Hle). rewrite length_enc_name in Hle.
    exists (take (Z.to_nat lb) (drop (S i) m) :: ls), r.
    assert (Hlen : length (take (Z.to_nat lb) (drop (S i) m)) = Z.to_nat lb)
      by (rewrite length_take, length_drop; lia).
    rewrite enc_name_cons. unfold enc_label. rewrite Hlen, Z2Nat.id by lia. split_and!.
    + rewrite Hd. cbn [app]. f_equal. rewrite <- app_assoc, <- E.
      replace (i + 1 + Z.to_nat lb) with (S i + Z.to_nat lb) by lia.
      by rewrite <- drop_drop, take_drop.
    + constructor; [|done]. split; [lia|]. apply Forall_take, Forall_drop, Hm.
    + rewrite length_app. cbn [length]. rewrite Hlen, length_enc_name. lia.
  - intros ([|l ls] & r & E & Hw & Hle); rewrite Hd in E.
    + injection E as E _. done.
    + rewrite enc_name_cons in E. injection E as Elb E2. apply Forall_cons in Hw as [Hl' Hw].
      exists ls, r. split_and!; [|done|].
      * replace (i + 1 + Z.to_nat lb) with (S i + Z.to_nat lb) by lia.
        rewrite <- drop_drop, E2, <- app_assoc, Elb, Nat2Z.id. apply drop_app_length.
      * rewrite enc_name_cons, length_app, length_enc_label in Hle. lia.
Qed.

Lemma isnormalencdomname_spec m maxlen :
  bytes m -> maxlen <= length m ->
  exists b, isnormalencdomname m maxlen = Some b /\
    (b = true <-> exists ls r, m = enc_name ls ++ r /\ wf_name ls /\
                    length (enc_name ls) <= maxlen).
Proof.
  intros Hm Hl. unfold isnormalencdomname.
  set (ml := if DNSNAMEBUFSIZE <? maxlen then _ else _).
  assert (Hml : ml = Nat.min maxlen DNSNAMEBUFSIZE)
    by (unfold ml; destruct (DNSNAMEBUFSIZE <? maxlen) eqn:E; boolp; lia).
  destruct (isnormal_loop_spec (S ml) m ml 0 Hm ltac:(lia) ltac:(lia)) as (b & -> & Hiff).
  exists b. split; [done|]. rewrite Hiff, drop_0. unfold wf_name.
  split; intros (ls & r & ?); exists ls, r; intuition lia.
Qed.

Lemma rhncpy_enc ls r d :
  wf_name ls -> length (enc_name ls) <= length d ->
  rhncpy d (enc_name ls ++ r) =
    Some (length (enc_name ls), enc_name ls ++ drop (length (enc_name ls)) d).
Proof.
  intros [Hw Hl] Hd. unfold rhncpy. rewrite rhnlen_enc by done. sbind.
  rewrite decide_True by done. pose proof (rd_bytes_app [] (enc_name ls) r) as E.
  cbn [app length] in E. rewrite E. sbind.
  pose proof (wr_bytes_app_mid (enc_name ls) [] d Hd) as E2. cbn [app length] in E2.
  rewrite E2. done.
Qed.
