(* ===== verification/NameText.v ===== *)
(** Conversion between dotted text and length-byte notation: [str2rhn] and
    [parsestr2rhn] of [pdnsd/src/helpers.c]. *)
From S2P Require Import Prelude Names.

(** The inner loop of [str2rhn] and of [parsestr2rhn]: [next j] reads the
    character at [j], [Some None] when the loop condition fails there.  The
    result is the final [j], or [None] for the early return. *)
Fixpoint copy_label (fuel : nat) (next : nat -> option (option Z)) (rhn : list Z)
    (j jlim : nat) : option (option nat * list Z) :=
  match fuel with
  | O => None
  | S f =>
      c ← next j;
      match c with
      | None => Some (Some j, rhn)
      | Some c =>
          if (jlim <=? j) then Some (None, rhn)
          else rhn' ← wr rhn (j + 1) c; copy_label f next rhn' (j + 1) jlim
      end
  end.

Definition jlimit (i : nat) : nat :=
  if (DNSNAMEBUFSIZE - 2 <? i + 63) then DNSNAMEBUFSIZE - 2 else i + 63.

Definition str2rhn_next (str : list Z) (j : nat) : option (option Z) :=
  c ← rd str j; Some (if ((c =? 0) || (c =? 46))%Z then None else Some c).

Fixpoint str2rhn_loop (fuel : nat) (str rhn : list Z) (i : nat) : option (bool * list Z) :=
  match fuel with
  | O => None
  | S f =>
      '(r, rhn1) ← copy_label (S DNSNAMEBUFSIZE) (str2rhn_next str) rhn i (jlimit i);
      match r with
      | None => Some (false, rhn1)
      | Some j =>
          c ← rd str j;
          if (c =? 0)%Z then
            rhn2 ← wr rhn1 i 0;
            Some (negb ((i <? j) || (i =? 0)), rhn2)
          else if (j <=? i) then Some (false, rhn1)
          else rhn2 ← wr rhn1 i (u8 (Z.of_nat (j - i))); str2rhn_loop f str rhn2 (j + 1)
      end
  end.

Definition str2rhn (str rhn : list Z) : option (bool * list Z) :=
  c0 ← rd str 0;
  root ← (if (c0 =? 46)%Z then c1 ← rd str 1; Some (c1 =? 0)%Z else Some false);
  if (root : bool) then rhn' ← wr rhn 0 0; Some (true, rhn')
  else str2rhn_loop (S DNSNAMEBUFSIZE) str rhn 0.

(** The messages of [parsestr2rhn]; [PE_none] is the null pointer it returns on success. *)
Inductive parse_err :=
  | PE_none
  | PE_element_too_long   (* "Domain name element too long" *)
  | PE_empty_element      (* "Empty name element in domain name" *)
  | PE_empty_name.        (* "Empty domain name not allowed" *)

#[export] Instance parse_err_eq_dec : EqDecision parse_err.
Proof. solve_decision. Defined.

Definition parsestr2rhn_next (str : list Z) (len j : nat) : option (option Z) :=
  if (j <? len) then c ← rd str j; Some (if ((c =? 0) || (c =? 46))%Z then None else Some c)
  else Some None.

(** [j<len && str[j]] *)
Definition more_input (str : list Z) (len j : nat) : option bool :=
  if (j <? len) then c ← rd str j; Some (negb (c =? 0)%Z) else Some false.

Definition parsestr2rhn_end (rhn : list Z) (i : nat) : option (parse_err * list Z) :=
  rhn' ← wr rhn i 0;
  Some (if (i =? 0) then PE_empty_name else PE_none, rhn').

Fixpoint parsestr2rhn_loop (fuel : nat) (str : list Z) (len : nat) (rhn : list Z) (i : nat)
    : option (parse_err * list Z) :=
  match fuel with
  | O => None
  | S f =>
      '(r, rhn1) ← copy_label (S DNSNAMEBUFSIZE) (parsestr2rhn_next str len) rhn i (jlimit i);
      match r with
      | None => Some (PE_element_too_long, rhn1)
      | Some j =>
          more ← more_input str len j;
          if (j <=? i) then
            if (more : bool) then Some (PE_empty_element, rhn1) else parsestr2rhn_end rhn1 i
          else
            rhn2 ← wr rhn1 i (u8 (Z.of_nat (j - i)));
            if more then parsestr2rhn_loop f str len rhn2 (j + 1)
            else parsestr2rhn_end rhn2 (j + 1)
      end
  end.

Definition parsestr2rhn (str : list Z) (len : nat) (rhn : list Z) : option (parse_err * list Z) :=
  root ← (if (0 <? len) then
            c0 ← rd str 0;
            if (c0 =? 46)%Z then
              if (len =? 1) then Some true else c1 ← rd str 1; Some (c1 =? 0)%Z
            else Some false
          else Some false);
  if (root : bool) then rhn' ← wr rhn 0 0; Some (PE_none, rhn')
  else parsestr2rhn_loop (S DNSNAMEBUFSIZE) str len rhn 0.

(** ** Specification: dotted text *)

(** The text of a label: no dot, no NUL. *)
Definition wf_text (l : list Z) : Prop :=
  wf_label l /\ Forall (fun c => c <> 0 /\ c <> 46)%Z l.

Definition dotted (ls : list (list Z)) : list Z := concat (map (fun l => l ++ [46%Z]) ls).

(** [text] is the C string at the start of the object [str]. *)
Definition cstr (str text : list Z) : Prop :=
  Forall (fun c => c <> 0)%Z text /\ exists r, str = text ++ 0%Z :: r.

(** [text] is the input [parsestr2rhn] looks at: the first [len] characters,
    up to a NUL if there is one. *)
Definition cstr_upto (str : list Z) (len : nat) (text : list Z) : Prop :=
  Forall (fun c => c <> 0)%Z text /\
  (exists r, str = text ++ r) /\
  (length text = len \/ (length text < len /\ exists r, str = text ++ 0%Z :: r)).

Lemma dotted_cons l ls : dotted (l :: ls) = l ++ 46%Z :: dotted ls.
Proof. unfold dotted. simpl. by rewrite <- app_assoc. Qed.

Lemma dotted_app a b : dotted (a ++ b) = dotted a ++ dotted b.
Proof. unfold dotted. by rewrite map_app, concat_app. Qed.

Lemma length_dotted ls : length (dotted ls) = length (enc_labels ls).
Proof.
  induction ls as [|l ls IH]; [done|].
  rewrite dotted_cons, enc_labels_cons, !length_app, length_enc_label. simpl. lia.
Qed.

(** The next character of the text, [None] at a dot and at the end. *)
Definition text_next (text : list Z) (j : nat) : option Z :=
  match text !! j with Some c => if (c =? 46)%Z then None else Some c | None => None end.

Lemma text_next_Some text j c : text_next text j = Some c -> text !! j = Some c /\ c <> 46%Z.
Proof. unfold text_next. case_match; [|done]. case_match; [done|]. boolp. intros [= ->]. done. Qed.

Lemma text_next_None text j :
  text_next text j = None -> text !! j = Some 46%Z \/ length text <= j.
Proof.
  unfold text_next. case_match eqn:E; [|by right; apply lookup_ge_None].
  case_match; [|done]. boolp. subst. by left.
Qed.

(** Reading the text through either of the two loops' conditions. *)
Lemma str2rhn_next_text str text j :
  cstr str text -> j <= length text -> str2rhn_next str j = Some (text_next text j).
Proof.
  intros [Hn [r ->]] Hj. unfold str2rhn_next, rd, text_next.
  destruct (decide (j = length text)) as [->|Hne].
  - rewrite list_lookup_middle by done. sbind. by rewrite lookup_ge_None_2.
  - rewrite lookup_app_l by lia. destruct (lookup_lt_is_Some_2 text j) as [c Hc]; [lia|].
    rewrite Hc. sbind. pose proof (Forall_lookup_1 _ _ _ _ Hn Hc) as Hz. cbn in Hz.
    bool_false (c =? 0)%Z. done.
Qed.

Lemma rd_cstr str text j :
  cstr str text -> j <= length text ->
  exists c, rd str j = Some c /\ (c =? 0)%Z = bool_decide (j = length text).
Proof.
  intros [Hn [r ->]] Hj. unfold rd. destruct (decide (j = length text)) as [->|Hne].
  - rewrite list_lookup_middle by done. exists 0%Z. by rewrite bool_decide_true.
  - rewrite lookup_app_l by lia. destruct (lookup_lt_is_Some_2 text j) as [c Hc]; [lia|].
    rewrite Hc. pose proof (Forall_lookup_1 _ _ _ _ Hn Hc) as H0. cbn in H0.
    exists c. rewrite bool_decide_false by done. bool_false (c =? 0)%Z. done.
Qed.

(** The inner loop copies the longest dot-free piece, or reports that it does
    not fit. *)
Lemma copy_label_spec text next jlim : forall f rhn j,
  (forall k, k <= length text -> next k = Some (text_next text k)) ->
  j <= length text -> length rhn = DNSNAMEBUFSIZE -> jlim <= DNSNAMEBUFSIZE - 2 -> jlim - j < f ->
  exists res rhn', copy_label f next rhn j jlim = Some (res, rhn') /\ length rhn' = DNSNAMEBUFSIZE /\
    match res with
    | Some j' => exists w, j' = j + length w /\ (w = [] \/ j' <= jlim) /\ text_next text j' = None /\
        (exists r, drop j text = w ++ r) /\ Forall (fun c => c <> 46)%Z w /\
        rhn' = take (j + 1) rhn ++ w ++ drop (j + 1 + length w) rhn
    | None => forall k, j <= k <= Nat.max j jlim -> text_next text k <> None
    end.
Proof.
  induction f as [|f IH]; intros rhn j Hnext Hj Hlen Hlim Hf; [lia|].
  cbn [copy_label]. rewrite Hnext by done. sbind.
  destruct (text_next text j) as [c|] eqn:Hc.
  2:{ exists (Some j), rhn. split_and!; [done..|]. exists []. cbn [length app].
      rewrite !Nat.add_0_r, take_drop. eauto 10. }
  destruct (jlim <=? j) eqn:Hjl; boolp.
  { exists None, rhn. split_and!; [done..|]. intros k Hk. replace k with j by lia. congruence. }
  destruct (text_next_Some _ _ _ Hc) as [Htc Hne]. pose proof (lookup_lt_Some _ _ _ Htc) as Hlt.
  rewrite wr_lt by (unfold DNSNAMEBUFSIZE in *; lia). sbind.
  destruct (IH (<[j + 1:=c]> rhn) (j + 1) Hnext ltac:(lia) ltac:(by rewrite length_insert) Hlim
              ltac:(lia)) as (res & rhn' & -> & Hl' & Hres).
  exists res, rhn'. split_and!; [done..|]. destruct res as [j'|].
  - destruct Hres as (w & -> & Hw & Hn & [r Hr] & Hf' & ->). exists (c :: w). split_and!; try done.
    + simpl. lia.
    + right. destruct Hw as [->|]; simpl; lia.
    + exists r. rewrite (drop_S _ _ _ Htc), Nat.add_1_r in *. by rewrite Hr.
    + by constructor.
    + replace (j + 1 + 1) with (S (j + 1)) by lia. rewrite (take_S_r _ (j + 1) c).
      * rewrite take_insert_ge, drop_insert_lt by lia. cbn [app length].
        rewrite <- app_assoc. cbn [app]. do 3 f_equal. f_equal. lia.
      * apply list_lookup_insert_eq. unfold DNSNAMEBUFSIZE in *. lia.
  - intros k Hk. destruct (decide (k = j)) as [->|]; [congruence|]. apply Hres. lia.
Qed.

(** A text splits at its first dot in one way only. *)
Lemma first_dot_unique (w l r1 r2 : list Z) :
  Forall (fun c => c <> 46)%Z w -> Forall (fun c => c <> 46)%Z l ->
  w ++ 46%Z :: r1 = l ++ 46%Z :: r2 -> w = l /\ r1 = r2.
Proof.
  intros Hw. revert l. induction Hw as [|x w Hx _ IH]; intros l Hl E.
  - destruct Hl as [|y l Hy _]; [by injection E|]. injection E as E _. congruence.
  - destruct Hl as [|y l Hy Hl]; injection E as E1 E2; [congruence|].
    destruct (IH _ Hl E2) as [-> ->]. by subst.
Qed.

Lemma wf_text_nodot l : wf_text l -> Forall (fun c => c <> 46)%Z l.
Proof. intros [_ H]. eapply Forall_impl; [exact H|]. by intros ? [_ ?]. Qed.

(** The piece the inner loop stopped at, against any reading of the rest as a
    sequence of dotted labels. *)
Lemma dotted_first_piece (w r : list Z) ls :
  Forall (fun c => c <> 46)%Z w -> (r = [] \/ exists r', r = 46%Z :: r') ->
  Forall wf_text ls -> w ++ r = dotted ls ->
  match ls with [] => w = [] /\ r = [] | l :: ls' => w = l /\ r = 46%Z :: dotted ls' end.
Proof.
  intros Hw Hr Hls E. destruct Hls as [|l ls Hl Hls]; [by apply app_eq_nil in E|].
  rewrite dotted_cons in E. destruct Hr as [->|[r' ->]].
  - exfalso. rewrite app_nil_r in E. subst w. apply Forall_app in Hw as [_ Hw].
    by apply Forall_cons in Hw as [? _].
  - apply first_dot_unique in E as [-> ->]; [done..|]. by apply wf_text_nodot.
Qed.

Lemma piece_rest text j w r :
  text_next text (j + length w) = None -> drop j text = w ++ r -> j <= length text ->
  (r = [] /\ j + length w = length text) \/ (exists r', r = 46%Z :: r' /\ j + length w < length text).
Proof.
  intros Hn Hd Hj. pose proof (f_equal length Hd) as Hl. rewrite length_drop, length_app in Hl.
  apply text_next_None in Hn as [Hn|Hn].
  - right. pose proof (lookup_lt_Some _ _ _ Hn). rewrite <- lookup_drop, Hd in Hn.
    rewrite lookup_app_r, Nat.sub_diag in Hn by lia. destruct r as [|x r']; [done|].
    injection Hn as ->. exists r'. split; [done|lia].
  - left. destruct r; simpl in Hl; [split; [done|lia]|lia].
Qed.

(** Storing the length byte completes the encoding of the copied label. *)
Lemma label_written ls (R w : list Z) :
  length w <= 63 -> length (enc_labels ls) + 1 + length w <= length (enc_labels ls ++ R) ->
  wr (take (length (enc_labels ls) + 1) (enc_labels ls ++ R) ++ w ++
      drop (length (enc_labels ls) + 1 + length w) (enc_labels ls ++ R))
     (length (enc_labels ls)) (u8 (Z.of_nat (length w))) =
  Some (enc_labels (ls ++ [w]) ++ drop (1 + length w) R).
Proof.
  intros Hw Hl. rewrite length_app in Hl. destruct R as [|x R]; [simpl in Hl; lia|].
  rewrite take_app_ge, drop_app_ge by lia.
  replace (length (enc_labels ls) + 1 - length (enc_labels ls)) with 1 by lia.
  replace (length (enc_labels ls) + 1 + length w - length (enc_labels ls)) with (1 + length w) by lia.
  cbn [take app]. rewrite <- app_assoc, wr_app_mid by (simpl; lia). cbn [drop app].
  rewrite u8_small by (unfold is_byte; lia).
  rewrite enc_labels_app, <- app_assoc. unfold enc_labels at 3. cbn.
  by rewrite app_nil_r, drop_0.
Qed.

(** The copied piece is the text of a label. *)
Lemma piece_wf text j w r :
  bytes text -> Forall (fun c => c <> 0)%Z text -> drop j text = w ++ r ->
  Forall (fun c => c <> 46)%Z w -> w <> [] -> length w <= 63 -> wf_text w.
Proof.
  intros Hb Hn Hd Hw Hne Hl.
  assert (Hbw : bytes w /\ Forall (fun c => c <> 0)%Z w).
  { pose proof (Forall_drop _ j _ Hb) as H1. pose proof (Forall_drop _ j _ Hn) as H2.
    rewrite Hd in H1, H2. apply Forall_app in H1 as [? _]. by apply Forall_app in H2 as [? _]. }
  destruct Hbw as [Hbw Hnw]. split; [split; [destruct w; simpl in *; [done|lia]|done]|].
  apply Forall_and. done.
Qed.

Lemma jlimit_bounds i : jlimit i <= DNSNAMEBUFSIZE - 2 /\ jlimit i <= i + 63 /\
  (i + 63 <= jlimit i \/ jlimit i = DNSNAMEBUFSIZE - 2).
Proof. unfold jlimit. destruct (DNSNAMEBUFSIZE - 2 <? i + 63) eqn:E; boolp; lia. Qed.

(** [trest] is a sequence of labels, the last with or without its dot. *)
Definition reads (trest : list Z) (ls : list (list Z)) : Prop :=
  trest = dotted ls \/ trest ++ [46%Z] = dotted ls.

(** A label that fits the buffer is never refused by the inner loop. *)
Lemma dotted_label_stops ls l ls2 trest :
  wf_text l -> length (enc_name (ls ++ l :: ls2)) <= DNSNAMEBUFSIZE -> reads trest (l :: ls2) ->
  text_next (dotted ls ++ trest) (length (enc_labels ls) + length l) = None /\
  length (enc_labels ls) + length l <= jlimit (length (enc_labels ls)).
Proof.
  intros [[Hl _] _] Hlen Hr. split.
  - unfold text_next. rewrite lookup_app_r by (rewrite length_dotted; lia).
    rewrite length_dotted, Nat.add_comm, Nat.add_sub. unfold reads in Hr. rewrite dotted_cons in Hr.
    destruct Hr as [->|Hr]; [by rewrite list_lookup_middle|].
    destruct (trest !! length l) eqn:E; [|done].
    assert (Hx : (trest ++ [46%Z]) !! length l = Some z) by (by apply lookup_app_l_Some).
    rewrite Hr, list_lookup_middle in Hx by done. by injection Hx as <-.
  - rewrite enc_name_app, enc_name_cons, !length_app, length_enc_label, length_enc_name in Hlen.
    pose proof (jlimit_bounds (length (enc_labels ls))). unfold DNSNAMEBUFSIZE in *. lia.
Qed.

(** The common part of one iteration of either loop: the inner loop run at a
    label boundary. *)
Lemma label_step text next ls trest R :
  (forall k, k <= length text -> next k = Some (text_next text k)) ->
  Forall (fun c => c <> 0)%Z text -> bytes text -> text = dotted ls ++ trest ->
  length (enc_labels ls ++ R) = DNSNAMEBUFSIZE -> length (enc_labels ls) < DNSNAMEBUFSIZE ->
  let i := length (enc_labels ls) in
  exists res rhn1, copy_label (S DNSNAMEBUFSIZE) next (enc_labels ls ++ R) i (jlimit i) = Some (res, rhn1) /\
    length rhn1 = DNSNAMEBUFSIZE /\
    match res with
    | None => forall ls2, Forall wf_text ls2 -> length (enc_name (ls ++ ls2)) <= DNSNAMEBUFSIZE ->
        ~ reads trest ls2
    | Some j => exists w r, j = i + length w /\ trest = w ++ r /\ j <= length text /\
        Forall (fun c => c <> 46)%Z w /\
        ((r = [] /\ j = length text) \/ (exists r', r = 46%Z :: r' /\ j < length text)) /\
        (exists R1, rhn1 = enc_labels ls ++ R1 /\ length R1 = length R) /\
        (w <> [] -> wf_text w /\ j <= DNSNAMEBUFSIZE - 2 /\
           exists R', wr rhn1 i (u8 (Z.of_nat (j - i))) = Some (enc_labels (ls ++ [w]) ++ R') /\
             length (enc_labels (ls ++ [w]) ++ R') = DNSNAMEBUFSIZE /\
             length (enc_labels (ls ++ [w])) = j + 1)
    end.
Proof.
  intros Hnext Hn Hb Ht Hlen Hi i.
  assert (Hil : i <= length text) by (rewrite Ht, length_app, length_dotted; unfold i; lia).
  assert (Hdrop : drop i text = trest)
    by (rewrite Ht; unfold i; rewrite <- length_dotted; apply drop_app_length).
  destruct (jlimit_bounds i) as (Hj1 & Hj2 & _).
  destruct (copy_label_spec text next (jlimit i) (S DNSNAMEBUFSIZE) (enc_labels ls ++ R) i
              Hnext Hil Hlen Hj1 ltac:(lia)) as (res & rhn1 & -> & Hl1 & Hres).
  exists res, rhn1. split_and!; [done..|]. destruct res as [j|].
  - destruct Hres as (w & -> & Hw & Hnone & [r Hr] & Hnd & ->). rewrite Hdrop in Hr.
    destruct (piece_rest text i w r Hnone ltac:(by rewrite Hdrop) Hil) as [[-> Hjl]|(r' & -> & Hjl)];
      (exists w; eexists; split_and!; [done|exact Hr|lia|done|eauto| |]).
    all: rewrite take_app_ge, drop_app_ge by (unfold i; lia);
         rewrite length_app in Hlen.
    all: try (eexists; split; [rewrite <- app_assoc; done|];
              rewrite !length_app, length_take, length_drop; unfold i;
              destruct Hw as [->|Hw]; simpl in *; unfold DNSNAMEBUFSIZE in *; lia).
    all: intros Hne; assert (Hw2 : i + length w <= jlimit i) by (by destruct Hw as [->|]).
    all: split_and!; [eapply piece_wf; [done..|by rewrite Hdrop|done|done|lia]|lia|].
    all: exists (drop (1 + length w) R); replace (i + length w - i) with (length w) by lia.
    all: rewrite <- label_written by (rewrite ?length_app; unfold i in *; unfold DNSNAMEBUFSIZE in *; lia).
    all: rewrite take_app_ge, drop_app_ge by (unfold i; lia).
    all: split; [done|].
    all: rewrite enc_labels_app, !length_app, length_drop; unfold enc_labels at 2 4; cbn [map concat].
    all: rewrite app_nil_r, length_enc_label; unfold i in *; unfold DNSNAMEBUFSIZE in *; lia.
  - intros [|l ls2] Hw Hle Hrd.
    + destruct Hrd as [E|E]; [|by destruct trest].
      apply (Hres i); [lia|]. unfold text_next. rewrite lookup_ge_None_2; [done|].
      rewrite Ht, E, length_app, length_dotted. simpl. lia.
    + apply Forall_cons in Hw as [Hl _].
      destruct (dotted_label_stops ls l ls2 trest Hl Hle Hrd) as [Hs Hle2].
      rewrite <- Ht in Hs. apply (Hres (i + length l)); [|done]. fold i in Hle2. lia.
Qed.

(** What [str2rhn] accepts from the label boundary after [ls] on. *)
Definition accepts (ls : list (list Z)) (trest : list Z) (ls2 : list (list Z)) : Prop :=
  trest = dotted ls2 /\ Forall wf_text ls2 /\ ls ++ ls2 <> [] /\
  length (enc_name (ls ++ ls2)) <= DNSNAMEBUFSIZE.

(** One label more moves it from what is accepted next to what is read. *)
Lemma accepts_step ls w r' ls2 :
  wf_text w -> accepts (ls ++ [w]) r' ls2 -> accepts ls (w ++ 46%Z :: r') (w :: ls2).
Proof.
  intros Hw (-> & Hls2 & _ & Hle). split_and!.
  - by rewrite dotted_cons.
  - by constructor.
  - by destruct ls.
  - by rewrite <- app_assoc in Hle.
Qed.

Lemma accepts_unstep ls w r' ls2 :
  Forall (fun c => c <> 46)%Z w -> accepts ls (w ++ 46%Z :: r') ls2 ->
  exists ls3, ls2 = w :: ls3 /\ wf_text w /\ accepts (ls ++ [w]) r' ls3.
Proof.
  intros Hnd (E & Hls2 & _ & Hle).
  apply dotted_first_piece in E as E2; [|done|eauto|done].
  destruct ls2 as [|l ls3]; [by destruct E2|]. destruct E2 as [-> E2]. injection E2 as ->.
  apply Forall_cons in Hls2 as [Hl Hls3]. exists ls3. split_and!; [done..|].
  split_and!; [done..| |by rewrite <- app_assoc]. by destruct ls.
Qed.

Definition converted (ls : list (list Z)) (trest : list Z) (ok : bool) (rhn' : list Z) : Prop :=
  (ok = true -> exists ls2 r, accepts ls trest ls2 /\ rhn' = enc_name (ls ++ ls2) ++ r) /\
  (ok = false -> forall ls2, ~ accepts ls trest ls2).

Lemma converted_step ls w r' ok rhn' :
  wf_text w -> converted (ls ++ [w]) r' ok rhn' -> converted ls (w ++ 46%Z :: r') ok rhn'.
Proof.
  intros Hw [Ht Hf]. split.
  - intros E. destruct (Ht E) as (ls2 & r & Ha & ->). exists (w :: ls2), r.
    split; [by apply accepts_step|]. by rewrite <- app_assoc.
  - intros E ls2 Ha. apply accepts_unstep in Ha as (ls3 & -> & _ & Ha);
      [|by apply wf_text_nodot]. by apply (Hf E ls3).
Qed.

Lemma str2rhn_loop_spec str text : forall f ls trest R,
  cstr str text -> bytes text -> text = dotted ls ++ trest -> Forall wf_text ls ->
  length (enc_labels ls ++ R) = DNSNAMEBUFSIZE -> length (enc_labels ls) < DNSNAMEBUFSIZE ->
  DNSNAMEBUFSIZE - length (enc_labels ls) < f ->
  exists ok rhn', str2rhn_loop f str (enc_labels ls ++ R) (length (enc_labels ls)) = Some (ok, rhn') /\
    length rhn' = DNSNAMEBUFSIZE /\ converted ls trest ok rhn'.
Proof.
  induction f as [|f IH]; intros ls trest R Hc Hb Ht Hls Hlen Hi Hf; [lia|].
  cbn [str2rhn_loop].
  destruct (label_step text (str2rhn_next str) ls trest R) as (res & rhn1 & -> & Hl1 & Hres);
    [intros; by apply str2rhn_next_text|apply Hc|done..|]. sbind.
  destruct res as [j|].
  2:{ exists false, rhn1. split_and!; [done..|]. split; [done|]. intros _ ls2 (E & Hw & _ & Hle).
      apply (Hres ls2); [done..|by left]. }
  destruct Hres as (w & r & -> & -> & Hjt & Hnd & Hr & (R1 & -> & HR1) & Hw).
  destruct (rd_cstr str text _ Hc Hjt) as (c & Hrd & Hc0). rewrite Hrd. sbind. rewrite Hc0. clear Hc0.
  destruct Hr as [[-> Hjl]|(r' & -> & Hjl)].
  - rewrite bool_decide_true by done. rewrite wr_app_mid by (rewrite length_app in *; lia). sbind.
    eexists _, _. split; [done|]. rewrite app_nil_r in *. split.
    { rewrite length_app in *. cbn [length]. rewrite length_drop. lia. }
    destruct w as [|c0 w].
    + cbn [length]. rewrite Nat.add_0_r, Nat.ltb_irrefl. cbn [orb]. destruct ls as [|l ls].
      * cbn. split; [done|]. intros _ ls2 (E & Hls2 & Hne & _). destruct Hls2 as [|l ls2 Hl2 _]; [done|].
        apply (f_equal length) in E. rewrite dotted_cons, length_app in E. simpl in E. lia.
      * assert ((length (enc_labels (l :: ls)) =? 0) = false) as ->
          by (rewrite enc_labels_cons, length_app, length_enc_label; apply Nat.eqb_neq; lia).
        split; [intros _|done]. exists [], (drop 1 R1). rewrite app_nil_r. split.
        { split_and!; [done|constructor|done|]. rewrite app_nil_r, length_enc_name. lia. }
        unfold enc_name. by rewrite <- app_assoc.
    + cbn [length]. bool_true (length (enc_labels ls) <? length (enc_labels ls) + S (length w)).
      cbn [orb negb]. split; [done|]. intros _ ls2 (E & Hls2 & _).
      rewrite <- (app_nil_r (c0 :: w)) in E.
      apply dotted_first_piece in E; [|done|by left|done]. destruct ls2; [by destruct E|by destruct E].
  - rewrite bool_decide_false by lia.
    destruct (_ <=? _) eqn:Hle; boolp.
    + exists false. eexists. split_and!; [done..|]. split; [done|]. intros _ ls2 Ha.
      apply accepts_unstep in Ha as (ls3 & _ & [[Hw1 _] _] & _); [|done]. lia.
    + assert (Hne : w <> []) by (intros ->; simpl in *; lia).
      destruct (Hw Hne) as (Hwf & Hjb & R' & -> & Hl' & Hlw). sbind.
      rewrite <- Hlw.
      destruct (IH (ls ++ [w]) r' R') as (ok & rhn' & -> & Hl2 & Hcv); try done.
      * rewrite Ht, dotted_app, <- app_assoc. f_equal. by rewrite dotted_cons, <- app_assoc.
      * apply Forall_app; by split; [|constructor].
      * rewrite Hlw. unfold DNSNAMEBUFSIZE in *. lia.
      * rewrite Hlw. unfold DNSNAMEBUFSIZE in *. lia.
      * exists ok, rhn'. split_and!; [done..|]. by apply converted_step.
Qed.

(** [text] names [ls]: dotted labels, each with its dot, or the root alone. *)
Definition names_text (text : list Z) (ls : list (list Z)) : Prop :=
  Forall wf_text ls /\ wf_name ls /\
  ((text = dotted ls /\ ls <> []) \/ (text = [46%Z] /\ ls = [])).

Lemma wf_text_label ls : Forall wf_text ls -> Forall wf_label ls.
Proof. intros H. eapply Forall_impl; [exact H|]. by intros l [? _]. Qed.

Lemma str2rhn_spec (str text rhn : list Z) :
  cstr str text -> bytes text -> length rhn = DNSNAMEBUFSIZE ->
  exists ok rhn', str2rhn str rhn = Some (ok, rhn') /\ length rhn' = DNSNAMEBUFSIZE /\
    (ok = true -> exists ls r, names_text text ls /\ rhn' = enc_name ls ++ r) /\
    (ok = false -> forall ls, ~ names_text text ls).
Proof.
  intros Hc Hb Hl. destruct (rd_cstr str text 0 Hc ltac:(lia)) as (c0 & Hc0 & Hz).
  unfold str2rhn. rewrite Hc0. sbind.
  destruct (str2rhn_loop_spec str text (S DNSNAMEBUFSIZE) [] text rhn) as (ok & rhn' & Hloop & Hl' & Ht & Hf);
    try done; [unfold DNSNAMEBUFSIZE; simpl; lia..|]. cbn [enc_labels map concat app length] in Hloop.
  assert (Hgen : text <> [46%Z] -> exists ok rhn',
      str2rhn_loop (S DNSNAMEBUFSIZE) str rhn 0 = Some (ok, rhn') /\ length rhn' = DNSNAMEBUFSIZE /\
      (ok = true -> exists ls r, names_text text ls /\ rhn' = enc_name ls ++ r) /\
      (ok = false -> forall ls, ~ names_text text ls)).
  { intros Hne. exists ok, rhn'. split_and!; [done..| |].
    - intros E. destruct (Ht E) as (ls & r & (-> & Hw & Hn & Hle) & ->). exists ls, r.
      split; [|done]. split_and!; [done|split; [by apply wf_text_label|done]|by left].
    - intros E ls (Hw & [_ Hle] & [[-> Hn]|[-> _]]); [|done]. by apply (Hf E ls). }
  destruct (decide (text = [46%Z])) as [->|Hne].
  - destruct Hc as [_ [r ->]]. cbn in Hc0. injection Hc0 as <-.
    rewrite Z.eqb_refl. cbn [app]. change (rd (46 :: 0 :: r)%Z 1) with (Some 0%Z). sbind.
    rewrite Z.eqb_refl. destruct rhn as [|x rhn]; [done|]. rewrite wr_lt by (simpl; lia). sbind.
    eexists true, _. split; [reflexivity|]. split; [done|].
    split; [intros _|done]. exists [], rhn. split; [|done].
    split_and!; [constructor|split; [constructor|unfold DNSNAMEBUFSIZE; simpl; lia]|by right].
  - destruct (Hgen Hne) as (ok1 & rhn1 & Hrun & Hrest). destruct (c0 =? 46)%Z eqn:E0; boolp; cbn [mbind option_bind].
    + destruct (decide (length text = 1)) as [H1|H1].
      { exfalso. destruct Hc as [_ [r ->]]. destruct text as [|t [|]]; try done. unfold rd in Hc0. cbn in Hc0. congruence. }
      assert (Hlt : 1 <= length text).
      { destruct text; [|simpl; lia]. rewrite bool_decide_true in Hz by done. boolp. congruence. }
      destruct (rd_cstr str text 1 Hc Hlt) as (c1 & -> & Hz1). sbind.
      rewrite Hz1, bool_decide_false by lia. eauto.
    + eauto.
Qed.

(** On every NUL-terminated string and every buffer of [DNSNAMEBUFSIZE] bytes
    [str2rhn] terminates without an access outside its arguments, and it accepts
    exactly the texts that denote a domain name whose wire form fits the buffer,
    leaving that wire form in the buffer. *)
Theorem str2rhn_correct (str text rhn : list Z) :
  cstr str text -> bytes text -> length rhn = DNSNAMEBUFSIZE ->
  exists ok rhn', str2rhn str rhn = Some (ok, rhn') /\ length rhn' = DNSNAMEBUFSIZE /\
    (ok = true -> exists ls r, names_text text ls /\ rhn' = enc_name ls ++ r) /\
    (ok = false -> forall ls, ~ names_text text ls).
Proof. apply str2rhn_spec. Qed.

(** A text denotes at most one name. *)
Lemma names_text_inj text ls ls' : names_text text ls -> names_text text ls' -> ls = ls'.
Proof.
  assert (Hd : forall ls ls', Forall wf_text ls -> Forall wf_text ls' -> dotted ls = dotted ls' -> ls = ls').
  { clear. induction ls as [|l ls IH]; intros ls' Hw Hw' E.
    - destruct ls' as [|l' ls']; [done|]. rewrite dotted_cons in E. by destruct l'.
    - apply Forall_cons in Hw as [[_ Hl] Hw]. rewrite dotted_cons in E.
      pose proof (dotted_first_piece l (46%Z :: dotted ls) ls') as H. destruct ls' as [|l' ls'].
      + by destruct l.
      + destruct H as [-> E2]; [eapply Forall_impl; [exact Hl|cbn; tauto]|right; by eexists|done|done|]. injection E2 as E2.
        apply Forall_cons in Hw' as [_ Hw']. f_equal. by apply IH. }
  intros (Hw & _ & [[-> Hne]|[-> ->]]) (Hw' & _ & [[E Hne']|[E ->]]).
  - by apply Hd.
  - destruct ls as [|l ls]; [done|]. rewrite dotted_cons in E. apply Forall_cons in Hw as [[[Hl _] _] _].
    destruct l as [|c [|c2 l]]; cbn in *; try lia; discriminate E.
  - destruct ls' as [|l ls']; [done|]. rewrite dotted_cons in E. apply Forall_cons in Hw' as [[[Hl _] _] _].
    destruct l as [|c [|c2 l]]; cbn in *; try lia; discriminate E.
  - done.
Qed.

(** The conversion of a text that denotes a name. *)
Lemma str2rhn_names (str text rhn : list Z) ls :
  cstr str text -> bytes text -> length rhn = DNSNAMEBUFSIZE -> names_text text ls ->
  exists r, str2rhn str rhn = Some (true, enc_name ls ++ r).
Proof.
  intros Hc Hb Hl Hn. destruct (str2rhn_spec str text rhn Hc Hb Hl) as (ok & rhn' & -> & _ & Ht & Hf).
  destruct ok; [|by destruct (Hf eq_refl ls)]. destruct (Ht eq_refl) as (ls' & r & Hn' & ->).
  exists r. by rewrite (names_text_inj text ls ls' Hn Hn').
Qed.

(** The conditions are satisfiable: "www.x." becomes 3 www 1 x 0. *)
Lemma str2rhn_correct_witness :
  exists r, str2rhn ([119;119;119;46;120;46;0]%Z) (replicate DNSNAMEBUFSIZE 0%Z)
    = Some (true, [3;119;119;119;1;120;0]%Z ++ r) /\
  (exists ok rhn', str2rhn ([119;119;119;46;120;46;0]%Z) (replicate DNSNAMEBUFSIZE 0%Z) = Some (ok, rhn') /\
     length rhn' = DNSNAMEBUFSIZE /\
     (ok = true -> exists ls r, names_text [119;119;119;46;120;46]%Z ls /\ rhn' = enc_name ls ++ r) /\
     (ok = false -> forall ls, ~ names_text [119;119;119;46;120;46]%Z ls)).
Proof.
  exists (replicate 249 0%Z). split; [vm_compute; reflexivity|].
  apply (str2rhn_correct _ [119;119;119;46;120;46]%Z); [|vm_compute; repeat constructor; done|done].
  split; [repeat constructor; done|]. exists []. done.
Defined.

(** ** [parsestr2rhn] *)

Lemma cstr_upto_rd str len text j :
  cstr_upto str len text -> j <= length text ->
  (j < length text /\ (j <? len) = true /\ rd str j = text !! j) \/
  (j = length text /\ (j <? len) = false) \/
  (j = length text /\ (j <? len) = true /\ rd str j = Some 0%Z).
Proof.
  intros (Hn & [r ->] & Hlen) Hj. unfold rd. destruct (decide (j < length text)) as [Hlt|Hge].
  - left. split_and!; [done| |by rewrite lookup_app_l].
    apply Nat.ltb_lt. destruct Hlen as [?|[? _]]; lia.
  - right. destruct Hlen as [Hlen|[Hlen [r' E]]].
    + left. split; [lia|]. apply Nat.ltb_ge. lia.
    + right. split_and!; [lia|apply Nat.ltb_lt; lia|]. apply app_inv_head in E. subst r.
      replace j with (length text) by lia. by apply list_lookup_middle.
Qed.

Lemma parsestr2rhn_next_text str len text j :
  cstr_upto str len text -> j <= length text ->
  parsestr2rhn_next str len j = Some (text_next text j).
Proof.
  intros Hc Hj. unfold parsestr2rhn_next, text_next.
  destruct (cstr_upto_rd _ _ _ _ Hc Hj) as [(Hlt & -> & ->)|[[-> ->]|(-> & -> & ->)]].
  - destruct (lookup_lt_is_Some_2 text j Hlt) as [c Hcj]. rewrite Hcj. sbind.
    destruct Hc as [Hn _]. pose proof (Forall_lookup_1 _ _ _ _ Hn Hcj) as Hz. cbn in Hz.
    bool_false (c =? 0)%Z. done.
  - by rewrite lookup_ge_None_2.
  - sbind. by rewrite lookup_ge_None_2.
Qed.

Lemma more_input_text str len text j :
  cstr_upto str len text -> j <= length text ->
  more_input str len j = Some (bool_decide (j < length text)).
Proof.
  intros Hc Hj. unfold more_input.
  destruct (cstr_upto_rd _ _ _ _ Hc Hj) as [(Hlt & -> & ->)|[[-> ->]|(-> & -> & ->)]].
  - destruct (lookup_lt_is_Some_2 text j Hlt) as [c Hcj]. rewrite Hcj. sbind.
    destruct Hc as [Hn _]. pose proof (Forall_lookup_1 _ _ _ _ Hn Hcj) as Hz. cbn in Hz.
    bool_false (c =? 0)%Z. by rewrite bool_decide_true.
  - by rewrite bool_decide_false by lia.
  - sbind. by rewrite bool_decide_false by lia.
Qed.

(** What [parsestr2rhn] accepts from the label boundary after [ls] on. *)
Definition acceptsp (ls : list (list Z)) (trest : list Z) (ls2 : list (list Z)) : Prop :=
  reads trest ls2 /\ Forall wf_text ls2 /\ ls ++ ls2 <> [] /\
  length (enc_name (ls ++ ls2)) <= DNSNAMEBUFSIZE.

Definition parsed (ls : list (list Z)) (trest : list Z) (e : parse_err) (rhn' : list Z) : Prop :=
  (e = PE_none -> exists ls2 r, acceptsp ls trest ls2 /\ rhn' = enc_name (ls ++ ls2) ++ r) /\
  (e <> PE_none -> forall ls2, ~ acceptsp ls trest ls2).

Lemma acceptsp_unstep ls w r' ls2 :
  Forall (fun c => c <> 46)%Z w -> acceptsp ls (w ++ 46%Z :: r') ls2 ->
  exists ls3, ls2 = w :: ls3 /\ wf_text w /\ acceptsp (ls ++ [w]) r' ls3.
Proof.
  intros Hnd (Hr & Hls2 & _ & Hle).
  assert (E : exists r'', w ++ 46%Z :: r'' = dotted ls2 /\ (r'' = r' \/ r'' = r' ++ [46%Z])).
  { destruct Hr as [Hr|Hr]; [by exists r'; auto|]. exists (r' ++ [46%Z]).
    rewrite <- app_assoc in Hr. auto. }
  destruct E as (r'' & E & Hr'').
  apply dotted_first_piece in E as E2; [|done|eauto|done].
  destruct ls2 as [|l ls3]; [by destruct E2|]. destruct E2 as [-> E2]. injection E2 as ->.
  apply Forall_cons in Hls2 as [Hl Hls3]. exists ls3. split_and!; [done..|].
  split_and!; [|done| |by rewrite <- app_assoc].
  - destruct Hr'' as [<-|E3]; [by left|by right; rewrite E3].
  - by destruct ls.
Qed.

Lemma parsed_step ls w r' e rhn' :
  wf_text w -> parsed (ls ++ [w]) r' e rhn' -> parsed ls (w ++ 46%Z :: r') e rhn'.
Proof.
  intros Hw [Ht Hf]. split.
  - intros E. destruct (Ht E) as (ls2 & r & (Hr & Hls2 & _ & Hle) & ->). exists (w :: ls2), r.
    rewrite <- app_assoc in *. split; [|done]. split_and!; [|by constructor|by destruct ls|done].
    unfold reads. rewrite dotted_cons, <- app_assoc. destruct Hr as [->|Hr]; [by left|right].
    cbn [app]. by rewrite Hr.
  - intros E ls2 Ha. apply acceptsp_unstep in Ha as (ls3 & -> & _ & Ha);
      [|by apply wf_text_nodot]. by apply (Hf E ls3).
Qed.

(** The end of the loop after the labels [ls]. *)
Lemma parsestr2rhn_end_spec ls R :
  length (enc_labels ls ++ R) = DNSNAMEBUFSIZE -> length (enc_labels ls) < DNSNAMEBUFSIZE ->
  Forall wf_text ls ->
  exists r, parsestr2rhn_end (enc_labels ls ++ R) (length (enc_labels ls)) =
      Some (if decide (ls = []) then PE_empty_name else PE_none, enc_name ls ++ r) /\
    length (enc_name ls ++ r) = DNSNAMEBUFSIZE.
Proof.
  intros Hl Hi Hw. rewrite length_app in Hl. unfold parsestr2rhn_end.
  rewrite wr_app_mid by lia. sbind. exists (drop 1 R). split.
  - unfold enc_name. rewrite <- app_assoc. cbn [app]. do 2 f_equal.
    destruct ls as [|l ls]; [done|]. rewrite decide_False by done.
    rewrite enc_labels_cons, length_app, length_enc_label. done.
  - rewrite length_app, length_enc_name, length_drop. lia.
Qed.

Lemma parsestr2rhn_loop_spec str len text : forall f ls trest R,
  cstr_upto str len text -> bytes text -> text = dotted ls ++ trest -> Forall wf_text ls ->
  length (enc_labels ls ++ R) = DNSNAMEBUFSIZE -> length (enc_labels ls) < DNSNAMEBUFSIZE ->
  DNSNAMEBUFSIZE - length (enc_labels ls) < f ->
  exists e rhn', parsestr2rhn_loop f str len (enc_labels ls ++ R) (length (enc_labels ls)) = Some (e, rhn') /\
    length rhn' = DNSNAMEBUFSIZE /\ parsed ls trest e rhn'.
Proof.
  induction f as [|f IH]; intros ls trest R Hc Hb Ht Hls Hlen Hi Hf; [lia|].
  cbn [parsestr2rhn_loop].
  destruct (label_step text (parsestr2rhn_next str len) ls trest R) as (res & rhn1 & -> & Hl1 & Hres);
    [intros; by apply parsestr2rhn_next_text|apply Hc|done..|]. sbind.
  destruct res as [j|].
  2:{ eexists _, rhn1. split_and!; [done..|]. split; [done|]. intros _ ls2 (E & Hw & _ & Hle).
      by apply (Hres ls2). }
  destruct Hres as (w & r & -> & -> & Hjt & Hnd & Hr & (R1 & -> & HR1) & Hw).
  rewrite (more_input_text _ _ _ _ Hc Hjt). sbind.
  destruct (_ <=? _) eqn:Hle; boolp.
  - assert (w = []) as -> by (destruct w; simpl in *; [done|lia]). clear Hw.
    destruct Hr as [[-> Hjl]|(r' & -> & Hjl)].
    + rewrite bool_decide_false by lia.
      destruct (parsestr2rhn_end_spec ls R1) as (r & -> & Hl2); [by rewrite length_app in *; lia|done..|].
      eexists _, _. split_and!; [done..|]. case_decide as Hnil.
      * split; [done|]. intros _ ls2 ([E|E] & Hw & Hne & _); subst ls.
        -- destruct ls2; [done|]. by destruct l.
        -- destruct ls2 as [|l ls2]; [done|]. rewrite dotted_cons in E.
           apply Forall_cons in Hw as [[[? _] _] _]. apply (f_equal length) in E.
           rewrite !length_app in E. simpl in E. lia.
      * split; [intros _|done]. exists [], r. rewrite (app_nil_r ls). split; [|done].
        split_and!; [by left|constructor|by rewrite app_nil_r|rewrite (app_nil_r ls), length_enc_name; lia].
    + rewrite bool_decide_true by lia. eexists _, _. split_and!; [done..|].
      split; [done|]. intros _ ls2 Ha. apply acceptsp_unstep in Ha as (ls3 & _ & [[Hw1 _] _] & _); [|done].
      simpl in Hw1. lia.
  - assert (Hne : w <> []) by (intros ->; simpl in *; lia).
    destruct (Hw Hne) as (Hwf & Hjb & R' & -> & Hl' & Hlw). sbind. rewrite <- Hlw.
    assert (Hls' : Forall wf_text (ls ++ [w])) by (apply Forall_app; by split; [|constructor]).
    destruct Hr as [[-> Hjl]|(r' & -> & Hjl)].
    + rewrite bool_decide_false by lia.
      destruct (parsestr2rhn_end_spec (ls ++ [w]) R') as (r & -> & Hl2);
        [done|rewrite Hlw; unfold DNSNAMEBUFSIZE in *; lia|done|].
      eexists _, _. split_and!; [done..|]. rewrite decide_False by (by destruct ls).
      split; [intros _|done]. exists [w], r. split; [|done]. split_and!; [|by constructor|by destruct ls|].
      * right. by rewrite app_nil_r, dotted_cons.
      * rewrite length_enc_name, Hlw. unfold DNSNAMEBUFSIZE in *. lia.
    + rewrite bool_decide_true by lia.
      destruct (IH (ls ++ [w]) r' R') as (e & rhn' & -> & Hl2 & Hp); try done.
      * rewrite Ht, dotted_app, <- app_assoc. f_equal. by rewrite dotted_cons, <- app_assoc.
      * rewrite Hlw. unfold DNSNAMEBUFSIZE in *. lia.
      * rewrite Hlw. unfold DNSNAMEBUFSIZE in *. lia.
      * exists e, rhn'. split_and!; [done..|]. by apply parsed_step.
Qed.

(** [text] names [ls], where the dot after the last label may be missing. *)
Definition names_text_lax (text : list Z) (ls : list (list Z)) : Prop :=
  Forall wf_text ls /\ wf_name ls /\ ((reads text ls /\ ls <> []) \/ (text = [46%Z] /\ ls = [])).

(** C35: [parsestr2rhn], which reads at most [len] characters, is memory safe, accepts
    exactly the texts [str2rhn] accepts and those that lack only the final dot, and
    on success leaves the wire form of the name in the buffer; on any other input it
    returns one of its messages. *)
Theorem parsestr2rhn_correct (str : list Z) (len : nat) (text rhn : list Z) :
  cstr_upto str len text -> bytes text -> length rhn = DNSNAMEBUFSIZE ->
  exists e rhn', parsestr2rhn str len rhn = Some (e, rhn') /\ length rhn' = DNSNAMEBUFSIZE /\
    (e = PE_none -> exists ls r, names_text_lax text ls /\ rhn' = enc_name ls ++ r) /\
    (e <> PE_none -> forall ls, ~ names_text_lax text ls).
Proof.
  intros Hc Hb Hl. unfold parsestr2rhn.
  destruct (parsestr2rhn_loop_spec str len text (S DNSNAMEBUFSIZE) [] text rhn)
    as (e & rhn' & Hloop & Hl' & Ht & Hf);
    try done; [unfold DNSNAMEBUFSIZE; simpl; lia..|]. cbn [enc_labels map concat app length] in Hloop.
  match goal with |- context [mbind _ ?m] => assert (Hroot : m = Some (bool_decide (text = [46%Z]))) end.
  { clear Hloop Ht Hf. destruct (cstr_upto_rd str len text 0 Hc ltac:(lia)) as [(Hlt & -> & ->)|[[E ->]|(E & -> & ->)]].
    2,3: destruct text; [done|simpl in E; lia].
    destruct text as [|c [|c2 text]]; [simpl in Hlt; lia|..]; cbn [lookup list_lookup]; sbind;
      (destruct (Z.eqb_spec c 46) as [->|Hne]; [|by rewrite bool_decide_false by congruence]).
    - rewrite bool_decide_true by done. destruct (len =? 1) eqn:E1; [done|boolp].
      destruct (cstr_upto_rd str len [46%Z] 1 Hc ltac:(simpl; lia)) as [(? & _ & _)|[[_ Hx]|(_ & _ & ->)]].
      + simpl in *. lia.
      + boolp. destruct Hc as (_ & _ & [?|[? _]]); simpl in *; lia.
      + done.
    - rewrite bool_decide_false by done.
      destruct (cstr_upto_rd str len (46 :: c2 :: text)%Z 1 Hc ltac:(simpl; lia)) as [(_ & H1 & ->)|[[? _]|(? & _)]];
        [|simpl in *; lia..]. boolp. bool_false (len =? 1). cbn [lookup list_lookup]. sbind.
      destruct Hc as (Hn & _). apply Forall_cons in Hn as [_ Hn]. apply Forall_cons in Hn as [Hn _].
      by bool_false (c2 =? 0)%Z. }
  rewrite Hroot. sbind. case_bool_decide as Htext.
  - subst text. destruct rhn as [|x rhn]; [done|]. rewrite wr_lt by (simpl; lia). sbind.
    eexists PE_none, _. split; [reflexivity|]. split; [done|].
    split; [intros _|done]. exists [], rhn. split; [|done].
    split_and!; [constructor|split; [constructor|unfold DNSNAMEBUFSIZE; simpl; lia]|by right].
  - exists e, rhn'. split_and!; [done..| |].
    + intros E. destruct (Ht E) as (ls & r & (Hr & Hw & Hn & Hle) & ->). exists ls, r.
      split; [|done]. split_and!; [done|split; [by apply wf_text_label|done]|by left].
    + intros E ls (Hw & [_ Hle] & [[Hr Hn]|[-> _]]); [|done]. by apply (Hf E ls).
Qed.

Lemma parsestr2rhn_correct_witness :
  exists r, parsestr2rhn ([119;46;120;32;35]%Z) 3 (replicate DNSNAMEBUFSIZE 0%Z)
    = Some (PE_none, [1;119;1;120;0]%Z ++ r) /\
  (exists e rhn', parsestr2rhn ([119;46;120;32;35]%Z) 3 (replicate DNSNAMEBUFSIZE 0%Z) = Some (e, rhn') /\
     length rhn' = DNSNAMEBUFSIZE /\
     (e = PE_none -> exists ls r, names_text_lax [119;46;120]%Z ls /\ rhn' = enc_name ls ++ r) /\
     (e <> PE_none -> forall ls, ~ names_text_lax [119;46;120]%Z ls)).
Proof.
  exists (replicate 251 0%Z). split; [vm_compute; reflexivity|].
  apply (parsestr2rhn_correct _ 3 [119;46;120]%Z); [|vm_compute; repeat constructor; done|done].
  split; [repeat constructor; done|]. split; [by exists [32;35]%Z|by left].
Defined.
