(* ===== verification/Text.v ===== *)
(** Names and data as text: [rhn2str], [hexdump] and [escapestr] of [pdnsd/src/helpers.c]
    and [strncp] of helpers.h, the functions that write into a buffer of limited size. *)
From S2P Require Import Prelude Names NameText.

(** ** The C library *)

(** [snprintf(&buf[off], rem, ...)] where the formatted text is [text]: at most
    [rem - 1] characters and a NUL are stored; the result is the full length. *)
Definition snprintf (buf : list Z) (off rem : nat) (text : list Z) : option (nat * list Z) :=
  if (rem =? 0) then Some (length text, buf)
  else buf' ← wr_bytes buf off (take (rem - 1) text ++ [0%Z]); Some (length text, buf').

(** A backslash and three octal digits. *)
Definition octal3 (c : Z) : list Z := [92; 48 + c / 64; 48 + (c / 8) mod 8; 48 + c mod 8]%Z.

Definition hexdigit (d : Z) : Z := (if d <? 10 then 48 + d else 87 + d)%Z.
(** Two hexadecimal digits. *)
Definition hex2 (c : Z) : list Z := [hexdigit (c / 16); hexdigit (c mod 16)].

(** ** [rhn2str] *)

(** A dot, a backslash or a double quote. *)
Definition special (c : Z) : bool := ((c =? 46) || (c =? 92) || (c =? 34))%Z.

(** The loop over the characters of a label: [inl] is the jump to [overflow]. *)
Fixpoint rhn2str_label (lb : nat) (rhn str : list Z) (size i j : nat) : option (list Z + (nat * nat * list Z)) :=
  match lb with
  | O => Some (inr (i, j, str))
  | S lb' =>
      if (size <=? j + 2) then Some (inl str)
      else
        c ← rd rhn i;
        if isgraph c then
          if special c then
            str ← wr str j 92;
            if (size <=? j + 1 + 2) then Some (inl str)
            else str ← wr str (j + 1) c; rhn2str_label lb' rhn str size (i + 1) (j + 2)
          else str ← wr str j c; rhn2str_label lb' rhn str size (i + 1) (j + 1)
        else
          let rem := size - 1 - j in
          '(n, str) ← snprintf str j rem (octal3 c);
          if (rem <=? n) then str ← wr str j 46; Some (inl str)
          else rhn2str_label lb' rhn str size (i + 1) (j + n)
  end.

(** The code at [overflow]. *)
Definition rhn2str_overflow (str : list Z) (size : nat) : option (list Z) :=
  str ← wr str (size - 1) 0;
  if (0 <? size - 1) then
    str ← wr str (size - 2) 46;
    if (0 <? size - 2) then
      str ← wr str (size - 3) 46;
      if (0 <? size - 3) then wr str (size - 4) 46 else Some str
    else Some str
  else Some str.

Fixpoint rhn2str_loop (fuel : nat) (lb : Z) (rhn str : list Z) (size i j : nat) : option (list Z) :=
  match fuel with
  | O => None
  | S f =>
      r ← rhn2str_label (Z.to_nat lb) rhn str size i j;
      match r with
      | inl str => rhn2str_overflow str size
      | inr (i, j, str) =>
          str ← wr str j 46;
          lb ← rd rhn i;
          if (lb =? 0)%Z then wr str (j + 1) 0
          else rhn2str_loop f lb rhn str size (i + 1) (j + 1)
      end
  end.

(** [None] in the result stands for the null pointer. *)
Definition rhn2str (rhn str : list Z) (size : nat) : option (option (list Z)) :=
  if (size =? 0) then Some None
  else
    lb ← rd rhn 0;
    str ← (if (lb =? 0)%Z then
             if (2 <=? size) then str ← wr str 0 46; wr str 1 0
             else wr str 0 0
           else rhn2str_loop (S (length rhn)) lb rhn str size 1 0);
    Some (Some str).

(** ** [hexdump] *)

(** The loop: [inl j] is the jump to [truncated]. *)
Fixpoint hexdump_loop (data : list Z) (first : bool) (buf : list Z) (buflen j : nat) : option ((nat + nat) * list Z) :=
  match data with
  | [] => Some (inr j, buf)
  | c :: data' =>
      let rem := buflen - j in
      '(n, buf) ← snprintf buf j rem (if first then hex2 c else 32%Z :: hex2 c);
      if (rem <=? n) then Some (inl j, buf) else hexdump_loop data' false buf buflen (j + n)
  end.

Definition hexdump (data : list Z) (buf : list Z) (buflen : nat) : option (list Z) :=
  '(r, buf) ← hexdump_loop data true buf buflen 0;
  match r with
  | inr j => wr buf j 0
  | inl j =>
      if (6 <=? j) then
        let j := j - 3 in
        let j := if (buflen <=? j + 4) then j - 3 else j in
        wr_bytes buf j [32; 46; 46; 46; 0]%Z
      else
        let ndots := Nat.min (buflen - 1) 3 in
        wr_bytes buf 0 (replicate ndots 46%Z ++ [0%Z])
  end.

(** ** [escapestr] *)

(** The result is the length, or [None] for -1, and the buffer. *)
Fixpoint escapestr_loop (inp str : list Z) (size j : nat) : option (option nat * list Z) :=
  match inp with
  | [] => str ← wr str j 0; Some (Some j, str)
  | c :: inp' =>
      if (size <=? j + 1) then Some (None, str)
      else if negb (isprint c) then
        let rem := size - j in
        '(n, str) ← snprintf str j rem (octal3 c);
        if (rem <=? n) then Some (None, str) else escapestr_loop inp' str size (j + n)
      else if ((c =? 92) || (c =? 34))%Z then
        str ← wr str j 92;
        if (size <=? j + 1 + 1) then Some (None, str)
        else str ← wr str (j + 1) c; escapestr_loop inp' str size (j + 2)
      else str ← wr str j c; escapestr_loop inp' str size (j + 1)
  end.
Definition escapestr (inp str : list Z) (size : nat) : option (option nat * list Z) := escapestr_loop inp str size 0.

(** ** [strncp]

    [strncpy] followed by the test of the length: the buffer is padded with NULs. *)
Fixpoint strlen_from (fuel : nat) (s : list Z) (i : nat) : option nat :=
  match fuel with
  | O => None
  | S f => c ← rd s i; if (c =? 0)%Z then Some i else strlen_from f s (S i)
  end.
Definition strlen (s : list Z) : option nat := strlen_from (S (length s)) s 0.

Definition strncp (dst : list Z) (off : nat) (src : list Z) (dstsz : nat) : option (bool * list Z) :=
  n ← strlen src;
  let k := Nat.min n dstsz in
  dst ← wr_bytes dst off (take k src ++ replicate (dstsz - k) 0%Z);
  if (n <? dstsz) then Some (true, dst)
  else dst ← wr dst (off + dstsz - 1) 0; Some (false, dst).

(** ** Properties *)

(** The text of a byte, of a label and of a name. *)
Definition show_byte (c : Z) : list Z :=
  if isgraph c then (if special c then [92%Z; c] else [c]) else octal3 c.
Definition show_label (l : list Z) : list Z := concat (map show_byte l).
Definition show_name (ls : list (list Z)) : list Z :=
  match ls with [] => [46%Z] | _ => concat (map (fun l => show_label l ++ [46%Z]) ls) end.

(** [str] starts with the C string [text], in its first [size] bytes. *)
Definition holds (str : list Z) (size : nat) (text : list Z) : Prop :=
  cstr str text /\ length text < size.

Lemma snprintf_app text l m rem :
  rem <= length m -> 0 < rem ->
  snprintf (l ++ m) (length l) rem text =
  Some (length text, l ++ take (rem - 1) text ++ 0%Z :: drop (S (length (take (rem - 1) text))) m).
Proof.
  intros Hr H0. unfold snprintf. bool_false (rem =? 0).
  rewrite wr_bytes_app_mid by (rewrite length_app, length_take; cbn; lia). sbind.
  rewrite length_app. cbn [length]. rewrite Nat.add_1_r, <- app_assoc. done.
Qed.

Lemma octal_nz c : is_byte c -> Forall (fun x => x <> 0)%Z (octal3 c).
Proof.
  unfold is_byte. intros Hc. unfold octal3. assert (0 <= c / 64)%Z by (apply Z.div_pos; lia).
  assert (0 <= (c / 8) mod 8)%Z by (apply Z.mod_pos_bound; lia). assert (0 <= c mod 8)%Z by (apply Z.mod_pos_bound; lia).
  repeat constructor; lia.
Qed.

Lemma show_byte_nz c : is_byte c -> Forall (fun x => x <> 0)%Z (show_byte c).
Proof.
  intros Hc. unfold show_byte. destruct (isgraph c) eqn:E; [|by apply octal_nz].
  assert (c <> 0)%Z by (intros ->; done). destruct (special c); repeat constructor; lia.
Qed.

Lemma show_label_cons c l : show_label (c :: l) = show_byte c ++ show_label l.
Proof. done. Qed.

Lemma show_label_nz l : bytes l -> Forall (fun x => x <> 0)%Z (show_label l).
Proof.
  induction l as [|c l IH]; intros Hb; [constructor|]. apply Forall_cons in Hb as [Hc Hb]. rewrite show_label_cons.
  apply Forall_app. split; [by apply show_byte_nz|by apply IH].
Qed.

(** What the buffer looks like when the code jumps to [overflow]. *)
Definition overflowing (str : list Z) (size len : nat) : Prop :=
  length str = len /\ Forall (fun x => x <> 0)%Z (take (size - 4) str).

Lemma overflowing_prefix t m size len :
  length (t ++ m) = len -> Forall (fun x => x <> 0)%Z t -> size <= length t + 4 -> overflowing (t ++ m) size len.
Proof.
  intros Hl Hnz Hs. split; [done|]. rewrite take_app_le by lia. by apply Forall_take.
Qed.

(** Writing into the free part. *)
Lemma wr_snoc t m v : 0 < length m -> wr (t ++ m) (length t) v = Some ((t ++ [v]) ++ drop 1 m).
Proof. intros H. rewrite wr_app_mid by done. by rewrite <- app_assoc. Qed.

Lemma rhn2str_label_spec l : forall pre post t m size,
  bytes l -> Forall (fun x => x <> 0)%Z t -> size <= length (t ++ m) -> 0 < size -> length t + 1 <= size ->
  exists r, rhn2str_label (length l) (pre ++ l ++ post) (t ++ m) size (length pre) (length t) = Some r /\
    match r with
    | inl str => overflowing str size (length (t ++ m)) /\ size <= length (t ++ show_label l) + 1
    | inr (i, j, str) => i = length (pre ++ l) /\ j = length (t ++ show_label l) /\
        (exists m', str = (t ++ show_label l) ++ m' /\ length str = length (t ++ m)) /\
        (l <> [] -> j + 1 < size)
    end.
Proof.
  induction l as [|c l IH]; intros pre post t m size Hb Hnz Hsz H0 Ht.
  { cbn. eexists. split; [done|]. rewrite !app_nil_r. splits; [done|done|by exists m|done]. }
  apply Forall_cons in Hb as [Hc Hb]. cbn [length rhn2str_label].
  destruct (size <=? length t + 2) eqn:E1; boolp.
  { eexists. split; [done|]. split; [apply overflowing_prefix; [done|done|lia]|].
    rewrite show_label_cons, !length_app. assert (1 <= length (show_byte c)); [|lia].
    unfold show_byte. destruct (isgraph c), (special c); cbn; lia. }
  rewrite length_app in Hsz.
  assert (Hrd : rd (pre ++ (c :: l) ++ post) (length pre) = Some c) by (cbn; apply rd_app_mid). rewrite Hrd. sbind.
  (* one more character of the name, with its text [w] *)
  assert (Hstep : forall w m2, w = show_byte c -> length t + length w + 1 < size -> length w + length m2 = length m ->
    exists r, rhn2str_label (length l) (pre ++ (c :: l) ++ post) ((t ++ w) ++ m2) size (length pre + 1) (length t + length w) = Some r /\
    match r with
    | inl str => overflowing str size (length (t ++ m)) /\ size <= length (t ++ show_label (c :: l)) + 1
    | inr (i, j, str) => i = length (pre ++ c :: l) /\ j = length (t ++ show_label (c :: l)) /\
        (exists m', str = (t ++ show_label (c :: l)) ++ m' /\ length str = length (t ++ m)) /\
        (c :: l <> [] -> j + 1 < size)
    end).
  { intros w m2 Hw Hfit Hm2. assert (Hl : length ((t ++ w) ++ m2) = length (t ++ m)) by (rewrite !length_app; lia).
    destruct (IH (pre ++ [c]) post (t ++ w) m2 size) as (r & Hr & Hm);
      [done|apply Forall_app; split; [done|subst w; by apply show_byte_nz]|rewrite Hl, length_app; lia|done|rewrite length_app; lia|].
    rewrite <- (app_assoc pre), length_snoc, (length_app t w) in Hr. exists r. split; [exact Hr|].
    rewrite Hl in Hm. rewrite show_label_cons, <- Hw. destruct r as [str|[[i j] str]].
    - rewrite <- app_assoc in Hm. done.
    - rewrite <- app_assoc, <- app_assoc in Hm. destruct Hm as (-> & -> & Hex & Hne). splits; [done|done|done|].
      intros _. destruct l as [|c' l']; [|by apply Hne]. cbn. rewrite app_nil_r, length_app. lia. }
  unfold show_byte in Hstep. destruct (isgraph c) eqn:Eg.
  - destruct (special c) eqn:Es.
    + rewrite wr_snoc by lia. sbind. destruct (size <=? length t + 1 + 2) eqn:E2; boolp.
      * eexists. split; [done|]. split.
        -- rewrite <- app_assoc. cbn. apply overflowing_prefix; [rewrite length_app; cbn; rewrite length_drop, length_app; lia|done|lia].
        -- rewrite show_label_cons. unfold show_byte. rewrite Eg, Es, !length_app. cbn. lia.
      * replace (length t + 1) with (length (t ++ [92%Z])) by (rewrite length_app; cbn; lia).
        rewrite wr_snoc by (rewrite length_drop; lia). sbind.
        destruct (Hstep [92%Z; c] (drop 2 m) eq_refl) as (r & Hr & Hm); [cbn; lia|rewrite length_drop; cbn; lia|]. exists r. split; [|done].
        rewrite drop_drop, <- (app_assoc t). exact Hr.
    + rewrite wr_snoc by lia. sbind. destruct (Hstep [c] (drop 1 m) eq_refl) as (r & Hr & Hm); [cbn; lia|rewrite length_drop; cbn; lia|]. by exists r.
  - set (rem := size - 1 - length t). assert (Hrem : 2 <= rem) by lia. cbv zeta.
    rewrite snprintf_app by lia. sbind.
    change (length (octal3 c)) with 4. destruct (rem <=? 4) eqn:E2; boolp.
    + pose proof (octal_nz c Hc) as Ho.
      assert (Hwr : wr (t ++ take (rem - 1) (octal3 c) ++ 0%Z :: drop (S (length (take (rem - 1) (octal3 c)))) m) (length t) 46 =
        Some ((t ++ 46%Z :: drop 1 (take (rem - 1) (octal3 c))) ++ 0%Z :: drop (S (length (take (rem - 1) (octal3 c)))) m)).
      { rewrite wr_app_mid by (rewrite length_app; cbn; lia). rewrite <- app_assoc. cbn [app]. do 3 f_equal.
        rewrite drop_app_le; [done|]. rewrite length_take. change (length (octal3 c)) with 4. lia. }
      rewrite Hwr. sbind. eexists. split; [done|]. split.
      * apply overflowing_prefix.
        -- rewrite !length_app. cbn [length]. rewrite !length_drop, !length_take. change (length (octal3 c)) with 4. lia.
        -- apply Forall_app. split; [done|]. constructor; [lia|]. by apply Forall_drop, Forall_take.
        -- rewrite length_app. cbn [length]. lia.
      * rewrite show_label_cons. unfold show_byte. rewrite Eg, !length_app. change (length (octal3 c)) with 4. lia.
    + assert (Htk : take (rem - 1) (octal3 c) = octal3 c) by (apply take_ge; change (length (octal3 c)) with 4; lia). rewrite Htk.
      destruct (Hstep (octal3 c) (0%Z :: drop 5 m) eq_refl) as (r & Hr & Hm);
        [change (length (octal3 c)) with 4; lia|change (length (octal3 c)) with 4; cbn [length]; rewrite length_drop; lia|].
      exists r. split; [|done]. rewrite <- app_assoc in Hr. exact Hr.
Qed.

Lemma rhn2str_overflow_spec str size len :
  overflowing str size len -> 0 < size -> size <= len ->
  exists text str', rhn2str_overflow str size = Some str' /\ length str' = len /\ holds str' size text /\
    length text = size - 1.
Proof.
  intros [Hl Hnz] H0 Hsz.
  set (t := take (size - 4) str) in *. set (k := size - 1 - length t).
  assert (Ht : length t = size - 4) by (unfold t; rewrite length_take; lia).
  assert (Hk : k <= 3 /\ length t + k + 1 = size) by lia. destruct Hk as [Hk3 Hk].
  assert (Hstr : str = t ++ drop (size - 4) str) by (unfold t; by rewrite take_drop).
  set (m := drop (size - 4) str) in *. assert (Hm : length m = len - (size - 4)) by (unfold m; rewrite length_drop; lia).
  assert (Hres : exists m', rhn2str_overflow str size = Some ((t ++ replicate k 46%Z) ++ 0%Z :: m') /\ length m' + k + 1 = length m).
  { unfold rhn2str_overflow.
    assert (Hw : forall v (u : list Z) i, i < length u -> wr (t ++ u) (length t + i) v = Some (t ++ <[i:=v]> u)).
    { intros v u i Hi. rewrite wr_lt by (rewrite length_app; lia). rewrite insert_app_r. done. }
    destruct (decide (4 <= size)) as [H4|H4].
    - assert (k = 3) as -> by lia. destruct m as [|a [|b [|c [|d m']]]]; cbn [length] in Hm; try lia. exists m'. rewrite Hstr.
      replace (size - 1) with (length t + 3) by lia. rewrite Hw by (cbn; lia). sbind.
      bool_true (0 <? length t + 3). replace (size - 2) with (length t + 2) by lia. rewrite Hw by (cbn; lia). sbind.
      bool_true (0 <? length t + 2). replace (size - 3) with (length t + 1) by lia. rewrite Hw by (cbn; lia). sbind.
      bool_true (0 <? length t + 1). replace (size - 4) with (length t + 0) by lia. rewrite Hw by (cbn; lia).
      split; [|cbn; lia]. by rewrite <- app_assoc.
    - assert (Ht0 : t = []) by (apply nil_length_inv; lia). rewrite Ht0 in *. cbn [app] in *. rewrite Hstr.
      destruct size as [|[|[|[|size]]]]; try lia; cbn in k; unfold k in *; cbn [Nat.sub] in *;
        (destruct m as [|a m]; [cbn in Hm; lia|]); try (destruct m as [|b m]; [cbn in Hm; lia|]); try (destruct m as [|c m]; [cbn in Hm; lia|]).
      all: (rewrite ?wr_lt by (cbn; lia)); cbn. all: try (rewrite wr_lt by (cbn; lia); cbn). all: try (rewrite wr_lt by (cbn; lia); cbn).
      all: eexists; split; [reflexivity|cbn in *; lia]. }
  destruct Hres as (m' & Hres & Hm'). exists (t ++ replicate k 46%Z), ((t ++ replicate k 46%Z) ++ 0%Z :: m').
  assert (Hlt : length (t ++ replicate k 46%Z) = size - 1) by (rewrite length_app, length_replicate; lia).
  splits; [done|rewrite length_app, Hlt; cbn; lia| |done].
  split; [|lia]. split; [|by exists m']. apply Forall_app. split; [done|]. apply Forall_replicate. lia.
Qed.

Definition show_labels (ls : list (list Z)) : list Z := concat (map (fun l => show_label l ++ [46%Z]) ls).

Lemma show_labels_cons l ls : show_labels (l :: ls) = (show_label l ++ [46%Z]) ++ show_labels ls.
Proof. done. Qed.

(** The buffer holds the text, or, if that is too long, a string that fills it. *)
Definition rendered (str : list Z) (size : nat) (full : list Z) : Prop :=
  exists text, holds str size text /\ (length full < size -> text = full) /\ (size <= length full -> length text = size - 1).

Lemma rhn2str_loop_spec ls : forall l fuel pre r t m size,
  wf_label l -> Forall wf_label ls -> Forall (fun x => x <> 0)%Z t -> size <= length (t ++ m) -> 0 < size -> length t + 1 <= size ->
  length ls < fuel ->
  exists str', rhn2str_loop fuel (Z.of_nat (length l)) (pre ++ l ++ enc_name ls ++ r) (t ++ m) size (length pre) (length t) = Some str' /\
    length str' = length (t ++ m) /\ rendered str' size (t ++ show_labels (l :: ls)).
Proof.
  induction ls as [|l2 ls IH]; intros l fuel pre r t m size Hl Hls Hnz Hsz H0 Ht Hf; (destruct fuel as [|fuel]; [lia|]);
    cbn [rhn2str_loop]; rewrite Nat2Z.id.
  all: destruct Hl as [Hll Hb]; assert (Hne : l <> []) by (by intros ->; cbn in Hll; lia).
  all: match goal with |- context [rhn2str_label _ (?a ++ ?b ++ ?p) (?t0 ++ ?m0) ?sz _ _] =>
    destruct (rhn2str_label_spec b a p t0 m0 sz) as (res & -> & Hres); [assumption..|] end; sbind.
  all: destruct res as [str|[[i j] str]];
    [destruct Hres as [Ho Hlong]; destruct (rhn2str_overflow_spec str size (length (t ++ m)) Ho H0 Hsz) as (text & str' & -> & Hls' & Hh & Hlt);
     exists str'; (split; [done|]); (split; [done|]); exists text; splits; [done| |done];
     rewrite show_labels_cons, !length_app in *; cbn [length] in *; lia|].
  all: destruct Hres as (-> & -> & (m' & -> & Hlm) & Hj); specialize (Hj Hne);
    assert (Hm' : 1 < length m') by (rewrite !length_app in *; lia); rewrite wr_snoc by lia; sbind.
  all: assert (Hnz2 : Forall (fun x => x <> 0)%Z ((t ++ show_label l) ++ [46%Z]))
    by (apply Forall_app; split; [apply Forall_app; split; [done|by apply show_label_nz]|repeat constructor; lia]).
  - rewrite app_assoc. assert (Hrd : rd ((pre ++ l) ++ enc_name [] ++ r) (length (pre ++ l)) = Some 0%Z) by apply rd_enc_nil.
    rewrite Hrd. sbind. cbn [Z.eqb].
    replace (length (t ++ show_label l) + 1) with (length ((t ++ show_label l) ++ [46%Z])) by (rewrite (length_app _ [46%Z]); done).
    rewrite wr_app_mid by (rewrite length_drop; lia). eexists. split; [done|].
    assert (Hfull : t ++ show_labels [l] = (t ++ show_label l) ++ [46%Z]) by (unfold show_labels; cbn; by rewrite app_nil_r, app_assoc).
    split.
    + rewrite <- Hlm, !length_app. cbn [length]. rewrite !length_drop. lia.
    + exists ((t ++ show_label l) ++ [46%Z]). rewrite Hfull. splits; [|done|].
      * split; [|rewrite length_app; cbn; lia]. split; [done|by eexists].
      * rewrite (length_app _ [46%Z]). cbn. lia.
  - rewrite app_assoc. assert (Hrd : rd ((pre ++ l) ++ enc_name (l2 :: ls) ++ r) (length (pre ++ l)) = Some (Z.of_nat (length l2))) by apply rd_enc_cons.
    rewrite Hrd. sbind. apply Forall_cons in Hls as [Hl2 Hls].
    assert ((Z.of_nat (length l2) =? 0)%Z = false) as -> by (apply Z.eqb_neq; destruct Hl2; lia).
    destruct (IH l2 fuel ((pre ++ l) ++ [Z.of_nat (length l2)]) r ((t ++ show_label l) ++ [46%Z]) (drop 1 m') size) as (str' & Hloop & Hlen' & Hren); try done.
    + rewrite !length_app, length_drop in *. cbn. lia.
    + rewrite (length_app _ [46%Z]). cbn. lia.
    + cbn in Hf. lia.
    + exists str'. splits.
      * rewrite <- Hloop. f_equal.
        -- rewrite enc_name_cons. unfold enc_label. rewrite <- !app_assoc. done.
        -- rewrite (length_app _ [_]). done.
        -- rewrite (length_app _ [46%Z]). done.
      * rewrite Hlen', <- Hlm, !length_app, length_drop. cbn. lia.
      * rewrite (show_labels_cons l (l2 :: ls)). rewrite !app_assoc in *. exact Hren.
Qed.

Lemma rhn2str_spec (ls : list (list Z)) (r str : list Z) (size : nat) :
  wf_name ls -> 0 < size <= length str ->
  exists str', rhn2str (enc_name ls ++ r) str size = Some (Some str') /\ length str' = length str /\
    rendered str' size (show_name ls).
Proof.
  intros [Hw _] Hsz. unfold rhn2str. bool_false (size =? 0). destruct ls as [|l ls].
  - cbn [enc_name enc_labels map concat app]. change (rd (0%Z :: r) 0) with (Some 0%Z). sbind. cbn [Z.eqb].
    destruct (2 <=? size) eqn:E; boolp.
    + destruct str as [|a [|b str]]; cbn [length] in Hsz; try lia. rewrite (wr_lt _ 0) by (cbn; lia). sbind. cbn [insert list_insert].
      rewrite (wr_lt _ 1) by (cbn; lia). sbind. eexists. split; [done|]. split; [done|]. exists [46%Z].
      splits; [|done|cbn; lia]. split; [split; [repeat constructor; lia|by exists str]|cbn; lia].
    + destruct str as [|a str]; cbn [length] in Hsz; try lia. rewrite wr_lt by (cbn; lia). sbind. eexists. split; [done|].
      split; [done|]. exists []. splits; [|cbn; lia|cbn; lia]. split; [split; [constructor|by exists str]|cbn; lia].
  - apply Forall_cons in Hw as [Hl Hls]. pose proof Hl as [Hll _].
    assert (Hrd : rd (enc_name (l :: ls) ++ r) 0 = Some (Z.of_nat (length l))) by (apply (rd_enc_cons [])). rewrite Hrd. sbind.
    assert ((Z.of_nat (length l) =? 0)%Z = false) as -> by (apply Z.eqb_neq; lia).
    destruct (rhn2str_loop_spec ls l (S (length (enc_name (l :: ls) ++ r))) [Z.of_nat (length l)] r [] str size) as (str' & Hloop & Hlen & Hren);
      try done; [cbn; lia|lia|cbn; lia| |].
    { rewrite enc_name_cons, !length_app. assert (length ls <= length (enc_name ls)); [|lia].
      clear. induction ls as [|l ls IH]; [cbn; lia|]. rewrite enc_name_cons, length_app, length_enc_label. cbn. lia. }
    exists str'. cbn [app length] in Hloop. rewrite enc_name_cons in *. unfold enc_label in *. cbn [app] in *.
    rewrite <- app_assoc in *. rewrite Hloop. sbind. splits; [done|done|]. exact Hren.
Qed.

(** [rhn2str] turns a name into text without writing past the given size; the
    buffer then holds a C string: the labels with special characters escaped and each
    followed by a dot if that fits, and a string that fills the buffer otherwise. *)
Theorem rhn2str_correct (ls : list (list Z)) (r str : list Z) (size : nat) :
  wf_name ls -> 0 < size <= length str ->
  exists str', rhn2str (enc_name ls ++ r) str size = Some (Some str') /\ length str' = length str /\
    rendered str' size (show_name ls).
Proof. apply rhn2str_spec. Qed.

Lemma rhn2str_correct_witness :
  exists str', rhn2str (enc_name [[97; 46]; [7]]%Z ++ []) (replicate 12 1%Z) 12 = Some (Some str') /\
    rendered str' 12 [97; 92; 46; 46; 92; 48; 48; 55; 46]%Z.
Proof.
  destruct (rhn2str_correct [[97; 46]; [7]]%Z [] (replicate 12 1%Z) 12) as (str' & H & _ & Hr).
  - split; [repeat constructor; simpl; lia|vm_compute; lia].
  - cbn. lia.
  - exists str'. split; [exact H|exact Hr].
Defined.

(** Characters that need no escape. *)
Definition plain (c : Z) : Prop := isgraph c = true /\ special c = false.

Lemma show_label_plain l : Forall plain l -> show_label l = l.
Proof.
  induction l as [|c l IH]; intros Hl; [done|]. apply Forall_cons in Hl as [[Hg Hs] Hl].
  rewrite show_label_cons, IH by done. unfold show_byte. by rewrite Hg, Hs.
Qed.

Lemma show_name_plain ls : Forall (Forall plain) ls -> show_name ls = match ls with [] => [46%Z] | _ => dotted ls end.
Proof.
  intros Hp. destruct ls as [|l ls]; [done|]. unfold show_name, dotted. f_equal. apply map_ext_in. intros x Hx.
  apply list_elem_of_In in Hx. rewrite show_label_plain; [done|]. rewrite Forall_forall in Hp. by apply Hp.
Qed.

Lemma plain_text l : wf_label l -> Forall plain l -> wf_text l.
Proof.
  intros Hl Hp. split; [done|]. eapply Forall_impl; [exact Hp|]. intros c [Hg Hs]. unfold isgraph, special in *.
  boolp. lia.
Qed.

(** A name of printable characters other than dot, backslash and quote survives the
    conversion to text and back. *)
Theorem rhn2str_str2rhn (ls : list (list Z)) (r str rhn : list Z) :
  wf_name ls -> Forall (Forall plain) ls -> length str = DNSNAMEBUFSIZE -> length rhn = DNSNAMEBUFSIZE ->
  exists str' r', rhn2str (enc_name ls ++ r) str DNSNAMEBUFSIZE = Some (Some str') /\
    str2rhn str' rhn = Some (true, enc_name ls ++ r').
Proof.
  intros Hw Hp Hstr Hrhn. destruct (rhn2str_spec ls r str DNSNAMEBUFSIZE Hw) as (str' & Hs & _ & text & [Hc _] & Hfit & _);
    [rewrite Hstr; unfold DNSNAMEBUFSIZE; lia|].
  rewrite show_name_plain in Hfit by done.
  assert (Htext : text = match ls with [] => [46%Z] | _ => dotted ls end).
  { apply Hfit. destruct ls as [|l ls]; [unfold DNSNAMEBUFSIZE; cbn; lia|]. rewrite length_dotted. destruct Hw as [_ Hl].
    unfold enc_name in Hl. rewrite length_app in Hl. cbn [length] in Hl. lia. }
  assert (Hn : names_text text ls).
  { rewrite Htext. split; [|split; [done|]].
    - apply Forall_forall. intros l Hl. rewrite Forall_forall in Hp. destruct Hw as [Hw _]. rewrite Forall_forall in Hw.
      apply plain_text; [by apply Hw|by apply Hp].
    - destruct ls; [by right|by left]. }
  assert (Hb : bytes text).
  { rewrite Htext. destruct ls as [|l0 ls0]; [by repeat constructor|]. apply Forall_concat, Forall_map.
    destruct Hw as [Hw _]. eapply Forall_impl; [exact Hw|]. intros l [_ Hl]. apply Forall_app. split; [done|by repeat constructor]. }
  destruct (str2rhn_names str' text rhn ls Hc Hb Hrhn Hn) as [r' Hr']. by exists str', r'.
Qed.

Lemma rhn2str_str2rhn_witness :
  exists str' r', rhn2str (enc_name [[119; 119; 119]; [120]]%Z ++ [5]%Z) (replicate DNSNAMEBUFSIZE 1%Z) DNSNAMEBUFSIZE = Some (Some str') /\
    str2rhn str' (replicate DNSNAMEBUFSIZE 2%Z) = Some (true, [3; 119; 119; 119; 1; 120; 0]%Z ++ r').
Proof.
  apply (rhn2str_str2rhn [[119; 119; 119]; [120]]%Z [5]%Z (replicate DNSNAMEBUFSIZE 1%Z) (replicate DNSNAMEBUFSIZE 2%Z)).
  - split; [repeat constructor; simpl; lia|vm_compute; lia].
  - repeat constructor.
  - reflexivity.
  - reflexivity.
Defined.

(** *** [escapestr] *)

Definition esc_byte (c : Z) : list Z :=
  if negb (isprint c) then octal3 c else if ((c =? 92) || (c =? 34))%Z then [92%Z; c] else [c].
Definition esc (l : list Z) : list Z := concat (map esc_byte l).

Lemma escapestr_loop_spec l : forall t m size,
  bytes l -> size <= length (t ++ m) -> length t < size ->
  exists res str', escapestr_loop l (t ++ m) size (length t) = Some (res, str') /\ length str' = length (t ++ m) /\
    if decide (length (t ++ esc l) < size) then res = Some (length (t ++ esc l)) /\ exists m', str' = (t ++ esc l) ++ 0%Z :: m'
    else res = None.
Proof.
  induction l as [|c l IH]; intros t m size Hb Hsz Ht; cbn [escapestr_loop]; rewrite length_app in Hsz.
  - unfold esc. cbn [map concat]. rewrite app_nil_r. rewrite wr_app_mid by lia. sbind.
    eexists _, _. split; [done|]. split; [rewrite !length_app; cbn; rewrite length_drop; lia|].
    rewrite decide_True by lia. split; [done|by eexists].
  - apply Forall_cons in Hb as [Hc Hb].
    assert (Hcons : esc (c :: l) = esc_byte c ++ esc l) by done.
    assert (Hpos : 1 <= length (esc_byte c)) by (unfold esc_byte; destruct (negb (isprint c)), ((c =? 92) || (c =? 34))%Z; cbn; lia).
    assert (Hfail : forall str', length str' = length (t ++ m) -> size <= length t + length (esc_byte c) ->
      exists res s', Some (@None nat, str') = Some (res, s') /\ length s' = length (t ++ m) /\
      if decide (length (t ++ esc (c :: l)) < size) then res = Some (length (t ++ esc (c :: l))) /\ exists m', s' = (t ++ esc (c :: l)) ++ 0%Z :: m' else res = None).
    { intros str' Hl Hlong. eexists _, _. split; [done|]. split; [done|]. rewrite decide_False; [done|].
      rewrite Hcons, !length_app. lia. }
    destruct (size <=? length t + 1) eqn:E1; boolp; [apply Hfail; [done|lia]|].
    assert (Hstep : forall w m2, w = esc_byte c -> length t + length w < size -> length w + length m2 = length m ->
      exists res str', escapestr_loop l ((t ++ w) ++ m2) size (length t + length w) = Some (res, str') /\ length str' = length (t ++ m) /\
      if decide (length (t ++ esc (c :: l)) < size) then res = Some (length (t ++ esc (c :: l))) /\ exists m', str' = (t ++ esc (c :: l)) ++ 0%Z :: m' else res = None).
    { intros w m2 Hw Hfit Hm2. rewrite <- length_app. destruct (IH (t ++ w) m2 size Hb) as (res & str' & Hr & Hl & Hres);
        [rewrite !length_app; lia|rewrite length_app; lia|]. exists res, str'. split; [exact Hr|].
      split; [rewrite Hl, !length_app; lia|]. rewrite Hcons, <- Hw, app_assoc. exact Hres. }
    unfold esc_byte in Hstep, Hfail, Hpos. destruct (negb (isprint c)) eqn:Ep.
    + cbv zeta. rewrite snprintf_app by lia. sbind. change (length (octal3 c)) with 4 in *.
      destruct (size - length t <=? 4) eqn:E2; boolp.
      * apply Hfail; [|lia]. rewrite !length_app. cbn [length]. rewrite length_drop, length_take. change (length (octal3 c)) with 4. lia.
      * rewrite (take_ge (octal3 c)) by (change (length (octal3 c)) with 4; lia). change (length (octal3 c)) with 4.
        destruct (Hstep (octal3 c) (0%Z :: drop 5 m) eq_refl) as (res & str' & Hr & Hrest);
          [change (length (octal3 c)) with 4; lia|change (length (octal3 c)) with 4; cbn [length]; rewrite length_drop; lia|].
        exists res, str'. split; [|done]. rewrite <- app_assoc in Hr. exact Hr.
    + destruct ((c =? 92) || (c =? 34))%Z eqn:Ee.
      * rewrite wr_snoc by lia. sbind. destruct (size <=? length t + 1 + 1) eqn:E2; boolp.
        -- apply Hfail; [rewrite !length_app; cbn; rewrite length_drop; lia|cbn; lia].
        -- replace (length t + 1) with (length (t ++ [92%Z])) by (rewrite length_app; done).
           rewrite wr_snoc by (rewrite length_drop; lia). sbind.
           destruct (Hstep [92%Z; c] (drop 2 m) eq_refl) as (res & str' & Hr & Hrest); [cbn; lia|rewrite length_drop; cbn; lia|].
           exists res, str'. split; [|done]. rewrite drop_drop, <- (app_assoc t). exact Hr.
      * rewrite wr_snoc by lia. sbind. destruct (Hstep [c] (drop 1 m) eq_refl) as (res & str' & Hr & Hrest); [cbn; lia|rewrite length_drop; cbn; lia|].
        by exists res, str'.
Qed.

(** Reading the escapes back. *)
Fixpoint unesc (fuel : nat) (l : list Z) : list Z :=
  match fuel with
  | O => []
  | S f =>
      match l with
      | [] => []
      | 92%Z :: c :: l' =>
          if ((48 <=? c) && (c <=? 51))%Z then
            match l' with
            | d :: e :: l'' => ((c - 48) * 64 + (d - 48) * 8 + (e - 48))%Z :: unesc f l''
            | _ => []
            end
          else c :: unesc f l'
      | c :: l' => c :: unesc f l'
      end
  end.

Lemma unesc_esc l : forall fuel, bytes l -> length l < fuel -> unesc fuel (esc l) = l.
Proof.
  induction l as [|c l IH]; intros fuel Hb Hf; (destruct fuel as [|fuel]; [lia|]); [done|].
  apply Forall_cons in Hb as [Hc Hb]. cbn in Hf. change (esc (c :: l)) with (esc_byte c ++ esc l).
  specialize (IH fuel Hb ltac:(lia)). unfold esc_byte. destruct (negb (isprint c)) eqn:Ep.
  - unfold octal3. cbn [app unesc]. unfold is_byte in Hc.
    assert (0 <= c / 64 < 4)%Z by (split; [apply Z.div_pos; lia|apply Z.div_lt_upper_bound; lia]).
    bool_true (48 <=? 48 + c / 64)%Z. bool_true (48 + c / 64 <=? 51)%Z. cbn [andb]. rewrite IH. f_equal.
    pose proof (Z.div_mod c 8 ltac:(lia)). pose proof (Z.div_mod (c / 8) 8 ltac:(lia)) as Hd.
    rewrite Z.div_div in Hd by lia. change (8 * 8)%Z with 64%Z in Hd. lia.
  - destruct ((c =? 92) || (c =? 34))%Z eqn:Ee.
    + cbn [app unesc]. assert (((48 <=? c) && (c <=? 51))%Z = false) as ->.
      { apply orb_true_iff in Ee as [E|E]; boolp; by subst c. }
      by rewrite IH.
    + apply orb_false_iff in Ee as [E1 E2]. boolp. cbn [app]. cbn [unesc].
      destruct c as [|p|p]; try (by rewrite IH). do 7 (destruct p as [p|p|]; try (by rewrite IH)).
Qed.

(** [escapestr] writes the escaped text and its NUL into the buffer and returns the
    length exactly when it fits, never writes outside, and the escapes can be undone,
    so different inputs give different texts. *)
Theorem escapestr_correct (inp str : list Z) (size : nat) :
  bytes inp -> 0 < size <= length str ->
  exists res str', escapestr inp str size = Some (res, str') /\ length str' = length str /\
    (if decide (length (esc inp) < size) then res = Some (length (esc inp)) /\ exists m', str' = esc inp ++ 0%Z :: m' else res = None) /\
    unesc (S (length inp)) (esc inp) = inp.
Proof.
  intros Hb Hsz. destruct (escapestr_loop_spec inp [] str size Hb) as (res & str' & Hr & Hl & Hres); [cbn; lia|cbn; lia|].
  exists res, str'. splits; [done|done|done|]. apply unesc_esc; [done|lia].
Qed.

Lemma escapestr_correct_witness :
  exists str', escapestr [34; 7; 97]%Z (replicate 10 1%Z) 10 = Some (Some 7, str') /\ length str' = 10.
Proof.
  destruct (escapestr_correct [34; 7; 97]%Z (replicate 10 1%Z) 10) as (res & str' & H & Hl & Hr & _).
  - by repeat constructor.
  - cbn. lia.
  - exists str'. split; [|exact Hl]. rewrite H. f_equal. f_equal. apply Hr.
Defined.

(** *** [hexdump] *)

Fixpoint hex_text (first : bool) (data : list Z) : list Z :=
  match data with
  | [] => []
  | c :: data' => (if first then hex2 c else 32%Z :: hex2 c) ++ hex_text false data'
  end.

Lemma hexdigit_nz d : (0 <= d)%Z -> hexdigit d <> 0%Z.
Proof. intros H. unfold hexdigit. destruct (d <? 10)%Z; lia. Qed.

Lemma hex2_nz c : is_byte c -> Forall (fun x => x <> 0)%Z (hex2 c).
Proof.
  unfold is_byte. intros Hc. assert (0 <= c / 16)%Z by (apply Z.div_pos; lia).
  assert (0 <= c mod 16)%Z by (apply Z.mod_pos_bound; lia). repeat constructor; by apply hexdigit_nz.
Qed.

(** The loop: how far it got, with the text in the buffer. *)
Lemma hexdump_loop_spec data : forall first t m buflen,
  bytes data -> buflen <= length (t ++ m) -> length t < buflen -> Forall (fun x => x <> 0)%Z t ->
  exists r t' m', hexdump_loop data first (t ++ m) buflen (length t) = Some (r, t' ++ m') /\
    length (t' ++ m') = length (t ++ m) /\ length t' < buflen /\ Forall (fun x => x <> 0)%Z t' /\
    match r with
    | inr j => t' = t ++ hex_text first data /\ j = length t'
    | inl j => j = length t' /\ buflen <= length (t ++ hex_text first data)
    end.
Proof.
  induction data as [|c data IH]; intros first t m buflen Hb Hsz Ht Hnz; cbn [hexdump_loop hex_text].
  - eexists _, t, m. split; [done|]. by rewrite app_nil_r.
  - apply Forall_cons in Hb as [Hc Hb]. set (w := if first then hex2 c else 32%Z :: hex2 c).
    assert (Hw : Forall (fun x => x <> 0)%Z w).
    { unfold w. pose proof (hex2_nz c Hc). destruct first; [done|]. by constructor. }
    cbv zeta. rewrite length_app in Hsz. rewrite snprintf_app by lia. sbind.
    destruct (buflen - length t <=? length w) eqn:E; boolp.
    + eexists _, t, _. split; [done|]. splits; try done.
      * rewrite !length_app. cbn [length]. rewrite length_drop, length_take. lia.
      * rewrite !length_app. lia.
    + rewrite (take_ge w) by lia. rewrite app_assoc, <- length_app.
      destruct (IH false (t ++ w) (0%Z :: drop (S (length w)) m) buflen Hb) as (r & t' & m' & Hr & Hl & Hlt & Hnz' & Hm).
      * rewrite !length_app. cbn [length]. rewrite length_drop. lia.
      * rewrite length_app. lia.
      * by apply Forall_app.
      * exists r, t', m'. split; [exact Hr|]. splits; try done.
        -- rewrite Hl, !length_app. cbn [length]. rewrite length_drop. lia.
        -- rewrite <- app_assoc in Hm. exact Hm.
Qed.

(** Ending the string inside the part that has been written. *)
Lemma holds_cut t m j w buflen :
  Forall (fun x => x <> 0)%Z t -> Forall (fun x => x <> 0)%Z w -> j <= length t -> j + length w < buflen ->
  buflen <= length (t ++ m) ->
  exists buf, wr_bytes (t ++ m) j (w ++ [0%Z]) = Some buf /\ length buf = length (t ++ m) /\
    holds buf buflen (take j t ++ w).
Proof.
  intros Ht Hw Hj Hfit Hsz. assert (Htj : length (take j t) = j) by (rewrite length_take; lia).
  pose proof (wr_bytes_app_mid (w ++ [0%Z]) (take j t) (drop j t ++ m)) as E.
  rewrite Htj, app_assoc, take_drop in E.
  eexists. split; [apply E; rewrite !length_app, length_drop in *; cbn [length] in *; lia|]. split.
  - rewrite !length_app, !length_drop, !length_app, length_drop in *. cbn [length] in *. lia.
  - split; [|rewrite length_app; lia]. split; [apply Forall_app; split; [by apply Forall_take|done]|].
    eexists. rewrite <- !app_assoc. cbn [app]. done.
Qed.

(** [hexdump] never writes past [buflen] and leaves a C string in the buffer: the
    complete dump if it fits, and otherwise one that ends in dots. *)
Theorem hexdump_correct (data buf : list Z) (buflen : nat) :
  bytes data -> 0 < buflen <= length buf ->
  exists buf' text, hexdump data buf buflen = Some buf' /\ length buf' = length buf /\ holds buf' buflen text /\
    if decide (length (hex_text true data) < buflen) then text = hex_text true data
    else exists t k, text = t ++ replicate k 46%Z /\ k = Nat.min 3 (buflen - 1).
Proof.
  intros Hb Hsz. unfold hexdump.
  destruct (hexdump_loop_spec data true [] buf buflen Hb) as (r & t & m & Hr & Hl & Hlt & Hnz & Hm); [cbn; lia|cbn; lia|constructor|].
  cbn [app length] in Hr, Hl, Hm. rewrite Hr. sbind. rewrite <- Hl in Hsz. rewrite <- Hl. destruct r as [j|j].
  - destruct Hm as [-> Hlong]. destruct (6 <=? length t) eqn:E6; boolp.
    + cbv zeta. set (j := if buflen <=? length t - 3 + 4 then length t - 3 - 3 else length t - 3).
      assert (Hj : j <= length t /\ j + 4 < buflen) by (unfold j; destruct (buflen <=? length t - 3 + 4) eqn:E; boolp; lia).
      destruct (holds_cut t m j [32; 46; 46; 46]%Z buflen) as (buf' & Hw & Hlw & Hh); [done|by repeat constructor|lia|cbn; lia|lia|].
      exists buf', (take j t ++ [32; 46; 46; 46]%Z). splits; [exact Hw|done|done|].
      rewrite decide_False by lia. exists (take j t ++ [32%Z]), 3. rewrite <- app_assoc. split; [done|lia].
    + destruct (holds_cut t m 0 (replicate (Nat.min (buflen - 1) 3) 46%Z) buflen) as (buf' & Hw & Hlw & Hh);
        [done|apply Forall_replicate; lia|lia|rewrite length_replicate; lia|lia|].
      exists buf', (replicate (Nat.min (buflen - 1) 3) 46%Z). splits; [exact Hw|done|done|].
      rewrite decide_False by lia. exists [], (Nat.min (buflen - 1) 3). split; [done|lia].
  - destruct Hm as [-> ->]. destruct (holds_cut (hex_text true data) m (length (hex_text true data)) [] buflen) as (buf' & Hw & Hlw & Hh);
      [done|constructor|lia|cbn; lia|lia|].
    rewrite app_nil_r, take_ge in Hh by lia.
    exists buf', (hex_text true data). splits; [|done|done|by rewrite decide_True].
    cbn [app wr_bytes] in Hw. destruct (wr _ _ 0) as [b|]; [|done]. exact Hw.
Qed.

Lemma hexdump_correct_witness :
  exists buf', hexdump [1; 171]%Z (replicate 8 9%Z) 8 = Some buf' /\ holds buf' 8 [48; 49; 32; 97; 98]%Z.
Proof.
  destruct (hexdump_correct [1; 171]%Z (replicate 8 9%Z) 8) as (buf' & text & H & _ & Hh & Ht).
  - by repeat constructor.
  - cbn. lia.
  - exists buf'. split; [exact H|]. cbn in Ht. by rewrite Ht in Hh.
Defined.
