(* ===== verification/DnsName.v ===== *)
(** Wire-format names: [decompress_name], [domain_match] and [compress_name] of
    [pdnsd/src/dns.c]. *)
From S2P Require Import Prelude Names.

(** ** [decompress_name] *)

(** Return codes of dns.h the function uses. *)
Definition RC_OK : Z := 0.
Definition RC_FORMAT : Z := 1.
Definition RC_TRUNC : Z := 0xfffe.

(** The result: a return code and, for [RC_OK], the values stored through
    [src], [sz] and [len]; [tgt] is written in every case.  The source pointer
    [lptr] is its offset in [msg]. *)
Record decompress_result := {
  dr_rc : Z;
  dr_src : nat;
  dr_sz : nat;
  dr_len : nat;
  dr_tgt : list Z;
}.

(** [do tgt[tpos++]=*lptr++; while(--lb);] *)
Fixpoint copy_bytes (n : nat) (msg : list Z) (lptr : nat) (tgt : list Z) (tpos : nat)
    : option (list Z) :=
  match n with
  | O => Some tgt
  | S n' =>
      c ← rd msg lptr;
      tgt' ← wr tgt tpos c;
      copy_bytes n' msg (lptr + 1) tgt' (tpos + 1)
  end.

(** Where the loop that follows compression pointers stands: [inl] the decoded
    length and the target buffer, [inr] the error code. *)
Definition name_end : Type := (nat * list Z) + (Z * list Z).

(** The offset of a pointer: six bits of [lb], then the byte [b] that follows. *)
Definition ptr_offs (lb b : Z) : nat :=
  Z.to_nat (Z.lor (Z.shiftl (Z.land lb 0x3f) 8) b).

(** The inner [while(lb>0x3f)] of the part after the label [jumped]: follow
    pointers until a length byte is found.  [inl] gives the length byte, the
    position after it and the number of hops. *)
Fixpoint follow_ptrs (fuel : nat) (msg : list Z) (msgsz : nat) (lb : Z) (lptr hops : nat)
    : option ((Z * nat * nat) + Z) :=
  match fuel with
  | O => None
  | S f =>
      if (0x3f <? lb)%Z then
        if (lb <? 0xc0)%Z then Some (inr RC_FORMAT)
        else if (msgsz <=? lptr) then Some (inr RC_FORMAT)
        else if (255 <? hops + 1) then Some (inr RC_FORMAT)
        else
          b ← rd msg lptr;
          let offs := ptr_offs lb b in
          if (msgsz <=? offs) then Some (inr RC_FORMAT)
          else lb' ← rd msg offs; follow_ptrs f msg msgsz lb' (offs + 1) (hops + 1)
      else Some (inl (lb, lptr, hops))
  end.

(** The [for(;;)] after the label [jumped]. *)
Fixpoint jumped_loop (fuel : nat) (msg : list Z) (msgsz lptr hops : nat) (tgt : list Z) (tpos : nat)
    : option name_end :=
  match fuel with
  | O => None
  | S f =>
      lb0 ← rd msg lptr;
      r ← follow_ptrs 257 msg msgsz lb0 (lptr + 1) hops;
      match r with
      | inr rc => Some (inr (rc, tgt))
      | inl (lb, lptr, hops) =>
          tgt ← wr tgt tpos lb;
          let tpos := tpos + 1 in
          let n := Z.to_nat lb in
          if (lb =? 0)%Z then Some (inl (tpos, tgt))
          else if (msgsz <=? lptr + n) then Some (inr (RC_FORMAT, tgt))
          else if (DNSNAMEBUFSIZE - 1 <? tpos + n) then Some (inr (RC_FORMAT, tgt))
          else tgt ← copy_bytes n msg lptr tgt tpos;
               jumped_loop f msg msgsz (lptr + n) hops tgt (tpos + n)
      end
  end.

(** The first [for(;;)], which also counts down the bytes of the field. *)
Fixpoint first_loop (fuel : nat) (msg : list Z) (msgsz lptr newsz : nat) (tgt : list Z) (tpos : nat)
    : option (name_end * nat) :=
  match fuel with
  | O => None
  | S f =>
      let newsz := newsz - 1 in
      lb ← rd msg lptr;
      let lptr := lptr + 1 in
      if (0x3f <? lb)%Z then
        if (lb <? 0xc0)%Z then Some (inr (RC_FORMAT, tgt), newsz)
        else if (newsz =? 0) then Some (inr (RC_TRUNC, tgt), newsz)
        else if (msgsz <=? lptr) then Some (inr (RC_FORMAT, tgt), newsz)
        else
          let newsz := newsz - 1 in
          b ← rd msg lptr;
          let offs := ptr_offs lb b in
          if (msgsz <=? offs) then Some (inr (RC_FORMAT, tgt), newsz)
          else e ← jumped_loop (S DNSNAMEBUFSIZE) msg msgsz offs 1 tgt tpos; Some (e, newsz)
      else
        tgt ← wr tgt tpos lb;
        let tpos := tpos + 1 in
        let n := Z.to_nat lb in
        if (lb =? 0)%Z then Some (inl (tpos, tgt), newsz)
        else if (newsz <=? n) then Some (inr (RC_TRUNC, tgt), newsz)
        else if (msgsz <=? lptr + n) then Some (inr (RC_FORMAT, tgt), newsz)
        else if (DNSNAMEBUFSIZE - 1 <? tpos + n) then Some (inr (RC_FORMAT, tgt), newsz)
        else
          tgt ← copy_bytes n msg lptr tgt tpos;
          first_loop f msg msgsz (lptr + n) (newsz - n) tgt (tpos + n)
  end.

Definition decompress_name (msg : list Z) (msgsz src sz : nat) (tgt : list Z) : option decompress_result :=
  let fail rc tgt := {| dr_rc := rc; dr_src := src; dr_sz := sz; dr_len := 0; dr_tgt := tgt |} in
  if (sz =? 0) then Some (fail RC_TRUNC tgt)
  else if (msgsz <=? src) then Some (fail RC_FORMAT tgt)
  else
    '(e, newsz) ← first_loop (S DNSNAMEBUFSIZE) msg msgsz src sz tgt 0;
    match e with
    | inr (rc, tgt) => Some (fail rc tgt)
    | inl (tpos, tgt) =>
        Some {| dr_rc := RC_OK; dr_src := src + (sz - newsz); dr_sz := newsz;
                dr_len := tpos; dr_tgt := tgt |}
    end.

(** ** [domain_match] *)

(** Collect the length bytes: the array has 128 entries and the assertion does
    not return when there are more.  The result is the list of length bytes and
    the offset of the terminating zero. *)
Fixpoint collect_lens (fuel : nat) (m : list Z) (i : nat) (acc : list Z) : option (list Z * nat) :=
  match fuel with
  | O => None
  | S f =>
      lb ← rd m i;
      if (lb =? 0)%Z then Some (acc, i)
      else if (length acc <? 128) then collect_lens f m (i + (Z.to_nat lb + 1)) (acc ++ [lb])
      else None
  end.

(** [for(;lb;--lb) if(tolower(ms[--i]) != tolower(md[--j])) goto mismatch;] *)
Fixpoint match_back (n : nat) (ms md : list Z) (i j : nat) : option bool :=
  match n with
  | O => Some true
  | S n' =>
      a ← rd ms (i - 1); b ← rd md (j - 1);
      if (tolower a =? tolower b)%Z then match_back n' ms md (i - 1) (j - 1) else Some false
  end.

(** The [for(k=1; ...)] loop; [n] counts the iterations left. *)
Fixpoint match_loop (n : nat) (k : nat) (ms md ls ld : list Z) (i j : nat) : option (nat * nat * nat) :=
  match n with
  | O => Some (k - 1, i, j)
  | S n' =>
      lb ← ls !! (length ls - k);
      lb' ← ld !! (length ld - k);
      if negb (lb =? lb')%Z then Some (k - 1, i, j)
      else
        ok ← match_back (Z.to_nat lb) ms md i j;
        if (ok : bool)
        then match_loop n' (k + 1) ms md ls ld (i - Z.to_nat lb - 1) (j - Z.to_nat lb - 1)
        else Some (k - 1, i, j)
  end.

(** The result is the number of matching trailing labels, [*os] and [*od]. *)
Definition domain_match (ms md : list Z) : option (nat * nat * nat) :=
  '(ls, i) ← collect_lens (S (length ms)) ms 0 [];
  '(ld, j) ← collect_lens (S (length md)) md 0 [];
  match_loop (Nat.min (length ls) (length ld)) 1 ms md ls ld i j.

(** ** [compress_name] *)

(** An element of the compression buffer: the offset of a name in the packet
    and the name. *)
Record compel := { ci_index : nat; ci_s : list Z }.

(** Part 1: the longest match whose offset fits a pointer; the result is
    [(longest, lrem, coffs)]. *)
Fixpoint best_match (inn : list Z) (cb : list compel) (longest lrem coffs : nat)
    : option (nat * nat * nat) :=
  match cb with
  | [] => Some (longest, lrem, coffs)
  | ci :: cb' =>
      '(rv, rem, to) ← domain_match inn (ci_s ci);
      if (longest <? rv) then
        let newoffs := ci_index ci + to in
        if (Z.of_nat newoffs <=? 0x3fff)%Z then best_match inn cb' rv rem newoffs
        else best_match inn cb' longest lrem coffs
      else best_match inn cb' longest lrem coffs
  end.

(** [compress_name(in, out, offs, cb)].  [grow_ok] is the outcome of the memory
    allocation in [dlist_grow]: when it fails the buffer is freed and 0 is
    returned.  The result is the length, [out] and the compression buffer. *)
Definition compress_name (grow_ok : bool) (inn out : list Z) (offs : nat) (cb : list compel)
    : option (nat * list Z * list compel) :=
  ilen ← rhnlen inn;
  if decide (ilen <= DNSNAMEBUFSIZE) then
    '(longest, lrem, coffs) ← best_match inn cb 0 0 0;
    '(out, rl, add) ←
      (if (0 <? longest) then
         if decide (lrem + 2 <= ilen) then
           w ← rd_bytes inn 0 lrem;
           out ← wr_bytes out 0 w;
           out ← wr out lrem (Z.lor 0xc0 (Z.shiftr (Z.land (Z.of_nat coffs) 0x3f00) 8));
           out ← wr out (lrem + 1) (Z.land (Z.of_nat coffs) 0xff);
           Some (out, lrem + 2, negb (lrem =? 0))
         else None
       else
         w ← rd_bytes inn 0 ilen;
         out ← wr_bytes out 0 w;
         Some (out, ilen, true));
    if (add : bool) then
      if (grow_ok : bool) then
        w ← rd_bytes inn 0 ilen;
        Some (rl, out, cb ++ [{| ci_index := offs; ci_s := w |}])
      else Some (0, out, [])
    else Some (rl, out, cb)
  else None.

(** ** Specification: names in a message (RFC 1035, section 4.1.4)

    [name_at msg msgsz p ls h c]: the name at offset [p] of the message is [ls];
    reading it follows [h] compression pointers and takes [c] bytes at [p]. *)
Inductive name_at (msg : list Z) (msgsz : nat) : nat -> list (list Z) -> nat -> nat -> Prop :=
  | na_end p :
      p < msgsz -> rd msg p = Some 0%Z -> name_at msg msgsz p [] 0 1
  | na_label p l ls h c :
      wf_label l -> p + 1 + length l < msgsz ->
      rd msg p = Some (Z.of_nat (length l)) -> rd_bytes msg (p + 1) (length l) = Some l ->
      name_at msg msgsz (p + 1 + length l) ls h c ->
      name_at msg msgsz p (l :: ls) h (1 + length l + c)
  | na_ptr p hi lo ls h c :
      p + 1 < msgsz -> rd msg p = Some hi -> (0xc0 <= hi)%Z -> rd msg (p + 1) = Some lo ->
      ptr_offs hi lo < msgsz ->
      name_at msg msgsz (ptr_offs hi lo) ls h c ->
      name_at msg msgsz p ls (S h) 2.

Lemma name_at_wf msg msgsz p ls h c : name_at msg msgsz p ls h c -> Forall wf_label ls.
Proof. induction 1; [constructor|by constructor|done]. Qed.

Lemma name_at_lt msg msgsz p ls h c : name_at msg msgsz p ls h c -> p < msgsz /\ 1 <= c /\ p + c <= msgsz.
Proof. induction 1; lia. Qed.

(** ** Safety and soundness of [decompress_name] *)

Lemma copy_bytes_app n : forall msg lptr P T,
  lptr + n <= length msg -> n <= length T ->
  copy_bytes n msg lptr (P ++ T) (length P) = Some (P ++ take n (drop lptr msg) ++ drop n T).
Proof.
  induction n as [|n IH]; intros msg lptr P T Hm HT; cbn [copy_bytes]; [done|].
  destruct (rd_lt msg lptr) as [c Hc]; [lia|]. rewrite Hc. sbind.
  rewrite wr_app_mid by lia. sbind. rewrite snoc_assoc, <- (length_snoc P c).
  rewrite IH by (rewrite ?length_drop; lia).
  rewrite drop_drop, (drop_S msg c lptr Hc), <- app_assoc, Nat.add_1_r. done.
Qed.

Section Decompress.
Context (msg : list Z) (msgsz : nat).
Hypothesis Hmsg : bytes msg.
Hypothesis Hsz : msgsz <= length msg.

Lemma slice_wf lptr n :
  lptr + n <= length msg -> 1 <= n <= 63 ->
  wf_label (take n (drop lptr msg)) /\ length (take n (drop lptr msg)) = n /\
  rd_bytes msg lptr n = Some (take n (drop lptr msg)).
Proof.
  intros Hl Hn.
  assert (Hlen : length (take n (drop lptr msg)) = n) by (rewrite length_take, length_drop; lia).
  split_and!; [|done|].
  - split; [lia|]. apply Forall_take, Forall_drop, Hmsg.
  - unfold rd_bytes. by rewrite decide_True.
Qed.

Lemma follow_ptrs_spec : forall f lb p hops,
  p < msgsz -> rd msg p = Some lb -> hops <= 255 -> 255 - hops < f ->
  exists r, follow_ptrs f msg msgsz lb (p + 1) hops = Some r /\
    match r with
    | inr rc => rc = RC_FORMAT
    | inl (lb', lptr', hops') => exists q, lptr' = q + 1 /\ q < msgsz /\ rd msg q = Some lb' /\
        (0 <= lb' <= 0x3f)%Z /\ hops <= hops' <= 255 /\
        forall ls h c, name_at msg msgsz q ls h c ->
          exists c', name_at msg msgsz p ls (h + (hops' - hops)) c'
    end.
Proof.
  induction f as [|f IH]; intros lb p hops Hp Hlb Hh Hf; [lia|]. cbn [follow_ptrs].
  pose proof (rd_byte _ _ _ Hmsg Hlb) as Hb. unfold is_byte in Hb.
  destruct (0x3f <? lb)%Z eqn:E1; boolp.
  2:{ eexists. split; [done|]. exists p. split_and!; [done..|lia|lia|lia|lia|].
      intros ls h c H. exists c. by rewrite Nat.sub_diag, Nat.add_0_r. }
  destruct (lb <? 0xc0)%Z eqn:E2; boolp; [by eexists|].
  destruct (msgsz <=? p + 1) eqn:E3; boolp; [by eexists|].
  destruct (255 <? hops + 1) eqn:E4; boolp; [by eexists|].
  destruct (rd_lt msg (p + 1)) as [b Hb1]; [lia|]. rewrite Hb1. sbind.
  destruct (msgsz <=? ptr_offs lb b) eqn:E5; boolp; [by eexists|].
  destruct (rd_lt msg (ptr_offs lb b)) as [lb' Hlb']; [lia|]. rewrite Hlb'. sbind.
  destruct (IH lb' (ptr_offs lb b) (hops + 1) ltac:(lia) Hlb' ltac:(lia) ltac:(lia)) as (r & -> & Hr).
  exists r. split; [done|]. destruct r as [[[lb2 lptr2] hops2]|rc]; [|done].
  destruct Hr as (q & ? & ? & ? & ? & ? & Hna). exists q. split_and!; [done..|lia|lia|lia|lia|].
  intros ls h c H6. destruct (Hna ls h c H6) as [c' Hc']. exists 2.
  replace (h + (hops2 - hops)) with (S (h + (hops2 - (hops + 1)))) by lia.
  by eapply na_ptr.
Qed.

(** Outcome of a loop that has the labels [acc] in the target. *)
Definition ends_ok (p : nat) (acc : list (list Z)) (e : name_end) : Prop :=
  match e with
  | inl (tpos, tgt) => exists ls h c T, name_at msg msgsz p ls h c /\
      tgt = enc_name (acc ++ ls) ++ T /\ tpos = length (enc_name (acc ++ ls)) /\
      length tgt = DNSNAMEBUFSIZE
  | inr (rc, tgt) => (rc = RC_FORMAT \/ rc = RC_TRUNC) /\ length tgt = DNSNAMEBUFSIZE
  end.

(** Storing a label: its length byte, then its characters. *)
Lemma store_label acc T lptr n :
  length (enc_labels acc ++ T) = DNSNAMEBUFSIZE -> lptr + n <= length msg -> 1 <= n <= 63 ->
  length (enc_labels acc) + 1 + n <= DNSNAMEBUFSIZE - 1 ->
  let l := take n (drop lptr msg) in
  (exists tgt1, wr (enc_labels acc ++ T) (length (enc_labels acc)) (Z.of_nat n) = Some tgt1 /\
     length tgt1 = DNSNAMEBUFSIZE /\
     copy_bytes n msg lptr tgt1 (length (enc_labels acc) + 1) =
       Some (enc_labels (acc ++ [l]) ++ drop (1 + n) T)) /\
  length (enc_labels (acc ++ [l]) ++ drop (1 + n) T) = DNSNAMEBUFSIZE /\
  length (enc_labels (acc ++ [l])) = length (enc_labels acc) + 1 + n.
Proof.
  intros HT Hl Hn Hfit l. destruct (slice_wf lptr n Hl Hn) as (Hwl & Hll & _). fold l in Hwl, Hll.
  rewrite length_app in HT.
  assert (Henc : enc_labels (acc ++ [l]) = enc_labels acc ++ Z.of_nat n :: l).
  { rewrite enc_labels_app. f_equal. unfold enc_labels. cbn. rewrite app_nil_r.
    unfold enc_label. by rewrite Hll. }
  rewrite Henc. split_and!.
  - eexists. split; [apply wr_app_mid; lia|]. split.
    { rewrite length_app. cbn [length]. rewrite length_drop. lia. }
    rewrite snoc_assoc, <- (length_snoc (enc_labels acc) (Z.of_nat n)).
    rewrite copy_bytes_app by (rewrite ?length_drop; lia).
    by rewrite drop_drop, <- !app_assoc.
  - rewrite !length_app. cbn [length]. rewrite length_drop. lia.
  - rewrite length_app. cbn [length]. lia.
Qed.

Lemma store_end acc T :
  length (enc_labels acc ++ T) = DNSNAMEBUFSIZE -> length (enc_labels acc) < DNSNAMEBUFSIZE ->
  exists T', wr (enc_labels acc ++ T) (length (enc_labels acc)) 0 = Some (enc_name acc ++ T') /\
    length (enc_name acc ++ T') = DNSNAMEBUFSIZE.
Proof.
  intros HT Hlt. rewrite length_app in HT. exists (drop 1 T).
  rewrite wr_app_mid by lia. unfold enc_name. rewrite <- app_assoc. split; [done|].
  rewrite !length_app, length_drop. simpl. lia.
Qed.

(** Reading [l] and then what [e] reads is reading [l :: ...]. *)
Lemma ends_ok_label p l acc e :
  wf_label l -> p + 1 + length l < msgsz -> rd msg p = Some (Z.of_nat (length l)) ->
  rd_bytes msg (p + 1) (length l) = Some l ->
  ends_ok (p + 1 + length l) (acc ++ [l]) e -> ends_ok p acc e.
Proof.
  intros Hw Hlt Hr Hb He. destruct e as [[tpos tgt]|[rc tgt]]; [|done].
  destruct He as (ls & h & c & T & Hna & -> & -> & Hlen).
  exists (l :: ls), h, (1 + length l + c), T. rewrite <- app_assoc in *.
  split_and!; [|done..]. by apply na_label.
Qed.

Lemma ends_ok_reach p q acc e :
  (forall ls h c, name_at msg msgsz q ls h c -> exists h' c', name_at msg msgsz p ls h' c') ->
  ends_ok q acc e -> ends_ok p acc e.
Proof.
  intros Hreach He. destruct e as [[tpos tgt]|[rc tgt]]; [|done].
  destruct He as (ls & h & c & T & Hna & He). destruct (Hreach _ _ _ Hna) as (h' & c' & Hna').
  by exists ls, h', c', T.
Qed.

Lemma jumped_loop_spec : forall f p hops acc T,
  p < msgsz -> 1 <= hops <= 255 -> length (enc_labels acc ++ T) = DNSNAMEBUFSIZE ->
  length (enc_labels acc) < DNSNAMEBUFSIZE -> DNSNAMEBUFSIZE - length (enc_labels acc) < f ->
  exists e, jumped_loop f msg msgsz p hops (enc_labels acc ++ T) (length (enc_labels acc)) = Some e /\
    ends_ok p acc e.
Proof.
  induction f as [|f IH]; intros p hops acc T Hp Hh HT Hlt Hf; [lia|]. cbn [jumped_loop].
  destruct (rd_lt msg p) as [lb0 Hlb0]; [lia|]. rewrite Hlb0. sbind.
  destruct (follow_ptrs_spec 257 lb0 p hops Hp Hlb0 ltac:(lia) ltac:(lia)) as (r & -> & Hr). sbind.
  destruct r as [[[lb lptr] hops']|rc].
  2:{ eexists. split; [done|]. split; [by left|done]. }
  destruct Hr as (q & -> & Hq & Hlb & Hlb1 & Hhops & Hreach).
  assert (Hreach' : forall ls h c, name_at msg msgsz q ls h c -> exists h' c', name_at msg msgsz p ls h' c')
    by (intros; edestruct Hreach; eauto).
  destruct (decide (lb = 0%Z)) as [->|Hnz].
  { destruct (store_end acc T HT Hlt) as (T' & -> & HT'). sbind. cbn [Z.eqb].
    eexists. split; [done|]. apply (ends_ok_reach p q); [done|].
    exists [], 0, 1, T'. rewrite app_nil_r, length_enc_name.
    split_and!; [by apply na_end|done|lia|done]. }
  destruct (Z_of_nat_complete lb) as [n ->]; [lia|]. rewrite Nat2Z.id.
  destruct (decide (length (enc_labels acc) + 1 + n <= DNSNAMEBUFSIZE - 1)) as [Hfit|Hfit];
    [destruct (decide (q + 1 + n < msgsz)) as [Hin|Hin]|].
  - destruct (store_label acc T (q + 1) n HT ltac:(lia) ltac:(lia) Hfit) as ((tgt1 & -> & Hl1 & Hcp) & Hl2 & Hl3).
    sbind. bool_false (Z.of_nat n =? 0)%Z. bool_false (msgsz <=? q + 1 + n).
    bool_false (DNSNAMEBUFSIZE - 1 <? length (enc_labels acc) + 1 + n). rewrite Hcp. sbind.
    rewrite <- Hl3.
    destruct (slice_wf (q + 1) n ltac:(lia) ltac:(lia)) as (Hwl & Hll & Hrb).
    destruct (IH (q + 1 + n) hops' (acc ++ [take n (drop (q + 1) msg)]) (drop (1 + n) T))
      as (e & -> & He); [lia|lia|done|lia|lia|].
    exists e. split; [done|]. apply (ends_ok_reach p q); [done|].
    eapply ends_ok_label; [done| | | |]; rewrite ?Hll; [lia|congruence|done|done].
  - rewrite wr_lt by (rewrite length_app in *; lia). sbind.
    bool_false (Z.of_nat n =? 0)%Z. bool_true (msgsz <=? q + 1 + n).
    eexists. split; [done|]. split; [by left|by rewrite length_insert].
  - rewrite wr_lt by (rewrite length_app in *; lia). sbind.
    bool_false (Z.of_nat n =? 0)%Z. bool_true (DNSNAMEBUFSIZE - 1 <? length (enc_labels acc) + 1 + n).
    destruct (msgsz <=? q + 1 + n); (eexists; split; [done|]; split; [by left|by rewrite length_insert]).
Qed.

(** The first loop also accounts for the bytes of the field it consumes. *)
Definition first_ok (p : nat) (acc : list (list Z)) (newsz : nat) (r : name_end * nat) : Prop :=
  ends_ok p acc r.1 /\
  match r.1 with
  | inl (_, tgt) => exists ls h c T, name_at msg msgsz p ls h c /\ tgt = enc_name (acc ++ ls) ++ T /\
      newsz = r.2 + c
  | inr _ => True
  end.

Lemma first_ok_label p l acc newsz r :
  wf_label l -> p + 1 + length l < msgsz -> rd msg p = Some (Z.of_nat (length l)) ->
  rd_bytes msg (p + 1) (length l) = Some l -> 1 + length l <= newsz ->
  first_ok (p + 1 + length l) (acc ++ [l]) (newsz - 1 - length l) r -> first_ok p acc newsz r.
Proof.
  intros Hw Hlt Hr Hb Hnz [He Hs]. split; [by eapply ends_ok_label|].
  destruct (r.1) as [[tpos tgt]|]; [|done].
  destruct Hs as (ls & h & c & T & Hna & -> & Hc). exists (l :: ls), h, (1 + length l + c), T.
  rewrite <- app_assoc. split_and!; [by apply na_label|done|lia].
Qed.

Lemma first_loop_spec : forall f p newsz acc T,
  p < msgsz -> 1 <= newsz -> length (enc_labels acc ++ T) = DNSNAMEBUFSIZE ->
  length (enc_labels acc) < DNSNAMEBUFSIZE -> DNSNAMEBUFSIZE - length (enc_labels acc) < f ->
  exists r, first_loop f msg msgsz p newsz (enc_labels acc ++ T) (length (enc_labels acc)) = Some r /\
    first_ok p acc newsz r.
Proof.
  induction f as [|f IH]; intros p newsz acc T Hp Hnz HT Hlt Hf; [lia|]. cbn [first_loop].
  destruct (rd_lt msg p) as [lb Hlb]; [lia|]. rewrite Hlb. sbind.
  pose proof (rd_byte _ _ _ Hmsg Hlb) as Hbyte. unfold is_byte in Hbyte.
  destruct (0x3f <? lb)%Z eqn:E1; boolp.
  { destruct (lb <? 0xc0)%Z eqn:E2; boolp; [eexists; split; [done|]; split; [split; [by left|done]|done]|].
    destruct (newsz - 1 =? 0) eqn:E3; boolp; [eexists; split; [done|]; split; [split; [by right|done]|done]|].
    destruct (msgsz <=? p + 1) eqn:E4; boolp; [eexists; split; [done|]; split; [split; [by left|done]|done]|].
    destruct (rd_lt msg (p + 1)) as [b Hb]; [lia|]. rewrite Hb. sbind.
    destruct (msgsz <=? ptr_offs lb b) eqn:E5; boolp;
      [eexists; split; [done|]; split; [split; [by left|done]|done]|].
    destruct (jumped_loop_spec (S DNSNAMEBUFSIZE) (ptr_offs lb b) 1 acc T) as (e & -> & He);
      [lia|lia|done|lia|lia|]. sbind. eexists. split; [done|].
    destruct e as [[tpos tgt]|]; [|by split; [eapply ends_ok_reach; [|done]; eauto using na_ptr|]].
    destruct He as (ls & h & c & T2 & Hna & -> & -> & Hlen).
    assert (Hna2 : name_at msg msgsz p ls (S h) 2) by (by eapply na_ptr).
    split; [by exists ls, (S h), 2, T2|]. exists ls, (S h), 2, T2. cbn [snd]. split_and!; [done..|lia]. }
  destruct (decide (lb = 0%Z)) as [->|Hnz0].
  { destruct (store_end acc T HT Hlt) as (T' & -> & HT'). sbind. cbn [Z.eqb].
    assert (Hna : name_at msg msgsz p [] 0 1) by (by apply na_end).
    eexists. split; [done|]. split; exists [], 0, 1, T'; cbn [snd fst]; rewrite app_nil_r, ?length_enc_name;
      split_and!; done || lia. }
  destruct (Z_of_nat_complete lb) as [n ->]; [lia|]. rewrite Nat2Z.id.
  rewrite wr_lt by (rewrite length_app in *; lia). sbind. bool_false (Z.of_nat n =? 0)%Z.
  assert (Herr : forall rc, rc = RC_FORMAT \/ rc = RC_TRUNC -> forall m,
    first_ok p acc newsz (inr (rc, <[length (enc_labels acc):=Z.of_nat n]> (enc_labels acc ++ T)), m))
    by (intros rc Hrc m; split; [split; [done|by rewrite length_insert]|done]).
  destruct (newsz - 1 <=? n) eqn:E3; boolp; [eexists; split; [done|]; apply Herr; by right|].
  destruct (msgsz <=? p + 1 + n) eqn:E4; boolp; [eexists; split; [done|]; apply Herr; by left|].
  destruct (DNSNAMEBUFSIZE - 1 <? length (enc_labels acc) + 1 + n) eqn:E5; boolp;
    [eexists; split; [done|]; apply Herr; by left|].
  destruct (store_label acc T (p + 1) n HT ltac:(lia) ltac:(lia) ltac:(lia))
    as ((tgt1 & Hw1 & Hl1 & Hcp) & Hl2 & Hl3).
  apply wr_Some in Hw1 as (_ & -> & _). rewrite Hcp. sbind. rewrite <- Hl3.
  destruct (slice_wf (p + 1) n ltac:(lia) ltac:(lia)) as (Hwl & Hll & Hrb).
  destruct (IH (p + 1 + n) (newsz - 1 - n) (acc ++ [take n (drop (p + 1) msg)]) (drop (1 + n) T))
    as (r & -> & Hr); [lia|lia|done|lia|lia|].
  exists r. split; [done|].
  eapply (first_ok_label p (take n (drop (p + 1) msg))); rewrite ?Hll; done || lia.
Qed.

(** ** Completeness: every well-formed name of the message is decoded *)

Lemma follow_ptrs_complete h : forall f p ls c lb hops,
  name_at msg msgsz p ls h c -> rd msg p = Some lb -> hops + h <= 255 -> h < f ->
  exists q lb' h' c', follow_ptrs f msg msgsz lb (p + 1) hops = Some (inl (lb', q + 1, hops + h - h')) /\ h' <= h /\ rd msg q = Some lb' /\ (lb' <= 0x3f)%Z /\ name_at msg msgsz q ls h' c'.
Proof.
  induction h as [|h IH]; intros f p ls c lb hops Hna Hlb Hh Hf; (destruct f as [|f]; [lia|]);
    cbn [follow_ptrs].
  - assert (Hle : (lb <= 0x3f)%Z).
    { inversion Hna as [? _ Hr|? ? ? ? ? [Hwl _] _ Hr|]; subst; rewrite Hlb in Hr; injection Hr as ->; lia. }
    bool_false (0x3f <? lb)%Z. exists p, lb, 0, c. split_and!; [|done..].
    do 3 f_equal. lia.
  - inversion Hna as [|? l ls' ? ? [Hwl _] Hlt Hr|? hi lo ? ? c' Hlt Hr Hhi Hlo Hin Hna']; subst.
    + rewrite Hlb in Hr. injection Hr as ->. bool_false (0x3f <? Z.of_nat (length l))%Z.
      exists p, (Z.of_nat (length l)), (S h), (1 + length l + c0).
      split_and!; [do 3 f_equal; lia|done|done|lia|done].
    + rewrite Hlb in Hr. injection Hr as ->. bool_true (0x3f <? hi)%Z. bool_false (hi <? 0xc0)%Z.
      bool_false (msgsz <=? p + 1). bool_false (255 <? hops + 1). rewrite Hlo. sbind.
      bool_false (msgsz <=? ptr_offs hi lo).
      destruct (rd_lt msg (ptr_offs hi lo)) as [lb' Hlb']; [lia|]. rewrite Hlb'. sbind.
      destruct (IH f _ _ _ _ (hops + 1) Hna' Hlb' ltac:(lia) ltac:(lia)) as (q & lb2 & h' & c2 & -> & ? & ? & ? & ?).
      exists q, lb2, h', c2. split_and!; [do 3 f_equal; lia|lia|done..].
Qed.

Lemma jumped_loop_complete ls : forall f p h c hops acc T,
  name_at msg msgsz p ls h c -> 1 <= hops -> hops + h <= 255 ->
  length (enc_labels acc ++ T) = DNSNAMEBUFSIZE ->
  length (enc_name (acc ++ ls)) <= DNSNAMEBUFSIZE -> length ls < f ->
  exists T', jumped_loop f msg msgsz p hops (enc_labels acc ++ T) (length (enc_labels acc)) =
    Some (inl (length (enc_name (acc ++ ls)), enc_name (acc ++ ls) ++ T')).
Proof.
  induction ls as [|l ls IH]; intros f p h c hops acc T Hna Hh1 Hh HT Hfit Hf;
    (destruct f as [|f]; [simpl in Hf; lia|]); cbn [jumped_loop];
    destruct (rd_lt msg p) as [lb0 Hlb0]; [apply name_at_lt in Hna; lia| |apply name_at_lt in Hna; lia|];
    rewrite Hlb0; sbind;
    destruct (follow_ptrs_complete h 257 _ _ _ _ hops Hna Hlb0 ltac:(lia) ltac:(lia))
      as (q & lb & h' & c' & -> & Hh' & Hq & Hle & Hnaq); sbind.
  - inversion Hnaq as [? _ Hr| |? hi ? ? ? ? _ Hr Hhi]; subst;
      rewrite Hq in Hr; injection Hr as ->; [|lia].
    rewrite app_nil_r in *.
    destruct (store_end acc T HT ltac:(rewrite length_enc_name in Hfit; lia)) as (T' & -> & _). sbind.
    exists T'. cbn [Z.eqb]. rewrite length_enc_name. do 4 f_equal. lia.
  - inversion Hnaq as [|? ? ? ? ? [Hwl Hbl] Hlt Hr Hrb Hna'|? hi ? ? ? ? _ Hr Hhi]; subst;
      rewrite Hq in Hr; injection Hr as ->; [|lia].
    rewrite Nat2Z.id.
    assert (Hfit2 : length (enc_labels acc) + 1 + length l <= DNSNAMEBUFSIZE - 1)
      by (rewrite enc_name_app, enc_name_cons, !length_app, length_enc_label, length_enc_name in Hfit; lia).
    assert (Hin : q + 1 + length l <= length msg) by lia.
    destruct (store_label acc T (q + 1) (length l) HT Hin Hwl Hfit2) as ((tgt1 & -> & Hl1 & Hcp) & Hl2 & Hl3).
    sbind. bool_false (Z.of_nat (length l) =? 0)%Z. bool_false (msgsz <=? q + 1 + length l).
    bool_false (DNSNAMEBUFSIZE - 1 <? length (enc_labels acc) + 1 + length l). rewrite Hcp. sbind.
    assert (Hsl : take (length l) (drop (q + 1) msg) = l).
    { unfold rd_bytes in Hrb. rewrite decide_True in Hrb by done. by injection Hrb. }
    rewrite Hsl in *. rewrite <- Hl3.
    destruct (IH f (q + 1 + length l) h' c0 (hops + h - h') (acc ++ [l]) (drop (1 + length l) T))
      as (T' & ->); [done|lia|lia|done|by rewrite <- app_assoc|simpl in Hf; lia|].
    exists T'. by rewrite <- app_assoc.
Qed.

Lemma first_loop_ptr f p hi lo ls h c newsz acc T :
  p + 1 < msgsz -> rd msg p = Some hi -> (0xc0 <= hi)%Z -> rd msg (p + 1) = Some lo ->
  ptr_offs hi lo < msgsz -> name_at msg msgsz (ptr_offs hi lo) ls h c ->
  S h <= 255 -> 2 <= newsz -> length (enc_labels acc ++ T) = DNSNAMEBUFSIZE ->
  length (enc_name (acc ++ ls)) <= DNSNAMEBUFSIZE ->
  exists T', first_loop (S f) msg msgsz p newsz (enc_labels acc ++ T) (length (enc_labels acc)) =
    Some (inl (length (enc_name (acc ++ ls)), enc_name (acc ++ ls) ++ T'), newsz - 2).
Proof.
  intros Hlt Hr Hhi Hlo Hin Hna Hh Hnz HT Hfit. cbn [first_loop]. rewrite Hr. sbind.
  bool_true (0x3f <? hi)%Z. bool_false (hi <? 0xc0)%Z. bool_false (newsz - 1 =? 0).
  bool_false (msgsz <=? p + 1). rewrite Hlo. sbind. bool_false (msgsz <=? ptr_offs hi lo).
  destruct (jumped_loop_complete ls (S DNSNAMEBUFSIZE) (ptr_offs hi lo) h c 1 acc T)
    as (T' & ->); [done|lia|lia|done|done| |].
  - pose proof (labels_le_length _ (name_at_wf _ _ _ _ _ _ Hna)).
    rewrite enc_name_app, length_app, length_enc_name in Hfit. lia.
  - sbind. exists T'. do 2 f_equal. lia.
Qed.

Lemma first_loop_complete ls : forall f p h c newsz acc T,
  name_at msg msgsz p ls h c -> h <= 255 -> c <= newsz ->
  length (enc_labels acc ++ T) = DNSNAMEBUFSIZE ->
  length (enc_name (acc ++ ls)) <= DNSNAMEBUFSIZE -> length ls < f ->
  exists T', first_loop f msg msgsz p newsz (enc_labels acc ++ T) (length (enc_labels acc)) =
    Some (inl (length (enc_name (acc ++ ls)), enc_name (acc ++ ls) ++ T'), newsz - c).
Proof.
  induction ls as [|l ls IH]; intros f p h c newsz acc T Hna Hh Hc HT Hfit Hf;
    (destruct f as [|f]; [simpl in Hf; lia|]);
    inversion Hna as [? Hlt Hr|? ? ? ? c' [Hwl Hbl] Hlt Hr Hrb Hna'|? hi lo ? h' c' Hlt Hr Hhi Hlo Hin Hna'];
    subst; [|by eapply first_loop_ptr| |by eapply first_loop_ptr]; cbn [first_loop]; rewrite Hr; sbind.
  - bool_false (0x3f <? 0)%Z. rewrite app_nil_r in *.
    destruct (store_end acc T HT ltac:(rewrite length_enc_name in Hfit; lia)) as (T' & -> & _). sbind.
    exists T'. cbn [Z.eqb]. rewrite length_enc_name. do 5 f_equal. lia.
  - bool_false (0x3f <? Z.of_nat (length l))%Z. rewrite Nat2Z.id.
    assert (Hfit2 : length (enc_labels acc) + 1 + length l <= DNSNAMEBUFSIZE - 1)
      by (rewrite enc_name_app, enc_name_cons, !length_app, length_enc_label, length_enc_name in Hfit; lia).
    assert (Hin : p + 1 + length l <= length msg) by lia.
    destruct (store_label acc T (p + 1) (length l) HT Hin Hwl Hfit2) as ((tgt1 & -> & Hl1 & Hcp) & Hl2 & Hl3).
    sbind. bool_false (Z.of_nat (length l) =? 0)%Z. bool_false (msgsz <=? p + 1 + length l).
    pose proof (name_at_lt _ _ _ _ _ _ Hna') as (_ & Hc' & _). bool_false (newsz - 1 <=? length l).
    bool_false (DNSNAMEBUFSIZE - 1 <? length (enc_labels acc) + 1 + length l). rewrite Hcp. sbind.
    assert (Hsl : take (length l) (drop (p + 1) msg) = l).
    { unfold rd_bytes in Hrb. rewrite decide_True in Hrb by done. by injection Hrb. }
    rewrite Hsl in *. rewrite <- Hl3.
    destruct (IH f (p + 1 + length l) h c' (newsz - 1 - length l) (acc ++ [l]) (drop (1 + length l) T))
      as (T' & ->); [done|lia|lia|done|by rewrite <- app_assoc|simpl in Hf; lia|].
    exists T'. rewrite <- app_assoc. do 2 f_equal. lia.
Qed.
End Decompress.

Lemma decompress_name_ok (msg : list Z) (msgsz src sz : nat) (tgt : list Z) ls h c :
  bytes msg -> msgsz <= length msg -> length tgt = DNSNAMEBUFSIZE ->
  name_at msg msgsz src ls h c -> h <= 255 -> c <= sz -> wf_name ls ->
  exists T, decompress_name msg msgsz src sz tgt =
    Some {| dr_rc := RC_OK; dr_src := src + c; dr_sz := sz - c; dr_len := length (enc_name ls);
            dr_tgt := enc_name ls ++ T |}.
Proof.
  intros Hb Hsz Ht Hna Hh Hc [Hw Hl]. pose proof (name_at_lt _ _ _ _ _ _ Hna) as (Hlt & Hc1 & Hend).
  destruct (first_loop_complete msg msgsz Hb Hsz ls (S DNSNAMEBUFSIZE) src h c sz [] tgt)
    as (T & Hrun); [done|done|done|done|done| |].
  { pose proof (labels_le_length _ Hw). rewrite length_enc_name in Hl. lia. }
  change (enc_labels [] ++ tgt) with tgt in Hrun. change (length (enc_labels [])) with 0 in Hrun.
  exists T. unfold decompress_name.
  bool_false (sz =? 0). bool_false (msgsz <=? src). rewrite Hrun. sbind.
  do 2 f_equal. lia.
Qed.

Lemma decompress_name_spec (msg : list Z) (msgsz src sz : nat) (tgt : list Z) :
  bytes msg -> msgsz <= length msg -> length tgt = DNSNAMEBUFSIZE ->
  exists r, decompress_name msg msgsz src sz tgt = Some r /\ length (dr_tgt r) = DNSNAMEBUFSIZE /\
    (dr_rc r = RC_OK \/ dr_rc r = RC_FORMAT \/ dr_rc r = RC_TRUNC) /\
    (dr_rc r = RC_OK -> exists ls h c T, name_at msg msgsz src ls h c /\ wf_name ls /\
        dr_tgt r = enc_name ls ++ T /\ dr_len r = length (enc_name ls) /\
        c <= sz /\ dr_src r = src + c /\ dr_sz r = sz - c) /\
    (dr_rc r <> RC_OK -> dr_src r = src /\ dr_sz r = sz) /\
    (forall ls h c, name_at msg msgsz src ls h c -> h <= 255 -> c <= sz -> wf_name ls -> dr_rc r = RC_OK).
Proof.
  intros Hb Hsz Ht.
  assert (Hcomp : forall r, decompress_name msg msgsz src sz tgt = Some r ->
    forall ls h c, name_at msg msgsz src ls h c -> h <= 255 -> c <= sz -> wf_name ls -> dr_rc r = RC_OK).
  { intros r Hr ls h c H1 H2 H3 H4.
    destruct (decompress_name_ok msg msgsz src sz tgt ls h c) as [T E]; [done..|].
    rewrite E in Hr. by injection Hr as <-. }
  unfold decompress_name in *.
  destruct (sz =? 0) eqn:E0; boolp.
  { eexists. split_and!; [done|done|by auto|intros [=]|done|by apply Hcomp]. }
  destruct (msgsz <=? src) eqn:E1; boolp.
  { eexists. split_and!; [done|done|by auto|intros [=]|done|by apply Hcomp]. }
  destruct (first_loop_spec msg msgsz Hb Hsz (S DNSNAMEBUFSIZE) src sz [] tgt) as ([e newsz] & Hrun & He & Hs);
    [lia|lia|done|by apply Nat.ltb_lt|by apply Nat.ltb_lt|].
  change (enc_labels [] ++ tgt) with tgt in Hrun. change (length (enc_labels [])) with 0 in Hrun.
  rewrite Hrun in *. revert Hcomp. sbind. cbn [fst snd] in *. intros Hcomp.
  destruct e as [[tpos tgt']|[rc tgt']].
  - destruct Hs as (ls & h & c & T & Hna & -> & Hc).
    destruct He as (ls' & h' & c' & T' & Hna' & Htgt & -> & Hlen). cbn [app] in *.
    apply enc_name_inj in Htgt as [<- <-]; [|by eapply name_at_wf..].
    eexists. split; [done|]. split_and!; [done|by auto| |done|by apply Hcomp]. intros _. cbn.
    exists ls, h, c, T. split_and!; try done; try lia.
    split; [by eapply name_at_wf|]. rewrite length_app in Hlen. lia.
  - destruct He as [Hrc Hlen]. eexists. split; [done|].
    split_and!; [done|by destruct Hrc; auto| |done|by apply Hcomp]. cbn. intros ->. by destruct Hrc.
Qed.

(** C26: [decompress_name] is memory safe and terminates on every message, however
    its compression pointers are arranged, and returns one of three codes.  With
    [RC_OK] the target holds the name that RFC 1035 assigns to the position, the
    length is that of the stored name, and exactly the bytes of the name in the
    field have been consumed; on an error the position is unchanged.  Every name
    that fits the buffer and the field and takes at most 255 pointers is accepted. *)
Theorem decompress_name_correct (msg : list Z) (msgsz src sz : nat) (tgt : list Z) :
  bytes msg -> msgsz <= length msg -> length tgt = DNSNAMEBUFSIZE ->
  exists r, decompress_name msg msgsz src sz tgt = Some r /\ length (dr_tgt r) = DNSNAMEBUFSIZE /\
    (dr_rc r = RC_OK \/ dr_rc r = RC_FORMAT \/ dr_rc r = RC_TRUNC) /\
    (dr_rc r = RC_OK -> exists ls h c T, name_at msg msgsz src ls h c /\ wf_name ls /\
        dr_tgt r = enc_name ls ++ T /\ dr_len r = length (enc_name ls) /\
        c <= sz /\ dr_src r = src + c /\ dr_sz r = sz - c) /\
    (dr_rc r <> RC_OK -> dr_src r = src /\ dr_sz r = sz) /\
    (forall ls h c, name_at msg msgsz src ls h c -> h <= 255 -> c <= sz -> wf_name ls -> dr_rc r = RC_OK).
Proof. apply decompress_name_spec. Qed.

Lemma decompress_name_correct_witness :
  decompress_name [1;97;0xc0;5;0;1;98;0]%Z 8 0 4 (replicate DNSNAMEBUFSIZE 0%Z) =
    Some {| dr_rc := RC_OK; dr_src := 4; dr_sz := 0; dr_len := 5;
            dr_tgt := [1;97;1;98;0]%Z ++ replicate 251 0%Z |} /\
  exists r, decompress_name [1;97;0xc0;5;0;1;98;0]%Z 8 0 4 (replicate DNSNAMEBUFSIZE 0%Z) = Some r /\
    (dr_rc r <> RC_OK -> dr_src r = 0 /\ dr_sz r = 4).
Proof.
  split; [vm_compute; reflexivity|].
  destruct (decompress_name_correct [1;97;0xc0;5;0;1;98;0]%Z 8 0 4 (replicate DNSNAMEBUFSIZE 0%Z))
    as (r & Hr & _ & _ & _ & Hu & _); [by repeat constructor|simpl; lia|done|]. by exists r.
Defined.

(** ** [domain_match] *)

(** The number of trailing labels two names share, letters compared without case. *)
Fixpoint common_prefix (a b : list (list Z)) : nat :=
  match a, b with
  | x :: a', y :: b' => if decide (map tolower x = map tolower y) then S (common_prefix a' b') else 0
  | _, _ => 0
  end.
Definition common_suffix (a b : list (list Z)) : nat := common_prefix (rev a) (rev b).

Lemma common_suffix_snoc a b x y :
  common_suffix (a ++ [x]) (b ++ [y]) =
  if decide (map tolower x = map tolower y) then S (common_suffix a b) else 0.
Proof. unfold common_suffix. by rewrite !rev_app_distr. Qed.

Lemma common_prefix_le a b : common_prefix a b <= Nat.min (length a) (length b).
Proof.
  revert b. induction a as [|x a IH]; intros [|y b]; cbn; try lia.
  case_decide; [|lia]. specialize (IH b). lia.
Qed.

Lemma common_suffix_le a b : common_suffix a b <= Nat.min (length a) (length b).
Proof. unfold common_suffix. rewrite <- (length_rev a), <- (length_rev b). apply common_prefix_le. Qed.

Lemma common_prefix_take a b :
  name_eqi (take (common_prefix a b) a) (take (common_prefix a b) b).
Proof.
  revert b. induction a as [|x a IH]; intros [|y b]; try done. cbn.
  case_decide as E; [|done]. specialize (IH b). unfold name_eqi, lower_name in *. cbn. by rewrite E, IH.
Qed.

(** The shared labels are equal up to case. *)
Lemma common_suffix_drop a b :
  name_eqi (drop (length a - common_suffix a b) a) (drop (length b - common_suffix a b) b).
Proof.
  pose proof (common_prefix_take (rev a) (rev b)) as H. fold (common_suffix a b) in H.
  unfold name_eqi, lower_name in *. rewrite !firstn_rev in H. rewrite !map_rev in H.
  by apply rev_inj in H.
Qed.

Lemma common_prefix_max a b x y a' b' :
  drop (common_prefix a b) a = x :: a' -> drop (common_prefix a b) b = y :: b' ->
  map tolower x <> map tolower y.
Proof.
  revert b. induction a as [|u a IH]; intros [|v b]; cbn; try done.
  case_decide as E; cbn; [apply IH|]. by intros [= -> _] [= -> _].
Qed.

(** And the labels before them are not. *)
Lemma common_suffix_maximal a b x y a' b' :
  take (length a - common_suffix a b) a = a' ++ [x] ->
  take (length b - common_suffix a b) b = b' ++ [y] -> map tolower x <> map tolower y.
Proof.
  intros Ha Hb. unfold common_suffix in *.
  apply (common_prefix_max (rev a) (rev b) x y (rev a') (rev b')).
  - by rewrite skipn_rev, Ha, rev_app_distr.
  - by rewrite skipn_rev, Hb, rev_app_distr.
Qed.

Lemma collect_lens_enc ls : forall pre r acc f,
  Forall wf_label ls -> length acc + length ls <= 128 -> length ls < f ->
  collect_lens f (pre ++ enc_name ls ++ r) (length pre) acc =
    Some (acc ++ map (fun l => Z.of_nat (length l)) ls, length pre + length (enc_labels ls)).
Proof.
  induction ls as [|l ls IH]; intros pre r acc f Hw Ha Hf; (destruct f as [|f]; [simpl in Hf; lia|]);
    cbn [collect_lens].
  - rewrite rd_enc_nil. sbind. cbn. by rewrite app_nil_r, Nat.add_0_r.
  - apply Forall_cons in Hw as [Hl Hw]. rewrite rd_enc_cons. sbind. rewrite wf_label_nonzero by done.
    cbn [length] in *. bool_true (length acc <? 128). rewrite Nat2Z.id, enc_regroup.
    replace (length pre + (length l + 1)) with (length (pre ++ enc_label l)) by (rewrite length_pre_label; lia).
    rewrite IH by (done || rewrite ?length_app; simpl; lia).
    rewrite <- app_assoc, enc_labels_cons, !length_app. cbn [map app]. do 2 f_equal. lia.
Qed.

Lemma match_back_app l : forall l' p p' r r',
  length l = length l' ->
  match_back (length l) (p ++ l ++ r) (p' ++ l' ++ r') (length p + length l) (length p' + length l') =
  Some (bool_decide (map tolower l = map tolower l')).
Proof.
  induction l as [|x l IH] using rev_ind; intros l' p p' r r' Hl.
  - by destruct l'.
  - destruct l' as [|y l' _] using rev_ind; [rewrite length_snoc in Hl; simpl in Hl; lia|].
    rewrite !length_snoc in *. rewrite Nat.add_1_r. cbn [match_back].
    replace (length p + S (length l) - 1) with (length (p ++ l)) by (rewrite length_app; lia).
    replace (length p' + (length l' + 1) - 1) with (length (p' ++ l')) by (rewrite length_app; lia).
    rewrite <- !app_assoc. cbn [app]. rewrite !(app_assoc _ _ (_ :: _)), !rd_app_mid. sbind.
    rewrite <- !app_assoc, !length_app, !map_app. cbn [map].
    destruct (tolower x =? tolower y)%Z eqn:E; boolp.
    + rewrite IH by lia. f_equal. apply bool_decide_ext. rewrite E. split; [congruence|].
      intros H. apply app_inj_2 in H as [? _]; done.
    + symmetry. f_equal. apply bool_decide_false. intros H. apply app_inj_2 in H as [_ [=]]; done.
Qed.

Abbreviation lens := (map (fun l : list Z => Z.of_nat (length l))).

(** The length byte that iteration [k] compares belongs to the last label not yet matched. *)
Lemma lens_lookup (a1 : list (list Z)) x a2 k :
  k = length a2 + 1 ->
  lens ((a1 ++ [x]) ++ a2) !! (length (lens ((a1 ++ [x]) ++ a2)) - k) = Some (Z.of_nat (length x)).
Proof.
  intros ->. rewrite length_map, !length_app. cbn [length].
  replace (length a1 + 1 + length a2 - (length a2 + 1)) with (length (lens a1)) by (rewrite length_map; lia).
  rewrite !map_app, <- app_assoc. by apply list_lookup_middle.
Qed.

Lemma enc_name_split (a1 : list (list Z)) x a2 r :
  enc_name ((a1 ++ [x]) ++ a2) ++ r =
  (enc_labels a1 ++ [Z.of_nat (length x)]) ++ x ++ (enc_name a2 ++ r).
Proof.
  rewrite enc_name_app, enc_labels_app, <- !app_assoc. f_equal.
  change (enc_labels [x]) with (enc_label x ++ []). by rewrite app_nil_r.
Qed.

Lemma length_enc_snoc (a1 : list (list Z)) x :
  length (enc_labels (a1 ++ [x])) = length (enc_labels a1 ++ [Z.of_nat (length x)]) + length x.
Proof.
  rewrite enc_labels_app, !length_app. change (enc_labels [x]) with (enc_label x ++ []).
  rewrite app_nil_r, length_enc_label. simpl. lia.
Qed.

Lemma match_loop_spec a1 : forall b1 a2 b2 ra rb n k,
  length a2 = length b2 -> k = length a2 + 1 -> n = Nat.min (length a1) (length b1) ->
  match_loop n k (enc_name (a1 ++ a2) ++ ra) (enc_name (b1 ++ b2) ++ rb)
      (lens (a1 ++ a2)) (lens (b1 ++ b2)) (length (enc_labels a1)) (length (enc_labels b1)) =
  let m := common_suffix a1 b1 in
  Some (length a2 + m, length (enc_labels (take (length a1 - m) a1)),
        length (enc_labels (take (length b1 - m) b1))).
Proof.
  induction a1 as [|x a1 IH] using rev_ind; intros b1 a2 b2 ra rb n k Hl -> ->.
  - cbn -[take]. change (common_suffix [] b1) with 0.
    rewrite Nat.sub_0_r, !take_ge by (cbn [length]; lia). do 3 f_equal. lia.
  - destruct b1 as [|y b1 _] using rev_ind.
    { rewrite Nat.min_0_r. unfold common_suffix. cbn [rev common_prefix match_loop].
      replace (common_prefix (rev (a1 ++ [x])) []) with 0 by (by destruct (rev (a1 ++ [x]))).
      rewrite !Nat.sub_0_r, !take_ge by (cbn [length]; lia). do 3 f_equal. lia. }
    rewrite common_suffix_snoc, !length_snoc, Nat.add_min_distr_r, Nat.add_1_r. cbn [match_loop].
    rewrite (lens_lookup a1 x a2) by done. rewrite (lens_lookup b1 y b2) by lia. sbind.
    rewrite !Nat2Z.id.
    destruct (Z.eqb_spec (Z.of_nat (length x)) (Z.of_nat (length y))) as [E|E]; cbn [negb].
    + apply Nat2Z.inj in E. rewrite !enc_name_split, !length_enc_snoc.
      rewrite match_back_app by done. sbind. destruct (decide (map tolower x = map tolower y)) as [Ee|Ee].
      * rewrite bool_decide_true by done. rewrite <- !enc_name_split, <- !app_assoc.
        rewrite !length_snoc, <- E.
        replace (length (enc_labels a1) + 1 + length x - length x - 1) with (length (enc_labels a1)) by lia.
        replace (length (enc_labels b1) + 1 + length x - length x - 1) with (length (enc_labels b1)) by lia.
        rewrite IH by (cbn [app length]; lia). cbn zeta.
        replace (length a1 + 1 - S (common_suffix a1 b1)) with (length a1 - common_suffix a1 b1) by lia.
        replace (length b1 + 1 - S (common_suffix a1 b1)) with (length b1 - common_suffix a1 b1) by lia.
        rewrite !take_app_le by lia. do 3 f_equal; simpl; lia.
      * rewrite bool_decide_false by done. rewrite <- !length_enc_snoc.
        cbn zeta. rewrite !Nat.sub_0_r, !take_ge by (rewrite length_snoc; lia).
        do 3 f_equal. lia.
    + rewrite decide_False.
      2:{ intros H. apply (f_equal length) in H. rewrite !length_map in H. congruence. }
      cbn zeta. rewrite !Nat.sub_0_r, !take_ge by (rewrite length_snoc; lia).
      do 3 f_equal. lia.
Qed.

Lemma domain_match_enc a b ra rb :
  Forall wf_label a -> Forall wf_label b -> length a <= 128 -> length b <= 128 ->
  domain_match (enc_name a ++ ra) (enc_name b ++ rb) =
  let m := common_suffix a b in
  Some (m, length (enc_labels (take (length a - m) a)), length (enc_labels (take (length b - m) b))).
Proof.
  intros Ha Hb Hla Hlb. unfold domain_match.
  pose proof (collect_lens_enc a [] ra [] (S (length (enc_name a ++ ra))) Ha) as Ea.
  pose proof (collect_lens_enc b [] rb [] (S (length (enc_name b ++ rb))) Hb) as Eb.
  cbn [app length] in Ea, Eb. rewrite Ea by (lia || by apply length_ls_le_enc).
  rewrite Eb by (lia || by apply length_ls_le_enc). sbind. rewrite !length_map.
  pose proof (match_loop_spec a b [] [] ra rb (Nat.min (length a) (length b)) 1) as E.
  rewrite !app_nil_r in E. by apply E.
Qed.

(** The common part of two names, and what is before it in both. *)
Lemma domain_match_parts (a b : list (list Z)) (ra rb : list Z) :
  wf_name a -> wf_name b ->
  exists k os od a1 a2 b1 b2,
    domain_match (enc_name a ++ ra) (enc_name b ++ rb) = Some (k, os, od) /\
    a = a1 ++ a2 /\ b = b1 ++ b2 /\ length a2 = k /\ length b2 = k /\ name_eqi a2 b2 /\
    os = length (enc_labels a1) /\ od = length (enc_labels b1) /\
    (forall x y a1' b1', a1 = a1' ++ [x] -> b1 = b1' ++ [y] -> map tolower x <> map tolower y).
Proof.
  intros Ha Hb. pose proof (wf_name_labels _ Ha). pose proof (wf_name_labels _ Hb).
  destruct Ha as [Ha _], Hb as [Hb _]. rewrite domain_match_enc by (done || lia).
  pose proof (common_suffix_le a b) as Hle. set (m := common_suffix a b) in *. cbn zeta.
  exists m, (length (enc_labels (take (length a - m) a))), (length (enc_labels (take (length b - m) b))),
    (take (length a - m) a), (drop (length a - m) a),
    (take (length b - m) b), (drop (length b - m) b).
  split_and!; try done; rewrite ?take_drop; try done; rewrite ?length_drop; try lia.
  - apply common_suffix_drop.
  - intros x y a1' b1' Ea Eb Ee. apply (common_suffix_maximal a b x y a1' b1'); done.
Qed.

(** [domain_match] returns the number of trailing labels the two names have in
    common, ignoring case, and the offsets in both names at which the common part
    begins; the common parts are equal up to case, and no longer suffix is. *)
Theorem domain_match_correct (a b : list (list Z)) (ra rb : list Z) :
  wf_name a -> wf_name b ->
  exists k os od a1 a2 b1 b2,
    domain_match (enc_name a ++ ra) (enc_name b ++ rb) = Some (k, os, od) /\
    a = a1 ++ a2 /\ b = b1 ++ b2 /\ length a2 = k /\ length b2 = k /\ name_eqi a2 b2 /\
    os = length (enc_labels a1) /\ od = length (enc_labels b1) /\
    (forall x y a1' b1', a1 = a1' ++ [x] -> b1 = b1' ++ [y] -> map tolower x <> map tolower y).
Proof. apply domain_match_parts. Qed.

Lemma domain_match_correct_witness :
  domain_match (enc_name [[97];[99;111]]%Z ++ []) (enc_name [[98];[67;79]]%Z ++ []) = Some (1, 2, 2) /\
  exists k os od a1 a2 b1 b2,
    domain_match (enc_name [[97];[99;111]]%Z ++ []) (enc_name [[98];[67;79]]%Z ++ []) = Some (k, os, od) /\
    [[97];[99;111]]%Z = a1 ++ a2 /\ [[98];[67;79]]%Z = b1 ++ b2 /\ length a2 = k /\ length b2 = k /\
    name_eqi a2 b2 /\ os = length (enc_labels a1) /\ od = length (enc_labels b1) /\
    (forall x y a1' b1', a1 = a1' ++ [x] -> b1 = b1' ++ [y] -> map tolower x <> map tolower y).
Proof.
  split; [reflexivity|].
  apply domain_match_correct; (split; [repeat constructor; simpl; lia|vm_compute; lia]).
Defined.
