(* ===== verification/Compress.v ===== *)
(** Name compression: [compress_name] of [pdnsd/src/dns.c] against the reader
    [decompress_name].

    A compression buffer lists the names written so far with their offsets; an
    entry may have been written in compressed form itself, so that only part of
    it is at the offsets the entry suggests.  The soundness condition [cb_ok]
    says which part is, and the theorem shows that the search of [compress_name]
    never selects another. *)
From S2P Require Import Prelude Names DnsName.

(** ** [compress_name] *)

(** The offset, in the encoding of [L], of its last [k] labels. *)
Definition off (L : list (list Z)) (k : nat) : nat := length (enc_labels (take (length L - k) L)).

Definition suffix_of (L : list (list Z)) (k : nat) : list (list Z) := drop (length L - k) L.

Lemma common_prefix_sym a b : common_prefix a b = common_prefix b a.
Proof.
  revert b. induction a as [|x a IH]; intros [|y b]; try done. cbn.
  destruct (decide (map tolower x = map tolower y)), (decide (map tolower y = map tolower x)); congruence.
Qed.

Lemma common_prefix_ultra a b c :
  Nat.min (common_prefix a b) (common_prefix b c) <= common_prefix a c.
Proof.
  revert b c. induction a as [|x a IH]; intros [|y b] [|z c]; cbn; try lia.
  specialize (IH b c). repeat case_decide; lia || congruence.
Qed.

Lemma common_suffix_sym a b : common_suffix a b = common_suffix b a.
Proof. apply common_prefix_sym. Qed.

(** Suffix agreement is an ultrametric. *)
Lemma common_suffix_ultra a b c k :
  k <= common_suffix a b -> k <= common_suffix b c -> k <= common_suffix a c.
Proof. unfold common_suffix. pose proof (common_prefix_ultra (rev a) (rev b) (rev c)). lia. Qed.

Lemma suffix_split L k : k <= length L -> L = take (length L - k) L ++ suffix_of L k.
Proof. intros. unfold suffix_of. by rewrite take_drop. Qed.

Lemma common_suffix_eqi a b : name_eqi (suffix_of a (common_suffix a b)) (suffix_of b (common_suffix a b)).
Proof. apply common_suffix_drop. Qed.

(** *** Names in a growing message *)

Lemma name_at_ext msg n msg' n' p ls h c :
  name_at msg n p ls h c -> n <= n' -> (forall i, i < n -> rd msg i = rd msg' i) ->
  n <= length msg -> n' <= length msg' -> name_at msg' n' p ls h c.
Proof.
  intros H Hn Heq Hm Hm'. induction H as [p Hp Hr|p l ls h c Hw Hlt Hr Hb Hna IH|p hi lo ls h c Hlt Hr Hhi Hlo Hin Hna IH].
  - apply na_end; [lia|]. by rewrite <- Heq.
  - apply na_label; [done|lia|by rewrite <- Heq by lia| |done].
    rewrite <- Hb. unfold rd_bytes. rewrite !decide_True by lia. f_equal.
    apply list_eq. intros i. destruct (decide (i < length l)).
    + rewrite !lookup_take_lt, !lookup_drop by done. symmetry. apply Heq. lia.
    + rewrite !lookup_take_ge by lia. done.
  - eapply na_ptr; [lia|by rewrite <- Heq by lia|done|by rewrite <- Heq by lia|lia|done].
Qed.

Lemma name_at_app msg x p ls h c :
  name_at msg (length msg) p ls h c -> name_at (msg ++ x) (length (msg ++ x)) p ls h c.
Proof.
  intros H. eapply name_at_ext; [done|rewrite length_app; lia| |lia|lia].
  intros i Hi. unfold rd. by rewrite lookup_app_l.
Qed.

(** Labels written out literally before a name. *)
Lemma name_at_literal P : forall pre rest S h c,
  Forall wf_label P ->
  name_at (pre ++ enc_labels P ++ rest) (length (pre ++ enc_labels P ++ rest))
    (length pre + length (enc_labels P)) S h c ->
  name_at (pre ++ enc_labels P ++ rest) (length (pre ++ enc_labels P ++ rest))
    (length pre) (P ++ S) h (length (enc_labels P) + c).
Proof.
  induction P as [|l P IH]; intros pre rest S h c Hw Hna.
  - change (length (enc_labels [])) with 0 in *. rewrite Nat.add_0_r in Hna. done.
  - apply Forall_cons in Hw as [Hl Hw]. cbn [app].
    replace (length (enc_labels (l :: P)) + c) with (1 + length l + (length (enc_labels P) + c))
      by (rewrite enc_labels_cons, length_app, length_enc_label; lia).
    pose proof (name_at_lt _ _ _ _ _ _ Hna) as Hlt. rewrite enc_labels_cons in *.
    rewrite length_app, length_enc_label in Hlt.
    apply na_label; [done|lia| | |].
    + rewrite <- app_assoc. apply rd_app_mid.
    + rewrite <- app_assoc. unfold enc_label. cbn [app]. rewrite snoc_assoc, <- (length_snoc pre (Z.of_nat (length l))).
      apply rd_bytes_app.
    + rewrite <- (length_pre_label pre l). rewrite <- !app_assoc, (app_assoc pre (enc_label l)) in Hna |- *.
      apply IH; [done|].
      replace (length (pre ++ enc_label l) + length (enc_labels P))
        with (length pre + length (enc_label l ++ enc_labels P)); [done|].
      rewrite !length_app. lia.
Qed.

(** *** Compression pointers *)

Definition ptr_hi (coffs : nat) : Z := Z.lor 0xc0 (Z.shiftr (Z.land (Z.of_nat coffs) 0x3f00) 8).
Definition ptr_lo (coffs : nat) : Z := Z.land (Z.of_nat coffs) 0xff.

Lemma lor_c0 x :
  (0 <= x < 64)%Z -> (0xc0 <= Z.lor 0xc0 x < 256)%Z /\ Z.land (Z.lor 0xc0 x) 0x3f = x.
Proof.
  intros Hx.
  assert (H : Forall (fun x => (0xc0 <= Z.lor 0xc0 x < 256)%Z /\ Z.land (Z.lor 0xc0 x) 0x3f = x) (seqZ 0 64))
    by (vm_compute; repeat constructor; discriminate).
  rewrite Forall_forall in H. apply H, elem_of_seqZ. lia.
Qed.

Lemma ptr_roundtrip coffs :
  (Z.of_nat coffs <= 0x3fff)%Z ->
  ptr_offs (ptr_hi coffs) (ptr_lo coffs) = coffs /\ (0xc0 <= ptr_hi coffs < 256)%Z /\ is_byte (ptr_lo coffs).
Proof.
  intros Hc. unfold ptr_offs, ptr_hi, ptr_lo. set (c := Z.of_nat coffs) in *.
  assert (Hs : Z.shiftr (Z.land c 0x3f00) 8 = Z.shiftr c 8).
  { rewrite Z.shiftr_land. change (Z.shiftr 0x3f00 8) with (Z.ones 6). rewrite Z.land_ones by lia.
    apply Z.mod_small. rewrite Z.shiftr_div_pow2 by lia. split; [apply Z.div_pos; lia|].
    apply Z.div_lt_upper_bound; lia. }
  assert (Hr : (0 <= Z.shiftr c 8 < 64)%Z).
  { rewrite Z.shiftr_div_pow2 by lia. split; [apply Z.div_pos; lia|]. apply Z.div_lt_upper_bound; lia. }
  rewrite Hs. destruct (lor_c0 _ Hr) as [Hb ->]. split_and!; [|lia..|].
  - change 0xff%Z with (Z.ones 8). rewrite <- Z.ldiff_ones_r, Z.lor_ldiff_and by lia. unfold c. lia.
  - change 0xff%Z with (Z.ones 8). rewrite Z.land_ones by lia. apply Z.mod_pos_bound. lia.
Qed.

(** *** The compression buffer

    Names are added to the buffer in the order they are written, and an entry may
    itself have been written in compressed form.  The buffer is sound for the
    message written so far when every suffix that occurs for the first time in an
    entry can be read back where the entry says it is. *)

Definition cbs (es : list (nat * list (list Z))) : list compel :=
  map (fun e => {| ci_index := e.1; ci_s := enc_name e.2 |}) es.

Definition first_in (es : list (nat * list (list Z))) (n : nat) (L : list (list Z)) (k : nat) : Prop :=
  forall m e, m < n -> es !! m = Some e -> common_suffix e.2 L < k.

Definition cb_ok (pkt : list Z) (es : list (nat * list (list Z))) : Prop :=
  forall n e, es !! n = Some e -> wf_name e.2 /\
    forall k, 1 <= k <= length e.2 -> first_in es n e.2 k ->
      (forall n' e', n < n' -> es !! n' = Some e' -> e.1 + off e.2 k < e'.1) /\
      exists S h c, name_at pkt (length pkt) (e.1 + off e.2 k) S h c /\
        name_eqi S (suffix_of e.2 k) /\ h < k.

Lemma cb_ok_nil pkt : cb_ok pkt [].
Proof. intros n e. by rewrite lookup_nil. Qed.

(** Whatever is appended to the message, the buffer stays sound. *)
Lemma cb_ok_app pkt x es : cb_ok pkt es -> cb_ok (pkt ++ x) es.
Proof.
  intros H n e He. destruct (H n e He) as [Hw Hk]. split; [done|]. intros k Hle Hf.
  destruct (Hk k Hle Hf) as (Ho & S & h & c & Hna & ?). split; [done|].
  exists S, h, c. split; [by apply name_at_app|done].
Qed.

Lemma cb_ok_wf pkt es : cb_ok pkt es -> Forall (fun e => wf_name e.2) es.
Proof. intros H. apply Forall_lookup. intros n e He. apply (H n e He). Qed.

Definition chosen (N : list (list Z)) (es : list (nat * list (list Z))) (k coffs : nat) : Prop :=
  exists n e, es !! n = Some e /\ k = common_suffix N e.2 /\ coffs = e.1 + off e.2 k /\
    (Z.of_nat coffs <= 0x3fff)%Z /\
    forall m e', m < n -> es !! m = Some e' ->
      (Z.of_nat (e'.1 + off e'.2 (common_suffix N e'.2)) <= 0x3fff)%Z -> common_suffix N e'.2 < k.

Lemma chosen_cons N e es k coffs :
  chosen N es k coffs ->
  ((Z.of_nat (e.1 + off e.2 (common_suffix N e.2)) <= 0x3fff)%Z -> common_suffix N e.2 < k) ->
  chosen N (e :: es) k coffs.
Proof.
  intros (n & e' & ? & ? & ? & ? & H) Hlt. exists (S n), e'. split_and!; [done..|].
  intros [|m] e2 Hm He2; cbn in He2; [by injection He2 as <-|]. apply (H m e2); [lia|done].
Qed.

Lemma best_match_spec N r : wf_name N -> forall es l0 r0 c0,
  Forall (fun e => wf_name e.2) es ->
  exists l1 r1 c1, best_match (enc_name N ++ r) (cbs es) l0 r0 c0 = Some (l1, r1, c1) /\ l0 <= l1 /\
    ((l1 = l0 /\ r1 = r0 /\ c1 = c0) \/ (l0 < l1 /\ r1 = off N l1 /\ chosen N es l1 c1)).
Proof.
  intros HN. pose proof (wf_name_labels _ HN) as HlN. destruct HN as [HwN _].
  induction es as [|e es IH]; intros l0 r0 c0 Hes; cbn [best_match cbs map].
  - exists l0, r0, c0. split_and!; [done|lia|by left].
  - apply Forall_cons in Hes as [He Hes]. pose proof (wf_name_labels _ He) as Hle. destruct He as [Hwe _].
    cbn [ci_s ci_index]. pose proof (domain_match_enc N e.2 r [] HwN Hwe ltac:(lia) ltac:(lia)) as Hdm.
    rewrite app_nil_r in Hdm. rewrite Hdm. clear Hdm. sbind. set (k := common_suffix N e.2).
    fold (cbs es). fold (off N k) (off e.2 k). destruct (l0 <? k) eqn:E1; boolp.
    + destruct (Z.of_nat (e.1 + off e.2 k) <=? 0x3fff)%Z eqn:E2; boolp.
      * destruct (IH k (off N k) (e.1 + off e.2 k) Hes) as (l1 & r1 & c1 & -> & Hl & Hc).
        exists l1, r1, c1. split_and!; [done|lia|]. right.
        destruct Hc as [(-> & -> & ->)|(Hlt & -> & Hc)].
        -- split_and!; [lia|done|]. exists 0, e. split_and!; [done..|lia].
        -- split_and!; [lia|done|]. apply chosen_cons; [done|]. intros _. fold k. lia.
      * destruct (IH l0 r0 c0 Hes) as (l1 & r1 & c1 & -> & Hl & Hc).
        exists l1, r1, c1. split_and!; [done|lia|].
        destruct Hc as [?|(Hlt & ? & Hc)]; [by left|right; split_and!; [done..|]].
        apply chosen_cons; [done|]. fold k. lia.
    + destruct (IH l0 r0 c0 Hes) as (l1 & r1 & c1 & -> & Hl & Hc).
      exists l1, r1, c1. split_and!; [done|lia|].
      destruct Hc as [?|(Hlt & ? & Hc)]; [by left|right; split_and!; [done..|]].
      apply chosen_cons; [done|]. fold k. lia.
Qed.

(** The entry that is chosen is the first one that has the suffix, so that the
    suffix is written there in full. *)
Lemma chosen_first pkt N es k coffs :
  cb_ok pkt es -> chosen N es k coffs -> 1 <= k ->
  exists n e, es !! n = Some e /\ k = common_suffix N e.2 /\ coffs = e.1 + off e.2 k /\
    (Z.of_nat coffs <= 0x3fff)%Z /\ first_in es n N k.
Proof.
  intros Hok (n & e & He & Hk & Hc & Hle & Hbest) Hk1. exists n, e. split_and!; [done..|].
  intros m. induction m as [m IHm] using lt_wf_ind. intros e' Hm He'.
  destruct (Nat.lt_ge_cases (common_suffix e'.2 N) k) as [?|Hge]; [done|exfalso].
  rewrite common_suffix_sym in Hge. set (j := common_suffix N e'.2) in *.
  destruct (Hok m e' He') as [_ Hlit].
  pose proof (common_suffix_le N e'.2) as Hj. fold j in Hj.
  assert (Hf : first_in es m e'.2 j).
  { intros m' e'' Hm' He''. destruct (Nat.lt_ge_cases (common_suffix e''.2 e'.2) j) as [?|Hge']; [done|exfalso].
    pose proof (IHm m' Hm' e'' ltac:(lia) He'') as Hlt.
    pose proof (common_suffix_ultra e''.2 e'.2 N j Hge' ltac:(rewrite common_suffix_sym; fold j; lia)). lia. }
  destruct (Hlit j ltac:(lia) Hf) as [Hord _]. specialize (Hord n e Hm He).
  pose proof (Hbest m e' Hm He'). fold j in H. lia.
Qed.

Lemma off_split N j k :
  k <= j <= length N ->
  exists M, take (length N - k) N = take (length N - j) N ++ M /\
    suffix_of N j = M ++ suffix_of N k /\ off N k = off N j + length (enc_labels M).
Proof.
  intros H. exists (take (j - k) (suffix_of N j)). unfold suffix_of, off.
  assert (E : take (length N - k) N =
              take (length N - j) N ++ take (j - k) (drop (length N - j) N)).
  { replace (length N - k) with ((length N - j) + (j - k)) by lia. symmetry. apply take_take_drop. }
  split_and!; [done| |].
  - replace (length N - k) with ((length N - j) + (j - k)) by lia. rewrite <- drop_drop.
    by rewrite take_drop.
  - by rewrite E, enc_labels_app, length_app.
Qed.

(** What the packet holds after a name was written as its first labels and a tail. *)
Lemma entry_readable pkt N k tail S h c :
  Forall wf_label N -> k <= length N ->
  let w := enc_labels (take (length N - k) N) ++ tail in
  name_at (pkt ++ w) (length (pkt ++ w)) (length pkt + off N k) S h c -> name_eqi S (suffix_of N k) ->
  forall j, k <= j <= length N ->
    exists S', name_at (pkt ++ w) (length (pkt ++ w)) (length pkt + off N j) S' h (off N k - off N j + c) /\
      name_eqi S' (suffix_of N j).
Proof.
  intros Hw Hk w Hna HS j Hj. destruct (off_split N j k Hj) as (M & Htk & Hsuf & Hoff).
  exists (M ++ S). unfold w in *. rewrite Htk, enc_labels_app, <- app_assoc in *.
  rewrite app_assoc in *.
  assert (Hp : length pkt + off N j = length (pkt ++ enc_labels (take (length N - j) N)))
    by (rewrite length_app; done).
  split.
  - rewrite Hp. replace (off N k - off N j) with (length (enc_labels M)) by lia.
    apply name_at_literal.
    + rewrite (suffix_split N j) in Hw by lia. apply Forall_app in Hw as [_ Hw].
      rewrite Hsuf in Hw. by apply Forall_app in Hw as [? _].
    + rewrite <- Hp, <- Nat.add_assoc, <- Hoff. done.
  - rewrite Hsuf. unfold name_eqi, lower_name in *. rewrite !map_app. by rewrite HS.
Qed.

Lemma first_in_snoc es e n L k : n <= length es -> first_in (es ++ [e]) n L k <-> first_in es n L k.
Proof.
  intros Hn. unfold first_in. split; intros H m e' Hm He'; apply (H m e'); try done.
  - by apply lookup_app_l_Some.
  - by rewrite lookup_app_l in He' by lia.
Qed.

(** Adding the name just written keeps the buffer sound. *)
Lemma cb_ok_snoc pkt es N k tail S h c :
  cb_ok pkt es -> wf_name N -> k <= length N ->
  (k = 0 \/ exists n e, es !! n = Some e /\ k = common_suffix N e.2) ->
  let w := enc_labels (take (length N - k) N) ++ tail in
  name_at (pkt ++ w) (length (pkt ++ w)) (length pkt + off N k) S h c -> name_eqi S (suffix_of N k) ->
  h <= k -> cb_ok (pkt ++ w) (es ++ [(length pkt, N)]).
Proof.
  intros Hok HN Hk Hsrc w Hna HS Hh n e He.
  apply lookup_app_Some in He as [He|[Hge He]].
  - pose proof (cb_ok_app pkt w es Hok n e He) as [Hwe Hlit]. split; [done|]. intros j Hj Hf.
    pose proof (lookup_lt_Some _ _ _ He) as Hlt. rewrite first_in_snoc in Hf by lia.
    destruct (Hlit j Hj Hf) as [Hord Hread]. split; [|done].
    intros n' e' Hn' He'. apply lookup_app_Some in He' as [He'|[_ He']]; [by apply (Hord n' e')|].
    apply list_lookup_singleton_Some in He' as [_ <-]. cbn.
    destruct (Hok n e He) as [_ Hlit']. destruct (Hlit' j Hj Hf) as (_ & ? & ? & ? & Hna' & _).
    by apply name_at_lt in Hna' as [? _].
  - apply list_lookup_singleton_Some in He as [Hn <-]. cbn [fst snd]. split; [done|].
    intros j Hj Hf. rewrite first_in_snoc in Hf by lia. split.
    { intros n' e' Hn' He'. apply lookup_lt_Some in He'. rewrite length_snoc in He'. lia. }
    assert (Hkj : k < j).
    { destruct Hsrc as [->|(m & e' & He' & ->)]; [lia|]. rewrite common_suffix_sym.
      apply (Hf m e'); [|done]. apply lookup_lt_Some in He'. lia. }
    destruct (entry_readable pkt N k tail S h c (proj1 HN) Hk Hna HS j ltac:(lia)) as (S' & ? & ?).
    exists S', h. eexists. split_and!; [done..|lia].
Qed.

(** What [compress_name] appends to the message: the first labels of the name,
    then a pointer to the rest, or the terminating zero. *)
Definition compressed (k coffs : nat) (N : list (list Z)) : list Z :=
  enc_labels (take (length N - k) N) ++ (if decide (k = 0) then [0%Z] else [ptr_hi coffs; ptr_lo coffs]).

Lemma length_enc_take N k :
  k <= length N -> Forall wf_label N -> length (enc_labels N) >= off N k + 2 * k.
Proof.
  intros Hk Hw. rewrite (suffix_split N k) at 1 by done. rewrite enc_labels_app, length_app.
  fold (off N k). rewrite (suffix_split N k) in Hw by done. apply Forall_app in Hw as [_ Hw].
  apply labels_le_length in Hw. unfold suffix_of in *. rewrite length_drop in Hw. lia.
Qed.

Lemma rd_bytes_enc_take N k r :
  k <= length N -> rd_bytes (enc_name N ++ r) 0 (off N k) = Some (enc_labels (take (length N - k) N)).
Proof.
  intros Hk. pose proof (rd_bytes_app [] (enc_labels (take (length N - k) N)) (enc_name (suffix_of N k) ++ r)) as H.
  cbn [app length] in H. rewrite <- H. unfold off. f_equal.
  rewrite (suffix_split N k) at 1 by done. by rewrite enc_name_app, <- app_assoc.
Qed.

Lemma compress_name_run grow_ok es N r out offs :
  wf_name N -> Forall (fun e => wf_name e.2) es -> length (enc_name N) <= length out ->
  exists k coffs, k <= length N /\ length (compressed k coffs N) <= length (enc_name N) /\
    (k = 0 \/ 1 <= k /\ chosen N es k coffs) /\
    compress_name grow_ok (enc_name N ++ r) out offs (cbs es) =
      let out' := compressed k coffs N ++ drop (length (compressed k coffs N)) out in
      Some (if decide (k <> 0 /\ off N k = 0) then (2, out', cbs es)
            else if grow_ok then (length (compressed k coffs N), out', cbs (es ++ [(offs, N)]))
            else (0, out', [])).
Proof.
  intros HN Hes Hout. unfold compress_name. rewrite rhnlen_enc by apply HN. sbind.
  rewrite decide_True by apply HN.
  destruct (best_match_spec N r HN es 0 0 0 Hes) as (k & r1 & coffs & -> & _ & Hc). sbind.
  assert (Hadd : rd_bytes (enc_name N ++ r) 0 (length (enc_name N)) = Some (enc_name N)).
  { pose proof (rd_bytes_app [] (enc_name N) r) as E. done. }
  assert (Hcbs : cbs es ++ [{| ci_index := offs; ci_s := enc_name N |}] = cbs (es ++ [(offs, N)]))
    by (unfold cbs; by rewrite map_app).
  exists k, coffs. destruct Hc as [(-> & _ & ->)|(Hk & -> & Hch)].
  - assert (Ew : compressed 0 0 N = enc_name N).
    { unfold compressed. rewrite decide_True by done. rewrite Nat.sub_0_r, take_ge by lia. done. }
    rewrite Ew. split_and!; [lia|lia|by left|]. cbn [Nat.ltb Nat.leb]. rewrite Hadd. sbind.
    pose proof (wr_bytes_app_mid (enc_name N) [] out Hout) as E. cbn [app length] in E. rewrite E. sbind.
    rewrite decide_False by lia. destruct grow_ok; by rewrite ?Hcbs.
  - assert (Hkl : k <= length N).
    { destruct Hch as (n & e & _ & -> & _). pose proof (common_suffix_le N e.2). lia. }
    pose proof (length_enc_take N k Hkl (proj1 HN)) as Hlen.
    assert (Ew : compressed k coffs N = enc_labels (take (length N - k) N) ++ [ptr_hi coffs; ptr_lo coffs]).
    { unfold compressed. by rewrite decide_False by lia. }
    assert (El : length (compressed k coffs N) = off N k + 2) by (rewrite Ew, length_app; done).
    rewrite length_enc_name in *. split_and!; [done|lia|right; split; [lia|done]|].
    bool_true (0 <? k). rewrite decide_True by lia. rewrite rd_bytes_enc_take by done. sbind.
    set (P := enc_labels (take (length N - k) N)) in *. assert (HP : length P = off N k) by done.
    pose proof (wr_bytes_app_mid P [] out ltac:(lia)) as E. cbn [app length] in E. rewrite E. sbind.
    rewrite <- HP. rewrite wr_app_mid by (rewrite length_drop; lia). sbind. rewrite drop_drop.
    rewrite (snoc_assoc P), <- (length_snoc P (ptr_hi coffs)).
    fold (ptr_hi coffs) (ptr_lo coffs).
    rewrite wr_app_mid by (rewrite length_drop, length_snoc; lia). sbind. rewrite drop_drop, length_snoc.
    assert (Eo : (P ++ [ptr_hi coffs]) ++ ptr_lo coffs :: drop (length P + 1 + 1) out =
                 compressed k coffs N ++ drop (length (compressed k coffs N)) out).
    { rewrite El, Ew, <- !app_assoc. by replace (length P + 1 + 1) with (off N k + 2) by lia. }
    rewrite Eo.
    destruct (Nat.eqb_spec (length P) 0) as [E0|E0]; cbn [negb].
    + rewrite decide_True by (split; lia). do 3 f_equal. lia.
    + rewrite decide_False by lia. destruct grow_ok; [|done].
      rewrite Hadd. sbind. rewrite Hcbs, El, <- HP. done.
Qed.

Lemma name_eqi_wf N N' : wf_name N -> Forall wf_label N' -> name_eqi N' N -> wf_name N'.
Proof.
  intros [_ Hl] Hw E. split; [done|]. rewrite length_enc_name in *.
  assert (length (enc_labels N') = length (enc_labels N)) as ->; [|done]. clear Hw Hl.
  revert N E. induction N' as [|l N' IH]; intros [|l' N] E; try done.
  injection E as E1 E2. rewrite !enc_labels_cons, !length_app, !length_enc_label, (IH N E2).
  apply (f_equal length) in E1. rewrite !length_map in E1. lia.
Qed.

(** The name just written can be read back at its place. *)
Lemma compressed_readable pkt es N k coffs :
  cb_ok pkt es -> wf_name N -> k <= length N -> (k = 0 \/ 1 <= k /\ chosen N es k coffs) ->
  let w := compressed k coffs N in
  bytes w /\
  exists S h c, name_at (pkt ++ w) (length (pkt ++ w)) (length pkt + off N k) S h c /\
    name_eqi S (suffix_of N k) /\ h <= k /\ off N k + c = length w.
Proof.
  intros Hok [HwN _] Hk Hc w.
  assert (Hwt : bytes (enc_labels (take (length N - k) N))) by (apply bytes_enc_labels, Forall_take, HwN).
  unfold w, compressed. destruct Hc as [->|[Hk1 Hc]].
  - rewrite decide_True by done. split.
    { apply Forall_app. split; [done|]. repeat constructor; unfold is_byte; lia. }
    exists [], 0, 1. rewrite !app_assoc, length_snoc, length_app. fold (off N 0). split_and!.
    + apply na_end; [lia|]. unfold off. rewrite <- length_app. apply rd_app_mid.
    + unfold suffix_of. rewrite Nat.sub_0_r, drop_ge by lia. done.
    + lia.
    + by rewrite length_app.
  - rewrite decide_False by lia.
    destruct (chosen_first _ _ _ _ _ Hok Hc Hk1) as (n & e & He & Hcs & Hco & Hle & Hf).
    destruct (ptr_roundtrip coffs Hle) as (Hpo & Hhi & Hlo). split.
    { apply Forall_app. split; [done|]. repeat constructor; unfold is_byte in *; lia. }
    destruct (Hok n e He) as [_ Hlit]. pose proof (common_suffix_le N e.2) as Hle2.
    destruct (Hlit k ltac:(lia)) as (_ & S & h & c & Hna & HS & Hh).
    { intros m e' Hm He'. destruct (Nat.lt_ge_cases (common_suffix e'.2 e.2) k) as [?|Hge]; [done|exfalso].
      pose proof (Hf m e' Hm He').
      pose proof (common_suffix_ultra e'.2 e.2 N k Hge ltac:(rewrite common_suffix_sym; lia)). lia. }
    set (P := enc_labels (take (length N - k) N)) in *. assert (HP : length P = off N k) by done.
    exists S, (Datatypes.S h), 2. split_and!.
    + rewrite <- Hco in Hna. pose proof (name_at_lt _ _ _ _ _ _ Hna) as [Hlt _].
      eapply (na_ptr _ _ _ (ptr_hi coffs) (ptr_lo coffs)); rewrite ?Hpo.
      * rewrite !length_app, HP. cbn. lia.
      * rewrite <- HP, <- length_app, app_assoc. apply rd_app_mid.
      * lia.
      * rewrite <- HP, <- length_app, app_assoc, (snoc_assoc (pkt ++ P)), <- (length_snoc (pkt ++ P) (ptr_hi coffs)).
        apply rd_app_mid.
      * rewrite length_app. lia.
      * by apply name_at_app.
    + rewrite HS. symmetry. rewrite Hcs. apply common_suffix_eqi.
    + lia.
    + rewrite length_app, HP. done.
Qed.

(** C27: compression and decompression are inverse up to the case of letters.
    With a buffer that is sound for the message written so far, [compress_name]
    stays within its output buffer and writes at most as many bytes as the
    uncompressed name has; [decompress_name], applied to the message extended by
    these bytes and by whatever follows them, gives back the name up to case and
    consumes exactly these bytes; and the new buffer is sound for the new message,
    so that the property holds along a whole packet. *)
Theorem compress_decompress (pkt : list Z) (es : list (nat * list (list Z))) (N : list (list Z))
    (r out : list Z) :
  bytes pkt -> cb_ok pkt es -> wf_name N -> length (enc_name N) <= length out ->
  exists w es', compress_name true (enc_name N ++ r) out (length pkt) (cbs es) =
      Some (length w, w ++ drop (length w) out, cbs es') /\
    length w <= length (enc_name N) /\ bytes w /\ cb_ok (pkt ++ w) es' /\
    exists N', name_eqi N' N /\ forall rest sz tgt, bytes rest -> length w <= sz ->
      length tgt = DNSNAMEBUFSIZE ->
      exists T, decompress_name (pkt ++ w ++ rest) (length (pkt ++ w ++ rest)) (length pkt) sz tgt =
        Some {| dr_rc := RC_OK; dr_src := length pkt + length w; dr_sz := sz - length w;
                dr_len := length (enc_name N'); dr_tgt := enc_name N' ++ T |}.
Proof.
  intros Hpkt Hok HN Hout.
  destruct (compress_name_run true es N r out (length pkt) HN (cb_ok_wf _ _ Hok) Hout)
    as (k & coffs & Hk & Hlen & Hc & ->).
  destruct (compressed_readable pkt es N k coffs Hok HN Hk Hc) as (Hbw & S & h & c & Hna & HS & Hh & Hoc).
  set (w := compressed k coffs N) in *. cbn zeta. exists w.
  assert (Hok' : cb_ok (pkt ++ w) (es ++ [(length pkt, N)])).
  { eapply cb_ok_snoc; [done..| |done|done|done].
    destruct Hc as [->|[_ (n & e & ? & ? & _)]]; [by left|right; by exists n, e]. }
  assert (Hread : exists N', name_at (pkt ++ w) (length (pkt ++ w)) (length pkt) N' h (length w) /\ name_eqi N' N).
  { destruct (entry_readable pkt N k _ S h c (proj1 HN) Hk Hna HS (length N) ltac:(lia)) as (N' & Hna' & HN').
    assert (E0 : off N (length N) = 0) by (unfold off; by rewrite Nat.sub_diag).
    exists N'. rewrite E0, Nat.add_0_r, Nat.sub_0_r, Hoc in Hna'. split; [done|].
    unfold suffix_of in HN'. by rewrite Nat.sub_diag in HN'. }
  exists (if decide (k <> 0 /\ off N k = 0) then es else es ++ [(length pkt, N)]). split_and!.
  - case_decide as Hd; [|done]. do 4 f_equal. unfold w, compressed.
    rewrite decide_False, length_app by lia. destruct Hd as [_ Hd]. unfold off in Hd. by rewrite Hd.
  - done.
  - done.
  - case_decide; [by apply cb_ok_app|done].
  - destruct Hread as (N' & Hna' & HN'). exists N'. split; [done|]. intros rest sz tgt Hr Hsz Ht.
    rewrite !app_assoc. apply (decompress_name_ok _ _ _ _ _ _ h); [|done|done| | |done|].
    + rewrite !Forall_app. done.
    + by apply name_at_app.
    + pose proof (wf_name_labels _ HN). lia.
    + apply (name_eqi_wf N N'); [done|by eapply name_at_wf|done].
Qed.

Lemma compress_decompress_witness :
  exists w es', compress_name true (enc_name [[97];[98;99]]%Z ++ []) (replicate 10 0%Z) 6
      (cbs [(1, [[66;67]]%Z)]) = Some (length w, w ++ drop (length w) (replicate 10 0%Z), cbs es') /\
    w = [1; 97; 0xc0; 1]%Z.
Proof.
  destruct (compress_decompress [7;2;66;67;0;9]%Z [(1, [[66;67]]%Z)] [[97];[98;99]]%Z [] (replicate 10 0%Z))
    as (w & es' & E & _).
  - by repeat constructor.
  - intros [|n] e He; [|by rewrite lookup_cons_ne_0 in He]. injection He as <-. split.
    { split; [repeat constructor; simpl; lia|vm_compute; lia]. }
    intros k Hk _. assert (k = 1) as -> by (cbn in Hk; lia). split.
    { intros [|n'] e' Hn He'; [lia|]. by rewrite lookup_cons_ne_0 in He'. }
    exists [[66;67]]%Z, 0, 4. split_and!; [|done|lia].
    apply (na_label _ _ 1 [66;67]%Z [] 0 1); [split; [simpl; lia|by repeat constructor]|simpl; lia|done..|].
    apply na_end; [simpl; lia|done].
  - split; [repeat constructor; simpl; lia|vm_compute; lia].
  - vm_compute; lia.
  - exists w, es'. split; [exact E|]. vm_compute in E. injection E as E1 E2 _.
    assert (Ew : take (length w) (w ++ drop (length w) (replicate 10 0%Z)) = w) by apply take_app_length.
    change (replicate 10 0%Z) with [0;0;0;0;0;0;0;0;0;0]%Z in Ew.
    rewrite <- E1 in *. destruct w as [|? [|? [|? [|? [|]]]]]; try discriminate. by injection E2 as -> -> -> -> .
Defined.
