(* ===== verification/RrTypes.v ===== *)
(** Resource record types: the tables of [pdnsd/src/rr_types.h] and the lookup of
    a type by name of [rr_types.c].

    A record type is the number it has on the wire; inside the cache a type is
    represented by an index, the [NRRMU] most used types first. *)
From Stdlib Require Import String.
From S2P Require Import Prelude.

Definition T_A : Z := 1.
Definition T_NS : Z := 2.
Definition T_MD : Z := 3.
Definition T_MF : Z := 4.
Definition T_CNAME : Z := 5.
Definition T_SOA : Z := 6.
Definition T_MB : Z := 7.
Definition T_MG : Z := 8.
Definition T_MR : Z := 9.
Definition T_NULL : Z := 10.
Definition T_WKS : Z := 11.
Definition T_PTR : Z := 12.
Definition T_HINFO : Z := 13.
Definition T_MINFO : Z := 14.
Definition T_MX : Z := 15.
Definition T_TXT : Z := 16.
Definition T_RP : Z := 17.
Definition T_AFSDB : Z := 18.
Definition T_X25 : Z := 19.
Definition T_ISDN : Z := 20.
Definition T_RT : Z := 21.
Definition T_NSAP : Z := 22.
Definition T_NSAP_PTR : Z := 23.
Definition T_SIG : Z := 24.
Definition T_KEY : Z := 25.
Definition T_PX : Z := 26.
Definition T_GPOS : Z := 27.
Definition T_AAAA : Z := 28.
Definition T_LOC : Z := 29.
Definition T_NXT : Z := 30.
Definition T_EID : Z := 31.
Definition T_NIMLOC : Z := 32.
Definition T_SRV : Z := 33.
Definition T_ATMA : Z := 34.
Definition T_NAPTR : Z := 35.
Definition T_KX : Z := 36.
Definition T_CERT : Z := 37.
Definition T_A6 : Z := 38.
Definition T_DNAME : Z := 39.
Definition T_SINK : Z := 40.
Definition T_OPT : Z := 41.
Definition T_APL : Z := 42.
Definition T_DS : Z := 43.
Definition T_SSHFP : Z := 44.
Definition T_IPSECKEY : Z := 45.
Definition T_RRSIG : Z := 46.
Definition T_NSEC : Z := 47.
Definition T_DNSKEY : Z := 48.
Definition T_DHCID : Z := 49.
Definition T_NSEC3 : Z := 50.
Definition T_NSEC3PARAM : Z := 51.

Definition T_MIN : Z := 1.
Definition T_MAX : Z := 51.
Definition T_NUM : nat := 51.
Definition NRRMU : nat := 8.
Definition NRREXT : nat := 39.
Definition NRRTOT : nat := 47.

(** From [type - T_MIN] to the internal index. *)
Definition rrlkuptab : list nat := [
  0; 1; 8; 9; 2; 3; 10; 11; 12; 13; 14; 4; 15; 16; 5; 6; 17; 18; 19; 20; 21; 22; 23; 24;
  25; 26; 27; 7; 28; 29; 30; 31; 32; 33; 34; 35; 36; 47; 48; 49; 50; 37; 38; 39; 40; 41;
  42; 43; 44; 45; 46].

(** The most used types, and all types that can be cached, in ascending order. *)
Definition rrmuiterlist : list Z := [
  T_A; T_NS; T_CNAME; T_SOA; T_PTR; T_MX; T_TXT; T_AAAA].

Definition rrcachiterlist : list Z := [
  T_A; T_NS; T_MD; T_MF; T_CNAME; T_SOA; T_MB; T_MG; T_MR; T_NULL; T_WKS; T_PTR;
  T_HINFO; T_MINFO; T_MX; T_TXT; T_RP; T_AFSDB; T_X25; T_ISDN; T_RT; T_NSAP; T_NSAP_PTR;
  T_SIG; T_KEY; T_PX; T_GPOS; T_AAAA; T_LOC; T_NXT; T_EID; T_NIMLOC; T_SRV; T_ATMA;
  T_NAPTR; T_KX; T_CERT; T_APL; T_DS; T_SSHFP; T_IPSECKEY; T_RRSIG; T_NSEC; T_DNSKEY;
  T_DHCID; T_NSEC3; T_NSEC3PARAM].

Definition rrnames : list string := [
  "A"; "NS"; "MD"; "MF"; "CNAME"; "SOA"; "MB"; "MG"; "MR"; "NULL"; "WKS"; "PTR";
  "HINFO"; "MINFO"; "MX"; "TXT"; "RP"; "AFSDB"; "X25"; "ISDN"; "RT"; "NSAP"; "NSAP_PTR";
  "SIG"; "KEY"; "PX"; "GPOS"; "AAAA"; "LOC"; "NXT"; "EID"; "NIMLOC"; "SRV"; "ATMA";
  "NAPTR"; "KX"; "CERT"; "A6"; "DNAME"; "SINK"; "OPT"; "APL"; "DS"; "SSHFP"; "IPSECKEY";
  "RRSIG"; "NSEC"; "DNSKEY"; "DHCID"; "NSEC3"; "NSEC3PARAM"]%string.

(** [struct rr_infos]: the class of a type and the classes it excludes. *)
Record rr_infos := { rr_class : Z; rr_excludes : Z }.

Definition RRCL_ALIAS : Z := 1.
Definition RRCL_RECORD : Z := 2.
Definition RRCL_IDEM : Z := 4.
Definition RRCL_PTR : Z := 8.

Definition RRX_ALIAS : Z := Z.lor RRCL_RECORD RRCL_PTR.
Definition RRX_RECORD : Z := Z.lor RRCL_ALIAS RRCL_PTR.
Definition RRX_IDEM : Z := 0.
Definition RRX_PTR : Z := Z.lor RRCL_ALIAS RRCL_RECORD.

(** Indexed by the internal index. *)
Definition rr_info : list rr_infos :=
  map (fun p => {| rr_class := p.1; rr_excludes := p.2 |}) [
  (RRCL_RECORD, RRX_RECORD); (RRCL_IDEM, RRX_IDEM); (RRCL_ALIAS, RRX_ALIAS);
  (RRCL_IDEM, RRX_IDEM); (RRCL_PTR, RRX_PTR); (RRCL_IDEM, RRX_IDEM);
  (RRCL_IDEM, RRX_IDEM); (RRCL_RECORD, RRX_RECORD); (RRCL_IDEM, RRX_IDEM);
  (RRCL_IDEM, RRX_IDEM); (RRCL_IDEM, RRX_IDEM); (RRCL_IDEM, RRX_IDEM);
  (RRCL_IDEM, RRX_IDEM); (RRCL_IDEM, RRX_IDEM); (RRCL_RECORD, RRX_RECORD);
  (RRCL_RECORD, RRX_RECORD); (RRCL_IDEM, RRX_IDEM); (RRCL_RECORD, RRX_RECORD);
  (RRCL_RECORD, RRX_RECORD); (RRCL_RECORD, RRX_RECORD); (RRCL_RECORD, RRX_RECORD);
  (RRCL_RECORD, RRX_RECORD); (RRCL_RECORD, RRX_RECORD); (RRCL_PTR, RRX_PTR);
  (RRCL_IDEM, RRX_IDEM); (RRCL_IDEM, RRX_IDEM); (RRCL_IDEM, RRX_IDEM);
  (RRCL_RECORD, RRX_RECORD); (RRCL_RECORD, RRX_RECORD); (RRCL_IDEM, RRX_IDEM);
  (RRCL_RECORD, RRX_RECORD); (RRCL_RECORD, RRX_RECORD); (RRCL_RECORD, RRX_RECORD);
  (RRCL_RECORD, RRX_RECORD); (RRCL_RECORD, RRX_RECORD); (RRCL_RECORD, RRX_RECORD);
  (RRCL_RECORD, RRX_RECORD); (RRCL_IDEM, RRX_IDEM); (RRCL_IDEM, RRX_IDEM);
  (RRCL_IDEM, RRX_IDEM); (RRCL_IDEM, RRX_IDEM); (RRCL_IDEM, RRX_IDEM);
  (RRCL_IDEM, RRX_IDEM); (RRCL_IDEM, RRX_IDEM); (RRCL_IDEM, RRX_IDEM);
  (RRCL_IDEM, RRX_IDEM); (RRCL_IDEM, RRX_IDEM)].

(** [rr_tp_byname]: the loop over [rrnames]; -1 when the name is unknown. *)
Fixpoint tp_byname_loop (name : string) (names : list string) (i : Z) : Z :=
  match names with
  | [] => -1
  | n :: ns => if String.eqb name n then (i + T_MIN)%Z else tp_byname_loop name ns (i + 1)%Z
  end.
Definition rr_tp_byname (name : string) : Z := tp_byname_loop name rrnames 0.

(** [PDNSD_NOT_CACHED_TYPE] of cache.h. *)
Definition not_cached_type (type : Z) : bool :=
  (type <? T_MIN)%Z || (T_MAX <? type)%Z ||
  match rrlkuptab !! Z.to_nat (type - T_MIN) with
  | Some idx => NRRTOT <=? idx
  | None => true
  end.

(** The test [cr_check_add] makes for a new set of index [i] against a cached set
    of index [j]. *)
Definition rr_conflict (i j : nat) : bool :=
  match rr_info !! i, rr_info !! j with
  | Some a, Some b => tst (rr_class a) (rr_excludes b) || tst (rr_excludes a) (rr_class b)
  | _, _ => false
  end.

(** ** Properties *)

(** A decidable statement without variables is evaluated. *)
Ltac decide_closed := apply (bool_decide_unpack _); vm_compute; exact I.

(** A statement about all types in range is checked type by type. *)
Lemma types_forall (P : Z -> Prop) :
  Forall P (seqZ T_MIN (Z.of_nat T_NUM)) -> forall t, (T_MIN <= t <= T_MAX)%Z -> P t.
Proof.
  intros H t Ht. rewrite Forall_forall in H. apply H, elem_of_seqZ.
  unfold T_MIN, T_MAX, T_NUM in *. lia.
Qed.

Lemma iterlist_range l t :
  Forall (fun t => T_MIN <= t <= T_MAX)%Z l -> t ∈ l -> (T_MIN <= t <= T_MAX)%Z.
Proof. intros H Ht. rewrite Forall_forall in H. by apply H. Qed.

Lemma not_cached_range t : not_cached_type t = false -> (T_MIN <= t <= T_MAX)%Z.
Proof. unfold not_cached_type. intros H. boolp. lia. Qed.

(** The index of a type. *)
Definition type_idx (t : Z) : nat := default T_NUM (rrlkuptab !! Z.to_nat (t - T_MIN)).

(** The type tables agree with each other.  The lookup table is a bijection
    from types to indices; a type is in the list of cacheable types exactly when
    [PDNSD_NOT_CACHED_TYPE] is false of it, and in the list of the most used ones
    exactly when its index is below [NRRMU]; both lists are strictly ascending, as
    the loops over them assume, and every index of a cacheable type has a class. *)
Theorem rr_tables_consistent :
  NoDup rrlkuptab /\ length rrlkuptab = T_NUM /\
  (forall t, t ∈ rrcachiterlist <-> not_cached_type t = false) /\
  (forall t, t ∈ rrmuiterlist <-> (T_MIN <= t <= T_MAX)%Z /\ type_idx t < NRRMU) /\
  StronglySorted Z.lt rrmuiterlist /\ StronglySorted Z.lt rrcachiterlist /\
  (forall t, not_cached_type t = false -> type_idx t < length rr_info).
Proof.
  split_and!; [decide_closed|done| | |decide_closed..|].
  - intros t. destruct (decide (T_MIN <= t <= T_MAX)%Z) as [Ht|Ht].
    + revert t Ht. apply (types_forall (fun t => t ∈ rrcachiterlist <-> not_cached_type t = false)).
      decide_closed.
    + split; intros H; destruct Ht; [|by apply not_cached_range].
      apply (iterlist_range rrcachiterlist); [decide_closed|done].
  - intros t. destruct (decide (T_MIN <= t <= T_MAX)%Z) as [Ht|Ht].
    + revert t Ht. apply (types_forall (fun t => t ∈ rrmuiterlist <-> (T_MIN <= t <= T_MAX)%Z /\ type_idx t < NRRMU)).
      decide_closed.
    + split; [intros H; destruct Ht; apply (iterlist_range rrmuiterlist); [decide_closed|done]|by intros [? _]].
  - intros t H. pose proof (not_cached_range t H) as Ht. revert t Ht H.
    apply (types_forall (fun t => not_cached_type t = false -> type_idx t < length rr_info)). decide_closed.
Qed.

Lemma rr_conflict_sym i j : rr_conflict i j = rr_conflict j i.
Proof.
  unfold rr_conflict. destruct (rr_info !! i) as [a|], (rr_info !! j) as [b|]; try done.
  rewrite orb_comm. unfold tst. f_equal; f_equal; by rewrite Z.land_comm.
Qed.

(** No type excludes its own class. *)
Lemma rr_conflict_irrefl i : rr_conflict i i = false.
Proof.
  destruct (decide (i < NRRTOT)) as [Hi|Hi].
  - assert (H : Forall (fun i => rr_conflict i i = false) (seq 0 NRRTOT)) by decide_closed.
    rewrite Forall_forall in H. apply H, elem_of_seq. lia.
  - unfold rr_conflict. rewrite lookup_ge_None_2; [done|]. change (length rr_info) with NRRTOT. lia.
Qed.

Lemma tp_byname_loop_spec name names : forall i,
  (exists k, names !! k = Some name /\ tp_byname_loop name names i = (i + Z.of_nat k + T_MIN)%Z) \/
  ((name ∉ names) /\ tp_byname_loop name names i = (-1)%Z).
Proof.
  induction names as [|n ns IH]; intros i; cbn [tp_byname_loop].
  - right. split; [apply not_elem_of_nil|done].
  - destruct (String.eqb_spec name n) as [->|Hne].
    + left. exists 0. split; [done|]. lia.
    + destruct (IH (i + 1)%Z) as [(k & Hk & ->)|[Hn ->]].
      * left. exists (S k). split; [done|]. lia.
      * right. split; [|done]. by apply not_elem_of_cons.
Qed.

(** [rr_tp_byname] inverts the table of names: a name of the table gives the
    type it belongs to, and any other string gives -1. *)
Theorem rr_tp_byname_correct (name : string) :
  (forall k, k < T_NUM -> rr_tp_byname name = (Z.of_nat k + T_MIN)%Z <-> rrnames !! k = Some name) /\
  (rr_tp_byname name = (-1)%Z <-> name ∉ rrnames).
Proof.
  assert (Hnd : NoDup rrnames) by decide_closed. unfold rr_tp_byname.
  destruct (tp_byname_loop_spec name rrnames 0) as [(k & Hk & ->)|[Hn ->]]; unfold T_MIN.
  - split.
    + intros k' _. split; [intros E; by replace k' with k by lia|].
      intros Hk'. pose proof (NoDup_lookup _ _ _ _ Hnd Hk Hk'). lia.
    + split; [lia|]. intros Hn. destruct Hn. by apply list_elem_of_lookup_2 in Hk.
  - split; [|by split].
    intros k' _. split; [lia|]. intros Hk'. destruct Hn. by apply list_elem_of_lookup_2 in Hk'.
Qed.
