(* ===== verification/HashTab.v ===== *)
(** The hash table of cache entries: [pdnsd/src/hash.c] and [hash.h].

    The table is an array of chains; a chain element holds the long hash of the
    name of an entry and a pointer to the entry.  A pointer of type [D] is
    dereferenced with [qname], which gives the name stored in the entry ([None]
    for a dangling pointer).  The table is shown to implement a finite map from
    names, compared without case, to entries. *)
From S2P Require Import Prelude Names.

(** What the machine decides: the width of [unsigned long] and the sizes that enter
    the cache statistics. *)
Class Platform := {
  ul_bits : Z;
  sizeof_dns_cent_t : Z;
  sizeof_rr_set_t : Z;
  sizeof_rr_bucket_t : Z;
  sizeof_ptr : Z;
}.

(** The two data models of the Android ABIs the program is built for. *)
Definition LP64 : Platform :=
  {| ul_bits := 64; sizeof_dns_cent_t := 104; sizeof_rr_set_t := 40;
     sizeof_rr_bucket_t := 16; sizeof_ptr := 8 |}.
Definition ILP32 : Platform :=
  {| ul_bits := 32; sizeof_dns_cent_t := 52; sizeof_rr_set_t := 20;
     sizeof_rr_bucket_t := 8; sizeof_ptr := 4 |}.

Definition HASH_SZ : Z := 10.
Definition HASH_NUM_BUCKETS : nat := 1024.
Definition HASH_BITMASK : Z := 1023.

Section Hash.
Context {P : Platform}.

(** One step of the sums [s] (32 bits) and [r] ([unsigned long]). *)
Definition hash_add (sr : Z * Z) (i : nat) (c : Z) : Z * Z :=
  (u32 (sr.1 + Z.shiftl c (Z.of_nat i mod (HASH_SZ - 5))),
   ((sr.2 + Z.shiftl c (Z.of_nat i mod (ul_bits - 7))) mod 2 ^ ul_bits)%Z).

(** The inner do-while over the [n] characters of a label. *)
Fixpoint hash_label (n : nat) (str : list Z) (i : nat) (sr : Z * Z) : option (Z * Z) :=
  match n with
  | O => Some sr
  | S n' => x ← rd str i; hash_label n' str (i + 1) (hash_add sr i (toupper x))
  end.

Fixpoint hash_loop (fuel : nat) (str : list Z) (i : nat) (sr : Z * Z) : option (Z * Z) :=
  match fuel with
  | O => None
  | S f =>
      lb ← rd str i;
      if (lb =? 0)%Z then Some sr
      else sr' ← hash_label (Z.to_nat lb) str (i + 1) (hash_add sr i lb);
           hash_loop f str (i + 1 + Z.to_nat lb) sr'
  end.

Definition hash_fold (s : Z) : Z :=
  u32 (Z.land s HASH_BITMASK + Z.shiftr (Z.ldiff s HASH_BITMASK) HASH_SZ).

(** The bucket and [*rhash]. *)
Definition dns_hash (str : list Z) : option (nat * Z) :=
  '(s, r) ← hash_loop (S (length str)) str 0 (0%Z, 0%Z);
  Some (Z.to_nat (Z.land (hash_fold (hash_fold s)) HASH_BITMASK), r).

Context {D : Type} (qname : D -> option (list Z)).

(** [dns_hash_ent_t] without its link, and [hash_buckets]. *)
Record dns_hash_ent := { rhash : Z; hdata : D }.
#[local] Abbreviation hash_table := (list (list dns_hash_ent)).

Definition mk_dns_hash : hash_table := replicate HASH_NUM_BUCKETS [].

(** [dns_hash_loc_t]: the link that [loc->pos] points to is the one to element
    [loc_pos] of chain [loc_bucket]. *)
Record dns_hash_loc := { loc_bucket : nat; loc_pos : nat; loc_rhash : Z }.

(** The loop of [dns_lookup] and [del_dns_hash] along one chain. *)
Fixpoint scan (key : list Z) (rh : Z) (chain : list dns_hash_ent) (pos : nat)
    : option (option D * nat) :=
  match chain with
  | [] => Some (None, pos)
  | he :: chain' =>
      if (rhash he <=? rh)%Z then
        if (rhash he =? rh)%Z then
          q ← qname (hdata he);
          eq ← rhnicmp key q;
          if (eq : bool) then Some (Some (hdata he), pos) else scan key rh chain' (S pos)
        else scan key rh chain' (S pos)
      else Some (None, pos)
  end.

Definition dns_lookup (tab : hash_table) (key : list Z) : option (option D * dns_hash_loc) :=
  '(idx, rh) ← dns_hash key;
  chain ← tab !! idx;
  '(retval, pos) ← scan key rh chain 0;
  Some (retval, {| loc_bucket := idx; loc_pos := pos; loc_rhash := rh |}).

(** [alloc] is the outcome of [malloc]; the result is 0 or 1. *)
Definition add_dns_hash (alloc : bool) (tab : hash_table) (data : D) (loc : dns_hash_loc)
    : option (bool * hash_table) :=
  if (alloc : bool) then
    chain ← tab !! loc_bucket loc;
    let he := {| rhash := loc_rhash loc; hdata := data |} in
    Some (true, <[loc_bucket loc := take (loc_pos loc) chain ++ he :: drop (loc_pos loc) chain]> tab)
  else Some (false, tab).

Definition del_dns_hash_ent (tab : hash_table) (loc : dns_hash_loc) : option (D * hash_table) :=
  chain ← tab !! loc_bucket loc;
  he ← chain !! loc_pos loc;
  Some (hdata he, <[loc_bucket loc := take (loc_pos loc) chain ++ drop (S (loc_pos loc)) chain]> tab).

Definition del_dns_hash (tab : hash_table) (key : list Z) : option (option D * hash_table) :=
  '(idx, rh) ← dns_hash key;
  chain ← tab !! idx;
  '(found, pos) ← scan key rh chain 0;
  match found with
  | Some data => Some (Some data, <[idx := take pos chain ++ drop (S pos) chain]> tab)
  | None => Some (None, tab)
  end.

(** [dns_hash_pos_t]: [ent] points into a chain, so it stands for the elements
    from there on. *)
Record dns_hash_pos := { pos_bucket : nat; pos_ent : list dns_hash_ent }.

(** The loop over the buckets from number [i] on. *)
Fixpoint fetch_from (buckets : list (list dns_hash_ent)) (i : nat) (pos : dns_hash_pos)
    : option D * dns_hash_pos :=
  match buckets with
  | [] => (None, pos)
  | (he :: next) :: _ => (Some (hdata he), {| pos_bucket := i; pos_ent := next |})
  | [] :: buckets' => fetch_from buckets' (i + 1) pos
  end.

Definition fetch_first (tab : hash_table) (pos : dns_hash_pos) : option D * dns_hash_pos :=
  fetch_from tab 0 pos.

Definition fetch_next (tab : hash_table) (pos : dns_hash_pos) : option D * dns_hash_pos :=
  match pos_ent pos with
  | he :: next => (Some (hdata he), {| pos_bucket := pos_bucket pos; pos_ent := next |})
  | [] => fetch_from (drop (pos_bucket pos + 1) tab) (pos_bucket pos + 1) pos
  end.
End Hash.

#[global] Arguments dns_hash_ent : clear implicits.
#[global] Arguments dns_hash_pos : clear implicits.

Abbreviation hash_table D := (list (list (dns_hash_ent D))).

(** ** Names as keys *)

(** The key of a name: its encoding with all letters in lower case.  Length bytes
    are below the codes of letters, so they are not changed. *)
Definition fold_key (q : list Z) : list Z := map tolower q.

Lemma fold_length_byte n : n <= 63 -> tolower (Z.of_nat n) = Z.of_nat n.
Proof. intros H. unfold tolower. by bool_false (65 <=? Z.of_nat n)%Z. Qed.

Lemma fold_key_enc N : Forall wf_label N -> fold_key (enc_name N) = enc_name (lower_name N).
Proof.
  induction 1 as [|l N [Hl _] _ IH]; [done|].
  cbn [lower_name map]. rewrite !enc_name_cons. unfold fold_key in *. rewrite map_app, IH.
  unfold enc_label. cbn [map]. rewrite length_map, fold_length_byte by lia. done.
Qed.

Lemma lower_name_wf N : Forall wf_label N -> Forall wf_label (lower_name N).
Proof.
  induction 1 as [|l N [Hl Hb] _ IH]; constructor; [|done]. split; [by rewrite length_map|].
  apply Forall_map. eapply Forall_impl; [done|]. by intros x; apply tolower_byte.
Qed.

Lemma fold_key_eqi a b :
  Forall wf_label a -> Forall wf_label b ->
  name_eqi a b <-> fold_key (enc_name a) = fold_key (enc_name b).
Proof.
  intros Ha Hb. rewrite !fold_key_enc by done. unfold name_eqi. split; [congruence|].
  intros E. assert (E2 : enc_name (lower_name a) ++ [] = enc_name (lower_name b) ++ []) by (by rewrite E).
  by apply enc_name_inj in E2 as [? _]; [|apply lower_name_wf..].
Qed.

Section HashSpec.
Context {P : Platform}.

(** The sums over a sequence of bytes at position [i]. *)
Fixpoint hash_bytes (l : list Z) (i : nat) (sr : Z * Z) : Z * Z :=
  match l with
  | [] => sr
  | x :: l' => hash_bytes l' (i + 1) (hash_add sr i x)
  end.

Lemma hash_bytes_app l l' : forall i sr,
  hash_bytes (l ++ l') i sr = hash_bytes l' (i + length l) (hash_bytes l i sr).
Proof.
  induction l as [|x l IH]; intros i sr; cbn; [by rewrite Nat.add_0_r|].
  rewrite IH. f_equal. lia.
Qed.

Lemma hash_label_app l : forall pre r sr,
  hash_label (length l) (pre ++ l ++ r) (length pre) sr =
  Some (hash_bytes (map toupper l) (length pre) sr).
Proof.
  induction l as [|x l IH]; intros pre r sr; [done|]. cbn [length hash_label app map hash_bytes].
  rewrite rd_app_mid. sbind. rewrite (snoc_assoc pre), <- (length_snoc pre x). apply IH.
Qed.

Lemma upper_length_byte n : n <= 63 -> toupper (Z.of_nat n) = Z.of_nat n.
Proof. intros H. unfold toupper. by bool_false (97 <=? Z.of_nat n)%Z. Qed.

Lemma hash_loop_enc N : forall pre r f sr,
  Forall wf_label N -> length N < f ->
  hash_loop f (pre ++ enc_name N ++ r) (length pre) sr =
  Some (hash_bytes (map toupper (enc_labels N)) (length pre) sr).
Proof.
  induction N as [|l N IH]; intros pre r f sr Hw Hf; (destruct f as [|f]; [simpl in Hf; lia|]);
    cbn [hash_loop].
  - rewrite rd_enc_nil. done.
  - apply Forall_cons in Hw as [Hl Hw]. rewrite rd_enc_cons. sbind.
    rewrite wf_label_nonzero by done. rewrite Nat2Z.id.
    rewrite enc_name_cons, <- app_assoc. unfold enc_label. cbn [app].
    rewrite (snoc_assoc pre), <- (length_snoc pre (Z.of_nat (length l))).
    rewrite hash_label_app. sbind. rewrite (app_assoc _ l).
    replace (length (pre ++ [Z.of_nat (length l)]) + length l)
      with (length ((pre ++ [Z.of_nat (length l)]) ++ l)) by (rewrite length_app; lia).
    rewrite IH by (simpl in Hf; done || lia).
    rewrite enc_labels_cons, map_app, hash_bytes_app. destruct Hl as [Hl _].
    unfold enc_label. cbn [map hash_bytes length]. rewrite upper_length_byte by lia.
    f_equal. rewrite !length_app. cbn [length]. rewrite length_map. f_equal. lia.
Qed.

(** The hash of a name, as a function of its labels. *)
Definition hash_of (N : list (list Z)) : nat * Z :=
  let '(s, r) := hash_bytes (map toupper (enc_labels N)) 0 (0%Z, 0%Z) in
  (Z.to_nat (Z.land (hash_fold (hash_fold s)) HASH_BITMASK), r).

Lemma dns_hash_enc N r : Forall wf_label N -> dns_hash (enc_name N ++ r) = Some (hash_of N).
Proof.
  intros Hw. unfold dns_hash, hash_of.
  pose proof (hash_loop_enc N [] r (S (length (enc_name N ++ r))) (0%Z, 0%Z) Hw) as E.
  cbn [app length] in E. rewrite E by by apply length_ls_le_enc. sbind. by destruct (hash_bytes _ _ _).
Qed.

Lemma map_toupper_fold l l' : map tolower l = map tolower l' -> map toupper l = map toupper l'.
Proof.
  revert l'. induction l as [|x l IH]; intros [|y l'] E; try done. injection E as E1 E2.
  cbn. f_equal; [by apply toupper_tolower|by apply IH].
Qed.

Lemma hash_of_eqi a b :
  Forall wf_label a -> Forall wf_label b -> name_eqi a b -> hash_of a = hash_of b.
Proof.
  intros Ha Hb E. unfold hash_of.
  assert (map toupper (enc_labels a) = map toupper (enc_labels b)) as ->; [|done].
  apply map_toupper_fold. apply fold_key_eqi in E; [|done..]. unfold fold_key, enc_name in E.
  rewrite !map_app in E. by apply app_inj_2 in E as [? _].
Qed.

Lemma hash_of_bucket N : (hash_of N).1 < HASH_NUM_BUCKETS.
Proof.
  unfold hash_of. destruct (hash_bytes _ _ _) as [s r]. cbn [fst]. unfold HASH_NUM_BUCKETS, HASH_BITMASK.
  change 1023%Z with (Z.ones 10). rewrite Z.land_ones by lia.
  pose proof (Z.mod_pos_bound (hash_fold (hash_fold s)) (2 ^ 10)). lia.
Qed.
End HashSpec.

(** ** The table as a finite map *)

(** Splitting a list around a position, as [loc] does with a chain. *)
Lemma take_lookup_drop {A} (c : list A) p x : c !! p = Some x -> c = take p c ++ x :: drop (S p) c.
Proof. intros H. symmetry. by apply take_drop_middle. Qed.

Lemma sorted_insert {A} (R : relation A) l1 l2 x :
  StronglySorted R (l1 ++ l2) -> Forall (fun y => R y x) l1 -> Forall (R x) l2 ->
  StronglySorted R (l1 ++ x :: l2).
Proof.
  intros H H1 H2. apply StronglySorted_app in H as (Hc & Hs1 & Hs2). rewrite Forall_forall in H1.
  apply StronglySorted_app. split_and!; [|done|by constructor].
  intros y z Hy Hz. apply elem_of_cons in Hz as [->|Hz]; [by apply H1|by apply Hc].
Qed.

Lemma sorted_remove {A} (R : relation A) l1 l2 x :
  StronglySorted R (l1 ++ x :: l2) -> StronglySorted R (l1 ++ l2).
Proof.
  intros H. apply StronglySorted_app in H as (Hc & Hs1 & Hs2). apply StronglySorted_app.
  split_and!; [|done|by inversion Hs2]. intros y z Hy Hz. apply Hc; [done|by right].
Qed.

Section TableSpec.
Context {P : Platform} {D : Type} (qname : D -> option (list Z)).

Definition key_of (d : D) : option (list Z) := fold_key <$> qname d.

(** An element of chain [b]: its entry has a proper name with these hashes. *)
Definition entry_ok (b : nat) (he : dns_hash_ent D) : Prop :=
  exists N, wf_name N /\ qname (hdata he) = Some (enc_name N) /\ hash_of N = (b, rhash he).

Definition chain_ok (b : nat) (c : list (dns_hash_ent D)) : Prop :=
  Forall (entry_ok b) c /\ StronglySorted (fun x y => rhash x <= rhash y)%Z c /\
  NoDup (map (fun he => key_of (hdata he)) c).

Definition ht_inv (tab : hash_table D) : Prop :=
  length tab = HASH_NUM_BUCKETS /\ forall b c, tab !! b = Some c -> chain_ok b c.

Definition ht_has (tab : hash_table D) (K : list Z) (d : D) : Prop :=
  exists b c he, tab !! b = Some c /\ he ∈ c /\ hdata he = d /\ key_of d = Some K.

(** The table represents the map [m] from keys to entries. *)
Definition ht_rep (tab : hash_table D) (m : gmap (list Z) D) : Prop :=
  ht_inv tab /\ forall K d, m !! K = Some d <-> ht_has tab K d.

Lemma scan_spec N r b rh c pos :
  chain_ok b c -> wf_name N -> hash_of N = (b, rh) ->
  exists res p, scan qname (enc_name N ++ r) rh c pos = Some (res, pos + p) /\
    match res with
    | Some d => exists he, c !! p = Some he /\ hdata he = d /\ key_of d = Some (fold_key (enc_name N))
    | None => p <= length c /\
        (forall he, he ∈ c -> key_of (hdata he) <> Some (fold_key (enc_name N))) /\
        Forall (fun he => rhash he <= rh)%Z (take p c) /\ Forall (fun he => rh <= rhash he)%Z (drop p c)
    end.
Proof.
  intros Hc HN Hh. revert pos. induction c as [|he c IH]; intros pos; cbn [scan].
  { exists None, 0. rewrite Nat.add_0_r. split_and!; [done|done|by intros ? ?%not_elem_of_nil|constructor..]. }
  destruct Hc as (Hok & Hs & Hnd). apply Forall_cons in Hok as [(M & HM & Hq & HhM) Hok].
  inversion Hs as [|? ? Hs' Hle]; subst. cbn [map] in Hnd. apply NoDup_cons in Hnd as [_ Hnd].
  destruct (IH ltac:(by split_and!) (S pos)) as (res & p & Hrun & Hres). clear IH.
  destruct (rhash he <=? rh)%Z eqn:E1; boolp.
  2:{ exists None, 0. rewrite Nat.add_0_r. split_and!; [done|lia| |constructor|].
      - intros he' Hin Hk. assert (rh < rhash he')%Z.
        { apply elem_of_cons in Hin as [->|Hin]; [done|]. rewrite Forall_forall in Hle. specialize (Hle _ Hin). lia. }
        assert (He' : entry_ok b he').
        { apply elem_of_cons in Hin as [->|Hin]; [by exists M|]. rewrite Forall_forall in Hok. by apply Hok. }
        destruct He' as (M' & HM' & Hq' & HhM'). unfold key_of in Hk. rewrite Hq' in Hk. injection Hk as Hk.
        apply fold_key_eqi in Hk; [|apply HM'|apply HN].
        rewrite (hash_of_eqi M' N (proj1 HM') (proj1 HN) Hk) in HhM'. rewrite Hh in HhM'.
        injection HhM' as HhM'. lia.
      - constructor; [lia|]. eapply Forall_impl; [done|]. cbn. lia. }
  assert (Hgo : (key_of (hdata he) <> Some (fold_key (enc_name N))) ->
    exists res p, scan qname (enc_name N ++ r) rh c (S pos) = Some (res, pos + p) /\
    match res with
    | Some d => exists he0, (he :: c) !! p = Some he0 /\ hdata he0 = d /\ key_of d = Some (fold_key (enc_name N))
    | None => p <= length (he :: c) /\
        (forall he0, he0 ∈ he :: c -> key_of (hdata he0) <> Some (fold_key (enc_name N))) /\
        Forall (fun he => rhash he <= rh)%Z (take p (he :: c)) /\
        Forall (fun he => rh <= rhash he)%Z (drop p (he :: c))
    end).
  { intros Hne. exists res, (S p). rewrite Hrun. split; [do 2 f_equal; lia|]. destruct res as [d|].
    - exact Hres.
    - destruct Hres as (Hp & Hk & Ht & Hd). split_and!; [simpl; lia| |by constructor|done].
      intros he' Hin. apply elem_of_cons in Hin as [->|Hin]; [done|by apply Hk]. }
  destruct (rhash he =? rh)%Z eqn:E2; boolp.
  - rewrite Hq. sbind. pose proof (rhnicmp_enc N M r [] (proj1 HN) (proj1 HM)) as Hcmp.
    rewrite app_nil_r in Hcmp. rewrite Hcmp. sbind. case_bool_decide as Heq.
    + exists (Some (hdata he)), 0. rewrite Nat.add_0_r. split; [done|]. exists he.
      split_and!; [done..|]. unfold key_of. rewrite Hq. cbn. f_equal. symmetry.
      apply fold_key_eqi; [apply HN|apply HM|done].
    + apply Hgo. unfold key_of. rewrite Hq. intros [= Hk]. apply Heq. symmetry.
      apply fold_key_eqi; [apply HM|apply HN|done].
  - apply Hgo. unfold key_of. rewrite Hq. intros [= Hk]. apply fold_key_eqi in Hk; [|apply HM|apply HN].
    rewrite (hash_of_eqi M N (proj1 HM) (proj1 HN) Hk), Hh in HhM. injection HhM as ->. lia.
Qed.

(** The bucket of a key. *)
Lemma ht_has_bucket tab N d :
  ht_inv tab -> wf_name N -> ht_has tab (fold_key (enc_name N)) d ->
  exists c he, tab !! (hash_of N).1 = Some c /\ he ∈ c /\ hdata he = d /\
    key_of d = Some (fold_key (enc_name N)).
Proof.
  intros [_ Hinv] HN (b & c & he & Hb & Hin & Hd & Hk). destruct (Hinv b c Hb) as [Hok _].
  rewrite Forall_forall in Hok. destruct (Hok he Hin) as (M & HM & Hq & Hh). subst d.
  unfold key_of in Hk. rewrite Hq in Hk. injection Hk as Hk. apply fold_key_eqi in Hk; [|apply HM|apply HN].
  rewrite <- (hash_of_eqi M N (proj1 HM) (proj1 HN) Hk), Hh. exists c, he. split_and!; [done..|].
  unfold key_of. rewrite Hq. cbn. f_equal. apply fold_key_eqi; [apply HM|apply HN|done].
Qed.

(** The entry of a key is unique. *)
Lemma chain_unique b c i j he he' K :
  chain_ok b c -> c !! i = Some he -> c !! j = Some he' ->
  key_of (hdata he) = Some K -> key_of (hdata he') = Some K -> i = j.
Proof.
  intros (_ & _ & Hnd) Hi Hj Hk Hk'.
  apply (NoDup_lookup _ i j (Some K) Hnd); rewrite list_lookup_fmap; [rewrite Hi|rewrite Hj]; cbn; congruence.
Qed.

Lemma tab_bucket tab N : ht_inv tab -> exists c, tab !! (hash_of N).1 = Some c /\ chain_ok (hash_of N).1 c.
Proof.
  intros [Hl Hinv]. destruct (lookup_lt_is_Some_2 tab (hash_of N).1) as [c Hc].
  { rewrite Hl. apply hash_of_bucket. }
  exists c. split; [done|]. by apply Hinv.
Qed.

(** What a location returned by [dns_lookup] for name [N] says. *)
Definition loc_ok (tab : hash_table D) (N : list (list Z)) (res : option D) (loc : dns_hash_loc) : Prop :=
  hash_of N = (loc_bucket loc, loc_rhash loc) /\
  exists c, tab !! loc_bucket loc = Some c /\
    match res with
    | Some d => exists he, c !! loc_pos loc = Some he /\ hdata he = d
    | None => loc_pos loc <= length c /\
        (forall he, he ∈ c -> key_of (hdata he) <> Some (fold_key (enc_name N))) /\
        Forall (fun he => rhash he <= loc_rhash loc)%Z (take (loc_pos loc) c) /\
        Forall (fun he => loc_rhash loc <= rhash he)%Z (drop (loc_pos loc) c)
    end.

Lemma dns_lookup_spec tab m N r :
  ht_rep tab m -> wf_name N ->
  exists loc, dns_lookup qname tab (enc_name N ++ r) = Some (m !! fold_key (enc_name N), loc) /\
    loc_ok tab N (m !! fold_key (enc_name N)) loc.
Proof.
  intros [Hinv Hm] HN. unfold dns_lookup. rewrite dns_hash_enc by apply HN. sbind.
  destruct (hash_of N) as [b rh] eqn:Hh.
  destruct (tab_bucket tab N Hinv) as (c & Hc & Hok). rewrite Hh in Hc, Hok. cbn [fst] in *.
  rewrite Hc. sbind. destruct (scan_spec N r b rh c 0 Hok HN Hh) as (res & p & -> & Hres). sbind.
  exists {| loc_bucket := b; loc_pos := p; loc_rhash := rh |}.
  assert (res = m !! fold_key (enc_name N)) as <-.
  { destruct res as [d|].
    - destruct Hres as (he & Hp & Hd & Hk). symmetry. apply Hm. exists b, c, he.
      split_and!; [done| |done..]. by eapply list_elem_of_lookup_2.
    - destruct (m !! fold_key (enc_name N)) as [d|] eqn:Hd; [exfalso|done]. apply Hm in Hd.
      destruct (ht_has_bucket tab N d Hinv HN Hd) as (c' & he & Hc' & Hin & <- & Hk).
      rewrite Hh in Hc'. cbn in Hc'. rewrite Hc in Hc'. injection Hc' as <-.
      destruct Hres as (_ & Hno & _). by apply (Hno he). }
  split; [done|]. split; [done|]. exists c. split; [done|].
  destruct res as [d|]; [|done]. destruct Hres as (he & ? & ? & _). by exists he.
Qed.

(** Replacing one chain. *)
Lemma ht_inv_insert tab b c' : ht_inv tab -> chain_ok b c' -> ht_inv (<[b:=c']> tab).
Proof.
  intros [Hl Hinv] Hc'. split; [by rewrite length_insert|].
  intros b2 c2 H. destruct (decide (b = b2)) as [<-|Hne].
  - destruct (decide (b < length tab)).
    + rewrite list_lookup_insert_eq in H by done. by injection H as <-.
    + rewrite list_insert_ge in H by lia. apply lookup_lt_Some in H. lia.
  - rewrite list_lookup_insert_ne in H by done. by apply Hinv.
Qed.

Lemma ht_has_insert tab b c c' K d :
  tab !! b = Some c ->
  ht_has (<[b:=c']> tab) K d <->
  (exists he, he ∈ c' /\ hdata he = d /\ key_of d = Some K) \/
  (exists b' c2 he, b' <> b /\ tab !! b' = Some c2 /\ he ∈ c2 /\ hdata he = d /\ key_of d = Some K).
Proof.
  intros Hb. assert (Hlt : b < length tab) by (by eapply lookup_lt_Some). split.
  - intros (b' & c2 & he & H & Hin & Hd & Hk). destruct (decide (b = b')) as [<-|Hne].
    + rewrite list_lookup_insert_eq in H by done. injection H as <-. left. by exists he.
    + rewrite list_lookup_insert_ne in H by done. right. by exists b', c2, he.
  - intros [(he & ? & ? & ?)|(b' & c2 & he & Hne & ? & ? & ? & ?)].
    + exists b, c', he. split_and!; [|done..]. by rewrite list_lookup_insert_eq.
    + exists b', c2, he. split_and!; [|done..]. by rewrite list_lookup_insert_ne.
Qed.

Lemma ht_has_split tab b c K d :
  tab !! b = Some c ->
  ht_has tab K d <->
  (exists he, he ∈ c /\ hdata he = d /\ key_of d = Some K) \/
  (exists b' c2 he, b' <> b /\ tab !! b' = Some c2 /\ he ∈ c2 /\ hdata he = d /\ key_of d = Some K).
Proof.
  intros Hb. rewrite <- (ht_has_insert tab b c c K d Hb). by rewrite list_insert_id.
Qed.

Lemma chain_ok_insert b c p he :
  chain_ok b c -> entry_ok b he -> (forall he', he' ∈ c -> key_of (hdata he') <> key_of (hdata he)) ->
  Forall (fun x => rhash x <= rhash he)%Z (take p c) -> Forall (fun x => rhash he <= rhash x)%Z (drop p c) ->
  chain_ok b (take p c ++ he :: drop p c).
Proof.
  intros (Hf & Hs & Hnd) He Hno Ht Hd.
  assert (Hp : take p c ++ he :: drop p c ≡ₚ he :: c) by (by rewrite <- Permutation_middle, take_drop).
  split_and!.
  - rewrite Hp. by constructor.
  - apply sorted_insert; [by rewrite take_drop|done..].
  - assert (Hp2 : map (fun he => key_of (hdata he)) (take p c ++ he :: drop p c) ≡ₚ
      map (fun he => key_of (hdata he)) (he :: c)) by (by apply Permutation_map).
    rewrite Hp2. cbn [map]. constructor; [|done]. intros Hin.
    apply list_elem_of_fmap in Hin as (he' & Hk & Hin). by apply (Hno he' Hin).
Qed.

Lemma chain_ok_delete b c p : chain_ok b c -> chain_ok b (take p c ++ drop (S p) c).
Proof.
  intros (Hf & Hs & Hnd). destruct (c !! p) as [he|] eqn:Hp.
  - rewrite (take_lookup_drop c p he Hp) in Hf, Hs, Hnd. apply Forall_app in Hf as [Hf1 Hf2].
    split_and!; [by apply Forall_app; inversion Hf2|by eapply sorted_remove|].
    rewrite map_app in *. cbn [map] in Hnd. rewrite <- Permutation_middle in Hnd.
    by apply NoDup_cons in Hnd as [_ Hnd].
  - apply lookup_ge_None in Hp. rewrite take_ge, drop_ge, app_nil_r by lia. done.
Qed.

Lemma add_dns_hash_spec tab m N d loc :
  ht_rep tab m -> wf_name N -> m !! fold_key (enc_name N) = None -> loc_ok tab N None loc ->
  qname d = Some (enc_name N) ->
  exists tab', add_dns_hash true tab d loc = Some (true, tab') /\
    ht_rep tab' (<[fold_key (enc_name N) := d]> m).
Proof.
  intros [Hinv Hm] HN Hnone (Hh & c & Hc & Hp & Hno & Ht & Hd) Hq. unfold add_dns_hash. rewrite Hc. sbind.
  set (he := {| rhash := loc_rhash loc; hdata := d |}). eexists. split; [done|].
  assert (Hkd : key_of d = Some (fold_key (enc_name N))) by (unfold key_of; by rewrite Hq).
  assert (Hp2 : take (loc_pos loc) c ++ he :: drop (loc_pos loc) c ≡ₚ he :: c)
    by (by rewrite <- Permutation_middle, take_drop).
  split.
  - apply ht_inv_insert; [done|]. destruct Hinv as [_ Hinv].
    apply chain_ok_insert; [by apply Hinv|by exists N| |done..].
    intros he' Hin. cbn. rewrite Hkd. by apply Hno.
  - intros K d'. rewrite (ht_has_insert tab _ c _ K d' Hc). setoid_rewrite Hp2.
    setoid_rewrite elem_of_cons. rewrite lookup_insert_Some. rewrite Hm, (ht_has_split tab _ c K d' Hc).
    split.
    + intros [[<- <-]|[Hne [(he' & ? & ? & ?)|?]]]; [left|left|by right].
      * exists he. split_and!; [by left|done|done].
      * exists he'. split_and!; [by right|done|done].
    + intros [(he' & [->|Hin] & Hd' & Hk)|(b' & c2 & he' & ?)].
      * left. cbn in Hd'. subst d'. rewrite Hkd in Hk. by injection Hk.
      * right. split; [intros <-; subst d'; by apply (Hno he')|left; by exists he'].
      * destruct (decide (fold_key (enc_name N) = K)) as [<-|?].
        -- exfalso. assert (Hhas : ht_has tab (fold_key (enc_name N)) d').
           { exists b', c2, he'. tauto. }
           apply Hm in Hhas. congruence.
        -- right. split; [done|]. right. by exists b', c2, he'.
Qed.

(** Unlinking the element at a position where the key was found. *)
Lemma unlink_rep tab m N b c p he :
  ht_rep tab m -> tab !! b = Some c -> c !! p = Some he ->
  key_of (hdata he) = Some (fold_key (enc_name N)) ->
  ht_rep (<[b := take p c ++ drop (S p) c]> tab) (delete (fold_key (enc_name N)) m).
Proof.
  intros [Hinv Hm] Hb Hp Hk. assert (Hok : chain_ok b c) by (by apply Hinv). split.
  - apply ht_inv_insert; [done|]. by apply chain_ok_delete.
  - intros K d. rewrite (ht_has_insert tab b c _ K d Hb). rewrite lookup_delete_Some.
    rewrite Hm, (ht_has_split tab b c K d Hb).
    assert (Hmem : forall x, x ∈ take p c ++ drop (S p) c <-> exists j, j <> p /\ c !! j = Some x).
    { intros x. rewrite <- delete_take_drop. rewrite list_elem_of_lookup. split.
      - intros [j Hj]. destruct (decide (j < p)).
        + exists j. split; [lia|]. by rewrite list_lookup_delete_lt in Hj.
        + exists (S j). split; [lia|]. by rewrite list_lookup_delete_ge in Hj by lia.
      - intros (j & Hne & Hj). destruct (decide (j < p)).
        + exists j. by rewrite list_lookup_delete_lt.
        + exists (j - 1). rewrite list_lookup_delete_ge by lia. by replace (S (j - 1)) with j by lia. }
    setoid_rewrite Hmem. setoid_rewrite list_elem_of_lookup. split.
    + intros [Hne [(he' & (j & Hj) & Hd & HK)|Hr]]; [left|by right].
      exists he'. split; [|done]. exists j. split; [|done]. intros ->. rewrite Hp in Hj.
      injection Hj as ->. rewrite Hd, HK in Hk. by injection Hk as ->.
    + intros [(he' & (j & Hne & Hj) & Hd & HK)|Hr].
      * split; [|left; exists he'; split; [by exists j|done]]. intros <-.
        apply Hne. subst d. by eapply (chain_unique b c j p he' he).
      * destruct Hr as (b' & c2 & he' & Hne & Hb' & (j & Hj) & Hd & HK). split; [|right; exists b', c2, he'; split_and!; [done|done|by exists j|done|done]].
        intros <-. subst d. assert (H1 : ht_has tab (fold_key (enc_name N)) (hdata he)).
        { exists b, c, he. split_and!; [done|by eapply list_elem_of_lookup_2|done..]. }
        assert (H2 : entry_ok b he) by (destruct Hok as [Hok _]; by eapply Forall_lookup_1).
        assert (H3 : entry_ok b' he') by (destruct (proj2 Hinv b' c2 Hb') as [Hok' _]; by eapply Forall_lookup_1).
        destruct H2 as (M & HM & HqM & HhM), H3 as (M' & HM' & HqM' & HhM').
        unfold key_of in Hk, HK. rewrite HqM in Hk. rewrite HqM' in HK. cbn in Hk, HK.
        assert (He : name_eqi M M') by (apply fold_key_eqi; [apply HM|apply HM'|congruence]).
        rewrite (hash_of_eqi M M' (proj1 HM) (proj1 HM') He), HhM' in HhM. by injection HhM as ->.
Qed.

Lemma del_dns_hash_spec tab m N r :
  ht_rep tab m -> wf_name N ->
  exists tab', del_dns_hash qname tab (enc_name N ++ r) = Some (m !! fold_key (enc_name N), tab') /\
    ht_rep tab' (delete (fold_key (enc_name N)) m).
Proof.
  intros Hrep HN. destruct (dns_lookup_spec tab m N r Hrep HN) as (loc & Hl & Hh & c & Hc & Hres).
  unfold dns_lookup, del_dns_hash in *. rewrite dns_hash_enc in * by apply HN. rewrite Hh in *.
  revert Hl. sbind. rewrite Hc. sbind. intros Hl.
  destruct (scan qname (enc_name N ++ r) (loc_rhash loc) c 0) as [[res p]|]; [|discriminate Hl].
  revert Hl. sbind. intros [= -> Hloc].
  assert (p = loc_pos loc) as -> by (by rewrite <- Hloc). clear Hloc. destruct (m !! fold_key (enc_name N)) as [d|] eqn:Hd.
  - destruct Hres as (he & Hp & <-). eexists. split; [done|].
    apply (unlink_rep tab m N _ c _ he); [done..|].
    destruct Hrep as [_ Hm]. apply Hm in Hd as (? & ? & ? & _ & _ & _ & Hk). exact Hk.
  - eexists. split; [done|]. by rewrite delete_id.
Qed.

Lemma del_dns_hash_ent_spec tab m N d loc :
  ht_rep tab m -> m !! fold_key (enc_name N) = Some d -> loc_ok tab N (Some d) loc ->
  exists tab', del_dns_hash_ent tab loc = Some (d, tab') /\ ht_rep tab' (delete (fold_key (enc_name N)) m).
Proof.
  intros Hrep Hd (Hh & c & Hc & he & Hp & <-). unfold del_dns_hash_ent. rewrite Hc. sbind. rewrite Hp. sbind.
  eexists. split; [done|]. eapply unlink_rep; [done..|].
  destruct Hrep as [_ Hm]. apply Hm in Hd as (? & ? & ? & _ & _ & _ & Hk). exact Hk.
Qed.
End TableSpec.

(** ** Theorems on the table *)

Lemma mk_dns_hash_rep {P : Platform} {D} (qname : D -> option (list Z)) : ht_rep qname mk_dns_hash ∅.
Proof.
  split.
  - split; [apply length_replicate|]. intros b c H. apply lookup_replicate in H as [-> _].
    split_and!; constructor.
  - intros K d. rewrite lookup_empty. split; [done|]. intros (b & c & he & Hb & Hin & _).
    apply lookup_replicate in Hb as [-> _]. by apply not_elem_of_nil in Hin.
Qed.

(** C29: the hash table implements a finite map from names, compared without case,
    to entries.  [dns_lookup] returns the entry the map has for the name; at the
    location it returns, [add_dns_hash] adds an entry that the map does not have
    and [del_dns_hash_ent] removes the one found; [del_dns_hash] looks up and
    removes.  Every operation leaves the chains sorted and without duplicates. *)
Theorem hash_refines_map {P : Platform} {D} (qname : D -> option (list Z)) (tab : hash_table D)
    (m : gmap (list Z) D) (N : list (list Z)) (r : list Z) :
  ht_rep qname tab m -> wf_name N ->
  let K := fold_key (enc_name N) in
  (exists loc, dns_lookup qname tab (enc_name N ++ r) = Some (m !! K, loc) /\
     (forall d, m !! K = None -> qname d = Some (enc_name N) ->
        exists tab', add_dns_hash true tab d loc = Some (true, tab') /\ ht_rep qname tab' (<[K := d]> m)) /\
     (forall d, m !! K = Some d ->
        exists tab', del_dns_hash_ent tab loc = Some (d, tab') /\ ht_rep qname tab' (delete K m))) /\
  (exists tab', del_dns_hash qname tab (enc_name N ++ r) = Some (m !! K, tab') /\
     ht_rep qname tab' (delete K m)).
Proof.
  intros Hrep HN K. split; [|by apply del_dns_hash_spec].
  destruct (dns_lookup_spec qname tab m N r Hrep HN) as (loc & Hl & Hok). fold K in Hl, Hok.
  exists loc. split_and!; [done| |].
  - intros d Hd Hq. rewrite Hd in Hok. by apply add_dns_hash_spec.
  - intros d Hd. rewrite Hd in Hok. by apply del_dns_hash_ent_spec.
Qed.

Lemma hash_refines_map_witness :
  let qname := fun d : bool => Some (if d then enc_name [[119]]%Z else enc_name [[87]; [97]]%Z) in
  exists loc, @dns_lookup LP64 bool qname mk_dns_hash (enc_name [[87]]%Z ++ []) = Some (None, loc) /\
    exists tab', add_dns_hash true mk_dns_hash true loc = Some (true, tab') /\
      @dns_lookup LP64 bool qname tab' [1; 119; 0]%Z =
        Some (Some true, {| loc_bucket := 175; loc_pos := 0; loc_rhash := 175 |}).
Proof.
  intros qname.
  destruct (@hash_refines_map LP64 bool qname mk_dns_hash ∅ [[119]]%Z [] (mk_dns_hash_rep _))
    as [(loc & Hl & Ha & _) _].
  { split; [repeat constructor; simpl; lia|vm_compute; lia]. }
  exists loc. split; [exact Hl|].
  destruct (Ha true) as (tab' & Hadd & _); [done|done|].
  exists tab'. split; [exact Hadd|]. vm_compute in Hl. injection Hl as <-.
  vm_compute in Hadd. injection Hadd as <-. vm_compute. reflexivity.
Defined.

(** The loop [for (d=fetch_first(&pos); d; d=fetch_next(&pos))]. *)
Fixpoint fetch_rest {D} (fuel : nat) (tab : hash_table D) (pos : dns_hash_pos D) : list D :=
  match fuel with
  | O => []
  | S f =>
      match fetch_next tab pos with
      | (Some d, pos') => d :: fetch_rest f tab pos'
      | (None, _) => []
      end
  end.

Definition fetch_all {D} (fuel : nat) (tab : hash_table D) (pos : dns_hash_pos D) : list D :=
  match fetch_first tab pos with
  | (Some d, pos') => d :: fetch_rest fuel tab pos'
  | (None, _) => []
  end.

(** The elements after a position. *)
Definition pos_rest {D} (tab : hash_table D) (pos : dns_hash_pos D) : list (dns_hash_ent D) :=
  pos_ent pos ++ concat (drop (pos_bucket pos + 1) tab).

Lemma fetch_from_spec {D} (tab : hash_table D) (pos : dns_hash_pos D) : forall k,
  match concat (drop k tab) with
  | [] => (fetch_from (drop k tab) k pos).1 = None
  | he :: rest => exists pos', fetch_from (drop k tab) k pos = (Some (hdata he), pos') /\ pos_rest tab pos' = rest
  end.
Proof.
  intros k. remember (drop k tab) as bs eqn:E. revert k E.
  induction bs as [|[|he c] bs IH]; intros k E; cbn [concat app fetch_from]; [done| |].
  - rewrite Nat.add_1_r. apply IH. rewrite <- Nat.add_1_r, <- drop_drop, <- E. done.
  - eexists. split; [done|]. unfold pos_rest. cbn [pos_ent pos_bucket].
    by rewrite <- drop_drop, <- E.
Qed.

Lemma fetch_rest_spec {D} (tab : hash_table D) fuel : forall pos,
  length (pos_rest tab pos) <= fuel -> fetch_rest fuel tab pos = map hdata (pos_rest tab pos).
Proof.
  induction fuel as [|f IH]; intros pos Hf.
  - by rewrite (nil_length_inv (pos_rest tab pos)) by lia.
  - cbn [fetch_rest]. unfold fetch_next, pos_rest in *. destruct (pos_ent pos) as [|he next].
    + pose proof (fetch_from_spec tab pos (pos_bucket pos + 1)) as Hspec. cbn [app] in *.
      destruct (concat (drop (pos_bucket pos + 1) tab)) as [|he rest].
      * by destruct (fetch_from _ _ _) as [[d|] pos'].
      * destruct Hspec as (pos' & -> & <-). cbn [map]. f_equal. apply IH. unfold pos_rest in Hf. simpl in Hf. lia.
    + cbn [app map]. f_equal. rewrite (IH {| pos_bucket := pos_bucket pos; pos_ent := next |}); [done|].
      cbn in Hf |- *. lia.
Qed.

Lemma fetch_all_spec {D} (tab : hash_table D) (pos : dns_hash_pos D) (fuel : nat) :
  length (concat tab) <= fuel -> fetch_all fuel tab pos = map hdata (concat tab).
Proof.
  intros Hf. unfold fetch_all, fetch_first. pose proof (fetch_from_spec tab pos 0) as Hspec.
  rewrite drop_0 in Hspec. destruct (concat tab) as [|he rest].
  - by destruct (fetch_from tab 0 pos) as [[d|] pos'].
  - destruct Hspec as (pos' & -> & <-). cbn [map]. f_equal. apply fetch_rest_spec. simpl in Hf. lia.
Qed.

(** C32: iterating with [fetch_first] and [fetch_next] visits every entry of the
    table exactly once, in the order of the buckets and chains, and then stops. *)
Theorem fetch_visits_all {D} (tab : hash_table D) (pos : dns_hash_pos D) (fuel : nat) :
  length (concat tab) <= fuel -> fetch_all fuel tab pos = map hdata (concat tab).
Proof. apply fetch_all_spec. Qed.

Lemma fetch_visits_all_witness :
  let e n := {| rhash := 0; hdata := n |} in
  fetch_all 5 [[]; [e 1; e 2]; []; [e 3]; []] {| pos_bucket := 0; pos_ent := [] |} = [1; 2; 3].
Proof. intros e. refine (fetch_visits_all _ _ _ _). simpl. lia. Defined.
