(* ===== verification/RrList.v ===== *)
(** The list of record sets ordered by age: [insert_rrl], [remove_rrl],
    [listmerge] and [sort_rrl] of [pdnsd/src/cache.c].

    The list is doubly linked.  It is modelled first at the level of links: a heap
    of [rr_lent_t] nodes, a head and a tail, each operation written as the
    assignments of the C code.  The operations on plain sequences that the cache
    uses ([rrl_insert], [rrl_append], [rrl_remove]) are shown to be what the
    assignments implement. *)
From S2P Require Import Prelude.

Section RrList.
(** The node payload ([rrset], [cent], [idx]) and [get_rrlent_ts], which reads the
    time stamp through the payload and fails when it dangles. *)
Context {A : Type} (lent_ts : A -> option Z).

(** ** Links *)

(** [rr_lent_t]. *)
Record rr_lent := { le_next : option positive; le_prev : option positive; le_val : A }.

(** [rrset_l], [rrset_l_tail] and the nodes. *)
Record rrl_mem := {
  nodes : gmap positive rr_lent;
  rrset_l : option positive;
  rrset_l_tail : option positive;
}.

Definition set_next (h : gmap positive rr_lent) (p : positive) (v : option positive)
    : option (gmap positive rr_lent) :=
  n ← h !! p; Some (<[p := {| le_next := v; le_prev := le_prev n; le_val := le_val n |}]> h).

Definition set_prev (h : gmap positive rr_lent) (p : positive) (v : option positive)
    : option (gmap positive rr_lent) :=
  n ← h !! p; Some (<[p := {| le_next := le_next n; le_prev := v; le_val := le_val n |}]> h).

(** The search from the tail for an entry that is not younger than [ts]. *)
Fixpoint find_back (fuel : nat) (h : gmap positive rr_lent) (ts : Z) (le : option positive)
    : option (option positive) :=
  match fuel with
  | O => None
  | S f =>
      match le with
      | None => Some None
      | Some p =>
          n ← h !! p;
          t ← lent_ts (le_val n);
          if (t <=? ts)%Z then Some (Some p) else find_back f h ts (le_prev n)
      end
  end.

(** Linking the new node [ne] into the list, after the allocation; the node is
    initialised with both links empty. *)
Definition link_rrl (insert_sort : bool) (m : rrl_mem) (ne : positive) (v : A) : option rrl_mem :=
  let h := <[ne := {| le_next := None; le_prev := None; le_val := v |}]> (nodes m) in
  if insert_sort then
    ts ← lent_ts v;
    le ← find_back (S (size h)) h ts (rrset_l_tail m);
    match le with
    | None =>
        h ← set_next h ne (rrset_l m);
        '(h, tail) ← match rrset_l m with
                     | Some first => h ← set_prev h first (Some ne); Some (h, rrset_l_tail m)
                     | None => Some (h, Some ne)
                     end;
        Some {| nodes := h; rrset_l := Some ne; rrset_l_tail := tail |}
    | Some le =>
        n ← h !! le;
        h ← set_next h ne (le_next n);
        h ← set_prev h ne (Some le);
        '(h, tail) ← match le_next n with
                     | Some nx => h ← set_prev h nx (Some ne); Some (h, rrset_l_tail m)
                     | None => Some (h, Some ne)
                     end;
        h ← set_next h le (Some ne);
        Some {| nodes := h; rrset_l := rrset_l m; rrset_l_tail := tail |}
    end
  else
    h ← set_prev h ne (rrset_l_tail m);
    '(h, first) ← match rrset_l_tail m with
                  | Some tl => h ← set_next h tl (Some ne); Some (h, rrset_l m)
                  | None => Some (h, Some ne)
                  end;
    Some {| nodes := h; rrset_l := first; rrset_l_tail := Some ne |}.

(** [remove_rrl]; the node is freed. *)
Definition unlink_rrl (m : rrl_mem) (le : positive) : option rrl_mem :=
  n ← nodes m !! le;
  let h := nodes m in
  '(h, tail) ← match le_next n with
               | Some next => h ← set_prev h next (le_prev n); Some (h, rrset_l_tail m)
               | None => Some (h, le_prev n)
               end;
  '(h, first) ← match le_prev n with
                | Some prev => h ← set_next h prev (le_next n); Some (h, rrset_l m)
                | None => Some (h, le_next n)
                end;
  Some {| nodes := delete le h; rrset_l := first; rrset_l_tail := tail |}.

(** ** Sequences *)

(** The same operations on the sequence of nodes, each with its address. *)
Fixpoint insert_back (ts : Z) (x : positive * A) (rl : list (positive * A))
    : option (list (positive * A)) :=
  match rl with
  | [] => Some [x]
  | y :: rl' =>
      t ← lent_ts y.2;
      if (t <=? ts)%Z then Some (x :: y :: rl')
      else rl'' ← insert_back ts x rl'; Some (y :: rl'')
  end.

Definition rrl_insert (x : positive * A) (l : list (positive * A)) : option (list (positive * A)) :=
  ts ← lent_ts x.2; rl ← insert_back ts x (rev l); Some (rev rl).

Definition rrl_append (x : positive * A) (l : list (positive * A)) : list (positive * A) := l ++ [x].

Definition rrl_remove (p : positive) (l : list (positive * A)) : list (positive * A) :=
  filter (fun x => x.1 <> p) l.

(** ** Merge sort

    [listmerge] and the main loop of [sort_rrl] only use the [next] links, so a
    list is the sequence of its nodes; the pass over the whole list that restores
    the back links is what makes the sequence a list again. *)

Fixpoint listmerge (p : list (positive * A)) : list (positive * A) -> option (list (positive * A)) :=
  fix merge_q (q : list (positive * A)) : option (list (positive * A)) :=
    match p, q with
    | [], _ => Some q
    | _, [] => Some p
    | x :: p', y :: q' =>
        tx ← lent_ts x.2; ty ← lent_ts y.2;
        if (tx <=? ty)%Z then l ← listmerge p' q; Some (x :: l)
        else l ← merge_q q'; Some (y :: l)
    end.

Definition NTMPSORT : nat := 32.

(** The [for(counter = tmp; ...)] loop, with [*counter=carry] after it; [tmp] is
    the part of the array below [fill], an empty list stands for NULL. *)
Fixpoint add_carry (tmp : list (list (positive * A))) (carry : list (positive * A))
    : option (list (list (positive * A))) :=
  match tmp with
  | [] => Some [carry]
  | [] :: tmp' => Some (carry :: tmp')
  | c :: tmp' => carry' ← listmerge c carry; tmp'' ← add_carry tmp' carry'; Some ([] :: tmp'')
  end.

(** The do-while loop; the assertion does not return when the array overflows. *)
Fixpoint sort_loop (rem : list (positive * A)) (tmp : list (list (positive * A)))
    : option (list (list (positive * A))) :=
  match rem with
  | [] => Some tmp
  | x :: rem' =>
      tmp' ← add_carry tmp [x];
      if decide (length tmp' <= NTMPSORT) then sort_loop rem' tmp' else None
  end.

Fixpoint merge_rest (carry : list (positive * A)) (tmp : list (list (positive * A)))
    : option (list (positive * A)) :=
  match tmp with
  | [] => Some carry
  | c :: tmp' => carry' ← listmerge c carry; merge_rest carry' tmp'
  end.

Definition sort_rrl (l : list (positive * A)) : option (list (positive * A)) :=
  match l with
  | [] | [_] => Some l
  | _ =>
      tmp ← sort_loop l [];
      match tmp with
      | [] => None
      | c :: tmp' => merge_rest c tmp'
      end
  end.
End RrList.

#[global] Arguments rr_lent : clear implicits.
#[global] Arguments rrl_mem : clear implicits.

(** ** Representation: segments of a doubly linked list *)

Section Rep.
Context {A : Type} (lent_ts : A -> option Z).
Implicit Types (h : gmap positive (rr_lent A)) (l : list (positive * A)) (p q : positive).

(** The first address of a list, or what follows it; the last one, or what
    precedes it. *)
Definition hd_ptr l (nx : option positive) : option positive :=
  match l with [] => nx | (q, _) :: _ => Some q end.
Definition last_ptr (pv : option positive) l : option positive :=
  match last l with Some (q, _) => Some q | None => pv end.

(** The nodes of [l] are linked in both directions, between [pv] and [nx]. *)
Fixpoint lseg h (pv : option positive) l (nx : option positive) : Prop :=
  match l with
  | [] => True
  | (p, a) :: l' =>
      h !! p = Some {| le_next := hd_ptr l' nx; le_prev := pv; le_val := a |} /\ lseg h (Some p) l' nx
  end.

Definition rrl_rep (m : rrl_mem A) l : Prop :=
  NoDup l.*1 /\ lseg (nodes m) None l None /\ dom (nodes m) = list_to_set l.*1 /\
  rrset_l m = hd_ptr l None /\ rrset_l_tail m = last_ptr None l.

Lemma hd_ptr_app l1 l2 nx : hd_ptr (l1 ++ l2) nx = hd_ptr l1 (hd_ptr l2 nx).
Proof. by destruct l1 as [|[q b] l1]. Qed.

Lemma last_ptr_snoc pv l p a : last_ptr pv (l ++ [(p, a)]) = Some p.
Proof. unfold last_ptr. by rewrite last_snoc. Qed.

Lemma last_ptr_cons pv p a l : last_ptr pv ((p, a) :: l) = last_ptr (Some p) l.
Proof. unfold last_ptr. rewrite last_cons. by destruct (last l). Qed.

Lemma last_ptr_app pv l1 l2 : last_ptr pv (l1 ++ l2) = last_ptr (last_ptr pv l1) l2.
Proof. unfold last_ptr. rewrite last_app. by destruct (last l2) as [[q b]|]. Qed.

Lemma lseg_app h l1 : forall pv l2 nx,
  lseg h pv (l1 ++ l2) nx <-> lseg h pv l1 (hd_ptr l2 nx) /\ lseg h (last_ptr pv l1) l2 nx.
Proof.
  induction l1 as [|[p a] l1 IH]; intros pv l2 nx; cbn [app lseg]; [tauto|].
  rewrite IH, hd_ptr_app, last_ptr_cons. tauto.
Qed.

(** Only the nodes of the segment matter. *)
Lemma lseg_ext h h' l : forall pv nx,
  (forall p, p ∈ l.*1 -> h !! p = h' !! p) -> lseg h pv l nx -> lseg h' pv l nx.
Proof.
  induction l as [|[p a] l IH]; intros pv nx Heq; cbn [lseg]; [done|]. intros [Hp Hl]. split.
  - rewrite <- Heq; [done|]. by left.
  - apply IH; [|done]. intros q Hq. apply Heq. by right.
Qed.

Lemma lseg_insert h l pv nx p n : p ∉ l.*1 -> lseg h pv l nx -> lseg (<[p := n]> h) pv l nx.
Proof.
  intros Hp. apply lseg_ext. intros q Hq. rewrite lookup_insert_ne; [done|]. by intros ->.
Qed.

Lemma lseg_delete h l pv nx p : p ∉ l.*1 -> lseg h pv l nx -> lseg (delete p h) pv l nx.
Proof.
  intros Hp. apply lseg_ext. intros q Hq. rewrite lookup_delete_ne; [done|]. by intros ->.
Qed.

(** An assignment to a link of [p] changes [p] only. *)
Definition assigns h p h' : Prop := dom h' = dom h /\ forall q, q <> p -> h' !! q = h !! q.

Lemma assigns_lseg h p h' l pv nx : assigns h p h' -> p ∉ l.*1 -> lseg h pv l nx -> lseg h' pv l nx.
Proof. intros [_ Ha] Hp. apply lseg_ext. intros q Hq. symmetry. apply Ha. by intros ->. Qed.

Lemma dom_override h p n n' : h !! p = Some n -> dom (<[p := n']> h) = dom h.
Proof. intros H. apply dom_insert_lookup_L. by exists n. Qed.

Lemma set_prev_seg h v p a l pv nx :
  p ∉ l.*1 -> lseg h pv ((p, a) :: l) nx ->
  exists h', set_prev h p v = Some h' /\ assigns h p h' /\ lseg h' v ((p, a) :: l) nx.
Proof.
  intros Hp [Hn Hl]. unfold set_prev. rewrite Hn. sbind. eexists. split; [done|]. split.
  - split; [by eapply dom_override|]. intros q Hq. by rewrite lookup_insert_ne.
  - cbn [lseg le_next le_val]. split; [by rewrite lookup_insert_eq|by apply lseg_insert].
Qed.

Lemma set_next_seg h v p a l pv nx :
  p ∉ l.*1 -> lseg h pv (l ++ [(p, a)]) nx ->
  exists h', set_next h p v = Some h' /\ assigns h p h' /\ lseg h' pv (l ++ [(p, a)]) v.
Proof.
  intros Hp Hl. apply lseg_app in Hl as [Hl [Hn _]]. unfold set_next. rewrite Hn. sbind.
  eexists. split; [done|]. split.
  - split; [by eapply dom_override|]. intros q Hq. by rewrite lookup_insert_ne.
  - apply lseg_app. split; [by apply lseg_insert|]. cbn. by rewrite lookup_insert_eq.
Qed.

(** Setting both links of one node. *)
Lemma set_node_next h p n v : h !! p = Some n ->
  set_next h p v = Some (<[p := {| le_next := v; le_prev := le_prev n; le_val := le_val n |}]> h).
Proof. intros H. unfold set_next. by rewrite H. Qed.

Lemma set_node_prev h p n v : h !! p = Some n ->
  set_prev h p v = Some (<[p := {| le_next := le_next n; le_prev := v; le_val := le_val n |}]> h).
Proof. intros H. unfold set_prev. by rewrite H. Qed.

(** ** Insertion *)

Lemma nodup_mid l1 l2 p a : NoDup (l1 ++ (p, a) :: l2).*1 -> p ∉ l1.*1 /\ p ∉ l2.*1.
Proof.
  rewrite fmap_app, fmap_cons. cbn [fst]. rewrite <- Permutation_middle, NoDup_cons, not_elem_of_app. tauto.
Qed.

Lemma dom_mid l1 l2 p a :
  list_to_set (l1 ++ (p, a) :: l2).*1 = ({[p]} ∪ list_to_set (l1 ++ l2).*1 : gset positive).
Proof. rewrite !fmap_app, fmap_cons, !list_to_set_app_L. cbn [fst list_to_set]. set_solver. Qed.

Lemma nodup_app_disj l1 l2 p : NoDup (l1 ++ l2).*1 -> p ∈ l1.*1 -> p ∈ l2.*1 -> False.
Proof. rewrite fmap_app, NoDup_app. intros (_ & H & _) H1 H2. by apply (H p). Qed.

(** Linking [ne] in front of the list. *)
Lemma link_front m l ne v :
  rrl_rep m l -> nodes m !! ne = None ->
  exists h tail,
    (h ← set_next (<[ne := {| le_next := None; le_prev := None; le_val := v |}]> (nodes m)) ne (rrset_l m);
     match rrset_l m with
     | Some first => h ← set_prev h first (Some ne); Some (h, rrset_l_tail m)
     | None => Some (h, Some ne)
     end) = Some (h, tail) /\
    rrl_rep {| nodes := h; rrset_l := Some ne; rrset_l_tail := tail |} ((ne, v) :: l).
Proof.
  intros (Hnd & Hseg & Hdom & Hhd & Htl) Hne.
  assert (Hnin : ne ∉ l.*1).
  { intros Hin. apply (not_elem_of_dom (D:=gset positive)) in Hne. rewrite Hdom in Hne. by apply Hne, elem_of_list_to_set. }
  rewrite Hhd, Htl. clear Hhd Htl.
  rewrite (set_node_next _ ne _ _ (lookup_insert_eq _ _ _)). sbind. cbn [le_prev le_val]. rewrite insert_insert_eq.
  set (h1 := <[ne := _]> (nodes m)).
  assert (Hd1 : dom h1 = list_to_set ((ne, v) :: l).*1) by (unfold h1; by rewrite dom_insert_L, Hdom).
  assert (Hs1 : lseg h1 None l None) by (by apply lseg_insert).
  assert (Hnd' : NoDup ((ne, v) :: l).*1) by (by constructor).
  destruct l as [|[q b] l]; cbn [hd_ptr] in *.
  - eexists _, _. split; [done|]. split_and!; [done| |done|done|done].
    split; [|done]. cbn. unfold h1. by rewrite lookup_insert_eq.
  - apply NoDup_cons in Hnd as [Hq _]. cbn [fst] in Hq.
    destruct (set_prev_seg h1 (Some ne) q b l None None Hq Hs1) as (h2 & -> & [Hd2 Ha] & Hs2). sbind.
    eexists _, _. split; [done|]. split_and!; cbn [nodes rrset_l rrset_l_tail]; [done| |by rewrite Hd2|done|].
    + split; [|done]. rewrite Ha; [unfold h1; by rewrite lookup_insert_eq|].
      intros <-. apply Hnin. by left.
    + by rewrite !last_ptr_cons.
Qed.

(** Linking [ne] after a node [le]. *)
Lemma link_after m l1 le b l2 ne v :
  rrl_rep m ((l1 ++ [(le, b)]) ++ l2) -> nodes m !! ne = None ->
  let h0 := <[ne := {| le_next := None; le_prev := None; le_val := v |}]> (nodes m) in
  exists n h tail, h0 !! le = Some n /\
    (h ← set_next h0 ne (le_next n);
     h ← set_prev h ne (Some le);
     '(h, tail) ← match le_next n with
                  | Some nx => h ← set_prev h nx (Some ne); Some (h, rrset_l_tail m)
                  | None => Some (h, Some ne)
                  end;
     h ← set_next h le (Some ne); Some (h, tail)) = Some (h, tail) /\
    rrl_rep {| nodes := h; rrset_l := rrset_l m; rrset_l_tail := tail |} ((l1 ++ [(le, b)]) ++ (ne, v) :: l2).
Proof.
  intros (Hnd & Hseg & Hdom & Hhd & Htl) Hne h0.
  assert (Hnin : ne ∉ ((l1 ++ [(le, b)]) ++ l2).*1).
  { intros Hin. apply (not_elem_of_dom (D:=gset positive)) in Hne. rewrite Hdom in Hne. by apply Hne, elem_of_list_to_set. }
  assert (Hnin1 : ne ∉ (l1 ++ [(le, b)]).*1 /\ ne ∉ l2.*1) by (rewrite fmap_app, not_elem_of_app in Hnin; done).
  assert (Hle : le ∈ (l1 ++ [(le, b)]).*1) by (rewrite fmap_app; apply elem_of_app; right; by left).
  assert (Hle2 : le ∉ l2.*1) by (intros ?; by eapply nodup_app_disj).
  assert (Hle1 : le ∉ l1.*1).
  { rewrite <- app_assoc in Hnd. cbn in Hnd. by apply nodup_mid in Hnd as [? _]. }
  apply lseg_app in Hseg as [Hs1 Hs2]. rewrite last_ptr_snoc in Hs2.
  assert (Hn : h0 !! le = Some {| le_next := hd_ptr l2 None; le_prev := last_ptr None l1; le_val := b |}).
  { unfold h0. rewrite lookup_insert_ne by (intros ->; tauto). apply lseg_app in Hs1 as [_ [Hs1 _]]. exact Hs1. }
  exists {| le_next := hd_ptr l2 None; le_prev := last_ptr None l1; le_val := b |}. rewrite Hn.
  unfold h0. clear h0 Hn. cbn [le_next].
  rewrite (set_node_next _ ne _ _ (lookup_insert_eq _ _ _)). sbind. cbn [le_prev le_val].
  rewrite (set_node_prev _ ne _ _ (lookup_insert_eq _ _ _)). sbind. cbn [le_next le_val].
  rewrite !insert_insert_eq.
  set (h2 := <[ne := {| le_next := hd_ptr l2 None; le_prev := Some le; le_val := v |}]> (nodes m)).
  assert (Hd2 : dom h2 = list_to_set ((l1 ++ [(le, b)]) ++ (ne, v) :: l2).*1).
  { unfold h2. by rewrite dom_insert_L, Hdom, dom_mid. }
  assert (Hs1' : lseg h2 None (l1 ++ [(le, b)]) (hd_ptr l2 None)) by (apply lseg_insert; [apply Hnin1|done]).
  assert (Hs2' : lseg h2 (Some le) l2 None) by (apply lseg_insert; [apply Hnin1|done]).
  assert (Hne2 : h2 !! ne = Some {| le_next := hd_ptr l2 None; le_prev := Some le; le_val := v |})
    by (unfold h2; by rewrite lookup_insert_eq).
  assert (Hnd' : NoDup ((l1 ++ [(le, b)]) ++ (ne, v) :: l2).*1).
  { rewrite fmap_app, fmap_cons. cbn [fst]. rewrite <- Permutation_middle, <- fmap_app. by constructor. }
  (* the node after [ne], if there is one *)
  assert (Hmid : exists h3 tail,
    match hd_ptr l2 None with
    | Some nx => h ← set_prev h2 nx (Some ne); Some (h, rrset_l_tail m)
    | None => Some (h2, Some ne)
    end = Some (h3, tail) /\ dom h3 = dom h2 /\ lseg h3 (Some ne) l2 None /\
    lseg h3 None (l1 ++ [(le, b)]) (hd_ptr l2 None) /\ h3 !! ne = h2 !! ne /\
    tail = last_ptr None ((l1 ++ [(le, b)]) ++ (ne, v) :: l2)).
  { rewrite Htl, !last_ptr_app, last_ptr_cons. destruct l2 as [|[nx c] l2]; cbn [hd_ptr] in *.
    - by eexists _, _.
    - assert (Hnx : nx ∉ l2.*1) by (apply nodup_mid in Hnd as [_ ?]; done).
      destruct (set_prev_seg h2 (Some ne) nx c l2 (Some le) None Hnx Hs2') as (h3 & -> & Ha & Hs3). sbind.
      eexists _, _. split; [done|]. rewrite !last_ptr_cons. split_and!; [apply Ha|done| | |done].
      + eapply assigns_lseg; [done| |done]. intros Hin. by apply (nodup_app_disj _ _ nx Hnd); [|left].
      + apply Ha. intros ->. apply Hnin1. by left. }
  destruct Hmid as (h3 & tail & -> & Hd3 & Hs3 & Hs1'' & Hne3 & Htail). sbind.
  destruct (set_next_seg h3 (Some ne) le b l1 None _ Hle1 Hs1'') as (h4 & -> & Ha4 & Hs4). sbind.
  eexists _, _. split; [done|]. split; [done|]. split_and!; cbn [nodes rrset_l rrset_l_tail].
  - done.
  - apply lseg_app. rewrite last_ptr_snoc. cbn [hd_ptr lseg]. split; [done|]. split.
    + destruct Ha4 as [_ Ha4]. rewrite Ha4, Hne3; [done|]. intros ->. tauto.
    + by eapply assigns_lseg.
  - destruct Ha4 as [-> _]. by rewrite Hd3.
  - by rewrite Hhd, !hd_ptr_app.
  - done.
Qed.

(** The time stamp of an element whose payload does not dangle. *)
Definition lts (x : positive * A) : Z := default 0%Z (lent_ts x.2).
Definition ts_ok l : Prop := Forall (fun x => is_Some (lent_ts x.2)) l.

Lemma lts_Some x : is_Some (lent_ts x.2) -> lent_ts x.2 = Some (lts x).
Proof. unfold lts. by intros [t ->]. Qed.

(** Where the search from the tail stops: everything behind is younger. *)
Lemma find_back_spec h ts x l : forall fuel nx,
  lseg h None l nx -> length l < fuel -> ts_ok l ->
  exists l1 l2, l = l1 ++ l2 /\ find_back lent_ts fuel h ts (last_ptr None l) = Some (last_ptr None l1) /\
    insert_back lent_ts ts x (rev l) = Some (rev (l1 ++ x :: l2)) /\
    Forall (fun y => ts < lts y)%Z l2 /\ (forall y, last l1 = Some y -> lts y <= ts)%Z.
Proof.
  induction l as [|[p a] l IH] using rev_ind; intros fuel nx Hseg Hf Hok;
    (destruct fuel as [|f]; [simpl in Hf; lia|]).
  - exists [], []. split_and!; [done..|constructor|done].
  - rewrite length_snoc in Hf. apply Forall_app in Hok as [Hok Hx]. apply Forall_cons in Hx as [Hx _].
    apply lseg_app in Hseg as [Hseg [Hp _]]. rewrite last_ptr_snoc, rev_app_distr. cbn [find_back rev app insert_back].
    rewrite Hp. sbind. cbn [le_val le_prev fst snd] in *. rewrite (lts_Some (p, a) Hx : lent_ts a = _). sbind.
    destruct (lts (p, a) <=? ts)%Z eqn:E; boolp.
    + exists (l ++ [(p, a)]), []. rewrite last_ptr_snoc, app_nil_r. split_and!; [done|done| |constructor|].
      * rewrite !rev_app_distr. done.
      * intros y. rewrite last_snoc. by intros [= <-].
    + destruct (IH f (hd_ptr [(p, a)] nx) Hseg ltac:(lia) Hok) as (l1 & l2 & -> & -> & -> & Hl2 & Hl1). sbind.
      exists l1, (l2 ++ [(p, a)]). split_and!; [by rewrite app_assoc|done| | |done].
      * rewrite (app_assoc l1 (x :: l2) [(p, a)] : l1 ++ x :: l2 ++ [(p, a)] = _), (rev_app_distr (l1 ++ x :: l2)). done.
      * apply Forall_app. split; [done|]. by repeat constructor.
Qed.

Lemma rrl_rep_size m l : rrl_rep m l -> size (nodes m) = length l.
Proof.
  intros (Hnd & _ & Hdom & _). rewrite <- (size_dom (nodes m)), Hdom, size_list_to_set by done.
  apply length_map.
Qed.

(** [insert_rrl] with [insert_sort] set inserts behind the youngest entry that is
    not younger. *)
Lemma link_rrl_insert m l ne v :
  rrl_rep m l -> nodes m !! ne = None -> ts_ok ((ne, v) :: l) ->
  exists m' l', link_rrl lent_ts true m ne v = Some m' /\ rrl_insert lent_ts (ne, v) l = Some l' /\
    rrl_rep m' l'.
Proof.
  intros Hrep Hne Hok. apply Forall_cons in Hok as [Hv Hok]. unfold link_rrl, rrl_insert.
  pose proof (lts_Some _ Hv) as Hts. cbn [snd] in *. rewrite Hts. sbind.
  set (h0 := <[ne := _]> (nodes m)).
  assert (Hnin : ne ∉ l.*1).
  { destruct Hrep as (_ & _ & Hdom & _). intros Hin. apply (not_elem_of_dom (D:=gset positive)) in Hne.
    rewrite Hdom in Hne. by apply Hne, elem_of_list_to_set. }
  assert (Hs0 : lseg h0 None l None) by (apply lseg_insert; [done|apply Hrep]).
  assert (Hf : length l < S (size h0)).
  { unfold h0. rewrite map_size_insert_None by done. rewrite (rrl_rep_size m l Hrep). lia. }
  assert (Htl : rrset_l_tail m = last_ptr None l) by apply Hrep.
  destruct (find_back_spec h0 (lts (ne, v)) (ne, v) l _ None Hs0 Hf Hok) as (l1 & l2 & Hl & Hfb & Hib & _).
  rewrite Htl, Hfb. sbind. rewrite Hib. sbind. rewrite rev_involutive, <- Htl.
  destruct l1 as [|[le b] l1 _] using rev_ind.
  - cbn [last_ptr last]. destruct (link_front m l ne v Hrep Hne) as (h & tail & Hrun & Hr). fold h0 in Hrun.
    destruct (set_next h0 ne (rrset_l m)) as [h1|]; [|discriminate Hrun].
    revert Hrun. sbind. intros ->. sbind. eexists _, _. split; [done|]. split; [done|]. subst l. done.
  - rewrite last_ptr_snoc. subst l.
    destruct (link_after m l1 le b l2 ne v Hrep Hne) as (n & h & tail & Hn & Hrun & Hr). fold h0 in Hn, Hrun.
    rewrite Hn. sbind.
    destruct (set_next h0 ne (le_next n)) as [h1|]; [|discriminate Hrun]. revert Hrun. sbind. intros Hrun.
    destruct (set_prev h1 ne (Some le)) as [h2|]; [|discriminate Hrun]. revert Hrun. sbind. intros Hrun.
    destruct (match le_next n with Some _ => _ | None => _ end) as [[h3 tail3]|]; [|discriminate Hrun].
    revert Hrun. sbind. intros Hrun.
    destruct (set_next h3 le (Some ne)) as [h4|]; [|discriminate Hrun]. revert Hrun. sbind. intros [= -> ->].
    eexists _, _. split; [done|]. split; [done|]. done.
Qed.

(** With [insert_sort] unset it appends. *)
Lemma link_rrl_append m l ne v :
  rrl_rep m l -> nodes m !! ne = None ->
  exists m', link_rrl lent_ts false m ne v = Some m' /\ rrl_rep m' (rrl_append (ne, v) l).
Proof.
  intros (Hnd & Hseg & Hdom & Hhd & Htl) Hne. unfold link_rrl, rrl_append. rewrite Hhd, Htl. clear Hhd Htl.
  assert (Hnin : ne ∉ l.*1).
  { intros Hin. apply (not_elem_of_dom (D:=gset positive)) in Hne. rewrite Hdom in Hne. by apply Hne, elem_of_list_to_set. }
  rewrite (set_node_prev _ ne _ _ (lookup_insert_eq _ _ _)). sbind. cbn [le_next le_val]. rewrite insert_insert_eq.
  set (h1 := <[ne := _]> (nodes m)).
  assert (Hd1 : dom h1 = list_to_set (l ++ [(ne, v)]).*1).
  { unfold h1. by rewrite dom_insert_L, Hdom, dom_mid, app_nil_r. }
  assert (Hs1 : lseg h1 None l None) by (by apply lseg_insert).
  assert (Hne1 : h1 !! ne = Some {| le_next := None; le_prev := last_ptr None l; le_val := v |})
    by (unfold h1; by rewrite lookup_insert_eq).
  assert (Hnd' : NoDup (l ++ [(ne, v)]).*1).
  { rewrite fmap_app. cbn. rewrite <- Permutation_cons_append. by constructor. }
  destruct l as [|[tl b] l _] using rev_ind.
  - cbn [last_ptr last]. sbind. eexists. split; [done|]. split_and!; [done| |done|done|done]. by split.
  - rewrite last_ptr_snoc in *. rewrite fmap_app, not_elem_of_app in Hnin.
    assert (Htl : tl ∉ l.*1) by (apply nodup_mid in Hnd as [? _]; done).
    destruct (set_next_seg h1 (Some ne) tl b l None None Htl Hs1) as (h2 & -> & [Hd2 Ha] & Hs2). sbind.
    eexists. split; [done|]. split_and!; cbn [nodes rrset_l rrset_l_tail]; [done| |by rewrite Hd2|by rewrite !hd_ptr_app|by rewrite last_ptr_snoc].
    apply lseg_app. rewrite last_ptr_snoc. split; [done|]. split; [|done]. rewrite Ha; [done|].
    intros ->. destruct Hnin as [_ Hnin]. apply Hnin. by left.
Qed.

(** ** Removal *)

Lemma rrl_remove_mid l1 p a l2 : NoDup (l1 ++ (p, a) :: l2).*1 -> rrl_remove p (l1 ++ (p, a) :: l2) = l1 ++ l2.
Proof.
  intros Hnd. apply nodup_mid in Hnd as [H1 H2]. unfold rrl_remove.
  rewrite filter_app, filter_cons_False by (cbn; tauto).
  assert (Hid : forall l : list (positive * A), p ∉ l.*1 -> filter (fun x => x.1 <> p) l = l).
  { induction l as [|[q b] l IH]; [done|]. rewrite fmap_cons, not_elem_of_cons. cbn [fst]. intros [Hq Hl].
    rewrite filter_cons_True by (cbn; congruence). by rewrite IH. }
  by rewrite !Hid.
Qed.

Lemma unlink_rrl_remove m l p :
  rrl_rep m l -> p ∈ l.*1 -> exists m', unlink_rrl m p = Some m' /\ rrl_rep m' (rrl_remove p l).
Proof.
  intros (Hnd & Hseg & Hdom & Hhd & Htl) Hin. apply list_elem_of_fmap in Hin as ([q a] & Hq & Hin).
  cbn in Hq. subst q. apply list_elem_of_split in Hin as (l1 & l2 & ->).
  rewrite rrl_remove_mid by done. pose proof (nodup_mid _ _ _ _ Hnd) as [Hp1 Hp2].
  apply lseg_app in Hseg as [Hs1 [Hp Hs2]]. unfold unlink_rrl. rewrite Hp. sbind. cbn [le_next le_prev].
  assert (Hnext : exists h tail,
    match hd_ptr l2 None with
    | Some next => h ← set_prev (nodes m) next (last_ptr None l1); Some (h, rrset_l_tail m)
    | None => Some (nodes m, last_ptr None l1)
    end = Some (h, tail) /\ dom h = dom (nodes m) /\ lseg h None l1 (Some p) /\
    lseg h (last_ptr None l1) l2 None /\ tail = last_ptr None (l1 ++ l2)).
  { rewrite Htl, !last_ptr_app, last_ptr_cons. destruct l2 as [|[nx c] l2]; cbn [hd_ptr].
    - by eexists _, _.
    - assert (Hnx : nx ∉ l2.*1) by (rewrite cons_middle, app_assoc in Hnd; by apply nodup_mid in Hnd as [_ ?]).
      destruct (set_prev_seg (nodes m) (last_ptr None l1) nx c l2 (Some p) None Hnx Hs2) as (h & -> & Ha & Hs). sbind.
      eexists _, _. split; [done|]. rewrite !last_ptr_cons. split_and!; [apply Ha| |done|done].
      eapply assigns_lseg; [done| |done]. intros Hin. apply (nodup_app_disj _ _ nx Hnd Hin). right. by left. }
  destruct Hnext as (h & tail & -> & Hd & Hs1' & Hs2' & Htail). sbind.
  assert (Hprev : exists h' first,
    match last_ptr None l1 with
    | Some prev => h' ← set_next h prev (hd_ptr l2 None); Some (h', rrset_l m)
    | None => Some (h, hd_ptr l2 None)
    end = Some (h', first) /\ dom h' = dom h /\ lseg h' None l1 (hd_ptr l2 None) /\
    lseg h' (last_ptr None l1) l2 None /\ first = hd_ptr (l1 ++ l2) None).
  { rewrite Hhd, !hd_ptr_app. destruct l1 as [|[pv c] l1 _] using rev_ind.
    - by eexists _, _.
    - rewrite last_ptr_snoc in *.
      assert (Hpv : pv ∉ l1.*1) by (rewrite <- app_assoc in Hnd; by apply nodup_mid in Hnd as [? _]).
      destruct (set_next_seg h (hd_ptr l2 None) pv c l1 None _ Hpv Hs1') as (h' & -> & Ha & Hs). sbind.
      eexists _, _. split; [done|]. split_and!; [apply Ha|done| |].
      + eapply assigns_lseg; [done| |done]. intros Hin.
        apply (nodup_app_disj _ _ pv Hnd); [rewrite fmap_app; apply elem_of_app; right; by left|by right].
      + by rewrite !hd_ptr_app. }
  destruct Hprev as (h' & first & -> & Hd' & Hs1'' & Hs2'' & Hfirst). sbind.
  eexists. split; [done|]. split_and!; cbn [nodes rrset_l rrset_l_tail]; [| | |done|done].
  - rewrite fmap_app in *. cbn in Hnd. rewrite <- Permutation_middle in Hnd. by apply NoDup_cons in Hnd as [_ ?].
  - apply lseg_app. split; by apply lseg_delete.
  - rewrite dom_delete_L, Hd', Hd, Hdom, dom_mid.
    assert (p ∉ (list_to_set (l1 ++ l2).*1 : gset positive)); [|set_solver].
    rewrite elem_of_list_to_set, fmap_app, elem_of_app. tauto.
Qed.
End Rep.

(** ** Order *)

Section Order.
Context {A : Type} (lent_ts : A -> option Z).
Implicit Types (l p q : list (positive * A)) (tmp : list (list (positive * A))).

(** Oldest first. *)
Definition older (x y : positive * A) : Prop := (lts lent_ts x <= lts lent_ts y)%Z.
Abbreviation sorted := (StronglySorted older).

Lemma insert_back_Some ts x l :
  ts_ok lent_ts l -> exists l1 l2, l = l1 ++ l2 /\
    insert_back lent_ts ts x (rev l) = Some (rev (l1 ++ x :: l2)) /\
    Forall (fun y => ts < lts lent_ts y)%Z l2 /\ (forall y, last l1 = Some y -> lts lent_ts y <= ts)%Z.
Proof.
  induction l as [|y l IH] using rev_ind; intros Hok.
  - exists [], []. split_and!; [done..|constructor|done].
  - apply Forall_app in Hok as [Hok Hy]. apply Forall_cons in Hy as [Hy _].
    rewrite rev_app_distr. cbn [rev app insert_back]. rewrite (lts_Some lent_ts y Hy). sbind.
    destruct (lts lent_ts y <=? ts)%Z eqn:E; boolp.
    + exists (l ++ [y]), []. rewrite app_nil_r. split_and!; [done| |constructor|].
      * by rewrite !rev_app_distr.
      * intros z. rewrite last_snoc. by intros [= <-].
    + destruct (IH Hok) as (l1 & l2 & -> & -> & Hl2 & Hl1). sbind.
      exists l1, (l2 ++ [y]). split_and!; [by rewrite app_assoc| | |done].
      * by rewrite (app_assoc l1 (x :: l2) [y] : l1 ++ x :: l2 ++ [y] = _), (rev_app_distr (l1 ++ x :: l2)).
      * apply Forall_app. split; [done|]. by repeat constructor.
Qed.

Lemma sorted_last l x : sorted l -> (forall y, last l = Some y -> older y x) -> Forall (fun y => older y x) l.
Proof.
  intros Hs Hx. destruct l as [|z l _] using rev_ind; [constructor|].
  specialize (Hx z (last_snoc _ _)). apply StronglySorted_app in Hs as (Hc & _ & _).
  apply Forall_app. split; [|by repeat constructor]. apply Forall_forall. intros y Hy.
  assert (older y z) by (apply Hc; [done|by left]). unfold older in *. lia.
Qed.

Lemma rrl_insert_spec x l :
  ts_ok lent_ts (x :: l) ->
  exists l', rrl_insert lent_ts x l = Some l' /\ l' ≡ₚ x :: l /\ (sorted l -> sorted l').
Proof.
  intros Hok. apply Forall_cons in Hok as [Hx Hok]. unfold rrl_insert. rewrite (lts_Some lent_ts x Hx). sbind.
  destruct (insert_back_Some (lts lent_ts x) x l Hok) as (l1 & l2 & -> & -> & Hl2 & Hl1). sbind.
  rewrite rev_involutive. eexists. split; [done|]. split; [by rewrite <- Permutation_middle|].
  intros Hs. apply StronglySorted_app. apply StronglySorted_app in Hs as (Hc & Hs1 & Hs2).
  pose proof (sorted_last l1 x Hs1 Hl1) as Hb. rewrite Forall_forall in Hb. split_and!; [|done|].
  - intros y z Hy Hz. apply elem_of_cons in Hz as [->|Hz]; [by apply Hb|by apply Hc].
  - constructor; [done|]. eapply Forall_impl; [done|]. intros y. unfold older. lia.
Qed.

Lemma listmerge_cons x p y q :
  listmerge lent_ts (x :: p) (y :: q) =
  tx ← lent_ts x.2; ty ← lent_ts y.2;
  if (tx <=? ty)%Z then l ← listmerge lent_ts p (y :: q); Some (x :: l)
  else l ← listmerge lent_ts (x :: p) q; Some (y :: l).
Proof. done. Qed.

Lemma listmerge_spec p : forall q, ts_ok lent_ts p -> ts_ok lent_ts q ->
  exists l, listmerge lent_ts p q = Some l /\ l ≡ₚ p ++ q /\ (sorted p -> sorted q -> sorted l).
Proof.
  induction p as [|x p IHp]; intros q Hp Hq.
  { exists q. by destruct q. }
  induction q as [|y q IHq].
  { exists (x :: p). by rewrite app_nil_r. }
  apply Forall_cons in Hp as [Hx Hp]. apply Forall_cons in Hq as [Hy Hq]. rewrite listmerge_cons.
  rewrite (lts_Some lent_ts x Hx), (lts_Some lent_ts y Hy). sbind.
  destruct (lts lent_ts x <=? lts lent_ts y)%Z eqn:E; boolp.
  - destruct (IHp (y :: q) Hp) as (l & -> & Hl & Hs); [by constructor|]. sbind.
    eexists. split; [done|]. split; [by rewrite Hl|]. intros Hsp Hsq.
    inversion Hsp as [|? ? Hsp' Hxp]; subst. constructor; [by apply Hs|].
    rewrite Hl. apply Forall_app. split; [done|]. inversion Hsq as [|? ? _ Hyq]; subst.
    constructor; [done|]. eapply Forall_impl; [done|]. intros z. unfold older. lia.
  - destruct (IHq Hq) as (l & Hrun & Hl & Hs). rewrite Hrun. sbind.
    eexists. split; [done|]. split; [rewrite Hl; by rewrite <- Permutation_middle|]. intros Hsp Hsq.
    inversion Hsq as [|? ? Hsq' Hyq]; subst. constructor; [by apply Hs|].
    rewrite Hl. apply Forall_app. split; [|done]. inversion Hsp as [|? ? _ Hxp]; subst.
    constructor; [unfold older; lia|]. eapply Forall_impl; [done|]. intros z. unfold older. lia.
Qed.

Lemma ts_ok_perm l l' : l ≡ₚ l' -> ts_ok lent_ts l -> ts_ok lent_ts l'.
Proof. unfold ts_ok. by intros ->. Qed.

(** The array [tmp]: slot [i] is empty or sorted with [2^(k+i)] elements, and the
    last slot in use is not empty. *)
Definition slots (k : nat) tmp : Prop :=
  (forall i c, tmp !! i = Some c -> sorted c /\ (c = [] \/ length c = 2 ^ (k + i))) /\ last tmp <> Some [].

Lemma slots_cons k c tmp :
  slots k (c :: tmp) <-> (sorted c /\ (c = [] \/ length c = 2 ^ k)) /\ (tmp = [] -> c <> []) /\ slots (S k) tmp.
Proof.
  unfold slots. split.
  - intros [Hs Hl]. split; [|split; [|split]].
    + specialize (Hs 0 c eq_refl). by rewrite Nat.add_0_r in Hs.
    + intros -> ->. by apply Hl.
    + intros i c' Hc'. specialize (Hs (S i) c' Hc'). by rewrite Nat.add_succ_r in Hs.
    + rewrite last_cons in Hl. by destruct (last tmp).
  - intros (Hc & Hne & Hs & Hl). split.
    + intros [|i] c' Hc'; [injection Hc' as <-; by rewrite Nat.add_0_r|].
      rewrite Nat.add_succ_r. by apply (Hs i).
    + rewrite last_cons. destruct (last tmp) eqn:E; [done|]. apply last_None in E. intros [= ->]. by apply Hne.
Qed.

Lemma add_carry_spec tmp : forall k carry,
  slots k tmp -> ts_ok lent_ts (concat tmp) -> ts_ok lent_ts carry -> sorted carry -> length carry = 2 ^ k ->
  exists tmp', add_carry lent_ts tmp carry = Some tmp' /\ slots k tmp' /\ concat tmp' ≡ₚ carry ++ concat tmp.
Proof.
  induction tmp as [|c tmp IH]; intros k carry Hsl Hok Hokc Hsc Hlen.
  - eexists. split; [done|]. split; [|done]. apply slots_cons. split_and!; [done|by right| |].
    + intros _ ->. simpl in Hlen. pose proof (Nat.pow_nonzero 2 k). lia.
    + split; [intros i c; by rewrite lookup_nil|done].
  - apply slots_cons in Hsl as ((Hs & Hl) & Hne & Hsl). cbn [concat] in Hok. apply Forall_app in Hok as [Hokc' Hok].
    destruct c as [|x c]; cbn [add_carry].
    + eexists. split; [done|]. split; [|done]. apply slots_cons. split_and!; [done|by right| |done].
      intros _ ->. simpl in Hlen. pose proof (Nat.pow_nonzero 2 k). lia.
    + destruct Hl as [?|Hl]; [done|].
      destruct (listmerge_spec (x :: c) carry Hokc' Hokc) as (carry' & -> & Hp & Hs'). sbind.
      destruct (IH (S k) carry') as (tmp' & -> & Hsl' & Hp').
      * done.
      * done.
      * eapply ts_ok_perm; [symmetry; exact Hp|]. by apply Forall_app.
      * by apply Hs'.
      * rewrite Hp, length_app, Hl, Hlen. simpl. lia.
      * sbind. eexists. split; [done|]. split.
        -- apply slots_cons. split_and!; [constructor|by left| |done]. intros ->.
           apply Permutation_nil in Hp'. apply app_eq_nil in Hp' as [-> _]. by apply Permutation_nil_cons in Hp.
        -- change (concat ([] :: tmp')) with (concat tmp'). rewrite Hp', Hp. cbn [concat].
           by rewrite (app_assoc carry), (Permutation_app_comm carry (x :: c)).
Qed.

(** The number of slots is at most one more than the logarithm of the number of
    elements. *)
Lemma slots_length tmp n :
  slots 0 tmp -> length (concat tmp) = n -> (Z.of_nat n < 2 ^ 32)%Z -> length tmp <= NTMPSORT.
Proof.
  intros [Hs Hl] Hn Hlt. destruct tmp as [|c tmp _] using rev_ind; [simpl; lia|].
  rewrite last_snoc in Hl. rewrite length_snoc. rewrite concat_app, length_app in Hn. cbn in Hn.
  rewrite app_nil_r in Hn. destruct (Hs (length tmp) c) as [_ [->|Hc]]; [by apply list_lookup_middle|done|].
  cbn in Hc. apply Nat.nlt_ge. intros Hgt. unfold NTMPSORT in Hgt.
  assert (2 ^ 32 <= Z.of_nat (length c))%Z; [|lia].
  rewrite Hc, Nat2Z.inj_pow. apply Z.pow_le_mono_r; lia.
Qed.

Lemma sort_loop_spec rem : forall tmp,
  slots 0 tmp -> ts_ok lent_ts (concat tmp) -> ts_ok lent_ts rem ->
  (Z.of_nat (length (concat tmp) + length rem) < 2 ^ 32)%Z ->
  exists tmp', sort_loop lent_ts rem tmp = Some tmp' /\ slots 0 tmp' /\ concat tmp' ≡ₚ concat tmp ++ rem.
Proof.
  induction rem as [|x rem IH]; intros tmp Hsl Hok Hr Hn; cbn [sort_loop].
  - exists tmp. by rewrite app_nil_r.
  - apply Forall_cons in Hr as [Hx Hr].
    destruct (add_carry_spec tmp 0 [x] Hsl Hok) as (tmp' & -> & Hsl' & Hp); [by repeat constructor..|done|].
    sbind. assert (Hlen : length (concat tmp') = S (length (concat tmp))) by (by rewrite Hp).
    rewrite decide_True by (eapply slots_length; [done|done|cbn in Hn; lia]).
    destruct (IH tmp' Hsl') as (tmp2 & -> & Hsl2 & Hp2).
    + eapply ts_ok_perm; [symmetry; exact Hp|]. by constructor.
    + done.
    + rewrite Hlen. cbn in Hn. lia.
    + exists tmp2. split_and!; [done|done|]. rewrite Hp2, Hp. cbn. by rewrite <- Permutation_middle.
Qed.

Lemma merge_rest_spec tmp : forall carry,
  (forall c, c ∈ tmp -> sorted c) -> sorted carry -> ts_ok lent_ts carry -> ts_ok lent_ts (concat tmp) ->
  exists l, merge_rest lent_ts carry tmp = Some l /\ sorted l /\ l ≡ₚ carry ++ concat tmp.
Proof.
  induction tmp as [|c tmp IH]; intros carry Hs Hc Hok Hokt; cbn [merge_rest concat].
  - exists carry. by rewrite app_nil_r.
  - cbn [concat] in Hokt. apply Forall_app in Hokt as [Hokc Hokt].
    destruct (listmerge_spec c carry Hokc Hok) as (carry' & -> & Hp & Hs'). sbind.
    destruct (IH carry') as (l & -> & Hsl & Hpl).
    + intros c' Hc'. apply Hs. by right.
    + apply Hs'; [apply Hs; by left|done].
    + eapply ts_ok_perm; [symmetry; exact Hp|]. by apply Forall_app.
    + done.
    + exists l. split_and!; [done..|]. rewrite Hpl, Hp, (Permutation_app_comm c carry). by rewrite <- app_assoc.
Qed.

Lemma sort_rrl_spec l :
  ts_ok lent_ts l -> (Z.of_nat (length l) < 2 ^ 32)%Z ->
  exists l', sort_rrl lent_ts l = Some l' /\ l' ≡ₚ l /\ sorted l'.
Proof.
  intros Hok Hn. unfold sort_rrl. destruct l as [|x [|y l]].
  - exists []. by repeat constructor.
  - exists [x]. by repeat constructor.
  - destruct (sort_loop_spec (x :: y :: l) []) as (tmp & -> & Hsl & Hp); [|constructor|done|done|].
    { split; [intros i c; by rewrite lookup_nil|done]. }
    sbind. cbn [concat app] in Hp. destruct tmp as [|c tmp].
    { cbn in Hp. by apply Permutation_nil_cons in Hp. }
    assert (Hok2 : ts_ok lent_ts (c ++ concat tmp)) by (by eapply ts_ok_perm).
    apply Forall_app in Hok2 as [Hokc Hokt]. destruct Hsl as [Hs _].
    destruct (merge_rest_spec tmp c) as (l' & -> & Hsl & Hpl); [|by apply (Hs 0)|done|done|].
    { intros c' Hc'. apply list_elem_of_lookup in Hc' as [i Hi]. by apply (Hs (S i)). }
    exists l'. split_and!; [done| |done]. rewrite Hpl. exact Hp.
Qed.
End Order.

(** ** Theorems *)

(** C31: the link manipulations of [insert_rrl] and [remove_rrl] implement insertion
    and removal in the sequence of entries: they keep the list linked in both
    directions, head and tail included, and never follow a dangling link. *)
Theorem rrl_links_refine {A} (lent_ts : A -> option Z) (m : rrl_mem A) (l : list (positive * A)) :
  rrl_rep m l ->
  (forall ne v, nodes m !! ne = None -> ts_ok lent_ts ((ne, v) :: l) ->
     exists m' l', link_rrl lent_ts true m ne v = Some m' /\ rrl_insert lent_ts (ne, v) l = Some l' /\
       rrl_rep m' l') /\
  (forall ne v, nodes m !! ne = None ->
     exists m', link_rrl lent_ts false m ne v = Some m' /\ rrl_rep m' (rrl_append (ne, v) l)) /\
  (forall p, p ∈ l.*1 -> exists m', unlink_rrl m p = Some m' /\ rrl_rep m' (rrl_remove p l)).
Proof.
  intros Hrep. split_and!.
  - intros ne v. by apply link_rrl_insert.
  - intros ne v. by apply link_rrl_append.
  - intros p. by apply unlink_rrl_remove.
Qed.

Lemma rrl_links_refine_witness :
  let m := {| nodes := {[ 1%positive := {| le_next := None; le_prev := None; le_val := 5%Z |} ]};
              rrset_l := Some 1%positive; rrset_l_tail := Some 1%positive |} in
  (exists m', link_rrl Some true m 2 3%Z = Some m' /\ rrl_rep m' [(2%positive, 3%Z); (1%positive, 5%Z)]) /\
  exists m', unlink_rrl m 1 = Some m' /\ rrl_rep m' [].
Proof.
  intros m.
  destruct (rrl_links_refine Some m [(1%positive, 5%Z)]) as (Hins & _ & Hrem).
  - split_and!; [apply NoDup_singleton|by split|done|done|done].
  - split.
    + destruct (Hins 2%positive 3%Z) as (m' & l' & Hm & Hl & Hr); [done|by repeat constructor|].
      exists m'. split; [exact Hm|]. vm_compute in Hl. injection Hl as <-. exact Hr.
    + destruct (Hrem 1%positive) as (m' & Hm & Hr); [by left|]. exists m'. split; [exact Hm|exact Hr].
Defined.

(** [insert_rrl] keeps the list sorted by age, oldest first, and loses nothing. *)
Theorem rrl_insert_sorted {A} (lent_ts : A -> option Z) (x : positive * A) (l : list (positive * A)) :
  ts_ok lent_ts (x :: l) -> StronglySorted (older lent_ts) l ->
  exists l', rrl_insert lent_ts x l = Some l' /\ l' ≡ₚ x :: l /\ StronglySorted (older lent_ts) l'.
Proof.
  intros Hok Hs. destruct (rrl_insert_spec lent_ts x l Hok) as (l' & ? & ? & Hs'). exists l'. auto.
Qed.

Lemma rrl_insert_sorted_witness :
  exists l', rrl_insert Some (3%positive, 2%Z) [(1%positive, 1%Z); (2%positive, 3%Z)] = Some l' /\
    StronglySorted (older Some) l'.
Proof.
  destruct (rrl_insert_sorted Some (3%positive, 2%Z) [(1%positive, 1%Z); (2%positive, 3%Z)]) as (l' & H & _ & Hs).
  - by repeat constructor.
  - repeat constructor; unfold older, lts; cbn; lia.
  - by exists l'.
Defined.

(** [sort_rrl] sorts: the result has the same entries, oldest first.  The array of
    [NTMPSORT] partial lists suffices for fewer than 2^32 entries, so that the
    assertion in the loop holds. *)
Theorem sort_rrl_correct {A} (lent_ts : A -> option Z) (l : list (positive * A)) :
  ts_ok lent_ts l -> (Z.of_nat (length l) < 2 ^ 32)%Z ->
  exists l', sort_rrl lent_ts l = Some l' /\ l' ≡ₚ l /\ StronglySorted (older lent_ts) l'.
Proof. apply sort_rrl_spec. Qed.

Lemma sort_rrl_correct_witness :
  exists l', sort_rrl Some [(1%positive, 7%Z); (2%positive, 3%Z); (3%positive, 5%Z)] = Some l' /\
    StronglySorted (older Some) l' /\ l' = [(2%positive, 3%Z); (3%positive, 5%Z); (1%positive, 7%Z)].
Proof.
  destruct (sort_rrl_correct Some [(1%positive, 7%Z); (2%positive, 3%Z); (3%positive, 5%Z)]) as (l' & H & _ & Hs).
  - by repeat constructor.
  - cbn. lia.
  - exists l'. split; [done|]. split; [done|]. vm_compute in H. by injection H as <-.
Defined.
