(* ===== verification/Cent.v ===== *)
(** Cache entries and the state of the cache: the data types of [pdnsd/src/cache.h]
    and the functions of [cache.c] that build, change, copy and free one entry.

    Pointers into the cache are addresses: [cents] maps the address of a
    [dns_cent_t] that belongs to the cache to its contents, and the nodes of the
    list of record sets have addresses of their own.  An entry that does not belong
    to the cache (an argument of [add_cache], a copy returned to a caller) is a
    value.  Functions are in a monad of the cache state with failure: failure is
    undefined behaviour of the C code (a dangling pointer, an index outside an
    array, the wrong member of a union) or a violated assertion.  The results of
    [malloc] are an input: a list of outcomes, success after its end. *)
From S2P Require Import Prelude Names RrTypes HashTab RrList.

(** ** Data *)

Definition CF_NEGATIVE : Z := 1.
Definition CF_LOCAL : Z := 2.
Definition CF_AUTH : Z := 4.
Definition CF_NOCACHE : Z := 8.
Definition CF_ADDITIONAL : Z := 16.
Definition CF_NOPURGE : Z := 32.
Definition CF_ROOTSERV : Z := 64.

Definition DF_NEGATIVE : Z := 1.
Definition DF_LOCAL : Z := 2.
Definition DF_AUTH : Z := 4.
Definition DF_NOCACHE : Z := 8.
Definition DF_WILD : Z := 16.

Definition cundef : Z := 0xff.

(** [rr_set_t]; a record ([rr_bucket_t]) is its data. *)
Record rr_set := {
  rs_lent : option positive;
  rs_ttl : Z;
  rs_ts : Z;
  rs_flags : Z;
  rs_rrs : list (list Z);
}.

(** The union of [dns_cent_t]; which member is valid is told by [DF_NEGATIVE]. *)
Inductive cent_body :=
  | Neg (lent : option positive) (ttl ts : Z)
  | Rr (rrmu : list (option rr_set)) (rrext : option (list (option rr_set))).

Record dns_cent := {
  qname : list Z;
  cs : Z;
  num_rrs : Z;
  flags : Z;
  body : cent_body;
  c_ns : Z;
  c_soa : Z;
}.

(** The payload of an [rr_lent_t]: the entry and the index of the set in it, none
    for an entry that is negative as a whole ([rrset] is NULL, [idx] is -1). *)
Record lent_val := { lv_cent : positive; lv_idx : option nat }.

Record cache := {
  cents : gmap positive dns_cent;
  next_cent : positive;
  buckets : hash_table positive;
  rrl : list (positive * lent_val);
  next_lent : positive;
  cache_size : Z;
  ent_num : Z;
  insert_sort : bool;
  mem : list bool;
}.

(** *** Updating one field *)

Definition set_cs (v : Z) (c : dns_cent) : dns_cent :=
  {| qname := qname c; cs := v; num_rrs := num_rrs c; flags := flags c; body := body c;
     c_ns := c_ns c; c_soa := c_soa c |}.
Definition set_num_rrs (v : Z) (c : dns_cent) : dns_cent :=
  {| qname := qname c; cs := cs c; num_rrs := v; flags := flags c; body := body c;
     c_ns := c_ns c; c_soa := c_soa c |}.
Definition set_flags (v : Z) (c : dns_cent) : dns_cent :=
  {| qname := qname c; cs := cs c; num_rrs := num_rrs c; flags := v; body := body c;
     c_ns := c_ns c; c_soa := c_soa c |}.
Definition set_body (v : cent_body) (c : dns_cent) : dns_cent :=
  {| qname := qname c; cs := cs c; num_rrs := num_rrs c; flags := flags c; body := v;
     c_ns := c_ns c; c_soa := c_soa c |}.
Definition set_c_ns (v : Z) (c : dns_cent) : dns_cent :=
  {| qname := qname c; cs := cs c; num_rrs := num_rrs c; flags := flags c; body := body c;
     c_ns := v; c_soa := c_soa c |}.
Definition set_c_soa (v : Z) (c : dns_cent) : dns_cent :=
  {| qname := qname c; cs := cs c; num_rrs := num_rrs c; flags := flags c; body := body c;
     c_ns := c_ns c; c_soa := v |}.

Definition rs_set_lent (v : option positive) (r : rr_set) : rr_set :=
  {| rs_lent := v; rs_ttl := rs_ttl r; rs_ts := rs_ts r; rs_flags := rs_flags r; rs_rrs := rs_rrs r |}.
Definition rs_set_ttl (v : Z) (r : rr_set) : rr_set :=
  {| rs_lent := rs_lent r; rs_ttl := v; rs_ts := rs_ts r; rs_flags := rs_flags r; rs_rrs := rs_rrs r |}.
Definition rs_set_ts (v : Z) (r : rr_set) : rr_set :=
  {| rs_lent := rs_lent r; rs_ttl := rs_ttl r; rs_ts := v; rs_flags := rs_flags r; rs_rrs := rs_rrs r |}.
Definition rs_set_flags (v : Z) (r : rr_set) : rr_set :=
  {| rs_lent := rs_lent r; rs_ttl := rs_ttl r; rs_ts := rs_ts r; rs_flags := v; rs_rrs := rs_rrs r |}.
Definition rs_set_rrs (v : list (list Z)) (r : rr_set) : rr_set :=
  {| rs_lent := rs_lent r; rs_ttl := rs_ttl r; rs_ts := rs_ts r; rs_flags := rs_flags r; rs_rrs := v |}.

Definition with_cents v s := {| cents := v; next_cent := next_cent s; buckets := buckets s; rrl := rrl s;
  next_lent := next_lent s; cache_size := cache_size s; ent_num := ent_num s; insert_sort := insert_sort s; mem := mem s |}.
Definition with_next_cent v s := {| cents := cents s; next_cent := v; buckets := buckets s; rrl := rrl s;
  next_lent := next_lent s; cache_size := cache_size s; ent_num := ent_num s; insert_sort := insert_sort s; mem := mem s |}.
Definition with_buckets v s := {| cents := cents s; next_cent := next_cent s; buckets := v; rrl := rrl s;
  next_lent := next_lent s; cache_size := cache_size s; ent_num := ent_num s; insert_sort := insert_sort s; mem := mem s |}.
Definition with_rrl v s := {| cents := cents s; next_cent := next_cent s; buckets := buckets s; rrl := v;
  next_lent := next_lent s; cache_size := cache_size s; ent_num := ent_num s; insert_sort := insert_sort s; mem := mem s |}.
Definition with_next_lent v s := {| cents := cents s; next_cent := next_cent s; buckets := buckets s; rrl := rrl s;
  next_lent := v; cache_size := cache_size s; ent_num := ent_num s; insert_sort := insert_sort s; mem := mem s |}.
Definition with_cache_size v s := {| cents := cents s; next_cent := next_cent s; buckets := buckets s; rrl := rrl s;
  next_lent := next_lent s; cache_size := v; ent_num := ent_num s; insert_sort := insert_sort s; mem := mem s |}.
Definition with_ent_num v s := {| cents := cents s; next_cent := next_cent s; buckets := buckets s; rrl := rrl s;
  next_lent := next_lent s; cache_size := cache_size s; ent_num := v; insert_sort := insert_sort s; mem := mem s |}.
Definition with_insert_sort v s := {| cents := cents s; next_cent := next_cent s; buckets := buckets s; rrl := rrl s;
  next_lent := next_lent s; cache_size := cache_size s; ent_num := ent_num s; insert_sort := v; mem := mem s |}.
Definition with_mem v s := {| cents := cents s; next_cent := next_cent s; buckets := buckets s; rrl := rrl s;
  next_lent := next_lent s; cache_size := cache_size s; ent_num := ent_num s; insert_sort := insert_sort s; mem := v |}.

(** *** The monad *)

Definition M (A : Type) : Type := cache -> option (A * cache).

#[export] Instance M_ret : MRet M := fun A a s => Some (a, s).
#[export] Instance M_bind : MBind M := fun A B k m s =>
  match m s with
  | Some (a, s') => k a s'
  | None => None
  end.

Definition liftM {A} (o : option A) : M A := fun s => a ← o; Some (a, s).
Definition getM : M cache := fun s => Some (s, s).
Definition modM (f : cache -> cache) : M unit := fun s => Some (tt, f s).

(** One allocation. *)
Definition malloc : M bool := fun s =>
  match mem s with
  | [] => Some (true, s)
  | b :: mem' => Some (b, with_mem mem' s)
  end.

(** A loop over a list with an accumulator. *)
Fixpoint foldM {A B} (f : B -> A -> M B) (l : list A) (b : B) : M B :=
  match l with
  | [] => mret b
  | x :: l' => b' ← f b x; foldM f l' b'
  end.

(** ** Access to the sets of an entry

    The macros of cache.h.  [RRARR_INDEX] reads the arrays without looking at the
    flags; the result [Some None] is a NULL pointer. *)

Definition rrarr_index (c : dns_cent) (i : nat) : option (option rr_set) :=
  match body c with
  | Neg _ _ _ => None
  | Rr rrmu rrext =>
      if (i <? NRRMU) then rrmu !! i
      else e ← rrext; e !! (i - NRRMU)
  end.

Definition rrarr_index_testext (c : dns_cent) (i : nat) : option (option rr_set) :=
  if tst (flags c) DF_NEGATIVE then Some None
  else match body c with
       | Neg _ _ _ => None
       | Rr rrmu rrext =>
           if (i <? NRRMU) then rrmu !! i
           else match rrext with Some e => e !! (i - NRRMU) | None => Some None end
       end.

Definition rrarr_len (c : dns_cent) : option nat :=
  if tst (flags c) DF_NEGATIVE then Some 0
  else match body c with
       | Neg _ _ _ => None
       | Rr _ rrext => Some (match rrext with Some _ => NRRTOT | None => NRRMU end)
       end.

(** [*RRARR_INDEX_PA(cent,i) = v]. *)
Definition rrarr_set (c : dns_cent) (i : nat) (v : option rr_set) : option dns_cent :=
  match body c with
  | Neg _ _ _ => None
  | Rr rrmu rrext =>
      if (i <? NRRMU) then
        if decide (i < length rrmu) then Some (set_body (Rr (<[i := v]> rrmu) rrext) c) else None
      else
        e ← rrext;
        if decide (i - NRRMU < length e) then Some (set_body (Rr rrmu (Some (<[i - NRRMU := v]> e))) c) else None
  end.

(** [GET_RRSMU], with which [getrrset_NS] and the like are defined. *)
Definition get_rrsmu (c : dns_cent) (i : nat) : option (option rr_set) :=
  if negb (tst (flags c) DF_NEGATIVE) then
    match body c with Neg _ _ _ => None | Rr rrmu _ => rrmu !! i end
  else Some None.

Definition RRMUINDEX_A : nat := 0.
Definition RRMUINDEX_NS : nat := 1.
Definition RRMUINDEX_SOA : nat := 3.

Definition getrrset (c : dns_cent) (type : Z) : option (option rr_set) :=
  if negb (tst (flags c) DF_NEGATIVE) then
    let tpi := (type - T_MIN)%Z in
    if (0 <=? tpi)%Z && (tpi <? Z.of_nat T_NUM)%Z then
      idx ← rrlkuptab !! Z.to_nat tpi;
      if (idx <? NRRMU) then
        match body c with Neg _ _ _ => None | Rr rrmu _ => rrmu !! idx end
      else if (idx - NRRMU <? NRREXT) then
        match body c with
        | Neg _ _ _ => None
        | Rr _ (Some e) => e !! (idx - NRRMU)
        | Rr _ None => Some None
        end
      else Some None
    else Some None
  else Some None.

(** [getrrset_eff]: no test of the flags or of the range. *)
Definition getrrset_eff (c : dns_cent) (type : Z) : option (option rr_set) :=
  idx ← (if (0 <=? type - T_MIN)%Z then rrlkuptab !! Z.to_nat (type - T_MIN) else None);
  if (idx <? NRRMU) then
    match body c with Neg _ _ _ => None | Rr rrmu _ => rrmu !! idx end
  else if (idx - NRRMU <? NRREXT) then
    match body c with
    | Neg _ _ _ => None
    | Rr _ (Some e) => e !! (idx - NRRMU)
    | Rr _ None => Some None
    end
  else Some None.

Definition have_rr (c : dns_cent) (type : Z) : option bool :=
  if tst (flags c) DF_NEGATIVE then Some false
  else r ← getrrset_eff c type;
       Some (match r with Some rs => negb (match rs_rrs rs with [] => true | _ => false end) | None => false end).

(** ** Operations on one entry *)

(** [remove_rrl]: the node must be in the list; see RrList for the links. *)
Definition remove_rrl (le : positive) : M unit :=
  s ← getM;
  if decide (le ∈ (rrl s).*1) then modM (with_rrl (rrl_remove le (rrl s))) else liftM None.

Definition remove_lent (lent : option positive) : M unit :=
  match lent with Some le => remove_rrl le | None => mret tt end.

Definition no_rrmu : list (option rr_set) := replicate NRRMU None.
Definition no_rrext : list (option rr_set) := replicate NRREXT None.

Section CentOps.
Context {P : Platform}.

Definition rrext_size : Z := (sizeof_ptr * Z.of_nat NRREXT)%Z.

Definition init_cent (name : list Z) (ttl ts fl : Z) : M (option dns_cent) :=
  namesz ← liftM (rhnlen name);
  ok ← malloc;
  if (ok : bool) then
    q ← liftM (rd_bytes name 0 namesz);
    mret (Some {|
      qname := q;
      cs := sizeof_dns_cent_t + Z.of_nat namesz;
      num_rrs := 0;
      flags := u16 fl;
      body := if tst fl DF_NEGATIVE then Neg None ttl ts else Rr no_rrmu None;
      c_ns := cundef;
      c_soa := cundef |})
  else mret None.

(** [create_rr]: the record, or NULL when there is no memory. *)
Definition create_rr (data : list Z) : M (option (list Z)) :=
  ok ← malloc; mret (if (ok : bool) then Some data else None).

(** The body of [add_cent_rrset_by_index] after the negative case: the address of
    the slot, with the array of less used types allocated on demand. *)
Definition rrset_slot (c : dns_cent) (idx : nat) : M (option dns_cent) :=
  if (idx <? NRRMU) then mret (Some c)
  else if (idx - NRRMU <? NRREXT) then
    match body c with
    | Neg _ _ _ => liftM None
    | Rr rrmu (Some _) => mret (Some c)
    | Rr rrmu None =>
        ok ← malloc;
        if (ok : bool) then mret (Some (set_cs (cs c + rrext_size) (set_body (Rr rrmu (Some no_rrext)) c)))
        else mret None
    end
  else liftM None.

Definition add_cent_rrset_by_index (c : dns_cent) (idx : nat) (ttl ts fl : Z) : M (bool * dns_cent) :=
  c ← (if tst (flags c) DF_NEGATIVE then
         match body c with
         | Neg lent _ _ =>
             _ ← remove_lent lent;
             mret (set_body (Rr no_rrmu None) (set_flags (Z.ldiff (flags c) DF_NEGATIVE) c))
         | Rr _ _ => liftM None
         end
       else mret c);
  r ← rrset_slot c idx;
  match r with
  | None => mret (false, c)
  | Some c =>
      ok ← malloc;
      if (ok : bool) then
        c ← liftM (rrarr_set c idx (Some {| rs_lent := None; rs_ttl := ttl; rs_ts := ts;
                                            rs_flags := u16 fl; rs_rrs := [] |}));
        mret (true, set_num_rrs (u16 (num_rrs c + 1)) (set_cs (cs c + sizeof_rr_set_t) c))
      else
        c ← liftM (rrarr_set c idx None);
        mret (false, c)
  end.

Definition add_cent_rrset_by_type (c : dns_cent) (type ttl ts fl : Z) : M (bool * dns_cent) :=
  let tpi := (type - T_MIN)%Z in
  if (0 <=? tpi)%Z && (tpi <? Z.of_nat T_NUM)%Z then
    idx ← liftM (rrlkuptab !! Z.to_nat tpi);
    add_cent_rrset_by_index c idx ttl ts fl
  else liftM None.

(** [add_cent_rr_int]: [rtail] is the position of the record after which the new
    one is linked, none to put it first. *)
Definition add_cent_rr_int (c : dns_cent) (idx : nat) (ttl ts fl : Z) (data : list Z)
    (rtail : option nat) : M (bool * dns_cent * option nat) :=
  rr ← create_rr data;
  match rr with
  | None => mret (false, c, rtail)
  | Some rr =>
      '(ok, c) ←
        match rtail with
        | Some _ => mret (true, c)
        | None =>
            r ← liftM (rrarr_index_testext c idx);
            match r with
            | Some _ => mret (true, c)
            | None => add_cent_rrset_by_index c idx ttl ts fl
            end
        end;
      if (ok : bool) then
        r ← liftM (rrarr_index c idx);
        rs ← liftM r;
        '(rrs', pos) ← liftM
          match rtail with
          | None => Some (rr :: rs_rrs rs, 0)
          | Some k =>
              if decide (k < length (rs_rrs rs))
              then Some (take (S k) (rs_rrs rs) ++ rr :: drop (S k) (rs_rrs rs), S k) else None
          end;
        c ← liftM (rrarr_set c idx (Some (rs_set_rrs rrs' rs)));
        mret (true, set_cs (cs c + (sizeof_rr_bucket_t + Z.of_nat (length rr))) c, Some pos)
      else mret (false, c, rtail)
  end.

(** The search of [add_cent_rr] for the same record: [None] when it is there,
    otherwise the position of the last record. *)
Fixpoint find_rr (data : list Z) (rrs : list (list Z)) (k : nat) (rtail : option nat) : option (option nat) :=
  match rrs with
  | [] => Some rtail
  | rrb :: rrs' => if decide (rrb = data) then None else find_rr data rrs' (S k) (Some k)
  end.

Definition add_cent_rr (c : dns_cent) (type ttl ts fl : Z) (data : list Z) : M (bool * dns_cent) :=
  if tst (flags c) DF_LOCAL && negb (tst fl CF_LOCAL) then mret (true, c)
  else
    let tpi := (type - T_MIN)%Z in
    if (0 <=? tpi)%Z && (tpi <? Z.of_nat T_NUM)%Z then
      idx ← liftM (rrlkuptab !! Z.to_nat tpi);
      if (idx <? NRRTOT) then
        r ← liftM (rrarr_index_testext c idx);
        '(c, found) ←
          match r with
          | None => mret (c, Some None)
          | Some rs =>
              let rs := if (ttl <? rs_ttl rs)%Z then rs_set_ttl ttl rs else rs in
              c ← liftM (rrarr_set c idx (Some rs));
              mret (c, find_rr data (rs_rrs rs) 0 None)
          end;
        match found with
        | None => mret (true, c)
        | Some rtail => '(ok, c, _) ← add_cent_rr_int c idx ttl ts fl data rtail; mret (ok, c)
        end
      else liftM None
    else liftM None.

(** The size of a set; [del_rrset] returns it. *)
Definition rrs_size (rrs : list (list Z)) : Z :=
  fold_right (fun rr n => sizeof_rr_bucket_t + Z.of_nat (length rr) + n)%Z 0%Z rrs.
Definition rrset_size (rs : rr_set) : Z := (sizeof_rr_set_t + rrs_size (rs_rrs rs))%Z.

Definition del_rrset (rs : rr_set) : M Z :=
  _ ← remove_lent (rs_lent rs);
  mret (rrset_size rs).

Definition del_cent_rrset_by_index (c : dns_cent) (i : nat) : M (Z * dns_cent) :=
  r ← liftM (rrarr_index_testext c i);
  match r with
  | None => mret (0%Z, c)
  | Some rs =>
      rv ← del_rrset rs;
      c ← liftM (rrarr_set c i None);
      mret (rv, set_flags (Z.ldiff (flags c) DF_AUTH)
                  (set_cs (cs c - rv) (set_num_rrs (u16 (num_rrs c - 1)) c)))
  end.

(** The loops over one of the arrays: free the sets, adding up their sizes. *)
Definition del_rrsets (a : list (option rr_set)) : M Z :=
  foldM (fun n r => match r with Some rs => k ← del_rrset rs; mret (n + k)%Z | None => mret n end) a 0%Z.

Definition free_cent (c : dns_cent) : M unit :=
  if tst (flags c) DF_NEGATIVE then
    match body c with
    | Neg lent _ _ => remove_lent lent
    | Rr _ _ => liftM None
    end
  else
    match body c with
    | Neg _ _ _ => liftM None
    | Rr rrmu rrext =>
        _ ← del_rrsets rrmu;
        match rrext with
        | Some e => _ ← del_rrsets e; mret tt
        | None => mret tt
        end
    end.

Definition negate_cent (c : dns_cent) (ttl ts : Z) : M dns_cent :=
  if negb (tst (flags c) DF_NEGATIVE) then
    match body c with
    | Neg _ _ _ => liftM None
    | Rr rrmu rrext =>
        n ← del_rrsets rrmu;
        let c := set_cs (cs c - n) c in
        c ← match rrext with
            | Some e => n ← del_rrsets e; mret (set_cs (cs c - n - rrext_size) c)
            | None => mret c
            end;
        mret (set_body (Neg None ttl ts) (set_flags (Z.lor (flags c) DF_NEGATIVE) (set_num_rrs 0 c)))
    end
  else
    match body c with
    | Neg lent _ _ => mret (set_body (Neg lent ttl ts) c)
    | Rr _ _ => liftM None
    end.

(** Copies.  The allocations that succeeded are released again when one fails; a
    copy is not in the list of record sets. *)
Fixpoint copy_rrs (rrs : list (list Z)) : M (option (list (list Z))) :=
  match rrs with
  | [] => mret (Some [])
  | rr :: rrs' =>
      ok ← malloc;
      if (ok : bool) then r ← copy_rrs rrs'; mret ((fun l => rr :: l) <$> r) else mret None
  end.

Definition copy_rrset (rs : rr_set) : M (option rr_set) :=
  ok ← malloc;
  if (ok : bool) then
    r ← copy_rrs (rs_rrs rs);
    mret ((fun l => rs_set_rrs l (rs_set_lent None rs)) <$> r)
  else mret None.

(** The loop of [copy_cent] over an array of sets. *)
Fixpoint copy_rrsets (a : list (option rr_set)) : M (option (list (option rr_set))) :=
  match a with
  | [] => mret (Some [])
  | None :: a' => r ← copy_rrsets a'; mret ((fun l => None :: l) <$> r)
  | Some rs :: a' =>
      c ← copy_rrset rs;
      match c with
      | None => mret None
      | Some rsc => r ← copy_rrsets a'; mret ((fun l => Some rsc :: l) <$> r)
      end
  end.

Definition copy_cent (c : dns_cent) : M (option dns_cent) :=
  ok ← malloc;
  if (ok : bool) then
    namesz ← liftM (rhnlen (qname c));
    ok ← malloc;
    if (ok : bool) then
      q ← liftM (rd_bytes (qname c) 0 namesz);
      let copy b := {| qname := q; cs := cs c; num_rrs := num_rrs c; flags := flags c; body := b;
                       c_ns := c_ns c; c_soa := c_soa c |} in
      if tst (flags c) DF_NEGATIVE then
        match body c with
        | Neg _ ttl ts => mret (Some (copy (Neg None ttl ts)))
        | Rr _ _ => liftM None
        end
      else
        match body c with
        | Neg _ _ _ => liftM None
        | Rr rrmu None =>
            r ← copy_rrsets rrmu;
            mret ((fun l => copy (Rr l None)) <$> r)
        | Rr rrmu (Some e) =>
            ok ← malloc;
            if (ok : bool) then
              r ← copy_rrsets rrmu;
              match r with
              | None => mret None
              | Some l => r' ← copy_rrsets e; mret ((fun l' => copy (Rr l (Some l'))) <$> r')
              end
            else mret None
        end
    else mret None
  else mret None.
End CentOps.
