(* ===== verification/CentSpec.v ===== *)
(** Correctness of the operations on one cache entry (file Cent): the access macros,
    the accounting of sizes and numbers of sets, the addition and removal of sets
    and records, and copies. *)
From S2P Require Import Prelude Names RrTypes HashTab RrList Cent.

(** ** Well-formed entries *)

(** The sets of an entry as one array. *)
Definition sets (c : dns_cent) : list (option rr_set) :=
  match body c with
  | Neg _ _ _ => []
  | Rr rrmu rrext => rrmu ++ default [] rrext
  end.

Definition is_neg (c : dns_cent) : bool := match body c with Neg _ _ _ => true | Rr _ _ => false end.

(** The flag tells which member of the union is valid; the arrays have their sizes. *)
Definition shape (c : dns_cent) : Prop :=
  tst (flags c) DF_NEGATIVE = is_neg c /\
  match body c with
  | Neg _ _ _ => True
  | Rr rrmu rrext => length rrmu = NRRMU /\ forall e, rrext = Some e -> length e = NRREXT
  end.

(** The number of record sets. *)
Definition one (r : option rr_set) : Z := if r then 1%Z else 0%Z.
Definition count_sets (a : list (option rr_set)) : Z := fold_right (fun r n => one r + n)%Z 0%Z a.

Section CentSpec.
Context {P : Platform}.

Definition sets_size (a : list (option rr_set)) : Z :=
  fold_right (fun r n => from_option rrset_size 0 r + n)%Z 0%Z a.

Definition ext_size (c : dns_cent) : Z :=
  match body c with Rr _ (Some _) => rrext_size | _ => 0%Z end.

(** The memory an entry occupies, which [cs] is to be. *)
Definition cent_size (c : dns_cent) : Z :=
  (sizeof_dns_cent_t + Z.of_nat (length (qname c)) + ext_size c + sets_size (sets c))%Z.

Definition cent_ok (c : dns_cent) : Prop :=
  shape c /\ (exists N, wf_name N /\ qname c = enc_name N) /\
  cs c = cent_size c /\ num_rrs c = count_sets (sets c).

Lemma count_sets_cons r a : count_sets (r :: a) = (one r + count_sets a)%Z.
Proof. done. Qed.

Lemma count_sets_app a b : count_sets (a ++ b) = (count_sets a + count_sets b)%Z.
Proof. induction a as [|r a IH]; [done|]. cbn [app]. rewrite !count_sets_cons, IH. lia. Qed.

Lemma sets_size_cons r a : sets_size (r :: a) = (from_option rrset_size 0 r + sets_size a)%Z.
Proof. done. Qed.

Lemma sets_size_app a b : sets_size (a ++ b) = (sets_size a + sets_size b)%Z.
Proof. induction a as [|r a IH]; [done|]. cbn [app]. rewrite !sets_size_cons, IH. lia. Qed.

Lemma sets_size_nones n : sets_size (replicate n None) = 0%Z.
Proof. induction n as [|n IH]; [done|]. cbn [replicate]. by rewrite sets_size_cons, IH. Qed.

Lemma count_sets_le a : (0 <= count_sets a <= Z.of_nat (length a))%Z.
Proof.
  induction a as [|r a IH]; [done|]. rewrite count_sets_cons. cbn [length]. destruct r; cbn [one]; lia.
Qed.

Lemma count_sets_nones n : count_sets (replicate n None) = 0%Z.
Proof. induction n as [|n IH]; [done|]. cbn [replicate]. by rewrite count_sets_cons, IH. Qed.

(** Overwriting a slot changes the count and the size by the difference. *)
Lemma count_sets_insert a i r v : a !! i = Some r -> count_sets (<[i:=v]> a) = (count_sets a - one r + one v)%Z.
Proof.
  intros H. rewrite (insert_take_drop a i v) by (by eapply lookup_lt_Some).
  rewrite <- (take_drop_middle a i r H) at 3. rewrite !count_sets_app, !count_sets_cons. lia.
Qed.

Lemma sets_size_insert a i r v :
  a !! i = Some r ->
  sets_size (<[i:=v]> a) = (sets_size a - from_option rrset_size 0 r + from_option rrset_size 0 v)%Z.
Proof.
  intros H. rewrite (insert_take_drop a i v) by (by eapply lookup_lt_Some).
  rewrite <- (take_drop_middle a i r H) at 3. rewrite !sets_size_app, !sets_size_cons. lia.
Qed.

Lemma shape_rr c rrmu rrext : shape c -> body c = Rr rrmu rrext ->
  tst (flags c) DF_NEGATIVE = false /\ length rrmu = NRRMU /\ forall e, rrext = Some e -> length e = NRREXT.
Proof. intros [Hn Hs] Hb. unfold is_neg in Hn. rewrite Hb in *. tauto. Qed.

Lemma length_sets c : shape c -> length (sets c) <= NRRTOT.
Proof.
  intros [_ Hs]. unfold sets. destruct (body c) as [|rrmu rrext]; [cbn; lia|]. destruct Hs as [Hm He].
  rewrite length_app, Hm. unfold NRRTOT, NRRMU, NRREXT in *.
  destruct rrext as [e|]; simpl; [rewrite (He e) by done|]; lia.
Qed.

(** *** The access macros on well-formed entries *)

Lemma rrarr_len_sets c : shape c -> rrarr_len c = Some (length (sets c)).
Proof.
  intros [Hn Hs]. unfold rrarr_len, sets, is_neg in *. rewrite Hn. destruct (body c) as [|rrmu rrext]; [done|].
  destruct Hs as [Hm He]. rewrite length_app, Hm. destruct rrext as [e|]; simpl; [by rewrite (He e) by done|done].
Qed.

Lemma rrarr_index_sets c i : shape c -> is_neg c = false -> rrarr_index c i = sets c !! i.
Proof.
  intros [_ Hs] Hn. unfold rrarr_index, sets, is_neg in *. destruct (body c) as [|rrmu rrext]; [done|].
  destruct Hs as [Hm He]. destruct (i <? NRRMU) eqn:E; boolp.
  - by rewrite lookup_app_l by lia.
  - rewrite lookup_app_r, Hm by lia. by destruct rrext.
Qed.

Lemma rrarr_testext_sets c i :
  shape c -> i < NRRTOT -> rrarr_index_testext c i = Some (default None (sets c !! i)).
Proof.
  intros [Hn Hs] Hi. unfold rrarr_index_testext, sets, is_neg in *. rewrite Hn.
  destruct (body c) as [|rrmu rrext]; [done|]. destruct Hs as [Hm He]. destruct (i <? NRRMU) eqn:E; boolp.
  - rewrite lookup_app_l by lia. by destruct (lookup_lt_is_Some_2 rrmu i) as [r ->]; [lia|].
  - rewrite lookup_app_r, Hm by lia. destruct rrext as [e|]; [|done].
    specialize (He e eq_refl). unfold NRRTOT, NRRMU, NRREXT in *.
    simpl. by destruct (lookup_lt_is_Some_2 e (i - 8)) as [r ->]; [lia|].
Qed.

(** Storing into a slot. *)
Lemma rrarr_set_sets c i v :
  shape c -> i < length (sets c) ->
  exists b, rrarr_set c i v = Some (set_body b c) /\ shape (set_body b c) /\
    sets (set_body b c) = <[i:=v]> (sets c) /\ is_neg (set_body b c) = false /\
    ext_size (set_body b c) = ext_size c.
Proof.
  intros [Hn Hs] Hi. unfold rrarr_set, sets, is_neg, shape, ext_size in *. cbn [set_body body flags] in *.
  destruct (body c) as [|rrmu rrext]; [cbn in Hi; lia|]. destruct Hs as [Hm He]. rewrite length_app in Hi.
  destruct (i <? NRRMU) eqn:E; boolp.
  - rewrite decide_True by lia. eexists. split; [done|]. cbn. split_and!; [done|by rewrite length_insert|done| |done|done].
    by rewrite insert_app_l by lia.
  - destruct rrext as [e|]; cbn in Hi |- *; [|lia]. rewrite decide_True by lia. eexists. split; [done|]. cbn.
    split_and!; [done|done| | |done|done].
    + intros e' [= <-]. rewrite length_insert. by apply He.
    + by rewrite insert_app_r_alt, Hm by lia.
Qed.
End CentSpec.

(** ** Running computations *)

(** [m] started in [s] succeeds and its result and final state satisfy [Q]. *)
Definition runs {A} (m : M A) (s : cache) (Q : A -> cache -> Prop) : Prop :=
  exists a s', m s = Some (a, s') /\ Q a s'.

Lemma runs_ret {A} (a : A) s (Q : A -> cache -> Prop) : Q a s -> runs (mret a) s Q.
Proof. intros H. by exists a, s. Qed.

Lemma runs_bind {A B} (m : M A) (k : A -> M B) s (Q : B -> cache -> Prop) :
  runs m s (fun a s' => runs (k a) s' Q) -> runs (mbind k m) s Q.
Proof.
  intros (a & s' & Hm & b & s'' & Hk & HQ). exists b, s''. split; [|done].
  unfold mbind, M_bind. by rewrite Hm.
Qed.

Lemma runs_weaken {A} (m : M A) s (Q Q' : A -> cache -> Prop) :
  runs m s Q -> (forall a s', Q a s' -> Q' a s') -> runs m s Q'.
Proof. intros (a & s' & Hm & HQ) Hi. exists a, s'. auto. Qed.

(** A computation has one result. *)
Lemma runs_both {A} (m : M A) s (Q Q' : A -> cache -> Prop) : runs m s Q -> runs m s Q' -> runs m s (fun a s' => Q a s' /\ Q' a s').
Proof. intros (a & s' & E & H) (a2 & s2 & E2 & H2). rewrite E in E2. injection E2 as <- <-. by exists a, s'. Qed.

Lemma runs_lift {A} (o : option A) a s (Q : A -> cache -> Prop) : o = Some a -> Q a s -> runs (liftM o) s Q.
Proof. intros -> H. by exists a, s. Qed.

Lemma runs_get s (Q : cache -> cache -> Prop) : Q s s -> runs getM s Q.
Proof. intros H. by exists s, s. Qed.

Lemma runs_mod f s (Q : unit -> cache -> Prop) : Q tt (f s) -> runs (modM f) s Q.
Proof. intros H. by exists tt, (f s). Qed.

(** Run the first computation of a sequence with a lemma about it. *)
Ltac run_with lem := apply runs_bind; eapply runs_weaken; [eapply lem|cbn beta].
Ltac run_lift := apply runs_bind; eapply runs_lift; [|].

(** Only the memory has changed. *)
Definition mem_only (s s' : cache) : Prop := exists m, s' = with_mem m s.

Lemma mem_only_refl s : mem_only s s.
Proof. exists (mem s). by destruct s. Qed.

Lemma mem_only_trans s1 s2 s3 : mem_only s1 s2 -> mem_only s2 s3 -> mem_only s1 s3.
Proof. intros [m ->] [m' ->]. by exists m'. Qed.

#[export] Hint Resolve mem_only_refl mem_only_trans : pdnsd.

Lemma runs_malloc s : runs malloc s (fun _ s' => mem_only s s').
Proof.
  unfold runs, malloc. destruct (mem s) as [|b m]; [|by exists b, (with_mem m s); split; [|exists m]].
  exists true, s. auto with pdnsd.
Qed.

(** With enough memory. *)
Definition plenty (s : cache) : Prop := Forall (fun b => b = true) (mem s).

Lemma runs_malloc_plenty s : plenty s -> runs malloc s (fun b s' => b = true /\ mem_only s s' /\ plenty s').
Proof.
  unfold runs, malloc, plenty. intros H. destruct (mem s) as [|b m] eqn:E.
  - exists true, s. rewrite E. auto with pdnsd.
  - apply Forall_cons in H as [-> H]. exists true, (with_mem m s). split; [done|]. split; [done|]. split; [by exists m|done].
Qed.

Lemma with_rrl_id s : with_rrl (rrl s) s = s.
Proof. by destruct s. Qed.

(** Memory and the list of record sets have changed. *)
Definition rrl_only (s s' : cache) (r : list (positive * lent_val)) : Prop :=
  exists m, s' = with_mem m (with_rrl r s).

Lemma mem_rrl_only s s' : mem_only s s' -> rrl_only s s' (rrl s).
Proof. intros [m ->]. exists m. by rewrite with_rrl_id. Qed.

Lemma rrl_only_mem s s' s'' r : rrl_only s s' r -> mem_only s' s'' -> rrl_only s s'' r.
Proof. intros [m ->] [m' ->]. by exists m'. Qed.

Lemma rrl_only_rrl s s' r : rrl_only s s' r -> rrl s' = r.
Proof. by intros [m ->]. Qed.

#[export] Hint Resolve mem_rrl_only rrl_only_mem : pdnsd.

(** ** Specifications of the operations on one entry *)

(** The set in slot [i], and the list node of a set or of a negative entry. *)
Definition slot (c : dns_cent) (i : nat) : option rr_set := default None (sets c !! i).
Definition lent_of (c : dns_cent) (idx : option nat) : option positive :=
  match idx with
  | Some i => rs ← slot c i; rs_lent rs
  | None => match body c with Neg l _ _ => l | Rr _ _ => None end
  end.

Definition drop_lent (l : option positive) (r : list (positive * lent_val)) : list (positive * lent_val) :=
  match l with Some p => rrl_remove p r | None => r end.
Definition lent_in (l : option positive) (r : list (positive * lent_val)) : Prop :=
  match l with Some p => p ∈ r.*1 | None => True end.

Lemma runs_remove_lent l s :
  lent_in l (rrl s) -> runs (remove_lent l) s (fun _ s' => s' = with_rrl (drop_lent l (rrl s)) s).
Proof.
  intros Hl. destruct l as [p|]; cbn in *.
  - exists tt, (with_rrl (rrl_remove p (rrl s)) s). split; [|done].
    unfold remove_rrl, mbind, M_bind, getM. by rewrite decide_True.
  - apply runs_ret. by rewrite with_rrl_id.
Qed.

(** Tests of other bits than the ones an operation changes. *)
Lemma tst_ldiff f m b : Z.land m b = 0%Z -> tst (Z.ldiff f b) m = tst f m.
Proof.
  intros H. unfold tst. do 2 f_equal. apply Z.bits_inj'. intros n Hn.
  rewrite !Z.land_spec, Z.ldiff_spec. assert (E : Z.testbit (Z.land m b) n = false) by (by rewrite H, Z.bits_0).
  rewrite Z.land_spec in E. destruct (Z.testbit f n), (Z.testbit m n), (Z.testbit b n); done.
Qed.

Lemma slot_lookup c i rs : slot c i = Some rs -> sets c !! i = Some (Some rs).
Proof. unfold slot. destruct (sets c !! i) as [[r|]|]; cbn; by intros [= ->]. Qed.

Lemma slot_none_insert c i : slot c i = None -> <[i := None]> (sets c) = sets c.
Proof.
  unfold slot. destruct (sets c !! i) as [[r|]|] eqn:E; cbn; [done|intros _; by apply list_insert_id|].
  intros _. apply list_insert_ge. by apply lookup_ge_None.
Qed.

Lemma slot_lt c i rs : shape c -> slot c i = Some rs -> i < NRRTOT /\ is_neg c = false.
Proof.
  intros Hs Hi. apply slot_lookup in Hi. pose proof (lookup_lt_Some _ _ _ Hi). pose proof (length_sets c Hs).
  split; [lia|]. unfold sets, is_neg in *. by destruct (body c).
Qed.

Lemma u16_count c n : shape c -> num_rrs c = count_sets (sets c) -> (0 <= num_rrs c + n)%Z -> (n <= 1)%Z ->
  u16 (num_rrs c + n) = (num_rrs c + n)%Z.
Proof.
  intros Hs Hn H0 H1. apply Z.mod_small. pose proof (count_sets_le (sets c)).
  pose proof (length_sets c Hs). unfold NRRTOT in *. lia.
Qed.

Section OpSpec.
Context {P : Platform}.

(** What every operation on an entry keeps. *)
Definition keeps (c c' : dns_cent) : Prop :=
  qname c' = qname c /\ c_ns c' = c_ns c /\ c_soa c' = c_soa c.

Lemma keeps_trans c1 c2 c3 : keeps c1 c2 -> keeps c2 c3 -> keeps c1 c3.
Proof. intros (? & ? & ?) (? & ? & ?). split_and!; congruence. Qed.

Lemma runs_del_rrset rs s :
  lent_in (rs_lent rs) (rrl s) ->
  runs (del_rrset rs) s (fun n s' => n = rrset_size rs /\ s' = with_rrl (drop_lent (rs_lent rs) (rrl s)) s).
Proof. intros Hl. run_with runs_remove_lent; [done|]. intros _ s' ->. by apply runs_ret. Qed.

(** Clearing slot [i] in an entry. *)
Definition cleared (c c' : dns_cent) (i : nat) : Prop :=
  cent_ok c' /\ keeps c c' /\ sets c' = <[i := None]> (sets c) /\ is_neg c' = is_neg c /\
  ext_size c' = ext_size c /\ lent_of c' None = lent_of c None /\
  (forall m, Z.land m DF_AUTH = 0%Z -> tst (flags c') m = tst (flags c) m).

Lemma runs_del_index c i s :
  cent_ok c -> i < NRRTOT -> lent_in (lent_of c (Some i)) (rrl s) ->
  runs (del_cent_rrset_by_index c i) s (fun r s' =>
    s' = with_rrl (drop_lent (lent_of c (Some i)) (rrl s)) s /\
    r.1 = from_option rrset_size 0%Z (slot c i) /\ cs r.2 = (cs c - r.1)%Z /\ cleared c r.2 i).
Proof.
  intros (Hs & Hq & Hcs & Hn) Hi Hl. unfold del_cent_rrset_by_index, lent_of in *.
  run_lift; [by apply rrarr_testext_sets|]. fold (slot c i). destruct (slot c i) as [rs|] eqn:Hrs; cbn in Hl |- *.
  - run_with runs_del_rrset; [done|]. intros n s' [-> ->]. pose proof (slot_lookup _ _ _ Hrs) as Hlk.
    destruct (rrarr_set_sets c i None Hs) as (b & Hset & Hs' & Hsets & Hneg & Hext); [by eapply lookup_lt_Some|].
    run_lift; [exact Hset|]. apply runs_ret. cbn [fst snd cs set_cs set_flags set_num_rrs set_body].
    pose proof (slot_lt c i rs Hs Hrs) as [_ Hnn].
    split_and!; [done|done|done|]. unfold cleared, keeps.
    change (sets (set_flags _ _)) with (sets (set_body b c)). change (is_neg (set_flags _ _)) with (is_neg (set_body b c)).
    change (ext_size (set_flags _ _)) with (ext_size (set_body b c)).
    assert (Hnum : u16 (num_rrs c - 1) = count_sets (<[i := None]> (sets c))).
    { rewrite (count_sets_insert _ _ _ None Hlk). cbn [one].
      assert (1 <= count_sets (sets c))%Z.
      { rewrite <- (take_drop_middle _ _ _ Hlk), count_sets_app, count_sets_cons. cbn [one].
        pose proof (count_sets_le (take i (sets c))). pose proof (count_sets_le (drop (S i) (sets c))). lia. }
      rewrite <- Hn, <- Z.add_opp_r. rewrite u16_count by (done || lia). lia. }
    split; [|split_and!; try done; try congruence].
    + split_and!.
      * destruct Hs' as [H1 H2]. split; [|done]. cbn [flags set_flags set_cs set_num_rrs]. rewrite tst_ldiff by done. exact H1.
      * exact Hq.
      * unfold cent_size. cbn [cs qname set_flags set_cs set_num_rrs set_body].
        change (sets (set_flags _ _)) with (sets (set_body b c)).
        change (ext_size (set_flags _ _)) with (ext_size (set_body b c)).
        rewrite Hsets, Hext, (sets_size_insert _ _ _ None Hlk), Hcs. unfold cent_size. cbn [from_option]. lia.
      * change (sets (set_flags _ _)) with (sets (set_body b c)). rewrite Hsets. exact Hnum.
    + unfold is_neg, lent_of in *. cbn [body set_flags set_cs set_num_rrs set_body] in *. destruct b; [done|]. by destruct (body c).
    + intros m Hm. cbn [flags set_flags set_cs set_num_rrs set_body]. by apply tst_ldiff.
  - apply runs_ret. rewrite with_rrl_id. cbn. split_and!; [done|done|lia|].
    unfold cleared, keeps. rewrite slot_none_insert by done. unfold cent_ok. split_and!; try done; apply Hs.
Qed.
End OpSpec.

Section AddSpec.
Context {P : Platform}.

(** Both forms of the allocation, in one specification. *)
Lemma runs_alloc s : runs malloc s (fun b s' => mem_only s s' /\ (plenty s -> b = true /\ plenty s')).
Proof.
  destruct (runs_malloc s) as (b & s' & Hm & Ho). exists b, s'. split; [done|]. split; [done|]. intros Hp.
  destruct (runs_malloc_plenty s Hp) as (b2 & s2 & Hm2 & -> & _ & Hp2). rewrite Hm in Hm2. by injection Hm2 as -> ->.
Qed.

Lemma slot_app_nones a n j :
  default None ((a ++ replicate n (None : option rr_set)) !! j) = default None (a !! j).
Proof.
  destruct (decide (j < length a)); [by rewrite lookup_app_l|].
  rewrite lookup_app_r, (lookup_ge_None_2 a) by lia.
  destruct (replicate n None !! (j - length a)) as [r|] eqn:E; [|done]. by apply lookup_replicate in E as [-> _].
Qed.

Definition same_slots (c c' : dns_cent) : Prop := forall j, slot c' j = slot c j.

Lemma runs_rrset_slot c idx s :
  cent_ok c -> is_neg c = false -> idx < NRRTOT ->
  runs (rrset_slot c idx) s (fun r s' => mem_only s s' /\ (plenty s -> is_Some r /\ plenty s') /\
    forall c', r = Some c' -> cent_ok c' /\ keeps c c' /\ same_slots c c' /\ is_neg c' = false /\
      flags c' = flags c /\ idx < length (sets c')).
Proof.
  intros Hok Hneg Hi. pose proof Hok as (Hs & Hq & Hcs & Hn). unfold rrset_slot.
  assert (Hmu : forall c', c' = c -> idx < length (sets c) -> cent_ok c' /\ keeps c c' /\ same_slots c c' /\
    is_neg c' = false /\ flags c' = flags c /\ idx < length (sets c')) by (by intros c' ->).
  unfold is_neg in Hneg. destruct (body c) as [|rrmu rrext] eqn:Hb; [done|].
  pose proof (shape_rr c rrmu rrext Hs Hb) as (Hfl & Hm & He).
  destruct (idx <? NRRMU) eqn:E1; boolp.
  { apply runs_ret. split_and!; [auto with pdnsd|by eauto|]. intros c' [= <-]. apply Hmu; [done|].
    unfold sets. rewrite Hb, length_app. lia. }
  assert (idx - NRRMU < NRREXT) by (unfold NRRTOT, NRRMU, NRREXT in *; lia). bool_true (idx - NRRMU <? NRREXT).
  destruct rrext as [e|].
  { apply runs_ret. split_and!; [auto with pdnsd|by eauto|]. intros c' [= <-]. apply Hmu; [done|].
    unfold sets. rewrite Hb, length_app. simpl. rewrite (He e eq_refl), Hm. unfold NRRTOT, NRRMU, NRREXT in *. lia. }
  run_with runs_alloc. intros b s' [Hmem Hp]. destruct b; apply runs_ret; [|split_and!; [done|by intros [? _]%Hp|done]].
  split_and!; [done|by intros H2; split; [|apply Hp]|]. intros c' [= <-].
  set (c' := set_cs _ _).
  assert (Hsets : sets c' = sets c ++ no_rrext) by (unfold sets, c'; cbn; rewrite Hb; cbn; by rewrite app_nil_r).
  assert (Hsh : shape c').
  { split; [unfold is_neg; cbn; by rewrite Hfl|]. cbn. split; [done|]. by intros e [= <-]. }
  split; [split; [done|split; [done|split]]|split; [done|split; [|split; [done|split; [done|]]]]].
  - unfold cent_size. rewrite Hsets, sets_size_app. unfold no_rrext. rewrite sets_size_nones.
    unfold c', ext_size. cbn. rewrite Hcs. unfold cent_size, ext_size. rewrite Hb. lia.
  - rewrite Hsets, count_sets_app. unfold no_rrext. rewrite count_sets_nones. unfold c'. cbn. lia.
  - intros j. unfold slot. rewrite Hsets. apply slot_app_nones.
  - rewrite Hsets, length_app. unfold sets. rewrite Hb, length_app, Hm.
    change (length no_rrext) with NRREXT. unfold NRRTOT, NRRMU, NRREXT in *. simpl. lia.
Qed.

(** The set that [add_cent_rrset_by_index] creates. *)
Definition new_rrset (ttl ts fl : Z) : rr_set :=
  {| rs_lent := None; rs_ttl := ttl; rs_ts := ts; rs_flags := u16 fl; rs_rrs := [] |}.

(** Filling an empty slot of an entry. *)
Definition filled (c c' : dns_cent) (idx : nat) (rs : rr_set) : Prop :=
  slot c' idx = Some rs /\ forall j, j <> idx -> slot c' j = slot c j.

(** The negative entry that a first set turns into a positive one. *)
Definition positive_of (c : dns_cent) : dns_cent :=
  if is_neg c then set_body (Rr no_rrmu None) (set_flags (Z.ldiff (flags c) DF_NEGATIVE) c) else c.

Lemma tst_ldiff_same f b : tst (Z.ldiff f b) b = false.
Proof.
  unfold tst. apply negb_false_iff, Z.eqb_eq, Z.bits_inj'. intros n Hn.
  rewrite Z.land_spec, Z.ldiff_spec, Z.bits_0. by destruct (Z.testbit f n), (Z.testbit b n).
Qed.

Lemma positive_of_ok c : cent_ok c ->
  cent_ok (positive_of c) /\ keeps c (positive_of c) /\ same_slots c (positive_of c) /\
  is_neg (positive_of c) = false /\
  (forall m, Z.land m DF_NEGATIVE = 0%Z -> tst (flags (positive_of c)) m = tst (flags c) m).
Proof.
  intros (Hs & Hq & Hcs & Hn). unfold positive_of. destruct (is_neg c) eqn:Hneg; [|split_and!; unfold cent_ok; by auto].
  split; [split; [|split; [done|split]]|split; [done|split; [|split; [done|]]]].
  - split; [cbn; by rewrite tst_ldiff_same|by split].
  - unfold cent_size in *. change (sets (set_body _ _)) with no_rrmu. unfold no_rrmu. rewrite sets_size_nones.
    unfold ext_size, sets, is_neg in *. cbn. destruct (body c); [|done]. cbn in Hcs. lia.
  - change (sets (set_body _ _)) with no_rrmu. unfold no_rrmu. rewrite count_sets_nones. cbn. rewrite Hn.
    unfold sets, is_neg in *. by destruct (body c).
  - intros j. unfold slot. change (sets (set_body _ _)) with ([] ++ no_rrmu). unfold no_rrmu.
    rewrite slot_app_nones. unfold sets, is_neg in *. by destruct (body c).
  - intros m Hm. cbn. by apply tst_ldiff.
Qed.

Lemma runs_add_rrset c idx ttl ts fl s :
  cent_ok c -> idx < NRRTOT -> slot c idx = None -> lent_in (lent_of c None) (rrl s) ->
  runs (add_cent_rrset_by_index c idx ttl ts fl) s (fun r s' =>
    rrl_only s s' (drop_lent (lent_of c None) (rrl s)) /\ (plenty s -> r.1 = true /\ plenty s') /\
    cent_ok r.2 /\ keeps c r.2 /\ is_neg r.2 = false /\
    (forall m, Z.land m DF_NEGATIVE = 0%Z -> tst (flags r.2) m = tst (flags c) m) /\
    if (r.1 : bool) then filled c r.2 idx (new_rrset ttl ts fl) else same_slots c r.2).
Proof.
  intros Hok Hi Hslot Hl. unfold add_cent_rrset_by_index.
  pose proof (positive_of_ok c Hok) as (Hok1 & Hk1 & Hsl1 & Hn1 & Hf1).
  apply runs_bind. eapply runs_weaken with (Q := fun c1 s1 => c1 = positive_of c /\
    s1 = with_rrl (drop_lent (lent_of c None) (rrl s)) s).
  { pose proof Hok as [[Hn _] _]. rewrite Hn. unfold lent_of, is_neg, positive_of in *.
    destruct (body c) as [l ttl' ts'|] eqn:Hb; cbn in Hl |- *.
    - run_with runs_remove_lent; [done|]. intros _ s' ->. apply runs_ret. unfold is_neg. by rewrite Hb.
    - apply runs_ret. rewrite with_rrl_id. unfold is_neg. by rewrite Hb. }
  intros c1 s1 [-> ->]. set (s1 := with_rrl _ s).
  run_with runs_rrset_slot; [done..|]. intros r s2 (Hm2 & Hp2 & Hr).
  assert (Hpl : plenty s -> plenty s1) by done.
  destruct r as [c2|].
  2:{ apply runs_ret. cbn. split_and!; [|intros H; by destruct (proj1 (Hp2 (Hpl H)))|done..].
      destruct Hm2 as [m ->]. by exists m. }
  destruct (Hr c2 eq_refl) as (Hok2 & Hk2 & Hsl2 & Hn2 & Hf2 & Hlt2). clear Hr.
  assert (Hslot2 : sets c2 !! idx = Some None).
  { destruct (lookup_lt_is_Some_2 (sets c2) idx Hlt2) as [x Hx]. rewrite Hx.
    pose proof (Hsl2 idx) as H2. rewrite Hsl1, Hslot in H2. unfold slot in H2. rewrite Hx in H2. by cbn in H2; subst x. }
  run_with runs_alloc. intros b s3 [Hm3 Hp3].
  assert (Hro : rrl_only s s3 (drop_lent (lent_of c None) (rrl s))).
  { destruct Hm2 as [m ->], Hm3 as [m' ->]. by exists m'. }
  pose proof Hok2 as (Hs2 & Hq2 & Hcs2 & Hnum2).
  destruct b.
  - destruct (rrarr_set_sets c2 idx (Some (new_rrset ttl ts fl)) Hs2 Hlt2) as (bd & Hset & Hs' & Hsets & Hneg & Hext).
    run_lift; [exact Hset|]. apply runs_ret. cbn [fst snd].
    assert (Hnum : num_rrs (set_body bd c2) = num_rrs c2) by done.
    assert (Hcount : count_sets (<[idx:=Some (new_rrset ttl ts fl)]> (sets c2)) = (num_rrs c2 + 1)%Z).
    { rewrite (count_sets_insert _ _ _ _ Hslot2), Hnum2. cbn [one]. lia. }
    pose proof (count_sets_le (sets c2)).
    split_and!; [done|by intros H'; split; [|apply Hp3, Hp2, Hpl]| | | | |].
    + split_and!; [destruct Hs' as [H1 H2]; by split|exact Hq2| |].
      * unfold cent_size. change (sets (set_num_rrs _ _)) with (sets (set_body bd c2)).
        change (ext_size (set_num_rrs _ _)) with (ext_size (set_body bd c2)).
        rewrite Hsets, Hext, (sets_size_insert _ _ _ _ Hslot2). cbn. rewrite Hcs2. unfold cent_size, rrset_size. cbn. lia.
      * change (sets (set_num_rrs _ _)) with (sets (set_body bd c2)). rewrite Hsets, Hcount. cbn.
        apply u16_count; [done|done|lia|lia].
    + exact (keeps_trans _ _ _ Hk1 Hk2).
    + done.
    + intros m Hm. cbn. rewrite Hf2. by apply Hf1.
    + split; [|intros j Hj]; unfold slot at 1; change (sets (set_num_rrs _ _)) with (sets (set_body bd c2)); rewrite Hsets.
      * by rewrite list_lookup_insert_eq.
      * rewrite list_lookup_insert_ne by done. fold (slot c2 j). by rewrite Hsl2, Hsl1.
  - destruct (rrarr_set_sets c2 idx None Hs2 Hlt2) as (bd & Hset & Hs' & Hsets & Hneg & Hext).
    rewrite (list_insert_id _ _ _ Hslot2) in Hsets.
    run_lift; [exact Hset|]. apply runs_ret. cbn [fst snd].
    split_and!; [done|intros H'; destruct (Hp3 (proj2 (Hp2 (Hpl H')))); done| | |done| |].
    + split_and!; [done|exact Hq2| |by rewrite Hsets].
      unfold cent_size. rewrite Hsets, Hext. exact Hcs2.
    + exact (keeps_trans _ _ _ Hk1 Hk2).
    + intros m Hm. cbn. rewrite Hf2. by apply Hf1.
    + intros j. unfold slot at 1. rewrite Hsets. fold (slot c2 j). by rewrite Hsl2, Hsl1.
Qed.
End AddSpec.

Section RecordSpec.
Context {P : Platform}.

(** Linking a record after position [rtail]. *)
Definition link_rr (rtail : option nat) (rr : list Z) (rrs : list (list Z)) : list (list Z) :=
  match rtail with
  | None => rr :: rrs
  | Some k => take (S k) rrs ++ rr :: drop (S k) rrs
  end.

Lemma rrs_size_app a b : rrs_size (a ++ b) = (rrs_size a + rrs_size b)%Z.
Proof.
  induction a as [|r a IH]; [done|]. cbn [app]. unfold rrs_size in *. cbn [fold_right]. rewrite IH. lia.
Qed.

Lemma rrs_size_link rtail rr rrs :
  rrs_size (link_rr rtail rr rrs) = (rrs_size rrs + (sizeof_rr_bucket_t + Z.of_nat (length rr)))%Z.
Proof.
  destruct rtail as [k|]; cbn [link_rr]; [|unfold rrs_size; cbn; lia].
  rewrite <- (take_drop (S k) rrs) at 3. rewrite !rrs_size_app. unfold rrs_size. cbn. lia.
Qed.

(** Replacing a set by one of another size. *)
Lemma replace_set_ok c idx rs rs' d :
  cent_ok c -> slot c idx = Some rs -> rrset_size rs' = (rrset_size rs + d)%Z ->
  exists b, rrarr_set c idx (Some rs') = Some (set_body b c) /\
    cent_ok (set_cs (cs c + d) (set_body b c)) /\ filled c (set_body b c) idx rs' /\
    is_neg (set_body b c) = false.
Proof.
  intros (Hs & Hq & Hcs & Hn) Hsl Hd. pose proof (slot_lookup _ _ _ Hsl) as Hlk.
  assert (Hlt : idx < length (sets c)) by (by eapply lookup_lt_Some).
  destruct (rrarr_set_sets c idx (Some rs') Hs Hlt) as (b & Hset & Hs' & Hsets & Hneg & Hext).
  exists b. split; [done|]. split; [split; [|split; [|split]]|split; [split|done]].
  - destruct Hs' as [H1 H2]. by split.
  - done.
  - unfold cent_size. change (sets (set_cs _ _)) with (sets (set_body b c)).
    change (ext_size (set_cs _ _)) with (ext_size (set_body b c)).
    rewrite Hsets, Hext, (sets_size_insert _ _ _ _ Hlk). cbn. rewrite Hcs, Hd. unfold cent_size. lia.
  - change (sets (set_cs _ _)) with (sets (set_body b c)).
    rewrite Hsets, (count_sets_insert _ _ _ _ Hlk). cbn [one]. cbn. rewrite Hn. lia.
  - unfold slot. rewrite Hsets. by rewrite list_lookup_insert_eq.
  - intros j Hj. unfold slot. rewrite Hsets. by rewrite list_lookup_insert_ne.
Qed.

Lemma slot_index c idx rs : shape c -> slot c idx = Some rs -> rrarr_index c idx = Some (Some rs).
Proof.
  intros Hs Hsl. pose proof (slot_lt _ _ _ Hs Hsl) as [_ Hn]. rewrite rrarr_index_sets by done. by apply slot_lookup.
Qed.

Definition rtail_ok (rtail : option nat) (rrs : list (list Z)) : Prop :=
  match rtail with Some k => k < length rrs | None => True end.

(** The end of [add_cent_rr_int], with the set in place. *)
Lemma runs_link_rr c idx rs rr rtail s :
  cent_ok c -> slot c idx = Some rs -> rtail_ok rtail (rs_rrs rs) ->
  runs (r ← liftM (rrarr_index c idx); rs ← liftM r;
        '(rrs', pos) ← liftM
          match rtail with
          | None => Some (rr :: rs_rrs rs, 0)
          | Some k =>
              if decide (k < length (rs_rrs rs))
              then Some (take (S k) (rs_rrs rs) ++ rr :: drop (S k) (rs_rrs rs), S k) else None
          end;
        c ← liftM (rrarr_set c idx (Some (rs_set_rrs rrs' rs)));
        mret (true, set_cs (cs c + (sizeof_rr_bucket_t + Z.of_nat (length rr))) c, Some pos)) s
    (fun r s' => s' = s /\ r.1.1 = true /\ cent_ok r.1.2 /\ keeps c r.1.2 /\ flags r.1.2 = flags c /\
      is_neg r.1.2 = false /\ filled c r.1.2 idx (rs_set_rrs (link_rr rtail rr (rs_rrs rs)) rs) /\
      r.2 = Some (from_option S 0 rtail)).
Proof.
  intros Hok Hsl Hrt. pose proof Hok as (Hs & _).
  run_lift; [by apply slot_index|]. run_lift; [done|].
  eapply (runs_bind (liftM _)). eapply (runs_lift _ (link_rr rtail rr (rs_rrs rs), from_option S 0 rtail)).
  { destruct rtail as [k|]; [|done]. cbn in Hrt |- *. by rewrite decide_True. }
  destruct (replace_set_ok c idx rs (rs_set_rrs (link_rr rtail rr (rs_rrs rs)) rs)
    (sizeof_rr_bucket_t + Z.of_nat (length rr)) Hok Hsl) as (b & Hset & Hok' & Hfill & Hneg).
  { unfold rrset_size. cbn [rs_rrs rs_set_rrs]. rewrite rrs_size_link. lia. }
  run_lift; [exact Hset|]. apply runs_ret. cbn [fst snd]. by splits.
Qed.

Lemma runs_add_rr_int c idx ttl ts fl rr rtail s :
  cent_ok c -> idx < NRRTOT -> lent_of c None = None ->
  let rs0 := default (new_rrset ttl ts fl) (slot c idx) in
  rtail_ok rtail (rs_rrs rs0) ->
  runs (add_cent_rr_int c idx ttl ts fl rr rtail) s (fun r s' =>
    mem_only s s' /\ (plenty s -> r.1.1 = true /\ plenty s') /\ cent_ok r.1.2 /\ keeps c r.1.2 /\
    (forall m, Z.land m DF_NEGATIVE = 0%Z -> tst (flags r.1.2) m = tst (flags c) m) /\
    (is_neg c = false -> is_neg r.1.2 = false) /\ lent_of r.1.2 None = None /\
    if (r.1.1 : bool) then
      filled c r.1.2 idx (rs_set_rrs (link_rr rtail rr (rs_rrs rs0)) rs0) /\ is_neg r.1.2 = false /\
      r.2 = Some (from_option S 0 rtail)
    else same_slots c r.1.2 /\ r.2 = rtail).
Proof.
  intros Hok Hi Hl rs0 Hrt. unfold add_cent_rr_int, create_rr. pose proof Hok as (Hs & _).
  apply runs_bind. run_with runs_alloc. intros b s1 [Hm1 Hp1]. apply runs_ret.
  destruct b; [|apply runs_ret; cbn [fst snd]; splits; [done|by intros [? _]%Hp1|done..]].
  assert (Hpl1 : plenty s -> plenty s1) by (intros H; by apply Hp1).
  apply runs_bind. eapply runs_weaken with (Q := fun r s2 => mem_only s s2 /\ (plenty s -> r.1 = true /\ plenty s2) /\
    cent_ok r.2 /\ keeps c r.2 /\ (is_neg c = false -> is_neg r.2 = false) /\
    (forall m, Z.land m DF_NEGATIVE = 0%Z -> tst (flags r.2) m = tst (flags c) m) /\ lent_of r.2 None = None /\
    (if (r.1 : bool) then filled c r.2 idx rs0 else same_slots c r.2)).
  { assert (Hsame : slot c idx = Some rs0 -> runs (mret (true, c)) s1 (fun r s2 => mem_only s s2 /\
      (plenty s -> r.1 = true /\ plenty s2) /\ cent_ok r.2 /\ keeps c r.2 /\ (is_neg c = false -> is_neg r.2 = false) /\
      (forall m, Z.land m DF_NEGATIVE = 0%Z -> tst (flags r.2) m = tst (flags c) m) /\ lent_of r.2 None = None /\
      (if (r.1 : bool) then filled c r.2 idx rs0 else same_slots c r.2))).
    { intros E. apply runs_ret. cbn [fst snd]. splits; try done; by intros H; split; [|apply Hpl1]. }
    destruct rtail as [k|].
    { apply Hsame. unfold rs0 in *. destruct (slot c idx) as [rs|]; [done|]. cbn in Hrt. lia. }
    run_lift; [by apply rrarr_testext_sets|]. fold (slot c idx). unfold rs0 in *.
    destruct (slot c idx) as [rs|] eqn:Hsl; [by apply Hsame|]. cbn.
    eapply runs_weaken; [apply runs_add_rrset; [done|done|done|by rewrite Hl]|].
    intros [ok c'] s2 (Hro & Hp2 & Hok' & Hk & Hn & Hf & Hres). rewrite Hl in Hro. cbn in Hro, Hp2, Hok', Hk, Hn, Hf, Hres |- *.
    splits; try done; [|intros H; apply Hp2, Hpl1, H|unfold is_neg, lent_of in *; by destruct (body c')].
    destruct Hm1 as [m ->], Hro as [m' ->]. exists m'. by destruct s. }
  intros [ok c'] s2 (Hm2 & Hp2 & Hok' & Hk & Hn & Hf & Hlo & Hres). cbn [fst snd] in *. destruct ok.
  - destruct Hres as [Hsl' Hoth].
    eapply runs_weaken; [by apply runs_link_rr|]. intros [[ok2 c2] rt2] s3 (-> & -> & Hok2 & Hk2 & Hf2 & Hn2 & [Hfs Hfo] & Hrt2).
    cbn [fst snd] in *. splits; try done.
    + exact (keeps_trans _ _ _ Hk Hk2).
    + intros m Hm. rewrite Hf2. by apply Hf.
    + unfold is_neg, lent_of in *. by destruct (body c2).
    + split; [done|]. intros j Hj. rewrite Hfo by done. by apply Hoth.
  - apply runs_ret. cbn [fst snd]. splits; try done; by intros [? _]%Hp2.
Qed.
End RecordSpec.

Section CentTheorems.
Context {P : Platform}.

Definition rrs_at (c : dns_cent) (i : nat) : list (list Z) := from_option rs_rrs [] (slot c i).

Lemma find_rr_spec data rrs : forall k rtail,
  find_rr data rrs k rtail =
  if decide (data ∈ rrs) then None
  else Some (match rrs with [] => rtail | _ => Some (k + length rrs - 1) end).
Proof.
  induction rrs as [|rr rrs IH]; intros k rtail; cbn [find_rr].
  - by rewrite decide_False by apply not_elem_of_nil.
  - destruct (decide (rr = data)) as [->|Hne].
    + by rewrite decide_True by left.
    + rewrite IH. destruct (decide (data ∈ rrs)) as [Hin|Hin].
      * by rewrite decide_True by by right.
      * rewrite decide_False by (rewrite not_elem_of_cons; by split). f_equal.
        destruct rrs as [|rr' rrs]; cbn [length]; f_equal; lia.
Qed.

Lemma link_rr_last data rrs rtail :
  find_rr data rrs 0 None = Some rtail -> link_rr rtail data rrs = rrs ++ [data] /\ rtail_ok rtail rrs.
Proof.
  rewrite find_rr_spec. destruct (decide (data ∈ rrs)); [done|]. intros [= <-].
  destruct rrs as [|rr rrs]; [done|]. cbn [link_rr rtail_ok]. cbn [length].
  split; [|lia]. rewrite take_ge, drop_ge by (cbn; lia). done.
Qed.

(** The first half of [add_cent_rr]: the time-to-live of an existing set is
    lowered and its records are searched. *)
Lemma runs_lower_ttl c idx ttl data s :
  cent_ok c -> lent_of c None = None ->
  runs (match slot c idx with
        | None => mret (c, Some None)
        | Some rs =>
            let rs := if (ttl <? rs_ttl rs)%Z then rs_set_ttl ttl rs else rs in
            c ← liftM (rrarr_set c idx (Some rs));
            mret (c, find_rr data (rs_rrs rs) 0 None)
        end) s (fun r s' => s' = s /\ cent_ok r.1 /\ keeps c r.1 /\
    flags r.1 = flags c /\ is_neg r.1 = is_neg c /\ (forall j, j <> idx -> slot r.1 j = slot c j) /\ lent_of r.1 None = None /\
    rrs_at r.1 idx = rrs_at c idx /\ r.2 = find_rr data (rrs_at c idx) 0 None /\
    match slot c idx with
    | None => r.1 = c
    | Some rs => exists rs', slot r.1 idx = Some rs' /\ rs_ttl rs' = Z.min ttl (rs_ttl rs) /\ rs_ts rs' = rs_ts rs /\
         rs_flags rs' = rs_flags rs /\ rs_lent rs' = rs_lent rs
    end).
Proof.
  intros Hok Hl. destruct (slot c idx) as [rs|] eqn:Hsl.
  - set (rs' := if (ttl <? rs_ttl rs)%Z then rs_set_ttl ttl rs else rs).
    assert (Hrs' : rs_ttl rs' = Z.min ttl (rs_ttl rs) /\ rs_ts rs' = rs_ts rs /\ rs_flags rs' = rs_flags rs /\
      rs_lent rs' = rs_lent rs /\ rs_rrs rs' = rs_rrs rs).
    { unfold rs'. destruct (ttl <? rs_ttl rs)%Z eqn:E; boolp; cbn; splits; try done; lia. }
    destruct Hrs' as (? & ? & ? & ? & Hrrs).
    destruct (replace_set_ok c idx rs rs' 0 Hok Hsl) as (b & Hset & Hok' & [Hf1 Hf2] & Hneg).
    { unfold rrset_size. rewrite Hrrs. lia. }
    run_lift; [exact Hset|]. apply runs_ret. cbn [fst snd].
    assert (Hcs : set_cs (cs c + 0) (set_body b c) = set_body b c).
    { unfold set_cs, set_body. cbn. by rewrite Z.add_0_r. }
    rewrite Hcs in Hok'. splits; try done.
    + rewrite Hneg. unfold slot, sets, is_neg in *. by destruct (body c).
    + unfold lent_of, is_neg in *. cbn in *. by destruct b.
    + unfold rrs_at. rewrite Hf1, Hsl. done.
    + unfold rrs_at. rewrite Hsl. cbn. by rewrite Hrrs.
    + by exists rs'.
  - apply runs_ret. cbn. splits; try done. unfold rrs_at. rewrite Hsl. done.
Qed.

Lemma runs_add_cent_rr (c : dns_cent) (type ttl ts fl : Z) (data : list Z) (s : cache) :
  cent_ok c -> lent_of c None = None -> not_cached_type type = false ->
  let idx := type_idx type in
  runs (add_cent_rr c type ttl ts fl data) s (fun r s' =>
    mem_only s s' /\ (plenty s -> r.1 = true /\ plenty s') /\ cent_ok r.2 /\ keeps c r.2 /\
    (forall m, Z.land m DF_NEGATIVE = 0%Z -> tst (flags r.2) m = tst (flags c) m) /\ (is_neg c = false -> is_neg r.2 = false) /\
    lent_of r.2 None = None /\
    (r.1 = false -> slot c idx = None -> slot r.2 idx = None) /\
    (forall j, j <> idx -> slot r.2 j = slot c j) /\
    if tst (flags c) DF_LOCAL && negb (tst fl CF_LOCAL) then r = (true, c)
    else rrs_at r.2 idx = rrs_at c idx ++ (if bool_decide (r.1 = true /\ data ∉ rrs_at c idx) then [data] else []) /\
      (forall rs, slot c idx = Some rs -> exists rs', slot r.2 idx = Some rs' /\
         rs_ttl rs' = Z.min ttl (rs_ttl rs) /\ rs_ts rs' = rs_ts rs /\ rs_flags rs' = rs_flags rs /\
         rs_lent rs' = rs_lent rs) /\
      (slot c idx = None -> r.1 = true -> exists rs', slot r.2 idx = Some rs' /\
         rs_ttl rs' = ttl /\ rs_ts rs' = ts /\ rs_flags rs' = u16 fl /\ rs_lent rs' = None)).
Proof.
  intros Hok Hl Ht idx. unfold add_cent_rr.
  destruct (tst (flags c) DF_LOCAL && negb (tst fl CF_LOCAL)) eqn:Eloc.
  { apply runs_ret. cbn. splits; auto with pdnsd; done. }
  pose proof (not_cached_range type Ht) as Hrng. unfold T_MIN, T_MAX in Hrng.
  assert (Hidx : rrlkuptab !! Z.to_nat (type - T_MIN) = Some idx /\ idx < NRRTOT).
  { unfold not_cached_type in Ht. apply orb_false_iff in Ht as [_ Ht]. unfold idx, type_idx.
    destruct (rrlkuptab !! Z.to_nat (type - T_MIN)) as [i|]; [|done]. boolp. by split. }
  destruct Hidx as [Hlk Hi]. unfold T_MIN, T_NUM in *.
  bool_true (0 <=? type - 1)%Z. bool_true (type - 1 <? Z.of_nat 51)%Z. cbn [andb].
  run_lift; [exact Hlk|]. bool_true (idx <? NRRTOT). run_lift; [apply rrarr_testext_sets; [apply Hok|done]|].
  fold (slot c idx).
  run_with runs_lower_ttl; [done|done|].
  intros [c1 found] s1 (-> & Hok1 & Hk1 & Hf1 & Hneg1 & Ho1 & Hl1 & Hr1 & Hfound & Hm). cbn [fst snd] in *.
  destruct found as [rtail|].
  - symmetry in Hfound. pose proof (link_rr_last _ _ _ Hfound) as [Hlast Hrt].
    assert (Hnin : data ∉ rrs_at c idx).
    { rewrite find_rr_spec in Hfound. by destruct (decide (data ∈ rrs_at c idx)). }
    assert (Hrs0 : rs_rrs (default (new_rrset ttl ts fl) (slot c1 idx)) = rrs_at c idx).
    { rewrite <- Hr1. unfold rrs_at. by destruct (slot c1 idx). }
    run_with runs_add_rr_int; [done|done|done|by rewrite Hrs0|].
    intros [[ok c2] rt2] s2 (Hm2 & Hp2 & Hok2 & Hk2 & Hf2 & Hn2 & Hlo2 & Hres). cbn [fst snd] in *. apply runs_ret. cbn [fst snd].
    splits; [done|done|done|exact (keeps_trans _ _ _ Hk1 Hk2)| | |done| | | | |].
    + intros m Hm'. rewrite Hf2 by done. by rewrite Hf1.
    + intros Hnc. apply Hn2. by rewrite Hneg1.
    + intros -> Hsl. rewrite Hsl in Hm. subst c1. destruct Hres as [Hres _]. by rewrite Hres.
    + intros j Hj. rewrite <- Ho1 by done. destruct ok; [by apply Hres|]. by destruct Hres as [Hres _].
    + destruct ok.
      * destruct Hres as [[Hres _] _]. unfold rrs_at at 1. rewrite Hres. cbn. rewrite Hrs0, Hlast.
        by rewrite bool_decide_true by done.
      * destruct Hres as [Hres _]. unfold rrs_at at 1. rewrite Hres. fold (rrs_at c1 idx).
        rewrite bool_decide_false by (by intros [? _]). by rewrite app_nil_r, Hr1.
    + intros rs Hsl. rewrite Hsl in Hm. destruct Hm as (rs' & Hsl' & H1 & H2 & H3 & H4).
      destruct ok; [destruct Hres as [[Hres _] _]|destruct Hres as [Hres _]]; rewrite Hres, ?Hsl'; eexists; by split.
    + intros Hsl ->. rewrite Hsl in Hm. subst c1. destruct Hres as [[Hres _] _]. rewrite Hres, Hsl. eexists. by split.
  - apply runs_ret. cbn [fst snd].
    assert (Hin : data ∈ rrs_at c idx).
    { rewrite find_rr_spec in Hfound. by destruct (decide (data ∈ rrs_at c idx)). }
    splits; try done; auto with pdnsd.
    + by rewrite Hf1.
    + by rewrite Hneg1.
    + rewrite bool_decide_false by tauto. by rewrite app_nil_r.
    + intros rs Hsl. by rewrite Hsl in Hm.
    + intros Hsl. exfalso. unfold rrs_at in Hin. rewrite Hsl in Hin. by apply not_elem_of_nil in Hin.
Qed.

(** [add_cent_rr] adds a record to the set of its type: at the end, unless the
    set has it already, creating the set when there is none and lowering the
    time-to-live of the set to that of the record; the other sets, the name and
    the bookkeeping ([cs], [num_rrs], the tag of the union) are right afterwards.
    Only a failed allocation makes it return 0, and then no record has changed.
    A local entry ignores records that are not local. *)
Theorem add_cent_rr_correct (c : dns_cent) (type ttl ts fl : Z) (data : list Z) (s : cache) :
  cent_ok c -> lent_of c None = None -> not_cached_type type = false ->
  let idx := type_idx type in
  runs (add_cent_rr c type ttl ts fl data) s (fun r s' =>
    mem_only s s' /\ (plenty s -> r.1 = true) /\ cent_ok r.2 /\ keeps c r.2 /\
    (forall j, j <> idx -> slot r.2 j = slot c j) /\
    if tst (flags c) DF_LOCAL && negb (tst fl CF_LOCAL) then r = (true, c)
    else rrs_at r.2 idx = rrs_at c idx ++ (if bool_decide (r.1 = true /\ data ∉ rrs_at c idx) then [data] else []) /\
      (forall rs, slot c idx = Some rs -> exists rs', slot r.2 idx = Some rs' /\
         rs_ttl rs' = Z.min ttl (rs_ttl rs) /\ rs_ts rs' = rs_ts rs /\ rs_flags rs' = rs_flags rs /\
         rs_lent rs' = rs_lent rs) /\
      (slot c idx = None -> r.1 = true -> exists rs', slot r.2 idx = Some rs' /\
         rs_ttl rs' = ttl /\ rs_ts rs' = ts /\ rs_flags rs' = u16 fl /\ rs_lent rs' = None)).
Proof.
  intros Hok Hl Ht idx. eapply runs_weaken; [by apply runs_add_cent_rr|]. cbn beta zeta.
  intros r s' (Hm & Hp & Hok' & Hk & _ & _ & _ & _ & Ho & Hr). splits; try done. by intros [? _]%Hp.
Qed.
End CentTheorems.

Definition fresh_cache : cache :=
  {| cents := ∅; next_cent := 1; buckets := mk_dns_hash; rrl := []; next_lent := 1;
     cache_size := 0; ent_num := 0; insert_sort := true; mem := [] |}.

(** An entry for the name "a" without records. *)
Definition sample_cent : dns_cent :=
  {| qname := [1; 97; 0]%Z; cs := 107; num_rrs := 0; flags := 0; body := Rr no_rrmu None;
     c_ns := cundef; c_soa := cundef |}.

Lemma sample_cent_ok : @cent_ok LP64 sample_cent.
Proof.
  split; [|split; [exists [[97]]%Z|by split]].
  - by split; [|split; [|intros e]].
  - split; [|done]. split; [repeat constructor; simpl; lia|vm_compute; lia].
Qed.

Lemma add_cent_rr_correct_witness :
  runs (@add_cent_rr LP64 sample_cent T_A 300 1000 0 [10; 0; 0; 1]%Z) fresh_cache (fun r _ =>
    r.1 = true /\ rrs_at r.2 0 = [[10; 0; 0; 1]]%Z /\ @cent_ok LP64 r.2).
Proof.
  eapply runs_weaken; [apply (@add_cent_rr_correct LP64 sample_cent T_A 300 1000 0 [10; 0; 0; 1]%Z fresh_cache)|].
  - exact sample_cent_ok.
  - done.
  - done.
  - cbn beta. intros r s' (_ & Hp & Hok & _ & _ & Hr). assert (Ht : r.1 = true) by (apply Hp; constructor).
    change (tst (flags sample_cent) DF_LOCAL && negb (tst 0 CF_LOCAL)) with false in Hr.
    destruct Hr as [Hr _]. change (type_idx T_A) with 0 in Hr. change (rrs_at sample_cent 0) with (@nil (list Z)) in Hr.
    split; [done|]. split; [|done]. rewrite Hr. rewrite bool_decide_true; [done|].
    split; [done|apply not_elem_of_nil].
Defined.

(** ** Freeing and copying *)

Definition lents (a : list (option rr_set)) : list positive :=
  omap (fun r : option rr_set => rs ← r; rs_lent rs) a.
Definition cent_lents (c : dns_cent) : list positive :=
  match body c with
  | Neg l _ _ => option_list l
  | Rr _ _ => lents (sets c)
  end.

(** The list without the nodes [ls]. *)
Definition rrl_drop (ls : list positive) (r : list (positive * lent_val)) : list (positive * lent_val) :=
  filter (fun x => x.1 ∉ ls) r.

#[global] Arguments rrl_drop : simpl never.
#[global] Arguments rrl_remove : simpl never.

Lemma rrl_drop_nil r : rrl_drop [] r = r.
Proof.
  unfold rrl_drop. induction r as [|x r IH]; [done|]. rewrite filter_cons_True by apply not_elem_of_nil. by rewrite IH.
Qed.

Lemma rrl_drop_cons p ls r : rrl_drop ls (rrl_remove p r) = rrl_drop (p :: ls) r.
Proof.
  unfold rrl_drop, rrl_remove. rewrite list_filter_filter. apply list_filter_iff. intros x.
  rewrite not_elem_of_cons. tauto.
Qed.

Lemma elem_of_rrl_drop x ls r : x ∈ rrl_drop ls r <-> x ∈ r /\ x.1 ∉ ls.
Proof. unfold rrl_drop. rewrite list_elem_of_filter. tauto. Qed.

Lemma elem_of_rrl_remove x p (r : list (positive * lent_val)) : x ∈ rrl_remove p r <-> x ∈ r /\ x.1 <> p.
Proof. unfold rrl_remove. rewrite list_elem_of_filter. tauto. Qed.

Lemma rrl_drop_app ls ls' r : rrl_drop ls' (rrl_drop ls r) = rrl_drop (ls ++ ls') r.
Proof.
  unfold rrl_drop. rewrite list_filter_filter. apply list_filter_iff. intros x. rewrite not_elem_of_app. tauto.
Qed.

Lemma drop_lent_drop l r : drop_lent l r = rrl_drop (option_list l) r.
Proof.
  destruct l as [p|]; cbn; [|by rewrite rrl_drop_nil]. by rewrite <- rrl_drop_cons, rrl_drop_nil.
Qed.

Lemma in_rrl_drop p ls r : p ∈ r.*1 -> p ∉ ls -> p ∈ (rrl_drop ls r).*1.
Proof.
  intros Hp Hl. apply list_elem_of_fmap in Hp as (x & -> & Hx). apply list_elem_of_fmap. exists x.
  split; [done|]. by apply elem_of_rrl_drop.
Qed.

Section FreeCopy.
Context {P : Platform}.

Lemma runs_del_rrsets a : forall n s,
  NoDup (lents a) -> (forall p, p ∈ lents a -> p ∈ (rrl s).*1) ->
  runs (foldM (fun n r => match r with Some rs => k ← del_rrset rs; mret (n + k)%Z | None => mret n end) a n) s
    (fun k s' => k = (n + sets_size a)%Z /\ s' = with_rrl (rrl_drop (lents a) (rrl s)) s).
Proof.
  induction a as [|r a IH]; intros n s Hnd Hin; cbn [foldM].
  - apply runs_ret. cbn. rewrite rrl_drop_nil, with_rrl_id. split; [lia|done].
  - rewrite sets_size_cons. destruct r as [rs|]; cbn [from_option].
    + assert (Hls : lents (Some rs :: a) = option_list (rs_lent rs) ++ lents a)
        by (unfold lents; cbn; by destruct (rs_lent rs)).
      rewrite Hls in *. apply NoDup_app in Hnd as (_ & Hdis & Hnd).
      apply runs_bind. run_with runs_del_rrset.
      { destruct (rs_lent rs) as [p|]; [|done]. cbn. apply Hin. by left. }
      intros k s1 [-> ->]. apply runs_ret. eapply runs_weaken; [apply IH|].
      * done.
      * intros p Hp. cbn. rewrite drop_lent_drop. apply in_rrl_drop; [apply Hin; by apply elem_of_app; right|].
        intros Hp2. by apply (Hdis p).
      * intros k s' [-> ->]. split; [lia|]. cbn. rewrite drop_lent_drop, rrl_drop_app. done.
    + apply runs_bind, runs_ret. eapply runs_weaken; [by apply IH|]. cbn. intros k s' [-> ->]. split; [lia|done].
Qed.

Lemma lents_app a b : lents (a ++ b) = lents a ++ lents b.
Proof. apply omap_app. Qed.

Lemma runs_free_cent c s :
  shape c -> NoDup (cent_lents c) -> (forall p, p ∈ cent_lents c -> p ∈ (rrl s).*1) ->
  runs (free_cent c) s (fun _ s' => s' = with_rrl (rrl_drop (cent_lents c) (rrl s)) s).
Proof.
  intros [Hn Hs] Hnd Hin. unfold free_cent, cent_lents, is_neg, sets in *. rewrite Hn.
  destruct (body c) as [l ttl ts|rrmu rrext].
  - eapply runs_weaken; [apply runs_remove_lent|].
    + destruct l as [p|]; [|done]. apply Hin. by left.
    + intros _ s' ->. by rewrite drop_lent_drop.
  - rewrite lents_app in *. apply NoDup_app in Hnd as (Hnd1 & Hdis & Hnd2).
    run_with runs_del_rrsets; [done|by intros p Hp; apply Hin; apply elem_of_app; left|].
    intros k s1 [_ ->]. destruct rrext as [e|]; cbn in *.
    + run_with runs_del_rrsets; [done| |].
      * intros p Hp. cbn. apply in_rrl_drop; [apply Hin, elem_of_app; by right|]. intros Hp2. by apply (Hdis p).
      * intros k2 s2 [_ ->]. apply runs_ret. cbn. by rewrite rrl_drop_app.
    + apply runs_ret. by rewrite app_nil_r.
Qed.

(** A copy: the same contents, but not in the list of record sets. *)
Definition strip_set (r : option rr_set) : option rr_set := rs_set_lent None <$> r.
Definition strip_body (b : cent_body) : cent_body :=
  match b with
  | Neg _ ttl ts => Neg None ttl ts
  | Rr rrmu rrext => Rr (strip_set <$> rrmu) ((fun e : list _ => strip_set <$> e) <$> rrext)
  end.
Definition strip (c : dns_cent) : dns_cent := set_body (strip_body (body c)) c.

Lemma runs_copy_rrs rrs : forall s,
  runs (copy_rrs rrs) s (fun r s' => mem_only s s' /\ (plenty s -> is_Some r /\ plenty s') /\
    forall l, r = Some l -> l = rrs).
Proof.
  induction rrs as [|rr rrs IH]; intros s; cbn [copy_rrs].
  - apply runs_ret. splits; [auto with pdnsd|by eauto|by intros l [= <-]].
  - run_with runs_alloc. intros b s1 [Hm Hp]. destruct b.
    + run_with IH. intros r s2 (Hm2 & Hp2 & Hr). apply runs_ret.
      splits; [by eapply mem_only_trans| |].
      * intros H. destruct (Hp2 (proj2 (Hp H))) as [[l ->] ?]. split; [by eexists|done].
      * intros l Hl. destruct r as [l'|]; [|done]. cbn in Hl. injection Hl as <-. by rewrite (Hr l' eq_refl).
    + apply runs_ret. splits; [done|by intros [? _]%Hp|done].
Qed.

Lemma runs_copy_rrset rs s :
  runs (copy_rrset rs) s (fun r s' => mem_only s s' /\ (plenty s -> is_Some r /\ plenty s') /\
    forall x, r = Some x -> x = rs_set_lent None rs).
Proof.
  unfold copy_rrset. run_with runs_alloc. intros b s1 [Hm Hp]. destruct b.
  - run_with runs_copy_rrs. intros r s2 (Hm2 & Hp2 & Hr). apply runs_ret.
    splits; [by eapply mem_only_trans| |].
    + intros H. destruct (Hp2 (proj2 (Hp H))) as [[l ->] ?]. split; [by eexists|done].
    + intros x Hx. destruct r as [l|]; [|done]. cbn in Hx. injection Hx as <-. rewrite (Hr l eq_refl). by destruct rs.
  - apply runs_ret. splits; [done|by intros [? _]%Hp|done].
Qed.

Lemma runs_copy_rrsets a : forall s,
  runs (copy_rrsets a) s (fun r s' => mem_only s s' /\ (plenty s -> is_Some r /\ plenty s') /\
    forall l, r = Some l -> l = strip_set <$> a).
Proof.
  induction a as [|[rs|] a IH]; intros s; cbn [copy_rrsets].
  - apply runs_ret. splits; [auto with pdnsd|by eauto|by intros l [= <-]].
  - run_with runs_copy_rrset. intros r s1 (Hm & Hp & Hr). destruct r as [x|].
    + run_with IH. intros r2 s2 (Hm2 & Hp2 & Hr2). apply runs_ret.
      splits; [by eapply mem_only_trans| |].
      * intros H. destruct (Hp2 (proj2 (Hp H))) as [[l ->] ?]. split; [by eexists|done].
      * intros l Hl. destruct r2 as [l'|]; [|done]. cbn in Hl. injection Hl as <-. by rewrite (Hr x eq_refl), (Hr2 l' eq_refl).
    + apply runs_ret. splits; [done|by intros H; destruct (proj1 (Hp H))|done].
  - run_with IH. intros r2 s2 (Hm2 & Hp2 & Hr2). apply runs_ret. splits; [done| |].
    + intros H. destruct (Hp2 H) as [[l ->] ?]. split; [by eexists|done].
    + intros l Hl. destruct r2 as [l'|]; [|done]. cbn in Hl. injection Hl as <-. by rewrite (Hr2 l' eq_refl).
Qed.

Lemma runs_copy_cent c s :
  cent_ok c ->
  runs (copy_cent c) s (fun r s' => mem_only s s' /\ (plenty s -> is_Some r /\ plenty s') /\
    forall x, r = Some x -> x = strip c).
Proof.
  intros ([Hn Hs] & (N & HN & Hq) & _). unfold copy_cent. run_with runs_alloc. intros b s1 [Hm Hp].
  destruct b; [|apply runs_ret; splits; [done|by intros [? _]%Hp|done]].
  pose proof (rhnlen_enc N [] (proj1 HN)) as Hlen. rewrite app_nil_r, <- Hq in Hlen. run_lift; [exact Hlen|].
  run_with runs_alloc. intros b s2 [Hm2 Hp2].
  assert (Hp12 : plenty s -> b = true /\ plenty s2) by (intros H; by apply Hp2, Hp).
  assert (Hm12 : mem_only s s2) by (by eapply mem_only_trans). clear Hm Hm2 Hp Hp2.
  destruct b; [|apply runs_ret; splits; [done|by intros [? _]%Hp12|done]].
  assert (Hrd : rd_bytes (qname c) 0 (length (qname c)) = Some (qname c)).
  { rewrite Hq. pose proof (rd_bytes_app [] (enc_name N) []) as E. cbn [app length] in E. by rewrite app_nil_r in E. }
  run_lift; [exact Hrd|]. rewrite Hn. unfold is_neg, strip in *. destruct (body c) as [l ttl ts|rrmu [e|]] eqn:Hb.
  - apply runs_ret. splits; [done|by intros H; split; [eexists|apply Hp12]|by intros x [= <-]].
  - run_with runs_alloc. intros b s3 [Hm3 Hp3].
    destruct b; [|apply runs_ret; splits; [by eapply mem_only_trans|by intros H; destruct (Hp3 (proj2 (Hp12 H)))|done]].
    run_with runs_copy_rrsets. intros r s4 (Hm4 & Hp4 & Hr). assert (Hm4' : mem_only s s4) by eauto using mem_only_trans.
    assert (Hp4' : plenty s -> is_Some r /\ plenty s4) by (intros H; by apply Hp4, Hp3, Hp12).
    destruct r as [l|]; [|apply runs_ret; splits; [done|by intros H; destruct (proj1 (Hp4' H))|done]].
    run_with runs_copy_rrsets. intros r2 s5 (Hm5 & Hp5 & Hr2). apply runs_ret. splits; [by eapply mem_only_trans| |].
    + intros H. destruct (Hp5 (proj2 (Hp4' H))) as [[l2 ->] ?]. split; [by eexists|done].
    + intros x Hx. destruct r2 as [l'|]; [|done]. cbn in Hx. injection Hx as <-. by rewrite (Hr l eq_refl), (Hr2 l' eq_refl).
  - run_with runs_copy_rrsets. intros r2 s5 (Hm5 & Hp5 & Hr2). apply runs_ret. splits; [by eapply mem_only_trans| |].
    + intros H. destruct (Hp5 (proj2 (Hp12 H))) as [[l2 ->] ?]. split; [by eexists|done].
    + intros x Hx. destruct r2 as [l'|]; [|done]. cbn in Hx. injection Hx as <-. by rewrite (Hr2 l' eq_refl).
Qed.

Lemma sets_strip c : sets (strip c) = strip_set <$> sets c.
Proof.
  unfold sets, strip. cbn. destruct (body c) as [|rrmu rrext]; [done|]. cbn. rewrite fmap_app. by destruct rrext.
Qed.

Lemma slot_strip c i : slot (strip c) i = strip_set (slot c i).
Proof. unfold slot. rewrite sets_strip, list_lookup_fmap. by destruct (sets c !! i). Qed.

Lemma lents_strip a : lents (strip_set <$> a) = [].
Proof. induction a as [|[rs|] a IH]; [done|..]; unfold lents in *; cbn; exact IH. Qed.

Lemma cent_lents_strip c : cent_lents (strip c) = [].
Proof.
  unfold cent_lents. rewrite sets_strip, lents_strip. unfold strip. cbn. by destruct (body c).
Qed.

Lemma lent_of_strip c idx : lent_of (strip c) idx = None.
Proof.
  destruct idx as [i|]; cbn [lent_of].
  - rewrite slot_strip. by destruct (slot c i).
  - unfold strip. cbn. by destruct (body c).
Qed.

Lemma strip_ok c : cent_ok c -> cent_ok (strip c).
Proof.
  intros ([Hn Hs] & Hq & Hcs & Hnum).
  assert (Hss : sets_size (strip_set <$> sets c) = sets_size (sets c)).
  { clear. induction (sets c) as [|[rs|] a IH]; [done|..]; rewrite fmap_cons, !sets_size_cons, IH; done. }
  assert (Hcc : count_sets (strip_set <$> sets c) = count_sets (sets c)).
  { clear. induction (sets c) as [|[rs|] a IH]; [done|..]; rewrite fmap_cons, !count_sets_cons, IH; done. }
  split; [|split; [done|split]].
  - unfold shape, strip, is_neg in *. cbn. destruct (body c) as [|rrmu rrext]; [done|]. cbn. split; [done|].
    destruct Hs as [Hm He]. rewrite length_fmap. split; [done|]. intros e Hex. destruct rrext as [e'|]; [|done].
    cbn in Hex. injection Hex as <-. rewrite length_fmap. by apply He.
  - unfold cent_size. rewrite sets_strip, Hss.
    assert (ext_size (strip c) = ext_size c) as ->; [|done].
    unfold ext_size, strip. cbn. by destruct (body c) as [|? [?|]].
  - by rewrite sets_strip, Hcc.
Qed.
End FreeCopy.

Section CopyTheorems.
Context {P : Platform}.

Lemma tst_u16 x m : (0 <= m < 2 ^ 16)%Z -> tst (u16 x) m = tst x m.
Proof.
  intros Hm. unfold tst, u16. rewrite <- (Z.land_ones x 16) by lia.
  rewrite <- Z.land_assoc, (Z.land_comm (Z.ones 16) m), Z.land_ones by lia. by rewrite (Z.mod_small m).
Qed.

Lemma runs_init_cent (N : list (list Z)) (r : list Z) (ttl ts fl : Z) (s : cache) :
  wf_name N ->
  runs (init_cent (enc_name N ++ r) ttl ts fl) s (fun res s' => mem_only s s' /\ (plenty s -> is_Some res /\ plenty s') /\
    forall c, res = Some c -> cent_ok c /\ qname c = enc_name N /\ flags c = u16 fl /\
      cent_lents c = [] /\ (forall i, slot c i = None) /\
      (is_neg c = true -> body c = Neg None ttl ts) /\ is_neg c = tst fl DF_NEGATIVE).
Proof.
  intros HN. unfold init_cent. run_lift; [apply rhnlen_enc, HN|]. run_with runs_alloc. intros b s1 [Hm Hp].
  destruct b; [|apply runs_ret; splits; [done|by intros [? _]%Hp|done]].
  assert (Hp1 : plenty s -> plenty s1) by (intros H; by apply Hp).
  pose proof (rd_bytes_app [] (enc_name N) r) as Hrd. run_lift; [exact Hrd|]. apply runs_ret.
  splits; [done|by intros H; split; [eexists|apply Hp1]|]. intros c [= <-]. unfold is_neg, cent_lents. cbn.
  assert (Ht : tst (u16 fl) DF_NEGATIVE = tst fl DF_NEGATIVE) by (apply tst_u16; unfold DF_NEGATIVE; lia).
  destruct (tst fl DF_NEGATIVE) eqn:E; cbn.
  - splits; try done. split; [by split|split; [by exists N|split; [|done]]].
    unfold cent_size, ext_size. cbn. lia.
  - splits; try done.
    + split; [by split; [|split]|split; [by exists N|split; [|done]]].
      unfold cent_size, ext_size. cbn. lia.
    + intros i. unfold slot, sets. cbn [body]. apply (slot_app_nones [] NRRMU).
Qed.

(** [init_cent] makes a well-formed entry for the name, without record sets and
    with the size and flags it should have; it fails only for lack of memory. *)
Theorem init_cent_correct (N : list (list Z)) (r : list Z) (ttl ts fl : Z) (s : cache) :
  wf_name N ->
  runs (init_cent (enc_name N ++ r) ttl ts fl) s (fun res s' => mem_only s s' /\ (plenty s -> is_Some res) /\
    forall c, res = Some c -> cent_ok c /\ qname c = enc_name N /\ flags c = u16 fl /\
      cent_lents c = [] /\ (forall i, slot c i = None) /\
      (is_neg c = true -> body c = Neg None ttl ts) /\ is_neg c = tst fl DF_NEGATIVE).
Proof.
  intros HN. eapply runs_weaken; [by apply runs_init_cent|]. cbn beta. intros res s' (Hm & Hp & H). splits; [done|by intros [? _]%Hp|done].
Qed.

(** [copy_cent] makes an independent copy: all sets, records, flags and sizes are
    those of the original, and no set of the copy is in the list of record sets.
    It fails only for lack of memory and changes nothing else. *)
Theorem copy_cent_correct (c : dns_cent) (s : cache) :
  cent_ok c ->
  runs (copy_cent c) s (fun r s' => mem_only s s' /\ (plenty s -> is_Some r) /\
    forall x, r = Some x -> x = strip c /\ cent_ok x /\ cent_lents x = [] /\
      forall i, rrs_at x i = rrs_at c i /\ (rs_ttl <$> slot x i) = (rs_ttl <$> slot c i)).
Proof.
  intros Hok. eapply runs_weaken; [by apply runs_copy_cent|]. cbn beta. intros r s' (Hm & Hp & Hr).
  splits; [done|by intros [? _]%Hp|]. intros x ->. rewrite (Hr x eq_refl).
  splits; [done|by apply strip_ok|apply cent_lents_strip|]. intros i. unfold rrs_at. rewrite slot_strip.
  by destruct (slot c i).
Qed.
End CopyTheorems.

Lemma init_cent_correct_witness :
  runs (@init_cent LP64 (enc_name [[97]]%Z ++ [0]%Z) 0 0 0) fresh_cache (fun res _ =>
    res = Some sample_cent).
Proof.
  destruct (@init_cent_correct LP64 [[97]]%Z [0]%Z 0 0 0 fresh_cache) as (res & s' & Hrun & _ & Hp & Hr).
  - split; [repeat constructor; simpl; lia|vm_compute; lia].
  - exists res, s'. split; [exact Hrun|]. vm_compute in Hrun. by injection Hrun as <- _.
Defined.

Lemma copy_cent_correct_witness :
  runs (copy_cent sample_cent) fresh_cache (fun r _ => r = Some sample_cent).
Proof.
  destruct (@copy_cent_correct LP64 sample_cent fresh_cache sample_cent_ok) as (r & s' & Hrun & _ & Hp & Hr).
  exists r, s'. split; [exact Hrun|]. destruct (Hp ltac:(constructor)) as [x ->]. f_equal.
  destruct (Hr x eq_refl) as [-> _]. reflexivity.
Defined.
