(* ===== verification/Cache.v ===== *)
(** The cache: the functions of [pdnsd/src/cache.c] that work on the hash table, the
    list of record sets and the entries together.

    The clock is read once per operation ([now]).  Locking is not
    modelled: an operation runs while its lock is held. *)
From S2P Require Import Prelude Names DnsName RrTypes HashTab RrList Cent.

(** Where an entry in the cache stores its name, for the hash table. *)
Definition qname_at (s : cache) (id : positive) : option (list Z) := qname <$> cents s !! id.

Definition deref (id : positive) : M dns_cent := s ← getM; liftM (cents s !! id).
Definition store (id : positive) (c : dns_cent) : M unit :=
  modM (fun s => with_cents (<[id := c]> (cents s)) s).

Definition add_size (n : Z) : M unit := modM (fun s => with_cache_size (cache_size s + n) s).

Definition CACHE_LAT : Z := 120.
Definition clat_adj (ttl : Z) : Z := if (ttl <? CACHE_LAT)%Z then CACHE_LAT else ttl.
Definition timedout (now : Z) (rs : rr_set) : bool := (rs_ts rs + clat_adj (rs_ttl rs) <? now)%Z.
Definition timedout_nxdom (now : Z) (c : dns_cent) : option bool :=
  match body c with
  | Neg _ ttl ts => Some (ts + clat_adj ttl <? now)%Z
  | Rr _ _ => None
  end.

(** The settings of [global] that the cache uses. *)
Record globals := { g_min_ttl : Z; g_max_ttl : Z; g_neg_ttl : Z; g_perm_cache : Z }.
Definition MCSZ : Z := 10240.

(** [get_rrlent_ts]. *)
Definition rrlent_ts (s : cache) (v : lent_val) : option Z :=
  c ← cents s !! lv_cent v;
  match lv_idx v with
  | Some i => r ← rrarr_index c i; rs ← r; Some (rs_ts rs)
  | None => match body c with Neg _ _ ts => Some ts | Rr _ _ => None end
  end.

(** [insert_rrl(rrs, cent, idx)]; [rrs] is the set of that index, or NULL for -1. *)
Definition insert_rrl (id : positive) (idx : option nat) : M bool :=
  c ← deref id;
  rrs ← match idx with
        | Some i => r ← liftM (rrarr_index c i); rs ← liftM r; mret (Some rs)
        | None => mret None
        end;
  if (match rrs with Some rs => tst (rs_flags rs) CF_LOCAL | None => false end) || tst (flags c) DF_LOCAL
  then mret true
  else
    ok ← malloc;
    if (ok : bool) then
      s ← getM;
      let ne := next_lent s in
      let v := {| lv_cent := id; lv_idx := idx |} in
      l ← (if insert_sort s then liftM (rrl_insert (rrlent_ts s) (ne, v) (rrl s))
           else mret (rrl_append (ne, v) (rrl s)));
      _ ← modM (fun s => with_next_lent (Pos.succ ne) (with_rrl l s));
      c ← liftM match idx, rrs with
                | Some i, Some rs => rrarr_set c i (Some (rs_set_lent (Some ne) rs))
                | _, _ =>
                    match body c with
                    | Neg _ ttl ts => Some (set_body (Neg (Some ne) ttl ts) c)
                    | Rr _ _ => None
                    end
                end;
      _ ← store id c;
      mret true
    else mret false.

Section CacheOps.
Context {P : Platform} (now : Z) (global : globals).

(** ** Deleting entries *)

Definition del_cent (id : positive) : M unit :=
  c ← deref id;
  _ ← add_size (- cs c);
  _ ← free_cent c;
  modM (fun s => with_ent_num (ent_num s - 1) (with_cents (delete id (cents s)) s)).

(** [del_cache_ent]; a mismatch between the hash table and [cent] is only logged. *)
Definition del_cache_ent (id : positive) (loc : option dns_hash_loc) : M unit :=
  c ← deref id;
  s ← getM;
  tab ← match loc with
        | Some loc => '(_, tab) ← liftM (del_dns_hash_ent (buckets s) loc); mret tab
        | None => '(_, tab) ← liftM (del_dns_hash (qname_at s) (buckets s) (qname c)); mret tab
        end;
  _ ← modM (with_buckets tab);
  del_cent id.

Definition del_cache (name : list Z) : M unit :=
  s ← getM;
  '(found, tab) ← liftM (del_dns_hash (qname_at s) (buckets s) name);
  match found with
  | Some id => _ ← modM (with_buckets tab); del_cent id
  | None => mret tt
  end.

(** ** Purging *)

Definition must_go (rs : rr_set) : bool :=
  negb (tst (rs_flags rs) CF_NOPURGE || tst (rs_flags rs) CF_LOCAL) && timedout now rs.

(** [cache_size -= del_cent_rrset_by_index(cent, i)] for an entry in the cache. *)
Definition drop_set (id : positive) (i : nat) : M unit :=
  c ← deref id;
  '(rv, c) ← del_cent_rrset_by_index c i;
  _ ← store id c;
  add_size (- rv).

Definition purge_rrset (id : positive) (idx : nat) (test : bool) : M bool :=
  c ← deref id;
  r ← liftM (rrarr_index_testext c idx);
  match r with
  | Some rs =>
      if must_go rs then
        _ ← (if test then mret tt else drop_set id idx);
        mret true
      else mret false
  | None => mret false
  end.

(** The loop of [purge_all_rrsets]: [rv], [numrrs] and [numrrext]. *)
Definition purge_step (id : positive) (test : bool) (acc : Z * Z * Z) (i : nat) : M (Z * Z * Z) :=
  let '(rv, numrrs, numrrext) := acc in
  c ← deref id;
  r ← liftM (rrarr_index c i);
  match r with
  | Some rs =>
      if must_go rs then
        _ ← (if test then mret tt else drop_set id i);
        mret (rv + 1, numrrs, numrrext)%Z
      else mret (rv, (numrrs + 1)%Z, if (NRRMU <=? i) then (numrrext + 1)%Z else numrrext)
  | None => mret acc
  end.

Definition purge_all_rrsets (id : positive) (test : bool) : M (Z * Z) :=
  c ← deref id;
  if negb (tst (flags c) DF_NEGATIVE) then
    ilim ← liftM (rrarr_len c);
    '(rv, numrrs, numrrext) ← foldM (purge_step id test) (seq 0 ilim) (0, 0, 0)%Z;
    c ← deref id;
    match body c with
    | Neg _ _ _ => liftM None
    | Rr rrmu (Some _) =>
        if (numrrext =? 0)%Z then
          _ ← (if test then mret tt
               else _ ← store id (set_cs (cs c - rrext_size) (set_body (Rr rrmu None) c));
                    add_size (- rrext_size));
          mret (rv + 1, numrrs)%Z
        else mret (rv, numrrs)
    | Rr _ None => mret (rv, numrrs)
    end
  else mret (0, 0)%Z.

Definition hash_lookup (key : list Z) : M (option positive * dns_hash_loc) :=
  s ← getM; liftM (dns_lookup (qname_at s) (buckets s) key).

(** Whether the reference [cn] to an NS or SOA set ([ri] is its index) is stale. *)
Definition stale_ref (c : dns_cent) (scnt : nat) (cn : Z) (ri : nat) : M bool :=
  rrset ← (if (cn =? Z.of_nat scnt)%Z then liftM (get_rrsmu c ri)
           else if (cn <? Z.of_nat scnt)%Z then
             nm ← liftM (skipsegs (qname c) (scnt - Z.to_nat cn));
             '(ce, _) ← hash_lookup nm;
             match ce with
             | Some id' => c' ← deref id'; liftM (get_rrsmu c' ri)
             | None => mret None
             end
           else mret None);
  mret match rrset with
       | None => true
       | Some rs =>
           match rs_rrs rs with
           | [] => true
           | _ => negb (tst (rs_flags rs) CF_LOCAL) && timedout now rs
           end
       end.

(** [purge_cent]: -1 when the entry was (or would have been) removed, otherwise
    the number of items that were (or would have been) deleted. *)
Definition purge_cent (id : positive) (delete test : bool) : M Z :=
  '(npurge, numrrs) ← purge_all_rrsets id test;
  c ← deref id;
  gone ← (if delete && (numrrs =? 0)%Z then
            if negb (tst (flags c) DF_NEGATIVE) then mret true
            else if negb (tst (flags c) DF_LOCAL) then liftM (timedout_nxdom now c)
            else mret false
          else mret false);
  if (gone : bool) then
    _ ← (if test then mret tt else del_cache_ent id None);
    mret (-1)%Z
  else if negb (tst (flags c) DF_LOCAL) then
    scnt ← liftM (rhnsegcnt (qname c));
    npurge ← (if negb (c_ns c =? cundef)%Z then
                st ← stale_ref c scnt (c_ns c) RRMUINDEX_NS;
                if (st : bool) then
                  _ ← (if test then mret tt else c ← deref id; store id (set_c_ns cundef c));
                  mret (npurge + 1)%Z
                else mret npurge
              else mret npurge);
    c ← deref id;
    (if negb (c_soa c =? cundef)%Z then
       st ← stale_ref c scnt (c_soa c) RRMUINDEX_SOA;
       if (st : bool) then
         _ ← (if test then mret tt else c ← deref id; store id (set_c_soa cundef c));
         mret (npurge + 1)%Z
       else mret npurge
     else mret npurge)
  else mret npurge.

(** [le->next] and the payload of a node of the list. *)
Fixpoint lent_next (l : list (positive * lent_val)) (le : positive) : option (lent_val * option positive) :=
  match l with
  | [] => None
  | (p, v) :: l' => if (p =? le)%positive then Some (v, fst <$> head l') else lent_next l' le
  end.

(** Whether a node belongs to a local set or entry. *)
Definition lent_local (v : lent_val) : M bool :=
  c ← deref (lv_cent v);
  loc ← match lv_idx v with
        | Some i => r ← liftM (rrarr_index c i); rs ← liftM r; mret (tst (rs_flags rs) CF_LOCAL)
        | None => mret false
        end;
  mret (loc || tst (flags c) DF_LOCAL).

(** The body of the first loop of [purge_cache]: delete what has timed out. *)
Definition purge_lent_timedout (v : lent_val) : M unit :=
  loc ← lent_local v;
  if negb loc then
    let id := lv_cent v in
    _ ← match lv_idx v with
        | Some i => _ ← purge_rrset id i false; mret tt
        | None => mret tt
        end;
    c ← deref id;
    gone ← (if (num_rrs c =? 0)%Z then
              if negb (tst (flags c) DF_NEGATIVE) then mret true
              else if negb (tst (flags c) DF_LOCAL) then liftM (timedout_nxdom now c)
              else mret false
            else mret false);
    if (gone : bool) then del_cache_ent id None else mret tt
  else mret tt.

Fixpoint purge_timedout (fuel : nat) (sz : Z) (lazy : bool) (le : option positive) : M unit :=
  match fuel with
  | O => liftM None
  | S f =>
      s ← getM;
      match le with
      | Some p =>
          if negb lazy || (sz <? cache_size s)%Z then
            '(v, next) ← liftM (lent_next (rrl s) p);
            _ ← purge_lent_timedout v;
            purge_timedout f sz lazy next
          else mret tt
      | None => mret tt
      end
  end.

(** The body of the second loop: delete the oldest. *)
Definition purge_lent_oldest (v : lent_val) : M unit :=
  loc ← lent_local v;
  if negb loc then
    let id := lv_cent v in
    _ ← match lv_idx v with Some i => drop_set id i | None => mret tt end;
    c ← deref id;
    if (num_rrs c =? 0)%Z then del_cache_ent id None else mret tt
  else mret tt.

Fixpoint purge_oldest (fuel : nat) (sz : Z) (le : option positive) : M unit :=
  match fuel with
  | O => liftM None
  | S f =>
      s ← getM;
      match le with
      | Some p =>
          if (sz <? cache_size s)%Z then
            '(v, next) ← liftM (lent_next (rrl s) p);
            _ ← purge_lent_oldest v;
            purge_oldest f sz next
          else mret tt
      | None => mret tt
      end
  end.

Definition purge_cache (sz : Z) (lazy : bool) : M unit :=
  s ← getM;
  _ ← purge_timedout (S (length (rrl s))) sz lazy (fst <$> head (rrl s));
  s ← getM;
  if (cache_size s <=? sz)%Z then mret tt
  else
    _ ← (if insert_sort s then mret tt
         else l ← liftM (sort_rrl (rrlent_ts s) (rrl s));
              modM (fun s => with_insert_sort true (with_rrl l s)));
    s ← getM;
    purge_oldest (S (length (rrl s))) sz (fst <$> head (rrl s)).

(** ** Adding entries *)

(** The first loop of [cr_check_add]: the number of conflicting sets and the sum
    of the times they have left; [Some None] when one of them is local. *)
Fixpoint conflict_scan (c : dns_cent) (idx : nat) (ixs : list nat) (ncf nttl : Z) : option (option (Z * Z)) :=
  match ixs with
  | [] => Some (Some (ncf, nttl))
  | i :: ixs' =>
      r ← rrarr_index c i;
      match r with
      | Some rs =>
          if negb (tst (rs_flags rs) CF_NEGATIVE) && rr_conflict idx i then
            if tst (rs_flags rs) CF_LOCAL then Some None
            else
              let rttl := (rs_ttl rs + rs_ts rs - now)%Z in
              conflict_scan c idx ixs' (ncf + 1)%Z (if (0 <? rttl)%Z then nttl + rttl else nttl)%Z
          else conflict_scan c idx ixs' ncf nttl
      | None => conflict_scan c idx ixs' ncf nttl
      end
  end.

(** The second loop: delete the conflicting sets. *)
Definition conflict_del (idx : nat) (c : dns_cent) (i : nat) : M dns_cent :=
  r ← liftM (rrarr_index c i);
  match r with
  | Some rs =>
      if negb (tst (rs_flags rs) CF_NEGATIVE) && rr_conflict idx i
      then '(_, c) ← del_cent_rrset_by_index c i; mret c
      else mret c
  | None => mret c
  end.

Definition cr_check_add (c : dns_cent) (idx : nat) (ttl ts fl : Z) : M (bool * dns_cent) :=
  if tst fl CF_NEGATIVE then mret (true, c)
  else
    ilim ← liftM (rrarr_len c);
    (* [inl] an early return, [inr] the mean time left *)
    r ← (if negb (tst fl CF_LOCAL) then
           if tst (flags c) DF_LOCAL then mret (inl false)
           else
             sc ← liftM (conflict_scan c idx (seq 0 ilim) 0 0);
             mret match sc with
                  | None => inl false
                  | Some (ncf, nttl) => if (ncf =? 0)%Z then inl true else inr (Z.quot nttl ncf)
                  end
         else mret (inr 0%Z));
    match r with
    | inl b => mret (b, c)
    | inr nttl =>
        if tst fl CF_LOCAL || (nttl <? ttl)%Z then
          c ← foldM (conflict_del idx) (seq 0 ilim) c;
          mret (true, c)
        else mret (false, c)
    end.

Definition adjust_ttl (rs : rr_set) : rr_set :=
  if tst (rs_flags rs) CF_NOCACHE then rs_set_ttl 0 (rs_set_flags (Z.ldiff (rs_flags rs) CF_NOCACHE) rs)
  else
    let min_ttl := if tst (rs_flags rs) CF_NEGATIVE && (g_neg_ttl global <? g_min_ttl global)%Z
                   then g_neg_ttl global else g_min_ttl global in
    if (rs_ttl rs <? min_ttl)%Z then rs_set_ttl min_ttl rs
    else if (g_max_ttl global <? rs_ttl rs)%Z then rs_set_ttl (g_max_ttl global) rs
    else rs.

Definition adjust_dom_ttl (c : dns_cent) : option dns_cent :=
  match body c with
  | Rr _ _ => None
  | Neg lent ttl ts =>
      if tst (flags c) DF_NOCACHE
      then Some (set_body (Neg lent 0 ts) (set_flags (Z.ldiff (flags c) DF_NOCACHE) c))
      else
        let min_ttl := if (g_neg_ttl global <? g_min_ttl global)%Z then g_neg_ttl global else g_min_ttl global in
        if (ttl <? min_ttl)%Z then Some (set_body (Neg lent min_ttl ts) c)
        else if (g_max_ttl global <? ttl)%Z then Some (set_body (Neg lent (g_max_ttl global) ts) c)
        else Some c
  end.

(** [adjust_ttl(rrset)] and [insert_rrl(rrset,ce,i)] for the set of index [i]. *)
Definition enter_set (id : positive) (i : nat) : M bool :=
  c ← deref id;
  r ← liftM (rrarr_index c i);
  match r with
  | Some rs =>
      c ← liftM (rrarr_set c i (Some (adjust_ttl rs)));
      _ ← store id c;
      insert_rrl id (Some i)
  | None => mret true
  end.

(** The loop over the sets of a new entry, which ends when memory does. *)
Fixpoint enter_sets (id : positive) (ixs : list nat) : M bool :=
  match ixs with
  | [] => mret true
  | i :: ixs' => ok ← enter_set id i; if (ok : bool) then enter_sets id ixs' else mret false
  end.

(** The address of a copy that is to enter the cache. *)
Definition new_cent (c : dns_cent) : M positive :=
  s ← getM;
  let id := next_cent s in
  _ ← modM (fun s => with_next_cent (Pos.succ id) (with_cents (<[id := c]> (cents s)) s));
  mret id.

(** The part of [add_cache] for a name that is not in the cache; the result tells
    whether the entry was added. *)
Definition add_new (cent : dns_cent) (loc : dns_hash_loc) : M bool :=
  r ← copy_cent cent;
  match r with
  | None => mret false
  | Some ce =>
      id ← new_cent ce;
      ok ← (if negb (tst (flags ce) DF_NEGATIVE) then
              ilim ← liftM (rrarr_len ce);
              enter_sets id (seq 0 ilim)
            else
              ce ← liftM (adjust_dom_ttl ce);
              _ ← store id ce;
              insert_rrl id None);
      ok ← (if (ok : bool) then
              a ← malloc;
              s ← getM;
              '(ok, tab) ← liftM (add_dns_hash a (buckets s) id loc);
              _ ← modM (with_buckets tab);
              mret (ok : bool)
            else mret false);
      ce ← deref id;
      if (ok : bool) then
        _ ← modM (fun s => with_ent_num (ent_num s + 1) s);
        _ ← add_size (cs ce);
        mret true
      else
        _ ← free_cent ce;
        _ ← modM (fun s => with_cents (delete id (cents s)) s);
        mret false
  end.

(** Whether a new set must not replace the cached one. *)
Definition keep_old (centrrs cerrs : rr_set) : bool :=
  (negb (tst (rs_flags centrrs) CF_LOCAL) && tst (rs_flags cerrs) CF_LOCAL) ||
  (tst (rs_flags centrrs) CF_ADDITIONAL &&
   (negb (tst (rs_flags cerrs) CF_ADDITIONAL) ||
    (negb (tst (rs_flags centrrs) CF_ROOTSERV) && tst (rs_flags cerrs) CF_ROOTSERV)) &&
   negb (timedout now cerrs)).

(** The records of a new set; [rtail] is threaded through. *)
Fixpoint add_rrs (c : dns_cent) (i : nat) (rs : rr_set) (rrs : list (list Z)) (rtail : option nat)
    : M (bool * dns_cent) :=
  match rrs with
  | [] => mret (true, c)
  | rr :: rrs' =>
      '(ok, c, rtail) ← add_cent_rr_int c i (rs_ttl rs) (rs_ts rs) (rs_flags rs) rr rtail;
      if (ok : bool) then add_rrs c i rs rrs' rtail else mret (false, c)
  end.

(** The addition of a set to the entry at [id] (whose contents, not yet stored, are
    [c]) in the loop of [add_cache]; false stands for the jumps to the cleanup code,
    which deletes the set again when it is there. *)
Definition fill_set (centrrs : rr_set) (id : positive) (c : dns_cent) (i : nat) : M bool :=
  '(ok, c) ← add_cent_rrset_by_index c i (rs_ttl centrrs) (rs_ts centrrs) (rs_flags centrrs);
  if negb ok then _ ← store id c; mret false
  else
    '(ok, c) ← add_rrs c i centrrs (rs_rrs centrrs) None;
    _ ← store id c;
    ok ← (if (ok : bool) then enter_set id i else mret false);
    if (ok : bool) then mret true
    else
      c ← deref id;
      '(_, c) ← del_cent_rrset_by_index c i;
      _ ← store id c;
      mret false.

(** The body of the loop of [add_cache] over the sets of the new entry, for an entry
    that is in the cache. *)
Definition replace_set (cent : dns_cent) (id : positive) (i : nat) : M bool :=
  r ← liftM (rrarr_index cent i);
  match r with
  | None => mret true
  | Some centrrs =>
      c ← deref id;
      r ← liftM (rrarr_index_testext c i);
      if (match r with Some cerrs => keep_old centrrs cerrs | None => false end) then mret true
      else
        '(_, c) ← del_cent_rrset_by_index c i;
        '(add, c) ← cr_check_add c i (rs_ttl centrrs) (rs_ts centrrs) (rs_flags centrrs);
        if negb add then _ ← store id c; mret true
        else fill_set centrrs id c i
  end.

Fixpoint replace_sets (cent : dns_cent) (id : positive) (ixs : list nat) : M bool :=
  match ixs with
  | [] => mret true
  | i :: ixs' => ok ← replace_set cent id i; if (ok : bool) then replace_sets cent id ixs' else mret false
  end.

(** The part of [add_cache] for a name that is in the cache. *)
Definition add_existing (cent : dns_cent) (id : positive) : M bool :=
  _ ← purge_cent id false false;
  c ← deref id;
  _ ← add_size (- cs c);
  ilim ← liftM (rrarr_len cent);
  ok ← replace_sets cent id (seq 0 ilim);
  if (ok : bool) then
    c ← deref id;
    let c := set_flags (Z.lor (flags c) (Z.land (flags cent) (Z.lor DF_AUTH DF_WILD))) c in
    let c := if negb (c_ns cent =? cundef)%Z && ((c_ns c =? cundef)%Z || (c_ns c <? c_ns cent)%Z)
             then set_c_ns (c_ns cent) c else c in
    let c := if negb (c_soa cent =? cundef)%Z && ((c_soa c =? cundef)%Z || (c_soa c <? c_soa cent)%Z)
             then set_c_soa (c_soa cent) c else c in
    _ ← store id c;
    _ ← add_size (cs c);
    mret true
  else
    c ← deref id;
    _ ← add_size (cs c);
    mret false.

(** Whether an entry has a local set. *)
Fixpoint has_local (c : dns_cent) (ixs : list nat) : option bool :=
  match ixs with
  | [] => Some false
  | i :: ixs' =>
      r ← rrarr_index c i;
      match r with
      | Some rs => if tst (rs_flags rs) CF_LOCAL then Some true else has_local c ixs'
      | None => has_local c ixs'
      end
  end.

Definition cache_limit : Z := (g_perm_cache global * 1024 + MCSZ)%Z.

(** The part of [add_cache] for a name that is not in the cache, with its end. *)
Definition add_absent (cent : dns_cent) (loc : dns_hash_loc) : M unit :=
  if (num_rrs cent =? 0)%Z && negb (tst (flags cent) DF_NEGATIVE)
  then purge_cache cache_limit true
  else ok ← add_new cent loc; if (ok : bool) then purge_cache cache_limit true else mret tt.

(** [add_cache]; [fuel] bounds the number of jumps to [retry]. *)
Fixpoint add_cache_retry (fuel : nat) (cent : dns_cent) : M unit :=
  match fuel with
  | O => liftM None
  | S f =>
      '(ce, loc) ← hash_lookup (qname cent);
      match ce with
      | None => add_absent cent loc
      | Some id =>
          if tst (flags cent) DF_NEGATIVE then
            c ← deref id;
            ilim ← liftM (rrarr_len c);
            local ← liftM (has_local c (seq 0 ilim));
            if (local : bool) then mret tt
            else _ ← del_cache_ent id (Some loc); add_cache_retry f cent
          else
            ok ← add_existing cent id;
            if (ok : bool) then purge_cache cache_limit true else mret tt
      end
  end.
Definition add_cache (cent : dns_cent) : M unit := add_cache_retry 2 cent.

(** ** Other operations *)

Definition invalidate_set (rs : rr_set) : rr_set :=
  rs_set_flags (Z.ldiff (rs_flags rs) CF_AUTH) (rs_set_ts 0 rs).

Definition invalidate_step (c : dns_cent) (i : nat) : M dns_cent :=
  r ← liftM (rrarr_index c i);
  match r with
  | Some rs => liftM (rrarr_set c i (Some (invalidate_set rs)))
  | None => mret c
  end.

Definition invalidate_record (name : list Z) : M unit :=
  '(ce, _) ← hash_lookup name;
  match ce with
  | None => mret tt
  | Some id =>
      c ← deref id;
      c ← (if negb (tst (flags c) DF_NEGATIVE) then
             ilim ← liftM (rrarr_len c);
             foldM invalidate_step (seq 0 ilim) c
           else
             match body c with
             | Neg lent ttl _ => mret (set_body (Neg lent ttl 0) c)
             | Rr _ _ => liftM None
             end);
      store id (set_flags (Z.ldiff (flags c) DF_AUTH) c)
  end.

Definition set_cent_flags (name : list Z) (fl : Z) : M bool :=
  '(ce, _) ← hash_lookup name;
  match ce with
  | None => mret false
  | Some id => c ← deref id; _ ← store id (set_flags (u16 (Z.lor (flags c) fl)) c); mret true
  end.

(** [getlocalowner]: the result is the suffix of the name, or NULL. *)
Fixpoint localowner_loop (fuel : nat) (nm : list Z) (tp : Z) : M (option (list Z)) :=
  match fuel with
  | O => liftM None
  | S f =>
      lb ← liftM (rd nm 0);
      nm ← liftM (adv nm (Z.to_nat lb + 1));
      lb ← liftM (rd nm 0);
      if (lb =? 0)%Z then mret None
      else
        '(ce, _) ← hash_lookup nm;
        match ce with
        | None => localowner_loop f nm tp
        | Some id =>
            c ← deref id;
            if negb (tst (flags c) DF_LOCAL) then mret None
            else have ← liftM (have_rr c tp);
                 if (have : bool) then mret (Some nm) else localowner_loop f nm tp
        end
  end.
Definition getlocalowner (name : list Z) (tp : Z) : M (option (list Z)) :=
  lb ← liftM (rd name 0);
  if (lb =? 0)%Z then mret None else localowner_loop (S (length name)) name tp.

Definition w_wild : Z := 1.
Definition w_neg : Z := 2.
Definition w_locnerr : Z := 3.

(** The search up the name hierarchy in [lookup_cache]. *)
Fixpoint wild_loop (fuel : nat) (nm : list Z) : M (option positive * Z) :=
  match fuel with
  | O => liftM None
  | S f =>
      lb ← liftM (rd nm 0);
      nm ← liftM (adv nm (Z.to_nat lb + 1));
      lb ← liftM (rd nm 0);
      if (lb =? 0)%Z then mret (None, 0%Z)
      else
        '(ce, _) ← hash_lookup nm;
        match ce with
        | None => wild_loop f nm
        | Some id =>
            c ← deref id;
            if tst (flags c) DF_NEGATIVE then mret (Some id, w_neg)
            else if tst (flags c) DF_WILD then
              '(_, buf) ← liftM (rhncpy (replicate (DNSNAMEBUFSIZE - 2) 0%Z) nm);
              '(ret, _) ← hash_lookup (1 :: 42 :: buf)%Z;
              mret (ret, match ret with Some _ => w_wild | None => 0%Z end)
            else if tst (flags c) DF_LOCAL then mret (Some id, w_locnerr)
            else mret (None, 0%Z)
        end
  end.

(** The entry [lookup_cache] finds, and the value it stores through [wild]. *)
Definition find_entry (name : list Z) (wild : bool) : M (option positive * Z) :=
  '(ret, _) ← hash_lookup name;
  match ret with
  | Some id => mret (Some id, 0%Z)
  | None =>
      if wild then
        lb ← liftM (rd name 0);
        if (lb =? 0)%Z then mret (None, 0%Z) else wild_loop (S (length name)) name
      else mret (None, 0%Z)
  end.

(** [lookup_cache]: first with a test only, then, if something has to be deleted,
    again with the deletion. *)
Definition lookup_cache (name : list Z) (wild : bool) : M (option dns_cent * Z) :=
  '(ret, w) ← find_entry name wild;
  '(purge, copy) ← match ret with
                   | Some id =>
                       purge ← purge_cent id true true;
                       if (purge =? 0)%Z then c ← deref id; cp ← copy_cent c; mret (false, cp)
                       else mret (true, None)
                   | None => mret (false, None)
                   end;
  if (purge : bool) then
    '(ret, w) ← find_entry name wild;
    match ret with
    | Some id =>
        n ← purge_cent id true false;
        if (n <? 0)%Z then mret (None, w)
        else c ← deref id; cp ← copy_cent c; mret (cp, w)
    | None => mret (None, w)
    end
  else mret (copy, w).

Definition lookup_cache_local_rrset (name : list Z) (type : Z) : M (option rr_set) :=
  '(ce, _) ← hash_lookup name;
  match ce with
  | None => mret None
  | Some id =>
      c ← deref id;
      r ← liftM (getrrset c type);
      match r with
      | Some rs => if tst (rs_flags rs) CF_LOCAL then copy_rrset rs else mret None
      | None => mret None
      end
  end.

(** [free_dns_hash_bucket] and [free_dns_hash] of hash.c, which delete entries. *)
Definition free_dns_hash_bucket (i : nat) : M unit :=
  s ← getM;
  chain ← liftM (buckets s !! i);
  _ ← modM (with_buckets (<[i := []]> (buckets s)));
  foldM (fun _ he => del_cent (hdata he)) chain tt.

Definition free_dns_hash : M unit :=
  foldM (fun _ i => free_dns_hash_bucket i) (seq 0 HASH_NUM_BUCKETS) tt.

(** An element of an include/exclude list ([slist_t] of conff.h); [rule] tells whether
    it is [C_INCLUDED]. *)
Record slist := { sl_domain : list Z; sl_exact : bool; sl_included : bool }.

(** The loop of [free_dns_hash_selected] over the list for one name: whether the
    entry is to be deleted. *)
Fixpoint selected (name : list Z) (sla : list slist) : option bool :=
  match sla with
  | [] => Some false
  | sl :: sla' =>
      '(_, nrem, lrem) ← domain_match name (sl_domain sl);
      if (lrem =? 0) && (negb (sl_exact sl) || (nrem =? 0)) then Some (sl_included sl)
      else selected name sla'
  end.

(** The loop over a bucket; [hep] is the address of the link behind [kept]. *)
Fixpoint free_selected (i : nat) (sla : list slist) (kept rest : list (dns_hash_ent positive)) : M unit :=
  match rest with
  | [] => mret tt
  | he :: rest' =>
      c ← deref (hdata he);
      del ← liftM (selected (qname c) sla);
      if (del : bool) then
        _ ← modM (fun s => with_buckets (<[i := kept ++ rest']> (buckets s)) s);
        _ ← del_cent (hdata he);
        free_selected i sla kept rest'
      else free_selected i sla (kept ++ [he]) rest'
  end.
Definition free_dns_hash_selected (i : nat) (sla : list slist) : M unit :=
  s ← getM;
  chain ← liftM (buckets s !! i);
  free_selected i sla [] chain.

(** [empty_cache] after it has got its lock; the lock is given up between two buckets
    to let other threads run. *)
Definition empty_cache (sla : option (list slist)) : M unit :=
  foldM (fun _ i => match sla with
                    | Some sla => free_dns_hash_selected i sla
                    | None => free_dns_hash_bucket i
                    end) (seq 0 HASH_NUM_BUCKETS) tt.

(** [destroy_cache] after it has got its lock. *)
Definition destroy_cache : M unit := free_dns_hash.
End CacheOps.
