(* ===== verification/CacheInv.v ===== *)
(** The invariant of the cache and its preservation by deletion and purging (the
    functions of file Cache).

    The invariant ties the four views of the cache together: the entries in
    memory, the hash table, the list of record sets, and the statistics
    [cache_size] and [ent_num]. *)
From S2P Require Import Prelude Names RrTypes HashTab RrList Cent CentSpec Cache.

(** ** The total size *)

Definition total (m : gmap positive dns_cent) : Z := map_fold (fun _ c n => cs c + n)%Z 0%Z m.

Lemma total_empty : total ∅ = 0%Z.
Proof. done. Qed.

Lemma total_delete m id c : m !! id = Some c -> total m = (cs c + total (delete id m))%Z.
Proof.
  intros H. unfold total. rewrite (map_fold_delete_L (fun _ c n => cs c + n)%Z 0%Z id c m); [done| |done].
  intros. lia.
Qed.

Lemma total_insert m id c : total (<[id := c]> m) = (cs c + total (delete id m))%Z.
Proof. by rewrite (total_delete _ id c), delete_insert_eq by apply lookup_insert_eq. Qed.

(** ** The list of record sets and the entries

    A node is in the list exactly when the set, or the negative entry, that it
    belongs to points back to it. *)
Definition linked (r : list (positive * lent_val)) (m : gmap positive dns_cent) : Prop :=
  NoDup r.*1 /\
  forall p id idx, (p, {| lv_cent := id; lv_idx := idx |}) ∈ r <->
    exists c, m !! id = Some c /\ lent_of c idx = Some p.

Lemma nodup_fst_inj {A B} (l : list (A * B)) a b b' : NoDup l.*1 -> (a, b) ∈ l -> (a, b') ∈ l -> b = b'.
Proof.
  intros Hnd Hb Hb'. apply list_elem_of_lookup in Hb as [i Hi], Hb' as [j Hj].
  assert (i = j).
  { apply (NoDup_lookup _ i j a Hnd); rewrite list_lookup_fmap; [rewrite Hi|rewrite Hj]; done. }
  subst j. rewrite Hi in Hj. by injection Hj.
Qed.

Lemma linked_in r m id c idx p :
  linked r m -> m !! id = Some c -> lent_of c idx = Some p -> p ∈ r.*1.
Proof.
  intros [_ H] Hc Hp. apply list_elem_of_fmap. exists (p, {| lv_cent := id; lv_idx := idx |}).
  split; [done|]. apply H. by exists c.
Qed.

Lemma linked_lent_in r m id c idx : linked r m -> m !! id = Some c -> lent_in (lent_of c idx) r.
Proof. intros Hl Hc. destruct (lent_of c idx) as [p|] eqn:E; [|done]. by eapply linked_in. Qed.

(** A node belongs to one set of one entry. *)
Lemma linked_unique r m id c idx id' c' idx' p :
  linked r m -> m !! id = Some c -> lent_of c idx = Some p -> m !! id' = Some c' -> lent_of c' idx' = Some p ->
  id = id' /\ idx = idx'.
Proof.
  intros [Hnd H] Hc Hp Hc' Hp'.
  assert (H1 : (p, {| lv_cent := id; lv_idx := idx |}) ∈ r) by (apply H; by exists c).
  assert (H2 : (p, {| lv_cent := id'; lv_idx := idx' |}) ∈ r) by (apply H; by exists c').
  pose proof (nodup_fst_inj _ _ _ _ Hnd H1 H2) as E. by injection E.
Qed.

Lemma nodup_rrl_drop ls (r : list (positive * lent_val)) : NoDup r.*1 -> NoDup (rrl_drop ls r).*1.
Proof.
  induction r as [|x r IH]; [done|]. cbn [fmap list_fmap]. intros [Hx Hnd]%NoDup_cons.
  unfold rrl_drop. destruct (decide (x.1 ∉ ls)).
  - rewrite filter_cons_True by done. cbn. constructor; [|by apply IH].
    intros Hin. apply Hx. apply list_elem_of_fmap in Hin as (y & Hy & Hin). apply list_elem_of_fmap.
    exists y. split; [done|]. by apply elem_of_rrl_drop in Hin as [? _].
  - rewrite filter_cons_False by done. by apply IH.
Qed.

(** Replacing an entry by one that has lost the nodes [ls]. *)
Lemma linked_update r m id c c' ls :
  linked r m -> m !! id = Some c ->
  (forall idx p, lent_of c' idx = Some p <-> lent_of c idx = Some p /\ p ∉ ls) ->
  (forall p, p ∈ ls -> exists idx, lent_of c idx = Some p) ->
  linked (rrl_drop ls r) (<[id := c']> m).
Proof.
  intros Hl Hc Hlo Hls. pose proof Hl as [Hnd H]. split; [by apply nodup_rrl_drop|].
  intros p id' idx. rewrite elem_of_rrl_drop, H. cbn [fst]. split.
  - intros [(c2 & Hc2 & Hp) Hn]. destruct (decide (id = id')) as [<-|Hne].
    + exists c'. rewrite lookup_insert_eq. split; [done|]. apply Hlo. rewrite Hc in Hc2. by injection Hc2 as <-.
    + exists c2. by rewrite lookup_insert_ne.
  - intros (c2 & Hc2 & Hp). destruct (decide (id = id')) as [<-|Hne].
    + rewrite lookup_insert_eq in Hc2. injection Hc2 as <-. apply Hlo in Hp as [Hp Hn]. split; [by exists c|done].
    + rewrite lookup_insert_ne in Hc2 by done. split; [by exists c2|]. intros Hin.
      destruct (Hls p Hin) as [idx2 Hp2]. apply Hne. by eapply linked_unique.
Qed.

(** The same nodes. *)
Lemma linked_same r m id c c' :
  linked r m -> m !! id = Some c -> (forall idx, lent_of c' idx = lent_of c idx) -> linked r (<[id := c']> m).
Proof.
  intros Hl Hc Hlo. rewrite <- (rrl_drop_nil r). eapply linked_update; [done|done| |].
  - intros idx p. rewrite Hlo. split; [|tauto]. intros ->. split; [done|apply not_elem_of_nil].
  - intros p []%not_elem_of_nil.
Qed.

Lemma elem_of_lents a p : p ∈ lents a <-> exists i rs, a !! i = Some (Some rs) /\ rs_lent rs = Some p.
Proof.
  unfold lents. rewrite list_elem_of_omap. split.
  - intros ([rs|] & Hin & Hp); [|done]. apply list_elem_of_lookup in Hin as [i Hi]. by exists i, rs.
  - intros (i & rs & Hi & Hp). exists (Some rs). split; [by eapply list_elem_of_lookup_2|done].
Qed.

Lemma elem_of_cent_lents c p : p ∈ cent_lents c <-> exists idx, lent_of c idx = Some p.
Proof.
  unfold cent_lents, lent_of. destruct (body c) as [l ttl ts|rrmu rrext] eqn:Hb.
  - split.
    + intros Hl. exists None. destruct l as [q|]; cbn in Hl.
      * by apply list_elem_of_singleton in Hl as ->.
      * by apply not_elem_of_nil in Hl.
    + intros [[i|] H]; [unfold slot, sets in H; by rewrite Hb in H|]. subst l. by left.
  - rewrite elem_of_lents. split.
    + intros (i & rs & Hi & Hp). exists (Some i). unfold slot. rewrite Hi. done.
    + intros [[i|] H]; [|done]. destruct (slot c i) as [rs|] eqn:Hs; [|done]. exists i, rs.
      split; [by apply slot_lookup|done].
Qed.

Lemma nodup_lents a :
  (forall i j rs rs' p, a !! i = Some (Some rs) -> a !! j = Some (Some rs') -> rs_lent rs = Some p ->
     rs_lent rs' = Some p -> i = j) -> NoDup (lents a).
Proof.
  induction a as [|[rs|] a IH]; intros Hinj; [constructor|..].
  - assert (Ha : NoDup (lents a)).
    { apply IH. intros i j r1 r2 p H1 H2 H3 H4. assert (S i = S j) by (by eapply (Hinj (S i) (S j) r1 r2 p)). lia. }
    unfold lents in *. cbn. destruct (rs_lent rs) as [p|] eqn:E; [|done]. constructor; [|done].
    intros Hin. apply elem_of_lents in Hin as (i & rs' & Hi & Hp).
    assert (0 = S i) by (by eapply (Hinj 0 (S i) rs rs' p)). lia.
  - unfold lents in *. cbn. apply IH. intros i j r1 r2 p H1 H2 H3 H4.
    assert (S i = S j) by (by eapply (Hinj (S i) (S j) r1 r2 p)). lia.
Qed.

Lemma linked_nodup r m id c : linked r m -> m !! id = Some c -> NoDup (cent_lents c).
Proof.
  intros Hl Hc. unfold cent_lents. destruct (body c) as [l ttl ts|rrmu rrext] eqn:Hb.
  - destruct l; cbn; [apply NoDup_singleton|constructor].
  - apply nodup_lents. intros i j rs rs' p Hi Hj Hp Hp'.
    assert (H1 : lent_of c (Some i) = Some p) by (cbn; unfold slot; by rewrite Hi).
    assert (H2 : lent_of c (Some j) = Some p) by (cbn; unfold slot; by rewrite Hj).
    destruct (linked_unique _ _ _ _ _ _ _ _ _ Hl Hc H1 Hc H2) as [_ E]. by injection E.
Qed.

(** Removing an entry with all its nodes. *)
Lemma linked_delete r m id c :
  linked r m -> m !! id = Some c -> linked (rrl_drop (cent_lents c) r) (delete id m).
Proof.
  intros Hl Hc. pose proof Hl as [Hnd H]. split; [by apply nodup_rrl_drop|].
  intros p id' idx. rewrite elem_of_rrl_drop, H. cbn [fst]. rewrite elem_of_cent_lents. split.
  - intros [(c2 & Hc2 & Hp) Hn]. exists c2. split; [|done]. rewrite lookup_delete_ne; [done|].
    intros <-. rewrite Hc in Hc2. injection Hc2 as <-. apply Hn. by exists idx.
  - intros (c2 & Hc2 & Hp). apply lookup_delete_Some in Hc2 as [Hne Hc2]. split; [by exists c2|].
    intros [idx2 Hp2]. apply Hne. by eapply linked_unique.
Qed.

(** A new node for a set, or a negative entry, that had none. *)
Lemma linked_add r r' m id c c' idx p :
  linked r m -> m !! id = Some c -> p ∉ r.*1 -> r' ≡ₚ (p, {| lv_cent := id; lv_idx := idx |}) :: r ->
  (forall idx', lent_of c' idx' = if decide (idx' = idx) then Some p else lent_of c idx') ->
  lent_of c idx = None -> linked r' (<[id := c']> m).
Proof.
  intros Hl Hc Hp Hr Hlo Hn. destruct Hl as [Hnd H]. split.
  { rewrite Hr. cbn. by constructor. }
  intros q id' idx'. rewrite Hr, elem_of_cons, H. split.
  - intros [E|(c2 & Hc2 & Hq)].
    + injection E as -> -> ->. exists c'. rewrite lookup_insert_eq, Hlo, decide_True by done. done.
    + destruct (decide (id = id')) as [<-|Hne].
      * exists c'. rewrite lookup_insert_eq. split; [done|]. rewrite Hc in Hc2. injection Hc2 as <-.
        rewrite Hlo, decide_False; [done|]. intros ->. congruence.
      * exists c2. by rewrite lookup_insert_ne.
  - intros (c2 & Hc2 & Hq). destruct (decide (id = id')) as [<-|Hne].
    + rewrite lookup_insert_eq in Hc2. injection Hc2 as <-. rewrite Hlo in Hq.
      destruct (decide (idx' = idx)) as [->|Hne]; [left; by injection Hq as <-|right; by exists c].
    + rewrite lookup_insert_ne in Hc2 by done. right. by exists c2.
Qed.

(** A fresh entry without nodes. *)
Lemma linked_fresh r m id c :
  linked r m -> m !! id = None -> (forall idx, lent_of c idx = None) -> linked r (<[id := c]> m).
Proof.
  intros [Hnd H] Hid Hlo. split; [done|]. intros p id' idx. rewrite H. split.
  - intros (c2 & Hc2 & Hp). exists c2. rewrite lookup_insert_ne; [done|]. by intros ->; congruence.
  - intros (c2 & Hc2 & Hp). destruct (decide (id = id')) as [<-|Hne].
    + rewrite lookup_insert_eq in Hc2. injection Hc2 as <-. congruence.
    + rewrite lookup_insert_ne in Hc2 by done. by exists c2.
Qed.

(** ** The invariant of the cache *)

Section Inv.
Context {P : Platform}.

(** Entries are well formed, the list is right, and new addresses are fresh. *)
Definition heap_ok (s : cache) : Prop :=
  (forall id c, cents s !! id = Some c -> cent_ok c /\ (id < next_cent s)%positive) /\
  linked (rrl s) (cents s) /\ (forall x, x ∈ rrl s -> (x.1 < next_lent s)%positive).

(** The hash table holds exactly the entries of the cache, under their names. *)
Definition hash_ok (s : cache) (m : gmap (list Z) positive) : Prop :=
  ht_rep (qname_at s) (buckets s) m /\
  forall id, is_Some (cents s !! id) <-> exists K, m !! K = Some id.

Definition inv (s : cache) : Prop :=
  heap_ok s /\ (exists m, hash_ok s m) /\
  ent_num s = Z.of_nat (size (cents s)) /\ cache_size s = total (cents s).

(** *** Frame *)

(** What operations on entries leave alone. *)
Definition steady (s s' : cache) : Prop :=
  buckets s' = buckets s /\ next_cent s' = next_cent s /\ ent_num s' = ent_num s /\
  insert_sort s' = insert_sort s.

Lemma steady_refl s : steady s s.
Proof. done. Qed.

Lemma steady_trans s1 s2 s3 : steady s1 s2 -> steady s2 s3 -> steady s1 s3.
Proof. intros (? & ? & ? & ?) (? & ? & ? & ?). unfold steady. splits; congruence. Qed.

(** The table only looks at the names of the entries it holds. *)
Lemma ht_rep_ext {D} (q q' : D -> option (list Z)) tab m :
  (forall b c he, tab !! b = Some c -> he ∈ c -> q (hdata he) = q' (hdata he)) ->
  ht_rep q tab m -> ht_rep q' tab m.
Proof.
  intros Heq [[Hlen Hinv] Hm].
  assert (Hk : forall b c he, tab !! b = Some c -> he ∈ c -> key_of q (hdata he) = key_of q' (hdata he)).
  { intros b c he Hb Hin. unfold key_of. by rewrite (Heq b c he). }
  split.
  - split; [done|]. intros b c Hb. destruct (Hinv b c Hb) as (Hok & Hs & Hnd). split_and!; [|done|].
    + rewrite Forall_forall in Hok |- *. intros he Hin. destruct (Hok he Hin) as (N & HN & Hq & Hh).
      exists N. rewrite <- (Heq b c he Hb Hin). done.
    + erewrite map_ext_in; [exact Hnd|]. intros he Hin. symmetry. apply (Hk b c he Hb).
      by apply list_elem_of_In.
  - intros K d. rewrite Hm. split; intros (b & c & he & Hb & Hin & <- & HK); exists b, c, he; splits; try done.
    + by rewrite <- (Hk b c he).
    + by rewrite (Hk b c he).
Qed.

Lemma hash_ok_upd s s' id c c' m :
  hash_ok s m -> cents s !! id = Some c -> qname c' = qname c ->
  cents s' = <[id := c']> (cents s) -> buckets s' = buckets s -> hash_ok s' m.
Proof.
  intros [Hrep Hdom] Hc Hq Hcs Hb. split.
  - rewrite Hb. eapply ht_rep_ext; [|exact Hrep]. intros b ch he _ _. unfold qname_at. rewrite Hcs.
    destruct (decide (id = hdata he)) as [<-|Hne]; [|by rewrite lookup_insert_ne].
    rewrite lookup_insert_eq, Hc. cbn. by rewrite Hq.
  - intros id'. rewrite <- Hdom, Hcs. destruct (decide (id = id')) as [<-|Hne].
    + rewrite lookup_insert_eq, Hc. split; by eexists.
    + by rewrite lookup_insert_ne.
Qed.

(** Replacing an entry in place. *)
Lemma heap_ok_upd s s' id c c' r :
  heap_ok s -> cents s !! id = Some c -> cent_ok c' -> linked r (<[id := c']> (cents s)) ->
  (forall x, x ∈ r -> x ∈ rrl s \/ (x.1 < next_lent s')%positive) -> (next_lent s <= next_lent s')%positive ->
  cents s' = <[id := c']> (cents s) -> rrl s' = r -> next_cent s' = next_cent s -> heap_ok s'.
Proof.
  intros (Hcents & Hl & Hlt) Hc Hok Hl' Hr Hnl Hcs Hrr Hnc. split; [|split].
  - intros id' c2. rewrite Hcs, Hnc. destruct (decide (id = id')) as [<-|Hne].
    + rewrite lookup_insert_eq. intros [= <-]. split; [done|by apply (Hcents id c)].
    + rewrite lookup_insert_ne by done. apply Hcents.
  - by rewrite Hrr, Hcs.
  - intros x Hx. rewrite Hrr in Hx. destruct (Hr x Hx) as [Hin|?]; [|done]. specialize (Hlt x Hin). lia.
Qed.

Lemma runs_deref id c s (Q : dns_cent -> cache -> Prop) :
  cents s !! id = Some c -> Q c s -> runs (deref id) s Q.
Proof. intros Hc HQ. exists c, s. split; [|done]. unfold deref, mbind, M_bind, getM. by rewrite Hc. Qed.




(** *** Operations on an entry of the cache, before it is stored *)

(** The state in which the entry at [id] is [c]. *)
Definition view (s : cache) (id : positive) (c : dns_cent) : cache :=
  with_cents (<[id := c]> (cents s)) s.

(** Only the list and the memory may differ. *)
Definition same (s s' : cache) : Prop :=
  cents s' = cents s /\ next_lent s' = next_lent s /\ cache_size s' = cache_size s /\ steady s s'.

Lemma same_refl s : same s s.
Proof. by repeat split. Qed.

Lemma same_trans s1 s2 s3 : same s1 s2 -> same s2 s3 -> same s1 s3.
Proof.
  intros (? & ? & ? & ?) (? & ? & ? & ?). unfold same. splits; [congruence..|]. by eapply steady_trans.
Qed.

Lemma rrl_only_same s s' r : rrl_only s s' r -> same s s'.
Proof. intros [m ->]. by repeat split. Qed.

Lemma mem_only_same s s' : mem_only s s' -> same s s'.
Proof. intros [m ->]. by repeat split. Qed.

Lemma mem_only_rrl s s' : mem_only s s' -> rrl s' = rrl s.
Proof. by intros [m ->]. Qed.

Lemma view_linked s id c : heap_ok (view s id c) -> linked (rrl s) (<[id := c]> (cents s)).
Proof. by intros (_ & H & _). Qed.

Lemma view_ok s id c : heap_ok (view s id c) -> cent_ok c.
Proof. intros (H & _). apply (H id c). apply lookup_insert_eq. Qed.

Lemma view_upd s s' id c c' ls :
  heap_ok (view s id c) -> same s s' -> rrl s' = rrl_drop ls (rrl s) -> cent_ok c' ->
  (forall idx p, lent_of c' idx = Some p <-> lent_of c idx = Some p /\ p ∉ ls) ->
  (forall p, p ∈ ls -> exists idx, lent_of c idx = Some p) ->
  heap_ok (view s' id c').
Proof.
  intros H (Hcs & Hnl & _ & _ & Hnc & _) Hr Hok Hlo Hls. eapply (heap_ok_upd (view s id c)).
  - done.
  - apply lookup_insert_eq.
  - done.
  - cbn. eapply linked_update; [by apply view_linked|apply lookup_insert_eq|done|done].
  - intros x Hx. left. cbn. by apply elem_of_rrl_drop in Hx as [? _].
  - cbn. rewrite Hnl. lia.
  - cbn. by rewrite insert_insert_eq, Hcs.
  - done.
  - done.
Qed.

Lemma view_upd_same s s' id c c' :
  heap_ok (view s id c) -> same s s' -> rrl s' = rrl s -> cent_ok c' ->
  (forall idx, lent_of c' idx = lent_of c idx) -> heap_ok (view s' id c').
Proof.
  intros H Hs Hr Hok Hlo. eapply (view_upd s s' id c c' []); [done|done| |done| |].
  - by rewrite rrl_drop_nil.
  - intros idx p. rewrite Hlo. split; [|tauto]. intros ->. split; [done|apply not_elem_of_nil].
  - intros p []%not_elem_of_nil.
Qed.

(** A negative entry has no sets. *)
Lemma neg_slot c i : is_neg c = true -> slot c i = None.
Proof. unfold is_neg, slot, sets. by destruct (body c). Qed.

Lemma cleared_slot c c' i j : cleared c c' i -> slot c' j = if decide (j = i) then None else slot c j.
Proof.
  intros (_ & _ & Hs & _). unfold slot. rewrite Hs. destruct (decide (j = i)) as [->|Hne].
  - destruct (decide (i < length (sets c))); [by rewrite list_lookup_insert_eq|].
    by rewrite list_insert_ge, lookup_ge_None_2 by lia.
  - by rewrite list_lookup_insert_ne.
Qed.

Lemma cleared_lents c c' i idx : cleared c c' i -> lent_of c' idx = if decide (idx = Some i) then None else lent_of c idx.
Proof.
  intros Hcl. destruct idx as [j|].
  - cbn [lent_of]. rewrite (cleared_slot c c' i j Hcl). destruct (decide (j = i)) as [->|Hne].
    + by rewrite decide_True.
    + by rewrite decide_False by congruence.
  - rewrite decide_False by done. apply Hcl.
Qed.

Lemma runs_view_del s id c i :
  heap_ok (view s id c) -> i < NRRTOT ->
  runs (del_cent_rrset_by_index c i) s (fun r s' =>
    heap_ok (view s' id r.2) /\ same s s' /\ rrl s' = drop_lent (lent_of c (Some i)) (rrl s) /\ mem s' = mem s /\
    r.1 = from_option rrset_size 0%Z (slot c i) /\ cs r.2 = (cs c - r.1)%Z /\ cleared c r.2 i).
Proof.
  intros H Hi. pose proof (view_ok _ _ _ H) as Hok. pose proof (view_linked _ _ _ H) as Hl.
  eapply runs_weaken; [apply runs_del_index; [done|done|]|].
  { eapply (linked_lent_in _ _ id c); [done|apply lookup_insert_eq]. }
  intros [rv c'] s' (-> & Hrv & Hcs & Hcl). cbn [fst snd] in *. splits; try done.
  eapply (view_upd s _ id c c' (option_list (lent_of c (Some i)))); [done|done| |by apply Hcl| |].
  - cbn. apply drop_lent_drop.
  - intros idx p. rewrite (cleared_lents c c' i idx Hcl). destruct (decide (idx = Some i)) as [->|Hne].
    + split; [done|]. intros [-> Hn]. destruct Hn. by left.
    + split; [|tauto]. intros Hp. split; [done|]. destruct (lent_of c (Some i)) as [q|] eqn:Hq; [|apply not_elem_of_nil].
      intros Hin. apply list_elem_of_singleton in Hin as ->.
      destruct (linked_unique _ _ id c idx id c (Some i) q Hl) as [_ ?]; [apply lookup_insert_eq|done|apply lookup_insert_eq|done|done].
  - intros p Hp. destruct (lent_of c (Some i)) as [q|] eqn:Hq; [|by apply not_elem_of_nil in Hp].
    apply list_elem_of_singleton in Hp as ->. by exists (Some i).
Qed.
End Inv.

Section Del.
Context {P : Platform}.

Lemma view_id s id c : cents s !! id = Some c -> view s id c = s.
Proof. intros H. unfold view. rewrite insert_id by done. by destruct s. Qed.

(** What is left alone besides [steady]. *)
Definition kept (s s' : cache) : Prop := steady s s' /\ next_lent s' = next_lent s /\ mem s' = mem s.

Lemma runs_drop_set s id c i :
  heap_ok s -> cents s !! id = Some c -> i < NRRTOT ->
  runs (drop_set id i) s (fun _ s' => exists c', heap_ok s' /\ cents s' = <[id := c']> (cents s) /\
    rrl s' = drop_lent (lent_of c (Some i)) (rrl s) /\ cache_size s' = (cache_size s + cs c' - cs c)%Z /\
    kept s s' /\ cleared c c' i).
Proof.
  intros H Hc Hi. unfold drop_set. apply runs_bind. eapply runs_deref; [exact Hc|].
  apply runs_bind. eapply runs_weaken; [apply (runs_view_del s id c i); [by rewrite view_id|done]|].
  intros [rv c'] s1 (H1 & Hs & Hr & Hmem & _ & Hcs & Hcl). cbn [fst snd] in *.
  apply runs_bind, runs_mod, runs_mod. exists c'. destruct Hs as (Hce & Hnl & Hsz & Hst).
  splits; try done.
  - cbn. by rewrite Hce.
  - cbn. rewrite Hsz. lia.
Qed.

Lemma acct_upd s s' id c c' :
  cents s !! id = Some c -> cents s' = <[id := c']> (cents s) ->
  cache_size s' = (cache_size s + cs c' - cs c)%Z -> cache_size s = total (cents s) ->
  cache_size s' = total (cents s').
Proof.
  intros Hc Hc' Hsz Ht. rewrite Hsz, Hc', total_insert, Ht, (total_delete _ _ _ Hc). lia.
Qed.

Lemma size_upd s (c c' : dns_cent) id : cents s !! id = Some c -> size (<[id := c']> (cents s)) = size (cents s).
Proof. intros Hc. apply map_size_insert_Some. by exists c. Qed.

Lemma inv_upd s s' id c c' :
  inv s -> heap_ok s' -> cents s !! id = Some c -> qname c' = qname c ->
  cents s' = <[id := c']> (cents s) -> cache_size s' = (cache_size s + cs c' - cs c)%Z -> steady s s' -> inv s'.
Proof.
  intros (Hh & [m Hm] & Hn & Hsz) Hh' Hc Hq Hc' Hs' (Hb & Hnc & Hen & His). unfold inv. splits.
  - done.
  - exists m. eapply hash_ok_upd; [exact Hm|exact Hc|exact Hq|exact Hc'|exact Hb].
  - rewrite Hen, Hc', (size_upd s c c' id Hc). done.
  - by eapply acct_upd.
Qed.

(** *** [del_cent] *)

Lemma heap_ok_lents s id c : heap_ok s -> cents s !! id = Some c ->
  NoDup (cent_lents c) /\ forall p, p ∈ cent_lents c -> p ∈ (rrl s).*1.
Proof.
  intros (_ & Hl & _) Hc. split; [by eapply linked_nodup|]. intros p Hp.
  apply elem_of_cent_lents in Hp as [idx Hp]. by eapply linked_in.
Qed.

Lemma runs_del_cent s id c :
  heap_ok s -> cents s !! id = Some c ->
  runs (del_cent id) s (fun _ s' => heap_ok s' /\ cents s' = delete id (cents s) /\
    rrl s' = rrl_drop (cent_lents c) (rrl s) /\ cache_size s' = (cache_size s - cs c)%Z /\
    ent_num s' = (ent_num s - 1)%Z /\ buckets s' = buckets s /\ next_cent s' = next_cent s /\
    next_lent s' = next_lent s /\ insert_sort s' = insert_sort s /\ mem s' = mem s).
Proof.
  intros H Hc. unfold del_cent. apply runs_bind. eapply runs_deref; [exact Hc|].
  apply runs_bind, runs_mod. destruct (heap_ok_lents s id c H Hc) as [Hnd Hin].
  pose proof H as (Hok & Hl & Hlt).
  run_with runs_free_cent; [apply (Hok id c Hc)|done|done|]. intros _ s1 ->. apply runs_mod.
  splits; try done.
  split; [|split].
  - intros id' c2. cbn. intros [_ Hc2]%lookup_delete_Some. by apply Hok.
  - cbn. by apply linked_delete.
  - intros x Hx. cbn in *. apply elem_of_rrl_drop in Hx as [Hx _]. by apply Hlt.
Qed.

(** The key under which an entry is stored. *)
Lemma hash_key s m id c N :
  hash_ok s m -> cents s !! id = Some c -> qname c = enc_name N -> m !! fold_key (enc_name N) = Some id.
Proof.
  intros [[Hinv Hm] Hdom] Hc Hq. destruct (proj1 (Hdom id) ltac:(by eexists)) as [K HK].
  pose proof HK as HK'. apply Hm in HK' as (b & ch & he & _ & _ & _ & Hk).
  unfold key_of, qname_at in Hk. rewrite Hc in Hk. cbn in Hk. rewrite Hq in Hk. by injection Hk as <-.
Qed.

(** The entry of a key. *)
Lemma hash_entry s m K id : hash_ok s m -> m !! K = Some id ->
  exists c, cents s !! id = Some c /\ fold_key (qname c) = K.
Proof.
  intros [[Hinv Hm] Hdom] HK. destruct (proj2 (Hdom id) ltac:(by eexists)) as [c Hc]. exists c. split; [done|].
  apply Hm in HK as (b & ch & he & _ & _ & _ & Hk). unfold key_of, qname_at in Hk. rewrite Hc in Hk.
  cbn in Hk. by injection Hk.
Qed.

(** Removing an entry from the table and from the heap. *)
Lemma hash_ok_delete s s' m K id tab :
  hash_ok s m -> m !! K = Some id -> ht_rep (qname_at s) tab (delete K m) ->
  cents s' = delete id (cents s) -> buckets s' = tab -> hash_ok s' (delete K m).
Proof.
  intros Hok HK Hrep Hcs Hb. pose proof Hok as [_ Hdom].
  assert (Hk : forall K', m !! K' = Some id -> K' = K).
  { intros K' HK'. destruct (hash_entry s m K id Hok HK) as (c & Hc & <-).
    destruct (hash_entry s m K' id Hok HK') as (c' & Hc' & <-). rewrite Hc in Hc'. by injection Hc' as ->. }
  split.
  - rewrite Hb. eapply ht_rep_ext; [|exact Hrep]. intros b ch he Hch Hin. unfold qname_at. rewrite Hcs.
    rewrite lookup_delete_ne; [done|]. intros Heq.
    destruct Hrep as [[_ Hinv] Hm]. destruct (Hinv b ch Hch) as [Hent _]. rewrite Forall_forall in Hent.
    destruct (Hent he Hin) as (N & HN & Hq & _).
    assert (Hhas : ht_has (qname_at s) tab (fold_key (enc_name N)) id).
    { exists b, ch, he. splits; [done|done|done|]. unfold key_of. rewrite Heq, Hq. done. }
    apply Hm in Hhas. apply lookup_delete_Some in Hhas as [Hne Hhas]. apply Hne. symmetry. by apply Hk.
  - intros id'. rewrite Hcs. split.
    + intros [c [Hne Hc]%lookup_delete_Some]. destruct (proj1 (Hdom id') ltac:(by eexists)) as [K' HK'].
      exists K'. rewrite lookup_delete_ne; [done|]. intros <-. congruence.
    + intros [K' [Hne HK']%lookup_delete_Some]. rewrite lookup_delete_ne; [apply Hdom; by exists K'|].
      intros <-. apply Hne. symmetry. by apply Hk.
Qed.

(** The state after an entry has been deleted. *)
Definition deleted (s s' : cache) (id : positive) (c : dns_cent) : Prop :=
  inv s' /\ cents s' = delete id (cents s) /\ rrl s' = rrl_drop (cent_lents c) (rrl s) /\
  cache_size s' = (cache_size s - cs c)%Z /\ next_cent s' = next_cent s /\ next_lent s' = next_lent s /\
  insert_sort s' = insert_sort s /\ mem s' = mem s.

Lemma inv_deleted s s' m K id c :
  inv s -> hash_ok s m -> m !! K = Some id -> cents s !! id = Some c -> heap_ok s' ->
  ht_rep (qname_at s) (buckets s') (delete K m) ->
  cents s' = delete id (cents s) -> ent_num s' = (ent_num s - 1)%Z ->
  cache_size s' = (cache_size s - cs c)%Z -> insert_sort s' = insert_sort s -> inv s' /\ hash_ok s' (delete K m).
Proof.
  intros (_ & _ & Hn & Hsz) Hm HK Hc Hh' Hrep Hcs Hen Hsz' His.
  assert (Hok : hash_ok s' (delete K m)) by (by eapply hash_ok_delete). split; [|done]. unfold inv. splits.
  - done.
  - by exists (delete K m).
  - rewrite Hen, Hn, Hcs, map_size_delete_Some by by exists c. assert (size (cents s) <> 0).
    { intros E. apply map_size_empty_inv in E. rewrite E in Hc. by rewrite lookup_empty in Hc. }
    lia.
  - rewrite Hsz', Hsz, Hcs, (total_delete _ _ _ Hc). lia.
Qed.

Lemma cent_name c : cent_ok c -> exists N, wf_name N /\ qname c = enc_name N.
Proof. by intros (_ & H & _). Qed.

Lemma runs_del_cache_ent s id c loc :
  inv s -> cents s !! id = Some c ->
  (forall l, loc = Some l -> exists N, wf_name N /\ qname c = enc_name N /\ loc_ok (qname_at s) (buckets s) N (Some id) l) ->
  runs (del_cache_ent id loc) s (fun _ s' => deleted s s' id c).
Proof.
  intros Hinv Hc Hloc. pose proof Hinv as (Hh & [m Hm] & _). pose proof Hh as (Hok & _).
  destruct (cent_name c (proj1 (Hok id c Hc))) as (N & HN & Hq).
  pose proof (hash_key s m id c N Hm Hc Hq) as HK. pose proof Hm as [Hrep _].
  unfold del_cache_ent. apply runs_bind. eapply runs_deref; [exact Hc|]. apply runs_bind, runs_get.
  apply runs_bind. eapply runs_weaken with (Q := fun tab s1 => s1 = s /\
    ht_rep (qname_at s) tab (delete (fold_key (enc_name N)) m)).
  { destruct loc as [l|].
    - destruct (Hloc l eq_refl) as (N' & HN' & Hq' & Hlok). rewrite Hq in Hq'.
      assert (E : enc_name N ++ [] = enc_name N' ++ []) by (by rewrite Hq').
      apply enc_name_inj in E as [<- _]; [|apply HN|apply HN'].
      destruct (del_dns_hash_ent_spec _ _ m N id l Hrep HK Hlok) as (tab & Hdel & Hrep').
      eapply (runs_bind (liftM _)). eapply runs_lift; [exact Hdel|]. by apply runs_ret.
    - destruct (del_dns_hash_spec _ _ m N [] Hrep HN) as (tab & Hdel & Hrep').
      rewrite app_nil_r, <- Hq in Hdel.
      eapply (runs_bind (liftM _)). eapply runs_lift; [exact Hdel|]. by apply runs_ret. }
  intros tab s1 [-> Hrep']. apply runs_bind, runs_mod.
  eapply runs_weaken; [apply (runs_del_cent (with_buckets tab s) id c); done|].
  intros _ s' (Hh' & Hcs & Hrr & Hsz & Hen & Hb & Hnc & Hnl & His & Hmem).
  split; [|by splits]. eapply (inv_deleted s s' m _ id c); try done. by rewrite Hb.
Qed.
End Del.

Lemma runs_foldM_from {A B} (f : B -> A -> M B) (I : nat -> B -> cache -> Prop) (l : list A) : forall k b s,
  I k b s ->
  (forall j x b s, l !! j = Some x -> I (k + j) b s -> runs (f b x) s (I (k + j + 1))) ->
  runs (foldM f l b) s (I (k + length l)).
Proof.
  induction l as [|x l IH]; intros k b s Hi Hstep; cbn [foldM length].
  - apply runs_ret. by rewrite Nat.add_0_r.
  - apply runs_bind. specialize (Hstep 0) as Hs0. rewrite Nat.add_0_r in Hs0.
    eapply runs_weaken; [by eapply Hs0|]. cbn beta. intros b' s' Hi'.
    replace (k + S (length l)) with (k + 1 + length l) by lia. apply IH; [done|].
    intros j y b2 s2 Hy Hi2. replace (k + 1 + j) with (k + S j) in * by lia. by apply Hstep.
Qed.

Lemma runs_foldM_seq {B} (f : B -> nat -> M B) (I : nat -> B -> cache -> Prop) n b s :
  I 0 b s -> (forall k b s, k < n -> I k b s -> runs (f b k) s (I (S k))) ->
  runs (foldM f (seq 0 n) b) s (I n).
Proof.
  intros Hi Hstep. pose proof (runs_foldM_from f I (seq 0 n) 0 b s Hi) as H. rewrite length_seq in H.
  apply H. intros j x b' s' Hj Hi'. apply lookup_seq in Hj as [-> Hlt]. cbn in *.
  rewrite Nat.add_1_r. by apply Hstep.
Qed.

Section Purge.
Context {P : Platform} (now : Z).

(** A set after purging. *)
Definition purged (r : option rr_set) : option rr_set :=
  match r with
  | Some rs => if must_go now rs then None else Some rs
  | None => None
  end.

(** An entry that differs from [c] in its sets only (and in [DF_AUTH]). *)
Definition like (c c' : dns_cent) : Prop :=
  cent_ok c' /\ keeps c c' /\ is_neg c' = is_neg c /\
  (forall m, Z.land m DF_AUTH = 0%Z -> tst (flags c') m = tst (flags c) m).

Lemma like_refl c : cent_ok c -> like c c.
Proof. intros H. unfold like, keeps. by splits. Qed.

Lemma like_trans c1 c2 c3 : like c1 c2 -> like c2 c3 -> like c1 c3.
Proof.
  intros (_ & Hk & Hn & Hf) (Hok & Hk' & Hn' & Hf'). unfold like. splits.
  - done.
  - by eapply keeps_trans.
  - congruence.
  - intros m Hm. rewrite Hf' by done. by apply Hf.
Qed.

Lemma cleared_like c c' i : cleared c c' i -> like c c'.
Proof. intros (? & ? & ? & ? & ? & ? & ?). by unfold like. Qed.

Lemma rrl_drop_incl ls r x : x ∈ rrl_drop ls r -> x ∈ r.
Proof. by intros [? _]%elem_of_rrl_drop. Qed.

Lemma drop_lent_incl l r x : x ∈ drop_lent l r -> x ∈ r.
Proof. rewrite drop_lent_drop. apply rrl_drop_incl. Qed.

(** One entry has been changed in place, keeping the invariant. *)
Definition changed (s s' : cache) (id : positive) (c c' : dns_cent) : Prop :=
  inv s' /\ cents s' = <[id := c']> (cents s) /\ kept s s' /\ like c c' /\
  (forall x, x ∈ rrl s' -> x ∈ rrl s).

Lemma changed_refl s id c : inv s -> cents s !! id = Some c -> changed s s id c c.
Proof.
  intros Hi Hc. split; [done|]. splits; [by rewrite insert_id|by repeat split| |done].
  apply like_refl. destruct Hi as ((H & _) & _). by apply (H id c).
Qed.

Lemma changed_lookup s s' id c c' : changed s s' id c c' -> cents s' !! id = Some c'.
Proof. intros (_ & -> & _). apply lookup_insert_eq. Qed.

Lemma kept_trans s1 s2 s3 : kept s1 s2 -> kept s2 s3 -> kept s1 s3.
Proof. intros (? & ? & ?) (? & ? & ?). unfold kept. splits; [by eapply steady_trans|congruence|congruence]. Qed.

Lemma changed_trans s1 s2 s3 id c1 c2 c3 :
  changed s1 s2 id c1 c2 -> changed s2 s3 id c2 c3 -> changed s1 s3 id c1 c3.
Proof.
  intros (_ & Hc2 & Hk2 & Hl2 & Hr2) (Hi3 & Hc3 & Hk3 & Hl3 & Hr3). split; [done|]. splits.
  - by rewrite Hc3, Hc2, insert_insert_eq.
  - by eapply kept_trans.
  - by eapply like_trans.
  - intros x Hx. by apply Hr2, Hr3.
Qed.

Lemma runs_drop_set_inv s id c i :
  inv s -> cents s !! id = Some c -> i < NRRTOT ->
  runs (drop_set id i) s (fun _ s' => exists c', changed s s' id c c' /\ cleared c c' i /\
    rrl s' = drop_lent (lent_of c (Some i)) (rrl s)).
Proof.
  intros Hi Hc Hlt. eapply runs_weaken; [apply runs_drop_set; [apply Hi|exact Hc|done]|].
  intros _ s' (c' & Hh & Hcs & Hr & Hsz & Hk & Hcl). exists c'. split; [|done].
  split.
  - eapply (inv_upd s s' id c c'); [done|done|exact Hc|apply Hcl|done|done|apply Hk].
  - splits; [done|done|by eapply cleared_like|]. intros x. rewrite Hr. apply drop_lent_incl.
Qed.

Lemma runs_purge_rrset s id c i :
  inv s -> cents s !! id = Some c -> i < NRRTOT ->
  runs (purge_rrset now id i false) s (fun _ s' => exists c', changed s s' id c c' /\
    slot c' i = purged (slot c i) /\ (forall j, j <> i -> slot c' j = slot c j) /\
    rrl s' = if slot c i then (if purged (slot c i) then rrl s else drop_lent (lent_of c (Some i)) (rrl s)) else rrl s).
Proof.
  intros Hi Hc Hlt. unfold purge_rrset. apply runs_bind. eapply runs_deref; [exact Hc|].
  run_lift; [apply rrarr_testext_sets; [|done]; destruct Hi as ((Hi & _) & _); apply (Hi id c Hc)|].
  fold (slot c i). destruct (slot c i) as [rs|] eqn:Hsl; cbn [purged].
  - destruct (must_go now rs) eqn:Hg.
    + run_with runs_drop_set_inv; [done|exact Hc|done|]. intros _ s' (c' & Hch & Hcl & Hr). apply runs_ret. exists c'.
      splits; [done| | |done].
      * rewrite (cleared_slot _ _ _ _ Hcl). by rewrite decide_True.
      * intros j Hj. rewrite (cleared_slot _ _ _ _ Hcl). by rewrite decide_False.
    + apply runs_ret. exists c. splits; [by apply changed_refl|by rewrite Hsl|done|done].
  - apply runs_ret. exists c. splits; [by apply changed_refl|by rewrite Hsl|done|done].
Qed.

(** *** [purge_all_rrsets] *)

(** The array after the first [k] slots have been purged. *)
Definition purged_to (a : list (option rr_set)) (k : nat) : list (option rr_set) :=
  take k (purged <$> a) ++ drop k a.

Lemma purged_to_lookup a k : k < length a -> purged_to a k !! k = a !! k.
Proof.
  intros H. unfold purged_to. rewrite lookup_app_r; rewrite length_take, length_fmap; [|lia].
  rewrite lookup_drop. f_equal. lia.
Qed.

Lemma purged_to_S a k r : a !! k = Some r -> purged_to a (S k) = <[k := purged r]> (purged_to a k).
Proof.
  intros H. unfold purged_to. assert (Hlt : k < length a) by (by eapply lookup_lt_Some).
  assert (Hp : (purged <$> a) !! k = Some (purged r)) by (by rewrite list_lookup_fmap, H).
  rewrite (take_S_r _ _ _ Hp), (drop_S _ _ _ H), <- app_assoc.
  rewrite insert_app_r_alt by (rewrite length_take, length_fmap; lia).
  rewrite length_take, length_fmap. replace (k - k `min` length a) with 0 by lia. done.
Qed.

Lemma count_take_S a k r : a !! k = Some r -> count_sets (take (S k) a) = (count_sets (take k a) + one r)%Z.
Proof. intros H. rewrite (take_S_r _ _ _ H), count_sets_app. cbn. lia. Qed.

Lemma count_drop_take_S a k r : a !! k = Some r ->
  count_sets (drop NRRMU (take (S k) a)) = (count_sets (drop NRRMU (take k a)) + if (NRRMU <=? k)%nat then one r else 0)%Z.
Proof.
  intros H. assert (Hlt : k < length a) by (by eapply lookup_lt_Some). rewrite (take_S_r _ _ _ H).
  destruct (NRRMU <=? k) eqn:E; boolp.
  - rewrite drop_app_le by (rewrite length_take; lia). rewrite count_sets_app. cbn. lia.
  - rewrite !drop_ge by (rewrite ?length_app, ?length_take; cbn [length]; lia). done.
Qed.

(** The state of the loop after [k] slots. *)
Definition purge_inv (s : cache) (id : positive) (c : dns_cent) (test : bool) (k : nat)
    (acc : Z * Z * Z) (s' : cache) : Prop :=
  acc.1.1 = (count_sets (take k (sets c)) - count_sets (take k (purged <$> sets c)))%Z /\
  acc.1.2 = count_sets (take k (purged <$> sets c)) /\
  acc.2 = count_sets (drop NRRMU (take k (purged <$> sets c))) /\
  if test then s' = s
  else exists c', changed s s' id c c' /\ sets c' = purged_to (sets c) k /\ ext_size c' = ext_size c.

Lemma purge_step_inv s id c test k acc s1 :
  inv s -> cents s !! id = Some c -> is_neg c = false -> k < length (sets c) ->
  purge_inv s id c test k acc s1 -> runs (purge_step now id test acc k) s1 (purge_inv s id c test (S k)).
Proof.
  intros Hi Hc Hneg Hk (Hrv & Hn & He & Hst). destruct acc as [[rv numrrs] numrrext]. cbn [fst snd] in *.
  destruct (lookup_lt_is_Some_2 (sets c) k Hk) as [r Hr].
  assert (Hok : cent_ok c) by (destruct Hi as ((Hok & _) & _); by apply (Hok id c)).
  assert (Hlen : k < NRRTOT) by (pose proof (length_sets c (proj1 Hok)); lia).
  assert (Hp : (purged <$> sets c) !! k = Some (purged r)) by (by rewrite list_lookup_fmap, Hr).
  unfold purge_step.
  assert (Hc1 : exists c1, cents s1 !! id = Some c1 /\ rrarr_index c1 k = Some r).
  { destruct test.
    - subst s1. exists c. split; [done|]. by rewrite rrarr_index_sets by (apply Hok || done).
    - destruct Hst as (c' & Hch & Hsets & _). exists c'. split; [by eapply changed_lookup|].
      destruct Hch as (_ & _ & _ & (Hok' & _ & Hn' & _) & _).
      rewrite rrarr_index_sets by (apply Hok' || congruence). by rewrite Hsets, purged_to_lookup. }
  destruct Hc1 as (c1 & Hc1 & Hidx). apply runs_bind. eapply runs_deref; [exact Hc1|]. run_lift; [exact Hidx|].
  unfold purge_inv. rewrite (count_take_S _ _ _ Hp), (count_take_S _ _ _ Hr), (count_drop_take_S _ _ _ Hp).
  assert (Hkeep : purged r = r -> forall s2, s2 = s1 -> if test then s2 = s else
    exists c', changed s s2 id c c' /\ sets c' = purged_to (sets c) (S k) /\ ext_size c' = ext_size c).
  { intros Hpr s2 ->. destruct test; [done|]. destruct Hst as (c' & Hch & Hsets & Hext). exists c'. splits; [done| |done].
    rewrite (purged_to_S _ _ _ Hr), Hsets, list_insert_id; [done|]. by rewrite purged_to_lookup, Hpr. }
  destruct r as [rs|]; cbn [purged] in *.
  - destruct (must_go now rs) eqn:Hg.
    + apply runs_bind. destruct test.
      * apply runs_ret, runs_ret. cbn [fst snd one]. splits; [lia|lia| |done]. destruct (NRRMU <=? k)%nat; lia.
      * destruct Hst as (c' & Hch & Hsets & Hext). pose proof (changed_lookup _ _ _ _ _ Hch) as Hc'.
        rewrite Hc1 in Hc'. injection Hc' as ->.
        eapply runs_weaken; [eapply runs_drop_set_inv; [apply Hch|exact Hc1|done]|].
        intros _ s2 (c2 & Hch2 & Hcl & _). apply runs_ret. cbn [fst snd one]. splits; [lia|lia|destruct (NRRMU <=? k)%nat; lia|].
        exists c2. splits; [by eapply changed_trans| |].
        -- destruct Hcl as (_ & _ & -> & _). rewrite Hsets, (purged_to_S _ _ _ Hr). cbn [purged]. by rewrite Hg.
        -- destruct Hcl as (_ & _ & _ & _ & -> & _). done.
    + apply runs_ret. cbn [fst snd one]. splits; [lia|lia|destruct (NRRMU <=? k)%nat; lia|by apply Hkeep].
  - apply runs_ret. cbn [fst snd one]. splits; [lia|lia|destruct (NRRMU <=? k)%nat; lia|by apply Hkeep].
Qed.

Lemma count_zero_nones a : count_sets a = 0%Z -> a = replicate (length a) None.
Proof.
  induction a as [|r a IH]; [done|]. rewrite count_sets_cons. intros H. pose proof (count_sets_le a).
  destruct r; cbn [one] in H; [lia|]. cbn. f_equal. apply IH. lia.
Qed.

(** Dropping an array of less used sets that has become empty. *)
Lemma drop_ext_ok c rrmu e :
  cent_ok c -> body c = Rr rrmu (Some e) -> count_sets e = 0%Z ->
  let c' := set_cs (cs c - rrext_size) (set_body (Rr rrmu None) c) in
  cent_ok c' /\ same_slots c c' /\ like c c' /\ count_sets (sets c') = count_sets (sets c).
Proof.
  intros Hok Hb Hz c'. pose proof Hok as (Hs & Hq & Hcs & Hn).
  destruct (shape_rr c rrmu (Some e) Hs Hb) as (Hf & Hm & He).
  pose proof (count_zero_nones e Hz) as Hnone.
  assert (Hsc : sets c = rrmu ++ replicate (length e) None) by (unfold sets; rewrite Hb; simpl; by rewrite <- Hnone).
  assert (Hsc' : sets c' = rrmu) by (unfold sets, c'; cbn; by rewrite app_nil_r).
  assert (Hcount : count_sets (sets c') = count_sets (sets c))
    by (rewrite Hsc, Hsc', count_sets_app, count_sets_nones; lia).
  assert (Hok' : cent_ok c').
  { split; [|split; [done|split]].
    - split; [cbn; by rewrite Hf|]. cbn. by split.
    - unfold cent_size. rewrite Hsc'. unfold ext_size, c'. cbn. rewrite Hcs. unfold cent_size, ext_size.
      rewrite Hb, Hsc, sets_size_app, sets_size_nones. lia.
    - rewrite Hcount. cbn. exact Hn. }
  splits; [done| | |done].
  - intros j. unfold slot. rewrite Hsc, Hsc'. symmetry. apply slot_app_nones.
  - unfold like. splits; [done|done| |done]. unfold is_neg. by rewrite Hb.
Qed.

Lemma same_slots_lent c c' idx : same_slots c c' -> is_neg c = false -> is_neg c' = false -> lent_of c' idx = lent_of c idx.
Proof.
  intros Hs Hn Hn'. destruct idx as [i|]; cbn [lent_of]; [by rewrite Hs|].
  unfold is_neg in *. by destruct (body c), (body c').
Qed.

Lemma slot_purged c c' : sets c' = purged <$> sets c -> forall j, slot c' j = purged (slot c j).
Proof. intros H j. unfold slot. rewrite H, list_lookup_fmap. by destruct (sets c !! j) as [[?|]|]. Qed.

Lemma runs_purge_all s id c (test : bool) :
  inv s -> cents s !! id = Some c ->
  runs (purge_all_rrsets now id test) s (fun r s' => 
    r.2 = count_sets (purged <$> sets c) /\
    (let n := (count_sets (sets c) - count_sets (purged <$> sets c))%Z in n <= r.1 <= n + 1)%Z /\
    if test then s' = s
    else exists c', changed s s' id c c' /\ (forall j, slot c' j = purged (slot c j)) /\
      (is_neg c = true -> c' = c) /\ num_rrs c' = r.2).
Proof.
  intros Hi Hc. assert (Hok : cent_ok c) by (destruct Hi as ((Hok & _) & _); by apply (Hok id c)).
  unfold purge_all_rrsets. apply runs_bind. eapply runs_deref; [exact Hc|].
  pose proof Hok as ([Hn _] & _ & _ & Hnum). rewrite Hn. destruct (is_neg c) eqn:Hneg; cbn [negb].
  { apply runs_ret. cbn [fst snd].
    assert (Hs : sets c = []) by (unfold sets, is_neg in *; by destruct (body c)).
    rewrite Hs. split; [done|]. split; [cbn; lia|]. destruct test; [done|]. exists c. splits; [by apply changed_refl| |done|by rewrite Hnum, Hs].
    intros j. by rewrite neg_slot. }
  run_lift; [apply rrarr_len_sets, Hok|].
  apply runs_bind. eapply runs_weaken.
  { apply (runs_foldM_seq _ (purge_inv s id c test)).
    - unfold purge_inv. cbn [fst snd take]. splits; [done|done|done|]. destruct test; [done|]. exists c.
      splits; [by apply changed_refl|done|done].
    - intros k b s1 Hk HI. by apply purge_step_inv. }
  intros [[rv numrrs] numrrext] s1 (Hrv & Hnr & Hne & Hst). cbn [fst snd] in *.
  rewrite !take_ge in Hrv by (rewrite ?length_fmap; lia). rewrite take_ge in Hnr, Hne by (rewrite length_fmap; lia).
  assert (Hc1 : exists c1, cents s1 !! id = Some c1 /\ (if test then s1 = s /\ c1 = c else
    changed s s1 id c c1 /\ sets c1 = purged <$> sets c)).
  { destruct test; [subst s1; by exists c|]. destruct Hst as (c1 & Hch & Hsets & _). exists c1.
    split; [by eapply changed_lookup|]. split; [done|]. rewrite Hsets. unfold purged_to.
    rewrite take_ge, drop_ge by (rewrite ?length_fmap; lia). by rewrite app_nil_r. }
  destruct Hc1 as (c1 & Hc1 & Hst1). apply runs_bind. eapply runs_deref; [exact Hc1|].
  assert (Hb1 : is_neg c1 = false).
  { destruct test; [by destruct Hst1 as [_ ->]|]. destruct Hst1 as [(_ & _ & _ & (_ & _ & -> & _) & _) _]. done. }
  assert (Hfin : runs (mret (rv, numrrs)) s1 (fun r s' => r.2 = count_sets (purged <$> sets c) /\
    (let n := (count_sets (sets c) - count_sets (purged <$> sets c))%Z in n <= r.1 <= n + 1)%Z /\
    if test then s' = s else exists c', changed s s' id c c' /\ (forall j, slot c' j = purged (slot c j)) /\
      (false = true -> c' = c) /\ num_rrs c' = r.2)).
  { apply runs_ret. cbn [fst snd]. split; [done|]. split; [lia|]. destruct test; [by destruct Hst1|]. destruct Hst1 as [Hch Hsets].
    exists c1. splits; [done|by apply slot_purged|done|].
    destruct Hch as (_ & _ & _ & ((_ & _ & _ & ->) & _) & _). by rewrite Hsets, Hnr. }
  unfold is_neg in Hb1. destruct (body c1) as [|rrmu rrext] eqn:Hbody; [done|]. destruct rrext as [e|]; [|done].
  destruct (numrrext =? 0)%Z eqn:Ez; [|done]. boolp. apply runs_bind. destruct test.
  - apply runs_ret, runs_ret. cbn [fst snd]. destruct Hst1. splits; [done|lia..|done].
  - destruct Hst1 as [Hch Hsets]. pose proof Hch as (Hi1 & Hcs1 & Hk1 & (Hok1 & Hke1 & Hn1 & Hf1) & Hr1).
    assert (Hez : count_sets e = 0%Z).
    { rewrite <- Hsets in Hne. unfold sets in Hne. rewrite Hbody in Hne. simpl in Hne.
      destruct (shape_rr c1 rrmu (Some e) (proj1 Hok1) Hbody) as (_ & Hm & _).
      rewrite <- Hm, drop_app_length in Hne. lia. }
    destruct (drop_ext_ok c1 rrmu e Hok1 Hbody Hez) as (Hok2 & Hsl2 & Hl2 & Hcnt2).
    set (c2 := set_cs _ _) in *. apply runs_bind, runs_mod, runs_mod, runs_ret. cbn [fst snd].
    split; [done|]. split; [lia|]. exists c2.
    assert (Hlink : linked (rrl s1) (<[id := c2]> (cents s1))).
    { destruct Hi1 as ((_ & Hl1 & _) & _). eapply linked_same; [done|exact Hc1|].
      intros idx. apply same_slots_lent; [done| |done]. unfold is_neg. by rewrite Hbody. }
    assert (Hh2 : heap_ok (with_cents (<[id:=c2]> (cents s1)) s1)).
    { eapply (heap_ok_upd s1 _ id c1 c2 (rrl s1)); [apply Hi1|exact Hc1|done|done|by left|cbn; lia|done|done|done]. }
    assert (Hch2 : changed s1 (with_cache_size (cache_size s1 + - rrext_size) (with_cents (<[id:=c2]> (cents s1)) s1)) id c1 c2).
    { split.
      - eapply (inv_upd s1 _ id c1 c2); [done|done|exact Hc1|done|done| |by repeat split]. cbn. lia.
      - splits; [done|by repeat split|done|done]. }
    splits; [by eapply changed_trans| |done|].
    + intros j. rewrite Hsl2. by apply slot_purged.
    + destruct Hok2 as (_ & _ & _ & ->). rewrite Hcnt2, Hsets, Hnr. done.
Qed.
End Purge.

Section PurgeCent.
Context {P : Platform} (now : Z).

Lemma runs_hash_lookup s m N r :
  hash_ok s m -> wf_name N ->
  runs (hash_lookup (enc_name N ++ r)) s (fun res s' => s' = s /\ res.1 = m !! fold_key (enc_name N) /\
    loc_ok (qname_at s) (buckets s) N res.1 res.2).
Proof.
  intros [Hrep _] HN. unfold hash_lookup. apply runs_bind, runs_get.
  destruct (dns_lookup_spec _ _ m N r Hrep HN) as (loc & Hl & Hok). by eapply runs_lift.
Qed.

Lemma get_rrsmu_ok c i : shape c -> i < NRRMU -> exists r, get_rrsmu c i = Some r.
Proof.
  intros [Hn Hs] Hi. unfold get_rrsmu, is_neg in *. rewrite Hn. destruct (body c) as [|rrmu rrext]; cbn [negb]; [by eexists|].
  destruct Hs as [Hm _]. destruct (lookup_lt_is_Some_2 rrmu i) as [x Hx]; [lia|]. by exists x.
Qed.

Lemma inv_cent s id c : inv s -> cents s !! id = Some c -> cent_ok c.
Proof. intros ((H & _) & _) Hc. by apply (H id c). Qed.

Lemma runs_stale_ref s c scnt cn ri :
  inv s -> cent_ok c -> ri < NRRMU -> runs (stale_ref now c scnt cn ri) s (fun _ s' => s' = s).
Proof.
  intros Hi Hok Hri. pose proof Hok as (Hs & (N & HN & Hq) & _). unfold stale_ref.
  apply runs_bind. eapply runs_weaken with (Q := fun _ s' => s' = s).
  2:{ intros r s' ->. by apply runs_ret. }
  destruct (cn =? Z.of_nat scnt)%Z.
  { destruct (get_rrsmu_ok c ri Hs Hri) as [r Hr]. by eapply runs_lift. }
  destruct (cn <? Z.of_nat scnt)%Z; [|by apply runs_ret].
  pose proof (skipsegs_enc N [] (scnt - Z.to_nat cn) (proj1 HN)) as Hsk. rewrite !app_nil_r, <- Hq in Hsk.
  run_lift; [exact Hsk|]. pose proof Hi as (_ & [m Hm] & _).
  assert (HN' : wf_name (drop (scnt - Z.to_nat cn) N)).
  { rewrite <- (take_drop (scnt - Z.to_nat cn) N) in HN. by apply wf_name_suffix in HN. }
  pose proof (runs_hash_lookup s m _ [] Hm HN') as Hlk. rewrite app_nil_r in Hlk.
  apply runs_bind. eapply runs_weaken; [exact Hlk|]. intros [ce loc] s' (-> & Hce & _). cbn [fst] in Hce. subst ce.
  destruct (m !! _) as [id'|] eqn:HK; [|by apply runs_ret].
  destruct (hash_entry s m _ id' Hm HK) as (c' & Hc' & _). apply runs_bind. eapply runs_deref; [exact Hc'|].
  destruct (get_rrsmu_ok c' ri) as [r Hr]; [apply (inv_cent s id' c' Hi Hc')|done|]. by eapply runs_lift.
Qed.

(** Setting a reference back to undefined. *)
Lemma changed_ref s id c c' :
  inv s -> cents s !! id = Some c -> cent_ok c' -> qname c' = qname c -> cs c' = cs c -> body c' = body c ->
  flags c' = flags c ->
  let s' := with_cents (<[id := c']> (cents s)) s in
  inv s' /\ (forall x, x ∈ rrl s' -> x ∈ rrl s).
Proof.
  intros Hi Hc Hok Hq Hcs Hb Hf s'. split; [|done].
  assert (Hlo : forall idx, lent_of c' idx = lent_of c idx).
  { intros [i|]; cbn [lent_of]; unfold slot, sets; by rewrite Hb. }
  eapply (inv_upd s s' id c c'); [done| |exact Hc|done|done|cbn; rewrite Hcs; lia|by repeat split].
  eapply (heap_ok_upd s s' id c c' (rrl s)); try done; [apply Hi| |by left].
  eapply linked_same; [apply Hi|exact Hc|done].
Qed.

Lemma set_c_ns_ok c v : cent_ok c -> cent_ok (set_c_ns v c).
Proof. done. Qed.

Lemma set_c_soa_ok c v : cent_ok c -> cent_ok (set_c_soa v c).
Proof. done. Qed.

(** The entry after [purge_cent]: purged sets, the same name. *)
Definition purged_entry (s s' : cache) (id : positive) (c : dns_cent) : Prop :=
  exists c', cents s' = <[id := c']> (cents s) /\ (forall j, slot c' j = purged now (slot c j)) /\
    qname c' = qname c /\ is_neg c' = is_neg c /\ kept s s' /\
    (forall m, Z.land m DF_AUTH = 0%Z -> tst (flags c') m = tst (flags c) m).

(** Clearing a reference, if it is stale, in an entry that may have been purged. *)
Lemma runs_clear_ref s s1 id c (test : bool) (st : bool) (setref : dns_cent -> dns_cent) n :
  (forall c, cent_ok c -> cent_ok (setref c)) -> (forall c, qname (setref c) = qname c) ->
  (forall c, cs (setref c) = cs c) -> (forall c, body (setref c) = body c) -> (forall c, flags (setref c) = flags c) ->
  inv s1 -> (if test then s1 = s else purged_entry s s1 id c /\ forall x, x ∈ rrl s1 -> x ∈ rrl s) ->
  cents s !! id = Some c ->
  runs (if st then _ ← (if test then mret tt else c ← deref id; store id (setref c)); mret (n + 1)%Z else mret n) s1
    (fun n' s2 => inv s2 /\ (n <= n')%Z /\ (if test then s2 = s else purged_entry s s2 id c /\ forall x, x ∈ rrl s2 -> x ∈ rrl s)).
Proof.
  intros H1 H2 H3 H4 H5 Hi Hst Hc. destruct st; [|by apply runs_ret; splits; [|lia|]].
  apply runs_bind. destruct test; [by apply runs_ret, runs_ret; splits; [|lia|]|].
  destruct Hst as [(c' & Hcs & Hsl & Hq & Hn & Hk & Hf) Hr].
  assert (Hc' : cents s1 !! id = Some c') by (rewrite Hcs; apply lookup_insert_eq).
  apply runs_bind. eapply runs_deref; [exact Hc'|]. apply runs_mod, runs_ret.
  destruct (changed_ref s1 id c' (setref c') Hi Hc') as [Hi2 Hr2]; [by apply H1, (inv_cent s1 id)|by auto..|].
  splits; [done|lia| |].
  - exists (setref c'). splits.
    + cbn. by rewrite Hcs, insert_insert_eq.
    + intros j. rewrite <- Hsl. unfold slot, sets. by rewrite H4.
    + by rewrite H2.
    + unfold is_neg in *. by rewrite H4.
    + done.
    + intros m Hm. rewrite H5. by apply Hf.
  - intros x Hx. by apply Hr, Hr2.
Qed.

Lemma count_eq_purged a : count_sets (purged now <$> a) = count_sets a -> purged now <$> a = a.
Proof.
  assert (Hle : forall a, (count_sets (purged now <$> a) <= count_sets a)%Z).
  { clear a. induction a as [|r a IH]; [done|]. rewrite fmap_cons, !count_sets_cons.
    destruct r as [rs|]; cbn; [destruct (must_go now rs)|]; cbn [one]; lia. }
  induction a as [|r a IH]; [done|]. rewrite fmap_cons, !count_sets_cons. intros H. specialize (Hle a).
  destruct r as [rs|]; cbn [purged] in *.
  - destruct (must_go now rs); cbn [one] in H; [lia|]. f_equal. apply IH. lia.
  - f_equal. apply IH. cbn [one] in H. lia.
Qed.

(** Nothing would be left of an entry: it is empty after purging, and if it is
    negative as a whole, that has expired too. *)
Definition expired (c : dns_cent) : bool :=
  (count_sets (purged now <$> sets c) =? 0)%Z &&
  (if is_neg c then negb (tst (flags c) DF_LOCAL) && default false (timedout_nxdom now c) else true).

(** The decision to remove the whole entry. *)
Lemma runs_gone s id c (delete : bool) numrrs :
  inv s -> cents s !! id = Some c ->
  runs (if delete && (numrrs =? 0)%Z then
          if negb (tst (flags c) DF_NEGATIVE) then mret true
          else if negb (tst (flags c) DF_LOCAL) then liftM (timedout_nxdom now c)
          else mret false
        else mret false) s (fun b s' => s' = s /\ b = delete && ((numrrs =? 0)%Z &&
          (if is_neg c then negb (tst (flags c) DF_LOCAL) && default false (timedout_nxdom now c) else true))).
Proof.
  intros Hi Hc. destruct delete; cbn [andb]; [|by apply runs_ret]. destruct (numrrs =? 0)%Z; [|by apply runs_ret].
  pose proof (inv_cent s id c Hi Hc) as ([Hn _] & _). rewrite Hn.
  destruct (is_neg c) eqn:En; cbn [negb andb]; [|by apply runs_ret].
  destruct (negb (tst (flags c) DF_LOCAL)); [|by apply runs_ret].
  unfold is_neg, timedout_nxdom in *. destruct (body c); [|done]. by eapply runs_lift.
Qed.

Lemma runs_purge_cent s id c (del test : bool) :
  inv s -> cents s !! id = Some c ->
  runs (purge_cent now id del test) s (fun n s' => inv s' /\ (forall x, x ∈ rrl s' -> x ∈ rrl s) /\
    (n <? 0)%Z = del && expired c /\ mem s' = mem s /\
    if test then s' = s /\ (n = 0%Z -> forall j, purged now (slot c j) = slot c j)
    else if (n <? 0)%Z then cents s' = delete id (cents s) else purged_entry s s' id c).
Proof.
  intros Hi Hc. unfold purge_cent.
  apply runs_bind. eapply runs_weaken; [by apply (runs_purge_all now s id c test)|].
  intros [npurge numrrs] s1 (Hnr & Hnp & Hst). cbn [fst snd] in *.
  set (d := (count_sets (sets c) - count_sets (purged now <$> sets c))%Z) in *.
  assert (Hd : (0 <= d)%Z /\ (d = 0%Z -> forall j, purged now (slot c j) = slot c j)).
  { unfold d. split.
    - clear. induction (sets c) as [|r a IH]; [done|]. rewrite fmap_cons, !count_sets_cons.
      destruct r as [rs|]; cbn; [destruct (must_go now rs)|]; cbn [one]; lia.
    - intros E j. unfold slot. assert (Hp : purged now <$> sets c = sets c) by (apply count_eq_purged; lia).
      rewrite <- Hp at 2. rewrite list_lookup_fmap. by destruct (sets c !! j) as [[?|]|]. }
  destruct Hd as [Hd0 Hd].
  assert (Hc1 : exists c1, cents s1 !! id = Some c1 /\ inv s1 /\
    ((if is_neg c1 then negb (tst (flags c1) DF_LOCAL) && default false (timedout_nxdom now c1) else true) =
     (if is_neg c then negb (tst (flags c) DF_LOCAL) && default false (timedout_nxdom now c) else true)) /\
    if test then s1 = s /\ c1 = c
    else (purged_entry s s1 id c /\ forall x, x ∈ rrl s1 -> x ∈ rrl s) /\ cents s1 = <[id := c1]> (cents s)).
  { destruct test; [subst s1; by exists c|]. destruct Hst as (c1 & Hch & Hsl & Hsame & _). exists c1.
    split; [by eapply changed_lookup|]. destruct Hch as (Hi1 & Hcs1 & Hk & (Hok1 & Hke & Hn1 & Hf1) & Hr).
    split; [done|]. split; [rewrite Hn1; destruct (is_neg c); [by rewrite Hsame|done]|].
    split; [|done]. split; [|done]. exists c1. splits; try done. apply Hke. }
  destruct Hc1 as (c1 & Hc1 & Hi1 & Hex & Hst1). apply runs_bind. eapply runs_deref; [exact Hc1|].
  apply runs_bind. eapply runs_weaken; [by eapply runs_gone|]. intros gone s1' [-> Hgone].
  rewrite Hex, Hnr in Hgone. fold (expired c) in Hgone.
  assert (Hrr : forall x, x ∈ rrl s1 -> x ∈ rrl s) by (destruct test; [by destruct Hst1 as [-> _]|by destruct Hst1 as [[_ ?] _]]).
  destruct gone.
  { apply runs_bind. destruct test.
    - apply runs_ret, runs_ret. destruct Hst1 as [-> _]. splits; [done|done|done|done|done|lia].
    - pose proof Hst1 as [_ Hcs1].
      eapply runs_weaken; [apply (runs_del_cache_ent s1 id c1 None); [done|done|done]|].
      intros _ s2 (Hi2 & Hcs2 & Hr2 & _ & _ & _ & _ & Hm2). apply runs_ret. splits; [done| |done| |].
      + intros x Hx. apply Hrr. rewrite Hr2 in Hx. by apply rrl_drop_incl in Hx.
      + rewrite Hm2. destruct Hst1 as [[(? & _ & _ & _ & _ & (_ & _ & Hm) & _) _] _]. exact Hm.
      + cbn. by rewrite Hcs2, Hcs1, delete_insert_eq. }
  assert (Hdone : forall n s2, inv s2 -> (npurge <= n)%Z ->
    (if test then s2 = s else purged_entry s s2 id c /\ forall x, x ∈ rrl s2 -> x ∈ rrl s) ->
    inv s2 /\ (forall x, x ∈ rrl s2 -> x ∈ rrl s) /\ (n <? 0)%Z = del && expired c /\ mem s2 = mem s /\
    if test then s2 = s /\ (n = 0%Z -> forall j, purged now (slot c j) = slot c j)
    else if (n <? 0)%Z then cents s2 = delete id (cents s) else purged_entry s s2 id c).
  { intros n s2 Hi2 Hn H2. splits; [done| |rewrite <- Hgone; apply Z.ltb_ge; lia| |].
    - destruct test; [by subst s2|apply H2].
    - destruct test; [by subst s2|]. destruct H2 as [(? & _ & _ & _ & _ & (_ & _ & Hm) & _) _]. exact Hm.
    - destruct test; [split; [done|]; intros ->; apply Hd; lia|]. bool_false (n <? 0)%Z. apply H2. }
  assert (Hst2 : if test then s1 = s else purged_entry s s1 id c /\ forall x, x ∈ rrl s1 -> x ∈ rrl s)
    by (destruct test; [apply Hst1|apply Hst1]).
  destruct (negb (tst (flags c1) DF_LOCAL)); [|by apply runs_ret, Hdone; [|lia|]].
  assert (Hok1 : cent_ok c1) by (by eapply inv_cent). pose proof Hok1 as (_ & (N & HN & Hq) & _).
  pose proof (rhnsegcnt_enc N [] (proj1 HN)) as Hseg. rewrite app_nil_r, <- Hq in Hseg. run_lift; [exact Hseg|].
  apply runs_bind. eapply runs_weaken with (Q := fun n s2 => inv s2 /\ (npurge <= n)%Z /\
    (if test then s2 = s else purged_entry s s2 id c /\ forall x, x ∈ rrl s2 -> x ∈ rrl s)).
  { destruct (negb (c_ns c1 =? cundef)%Z); [|by apply runs_ret; splits; [|lia|]].
    apply runs_bind. eapply runs_weaken; [by apply runs_stale_ref; [| |unfold RRMUINDEX_NS, NRRMU; lia]|]. intros st s2 ->.
    eapply runs_clear_ref; try done. }
  intros n s2 (Hi2 & Hn2 & H2).
  assert (Hc2 : exists c2, cents s2 !! id = Some c2).
  { destruct test; [subst s2; by exists c|]. destruct H2 as [(c2 & -> & _) _]. exists c2. apply lookup_insert_eq. }
  destruct Hc2 as [c2 Hc2]. apply runs_bind. eapply runs_deref; [exact Hc2|].
  destruct (negb (c_soa c2 =? cundef)%Z); [|by apply runs_ret, Hdone].
  apply runs_bind. eapply runs_weaken; [apply runs_stale_ref; [done|by eapply inv_cent|unfold RRMUINDEX_SOA, NRRMU; lia]|]. intros st s3 ->.
  eapply runs_weaken; [by eapply (runs_clear_ref s s2 id c test st (set_c_soa cundef) n)|]. cbn beta.
  intros n3 s3 (Hi3 & Hn3 & H3). apply Hdone; [done|lia|done].
Qed.
End PurgeCent.
