(* ===== verification/CachePurge.v ===== *)
(** The cleanup of the whole cache, [purge_cache] of cache.c: it visits every node of
    the list of record sets at most twice, keeps the invariant of CacheInv and all
    local data, and ends below the size limit unless only local data is left. *)
From S2P Require Import Prelude Names RrTypes HashTab RrList Cent CentSpec Cache CacheInv.


Section PurgeCache.
Context {P : Platform} (now : Z).

(** ** Purging takes sets away, but never local data *)

(** The entry has lost some of its sets. *)
Definition reduced (c c' : dns_cent) : Prop :=
  qname c' = qname c /\ is_neg c' = is_neg c /\ forall i, slot c' i = slot c i \/ slot c' i = None.

Lemma reduced_refl c : reduced c c.
Proof. unfold reduced. splits; auto. Qed.

Lemma reduced_trans a b c : reduced a b -> reduced b c -> reduced a c.
Proof.
  intros (Hq & Hn & Hs) (Hq' & Hn' & Hs'). unfold reduced. splits; [congruence|congruence|]. intros i.
  destruct (Hs' i) as [->|E]; [apply Hs|by right].
Qed.

Definition only_purged (s s' : cache) : Prop :=
  (forall id c, cents s !! id = Some c ->
    (tst (flags c) DF_LOCAL = true -> cents s' !! id = Some c) /\
    (forall i rs, slot c i = Some rs -> tst (rs_flags rs) CF_LOCAL = true ->
       exists c', cents s' !! id = Some c' /\ qname c' = qname c /\ slot c' i = Some rs)) /\
  (forall id c', cents s' !! id = Some c' -> exists c, cents s !! id = Some c /\ reduced c c').

Lemma only_purged_cents s s' : cents s' = cents s -> only_purged s s'.
Proof.
  intros E. split; rewrite E; [|intros id c' Hc; exists c'; split; [done|apply reduced_refl]].
  intros id c Hc. split; [done|]. intros i rs Hs _. by exists c.
Qed.

Lemma only_purged_refl s : only_purged s s.
Proof. by apply only_purged_cents. Qed.

Lemma only_purged_trans s1 s2 s3 : only_purged s1 s2 -> only_purged s2 s3 -> only_purged s1 s3.
Proof.
  intros [H12 R12] [H23 R23]. split.
  - intros id c Hc. destruct (H12 id c Hc) as [Hl Hs]. split.
    + intros Hd. by apply (H23 id c); [apply Hl|].
    + intros i rs Hsl Hf. destruct (Hs i rs Hsl Hf) as (c' & Hc' & Hq & Hsl').
      rewrite <- Hq. by apply (H23 id c' Hc').
  - intros id c3 H3. destruct (R23 id c3 H3) as (c2 & H2 & Hr2). destruct (R12 id c2 H2) as (c1 & H1 & Hr1).
    exists c1. split; [done|by eapply reduced_trans].
Qed.

(** Changing an entry that is not local, keeping its local sets. *)
Lemma only_purged_change s s' id c c' :
  cents s !! id = Some c -> tst (flags c) DF_LOCAL = false -> cents s' = <[id := c']> (cents s) -> reduced c c' ->
  (forall i rs, slot c i = Some rs -> tst (rs_flags rs) CF_LOCAL = true -> slot c' i = Some rs) ->
  only_purged s s'.
Proof.
  intros Hc Hd Hcs Hr Hsl. split; intros id' c2 Hc2; rewrite Hcs in *; destruct (decide (id = id')) as [<-|Hne].
  - rewrite Hc in Hc2. injection Hc2 as <-. rewrite lookup_insert_eq. split; [congruence|].
    intros i rs Hs Hf. exists c'. splits; [done|apply Hr|]. by apply Hsl.
  - rewrite lookup_insert_ne by done. split; [done|]. intros i rs Hs _. by exists c2.
  - rewrite lookup_insert_eq in Hc2. injection Hc2 as <-. by exists c.
  - rewrite lookup_insert_ne in Hc2 by done. exists c2. split; [done|apply reduced_refl].
Qed.

Lemma only_purged_delete s s' id c :
  cents s !! id = Some c -> tst (flags c) DF_LOCAL = false -> cents s' = delete id (cents s) ->
  (forall i, slot c i = None) -> only_purged s s'.
Proof.
  intros Hc Hd Hcs Hsl. split; intros id' c2 Hc2; rewrite Hcs in *.
  - destruct (decide (id = id')) as [<-|Hne].
    + rewrite Hc in Hc2. injection Hc2 as <-. split; [congruence|]. intros i rs Hs. by rewrite Hsl in Hs.
    + rewrite lookup_delete_ne by done. split; [done|]. intros i rs Hs _. by exists c2.
  - apply lookup_delete_Some in Hc2 as [_ Hc2]. exists c2. split; [done|apply reduced_refl].
Qed.

Lemma empty_entry c : cent_ok c -> num_rrs c = 0%Z -> forall i, slot c i = None.
Proof.
  intros (_ & _ & _ & Hn) H0 i. rewrite Hn in H0. apply count_zero_nones in H0. unfold slot. rewrite H0.
  destruct (replicate _ None !! i) as [r|] eqn:E; [|done]. by apply lookup_replicate in E as [-> _].
Qed.

Lemma empty_lents c : (forall i, slot c i = None) -> cent_lents c = option_list (lent_of c None).
Proof.
  intros H. unfold cent_lents, lent_of. destruct (body c) as [l|rrmu rrext] eqn:Hb; [done|].
  assert (Hl : forall p, p ∉ lents (sets c)).
  { intros p Hp. apply elem_of_lents in Hp as (i & rs & Hi & _). specialize (H i). unfold slot in H.
    rewrite Hi in H. done. }
  destruct (lents (sets c)) as [|p ls]; [done|]. destruct (Hl p). by left.
Qed.

(** Whether a node belongs to local data. *)
Definition is_local (s : cache) (v : lent_val) : Prop :=
  exists c, cents s !! lv_cent v = Some c /\
    (tst (flags c) DF_LOCAL = true \/
     exists i rs, lv_idx v = Some i /\ slot c i = Some rs /\ tst (rs_flags rs) CF_LOCAL = true).

Lemma is_local_kept s s' v : only_purged s s' -> is_local s v -> is_local s' v.
Proof.
  intros H (c & Hc & [Hd|(i & rs & Hv & Hs & Hf)]); destruct (proj1 H _ c Hc) as [H1 H2].
  - exists c. split; [by apply H1|by left].
  - destruct (H2 i rs Hs Hf) as (c' & Hc' & _ & Hs'). exists c'. split; [done|]. right. by exists i, rs.
Qed.

(** A node of the list and what it belongs to. *)
Lemma node_entry s p v :
  heap_ok s -> (p, v) ∈ rrl s ->
  exists c, cents s !! lv_cent v = Some c /\ cent_ok c /\ lent_of c (lv_idx v) = Some p /\
    match lv_idx v with
    | Some i => exists rs, slot c i = Some rs /\ i < NRRTOT /\ is_neg c = false
    | None => is_neg c = true
    end.
Proof.
  intros Hi Hin. pose proof Hi as (Hok & (_ & Hl) & _). destruct v as [id idx].
  apply Hl in Hin as (c & Hc & Hp). exists c. cbn. pose proof (Hok id c Hc) as [Hcok _].
  splits; [done|done|done|]. unfold lent_of in Hp. destruct idx as [i|].
  - destruct (slot c i) as [rs|] eqn:Hs; [|done]. exists rs. split; [done|]. apply (slot_lt c i rs); [apply Hcok|done].
  - unfold is_neg. by destruct (body c).
Qed.

Lemma runs_lent_local s p v :
  inv s -> (p, v) ∈ rrl s ->
  runs (lent_local v) s (fun b s' => s' = s /\ (b = true <-> is_local s v)).
Proof.
  intros Hi Hin. destruct (node_entry s p v (proj1 Hi) Hin) as (c & Hc & Hok & Hp & Hv). unfold lent_local.
  apply runs_bind. eapply runs_deref; [exact Hc|]. apply runs_bind.
  destruct (lv_idx v) as [i|] eqn:Hidx.
  - destruct Hv as (rs & Hs & Hlt & Hn). run_lift; [apply slot_index; [apply Hok|exact Hs]|].
    run_lift; [done|]. apply runs_ret, runs_ret. split; [done|]. rewrite orb_true_iff. split.
    + intros [H|H]; exists c; (split; [done|]); [right; by exists i, rs|by left].
    + intros (c' & Hc' & H). rewrite Hc in Hc'. injection Hc' as <-. destruct H as [?|(i' & rs' & E & Hs' & Hf)]; [by right|].
      rewrite Hidx in E. injection E as <-. rewrite Hs in Hs'. injection Hs' as <-. by left.
  - apply runs_ret, runs_ret. split; [done|]. cbn [orb]. split.
    + intros H. exists c. split; [done|by left].
    + intros (c' & Hc' & H). rewrite Hc in Hc'. injection Hc' as <-. destruct H as [?|(i' & rs' & E & _)]; [done|]. congruence.
Qed.
End PurgeCache.

(** ** [purge_cache] *)

Lemma nodup_split {A} (pre post : list (positive * A)) p v :
  NoDup (pre ++ (p, v) :: post).*1 -> p ∉ pre.*1 /\ p ∉ post.*1.
Proof.
  rewrite fmap_app, fmap_cons. cbn [fst]. intros (_ & Hd & Hnd)%NoDup_app. apply NoDup_cons in Hnd as [Hp _].
  split; [|done]. intros Hin. apply (Hd p Hin). by left.
Qed.

Lemma lent_next_split pre post p v :
  p ∉ pre.*1 -> lent_next (pre ++ (p, v) :: post) p = Some (v, fst <$> head post).
Proof.
  induction pre as [|[q w] pre IH]; intros Hn; cbn [app lent_next].
  - by rewrite Pos.eqb_refl.
  - cbn in Hn. apply not_elem_of_cons in Hn as [Hne Hn]. assert ((q =? p)%positive = false) as -> by (by apply Pos.eqb_neq).
    by apply IH.
Qed.

Lemma rrl_remove_absent p (l : list (positive * lent_val)) : p ∉ l.*1 -> rrl_remove p l = l.
Proof.
  unfold rrl_remove. induction l as [|x l IH]; intros Hn; [done|]. cbn in Hn. apply not_elem_of_cons in Hn as [Hne Hn].
  rewrite filter_cons_True by done. by rewrite IH.
Qed.

Lemma rrl_remove_split pre post p (v : lent_val) :
  NoDup (pre ++ (p, v) :: post).*1 -> rrl_remove p (pre ++ (p, v) :: post) = pre ++ post.
Proof.
  intros [Hpre Hpost]%nodup_split. unfold rrl_remove. rewrite filter_app, filter_cons_False by (cbn; tauto).
  fold (rrl_remove p pre) (rrl_remove p post). by rewrite !rrl_remove_absent.
Qed.

Section PurgeLoops.
Context {P : Platform} (now : Z).

(** What one round of a loop over the list does at the node [p]. *)
Definition round (s s' : cache) (p : positive) : Prop :=
  inv s' /\ only_purged s s' /\ (rrl s' = rrl s \/ rrl s' = rrl_remove p (rrl s)) /\
  insert_sort s' = insert_sort s.

Lemma num_rrs_slot c i rs : cent_ok c -> num_rrs c = 0%Z -> slot c i = Some rs -> False.
Proof. intros Hok H0 Hs. by rewrite (empty_entry c Hok H0 i) in Hs. Qed.

(** Deleting an entry that has no sets, and no node but [p]. *)
Lemma runs_del_empty s id c p :
  inv s -> cents s !! id = Some c -> num_rrs c = 0%Z -> tst (flags c) DF_LOCAL = false ->
  lent_of c None = None \/ lent_of c None = Some p ->
  runs (del_cache_ent id None) s (fun _ s' => round s s' p /\ (lent_of c None = Some p -> rrl s' = rrl_remove p (rrl s))).
Proof.
  intros Hi Hc H0 Hd Hl. pose proof (empty_entry c (inv_cent s id c Hi Hc) H0) as Hsl.
  eapply runs_weaken; [by apply (runs_del_cache_ent s id c None)|].
  intros _ s' (Hi' & Hcs & Hr & _ & _ & _ & His & _). rewrite (empty_lents c Hsl) in Hr.
  assert (Hr' : lent_of c None = Some p -> rrl s' = rrl_remove p (rrl s)).
  { intros E. rewrite Hr, E. cbn. by rewrite <- rrl_drop_cons, rrl_drop_nil. }
  split; [|done]. unfold round. splits; [done|by eapply only_purged_delete| |done].
  destruct Hl as [E|E]; [left; rewrite Hr, E; apply rrl_drop_nil|right; by apply Hr'].
Qed.

Lemma round_trans s1 s2 s3 p :
  round s1 s2 p -> rrl s2 = rrl_remove p (rrl s1) -> round s2 s3 p -> round s1 s3 p /\ rrl s3 = rrl_remove p (rrl s1).
Proof.
  intros (Hi & Hl & _ & Hs) E (Hi' & Hl' & Hr' & Hs').
  assert (E3 : rrl s3 = rrl_remove p (rrl s1)).
  { destruct Hr' as [-> | ->]; [done|]. rewrite E. unfold rrl_remove. rewrite list_filter_filter.
    apply list_filter_iff. tauto. }
  split; [|done]. unfold round. splits; [done|by eapply only_purged_trans|by right|congruence].
Qed.

Lemma not_local s v c :
  ~ is_local s v -> cents s !! lv_cent v = Some c ->
  tst (flags c) DF_LOCAL = false /\
  forall i rs, lv_idx v = Some i -> slot c i = Some rs -> tst (rs_flags rs) CF_LOCAL = false.
Proof.
  intros Hn Hc. split.
  - destruct (tst (flags c) DF_LOCAL) eqn:E; [|done]. destruct Hn. exists c. split; [done|by left].
  - intros i rs Hv Hs. destruct (tst (rs_flags rs) CF_LOCAL) eqn:E; [|done]. destruct Hn. exists c.
    split; [done|]. right. by exists i, rs.
Qed.

(** Dropping a set that is not local. *)
Lemma dropped_kept s s' id c c' i rs :
  cents s !! id = Some c -> tst (flags c) DF_LOCAL = false -> slot c i = Some rs -> tst (rs_flags rs) CF_LOCAL = false ->
  cents s' = <[id := c']> (cents s) -> qname c' = qname c -> is_neg c' = is_neg c -> slot c' i = None ->
  (forall j, j <> i -> slot c' j = slot c j) -> only_purged s s'.
Proof.
  intros Hc Hd Hs Hf Hcs Hq Hn Hnone Ho. eapply only_purged_change; [exact Hc|done|exact Hcs| |].
  { unfold reduced. splits; [done|done|]. intros j. destruct (decide (j = i)) as [->|Hne]; [by right|left; by apply Ho]. }
  intros j rs' Hj Hl. rewrite Ho; [done|]. intros ->. congruence.
Qed.

Lemma changed_round s s' id c c' i rs p :
  cents s !! id = Some c -> tst (flags c) DF_LOCAL = false -> slot c i = Some rs -> tst (rs_flags rs) CF_LOCAL = false ->
  changed s s' id c c' -> slot c' i = None -> (forall j, j <> i -> slot c' j = slot c j) ->
  rrl s' = rrl_remove p (rrl s) -> round s s' p.
Proof.
  intros Hc Hd Hs Hf (Hi & Hcs & [(_ & _ & _ & His) _] & (_ & (Hq & _) & Hn & _) & _) Hnone Ho Hr. unfold round. splits; [done| |by right|done].
  by eapply dropped_kept.
Qed.

Lemma round_refl s p : inv s -> round s s p.
Proof. intros Hi. unfold round. splits; [done|apply only_purged_refl|by left|done]. Qed.

Lemma changed_ok s s' id c c' : changed s s' id c c' -> cent_ok c' /\ tst (flags c') DF_LOCAL = tst (flags c) DF_LOCAL /\
  tst (flags c') DF_NEGATIVE = tst (flags c) DF_NEGATIVE /\ is_neg c' = is_neg c.
Proof. intros (_ & _ & _ & (Hok & _ & Hn & Hf) & _). splits; [done|by apply Hf|by apply Hf|done]. Qed.

Lemma pos_lent c : is_neg c = false -> lent_of c None = None.
Proof. unfold is_neg, lent_of. by destruct (body c). Qed.

Lemma neg_num c : cent_ok c -> is_neg c = true -> num_rrs c = 0%Z.
Proof. intros (_ & _ & _ & ->). unfold is_neg, sets. by destruct (body c). Qed.

(** The removal of an entry that has lost its last set. *)
Lemma runs_del_emptied s s1 id c' p :
  round s s1 p -> rrl s1 = rrl_remove p (rrl s) -> cents s1 !! id = Some c' -> cent_ok c' ->
  tst (flags c') DF_LOCAL = false -> is_neg c' = false ->
  runs (if (num_rrs c' =? 0)%Z then del_cache_ent id None else mret tt) s1
    (fun _ s' => round s s' p /\ rrl s' = rrl_remove p (rrl s)).
Proof.
  intros Hr E Hc' Hok Hd Hn. destruct (num_rrs c' =? 0)%Z eqn:E0; [|by apply runs_ret]. boolp.
  eapply runs_weaken; [eapply (runs_del_empty s1 id c' p); [apply Hr|done..|]|].
  - left. by apply pos_lent.
  - intros _ s2 [Hr2 _]. by eapply round_trans.
Qed.

Lemma runs_round_timedout s p v :
  inv s -> (p, v) ∈ rrl s -> runs (purge_lent_timedout now v) s (fun _ s' => round s s' p).
Proof.
  intros Hi Hin. destruct (node_entry s p v (proj1 Hi) Hin) as (c & Hc & Hok & Hp & Hv). unfold purge_lent_timedout.
  apply runs_bind. eapply runs_weaken; [by eapply runs_lent_local|]. intros loc s0 [-> Hloc].
  destruct loc; cbn [negb]; [by apply runs_ret, round_refl|].
  destruct (not_local s v c) as [Hd Hsl]; [by rewrite <- Hloc|done|].
  apply runs_bind. destruct (lv_idx v) as [i|].
  - destruct Hv as (rs & Hs & Hlt & Hn). specialize (Hsl i rs eq_refl Hs).
    apply runs_bind. eapply runs_weaken; [by apply (runs_purge_rrset now s (lv_cent v) c i)|].
    intros _ s1 (c' & Hch & Hsi & Hso & Hr). apply runs_ret. rewrite Hs in *.
    pose proof (changed_lookup _ _ _ _ _ Hch) as Hc'.
    destruct (changed_ok _ _ _ _ _ Hch) as (Hok' & Hd' & Hng' & Hn'). rewrite Hd in Hd'. rewrite Hn in Hn'.
    assert (Hng : tst (flags c') DF_NEGATIVE = false) by (destruct Hok' as [[-> _] _]; done).
    apply runs_bind. eapply runs_deref; [exact Hc'|]. rewrite Hng. cbn [negb].
    cbn [purged] in *. destruct (must_go now rs).
    + assert (E : rrl s1 = rrl_remove p (rrl s)).
      { rewrite Hr, Hp. done. }
      assert (Hrd : round s s1 p) by (by eapply changed_round).
      pose proof (runs_del_emptied s s1 (lv_cent v) c' p Hrd E Hc' Hok' Hd' Hn') as Hdel.
      apply runs_bind. destruct (num_rrs c' =? 0)%Z; apply runs_ret; eapply runs_weaken; try apply Hdel; by intros _ s' [? _].
    + destruct (num_rrs c' =? 0)%Z eqn:E0; boolp; [by destruct (num_rrs_slot c' i rs)|].
      apply runs_bind, runs_ret, runs_ret. destruct Hch as (Hi1 & Hcs1 & [(_ & _ & _ & His) _] & (_ & (Hq & _) & Hneq & _) & _).
      assert (Hsame : forall j, slot c' j = slot c j) by (intros j; destruct (decide (j = i)) as [->|Hne]; [congruence|by rewrite Hso]).
      unfold round. splits; [done| |by left|done]. eapply only_purged_change; [exact Hc|done|exact Hcs1|unfold reduced; splits; [done|done|intros j; left; apply Hsame]|].
      intros j rs' Hj _. by rewrite Hsame.
  - apply runs_ret, runs_bind. eapply runs_deref; [exact Hc|]. rewrite (neg_num c Hok Hv), Z.eqb_refl, Hd. cbn [negb].
    pose proof Hok as ([Hng _] & _). rewrite Hng, Hv. cbn [negb].
    apply runs_bind. unfold timedout_nxdom, is_neg in *. destruct (body c) as [l ttl ts|] eqn:Hb; [|done].
    eapply runs_lift; [done|]. destruct (_ <? now)%Z; [|by apply runs_ret, round_refl].
    eapply runs_weaken; [apply (runs_del_empty s (lv_cent v) c p); try done|by intros _ s' [? _]].
    + apply neg_num; [done|]. unfold is_neg. by rewrite Hb.
    + by right.
Qed.

Lemma runs_round_oldest s p v :
  inv s -> (p, v) ∈ rrl s -> runs (purge_lent_oldest v) s (fun _ s' => round s s' p /\
    (is_local s v \/ rrl s' = rrl_remove p (rrl s))).
Proof.
  intros Hi Hin. destruct (node_entry s p v (proj1 Hi) Hin) as (c & Hc & Hok & Hp & Hv). unfold purge_lent_oldest.
  apply runs_bind. eapply runs_weaken; [by eapply runs_lent_local|]. intros loc s0 [-> Hloc].
  destruct loc; cbn [negb]; [apply runs_ret; split; [by apply round_refl|left; by apply Hloc]|].
  destruct (not_local s v c) as [Hd Hsl]; [by rewrite <- Hloc|done|].
  apply runs_bind. destruct (lv_idx v) as [i|].
  - destruct Hv as (rs & Hs & Hlt & Hn). specialize (Hsl i rs eq_refl Hs).
    eapply runs_weaken; [by apply (runs_drop_set_inv s (lv_cent v) c i)|].
    intros _ s1 (c' & Hch & Hcl & Hr). rewrite Hp in Hr.
    pose proof (changed_lookup _ _ _ _ _ Hch) as Hc'.
    destruct (changed_ok _ _ _ _ _ Hch) as (Hok' & Hd' & _ & Hn'). rewrite Hd in Hd'. rewrite Hn in Hn'.
    assert (Hrd : round s s1 p).
    { eapply changed_round; try done; [|intros j Hj]; rewrite (cleared_slot _ _ _ _ Hcl); [by rewrite decide_True|by rewrite decide_False]. }
    apply runs_bind. eapply runs_deref; [exact Hc'|].
    eapply runs_weaken; [by apply (runs_del_emptied s s1 (lv_cent v) c' p)|]. cbn beta. tauto.
  - apply runs_ret, runs_bind. eapply runs_deref; [exact Hc|]. rewrite (neg_num c Hok Hv), Z.eqb_refl.
    eapply runs_weaken; [apply (runs_del_empty s (lv_cent v) c p); try done; [by apply neg_num|by right]|].
    intros _ s' [? H]. split; [done|]. right. by apply H.
Qed.

(** After a round, the rest of the list is what is left to visit. *)
Lemma round_rest s s' p v pre post :
  inv s -> rrl s = pre ++ (p, v) :: post -> round s s' p ->
  exists pre', rrl s' = pre' ++ post /\ (forall x, x ∈ pre' -> x ∈ pre \/ x = (p, v)) /\
    (rrl s' = rrl_remove p (rrl s) -> pre' = pre).
Proof.
  intros Hi Hr (_ & _ & Hr' & _). pose proof Hi as ((_ & (Hnd & _) & _) & _). rewrite Hr in Hnd.
  assert (Hrem : rrl_remove p (rrl s) = pre ++ post) by (rewrite Hr; by apply rrl_remove_split).
  destruct Hr' as [E|E].
  - exists (pre ++ [(p, v)]). rewrite E. splits.
    + by rewrite Hr, <- app_assoc.
    + intros x [?|Hx]%elem_of_app; [by left|]. right. by apply list_elem_of_singleton in Hx.
    + intros Hx. exfalso. rewrite Hrem, Hr in Hx. apply (f_equal length) in Hx. rewrite !length_app in Hx. cbn in Hx. lia.
  - exists pre. rewrite E. splits; [done|by left|done].
Qed.

Lemma next_node s p v pre post :
  inv s -> rrl s = pre ++ (p, v) :: post -> lent_next (rrl s) p = Some (v, fst <$> head post) /\ (p, v) ∈ rrl s.
Proof.
  intros ((_ & (Hnd & _) & _) & _) Hr. rewrite Hr in *. split.
  - by apply lent_next_split, (nodup_split pre post p v).
  - apply elem_of_app. right. by left.
Qed.

Lemma runs_purge_timedout sz lazy : forall post fuel pre s,
  inv s -> rrl s = pre ++ post -> length post < fuel ->
  runs (purge_timedout now fuel sz lazy (fst <$> head post)) s (fun _ s' =>
    inv s' /\ only_purged s s' /\ insert_sort s' = insert_sort s /\ length (rrl s') <= length (rrl s)).
Proof.
  induction post as [|[p v] post IH]; intros fuel pre s Hi Hr Hf; (destruct fuel as [|fuel]; [cbn in Hf; lia|]);
    cbn [purge_timedout head fmap option_fmap option_map fst]; apply runs_bind, runs_get.
  - apply runs_ret. splits; [done|apply only_purged_refl|done|done].
  - destruct (negb lazy || (sz <? cache_size s)%Z); [|apply runs_ret; splits; [done|apply only_purged_refl|done|done]].
    destruct (next_node s p v pre post Hi Hr) as [Hnx Hin]. run_lift; [exact Hnx|].
    apply runs_bind. eapply runs_weaken; [by apply runs_round_timedout|]. cbn beta. intros _ s1 Hrd.
    destruct (round_rest s s1 p v pre post Hi Hr Hrd) as (pre' & Hr1 & Hx & Hpre).
    pose proof Hrd as (Hi1 & Hl1 & Hor & His).
    eapply runs_weaken; [apply (IH fuel pre' s1); [done|done|cbn in Hf; lia]|].
    cbn beta. intros _ s2 (Hi2 & Hl2 & His2 & Hlen). splits; [done|by eapply only_purged_trans|congruence|].
    assert (length (rrl s1) <= length (rrl s)); [|lia].
    destruct Hor as [-> | ->]; [done|]. unfold rrl_remove. apply length_filter.
Qed.

(** The second loop ends below the limit or with nothing but local data. *)
Lemma runs_purge_oldest sz : forall post fuel pre s,
  inv s -> rrl s = pre ++ post -> length post < fuel -> (forall x, x ∈ pre -> is_local s x.2) ->
  runs (purge_oldest fuel sz (fst <$> head post)) s (fun _ s' =>
    inv s' /\ only_purged s s' /\ insert_sort s' = insert_sort s /\ ((cache_size s' <= sz)%Z \/ forall x, x ∈ rrl s' -> is_local s' x.2)).
Proof.
  induction post as [|[p v] post IH]; intros fuel pre s Hi Hr Hf Hloc; (destruct fuel as [|fuel]; [cbn in Hf; lia|]);
    cbn [purge_oldest head fmap option_fmap option_map fst]; apply runs_bind, runs_get.
  - apply runs_ret. splits; [done|apply only_purged_refl|done|]. right. rewrite Hr, app_nil_r. done.
  - destruct (sz <? cache_size s)%Z eqn:Esz; boolp.
    2:{ apply runs_ret. splits; [done|apply only_purged_refl|done|left; lia]. }
    destruct (next_node s p v pre post Hi Hr) as [Hnx Hin]. run_lift; [exact Hnx|].
    apply runs_bind. eapply runs_weaken; [by apply runs_round_oldest|]. intros _ s1 [Hrd Hcase].
    destruct (round_rest s s1 p v pre post Hi Hr Hrd) as (pre' & Hr1 & Hx & Hpre).
    pose proof Hrd as (Hi1 & Hl1 & _ & His).
    eapply runs_weaken; [apply (IH fuel pre' s1); [done|done|cbn in Hf; lia|]|].
    + intros x Hxin. destruct Hcase as [Hlv|E].
      * eapply is_local_kept; [exact Hl1|]. destruct (Hx x Hxin) as [?|E]; [by apply Hloc|by rewrite E].
      * rewrite (Hpre E) in Hxin. eapply is_local_kept; [exact Hl1|]. by apply Hloc.
    + cbn beta. intros _ s2 (Hi2 & Hl2 & His2 & Hend). splits; [done|by eapply only_purged_trans|congruence|done].
Qed.
End PurgeLoops.

Section PurgeCacheSpec.
Context {P : Platform} (now : Z).

(** Every node of the list has a time stamp. *)
Lemma rrlent_ts_ok s : heap_ok s -> ts_ok (rrlent_ts s) (rrl s).
Proof.
  intros Hi. apply Forall_forall. intros [p v] Hin. destruct (node_entry s p v Hi Hin) as (c & Hc & Hok & _ & Hv).
  cbn [snd]. unfold rrlent_ts. rewrite Hc. sbind. destruct (lv_idx v) as [i|].
  - destruct Hv as (rs & Hs & _). rewrite (slot_index c i rs) by (done || apply Hok). sbind. by eexists.
  - unfold is_neg in Hv. destruct (body c); [by eexists|done].
Qed.

Lemma linked_perm r r' m : r' ≡ₚ r -> linked r m -> linked r' m.
Proof. intros Hp [Hnd H]. split; [by rewrite Hp|]. intros p id idx. by rewrite Hp. Qed.

Lemma inv_perm s r' b : inv s -> r' ≡ₚ rrl s -> inv (with_insert_sort b (with_rrl r' s)).
Proof.
  intros ((Hok & Hl & Hlt) & Hm & Hn & Hsz) Hp. unfold inv. splits; try done. split; [done|]. split; cbn.
  - by eapply linked_perm.
  - intros x Hx. apply Hlt. by rewrite <- Hp.
Qed.

(** The sort that follows the reading of the disk cache can count the nodes. *)
Definition countable_rrl (s : cache) : Prop := insert_sort s = true \/ (Z.of_nat (length (rrl s)) < 2 ^ 32)%Z.

Lemma runs_purge_cache s sz lazy :
  inv s -> countable_rrl s ->
  runs (purge_cache now sz lazy) s (fun _ s' => inv s' /\ only_purged s s' /\ (insert_sort s = true -> insert_sort s' = true) /\
    ((cache_size s' <= sz)%Z \/ forall x, x ∈ rrl s' -> is_local s' x.2)).
Proof.
  intros Hi Hcnt. unfold purge_cache. apply runs_bind, runs_get. apply runs_bind.
  eapply runs_weaken; [apply (runs_purge_timedout now sz lazy (rrl s) _ [] s); [done|done|lia]|].
  cbn beta. intros _ s1 (Hi1 & Hl1 & His & Hlen). apply runs_bind, runs_get.
  destruct (cache_size s1 <=? sz)%Z eqn:Esz; boolp; [apply runs_ret; splits; [done|done|congruence|by left]|].
  apply runs_bind. eapply runs_weaken with (Q := fun _ s2 => inv s2 /\ cents s2 = cents s1 /\ (insert_sort s1 = true -> insert_sort s2 = true)).
  { destruct (insert_sort s1) eqn:Es; [by apply runs_ret|].
    destruct (sort_rrl_spec (rrlent_ts s1) (rrl s1)) as (l & Hsort & Hp & _).
    - apply rrlent_ts_ok, Hi1.
    - destruct Hcnt as [?|?]; [congruence|]. lia.
    - run_lift; [exact Hsort|]. apply runs_mod. splits; [by apply inv_perm|done|done]. }
  intros _ s2 (Hi2 & Hcs2 & His2). apply runs_bind, runs_get.
  eapply runs_weaken; [apply (runs_purge_oldest sz (rrl s2) _ [] s2); [done|done|lia|by intros x ?%not_elem_of_nil]|].
  cbn beta. intros _ s3 (Hi3 & Hl3 & His3 & Hend). splits; [done| |rewrite His3, <- His; exact His2|done].
  eapply only_purged_trans; [exact Hl1|]. eapply only_purged_trans; [|exact Hl3]. by apply only_purged_cents.
Qed.
End PurgeCacheSpec.
