(* ===== verification/CacheAdd.v ===== *)
(** Adding to the cache: [insert_rrl], [cr_check_add] and [add_cache] of cache.c keep
    the invariant, and what they leave in the cache. *)
From S2P Require Import Prelude Names RrTypes HashTab RrList Cent CentSpec Cache CacheInv CachePurge.


(** ** Linking a set into the list *)

Section InsertSpec.
Context {P : Platform}.

Lemma slot_ext c c' i : sets c' = sets c -> slot c' i = slot c i.
Proof. unfold slot. by intros ->. Qed.

(** What [insert_rrl] may be called for. *)
Definition insertable (c : dns_cent) (idx : option nat) : Prop :=
  lent_of c idx = None /\ match idx with Some i => is_Some (slot c i) | None => is_neg c = true end.

(** An entry that differs from [c] in the node of [idx] only. *)
Definition relinked (c c' : dns_cent) (idx : option nat) : Prop :=
  cent_ok c' /\ keeps c c' /\ flags c' = flags c /\ cs c' = cs c /\ is_neg c' = is_neg c /\
  strip c' = strip c /\ (forall j, idx <> Some j -> slot c' j = slot c j) /\
  forall idx', idx' <> idx -> lent_of c' idx' = lent_of c idx'.

Lemma relinked_refl c idx : cent_ok c -> relinked c c idx.
Proof. intros H. unfold relinked, keeps. by splits. Qed.

Lemma strip_set_body c b : strip_body b = strip_body (body c) -> strip (set_body b c) = strip c.
Proof. unfold strip. cbn. by intros ->. Qed.

Lemma strip_body_rr c c' : shape c -> shape c' -> is_neg c = false -> is_neg c' = false ->
  strip_set <$> sets c' = strip_set <$> sets c -> strip_body (body c') = strip_body (body c).
Proof.
  intros Hs Hs' Hn Hn' Hst. unfold is_neg, sets in *.
  destruct (body c) as [|rm re] eqn:Hb, (body c') as [|rm' re'] eqn:Hb'; try done.
  destruct (shape_rr c rm re Hs Hb) as (_ & Hm & Hl), (shape_rr c' rm' re' Hs' Hb') as (_ & Hm' & Hl').
  rewrite !fmap_app in Hst. apply app_inj_1 in Hst as [H1 H2]; [|by rewrite !length_fmap, Hm, Hm'].
  cbn [strip_body]. rewrite H1. f_equal.
  destruct re as [e|], re' as [e'|]; simpl in H2 |- *; [by rewrite H2|..|done].
  - apply (f_equal length) in H2. rewrite length_fmap, (Hl e eq_refl) in H2. done.
  - apply (f_equal length) in H2. rewrite length_fmap, (Hl' e' eq_refl) in H2. done.
Qed.

(** Giving a set a node. *)
Lemma relink_set c i rs p :
  cent_ok c -> slot c i = Some rs -> rs_lent rs = None ->
  exists c', rrarr_set c i (Some (rs_set_lent (Some p) rs)) = Some c' /\ relinked c c' (Some i) /\ lent_of c' (Some i) = Some p.
Proof.
  intros Hok Hs Hl. pose proof Hok as (Hsh & _).
  destruct (replace_set_ok c i rs (rs_set_lent (Some p) rs) 0 Hok Hs) as (b & Hset & Hok' & [Hf Ho] & Hn).
  { unfold rrset_size. cbn [rs_rrs rs_set_lent]. lia. }
  assert (Hcs : set_cs (cs c + 0) (set_body b c) = set_body b c) by (unfold set_cs, set_body; cbn; by rewrite Z.add_0_r).
  rewrite Hcs in Hok'. pose proof (slot_lt c i rs Hsh Hs) as [_ Hneg].
  pose proof (slot_lookup _ _ _ Hs) as Hlk. assert (Hlt : i < length (sets c)) by (by eapply lookup_lt_Some).
  destruct (rrarr_set_sets c i (Some (rs_set_lent (Some p) rs)) Hsh Hlt) as (b2 & Hset2 & _ & Hsets & _ & Hext).
  rewrite Hset in Hset2. injection Hset2 as <-.
  exists (set_body b c). split; [done|]. split; [|cbn; by rewrite Hf].
  unfold relinked, keeps. splits; try done.
  - congruence.
  - apply strip_set_body. apply (strip_body_rr c (set_body b c)); try done; [apply Hok'|].
    rewrite Hsets, list_fmap_insert, list_insert_id; [done|]. rewrite list_lookup_fmap, Hlk. cbn. f_equal.
  - intros j Hj. apply Ho. congruence.
  - intros [j|] Hj; cbn [lent_of].
    + rewrite Ho; [done|]. congruence.
    + unfold is_neg in *. cbn in *. by destruct b, (body c).
Qed.

Lemma relink_neg c ttl ts p :
  cent_ok c -> body c = Neg None ttl ts ->
  relinked c (set_body (Neg (Some p) ttl ts) c) None.
Proof.
  intros (Hs & Hq & Hcs & Hn) Hb. assert (Hng : is_neg c = true) by (unfold is_neg; by rewrite Hb).
  assert (Hss : sets (set_body (Neg (Some p) ttl ts) c) = sets c) by (unfold sets; by rewrite Hb).
  unfold relinked, keeps. splits; try done.
  - split; [|split; [done|split]].
    + destruct Hs as [H1 _]. split; [|done]. cbn. by rewrite H1, Hng.
    + unfold cent_size. rewrite Hss. change (cs (set_body _ c)) with (cs c). rewrite Hcs. unfold cent_size, ext_size. by rewrite Hb.
    + by rewrite Hss.
  - apply strip_set_body. by rewrite Hb.
  - intros j _. by apply slot_ext.
  - intros [j|] Hj; cbn [lent_of]; [|done]. by rewrite (slot_ext c).
Qed.

(** The state after [insert_rrl] for the entry at [id]. *)
Definition inserted (s s' : cache) (id : positive) (c c' : dns_cent) : Prop :=
  heap_ok s' /\ cents s' = <[id := c']> (cents s) /\ cache_size s' = cache_size s /\ steady s s'.

Lemma runs_insert_rrl s id c idx :
  heap_ok s -> cents s !! id = Some c -> insertable c idx ->
  runs (insert_rrl id idx) s (fun ok s' => exists c', inserted s s' id c c' /\ relinked c c' idx /\
    (plenty s -> ok = true /\ plenty s')).
Proof.
  intros Hh Hc [Hl Hix]. pose proof Hh as (Hok & Hlk & Hlt). destruct (Hok id c Hc) as [Hcok Hid].
  assert (Hsame : forall s1, mem_only s s1 -> inserted s s1 id c c).
  { intros s1 [m ->]. unfold inserted. splits; [done|cbn; by rewrite insert_id|done|by repeat split]. }
  unfold insert_rrl. apply runs_bind. eapply runs_deref; [exact Hc|].
  apply runs_bind. eapply runs_weaken with (Q := fun rrs s1 => s1 = s /\ match idx with Some i => rrs = slot c i /\ is_Some rrs | None => rrs = None end).
  { destruct idx as [i|]; [|by apply runs_ret]. destruct Hix as [rs Hrs]. run_lift; [apply slot_index; [apply Hcok|exact Hrs]|].
    run_lift; [done|]. apply runs_ret. rewrite Hrs. by splits. }
  intros rrs s1 [-> Hrrs].
  destruct (_ || tst (flags c) DF_LOCAL).
  { apply runs_ret. exists c. splits; [apply Hsame, mem_only_refl|by apply relinked_refl|done]. }
  run_with runs_alloc. intros b s1 [Hm Hp]. destruct b.
  2:{ apply runs_ret. exists c. splits; [by apply Hsame|by apply relinked_refl|by intros [? _]%Hp]. }
  apply runs_bind, runs_get. destruct Hm as [mm ->]. set (s1 := with_mem mm s) in *.
  set (v := {| lv_cent := id; lv_idx := idx |}). set (ne := next_lent s1).
  apply runs_bind. eapply runs_weaken with (Q := fun l s2 => s2 = s1 /\ l ≡ₚ (ne, v) :: rrl s).
  { destruct (insert_sort s1).
    - destruct (rrl_insert_spec (rrlent_ts s1) (ne, v) (rrl s1)) as (l & Hins & Hperm & _).
      + constructor; [|apply (rrlent_ts_ok s1 Hh)]. cbn [snd]. unfold rrlent_ts, v. cbn [lv_cent lv_idx].
        change (cents s1) with (cents s). rewrite Hc. sbind. destruct idx as [i|].
        * destruct Hix as [rs Hrs]. rewrite (slot_index c i rs (proj1 Hcok) Hrs). sbind. by eexists.
        * unfold is_neg in Hix. destruct (body c); [by eexists|done].
      + by eapply runs_lift.
    - apply runs_ret. split; [done|]. unfold rrl_append. change (rrl s1) with (rrl s). by rewrite Permutation_app_comm. }
  intros l s2 [-> Hperm]. apply runs_bind, runs_mod.
  assert (Hc' : exists c', relinked c c' idx /\ lent_of c' idx = Some ne /\
    match idx, rrs with
    | Some i, Some rs => rrarr_set c i (Some (rs_set_lent (Some ne) rs))
    | _, _ => match body c with Neg _ ttl ts => Some (set_body (Neg (Some ne) ttl ts) c) | Rr _ _ => None end
    end = Some c').
  { destruct idx as [i|].
    - destruct Hrrs as [-> [rs Hrs]]. rewrite Hrs in *. cbn in Hl. rewrite Hrs in Hl.
      destruct (relink_set c i rs ne Hcok Hrs Hl) as (c' & Hset & Hre & Hlo). by exists c'.
    - unfold is_neg in Hix. cbn in Hl. destruct (body c) as [l0 ttl ts|] eqn:Hb; [|done]. subst l0 rrs.
      eexists. split; [by apply relink_neg|]. by split. }
  destruct Hc' as (c' & Hre & Hlo & Hset). run_lift; [exact Hset|]. apply runs_bind, runs_mod, runs_ret.
  exists c'. splits; [|done|by intros H; split; [|apply Hp]].
  unfold inserted. splits; [|done|done|by repeat split].
  eapply (heap_ok_upd s _ id c c' l); [done|done|apply Hre| | | |done|done|done].
  - eapply (linked_add (rrl s) l (cents s) id c c' idx ne); [done|done| |done| |done].
    + intros Hin. apply list_elem_of_fmap in Hin as ([q w] & E & Hin). cbn in E. specialize (Hlt _ Hin). cbn in Hlt.
      unfold ne in E. cbn in E. lia.
    + intros idx'. destruct (decide (idx' = idx)) as [->|Hne]; [done|]. by apply Hre.
  - intros x Hx. rewrite Hperm in Hx. apply elem_of_cons in Hx as [->|?]; [right|by left]. cbn. unfold ne. cbn. lia.
  - cbn. unfold ne. cbn. lia.
Qed.
End InsertSpec.

Section EnterSpec.
Context {P : Platform} (global : globals).

(** Replacing a set by one with the same records and the same node. *)
Lemma retouch_set c i rs rs' :
  cent_ok c -> slot c i = Some rs -> rs_rrs rs' = rs_rrs rs -> rs_lent rs' = rs_lent rs ->
  exists b, rrarr_set c i (Some rs') = Some (set_body b c) /\ cent_ok (set_body b c) /\
    slot (set_body b c) i = Some rs' /\ (forall j, j <> i -> slot (set_body b c) j = slot c j) /\
    is_neg (set_body b c) = false /\ (forall idx, lent_of (set_body b c) idx = lent_of c idx) /\
    sets (set_body b c) = <[i := Some rs']> (sets c) /\ ext_size (set_body b c) = ext_size c.
Proof.
  intros Hok Hs Hrr Hl. pose proof Hok as (Hsh & _). pose proof (slot_lt c i rs Hsh Hs) as [_ Hneg].
  destruct (replace_set_ok c i rs rs' 0 Hok Hs) as (b & Hset & Hok' & [Hf Ho] & Hn).
  { unfold rrset_size. rewrite Hrr. lia. }
  assert (Hcs : set_cs (cs c + 0) (set_body b c) = set_body b c) by (unfold set_cs, set_body; cbn; by rewrite Z.add_0_r).
  rewrite Hcs in Hok'. pose proof (slot_lookup _ _ _ Hs) as Hlk. assert (Hlt : i < length (sets c)) by (by eapply lookup_lt_Some).
  destruct (rrarr_set_sets c i (Some rs') Hsh Hlt) as (b2 & Hset2 & _ & Hsets & _ & Hext).
  rewrite Hset in Hset2. injection Hset2 as <-. exists b. splits; try done.
  intros [j|]; [|by rewrite !pos_lent]. cbn [lent_of]. destruct (decide (j = i)) as [->|Hne].
  - rewrite Hf, Hs. done.
  - by rewrite Ho.
Qed.

Lemma adjust_ttl_same rs : rs_rrs (adjust_ttl global rs) = rs_rrs rs /\ rs_lent (adjust_ttl global rs) = rs_lent rs /\
  rs_ts (adjust_ttl global rs) = rs_ts rs.
Proof.
  unfold adjust_ttl. destruct (tst (rs_flags rs) CF_NOCACHE); [done|]. cbv zeta.
  destruct (rs_ttl rs <? _)%Z; [done|]. by destruct (_ <? rs_ttl rs)%Z.
Qed.

Definition touched (c c' : dns_cent) : Prop :=
  cent_ok c' /\ keeps c c' /\ flags c' = flags c /\ cs c' = cs c /\ is_neg c' = is_neg c /\
  length (sets c') = length (sets c).

Lemma touched_refl c : cent_ok c -> touched c c.
Proof. intros H. unfold touched, keeps. by splits. Qed.

Lemma touched_trans c1 c2 c3 : touched c1 c2 -> touched c2 c3 -> touched c1 c3.
Proof.
  intros (_ & Hk & ? & ? & ? & ?) (? & Hk' & ? & ? & ? & ?). unfold touched.
  splits; [done|by eapply keeps_trans|congruence..].
Qed.

Lemma strip_length c c' : strip c' = strip c -> length (sets c') = length (sets c).
Proof.
  intros E. apply (f_equal sets) in E. rewrite !sets_strip in E. apply (f_equal length) in E.
  by rewrite !length_fmap in E.
Qed.

Lemma strip_slot c c' i : strip c' = strip c -> strip_set (slot c' i) = strip_set (slot c i).
Proof. intros E. by rewrite <- !slot_strip, E. Qed.

Lemma relinked_touched c c' idx : relinked c c' idx -> touched c c'.
Proof.
  intros (? & ? & ? & ? & ? & ? & _). unfold touched. splits; try done. by apply strip_length.
Qed.

(** Slot [i] holds the set of [c] with its time-to-live adjusted, whatever its node. *)
Definition entered (c c' : dns_cent) (i : nat) : Prop :=
  strip_set (slot c' i) = strip_set (adjust_ttl global <$> slot c i).

Lemma inserted_trans s1 s2 s3 id c1 c2 c3 :
  inserted s1 s2 id c1 c2 -> inserted s2 s3 id c2 c3 -> inserted s1 s3 id c1 c3.
Proof.
  intros (_ & Hc & Hs & Hst) (? & Hc' & Hs' & Hst'). unfold inserted.
  splits; [done|by rewrite Hc', Hc, insert_insert_eq|congruence|by eapply steady_trans].
Qed.

Lemma inserted_lookup s s' id c c' : inserted s s' id c c' -> cents s' !! id = Some c'.
Proof. intros (_ & -> & _). apply lookup_insert_eq. Qed.

(** Storing an entry with the same nodes. *)
Lemma inserted_store s id c c' :
  heap_ok s -> cents s !! id = Some c -> cent_ok c' -> (forall idx, lent_of c' idx = lent_of c idx) ->
  inserted s (with_cents (<[id := c']> (cents s)) s) id c c'.
Proof.
  intros Hh Hc Hok Hl. unfold inserted. splits; [|done|done|by repeat split].
  eapply (heap_ok_upd s _ id c c' (rrl s)); try done; [|by left].
  destruct Hh as (_ & Hlk & _). by eapply linked_same.
Qed.

Lemma runs_enter_set s id c i :
  heap_ok s -> cents s !! id = Some c -> is_neg c = false -> i < length (sets c) -> lent_of c (Some i) = None ->
  runs (enter_set global id i) s (fun ok s' => exists c', inserted s s' id c c' /\ touched c c' /\
    (forall j, j <> i -> slot c' j = slot c j) /\ entered c c' i /\ (plenty s -> ok = true /\ plenty s')).
Proof.
  intros Hh Hc Hn Hi Hl. pose proof Hh as (Hok & _). destruct (Hok id c Hc) as [Hcok _].
  unfold enter_set. apply runs_bind. eapply runs_deref; [exact Hc|].
  destruct (lookup_lt_is_Some_2 (sets c) i Hi) as [r Hr].
  run_lift; [rewrite rrarr_index_sets; [exact Hr|apply Hcok|done]|].
  assert (Hsl : slot c i = r) by (unfold slot; by rewrite Hr). destruct r as [rs|].
  - destruct (adjust_ttl_same rs) as (H1 & H2 & _).
    destruct (retouch_set c i rs (adjust_ttl global rs) Hcok Hsl H1 H2) as (b & Hset & Hok' & Hfi & Hfo & Hneg & Hlo & Hss & Hex).
    run_lift; [exact Hset|]. apply runs_bind, runs_mod. set (c1 := set_body b c) in *.
    pose proof (inserted_store s id c c1 Hh Hc Hok' Hlo) as Hins1.
    eapply runs_weaken; [apply (runs_insert_rrl _ id c1 (Some i)); [apply Hins1|by eapply inserted_lookup|]|].
    + split; [by rewrite Hlo|]. rewrite Hfi. by eexists.
    + cbn beta. intros ok s2 (c2 & Hins2 & Hre & Hp). exists c2. splits.
      * by eapply inserted_trans.
      * eapply touched_trans; [|by eapply relinked_touched]. unfold touched, keeps. splits; try done; [congruence|].
        by rewrite Hss, length_insert.
      * intros j Hj. destruct Hre as (_ & _ & _ & _ & _ & _ & Ho & _). rewrite Ho by congruence. by apply Hfo.
      * unfold entered. destruct Hre as (_ & _ & _ & _ & _ & Hst & _). rewrite (strip_slot _ _ i Hst), Hfi, Hsl. done.
      * done.
  - apply runs_ret. exists c. splits; [|by apply touched_refl|done| |done].
    + unfold inserted. splits; [done|by rewrite insert_id|done|by repeat split].
    + unfold entered. by rewrite Hsl.
Qed.

(** The loop over all sets of a fresh entry. *)
Lemma runs_enter_sets id c : forall n k s c1,
  heap_ok s -> cents s !! id = Some c1 -> is_neg c = false -> k + n = length (sets c) -> touched c c1 ->
  (forall j, k <= j -> slot c1 j = slot c j /\ lent_of c (Some j) = None) -> (forall j, j < k -> entered c c1 j) ->
  runs (enter_sets global id (seq k n)) s (fun ok s' => exists c', inserted s s' id c1 c' /\ touched c c' /\
    (plenty s -> ok = true /\ plenty s') /\ (ok = true -> forall j, entered c c' j)).
Proof.
  induction n as [|n IH]; intros k s c1 Hh Hc1 Hn Hkn Ht Hge Hlt; cbn [seq enter_sets].
  - apply runs_ret. exists c1. splits; [|done|done|].
    + unfold inserted. splits; [done|by rewrite insert_id|done|by repeat split].
    + intros _ j. destruct (decide (j < k)); [by apply Hlt|]. destruct (Hge j) as [E _]; [lia|].
      unfold entered. rewrite E. unfold slot. by rewrite lookup_ge_None_2 by lia.
  - pose proof Ht as (_ & _ & _ & _ & Hn1 & Hlen1).
    apply runs_bind. eapply runs_weaken; [apply (runs_enter_set s id c1 k Hh Hc1)|].
    + congruence.
    + lia.
    + destruct (Hge k) as [E El]; [lia|]. cbn [lent_of] in *. by rewrite E.
    + cbn beta. intros ok s1 (c2 & Hins & Ht2 & Ho & He & Hp).
      assert (Hek : forall j, j < S k -> entered c c2 j).
      { intros j Hj. unfold entered in *. destruct (decide (j = k)) as [->|Hne].
        - rewrite He. by rewrite (proj1 (Hge k ltac:(lia))).
        - rewrite Ho by done. apply Hlt. lia. }
      destruct ok.
      * eapply runs_weaken; [apply (IH (S k) s1 c2)|].
        -- apply Hins.
        -- by eapply inserted_lookup.
        -- done.
        -- lia.
        -- by eapply touched_trans.
        -- intros j Hj. destruct (Hge j) as [E El]; [lia|]. split; [|done]. rewrite Ho by lia. done.
        -- done.
        -- cbn beta. intros ok s2 (c3 & Hins3 & Ht3 & Hp3 & Hall). exists c3. splits; [by eapply inserted_trans|done| |done].
           intros H. by apply Hp3, Hp.
      * apply runs_ret. exists c2. splits; [done|by eapply touched_trans|by intros [? _]%Hp|done].
Qed.
End EnterSpec.

(** ** A name that is not in the cache *)

Section AddNew.
Context {P : Platform} (global : globals).

Lemma loc_ok_ext {D} (q q' : D -> option (list Z)) tab N loc :
  (forall b c he, tab !! b = Some c -> he ∈ c -> q (hdata he) = q' (hdata he)) ->
  loc_ok q tab N None loc -> loc_ok q' tab N None loc.
Proof.
  intros Heq (Hh & c & Hc & Hp & Hno & Ht & Hd). split; [done|]. exists c. splits; try done.
  intros he Hin. specialize (Hno he Hin). unfold key_of in *. by rewrite <- (Heq _ _ _ Hc Hin).
Qed.

(** The names of the entries in the table do not depend on an entry outside of it. *)
Lemma table_names s s' m id c :
  hash_ok s m -> cents s !! id = None -> cents s' = <[id := c]> (cents s) ->
  forall b ch he, buckets s !! b = Some ch -> he ∈ ch -> qname_at s (hdata he) = qname_at s' (hdata he).
Proof.
  intros [[[_ Hinv] _] _] Hid Hcs b ch he Hb Hin. destruct (Hinv b ch Hb) as [Hent _]. rewrite Forall_forall in Hent.
  destruct (Hent he Hin) as (N & _ & Hq & _). unfold qname_at in *. rewrite Hcs, lookup_insert_ne; [done|].
  intros E. by rewrite <- E, Hid in Hq.
Qed.

Lemma hash_ok_insert s s' m K id c :
  hash_ok s m -> cents s !! id = None -> cents s' = <[id := c]> (cents s) -> m !! K = None ->
  ht_rep (qname_at s') (buckets s') (<[K := id]> m) -> hash_ok s' (<[K := id]> m).
Proof.
  intros [_ Hdom] Hid Hcs HK Hrep. split; [done|]. intros id'. rewrite Hcs. destruct (decide (id = id')) as [<-|Hne].
  - rewrite lookup_insert_eq. split; [intros _|by eexists]. exists K. by rewrite lookup_insert_eq.
  - rewrite lookup_insert_ne, Hdom by done. split; intros [K' HK'].
    + exists K'. rewrite lookup_insert_ne; [done|]. congruence.
    + destruct (decide (K = K')) as [<-|HneK]; [rewrite lookup_insert_eq in HK'; congruence|].
      rewrite lookup_insert_ne in HK' by done. by exists K'.
Qed.

Lemma next_cent_fresh s : heap_ok s -> cents s !! next_cent s = None.
Proof.
  intros (Hok & _). destruct (cents s !! next_cent s) as [c|] eqn:E; [|done]. destruct (Hok _ _ E). lia.
Qed.

Lemma new_cent_heap s c :
  heap_ok s -> cent_ok c -> (forall idx, lent_of c idx = None) ->
  heap_ok (with_next_cent (Pos.succ (next_cent s)) (with_cents (<[next_cent s := c]> (cents s)) s)).
Proof.
  intros Hh Hok Hl. pose proof (next_cent_fresh s Hh) as Hf. destruct Hh as (Hoks & Hlk & Hlt). split; [|split].
  - intros id c'. cbn. destruct (decide (next_cent s = id)) as [<-|Hne].
    + rewrite lookup_insert_eq. intros [= <-]. split; [done|lia].
    + rewrite lookup_insert_ne by done. intros Hc'. destruct (Hoks id c' Hc'). split; [done|lia].
  - cbn. by apply linked_fresh.
  - done.
Qed.

Lemma adjust_dom_ok c :
  cent_ok c -> is_neg c = true -> exists c', adjust_dom_ttl global c = Some c' /\ cent_ok c' /\ keeps c c' /\
    cs c' = cs c /\ is_neg c' = true /\ (forall idx, lent_of c' idx = lent_of c idx).
Proof.
  intros Hok Hn. pose proof Hok as (Hs & Hq & Hcs & Hnum). unfold adjust_dom_ttl, is_neg in *.
  destruct (body c) as [l ttl ts|] eqn:Hb; [|done].
  assert (Hgen : forall f ttl', tst f DF_NEGATIVE = true -> let c' := set_body (Neg l ttl' ts) (set_flags f c) in
    cent_ok c' /\ keeps c c' /\ cs c' = cs c /\ (match body c' with Neg _ _ _ => true | Rr _ _ => false end) = true /\
    (forall idx, lent_of c' idx = lent_of c idx)).
  { intros f ttl' Hf c'. assert (Hss : sets c' = sets c) by (unfold sets; by rewrite Hb).
    unfold keeps. splits; try done.
    - split; [by split|split; [done|split]].
      + unfold cent_size. rewrite Hss. change (cs c') with (cs c). rewrite Hcs. unfold cent_size, ext_size. by rewrite Hb.
      + by rewrite Hss.
    - intros [i|]; cbn [lent_of]; [by rewrite (slot_ext c)|]. cbn. by rewrite Hb. }
  assert (Hf : tst (flags c) DF_NEGATIVE = true) by (destruct Hs as [-> _]; unfold is_neg; by rewrite Hb).
  assert (Hid : set_flags (flags c) c = c) by (by destruct c).
  destruct (tst (flags c) DF_NOCACHE).
  { eexists. split; [done|]. apply Hgen. by rewrite tst_ldiff. }
  cbv zeta. specialize (Hgen (flags c)). rewrite Hid in Hgen.
  destruct (ttl <? _)%Z; [eexists; split; [done|]; by apply Hgen|].
  destruct (g_max_ttl global <? ttl)%Z; [eexists; split; [done|]; by apply Hgen|].
  exists c. splits; try done. by rewrite Hb.
Qed.

(** The entry that the cache holds after [cent] has been added under a new name. *)
Definition adjusted (cent c' : dns_cent) : Prop :=
  cent_ok c' /\ keeps cent c' /\ cs c' = cs cent /\ is_neg c' = is_neg cent /\
  if is_neg cent then exists ce, adjust_dom_ttl global (strip cent) = Some ce /\ strip c' = strip ce
  else flags c' = flags cent /\ forall j, strip_set (slot c' j) = strip_set (adjust_ttl global <$> slot cent j).

Lemma adjust_strip r : strip_set (adjust_ttl global <$> strip_set r) = strip_set (adjust_ttl global <$> r).
Proof.
  destruct r as [rs|]; [|done]. cbn. f_equal. unfold adjust_ttl. cbn [rs_flags rs_ttl rs_set_lent].
  destruct (tst (rs_flags rs) CF_NOCACHE); [done|]. cbv zeta. destruct (rs_ttl rs <? _)%Z; [done|]. by destruct (_ <? rs_ttl rs)%Z.
Qed.

Lemma is_neg_strip c : is_neg (strip c) = is_neg c.
Proof. unfold is_neg, strip. cbn. by destruct (body c). Qed.

(** Entering the sets of the copy. *)
Lemma runs_enter s id cent :
  heap_ok s -> cent_ok cent -> cents s !! id = Some (strip cent) ->
  runs (if negb (tst (flags (strip cent)) DF_NEGATIVE) then
          ilim ← liftM (rrarr_len (strip cent)); enter_sets global id (seq 0 ilim)
        else ce ← liftM (adjust_dom_ttl global (strip cent)); _ ← store id ce; insert_rrl id None) s
    (fun ok s' => exists c', inserted s s' id (strip cent) c' /\ (plenty s -> ok = true /\ plenty s') /\
      cent_ok c' /\ keeps cent c' /\ (ok = true -> adjusted cent c')).
Proof.
  intros Hh Hok Hc. pose proof (strip_ok cent Hok) as Hoks. pose proof Hoks as ([Hn Hsh] & _).
  rewrite Hn. pose proof (is_neg_strip cent) as Hns. destruct (is_neg (strip cent)) eqn:En; cbn [negb].
  - destruct (adjust_dom_ok (strip cent) Hoks En) as (ce & Had & Hce & Hke & Hcs & Hneg & Hlo).
    run_lift; [exact Had|]. apply runs_bind, runs_mod.
    pose proof (inserted_store s id (strip cent) ce Hh Hc Hce Hlo) as Hins.
    eapply runs_weaken; [apply (runs_insert_rrl _ id ce None); [apply Hins|by eapply inserted_lookup|]|].
    + split; [by rewrite Hlo, lent_of_strip|done].
    + cbn beta. intros ok s' (c' & Hins' & Hre & Hp).
      destruct Hre as (Hok' & Hk' & _ & Hcs' & Hn' & Hst & _). assert (Hkk : keeps cent c') by (by eapply keeps_trans).
      exists c'. splits; [by eapply inserted_trans|done|done|done|]. intros _. unfold adjusted. rewrite <- Hns.
      splits; [done|done|by rewrite Hcs', Hcs|congruence|]. by exists ce.
  - run_lift; [apply rrarr_len_sets, Hoks|].
    eapply runs_weaken; [apply (runs_enter_sets global id (strip cent) _ 0 s (strip cent)); try done|].
    + intros j _. split; [done|]. apply lent_of_strip.
    + lia.
    + cbn beta. intros ok s' (c' & Hins & (Hok' & Hk' & Hf' & Hcs' & Hn' & _) & Hp & Hall).
      exists c'. splits; [done|done|done|done|]. intros ->. unfold adjusted. rewrite <- Hns.
      splits; [done|done|done|congruence|done|]. intros j. rewrite (Hall eq_refl j), slot_strip. apply adjust_strip.
Qed.

Lemma mem_only_inv s s' : mem_only s s' -> inv s -> inv s'.
Proof. intros [m ->] (Hh & Hm & Hn & Hsz). unfold inv. by splits. Qed.

Lemma mem_only_hash s s' m : mem_only s s' -> hash_ok s m -> hash_ok s' m.
Proof. by intros [mm ->]. Qed.

(** Taking back an entry that has not reached the hash table. *)
Lemma runs_take_back s s3 m id c :
  inv s -> hash_ok s m -> cents s !! id = None -> heap_ok s3 -> cents s3 = <[id := c]> (cents s) ->
  buckets s3 = buckets s -> ent_num s3 = ent_num s -> cache_size s3 = cache_size s -> insert_sort s3 = insert_sort s ->
  runs (_ ← free_cent c; _ ← modM (fun s => with_cents (delete id (cents s)) s); mret false) s3
    (fun ok s' => ok = false /\ inv s' /\ insert_sort s' = insert_sort s /\ cents s' = cents s /\ hash_ok s' m).
Proof.
  intros (_ & _ & Hn & Hsz) Hm Hid Hh3 Hcs Hb Hen Hsize His.
  assert (Hc : cents s3 !! id = Some c) by (rewrite Hcs; apply lookup_insert_eq).
  destruct (heap_ok_lents s3 id c Hh3 Hc) as [Hnd Hin]. pose proof Hh3 as (Hok & Hl & Hlt).
  run_with runs_free_cent; [apply (Hok id c Hc)|done|done|]. intros _ s4 ->. apply runs_bind, runs_mod, runs_ret.
  assert (Hcs' : delete id (cents s3) = cents s) by (rewrite Hcs; by apply delete_insert_id).
  assert (Hm' : hash_ok (with_cents (delete id (cents s3)) (with_rrl (rrl_drop (cent_lents c) (rrl s3)) s3)) m).
  { unfold hash_ok, qname_at. cbn. rewrite Hcs', Hb. exact Hm. }
  splits; [done| |done|done|done]. unfold inv. splits; [|by exists m|cbn; by rewrite Hen, Hn, Hcs'|cbn; by rewrite Hsize, Hsz, Hcs'].
  split; [|split]; cbn.
  - intros id' c2 [_ Hc2]%lookup_delete_Some. by apply Hok.
  - by apply linked_delete.
  - intros x Hx. apply elem_of_rrl_drop in Hx as [Hx _]. by apply Hlt.
Qed.

Lemma runs_add_new s m N cent loc :
  inv s -> hash_ok s m -> cent_ok cent -> wf_name N -> qname cent = enc_name N ->
  m !! fold_key (enc_name N) = None -> loc_ok (qname_at s) (buckets s) N None loc ->
  runs (add_new global cent loc) s (fun ok s' => inv s' /\ (plenty s -> ok = true /\ plenty s') /\
    insert_sort s' = insert_sort s /\
    if (ok : bool) then exists id c', cents s !! id = None /\ cents s' = <[id := c']> (cents s) /\ adjusted cent c' /\
      hash_ok s' (<[fold_key (enc_name N) := id]> m) /\ cache_size s' = (cache_size s + cs cent)%Z
    else cents s' = cents s /\ hash_ok s' m).
Proof.
  intros Hi Hm Hok HN Hq HK Hloc. unfold add_new.
  run_with runs_copy_cent; [done|]. intros r s1 (Hm1 & Hp1 & Hr).
  pose proof (mem_only_inv s s1 Hm1 Hi) as Hi1. pose proof (mem_only_hash s s1 m Hm1 Hm) as Hmm1.
  destruct r as [ce|].
  2:{ apply runs_ret. splits; [done|intros H; by destruct (proj1 (Hp1 H))|by destruct Hm1 as [? ->]|by destruct Hm1 as [? ->]|done]. }
  rewrite (Hr ce eq_refl). clear Hr. assert (Hpl1 : plenty s -> plenty s1) by (intros H; by apply Hp1).
  unfold new_cent. do 2 apply runs_bind. apply runs_get. apply runs_bind, runs_mod, runs_ret.
  pose proof (next_cent_fresh s1 (proj1 Hi1)) as Hfresh. set (id := next_cent s1) in *.
  pose proof (new_cent_heap s1 (strip cent) (proj1 Hi1) (strip_ok cent Hok) (lent_of_strip cent)) as Hh2.
  set (s2 := with_next_cent _ _) in *.
  apply runs_bind. eapply runs_weaken; [apply (runs_enter s2 id cent Hh2 Hok); apply lookup_insert_eq|].
  cbn beta. intros ok s3 (c' & (Hh3 & Hcs3 & Hsz3 & Hst3) & Hp3 & Hok' & Hk' & Had).
  cbn [cents s2] in Hcs3. change (cents s2) with (<[id := strip cent]> (cents s1)) in Hcs3. rewrite insert_insert_eq in Hcs3.
  destruct Hst3 as (Hb3 & _ & Hen3 & His3).
  assert (Hq' : qname c' = enc_name N) by (rewrite <- Hq; apply Hk').
  assert (Hnames := table_names s1 s3 m id c' Hmm1 Hfresh Hcs3).
  (* the hash table *)
  apply runs_bind. eapply runs_weaken with (Q := fun ok2 s4 => heap_ok s4 /\ (plenty s -> ok2 = true /\ plenty s4) /\
    cents s4 = cents s3 /\ ent_num s4 = ent_num s3 /\ cache_size s4 = cache_size s3 /\ insert_sort s4 = insert_sort s3 /\
    if (ok2 : bool) then ok = true /\ ht_rep (qname_at s4) (buckets s4) (<[fold_key (enc_name N) := id]> m)
    else buckets s4 = buckets s3).
  { destruct ok; [|apply runs_ret; splits; try done; by intros H; destruct (Hp3 (Hpl1 H))].
    run_with runs_alloc. intros a s4 [[mm ->] Hp4]. apply runs_bind, runs_get. destruct a.
    - destruct (add_dns_hash_spec (qname_at s3) (buckets s3) m N id loc) as (tab & Hadd & Hrep).
      + rewrite Hb3. eapply ht_rep_ext; [exact Hnames|]. apply Hmm1.
      + done.
      + done.
      + rewrite Hb3. eapply loc_ok_ext; [exact Hnames|]. by destruct Hm1 as [mm1 ->].
      + unfold qname_at. rewrite Hcs3, lookup_insert_eq. cbn. by rewrite Hq'.
      + eapply (runs_bind (liftM _)). eapply runs_lift; [exact Hadd|]. apply runs_bind, runs_mod, runs_ret.
        splits; try done. intros H. split; [done|]. apply Hp4, Hp3, Hpl1, H.
    - assert (Hadd : exists tab, add_dns_hash false (buckets s3) id loc = Some (false, tab) /\ tab = buckets s3).
      { unfold add_dns_hash. by eexists. }
      destruct Hadd as (tab & Hadd & ->).
      eapply (runs_bind (liftM _)). eapply runs_lift; [exact Hadd|]. apply runs_bind, runs_mod, runs_ret.
      splits; try done. intros H. by destruct (Hp4 (proj2 (Hp3 (Hpl1 H)))). }
  cbn beta. intros ok2 s4 (Hh4 & Hp4 & Hcs4 & Hen4 & Hsz4 & His4 & Hok2). rewrite Hcs3 in Hcs4.
  apply runs_bind. eapply runs_deref; [rewrite Hcs4; apply lookup_insert_eq|].
  assert (Hs1 : cents s1 = cents s /\ ent_num s1 = ent_num s /\ cache_size s1 = cache_size s /\ insert_sort s1 = insert_sort s)
    by (by destruct Hm1 as [mm ->]). destruct Hs1 as (Ec & Ee & Es & Ei).
  destruct ok2.
  - destruct Hok2 as [-> Hrep]. specialize (Had eq_refl). apply runs_bind, runs_mod, runs_bind, runs_mod, runs_ret.
    assert (Hmf : hash_ok s4 (<[fold_key (enc_name N) := id]> m)) by (by eapply (hash_ok_insert s1)).
    assert (Hcsz : cs c' = cs cent) by apply Had.
    destruct Hi1 as (_ & _ & Hn1 & Hsz1). splits; [|done| |].
    + unfold inv. splits; [done|by exists (<[fold_key (enc_name N) := id]> m)| |]; cbn.
      * rewrite Hcs4, map_size_insert_None by done. rewrite Hen4, Hen3. change (ent_num s2) with (ent_num s1). lia.
      * rewrite Hcs4, total_insert, delete_id by done. rewrite Hsz4, Hsz3. change (cache_size s2) with (cache_size s1). lia.
    + cbn. rewrite His4, His3. done.
    + exists id, c'. rewrite <- Ec. splits; try done. cbn. rewrite Hsz4, Hsz3. change (cache_size s2) with (cache_size s1). lia.
  - eapply runs_weaken; [apply (runs_take_back s1 s4 m id c'); try done|].
    + rewrite Hok2, Hb3. done.
    + rewrite Hen4, Hen3. done.
    + rewrite Hsz4, Hsz3. done.
    + rewrite His4, His3. done.
    + cbn beta. intros ok' s5 (-> & Hi5 & Hs5 & Hc5 & Hm5). splits; [done|by intros H; destruct (Hp4 H)|congruence|congruence|done].
Qed.
End AddNew.

(** ** Conflicting sets *)

Lemma ltb_S_ne j k : j <> k -> (j <? S k) = (j <? k).
Proof. intros H. destruct (Nat.ltb_spec j (S k)), (Nat.ltb_spec j k); done || lia. Qed.

Section ConflictSpec.
Context {P : Platform} (now : Z).

(** The set [r] in slot [j] conflicts with a positive set of index [idx]. *)
Definition conflicts (idx j : nat) (rs : rr_set) : bool := negb (tst (rs_flags rs) CF_NEGATIVE) && rr_conflict idx j.

Lemma conflict_scan_spec c idx : shape c -> is_neg c = false -> forall n k ncf nttl,
  k + n = length (sets c) -> (0 <= ncf)%Z ->
  exists r, conflict_scan now c idx (seq k n) ncf nttl = Some r /\
    ((forall j rs, k <= j -> slot c j = Some rs -> conflicts idx j rs = false) -> r = Some (ncf, nttl)) /\
    match r with
    | None => True
    | Some (ncf', _) => (ncf <= ncf')%Z /\
        (forall j rs, k <= j -> slot c j = Some rs -> conflicts idx j rs = true -> tst (rs_flags rs) CF_LOCAL = false) /\
        (ncf' = ncf -> forall j rs, k <= j -> slot c j = Some rs -> conflicts idx j rs = false)
    end.
Proof.
  intros Hs Hn. induction n as [|n IH]; intros k ncf nttl Hkn H0; cbn [seq conflict_scan].
  { eexists. split; [done|]. split; [done|]. assert (Hno : forall j rs, k <= j -> slot c j = Some rs -> False).
    { intros j rs Hj Hsl. apply slot_lookup, lookup_lt_Some in Hsl. lia. }
    splits; [lia|intros j rs Hj Hsl; by destruct (Hno j rs)|intros _ j rs Hj Hsl; by destruct (Hno j rs)]. }
  destruct (lookup_lt_is_Some_2 (sets c) k) as [r Hr]; [lia|]. rewrite rrarr_index_sets, Hr by done. sbind.
  assert (Hsl : slot c k = r) by (unfold slot; by rewrite Hr).
  assert (Hskip : (forall rs, r = Some rs -> conflicts idx k rs = false) -> exists res,
    conflict_scan now c idx (seq (S k) n) ncf nttl = Some res /\
    ((forall j rs, k <= j -> slot c j = Some rs -> conflicts idx j rs = false) -> res = Some (ncf, nttl)) /\
    match res with
    | None => True
    | Some (ncf', _) => (ncf <= ncf')%Z /\
        (forall j rs, k <= j -> slot c j = Some rs -> conflicts idx j rs = true -> tst (rs_flags rs) CF_LOCAL = false) /\
        (ncf' = ncf -> forall j rs, k <= j -> slot c j = Some rs -> conflicts idx j rs = false)
    end).
  { intros Hnc. destruct (IH (S k) ncf nttl) as (res & Hres & Hnone & Hm); [lia|done|]. exists res. split; [done|].
    split; [intros H; apply Hnone; intros j rs Hj; apply H; lia|].
    destruct res as [[ncf' nttl']|]; [|done]. destruct Hm as (H1 & H2 & H3). splits; [done| |].
    - intros j rs Hj Hs1 Hc1. destruct (decide (j = k)) as [->|Hne]; [|apply (H2 j rs); [lia|done|done]].
      rewrite Hnc in Hc1 by congruence. done.
    - intros E j rs Hj Hs1. destruct (decide (j = k)) as [->|Hne]; [apply Hnc; congruence|apply (H3 E j rs); [lia|done]]. }
  destruct r as [rs|]; [|by apply Hskip].
  fold (conflicts idx k rs). destruct (conflicts idx k rs) eqn:Ec; [|by apply Hskip; intros rs' [= <-]].
  assert (Hbad : forall X : Prop, (forall j rs, k <= j -> slot c j = Some rs -> conflicts idx j rs = false) -> X).
  { intros X H. rewrite (H k rs) in Ec by done. done. }
  destruct (tst (rs_flags rs) CF_LOCAL) eqn:El; [exists None; split; [done|]; split; [apply Hbad|done]|]. cbv zeta.
  edestruct (IH (S k) (ncf + 1)%Z) as (res & Hres & _ & Hm); [lia|lia|]. exists res. split; [exact Hres|]. split; [apply Hbad|].
  destruct res as [[ncf' nttl']|]; [|done]. destruct Hm as (H1 & H2 & H3). splits; [lia| |lia].
  intros j rs' Hj Hs1 Hc1. destruct (decide (j = k)) as [->|Hne]; [congruence|apply (H2 j rs'); [lia|done|done]].
Qed.

(** An entry from which conflicting sets have been removed. *)
Definition unconflicted (c c' : dns_cent) (idx : nat) (test : nat -> bool) : Prop :=
  like c c' /\ length (sets c') = length (sets c) /\
  forall j, slot c' j = match slot c j with
                        | Some rs => if test j && conflicts idx j rs then None else Some rs
                        | None => None
                        end.

Lemma runs_conflict_del s id c idx :
  heap_ok (view s id c) -> is_neg c = false ->
  runs (foldM (conflict_del idx) (seq 0 (length (sets c))) c) s (fun c' s' =>
    heap_ok (view s' id c') /\ same s s' /\ mem s' = mem s /\ unconflicted c c' idx (fun _ => true)).
Proof.
  intros Hh Hn. pose proof (view_ok _ _ _ Hh) as Hok.
  eapply runs_weaken.
  - apply (runs_foldM_seq _ (fun k c' s' => heap_ok (view s' id c') /\ same s s' /\ mem s' = mem s /\
      unconflicted c c' idx (fun j => j <? k))).
    + splits; [done|apply same_refl|done|]. split; [by apply like_refl|]. split; [done|].
      intros j. bool_false (j <? 0). cbn. by destruct (slot c j).
    + intros k c1 s1 Hk (Hh1 & Hs1 & Hm1 & Hl1 & Hlen1 & Hsl1). pose proof (view_ok _ _ _ Hh1) as Hok1.
      pose proof Hl1 as (_ & _ & Hn1 & _). rewrite Hn in Hn1. unfold conflict_del.
      destruct (lookup_lt_is_Some_2 (sets c1) k) as [r Hr]; [lia|].
      run_lift; [rewrite rrarr_index_sets; [exact Hr|apply Hok1|done]|].
      assert (Hsk : slot c1 k = r) by (unfold slot; by rewrite Hr).
      assert (Hck : slot c k = r).
      { rewrite Hsl1, Nat.ltb_irrefl in Hsk. cbn [andb] in Hsk. by destruct (slot c k). }
      assert (Hkeep : (forall rs, r = Some rs -> conflicts idx k rs = false) ->
        unconflicted c c1 idx (fun j => j <? S k)).
      { intros Hnc. split; [done|]. split; [done|]. intros j. rewrite Hsl1. destruct (slot c j) as [rs|] eqn:E; [|done].
        destruct (decide (j = k)) as [->|Hne].
        - rewrite Hnc by congruence. by rewrite !andb_false_r.
        - assert ((j <? S k) = (j <? k)) as -> by (by apply ltb_S_ne). done. }
      destruct r as [rs|]; [|apply runs_ret; splits; try done; apply Hkeep; done].
      fold (conflicts idx k rs). destruct (conflicts idx k rs) eqn:Ec.
      2:{ apply runs_ret. splits; try done. apply Hkeep. by intros rs' [= <-]. }
      assert (Hkt : k < NRRTOT) by (pose proof (length_sets c (proj1 Hok)); lia).
      apply runs_bind. eapply runs_weaken; [by apply (runs_view_del s1 id c1 k)|].
      intros [rv c2] s2 (Hh2 & Hs2 & _ & Hm2 & _ & _ & Hcl). cbn [fst snd] in *. apply runs_ret.
      splits; [done|by eapply same_trans|congruence|]. split; [eapply like_trans; [exact Hl1|by eapply cleared_like]|].
      split; [destruct Hcl as (_ & _ & -> & _); by rewrite length_insert|].
      intros j. rewrite (cleared_slot _ _ _ _ Hcl), Hsl1. destruct (decide (j = k)) as [->|Hne].
      * rewrite Hck, Ec. by bool_true (k <? S k).
      * assert ((j <? S k) = (j <? k)) as -> by (by apply ltb_S_ne). done.
  - cbn beta. intros c' s' (Hh' & Hs' & Hm' & Hl' & Hlen' & Hsl'). splits; try done. split; [done|]. split; [done|].
    intros j. rewrite Hsl'. destruct (slot c j) as [rs|] eqn:E; [|done].
    assert (Hj : j < length (sets c)) by (apply slot_lookup in E; by eapply lookup_lt_Some).
    bool_true (j <? length (sets c)). done.
Qed.

(** What [cr_check_add] decides, and does to the entry. *)
Definition checked (c c' : dns_cent) (idx : nat) (fl : Z) (add : bool) : Prop :=
  like c c' /\
  (forall j, slot c' j = slot c j \/ exists rs, slot c j = Some rs /\ slot c' j = None /\ conflicts idx j rs = true /\
     (tst fl CF_LOCAL = false -> tst (rs_flags rs) CF_LOCAL = false)) /\
  (add = false -> c' = c) /\
  (add = true -> tst fl CF_NEGATIVE = false -> forall j rs, slot c' j = Some rs -> conflicts idx j rs = false) /\
  (tst (flags c) DF_LOCAL = false -> (forall j rs, slot c j = Some rs -> conflicts idx j rs = false) -> add = true).

Lemma checked_refl c idx fl add : cent_ok c ->
  (add = true -> tst fl CF_NEGATIVE = false -> forall j rs, slot c j = Some rs -> conflicts idx j rs = false) ->
  (tst (flags c) DF_LOCAL = false -> (forall j rs, slot c j = Some rs -> conflicts idx j rs = false) -> add = true) ->
  checked c c idx fl add.
Proof. intros Hok H H'. unfold checked. splits; [by apply like_refl|by left|done|done|done]. Qed.

Lemma runs_cr_check_add s id c idx ttl ts fl :
  heap_ok (view s id c) ->
  runs (cr_check_add now c idx ttl ts fl) s (fun r s' =>
    heap_ok (view s' id r.2) /\ same s s' /\ mem s' = mem s /\ checked c r.2 idx fl r.1).
Proof.
  intros Hh. pose proof (view_ok _ _ _ Hh) as Hok. pose proof Hok as (Hs & _). unfold cr_check_add.
  assert (Hstay : forall add, (add = true -> tst fl CF_NEGATIVE = false -> forall j rs, slot c j = Some rs -> conflicts idx j rs = false) ->
    (tst (flags c) DF_LOCAL = false -> (forall j rs, slot c j = Some rs -> conflicts idx j rs = false) -> add = true) ->
    runs (mret (add, c)) s (fun r s' => heap_ok (view s' id r.2) /\ same s s' /\ mem s' = mem s /\ checked c r.2 idx fl r.1)).
  { intros add Ha Hb. apply runs_ret. cbn [fst snd]. splits; [done|apply same_refl|done|by apply checked_refl]. }
  destruct (tst fl CF_NEGATIVE) eqn:Ef; [by apply Hstay|].
  destruct (is_neg c) eqn:En.
  { assert (Hnone : forall j rs, slot c j = Some rs -> conflicts idx j rs = false) by (intros j rs; by rewrite neg_slot).
    assert (Hlen : rrarr_len c = Some 0).
    { rewrite rrarr_len_sets by done. unfold sets, is_neg in *. by destruct (body c). }
    run_lift; [exact Hlen|]. cbn [seq conflict_scan].
    destruct (tst fl CF_LOCAL) eqn:El; cbn [negb].
    - apply runs_bind, runs_ret. cbn. by apply runs_bind, runs_ret, Hstay.
    - destruct (tst (flags c) DF_LOCAL); [apply runs_bind, runs_ret; by apply Hstay|].
      apply runs_bind, runs_bind. eapply runs_lift; [done|]. apply runs_ret. cbn. by apply Hstay. }
  run_lift; [by apply rrarr_len_sets|].
  assert (Hdel : (tst fl CF_LOCAL = false -> forall j rs, slot c j = Some rs -> conflicts idx j rs = true -> tst (rs_flags rs) CF_LOCAL = false) ->
    runs (c0 ← foldM (conflict_del idx) (seq 0 (length (sets c))) c; mret (true, c0)) s
      (fun r s' => heap_ok (view s' id r.2) /\ same s s' /\ mem s' = mem s /\ checked c r.2 idx fl r.1)).
  { intros Hloc. apply runs_bind. eapply runs_weaken; [by apply runs_conflict_del|].
    intros c' s' (Hh' & Hs' & Hm' & Hl' & _ & Hsl'). apply runs_ret. cbn [fst snd]. splits; try done.
    unfold checked. splits; [done| |done| |done].
    - intros j. rewrite Hsl'. destruct (slot c j) as [rs|] eqn:E; [|by left]. cbn [andb].
      destruct (conflicts idx j rs) eqn:Ec; [|by left]. right. exists rs. splits; try done. intros Hf. by apply (Hloc Hf j rs).
    - intros _ _ j rs. rewrite Hsl'. destruct (slot c j) as [rs'|]; [|done]. cbn [andb].
      destruct (conflicts idx j rs') eqn:Ec; [done|]. by intros [= <-]. }
  apply runs_bind. destruct (tst fl CF_LOCAL) eqn:El; cbn [negb orb].
  - apply runs_ret. by apply Hdel.
  - destruct (tst (flags c) DF_LOCAL); [apply runs_ret; by apply Hstay|].
    destruct (conflict_scan_spec c idx Hs En (length (sets c)) 0 0 0) as (r & Hsc & Hfree & Hr); [done|lia|].
    run_lift; [exact Hsc|]. apply runs_ret. assert (Hfree' : (forall j rs, slot c j = Some rs -> conflicts idx j rs = false) -> r = Some (0, 0)%Z)
      by (intros H; apply Hfree; intros j rs _; apply H).
    destruct r as [[ncf nttl]|]; [|apply Hstay; [done|intros _ H; by specialize (Hfree' H)]].
    destruct Hr as (_ & Hnl & Hz). destruct (ncf =? 0)%Z eqn:E0; boolp.
    + apply Hstay; [|done]. intros _ _ j rs Hj. apply (Hz E0 j rs); [lia|done].
    + destruct (Z.quot nttl ncf <? ttl)%Z; [|apply Hstay; [done|intros _ H; specialize (Hfree' H); congruence]]. apply Hdel. intros _ j rs Hj Hc. apply (Hnl j rs); [lia|done|done].
Qed.
End ConflictSpec.

(** ** Replacing the sets of an entry that is in the cache *)

Section ReplaceSpec.
Context {P : Platform} (now : Z) (global : globals).

Lemma runs_view_add s id c i ttl ts fl :
  heap_ok (view s id c) -> i < NRRTOT -> slot c i = None ->
  runs (add_cent_rrset_by_index c i ttl ts fl) s (fun r s' =>
    heap_ok (view s' id r.2) /\ same s s' /\ (plenty s -> r.1 = true /\ plenty s') /\ keeps c r.2 /\ is_neg r.2 = false /\
    (forall m, Z.land m DF_NEGATIVE = 0%Z -> tst (flags r.2) m = tst (flags c) m) /\
    if (r.1 : bool) then filled c r.2 i (new_rrset ttl ts fl) else same_slots c r.2).
Proof.
  intros Hh Hi Hsl. pose proof (view_ok _ _ _ Hh) as Hok. pose proof (view_linked _ _ _ Hh) as Hl.
  eapply runs_weaken; [apply runs_add_rrset; try done|].
  { eapply (linked_lent_in _ _ id c); [done|apply lookup_insert_eq]. }
  intros [ok c'] s' (Hro & Hp & Hok' & Hk & Hn & Hf & Hres). cbn [fst snd] in *.
  assert (Hs' : same s s') by (by eapply rrl_only_same). splits; try done.
  assert (Hlo : forall j, lent_of c' (Some j) = lent_of c (Some j)).
  { intros j. cbn [lent_of]. destruct ok; [|by rewrite Hres]. destruct Hres as [Hri Hro']. destruct (decide (j = i)) as [->|Hne].
    - by rewrite Hri, Hsl.
    - by rewrite Hro'. }
  apply (view_upd s s' id c c' (option_list (lent_of c None))); try done.
  - rewrite (rrl_only_rrl _ _ _ Hro). apply drop_lent_drop.
  - intros [j|] p; [rewrite Hlo|rewrite (pos_lent c' Hn)].
    + split; [|tauto]. intros Hj. split; [done|]. destruct (is_neg c) eqn:En; [cbn in Hj; by rewrite neg_slot in Hj|].
      rewrite (pos_lent c En). apply not_elem_of_nil.
    + split; [done|]. intros [-> Hno]. destruct Hno. by left.
  - intros p Hp'. exists None. destruct (lent_of c None) as [q|]; [|by apply not_elem_of_nil in Hp'].
    by apply list_elem_of_singleton in Hp' as ->.
Qed.

(** The records of a set, appended in order. *)
Definition last_pos (rrs : list (list Z)) : option nat := match length rrs with 0 => None | S k => Some k end.

Lemma link_last rr rrs : link_rr (last_pos rrs) rr rrs = rrs ++ [rr] /\ rtail_ok (last_pos rrs) rrs.
Proof.
  unfold last_pos. destruct rrs as [|r rrs]; [done|]. cbn [length link_rr rtail_ok].
  split; [|lia]. by rewrite take_ge, drop_ge by (cbn; lia).
Qed.

Lemma runs_add_rrs i rs : i < NRRTOT -> forall rrs c r0 s,
  cent_ok c -> is_neg c = false -> slot c i = Some r0 ->
  runs (add_rrs c i rs rrs (last_pos (rs_rrs r0))) s (fun r s' => mem_only s s' /\ (plenty s -> r.1 = true /\ plenty s') /\
    cent_ok r.2 /\ keeps c r.2 /\ is_neg r.2 = false /\
    (forall m, Z.land m DF_NEGATIVE = 0%Z -> tst (flags r.2) m = tst (flags c) m) /\
    (forall j, j <> i -> slot r.2 j = slot c j) /\
    exists l, slot r.2 i = Some (rs_set_rrs l r0) /\ (r.1 = true -> l = rs_rrs r0 ++ rrs)).
Proof.
  intros Hi. induction rrs as [|rr rrs IH]; intros c r0 s Hok Hn Hsl; cbn [add_rrs].
  - apply runs_ret. cbn [fst snd]. splits; try done; [apply mem_only_refl|]. exists (rs_rrs r0). rewrite app_nil_r.
    split; [|done]. rewrite Hsl. by destruct r0.
  - destruct (link_last rr (rs_rrs r0)) as [Hlink Hrt]. apply runs_bind.
    eapply runs_weaken; [apply runs_add_rr_int; [done|done|by apply pos_lent|by rewrite Hsl]|].
    cbn beta. rewrite Hsl. cbn [default from_option].
    intros [[ok c1] rt] s1 (Hm1 & Hp1 & Hok1 & Hk1 & Hf1 & Hn1 & _ & Hres). cbn [fst snd] in *.
    destruct ok.
    + destruct Hres as [[Hfi Hfo] [_ ->]]. 
      assert (Hfi' : slot c1 i = Some (rs_set_rrs (rs_rrs r0 ++ [rr]) r0)) by (rewrite <- Hlink; exact Hfi).
      assert (Hrt' : Some (from_option S 0 (last_pos (rs_rrs r0))) = last_pos (rs_rrs (rs_set_rrs (rs_rrs r0 ++ [rr]) r0))).
      { unfold last_pos. cbn [rs_rrs rs_set_rrs]. rewrite length_app. cbn [length]. rewrite Nat.add_1_r. by destruct (length (rs_rrs r0)). }
      rewrite Hrt'. eapply runs_weaken; [apply (IH c1 (rs_set_rrs (rs_rrs r0 ++ [rr]) r0)); [done|by apply Hn1|done]|].
      cbn beta. intros [ok c2] s2 (Hm2 & Hp2 & Hok2 & Hk2 & Hn2 & Hf2 & Ho2 & l & Hl & Hll). cbn [fst snd] in *.
      splits; [by eapply mem_only_trans|by intros H; apply Hp2, Hp1|done|by eapply keeps_trans|done| | |].
      * intros m Hm. rewrite Hf2 by done. by apply Hf1.
      * intros j Hj. rewrite Ho2 by done. by apply Hfo.
      * exists l. split; [by rewrite Hl|]. intros H. rewrite (Hll H). cbn. by rewrite <- app_assoc.
    + apply runs_ret. cbn [fst snd]. destruct Hres as [Hss _].
      splits; [done|by intros H; destruct (Hp1 H)|done|done|by apply Hn1|done|by intros j _; apply Hss|].
      exists (rs_rrs r0). split; [|done]. rewrite Hss, Hsl. by destruct r0.
Qed.

(** The set that goes into the cache for a set of the argument. *)
Definition fresh_set (rs : rr_set) : rr_set :=
  {| rs_lent := None; rs_ttl := rs_ttl rs; rs_ts := rs_ts rs; rs_flags := u16 (rs_flags rs); rs_rrs := rs_rrs rs |}.

Definition conflict_free (c : dns_cent) (i : nat) : Prop :=
  forall j rs, j <> i -> slot c j = Some rs -> conflicts i j rs = false.

(** What the loop body does to the entry. *)
Definition replaced (centrrs : rr_set) (c c' : dns_cent) (i : nat) (ok : bool) : Prop :=
  cent_ok c' /\ keeps c c' /\
  (forall m, Z.land m (Z.lor DF_AUTH DF_NEGATIVE) = 0%Z -> tst (flags c') m = tst (flags c) m) /\
  (forall j, j <> i -> slot c' j = slot c j \/ exists rs, slot c j = Some rs /\ slot c' j = None /\ conflicts i j rs = true /\
     (tst (rs_flags centrrs) CF_LOCAL = false -> tst (rs_flags rs) CF_LOCAL = false)) /\
  (slot c' i = slot c i \/ slot c' i = None \/ strip_set (slot c' i) = strip_set (Some (adjust_ttl global (fresh_set centrrs)))) /\
  (forall rs, slot c i = Some rs -> keep_old now centrrs rs = true -> c' = c) /\
  (ok = true -> tst (flags c) DF_LOCAL = false -> conflict_free c i ->
   (forall rs, slot c i = Some rs -> keep_old now centrrs rs = false) ->
   strip_set (slot c' i) = strip_set (Some (adjust_ttl global (fresh_set centrrs)))).

Lemma conflicts_self i rs : conflicts i i rs = false.
Proof. unfold conflicts. rewrite rr_conflict_irrefl. by rewrite andb_false_r. Qed.

Lemma view_inserted s s' id c c' :
  heap_ok (view s' id c') -> same s s' -> inserted s (view s' id c') id c c'.
Proof.
  intros Hh (Hcs & _ & Hsz & Hst). unfold inserted. splits; [done|cbn; by rewrite Hcs|done|done].
Qed.

Lemma inserted_view s s' id c c' c0 :
  inserted (view s id c0) s' id c c' -> forall s0 c1, same s0 s -> inserted s0 s' id c1 c'.
Proof.
  intros (Hh & Hcs & Hsz & Hst) s0 c1 (Ec & _ & Es & Est). unfold inserted. splits; [done| | |].
  - rewrite Hcs. cbn. by rewrite Ec, insert_insert_eq.
  - by rewrite Hsz.
  - eapply steady_trans; [exact Est|]. destruct Hst as (? & ? & ? & ?). by repeat split.
Qed.

(** The entry after [fill_set]. *)
Definition filled_in (centrrs : rr_set) (c c' : dns_cent) (i : nat) (ok : bool) : Prop :=
  cent_ok c' /\ keeps c c' /\
  (forall m, Z.land m (Z.lor DF_AUTH DF_NEGATIVE) = 0%Z -> tst (flags c') m = tst (flags c) m) /\
  (forall j, j <> i -> slot c' j = slot c j) /\
  if ok then strip_set (slot c' i) = strip_set (Some (adjust_ttl global (fresh_set centrrs))) else slot c' i = None.

Lemma mask_sub m a b : Z.land m (Z.lor a b) = 0%Z -> Z.land m a = 0%Z /\ Z.land m b = 0%Z.
Proof. rewrite Z.land_lor_distr_r. intros [? ?]%Z.lor_eq_0_iff. done. Qed.

Lemma runs_fill_set s id c i centrrs :
  heap_ok (view s id c) -> i < NRRTOT -> slot c i = None ->
  runs (fill_set global centrrs id c i) s (fun ok s' => exists c', inserted s s' id c c' /\
    (plenty s -> ok = true /\ plenty s') /\ filled_in centrrs c c' i ok).
Proof.
  intros Hh Hi Hsl. unfold fill_set. apply runs_bind. eapply runs_weaken; [by apply (runs_view_add s id c i)|].
  intros [ok c3] s3 (Hh3 & Hs3 & Hp3 & Hk3 & Hn3 & Hf3 & Hres3). cbn [fst snd] in *. pose proof (view_ok _ _ _ Hh3) as Hok3.
  destruct ok; cbn [negb].
  2:{ apply runs_bind, runs_mod, runs_ret. exists c3. splits; [by apply view_inserted|by intros H; destruct (Hp3 H)|].
      unfold filled_in. splits; [done|done| |by intros j _; apply Hres3|by rewrite Hres3].
      intros m [_ Hm]%mask_sub. by apply Hf3. }
  destruct Hres3 as [Hi3 Ho3]. apply runs_bind.
  eapply runs_weaken; [apply (runs_add_rrs i centrrs Hi (rs_rrs centrrs) c3 _ s3 Hok3 Hn3 Hi3)|].
  intros [ok4 c4] s4 (Hm4 & Hp4 & Hok4 & Hk4 & Hn4 & Hf4 & Ho4 & l & Hl & Hll). cbn [fst snd] in *.
  assert (Hs4 : same s s4) by (eapply same_trans; [exact Hs3|by apply mem_only_same]).
  assert (Hh4 : heap_ok (view s4 id c4)).
  { apply (view_upd_same s3 s4 id c3 c4); [done|by apply mem_only_same|by apply mem_only_rrl|done|].
    intros [j|]; [|by rewrite !pos_lent]. cbn [lent_of]. destruct (decide (j = i)) as [->|Hne]; [by rewrite Hl, Hi3|by rewrite Ho4]. }
  assert (Hi4 : lent_of c4 (Some i) = None) by (cbn [lent_of]; by rewrite Hl).
  assert (Hlt4 : i < length (sets c4)) by (apply slot_lookup in Hl; by eapply lookup_lt_Some).
  apply runs_bind, runs_mod. change (with_cents _ s4) with (view s4 id c4).
  apply runs_bind. eapply runs_weaken with (Q := fun ok s5 => exists c5, inserted s s5 id c c5 /\
    (plenty s -> ok = true /\ plenty s5) /\ cent_ok c5 /\ keeps c4 c5 /\ flags c5 = flags c4 /\
    (forall j, j <> i -> slot c5 j = slot c4 j) /\
    (ok = true -> ok4 = true /\ strip_set (slot c5 i) = strip_set (adjust_ttl global <$> slot c4 i))).
  { destruct ok4.
    - eapply runs_weaken; [apply (runs_enter_set global (view s4 id c4) id c4 i); [done|apply lookup_insert_eq|done|done|done]|].
      cbn beta. intros ok s5 (c5 & Hins & (Hok5 & Hk5 & Hf5 & _) & Ho5 & He5 & Hp5). exists c5.
      splits; try done; [by eapply inserted_view|]. intros H. apply Hp5. apply Hp4, Hp3, H.
    - apply runs_ret. exists c4. splits; try done; [by apply view_inserted|]. intros H. destruct (Hp4 (proj2 (Hp3 H))); done. }
  cbn beta. intros ok5 s5 (c5 & Hins5 & Hp5 & Hok5 & Hk5 & Hf5 & Ho5 & He5).
  assert (Hk : keeps c c5) by (eapply keeps_trans; [exact Hk3|by eapply keeps_trans]).
  assert (Hf : forall m, Z.land m DF_NEGATIVE = 0%Z -> tst (flags c5) m = tst (flags c) m).
  { intros m Hm. by rewrite Hf5, Hf4, Hf3. }
  assert (Ho : forall j, j <> i -> slot c5 j = slot c j) by (intros j Hj; by rewrite Ho5, Ho4, Ho3).
  destruct ok5.
  - apply runs_ret. exists c5. splits; [done|done|]. unfold filled_in. destruct (He5 eq_refl) as [-> E5].
    splits; [done|done| |done|by rewrite E5, Hl, (Hll eq_refl)].
    intros m [_ Hm]%mask_sub. by apply Hf.
  - apply runs_bind. eapply runs_deref; [by eapply inserted_lookup|].
    apply runs_bind. eapply runs_weaken; [apply (runs_view_del s5 id c5 i); [|done]|].
    { rewrite view_id; [apply Hins5|by eapply inserted_lookup]. }
    intros [rv c6] s6 (Hh6 & Hs6 & _ & _ & _ & _ & Hcl). cbn [fst snd] in *. apply runs_bind, runs_mod, runs_ret.
    exists c6. splits; [|by intros H; destruct (Hp5 H)|].
    + eapply inserted_trans; [exact Hins5|]. by apply view_inserted.
    + unfold filled_in. pose proof Hcl as (Hok6 & Hk6 & _ & _ & _ & _ & Hf6). splits; [done|by eapply keeps_trans| | |].
      * intros m [Ha Hm]%mask_sub. rewrite Hf6 by done. by apply Hf.
      * intros j Hj. rewrite (cleared_slot _ _ _ _ Hcl), decide_False by done. by apply Ho.
      * rewrite (cleared_slot _ _ _ _ Hcl). by rewrite decide_True.
Qed.
End ReplaceSpec.

Section ExistingSpec.
Context {P : Platform} (now : Z) (global : globals).

Lemma like_flags c c' m : like c c' -> Z.land m (Z.lor DF_AUTH DF_NEGATIVE) = 0%Z -> tst (flags c') m = tst (flags c) m.
Proof. intros (_ & _ & _ & H) [Hm _]%mask_sub. by apply H. Qed.

Lemma runs_replace_set s id c cent i :
  heap_ok s -> cents s !! id = Some c -> cent_ok cent -> i < length (sets cent) ->
  runs (replace_set now global cent id i) s (fun ok s' => exists c', inserted s s' id c c' /\
    (plenty s -> ok = true /\ plenty s') /\
    match slot cent i with Some centrrs => replaced now global centrrs c c' i ok | None => c' = c end).
Proof.
  intros Hh Hc Hcent Hi. pose proof Hh as (Hoks & _). destruct (Hoks id c Hc) as [Hok _].
  assert (Hit : i < NRRTOT) by (pose proof (length_sets cent (proj1 Hcent)); lia).
  assert (Hn : is_neg cent = false) by (unfold sets, is_neg in *; destruct (body cent); [cbn in Hi; lia|done]).
  assert (Hstay : inserted s s id c c) by (unfold inserted; splits; [done|by rewrite insert_id|done|by repeat split]).
  destruct (lookup_lt_is_Some_2 (sets cent) i Hi) as [r Hr]. unfold replace_set.
  run_lift; [rewrite rrarr_index_sets; [exact Hr|apply Hcent|done]|].
  assert (Hslc : slot cent i = r) by (unfold slot; by rewrite Hr). rewrite Hslc.
  destruct r as [rs|]; [|apply runs_ret; by exists c].
  apply runs_bind. eapply runs_deref; [exact Hc|]. run_lift; [by apply rrarr_testext_sets; [apply Hok|]|]. fold (slot c i).
  destruct (match slot c i with Some cerrs => keep_old now rs cerrs | None => false end) eqn:Ek.
  { apply runs_ret. exists c. splits; [done|done|]. unfold replaced. splits; [done|done|done|by left|by left|done|].
    intros _ _ _ H. destruct (slot c i) as [cerrs|]; [|done]. rewrite (H cerrs eq_refl) in Ek. done. }
  assert (Hko : forall cerrs, slot c i = Some cerrs -> keep_old now rs cerrs = true -> False).
  { intros cerrs E Hk. rewrite E in Ek. congruence. }
  apply runs_bind. eapply runs_weaken; [apply (runs_view_del s id c i); [by rewrite view_id|done]|].
  intros [rv c1] s1 (Hh1 & Hs1 & _ & Hm1 & _ & _ & Hcl). cbn [fst snd] in *.
  pose proof (fun j => cleared_slot c c1 i j Hcl) as Hsl1. pose proof (cleared_like _ _ _ Hcl) as Hl1.
  apply runs_bind. eapply runs_weaken; [by apply (runs_cr_check_add now s1 id c1 i)|].
  intros [add c2] s2 (Hh2 & Hs2 & Hm2 & Hck). cbn [fst snd] in *. destruct Hck as (Hl2 & Hsl2 & Hadd0 & _ & Hadd1).
  assert (Hl12 : like c c2) by (by eapply like_trans). assert (Hs12 : same s s2) by (by eapply same_trans).
  assert (Hpm : plenty s -> plenty s2) by (unfold plenty; by rewrite Hm2, Hm1).
  assert (Hi2 : slot c2 i = None).
  { destruct (Hsl2 i) as [->|(rs' & _ & -> & _)]; [|done]. by rewrite Hsl1, decide_True. }
  assert (Ho2 : forall j, j <> i -> slot c2 j = slot c j \/ exists rs', slot c j = Some rs' /\ slot c2 j = None /\
    conflicts i j rs' = true /\ (tst (rs_flags rs) CF_LOCAL = false -> tst (rs_flags rs') CF_LOCAL = false)).
  { intros j Hj. specialize (Hsl2 j). rewrite Hsl1, decide_False in Hsl2 by done. exact Hsl2. }
  assert (Hadd : tst (flags c) DF_LOCAL = false -> conflict_free c i -> add = true).
  { intros Hd Hcf. apply Hadd1.
    - destruct Hl1 as (_ & _ & _ & ->); done.
    - intros j rs' Hj. rewrite Hsl1 in Hj. destruct (decide (j = i)); [done|]. by apply (Hcf j rs'). }
  destruct add; cbn [negb].
  - eapply runs_weaken; [by apply (runs_fill_set global s2 id c2 i rs)|].
    cbn beta. intros ok s3 (c3 & Hins & Hp3 & Hok3 & Hk3 & Hf3 & Ho3 & Hi3). exists c3. splits.
    + destruct Hins as (Hh3 & Hcs3 & Hsz3 & Hst3). destruct Hs12 as (Ec & _ & Es & Est).
      unfold inserted. splits; [done|by rewrite Hcs3, Ec|congruence|by eapply steady_trans].
    + intros H. apply Hp3, Hpm, H.
    + unfold replaced. splits; [done| | | | | |].
      * eapply keeps_trans; [apply Hl12|done].
      * intros m Hm. rewrite Hf3 by done. by apply like_flags.
      * intros j Hj. rewrite Ho3 by done. by apply Ho2.
      * right. destruct ok; [by right|by left].
      * intros cerrs E Hk. by destruct (Hko cerrs).
      * intros -> _ _ _. exact Hi3.
  - apply runs_bind, runs_mod, runs_ret. exists c2. splits; [by apply view_inserted|by intros H; split; [|apply Hpm]|].
    unfold replaced. splits; [by eapply view_ok|apply Hl12| |done|by right; left| |].
    + intros m Hm. by apply like_flags.
    + intros cerrs E Hk. by destruct (Hko cerrs).
    + intros _ Hd Hcf _. by specialize (Hadd Hd Hcf).
Qed.

(** Local sets survive as long as no local set is added. *)
Definition keeps_local (c c' : dns_cent) : Prop :=
  forall j rs, slot c j = Some rs -> tst (rs_flags rs) CF_LOCAL = true -> slot c' j = Some rs.

Definition no_local (c : dns_cent) : Prop :=
  forall j rs, slot c j = Some rs -> tst (rs_flags rs) CF_LOCAL = false.

Lemma replaced_local rs c c' i ok :
  replaced now global rs c c' i ok -> tst (rs_flags rs) CF_LOCAL = false -> keeps_local c c'.
Proof.
  intros (_ & _ & _ & Ho & _ & Hk & _) Hl j r Hj Hr. destruct (decide (j = i)) as [->|Hne].
  - rewrite (Hk r Hj); [done|]. unfold keep_old. by rewrite Hl, Hr.
  - destruct (Ho j Hne) as [->|(rs' & E & _ & _ & Hx)]; [done|]. rewrite Hj in E. injection E as <-.
    rewrite (Hx Hl) in Hr. done.
Qed.

(** The sets of [c'] have the records of the same sets of [c] or of [cent]. *)
Definition sourced (cent c c' : dns_cent) : Prop :=
  forall j rs', slot c' j = Some rs' -> exists rs, (slot c j = Some rs \/ slot cent j = Some rs) /\ rs_rrs rs' = rs_rrs rs.

Lemma sourced_sub cent c c' : (forall j, slot c' j = slot c j \/ slot c' j = None) -> sourced cent c c'.
Proof. intros H j rs' Hj. exists rs'. destruct (H j) as [E|E]; [|congruence]. split; [left; congruence|done]. Qed.

Lemma sourced_trans cent c1 c2 c3 : sourced cent c1 c2 -> sourced cent c2 c3 -> sourced cent c1 c3.
Proof.
  intros H1 H2 j rs3 H3. destruct (H2 j rs3 H3) as (rs2 & [Hs2|Hs2] & E2); [|exists rs2; auto].
  destruct (H1 j rs2 Hs2) as (rs1 & Hs1 & E1). exists rs1. split; [done|congruence].
Qed.

Lemma strip_rrs r x : strip_set r = strip_set (Some x) -> exists rs, r = Some rs /\ rs_rrs rs = rs_rrs x.
Proof. destruct r as [rs|]; cbn; [|done]. intros [= _ _ _ H]. by exists rs. Qed.

Lemma replaced_sourced rs cent c c' i ok : slot cent i = Some rs -> replaced now global rs c c' i ok -> sourced cent c c'.
Proof.
  intros Hi (_ & _ & _ & Ho & Hs & _) j rs' Hj. destruct (decide (j = i)) as [->|Hne].
  - destruct Hs as [E|[E|E]]; [exists rs'; split; [left|]; congruence|congruence|].
    apply strip_rrs in E as (rs2 & E2 & Er). rewrite Hj in E2. injection E2 as <-. exists rs. split; [by right|]. rewrite Er.
    by destruct (adjust_ttl_same global (fresh_set rs)) as [-> _].
  - destruct (Ho j Hne) as [E|(rs2 & _ & E & _)]; [exists rs'; split; [left|]; congruence|congruence].
Qed.

(** What the loop over all sets keeps. *)
Definition merged (cent c c' : dns_cent) : Prop :=
  cent_ok c' /\ keeps c c' /\
  (forall m, Z.land m (Z.lor DF_AUTH DF_NEGATIVE) = 0%Z -> tst (flags c') m = tst (flags c) m) /\
  (no_local cent -> keeps_local c c') /\ sourced cent c c'.

Lemma merged_refl cent c : cent_ok c -> merged cent c c.
Proof. intros H. unfold merged, keeps, keeps_local. splits; try done. apply sourced_sub. auto. Qed.

Lemma merged_trans cent c1 c2 c3 : merged cent c1 c2 -> merged cent c2 c3 -> merged cent c1 c3.
Proof.
  intros (_ & Hk & Hf & Hl & Hs) (Hok & Hk' & Hf' & Hl' & Hs'). unfold merged. splits; [done|by eapply keeps_trans| | |by eapply sourced_trans].
  - intros m Hm. rewrite Hf' by done. by apply Hf.
  - intros Hn j rs Hj Hr. apply (Hl' Hn j rs); [|done]. by apply (Hl Hn j rs).
Qed.

Lemma replaced_merged cent c c' i ok :
  cent_ok c -> match slot cent i with Some centrrs => replaced now global centrrs c c' i ok | None => c' = c end ->
  merged cent c c'.
Proof.
  intros Hok H. destruct (slot cent i) as [rs|] eqn:E; [|subst c'; by apply merged_refl].
  unfold merged. pose proof H as (Hok' & Hk & Hf & _). splits; try done; [|by eapply replaced_sourced].
  intros Hn. eapply replaced_local; [exact H|]. by apply (Hn i).
Qed.

Lemma runs_replace_sets id cent : cent_ok cent -> forall ixs s c,
  heap_ok s -> cents s !! id = Some c -> Forall (fun i => i < length (sets cent)) ixs ->
  runs (replace_sets now global cent id ixs) s (fun ok s' => exists c', inserted s s' id c c' /\
    (plenty s -> ok = true /\ plenty s') /\ merged cent c c').
Proof.
  intros Hcent. induction ixs as [|i ixs IH]; intros s c Hh Hc Hix; cbn [replace_sets].
  - apply runs_ret. exists c. splits; [|done|apply merged_refl; by apply (proj1 Hh id)].
    unfold inserted. splits; [done|by rewrite insert_id|done|by repeat split].
  - apply Forall_cons in Hix as [Hi Hix]. apply runs_bind. eapply runs_weaken; [by apply (runs_replace_set s id c cent i)|].
    cbn beta. intros ok s1 (c1 & Hins & Hp & Hrep).
    assert (Hm1 : merged cent c c1) by (eapply replaced_merged; [by apply (proj1 Hh id)|exact Hrep]).
    destruct ok; [|apply runs_ret; exists c1; splits; [done|by intros H; destruct (Hp H)|done]].
    eapply runs_weaken; [apply (IH s1 c1); [apply Hins|by eapply inserted_lookup|done]|].
    cbn beta. intros ok s2 (c2 & Hins2 & Hp2 & Hm2). exists c2.
    splits; [by eapply inserted_trans|by intros H; apply Hp2, Hp|by eapply merged_trans].
Qed.
End ExistingSpec.

Section AddCacheSpec.
Context {P : Platform} (now : Z) (global : globals).

(** Local sets of all entries survive. *)
Definition local_sets_kept (s s' : cache) : Prop :=
  forall id c, cents s !! id = Some c -> forall i rs, slot c i = Some rs -> tst (rs_flags rs) CF_LOCAL = true ->
    exists c', cents s' !! id = Some c' /\ qname c' = qname c /\ slot c' i = Some rs.

Lemma tst_lor_other f g m : Z.land g m = 0%Z -> tst (Z.lor f g) m = tst f m.
Proof. intros H. unfold tst. by rewrite Z.land_lor_distr_l, H, Z.lor_0_r. Qed.

Lemma land_mask_0 f a m : Z.land a m = 0%Z -> Z.land (Z.land f a) m = 0%Z.
Proof. intros H. by rewrite <- Z.land_assoc, H, Z.land_0_r. Qed.

(** The references and flags that are merged at the end. *)
Definition finish (cent c : dns_cent) : dns_cent :=
  let c := set_flags (Z.lor (flags c) (Z.land (flags cent) (Z.lor DF_AUTH DF_WILD))) c in
  let c := if negb (c_ns cent =? cundef)%Z && ((c_ns c =? cundef)%Z || (c_ns c <? c_ns cent)%Z)
           then set_c_ns (c_ns cent) c else c in
  if negb (c_soa cent =? cundef)%Z && ((c_soa c =? cundef)%Z || (c_soa c <? c_soa cent)%Z)
  then set_c_soa (c_soa cent) c else c.

Lemma finish_ok cent c : cent_ok c -> cent_ok (finish cent c) /\ body (finish cent c) = body c /\
  qname (finish cent c) = qname c /\ cs (finish cent c) = cs c /\
  (forall m, Z.land (Z.lor DF_AUTH DF_WILD) m = 0%Z -> tst (flags (finish cent c)) m = tst (flags c) m).
Proof.
  intros (Hs & Hq & Hcs & Hn).
  assert (H1 : let c1 := set_flags (Z.lor (flags c) (Z.land (flags cent) (Z.lor DF_AUTH DF_WILD))) c in cent_ok c1).
  { split; [|by split]. destruct Hs as [Hs1 Hs2]. split; [|done]. cbn.
    rewrite tst_lor_other; [done|]. by apply land_mask_0. }
  unfold finish. cbv zeta in *. set (c1 := set_flags _ c) in *.
  assert (Hf : forall m, Z.land (Z.lor DF_AUTH DF_WILD) m = 0%Z -> tst (flags c1) m = tst (flags c) m).
  { intros m Hm. cbn. apply tst_lor_other. by apply land_mask_0. }
  destruct (negb (c_ns cent =? cundef)%Z && _); destruct (negb (c_soa cent =? cundef)%Z && _); by splits.
Qed.

Lemma body_lent c c' idx : body c' = body c -> lent_of c' idx = lent_of c idx.
Proof. intros H. destruct idx; cbn [lent_of]; unfold slot, sets; by rewrite H. Qed.

Lemma runs_add_existing s id c cent :
  inv s -> cents s !! id = Some c -> cent_ok cent -> is_neg cent = false ->
  runs (add_existing now global cent id) s (fun _ s' => inv s' /\ insert_sort s' = insert_sort s /\
    (no_local cent -> local_sets_kept s s') /\
    exists c', cents s' = <[id := c']> (cents s) /\ qname c' = qname c /\ sourced cent c c').
Proof.
  intros Hi Hc Hcent Hng. unfold add_existing. apply runs_bind.
  eapply runs_weaken; [by apply (runs_purge_cent now s id c false false)|].
  intros n s1 (Hi1 & Hr1 & Hneg1 & _ & Hst1). rewrite Hneg1 in Hst1. cbn [andb] in Hst1.
  destruct Hst1 as (c1 & Hcs1 & Hsl1 & Hq1 & _ & [(Hb1 & Hnc1 & Hen1 & His1) _] & _).
  assert (Hc1 : cents s1 !! id = Some c1) by (rewrite Hcs1; apply lookup_insert_eq).
  assert (Hkl1 : keeps_local c c1).
  { intros j rs Hj Hl. rewrite Hsl1, Hj. cbn. unfold must_go. rewrite Hl. by rewrite orb_true_r. }
  apply runs_bind. eapply runs_deref; [exact Hc1|]. apply runs_bind, runs_mod.
  set (s2 := with_cache_size _ s1). run_lift; [apply rrarr_len_sets, Hcent|].
  apply runs_bind. eapply runs_weaken; [apply (runs_replace_sets now global id cent Hcent _ s2 c1); [apply Hi1|exact Hc1|]|].
  { apply Forall_forall. intros i Hin. apply elem_of_seq in Hin. lia. }
  cbn beta. intros ok s3 (c3 & Hins & _ & Hmg). pose proof (inserted_lookup _ _ _ _ _ Hins) as Hc3.
  destruct Hins as (Hh3 & Hcs3 & Hsz3 & Hst3). change (cents s2) with (cents s1) in Hcs3. pose proof Hmg as (Hok3 & Hk3 & _ & Hkl3 & Hso3).
  assert (Hso : sourced cent c c3).
  { eapply sourced_trans; [|exact Hso3]. apply sourced_sub. intros j. rewrite Hsl1. destruct (slot c j) as [rs|]; [|by left].
    cbn. destruct (must_go now rs); auto. }
  (* the end: the entry is stored with [finish] or as it is *)
  assert (Hend : forall s4 c4, cent_ok c4 -> body c4 = body c3 -> qname c4 = qname c3 -> cs c4 = cs c3 ->
    s4 = with_cache_size (cache_size s3 + cs c4) (with_cents (<[id := c4]> (cents s3)) s3) ->
    inv s4 /\ insert_sort s4 = insert_sort s /\ (no_local cent -> local_sets_kept s s4) /\
    exists c', cents s4 = <[id := c']> (cents s) /\ qname c' = qname c /\ sourced cent c c').
  { intros s4 c4 Hok4 Hb4 Hq4 Hcz4 ->.
    assert (Hce4 : <[id := c4]> (cents s3) = <[id := c4]> (cents s)) by (by rewrite Hcs3, Hcs1, !insert_insert_eq).
    assert (Hq4' : qname c4 = qname c) by (destruct Hk3 as (? & _); congruence).
    splits.
    - eapply (inv_upd s1 _ id c1 c4); [done| |exact Hc1|congruence| | |].
      + eapply (heap_ok_upd s3 _ id c3 c4 (rrl s3)); try done; [|by left].
        destruct Hh3 as (_ & Hl3 & _). eapply linked_same; [done|exact Hc3|]. intros idx. by apply body_lent.
      + cbn. by rewrite Hcs3, insert_insert_eq.
      + cbn. rewrite Hsz3. cbn. lia.
      + destruct Hst3 as (? & ? & ? & ?). by repeat split.
    - cbn. destruct Hst3 as (_ & _ & _ & Hi3). rewrite Hi3. exact His1.
    - intros Hnl id' c' Hc' i rs Hs Hl. cbn. rewrite Hce4. destruct (decide (id = id')) as [<-|Hne].
      + rewrite Hc in Hc'. injection Hc' as <-. exists c4. rewrite lookup_insert_eq. splits; [done|done|].
        assert (E : slot c4 i = slot c3 i) by (unfold slot, sets; by rewrite Hb4). rewrite E.
        apply (Hkl3 Hnl i rs); [by apply Hkl1|done].
      + exists c'. by rewrite lookup_insert_ne.
    - exists c4. splits; [exact Hce4|done|]. intros j rs'. assert (E : slot c4 j = slot c3 j) by (unfold slot, sets; by rewrite Hb4).
      rewrite E. apply Hso. }
  destruct ok; apply runs_bind; (eapply runs_deref; [exact Hc3|]).
  - change (let c := _ in _) with (_ ← store id (finish cent c3); _ ← add_size (cs (finish cent c3)); mret true).
    destruct (finish_ok cent c3 Hok3) as (H1 & H2 & H3 & H4 & _).
    apply runs_bind, runs_mod, runs_bind, runs_mod, runs_ret. by eapply Hend.
  - apply runs_bind, runs_mod, runs_ret. eapply (Hend _ c3); try done.
    unfold with_cache_size, with_cents. cbn. by rewrite (insert_id _ _ _ Hc3).
Qed.
End AddCacheSpec.

Section AddCache.
Context {P : Platform} (now : Z) (global : globals).

(** *** The number of nodes *)

Lemma rrl_length s : heap_ok s -> length (rrl s) <= NRRTOT * size (cents s).
Proof.
  intros Hh. set (f := fun x : positive * lent_val => (lv_cent x.2, default 0 (lv_idx x.2))).
  set (all := list_prod (map_to_list (cents s)).*1 (seq 0 NRRTOT)).
  assert (Hlen : length all = NRRTOT * size (cents s)).
  { unfold all. rewrite length_prod, length_fmap, length_map_to_list, length_seq. lia. }
  rewrite <- Hlen, <- (length_fmap f). apply submseteq_length, NoDup_submseteq.
  - apply NoDup_fmap_2_strong; [|apply (NoDup_fmap_1 fst); apply Hh].
    intros [p v] [q w] Hp Hq [= Hid Hix]. destruct (node_entry s p v Hh Hp) as (c & Hc & _ & Hl & Hv).
    destruct (node_entry s q w Hh Hq) as (c' & Hc' & _ & Hl' & Hw). rewrite <- Hid, Hc in Hc'. injection Hc' as <-.
    assert (Hidx : lv_idx v = lv_idx w).
    { destruct (lv_idx v) as [i|], (lv_idx w) as [j|]; cbn in Hix; [by subst| | |done].
      - destruct Hv as (rs & _ & _ & ?). congruence.
      - destruct Hw as (rs & _ & _ & ?). congruence. }
    rewrite Hidx in Hl. rewrite Hl in Hl'. injection Hl' as <-. f_equal. destruct v, w. cbn in *. by subst.
  - intros [id i] Hin. apply list_elem_of_fmap in Hin as ([p v] & [= -> ->] & Hin).
    destruct (node_entry s p v Hh Hin) as (c & Hc & _ & _ & Hv). apply list_elem_of_In, in_prod.
    + apply list_elem_of_In, list_elem_of_fmap. exists (lv_cent v, c). split; [done|]. by apply elem_of_map_to_list.
    + apply list_elem_of_In, elem_of_seq. destruct (lv_idx v) as [i|]; cbn; [|unfold NRRTOT; lia].
      destruct Hv as (_ & _ & Hlt & _). lia.
Qed.

(** The list of record sets is sorted, or it can still be sorted with one more entry. *)
Definition room (s : cache) : Prop :=
  insert_sort s = true \/ (Z.of_nat (NRRTOT * (size (cents s) + 1)) < 2 ^ 32)%Z.

Lemma room_countable s s' : inv s' -> room s -> insert_sort s' = insert_sort s -> size (cents s') <= size (cents s) + 1 ->
  countable_rrl s'.
Proof.
  intros Hi [H|H] Hs Hle; [left; congruence|right]. pose proof (rrl_length s' (proj1 Hi)). unfold NRRTOT in *. lia.
Qed.

Lemma room_le s s' : room s -> insert_sort s' = insert_sort s -> size (cents s') <= size (cents s) -> room s'.
Proof. intros [H|H] Hs Hle; [left; congruence|right]. unfold NRRTOT in *. lia. Qed.

(** *** Purging when there is nothing to do *)

Lemma purge_idle s sz : (cache_size s <= sz)%Z -> purge_cache now sz true s = Some (tt, s).
Proof.
  intros Hle. assert (Hlt : (sz <? cache_size s)%Z = false) by (apply Z.ltb_ge; lia).
  assert (Hle' : (cache_size s <=? sz)%Z = true) by (apply Z.leb_le; lia).
  unfold purge_cache, mbind, M_bind, getM. cbn [purge_timedout]. unfold mbind, M_bind, getM.
  destruct (rrl s) as [|[p v] l]; cbn [head fmap option_fmap option_map fst negb orb];
    [|rewrite Hlt]; cbn; by rewrite Hle'.
Qed.

Lemma has_local_spec c : shape c -> is_neg c = false -> forall n k, k + n = length (sets c) ->
  exists b, has_local c (seq k n) = Some b /\
    (b = false -> forall j rs, k <= j -> slot c j = Some rs -> tst (rs_flags rs) CF_LOCAL = false).
Proof.
  intros Hs Hn. induction n as [|n IH]; intros k Hk; cbn [seq has_local].
  - exists false. split; [done|]. intros _ j rs Hj Hsl. apply slot_lookup, lookup_lt_Some in Hsl. lia.
  - destruct (lookup_lt_is_Some_2 (sets c) k) as [r Hr]; [lia|]. rewrite rrarr_index_sets, Hr by done. sbind.
    assert (Hsl : slot c k = r) by (unfold slot; by rewrite Hr).
    destruct (IH (S k)) as (b & Hb & Hall); [lia|].
    assert (Hrest : (forall rs, r = Some rs -> tst (rs_flags rs) CF_LOCAL = false) -> b = false ->
      forall j rs, k <= j -> slot c j = Some rs -> tst (rs_flags rs) CF_LOCAL = false).
    { intros Hr' Hbf j rs Hj Hs'. destruct (decide (j = k)) as [->|Hne]; [apply Hr'; congruence|].
      apply (Hall Hbf j rs); [lia|done]. }
    destruct r as [rs|]; [|exists b; split; [done|by apply Hrest]].
    destruct (tst (rs_flags rs) CF_LOCAL) eqn:El; [by exists true|]. exists b. split; [done|]. apply Hrest. by intros rs' [= <-].
Qed.

Lemma runs_has_local s c : cent_ok c ->
  runs (ilim ← liftM (rrarr_len c); liftM (has_local c (seq 0 ilim))) s (fun b s' => s' = s /\ (b = false -> no_local c)).
Proof.
  intros Hok. pose proof Hok as (Hs & _). run_lift; [by apply rrarr_len_sets|]. destruct (is_neg c) eqn:En.
  - assert (E : sets c = []) by (unfold sets, is_neg in *; by destruct (body c)). rewrite E. eapply runs_lift; [done|].
    split; [done|]. intros _ j rs. by rewrite neg_slot.
  - destruct (has_local_spec c Hs En (length (sets c)) 0) as (b & Hb & Hall); [lia|]. eapply runs_lift; [exact Hb|].
    split; [done|]. intros E j rs Hj. apply (Hall E j rs); [lia|done].
Qed.

Lemma only_purged_sets s s' : only_purged s s' -> local_sets_kept s s'.
Proof. intros [H _] id c Hc i rs Hs Hl. by apply (H id c Hc). Qed.

Lemma local_sets_trans s1 s2 s3 : local_sets_kept s1 s2 -> local_sets_kept s2 s3 -> local_sets_kept s1 s3.
Proof.
  intros H12 H23 id c Hc i rs Hs Hl. destruct (H12 id c Hc i rs Hs Hl) as (c2 & Hc2 & Hq & Hs2).
  rewrite <- Hq. by apply (H23 id c2 Hc2 i rs).
Qed.

Lemma local_sets_refl s : local_sets_kept s s.
Proof. intros id c Hc i rs Hs Hl. by exists c. Qed.

(** All records were there before, in the same entry, or come from [cent]. *)
Definition derived (s s' : cache) (cent : dns_cent) : Prop :=
  forall id c' j rs', cents s' !! id = Some c' -> slot c' j = Some rs' ->
    (exists c rs, cents s !! id = Some c /\ qname c = qname c' /\ slot c j = Some rs /\ rs_rrs rs' = rs_rrs rs) \/
    (fold_key (qname c') = fold_key (qname cent) /\ exists rs, slot cent j = Some rs /\ rs_rrs rs' = rs_rrs rs).

Lemma derived_sub s s' cent :
  (forall id c', cents s' !! id = Some c' -> exists c, cents s !! id = Some c /\ qname c' = qname c /\
     forall j, slot c' j = slot c j \/ slot c' j = None) -> derived s s' cent.
Proof.
  intros H id c' j rs' Hc' Hj. left. destruct (H id c' Hc') as (c & Hc & Hq & Hs). exists c, rs'.
  destruct (Hs j) as [E|E]; [|congruence]. splits; congruence.
Qed.

Lemma derived_refl s cent : derived s s cent.
Proof. apply derived_sub. intros id c Hc. exists c. splits; auto. Qed.

Lemma derived_trans s1 s2 s3 cent : derived s1 s2 cent -> derived s2 s3 cent -> derived s1 s3 cent.
Proof.
  intros H1 H2 id c3 j rs3 Hc3 Hj3. destruct (H2 id c3 j rs3 Hc3 Hj3) as [(c2 & rs2 & Hc2 & Hq2 & Hj2 & E2)|?]; [|by right].
  destruct (H1 id c2 j rs2 Hc2 Hj2) as [(c1 & rs1 & Hc1 & Hq1 & Hj1 & E1)|(Hk & rs & Hs & E1)].
  - left. exists c1, rs1. splits; congruence.
  - right. split; [congruence|]. exists rs. split; congruence.
Qed.

Lemma only_purged_derived s s' cent : only_purged s s' -> derived s s' cent.
Proof. intros [_ H]. apply derived_sub. intros id c' Hc'. destruct (H id c' Hc') as (c & Hc & Hq & _ & Hs). by exists c. Qed.

(** All entries were there before, or have the name of [cent]. *)
Definition named (s s' : cache) (cent : dns_cent) : Prop :=
  forall id c', cents s' !! id = Some c' ->
    fold_key (qname c') = fold_key (qname cent) \/ exists c, cents s !! id = Some c /\ qname c = qname c'.

Lemma named_sub s s' cent :
  (forall id c', cents s' !! id = Some c' -> exists c, cents s !! id = Some c /\ qname c' = qname c) -> named s s' cent.
Proof. intros H id c' Hc'. right. destruct (H id c' Hc') as (c & Hc & ->). by exists c. Qed.

Lemma named_trans s1 s2 s3 cent : named s1 s2 cent -> named s2 s3 cent -> named s1 s3 cent.
Proof.
  intros H1 H2 id c3 Hc3. destruct (H2 id c3 Hc3) as [?|(c2 & Hc2 & Hq2)]; [by left|]. rewrite <- Hq2.
  by apply (H1 id c2).
Qed.

(** What [add_cache] guarantees in every case. *)
Definition safely_added (s s' : cache) (cent : dns_cent) : Prop :=
  inv s' /\ (no_local cent -> local_sets_kept s s') /\ derived s s' cent /\ (insert_sort s = true -> insert_sort s' = true) /\
  named s s' cent.

Lemma safely_refl s cent : inv s -> safely_added s s cent.
Proof. intros Hi. unfold safely_added. splits; [done|intros _; apply local_sets_refl|apply derived_refl|done|apply named_sub; by eauto]. Qed.

Lemma safely_trans s1 s2 s3 cent : safely_added s1 s2 cent -> safely_added s2 s3 cent -> safely_added s1 s3 cent.
Proof.
  intros (_ & Hl & Hd & Hi & Hn) (Hv & Hl' & Hd' & Hi' & Hn'). unfold safely_added.
  splits; [done|intros Hnl; eapply local_sets_trans; eauto|by eapply derived_trans|auto|by eapply named_trans].
Qed.

Lemma runs_then_purge s s1 cent sz :
  safely_added s s1 cent -> countable_rrl s1 ->
  runs (purge_cache now sz true) s1 (fun _ s' => safely_added s s' cent).
Proof.
  intros Hs Hc. eapply runs_weaken; [by apply runs_purge_cache; [apply Hs|]|]. cbn beta. intros _ s' (Hi' & Hk & His & _).
  eapply safely_trans; [exact Hs|]. unfold safely_added.
  splits; [done|intros _; by apply only_purged_sets|by apply only_purged_derived|done|].
  apply named_sub. intros id c' Hc'. destruct (proj2 Hk id c' Hc') as (c & Hc2 & Hq & _). by exists c.
Qed.

(** A new entry has the records of [cent]. *)
Lemma adjusted_derived s s' id cent c' :
  cents s !! id = None -> cents s' = <[id := c']> (cents s) -> adjusted global cent c' -> derived s s' cent.
Proof.
  intros Hid Hcs (Hok & (Hq & _) & _ & Hn & Had) id' c2 j rs' Hc2 Hj. rewrite Hcs in Hc2.
  destruct (decide (id = id')) as [<-|Hne].
  - rewrite lookup_insert_eq in Hc2. injection Hc2 as <-. right. split; [by rewrite Hq|].
    destruct (is_neg cent); [by rewrite neg_slot in Hj|]. destruct Had as [_ Had]. specialize (Had j). rewrite Hj in Had.
    symmetry in Had. apply strip_rrs in Had as (rs2 & E & Er). destruct (slot cent j) as [rs|]; [|done]. cbn in E. injection E as <-.
    exists rs. split; [done|]. by destruct (adjust_ttl_same global rs) as [<- _].
  - rewrite lookup_insert_ne in Hc2 by done. left. by exists c2, rs'.
Qed.

Lemma runs_add_absent s m N cent loc :
  inv s -> hash_ok s m -> cent_ok cent -> wf_name N -> qname cent = enc_name N ->
  m !! fold_key (enc_name N) = None -> loc_ok (qname_at s) (buckets s) N None loc -> room s ->
  runs (add_absent now global cent loc) s (fun _ s' => safely_added s s' cent /\
    (plenty s -> (num_rrs cent <> 0%Z \/ is_neg cent = true) -> (cache_size s + cs cent <= cache_limit global)%Z ->
     exists id c', cents s !! id = None /\ cents s' = <[id := c']> (cents s) /\ adjusted global cent c' /\
       hash_ok s' (<[fold_key (enc_name N) := id]> m) /\ plenty s' /\ insert_sort s' = insert_sort s)).
Proof.
  intros Hi Hm Hok HN Hq HK Hloc Hroom. unfold add_absent.
  assert (Hneg : tst (flags cent) DF_NEGATIVE = is_neg cent) by apply Hok. rewrite Hneg.
  destruct ((num_rrs cent =? 0)%Z && negb (is_neg cent)) eqn:Ee.
  { apply andb_true_iff in Ee as [E1 E2]. boolp. apply negb_true_iff in E2.
    eapply runs_weaken; [apply (runs_then_purge s s cent)|].
    - by apply safely_refl.
    - eapply room_countable; [done|done|done|lia].
    - cbn beta. intros _ s' H. split; [done|]. intros _ [?|?]; [done|congruence]. }
  apply runs_bind. eapply runs_weaken; [by apply (runs_add_new global s m N cent loc)|].
  cbn beta. intros ok s1 (Hi1 & Hp1 & His1 & Hres). destruct ok.
  - destruct Hres as (id & c' & Hid & Hcs & Had & Hm1 & Hsz).
    assert (Hsafe : safely_added s s1 cent).
    { unfold safely_added. splits; [done| |by eapply adjusted_derived|congruence|].
      - intros _ id' c2 Hc2 i rs Hs Hl. exists c2. rewrite Hcs, lookup_insert_ne by congruence. done.
      - intros id' c2 Hc2. rewrite Hcs in Hc2. apply lookup_insert_Some in Hc2 as [[<- <-]|[_ Hc2]]; [left|right; by exists c2].
        by rewrite (proj1 (proj1 (proj2 Had))). }
    destruct (decide (cache_size s1 <= cache_limit global)%Z) as [Hle|Hgt].
    + exists tt, s1. split; [by apply purge_idle|]. split; [done|]. intros Hp _ _. exists id, c'. splits; try done. by apply Hp1.
    + eapply runs_weaken; [apply (runs_then_purge s s1 cent); [done|]|].
      * eapply room_countable; [done|done|done|]. rewrite Hcs, map_size_insert_None by done. lia.
      * cbn beta. intros _ s' H. split; [done|]. intros _ _ Hle. lia.
  - apply runs_ret. destruct Hres as [Hcs _]. split; [|intros H; by destruct (Hp1 H)].
    unfold safely_added. splits; [done| | |congruence|]; [intros _ id c Hc i rs Hs Hl; exists c; by rewrite Hcs| |].
    + apply derived_sub. intros id c Hc. rewrite Hcs in Hc. exists c. splits; auto.
    + apply named_sub. intros id c Hc. rewrite Hcs in Hc. by exists c.
Qed.

(** After a deletion the name is gone. *)
Lemma deleted_absent s s' m m' N id c :
  hash_ok s m -> m !! fold_key (enc_name N) = Some id -> inv s -> cents s' = delete id (cents s) -> hash_ok s' m' ->
  cents s !! id = Some c -> m' !! fold_key (enc_name N) = None.
Proof.
  intros Hm HK Hi Hcs Hm' Hc. destruct (m' !! fold_key (enc_name N)) as [id'|] eqn:E; [|done].
  destruct (hash_entry s' m' _ id' Hm' E) as (c' & Hc' & Hk). rewrite Hcs in Hc'. apply lookup_delete_Some in Hc' as [Hne Hc'].
  destruct (cent_name c' (inv_cent s id' c' Hi Hc')) as (N' & HN' & Hq').
  pose proof (hash_key s m id' c' N' Hm Hc' Hq') as HK'. rewrite <- Hq', Hk, HK in HK'. by injection HK'.
Qed.

Lemma runs_lookup_qname s m cent N :
  hash_ok s m -> wf_name N -> qname cent = enc_name N ->
  runs (hash_lookup (qname cent)) s (fun res s' => s' = s /\ res.1 = m !! fold_key (enc_name N) /\
    loc_ok (qname_at s) (buckets s) N res.1 res.2).
Proof.
  intros Hm HN Hq. rewrite Hq, <- (app_nil_r (enc_name N)).
  eapply runs_weaken; [by apply runs_hash_lookup|]. by rewrite app_nil_r.
Qed.

Lemma loc_ok_exists s id loc c N :
  loc_ok (qname_at s) (buckets s) N (Some id) loc -> cents s !! id = Some c -> wf_name N -> inv s ->
  fold_key (qname c) = fold_key (enc_name N) ->
  exists N', wf_name N' /\ qname c = enc_name N' /\ loc_ok (qname_at s) (buckets s) N' (Some id) loc.
Proof.
  intros (Hh & ch & Hch & he & Hlk & Hd) Hc HN Hi Hk. destruct (cent_name c (inv_cent s id c Hi Hc)) as (N' & HN' & Hq').
  exists N'. splits; try done. pose proof Hi as (_ & [m [[[_ Hinv] _] _]] & _). destruct (Hinv _ _ Hch) as [Hent _].
  rewrite Forall_forall in Hent. destruct (Hent he) as (N2 & HN2 & Hq2 & Hh2); [by eapply list_elem_of_lookup_2|].
  unfold qname_at in Hq2. rewrite Hd, Hc in Hq2. cbn in Hq2. rewrite Hq' in Hq2. injection Hq2 as Hq2.
  assert (E : enc_name N' ++ [] = enc_name N2 ++ []) by (by rewrite Hq2). apply enc_name_inj in E as [<- _]; [|apply HN'|apply HN2].
  assert (Hrh : hash_of N' = (loc_bucket loc, loc_rhash loc)).
  { rewrite <- Hh. apply hash_of_eqi; [apply HN'|apply HN|]. apply fold_key_eqi; [apply HN'|apply HN|]. by rewrite <- Hq'. }
  split; [done|]. exists ch. split; [done|]. by exists he.
Qed.

Lemma runs_add_cache s m N cent :
  inv s -> hash_ok s m -> cent_ok cent -> wf_name N -> qname cent = enc_name N -> room s ->
  runs (add_cache now global cent) s (fun _ s' => safely_added s s' cent /\
    (m !! fold_key (enc_name N) = None -> plenty s -> (num_rrs cent <> 0%Z \/ is_neg cent = true) ->
     (cache_size s + cs cent <= cache_limit global)%Z ->
     exists id c', cents s !! id = None /\ cents s' = <[id := c']> (cents s) /\ adjusted global cent c' /\
       hash_ok s' (<[fold_key (enc_name N) := id]> m) /\ plenty s' /\ insert_sort s' = insert_sort s)).
Proof.
  intros Hi Hm Hok HN Hq Hroom. unfold add_cache. cbn [add_cache_retry].
  apply runs_bind. eapply runs_weaken; [by eapply runs_lookup_qname|]. intros [ce loc] s0 (-> & Hce & Hloc). cbn [fst snd] in *.
  assert (Hng : tst (flags cent) DF_NEGATIVE = is_neg cent) by apply Hok.
  destruct ce as [id|].
  - symmetry in Hce. destruct (hash_entry s m _ id Hm Hce) as (c & Hc & Hk).
    eapply runs_weaken with (Q := fun _ s' => safely_added s s' cent); [|intros u s' H; split; [exact H|congruence]].
    destruct (tst (flags cent) DF_NEGATIVE).
    + apply runs_bind. eapply runs_deref; [exact Hc|].
      destruct (runs_has_local s c (inv_cent s id c Hi Hc)) as (b & s' & Hrun & -> & Hnl).
      pose proof (rrarr_len_sets c (proj1 (inv_cent s id c Hi Hc))) as Hlen. run_lift; [exact Hlen|].
      unfold mbind, M_bind, liftM in Hrun. rewrite Hlen in Hrun. cbn in Hrun.
      destruct (has_local c (seq 0 (length (sets c)))) as [b'|] eqn:Eb; [|done]. cbn in Hrun. injection Hrun as ->.
      run_lift; [done|]. destruct b.
      { apply runs_ret. by apply safely_refl. }
      apply runs_bind. eapply runs_weaken; [apply (runs_del_cache_ent s id c (Some loc) Hi Hc)|].
      { intros l [= <-]. by eapply loc_ok_exists. }
      intros _ s1 (Hi1 & Hcs1 & _ & _ & _ & _ & His1 & _). pose proof Hi1 as (_ & [m1 Hm1] & _).
      pose proof (deleted_absent s s1 m m1 N id c Hm Hce Hi Hcs1 Hm1 Hc) as HK1.
      assert (Hroom1 : room s1).
      { eapply room_le; [exact Hroom|done|]. rewrite Hcs1, map_size_delete_Some by (by exists c). lia. }
      apply runs_bind. eapply runs_weaken; [by eapply (runs_lookup_qname s1 m1)|].
      intros [ce1 loc1] s2 (-> & Hce1 & Hloc1). cbn [fst snd] in *. rewrite HK1 in Hce1. subst ce1.
      eapply runs_weaken; [by apply (runs_add_absent s1 m1 N cent loc1)|]. cbn beta. intros _ s3 [Hs3 _].
      eapply safely_trans; [|exact Hs3]. unfold safely_added. splits; [done| | |congruence|].
      3:{ apply named_sub. intros id' c2 Hc2. rewrite Hcs1 in Hc2. apply lookup_delete_Some in Hc2 as [_ Hc2]. by exists c2. }
      2:{ apply derived_sub. intros id' c2 Hc2. rewrite Hcs1 in Hc2. apply lookup_delete_Some in Hc2 as [_ Hc2]. exists c2. splits; auto. }
      intros Hnc id' c' Hc' i rs Hs Hl. exists c'. rewrite Hcs1, lookup_delete_ne; [done|]. intros <-.
      rewrite Hc in Hc'. injection Hc' as <-. rewrite (Hnl eq_refl i rs Hs) in Hl. done.
    + apply runs_bind. eapply runs_weaken; [by apply (runs_add_existing now global s id c cent)|].
      cbn beta. intros ok s1 (Hi1 & His1 & Hl1 & c' & Hcs1 & Hq1 & Hso1).
      assert (Hs1 : safely_added s s1 cent).
      { unfold safely_added. splits; [done|done| |congruence|].
        2:{ intros id' c2 Hc2. rewrite Hcs1 in Hc2. apply lookup_insert_Some in Hc2 as [[<- <-]|[_ Hc2]]; right; [by exists c|by exists c2]. }
        intros id' c2 j rs' Hc2 Hj. rewrite Hcs1 in Hc2.
        destruct (decide (id = id')) as [<-|Hne]; [|rewrite lookup_insert_ne in Hc2 by done; left; by exists c2, rs'].
        rewrite lookup_insert_eq in Hc2. injection Hc2 as <-. destruct (Hso1 j rs' Hj) as (rs & [Hs|Hs] & E); [left; by exists c, rs|].
        right. split; [rewrite Hq1, Hk, Hq; done|by exists rs]. }
      destruct ok; [|by apply runs_ret].
      apply runs_then_purge; [done|]. eapply room_countable; [done|done|done|].
      rewrite Hcs1, map_size_insert_Some by (by exists c). lia.
  - symmetry in Hce. eapply runs_weaken; [by apply (runs_add_absent s m N cent loc)|]. cbn beta. intros _ s' [Hs Hf].
    split; [done|]. intros _. exact Hf.
Qed.
End AddCache.
