(* ===== verification/CacheOps.v ===== *)
(** The cache as its clients see it: a map from names (without regard to case) to
    entries.  Deletion, lookup, invalidation, flags and destruction of cache.c are
    specified against this map. *)
From S2P Require Import Prelude Names DnsName RrTypes HashTab RrList Cent CentSpec Cache CacheInv CachePurge CacheAdd.

(** ** The abstract cache *)

Section Abstraction.
Context {P : Platform}.

(** Folded names to entries, without their nodes in the list. *)
Definition abs (s : cache) : gmap (list Z) dns_cent :=
  list_to_map ((fun x : positive * dns_cent => (fold_key (qname x.2), strip x.2)) <$> map_to_list (cents s)).

(** Entries with the same folded name are the same. *)
Lemma key_unique s m id id' c c' :
  inv s -> hash_ok s m -> cents s !! id = Some c -> cents s !! id' = Some c' ->
  fold_key (qname c) = fold_key (qname c') -> id = id'.
Proof.
  intros Hi Hm Hc Hc' E.
  destruct (cent_name c (inv_cent s id c Hi Hc)) as (N & _ & Hq), (cent_name c' (inv_cent s id' c' Hi Hc')) as (N' & _ & Hq').
  pose proof (hash_key s m id c N Hm Hc Hq) as H1. pose proof (hash_key s m id' c' N' Hm Hc' Hq') as H2.
  rewrite <- Hq, E, Hq', H2 in H1. by injection H1.
Qed.

Lemma abs_lookup s m K : inv s -> hash_ok s m -> abs s !! K = strip <$> (m !! K ≫= fun id => cents s !! id).
Proof.
  intros Hi Hm. apply option_eq. intros x. unfold abs. rewrite <- elem_of_list_to_map.
  2:{ rewrite <- list_fmap_compose. apply NoDup_fmap_2_strong; [|apply NoDup_map_to_list].
      intros [id c] [id' c'] Hx Hx' E. cbn in E. apply elem_of_map_to_list in Hx, Hx'.
      assert (id = id') as <- by (by eapply key_unique). congruence. }
  rewrite list_elem_of_fmap. split.
  - intros ([id c] & [= -> ->] & Hin). apply elem_of_map_to_list in Hin.
    destruct (cent_name c (inv_cent s id c Hi Hin)) as (N & _ & Hq). cbn.
    pose proof (hash_key s m id c N Hm Hin Hq) as HK. rewrite <- Hq in HK. rewrite HK. cbn. by rewrite Hin.
  - intros H. destruct (m !! K) as [id|] eqn:HK; [|done]. cbn in H.
    destruct (hash_entry s m K id Hm HK) as (c & Hc & <-). rewrite Hc in H. cbn in H. injection H as <-.
    exists (id, c). split; [done|]. by apply elem_of_map_to_list.
Qed.

(** The entries of the abstract cache are those of the heap. *)
Lemma abs_spec s K x : inv s ->
  (abs s !! K = Some x <-> exists id c, cents s !! id = Some c /\ fold_key (qname c) = K /\ x = strip c).
Proof.
  intros Hi. pose proof Hi as (_ & [m Hm] & _). rewrite (abs_lookup s m K Hi Hm). split.
  - intros H. destruct (m !! K) as [id|] eqn:HK; [|done]. cbn in H.
    destruct (hash_entry s m K id Hm HK) as (c & Hc & Hk). rewrite Hc in H. cbn in H. injection H as <-. by exists id, c.
  - intros (id & c & Hc & <- & ->). destruct (cent_name c (inv_cent s id c Hi Hc)) as (N & _ & Hq).
    pose proof (hash_key s m id c N Hm Hc Hq) as HK. rewrite Hq, HK. cbn. by rewrite Hc.
Qed.

(** Where the records of an abstract cache come from. *)
Definition records_from (m m' : gmap (list Z) dns_cent) (cent : dns_cent) : Prop :=
  forall K e' j rs', m' !! K = Some e' -> slot e' j = Some rs' ->
    (exists e rs, m !! K = Some e /\ slot e j = Some rs /\ rs_rrs rs' = rs_rrs rs) \/
    (K = fold_key (qname cent) /\ exists rs, slot cent j = Some rs /\ rs_rrs rs' = rs_rrs rs).

Lemma strip_slot_some c j rs' : slot (strip c) j = Some rs' -> exists rs, slot c j = Some rs /\ rs_rrs rs = rs_rrs rs'.
Proof. rewrite slot_strip. destruct (slot c j) as [rs|]; cbn; [|done]. intros [= <-]. by exists rs. Qed.

Lemma derived_abs s s' cent : inv s -> inv s' -> derived s s' cent -> records_from (abs s) (abs s') cent.
Proof.
  intros Hi Hi' Hd K e' j rs' He' Hj. apply abs_spec in He' as (id & c' & Hc' & <- & ->); [|done].
  apply strip_slot_some in Hj as (rs2 & Hj & E2). destruct (Hd id c' j rs2 Hc' Hj) as [(c & rs & Hc & Hq & Hs & E)|(Hk & rs & Hs & E)].
  - left. exists (strip c), (rs_set_lent None rs). splits; [apply abs_spec; [done|]; exists id, c; by rewrite Hq|by rewrite slot_strip, Hs|].
    cbn. congruence.
  - right. split; [done|]. exists rs. split; [done|congruence].
Qed.

Lemma abs_insert s s' id c' :
  inv s -> inv s' -> cents s !! id = None -> cents s' = <[id := c']> (cents s) ->
  abs s' = <[fold_key (qname c') := strip c']> (abs s).
Proof.
  intros Hi Hi' Hid Hcs. pose proof Hi' as (_ & [m' Hm'] & _). apply map_eq. intros K. apply option_eq. intros x.
  rewrite (abs_spec s' K x Hi'). rewrite lookup_insert_Some, (abs_spec s K x Hi). split.
  - intros (id' & c & Hc & Hk & ->). destruct (decide (id = id')) as [<-|Hne].
    + rewrite Hcs, lookup_insert_eq in Hc. injection Hc as <-. by left.
    + right. split; [|exists id', c; by rewrite Hcs, lookup_insert_ne in Hc].
      intros E. apply Hne. eapply (key_unique s' m' id id' c' c); [done|done|by rewrite Hcs, lookup_insert_eq|done|congruence].
  - intros [[<- <-]|[Hne (id' & c & Hc & Hk & ->)]].
    + exists id, c'. by rewrite Hcs, lookup_insert_eq.
    + exists id', c. rewrite Hcs, lookup_insert_ne by congruence. done.
Qed.

Lemma abs_delete s s' id c :
  inv s -> inv s' -> cents s !! id = Some c -> cents s' = delete id (cents s) ->
  abs s' = delete (fold_key (qname c)) (abs s).
Proof.
  intros Hi Hi' Hc Hcs. pose proof Hi as (_ & [m Hm] & _). apply map_eq. intros K. apply option_eq. intros x.
  rewrite (abs_spec s' K x Hi'), lookup_delete_Some, (abs_spec s K x Hi). split.
  - intros (id' & c' & Hc' & Hk & ->). rewrite Hcs in Hc'. apply lookup_delete_Some in Hc' as [Hne Hc'].
    split; [|by exists id', c']. intros E. apply Hne. eapply (key_unique s m id id' c c'); [done|done|done|done|congruence].
  - intros [Hne (id' & c' & Hc' & Hk & ->)]. exists id', c'. rewrite Hcs, lookup_delete_ne; [done|]. congruence.
Qed.

Lemma abs_same s s' : cents s' = cents s -> abs s' = abs s.
Proof. unfold abs. by intros ->. Qed.

(** Replacing an entry in place. *)
Lemma abs_update s s' id c c' :
  inv s -> inv s' -> cents s !! id = Some c -> cents s' = <[id := c']> (cents s) -> qname c' = qname c ->
  abs s' = <[fold_key (qname c) := strip c']> (abs s).
Proof.
  intros Hi Hi' Hc Hcs Hq. pose proof Hi as (_ & [m Hm] & _). apply map_eq. intros K. apply option_eq. intros x.
  rewrite (abs_spec s' K x Hi'), lookup_insert_Some, (abs_spec s K x Hi). split.
  - intros (id' & c2 & Hc2 & Hk & ->). destruct (decide (id = id')) as [<-|Hne].
    + rewrite Hcs, lookup_insert_eq in Hc2. injection Hc2 as <-. left. by rewrite <- Hq.
    + rewrite Hcs, lookup_insert_ne in Hc2 by done. right. split; [|by exists id', c2]. intros E. apply Hne.
      eapply (key_unique s m id id' c c2); [done|done|done|done|congruence].
  - intros [[<- <-]|[Hne (id' & c2 & Hc2 & Hk & ->)]].
    + exists id, c'. by rewrite Hcs, lookup_insert_eq, Hq.
    + exists id', c2. rewrite Hcs, lookup_insert_ne; [done|]. congruence.
Qed.
End Abstraction.

(** ** Deletion *)

Section DelCache.
Context {P : Platform}.

Lemma runs_del_cache s m N r :
  inv s -> hash_ok s m -> wf_name N ->
  runs (del_cache (enc_name N ++ r)) s (fun _ s' => inv s' /\ hash_ok s' (delete (fold_key (enc_name N)) m) /\
    abs s' = delete (fold_key (enc_name N)) (abs s)).
Proof.
  intros Hi Hm HN. set (K := fold_key (enc_name N)). unfold del_cache. apply runs_bind, runs_get.
  destruct (del_dns_hash_spec (qname_at s) (buckets s) m N r (proj1 Hm) HN) as (tab & Hdel & Hrep).
  eapply (runs_bind (liftM _)). eapply runs_lift; [exact Hdel|]. fold K in Hrep |- *.
  destruct (m !! K) as [id|] eqn:HK.
  - destruct (hash_entry s m K id Hm HK) as (c & Hc & _). apply runs_bind, runs_mod.
    eapply runs_weaken; [apply (runs_del_cent (with_buckets tab s) id c); [apply Hi|done]|].
    intros _ s' (Hh' & Hcs & Hrr & Hsz & Hen & Hb & Hnc & Hnl & His & _).
    destruct (inv_deleted s s' m K id c) as [Hi' Hm']; try done; [by rewrite Hb|].
    destruct (hash_entry s m K id Hm HK) as (c' & Hc' & Hk). rewrite Hc in Hc'. injection Hc' as <-.
    splits; [done|done|]. rewrite <- Hk. by eapply abs_delete.
  - apply runs_ret. assert (HmK : delete K m = m) by (by apply delete_id). rewrite HmK. splits; [done|done|].
    rewrite delete_id; [done|]. rewrite (abs_lookup s m K Hi Hm), HK. done.
Qed.
End DelCache.

(** ** Lookup *)

Section Lookup.
Context {P : Platform} (now : Z).

Definition star : list Z := [42]%Z.

(** The search up the name hierarchy, on the abstract cache: the key of the entry
    that is used, and the reason. *)
Fixpoint wild_ref (a : gmap (list Z) dns_cent) (N : list (list Z)) : option (list Z) * Z :=
  match N with
  | [] => (None, 0%Z)
  | _ :: N' =>
      match N' with
      | [] => (None, 0%Z)
      | _ =>
          let K := fold_key (enc_name N') in
          match a !! K with
          | None => wild_ref a N'
          | Some c =>
              if tst (flags c) DF_NEGATIVE then (Some K, w_neg)
              else if tst (flags c) DF_WILD then
                let K' := fold_key (enc_name (star :: N')) in
                match a !! K' with Some _ => (Some K', w_wild) | None => (None, 0%Z) end
              else if tst (flags c) DF_LOCAL then (Some K, w_locnerr)
              else (None, 0%Z)
          end
      end
  end.

Definition find_ref (a : gmap (list Z) dns_cent) (N : list (list Z)) (wild : bool) : option (list Z) * Z :=
  let K := fold_key (enc_name N) in
  match a !! K with
  | Some _ => (Some K, 0%Z)
  | None => if wild then wild_ref a N else (None, 0%Z)
  end.

Lemma abs_none s m K : inv s -> hash_ok s m -> (abs s !! K = None <-> m !! K = None).
Proof.
  intros Hi Hm. rewrite (abs_lookup s m K Hi Hm). destruct (m !! K) as [id|] eqn:HK; [|done].
  destruct (hash_entry s m K id Hm HK) as (c & Hc & _). cbn. by rewrite Hc.
Qed.

Lemma abs_some s m K id c : inv s -> hash_ok s m -> m !! K = Some id -> cents s !! id = Some c -> abs s !! K = Some (strip c).
Proof. intros Hi Hm HK Hc. rewrite (abs_lookup s m K Hi Hm), HK. cbn. by rewrite Hc. Qed.

(** What a search returns: an address, for the key. *)
Definition found (m : gmap (list Z) positive) (ref : option (list Z) * Z) (res : option positive * Z) : Prop :=
  res.2 = ref.2 /\ match ref.1 with Some K => res.1 = m !! K /\ is_Some (m !! K) | None => res.1 = None end.

Lemma wf_star N l : wf_name (l :: N) -> wf_name (star :: N).
Proof.
  intros [Hw Hl]. apply Forall_cons in Hw as [Hl' Hw]. split.
  - constructor; [|done]. unfold star, wf_label. cbn [length]. split; [lia|]. constructor; [done|constructor].
  - rewrite enc_name_cons, length_app, length_enc_label in *. cbn. destruct Hl' as [? _]. lia.
Qed.

Lemma runs_wild_loop s m r : inv s -> hash_ok s m -> forall N l fuel,
  wf_name (l :: N) -> length N < fuel ->
  runs (wild_loop fuel (enc_name (l :: N) ++ r)) s (fun res s' => s' = s /\ found m (wild_ref (abs s) (l :: N)) res).
Proof.
  intros Hi Hm. induction N as [|l2 N IH]; intros l fuel HN Hf; (destruct fuel as [|fuel]; [lia|]);
    pose proof HN as [Hw _]; apply Forall_cons in Hw as [Hlab Hw]; cbn [wild_loop];
    rewrite enc_name_cons, <- app_assoc; (run_lift; [apply rd_enc_label|]); rewrite Nat2Z.id;
    (run_lift; [apply adv_label|]).
  - run_lift; [apply (rd_enc_nil [])|]. cbn. by apply runs_ret.
  - run_lift; [apply (rd_enc_cons [])|]. apply Forall_cons in Hw as [Hlab2 Hw].
    assert ((Z.of_nat (length l2) =? 0)%Z = false) as -> by (apply Z.eqb_neq; destruct Hlab2 as [? _]; lia).
    assert (HN2 : wf_name (l2 :: N)) by (apply (wf_name_suffix [l]); exact HN).
    apply runs_bind. eapply runs_weaken; [by apply (runs_hash_lookup s m (l2 :: N) r)|].
    intros [ce loc] s0 (-> & Hce & _). cbn [fst] in Hce. subst ce. cbn [wild_ref]. cbv zeta.
    destruct (m !! fold_key (enc_name (l2 :: N))) as [id|] eqn:HK.
    + destruct (hash_entry s m _ id Hm HK) as (c & Hc & _). rewrite (abs_some s m _ id c Hi Hm HK Hc).
      change (flags (strip c)) with (flags c). apply runs_bind. eapply runs_deref; [exact Hc|].
      destruct (tst (flags c) DF_NEGATIVE); [apply runs_ret; unfold found; cbn; by rewrite HK|].
      destruct (tst (flags c) DF_WILD).
      * assert (Hlen : length (enc_name (l2 :: N)) <= length (replicate (DNSNAMEBUFSIZE - 2) 0%Z)).
        { rewrite length_replicate. destruct HN as [_ Hl]. rewrite enc_name_cons, length_app, length_enc_label in Hl.
          destruct Hlab as [? _]. lia. }
        eapply (runs_bind (liftM _)). eapply runs_lift; [by apply rhncpy_enc|].
        set (rest := drop _ _). cbv beta iota.
        change (1%Z :: 42%Z :: enc_name (l2 :: N) ++ rest) with (enc_name (star :: l2 :: N) ++ rest). apply runs_bind.
        eapply runs_weaken; [apply (runs_hash_lookup s m (star :: l2 :: N) rest); [done|exact (wf_star _ _ HN)]|].
        intros [ret loc'] s0 (-> & Hret & _). cbn [fst] in Hret. apply runs_ret. split; [done|]. unfold found. cbn [fst snd].
        subst ret. destruct (m !! fold_key (enc_name (star :: l2 :: N))) as [id'|] eqn:HK'.
        -- destruct (hash_entry s m _ id' Hm HK') as (c' & Hc' & _). rewrite (abs_some s m _ id' c' Hi Hm HK' Hc').
           cbn [fst snd]. rewrite HK'. by splits.
        -- by rewrite (proj2 (abs_none s m _ Hi Hm) HK').
      * destruct (tst (flags c) DF_LOCAL); apply runs_ret; unfold found; cbn [fst snd]; rewrite ?HK; by splits.
    + rewrite (proj2 (abs_none s m _ Hi Hm) HK). apply (IH l2 fuel); [done|cbn in Hf; lia].
Qed.

Lemma runs_find_entry s m N r wild :
  inv s -> hash_ok s m -> wf_name N ->
  runs (find_entry (enc_name N ++ r) wild) s (fun res s' => s' = s /\ found m (find_ref (abs s) N wild) res).
Proof.
  intros Hi Hm HN. unfold find_entry. apply runs_bind. eapply runs_weaken; [by apply (runs_hash_lookup s m N r)|].
  intros [ce loc] s0 (-> & Hce & _). cbn [fst] in Hce. subst ce. unfold find_ref. cbv zeta.
  destruct (m !! fold_key (enc_name N)) as [id|] eqn:HK.
  - destruct (hash_entry s m _ id Hm HK) as (c & Hc & _). rewrite (abs_some s m _ id c Hi Hm HK Hc). apply runs_ret.
    unfold found. cbn [fst snd]. rewrite HK. by splits.
  - rewrite (proj2 (abs_none s m _ Hi Hm) HK). destruct wild; [|by apply runs_ret].
    destruct N as [|l N].
    + run_lift; [apply (rd_enc_nil [])|]. cbn. by apply runs_ret.
    + run_lift; [apply (rd_enc_cons [])|]. destruct HN as [Hw Hl]. pose proof Hw as Hw'. apply Forall_cons in Hw' as [Hlab _].
      assert ((Z.of_nat (length l) =? 0)%Z = false) as -> by (apply Z.eqb_neq; destruct Hlab as [? _]; lia).
      apply runs_wild_loop; try done. rewrite length_app, enc_name_cons, length_app.
      assert (length N <= length (enc_name N)); [|lia]. clear. induction N as [|l N IH]; [cbn; lia|].
      rewrite enc_name_cons, length_app, length_enc_label. cbn. lia.
Qed.


Lemma purged_strip r : purged now (strip_set r) = strip_set (purged now r).
Proof. destruct r as [rs|]; [|done]. cbn. unfold must_go, timedout. cbn. by destruct (_ && _). Qed.

Lemma expired_strip c : expired now (strip c) = expired now c.
Proof.
  unfold expired. rewrite sets_strip, is_neg_strip. change (flags (strip c)) with (flags c).
  assert (count_sets (purged now <$> (strip_set <$> sets c)) = count_sets (purged now <$> sets c)) as ->.
  { induction (sets c) as [|r a IH]; [done|]. rewrite !fmap_cons, !count_sets_cons, IH, purged_strip.
    by destruct (purged now r). }
  unfold timedout_nxdom, strip. cbn. by destruct (body c).
Qed.

(** The entry [c] without its expired sets. *)
Definition fresh_part (c x : dns_cent) : Prop :=
  cent_ok x /\ cent_lents x = [] /\ qname x = qname c /\ is_neg x = is_neg c /\
  (forall j, slot x j = purged now (slot c j)) /\
  (forall m, Z.land m DF_AUTH = 0%Z -> tst (flags x) m = tst (flags c) m).

Lemma fresh_part_strip c c' :
  cent_ok c' -> qname c' = qname c -> is_neg c' = is_neg c -> (forall j, slot c' j = purged now (slot c j)) ->
  (forall m, Z.land m DF_AUTH = 0%Z -> tst (flags c') m = tst (flags c) m) -> fresh_part (strip c) (strip c').
Proof.
  intros Hok Hq Hn Hs Hf. unfold fresh_part. splits; [by apply strip_ok|apply cent_lents_strip|done| | |done].
  - by rewrite !is_neg_strip.
  - intros j. by rewrite !slot_strip, purged_strip, Hs.
Qed.

(** The answer for the entry with key [K]. *)
Definition answered (s s' : cache) (K : list Z) (res : option dns_cent) : Prop :=
  exists c, abs s !! K = Some c /\
    if expired now c then res = None /\ abs s' = delete K (abs s)
    else (plenty s -> is_Some res) /\ exists x, fresh_part c x /\ abs s' = <[K := x]> (abs s) /\ forall y, res = Some y -> y = x.

Lemma runs_answer_copy s s1 id c c1 K :
  inv s1 -> cents s1 !! id = Some c1 -> mem s1 = mem s -> abs s !! K = Some (strip c) -> expired now c = false ->
  fresh_part (strip c) (strip c1) -> abs s1 = <[K := strip c1]> (abs s) ->
  runs (copy_cent c1) s1 (fun cp s' => inv s' /\ answered s s' K cp).
Proof.
  intros Hi1 Hc1 Hm HK Hex Hfr Habs. eapply runs_weaken; [apply runs_copy_cent; by eapply inv_cent|].
  intros cp s2 (Hmo & Hp & Hcp). split; [by eapply mem_only_inv|]. exists (strip c). split; [done|].
  rewrite expired_strip, Hex. split.
  - intros H. apply Hp. unfold plenty in *. by rewrite Hm.
  - exists (strip c1). splits; [done| |done]. rewrite <- Habs. apply abs_same. by destruct Hmo as [? ->].
Qed.

Lemma runs_lookup_cache s N r wild :
  inv s -> wf_name N ->
  let ref := find_ref (abs s) N wild in
  runs (lookup_cache now (enc_name N ++ r) wild) s (fun res s' => inv s' /\ res.2 = ref.2 /\
    match ref.1 with
    | None => res.1 = None /\ abs s' = abs s
    | Some K => answered s s' K res.1
    end).
Proof.
  intros Hi HN ref. pose proof Hi as (_ & [m Hm] & _). unfold lookup_cache.
  apply runs_bind. eapply runs_weaken; [by apply (runs_find_entry s m N r wild)|]. fold ref.
  intros [ret w] s0 (-> & Hw & Hret). cbn [fst snd] in *. subst w.
  destruct ref.1 as [K|] eqn:ER.
  2:{ subst ret. apply runs_bind, runs_ret. by apply runs_ret. }
  destruct Hret as [-> [id HK]]. rewrite HK. destruct (hash_entry s m K id Hm HK) as (c & Hc & Hk).
  pose proof (inv_cent s id c Hi Hc) as Hok. pose proof (abs_some s m K id c Hi Hm HK Hc) as HaK.
  do 2 apply runs_bind. eapply runs_weaken; [by apply (runs_purge_cent now s id c true true)|].
  intros n s1 (Hi1 & _ & Hneg & _ & -> & Hn). destruct (n =? 0)%Z eqn:E0; boolp.
  - subst n. apply runs_bind. eapply runs_deref; [exact Hc|]. apply runs_bind.
    eapply runs_weaken; [eapply (runs_answer_copy s s id c c K); try done|].
    + apply fresh_part_strip; try done. intros j. by rewrite (Hn eq_refl).
    + by rewrite insert_id.
    + intros cp s2 [Hi2 Ha]. apply runs_ret. by apply runs_ret.
  - apply runs_ret. apply runs_bind. eapply runs_weaken; [by apply (runs_find_entry s m N r wild)|].
    intros [ret2 w2] s2 (-> & Hw2 & Hret2). fold ref in Hw2, Hret2. cbn [fst snd] in *. subst w2.
    rewrite ER in Hret2. destruct Hret2 as [-> _]. rewrite HK.
    apply runs_bind. eapply runs_weaken; [by apply (runs_purge_cent now s id c true false)|].
    intros n2 s3 (Hi3 & _ & Hneg2 & Hmem3 & Hst3). cbn [andb] in Hneg2. rewrite Hneg2 in *.
    destruct (expired now c) eqn:Eex.
    + apply runs_ret. splits; [done|done|]. exists (strip c). split; [done|]. rewrite expired_strip, Eex.
      split; [done|]. rewrite <- Hk. by eapply abs_delete.
    + destruct Hst3 as (c3 & Hcs3 & Hsl3 & Hq3 & Hn3 & Hkept & Hf3).
      assert (Hc3 : cents s3 !! id = Some c3) by (rewrite Hcs3; apply lookup_insert_eq).
      apply runs_bind. eapply runs_deref; [exact Hc3|]. apply runs_bind.
      eapply runs_weaken; [eapply (runs_answer_copy s s3 id c c3 K); try done|].
      * apply fresh_part_strip; try done. by eapply inv_cent.
      * rewrite <- Hk. by eapply abs_update.
      * intros cp s4 [Hi4 Ha]. by apply runs_ret.
Qed.
End Lookup.

(** ** Emptying the cache *)

Section Empty.
Context {P : Platform}.

(** [del_cent] on a state whose statistics are right. *)
Definition counted (s : cache) : Prop :=
  heap_ok s /\ ent_num s = Z.of_nat (size (cents s)) /\ cache_size s = total (cents s).

Lemma runs_del_counted s id c :
  counted s -> cents s !! id = Some c ->
  runs (del_cent id) s (fun _ s' => counted s' /\ cents s' = delete id (cents s) /\ buckets s' = buckets s).
Proof.
  intros (Hh & Hn & Hsz) Hc. eapply runs_weaken; [by apply (runs_del_cent s id c)|].
  intros _ s' (Hh' & Hcs & _ & Hsz' & Hen' & Hb & _). unfold counted. splits; try done.
  - rewrite Hen', Hn, Hcs, map_size_delete_Some by by exists c. assert (size (cents s) <> 0).
    { intros E. apply map_size_empty_inv in E. by rewrite E, lookup_empty in Hc. }
    lia.
  - rewrite Hsz', Hsz, Hcs, (total_delete _ _ _ Hc). lia.
Qed.

Lemma runs_del_chain ch : forall s,
  counted s -> NoDup (hdata <$> ch) -> (forall he, he ∈ ch -> is_Some (cents s !! hdata he)) ->
  runs (foldM (fun _ he => del_cent (hdata he)) ch tt) s (fun _ s' => counted s' /\ buckets s' = buckets s /\
    forall id, cents s' !! id = if decide (id ∈ hdata <$> ch) then None else cents s !! id).
Proof.
  induction ch as [|he ch IH]; intros s Hs Hnd Hin; cbn [foldM].
  - apply runs_ret. splits; [done|done|]. intros id. rewrite decide_False by apply not_elem_of_nil. done.
  - rewrite fmap_cons in Hnd. apply NoDup_cons in Hnd as [Hno Hnd]. destruct (Hin he) as [c Hc]; [by left|].
    apply runs_bind. eapply runs_weaken; [by apply (runs_del_counted s (hdata he) c)|]. intros [] s1 (Hs1 & Hcs1 & Hb1).
    eapply runs_weaken; [apply (IH s1); [done|done|]|].
    + intros he' Hin'. rewrite Hcs1, lookup_delete_ne; [apply Hin; by right|]. intros E. apply Hno. rewrite E.
      apply list_elem_of_fmap. by exists he'.
    + cbn beta. intros _ s2 (Hs2 & Hb2 & Hcs2). splits; [done|congruence|]. intros id. rewrite Hcs2, Hcs1, fmap_cons.
      destruct (decide (id ∈ hdata <$> ch)) as [Hi|Hi].
      * by rewrite decide_True by (by right).
      * destruct (decide (id = hdata he)) as [->|Hne].
        -- rewrite decide_True by (by left). apply lookup_delete_eq.
        -- rewrite decide_False; [by apply lookup_delete_ne|]. rewrite not_elem_of_cons. by split.
Qed.

(** The elements of a chain are distinct entries of the cache. *)
Lemma chain_entries s m b ch :
  hash_ok s m -> buckets s !! b = Some ch ->
  NoDup (hdata <$> ch) /\ forall he, he ∈ ch -> exists c, cents s !! hdata he = Some c /\
    m !! fold_key (qname c) = Some (hdata he) /\ exists N, qname c = enc_name N /\ wf_name N /\ (hash_of N) = (b, rhash he).
Proof.
  intros [[[_ Hinv] Hm] _] Hb. destruct (Hinv b ch Hb) as (Hent & _ & Hnd). rewrite Forall_forall in Hent. split.
  - apply NoDup_ListNoDup in Hnd. rewrite <- (map_map hdata (key_of (qname_at s))) in Hnd. apply NoDup_ListNoDup in Hnd.
    by apply NoDup_fmap_1 in Hnd.
  - intros he Hin. destruct (Hent he Hin) as (N & HN & Hq & Hh). unfold qname_at in Hq.
    destruct (cents s !! hdata he) as [c|] eqn:Hc; [|done]. injection Hq as Hq. exists c. splits; [done| |by exists N].
    apply Hm. exists b, ch, he. splits; try done. unfold key_of, qname_at. by rewrite Hc.
Qed.

(** Every entry of the cache is in the chain of its hash value. *)
Lemma entry_chain s m id c :
  hash_ok s m -> cents s !! id = Some c -> exists b ch he, buckets s !! b = Some ch /\ he ∈ ch /\ hdata he = id.
Proof.
  intros [[_ Hm] Hdom] Hc. destruct (proj1 (Hdom id)) as [K HK]; [by exists c|].
  apply Hm in HK as (b & ch & he & Hb & Hin & Hd & _). by exists b, ch, he.
Qed.

Lemma runs_free_bucket s i ch :
  inv s -> buckets s !! i = Some ch ->
  runs (free_dns_hash_bucket i) s (fun _ s' => inv s' /\ buckets s' = <[i := []]> (buckets s) /\
    forall id, cents s' !! id = if decide (id ∈ hdata <$> ch) then None else cents s !! id).
Proof.
  intros Hi Hb. pose proof Hi as (Hh & [m Hm] & Hn & Hsz). destruct (chain_entries s m i ch Hm Hb) as [Hnd Hent].
  unfold free_dns_hash_bucket. apply runs_bind, runs_get. run_lift; [exact Hb|]. apply runs_bind, runs_mod.
  eapply runs_weaken; [apply (runs_del_chain ch (with_buckets (<[i := []]> (buckets s)) s)); [by split|done|]|].
  { intros he Hin. destruct (Hent he Hin) as (c & Hc & _). by exists c. }
  cbn beta. intros _ s' ((Hh' & Hn' & Hsz') & Hb' & Hcs'). cbn in Hb', Hcs'. splits; [|done|done].
  unfold inv. splits; [done| |done|done].
  exists (filter (fun x => x.2 ∉ hdata <$> ch) m). pose proof Hm as [[[Hlen Hinv] Hmm] Hdom].
  assert (Hno : forall b c' he, <[i := []]> (buckets s) !! b = Some c' -> he ∈ c' ->
    buckets s !! b = Some c' /\ hdata he ∉ hdata <$> ch).
  { intros b c' he Hbc Hin. destruct (decide (i = b)) as [<-|Hne].
    - rewrite list_lookup_insert_eq in Hbc by (by eapply lookup_lt_Some). injection Hbc as <-. by apply not_elem_of_nil in Hin.
    - rewrite list_lookup_insert_ne in Hbc by done. split; [done|]. intros Hx. apply list_elem_of_fmap in Hx as (he' & E & Hin').
      destruct (chain_entries s m b c' Hm Hbc) as [_ He]. destruct (He he Hin) as (c & Hc & _ & N & Hq & HN & Hh1).
      destruct (Hent he' Hin') as (c2 & Hc2 & _ & N2 & Hq2 & HN2 & Hh2). rewrite <- E, Hc in Hc2. injection Hc2 as <-.
      assert (EE : enc_name N ++ [] = enc_name N2 ++ []) by (by rewrite <- Hq, <- Hq2).
      apply enc_name_inj in EE as [<- _]; [|apply HN|apply HN2]. congruence. }
  split.
  - rewrite Hb'. apply (ht_rep_ext (qname_at s)).
    { intros b c' he Hbc Hin. destruct (Hno b c' he Hbc Hin) as [_ Hni]. unfold qname_at. by rewrite Hcs', decide_False. }
    split.
    + split; [by rewrite length_insert|]. intros b c' Hbc. destruct (decide (i = b)) as [<-|Hne].
      * rewrite list_lookup_insert_eq in Hbc by (by eapply lookup_lt_Some). injection Hbc as <-. repeat constructor.
      * rewrite list_lookup_insert_ne in Hbc by done. by apply Hinv.
    + intros K d. rewrite map_lookup_filter_Some. cbn [snd]. rewrite Hmm. split.
      * intros [(b & c' & he & Hbc & Hin & Hd & Hk) Hnin]. exists b, c', he. splits; try done.
        rewrite list_lookup_insert_ne; [done|]. intros <-. rewrite Hb in Hbc. injection Hbc as <-. apply Hnin.
        rewrite <- Hd. apply list_elem_of_fmap. by exists he.
      * intros (b & c' & he & Hbc & Hin & Hd & Hk). destruct (Hno b c' he Hbc Hin) as [Hbc' Hni]. rewrite Hd in Hni.
        split; [|done]. by exists b, c', he.
  - intros id. rewrite Hcs'. destruct (decide (id ∈ hdata <$> ch)) as [Hx|Hx].
    + split; [by intros [? ?]|]. intros [K HK]. apply map_lookup_filter_Some in HK as [_ HK]. done.
    + rewrite Hdom. split; intros [K HK]; exists K.
      * by apply map_lookup_filter_Some.
      * by apply map_lookup_filter_Some in HK as [? _].
Qed.

(** A cache without entries. *)
Definition empty (s : cache) : Prop :=
  cents s = ∅ /\ rrl s = [] /\ ent_num s = 0%Z /\ cache_size s = 0%Z /\ abs s = ∅.

Lemma empty_intro s : inv s -> cents s = ∅ -> empty s.
Proof.
  intros ((_ & [_ Hl] & _) & _ & Hn & Hsz) Hc. unfold empty. splits; [done| | | |].
  - destruct (rrl s) as [|[p [id idx]] r]; [done|]. destruct (proj1 (Hl p id idx)) as (c & Hcc & _); [by left|].
    by rewrite Hc, lookup_empty in Hcc.
  - by rewrite Hn, Hc.
  - by rewrite Hsz, Hc.
  - unfold abs. by rewrite Hc.
Qed.

Lemma runs_free_dns_hash s : inv s -> runs free_dns_hash s (fun _ s' => inv s' /\ empty s').
Proof.
  intros Hi. eapply runs_weaken.
  - apply (runs_foldM_seq _ (fun k _ s' => inv s' /\ length (buckets s') = HASH_NUM_BUCKETS /\
      forall b, b < k -> buckets s' !! b = Some [])).
    + splits; [done| |lia]. destruct Hi as (_ & [m [[[H _] _] _]] & _). done.
    + intros k [] s1 Hk (Hi1 & Hlen & Hemp). destruct (lookup_lt_is_Some_2 (buckets s1) k) as [ch Hch]; [lia|].
      eapply runs_weaken; [by apply (runs_free_bucket s1 k ch)|]. cbn beta. intros _ s2 (Hi2 & Hb2 & _).
      splits; [done|by rewrite Hb2, length_insert|]. intros b Hlt. rewrite Hb2. destruct (decide (k = b)) as [<-|Hne].
      * apply list_lookup_insert_eq. lia.
      * rewrite list_lookup_insert_ne by done. apply Hemp. lia.
  - cbn beta. intros _ s' (Hi' & Hlen & Hemp). split; [done|]. apply empty_intro; [done|]. apply map_empty. intros id.
    destruct (cents s' !! id) as [c|] eqn:Hc; [|done]. pose proof Hi' as (_ & [m Hm] & _).
    destruct (entry_chain s' m id c Hm Hc) as (b & ch & he & Hb & Hin & _).
    pose proof (lookup_lt_Some _ _ _ Hb). rewrite Hemp in Hb by lia. injection Hb as <-. by apply not_elem_of_nil in Hin.
Qed.
End Empty.

(** ** Emptying the cache selectively *)

Section Select.
Context {P : Platform}.

(** A list element by its labels. *)
Record rule := { ru_dom : list (list Z); ru_exact : bool; ru_included : bool }.
Definition slist_of (r : rule) : slist :=
  {| sl_domain := enc_name (ru_dom r); sl_exact := ru_exact r; sl_included := ru_included r |}.

(** The name is the domain of the rule, or below it unless the match is to be exact. *)
Definition applies (N : list (list Z)) (r : rule) : bool :=
  (common_suffix N (ru_dom r) =? length (ru_dom r)) && (negb (ru_exact r) || (length N =? length (ru_dom r))).

(** The first rule that applies decides; by default nothing is deleted. *)
Fixpoint select (N : list (list Z)) (rules : list rule) : bool :=
  match rules with
  | [] => false
  | r :: rules' => if applies N r then ru_included r else select N rules'
  end.

Lemma enc_labels_zero (l : list (list Z)) k : (length (enc_labels (take k l)) =? 0) = ((Nat.min k (length l)) =? 0).
Proof. by destruct k, l as [|x l]. Qed.

Lemma selected_spec N rules :
  wf_name N -> Forall (fun r => wf_name (ru_dom r)) rules ->
  selected (enc_name N) (slist_of <$> rules) = Some (select N rules).
Proof.
  intros HN. induction rules as [|r rules IH]; intros Hr; [done|]. apply Forall_cons in Hr as [Hd Hr].
  cbn [fmap list_fmap selected select]. cbn [slist_of sl_domain sl_exact sl_included].
  pose proof (domain_match_enc N (ru_dom r) [] []) as E. rewrite !app_nil_r in E.
  pose proof (wf_name_labels _ HN). pose proof (wf_name_labels _ Hd).
  rewrite E by (apply HN || apply Hd || lia). cbv zeta. sbind. rewrite !enc_labels_zero. unfold applies.
  pose proof (common_suffix_le N (ru_dom r)) as Hle. set (m := common_suffix N (ru_dom r)) in *.
  assert ((Nat.min (length (ru_dom r) - m) (length (ru_dom r)) =? 0) = (m =? length (ru_dom r))) as ->.
  { destruct (Nat.eqb_spec m (length (ru_dom r))); [apply Nat.eqb_eq|apply Nat.eqb_neq]; lia. }
  destruct (Nat.eqb_spec m (length (ru_dom r))) as [Em|Em]; cbn [andb]; [|by apply IH].
  assert ((Nat.min (length N - m) (length N) =? 0) = (length N =? length (ru_dom r))) as ->.
  { destruct (Nat.eqb_spec (length N) (length (ru_dom r))); [apply Nat.eqb_eq|apply Nat.eqb_neq]; lia. }
  destruct (negb (ru_exact r) || _); [done|by apply IH].
Qed.

(** Whether an entry of the cache is selected. *)
Definition chosen (rules : list rule) (c : dns_cent) : Prop := exists N, wf_name N /\ qname c = enc_name N /\ select N rules = true.

Lemma chosen_name rules c N : wf_name N -> qname c = enc_name N -> (chosen rules c <-> select N rules = true).
Proof.
  intros HN Hq. split; [|by exists N]. intros (N' & HN' & Hq' & Hs).
  assert (E : enc_name N ++ [] = enc_name N' ++ []) by (by rewrite <- Hq, <- Hq').
  by apply enc_name_inj in E as [-> _]; [|apply HN|apply HN'].
Qed.

(** Unlinking an element of a chain and deleting its entry. *)
Lemma runs_unlink s i kept he rest :
  inv s -> buckets s !! i = Some (kept ++ he :: rest) ->
  runs (_ ← modM (fun s => with_buckets (<[i := kept ++ rest]> (buckets s)) s); del_cent (hdata he)) s
    (fun _ s' => inv s' /\ cents s' = delete (hdata he) (cents s) /\ buckets s' = <[i := kept ++ rest]> (buckets s)).
Proof.
  intros Hi Hb. pose proof Hi as (Hh & [m Hm] & _). destruct (chain_entries s m i _ Hm Hb) as [_ Hent].
  destruct (Hent he) as (c & Hc & HK & N & Hq & HN & Hhash); [apply elem_of_app; right; by left|].
  destruct (del_dns_hash_ent_spec (qname_at s) (buckets s) m N (hdata he) {| loc_bucket := i; loc_pos := length kept; loc_rhash := rhash he |})
    as (tab & Hdel & Hrep); [apply Hm|by rewrite <- Hq| |].
  { split; [done|]. exists (kept ++ he :: rest). split; [done|]. exists he. cbn. split; [by apply list_lookup_middle|done]. }
  assert (Htab : tab = <[i := kept ++ rest]> (buckets s)).
  { unfold del_dns_hash_ent in Hdel. cbn in Hdel. rewrite Hb in Hdel. cbn in Hdel. rewrite list_lookup_middle in Hdel by done.
    cbn in Hdel. injection Hdel as <-. f_equal. rewrite take_app_length. f_equal.
    change (he :: rest) with ([he] ++ rest). rewrite app_assoc. apply drop_app_length'. rewrite length_app. cbn. lia. }
  apply runs_bind, runs_mod. rewrite <- Htab.
  eapply runs_weaken; [apply (runs_del_cent (with_buckets tab s) (hdata he) c); [apply Hh|done]|].
  intros _ s' (Hh' & Hcs & Hrr & Hsz & Hen & Hb' & Hnc & Hnl & His & _). splits; [|done|done].
  apply (inv_deleted s s' m (fold_key (enc_name N)) (hdata he) c); try done; [by rewrite <- Hq|by rewrite Hb'].
Qed.

Lemma runs_free_selected i rules : Forall (fun r => wf_name (ru_dom r)) rules -> forall rest kept s,
  inv s -> buckets s !! i = Some (kept ++ rest) ->
  runs (free_selected i (slist_of <$> rules) kept rest) s (fun _ s' => inv s' /\ length (buckets s') = length (buckets s) /\
    forall id c, cents s' !! id = Some c <-> cents s !! id = Some c /\ ~ (id ∈ hdata <$> rest /\ chosen rules c)).
Proof.
  intros Hru. induction rest as [|he rest IH]; intros kept s Hi Hb; cbn [free_selected].
  - apply runs_ret. splits; [done|done|]. intros id c. split; [|tauto]. intros Hc. split; [done|]. intros [Hx _]. by apply not_elem_of_nil in Hx.
  - pose proof Hi as (Hh & [m Hm] & _). destruct (chain_entries s m i _ Hm Hb) as [Hnd Hent].
    destruct (Hent he) as (c & Hc & HK & N & Hq & HN & Hhash); [apply elem_of_app; right; by left|].
    apply runs_bind. eapply runs_deref; [exact Hc|]. rewrite Hq. run_lift; [by apply selected_spec|].
    rewrite fmap_app, fmap_cons in Hnd. apply NoDup_app in Hnd as (_ & _ & Hnd). apply NoDup_cons in Hnd as [Hno _].
    destruct (select N rules) eqn:Es.
    + destruct (runs_unlink s i kept he rest Hi Hb) as (u & s1 & Hrun & Hi1 & Hcs1 & Hb1).
      apply runs_bind, runs_mod. apply runs_bind. exists u, s1. split.
      { unfold mbind, M_bind, modM in Hrun. exact Hrun. }
      eapply runs_weaken; [apply (IH kept s1); [done|]|].
      * rewrite Hb1. apply list_lookup_insert_eq. by eapply lookup_lt_Some.
      * cbn beta. intros _ s2 (Hi2 & Hl2 & Hcs2). splits; [done|by rewrite Hl2, Hb1, length_insert|].
        intros id c'. rewrite Hcs2, Hcs1, lookup_delete_Some, fmap_cons, elem_of_cons. split.
        -- intros [[Hne Hc'] Hn]. split; [done|]. intros [[->|Hin] Hch]; [done|]. by apply Hn.
        -- intros [Hc' Hn]. split; [split; [|done]|].
           ++ intros <-. rewrite Hc in Hc'. injection Hc' as <-. apply Hn. split; [by left|]. by exists N.
           ++ intros [Hin Hch]. apply Hn. split; [by right|done].
    + eapply runs_weaken; [apply (IH (kept ++ [he]) s); [done|by rewrite <- app_assoc]|].
      cbn beta. intros _ s2 (Hi2 & Hl2 & Hcs2). splits; [done|done|].
      intros id c'. rewrite Hcs2, fmap_cons, elem_of_cons. split.
      * intros [Hc' Hn]. split; [done|]. intros [[->|Hin] Hch]; [|by apply Hn].
        rewrite Hc in Hc'. injection Hc' as <-. apply (chosen_name rules c N HN Hq) in Hch. congruence.
      * intros [Hc' Hn]. split; [done|]. intros [Hin Hch]. apply Hn. split; [by right|done].
Qed.


Definition in_bucket (b : nat) (c : dns_cent) : Prop := exists N, wf_name N /\ qname c = enc_name N /\ (hash_of N).1 = b.

Lemma chain_in_bucket s m b ch id c :
  hash_ok s m -> buckets s !! b = Some ch -> cents s !! id = Some c -> (id ∈ hdata <$> ch <-> in_bucket b c).
Proof.
  intros Hm Hb Hc. destruct (chain_entries s m b ch Hm Hb) as [_ Hent]. split.
  - intros Hin. apply list_elem_of_fmap in Hin as (he & -> & Hin). destruct (Hent he Hin) as (c' & Hc' & _ & N & Hq & HN & Hh).
    rewrite Hc in Hc'. injection Hc' as <-. exists N. by rewrite Hh.
  - intros (N & HN & Hq & Hh). destruct (entry_chain s m id c Hm Hc) as (b' & ch' & he & Hb' & Hin & Hd).
    destruct (chain_entries s m b' ch' Hm Hb') as [_ Hent']. destruct (Hent' he Hin) as (c' & Hc' & _ & N' & Hq' & HN' & Hh').
    rewrite Hd, Hc in Hc'. injection Hc' as <-.
    assert (E : enc_name N ++ [] = enc_name N' ++ []) by (by rewrite <- Hq, <- Hq').
    apply enc_name_inj in E as [<- _]; [|apply HN|apply HN']. rewrite Hh' in Hh. cbn in Hh. subst b'.
    rewrite Hb in Hb'. injection Hb' as <-. apply list_elem_of_fmap. by exists he.
Qed.

Lemma in_some_bucket s m id c : hash_ok s m -> cents s !! id = Some c -> exists b, b < HASH_NUM_BUCKETS /\ in_bucket b c.
Proof.
  intros Hm Hc. destruct (entry_chain s m id c Hm Hc) as (b & ch & he & Hb & Hin & Hd). exists b.
  split; [destruct Hm as [[[<- _] _] _]; by eapply lookup_lt_Some|].
  apply (chain_in_bucket s m b ch id c Hm Hb Hc). rewrite <- Hd. apply list_elem_of_fmap. by exists he.
Qed.

Lemma runs_empty_selected s rules :
  inv s -> Forall (fun r => wf_name (ru_dom r)) rules ->
  runs (empty_cache (Some (slist_of <$> rules))) s (fun _ s' => inv s' /\
    forall id c, cents s' !! id = Some c <-> cents s !! id = Some c /\ ~ chosen rules c).
Proof.
  intros Hi Hru. eapply runs_weaken.
  - apply (runs_foldM_seq _ (fun k _ s' => inv s' /\
      forall id c, cents s' !! id = Some c <-> cents s !! id = Some c /\ ~ (chosen rules c /\ exists b, b < k /\ in_bucket b c))).
    + split; [done|]. intros id c. split; [|tauto]. intros Hc. split; [done|]. intros (_ & b & Hb & _). lia.
    + intros k [] s1 Hk (Hi1 & Hcs1). pose proof Hi1 as (_ & [m1 Hm1] & _).
      assert (Hlen : length (buckets s1) = HASH_NUM_BUCKETS) by apply Hm1.
      destruct (lookup_lt_is_Some_2 (buckets s1) k) as [ch Hch]; [lia|].
      unfold free_dns_hash_selected. apply runs_bind, runs_get. run_lift; [exact Hch|].
      eapply runs_weaken; [by apply (runs_free_selected k rules Hru ch [] s1)|]. cbn beta.
      intros _ s2 (Hi2 & _ & Hcs2). split; [done|]. intros id c. rewrite Hcs2. split.
      * intros [Hc Hn]. pose proof (chain_in_bucket s1 m1 k ch id c Hm1 Hch Hc) as Hib. apply Hcs1 in Hc as [Hc Hn1].
        split; [done|]. intros (Hch' & b & Hb & Hbk). destruct (decide (b = k)) as [->|Hne].
        -- apply Hn. split; [by apply Hib|done].
        -- apply Hn1. split; [done|]. exists b. split; [lia|done].
      * intros [Hc Hn]. assert (Hc1 : cents s1 !! id = Some c).
        { apply Hcs1. split; [done|]. intros (Hch' & b & Hb & Hbk). apply Hn. split; [done|]. exists b. split; [lia|done]. }
        split; [done|]. intros [Hin Hch']. apply Hn. split; [done|]. exists k. split; [lia|].
        by apply (chain_in_bucket s1 m1 k ch id c Hm1 Hch Hc1).
  - cbn beta. intros _ s' [Hi' Hcs']. split; [done|]. intros id c. rewrite Hcs'. split.
    + intros [Hc Hn]. split; [done|]. intros Hch. apply Hn. split; [done|]. pose proof Hi as (_ & [m Hm] & _).
      by apply (in_some_bucket s m id c).
    + intros [Hc Hn]. split; [done|]. tauto.
Qed.
End Select.

(** ** Changing an entry in place *)

Section InPlace.
Context {P : Platform}.

(** The common pattern: the entry of a name is replaced by one with the same name,
    size and nodes. *)
Lemma inv_in_place s id c c' :
  inv s -> cents s !! id = Some c -> cent_ok c' -> qname c' = qname c -> cs c' = cs c ->
  (forall idx, lent_of c' idx = lent_of c idx) ->
  inv (with_cents (<[id := c']> (cents s)) s).
Proof.
  intros Hi Hc Hok Hq Hcs Hlo. destruct (inserted_store s id c c' (proj1 Hi) Hc Hok Hlo) as (Hh & _).
  eapply (inv_upd s _ id c c'); try done. cbn. rewrite Hcs. lia.
Qed.

(** An entry with all its sets marked as old and not authoritative. *)
Definition invalidated (c c' : dns_cent) : Prop :=
  cent_ok c' /\ keeps c c' /\ is_neg c' = is_neg c /\ tst (flags c') DF_AUTH = false /\
  (forall m, Z.land m DF_AUTH = 0%Z -> tst (flags c') m = tst (flags c) m) /\
  (forall j, slot c' j = invalidate_set <$> slot c j) /\
  (forall l ttl ts, body c = Neg l ttl ts -> body c' = Neg l ttl 0).

Lemma runs_invalidate_sets c s :
  cent_ok c -> is_neg c = false ->
  runs (foldM invalidate_step (seq 0 (length (sets c))) c) s (fun c' s' => s' = s /\ touched c c' /\
    (forall idx, lent_of c' idx = lent_of c idx) /\ forall j, slot c' j = invalidate_set <$> slot c j).
Proof.
  intros Hok Hn. eapply runs_weaken.
  - apply (runs_foldM_seq _ (fun k c' s' => s' = s /\ touched c c' /\ (forall idx, lent_of c' idx = lent_of c idx) /\
      forall j, slot c' j = if (j <? k) then invalidate_set <$> slot c j else slot c j)).
    + splits; [done|by apply touched_refl|done|done].
    + intros k c1 s1 Hk (-> & Ht1 & Hlo1 & Hsl1). pose proof Ht1 as (Hok1 & _ & _ & _ & Hn1 & Hlen1). unfold invalidate_step.
      destruct (lookup_lt_is_Some_2 (sets c1) k) as [r Hr]; [lia|].
      run_lift; [rewrite rrarr_index_sets; [exact Hr|apply Hok1|congruence]|].
      assert (Hsk : slot c1 k = r) by (unfold slot; by rewrite Hr).
      assert (Hck : slot c k = r) by (rewrite Hsl1, Nat.ltb_irrefl in Hsk; done).
      destruct r as [rs|].
      * destruct (retouch_set c1 k rs (invalidate_set rs) Hok1 Hsk) as (b & Hset & Hok2 & Hfi & Hfo & Hneg & Hlo & Hss & Hex); [done|done|].
        eapply runs_lift; [exact Hset|]. splits; [done| | |].
        -- eapply touched_trans; [exact Ht1|]. unfold touched, keeps. splits; try done; [congruence|by rewrite Hss, length_insert].
        -- intros idx. by rewrite Hlo.
        -- intros j. destruct (decide (j = k)) as [->|Hne].
           ++ rewrite Hfi, Hck. by bool_true (k <? S k).
           ++ rewrite Hfo, Hsl1 by done. by rewrite ltb_S_ne.
      * apply runs_ret. splits; [done|done|done|]. intros j. rewrite Hsl1. destruct (decide (j = k)) as [->|Hne].
        -- rewrite Hck. by destruct (k <? k), (k <? S k).
        -- by rewrite ltb_S_ne.
  - cbn beta. intros c' s' (-> & Ht & Hlo & Hsl). splits; [done|done|done|]. intros j. rewrite Hsl.
    destruct (j <? length (sets c)) eqn:E; boolp; [done|]. unfold slot. by rewrite lookup_ge_None_2 by lia.
Qed.

Lemma runs_invalidate_record s m N r :
  inv s -> hash_ok s m -> wf_name N ->
  runs (invalidate_record (enc_name N ++ r)) s (fun _ s' => inv s' /\
    match m !! fold_key (enc_name N) with
    | None => s' = s
    | Some id => forall c, cents s !! id = Some c -> exists c', invalidated c c' /\ cents s' = <[id := c']> (cents s)
    end).
Proof.
  intros Hi Hm HN. unfold invalidate_record. apply runs_bind. eapply runs_weaken; [by apply (runs_hash_lookup s m N r)|].
  intros [ce loc] s0 (-> & Hce & _). cbn [fst] in Hce. subst ce.
  destruct (m !! fold_key (enc_name N)) as [id|] eqn:HK; [|by apply runs_ret].
  destruct (hash_entry s m _ id Hm HK) as (c & Hc & _). pose proof (inv_cent s id c Hi Hc) as Hok.
  apply runs_bind. eapply runs_deref; [exact Hc|].
  apply runs_bind. eapply runs_weaken with (Q := fun c1 s1 => s1 = s /\ touched c c1 /\
    (forall idx, lent_of c1 idx = lent_of c idx) /\ (forall j, slot c1 j = invalidate_set <$> slot c j) /\
    (forall l ttl ts, body c = Neg l ttl ts -> body c1 = Neg l ttl 0)).
  { pose proof Hok as ([Hn _] & Hq & Hcs & Hnum). rewrite Hn. destruct (is_neg c) eqn:En; cbn [negb].
    - unfold is_neg in En. destruct (body c) as [l ttl ts|] eqn:Hb; [|done]. apply runs_ret.
      assert (Hss : sets (set_body (Neg l ttl 0) c) = sets c) by (unfold sets; by rewrite Hb).
      splits; [done| | | |by intros l' ttl' ts' [= <- <- <-]].
      + unfold touched, keeps. splits; try done; [|unfold is_neg; by rewrite Hb|by rewrite Hss].
        split; [split; [exact Hn|done]|split; [done|split]].
        * unfold cent_size. rewrite Hss. change (cs (set_body _ c)) with (cs c). rewrite Hcs. unfold cent_size, ext_size. by rewrite Hb.
        * by rewrite Hss.
      + intros [i|]; cbn [lent_of]; [by rewrite (slot_ext c)|]. cbn. by rewrite Hb.
      + intros j. unfold slot. rewrite Hss. unfold sets. by rewrite Hb.
    - run_lift; [apply rrarr_len_sets, Hok|]. eapply runs_weaken; [by apply runs_invalidate_sets|].
      cbn beta. intros c1 s1 (-> & Ht & Hlo & Hsl). splits; try done. intros l ttl ts Hb. unfold is_neg in En. by rewrite Hb in En. }
  intros c1 s1 (-> & Ht & Hlo & Hsl & Hbd). apply runs_mod.
  pose proof Ht as (Hok1 & Hk1 & Hf1 & Hcs1 & Hn1 & _). set (c2 := set_flags _ c1).
  assert (Hok2 : cent_ok c2).
  { destruct Hok1 as ([Hs1 Hs2] & Hq & Hcs & Hnum). split; [|by split]. split; [|done]. cbn. by rewrite tst_ldiff. }
  split.
  - apply (inv_in_place s id c c2 Hi Hc Hok2); [apply Hk1|exact Hcs1|]. intros idx. rewrite <- Hlo. by apply body_lent.
  - intros c' Hc'. rewrite Hc in Hc'. injection Hc' as <-. exists c2. split; [|done]. unfold invalidated. splits; try done.
    + cbn. apply tst_ldiff_same.
    + intros mm Hmm. cbn. rewrite tst_ldiff by done. by rewrite Hf1.
Qed.

(** Setting flags other than [DF_NEGATIVE]. *)
Lemma runs_set_cent_flags s m N r fl :
  inv s -> hash_ok s m -> wf_name N -> tst fl DF_NEGATIVE = false ->
  runs (set_cent_flags (enc_name N ++ r) fl) s (fun b s' => inv s' /\
    match m !! fold_key (enc_name N) with
    | None => b = false /\ s' = s
    | Some id => b = true /\ forall c, cents s !! id = Some c ->
        cents s' = <[id := set_flags (u16 (Z.lor (flags c) fl)) c]> (cents s)
    end).
Proof.
  intros Hi Hm HN Hfl. unfold set_cent_flags. apply runs_bind. eapply runs_weaken; [by apply (runs_hash_lookup s m N r)|].
  intros [ce loc] s0 (-> & Hce & _). cbn [fst] in Hce. subst ce.
  destruct (m !! fold_key (enc_name N)) as [id|] eqn:HK; [|by apply runs_ret].
  destruct (hash_entry s m _ id Hm HK) as (c & Hc & _). pose proof (inv_cent s id c Hi Hc) as (Hs & Hq & Hcs & Hnum).
  apply runs_bind. eapply runs_deref; [exact Hc|]. apply runs_bind, runs_mod, runs_ret. splits; [|done|].
  - apply (inv_in_place s id c); [done|done| |done|done|intros idx; by apply body_lent].
    split; [|by split]. destruct Hs as [Hs1 Hs2]. split; [|done]. cbn. rewrite tst_u16 by (unfold DF_NEGATIVE; lia).
    rewrite tst_lor_other; [done|]. unfold tst in Hfl. by apply negb_false_iff, Z.eqb_eq in Hfl.
  - intros c' Hc'. by rewrite Hc in Hc'; injection Hc' as <-.
Qed.
End InPlace.
