(* ===== verification/CacheThms.v ===== *)
(** The theorems about the cache as a whole: the operations of cache.c that other
    parts of pdnsd call, specified against the abstract cache of CacheOps. *)
From S2P Require Import Prelude Names DnsName RrTypes HashTab RrList Cent CentSpec Cache CacheInv CachePurge CacheAdd CacheOps.

(** ** Theorems *)

Section Theorems.
Context {P : Platform} (now : Z) (global : globals).

(** C1: adding an entry keeps the invariant of the cache (hash table, list of record
    sets, memory and statistics agree), whatever allocations fail, and terminates
    after at most one retry.  Whatever is removed or replaced on the way, every record
    in the cache was there before under the same name and type, or is one of the added
    entry and under its name.  An entry without local sets leaves the local sets of
    the cache alone.  If the name is new, memory suffices and the size limit is not
    exceeded, then the cache maps the name to the entry with the times-to-live
    adjusted, and nothing else changes. *)
Theorem add_cache_correct (s : cache) (N : list (list Z)) (cent : dns_cent) :
  inv s -> cent_ok cent -> wf_name N -> qname cent = enc_name N -> room s ->
  runs (add_cache now global cent) s (fun _ s' => inv s' /\ records_from (abs s) (abs s') cent /\
    (no_local cent -> local_sets_kept s s') /\ (insert_sort s = true -> insert_sort s' = true) /\
    (abs s !! fold_key (qname cent) = None -> plenty s -> (num_rrs cent <> 0%Z \/ is_neg cent = true) ->
     (cache_size s + cs cent <= cache_limit global)%Z ->
     exists c', adjusted global cent c' /\ abs s' = <[fold_key (qname cent) := strip c']> (abs s))).
Proof.
  intros Hi Hok HN Hq Hroom. pose proof Hi as (_ & [m Hm] & _).
  eapply runs_weaken; [by apply (runs_add_cache now global s m N cent)|]. cbn beta. intros _ s' [(Hi' & Hl & Hd & His & _) Hf].
  splits; [done|by apply derived_abs|done|done|]. intros HK Hp Hne Hsz. rewrite Hq in HK. apply (abs_none s m _ Hi Hm) in HK.
  destruct (Hf HK Hp Hne Hsz) as (id & c' & Hid & Hcs & Had & _). exists c'. split; [done|].
  assert (E : qname c' = qname cent) by apply Had. rewrite <- E. by eapply abs_insert.
Qed.

(** C30: purging keeps the invariant and all local data, takes sets away but changes none,
    and afterwards the cache is
    not larger than the limit unless every set that is left in the list is local. *)
Theorem purge_cache_correct (s : cache) (sz : Z) (lazy : bool) :
  inv s -> countable_rrl s ->
  runs (purge_cache now sz lazy) s (fun _ s' => inv s' /\ only_purged s s' /\ (insert_sort s = true -> insert_sort s' = true) /\
    ((cache_size s' <= sz)%Z \/ forall x, x ∈ rrl s' -> is_local s' x.2)).
Proof. apply runs_purge_cache. Qed.

(** C2: a lookup finds the entry of the name, or, if asked to, the one that the
    search up the name hierarchy yields, and tells which.  It returns a private copy
    from which expired sets are missing and in which all others are present, and
    the cache has lost exactly those sets; an entry of which nothing would be left
    is removed and not returned.  The invariant is kept. *)
Theorem lookup_cache_correct (s : cache) (N : list (list Z)) (r : list Z) (wild : bool) :
  inv s -> wf_name N ->
  let ref := find_ref (abs s) N wild in
  runs (lookup_cache now (enc_name N ++ r) wild) s (fun res s' => inv s' /\ res.2 = ref.2 /\
    match ref.1 with
    | None => res.1 = None /\ abs s' = abs s
    | Some K => answered now s s' K res.1
    end).
Proof. apply runs_lookup_cache. Qed.

(** Deleting a name removes its entry, and nothing else, from the cache. *)
Theorem del_cache_correct (s : cache) (N : list (list Z)) (r : list Z) :
  inv s -> wf_name N ->
  runs (del_cache (enc_name N ++ r)) s (fun _ s' => inv s' /\ abs s' = delete (fold_key (enc_name N)) (abs s)).
Proof.
  intros Hi HN. pose proof Hi as (_ & [m Hm] & _). eapply runs_weaken; [by apply (runs_del_cache s m N r)|].
  cbn beta. tauto.
Qed.

(** Emptying the cache with an include/exclude list removes the entries for which
    the first applicable rule says so and no others; without a list it removes all. *)
Theorem empty_cache_correct (s : cache) (rules : list rule) :
  inv s -> Forall (fun r => wf_name (ru_dom r)) rules ->
  runs (empty_cache (Some (slist_of <$> rules))) s (fun _ s' => inv s' /\
    forall id c, cents s' !! id = Some c <-> cents s !! id = Some c /\ ~ chosen rules c) /\
  runs (empty_cache None) s (fun _ s' => inv s' /\ empty s').
Proof.
  intros Hi Hr. split; [by apply runs_empty_selected|]. unfold empty_cache. fold free_dns_hash.
  by apply runs_free_dns_hash.
Qed.

(** Destroying the cache deletes every entry and every node of the list; the
    statistics are zero afterwards, so the check at the end never reports a leak. *)
Theorem destroy_cache_correct (s : cache) :
  inv s -> runs destroy_cache s (fun _ s' => inv s' /\ cents s' = ∅ /\ rrl s' = [] /\ ent_num s' = 0%Z /\ cache_size s' = 0%Z).
Proof.
  intros Hi. eapply runs_weaken; [by apply runs_free_dns_hash|]. intros _ s' (Hi' & H1 & H2 & H3 & H4 & _). by splits.
Qed.

(** Invalidating a name marks all sets of its entry, or the negative entry
    itself, as received at time 0 and not authoritative; nothing else changes and
    the invariant is kept. *)
Theorem invalidate_record_correct (s : cache) (N : list (list Z)) (r : list Z) :
  inv s -> wf_name N ->
  runs (invalidate_record (enc_name N ++ r)) s (fun _ s' => inv s' /\
    match abs s !! fold_key (enc_name N) with
    | None => s' = s
    | Some _ => exists id c c', cents s !! id = Some c /\ fold_key (qname c) = fold_key (enc_name N) /\
        invalidated c c' /\ cents s' = <[id := c']> (cents s)
    end).
Proof.
  intros Hi HN. pose proof Hi as (_ & [m Hm] & _). eapply runs_weaken; [by apply (runs_invalidate_record s m N r)|].
  cbn beta. intros _ s' [Hi' H]. split; [done|]. destruct (m !! fold_key (enc_name N)) as [id|] eqn:HK.
  - destruct (hash_entry s m _ id Hm HK) as (c & Hc & Hk). rewrite (abs_some s m _ id c Hi Hm HK Hc).
    destruct (H c Hc) as (c' & Hin & Hcs). by exists id, c, c'.
  - by rewrite (proj2 (abs_none s m _ Hi Hm) HK).
Qed.

(** Setting flags of an entry, [DF_NEGATIVE] excepted as the comment demands, keeps
    the invariant, changes nothing but the flags of that entry, and reports whether
    there is one. *)
Theorem set_cent_flags_correct (s : cache) (N : list (list Z)) (r : list Z) (fl : Z) :
  inv s -> wf_name N -> tst fl DF_NEGATIVE = false ->
  runs (set_cent_flags (enc_name N ++ r) fl) s (fun b s' => inv s' /\
    match abs s !! fold_key (enc_name N) with
    | None => b = false /\ s' = s
    | Some c => b = true /\ abs s' = <[fold_key (enc_name N) := set_flags (u16 (Z.lor (flags c) fl)) c]> (abs s)
    end).
Proof.
  intros Hi HN Hfl. pose proof Hi as (_ & [m Hm] & _). eapply runs_weaken; [by apply (runs_set_cent_flags s m N r fl)|].
  cbn beta. intros b s' [Hi' H]. split; [done|]. destruct (m !! fold_key (enc_name N)) as [id|] eqn:HK.
  - destruct (hash_entry s m _ id Hm HK) as (c & Hc & Hk). rewrite (abs_some s m _ id c Hi Hm HK Hc).
    destruct H as [-> H]. specialize (H c Hc). split; [done|]. rewrite <- Hk.
    exact (abs_update s s' id c _ Hi Hi' Hc H eq_refl).
  - by rewrite (proj2 (abs_none s m _ Hi Hm) HK).
Qed.

(** Merging one set into an entry of the cache.  A cached set that has precedence
    ([keep_old]: it is local and the new one is not, or it comes from an answer
    section and the new one does not) stays; otherwise it makes room.  Sets of other
    types are removed only when they conflict with the new one, and local ones only
    for a local set.  The new set is entered with its records, in order, and its
    time-to-live adjusted, unless a conflict with longer-lived or local data forbids
    it.  If memory runs out the slot is left empty and nothing is half done. *)
Theorem replace_set_correct (s : cache) (id : positive) (c cent : dns_cent) (i : nat) :
  heap_ok s -> cents s !! id = Some c -> cent_ok cent -> i < length (sets cent) ->
  runs (replace_set now global cent id i) s (fun ok s' => exists c', inserted s s' id c c' /\
    (plenty s -> ok = true /\ plenty s') /\
    match slot cent i with Some centrrs => replaced now global centrrs c c' i ok | None => c' = c end).
Proof. apply runs_replace_set. Qed.

(** A time-to-live is brought into the configured range: at least [min_ttl] (for a
    negative set, the smaller of [min_ttl] and [neg_ttl]) and at most [max_ttl], and
    left alone inside; a set that is not to be cached gets 0 and loses that flag. *)
Theorem adjust_ttl_range (rs : rr_set) :
  (g_min_ttl global <= g_max_ttl global)%Z ->
  let lo := if tst (rs_flags rs) CF_NEGATIVE then Z.min (g_neg_ttl global) (g_min_ttl global) else g_min_ttl global in
  let rs' := adjust_ttl global rs in
  if tst (rs_flags rs) CF_NOCACHE then rs_ttl rs' = 0%Z /\ tst (rs_flags rs') CF_NOCACHE = false
  else rs_ttl rs' = Z.max lo (Z.min (rs_ttl rs) (g_max_ttl global)) /\ rs_flags rs' = rs_flags rs.
Proof.
  intros Hle lo rs'. unfold rs', adjust_ttl. destruct (tst (rs_flags rs) CF_NOCACHE).
  { cbn. split; [done|apply tst_ldiff_same]. }
  cbv zeta. assert (Hlo : (if tst (rs_flags rs) CF_NEGATIVE && (g_neg_ttl global <? g_min_ttl global)%Z
    then g_neg_ttl global else g_min_ttl global) = lo).
  { unfold lo. destruct (tst (rs_flags rs) CF_NEGATIVE); cbn [andb]; [|done].
    destruct (g_neg_ttl global <? g_min_ttl global)%Z eqn:E; boolp; lia. }
  rewrite Hlo. assert (lo <= g_max_ttl global)%Z by (unfold lo; destruct (tst (rs_flags rs) CF_NEGATIVE); lia).
  destruct (rs_ttl rs <? lo)%Z eqn:E1; boolp; cbn [rs_ttl rs_set_ttl rs_flags]; [split; [lia|done]|].
  destruct (g_max_ttl global <? rs_ttl rs)%Z eqn:E2; boolp; cbn [rs_ttl rs_set_ttl rs_flags]; (split; [lia|done]).
Qed.

(** C3: what has been added is found again: after adding an entry under a new name, a
    lookup of that name, in any case of letters, returns a copy with every set that
    is not expired by then, each with its records and the adjusted time-to-live. *)
Theorem add_lookup_roundtrip (s : cache) (N N' : list (list Z)) (r : list Z) (cent : dns_cent) (now' : Z) :
  inv s -> cent_ok cent -> wf_name N -> wf_name N' -> qname cent = enc_name N -> name_eqi N' N -> room s ->
  abs s !! fold_key (enc_name N) = None -> plenty s -> is_neg cent = false ->
  (cache_size s + cs cent <= cache_limit global)%Z ->
  (exists j rs, slot cent j = Some rs /\ must_go now' (adjust_ttl global rs) = false) ->
  runs (_ ← add_cache now global cent; lookup_cache now' (enc_name N' ++ r) false) s (fun res s' => inv s' /\
    exists x, res = (Some x, 0%Z) /\ qname x = qname cent /\
      forall j, slot x j = purged now' (strip_set (adjust_ttl global <$> slot cent j))).
Proof.
  intros Hi Hok HN HN' Hq Heq Hroom HK Hp Hng Hsz (j0 & rs0 & Hj0 & Hgo). pose proof Hi as (_ & [m Hm] & _).
  apply runs_bind. eapply runs_weaken; [by apply (runs_add_cache now global s m N cent)|]. cbn beta.
  intros _ s1 [[Hi1 _] Hf]. apply (abs_none s m _ Hi Hm) in HK.
  assert (Hnz : num_rrs cent <> 0%Z) by (intros E; by rewrite (empty_entry cent Hok E) in Hj0).
  destruct (Hf HK Hp (or_introl Hnz) Hsz) as (id & c' & Hid & Hcs & Had & _ & Hp1 & _).
  destruct Had as (Hok' & (Hq' & _) & _ & Hn' & Hst). rewrite Hng in Hst, Hn'. destruct Hst as [_ Hst].
  pose proof (abs_insert s s1 id c' Hi Hi1 Hid Hcs) as Habs. rewrite Hq', Hq in Habs.
  eapply runs_weaken; [by apply (runs_lookup_cache now' s1 N' r false)|]. cbn beta zeta.
  assert (HKK : fold_key (enc_name N') = fold_key (enc_name N)) by (apply fold_key_eqi; [apply HN'|apply HN|done]).
  unfold find_ref. rewrite HKK, Habs, lookup_insert_eq. cbn [fst snd].
  intros [res w] s2 (Hi2 & Hw & Ha). cbn [fst snd] in *. subst w. destruct Ha as (c1 & Hc1 & Ha).
  rewrite Habs, lookup_insert_eq in Hc1. injection Hc1 as <-.
  assert (Hsl : forall j, slot (strip c') j = strip_set (adjust_ttl global <$> slot cent j)) by (intros j; by rewrite slot_strip).
  assert (Hex : expired now' (strip c') = false).
  { destruct (expired now' (strip c')) eqn:Ex; [|done]. unfold expired in Ex. apply andb_true_iff in Ex as [Ex _]. boolp.
    apply count_zero_nones in Ex. assert (Hno : purged now' (slot (strip c') j0) = None).
    { unfold slot. assert (E : forall r, (purged now' <$> sets (strip c')) !! j0 = Some r -> r = None).
      { intros r0 Hr0. rewrite Ex in Hr0. by apply lookup_replicate in Hr0 as [-> _]. }
      rewrite list_lookup_fmap in E. destruct (sets (strip c') !! j0) as [r0|]; [by apply E|done]. }
    rewrite Hsl, Hj0 in Hno. cbn in Hno. unfold must_go, timedout in *. cbn in Hno. by rewrite Hgo in Hno. }
  rewrite Hex in Ha. destruct Ha as [Hsome (x & Hfr & _ & Hx)]. destruct (Hsome Hp1) as [y ->]. rewrite (Hx y eq_refl).
  split; [done|]. exists x. destruct Hfr as (_ & _ & Hqx & _ & Hslx & _). splits; [done|by rewrite Hqx|].
  intros j. by rewrite Hslx, Hsl.
Qed.
End Theorems.

(** ** A small cache for the examples *)

#[local] Existing Instance LP64.

Lemma fresh_none id : cents fresh_cache !! id = None.
Proof. apply lookup_empty. Qed.

Lemma inv_fresh : inv fresh_cache.
Proof.
  unfold inv. splits; [|exists ∅|done|done].
  - split; [intros id c H; by rewrite fresh_none in H|]. split; [|by intros x ?%not_elem_of_nil].
    split; [constructor|]. intros p id idx. split; [by intros ?%not_elem_of_nil|]. intros (c & Hc & _). by rewrite fresh_none in Hc.
  - split; [apply mk_dns_hash_rep|]. intros id. split; [intros [c Hc]; by rewrite fresh_none in Hc|].
    intros [K HK]. by rewrite lookup_empty in HK.
Qed.

Definition demo_globals : globals := {| g_min_ttl := 120; g_max_ttl := 604800; g_neg_ttl := 900; g_perm_cache := 2048 |}.

(** The entry of the name "a" with one address, received at time 1000. *)
Definition demo_set : rr_set :=
  {| rs_lent := None; rs_ttl := 300; rs_ts := 1000; rs_flags := 0; rs_rrs := [[10; 0; 0; 1]]%Z |}.
Definition demo_cent : dns_cent :=
  set_cs (cs sample_cent + rrset_size demo_set) (set_num_rrs 1 (set_body (Rr (<[0 := Some demo_set]> no_rrmu) None) sample_cent)).

Lemma demo_cent_ok : cent_ok demo_cent.
Proof.
  split; [|split; [exists [[97]]%Z|by split]].
  - split; [done|]. cbn. by split.
  - split; [|done]. split; [repeat constructor; simpl; lia|vm_compute; lia].
Qed.

Definition demo_cache : cache :=
  match add_cache 1000 demo_globals demo_cent fresh_cache with Some (_, s) => s | None => fresh_cache end.

Lemma wf_a : wf_name [[97]]%Z.
Proof. split; [repeat constructor; simpl; lia|vm_compute; lia]. Qed.

Lemma demo_cache_inv : inv demo_cache.
Proof.
  destruct (runs_add_cache 1000 demo_globals fresh_cache ∅ [[97]]%Z demo_cent) as (u & s & Hrun & [Hi _] & _).
  - apply inv_fresh.
  - split; [apply mk_dns_hash_rep|]. intros id. split; [intros [c Hc]; by rewrite fresh_none in Hc|].
    intros [K HK]. by rewrite lookup_empty in HK.
  - apply demo_cent_ok.
  - apply wf_a.
  - done.
  - by left.
  - unfold demo_cache. by rewrite Hrun.
Qed.

Example demo_cache_size : cache_size demo_cache = cs demo_cent /\ ent_num demo_cache = 1%Z /\ length (rrl demo_cache) = 1.
Proof. by vm_compute. Qed.

(** ** The theorems on the example *)

Lemma add_cache_correct_witness :
  runs (add_cache 1000 demo_globals demo_cent) fresh_cache (fun _ s' =>
    inv s' /\ exists c', adjusted demo_globals demo_cent c' /\ abs s' = <[[1; 97; 0]%Z := strip c']> ∅).
Proof.
  eapply runs_weaken; [apply (add_cache_correct 1000 demo_globals fresh_cache [[97]]%Z demo_cent)|].
  - exact inv_fresh.
  - exact demo_cent_ok.
  - exact wf_a.
  - reflexivity.
  - by left.
  - cbn beta. intros _ s' (Hi & _ & H). split; [exact Hi|]. apply H.
    + reflexivity.
    + constructor.
    + by left.
    + vm_compute. discriminate.
Defined.

Lemma purge_cache_correct_witness :
  runs (purge_cache 1000 0 false) demo_cache (fun _ s' => inv s' /\ cache_size s' = 0%Z).
Proof.
  destruct (purge_cache_correct 1000 demo_cache 0 false demo_cache_inv) as (u & s' & Hrun & Hi & _); [by left|].
  exists u, s'. split; [exact Hrun|]. split; [exact Hi|].
  assert (E : (fun x => cache_size x.2) <$> purge_cache 1000 0 false demo_cache = Some 0%Z) by (vm_compute; reflexivity).
  rewrite Hrun in E. cbn in E. congruence.
Defined.

Lemma lookup_cache_correct_witness :
  runs (lookup_cache 1100 (enc_name [[97]]%Z ++ [7]%Z) true) demo_cache (fun res s' =>
    inv s' /\ answered 1100 demo_cache s' [1; 97; 0]%Z res.1 /\ is_Some res.1).
Proof.
  destruct (lookup_cache_correct 1100 demo_cache [[97]]%Z [7]%Z true demo_cache_inv wf_a) as (res & s' & Hrun & Hi & _ & Ha).
  exists res, s'. split; [exact Hrun|]. split; [exact Hi|].
  assert (E : (find_ref (abs demo_cache) [[97]]%Z true).1 = Some [1; 97; 0]%Z) by (vm_compute; reflexivity).
  rewrite E in Ha. split; [exact Ha|]. destruct Ha as (c & Hc & H).
  assert (Ex : option_map (expired 1100) (abs demo_cache !! [1; 97; 0]%Z) = Some false) by (vm_compute; reflexivity).
  rewrite Hc in Ex. cbn [option_map] in Ex. injection Ex as Ex. rewrite Ex in H. apply H. constructor.
Defined.

Lemma del_cache_correct_witness :
  runs (del_cache (enc_name [[97]]%Z ++ [7]%Z)) demo_cache (fun _ s' => inv s' /\ abs s' = delete [1; 97; 0]%Z (abs demo_cache)).
Proof. exact (del_cache_correct demo_cache [[97]]%Z [7]%Z demo_cache_inv wf_a). Defined.

Lemma empty_cache_correct_witness :
  runs (empty_cache (Some (slist_of <$> [{| ru_dom := [[97]]%Z; ru_exact := true; ru_included := false |};
                                           {| ru_dom := []; ru_exact := false; ru_included := true |}]))) demo_cache
    (fun _ s' => inv s' /\ exists id c, cents s' !! id = Some c).
Proof.
  destruct (empty_cache_correct demo_cache [{| ru_dom := [[97]]%Z; ru_exact := true; ru_included := false |};
    {| ru_dom := []; ru_exact := false; ru_included := true |}] demo_cache_inv) as [(u & s' & Hrun & Hi & H) _].
  - constructor; [exact wf_a|]. constructor; [split; [constructor|vm_compute; lia]|constructor].
  - exists u, s'. split; [exact Hrun|]. split; [exact Hi|].
    assert (Hq : option_map qname (cents demo_cache !! 1%positive) = Some (enc_name [[97]]%Z)) by (vm_compute; reflexivity).
    destruct (cents demo_cache !! 1%positive) as [c|] eqn:Hc; [|discriminate Hq]. injection Hq as Hq. exists 1%positive, c. apply H. split; [exact Hc|]. intros Hch.
    apply (chosen_name _ c [[97]]%Z wf_a Hq) in Hch. discriminate Hch.
Defined.

Lemma destroy_cache_correct_witness :
  runs destroy_cache demo_cache (fun _ s' => cents s' = ∅ /\ ent_num s' = 0%Z).
Proof.
  destruct (destroy_cache_correct demo_cache demo_cache_inv) as (u & s' & Hrun & _ & Hc & _ & He & _).
  exists u, s'. split; [exact Hrun|]. by split.
Defined.

Lemma invalidate_record_correct_witness :
  runs (invalidate_record (enc_name [[97]]%Z ++ [])) demo_cache (fun _ s' => inv s' /\
    exists id c c', cents demo_cache !! id = Some c /\ invalidated c c' /\ cents s' = <[id := c']> (cents demo_cache)).
Proof.
  destruct (invalidate_record_correct demo_cache [[97]]%Z [] demo_cache_inv wf_a) as (u & s' & Hrun & Hi & H).
  exists u, s'. split; [exact Hrun|]. split; [exact Hi|].
  destruct (abs demo_cache !! fold_key (enc_name [[97]]%Z)) as [x|] eqn:E; [|by vm_compute in E].
  destruct H as (id & c & c' & Hc & _ & Hv & Hcs). by exists id, c, c'.
Defined.

Lemma set_cent_flags_correct_witness :
  runs (set_cent_flags (enc_name [[97]]%Z ++ []) DF_WILD) demo_cache (fun b s' => inv s' /\ b = true).
Proof.
  destruct (set_cent_flags_correct demo_cache [[97]]%Z [] DF_WILD demo_cache_inv wf_a eq_refl) as (b & s' & Hrun & Hi & H).
  exists b, s'. split; [exact Hrun|]. split; [exact Hi|].
  destruct (abs demo_cache !! fold_key (enc_name [[97]]%Z)) as [x|] eqn:E; [|by vm_compute in E]. apply H.
Defined.

Lemma replace_set_correct_witness :
  exists c, cents demo_cache !! 1%positive = Some c /\
    runs (replace_set 1001 demo_globals demo_cent 1 0) demo_cache (fun ok s' => ok = true /\
      exists c', inserted demo_cache s' 1 c c' /\ replaced 1001 demo_globals demo_set c c' 0 ok).
Proof.
  destruct (cents demo_cache !! 1%positive) as [c|] eqn:Hc; [|by vm_compute in Hc]. exists c. split; [done|].
  destruct (replace_set_correct 1001 demo_globals demo_cache 1 c demo_cent 0 (proj1 demo_cache_inv) Hc demo_cent_ok)
    as (ok & s' & Hrun & c' & Hins & Hp & Hrep); [vm_compute; lia|].
  exists ok, s'. split; [exact Hrun|]. split; [apply Hp; constructor|]. by exists c'.
Defined.

Lemma adjust_ttl_range_witness : rs_ttl (adjust_ttl demo_globals (rs_set_ttl 5 demo_set)) = 120%Z.
Proof.
  destruct (adjust_ttl_range demo_globals (rs_set_ttl 5 demo_set)) as [H _]; [vm_compute; discriminate|]. exact H.
Defined.

Lemma add_lookup_roundtrip_witness :
  runs (_ ← add_cache 1000 demo_globals demo_cent; lookup_cache 1200 (enc_name [[65]]%Z ++ []) false) fresh_cache (fun res s' =>
    exists x, res = (Some x, 0%Z) /\ slot x 0 = Some demo_set).
Proof.
  destruct (add_lookup_roundtrip 1000 demo_globals fresh_cache [[97]]%Z [[65]]%Z [] demo_cent 1200) as (res & s' & Hrun & _ & x & Hres & _ & Hsl).
  - exact inv_fresh.
  - exact demo_cent_ok.
  - exact wf_a.
  - split; [repeat constructor; simpl; lia|vm_compute; lia].
  - reflexivity.
  - reflexivity.
  - by left.
  - reflexivity.
  - constructor.
  - reflexivity.
  - vm_compute. discriminate.
  - exists 0, demo_set. split; reflexivity.
  - exists res, s'. split; [exact Hrun|]. exists x. split; [exact Hres|]. rewrite (Hsl 0). reflexivity.
Defined.

(** ** A local negative entry is not protected

    The comment on the early return of [add_cache] says that local records are not
    clobbered, but the test looks at record sets only, and an entry that is negative
    as a whole has none. *)

Definition local_neg : dns_cent :=
  set_body (Neg None 0 1000) (set_flags (Z.lor DF_NEGATIVE DF_LOCAL) sample_cent).
Definition remote_neg : dns_cent :=
  set_body (Neg None 0 2000) (set_flags DF_NEGATIVE sample_cent).

Definition is_local_entry (s : cache) (K : list Z) : option bool :=
  (fun c => tst (flags c) DF_LOCAL) <$> abs s !! K.

(** A negative entry from a server replaces a local negative entry of the same name. *)
Lemma local_negative_replaced :
  exists s1 s2, add_cache 1000 demo_globals local_neg fresh_cache = Some (tt, s1) /\
    add_cache 2000 demo_globals remote_neg s1 = Some (tt, s2) /\
    is_local_entry s1 [1; 97; 0]%Z = Some true /\ is_local_entry s2 [1; 97; 0]%Z = Some false.
Proof.
  set (o1 := add_cache 1000 demo_globals local_neg fresh_cache).
  set (o2 := s ← snd <$> o1; add_cache 2000 demo_globals remote_neg s).
  assert (H1 : (fun x => is_local_entry x.2 [1; 97; 0]%Z) <$> o1 = Some (Some true)) by (vm_compute; reflexivity).
  assert (H2 : (fun x => is_local_entry x.2 [1; 97; 0]%Z) <$> o2 = Some (Some false)) by (vm_compute; reflexivity).
  destruct o1 as [[[] s1]|]; [|discriminate H1]. cbn in o2. destruct o2 as [[[] s2]|] eqn:E; [|discriminate H2].
  exists s1, s2. injection H1 as H1. injection H2 as H2. by splits.
Qed.
