(* ===== verification/Answer.v ===== *)
(** Composing answers: the functions of [pdnsd/src/dns_answer.c] that write resource
    records into a reply.

    The reply is the memory from [&ans->hdr] to the end of its allocation, so that
    [*allocsz] is [dnsmsghdroffset] plus its length, and the number [*sz] of bytes of
    it that have been written.  Computations act on the reply, the lists that accompany
    it and the cache; they fail for undefined behaviour and violated assertions, and
    they may give up, which is the return of 0 in the C code.  A part of a new
    allocation that has not been written holds zeros here; nothing reads it. *)
From S2P Require Import Prelude Names DnsName RrTypes HashTab RrList Cent Cache.

(** ** State *)

(** [sva_t]: a record that has been added. *)
Record sva_el := { sv_tp : Z; sv_nm : list Z; sv_data : list Z }.

(** [rr_ext_t]: a record to be added to the authority section, or a name whose
    addresses are to be added to the additional section. *)
Record rr_ext := { re_tp : Z; re_tnm : list Z; re_nm : list Z; re_ttl : Z }.

Record answer := {
  a_msg : list Z;
  a_sz : nat;
  a_cb : list compel;
  a_sva : list sva_el;
  a_ar : list rr_ext;
  a_cache : cache;
  a_random : list Z;
}.

Definition dnsmsghdroffset : nat := 2.
Definition sizeof_dns_hdr_t : nat := 12.
Definition sizeof_rr_hdr_t : nat := 10.
Definition sizeof_opt_pseudo_rr : nat := 1 + sizeof_rr_hdr_t.
Definition ALLOCINITIALSIZE : nat := 256.
Definition ALLOCCHUNKSIZEMASK : Z := 0x7f.

Definition allocsz (s : answer) : nat := dnsmsghdroffset + length (a_msg s).

Definition set_msg v s := {| a_msg := v; a_sz := a_sz s; a_cb := a_cb s; a_sva := a_sva s; a_ar := a_ar s;
  a_cache := a_cache s; a_random := a_random s |}.
Definition set_sz v s := {| a_msg := a_msg s; a_sz := v; a_cb := a_cb s; a_sva := a_sva s; a_ar := a_ar s;
  a_cache := a_cache s; a_random := a_random s |}.
Definition set_cb v s := {| a_msg := a_msg s; a_sz := a_sz s; a_cb := v; a_sva := a_sva s; a_ar := a_ar s;
  a_cache := a_cache s; a_random := a_random s |}.
Definition set_sva v s := {| a_msg := a_msg s; a_sz := a_sz s; a_cb := a_cb s; a_sva := v; a_ar := a_ar s;
  a_cache := a_cache s; a_random := a_random s |}.
Definition set_ar v s := {| a_msg := a_msg s; a_sz := a_sz s; a_cb := a_cb s; a_sva := a_sva s; a_ar := v;
  a_cache := a_cache s; a_random := a_random s |}.
Definition set_cache v s := {| a_msg := a_msg s; a_sz := a_sz s; a_cb := a_cb s; a_sva := a_sva s; a_ar := a_ar s;
  a_cache := v; a_random := a_random s |}.
Definition set_random v s := {| a_msg := a_msg s; a_sz := a_sz s; a_cb := a_cb s; a_sva := a_sva s; a_ar := a_ar s;
  a_cache := a_cache s; a_random := v |}.

(** *** The monad *)

(** No result at all is undefined behaviour; no value is giving up. *)
Definition W (A : Type) : Type := answer -> option (option A * answer).

#[export] Instance W_ret : MRet W := fun A a s => Some (Some a, s).
#[export] Instance W_bind : MBind W := fun A B k m s =>
  match m s with
  | Some (Some a, s') => k a s'
  | Some (None, s') => Some (None, s')
  | None => None
  end.

Definition giveup {A} : W A := fun s => Some (None, s).
Definition liftW {A} (o : option A) : W A := fun s => a ← o; Some (Some a, s).
Definition getW : W answer := fun s => Some (Some s, s).
Definition modW (f : answer -> answer) : W unit := fun s => Some (Some tt, f s).
Definition assertW (b : bool) : W unit := if b then mret tt else liftW None.

(** An operation of the cache. *)
Definition cacheW {A} (m : M A) : W A := fun s =>
  '(a, c) ← m (a_cache s); Some (Some a, set_cache c s).

(** An operation whose giving up is a result for the caller. *)
Definition tryW {A} (m : W A) : W (option A) := fun s => '(r, s') ← m s; Some (Some r, s').

(** [random()]. *)
Definition random : W Z := fun s =>
  match a_random s with
  | [] => Some (Some 0%Z, s)
  | r :: rs => Some (Some r, set_random rs s)
  end.

(** ** Reading and writing integers in network order *)

Definition put16 (x : Z) : list Z := [u8 (x / 2 ^ 8); u8 x].
Definition put32 (x : Z) : list Z := [u8 (x / 2 ^ 24); u8 (x / 2 ^ 16); u8 (x / 2 ^ 8); u8 x].

Definition PUTBYTES (off : nat) (l : list Z) : W unit :=
  s ← getW; m ← liftW (wr_bytes (a_msg s) off l); modW (set_msg m).

Definition GETINT16 (m : list Z) (off : nat) : option Z :=
  a ← rd m off; b ← rd m (off + 1); Some (Z.lor (Z.shiftl a 8) b).

(** [ans->hdr.f = htons(ntohs(ans->hdr.f)+n)]; [f] is the offset of the field. *)
Definition add_count (f : nat) (n : Z) : W unit :=
  s ← getW; x ← liftW (GETINT16 (a_msg s) f); PUTBYTES f (put16 (x + n)).

Definition qdcount : nat := 4.
Definition ancount : nat := 6.
Definition nscount : nat := 8.
Definition arcount : nat := 10.

(** ** The accompanying lists *)

(** [dlist_grow] frees the list when there is no memory. *)
Definition sva_add (rhn : list Z) (tp : Z) (data : list Z) : W unit :=
  rlen ← liftW (rhnlen rhn);
  ok ← cacheW malloc;
  if (ok : bool) then
    nm ← liftW (rd_bytes rhn 0 rlen);
    modW (fun s => set_sva (a_sva s ++ [{| sv_tp := tp; sv_nm := nm; sv_data := data |}]) s)
  else _ ← modW (set_sva []); giveup.

Definition add_ar (tp : Z) (tnm nm : list Z) (ttl : Z) : W unit :=
  nm ← (if (tp =? T_NS)%Z || (tp =? T_SOA)%Z
        then nmsz ← liftW (rhnlen nm); liftW (rd_bytes nm 0 nmsz)
        else mret []);
  ok ← cacheW malloc;
  if (ok : bool) then
    modW (fun s => set_ar (a_ar s ++ [{| re_tp := tp; re_tnm := tnm; re_nm := nm; re_ttl := u32 ttl |}]) s)
  else _ ← modW (set_ar []); giveup.

Definition ans_ttl (rs : rr_set) (queryts : Z) : Z :=
  if negb (tst (rs_flags rs) CF_LOCAL) then
    let tpassed := (queryts - rs_ts rs)%Z in
    let tpassed := if (tpassed <? 0)%Z then 0%Z else tpassed in
    let ttl := (rs_ttl rs - tpassed)%Z in
    if (ttl <? 0)%Z then 0%Z else ttl
  else rs_ttl rs.

Definition RRMUINDEX_CNAME : nat := 2.
Definition RRMUINDEX_AAAA : nat := 7.

(** [follow_cname_chain]: the name of the first CNAME record, copied over [name]. *)
Definition follow_cname_chain (c : dns_cent) (name : list Z) : option (option (list Z)) :=
  r ← get_rrsmu c RRMUINDEX_CNAME;
  match r with
  | Some rs =>
      match rs_rrs rs with
      | rr :: _ =>
          if (length rr <=? DNSNAMEBUFSIZE) then name' ← wr_bytes name 0 rr; Some (Some name') else None
      | [] => Some None
      end
  | None => Some None
  end.

(** ** One record *)

(** [pdnsd_realloc(ans, ...)] when [newsz] exceeds [*allocsz], in multiples of a chunk. *)
Definition chunked (newsz : nat) : nat :=
  Z.to_nat (Z.ldiff (Z.of_nat newsz + ALLOCCHUNKSIZEMASK) ALLOCCHUNKSIZEMASK).

Definition reserve (newsz : nat) : W unit :=
  s ← getW;
  if (allocsz s <? newsz) then
    ok ← cacheW malloc;
    if (ok : bool)
    then modW (fun s => set_msg (a_msg s ++ replicate (chunked newsz - allocsz s) 0%Z) s)
    else giveup
  else mret tt.

(** [memcpy] to the end of what has been written. *)
Definition append (l : list Z) : W unit :=
  s ← getW; _ ← PUTBYTES (a_sz s) l; modW (fun s => set_sz (a_sz s + length l) s).

(** [compress_name(nm, &hdr + *sz, *sz, cb)] and [*sz += ...]. *)
Definition put_name (nm : list Z) : W nat :=
  s ← getW;
  ok ← cacheW malloc;
  '(rl, out, cb) ← liftW (if decide (a_sz s <= length (a_msg s))
                          then compress_name ok nm (drop (a_sz s) (a_msg s)) (a_sz s) (a_cb s) else None);
  _ ← modW (fun s => set_cb cb (set_msg (take (a_sz s) (a_msg s) ++ out) s));
  if (rl =? 0) then giveup
  else _ ← modW (fun s => set_sz (a_sz s + rl) s); mret rl.

Definition in_types (type : Z) (l : list Z) : bool := existsb (Z.eqb type) l.

(** The character strings of a NAPTR record: the offset behind [n] of them. *)
Fixpoint naptr_strings (n : nat) (data : list Z) (ilen : nat) : option nat :=
  match n with
  | O => Some ilen
  | S n' =>
      l ← rd data ilen;
      let ilen := ilen + Z.to_nat l + 1 in
      if (ilen <? length data) then naptr_strings n' data ilen else None
  end.

(** The [switch] of [add_rr]: the record data; the result is [rdlen]. *)
Definition add_rdata (type : Z) (data : list Z) : W nat :=
  let dlen := length data in
  if in_types type [T_CNAME; T_MB; T_MD; T_MF; T_MG; T_MR; T_NS; T_PTR] then
    rdlen ← put_name data;
    _ ← assertW (rdlen <=? dlen);
    mret rdlen
  else if in_types type [T_MINFO; T_RP] then
    rdlen ← put_name data;
    ilen ← liftW (rhnlen data);
    _ ← assertW (rdlen <=? ilen);
    d ← liftW (adv data ilen);
    blen ← put_name d;
    _ ← assertW (rdlen + blen <=? dlen);
    mret (rdlen + blen)
  else if in_types type [T_MX; T_AFSDB; T_RT; T_KX] then
    _ ← assertW (2 <? dlen);
    w ← liftW (rd_bytes data 0 2);
    _ ← append w;
    d ← liftW (adv data 2);
    blen ← put_name d;
    _ ← assertW (2 + blen <=? dlen);
    mret (2 + blen)
  else if in_types type [T_SOA] then
    rdlen ← put_name data;
    ilen ← liftW (rhnlen data);
    _ ← assertW (rdlen <=? ilen);
    d ← liftW (adv data ilen);
    blen ← put_name d;
    ilen2 ← liftW (rhnlen d);
    _ ← assertW (rdlen + blen <=? ilen + ilen2);
    w ← liftW (rd_bytes data (ilen + ilen2) 20);
    _ ← append w;
    _ ← assertW (rdlen + blen + 20 <=? dlen);
    mret (rdlen + blen + 20)
  else if in_types type [T_PX] then
    _ ← assertW (2 <? dlen);
    w ← liftW (rd_bytes data 0 2);
    _ ← append w;
    d ← liftW (adv data 2);
    blen ← put_name d;
    ilen ← liftW (rhnlen d);
    _ ← assertW (2 + blen <=? 2 + ilen);
    d ← liftW (adv data (2 + ilen));
    blen2 ← put_name d;
    _ ← assertW (2 + blen + blen2 <=? dlen);
    mret (2 + blen + blen2)
  else if in_types type [T_SRV] then
    _ ← assertW (6 <? dlen);
    w ← liftW (rd_bytes data 0 6);
    _ ← append w;
    d ← liftW (adv data 6);
    blen ← put_name d;
    _ ← assertW (6 + blen <=? dlen);
    mret (6 + blen)
  else if in_types type [T_NXT] then
    blen ← put_name data;
    ilen ← liftW (rhnlen data);
    _ ← assertW (blen <=? ilen);
    _ ← assertW (ilen <=? dlen);
    if (ilen <? dlen) then
      w ← liftW (rd_bytes data ilen (dlen - ilen));
      _ ← append w;
      mret (blen + (dlen - ilen))
    else mret blen
  else if in_types type [T_NAPTR] then
    _ ← assertW (4 <? dlen);
    ilen ← liftW (naptr_strings 3 data 4);
    w ← liftW (rd_bytes data 0 ilen);
    _ ← append w;
    d ← liftW (adv data ilen);
    blen ← put_name d;
    _ ← assertW (ilen + blen <=? dlen);
    mret (ilen + blen)
  else
    _ ← append data;
    mret dlen.

Definition S_ANSWER : Z := 1.
Definition S_AUTHORITY : Z := 2.
Definition S_ADDITIONAL : Z := 3.
Definition C_IN : Z := 1.

Definition count_of (section : Z) : nat :=
  if (section =? S_ANSWER)%Z then ancount else if (section =? S_AUTHORITY)%Z then nscount else arcount.

(** [udp && *sz > *udp && section==S_ADDITIONAL]. *)
Definition too_long (udp : option nat) (sz : nat) (section : Z) : bool :=
  match udp with Some u => (u <? sz) && (section =? S_ADDITIONAL)%Z | None => false end.

(** The first part of [add_rr]: the name, the space for the header, whose position is
    returned, and the data, whose length is returned. *)
Definition put_rr (rrn : list Z) (type : Z) (data : list Z) : W (nat * nat) :=
  s ← getW;
  ok ← cacheW malloc;
  '(nlen, nbuf, cb) ← liftW (compress_name ok rrn (replicate DNSNAMEBUFSIZE 0%Z) (a_sz s) (a_cb s));
  _ ← modW (set_cb cb);
  if (nlen =? 0) then giveup
  else
    _ ← reserve (dnsmsghdroffset + a_sz s + nlen + sizeof_rr_hdr_t + length data);
    w ← liftW (rd_bytes nbuf 0 nlen);
    _ ← append w;
    s ← getW;
    let rrht := a_sz s in
    _ ← modW (fun s => set_sz (a_sz s + sizeof_rr_hdr_t) s);
    rdlen ← add_rdata type data;
    mret (rrht, rdlen).

(** [section] is one of the three; the [switch] at the end has no default. *)
Definition add_rr (rrn : list Z) (type ttl : Z) (data : list Z) (section : Z) (udp : option nat) : W unit :=
  s ← getW;
  let osz := a_sz s in
  '(rrht, rdlen) ← put_rr rrn type data;
  s ← getW;
  if too_long udp (a_sz s) section then modW (set_sz osz)
  else
    _ ← PUTBYTES rrht (put16 type);
    _ ← PUTBYTES (rrht + 2) (put16 C_IN);
    _ ← PUTBYTES (rrht + 4) (put32 ttl);
    _ ← PUTBYTES (rrht + 8) (put16 (Z.of_nat rdlen));
    add_count (count_of section) 1.

(** ** The OPT pseudo record *)

Definition add_opt_pseudo_rr (udpsize rcode ednsver Zflags : Z) : W unit :=
  s ← getW;
  _ ← reserve (dnsmsghdroffset + a_sz s + sizeof_opt_pseudo_rr);
  s ← getW;
  _ ← PUTBYTES (a_sz s) ([0%Z] ++ put16 T_OPT ++ put16 udpsize ++
                         [u8 (Z.shiftr rcode 4); u8 ednsver] ++ put16 Zflags ++ put16 0);
  _ ← modW (fun s => set_sz (a_sz s + sizeof_opt_pseudo_rr) s);
  add_count arcount 1.

(** [remove_opt_pseudo_rr] works on a message of [sz] bytes; the result is the new
    size, 0 for an inconsistency, and the message. *)
Definition remove_opt_pseudo_rr (ans : list Z) (sz : nat) : option (nat * list Z) :=
  acnt ← GETINT16 ans arcount;
  if negb ((0 <? acnt)%Z && (sizeof_dns_hdr_t + sizeof_opt_pseudo_rr <=? sz)) then Some (0, ans)
  else
    let sz := sz - sizeof_opt_pseudo_rr in
    b ← rd ans sz;
    if negb (b =? 0)%Z then Some (0, ans)
    else
      type ← GETINT16 ans (sz + 1);
      if negb (type =? T_OPT)%Z then Some (0, ans)
      else ans ← wr_bytes ans arcount (put16 (acnt - 1)); Some (sz, ans).

(** ** Record sets *)

(** [randrr]: the position of the record that comes first. *)
Definition randrr (rrs : list (list Z)) : W nat :=
  match rrs with
  | [] => mret 0
  | _ => r ← random; mret (Z.to_nat (Z.rem r (Z.of_nat (length rrs))))
  end.

(** The loops over the records of a set, from the position [b] on: to the end, or, when
    a first one has been chosen, around to it. *)
Fixpoint rr_loop (fuel : nat) (body : list Z -> W unit) (rrs : list (list Z)) (first : option nat) (b : nat) : W unit :=
  match fuel with
  | O => liftW None
  | S f =>
      rr ← liftW (rrs !! b);
      _ ← body rr;
      let b := b + 1 in
      match first with
      | None => if (b =? length rrs) then mret tt else rr_loop f body rrs first b
      | Some k =>
          let b := if (b =? length rrs) then 0 else b in
          if (b =? k) then mret tt else rr_loop f body rrs first b
      end
  end.

Definition over_rrs (rnd_recs : bool) (body : list Z -> W unit) (rrs : list (list Z)) : W unit :=
  if rnd_recs then first ← randrr rrs; rr_loop (length rrs) body rrs (Some first) first
  else rr_loop (length rrs) body rrs None 0.

(** [ar_recs] and [ar_offs]: the types whose data name a host, and where. *)
Definition ar_recs : list (Z * nat) :=
  [(T_NS, 0); (T_MD, 0); (T_MF, 0); (T_MB, 0); (T_MX, 2); (T_SRV, 6)].
Definition RRETP_ADD : Z := 0.

Fixpoint ar_offset (tp : Z) (l : list (Z * nat)) : option nat :=
  match l with
  | [] => None
  | (t, o) :: l' => if (t =? tp)%Z then Some o else ar_offset tp l'
  end.

Section Sets.
Context (rnd_recs : bool) (queryts : Z).

(** The body of the loop of [add_rrset]. *)
Definition add_rrset_rr (rrn : list Z) (tp : Z) (ttl : Z) (udp : option nat) (rr : list Z) : W unit :=
  _ ← add_rr rrn tp ttl rr S_ANSWER udp;
  _ ← (if in_types tp [T_NS; T_A; T_AAAA] then sva_add rrn tp rr else mret tt);
  match ar_offset tp ar_recs with
  | Some o => d ← liftW (adv rr o); add_ar RRETP_ADD d [0%Z] 0
  | None => mret tt
  end.

Definition add_rrset (rrn : list Z) (tp : Z) (cached : dns_cent) (udp : option nat) : W unit :=
  r ← liftW (getrrset cached tp);
  match r with
  | Some crrset =>
      match rs_rrs crrset with
      | [] => mret tt
      | rrs => over_rrs rnd_recs (add_rrset_rr rrn tp (ans_ttl crrset queryts) udp) rrs
      end
  | None => mret tt
  end.

Definition QT_IXFR : Z := 251.
Definition QT_AXFR : Z := 252.
Definition QT_MAILB : Z := 253.
Definition QT_MAILA : Z := 254.
Definition QT_ALL : Z := 255.

Definition is_type (qtype : Z) : bool := (T_MIN <=? qtype)%Z && (qtype <=? T_MAX)%Z.

(** [qtype>=T_MIN && qtype<=T_MAX && have_rr(cached,qtype)]. *)
Definition has_type (cached : dns_cent) (qtype : Z) : option bool :=
  if is_type qtype then have_rr cached qtype else Some false.

(** [RRITERLIST] and [NRRITERLIST]. *)
Definition rriterlist (c : dns_cent) : option (list Z) :=
  if tst (flags c) DF_NEGATIVE then Some []
  else match body c with
       | Neg _ _ _ => None
       | Rr _ rrext => Some (match rrext with Some _ => rrcachiterlist | None => rrmuiterlist end)
       end.

Fixpoint add_rrsets (rrn : list Z) (tps : list Z) (cached : dns_cent) (udp : option nat) : W unit :=
  match tps with
  | [] => mret tt
  | tp :: tps' => _ ← add_rrset rrn tp cached udp; add_rrsets rrn tps' cached udp
  end.

Definition add_to_response (rrn : list Z) (qtype : Z) (cached : dns_cent) (udp : option nat) : W unit :=
  _ ← (if negb (qtype =? T_CNAME)%Z && negb (qtype =? QT_ALL)%Z then
         have ← liftW (has_type cached qtype);
         if (have : bool) then mret tt else add_rrset rrn T_CNAME cached udp
       else mret tt);
  if (qtype =? QT_AXFR)%Z || (qtype =? QT_IXFR)%Z then giveup
  else if (qtype =? QT_MAILB)%Z then add_rrsets rrn [T_MB; T_MG; T_MR] cached udp
  else if (qtype =? QT_MAILA)%Z then add_rrsets rrn [T_MD; T_MF] cached udp
  else if (qtype =? QT_ALL)%Z then l ← liftW (rriterlist cached); add_rrsets rrn l cached udp
  else if is_type qtype then add_rrset rrn qtype cached udp
  else giveup.

(** ** Additional records *)

(** Whether a record is in the list of those added. *)
Fixpoint sva_find (l : list sva_el) (rhn : list Z) (tp : Z) (data : list Z) : option bool :=
  match l with
  | [] => Some false
  | st :: l' =>
      same ← (if (sv_tp st =? tp)%Z then rhnicmp (sv_nm st) rhn else Some false);
      if (same : bool) && bool_decide (sv_data st = data) then Some true else sva_find l' rhn tp data
  end.

Definition add_additional_rr (rhn : list Z) (tp ttl : Z) (data : list Z) (sect : Z) (udp : option nat) : W unit :=
  s ← getW;
  found ← liftW (sva_find (a_sva s) rhn tp data);
  if (found : bool) then mret tt
  else
    _ ← add_rr rhn tp ttl data sect udp;
    sva_add rhn tp data.

Definition add_additional_rrs (rhn : list Z) (tp ttl : Z) (rrb : list (list Z)) (sect : Z) (udp : option nat) : W unit :=
  match rrb with
  | [] => mret tt
  | _ => over_rrs rnd_recs (fun rr => add_additional_rr rhn tp ttl rr sect udp) rrb
  end.

(** The addresses of one type for [add_additional_a]. *)
Definition add_additional_set (rhn : list Z) (ae : dns_cent) (ri : nat) (tp : Z) (udp : option nat) : W unit :=
  r ← liftW (get_rrsmu ae ri);
  match r with
  | Some rs => add_additional_rrs rhn tp (ans_ttl rs queryts) (rs_rrs rs) S_ADDITIONAL udp
  | None => mret tt
  end.

Definition add_additional_a {P : Platform} (now : Z) (rhn : list Z) (udp : option nat) : W unit :=
  '(ae, _) ← cacheW (lookup_cache now rhn false);
  match ae with
  | Some ae =>
      retval ← tryW (_ ← add_additional_set rhn ae RRMUINDEX_A T_A udp;
                     add_additional_set rhn ae RRMUINDEX_AAAA T_AAAA udp);
      _ ← cacheW (free_cent ae);
      match retval with Some _ => mret tt | None => giveup end
  | None => mret tt
  end.
End Sets.
