(* ===== verification/AnswerRr.v ===== *)
(** Specification of the functions of Answer that write records: what they append to
    the reply can be read back, and they give up only for lack of memory. *)
From S2P Require Import Prelude Names DnsName Compress RrTypes HashTab RrList Cent CentSpec Cache Answer.

(** ** Computations on the reply *)

Definition wruns {A} (m : W A) (s : answer) (Q : option A -> answer -> Prop) : Prop :=
  exists r s', m s = Some (r, s') /\ Q r s'.

Lemma wruns_ret {A} (a : A) s (Q : option A -> answer -> Prop) : Q (Some a) s -> wruns (mret a) s Q.
Proof. intros H. by exists (Some a), s. Qed.

Lemma wruns_bind {A B} (m : W A) (k : A -> W B) s (Q : option B -> answer -> Prop) :
  wruns m s (fun r s' => match r with Some a => wruns (k a) s' Q | None => Q None s' end) ->
  wruns (mbind k m) s Q.
Proof.
  intros ([a|] & s1 & E & H).
  - destruct H as (r & s2 & E2 & H). exists r, s2. split; [|done]. unfold mbind, W_bind. by rewrite E.
  - exists None, s1. split; [|done]. unfold mbind, W_bind. by rewrite E.
Qed.

Lemma wruns_weaken {A} (m : W A) s (Q Q' : option A -> answer -> Prop) :
  wruns m s Q -> (forall r s', Q r s' -> Q' r s') -> wruns m s Q'.
Proof. intros (r & s' & E & H) HQ. exists r, s'. eauto. Qed.

Lemma wruns_lift {A} (o : option A) a s (Q : option A -> answer -> Prop) :
  o = Some a -> Q (Some a) s -> wruns (liftW o) s Q.
Proof. intros -> H. by exists (Some a), s. Qed.

Lemma wruns_get s (Q : option answer -> answer -> Prop) : Q (Some s) s -> wruns getW s Q.
Proof. intros H. by exists (Some s), s. Qed.

Lemma wruns_mod f s (Q : option unit -> answer -> Prop) : Q (Some tt) (f s) -> wruns (modW f) s Q.
Proof. intros H. by exists (Some tt), (f s). Qed.

Lemma wruns_giveup {A} s (Q : option A -> answer -> Prop) : Q None s -> wruns giveup s Q.
Proof. intros H. by exists None, s. Qed.

Lemma wruns_assert b s (Q : option unit -> answer -> Prop) : b = true -> Q (Some tt) s -> wruns (assertW b) s Q.
Proof. intros -> H. by exists (Some tt), s. Qed.

Lemma wruns_cache {A} (m : M A) s (Q : option A -> answer -> Prop) :
  runs m (a_cache s) (fun a c => Q (Some a) (set_cache c s)) -> wruns (cacheW m) s Q.
Proof. intros (a & c & E & H). exists (Some a), (set_cache c s). split; [|done]. unfold cacheW. by rewrite E. Qed.

Lemma wruns_try {A} (m : W A) s (Q : option (option A) -> answer -> Prop) :
  wruns m s (fun r s' => Q (Some r) s') -> wruns (tryW m) s Q.
Proof. intros (r & s' & E & H). exists (Some r), s'. split; [|done]. unfold tryW. by rewrite E. Qed.

(** What the writing of records leaves alone. *)
Definition wframe (s s' : answer) : Prop :=
  a_sva s' = a_sva s /\ a_ar s' = a_ar s /\ a_random s' = a_random s /\ mem_only (a_cache s) (a_cache s') /\
  (plenty (a_cache s) -> plenty (a_cache s')).

Lemma wframe_refl s : wframe s s.
Proof. unfold wframe. splits; auto with pdnsd. Qed.

Lemma wframe_trans s1 s2 s3 : wframe s1 s2 -> wframe s2 s3 -> wframe s1 s3.
Proof. intros (? & ? & ? & ? & ?) (? & ? & ? & ? & ?). unfold wframe. splits; try congruence; eauto with pdnsd. Qed.

Lemma wframe_plenty s s' : wframe s s' -> ~ plenty (a_cache s') -> ~ plenty (a_cache s).
Proof. intros H Hn Hp. by apply Hn, H. Qed.

#[export] Hint Resolve wframe_refl wframe_trans wframe_plenty : pdnsd.

Ltac frame_done := unfold wframe; cbn; splits; auto with pdnsd.

Lemma runs_malloc_any s : runs malloc s (fun b s' => mem_only s s' /\ (plenty s -> b = true /\ plenty s')).
Proof.
  unfold runs, malloc, plenty. destruct (mem s) as [|b m] eqn:E.
  - exists true, s. rewrite E. auto with pdnsd.
  - exists b, (with_mem m s). split; [done|]. split; [by exists m|]. intros H. by apply Forall_cons in H.
Qed.

(** An allocation in the middle of a computation. *)
Lemma wruns_malloc s (Q : option bool -> answer -> Prop) :
  (forall b c, mem_only (a_cache s) c -> (plenty (a_cache s) -> b = true /\ plenty c) -> Q (Some b) (set_cache c s)) ->
  wruns (cacheW malloc) s Q.
Proof.
  intros H. apply wruns_cache. destruct (runs_malloc_any (a_cache s)) as (b & c & E & Hm & Hp).
  exists b, c. split; [done|]. by apply H.
Qed.

(** ** The reply under construction

    The message behind the header is described by a view, which leaves the contents of
    some bytes open: those of a record header that is filled in later.  [built s hdr
    body es slack]: the memory holds the header, then bytes that agree with the view,
    then unused space; the compression buffer is sound for what has been written,
    whatever the header and the open bytes contain.

    Everything about the contents is claimed under the condition [G] only: after a
    record has been left out the buffer may refer to places that do not exist, and with
    [False] for [G] what remains are the claims about memory. *)

Definition fills (v : list (option Z)) (m : list Z) : Prop :=
  Forall2 (fun o x => match o with Some y => x = y | None => True end) v m.

Definition lit (l : list Z) : list (option Z) := Some <$> l.

Lemma length_lit l : length (lit l) = length l.
Proof. apply length_fmap. Qed.

Lemma fills_length v m : fills v m -> length m = length v.
Proof. intros H. symmetry. by eapply Forall2_length. Qed.

Lemma fills_lit l m : fills (lit l) m <-> m = l.
Proof.
  unfold fills, lit. rewrite Forall2_fmap_l. split; [|intros ->; by apply Forall_Forall2_diag, Forall_true].
  intros H. induction H as [|x y l m Hxy _ IH]; [done|]. by rewrite Hxy, IH.
Qed.

Lemma fills_app_inv v w m : fills (v ++ w) m -> exists m1 m2, m = m1 ++ m2 /\ fills v m1 /\ fills w m2.
Proof. intros (m1 & m2 & ? & ? & ?)%Forall2_app_inv_l. by exists m1, m2. Qed.

Lemma fills_app v w m1 m2 : fills v m1 -> fills w m2 -> fills (v ++ w) (m1 ++ m2).
Proof. apply Forall2_app. Qed.

Section Reply.
Context (G : Prop).

Definition view_ok (v : list (option Z)) (Q : list Z -> Prop) : Prop :=
  G -> forall hdr m, length hdr = sizeof_dns_hdr_t -> fills v m -> Q (hdr ++ m).

Definition cbh_ok (body : list (option Z)) (es : list (nat * list (list Z))) : Prop :=
  Forall (fun e => wf_name e.2) es /\ view_ok body (fun msg => cb_ok msg es).

Definition built (s : answer) (hdr : list Z) (body : list (option Z)) (es : list (nat * list (list Z)))
    (slack : list Z) : Prop :=
  (exists m, a_msg s = hdr ++ m ++ slack /\ fills body m) /\ length hdr = sizeof_dns_hdr_t /\
  a_sz s = sizeof_dns_hdr_t + length body /\ a_cb s = cbs es /\ cbh_ok body es.

(** The name at offset [p] of the message is [N] up to case, and takes [c] bytes. *)
Definition name_in (p : nat) (N : list (list Z)) (c : nat) (msg : list Z) : Prop :=
  exists N' h, name_at msg (length msg) p N' h c /\ name_eqi N' N /\ wf_name N' /\ h <= 255.

Definition readable (body : list (option Z)) (p : nat) (N : list (list Z)) (c : nat) : Prop :=
  view_ok body (name_in p N c).

Lemma view_ok_app v w (Q : list Z -> Prop) :
  (forall msg x, Q msg -> Q (msg ++ x)) -> view_ok v Q -> view_ok (v ++ w) Q.
Proof.
  intros Hext H g hdr m Hh Hm. apply fills_app_inv in Hm as (m1 & m2 & -> & H1 & H2). rewrite app_assoc.
  apply Hext. by apply H.
Qed.

Lemma readable_app body x p N c : readable body p N c -> readable (body ++ x) p N c.
Proof.
  apply view_ok_app. intros msg y (N' & h & Hna & ?). exists N', h. split; [|done]. by apply name_at_app.
Qed.

(** What is readable is read by [decompress_name]. *)
Lemma name_in_decompress p N c msg sz tgt :
  name_in p N c msg -> bytes msg -> c <= sz -> length tgt = DNSNAMEBUFSIZE ->
  exists N' T, name_eqi N' N /\ decompress_name msg (length msg) p sz tgt =
    Some {| dr_rc := RC_OK; dr_src := p + c; dr_sz := sz - c; dr_len := length (enc_name N'); dr_tgt := enc_name N' ++ T |}.
Proof.
  intros (N' & h & Hna & He & Hw & Hle) Hb Hc Ht.
  destruct (decompress_name_ok msg (length msg) p sz tgt N' h c) as [T ET]; try done. exists N', T. by split.
Qed.

Lemma cbh_ok_app body x es : cbh_ok body es -> cbh_ok (body ++ x) es.
Proof. intros [Hw H]. split; [done|]. revert H. apply view_ok_app. intros. by apply cb_ok_app. Qed.

Lemma bytes_compressed N k coffs : wf_name N -> (k = 0 \/ (Z.of_nat coffs <= 0x3fff)%Z) -> bytes (compressed k coffs N).
Proof.
  intros [HwN _] Hc. unfold compressed. apply Forall_app. split; [apply bytes_enc_labels, Forall_take, HwN|].
  destruct (decide (k = 0)) as [|Hk]; [repeat constructor; unfold is_byte; lia|]. destruct Hc as [|Hc]; [done|].
  destruct (ptr_roundtrip coffs Hc) as (_ & ? & ?). repeat constructor; unfold is_byte in *; lia.
Qed.

(** The bytes of a name with compression: its first labels, and then either the end or a pointer. *)
Definition name_form (N : list (list Z)) (w : list Z) : Prop := bytes w /\ exists k coffs, k <= length N /\ w = compressed k coffs N.

(** [compress_name] at the end of the reply: it can fail only when the allocation
    does, and otherwise what it writes is readable. *)
Lemma compress_at ok body es N r out :
  cbh_ok body es -> wf_name N -> length (enc_name N) <= length out ->
  exists w rl cb, compress_name ok (enc_name N ++ r) out (sizeof_dns_hdr_t + length body) (cbs es) =
      Some (rl, w ++ drop (length w) out, cb) /\ length w <= length (enc_name N) /\ name_form N w /\
    (rl = 0 /\ ok = false \/
     rl = length w /\ 0 < rl /\ exists es', cb = cbs es' /\ cbh_ok (body ++ lit w) es' /\
       readable (body ++ lit w) (sizeof_dns_hdr_t + length body) N (length w)).
Proof.
  intros Hcb HN Hout.
  destruct (compress_name_run ok es N r out (sizeof_dns_hdr_t + length body) HN (proj1 Hcb) Hout)
    as (k & coffs & Hk & Hlen & Hc & Hrun).
  set (w := compressed k coffs N) in *. cbn zeta in Hrun.
  assert (Hcr : view_ok body (fun pkt => length pkt = sizeof_dns_hdr_t + length body /\ cb_ok pkt es /\ bytes w /\
    exists S h c, name_at (pkt ++ w) (length (pkt ++ w)) (length pkt + off N k) S h c /\
      name_eqi S (suffix_of N k) /\ h <= k /\ off N k + c = length w)).
  { intros g hdr m Hh Hm. split; [by rewrite length_app, Hh, (fills_length _ _ Hm)|]. split; [by apply Hcb|].
    by apply (compressed_readable (hdr ++ m) es N k coffs (proj2 Hcb g hdr m Hh Hm) HN). }
  assert (Hbw : bytes w).
  { apply bytes_compressed; [done|]. destruct Hc as [->|[_ (n & e & _ & _ & _ & ? & _)]]; auto. }
  assert (Hw0 : 0 < length w).
  { unfold w, compressed. rewrite length_app. destruct (decide (k = 0)); cbn [length]; lia. }
  assert (Hsnoc : forall Q, view_ok body (fun pkt => Q (pkt ++ w)) -> view_ok (body ++ lit w) Q).
  { intros Q H g hdr m Hh Hm. apply fills_app_inv in Hm as (m1 & m2 & -> & H1 & H2). apply fills_lit in H2 as ->.
    rewrite app_assoc. by apply H. }
  assert (Hread : readable (body ++ lit w) (sizeof_dns_hdr_t + length body) N (length w)).
  { apply Hsnoc. intros g hdr m Hh Hm. destruct (Hcr g hdr m Hh Hm) as (Hp & _ & _ & S & h & c & Hna & HS & Hh' & Hoc). rewrite <- Hp.
    destruct (entry_readable (hdr ++ m) N k _ S h c (proj1 HN) Hk Hna HS (length N) ltac:(lia)) as (N' & Hna' & HN').
    assert (E0 : off N (length N) = 0) by (unfold off; by rewrite Nat.sub_diag).
    rewrite E0, Nat.add_0_r, Nat.sub_0_r, Hoc in Hna'. unfold suffix_of in HN'. rewrite Nat.sub_diag in HN'.
    exists N', h. split; [done|]. split; [done|]. split; [by apply (name_eqi_wf N N'); [|eapply name_at_wf|]|].
    pose proof (wf_name_labels _ HN). lia. }
  exists w, (if decide (k <> 0 /\ off N k = 0) then 2 else if ok then length w else 0),
    (if decide (k <> 0 /\ off N k = 0) then cbs es else if ok then cbs (es ++ [(sizeof_dns_hdr_t + length body, N)]) else []).
  split; [|split; [done|split; [split; [done|by exists k, coffs]|]]].
  { rewrite Hrun. by destruct (decide (k <> 0 /\ off N k = 0)), ok. }
  case_decide as Hd; [|destruct ok; [|by left]].
  - right. assert (E2 : length w = 2).
    { unfold w, compressed. rewrite decide_False, length_app by lia. destruct Hd as [_ Hd]. unfold off in Hd. by rewrite Hd. }
    splits; [done|lia|]. exists es. split; [done|]. split; [by apply cbh_ok_app|done].
  - right. splits; [done|done|]. eexists. split; [done|]. split; [|done]. split; [apply Forall_app; split; [apply Hcb|by apply Forall_singleton]|].
    apply Hsnoc. intros g hdr m Hh Hm. destruct (Hcr g hdr m Hh Hm) as (Hp & Hcb' & _ & S & h & c & Hna & HS & Hh' & Hoc). rewrite <- Hp.
    eapply cb_ok_snoc; [done|done|done| |done|done|done].
    destruct Hc as [->|[_ (n & e & ? & ? & _)]]; [by left|right; by exists n, e].
Qed.

(** ** Writing at the end *)

Lemma built_bounds s hdr body es slack :
  built s hdr body es slack -> exists m, fills body m /\ a_msg s = hdr ++ m ++ slack /\ a_sz s = length (hdr ++ m) /\
  length (a_msg s) = a_sz s + length slack /\ take (a_sz s) (a_msg s) = hdr ++ m /\ drop (a_sz s) (a_msg s) = slack.
Proof.
  intros ((m & Hm & Hf) & Hh & Hs & _). exists m.
  assert (E : a_sz s = length (hdr ++ m)) by (by rewrite length_app, Hh, (fills_length _ _ Hf)).
  splits; [done|done|done|..]; rewrite E, Hm, app_assoc, ?take_app_length, ?drop_app_length, ?length_app; done.
Qed.

Lemma built_app s hdr m body es slack v w es' :
  built s hdr body es slack -> fills body m -> fills v w -> length w <= length slack -> cbh_ok (body ++ v) es' ->
  forall s', a_msg s' = hdr ++ (m ++ w) ++ drop (length w) slack -> a_sz s' = a_sz s + length w -> a_cb s' = cbs es' ->
  built s' hdr (body ++ v) es' (drop (length w) slack).
Proof.
  intros (_ & Hh & Hs & _) Hf Hfv Hl Hcb s' Hm' Hs' Hcb'. unfold built. splits; try done.
  - exists (m ++ w). split; [done|]. by apply fills_app.
  - rewrite length_app, Hs', Hs, (fills_length _ _ Hfv). lia.
Qed.

Lemma wruns_putbytes s off l m1 m2 m3 :
  a_msg s = m1 ++ m2 ++ m3 -> off = length m1 -> length l = length m2 ->
  wruns (PUTBYTES off l) s (fun r s' => r = Some tt /\ s' = set_msg (m1 ++ l ++ m3) s).
Proof.
  intros Hm -> Hl. unfold PUTBYTES. apply wruns_bind, wruns_get, wruns_bind. eapply wruns_lift.
  { rewrite Hm. apply wr_bytes_app_mid. rewrite length_app. lia. }
  apply wruns_mod. split; [done|]. by rewrite Hl, drop_app_length.
Qed.

(** The memory alone, without the compression buffer. *)
Definition held (s : answer) (hdr : list Z) (body : list (option Z)) (slack : list Z) : Prop :=
  (exists m, a_msg s = hdr ++ m ++ slack /\ fills body m) /\ length hdr = sizeof_dns_hdr_t /\
  a_sz s = sizeof_dns_hdr_t + length body.

Lemma built_held s hdr body es slack : built s hdr body es slack -> held s hdr body slack.
Proof. intros (? & ? & ? & _). by unfold held. Qed.

Lemma held_built s hdr body es slack : held s hdr body slack -> a_cb s = cbs es -> cbh_ok body es -> built s hdr body es slack.
Proof. intros (? & ? & ?) ? ?. unfold built. by splits. Qed.

Lemma wruns_append_held s hdr body slack l :
  held s hdr body slack -> length l <= length slack ->
  wruns (append l) s (fun r s' => r = Some tt /\ wframe s s' /\ a_cb s' = a_cb s /\ held s' hdr (body ++ lit l) (drop (length l) slack)).
Proof.
  intros ((m & Hm & Hf) & Hh & Hs) Hl.
  assert (Esz : a_sz s = length (hdr ++ m)) by (by rewrite length_app, Hh, (fills_length _ _ Hf)).
  unfold append. apply wruns_bind, wruns_get, wruns_bind.
  eapply wruns_weaken; [apply (wruns_putbytes s (a_sz s) l (hdr ++ m) (take (length l) slack) (drop (length l) slack))|].
  - by rewrite take_drop, <- app_assoc.
  - done.
  - rewrite length_take. lia.
  - cbn beta. intros ? ? [-> ->]. apply wruns_mod. splits; [done|frame_done|done|]. unfold held. cbn [a_msg a_sz set_sz set_msg]. splits.
    + exists (m ++ l). split; [by rewrite <- !app_assoc|]. apply fills_app; [done|by apply fills_lit].
    + done.
    + rewrite length_app, length_lit. lia.
Qed.

Lemma wruns_append s hdr body es slack l :
  built s hdr body es slack -> length l <= length slack ->
  wruns (append l) s (fun r s' => r = Some tt /\ wframe s s' /\ built s' hdr (body ++ lit l) es (drop (length l) slack)).
Proof.
  intros Hb Hl. pose proof Hb as (_ & _ & _ & Hcb & Hok).
  eapply wruns_weaken; [by apply (wruns_append_held s hdr body slack l); [eapply built_held|]|]. cbn beta.
  intros r s' (-> & Hf & Hcb' & Hh). splits; [done|done|]. apply held_built; [done|congruence|by apply cbh_ok_app].
Qed.

Lemma wruns_put_name s hdr body es slack N r :
  built s hdr body es slack -> wf_name N -> length (enc_name N) <= length slack ->
  wruns (put_name (enc_name N ++ r)) s (fun res s' => wframe s s' /\
    match res with
    | None => ~ plenty (a_cache s)
    | Some rl => exists w es', rl = length w /\ length w <= length (enc_name N) /\
        built s' hdr (body ++ lit w) es' (drop (length w) slack) /\ name_form N w /\
        readable (body ++ lit w) (sizeof_dns_hdr_t + length body) N (length w)
    end).
Proof.
  intros Hb HN Hl. destruct (built_bounds _ _ _ _ _ Hb) as (m & Hf & Hm & Esz & Elen & Etake & Edrop).
  pose proof Hb as (_ & _ & Hsz & Hcb & Hok). unfold put_name. apply wruns_bind, wruns_get, wruns_bind, wruns_malloc.
  intros ok c Hc Hp.
  destruct (compress_at ok body es N r slack Hok HN Hl) as (w & rl & cb & Hrun & Hlw & Hbw & Hres).
  apply wruns_bind. eapply wruns_lift.
  { rewrite decide_True by lia. rewrite Edrop, Hcb, Hsz. exact Hrun. }
  apply wruns_bind, wruns_mod. cbn [a_msg a_sz set_cache].
  assert (Hfr : forall m0 z cb', wframe s (set_sz z (set_cb cb' (set_msg m0 (set_cache c s))))).
  { intros m0 z cb'. unfold wframe. cbn. splits; [done..|]. intros H. by apply Hp. }
  destruct Hres as [[-> ->]|(-> & H0 & es' & -> & Hok' & Hrd)].
  - apply wruns_giveup. split; [eapply wframe_trans; [apply (Hfr (a_msg s) (a_sz s) [])|frame_done]|]. intros H. by destruct (Hp H).
  - bool_false (length w =? 0). apply wruns_bind, wruns_mod, wruns_ret. split; [apply Hfr|]. exists w, es'.
    splits; [done|done| |done|done]. eapply built_app; [done|done|by apply fills_lit|lia|done|cbn|done|done].
    by rewrite Etake, <- !app_assoc.
Qed.

(** ** Record data

    A record is a sequence of literal parts and names, the latter compressed. *)

Inductive piece := Lit (l : list Z) | Nm (N : list (list Z)).

Definition piece_bytes (p : piece) : list Z := match p with Lit l => l | Nm N => enc_name N end.
Definition flat (ps : list piece) : list Z := concat (map piece_bytes ps).

Definition piece_ok (p : piece) : Prop := match p with Lit l => bytes l | Nm N => wf_name N end.

(** The bytes [wd] at offset [p] of the message stand for the pieces. *)
Inductive pieces_at (body : list (option Z)) : nat -> list piece -> list Z -> Prop :=
  | pa_nil p : pieces_at body p [] []
  | pa_lit p l ps wd : pieces_at body (p + length l) ps wd -> pieces_at body p (Lit l :: ps) (l ++ wd)
  | pa_nm p N ps w wd :
      readable body p N (length w) -> pieces_at body (p + length w) ps wd -> pieces_at body p (Nm N :: ps) (w ++ wd).

Lemma pieces_at_app body x p ps wd : pieces_at body p ps wd -> pieces_at (body ++ x) p ps wd.
Proof. induction 1; constructor; auto using readable_app. Qed.

Lemma pieces_at_join body p ps qs wd wd' :
  pieces_at body p ps wd -> pieces_at body (p + length wd) qs wd' -> pieces_at body p (ps ++ qs) (wd ++ wd').
Proof.
  induction 1 as [p|p l ps wd _ IH|p N ps w wd Hr _ IH]; intros Hq; cbn [app length] in *.
  - by rewrite Nat.add_0_r in Hq.
  - rewrite <- app_assoc. constructor. apply IH. by rewrite length_app, Nat.add_assoc in Hq.
  - rewrite <- app_assoc. constructor; [done|]. apply IH. by rewrite length_app, Nat.add_assoc in Hq.
Qed.

(** The pieces [ps] have been written behind [body], as the bytes [wd]. *)
Definition wrote (s0 s : answer) (hdr : list Z) (body : list (option Z)) (slack : list Z) (ps : list piece) (wd : list Z) : Prop :=
  wframe s0 s /\ bytes wd /\ length wd <= length (flat ps) /\
  pieces_at (body ++ lit wd) (sizeof_dns_hdr_t + length body) ps wd /\
  exists es, built s hdr (body ++ lit wd) es (drop (length wd) slack).

Lemma wrote_nil s hdr body es slack : built s hdr body es slack -> wrote s s hdr body slack [] [].
Proof.
  intros H. unfold wrote, lit. cbn [fmap list_fmap]. rewrite app_nil_r. splits; [apply wframe_refl|constructor|cbn; lia|constructor|]. by exists es.
Qed.

Lemma flat_snoc ps p : flat (ps ++ [p]) = flat ps ++ piece_bytes p.
Proof. unfold flat. rewrite map_app, concat_app. cbn. by rewrite app_nil_r. Qed.

(** Appending one piece. *)
Lemma wrote_snoc s0 s1 s2 hdr body slack ps wd p w es :
  wrote s0 s1 hdr body slack ps wd -> wframe s1 s2 -> bytes w -> length w <= length (piece_bytes p) ->
  pieces_at (body ++ lit wd ++ lit w) (sizeof_dns_hdr_t + length (body ++ lit wd)) [p] w ->
  built s2 hdr ((body ++ lit wd) ++ lit w) es (drop (length w) (drop (length wd) slack)) ->
  wrote s0 s2 hdr body slack (ps ++ [p]) (wd ++ w).
Proof.
  intros (Hf & Hbw & Hl & Hpa & _) Hf2 Hb2 Hl2 Hp Hbu. unfold wrote. splits.
  - by eapply wframe_trans.
  - by apply Forall_app.
  - rewrite flat_snoc, !length_app. lia.
  - rewrite length_app, length_lit, Nat.add_assoc in Hp. unfold lit in *. rewrite fmap_app.
    apply pieces_at_join; [|done]. rewrite app_assoc. by apply pieces_at_app.
  - exists es. unfold lit in *. by rewrite fmap_app, app_assoc, length_app, <- drop_drop.
Qed.

Section Pieces.
Context (s0 : answer) (hdr slack : list Z) (body : list (option Z)).

Lemma wrote_append s ps wd l :
  wrote s0 s hdr body slack ps wd -> bytes l -> length (flat (ps ++ [Lit l])) <= length slack ->
  wruns (append l) s (fun r s' => r = Some tt /\ wrote s0 s' hdr body slack (ps ++ [Lit l]) (wd ++ l)).
Proof.
  intros Hw Hb Hl. pose proof Hw as (_ & _ & Hlen & _ & es & Hbu). rewrite flat_snoc, length_app in Hl. cbn [piece_bytes] in Hl.
  eapply wruns_weaken; [apply (wruns_append s hdr _ _ _ l Hbu); rewrite length_drop; lia|]. cbn beta.
  intros r s' (-> & Hf & Hbu'). split; [done|]. eapply wrote_snoc; try done.
  pose proof (pa_lit (body ++ lit wd ++ lit l) (sizeof_dns_hdr_t + length (body ++ lit wd)) l [] []) as H.
  rewrite app_nil_r in H. apply H. constructor.
Qed.

Lemma wrote_name s ps wd N r :
  wrote s0 s hdr body slack ps wd -> wf_name N -> length (flat (ps ++ [Nm N])) <= length slack ->
  wruns (put_name (enc_name N ++ r)) s (fun res s' =>
    match res with
    | None => wframe s0 s' /\ ~ plenty (a_cache s0)
    | Some rl => exists w, rl = length w /\ length w <= length (enc_name N) /\
        wrote s0 s' hdr body slack (ps ++ [Nm N]) (wd ++ w)
    end).
Proof.
  intros Hw HN Hl. pose proof Hw as (Hf0 & _ & Hlen & _ & es & Hbu). rewrite flat_snoc, length_app in Hl. cbn [piece_bytes] in Hl.
  eapply wruns_weaken; [apply (wruns_put_name s hdr _ _ _ N r Hbu HN); rewrite length_drop; lia|]. cbn beta.
  intros res s' (Hf & H). destruct res as [rl|]; [|split; eauto with pdnsd].
  destruct H as (w & es' & -> & Hle & Hbu' & Hbw0 & Hr). pose proof (proj1 Hbw0) as Hbw. exists w. splits; [done|done|].
  eapply wrote_snoc; try done.
  pose proof (pa_nm (body ++ lit wd ++ lit w) (sizeof_dns_hdr_t + length (body ++ lit wd)) N [] w []) as H.
  rewrite app_nil_r in H. apply H; [by rewrite app_assoc|constructor].
Qed.
End Pieces.

(** *** The layout of record data by type *)

Definition char_string (l : list Z) : list Z := Z.of_nat (length l) :: l.

Definition layout (type : Z) (ps : list piece) : Prop :=
  if in_types type [T_CNAME; T_MB; T_MD; T_MF; T_MG; T_MR; T_NS; T_PTR] then exists N, ps = [Nm N]
  else if in_types type [T_MINFO; T_RP] then exists N N', ps = [Nm N; Nm N']
  else if in_types type [T_MX; T_AFSDB; T_RT; T_KX] then exists l N, length l = 2 /\ ps = [Lit l; Nm N]
  else if in_types type [T_SOA] then exists N N' l, length l = 20 /\ ps = [Nm N; Nm N'; Lit l]
  else if in_types type [T_PX] then exists l N N', length l = 2 /\ ps = [Lit l; Nm N; Nm N']
  else if in_types type [T_SRV] then exists l N, length l = 6 /\ ps = [Lit l; Nm N]
  else if in_types type [T_NXT] then exists N l, ps = [Nm N; Lit l]
  else if in_types type [T_NAPTR] then
    exists l c1 c2 c3 N, length l = 4 /\ ps = [Lit (l ++ char_string c1 ++ char_string c2 ++ char_string c3); Nm N]
  else if in_types type [T_A] then exists l, length l = 4 /\ ps = [Lit l]
  else if in_types type [T_AAAA] then exists l, length l = 16 /\ ps = [Lit l]
  else exists l, ps = [Lit l].

Lemma rd_bytes_front l r : rd_bytes (l ++ r) 0 (length l) = Some l.
Proof. exact (rd_bytes_app [] l r). Qed.

Lemma naptr_string data pre c rest n :
  data = pre ++ char_string c ++ rest -> 0 < length rest ->
  naptr_strings (S n) data (length pre) = naptr_strings n data (length (pre ++ char_string c)).
Proof.
  intros -> Hr. cbn [naptr_strings].
  assert (E : rd (pre ++ char_string c ++ rest) (length pre) = Some (Z.of_nat (length c))) by apply rd_app_mid.
  rewrite E. sbind. rewrite Nat2Z.id.
  replace (length pre + length c + 1) with (length (pre ++ char_string c)) by (rewrite length_app; cbn; lia).
  assert (H : length (pre ++ char_string c) < length (pre ++ char_string c ++ rest)) by (rewrite !length_app; lia).
  apply Nat.ltb_lt in H. by rewrite H.
Qed.

Lemma naptr_strings_spec l c1 c2 c3 rest :
  length l = 4 -> 0 < length rest ->
  naptr_strings 3 ((l ++ char_string c1 ++ char_string c2 ++ char_string c3) ++ rest) 4 =
  Some (length (l ++ char_string c1 ++ char_string c2 ++ char_string c3)).
Proof.
  intros Hl Hr. rewrite <- Hl. set (data := _ ++ rest).
  rewrite (naptr_string data l c1 (char_string c2 ++ char_string c3 ++ rest)) by
    (unfold data; rewrite <- ?app_assoc, ?length_app; first [done | cbn; lia]).
  rewrite (naptr_string data (l ++ char_string c1) c2 (char_string c3 ++ rest)) by
    (unfold data; rewrite <- ?app_assoc, ?length_app; first [done | cbn; lia]).
  rewrite (naptr_string data ((l ++ char_string c1) ++ char_string c2) c3 rest) by
    (unfold data; rewrite <- ?app_assoc, ?length_app; first [done | cbn; lia]).
  cbn [naptr_strings]. by rewrite <- !app_assoc.
Qed.

Lemma wf_name_forall N : wf_name N -> Forall wf_label N.
Proof. by intros [H _]. Qed.

Lemma enc_name_pos N : 0 < length (enc_name N).
Proof. rewrite length_enc_name. lia. Qed.

Definition rdata_post (s0 : answer) (hdr : list Z) (body : list (option Z)) (slack : list Z) (ps : list piece) (r : option nat) (s' : answer) : Prop :=
  match r with
  | None => wframe s0 s' /\ ~ plenty (a_cache s0)
  | Some n => exists wd, n = length wd /\ wrote s0 s' hdr body slack ps wd
  end.

Section Rdata.
Context (s0 : answer) (hdr slack : list Z) (body : list (option Z)) (es : list (nat * list (list Z))).

(** A name and whatever comes after it; giving up ends everything. *)
Lemma step_name {A} s ps wd N r (k : nat -> W A) (Q : option A -> answer -> Prop) :
  wrote s0 s hdr body slack ps wd -> wf_name N -> length (flat (ps ++ [Nm N])) <= length slack ->
  (forall w s', length w <= length (enc_name N) -> wrote s0 s' hdr body slack (ps ++ [Nm N]) (wd ++ w) -> wruns (k (length w)) s' Q) ->
  (forall s', wframe s0 s' -> ~ plenty (a_cache s0) -> Q None s') ->
  wruns (n ← put_name (enc_name N ++ r); k n) s Q.
Proof.
  intros Hw HN Hl Hk Hn. apply wruns_bind. eapply wruns_weaken; [by eapply wrote_name|]. cbn beta.
  intros [n|] s' H; [|by destruct H; apply Hn]. destruct H as (w & -> & Hle & Hw'). by apply Hk.
Qed.

Lemma step_lit {A} s ps wd l (k : unit -> W A) (Q : option A -> answer -> Prop) :
  wrote s0 s hdr body slack ps wd -> bytes l -> length (flat (ps ++ [Lit l])) <= length slack ->
  (forall s', wrote s0 s' hdr body slack (ps ++ [Lit l]) (wd ++ l) -> wruns (k tt) s' Q) ->
  wruns (u ← append l; k u) s Q.
Proof.
  intros Hw Hb Hl Hk. apply wruns_bind. eapply wruns_weaken; [by eapply wrote_append|]. cbn beta.
  intros r s' [-> H]. by apply Hk.
Qed.

Lemma step_lift {A B} (o : option A) a (k : A -> W B) s Q : o = Some a -> wruns (k a) s Q -> wruns (x ← liftW o; k x) s Q.
Proof. intros E H. apply wruns_bind. by eapply wruns_lift. Qed.

Lemma step_assert {B} b (k : unit -> W B) s Q : b = true -> wruns (k tt) s Q -> wruns (x ← assertW b; k x) s Q.
Proof. intros E H. apply wruns_bind. by apply wruns_assert. Qed.

Lemma rdata_done s ps wd n :
  wrote s0 s hdr body slack ps wd -> n = length wd -> wruns (mret n) s (rdata_post s0 hdr body slack ps).
Proof. intros H ->. apply wruns_ret. by exists wd. Qed.

(** One step of [add_rdata]. *)
Ltac len := cbn [app flat map concat piece_bytes length] in *; rewrite ?length_app, ?app_nil_r in *; cbn [length] in *; lia.
Ltac rstep :=
  lazymatch goal with
  | |- wruns (mbind _ (put_name _)) _ _ =>
      eapply step_name; [eassumption|assumption|len| | by intros; split]; let w := fresh "w" in intros w ? ? ?; cbn [app] in *
  | |- wruns (mbind _ (append _)) _ _ =>
      eapply step_lit; [eassumption|assumption|len|]; intros ? ?; cbn [app] in *
  | |- wruns (mbind _ (assertW _)) _ _ => apply step_assert; [first [apply Nat.leb_le|apply Nat.ltb_lt]; len|]
  | |- wruns (mbind _ (liftW (rhnlen _))) _ _ => eapply step_lift; [apply rhnlen_enc; apply wf_name_forall; assumption|]
  | |- wruns (mbind _ (liftW (adv _ _))) _ _ => eapply step_lift; [apply adv_app|]
  | |- wruns (mbind _ (liftW (rd_bytes _ _ _))) _ _ => eapply step_lift; [apply rd_bytes_front|]
  | |- wruns (mret _) _ _ => eapply rdata_done; [eassumption|len]
  end.

(** Data of a given layout. *)
Ltac case_layout Hlay Hok :=
  repeat match type of Hlay with ex _ => destruct Hlay as [? Hlay] | _ /\ _ => destruct Hlay as [? Hlay] end; subst;
  repeat (apply Forall_cons in Hok as [? Hok]); cbn [piece_ok] in *;
  unfold flat in *; cbn [map concat piece_bytes] in *.

Lemma wruns_rdata type ps :
  built s0 hdr body es slack -> layout type ps -> Forall piece_ok ps -> length (flat ps) <= length slack ->
  wruns (add_rdata type (flat ps)) s0 (rdata_post s0 hdr body slack ps).
Proof.
  intros Hb Hlay Hok Hl. pose proof (wrote_nil _ _ _ _ _ Hb) as Hw0. unfold add_rdata, layout in *. cbv zeta.
  destruct (in_types type [T_CNAME; T_MB; T_MD; T_MF; T_MG; T_MR; T_NS; T_PTR]); [case_layout Hlay Hok; repeat rstep|].
  destruct (in_types type [T_MINFO; T_RP]); [case_layout Hlay Hok; repeat rstep|].
  destruct (in_types type [T_MX; T_AFSDB; T_RT; T_KX]).
  { case_layout Hlay Hok. pose proof (enc_name_pos x0). rewrite <- H. repeat rstep. }
  destruct (in_types type [T_SOA]).
  { case_layout Hlay Hok. repeat rstep. eapply step_lift.
    { rewrite <- H, <- length_app, (app_assoc (enc_name _)). apply rd_bytes_app. }
    repeat rstep. }
  destruct (in_types type [T_PX]).
  { case_layout Hlay Hok. pose proof (enc_name_pos x0). rewrite <- H. repeat rstep. eapply step_lift.
    { rewrite <- length_app, app_assoc. apply adv_app. }
    repeat rstep. }
  destruct (in_types type [T_SRV]).
  { case_layout Hlay Hok. pose proof (enc_name_pos x0). rewrite <- H. repeat rstep. }
  destruct (in_types type [T_NXT]).
  { case_layout Hlay Hok. repeat rstep. rewrite length_app, app_nil_r.
    destruct (length (enc_name x) <? length (enc_name x) + length x0) eqn:E; boolp.
    - replace (length (enc_name x) + length x0 - length (enc_name x)) with (length x0) by lia. eapply step_lift.
      { pose proof (rd_bytes_app (enc_name x) x0 []) as E'. rewrite app_nil_r in E'. exact E'. }
      repeat rstep.
    - assert (x0 = []) as -> by (apply nil_length_inv; lia).
      eapply wruns_ret. exists w. split; [done|]. match goal with H : wrote _ _ _ _ _ [Nm x] w |- _ => destruct H as (? & ? & ? & Hpa & ?) end. unfold wrote. splits; try done.
      + rewrite <- (app_nil_r w) at 2. apply (pieces_at_join _ _ [Nm x] [Lit []]); [done|].
        apply (pa_lit _ _ [] [] []). constructor. }
  destruct (in_types type [T_NAPTR]).
  { case_layout Hlay Hok. pose proof (enc_name_pos x3). rstep.
    eapply step_lift; [apply naptr_strings_spec; [done|rewrite app_nil_r; lia]|]. repeat rstep. }
  destruct (in_types type [T_A]); [case_layout Hlay Hok; rewrite app_nil_r in *; rstep; rstep|].
  destruct (in_types type [T_AAAA]); [case_layout Hlay Hok; rewrite app_nil_r in *; rstep; rstep|].
  case_layout Hlay Hok. rewrite app_nil_r in *. rstep. rstep.
Qed.
End Rdata.

(** ** One record *)

Lemma chunked_ge n : n <= chunked n.
Proof.
  unfold chunked. change ALLOCCHUNKSIZEMASK with (Z.ones 7). rewrite Z.ldiff_ones_r by lia.
  rewrite Z.shiftl_mul_pow2, Z.shiftr_div_pow2 by lia. change (Z.ones 7) with 127%Z. change (2 ^ 7)%Z with 128%Z.
  pose proof (Z.mod_pos_bound (Z.of_nat n + 127) 128 ltac:(lia)).
  pose proof (Z.div_mod (Z.of_nat n + 127) 128 ltac:(lia)). lia.
Qed.

Lemma wruns_reserve s newsz :
  wruns (reserve newsz) s (fun r s' => wframe s s' /\
    match r with
    | None => ~ plenty (a_cache s)
    | Some _ => (exists x, a_msg s' = a_msg s ++ x) /\ newsz <= allocsz s' /\ a_sz s' = a_sz s /\ a_cb s' = a_cb s
    end).
Proof.
  unfold reserve. apply wruns_bind, wruns_get. destruct (allocsz s <? newsz) eqn:E; boolp.
  - apply wruns_bind, wruns_malloc. intros b c Hc Hp.
    assert (Hfr : forall m, wframe s (set_msg m (set_cache c s))).
    { intros m. unfold wframe. cbn. splits; [done..|]. intros H. by apply Hp. }
    destruct b.
    + apply wruns_mod. split; [apply Hfr|]. splits; [cbn; by eexists| |done|done].
      pose proof (chunked_ge newsz). unfold allocsz in *. cbn. rewrite length_app, length_replicate. lia.
    + apply wruns_giveup. split; [|intros H; by destruct (Hp H)].
      eapply wframe_trans; [apply (Hfr (a_msg s))|frame_done].
  - apply wruns_ret. splits; [apply wframe_refl| |done|done|done]. exists []. by rewrite app_nil_r.
Qed.

(** The header with one of its counts incremented. *)
Definition count16 (hdr : list Z) (f : nat) : Z := default 0%Z (GETINT16 hdr f).
Definition bump (f : nat) (hdr : list Z) : list Z := take f hdr ++ put16 (count16 hdr f + 1) ++ drop (f + 2) hdr.

Lemma length_bump f hdr : f + 2 <= length hdr -> length (bump f hdr) = length hdr.
Proof. intros H. unfold bump. rewrite !length_app, length_take, length_drop. cbn [length put16]. lia. Qed.

Lemma get16_app hdr x f : f + 2 <= length hdr -> GETINT16 (hdr ++ x) f = GETINT16 hdr f.
Proof.
  intros H. unfold GETINT16, rd. rewrite !lookup_app_l by lia. done.
Qed.

Lemma get16_some hdr f : f + 2 <= length hdr -> GETINT16 hdr f = Some (count16 hdr f).
Proof.
  intros H. unfold count16, GETINT16. destruct (rd_lt hdr f ltac:(lia)) as [a Ha]. destruct (rd_lt hdr (f + 1) ltac:(lia)) as [b Hb].
  by rewrite Ha, Hb.
Qed.

Lemma lor_shift8 a b : is_byte b -> Z.lor (Z.shiftl a 8) b = (a * 256 + b)%Z.
Proof.
  intros Hb. assert (E : Z.land (Z.shiftl a 8) b = 0%Z).
  { apply Z.bits_inj_0. intros n. rewrite Z.land_spec. destruct (Z.lt_ge_cases n 8) as [Hn|Hn].
    - destruct (Z.lt_ge_cases n 0); [by rewrite Z.testbit_neg_r|]. by rewrite Z.shiftl_spec_low.
    - apply andb_false_iff. right. destruct (decide (b = 0%Z)) as [->|H0]; [apply Z.bits_0|].
      apply Z.bits_above_log2; [apply Hb|]. apply Z.log2_lt_pow2; [unfold is_byte in Hb; lia|].
      apply Z.lt_le_trans with (2 ^ 8)%Z; [apply Hb|]. by apply Z.pow_le_mono_r. }
  rewrite <- Z.lxor_lor, <- Z.add_nocarry_lxor by done. rewrite Z.shiftl_mul_pow2 by lia. done.
Qed.

Lemma get16_put16 x pre post : GETINT16 (pre ++ put16 x ++ post) (length pre) = Some (u16 x).
Proof.
  unfold GETINT16, put16. cbn [app]. rewrite rd_app_mid. sbind.
  rewrite snoc_assoc, <- (length_snoc pre (u8 (x / 2 ^ 8))), rd_app_mid. sbind. f_equal.
  rewrite lor_shift8 by apply u8_byte. unfold u8, u16. change (2 ^ 8)%Z with 256%Z. change (2 ^ 16)%Z with (256 * 256)%Z.
  rewrite (Z.rem_mul_r x 256 256) by lia. lia.
Qed.

Lemma wruns_add_count s hdr rest f :
  a_msg s = hdr ++ rest -> f + 2 <= length hdr ->
  wruns (add_count f 1) s (fun r s' => r = Some tt /\ s' = set_msg (bump f hdr ++ rest) s).
Proof.
  intros Hm Hf. unfold add_count. apply wruns_bind, wruns_get, wruns_bind. eapply wruns_lift.
  { rewrite Hm, get16_app by done. by apply get16_some. }
  eapply wruns_weaken; [apply (wruns_putbytes s f _ (take f hdr) (take 2 (drop f hdr)) (drop (f + 2) hdr ++ rest))|].
  - rewrite Hm, <- drop_drop, (app_assoc (take 2 _)), take_drop, app_assoc, take_drop. done.
  - rewrite length_take. lia.
  - rewrite length_take, length_drop. cbn [length put16]. lia.
  - cbn beta. intros ? ? [-> ->]. split; [done|]. unfold bump. by rewrite <- !app_assoc.
Qed.

(** Space for the record header, to be filled in later. *)
Definition holes (n : nat) : list (option Z) := replicate n None.

Lemma fills_holes n m : length m = n -> fills (holes n) m.
Proof. intros <-. unfold fills, holes. induction m; cbn; constructor; done. Qed.

Lemma cbh_ok_refine v v' es : (forall m, fills v' m -> fills v m) -> cbh_ok v es -> cbh_ok v' es.
Proof. intros Hf [Hw H]. split; [done|]. intros g hdr m Hh Hm. apply H; auto. Qed.

Lemma readable_refine v v' p N c : (forall m, fills v' m -> fills v m) -> readable v p N c -> readable v' p N c.
Proof. intros Hf H g hdr m Hh Hm. apply H; auto. Qed.

Lemma pieces_at_refine v v' p ps wd : (forall m, fills v' m -> fills v m) -> pieces_at v p ps wd -> pieces_at v' p ps wd.
Proof. intros Hf. induction 1; constructor; eauto using readable_refine. Qed.

Definition rr_header (type ttl rdlen : Z) : list Z := put16 type ++ put16 C_IN ++ put32 ttl ++ put16 rdlen.

(** The record as it stands in the message. *)
Definition rr_bytes (type ttl : Z) (wn wd : list Z) : list Z := wn ++ rr_header type ttl (Z.of_nat (length wd)) ++ wd.

(** The four stores of the record header amount to one. *)
Lemma wruns_put_header {A} s p type ttl rdlen m1 m2 m3 (k : W A) Q :
  a_msg s = m1 ++ m2 ++ m3 -> p = length m1 -> length m2 = sizeof_rr_hdr_t ->
  wruns k (set_msg (m1 ++ rr_header type ttl rdlen ++ m3) s) Q ->
  wruns (_ ← PUTBYTES p (put16 type); _ ← PUTBYTES (p + 2) (put16 C_IN); _ ← PUTBYTES (p + 4) (put32 ttl);
         _ ← PUTBYTES (p + 8) (put16 rdlen); k) s Q.
Proof.
  intros Hm -> Hl Hk. do 11 (destruct m2 as [|? m2]; try discriminate Hl). clear Hl. unfold rr_header in Hk.
  apply wruns_bind. eapply wruns_weaken; [eapply (wruns_putbytes _ _ _ m1 [_;_]); [rewrite Hm|..]; reflexivity|].
  cbn beta. intros ? ? [-> ->]. apply wruns_bind.
  eapply wruns_weaken; [eapply (wruns_putbytes _ _ _ (m1 ++ put16 type) [_;_]); [cbn [a_msg set_msg]; rewrite <- app_assoc; reflexivity|by rewrite length_app|reflexivity]|].
  cbn beta. intros ? ? [-> ->]. apply wruns_bind.
  eapply wruns_weaken; [eapply (wruns_putbytes _ _ _ (m1 ++ put16 type ++ put16 C_IN) [_;_;_;_]); [cbn [a_msg set_msg]; rewrite <- !app_assoc; reflexivity|by rewrite !length_app|reflexivity]|].
  cbn beta. intros ? ? [-> ->]. apply wruns_bind.
  eapply wruns_weaken; [eapply (wruns_putbytes _ _ _ (m1 ++ put16 type ++ put16 C_IN ++ put32 ttl) [_;_]); [cbn [a_msg set_msg]; rewrite <- !app_assoc; reflexivity|by rewrite !length_app|reflexivity]|].
  cbn beta. intros ? ? [-> ->]. cbn [set_msg a_msg] in *. rewrite <- !app_assoc in *. exact Hk.
Qed.

(** What [add_rr] does: it appends the record, or, an additional record that would
    make a UDP answer too long, leaves the message as it was. *)
Definition rr_post (s : answer) (hdr b : list Z) (N : list (list Z)) (type ttl : Z) (ps : list piece) (section : Z)
    (udp : option nat) (r : option unit) (s' : answer) : Prop :=
  wframe s s' /\
  match r with
  | None => ~ plenty (a_cache s)
  | Some _ => exists wn wd, let b' := b ++ rr_bytes type ttl wn wd in
      name_form N wn /\ bytes wd /\ length wd <= length (flat ps) /\
      readable (lit b') (sizeof_dns_hdr_t + length b) N (length wn) /\
      pieces_at (lit b') (sizeof_dns_hdr_t + length b + length wn + sizeof_rr_hdr_t) ps wd /\
      if too_long udp (sizeof_dns_hdr_t + length b') section
      then a_sz s' = a_sz s /\ take (a_sz s') (a_msg s') = hdr ++ b /\ exists es', a_cb s' = cbs es' /\ cbh_ok (lit b') es'
      else exists es' slack', built s' (bump (count_of section) hdr) (lit b') es' slack'
  end.

Lemma fills_header_hole b wn type ttl wd m :
  fills (lit (b ++ rr_bytes type ttl wn wd)) m -> fills (((lit b ++ lit wn) ++ holes sizeof_rr_hdr_t) ++ lit wd) m.
Proof.
  intros H. apply fills_lit in H as ->. unfold rr_bytes. rewrite (app_assoc b), (app_assoc (b ++ wn)).
  unfold lit. rewrite <- fmap_app. repeat apply fills_app; [by apply fills_lit|by apply fills_holes|by apply fills_lit].
Qed.

Lemma length_rr_bytes type ttl wn wd : length (rr_bytes type ttl wn wd) = length wn + sizeof_rr_hdr_t + length wd.
Proof. unfold rr_bytes. rewrite !length_app. unfold sizeof_rr_hdr_t. cbn [length rr_header put16 put32 app]. lia. Qed.

(** The name of the record, the space for the header, and the data. *)
Definition put_rr_post (s : answer) (hdr b : list Z) (N : list (list Z)) (ps : list piece) (r : option (nat * nat)) (s' : answer) : Prop :=
  wframe s s' /\
  match r with
  | None => ~ plenty (a_cache s)
  | Some (rrht, rdlen) => exists wn wd es' slack', rrht = a_sz s + length wn /\ rdlen = length wd /\
      name_form N wn /\ bytes wd /\ length wd <= length (flat ps) /\
      readable (lit b ++ lit wn) (sizeof_dns_hdr_t + length b) N (length wn) /\
      pieces_at (((lit b ++ lit wn) ++ holes sizeof_rr_hdr_t) ++ lit wd)
        (sizeof_dns_hdr_t + length b + length wn + sizeof_rr_hdr_t) ps wd /\
      built s' hdr (((lit b ++ lit wn) ++ holes sizeof_rr_hdr_t) ++ lit wd) es' slack'
  end.

Lemma wruns_put_rr s hdr b es slack N r type ps :
  built s hdr (lit b) es slack -> wf_name N -> layout type ps -> Forall piece_ok ps ->
  wruns (put_rr (enc_name N ++ r) type (flat ps)) s (put_rr_post s hdr b N ps).
Proof.
  intros Hb HN Hlay Hps. unfold put_rr. apply wruns_bind, wruns_get. pose proof Hb as (_ & Hh & Hsz & Hcb & Hok). rewrite length_lit in Hsz.
  destruct (built_bounds _ _ _ _ _ Hb) as (m & Hf & Hm & _). apply fills_lit in Hf as ->.
  apply wruns_bind, wruns_malloc. intros ok c Hc Hp.
  destruct (compress_at ok (lit b) es N r (replicate DNSNAMEBUFSIZE 0%Z) Hok HN) as (wn & rl & cb & Hrun & Hlw & Hbw & Hres).
  { rewrite length_replicate. apply HN. }
  rewrite length_lit in *. apply wruns_bind. eapply wruns_lift; [by rewrite Hcb, Hsz|]. apply wruns_bind, wruns_mod.
  assert (Hfr : wframe s (set_cb cb (set_cache c s))).
  { unfold wframe. cbn. splits; [done..|]. intros H. by apply Hp. }
  destruct Hres as [[-> ->]|(-> & H0 & es' & -> & Hok' & Hrd)].
  { apply wruns_giveup. split; [done|]. intros H. by destruct (Hp H). }
  bool_false (length wn =? 0). set (s1 := set_cb (cbs es') (set_cache c s)) in *.
  apply wruns_bind. eapply wruns_weaken; [apply wruns_reserve|]. cbn beta. intros [u|] s2 [Hfr2 H2]; [|split; eauto with pdnsd].
  destruct H2 as ((x & Hx) & Hal & Hsz2 & Hcb2). change (a_msg s1) with (a_msg s) in Hx. change (a_sz s1) with (a_sz s) in Hsz2.
  change (a_cb s1) with (cbs es') in Hcb2.
  apply step_lift with wn; [apply rd_bytes_front|].
  assert (Hh2 : held s2 hdr (lit b) (slack ++ x)).
  { unfold held. splits; [exists b; split; [by rewrite Hx, Hm, <- !app_assoc|by apply fills_lit]|done|by rewrite Hsz2, Hsz, length_lit]. }
  assert (Hroom : length wn + sizeof_rr_hdr_t + length (flat ps) <= length (slack ++ x)).
  { unfold allocsz in Hal. rewrite Hx, Hm, <- app_assoc, !length_app, Hh in Hal. rewrite length_app. lia. }
  apply wruns_bind. eapply wruns_weaken; [apply (wruns_append_held _ _ _ _ wn Hh2); lia|]. cbn beta.
  intros ? s3 (-> & Hfr3 & Hcb3 & Hh3). apply wruns_bind, wruns_get. cbv zeta. apply wruns_bind, wruns_mod.
  set (s4 := set_sz (a_sz s3 + sizeof_rr_hdr_t) s3). set (slack3 := drop (length wn) (slack ++ x)) in *.
  assert (Hl3 : length slack3 = length (slack ++ x) - length wn) by apply length_drop.
  assert (Hb4 : built s4 hdr ((lit b ++ lit wn) ++ holes sizeof_rr_hdr_t) es' (drop sizeof_rr_hdr_t slack3)).
  { destruct Hh3 as ((m3 & Hm3 & Hf3) & _ & Hs3). unfold built. splits; [|done| |cbn; by rewrite Hcb3, Hcb2|by apply cbh_ok_app].
    - exists (m3 ++ take sizeof_rr_hdr_t slack3). cbn [a_msg set_sz s4]. split; [by rewrite <- app_assoc, take_drop|].
      apply fills_app; [done|]. apply fills_holes. rewrite length_take. lia.
    - cbn [a_sz set_sz s4]. unfold s4. cbn [a_sz set_sz]. rewrite Hs3, (length_app (lit b ++ lit wn)). unfold holes. rewrite length_replicate. lia. }
  apply wruns_bind. eapply wruns_weaken; [apply (wruns_rdata _ _ _ _ _ type ps Hb4 Hlay Hps); rewrite length_drop; lia|].
  assert (Hfr4 : wframe s s4) by (do 3 (eapply wframe_trans; [eassumption|]); frame_done).
  intros [n|] s5 H5; [|destruct H5; split; eauto with pdnsd].
  destruct H5 as (wd & -> & Hfr5 & Hbd & Hld & Hpa & es5 & Hb5).
  apply wruns_ret. split; [by eapply wframe_trans|]. exists wn, wd, es5, (drop (length wd) (drop sizeof_rr_hdr_t slack3)).
  splits; try done.
  - destruct Hh3 as (_ & _ & ->). rewrite length_app, !length_lit. lia.
  - rewrite !length_app, !length_lit in Hpa. unfold holes in Hpa. rewrite length_replicate in Hpa.
    by rewrite !Nat.add_assoc in Hpa.
Qed.

Lemma count_of_lt section : count_of section + 2 <= sizeof_dns_hdr_t.
Proof. unfold count_of. destruct (section =? S_ANSWER)%Z, (section =? S_AUTHORITY)%Z; vm_compute; lia. Qed.

Lemma wruns_add_rr s hdr b es slack N r type ttl ps section udp :
  built s hdr (lit b) es slack -> wf_name N -> layout type ps -> Forall piece_ok ps ->
  wruns (add_rr (enc_name N ++ r) type ttl (flat ps) section udp) s (rr_post s hdr b N type ttl ps section udp).
Proof.
  intros Hb HN Hlay Hps. unfold add_rr. apply wruns_bind, wruns_get. cbv zeta. apply wruns_bind.
  eapply wruns_weaken; [by eapply wruns_put_rr|]. intros [[rrht rdlen]|] s' [Hfr H]; [|by split].
  destruct H as (wn & wd & es' & slack' & -> & -> & Hbn & Hbd & Hld & Hrd & Hpa & Hb'). apply wruns_bind, wruns_get.
  pose proof Hb as (_ & Hh & Hs & _). rewrite length_lit in Hs.
  pose proof Hb' as ((m & Hm & Hf) & _ & Hs' & Hcb' & Hok'). set (b' := b ++ rr_bytes type ttl wn wd).
  assert (Hsz' : a_sz s' = sizeof_dns_hdr_t + length b').
  { rewrite Hs', !length_app, !length_lit. unfold holes. rewrite length_replicate. unfold b'. rewrite length_app, length_rr_bytes. lia. }
  pose proof (fills_header_hole b wn type ttl wd) as Href. fold b' in Href.
  assert (Hrd' : readable (lit b') (sizeof_dns_hdr_t + length b) N (length wn)).
  { eapply readable_refine; [exact Href|]. by do 2 apply readable_app. }
  pose proof (pieces_at_refine _ _ _ _ _ Href Hpa) as Hpa'. pose proof (cbh_ok_refine _ _ _ Href Hok') as Hok2.
  apply fills_app_inv in Hf as (mb & md & -> & Hf & Hfd). apply fills_lit in Hfd as ->.
  apply fills_app_inv in Hf as (mb' & mh & -> & Hf & Hfh). apply fills_app_inv in Hf as (m1 & m2 & -> & Hf1 & Hf2).
  apply fills_lit in Hf1 as ->. apply fills_lit in Hf2 as ->. rewrite Hsz'.
  destruct (too_long udp (sizeof_dns_hdr_t + length b') section) eqn:Etl.
  - apply wruns_mod. split; [eapply wframe_trans; [done|frame_done]|]. exists wn, wd. cbv zeta. fold b'. rewrite Etl.
    splits; try done; [|by exists es']. cbn. rewrite Hm, <- !app_assoc, (app_assoc hdr). apply take_app_length'.
    rewrite length_app, Hh. lia.
  - eapply (wruns_put_header _ _ _ _ _ (hdr ++ b ++ wn) mh (wd ++ slack')).
    + by rewrite Hm, <- !app_assoc.
    + rewrite !length_app. lia.
    + by rewrite (fills_length _ _ Hfh).
    + eapply wruns_weaken; [apply (wruns_add_count _ hdr (b ++ wn ++ rr_header type ttl (Z.of_nat (length wd)) ++ wd ++ slack'))|].
      * cbn. by rewrite <- !app_assoc.
      * rewrite Hh. apply count_of_lt.
      * cbn beta. intros ? ? [-> ->]. split; [eapply wframe_trans; [done|frame_done]|]. exists wn, wd. cbv zeta. fold b'. rewrite Etl.
        splits; try done. exists es', slack'. unfold built. cbn [a_msg a_sz a_cb set_msg]. splits; try done.
        -- exists b'. split; [|by apply fills_lit]. unfold b', rr_bytes. by rewrite <- !app_assoc.
        -- rewrite length_bump; [done|]. rewrite Hh. apply count_of_lt.
        -- by rewrite length_lit.
Qed.

(** ** The OPT pseudo record *)

Definition opt_rr (udpsize rcode ednsver Zflags : Z) : list Z :=
  [0%Z] ++ put16 T_OPT ++ put16 udpsize ++ [u8 (Z.shiftr rcode 4); u8 ednsver] ++ put16 Zflags ++ put16 0.

Lemma wruns_add_opt s hdr b es slack udpsize rcode ednsver Zflags :
  built s hdr (lit b) es slack ->
  wruns (add_opt_pseudo_rr udpsize rcode ednsver Zflags) s (fun r s' => wframe s s' /\
    match r with
    | None => ~ plenty (a_cache s)
    | Some _ => exists slack', built s' (bump arcount hdr) (lit (b ++ opt_rr udpsize rcode ednsver Zflags)) es slack'
    end).
Proof.
  intros Hb. pose proof Hb as ((m & Hm & Hf) & Hh & Hs & Hcb & Hok). apply fills_lit in Hf as ->. rewrite length_lit in Hs.
  unfold add_opt_pseudo_rr. apply wruns_bind, wruns_get, wruns_bind.
  eapply wruns_weaken; [apply wruns_reserve|]. cbn beta. intros [u|] s2 [Hfr H2]; [|by split].
  destruct H2 as ((x & Hx) & Hal & Hs2 & Hcb2). apply wruns_bind, wruns_get, wruns_bind. fold (opt_rr udpsize rcode ednsver Zflags).
  set (o := opt_rr udpsize rcode ednsver Zflags). assert (Ho : length o = sizeof_opt_pseudo_rr) by done.
  assert (Hroom : length o <= length (slack ++ x)).
  { unfold allocsz in Hal. rewrite Hx, Hm, <- app_assoc, !length_app, Hh in Hal. rewrite length_app. lia. }
  eapply wruns_weaken; [apply (wruns_putbytes s2 (a_sz s2) o (hdr ++ b) (take (length o) (slack ++ x)) (drop (length o) (slack ++ x)))|].
  { rewrite take_drop. by rewrite Hx, Hm, <- !app_assoc. }
  { rewrite length_app. lia. }
  { rewrite length_take. lia. }
  cbn beta. intros ? ? [-> ->]. apply wruns_bind, wruns_mod.
  eapply wruns_weaken; [apply (wruns_add_count _ hdr (b ++ o ++ drop (length o) (slack ++ x)))|].
  { cbn [a_msg set_msg set_sz]. by rewrite <- app_assoc. }
  { rewrite Hh. vm_compute. lia. }
  cbn beta. intros ? ? [-> ->]. split; [eapply wframe_trans; [done|frame_done]|].
  exists (drop (length o) (slack ++ x)). unfold built. cbn [a_msg a_sz a_cb set_msg set_sz]. splits.
  - exists (b ++ o). split; [by rewrite <- !app_assoc|by apply fills_lit].
  - rewrite length_bump; [done|]. rewrite Hh. vm_compute. lia.
  - rewrite length_lit, length_app, Hs2, Hs. lia.
  - congruence.
  - unfold lit. rewrite fmap_app. by apply cbh_ok_app.
Qed.

Lemma get16_range m f x : bytes m -> GETINT16 m f = Some x -> (0 <= x < 65536)%Z.
Proof.
  intros Hb H. unfold GETINT16 in H. inv_bind. pose proof (rd_byte _ _ _ Hb H0). pose proof (rd_byte _ _ _ Hb H1).
  rewrite lor_shift8 by done. unfold is_byte in *. lia.
Qed.

Lemma put16_get16 m f x : bytes m -> GETINT16 m f = Some x -> put16 x = take 2 (drop f m).
Proof.
  intros Hb H. unfold GETINT16, rd in H. inv_bind. pose proof (rd_byte _ _ _ Hb H0). pose proof (rd_byte _ _ _ Hb H1).
  rewrite (drop_S _ _ _ H0). cbn [take]. rewrite Nat.add_1_r in H1. rewrite (drop_S _ _ _ H1). cbn [take].
  rewrite take_0. unfold put16, u8. rewrite lor_shift8 by done. unfold is_byte in *. change (2 ^ 8)%Z with 256%Z.
  rewrite Z.div_add_l, (Z.div_small x1), Z.add_0_r by lia. rewrite Z.mod_small by lia.
  rewrite Z.add_comm, Z.mod_add, Z.mod_small by lia. done.
Qed.

(** Taking off what has just been added restores the message. *)
Lemma remove_opt hdr b udpsize rcode ednsver Zflags rest :
  bytes hdr -> length hdr = sizeof_dns_hdr_t -> (count16 hdr arcount < 65535)%Z ->
  let o := opt_rr udpsize rcode ednsver Zflags in
  remove_opt_pseudo_rr (bump arcount hdr ++ b ++ o ++ rest) (length (hdr ++ b ++ o)) =
  Some (length (hdr ++ b), hdr ++ b ++ o ++ rest).
Proof.
  intros Hb Hh Hc o. assert (Hf : arcount + 2 <= length hdr) by (rewrite Hh; vm_compute; lia).
  pose proof (get16_range _ _ _ Hb (get16_some hdr arcount Hf)) as Hr.
  assert (E1 : GETINT16 (bump arcount hdr ++ b ++ o ++ rest) arcount = Some (count16 hdr arcount + 1)%Z).
  { unfold bump. rewrite <- !app_assoc. set (t := drop (arcount + 2) hdr ++ b ++ o ++ rest).
    assert (El : length (take arcount hdr) = arcount) by (rewrite length_take; lia).
    pose proof (get16_put16 (count16 hdr arcount + 1) (take arcount hdr) t) as E. rewrite El in E. rewrite E.
    f_equal. apply Z.mod_small. change (2 ^ 16)%Z with 65536%Z. lia. }
  assert (Ho : length o = sizeof_opt_pseudo_rr) by done.
  assert (Els : length (hdr ++ b ++ o) = length (bump arcount hdr ++ b) + sizeof_opt_pseudo_rr)
    by (rewrite !length_app, (length_bump _ _ Hf), Ho; lia).
  unfold remove_opt_pseudo_rr. rewrite E1. sbind. bool_true (0 <? count16 hdr arcount + 1)%Z. cbn [andb].
  replace (sizeof_dns_hdr_t + sizeof_opt_pseudo_rr <=? length (hdr ++ b ++ o)) with true
    by (symmetry; apply Nat.leb_le; rewrite !length_app; lia). cbn [negb].
  rewrite Els, Nat.add_sub. rewrite (app_assoc (bump arcount hdr)). set (p := bump arcount hdr ++ b).
  assert (E2 : rd (p ++ o ++ rest) (length p) = Some 0%Z) by apply rd_app_mid. rewrite E2. sbind. cbn [Z.eqb negb].
  assert (E3 : GETINT16 (p ++ o ++ rest) (length p + 1) = Some T_OPT).
  { rewrite <- (length_snoc p 0%Z). unfold o, opt_rr. cbn [app]. rewrite snoc_assoc.
    exact (get16_put16 T_OPT (p ++ [0%Z]) _). }
  rewrite E3. sbind. cbn [negb Z.eqb T_OPT Pos.eqb]. rewrite Z.add_simpl_r.
  rewrite (put16_get16 _ _ _ Hb (get16_some hdr arcount Hf)). unfold p, bump. rewrite <- !app_assoc.
  assert (El : length (take arcount hdr) = arcount) by (rewrite length_take; lia).
  assert (Hl2 : length (take 2 (drop arcount hdr)) = 2) by (rewrite length_take, length_drop; lia).
  pose proof (wr_bytes_app_mid (take 2 (drop arcount hdr)) (take arcount hdr)
    (put16 (count16 hdr arcount + 1) ++ drop (arcount + 2) hdr ++ b ++ o ++ rest)) as E4.
  rewrite El, Hl2 in E4. rewrite E4 by (rewrite length_app; cbn [length put16]; lia). sbind.
  do 2 f_equal; [rewrite !length_app, length_take, length_drop; cbn [length put16]; lia|].
  change (drop 2 (put16 (count16 hdr arcount + 1) ++ drop (arcount + 2) hdr ++ b ++ o ++ rest)) with (drop (arcount + 2) hdr ++ b ++ o ++ rest).
  rewrite <- drop_drop, (app_assoc (take 2 _)), take_drop, app_assoc, take_drop. done.
Qed.
End Reply.
