(* ===== verification/AnswerSet.v ===== *)
(** Specification of the functions of Answer that add record sets and additional
    records to a reply. *)
From S2P Require Import Prelude Names DnsName Compress RrTypes HashTab RrList Cent CentSpec Cache Answer AnswerRr.

(** ** Record sets *)

Fixpoint iterW (body : list Z -> W unit) (l : list (list Z)) : W unit :=
  match l with
  | [] => mret tt
  | rr :: l' => _ ← body rr; iterW body l'
  end.

Definition rotate (k : nat) (l : list (list Z)) : list (list Z) := drop k l ++ take k l.

Lemma rotate_perm k l : rotate k l ≡ₚ l.
Proof. unfold rotate. rewrite Permutation_app_comm, take_drop. done. Qed.

Lemma bindW_ext {A B} (m : W A) (k k' : A -> W B) s : (forall a s', k a s' = k' a s') -> (m ≫= k) s = (m ≫= k') s.
Proof. intros H. unfold mbind, W_bind. by destruct (m s) as [[[a|] s']|]. Qed.

Lemma rr_loop_once f body rrs first b rr s :
  rrs !! b = Some rr ->
  rr_loop (S f) body rrs first b s = (_ ← body rr;
    match first with
    | None => if (b + 1 =? length rrs) then mret tt else rr_loop f body rrs first (b + 1)
    | Some k => let b := if (b + 1 =? length rrs) then 0 else b + 1 in
                if (b =? k) then mret tt else rr_loop f body rrs first b
    end) s.
Proof. intros H. cbn [rr_loop]. rewrite H. done. Qed.

Lemma rr_loop_straight body rrs : forall f b s, length (drop b rrs) = S f ->
  rr_loop (S f) body rrs None b s = iterW body (drop b rrs) s.
Proof.
  intros f. induction f as [|f IH]; intros b s Hl; rewrite length_drop in Hl;
    destruct (lookup_lt_is_Some_2 rrs b ltac:(lia)) as [rr Hrr]; rewrite (rr_loop_once _ _ _ _ _ _ _ Hrr), (drop_S _ _ _ Hrr);
    cbn [iterW]; apply bindW_ext; intros [] s'.
  - bool_true (b + 1 =? length rrs). by rewrite drop_ge by lia.
  - bool_false (b + 1 =? length rrs). rewrite Nat.add_1_r. apply IH. rewrite length_drop. lia.
Qed.

(** After the wraparound, up to the first record again. *)
Lemma rr_loop_second body rrs k : k < length rrs -> forall f b s, k - b = S f ->
  rr_loop (S f) body rrs (Some k) b s = iterW body (take (k - b) (drop b rrs)) s.
Proof.
  intros Hk f. induction f as [|f IH]; intros b s Hl;
    destruct (lookup_lt_is_Some_2 rrs b ltac:(lia)) as [rr Hrr]; rewrite (rr_loop_once _ _ _ _ _ _ _ Hrr), (drop_S _ _ _ Hrr), Hl;
    cbn [take iterW]; apply bindW_ext; intros [] s'; cbv zeta; bool_false (b + 1 =? length rrs); cbv match.
  - bool_true (b + 1 =? k). by rewrite take_0.
  - bool_false (b + 1 =? k). rewrite Nat.add_1_r, IH by lia. by replace (k - S b) with (S f) by lia.
Qed.

(** From the first record to the end, and around. *)
Lemma rr_loop_first body rrs k : k < length rrs -> forall n b s, k <= b -> length (drop b rrs) = S n ->
  rr_loop (S n + k) body rrs (Some k) b s = iterW body (drop b rrs ++ take k rrs) s.
Proof.
  intros Hk n. induction n as [|n IH]; intros b s Hb Hl; rewrite length_drop in Hl;
    destruct (lookup_lt_is_Some_2 rrs b ltac:(lia)) as [rr Hrr]; cbn [Nat.add];
    rewrite (rr_loop_once _ _ _ _ _ _ _ Hrr), (drop_S _ _ _ Hrr); cbn [app iterW]; apply bindW_ext; intros [] s'; cbv zeta.
  - bool_true (b + 1 =? length rrs). rewrite drop_ge by lia. cbn [app]. destruct k as [|k]; [done|]. cbn [Nat.eqb].
    rewrite rr_loop_second by lia. by rewrite drop_0, Nat.sub_0_r.
  - bool_false (b + 1 =? length rrs). cbv match. bool_false (b + 1 =? k). rewrite Nat.add_1_r. apply IH; [lia|].
    rewrite length_drop. lia.
Qed.

Lemma rem_range r n : 0 < n -> Z.to_nat (Z.rem r (Z.of_nat n)) < n.
Proof.
  intros Hn. destruct (Z.lt_ge_cases r 0) as [H|H].
  - pose proof (Z.rem_nonpos r (Z.of_nat n) ltac:(lia) ltac:(lia)). lia.
  - pose proof (Z.rem_bound_pos r (Z.of_nat n) ltac:(lia) ltac:(lia)). lia.
Qed.

(** Only the source of random numbers has changed. *)
Definition random_only (s s' : answer) : Prop := exists r, s' = set_random r s.

(** The loop visits every record once, starting anywhere if so configured. *)
Lemma over_rrs_spec rnd body rrs s :
  rrs <> [] -> exists k s', k < length rrs /\ (rnd = false -> k = 0) /\ random_only s s' /\
    over_rrs rnd body rrs s = iterW body (rotate k rrs) s'.
Proof.
  intros Hne. assert (Hlen : 0 < length rrs) by (destruct rrs; [done|cbn; lia]). unfold over_rrs. destruct rnd.
  - set (r := match a_random s with [] => 0%Z | r :: _ => r end). set (s' := match a_random s with [] => s | _ :: rs => set_random rs s end).
    exists (Z.to_nat (Z.rem r (Z.of_nat (length rrs)))), s'. pose proof (rem_range r _ Hlen) as Hk. splits; [done|done|..].
    + unfold s'. destruct (a_random s) as [|x rs] eqn:E; [exists (a_random s); by destruct s|by exists rs].
    + unfold mbind at 1, W_bind at 1. assert (E : randrr rrs s = Some (Some (Z.to_nat (Z.rem r (Z.of_nat (length rrs)))), s')).
      { unfold randrr. destruct rrs; [done|]. unfold mbind, W_bind, random, r, s'. by destruct (a_random s). }
      rewrite E. set (k := Z.to_nat _) in *. replace (length rrs) with (S (length rrs - k - 1) + k) at 1 by lia.
      apply rr_loop_first; [done|lia|]. rewrite length_drop. lia.
  - exists 0, s. splits; [done|done|exists (a_random s); by destruct s|]. unfold rotate. rewrite drop_0, take_0, app_nil_r.
    destruct (length rrs) as [|n] eqn:E; [lia|]. by apply rr_loop_straight; rewrite drop_0.
Qed.

(** *** Frames *)

(** What the bookkeeping lists leave alone. *)
Definition aside (s s' : answer) : Prop :=
  a_msg s' = a_msg s /\ a_sz s' = a_sz s /\ a_cb s' = a_cb s /\ a_random s' = a_random s.

Definition cframe (s s' : answer) : Prop :=
  mem_only (a_cache s) (a_cache s') /\ (plenty (a_cache s) -> plenty (a_cache s')).

Lemma cframe_refl s : cframe s s.
Proof. split; auto with pdnsd. Qed.

Lemma cframe_trans s1 s2 s3 : cframe s1 s2 -> cframe s2 s3 -> cframe s1 s3.
Proof. intros [? ?] [? ?]. split; eauto with pdnsd. Qed.

Lemma wframe_cframe s s' : wframe s s' -> cframe s s'.
Proof. intros (_ & _ & _ & ? & ?). by split. Qed.

Lemma cframe_plenty s s' : cframe s s' -> ~ plenty (a_cache s') -> ~ plenty (a_cache s).
Proof. intros [_ H] Hn Hp. by apply Hn, H. Qed.

#[export] Hint Resolve cframe_refl cframe_trans wframe_cframe cframe_plenty : pdnsd.

(** *** Records appended to a message *)

Section Records.
Context (G : Prop).
#[local] Notation built := (AnswerRr.built G).
#[local] Notation readable := (AnswerRr.readable G).
#[local] Notation pieces_at := (AnswerRr.pieces_at G).
#[local] Notation rr_post := (AnswerRr.rr_post G).


Record rrec := { r_name : list (list Z); r_type : Z; r_ttl : Z; r_pieces : list piece }.

(** [appended sec hdr b rs hdr' b']: the message with the header [hdr] and the body [b]
    has become the one with [hdr'] and [b'] by appending the records [rs], each of
    which can be read back, and counting them in the section. *)
Inductive appended (sec : Z) : list Z -> list Z -> list rrec -> list Z -> list Z -> Prop :=
  | appended_nil hdr b : appended sec hdr b [] hdr b
  | appended_cons hdr b x rs wn wd b1 hdr' b' :
      b1 = b ++ rr_bytes (r_type x) (r_ttl x) wn wd ->
      name_form (r_name x) wn -> bytes wd -> length wd <= length (flat (r_pieces x)) ->
      readable (lit b1) (sizeof_dns_hdr_t + length b) (r_name x) (length wn) ->
      pieces_at (lit b1) (sizeof_dns_hdr_t + length b + length wn + sizeof_rr_hdr_t) (r_pieces x) wd ->
      appended sec (bump (count_of sec) hdr) b1 rs hdr' b' ->
      appended sec hdr b (x :: rs) hdr' b'.

Lemma appended_app sec hdr b rs hdr1 b1 rs' hdr2 b2 :
  appended sec hdr b rs hdr1 b1 -> appended sec hdr1 b1 rs' hdr2 b2 -> appended sec hdr b (rs ++ rs') hdr2 b2.
Proof. induction 1; intros; [done|]. cbn [app]. eapply appended_cons; eauto. Qed.

Lemma appended_one s s' hdr b N type ttl ps sec udp :
  rr_post s hdr b N type ttl ps sec udp (Some tt) s' -> too_long udp = (fun _ _ => false) \/ (sec <> S_ADDITIONAL) ->
  exists hdr' b' es' slack', appended sec hdr b [{| r_name := N; r_type := type; r_ttl := ttl; r_pieces := ps |}] hdr' b' /\
    built s' hdr' (lit b') es' slack'.
Proof.
  intros (_ & wn & wd & Hbn & Hbd & Hl & Hrd & Hpa & Hrest) Hsec.
  assert (E : too_long udp (sizeof_dns_hdr_t + length (b ++ rr_bytes type ttl wn wd)) sec = false).
  { destruct Hsec as [->|Hsec]; [done|]. unfold too_long. destruct udp; [|done]. apply andb_false_iff. right. by apply Z.eqb_neq. }
  rewrite E in Hrest. destruct Hrest as (es' & slack' & Hb). exists (bump (count_of sec) hdr), (b ++ rr_bytes type ttl wn wd), es', slack'.
  split; [|done].
  apply (appended_cons sec hdr b {| r_name := N; r_type := type; r_ttl := ttl; r_pieces := ps |} [] wn wd (b ++ rr_bytes type ttl wn wd)); try done. constructor.
Qed.

Lemma built_aside s s' hdr body es slack : aside s s' -> built s hdr body es slack -> built s' hdr body es slack.
Proof. intros (Em & Es & Ec & _) (Hm & Hh & Hs & Hcb & Hok). unfold built. rewrite Em, Es, Ec. by splits. Qed.

Lemma wruns_sva_add s N r tp data :
  wf_name N ->
  wruns (sva_add (enc_name N ++ r) tp data) s (fun res s' => cframe s s' /\
    match res with
    | None => ~ plenty (a_cache s)
    | Some _ => aside s s' /\ a_ar s' = a_ar s /\ a_sva s' = a_sva s ++ [{| sv_tp := tp; sv_nm := enc_name N; sv_data := data |}]
    end).
Proof.
  intros HN. unfold sva_add. apply step_lift with (length (enc_name N)); [apply rhnlen_enc, HN|].
  apply wruns_bind, wruns_malloc. intros ok c Hc Hp.
  assert (Hfr : cframe s (set_cache c s)) by (split; [done|intros H; by apply Hp]). destruct ok.
  - apply step_lift with (enc_name N); [apply rd_bytes_front|]. apply wruns_mod. split; [exact Hfr|]. done.
  - apply wruns_bind, wruns_mod, wruns_giveup. split; [exact Hfr|]. intros H. by destruct (Hp H).
Qed.

Lemma wruns_add_ar s tp tnm N r ttl :
  wf_name N ->
  wruns (add_ar tp tnm (enc_name N ++ r) ttl) s (fun res s' => cframe s s' /\
    match res with
    | None => ~ plenty (a_cache s)
    | Some _ => aside s s' /\ a_sva s' = a_sva s /\
        a_ar s' = a_ar s ++ [{| re_tp := tp; re_tnm := tnm; re_ttl := u32 ttl;
                                re_nm := if (tp =? T_NS)%Z || (tp =? T_SOA)%Z then enc_name N else [] |}]
    end).
Proof.
  intros HN. unfold add_ar. apply wruns_bind.
  apply (wruns_weaken _ _ (fun res s' => res = Some (if (tp =? T_NS)%Z || (tp =? T_SOA)%Z then enc_name N else []) /\ s' = s)).
  { destruct ((tp =? T_NS)%Z || (tp =? T_SOA)%Z); [|by apply wruns_ret].
    apply step_lift with (length (enc_name N)); [apply rhnlen_enc, HN|]. eapply wruns_lift; [apply rd_bytes_front|done]. }
  cbn beta. intros ? ? [-> ->]. apply wruns_bind, wruns_malloc. intros ok c Hc Hp.
  assert (Hfr : cframe s (set_cache c s)) by (split; [done|intros H; by apply Hp]). destruct ok.
  - apply wruns_mod. split; [exact Hfr|]. done.
  - apply wruns_bind, wruns_mod, wruns_giveup. split; [exact Hfr|]. intros H. by destruct (Hp H).
Qed.

(** ** [add_rrset] *)

(** Record data that a reply of that type can hold. *)
Definition wire (tp : Z) (ps : list piece) : Prop := layout tp ps /\ Forall piece_ok ps.

(** What is noted about a record in the list of those added, and in the list of names
    whose addresses are to be added. *)
Definition sva_rec (x : rrec) : list sva_el :=
  if in_types (r_type x) [T_NS; T_A; T_AAAA]
  then [{| sv_tp := r_type x; sv_nm := enc_name (r_name x); sv_data := flat (r_pieces x) |}] else [].

Definition ar_rec (x : rrec) : list rr_ext :=
  match ar_offset (r_type x) ar_recs with
  | Some o => [{| re_tp := RRETP_ADD; re_tnm := drop o (flat (r_pieces x)); re_nm := []; re_ttl := 0 |}]
  | None => []
  end.

(** The records [rs] have been added to the answer section, unless memory ran out. *)
Definition added (s : answer) (hdr b : list Z) (rs : list rrec) (res : option unit) (s' : answer) : Prop :=
  cframe s s' /\
  match res with
  | None => ~ plenty (a_cache s)
  | Some _ => exists hdr' b' es' slack',
      appended S_ANSWER hdr b rs hdr' b' /\ built s' hdr' (lit b') es' slack' /\
      a_sva s' = a_sva s ++ concat (map sva_rec rs) /\ a_ar s' = a_ar s ++ concat (map ar_rec rs)
  end.

Lemma added_nil s hdr b es slack : built s hdr (lit b) es slack -> added s hdr b [] (Some tt) s.
Proof.
  intros Hb. split; [auto with pdnsd|]. exists hdr, b, es, slack. cbn. rewrite !app_nil_r. splits; [constructor|done..].
Qed.

(** One step of adding records after another. *)
Lemma added_bind (m k : W unit) s hdr b rs (Q : option unit -> answer -> Prop) :
  wruns m s (added s hdr b rs) ->
  (forall s', cframe s s' -> ~ plenty (a_cache s) -> Q None s') ->
  (forall s1 hdr1 b1 es1 slack1, added s hdr b rs (Some tt) s1 -> built s1 hdr1 (lit b1) es1 slack1 ->
     (forall rs' res s2, added s1 hdr1 b1 rs' res s2 -> added s hdr b (rs ++ rs') res s2) -> wruns k s1 Q) ->
  wruns (_ ← m; k) s Q.
Proof.
  intros Hm Hn Hk. apply wruns_bind. eapply wruns_weaken; [exact Hm|]. intros [[]|] s1 H1; [|destruct H1; by apply Hn].
  pose proof H1 as [Hf1 (hdr1 & b1 & es1 & slack1 & Ha1 & Hb1 & Esva1 & Ear1)].
  apply (Hk s1 hdr1 b1 es1 slack1 H1 Hb1). intros rs' res s2 [Hf2 H2]. split; [eauto with pdnsd|].
  destruct res as [[]|]; [|eauto with pdnsd]. destruct H2 as (hdr2 & b2 & es2 & slack2 & Ha2 & Hb2 & Esva2 & Ear2).
  exists hdr2, b2, es2, slack2. rewrite !map_app, !concat_app, !app_assoc, <- Esva1, <- Ear1.
  splits; [by eapply appended_app|done..].
Qed.

Lemma ar_offset_le tp ps o : layout tp ps -> ar_offset tp ar_recs = Some o -> o <= length (flat ps).
Proof.
  intros Hlay Ho. assert (Hc : o = 0 \/ (tp = T_MX /\ o = 2) \/ (tp = T_SRV /\ o = 6)).
  { unfold ar_recs in Ho. cbn [ar_offset] in Ho.
    repeat match type of Ho with (if ?b then _ else _) = _ => destruct b eqn:?; boolp; [injection Ho as <-; subst; auto|] end.
    discriminate Ho. }
  destruct Hc as [->|[[-> ->]|[-> ->]]]; [lia|..]; cbn in Hlay; destruct Hlay as (l & N & Hl & ->);
    unfold flat; cbn [map concat piece_bytes]; rewrite length_app; lia.
Qed.

Section AddSet.
Context (rnd_recs : bool) (queryts : Z).

Lemma wruns_add_rrset_rr s hdr b es slack N r tp ttl ps udp :
  built s hdr (lit b) es slack -> wf_name N -> wire tp ps ->
  wruns (add_rrset_rr (enc_name N ++ r) tp ttl udp (flat ps)) s
    (added s hdr b [{| r_name := N; r_type := tp; r_ttl := ttl; r_pieces := ps |}]).
Proof.
  intros Hb HN [Hlay Hps]. unfold add_rrset_rr. set (x := {| r_name := N; r_type := tp; r_ttl := ttl; r_pieces := ps |}).
  apply wruns_bind. eapply wruns_weaken; [by eapply wruns_add_rr|]. intros [[]|] s1 H1; [|destruct H1; split; eauto with pdnsd].
  assert (Hf1 : cframe s s1) by (apply wframe_cframe, H1). destruct (proj1 H1) as (Esva & Ear & _).
  destruct (appended_one _ _ _ _ _ _ _ _ _ _ H1) as (hdr' & b' & es' & slack' & Happ & Hb1); [by right|]. clear H1.
  apply wruns_bind.
  apply (wruns_weaken _ _ (fun res s2 => cframe s1 s2 /\
    match res with
    | None => ~ plenty (a_cache s1)
    | Some _ => aside s1 s2 /\ a_ar s2 = a_ar s1 /\ a_sva s2 = a_sva s1 ++ sva_rec x
    end)).
  { unfold sva_rec. cbn [r_type x]. destruct (in_types tp [T_NS; T_A; T_AAAA]); [by apply wruns_sva_add|].
    apply wruns_ret. rewrite app_nil_r. unfold aside. splits; auto with pdnsd. }
  cbn beta. intros [[]|] s2 [Hf2 H2]; [|split; eauto with pdnsd]. destruct H2 as (Has2 & Ear2 & Esva2).
  pose proof (built_aside _ _ _ _ _ _ Has2 Hb1) as Hb2.
  assert (Hdone : forall s3, cframe s2 s3 -> aside s2 s3 -> a_sva s3 = a_sva s2 -> a_ar s3 = a_ar s2 ++ ar_rec x ->
    added s hdr b [x] (Some tt) s3).
  { intros s3 Hf3 Has3 Esva3 Ear3. split; [eauto with pdnsd|]. exists hdr', b', es', slack'.
    cbn [map concat]. rewrite !app_nil_r. splits; [done|by eapply built_aside|..].
    - by rewrite Esva3, Esva2, Esva.
    - by rewrite Ear3, Ear2, Ear. }
  unfold ar_rec in Hdone. cbn [r_type x] in Hdone. destruct (ar_offset tp ar_recs) as [o|] eqn:Eo.
  - apply step_lift with (drop o (flat ps)).
    { unfold adv. by rewrite decide_True by (by eapply ar_offset_le). }
    eapply wruns_weaken; [apply (wruns_add_ar s2 RRETP_ADD (drop o (flat ps)) [] [] 0)|].
    { split; [constructor|vm_compute; lia]. }
    cbn beta. intros [[]|] s3 [Hf3 H3]; [|split; eauto with pdnsd]. destruct H3 as (Has3 & Esva3 & Ear3). by apply Hdone.
  - apply wruns_ret, Hdone; [auto with pdnsd|by unfold aside|done|by rewrite app_nil_r].
Qed.

Definition recs_of (N : list (list Z)) (tp ttl : Z) (pss : list (list piece)) : list rrec :=
  map (fun ps => {| r_name := N; r_type := tp; r_ttl := ttl; r_pieces := ps |}) pss.

Lemma wruns_iter_rrset N r tp ttl udp pss : forall s hdr b es slack,
  built s hdr (lit b) es slack -> wf_name N -> Forall (wire tp) pss ->
  wruns (iterW (add_rrset_rr (enc_name N ++ r) tp ttl udp) (map flat pss)) s (added s hdr b (recs_of N tp ttl pss)).
Proof.
  induction pss as [|ps pss IH]; intros s hdr b es slack Hb HN Hw; cbn [map iterW].
  { apply wruns_ret. by eapply added_nil. }
  apply Forall_cons in Hw as [Hw Hws]. eapply added_bind; [by eapply wruns_add_rrset_rr|by split|].
  intros s1 hdr1 b1 es1 slack1 _ Hb1 Hjoin. eapply wruns_weaken; [by eapply IH|]. intros res s2 H2. by apply Hjoin in H2.
Qed.

(** The sets of an entry hold data of the layout of their type. *)
Definition entry_wire (c : dns_cent) : Prop :=
  forall tp rs, getrrset c tp = Some (Some rs) -> Forall (fun rr => exists ps, wire tp ps /\ rr = flat ps) (rs_rrs rs).

Lemma wire_pieces tp rrs :
  Forall (fun rr => exists ps, wire tp ps /\ rr = flat ps) rrs -> exists pss, rrs = map flat pss /\ Forall (wire tp) pss.
Proof.
  induction 1 as [|rr rrs (ps & Hw & ->) _ (pss & -> & Hws)]; [by exists []|]. exists (ps :: pss). split; [done|]. by constructor.
Qed.

(** The records of type [tp] that an entry holds. *)
Definition records (c : dns_cent) (tp : Z) : list (list Z) :=
  match getrrset c tp with Some (Some rs) => rs_rrs rs | _ => [] end.
Definition record_ttl (c : dns_cent) (tp : Z) : Z :=
  match getrrset c tp with Some (Some rs) => ans_ttl rs queryts | _ => 0%Z end.

(** The records that adding the set of type [tp] adds: all of them, in the order in
    which they are stored, from the first one or, if so configured, from any one. *)
Definition set_records (N : list (list Z)) (c : dns_cent) (tp : Z) (rs : list rrec) : Prop :=
  exists k pss, (rnd_recs = false -> k = 0) /\ map flat pss = rotate k (records c tp) /\ Forall (wire tp) pss /\
    rs = recs_of N tp (record_ttl c tp) pss.

(** The internal index of a type. *)
Definition type_index (tp : Z) : option nat :=
  if (0 <=? tp - T_MIN)%Z && (tp - T_MIN <? Z.of_nat T_NUM)%Z then rrlkuptab !! Z.to_nat (tp - T_MIN) else None.

Lemma getrrset_slot c tp :
  shape c -> getrrset c tp = Some (i ← type_index tp; if (i <? NRRTOT) then slot c i else None).
Proof.
  intros [Hn Hs]. unfold getrrset, type_index, slot, sets, is_neg in *. cbv zeta. rewrite Hn.
  destruct (0 <=? tp - T_MIN)%Z eqn:E1; boolp; cbn [andb]; [|by destruct (body c)].
  destruct (tp - T_MIN <? Z.of_nat T_NUM)%Z eqn:E2; boolp; [|by destruct (body c)].
  destruct (lookup_lt_is_Some_2 rrlkuptab (Z.to_nat (tp - T_MIN))) as [i ->]; [change (length rrlkuptab) with T_NUM; lia|]. sbind.
  destruct (body c) as [|rrmu rrext]; cbn [negb]; [by destruct (i <? NRRTOT)|]. destruct Hs as [Hm He].
  destruct (i <? NRRMU) eqn:E; boolp.
  - replace (i <? NRRTOT) with true by (symmetry; apply Nat.ltb_lt; unfold NRRMU, NRRTOT in *; lia).
    rewrite lookup_app_l by lia. by destruct (lookup_lt_is_Some_2 rrmu i) as [r ->]; [lia|].
  - rewrite lookup_app_r, Hm by lia. destruct (i - NRRMU <? NRREXT) eqn:E3; boolp.
    + replace (i <? NRRTOT) with true by (symmetry; apply Nat.ltb_lt; unfold NRRMU, NRREXT, NRRTOT in *; lia).
      destruct rrext as [e|]; [|done]. change (default [] (Some e)) with e.
      destruct (lookup_lt_is_Some_2 e (i - NRRMU)) as [r Hr]; [by rewrite (He e eq_refl)|]. by rewrite Hr.
    + by replace (i <? NRRTOT) with false by (symmetry; apply Nat.ltb_ge; unfold NRRMU, NRREXT, NRRTOT in *; lia).
Qed.

Lemma wruns_add_rrset s hdr b es slack N r tp c udp :
  built s hdr (lit b) es slack -> wf_name N -> shape c -> entry_wire c ->
  wruns (add_rrset rnd_recs queryts (enc_name N ++ r) tp c udp) s
    (fun res s' => exists rs, set_records N c tp rs /\ added s hdr b rs res s').
Proof.
  intros Hb HN Hok Hwire. pose proof (getrrset_slot c tp Hok) as Ho. set (o := i ← type_index tp; _) in Ho. clearbody o. unfold add_rrset. apply step_lift with o; [done|].
  assert (Hnone : records c tp = [] -> wruns (mret tt) s (fun res s' => exists rs, set_records N c tp rs /\ added s hdr b rs res s')).
  { intros E. apply wruns_ret. exists []. split; [|by eapply added_nil]. exists 0, []. unfold rotate. rewrite E. by splits. }
  unfold records in Hnone. rewrite Ho in Hnone. destruct o as [rs|]; [|by apply Hnone].
  pose proof (Hwire _ _ Ho) as Hw. destruct (rs_rrs rs) as [|rr rrs] eqn:Er; [by apply Hnone|]. clear Hnone.
  set (l := rr :: rrs) in *.
  destruct (over_rrs_spec rnd_recs (add_rrset_rr (enc_name N ++ r) tp (ans_ttl rs queryts) udp) l s) as (k & s1 & Hk & Hk0 & [rd ->] & E); [done|].
  assert (Hrot : Forall (fun rr => exists ps, wire tp ps /\ rr = flat ps) (rotate k l)) by (by rewrite rotate_perm).
  destruct (wire_pieces tp _ Hrot) as (pss & Epss & Hpss). rewrite Epss in E.
  destruct (wruns_iter_rrset N r tp (ans_ttl rs queryts) udp pss (set_random rd s) hdr b es slack) as (res & s' & Erun & Hpost); [done..|].
  exists res, s'. split; [by rewrite E|]. exists (recs_of N tp (ans_ttl rs queryts) pss). split; [|done].
  exists k, pss. unfold records, record_ttl. by rewrite Ho, Er.
Qed.

(** ** [add_to_response] *)

(** The sets of the types [tps] have been added in this order, unless memory ran out. *)
Definition added_sets (s : answer) (hdr b : list Z) (N : list (list Z)) (c : dns_cent) (tps : list Z)
    (res : option unit) (s' : answer) : Prop :=
  match res with
  | None => cframe s s' /\ ~ plenty (a_cache s)
  | Some _ => exists rss, Forall2 (set_records N c) tps rss /\ added s hdr b (concat rss) (Some tt) s'
  end.

Lemma wruns_added_set s hdr b es slack N r tp c udp :
  built s hdr (lit b) es slack -> wf_name N -> shape c -> entry_wire c ->
  wruns (add_rrset rnd_recs queryts (enc_name N ++ r) tp c udp) s (added_sets s hdr b N c [tp]).
Proof.
  intros Hb HN Hok Hw. eapply wruns_weaken; [by eapply wruns_add_rrset|]. cbn beta. intros [[]|] s' (rs & Hrs & H); [|exact H].
  exists [rs]. split; [by repeat constructor|]. cbn [concat]. by rewrite app_nil_r.
Qed.

(** One group of sets after another. *)
Lemma added_sets_bind (m k : W unit) s hdr b N c tps (tps' : list Z) :
  wruns m s (added_sets s hdr b N c tps) ->
  (forall s1 hdr1 b1 es1 slack1, built s1 hdr1 (lit b1) es1 slack1 -> wruns k s1 (added_sets s1 hdr1 b1 N c tps')) ->
  wruns (_ ← m; k) s (added_sets s hdr b N c (tps ++ tps')).
Proof.
  intros Hm Hk. apply wruns_bind. eapply wruns_weaken; [exact Hm|]. intros [[]|] s1 H1; [|exact H1].
  destruct H1 as (rss & Hrss & H1). pose proof H1 as [Hf1 (hdr1 & b1 & es1 & slack1 & Ha1 & Hb1 & Esva1 & Ear1)].
  eapply wruns_weaken; [by eapply Hk|]. intros [[]|] s2 H2.
  - destruct H2 as (rss' & Hrss' & Hf2 & hdr2 & b2 & es2 & slack2 & Ha2 & Hb2 & Esva2 & Ear2).
    exists (rss ++ rss'). split; [by apply Forall2_app|]. split; [eauto with pdnsd|]. exists hdr2, b2, es2, slack2.
    rewrite concat_app, !map_app, !concat_app, !app_assoc, <- Esva1, <- Ear1. splits; [by eapply appended_app|done..].
  - destruct H2 as [Hf2 Hp2]. split; eauto with pdnsd.
Qed.

Lemma wruns_add_rrsets N r c udp tps : forall s hdr b es slack,
  built s hdr (lit b) es slack -> wf_name N -> shape c -> entry_wire c ->
  wruns (add_rrsets rnd_recs queryts (enc_name N ++ r) tps c udp) s (added_sets s hdr b N c tps).
Proof.
  induction tps as [|tp tps IH]; intros s hdr b es slack Hb HN Hok Hw; cbn [add_rrsets].
  { apply wruns_ret. exists []. split; [constructor|]. by eapply added_nil. }
  eapply (added_sets_bind _ _ _ _ _ _ _ [tp]); [by eapply wruns_added_set|]. intros. by eapply IH.
Qed.

(** Which sets answer a query, in which order. *)
Definition has_records (c : dns_cent) (tp : Z) : bool := negb (match records c tp with [] => true | _ => false end).

Definition cname_types (c : dns_cent) (qtype : Z) : list Z :=
  if negb (qtype =? T_CNAME)%Z && negb (qtype =? QT_ALL)%Z && negb (is_type qtype && has_records c qtype) then [T_CNAME] else [].

Definition query_types (c : dns_cent) (qtype : Z) : option (list Z) :=
  if (qtype =? QT_AXFR)%Z || (qtype =? QT_IXFR)%Z then None
  else if (qtype =? QT_MAILB)%Z then Some [T_MB; T_MG; T_MR]
  else if (qtype =? QT_MAILA)%Z then Some [T_MD; T_MF]
  else if (qtype =? QT_ALL)%Z then rriterlist c
  else if is_type qtype then Some [qtype]
  else None.

Lemma getrrset_eff_eq c tp : is_neg c = false -> shape c -> is_type tp = true -> getrrset_eff c tp = getrrset c tp.
Proof.
  intros Hn [Hs _] Ht. unfold getrrset, getrrset_eff, is_type in *. rewrite Hs, Hn. cbv zeta. cbn [negb].
  apply andb_true_iff in Ht as [H1 H2]. boolp. bool_true (0 <=? tp - T_MIN)%Z.
  replace (tp - T_MIN <? Z.of_nat T_NUM)%Z with true; [done|]. symmetry. apply Z.ltb_lt. unfold T_MIN, T_MAX, T_NUM in *. lia.
Qed.

Lemma has_type_spec c tp : shape c -> has_type c tp = Some (is_type tp && has_records c tp).
Proof.
  intros Hs. unfold has_type. destruct (is_type tp) eqn:Ht; [|done]. cbn [andb]. unfold have_rr, has_records, records.
  pose proof Hs as [Hn _]. rewrite Hn. destruct (is_neg c) eqn:En.
  - unfold getrrset. by rewrite Hn.
  - rewrite (getrrset_eff_eq c tp En Hs Ht). rewrite (getrrset_slot c tp Hs). sbind. by destruct (i ← type_index tp; _).
Qed.

Lemma wruns_add_to_response s hdr b es slack N r qtype c udp :
  built s hdr (lit b) es slack -> wf_name N -> shape c -> entry_wire c ->
  wruns (add_to_response rnd_recs queryts (enc_name N ++ r) qtype c udp) s (fun res s' =>
    match query_types c qtype with
    | Some tps => added_sets s hdr b N c (cname_types c qtype ++ tps) res s'
    | None => res = None /\ cframe s s'
    end).
Proof.
  intros Hb HN Hs Hw. unfold add_to_response.
  assert (Hc : wruns (if negb (qtype =? T_CNAME)%Z && negb (qtype =? QT_ALL)%Z then
         have ← liftW (has_type c qtype);
         if (have : bool) then mret tt else add_rrset rnd_recs queryts (enc_name N ++ r) T_CNAME c udp
       else mret tt) s (added_sets s hdr b N c (cname_types c qtype))).
  { unfold cname_types. destruct (negb (qtype =? T_CNAME)%Z && negb (qtype =? QT_ALL)%Z); cbn [andb].
    - eapply step_lift; [by apply has_type_spec|]. destruct (is_type qtype && has_records c qtype); cbn [negb].
      + apply wruns_ret. exists []. split; [constructor|]. by eapply added_nil.
      + by eapply wruns_added_set.
    - apply wruns_ret. exists []. split; [constructor|]. by eapply added_nil. }
  assert (Hgive : wruns (_ ← (if negb (qtype =? T_CNAME)%Z && negb (qtype =? QT_ALL)%Z then
         have ← liftW (has_type c qtype);
         if (have : bool) then mret tt else add_rrset rnd_recs queryts (enc_name N ++ r) T_CNAME c udp
       else mret tt); giveup) s (fun (res : option unit) s' => res = None /\ cframe s s')).
  { apply wruns_bind. eapply wruns_weaken; [exact Hc|]. intros [[]|] s' H.
    - apply wruns_giveup. split; [done|]. destruct H as (? & _ & H). apply H.
    - split; [done|]. apply H. }
  unfold query_types. destruct ((qtype =? QT_AXFR)%Z || (qtype =? QT_IXFR)%Z); [exact Hgive|].
  destruct (qtype =? QT_MAILB)%Z; [eapply added_sets_bind; [exact Hc|]; intros; by eapply wruns_add_rrsets|].
  destruct (qtype =? QT_MAILA)%Z; [eapply added_sets_bind; [exact Hc|]; intros; by eapply wruns_add_rrsets|].
  destruct (qtype =? QT_ALL)%Z.
  { assert (El : exists l, rriterlist c = Some l).
    { unfold rriterlist. destruct Hs as [-> Hs]. unfold is_neg. destruct (body c); by eexists. }
    destruct El as [l El]. rewrite El. eapply added_sets_bind; [exact Hc|]. intros. apply step_lift with l; [done|].
    by eapply wruns_add_rrsets. }
  destruct (is_type qtype); [|exact Hgive].
  eapply added_sets_bind; [exact Hc|]. intros. by eapply wruns_added_set.
Qed.
End AddSet.
End Records.
