(* ===== verification/AnswerThms.v ===== *)
(** The theorems about writing replies. *)
From S2P Require Import Prelude Names DnsName Compress RrTypes HashTab RrList Cent CentSpec Cache Answer AnswerRr AnswerSet.

(** The contents of replies are claimed without condition here. *)
#[local] Notation built := (AnswerRr.built True).
#[local] Notation rr_post := (AnswerRr.rr_post True).
#[local] Notation added_sets := (AnswerSet.added_sets True).

(** ** One record *)

(** C24: [add_rr] is memory safe, keeps within its allocation, which it grows when needed,
    and satisfies its assertions for every record whose data have the layout of their
    type.  It fails only for lack of memory.  Otherwise the reply is extended by the
    record: the name, with compression, then type, class, time-to-live and length,
    then the data with their names compressed; all names can be read back, and the
    count of the section is one higher.  Only an additional record that would make a
    UDP reply too long is left out, and then the reply is what it was. *)
Theorem add_rr_correct (s : answer) (hdr b slack : list Z) (es : list (nat * list (list Z))) (N : list (list Z)) (r : list Z)
    (type ttl : Z) (ps : list piece) (section : Z) (udp : option nat) :
  built s hdr (lit b) es slack -> wf_name N -> wire type ps ->
  wruns (add_rr (enc_name N ++ r) type ttl (flat ps) section udp) s (rr_post s hdr b N type ttl ps section udp).
Proof. intros Hb HN [Hlay Hps]. by eapply wruns_add_rr. Qed.

(** C25: [add_to_response] adds to the answer section the sets that answer the query: the
    CNAME record when there is no set of the type asked for, then the sets of that
    type, of the mail types, or of all types.  Every record of such a set is added
    once, with the time-to-live it has left, in the order of the set, which starts
    anywhere if so configured.  It gives up exactly on zone transfers, on types it does
    not know, and for lack of memory. *)
Theorem add_to_response_correct (rnd_recs : bool) (queryts : Z) (s : answer) (hdr b slack : list Z) (es : list (nat * list (list Z)))
    (N : list (list Z)) (r : list Z) (qtype : Z) (c : dns_cent) (udp : option nat) :
  built s hdr (lit b) es slack -> wf_name N -> shape c -> entry_wire c ->
  wruns (add_to_response rnd_recs queryts (enc_name N ++ r) qtype c udp) s (fun res s' =>
    match query_types c qtype with
    | Some tps => added_sets rnd_recs queryts s hdr b N c (cname_types c qtype ++ tps) res s'
    | None => res = None /\ cframe s s'
    end).
Proof. apply wruns_add_to_response. Qed.

(** An OPT pseudo record that is added to a reply is taken off again by
    [remove_opt_pseudo_rr], which restores the header and the length; whatever happens
    behind the message does not matter. *)
Theorem opt_pseudo_rr_roundtrip (s : answer) (hdr b slack : list Z) (es : list (nat * list (list Z)))
    (udpsize rcode ednsver Zflags : Z) :
  built s hdr (lit b) es slack -> bytes hdr -> (count16 hdr arcount < 65535)%Z ->
  wruns (add_opt_pseudo_rr udpsize rcode ednsver Zflags) s (fun res s' =>
    match res with
    | None => ~ plenty (a_cache s)
    | Some _ => a_sz s' = a_sz s + sizeof_opt_pseudo_rr /\
        exists m, remove_opt_pseudo_rr (a_msg s') (a_sz s') = Some (a_sz s, m) /\ take (a_sz s) m = take (a_sz s) (a_msg s)
    end).
Proof.
  intros Hb Hbh Hc. destruct (built_bounds _ _ _ _ _ _ Hb) as (m0 & Hf0 & _ & Hs & _ & Ht & _). apply fills_lit in Hf0 as ->.
  pose proof Hb as (_ & Hh & Hsz & _). rewrite length_lit in Hsz.
  eapply wruns_weaken; [by eapply wruns_add_opt|]. cbn beta. intros [[]|] s' [_ H]; [|exact H].
  destruct H as (slack' & (m & Hm & Hf) & Hh' & Hsz' & _). apply fills_lit in Hf as ->.
  set (o := opt_rr udpsize rcode ednsver Zflags) in *. assert (Ho : length o = sizeof_opt_pseudo_rr) by done.
  rewrite length_lit, length_app, Ho in Hsz'. split; [lia|].
  exists (hdr ++ b ++ o ++ slack'). split.
  - pose proof (remove_opt hdr b udpsize rcode ednsver Zflags slack' Hbh Hh Hc) as E. cbv zeta in E. fold o in E.
    rewrite Hm, <- !app_assoc, Hs, <- E. f_equal. rewrite Hsz', !length_app, Hh, Ho. lia.
  - rewrite Ht, Hs, app_assoc. apply take_app_length.
Qed.

(** The time-to-live in a reply is that of the record set less its age, never
    negative and never more than the stored one; local records do not age. *)
Theorem ans_ttl_correct (rs : rr_set) (queryts : Z) :
  (0 <= rs_ttl rs)%Z ->
  (0 <= ans_ttl rs queryts <= rs_ttl rs)%Z /\
  (tst (rs_flags rs) CF_LOCAL = true -> ans_ttl rs queryts = rs_ttl rs) /\
  (tst (rs_flags rs) CF_LOCAL = false -> rs_ts rs <= queryts -> ans_ttl rs queryts = Z.max 0 (rs_ts rs + rs_ttl rs - queryts))%Z.
Proof.
  intros H. unfold ans_ttl. destruct (tst (rs_flags rs) CF_LOCAL); cbn [negb]; [splits; [lia|lia|done|done]|]. cbv zeta.
  destruct (queryts - rs_ts rs <? 0)%Z eqn:E1; boolp;
    match goal with |- context [(?x <? 0)%Z] => destruct (x <? 0)%Z eqn:E2 end; boolp; splits; intros; try discriminate; lia.
Qed.

(** ** An example *)

Definition demo_reply : answer :=
  {| a_msg := replicate 254 0%Z; a_sz := 12; a_cb := []; a_sva := []; a_ar := []; a_cache := fresh_cache; a_random := [] |}.

Lemma demo_built : built demo_reply (replicate 12 0%Z) (lit []) [] (replicate 242 0%Z).
Proof.
  unfold built. splits; [exists []; split; [done|constructor]|done|done|done|]. split; [constructor|]. intros _ hdr m _ _. apply cb_ok_nil.
Qed.

Lemma demo_name : wf_name [[97]; [98; 99]]%Z.
Proof. split; [repeat constructor; simpl; lia|vm_compute; lia]. Qed.

Lemma add_rr_correct_witness :
  wruns (add_rr (enc_name [[97]; [98; 99]]%Z ++ []) T_MX 300 (flat [Lit [0; 5]%Z; Nm [[98; 99]]%Z]) S_ANSWER None) demo_reply
    (fun res s' => is_Some res /\ take (a_sz s') (a_msg s') =
      [0;0;0;0;0;0;0;1;0;0;0;0; 1;97;2;98;99;0; 0;15; 0;1; 0;0;1;44; 0;4; 0;5; 192;14]%Z).
Proof.
  destruct (add_rr_correct demo_reply (replicate 12 0%Z) [] (replicate 242 0%Z) [] [[97]; [98; 99]]%Z [] T_MX 300
    [Lit [0; 5]%Z; Nm [[98; 99]]%Z] S_ANSWER None) as (res & s' & Hrun & _).
  - exact demo_built.
  - exact demo_name.
  - split; [exists [0; 5]%Z, [[98; 99]]%Z; by split|]. repeat constructor; vm_compute; lia || discriminate.
  - exists res, s'. split; [exact Hrun|]. vm_compute in Hrun. injection Hrun as <- <-. split; [by eexists|reflexivity].
Defined.

(** An entry with one address that is 100 seconds old. *)
Definition demo_entry : dns_cent :=
  {| qname := [1; 97; 2; 98; 99; 0]%Z; cs := 0; num_rrs := 1; flags := 0; c_ns := cundef; c_soa := cundef;
     body := Rr (<[0 := Some {| rs_lent := None; rs_ttl := 300; rs_ts := 1000; rs_flags := 0;
                               rs_rrs := [[10; 0; 0; 1]; [10; 0; 0; 2]]%Z |}]> no_rrmu) None |}.

Lemma demo_entry_shape : shape demo_entry.
Proof. split; [done|]. by split. Qed.

(** An entry with addresses only. *)
Lemma addresses_wire c rs0 : shape c -> slot c 0 = Some rs0 -> (forall i, slot c (S i) = None) -> Forall (fun l => bytes l /\ length l = 4) (rs_rrs rs0) -> entry_wire c.
Proof.
  intros Hs H0 HS Ha tp rs H. rewrite getrrset_slot in H by done. injection H as H. destruct (type_index tp) as [i|] eqn:Ei; [|discriminate H]. cbn [mbind option_bind] in H.
  destruct (i <? NRRTOT); [|discriminate H]. destruct i as [|i]; [|by rewrite HS in H]. rewrite H0 in H. injection H as <-. assert (tp = T_A) as ->.
  { unfold type_index in Ei. destruct ((0 <=? tp - T_MIN)%Z && (tp - T_MIN <? Z.of_nat T_NUM)%Z) eqn:E; [|discriminate Ei]. boolp.
    assert (Hnd : NoDup rrlkuptab) by (apply (bool_decide_unpack _); vm_compute; done).
    pose proof (NoDup_lookup _ _ 0 _ Hnd Ei eq_refl) as E. unfold T_MIN, T_A in *. lia. }
  eapply Forall_impl; [exact Ha|]. intros l [Hl Hn]. exists [Lit l]. split; [split; [by exists l|by repeat constructor]|]. unfold flat. cbn. by rewrite app_nil_r.
Qed.

Lemma demo_entry_wire : entry_wire demo_entry.
Proof.
  eapply addresses_wire; [exact demo_entry_shape|reflexivity| |repeat constructor; discriminate].
  intros i. do 8 (destruct i as [|i]; [reflexivity|]). reflexivity.
Qed.

Lemma add_to_response_correct_witness :
  wruns (add_to_response false 1100 (enc_name [[97]; [98; 99]]%Z ++ []) T_A demo_entry None) demo_reply
    (fun res s' => is_Some res /\ count16 (a_msg s') ancount = 2%Z).
Proof.
  destruct (add_to_response_correct false 1100 demo_reply (replicate 12 0%Z) [] (replicate 242 0%Z) [] [[97]; [98; 99]]%Z [] T_A demo_entry None)
    as (res & s' & Hrun & _).
  - exact demo_built.
  - exact demo_name.
  - exact demo_entry_shape.
  - exact demo_entry_wire.
  - exists res, s'. split; [exact Hrun|]. vm_compute in Hrun. injection Hrun as <- <-. split; [by eexists|reflexivity].
Defined.

Lemma opt_pseudo_rr_roundtrip_witness :
  wruns (add_opt_pseudo_rr 1024 0 0 0) demo_reply (fun res s' => a_sz s' = 23 /\
    exists m, remove_opt_pseudo_rr (a_msg s') (a_sz s') = Some (12, m)).
Proof.
  destruct (opt_pseudo_rr_roundtrip demo_reply (replicate 12 0%Z) [] (replicate 242 0%Z) [] 1024 0 0 0) as (res & s' & Hrun & H).
  - exact demo_built.
  - repeat constructor; discriminate.
  - reflexivity.
  - exists res, s'. split; [exact Hrun|]. destruct res as [u|]; [|destruct H; constructor].
    destruct H as (Hsz & m & Hm & _). split; [exact Hsz|]. exists m. exact Hm.
Defined.

Lemma ans_ttl_correct_witness :
  (0 <= ans_ttl {| rs_lent := None; rs_ttl := 300; rs_ts := 1000; rs_flags := 0; rs_rrs := [] |} 1100 <= 300)%Z.
Proof.
  destruct (ans_ttl_correct {| rs_lent := None; rs_ttl := 300; rs_ts := 1000; rs_flags := 0; rs_rrs := [] |} 1100) as [H _];
    [discriminate|exact H].
Defined.

(** ** A record that is left out is not forgotten

    When [add_rr] takes back a record that does not fit, the names of the record stay in
    the compression buffer.  The next record with the same name may then fit, since its
    name is now a pointer: to the place that the first record would have had, which is
    the place of the pointer itself. *)

Definition long_name : list Z := enc_name [[97; 98; 99; 100; 101; 102; 103; 104]]%Z.

(** After an additional record has been left out, adding another one with the same
    name can produce a reply in which the name cannot be read. *)
Theorem add_rr_left_out :
  exists s1 s2 d, add_rr long_name T_A 300 [10; 0; 0; 1]%Z S_ADDITIONAL (Some 30) demo_reply = Some (Some tt, s1) /\
    a_sz s1 = a_sz demo_reply /\
    add_rr long_name T_A 300 [10; 0; 0; 2]%Z S_ADDITIONAL (Some 30) s1 = Some (Some tt, s2) /\
    decompress_name (take (a_sz s2) (a_msg s2)) (a_sz s2) (a_sz s1) (a_sz s2 - a_sz s1) (replicate DNSNAMEBUFSIZE 0%Z) = Some d /\
    dr_rc d = RC_FORMAT.
Proof.
  set (o1 := add_rr long_name T_A 300 [10; 0; 0; 1]%Z S_ADDITIONAL (Some 30) demo_reply).
  destruct o1 as [[r1 s1]|] eqn:E1; [|vm_compute in E1; discriminate E1].
  vm_compute in E1. injection E1 as <- <-. eexists _, _, _. splits; try (vm_compute; reflexivity).
Qed.
