(* ===== verification/Query.v ===== *)
(** Processing queries: decoding a query, composing the answer to it and the replies to
    erroneous ones, from [pdnsd/src/dns_answer.c].

    The buffer that holds the query has exactly the length that was received.  The
    resolver, [dns_cached_resolve] of dns_query.c, is a parameter: it takes a name, a
    type and the time of the query and returns a return code, an entry if that is
    [RC_OK], and the value it stores through [c_soa]. *)
From S2P Require Import Prelude Names DnsName RrTypes HashTab RrList Cent Cache Answer.

(** ** Decoding *)

Definition RC_SERVFAIL : Z := 2.
Definition RC_NAMEERR : Z := 3.
Definition RC_NOTSUPP : Z := 4.
Definition RC_BADVERS : Z := 16.

Definition QR_QUERY : Z := 0.
Definition QR_RESP : Z := 1.
Definition OP_QUERY : Z := 0.
Definition QC_ALL : Z := 255.
Definition UDP_BUFSIZE : Z := 512.

(** *** The header

    The bit fields of [dns_hdr_t] in the third and fourth byte. *)

Definition hdr_flags1 (qr opcode aa tc rd : Z) : Z :=
  (qr * 128 + Z.land opcode 15 * 8 + aa * 4 + tc * 2 + rd)%Z.
Definition hdr_flags2 (ra z ad cd rcode : Z) : Z :=
  (ra * 128 + z * 64 + ad * 32 + cd * 16 + Z.land rcode 15)%Z.

Definition h_rd (b : Z) : Z := Z.land b 1.
Definition h_tc (b : Z) : Z := Z.land (Z.shiftr b 1) 1.
Definition h_opcode (b : Z) : Z := Z.land (Z.shiftr b 3) 15.
Definition h_qr (b : Z) : Z := Z.land (Z.shiftr b 7) 1.
Definition h_rcode (b : Z) : Z := Z.land b 15.
Definition h_z (b : Z) : Z := Z.land (Z.shiftr b 6) 1.

(** [dns_queryel_t]. *)
Record dns_queryel := { qe_qtype : Z; qe_qclass : Z; qe_query : list Z }.

(** The loop of [decode_query]: the return code, the position behind the questions and
    the length that remains there, and the questions. *)
Fixpoint decode_loop (n : nat) (data : list Z) (ptr sz : nat) (ql : list dns_queryel)
    : M (Z * nat * nat * list dns_queryel) :=
  match n with
  | O => mret (RC_OK, ptr, sz, ql)
  | S n' =>
      d ← liftM (decompress_name data (length data) ptr sz (replicate DNSNAMEBUFSIZE 0%Z));
      if (dr_rc d =? RC_TRUNC)%Z then mret (RC_TRUNC, dr_src d, dr_sz d, ql)
      else if negb (dr_rc d =? RC_OK)%Z then mret (dr_rc d, dr_src d, dr_sz d, [])
      else if (dr_sz d <? 4) then mret (RC_TRUNC, dr_src d, dr_sz d, ql)
      else
        ok ← malloc;
        if (ok : bool) then
          qtype ← liftM (GETINT16 data (dr_src d));
          qclass ← liftM (GETINT16 data (dr_src d + 2));
          query ← liftM (rd_bytes (dr_tgt d) 0 (dr_len d));
          decode_loop n' data (dr_src d + 4) (dr_sz d - 4)
            (ql ++ [{| qe_qtype := qtype; qe_qclass := qclass; qe_query := query |}])
        else mret (RC_SERVFAIL, dr_src d, dr_sz d, [])
  end.

Definition decode_query (data : list Z) : M (Z * nat * nat * list dns_queryel) :=
  qd ← liftM (GETINT16 data qdcount);
  decode_loop (Z.to_nat qd) data sizeof_dns_hdr_t (length data - sizeof_dns_hdr_t) [].

(** [edns_info_t]. *)
Record edns_info := { ed_udpsize : Z; ed_rcode : Z; ed_version : Z; ed_do_flg : Z }.

(** One record of the additional section: a return code, or the new position, length,
    number of OPT records and their information. *)
Definition decode_additional_rr (data : list Z) (ptr sz : nat) (numopt : nat) (ep : edns_info)
    : option (Z + nat * nat * nat * edns_info) :=
  d ← decompress_name data (length data) ptr sz (replicate DNSNAMEBUFSIZE 0%Z);
  if negb (dr_rc d =? RC_OK)%Z then Some (inl (dr_rc d))
  else if (dr_sz d <? sizeof_rr_hdr_t) then Some (inl RC_TRUNC)
  else
    let sz := dr_sz d - sizeof_rr_hdr_t in
    type ← GETINT16 data (dr_src d);
    class ← GETINT16 data (dr_src d + 2);
    let ttlp := dr_src d + 4 in
    rdlen ← GETINT16 data (dr_src d + 8);
    if (sz <? Z.to_nat rdlen) then Some (inl RC_TRUNC)
    else
      '(numopt, ep) ←
        (if (type =? T_OPT)%Z then
           ep ← (if (numopt =? 0) then
                   t0 ← rd data ttlp;
                   t1 ← rd data (ttlp + 1);
                   t2 ← rd data (ttlp + 2);
                   f ← rd data 3;
                   Some {| ed_udpsize := class; ed_rcode := Z.lor (Z.shiftl t0 4) (h_rcode f); ed_version := t1;
                           ed_do_flg := Z.land (Z.shiftr t2 7) 1 |}
                 else Some ep);
           Some (S numopt, ep)
         else Some (numopt, ep));
      Some (inr (dr_src d + sizeof_rr_hdr_t + Z.to_nat rdlen, sz - Z.to_nat rdlen, numopt, ep)).

Fixpoint decode_query_additional (numrr : nat) (data : list Z) (ptr sz : nat) (numopt : nat) (ep : edns_info)
    : option (Z * nat * edns_info) :=
  match numrr with
  | O => Some (RC_OK, numopt, ep)
  | S n =>
      r ← decode_additional_rr data ptr sz numopt ep;
      match r with
      | inl res => Some (res, numopt, ep)
      | inr (ptr, sz, numopt, ep) => decode_query_additional n data ptr sz numopt ep
      end
  end.

(** ** Composing the answer *)

(** The header of a reply before its counts are filled in. *)
Definition reply_header (id : list Z) (rd : Z) : list Z :=
  id ++ [hdr_flags1 QR_RESP OP_QUERY 0 0 rd; hdr_flags2 1 0 0 0 RC_OK; 0; 0; 0; 0; 0; 0; 0; 0]%Z.

Definition mk_error_reply (id : list Z) (opcode rescode : Z) : list Z :=
  id ++ [hdr_flags1 QR_RESP opcode 0 0 0; hdr_flags2 1 0 0 0 rescode; 0; 0; 0; 0; 0; 0; 0; 0]%Z.

(** [ans->hdr.rcode=rc] and [ans->hdr.aa=1]. *)
Definition set_rcode (rc : Z) : W unit :=
  s ← getW; b ← liftW (rd (a_msg s) 3); PUTBYTES 3 [Z.lor (Z.land b 0xf0) (Z.land rc 15)].
Definition set_aa : W unit :=
  s ← getW; b ← liftW (rd (a_msg s) 2); PUTBYTES 2 [Z.lor b 4].

(** One round of the first loop: the question is repeated in the reply. *)
Definition put_question (qe : dns_queryel) : W unit :=
  s ← getW;
  qlen ← liftW (rhnlen (qe_query qe));
  _ ← reserve (dnsmsghdroffset + a_sz s + qlen + 4);
  _ ← put_name (qe_query qe);
  _ ← append (put16 (qe_qtype qe) ++ put16 (qe_qclass qe));
  add_count qdcount 1.

Fixpoint put_questions (ql : list dns_queryel) : W unit :=
  match ql with
  | [] => mret tt
  | qe :: ql' => _ ← put_question qe; put_questions ql'
  end.

(** The condition of the second loop: a question that cannot be answered. *)
Definition unsupported (qe : dns_queryel) : bool :=
  (not_cached_type (qe_qtype qe) &&
   negb ((qe_qtype qe =? QT_MAILB)%Z || (qe_qtype qe =? QT_MAILA)%Z || (qe_qtype qe =? QT_ALL)%Z)) ||
  negb ((qe_qclass qe =? C_IN)%Z || (qe_qclass qe =? QC_ALL)%Z).

(** [have_rr_MB(cached)] and the like. *)
Fixpoint have_any (c : dns_cent) (tps : list Z) : option bool :=
  match tps with
  | [] => Some false
  | tp :: tps' => b ← have_rr c tp; if (b : bool) then Some true else have_any c tps'
  end.

(** Whether the entry has no records of the type asked for. *)
Definition nothing_found (c : dns_cent) (qtype : Z) : option bool :=
  if is_type qtype then b ← have_rr c qtype; Some (negb b)
  else if (qtype =? QT_MAILB)%Z then b ← have_any c [T_MB; T_MG; T_MR]; Some (negb b)
  else if (qtype =? QT_MAILA)%Z then b ← have_any c [T_MD; T_MF]; Some (negb b)
  else Some false.

(** A set that is there and is not negative. *)
Definition getrrset_pos (c : dns_cent) (tp : Z) : option (option rr_set) :=
  r ← getrrset c tp;
  Some (match r with Some rs => if tst (rs_flags rs) CF_NEGATIVE then None else Some rs | None => None end).

Section Compose.
Context {P : Platform} (now : Z) (rnd_recs : bool) (udpbufsize : Z).
Context (dns_cached_resolve : list Z -> Z -> Z -> M (Z * option dns_cent * Z)).

(** [free_cent] and [pdnsd_free] of a copy, if there is one. *)
Definition release (c : option dns_cent) : W unit :=
  match c with Some c => cacheW (free_cent c) | None => mret tt end.

(** On failure the copy is released ([error_cached]). *)
Definition guard_cached {A} (c : option dns_cent) (m : W A) : W A :=
  r ← tryW m;
  match r with
  | Some a => mret a
  | None => _ ← release c; giveup
  end.

Fixpoint add_soas (c : dns_cent) (ttl : Z) (rrs : list (list Z)) (udp : option nat) : W unit :=
  match rrs with
  | [] => mret tt
  | rr :: rrs' => _ ← add_rr (qname c) T_SOA ttl rr S_AUTHORITY udp; add_soas c ttl rrs' udp
  end.

(** The SOA record for a name that does not exist. *)
Definition nameerr_soa (qname : list Z) (c_soa : Z) (udp : option nat) : W unit :=
  if negb (c_soa =? cundef)%Z then
    scnt ← liftW (rhnsegcnt qname);
    if (c_soa <? Z.of_nat scnt)%Z then
      nm ← liftW (skipsegs qname (scnt - Z.to_nat c_soa));
      '(cached, _) ← cacheW (lookup_cache now nm false);
      match cached with
      | Some c =>
          r ← liftW (get_rrsmu c RRMUINDEX_SOA);
          _ ← match r with
              | Some rs =>
                  if negb (tst (rs_flags rs) CF_NEGATIVE)
                  then guard_cached (Some c) (add_soas c (ans_ttl rs now) (rs_rrs rs) udp) else mret tt
              | None => mret tt
              end;
          cacheW (free_cent c)
      | None => mret tt
      end
    else mret tt
  else mret tt.

(** What is done for a return code that is not [RC_OK]; the reply is then complete. *)
Definition failed_answer (rc : Z) (qname : list Z) (c_soa : Z) (edns : bool) (udp : option nat) : W unit :=
  _ ← set_rcode rc;
  if (rc =? RC_NAMEERR)%Z then
    _ ← nameerr_soa qname c_soa udp;
    if edns then add_opt_pseudo_rr udpbufsize rc 0 0 else mret tt
  else mret tt.

(** The NS or SOA set for the authority section, from the entry, or from the entry of
    the domain it refers to, or from a local one higher up; the set belongs to the
    entry that is returned with it.  The entry [cached] is released when another one
    is used. *)
Definition authority_set (cached : dns_cent) (rretp : Z) : W (option rr_set * option dns_cent) :=
  rrset ← liftW (getrrset_pos cached rretp);
  match rrset with
  | Some rs => mret (Some rs, Some cached)
  | None =>
      let prev := cached in
      scnt ← liftW (rhnsegcnt (qname prev));
      let tcnt := if (rretp =? T_NS)%Z then c_ns prev else c_soa prev in
      nm ← liftW (if negb (tcnt =? cundef)%Z && (tcnt <? Z.of_nat scnt)%Z
                  then skipsegs (qname prev) (scnt - Z.to_nat tcnt) else Some (qname prev));
      '(cached, _) ← cacheW (lookup_cache now nm false);
      rrset ← match cached with Some c => liftW (getrrset_pos c rretp) | None => mret None end;
      '(rrset, cached) ←
        (if match rrset with None => tst (flags prev) DF_LOCAL | Some _ => false end then
           nm ← cacheW (getlocalowner (qname prev) rretp);
           match nm with
           | Some nm =>
               _ ← release cached;
               '(cached, _) ← cacheW (lookup_cache now nm false);
               rrset ← match cached with Some c => liftW (getrrset c rretp) | None => mret None end;
               mret (rrset, cached)
           | None => mret (rrset, cached)
           end
         else mret (rrset, cached));
      _ ← cacheW (free_cent prev);
      mret (rrset, cached)
  end.

Fixpoint add_ars (rretp : Z) (nm : list Z) (ttl : Z) (rrs : list (list Z)) : W unit :=
  match rrs with
  | [] => mret tt
  | rr :: rrs' => _ ← add_ar rretp rr nm ttl; add_ars rretp nm ttl rrs'
  end.

(** The authority records of the last entry of a chain are noted. *)
Definition note_authority (cached : dns_cent) (qtype : Z) : W unit :=
  nothing ← liftW (nothing_found cached qtype);
  let rretp := if (nothing : bool) then T_SOA else T_NS in
  '(rrset, c) ← authority_set cached rretp;
  _ ← match rrset with
      | Some rs =>
          c' ← liftW c;
          guard_cached c (add_ars rretp (qname c') (ans_ttl rs now) (rs_rrs rs))
      | None => mret tt
      end;
  release c.

(** Whether to go on with the name a CNAME record gives, and that name. *)
Definition next_name (cached : dns_cent) (rd : Z) (qtype : Z) (qname : list Z) : option (option (list Z)) :=
  if negb (rd =? 0)%Z && negb (qtype =? T_CNAME)%Z && negb (qtype =? QT_ALL)%Z then
    have ← has_type cached qtype;
    if (have : bool) then Some None else follow_cname_chain cached qname
  else Some None.

Definition MAX_HOPS : nat := 20.

(** The loop for one question.  The result is [inl] the return code when the reply is
    complete, and [inr] the authority flag otherwise. *)
Fixpoint answer_loop (hops : nat) (qe : dns_queryel) (qname : list Z) (rd : Z) (aa edns : bool) (udp : option nat) : W (Z + bool) :=
  '(rc, cached, c_soa) ← cacheW (dns_cached_resolve qname (qe_qtype qe) now);
  if negb (rc =? RC_OK)%Z then
    _ ← failed_answer rc qname c_soa edns udp;
    mret (inl rc)
  else
    cached ← liftW cached;
    let aa := aa && tst (flags cached) DF_LOCAL in
    _ ← guard_cached (Some cached) (add_to_response rnd_recs now qname (qe_qtype qe) cached udp);
    next ← liftW (next_name cached rd (qe_qtype qe) qname);
    match next with
    | Some qname =>
        _ ← cacheW (free_cent cached);
        match hops with
        | O => mret (inr aa)
        | S hops' => answer_loop hops' qe qname rd aa edns udp
        end
    | None =>
        _ ← note_authority cached (qe_qtype qe);
        mret (inr aa)
    end.

Fixpoint answer_questions (ql : list dns_queryel) (rd : Z) (aa edns : bool) (udp : option nat) : W (Z + bool) :=
  match ql with
  | [] => mret (inr aa)
  | qe :: ql' =>
      '(_, qname) ← liftW (rhncpy (replicate DNSNAMEBUFSIZE 0%Z) (qe_query qe));
      r ← answer_loop MAX_HOPS qe qname rd aa edns udp;
      match r with
      | inl rc => mret (inl rc)
      | inr aa => answer_questions ql' rd aa edns udp
      end
  end.

Fixpoint add_authority (ar : list rr_ext) (udp : option nat) : W unit :=
  match ar with
  | [] => mret tt
  | rre :: ar' =>
      _ ← (if (re_tp rre =? T_NS)%Z || (re_tp rre =? T_SOA)%Z
           then add_additional_rr (re_nm rre) (re_tp rre) (re_ttl rre) (re_tnm rre) S_AUTHORITY udp else mret tt);
      add_authority ar' udp
  end.

Fixpoint add_addresses (ar : list rr_ext) (udp : option nat) : W unit :=
  match ar with
  | [] => mret tt
  | rre :: ar' =>
      _ ← (if (re_tp rre =? T_NS)%Z || (re_tp rre =? RRETP_ADD)%Z
           then add_additional_a rnd_recs now now (re_tnm rre) udp else mret tt);
      add_addresses ar' udp
  end.

(** The authority and the additional section. *)
Definition add_sections (edns : bool) (udp : option nat) : W unit :=
  s ← getW;
  _ ← add_authority (a_ar s) udp;
  s ← getW;
  if match udp with Some u => (u <? a_sz s + sizeof_opt_pseudo_rr) | None => false end then mret tt
  else
    _ ← (if edns then add_opt_pseudo_rr udpbufsize RC_OK 0 0 else mret tt);
    add_addresses (a_ar s) udp.

(** [compose_answer] after its first allocation; the result is the return code.  Giving
    up is the return of NULL. *)
Definition compose_answer (ql : list dns_queryel) (id : list Z) (rd : Z) (edns : bool) (udp : option nat) : W Z :=
  ok ← cacheW malloc;
  if negb ok then giveup
  else
    _ ← modW (fun s => set_sz sizeof_dns_hdr_t (set_msg (reply_header id rd ++
                replicate (ALLOCINITIALSIZE - dnsmsghdroffset - sizeof_dns_hdr_t) 0%Z) s));
    _ ← put_questions ql;
    if existsb unsupported ql then
      _ ← set_rcode RC_NOTSUPP;
      mret RC_NOTSUPP
    else
      r ← answer_questions ql rd true edns udp;
      match r with
      | inl rc => mret rc
      | inr aa =>
          _ ← add_sections edns udp;
          _ ← (if (aa : bool) then set_aa else mret tt);
          mret RC_OK
      end.

(** ** Processing a query *)

(** A fresh set of local variables. *)
Definition no_answer (c : cache) (rnd : list Z) : answer :=
  {| a_msg := []; a_sz := 0; a_cb := []; a_sva := []; a_ar := []; a_cache := c; a_random := rnd |}.

(** The label [error_reply]. *)
Definition error_reply (data : list Z) (res : Z) : W Z :=
  let extended := negb (Z.ldiff res 15 =? 0)%Z in
  ok ← cacheW malloc;
  if negb ok then giveup
  else
    id ← liftW (rd_bytes data 0 2);
    opcode ← (if (3 <=? length data) then b ← liftW (rd data 2); mret (h_opcode b) else mret OP_QUERY);
    _ ← modW (fun s => set_sz sizeof_dns_hdr_t (set_msg (mk_error_reply id opcode res ++
                replicate (if extended then sizeof_opt_pseudo_rr else 0) 0%Z) s));
    _ ← (if extended then _ ← tryW (add_opt_pseudo_rr udpbufsize res 0 0); mret tt else mret tt);
    mret res.

(** The part of [process_query] that looks for EDNS information: [inl] an error, [inr]
    whether there is any and the new limit for the reply. *)
Definition check_edns (data : list Z) (res : Z) (ptr sz : nat) (tc : Z) (udp : option nat) : option (Z + bool * option nat) :=
  ac ← GETINT16 data arcount;
  if (ac =? 0)%Z then Some (inr (false, udp))
  else if (res =? RC_TRUNC)%Z then Some (inl RC_FORMAT)
  else
    '(res, numopt, ep) ← decode_query_additional (Z.to_nat ac) data ptr sz 0
                           {| ed_udpsize := 0; ed_rcode := 0; ed_version := 0; ed_do_flg := 0 |};
    if negb ((res =? RC_OK)%Z || ((res =? RC_TRUNC)%Z && negb (tc =? 0)%Z)) then Some (inl RC_FORMAT)
    else if (numopt =? 0) then Some (inr (false, udp))
    else if negb (ed_version ep =? 0)%Z then Some (inl RC_BADVERS)
    else if negb (ed_rcode ep =? 0)%Z then Some (inl RC_FORMAT)
    else Some (inr (true, match udp with
                          | Some u => if (UDP_BUFSIZE <? ed_udpsize ep)%Z
                                      then Some (Z.to_nat (Z.min udpbufsize (ed_udpsize ep))) else Some u
                          | None => None
                          end)).

(** The header checks: [None] when the message is to be ignored, otherwise [inl] the
    code of an error reply or [inr] the flag bytes. *)
Definition check_header (data : list Z) : option (option (Z + Z)) :=
  if (length data <? 2) then Some None
  else if (length data <? sizeof_dns_hdr_t) then Some (Some (inl RC_FORMAT))
  else
    f1 ← rd data 2;
    f2 ← rd data 3;
    an ← GETINT16 data ancount;
    ns ← GETINT16 data nscount;
    if negb (h_qr f1 =? QR_QUERY)%Z then Some None
    else if negb (h_opcode f1 =? OP_QUERY)%Z then Some (Some (inl RC_NOTSUPP))
    else if negb (h_z f2 =? 0)%Z then Some (Some (inl RC_FORMAT))
    else if negb (h_rcode f2 =? RC_OK)%Z then Some None
    else if negb (an =? 0)%Z then Some (Some (inl RC_FORMAT))
    else if negb (ns =? 0)%Z then Some (Some (inl RC_FORMAT))
    else Some (Some (inr f1)).

(** The part behind the header checks: [inl] the code of an error reply, or [inr] the
    questions, whether there is EDNS information and the limit for the reply. *)
Definition decode_request (data : list Z) (f1 : Z) (udp : option nat) : M (Z + list dns_queryel * bool * option nat) :=
  '(res, ptr, sz, ql) ← decode_query data;
  if (res =? RC_TRUNC)%Z && ((h_tc f1 =? 0)%Z || match ql with [] => true | _ => false end) then mret (inl RC_FORMAT)
  else if negb (res =? RC_OK)%Z && negb (res =? RC_TRUNC)%Z then mret (inl res)
  else
    e ← liftM (check_edns data res ptr sz (h_tc f1) udp);
    match e with
    | inl res => mret (inl res)
    | inr (edns, udp) => mret (match ql with [] => inl RC_FORMAT | _ => inr (ql, edns, udp) end)
    end.

(** [process_query]: the reply and the return code, or nothing when there is none. *)
Definition process_query (data : list Z) (udp : option nat) : W Z :=
  h ← liftW (check_header data);
  match h with
  | None => giveup
  | Some (inl res) => error_reply data res
  | Some (inr f1) =>
      r ← cacheW (decode_request data f1 udp);
      match r with
      | inl res => error_reply data res
      | inr (ql, edns, udp) =>
          id ← liftW (rd_bytes data 0 2);
          r ← tryW (compose_answer ql id (h_rd f1) edns udp);
          match r with
          | Some rc => mret rc
          | None => error_reply data RC_SERVFAIL
          end
      end
  end.
End Compose.
