(* ===== verification/QueryDecode.v ===== *)
(** Specification of the decoding of queries in Query. *)
From S2P Require Import Prelude Names DnsName Compress RrTypes HashTab RrList Cent CentSpec Cache Answer AnswerRr Query.

(** ** The question section (RFC 1035, section 4.1.2)

    [questions_at data H p ql p']: the questions [ql] stand at offset [p] of the message
    and end at [p']; their names take at most [H] compression pointers each. *)
Inductive questions_at (data : list Z) (H : nat) : nat -> list dns_queryel -> nat -> Prop :=
  | qa_nil p : questions_at data H p [] p
  | qa_cons p qe ql p' N h c :
      name_at data (length data) p N h c -> wf_name N -> h <= H -> p + c + 4 <= length data ->
      qe_query qe = enc_name N -> GETINT16 data (p + c) = Some (qe_qtype qe) -> GETINT16 data (p + c + 2) = Some (qe_qclass qe) ->
      questions_at data H (p + c + 4) ql p' -> questions_at data H p (qe :: ql) p'.

Lemma questions_at_mono data H H' p ql p' : H <= H' -> questions_at data H p ql p' -> questions_at data H' p ql p'.
Proof. intros Hle. induction 1; [constructor|]. eapply qa_cons; eauto. lia. Qed.

Lemma questions_at_snoc data H p ql p1 qe p2 :
  questions_at data H p ql p1 -> questions_at data H p1 [qe] p2 -> questions_at data H p (ql ++ [qe]) p2.
Proof. induction 1; intros; [done|]. cbn [app]. eapply qa_cons; eauto. Qed.

Lemma get16_total data p : p + 2 <= length data -> exists x, GETINT16 data p = Some x.
Proof. intros H. exists (count16 data p). by apply get16_some. Qed.

(** A name in a message can be read in one way only. *)
Lemma name_at_det data n p N h c : name_at data n p N h c -> forall N' h' c', name_at data n p N' h' c' -> N' = N /\ h' = h /\ c' = c.
Proof.
  induction 1 as [p Hp Hr|p l N h c Hl Hlt Hr Hb Hna IH|p hi lo N h c Hlt Hr Hhi Hlo Hoff Hna IH]; intros N' h' c' H';
    inversion H' as [q Hq Hr'|q l' ls h2 c2 Hl' Hlt' Hr' Hb' Hna'|q hi' lo' ls h2 c2 Hlt' Hr' Hhi' Hlo' Hoff' Hna']; subst.
  - done.
  - exfalso. destruct Hl' as [? _]. rewrite Hr in Hr'. injection Hr' as Hr'. lia.
  - exfalso. rewrite Hr in Hr'. injection Hr' as Hr'. lia.
  - exfalso. destruct Hl as [? _]. rewrite Hr in Hr'. injection Hr' as Hr'. lia.
  - rewrite Hr in Hr'. injection Hr' as Hr'. apply Nat2Z.inj in Hr'. rewrite Hr' in Hb. rewrite Hb' in Hb. injection Hb as ->.
    destruct (IH _ _ _ Hna') as (-> & -> & ->). done.
  - exfalso. rewrite Hr in Hr'. injection Hr' as Hr'. destruct Hl as [? _]. lia.
  - exfalso. rewrite Hr in Hr'. injection Hr' as Hr'. lia.
  - exfalso. rewrite Hr in Hr'. injection Hr' as Hr'. destruct Hl' as [? _]. lia.
  - rewrite Hr in Hr'. injection Hr' as <-. rewrite Hlo in Hlo'. injection Hlo' as <-.
    destruct (IH _ _ _ Hna') as (-> & -> & ->). done.
Qed.

Lemma questions_at_det data H p qs q : questions_at data H p qs q -> forall H' qs' q',
  questions_at data H' p qs' q' -> length qs = length qs' -> qs' = qs /\ q' = q.
Proof.
  induction 1 as [p|p qe ql q N h c Hna _ _ _ E Ht Hc _ IH]; intros H' qs' q' H2 Hl; destruct qs' as [|qe' qs']; try discriminate Hl;
    inversion H2 as [|? ? ? ? N' h' c' Hna' _ _ _ E' Ht' Hc' Hq']; subst; [done|].
  destruct (name_at_det _ _ _ _ _ _ Hna _ _ _ Hna') as (-> & _ & ->). destruct (IH _ _ _ Hq') as [-> ->]; [cbn in Hl; lia|].
  split; [|done]. f_equal. destruct qe, qe'. cbn in *. f_equal; congruence.
Qed.

(** What [decompress_name] returns, in the form in which it is used here. *)
Lemma decompress_cases data p sz :
  bytes data -> p + sz = length data ->
  exists d, decompress_name data (length data) p sz (replicate DNSNAMEBUFSIZE 0%Z) = Some d /\
    ((dr_rc d = RC_OK /\ exists N h c T, name_at data (length data) p N h c /\ wf_name N /\ c <= sz /\
        dr_src d = p + c /\ dr_sz d = sz - c /\ dr_tgt d = enc_name N ++ T /\ dr_len d = length (enc_name N)) \/
     ((dr_rc d = RC_FORMAT \/ dr_rc d = RC_TRUNC) /\ dr_src d = p /\ dr_sz d = sz /\
        forall N h c, name_at data (length data) p N h c -> wf_name N -> h <= 255 -> False)).
Proof.
  intros Hb Hsz.
  destruct (decompress_name_spec data (length data) p sz (replicate DNSNAMEBUFSIZE 0%Z)) as (d & Hd & Hlen & Hrc & Hok & Herr & Hcomp);
    [done|lia|apply length_replicate|].
  exists d. split; [done|]. destruct (decide (dr_rc d = RC_OK)) as [E|E].
  - left. split; [done|]. destruct (Hok E) as (N & h & c & T & Hna & HN & Ht & Hl & Hc & Hs & Hz). by exists N, h, c, T.
  - right. destruct Hrc as [?|Hrc]; [done|]. destruct (Herr E) as [? ?]. splits; [done..|].
    intros N h c Hna HN Hh. apply E. eapply Hcomp; try done. apply name_at_lt in Hna. lia.
Qed.

(** ** [decode_query] *)

Definition decoded (data : list Z) (n p : nat) (ql : list dns_queryel) (c : cache) (r : Z * nat * nat * list dns_queryel)
    (c' : cache) : Prop :=
  let '(res, ptr, sz, ql') := r in
  mem_only c c' /\ (plenty c -> plenty c') /\
  ((res = RC_OK /\ exists qs H, ql' = ql ++ qs /\ length qs = n /\ questions_at data H p qs ptr /\ ptr + sz = length data) \/
   (res = RC_TRUNC /\ exists qs H q, ql' = ql ++ qs /\ length qs < n /\ questions_at data H p qs q) \/
   (res = RC_FORMAT /\ ql' = []) \/
   (res = RC_SERVFAIL /\ ql' = [] /\ ~ plenty c)) /\
  (forall qs q, plenty c -> length qs = n -> questions_at data 255 p qs q -> res = RC_OK).

Lemma runs_decode_loop data n : forall p sz ql c,
  bytes data -> p + sz = length data -> runs (decode_loop n data p sz ql) c (decoded data n p ql c).
Proof.
  induction n as [|n IH]; intros p sz ql c Hb Hsz; cbn [decode_loop].
  { apply runs_ret. unfold decoded. splits; auto with pdnsd. left. split; [done|]. exists [], 0. rewrite app_nil_r.
    splits; [done|done|constructor|done]. }
  destruct (decompress_cases data p sz Hb Hsz) as (d & Hd & Hcases). run_lift; [exact Hd|].
  destruct Hcases as [(Hrc & N & h & k & T & Hna & HN & Hk & Hsrc & Hdsz & Htgt & Hlen)|(Hrc & Hsrc & Hdsz & Hno)].
  2:{ assert (Hbad : forall qs q, length qs = S n -> questions_at data 255 p qs q -> False).
      { intros qs q Hl Hq. inversion Hq; subst; [done|]. by eapply Hno. }
      destruct (dr_rc d =? RC_TRUNC)%Z eqn:E1; boolp.
      - apply runs_ret. unfold decoded. splits; auto with pdnsd; [|intros; exfalso; eauto].
        right. left. split; [done|]. exists [], 0, p. rewrite app_nil_r. splits; [done|cbn; lia|constructor].
      - destruct Hrc as [Hrc|]; [|done]. rewrite Hrc. cbn [RC_FORMAT RC_OK Z.eqb negb].
        apply runs_ret. unfold decoded. splits; auto with pdnsd. intros. exfalso. eauto. }
  rewrite Hrc. cbn [RC_OK RC_TRUNC Z.eqb negb]. rewrite Hdsz, Hsrc.
  destruct (sz - k <? 4) eqn:E4; boolp.
  { apply runs_ret. unfold decoded. splits; auto with pdnsd.
    - right. left. split; [done|]. exists [], 0, p. rewrite app_nil_r. splits; [done|cbn; lia|constructor].
    - intros qs q _ Hl Hq. exfalso. inversion Hq as [|p0 qe qs' p' N' h' k' Hna' ? ? Hlt]; subst; [done|].
      destruct (name_at_det _ _ _ _ _ _ Hna _ _ _ Hna') as (_ & _ & ->). lia. }
  run_with runs_malloc_any. intros ok c1 [Hm Hp]. destruct ok.
  2:{ apply runs_ret. unfold decoded. splits; [done|intros H; by apply Hp| |].
      - right. right. right. splits; [done|done|]. intros H. by destruct (Hp H).
      - intros ? ? H. by destruct (Hp H). }
  destruct (get16_total data (p + k)) as [ty Hty]; [lia|]. run_lift; [exact Hty|].
  destruct (get16_total data (p + k + 2)) as [cl Hcl]; [lia|]. run_lift; [exact Hcl|].
  run_lift; [rewrite Htgt, Hlen; apply rd_bytes_front|].
  set (qe := {| qe_qtype := ty; qe_qclass := cl; qe_query := enc_name N |}).
  eapply runs_weaken; [apply (IH (p + k + 4) (sz - k - 4) (ql ++ [qe]) c1 Hb); lia|].
  intros [[[res ptr] sz'] ql'] c2 (Hm2 & Hp2 & Hres & Hcomp). unfold decoded.
  splits; [by eapply mem_only_trans|intros H; apply Hp2; by apply Hp| |].
  - destruct Hres as [(-> & qs & H & -> & Hl & Hq & Hps)|[(-> & qs & H & q & -> & Hl & Hq)|[(-> & ->)|(-> & -> & Hnp)]]].
    + left. split; [done|]. exists (qe :: qs), (Nat.max h H). rewrite <- app_assoc. splits; [done|cbn; lia| |done].
      eapply (qa_cons _ _ p qe qs ptr N h k); try done; try lia. apply (questions_at_mono _ H); [lia|done].
    + right. left. split; [done|]. exists (qe :: qs), (Nat.max h H), q. rewrite <- app_assoc. splits; [done|cbn; lia|].
      eapply (qa_cons _ _ p qe qs q N h k); try done; try lia. apply (questions_at_mono _ H); [lia|done].
    + right. right. by left.
    + right. right. right. splits; [done|done|]. intros H. apply Hnp. by apply Hp.
  - intros qs q Hpl Hl Hq. inversion Hq as [|p0 qe' qs' p' N' h' k' Hna' HN' Hh' Hlt Hqn Ht' Hc' Hrest]; subst; [done|].
    destruct (name_at_det _ _ _ _ _ _ Hna _ _ _ Hna') as (_ & _ & ->).
    apply (Hcomp qs' q); [by apply Hp|cbn in Hl; lia|done].
Qed.

Lemma runs_decode_query data c :
  bytes data -> sizeof_dns_hdr_t <= length data ->
  runs (decode_query data) c (decoded data (Z.to_nat (count16 data qdcount)) sizeof_dns_hdr_t [] c).
Proof.
  intros Hb Hl. unfold decode_query. run_lift; [apply get16_some; vm_compute in Hl |- *; lia|].
  apply runs_decode_loop; [done|lia].
Qed.

(** ** [decode_query_additional] *)

(** A record of the additional section, as far as it matters. *)
Record arec := { ar_type : Z; ar_class : Z; ar_t0 : Z; ar_t1 : Z; ar_t2 : Z }.

Inductive additional_at (data : list Z) (H : nat) : nat -> list arec -> nat -> Prop :=
  | aa_nil p : additional_at data H p [] p
  | aa_cons p x rs p' N h c rdlen :
      name_at data (length data) p N h c -> wf_name N -> h <= H ->
      p + c + sizeof_rr_hdr_t + Z.to_nat rdlen <= length data ->
      GETINT16 data (p + c) = Some (ar_type x) -> GETINT16 data (p + c + 2) = Some (ar_class x) ->
      rd data (p + c + 4) = Some (ar_t0 x) -> rd data (p + c + 4 + 1) = Some (ar_t1 x) -> rd data (p + c + 4 + 2) = Some (ar_t2 x) ->
      GETINT16 data (p + c + 8) = Some rdlen ->
      additional_at data H (p + c + sizeof_rr_hdr_t + Z.to_nat rdlen) rs p' ->
      additional_at data H p (x :: rs) p'.

Lemma additional_at_mono data H H' p rs p' : H <= H' -> additional_at data H p rs p' -> additional_at data H' p rs p'.
Proof. intros Hle. induction 1; [constructor|]. eapply aa_cons; eauto. lia. Qed.

Lemma additional_at_det data H p rs q : additional_at data H p rs q -> forall H' rs' q',
  additional_at data H' p rs' q' -> length rs = length rs' -> rs' = rs /\ q' = q.
Proof.
  induction 1 as [p|p x rs q N h c rl Hna _ _ _ E1 E2 E3 E4 E5 Hrl _ IH]; intros H' rs' q' H2 Hl; destruct rs' as [|x' rs']; try discriminate Hl;
    inversion H2 as [|? ? ? ? N' h' c' rl' Hna' _ _ _ E1' E2' E3' E4' E5' Hrl' Hq']; subst; [done|].
  destruct (name_at_det _ _ _ _ _ _ Hna _ _ _ Hna') as (-> & _ & ->). rewrite Hrl in Hrl'. injection Hrl' as <-.
  destruct (IH _ _ _ Hq') as [-> ->]; [cbn in Hl; lia|].
  split; [|done]. f_equal. destruct x, x'. cbn in *. f_equal; congruence.
Qed.

Definition is_opt (x : arec) : bool := (ar_type x =? T_OPT)%Z.

(** The information of the first OPT record. *)
Definition edns_of (rcode : Z) (x : arec) : edns_info :=
  {| ed_udpsize := ar_class x; ed_rcode := Z.lor (Z.shiftl (ar_t0 x) 4) rcode; ed_version := ar_t1 x;
     ed_do_flg := Z.land (Z.shiftr (ar_t2 x) 7) 1 |}.

Definition edns_after (rcode : Z) (k : nat) (ep : edns_info) (rs : list arec) : edns_info :=
  if (k =? 0) then match List.find is_opt rs with Some x => edns_of rcode x | None => ep end else ep.

Definition opts (rs : list arec) : nat := length (List.filter is_opt rs).

Section Additional.
Context (data : list Z) (f2 : Z) (Hb : bytes data) (Hf2 : rd data 3 = Some f2).

Lemma decode_additional_rr_spec p sz k ep :
  p + sz = length data ->
  exists r, decode_additional_rr data p sz k ep = Some r /\
    match r with
    | inl res => (res = RC_TRUNC \/ res = RC_FORMAT) /\ forall x rs q, additional_at data 255 p (x :: rs) q -> False
    | inr (p', sz', k', ep') => p' + sz' = length data /\
        exists x H, additional_at data H p [x] p' /\
          k' = (if is_opt x then S k else k) /\ ep' = (if is_opt x && (k =? 0) then edns_of (h_rcode f2) x else ep) /\
          forall x' rs q, additional_at data 255 p (x' :: rs) q -> additional_at data 255 p' rs q
    end.
Proof.
  intros Hsz. unfold decode_additional_rr. destruct (decompress_cases data p sz Hb Hsz) as (d & Hd & Hcases). rewrite Hd. sbind.
  destruct Hcases as [(Hrc & N & h & c & T & Hna & HN & Hk & Hsrc & Hdsz & _)|(Hrc & _ & _ & Hno)].
  2:{ assert (E : (dr_rc d =? RC_OK)%Z = false) by (destruct Hrc as [->| ->]; done). rewrite E. cbn [negb].
      eexists. split; [done|]. split; [tauto|]. intros x rs q Hq. inversion Hq; subst. by eapply Hno. }
  rewrite Hrc. cbn [RC_OK Z.eqb negb]. rewrite Hdsz, Hsrc.
  destruct (sz - c <? sizeof_rr_hdr_t) eqn:E1; boolp.
  { eexists. split; [done|]. split; [by left|]. intros x rs q Hq.
    inversion Hq as [|? ? ? ? N' h' c' rdl Hna' ? ? Hlt]; subst.
    destruct (name_at_det _ _ _ _ _ _ Hna _ _ _ Hna') as (_ & _ & ->). lia. }
  assert (Hin : p + c + 10 <= length data) by (unfold sizeof_rr_hdr_t in *; lia).
  destruct (get16_total data (p + c)) as [ty Hty]; [lia|]. destruct (get16_total data (p + c + 2)) as [cl Hcl]; [lia|].
  destruct (get16_total data (p + c + 8)) as [rl Hrl]; [lia|]. rewrite Hty, Hcl, Hrl. sbind.
  destruct (rd_lt data (p + c + 4)) as [t0 Ht0]; [lia|]. destruct (rd_lt data (p + c + 4 + 1)) as [t1 Ht1]; [lia|].
  destruct (rd_lt data (p + c + 4 + 2)) as [t2 Ht2]; [lia|]. rewrite Ht0, Ht1, Ht2, Hf2. sbind.
  destruct (sz - c - sizeof_rr_hdr_t <? Z.to_nat rl) eqn:E2; boolp.
  { eexists. split; [done|]. split; [by left|]. intros x rs q Hq.
    inversion Hq as [|? ? ? ? N' h' c' rdl Hna' ? ? Hlt ? ? ? ? ? Hrl']; subst.
    destruct (name_at_det _ _ _ _ _ _ Hna _ _ _ Hna') as (_ & _ & ->). rewrite Hrl in Hrl'. injection Hrl' as <-. lia. }
  set (x := {| ar_type := ty; ar_class := cl; ar_t0 := t0; ar_t1 := t1; ar_t2 := t2 |}).
  exists (inr (p + c + sizeof_rr_hdr_t + Z.to_nat rl, sz - c - sizeof_rr_hdr_t - Z.to_nat rl,
    (if is_opt x then S k else k), (if is_opt x && (k =? 0) then edns_of (h_rcode f2) x else ep))). split.
  { unfold is_opt. cbn [ar_type x]. destruct (ty =? T_OPT)%Z; [|done]. cbn [andb]. by destruct (k =? 0). }
  split; [lia|]. exists x, h. splits; [|done|done|].
  - apply (aa_cons _ _ p x [] _ N h c rl); try done; try lia. constructor.
  - intros x' rs q Hq. inversion Hq as [|? ? ? ? N' h' c' rdl Hna' ? ? Hlt ? ? ? ? ? Hrl']; subst.
    destruct (name_at_det _ _ _ _ _ _ Hna _ _ _ Hna') as (_ & _ & ->). rewrite Hrl in Hrl'. by injection Hrl' as <-.
Qed.

Lemma decode_additional_spec n : forall p sz k ep,
  p + sz = length data ->
  exists res k' ep', decode_query_additional n data p sz k ep = Some (res, k', ep') /\
    (res = RC_OK \/ res = RC_TRUNC \/ res = RC_FORMAT) /\
    (exists rs H q, additional_at data H p rs q /\ (res = RC_OK <-> length rs = n) /\ k' = k + opts rs /\
       ep' = edns_after (h_rcode f2) k ep rs) /\
    (forall rs q, length rs = n -> additional_at data 255 p rs q -> res = RC_OK).
Proof.
  induction n as [|n IH]; intros p sz k ep Hsz; cbn [decode_query_additional].
  { exists RC_OK, k, ep. splits; [done|by left| |done]. exists [], 0, p. unfold edns_after, opts. cbn.
    splits; [constructor|done|lia|]. by destruct (k =? 0). }
  destruct (decode_additional_rr_spec p sz k ep Hsz) as (r & Hr & Hspec). rewrite Hr. sbind.
  destruct r as [res|[[[p' sz'] k'] ep']].
  - destruct Hspec as [Hres Hno]. exists res, k, ep. splits; [done|by right| |].
    + exists [], 0, p. unfold edns_after, opts. cbn. splits; [constructor| |lia|by destruct (k =? 0)].
      split; [|done]. intros ->. by destruct Hres.
    + intros [|x rs] q Hl Hq; [done|]. exfalso. by eapply Hno.
  - destruct Hspec as (Hsz' & x & H & Hone & -> & -> & Hnext).
    destruct (IH p' sz' (if is_opt x then S k else k) (if is_opt x && (k =? 0) then edns_of (h_rcode f2) x else ep) Hsz')
      as (res & k2 & ep2 & Hrun & Hres & (rs & H2 & q & Hat & Hlen & -> & ->) & Hcomp).
    eexists res, _, _. splits; [exact Hrun|done| |].
    + exists (x :: rs), (Nat.max H H2), q. splits.
      * inversion Hone as [|? ? ? ? N h c rl]; subst.
        match goal with Hn : additional_at _ _ _ [] _ |- _ => inversion Hn; subst end.
        eapply aa_cons; try done; [lia|]. apply (additional_at_mono _ H2); [lia|done].
      * rewrite Hlen. cbn [length]. lia.
      * unfold opts. cbn [List.filter]. destruct (is_opt x); cbn [length]; lia.
      * unfold edns_after. cbn [List.find]. destruct (is_opt x); cbn [andb]; [|done]. by destruct k.
    + intros [|x' rs'] q' Hl Hq; [done|]. apply (Hcomp rs' q'); [cbn in Hl; lia|by eapply Hnext].
Qed.
End Additional.
