(* ===== verification/Keeps.v ===== *)
(** Operations of the cache that do not change whether record sets are inserted in order, and of which the memory that is
    left afterwards is a part of what there was. *)
From S2P Require Import Prelude Names DnsName RrTypes HashTab RrList Cent Cache.

(** ** The order of the list of record sets is kept *)

(** A computation that does not change [insert_sort] and makes no memory. *)
Definition keeps {A} (m : M A) : Prop := forall s a s', m s = Some (a, s') -> insert_sort s' = insert_sort s /\ mem s' `suffix_of` mem s.

Lemma keeps_ret {A} (a : A) : keeps (mret a).
Proof. by intros s b s' [= <- <-]. Qed.
Lemma keeps_bind {A B} (m : M A) (k : A -> M B) : keeps m -> (forall a, keeps (k a)) -> keeps (mbind k m).
Proof.
  intros Hm Hk s b s' E. unfold mbind, M_bind in E. destruct (m s) as [[a s1]|] eqn:E1; [|done].
  destruct (Hm _ _ _ E1) as [F1 H1]. destruct (Hk a _ _ _ E) as [F2 H2]. split; [congruence|by etrans].
Qed.
Lemma keeps_lift {A} (o : option A) : keeps (liftM o).
Proof. intros s a s' E. unfold liftM in E. destruct o; [|done]. by injection E as <- <-. Qed.
Lemma keeps_get : keeps getM.
Proof. by intros s a s' [= <- <-]. Qed.
Lemma keeps_mod f : (forall s, insert_sort (f s) = insert_sort s /\ mem (f s) = mem s) -> keeps (modM f).
Proof. intros H s a s' [= <- <-]. destruct (H s) as [-> ->]. done. Qed.
Lemma keeps_malloc : keeps malloc.
Proof. intros s a s' E. unfold malloc in E. destruct (mem s) as [|b m] eqn:Em; injection E as <- <-; [by rewrite Em|]. split; [done|]. cbn. by apply suffix_cons_r. Qed.
Lemma keeps_foldM {A B} (f : B -> A -> M B) l : (forall b x, keeps (f b x)) -> forall b, keeps (foldM f l b).
Proof. intros Hf. induction l as [|x l IH]; intros b; cbn [foldM]; [apply keeps_ret|]. apply keeps_bind; auto. Qed.

Create HintDb keeps.
#[export] Hint Resolve keeps_ret keeps_lift keeps_get keeps_malloc : keeps.
Ltac keeps := repeat match goal with
  | |- keeps (mbind _ _) => apply keeps_bind; [|intros ?]
  | |- keeps (modM _) => apply keeps_mod; intros ?; try done
  | |- keeps (let _ := _ in _) => cbv zeta
  | |- keeps (match ?x with _ => _ end) => destruct x
  | |- keeps _ => solve [auto with keeps]
  end.

Section Keeps.
Context {P : Platform} (now : Z).

Lemma keeps_deref id : keeps (deref id).
Proof. unfold deref. keeps. Qed.
Lemma keeps_store id c : keeps (Cache.store id c).
Proof. unfold Cache.store. keeps. Qed.
Lemma keeps_hash_lookup k : keeps (hash_lookup k).
Proof. unfold hash_lookup. keeps. Qed.
#[local] Hint Resolve keeps_deref keeps_store keeps_hash_lookup : keeps.
Lemma keeps_remove_lent l : keeps (remove_lent l).
Proof. unfold remove_lent, remove_rrl. keeps. Qed.
#[local] Hint Resolve keeps_remove_lent : keeps.
Lemma keeps_del_rrset rs : keeps (del_rrset rs).
Proof. unfold del_rrset. keeps. Qed.
#[local] Hint Resolve keeps_del_rrset : keeps.
Lemma keeps_drop_set id i : keeps (drop_set id i).
Proof. unfold drop_set, del_cent_rrset_by_index, add_size. keeps. Qed.
#[local] Hint Resolve keeps_drop_set : keeps.
Lemma keeps_purge_all id test : keeps (purge_all_rrsets now id test).
Proof. unfold purge_all_rrsets, add_size. keeps. apply keeps_foldM. intros [[? ?] ?] i. unfold purge_step. keeps. Qed.
#[local] Hint Resolve keeps_purge_all : keeps.
Lemma keeps_stale_ref c n z i : keeps (stale_ref now c n z i).
Proof. unfold stale_ref. keeps. Qed.
Lemma keeps_free_cent c : keeps (free_cent c).
Proof. unfold free_cent, del_rrsets. keeps; apply keeps_foldM; intros; keeps. Qed.
#[local] Hint Resolve keeps_stale_ref keeps_free_cent : keeps.
Lemma keeps_del_cache_ent id loc : keeps (del_cache_ent id loc).
Proof. unfold del_cache_ent, del_cent, add_size. keeps. Qed.
#[local] Hint Resolve keeps_del_cache_ent : keeps.
Lemma keeps_purge_cent id d t : keeps (purge_cent now id d t).
Proof. unfold purge_cent. keeps. Qed.
Lemma keeps_copy_rrs l : keeps (copy_rrs l).
Proof. induction l; cbn [copy_rrs]; keeps. Qed.
#[local] Hint Resolve keeps_purge_cent keeps_copy_rrs : keeps.
Lemma keeps_copy_rrset rs : keeps (copy_rrset rs).
Proof. unfold copy_rrset. keeps. Qed.
#[local] Hint Resolve keeps_copy_rrset : keeps.
Lemma keeps_copy_rrsets a : keeps (copy_rrsets a).
Proof. induction a; cbn [copy_rrsets]; keeps. Qed.
#[local] Hint Resolve keeps_copy_rrsets : keeps.
Lemma keeps_copy_cent c : keeps (copy_cent c).
Proof. unfold copy_cent. keeps. Qed.
Lemma keeps_wild_loop fuel : forall nm, keeps (wild_loop fuel nm).
Proof. induction fuel; intros; cbn [wild_loop]; keeps. Qed.
#[local] Hint Resolve keeps_copy_cent keeps_wild_loop : keeps.
Lemma keeps_find_entry nm w : keeps (find_entry nm w).
Proof. unfold find_entry. keeps. Qed.
#[local] Hint Resolve keeps_find_entry : keeps.
Lemma keeps_lookup_cache nm w : keeps (lookup_cache now nm w).
Proof. unfold lookup_cache. keeps. Qed.
End Keeps.
#[export] Hint Resolve keeps_lookup_cache keeps_free_cent : keeps.
