(* ===== verification/Framing.v ===== *)
(** The parts of a reply: its questions, then its records by section, as many as its header counts. *)
From S2P Require Import Prelude Names DnsName Compress RrTypes HashTab RrList Cent CentSpec Cache Answer AnswerRr Query.

(** The counters of the three sections of records. *)
Definition section_fields : list nat := [ancount; nscount; arcount].

(** [framed b qs fs]: what stands behind the header are the questions [qs], and then one record for each of [fs], which
    are the counters of the sections that they belong to, in the order of the sections. *)
Inductive framed : list Z -> list dns_queryel -> list nat -> Prop :=
  | fr_nil : framed [] [] []
  | fr_question b qs qe N wn :
      framed b qs [] -> wf_name N -> qe_query qe = enc_name N -> name_form N wn ->
      framed (b ++ wn ++ put16 (qe_qtype qe) ++ put16 (qe_qclass qe)) (qs ++ [qe]) []
  | fr_record b qs fs f N wn type class ttl wd :
      framed b qs fs -> f ∈ section_fields -> Forall (fun g => g <= f) fs -> wf_name N -> name_form N wn -> length ttl = 4 ->
      framed (b ++ wn ++ put16 type ++ put16 class ++ ttl ++ put16 (Z.of_nat (length wd)) ++ wd) qs (fs ++ [f]).

(** How many of the records belong to a section. *)
Definition occ (f : nat) (fs : list nat) : nat := length (filter (fun g => g = f) fs).

(** The counters of the header, which have 16 bits. *)
Definition counted (hdr : list Z) (qs : list dns_queryel) (fs : list nat) : Prop :=
  count16 hdr qdcount = u16 (Z.of_nat (length qs)) /\ forall f, f ∈ section_fields -> count16 hdr f = u16 (Z.of_nat (occ f fs)).

Lemma framed_fields b qs fs : framed b qs fs -> Forall (fun f => f ∈ section_fields) fs.
Proof. induction 1; [constructor|constructor|]. apply Forall_app. split; [done|]. by apply Forall_singleton. Qed.

Lemma framed_first b qs fs : framed b qs fs -> Forall (fun f => f <= qdcount) fs -> fs = [].
Proof.
  intros H Hle. apply framed_fields in H. destruct fs as [|f fs]; [done|]. exfalso. apply Forall_cons in H as [H _]. apply Forall_cons in Hle as [Hle _].
  unfold section_fields in H. repeat (apply elem_of_cons in H as [->|H]; [revert Hle; vm_compute; lia|]). by apply elem_of_nil in H.
Qed.

Lemma section_field s : count_of s ∈ section_fields.
Proof. unfold count_of, section_fields. destruct (s =? S_ANSWER)%Z; [by left|]. destruct (s =? S_AUTHORITY)%Z; [by right; left|]. by right; right; left. Qed.

(** ** Counting *)

Lemma u16_u16 x y : u16 (u16 x + y) = u16 (x + y).
Proof. unfold u16. by rewrite Zplus_mod_idemp_l. Qed.

Lemma count16_bump f hdr : f + 2 <= length hdr -> count16 (bump f hdr) f = u16 (count16 hdr f + 1).
Proof.
  intros Hf. unfold count16 at 1, bump. pose proof (get16_put16 (count16 hdr f + 1) (take f hdr) (drop (f + 2) hdr)) as E. rewrite length_take, Nat.min_l in E by lia. by rewrite E.
Qed.

Lemma count16_bump_other f g hdr : f + 2 <= length hdr -> g + 2 <= f \/ f + 2 <= g -> count16 (bump f hdr) g = count16 hdr g.
Proof.
  intros Hf Hg. assert (E : forall i, i < f \/ f + 2 <= i -> bump f hdr !! i = hdr !! i).
  { intros i Hi. unfold bump. destruct Hi as [Hi|Hi].
    - rewrite lookup_app_l by (rewrite length_take; lia). by rewrite lookup_take_lt.
    - assert (El : length (take f hdr) = f) by (rewrite length_take; lia). rewrite app_assoc, lookup_app_r by (rewrite length_app, El; cbn; lia).
      rewrite length_app, El, lookup_drop. f_equal. cbn. lia. }
  unfold count16, GETINT16, rd. by rewrite !E by lia.
Qed.

(** The counters are apart. *)
Lemma fields_apart f g : f ∈ qdcount :: section_fields -> g ∈ qdcount :: section_fields -> f <> g -> g + 2 <= f \/ f + 2 <= g.
Proof.
  unfold section_fields. rewrite !elem_of_cons, !elem_of_nil. unfold qdcount, ancount, nscount, arcount. intros [->|[->|[->|[->|[]]]]] [->|[->|[->|[->|[]]]]]; lia.
Qed.
Lemma field_fits f : f ∈ qdcount :: section_fields -> 4 <= f /\ f + 2 <= sizeof_dns_hdr_t.
Proof. unfold section_fields. rewrite !elem_of_cons, !elem_of_nil. intros [->|[->|[->|[->|[]]]]]; vm_compute; lia. Qed.

Lemma counted_question hdr qs qe fs : length hdr = sizeof_dns_hdr_t -> counted hdr qs fs -> counted (bump qdcount hdr) (qs ++ [qe]) fs.
Proof.
  intros Hl [Hq Hf]. assert (Hq2 : qdcount + 2 <= length hdr) by (rewrite Hl; vm_compute; lia). split.
  - rewrite count16_bump, Hq, u16_u16, length_app by done. f_equal. cbn. lia.
  - intros f Hin. rewrite count16_bump_other; [by apply Hf|done|]. apply fields_apart; [by left|by right|]. intros <-. unfold section_fields in Hin.
    rewrite !elem_of_cons, elem_of_nil in Hin. by destruct Hin as [?|[?|[?|[]]]].
Qed.

Lemma counted_record hdr qs fs f : length hdr = sizeof_dns_hdr_t -> f ∈ section_fields -> counted hdr qs fs -> counted (bump f hdr) qs (fs ++ [f]).
Proof.
  intros Hl Hin [Hq Hf]. assert (Hf2 : f + 2 <= length hdr) by (rewrite Hl; apply field_fits; by right). split.
  - rewrite count16_bump_other; [done|done|]. apply fields_apart; [by right|by left|]. intros ->. unfold section_fields in Hin.
    rewrite !elem_of_cons, elem_of_nil in Hin. by destruct Hin as [?|[?|[?|[]]]].
  - intros g Hg. unfold occ. rewrite filter_app, length_app. destruct (decide (f = g)) as [->|Hne].
    + rewrite count16_bump, (Hf g Hg), u16_u16 by done. rewrite filter_cons, decide_True by done. f_equal. unfold occ. cbn. lia.
    + rewrite count16_bump_other by (done || (apply fields_apart; [by right..|done])). rewrite filter_cons, decide_False by done. cbn. by rewrite Nat.add_0_r, (Hf g Hg).
Qed.

(** Changing a byte in front of the counters. *)
Lemma counted_insert hdr qs fs i v : i < 4 -> counted hdr qs fs -> counted (<[i := v]> hdr) qs fs.
Proof.
  intros Hi [Hq Hf]. assert (E : forall f, f ∈ qdcount :: section_fields -> count16 (<[i := v]> hdr) f = count16 hdr f).
  { intros f Hin. apply field_fits in Hin as [Hin _]. unfold count16, GETINT16, rd. by rewrite !list_lookup_insert_ne by lia. }
  split; [rewrite E; [done|by left]|]. intros f Hin. rewrite E; [by apply Hf|by right].
Qed.
