(* ===== verification/QuerySafe.v ===== *)
(** The composition of answers in Query is memory safe and keeps the cache and the reply
    in order. *)
From S2P Require Import Prelude Names DnsName Compress RrTypes HashTab RrList Cent CentSpec Cache CacheInv CachePurge CacheAdd CacheOps.
From S2P Require Import Answer AnswerRr AnswerSet Query QueryDecode Keeps Framing.

Section Safe.
Context {P : Platform} (id : list Z) (rcode : Z) (qs : list dns_queryel) (lim : nat).

(** ** Entries *)

(** A copy of an entry whose sets hold data of the layout of their types. *)
Definition good_cent (c : dns_cent) : Prop := cent_ok c /\ cent_lents c = [] /\ entry_wire c.

(** All entries of the cache do so. *)
Definition good_cache (c : cache) : Prop := inv c /\ forall K e, abs c !! K = Some e -> entry_wire e.

Lemma good_mem c c' : mem_only c c' -> good_cache c -> good_cache c'.
Proof.
  intros Hm [Hi Hw]. split; [by eapply mem_only_inv|]. intros K e. assert (E : abs c' = abs c) by (apply abs_same; by destruct Hm as [? ->]).
  rewrite E. apply Hw.
Qed.

(** In addition, record sets are inserted in order, as they are after the start of the program. *)
Definition ready (c : cache) : Prop := good_cache c /\ insert_sort c = true.

Lemma ready_mem c c' : mem_only c c' -> ready c -> ready c'.
Proof. intros Hm [Hg Hi]. split; [by eapply good_mem|]. by destruct Hm as [m ->]. Qed.

(** Sets that go leave the others as they are. *)
Lemma entry_wire_sub c x :
  shape c -> shape x -> (forall j, slot x j = slot c j \/ slot x j = None) -> entry_wire c -> entry_wire x.
Proof.
  intros Hc Hx Hs Hw tp rs H. apply (Hw tp rs). rewrite getrrset_slot in * by done.
  injection H as H. f_equal. destruct (type_index tp) as [i|]; [|done]. cbn [mbind option_bind] in *. destruct (i <? NRRTOT); [|done].
  destruct (Hs i) as [E|E]; congruence.
Qed.

Lemma purged_sub now r : purged now r = r \/ purged now r = None.
Proof. destruct r as [rs|]; [|by left]. cbn. destruct (must_go now rs); auto. Qed.

Lemma runs_keeps {A} (m : M A) c (Q : A -> cache -> Prop) : keeps m -> runs m c Q -> runs m c (fun a c' => Q a c' /\ insert_sort c' = insert_sort c).
Proof. intros Hk (a & c' & E & H). exists a, c'. split; [done|]. split; [done|]. by apply (Hk c a c'). Qed.

(** A lookup returns a good copy. *)
Lemma runs_lookup_ready now c N r wild : ready c -> wf_name N ->
  let ref := find_ref (abs c) N wild in
  runs (lookup_cache now (enc_name N ++ r) wild) c (fun res c' => ready c' /\ res.2 = ref.2 /\ (forall e, res.1 = Some e -> good_cent e) /\
    match ref.1 with
    | None => res.1 = None /\ abs c' = abs c
    | Some K => answered now c c' K res.1
    end).
Proof.
  intros [[Hi Hw] Hsort] HN ref. eapply runs_weaken; [apply runs_keeps; [apply keeps_lookup_cache|by apply (runs_lookup_cache now c N r wild)]|].
  cbn beta zeta. fold ref. intros res c' [(Hi' & Hw2 & Href) Hs]. assert (Hsort' : insert_sort c' = true) by congruence.
  destruct ref.1 as [K|].
  2:{ pose proof Href as [Hnone Habs]. splits; [split; [split; [done|by rewrite Habs]|done]|done|intros e He; congruence|done..]. }
  pose proof Href as (e & He & Hcase). destruct (expired now e).
  - destruct Hcase as [Hnone Habs]. splits; [split; [split; [done|]|done]|done|intros; congruence|done].
    intros K' e'. rewrite Habs. intros H. apply lookup_delete_Some in H as [_ H]. by eapply Hw.
  - destruct Hcase as (_ & x & (Hx & Hlx & _ & _ & Hslx & _) & Habs & Hres).
    assert (Hwx : entry_wire x).
    { destruct (proj1 (abs_spec c K e Hi) He) as (id' & e0 & He0 & _ & ->).
      eapply (entry_wire_sub (strip e0)); [by apply strip_ok, (inv_cent c id')|apply Hx| |by eapply Hw].
      intros j. rewrite Hslx. apply purged_sub. }
    splits; [split; [split; [done|]|done]|done| |done].
    + intros K' e'. rewrite Habs. intros H. apply lookup_insert_Some in H as [[_ <-]|[_ H]]; [done|by eapply Hw].
    + intros y Hy. rewrite (Hres y Hy). by unfold good_cent.
Qed.

Lemma runs_lookup_good now c N r :
  ready c -> wf_name N ->
  runs (lookup_cache now (enc_name N ++ r) false) c (fun res c' => ready c' /\ forall e, res.1 = Some e -> good_cent e).
Proof. intros Hc HN. eapply runs_weaken; [by apply (runs_lookup_ready now c N r false)|]. cbn beta zeta. intros res c' (? & _ & ? & _). by split. Qed.

Lemma runs_free_copy c cc : cent_lents c = [] -> shape c -> runs (free_cent c) cc (fun _ c' => c' = cc).
Proof.
  intros Hl Hs. eapply runs_weaken; [apply (runs_free_cent c cc Hs); rewrite Hl; [constructor|by intros p ?%not_elem_of_nil]|].
  cbn beta. intros _ s' ->. rewrite Hl. rewrite rrl_drop_nil. apply with_rrl_id.
Qed.

(** [getlocalowner] only looks. *)
Lemma runs_localowner c m tp r : inv c -> hash_ok c m -> is_type tp = true -> forall N l fuel,
  wf_name (l :: N) -> length N < fuel ->
  runs (localowner_loop fuel (enc_name (l :: N) ++ r) tp) c (fun res c' => c' = c /\
    forall nm, res = Some nm -> exists N' , wf_name N' /\ nm = enc_name N' ++ r).
Proof.
  intros Hi Hm Htp. induction N as [|l2 N IH]; intros l fuel HN Hf; (destruct fuel as [|fuel]; [lia|]);
    pose proof HN as [Hw _]; apply Forall_cons in Hw as [Hlab Hw]; cbn [localowner_loop];
    rewrite enc_name_cons, <- app_assoc; (run_lift; [apply rd_enc_label|]); rewrite Nat2Z.id;
    (run_lift; [apply adv_label|]).
  - run_lift; [apply (rd_enc_nil [])|]. cbn. by apply runs_ret.
  - run_lift; [apply (rd_enc_cons [])|]. apply Forall_cons in Hw as [Hlab2 Hw].
    assert ((Z.of_nat (length l2) =? 0)%Z = false) as -> by (apply Z.eqb_neq; destruct Hlab2 as [? _]; lia).
    assert (HN2 : wf_name (l2 :: N)) by (apply (wf_name_suffix [l]); exact HN).
    apply runs_bind. eapply runs_weaken; [by apply (runs_hash_lookup c m (l2 :: N) r)|].
    intros [ce loc] s0 (-> & Hce & _). cbn [fst] in Hce. subst ce.
    destruct (m !! fold_key (enc_name (l2 :: N))) as [id'|] eqn:HK; [|apply (IH l2 fuel); [done|cbn in Hf; lia]].
    destruct (hash_entry c m _ id' Hm HK) as (e & He & _). apply runs_bind. eapply runs_deref; [exact He|].
    destruct (tst (flags e) DF_LOCAL); cbn [negb]; [|by apply runs_ret].
    pose proof (has_type_spec e tp (proj1 (inv_cent c id' e Hi He))) as Hht. unfold has_type in Hht. rewrite Htp in Hht.
    run_lift; [exact Hht|]. destruct (true && has_records e tp).
    + apply runs_ret. split; [done|]. intros nm [= <-]. by exists (l2 :: N).
    + apply (IH l2 fuel); [done|cbn in Hf; lia].
Qed.

Lemma runs_getlocalowner c N r tp :
  inv c -> wf_name N -> is_type tp = true ->
  runs (getlocalowner (enc_name N ++ r) tp) c (fun res c' => c' = c /\ forall nm, res = Some nm -> exists N', wf_name N' /\ nm = enc_name N' ++ r).
Proof.
  intros Hi HN Htp. unfold getlocalowner. destruct N as [|l N].
  - run_lift; [apply (rd_enc_nil [])|]. cbn. by apply runs_ret.
  - run_lift; [apply (rd_enc_cons [])|]. destruct HN as [Hw Hl]. pose proof Hw as Hw'. apply Forall_cons in Hw' as [Hlab _].
    assert ((Z.of_nat (length l) =? 0)%Z = false) as -> by (apply Z.eqb_neq; destruct Hlab as [? _]; lia).
    pose proof Hi as (_ & [m Hm] & _). eapply runs_localowner; try done.
    rewrite length_app, enc_name_cons, length_app.
    pose proof (length_ls_le_enc N [] ltac:(by apply Forall_cons in Hw as [_ Hw])). rewrite app_nil_r in H. lia.
Qed.

(** ** Safe computations *)

Definition sva_ok (el : sva_el) : Prop := exists N, wf_name N /\ sv_nm el = enc_name N.

Definition ar_ok (re : rr_ext) : Prop :=
  (re_tp re = T_NS \/ re_tp re = T_SOA ->
     (exists N, wf_name N /\ re_nm re = enc_name N) /\ exists ps, wire (re_tp re) ps /\ re_tnm re = flat ps) /\
  (re_tp re = T_NS \/ re_tp re = RRETP_ADD -> exists N r, wf_name N /\ re_tnm re = enc_name N ++ r).

(** The header is that of a reply with the return code [rcode] to the query with the
    identification [id]. *)
Definition hdr_ok (hdr : list Z) : Prop :=
  length hdr = sizeof_dns_hdr_t /\ take 2 hdr = id /\ (exists f, hdr !! 2 = Some f /\ Z.testbit f 7 = true /\ Z.testbit f 1 = false) /\
  exists f, hdr !! 3 = Some f /\ h_rcode f = Z.land rcode 15.

(** What stands behind the header are the questions [qs] and records of sections up to the one whose counter is [lim], all
    of which the header counts. *)
Definition parts_ok (hdr b : list Z) : Prop := exists fs, framed b qs fs /\ counted hdr qs fs /\ Forall (fun f => f <= lim) fs.
Definition fmt (hdr b : list Z) : Prop := hdr_ok hdr /\ parts_ok hdr b.

Definition wst (s : answer) : Prop :=
  ready (a_cache s) /\
  (exists hdr b es slack, built False s hdr (lit b) es slack /\ fmt hdr b) /\
  Forall sva_ok (a_sva s) /\ Forall ar_ok (a_ar s).

Definition safe_post {A} (R : A -> Prop) (res : option A) (s' : answer) : Prop :=
  ready (a_cache s') /\ match res with Some a => R a /\ wst s' | None => True end.

(** From a state in order the computation is defined and ends in one, unless it gives
    up, in which case the cache is still in order. *)
Definition safe {A} (m : W A) (R : A -> Prop) : Prop := forall s, wst s -> wruns m s (safe_post R).

Definition top {A} (_ : A) : Prop := True.

Lemma safe_ret {A} (a : A) (R : A -> Prop) : R a -> safe (mret a) R.
Proof. intros HR s Hs. apply wruns_ret. split; [apply Hs|done]. Qed.

Lemma safe_giveup {A} (R : A -> Prop) : safe giveup R.
Proof. intros s Hs. apply wruns_giveup. split; [apply Hs|done]. Qed.

Lemma safe_bind {A B} (m : W A) (k : A -> W B) R R' :
  safe m R -> (forall a, R a -> safe (k a) R') -> safe (mbind k m) R'.
Proof.
  intros Hm Hk s Hs. apply wruns_bind. eapply wruns_weaken; [by apply Hm|]. intros [a|] s' [Hg H]; [|by split].
  destruct H as [HR Hs']. by apply Hk.
Qed.

Lemma safe_lift {A} (o : option A) a (R : A -> Prop) : o = Some a -> R a -> safe (liftW o) R.
Proof. intros E HR s Hs. eapply wruns_lift; [exact E|]. split; [apply Hs|done]. Qed.

Lemma safe_get : safe getW wst.
Proof. intros s Hs. apply wruns_get. split; [apply Hs|done]. Qed.

Lemma wst_cache s c : wst s -> ready c -> wst (set_cache c s).
Proof. intros (_ & Hb & Hsv & Har) Hc. unfold wst. by splits. Qed.

Lemma safe_cache {A} (m : M A) (R : A -> Prop) :
  (forall c, ready c -> runs m c (fun a c' => ready c' /\ R a)) -> safe (cacheW m) R.
Proof.
  intros Hm s Hs. apply wruns_cache. eapply runs_weaken; [apply Hm, Hs|]. cbn beta. intros a c' [Hc HR].
  split; [done|]. split; [done|by apply wst_cache].
Qed.

Lemma safe_malloc : safe (cacheW malloc) top.
Proof.
  apply safe_cache. intros c Hc. eapply runs_weaken; [apply runs_malloc|]. cbn beta. intros ? c' Hm.
  split; [by eapply ready_mem|done].
Qed.

Lemma good_frame s s' : wframe s s' -> ready (a_cache s) -> ready (a_cache s').
Proof. intros (_ & _ & _ & Hm & _). by apply ready_mem. Qed.

Lemma good_cframe s s' : cframe s s' -> ready (a_cache s) -> ready (a_cache s').
Proof. intros [Hm _]. by apply ready_mem. Qed.

(** A step that appends to the message. *)
Lemma wst_built s s' hdr b es slack :
  wst s -> wframe s s' -> built False s' hdr (lit b) es slack -> fmt hdr b -> wst s'.
Proof.
  intros (Hg & _ & Hsv & Har) Hf Hb Hh. pose proof Hf as (Esv & Ear & _). unfold wst. rewrite Esv, Ear.
  splits; [by eapply good_frame| |done|done]. by exists hdr, b, es, slack.
Qed.

Lemma hdr_ok_bump f hdr : 4 <= f -> f + 2 <= sizeof_dns_hdr_t -> hdr_ok hdr -> hdr_ok (bump f hdr).
Proof.
  intros H1 H2 (Hl & Hid & (x & Hx & Hbit) & (y & Hy & Hrc)). unfold hdr_ok.
  assert (E : forall i, i < 4 -> bump f hdr !! i = hdr !! i).
  { intros i Hi. unfold bump. rewrite lookup_app_l by (rewrite length_take; lia). by rewrite lookup_take_lt by lia. }
  splits; [rewrite length_bump; [done|lia]| |exists x; split; [rewrite E by lia|]; done|exists y; split; [rewrite E by lia|]; done].
  unfold bump. rewrite take_app_le by (rewrite length_take; lia). rewrite take_take. by replace (2 `min` f) with 2 by lia.
Qed.

Lemma fmt_record hdr b N wn type class ttl wd :
  fmt hdr b -> lim ∈ section_fields -> wf_name N -> name_form N wn -> length ttl = 4 ->
  fmt (bump lim hdr) (b ++ wn ++ put16 type ++ put16 class ++ ttl ++ put16 (Z.of_nat (length wd)) ++ wd).
Proof.
  intros (Hh & fs & Hf & Hc & Hl) Hin HN Hwn Ht. destruct (field_fits lim) as [H1 H2]; [by right|]. split; [by apply hdr_ok_bump|].
  exists (fs ++ [lim]). split; [by eapply fr_record|]. split; [apply counted_record; [apply Hh|done|done]|]. apply Forall_app. split; [done|]. by apply Forall_singleton.
Qed.

Lemma count_of_ge section : 4 <= count_of section.
Proof. unfold count_of. destruct (section =? S_ANSWER)%Z, (section =? S_AUTHORITY)%Z; vm_compute; lia. Qed.

(** A record that is taken back leaves the message as it was. *)
Lemma built_back s hdr b es : a_sz s = sizeof_dns_hdr_t + length b -> take (a_sz s) (a_msg s) = hdr ++ b ->
  length hdr = sizeof_dns_hdr_t -> a_cb s = cbs es -> Forall (fun e => wf_name e.2) es ->
  built False s hdr (lit b) es (drop (a_sz s) (a_msg s)).
Proof.
  intros Hs Ht Hh Hcb Hw. unfold built. splits; [|done|by rewrite length_lit|done|split; [done|by intros []]].
  exists b. split; [|by apply fills_lit]. by rewrite app_assoc, <- Ht, take_drop.
Qed.

Lemma safe_add_rr N r type ttl ps section udp :
  count_of section = lim -> wf_name N -> wire type ps -> safe (add_rr (enc_name N ++ r) type ttl (flat ps) section udp) top.
Proof.
  intros Elim HN [Hlay Hps] s Hs. pose proof Hs as (Hg & (hdr & b & es & slack & Hb & Hh) & Hsv & Har).
  eapply wruns_weaken; [by eapply (wruns_add_rr False)|]. intros [[]|] s' [Hf H]; (split; [by eapply good_frame|]); [|done].
  split; [done|]. destruct H as (wn & wd & Hwn & _ & _ & _ & _ & Hend).
  destruct (too_long udp _ section).
  - destruct Hend as (Esz & Et & es' & Ecb & Hcb). eapply wst_built; [exact Hs|done| |exact Hh].
    apply built_back; [|done|apply Hh|done|apply Hcb]. pose proof Hb as (_ & _ & Es & _). by rewrite Esz, Es, length_lit.
  - destruct Hend as (es' & slack' & Hb'). eapply wst_built; [exact Hs|done|exact Hb'|]. rewrite Elim. unfold rr_bytes, rr_header. rewrite <- !app_assoc.
    apply (fmt_record hdr b N); [done|rewrite <- Elim; apply section_field|done..].
Qed.

Lemma safe_add_opt a b c d : lim = arcount -> safe (add_opt_pseudo_rr a b c d) top.
Proof.
  intros Elim s Hs. pose proof Hs as (Hg & (hdr & b' & es & slack & Hb & Hh) & Hsv & Har).
  eapply wruns_weaken; [by eapply (wruns_add_opt False)|]. cbn beta.
  intros [[]|] s' [Hf H]; (split; [by eapply good_frame|]); [|done].
  split; [done|]. destruct H as (slack' & Hb'). eapply wst_built; [exact Hs|done|exact Hb'|]. rewrite <- Elim.
  apply (fmt_record hdr b' [] [0%Z] T_OPT a [u8 (Z.shiftr b 4); u8 c; u8 (d / 2 ^ 8); u8 d] []); [done|rewrite Elim; by do 2 right; left|split; [constructor|vm_compute; lia]| |done].
  split; [by repeat constructor|]. by exists 0, 0.
Qed.

Lemma safe_sva_add N r tp data : wf_name N -> safe (sva_add (enc_name N ++ r) tp data) top.
Proof.
  intros HN s Hs. pose proof Hs as (Hg & (hdr & b' & es & slack & Hb & Hh) & Hsv & Har).
  eapply wruns_weaken; [by apply wruns_sva_add|]. cbn beta. intros [[]|] s' [Hf H]; (split; [by eapply good_cframe|]); [|done].
  destruct H as (Has & Ear & Esv). split; [done|]. unfold wst. rewrite Ear, Esv. splits; [by eapply good_cframe| |..|done].
  - exists hdr, b', es, slack. split; [by eapply built_aside|done].
  - apply Forall_app. split; [done|]. apply Forall_singleton. by exists N.
Qed.

Lemma safe_add_ar tp tnm N r ttl :
  wf_name N -> (forall nm t, nm = (if (tp =? T_NS)%Z || (tp =? T_SOA)%Z then enc_name N else []) ->
    ar_ok {| re_tp := tp; re_tnm := tnm; re_nm := nm; re_ttl := t |}) ->
  safe (add_ar tp tnm (enc_name N ++ r) ttl) top.
Proof.
  intros HN Hok s Hs. pose proof Hs as (Hg & (hdr & b' & es & slack & Hb & Hh) & Hsv & Har).
  eapply wruns_weaken; [by apply wruns_add_ar|]. cbn beta. intros [[]|] s' [Hf H]; (split; [by eapply good_cframe|]); [|done].
  destruct H as (Has & Esv & Ear). split; [done|]. unfold wst. rewrite Ear, Esv. splits; [by eapply good_cframe| |done|].
  - exists hdr, b', es, slack. split; [by eapply built_aside|done].
  - apply Forall_app. split; [done|]. apply Forall_singleton. by apply Hok.
Qed.

(** *** Loops over records *)

Lemma safe_iter (m : list Z -> W unit) rrs : Forall (fun rr => safe (m rr) top) rrs -> safe (iterW m rrs) top.
Proof.
  induction 1 as [|rr rrs Hm _ IH]; cbn [iterW]; [by apply safe_ret|]. eapply safe_bind; [exact Hm|]. by intros [] _.
Qed.

Lemma wst_random s r : wst s -> wst (set_random r s).
Proof. intros H. exact H. Qed.

Lemma safe_over rnd (m : list Z -> W unit) rrs :
  rrs <> [] -> Forall (fun rr => safe (m rr) top) rrs -> safe (over_rrs rnd m rrs) top.
Proof.
  intros Hne Hm s Hs. destruct (over_rrs_spec rnd m rrs s Hne) as (k & s' & _ & _ & [r ->] & E).
  unfold wruns. rewrite E. apply (safe_iter m (rotate k rrs)); [by rewrite rotate_perm|by apply wst_random].
Qed.

(** The data of a record name a host where they should. *)
Lemma ar_offset_name tp ps o :
  wire tp ps -> ar_offset tp ar_recs = Some o -> exists N, wf_name N /\ drop o (flat ps) = enc_name N.
Proof.
  intros [Hlay Hps] Ho. unfold ar_recs in Ho. cbn [ar_offset] in Ho.
  repeat match type of Ho with (if ?b then _ else _) = _ =>
    destruct b eqn:?; boolp; [injection Ho as <-; subst tp; cbn in Hlay|] end; [..|discriminate Ho].
  1-4: destruct Hlay as (N & ->); apply Forall_cons in Hps as [Hps _]; exists N; split; [exact Hps|apply app_nil_r].
  all: destruct Hlay as (l & N & Hl & ->); apply Forall_cons in Hps as [_ Hps]; apply Forall_cons in Hps as [Hps _]; exists N; split; [exact Hps|];
    unfold flat; cbn [map concat piece_bytes]; rewrite app_nil_r, <- Hl; apply drop_app_length.
Qed.

Lemma safe_add_rrset_rr N r tp ttl udp rr :
  lim = ancount -> wf_name N -> (exists ps, wire tp ps /\ rr = flat ps) -> safe (add_rrset_rr (enc_name N ++ r) tp ttl udp rr) top.
Proof.
  intros Elim HN (ps & Hw & ->). unfold add_rrset_rr. eapply safe_bind; [by apply safe_add_rr|]. intros [] _.
  eapply (safe_bind _ _ top); [destruct (in_types tp _); [by apply safe_sva_add|by apply safe_ret]|]. intros [] _.
  destruct (ar_offset tp ar_recs) as [o|] eqn:Eo; [|by apply safe_ret].
  eapply (safe_bind _ _ (fun d => d = drop o (flat ps))).
  { eapply safe_lift; [|done]. unfold adv. by rewrite decide_True by (eapply ar_offset_le; [apply Hw|done]). }
  intros d ->. apply (safe_add_ar RRETP_ADD _ [] []); [split; [constructor|vm_compute; lia]|].
  intros nm t _. split; [intros [H|H]; discriminate H|]. intros _. cbn [re_tnm]. destruct (ar_offset_name tp ps o Hw Eo) as (N' & HN' & ->).
  exists N', []. by rewrite app_nil_r.
Qed.

(** *** Sets *)

Section Sets.
Context (rnd_recs : bool) (now : Z) (udpbufsize : Z).

Lemma getrrset_total c tp : shape c -> exists r, getrrset c tp = Some r.
Proof. intros Hs. rewrite getrrset_slot by done. by eexists. Qed.

Lemma safe_add_rrset N r tp c udp : lim = ancount -> wf_name N -> good_cent c -> safe (add_rrset rnd_recs now (enc_name N ++ r) tp c udp) top.
Proof.
  intros Elim HN ((Hs & _) & _ & Hw). unfold add_rrset. destruct (getrrset_total c tp Hs) as [o Eo].
  eapply (safe_bind _ _ (fun o' => o' = o)); [by eapply safe_lift|]. intros ? ->. destruct o as [rs|]; [|by apply safe_ret].
  specialize (Hw tp rs Eo). destruct (rs_rrs rs) as [|rr rrs]; [by apply safe_ret|]. apply safe_over; [done|].
  eapply Forall_impl; [exact Hw|]. intros x Hx. by apply safe_add_rrset_rr.
Qed.

Lemma safe_add_rrsets N r c udp tps :
  lim = ancount -> wf_name N -> good_cent c -> safe (add_rrsets rnd_recs now (enc_name N ++ r) tps c udp) top.
Proof.
  intros Elim HN Hc. induction tps as [|tp tps IH]; cbn [add_rrsets]; [by apply safe_ret|].
  eapply safe_bind; [by apply safe_add_rrset|]. by intros [] _.
Qed.

Lemma rriterlist_total c : shape c -> exists l, rriterlist c = Some l.
Proof. unfold rriterlist. intros [-> Hs]. unfold is_neg. destruct (body c); by eexists. Qed.

Lemma safe_add_to_response N r qtype c udp :
  lim = ancount -> wf_name N -> good_cent c -> safe (add_to_response rnd_recs now (enc_name N ++ r) qtype c udp) top.
Proof.
  intros Elim HN Hc. pose proof Hc as ((Hs & _) & _). unfold add_to_response. apply (safe_bind _ _ top).
  { destruct (negb (qtype =? T_CNAME)%Z && negb (qtype =? QT_ALL)%Z); [|by apply safe_ret].
    eapply (safe_bind _ _ top); [by eapply safe_lift; [apply has_type_spec|]|]. intros [] _; [by apply safe_ret|by apply safe_add_rrset]. }
  intros [] _. destruct (_ || _); [apply safe_giveup|]. destruct (qtype =? QT_MAILB)%Z; [by apply safe_add_rrsets|].
  destruct (qtype =? QT_MAILA)%Z; [by apply safe_add_rrsets|]. destruct (qtype =? QT_ALL)%Z.
  { destruct (rriterlist_total c Hs) as [l El]. eapply (safe_bind _ _ top); [by eapply safe_lift|]. intros l' _. by apply safe_add_rrsets. }
  destruct (is_type qtype); [by apply safe_add_rrset|apply safe_giveup].
Qed.

(** *** Additional records *)

Lemma sva_find_total l N r tp data : wf_name N -> Forall sva_ok l -> exists b, sva_find l (enc_name N ++ r) tp data = Some b.
Proof.
  intros HN. induction 1 as [|st l (N' & HN' & E) _ IH]; cbn [sva_find]; [by eexists|].
  assert (exists b : bool, (if (sv_tp st =? tp)%Z then rhnicmp (sv_nm st) (enc_name N ++ r) else Some false) = Some b) as [b ->].
  { destruct (sv_tp st =? tp)%Z; [|by eexists]. rewrite E, <- (app_nil_r (enc_name N')), rhnicmp_enc by (apply HN || apply HN'). by eexists. }
  sbind. destruct (b && _); [by eexists|done].
Qed.

Lemma safe_add_additional_rr N r tp ttl ps sect udp :
  count_of sect = lim -> wf_name N -> wire tp ps -> safe (add_additional_rr (enc_name N ++ r) tp ttl (flat ps) sect udp) top.
Proof.
  intros Elim HN Hw. unfold add_additional_rr. eapply safe_bind; [apply safe_get|]. intros s Hs.
  destruct (sva_find_total (a_sva s) N r tp (flat ps) HN) as [b Eb]; [apply Hs|].
  eapply (safe_bind _ _ top); [by eapply safe_lift|]. intros [] _; [by apply safe_ret|].
  eapply safe_bind; [by apply safe_add_rr|]. intros [] _. by apply safe_sva_add.
Qed.

Lemma safe_add_additional_rrs N r tp ttl rrb sect udp :
  count_of sect = lim -> wf_name N -> Forall (fun rr => exists ps, wire tp ps /\ rr = flat ps) rrb ->
  safe (add_additional_rrs rnd_recs (enc_name N ++ r) tp ttl rrb sect udp) top.
Proof.
  intros Elim HN Hw. unfold add_additional_rrs. destruct rrb as [|rr rrb]; [by apply safe_ret|]. apply safe_over; [done|].
  eapply Forall_impl; [exact Hw|]. cbn beta. intros x (ps & Hps & ->). by apply safe_add_additional_rr.
Qed.

(** The first sets of an entry are accessed by index. *)
Lemma get_rrsmu_getrrset c i tp : shape c -> i < NRRMU -> type_index tp = Some i -> get_rrsmu c i = getrrset c tp.
Proof.
  intros Hs Hi Ht. rewrite getrrset_slot, Ht by done. cbn [mbind option_bind].
  replace (i <? NRRTOT) with true by (symmetry; apply Nat.ltb_lt; unfold NRRTOT, NRRMU in *; lia).
  pose proof Hs as [Hn Hb]. unfold get_rrsmu, slot, sets, is_neg in *. rewrite Hn. destruct (body c) as [|rrmu rrext]; cbn [negb]; [done|].
  destruct Hb as [Hm _]. rewrite lookup_app_l by lia. by destruct (lookup_lt_is_Some_2 rrmu i) as [x ->]; [lia|].
Qed.

Lemma safe_get_rrsmu c i tp :
  good_cent c -> i < NRRMU -> type_index tp = Some i ->
  safe (liftW (get_rrsmu c i)) (fun r => forall rs, r = Some rs -> Forall (fun rr => exists ps, wire tp ps /\ rr = flat ps) (rs_rrs rs)).
Proof.
  intros ((Hs & _) & _ & Hw) Hi Ht. rewrite (get_rrsmu_getrrset c i tp) by done. destruct (getrrset_total c tp Hs) as [o Eo].
  eapply safe_lift; [exact Eo|]. intros rs ->. by apply (Hw tp).
Qed.

Lemma safe_add_additional_set N r c ri tp udp :
  lim = arcount -> wf_name N -> good_cent c -> ri < NRRMU -> type_index tp = Some ri ->
  safe (add_additional_set rnd_recs now (enc_name N ++ r) c ri tp udp) top.
Proof.
  intros Elim HN Hc Hi Ht. unfold add_additional_set. eapply safe_bind; [by eapply safe_get_rrsmu|]. cbn beta. intros [rs|] Hrs; [|by apply safe_ret].
  apply safe_add_additional_rrs; [done..|]. by apply Hrs.
Qed.

(** *** Copies of entries *)

Lemma safe_free_good c : good_cent c -> safe (cacheW (free_cent c)) top.
Proof.
  intros (Hok & Hl & _). apply safe_cache. intros cc Hcc. eapply runs_weaken; [by apply runs_free_copy; [|apply Hok]|].
  cbn beta. by intros ? c' ->.
Qed.

Lemma safe_release c : (forall e, c = Some e -> good_cent e) -> safe (release c) top.
Proof. intros H. destruct c as [c|]; [by apply safe_free_good, H|by apply safe_ret]. Qed.

(** A failure of which the caller is told, and after which it gives up. *)
Lemma wruns_cleanup {A B} (m : W A) (k : option A -> W B) s R R' :
  wst s -> safe m R -> (forall a, R a -> safe (k (Some a)) R') ->
  (forall s', ready (a_cache s') -> wruns (k None) s' (safe_post R')) ->
  wruns (r ← tryW m; k r) s (safe_post R').
Proof.
  intros Hs Hm Hk Hn. destruct (Hm s Hs) as (r & s' & E & Hg & Hr). unfold wruns, mbind, W_bind, tryW. rewrite E.
  destruct r as [a|]; cbn [mbind option_bind]; [destruct Hr as [Ha Hs']; by apply (Hk a)|by apply Hn].
Qed.

Lemma runs_free_good c cc : good_cent c -> ready cc -> runs (free_cent c) cc (fun _ c' => ready c').
Proof.
  intros (Hok & Hl & _) Hcc. eapply runs_weaken; [by apply runs_free_copy; [|apply Hok]|]. cbn beta. by intros ? c' ->.
Qed.

Lemma wruns_free_giveup {A} c s (R : A -> Prop) :
  good_cent c -> ready (a_cache s) -> wruns (_ ← cacheW (free_cent c); giveup) s (safe_post R).
Proof.
  intros Hc Hs. apply wruns_bind, wruns_cache. eapply runs_weaken; [by apply runs_free_good|]. cbn beta. intros ? c' Hc'.
  apply wruns_giveup. by split.
Qed.

Lemma safe_guard {A} c (m : W A) R : (forall e, c = Some e -> good_cent e) -> safe m R -> safe (guard_cached c m) R.
Proof.
  intros Hc Hm s Hs. unfold guard_cached. eapply wruns_cleanup; [done|exact Hm|intros a Ha; by apply safe_ret|]. intros s' Hg.
  destruct c as [c|]; [by apply wruns_free_giveup; [apply Hc|]|]. apply wruns_bind, wruns_ret, wruns_giveup. by split.
Qed.

Lemma safe_lookup N r :
  wf_name N -> safe (cacheW (lookup_cache now (enc_name N ++ r) false)) (fun res => forall e, res.1 = Some e -> good_cent e).
Proof. intros HN. apply safe_cache. intros c Hc. by apply runs_lookup_good. Qed.

Lemma safe_add_additional_a N r udp : lim = arcount -> wf_name N -> safe (add_additional_a rnd_recs now now (enc_name N ++ r) udp) top.
Proof.
  intros Elim HN. unfold add_additional_a. eapply safe_bind; [by apply safe_lookup|]. cbn beta. intros [[ae|] w] Hae; [|by apply safe_ret].
  specialize (Hae ae eq_refl). intros s Hs. eapply (wruns_cleanup _ _ _ top); [done|..].
  - eapply safe_bind; [apply safe_add_additional_set; [done..|vm_compute; lia|reflexivity]|]. intros [] _.
    apply safe_add_additional_set; [done..|vm_compute; lia|reflexivity].
  - intros [] _. eapply safe_bind; [by apply safe_free_good|]. intros ? _. by apply safe_ret.
  - intros s' Hg. by apply wruns_free_giveup.
Qed.

(** *** The authority section *)

Lemma good_name c : good_cent c -> exists N, wf_name N /\ qname c = enc_name N.
Proof. by intros ((_ & H & _) & _). Qed.

Lemma safe_add_soas c ttl rrs udp :
  lim = nscount -> good_cent c -> Forall (fun rr => exists ps, wire T_SOA ps /\ rr = flat ps) rrs -> safe (add_soas c ttl rrs udp) top.
Proof.
  intros Elim Hc. destruct (good_name c Hc) as (N & HN & E). induction 1 as [|rr rrs (ps & Hw & ->) _ IH]; cbn [add_soas]; [by apply safe_ret|].
  rewrite E, <- (app_nil_r (enc_name N)). eapply safe_bind; [by apply safe_add_rr|]. by intros [] _.
Qed.

Lemma wf_name_skip N k : wf_name N -> wf_name (drop k N).
Proof. intros H. apply (wf_name_suffix (take k N)). by rewrite take_drop. Qed.

Lemma safe_nameerr_soa N r csoa udp : lim = nscount -> wf_name N -> safe (nameerr_soa now (enc_name N ++ r) csoa udp) top.
Proof.
  intros Elim HN. unfold nameerr_soa. destruct (negb _); [|by apply safe_ret].
  eapply (safe_bind _ _ top); [eapply safe_lift; [apply rhnsegcnt_enc, HN|done]|]. intros scnt _.
  destruct (_ <? _)%Z; [|by apply safe_ret].
  eapply (safe_bind _ _ (fun nm => exists N', wf_name N' /\ nm = enc_name N' ++ r)).
  { eapply safe_lift; [apply skipsegs_enc, HN|]. eexists. split; [by apply wf_name_skip|done]. }
  intros ? (N' & HN' & ->). eapply safe_bind; [by apply safe_lookup|]. cbn beta. intros [[c|] w] Hc; [|by apply safe_ret].
  specialize (Hc c eq_refl). eapply safe_bind; [eapply (safe_get_rrsmu c _ T_SOA Hc); [vm_compute; lia|reflexivity]|]. cbn beta.
  intros o Ho. eapply (safe_bind _ _ top); [|intros ? _; by apply safe_free_good].
  destruct o as [rs|]; [|by apply safe_ret]. destruct (negb _); [|by apply safe_ret].
  apply safe_guard; [by intros e [= <-]|]. apply safe_add_soas; [done..|]. by apply Ho.
Qed.

(** The set for the authority section belongs to the entry returned with it. *)
Definition owned (tp : Z) (res : option rr_set * option dns_cent) : Prop :=
  (forall c, res.2 = Some c -> good_cent c) /\
  (forall rs, res.1 = Some rs -> is_Some res.2 /\ Forall (fun rr => exists ps, wire tp ps /\ rr = flat ps) (rs_rrs rs)).

Lemma owned_getrrset c tp (Rr : option rr_set -> option rr_set) :
  good_cent c -> (forall r, Rr r = r \/ Rr r = None) ->
  exists r, getrrset c tp = Some r /\ owned tp (Rr r, Some c).
Proof.
  intros Hc HR. pose proof Hc as ((Hs & _) & _ & Hw). destruct (getrrset_total c tp Hs) as [r Er]. exists r. split; [done|].
  split; [by intros e [= <-]|]. cbn [fst snd]. intros rs Hrs. split; [by eexists|]. apply (Hw tp). rewrite Er. f_equal.
  destruct (HR r); congruence.
Qed.

Lemma safe_getrrset_pos c tp : good_cent c -> safe (liftW (getrrset_pos c tp)) (fun r => owned tp (r, Some c)).
Proof.
  intros Hc. edestruct (owned_getrrset c tp (fun r => match r with Some rs => if tst (rs_flags rs) CF_NEGATIVE then None else Some rs | None => None end)) as (r & Er & Ho);
    [done|intros [rs|]; [destruct (tst _ _)|]; auto|]. unfold getrrset_pos. rewrite Er. by eapply safe_lift.
Qed.

Lemma safe_getrrset c tp : good_cent c -> safe (liftW (getrrset c tp)) (fun r => owned tp (r, Some c)).
Proof.
  intros Hc. destruct (owned_getrrset c tp (fun r => r)) as (r & Er & Ho); [done|auto|]. rewrite Er. by eapply safe_lift.
Qed.

Lemma owned_none tp c : (forall e, c = Some e -> good_cent e) -> owned tp (None, c).
Proof. intros H. by split. Qed.

Lemma safe_authority_set c tp :
  good_cent c -> is_type tp = true -> safe (authority_set now c tp) (owned tp).
Proof.
  intros Hc Ht. destruct (good_name c Hc) as (N & HN & E). unfold authority_set.
  eapply safe_bind; [by apply safe_getrrset_pos|]. cbn beta. intros [rs|] Hrs; [by apply safe_ret|]. clear Hrs. cbv zeta. rewrite E.
  rewrite <- (app_nil_r (enc_name N)).
  eapply (safe_bind _ _ top); [eapply safe_lift; [apply rhnsegcnt_enc, HN|done]|]. intros scnt _.
  set (tcnt := if (tp =? T_NS)%Z then c_ns c else c_soa c). clearbody tcnt.
  eapply (safe_bind _ _ (fun nm => exists N', wf_name N' /\ nm = enc_name N' ++ [])).
  { destruct (_ && _); (eapply safe_lift; [|eexists; split; [|done]]); [apply skipsegs_enc, HN|by apply wf_name_skip|done|done]. }
  intros ? (N' & HN' & ->). eapply safe_bind; [by apply safe_lookup|]. cbn beta. intros [c1 w] Hc1. cbn [fst] in Hc1.
  eapply (safe_bind _ _ (fun r => owned tp (r, c1))).
  { destruct c1 as [c1|]; [by apply safe_getrrset_pos, Hc1|apply safe_ret, owned_none; done]. }
  intros r Hr. eapply (safe_bind _ _ (owned tp)); [|intros [r2 c2] H2; eapply safe_bind; [by apply safe_free_good|]; intros ? _; by apply safe_ret].
  destruct (match r with None => tst (flags c) DF_LOCAL | Some _ => false end); [|by apply safe_ret].
  eapply (safe_bind _ _ (fun nm => forall x, nm = Some x -> exists N', wf_name N' /\ x = enc_name N' ++ [])).
  { apply safe_cache. intros cc Hcc. eapply runs_weaken; [apply runs_getlocalowner; [apply Hcc|exact HN|exact Ht]|]. cbn beta.
    intros res c' [-> H]. by split. }
  intros [nm|] Hnm; [|by apply safe_ret]. destruct (Hnm nm eq_refl) as (N2 & HN2 & ->).
  eapply safe_bind; [by apply safe_release|]. intros ? _. eapply safe_bind; [by apply safe_lookup|]. cbn beta. intros [c2 w2] Hc2. cbn [fst] in Hc2.
  eapply (safe_bind _ _ (fun r => owned tp (r, c2))); [|intros ? H; by apply safe_ret].
  destruct c2 as [c2|]; [by apply safe_getrrset, Hc2|apply safe_ret, owned_none; done].
Qed.

Lemma safe_add_ars tp N r ttl rrs :
  tp = T_NS \/ tp = T_SOA -> wf_name N -> Forall (fun rr => exists ps, wire tp ps /\ rr = flat ps) rrs ->
  safe (add_ars tp (enc_name N ++ r) ttl rrs) top.
Proof.
  intros Ht HN. induction 1 as [|rr rrs (ps & Hw & ->) _ IH]; cbn [add_ars]; [by apply safe_ret|].
  eapply safe_bind; [|intros [] _; exact IH]. apply safe_add_ar; [done|]. intros nm t ->.
  assert (((tp =? T_NS)%Z || (tp =? T_SOA)%Z) = true) as -> by (destruct Ht as [-> | ->]; done).
  split; cbn [re_tp re_nm re_tnm]; [intros _; split; [by exists N|by exists ps]|]. intros [-> | ->]; [|by destruct Ht].
  destruct Hw as [Hlay Hps]. cbn in Hlay. destruct Hlay as (N' & ->). apply Forall_cons in Hps as [Hps _]. exists N', []. split; [exact Hps|done].
Qed.

Lemma have_any_total c tps : shape c -> Forall (fun tp => is_type tp = true) tps -> exists b, have_any c tps = Some b.
Proof.
  intros Hs. induction 1 as [|tp tps Ht _ [b Eb]]; cbn [have_any]; [by eexists|].
  pose proof (has_type_spec c tp Hs) as H. unfold has_type in H. rewrite Ht in H. rewrite H. sbind. destruct (_ && _); by eexists.
Qed.

Lemma nothing_found_total c qtype : shape c -> exists b, nothing_found c qtype = Some b.
Proof.
  intros Hs. unfold nothing_found. destruct (is_type qtype) eqn:Ht.
  - pose proof (has_type_spec c qtype Hs) as H. unfold has_type in H. rewrite Ht in H. rewrite H. by eexists.
  - destruct (qtype =? QT_MAILB)%Z; [destruct (have_any_total c [T_MB; T_MG; T_MR] Hs) as [b ->]; [by repeat constructor|by eexists]|].
    destruct (qtype =? QT_MAILA)%Z; [destruct (have_any_total c [T_MD; T_MF] Hs) as [b ->]; [by repeat constructor|by eexists]|by eexists].
Qed.

Lemma safe_note_authority c qtype : good_cent c -> safe (note_authority now c qtype) top.
Proof.
  intros Hc. pose proof Hc as ((Hs & _) & _). unfold note_authority. destruct (nothing_found_total c qtype Hs) as [b Eb].
  eapply (safe_bind _ _ top); [by eapply safe_lift|]. intros b' _. cbv zeta.
  assert (Ht : forall tp, tp = (if b' then T_SOA else T_NS) -> tp = T_NS \/ tp = T_SOA) by (intros ? ->; destruct b'; auto).
  remember (if b' then T_SOA else T_NS) as tp eqn:E. specialize (Ht tp eq_refl). clear E.
  eapply safe_bind; [apply safe_authority_set; [done|by destruct Ht as [-> | ->]]|]. intros [o c2] [Hc2 Ho]. cbn [fst snd] in *.
  eapply (safe_bind _ _ top); [|intros [] _; by apply safe_release]. destruct o as [rs|]; [|by apply safe_ret].
  destruct (Ho rs eq_refl) as [[c' ->] Hw]. eapply (safe_bind _ _ (fun x => x = c')); [by eapply safe_lift|]. intros ? ->.
  apply safe_guard; [done|]. destruct (good_name c' (Hc2 c' eq_refl)) as (N & HN & ->). rewrite <- (app_nil_r (enc_name N)).
  by apply safe_add_ars.
Qed.

(** *** The final sections *)

Lemma safe_add_authority ar udp : lim = nscount -> Forall ar_ok ar -> safe (add_authority ar udp) top.
Proof.
  intros Elim. induction 1 as [|re ar [H _] _ IH]; cbn [add_authority]; [by apply safe_ret|].
  eapply (safe_bind _ _ top); [|intros [] _; exact IH].
  destruct ((re_tp re =? T_NS)%Z || (re_tp re =? T_SOA)%Z) eqn:E; [|by apply safe_ret].
  destruct H as ((N & HN & ->) & ps & Hw & ->); [apply orb_true_iff in E as [E|E]; apply Z.eqb_eq in E; auto|].
  rewrite <- (app_nil_r (enc_name N)). by apply safe_add_additional_rr.
Qed.

Lemma safe_add_addresses ar udp : lim = arcount -> Forall ar_ok ar -> safe (add_addresses now rnd_recs ar udp) top.
Proof.
  intros Elim. induction 1 as [|re ar [_ H] _ IH]; cbn [add_addresses]; [by apply safe_ret|].
  eapply (safe_bind _ _ top); [|intros [] _; exact IH].
  destruct ((re_tp re =? T_NS)%Z || (re_tp re =? RRETP_ADD)%Z) eqn:E; [|by apply safe_ret].
  destruct H as (N & r & HN & ->); [apply orb_true_iff in E as [E|E]; apply Z.eqb_eq in E; auto|]. by apply safe_add_additional_a.
Qed.

End Sets.

(** *** Bits of the header *)

Lemma wruns_hdr_byte s hdr b es slack i v :
  built False s hdr (lit b) es slack -> i < sizeof_dns_hdr_t ->
  wruns (PUTBYTES i [v]) s (fun r s' => r = Some tt /\ wframe s s' /\ built False s' (<[i := v]> hdr) (lit b) es slack).
Proof.
  intros ((m & Hm & Hfi) & Hh & Hsz & Hcb & Hok) Hi. destruct (lookup_lt_is_Some_2 hdr i) as [y Hy]; [lia|].
  eapply wruns_weaken; [apply (wruns_putbytes s i [v] (take i hdr) [y] (drop (S i) hdr ++ m ++ slack))|].
  - rewrite Hm. rewrite <- (take_drop_middle hdr i y Hy) at 1. by rewrite <- !app_assoc.
  - rewrite length_take. lia.
  - done.
  - cbn beta. intros r s' [-> ->]. splits; [done|unfold wframe; splits; auto with pdnsd|]. unfold built. cbn [a_msg a_sz a_cb set_msg].
    splits; [|by rewrite length_insert|done..]. exists m. split; [|done]. rewrite insert_take_drop by lia. by rewrite <- !app_assoc.
Qed.

Lemma built_rd s hdr b es slack i : built False s hdr (lit b) es slack -> i < sizeof_dns_hdr_t -> rd (a_msg s) i = hdr !! i.
Proof. intros ((m & -> & _) & Hh & _) Hi. unfold rd. by rewrite lookup_app_l by lia. Qed.

Lemma safe_set_aa : safe set_aa top.
Proof.
  intros s Hs. pose proof Hs as (Hg & (hdr & b & es & slack & Hb & Hh & fs & Hfs & Hcnt & Hlim) & _). pose proof Hh as (Hl & Hid & (f & Hf2 & Hbit) & (g & Hg3 & Hrc)).
  unfold set_aa. apply wruns_bind, wruns_get. apply step_lift with f; [by rewrite (built_rd _ _ _ _ _ _ Hb) by (vm_compute; lia)|].
  eapply wruns_weaken; [apply (wruns_hdr_byte _ _ _ _ _ 2 _ Hb); vm_compute; lia|]. cbn beta. intros r s' (-> & Hfr & Hb').
  split; [by eapply good_frame|]. split; [done|]. eapply wst_built; [exact Hs|done|exact Hb'|]. split; [|exists fs; splits; [done|apply counted_insert; [lia|done]|done]]. unfold hdr_ok. splits.
  - by rewrite length_insert.
  - by rewrite take_insert_ge by lia.
  - exists (Z.lor f 4). rewrite list_lookup_insert_eq by (rewrite Hl; vm_compute; lia). split; [done|]. by rewrite !Z.lor_spec, (proj1 Hbit), (proj2 Hbit).
  - exists g. by rewrite list_lookup_insert_ne by lia.
Qed.
End Safe.

(** Setting the return code. *)
Lemma wruns_set_rcode {P : Platform} id rc0 rc qs lim s : wst id rc0 qs lim s -> wruns (set_rcode rc) s (safe_post id rc qs lim top).
Proof.
  intros Hs. pose proof Hs as (Hg & (hdr & b & es & slack & Hb & Hh & fs & Hfs & Hcnt & Hlim) & Hsv & Har). pose proof Hh as (Hl & Hid & (f & Hf2 & Hbit) & (g & Hg3 & Hrc)).
  unfold set_rcode. apply wruns_bind, wruns_get. apply step_lift with g; [by rewrite (built_rd _ _ _ _ _ _ Hb) by (vm_compute; lia)|].
  eapply wruns_weaken; [apply (wruns_hdr_byte _ _ _ _ _ 3 _ Hb); vm_compute; lia|]. cbn beta. intros r s' (-> & Hfr & Hb').
  split; [by eapply good_frame|]. split; [done|]. pose proof Hfr as (Esv & Ear & _). unfold wst. rewrite Esv, Ear.
  splits; [by eapply good_frame| |done|done]. exists (<[3 := Z.lor (Z.land g 240) (Z.land rc 15)]> hdr), b, es, slack. split; [exact Hb'|].
  split; [|exists fs; splits; [done|apply counted_insert; [lia|done]|done]]. unfold hdr_ok. splits.
  - by rewrite length_insert.
  - by rewrite take_insert_ge by lia.
  - exists f. by rewrite list_lookup_insert_ne by lia.
  - eexists. rewrite list_lookup_insert_eq by (rewrite Hl; vm_compute; lia). split; [done|]. unfold h_rcode.
    rewrite Z.land_lor_distr_l, <- !Z.land_assoc. by rewrite Z.land_0_r.
Qed.

(** *** Later sections, and the questions *)

Section Steps.
Context {P : Platform} (id : list Z) (rc : Z).

Lemma wst_later qs lim lim' s : lim <= lim' -> wst id rc qs lim s -> wst id rc qs lim' s.
Proof.
  intros Hle (Hg & (hdr & b & es & slack & Hb & Hh & fs & Hf & Hc & Hl) & Hr). split; [done|]. split; [|done]. exists hdr, b, es, slack. split; [done|]. split; [done|].
  exists fs. splits; [done..|]. eapply Forall_impl; [exact Hl|]. cbn. lia.
Qed.

Lemma wruns_safe {A B} (m : W A) (k : A -> W B) qs lim s R (Q : option B -> answer -> Prop) :
  safe id rc qs lim m R -> wst id rc qs lim s -> (forall s', ready (a_cache s') -> Q None s') ->
  (forall a s', R a -> wst id rc qs lim s' -> wruns (k a) s' Q) -> wruns (mbind k m) s Q.
Proof.
  intros Hm Hs HN Hk. apply wruns_bind. eapply wruns_weaken; [by apply Hm|]. intros [a|] s' [Hg H]; [|by apply HN].
  destruct H as [Ha Hs']. by apply Hk.
Qed.

Lemma wruns_add_sections now rnd_recs udpbufsize qs edns udp s : wst id rc qs ancount s ->
  wruns (add_sections now rnd_recs udpbufsize edns udp) s (safe_post id rc qs arcount top).
Proof.
  intros Hs. assert (Hnone : forall s' : answer, ready (a_cache s') -> safe_post id rc qs arcount (@top unit) None s') by (intros; by split).
  unfold add_sections. apply wruns_bind, wruns_get. apply (wst_later _ _ nscount) in Hs; [|vm_compute; lia].
  eapply wruns_safe; [apply safe_add_authority; [done|apply Hs]|done|done|]. intros [] s1 _ Hs1. apply (wst_later _ _ arcount) in Hs1; [|vm_compute; lia]. apply wruns_bind, wruns_get.
  destruct (match udp with Some _ => _ | None => false end); [apply wruns_ret; split; [apply Hs1|done]|].
  eapply wruns_safe; [destruct edns; [by apply safe_add_opt|by apply (safe_ret _ _ _ _ _ top)]|done|done|]. intros [] s2 _ Hs2. by apply safe_add_addresses; [|apply Hs1|].
Qed.



Definition qe_ok (qe : dns_queryel) : Prop := exists N, wf_name N /\ qe_query qe = enc_name N.

Lemma lit_app a b : lit (a ++ b) = lit a ++ lit b.
Proof. apply fmap_app. Qed.

Lemma built_bump s hdr b es slack f :
  built False s hdr (lit b) es slack -> f + 2 <= sizeof_dns_hdr_t ->
  wruns (add_count f 1) s (fun r s' => r = Some tt /\ wframe s s' /\ built False s' (bump f hdr) (lit b) es slack).
Proof.
  intros ((m & Hm & Hfi) & Hh & Hsz & Hcb & Hok) Hf. eapply wruns_weaken; [apply (wruns_add_count s hdr (m ++ slack)); [done|lia]|].
  cbn beta. intros r s' [-> ->]. splits; [done|unfold wframe; splits; auto with pdnsd|]. unfold built. cbn [a_msg a_sz a_cb set_msg].
  splits; [by exists m|by rewrite length_bump by lia|done..].
Qed.

Lemma wruns_put_question qs qe s : qe_ok qe -> wst id rc qs qdcount s -> wruns (put_question qe) s (safe_post id rc (qs ++ [qe]) qdcount top).
Proof.
  intros (N & HN & E) Hs. pose proof Hs as (Hg & (hdr & b & es & slack & Hb & Hh & fs & Hfs & Hcnt & Hlim) & Hsv & Har). pose proof (framed_first _ _ _ Hfs Hlim) as ->.
  unfold put_question. rewrite E, <- (app_nil_r (enc_name N)). apply wruns_bind, wruns_get.
  apply step_lift with (length (enc_name N)); [apply rhnlen_enc, HN|].
  apply wruns_bind. eapply wruns_weaken; [apply wruns_reserve|]. cbn beta. intros [u|] s1 [Hf1 H1]; [|split; [by eapply good_frame|done]].
  destruct H1 as ((x & Hx) & Hal & Hsz1 & Hcb1). pose proof Hb as ((m & Hm & Hfi) & Hlh & Hsz & Hcb & Hok). apply fills_lit in Hfi as ->.
  assert (Hb1 : built False s1 hdr (lit b) es (slack ++ x)).
  { unfold built. rewrite Hx, Hm, Hsz1, Hcb1. splits; [|done..]. exists b. split; [by rewrite <- !app_assoc|by apply fills_lit]. }
  assert (Hroom : length (enc_name N) + 4 <= length (slack ++ x)).
  { unfold allocsz in Hal. rewrite Hx, Hm, <- !app_assoc, !length_app in Hal. rewrite length_lit in Hsz. rewrite length_app. lia. }
  apply wruns_bind. eapply wruns_weaken; [apply (wruns_put_name False _ _ _ _ _ N [] Hb1 HN); lia|]. cbn beta.
  intros [rl|] s2 [Hf2 H2]; [|split; [by do 2 (eapply good_frame; [eassumption|])|done]].
  destruct H2 as (w & es2 & -> & Hlw & Hb2 & Hform & _). apply wruns_bind.
  eapply wruns_weaken; [apply (wruns_append False _ _ _ _ _ _ Hb2); rewrite length_drop; cbn [length put16 app]; lia|]. cbn beta.
  intros r s3 (-> & Hf3 & Hb3). rewrite <- !lit_app in Hb3.
  eapply wruns_weaken; [by apply (built_bump _ _ _ _ _ qdcount Hb3); vm_compute; lia|]. cbn beta. intros r s4 (-> & Hf4 & Hb4).
  assert (Hf : wframe s s4) by (do 3 (eapply wframe_trans; [eassumption|]); done).
  split; [by eapply good_frame|]. split; [done|]. pose proof Hf as (Esv & Ear & _). unfold wst. rewrite Esv, Ear. splits; [by eapply good_frame| |done|done].
  exists (bump qdcount hdr), (b ++ w ++ put16 (qe_qtype qe) ++ put16 (qe_qclass qe)), es2. eexists. split; [by rewrite <- !app_assoc in Hb4|]. split; [apply hdr_ok_bump; [vm_compute; lia..|done]|].
  exists []. splits; [by eapply fr_question|apply counted_question; [apply Hh|done]|constructor].
Qed.

Lemma wruns_put_questions ql : Forall qe_ok ql -> forall qs s, wst id rc qs qdcount s -> wruns (put_questions ql) s (safe_post id rc (qs ++ ql) qdcount top).
Proof.
  induction 1 as [|qe ql Hqe _ IH]; intros qs s Hs; cbn [put_questions].
  { apply wruns_ret. rewrite app_nil_r. split; [apply Hs|done]. }
  apply wruns_bind. eapply wruns_weaken; [by apply wruns_put_question|]. intros [[]|] s1 [Hg1 H1]; [|by split]. destruct H1 as [_ H1]. rewrite cons_middle, app_assoc. by apply IH.
Qed.
End Steps.

(** ** Composing an answer *)

(** The types that a query may be about. *)
Definition thint_ok (thint : Z) : Prop := not_cached_type thint = false \/ is_type thint = false.

(** What the resolver promises to its callers. *)
Class Resolver {P : Platform} (resolve : list Z -> Z -> Z -> M (Z * option dns_cent * Z)) : Prop :=
  resolver_ok : forall N r qtype now c, wf_name N -> thint_ok qtype -> ready c ->
    runs (resolve (enc_name N ++ r) qtype now) c (fun res c' => ready c' /\
      (res.1.1 = RC_OK -> exists e, res.1.2 = Some e /\ good_cent e)).

Section Compose.
Context {P : Platform} (now : Z) (rnd_recs : bool) (udpbufsize : Z).
Context (dns_cached_resolve : list Z -> Z -> Z -> M (Z * option dns_cent * Z)) `{HR : !Resolver dns_cached_resolve}.
Context (id : list Z) (qs : list dns_queryel).

Lemma wruns_failed rc N r csoa edns udp s :
  wst id RC_OK qs ancount s -> wf_name N -> wruns (failed_answer now udpbufsize rc (enc_name N ++ r) csoa edns udp) s (safe_post id rc qs arcount top).
Proof.
  intros Hs HN. unfold failed_answer. apply wruns_bind. eapply wruns_weaken; [by eapply wruns_set_rcode|].
  intros [[]|] s1 [Hg1 H1]; [|by split]. destruct H1 as [_ Hs1]. apply (wst_later _ _ _ _ nscount) in Hs1; [|vm_compute; lia].
  assert (Hend : forall s', wst id rc qs nscount s' -> safe_post id rc qs arcount top (Some tt) s').
  { intros s' Hs'. split; [apply Hs'|]. split; [done|]. by apply (wst_later _ _ _ nscount); [vm_compute; lia|]. }
  destruct (rc =? RC_NAMEERR)%Z; [|by apply wruns_ret, Hend].
  eapply wruns_safe; [by apply safe_nameerr_soa|done|intros; by split|]. intros [] s2 _ Hs2.
  destruct edns; [|by apply wruns_ret, Hend]. apply safe_add_opt; [done|]. by apply (wst_later _ _ _ nscount); [vm_compute; lia|].
Qed.

(** The buffer for the current name. *)
Definition name_buf (q : list Z) : Prop := exists N r, wf_name N /\ q = enc_name N ++ r /\ length q = DNSNAMEBUFSIZE.

Lemma next_name_total c rd qtype q :
  good_cent c -> name_buf q -> exists o, next_name c rd qtype q = Some o /\ forall q', o = Some q' -> name_buf q'.
Proof.
  intros ((Hs & _) & _ & Hw) (N & r & HN & Eq & Hl). unfold next_name. destruct (_ && _); [|by eexists].
  rewrite has_type_spec by done. sbind. destruct (_ && _); [by eexists|]. unfold follow_cname_chain.
  rewrite (get_rrsmu_getrrset c RRMUINDEX_CNAME T_CNAME Hs) by (reflexivity || (vm_compute; lia)).
  destruct (getrrset_total c T_CNAME Hs) as [o Eo]. rewrite Eo. sbind. destruct o as [rs|]; [|by eexists].
  specialize (Hw T_CNAME rs Eo). destruct (rs_rrs rs) as [|rr rrs]; [by eexists|]. apply Forall_cons in Hw as [(ps & [Hlay Hps] & ->) _].
  cbn in Hlay. destruct Hlay as (N' & ->). apply Forall_cons in Hps as [HN' _]. cbn [piece_ok] in HN'.
  unfold flat. cbn [map concat piece_bytes]. rewrite app_nil_r.
  assert (Hle : length (enc_name N') <= DNSNAMEBUFSIZE) by (destruct HN' as [_ HN']; exact HN'). bool_true (length (enc_name N') <=? DNSNAMEBUFSIZE).
  pose proof (wr_bytes_app_mid (enc_name N') [] q) as E. cbn [app length] in E. rewrite E by lia. sbind. eexists. split; [done|].
  intros q' [= <-]. exists N', (drop (length (enc_name N')) q). splits; [done|done|]. rewrite length_app, length_drop. lia.
Qed.

(** How the loop for one question ends: with a complete reply, or ready for the next. *)
Definition loop_post (res : option (Z + bool)) (s' : answer) : Prop :=
  ready (a_cache s') /\
  match res with Some (inl rc) => wst id rc qs arcount s' | Some (inr _) => wst id RC_OK qs ancount s' | None => True end.

Lemma wruns_answer_loop qe rd edns udp hops : forall q aa s,
  wst id RC_OK qs ancount s -> name_buf q -> thint_ok (qe_qtype qe) ->
  wruns (answer_loop now rnd_recs udpbufsize dns_cached_resolve hops qe q rd aa edns udp) s loop_post.
Proof.
  assert (Hnone : forall s', ready (a_cache s') -> loop_post None s') by (intros; by split).
  induction hops as [|hops IH]; intros q aa s Hs Hq Hth; pose proof Hq as (N & r & HN & -> & Hlen); cbn [answer_loop].
  all: eapply (wruns_safe _ _ _ _ _ _ _ (fun res => res.1.1 = RC_OK -> exists e, res.1.2 = Some e /\ good_cent e));
    [apply safe_cache; intros c Hc; by apply HR|done|done|]; intros [[rc cached] csoa] s1 Hres Hs1; cbn [fst snd] in Hres.
  all: destruct (negb (rc =? RC_OK)%Z) eqn:Erc;
    [apply wruns_bind; eapply wruns_weaken; [by apply wruns_failed|]; intros [[]|] s2 [Hg2 H2]; [|by split];
     apply wruns_ret; split; [done|apply H2]|].
  all: apply negb_false_iff, Z.eqb_eq in Erc; destruct (Hres Erc) as (e & -> & He);
    apply step_lift with e; [done|]; cbv zeta;
    (eapply wruns_safe; [apply safe_guard; [by intros ? [= <-]|by apply safe_add_to_response]|done|done|]; intros ? s2 _ Hs2);
    destruct (next_name_total e rd (qe_qtype qe) (enc_name N ++ r) He Hq) as (o & Eo & Ho); (apply step_lift with o; [done|]);
    destruct o as [q'|];
      [|eapply wruns_safe; [by apply safe_note_authority|done|done|]; intros ? s3 _ Hs3; apply wruns_ret; split; [apply Hs3|done]].
  all: eapply wruns_safe; [by apply safe_free_good|done|done|]; intros ? s3 _ Hs3.
  - apply wruns_ret. split; [apply Hs3|done].
  - apply IH; [done|by apply Ho|done].
Qed.

Lemma wruns_answer_questions rd edns udp ql : forall aa s,
  Forall qe_ok ql -> Forall (fun qe => thint_ok (qe_qtype qe)) ql -> wst id RC_OK qs ancount s ->
  wruns (answer_questions now rnd_recs udpbufsize dns_cached_resolve ql rd aa edns udp) s loop_post.
Proof.
  induction ql as [|qe ql IH]; intros aa s Hql Hth Hs; cbn [answer_questions].
  { apply wruns_ret. split; [apply Hs|done]. }
  apply Forall_cons in Hql as [(N & HN & E) Hql]. apply Forall_cons in Hth as [Hqt Hth]. rewrite E, <- (app_nil_r (enc_name N)).
  assert (Hle : length (enc_name N) <= DNSNAMEBUFSIZE) by (destruct HN as [_ HN]; exact HN).
  eapply step_lift; [apply rhncpy_enc; [done|]; by rewrite length_replicate|]. cbv beta iota.
  apply wruns_bind. eapply wruns_weaken; [apply wruns_answer_loop; [done| |done]|].
  { eexists N, _. splits; [done|done|]. rewrite length_app, length_drop, length_replicate. lia. }
  intros [[rc|aa']|] s1 [Hg H]; [|by apply IH|by split]. apply wruns_ret. by split.
Qed.

End Compose.

Section Whole.
Context {P : Platform} (now : Z) (rnd_recs : bool) (udpbufsize : Z).
Context (dns_cached_resolve : list Z -> Z -> Z -> M (Z * option dns_cent * Z)) `{HR : !Resolver dns_cached_resolve}.
Context (id : list Z).

Lemma take_2_id (l r : list Z) : length l = 2 -> take 2 (l ++ r) = l.
Proof. intros H. by apply take_app_length'. Qed.

Lemma wst_header s hdr : ready (a_cache s) -> a_sva s = [] -> a_ar s = [] -> a_cb s = [] -> hdr_ok id RC_OK hdr -> counted hdr [] [] -> forall slack,
  wst id RC_OK [] qdcount (set_sz sizeof_dns_hdr_t (set_msg (hdr ++ slack) s)).
Proof.
  intros Hg Hsv Har Hcb Hh Hc slack. unfold wst. cbn [a_cache a_sva a_ar set_sz set_msg]. rewrite Hsv, Har. splits; [done| |constructor|constructor].
  exists hdr, [], [], slack. split; [|split; [done|exists []; splits; [constructor|done|constructor]]]. unfold built. cbn [a_msg a_sz a_cb set_sz set_msg]. splits.
  - exists []. split; [done|]. by apply fills_lit.
  - apply Hh.
  - done.
  - by rewrite Hcb.
  - split; [constructor|by intros []].
Qed.

Lemma reply_header_ok rd : length id = 2 -> rd = 0%Z \/ rd = 1%Z -> hdr_ok id RC_OK (reply_header id rd).
Proof.
  intros Hid Hrd. unfold hdr_ok, reply_header. splits.
  - rewrite length_app, Hid. done.
  - by apply take_2_id.
  - eexists. rewrite lookup_app_r by lia. rewrite Hid. split; [reflexivity|]. by destruct Hrd as [-> | ->].
  - eexists. rewrite lookup_app_r by lia. rewrite Hid. split; reflexivity.
Qed.

(** A header whose counters are 0. *)
Lemma counted_zero a b c d : counted [a; b; c; d; 0; 0; 0; 0; 0; 0; 0; 0]%Z [] [].
Proof. split; [done|]. unfold section_fields. intros f. rewrite !elem_of_cons, elem_of_nil. by intros [->|[->|[->|[]]]]. Qed.

Lemma two_bytes (l : list Z) : length l = 2 -> exists a b, l = [a; b].
Proof. destruct l as [|a [|b [|]]]; try done. intros _. by exists a, b. Qed.

Lemma supported_types ql : existsb unsupported ql = false -> Forall (fun qe => thint_ok (qe_qtype qe)) ql.
Proof.
  induction ql as [|qe ql IH]; cbn [existsb]; [constructor|]. intros [E El]%orb_false_iff. constructor; [|by apply IH].
  unfold unsupported in E. apply orb_false_iff in E as [E _]. apply andb_false_iff in E as [E|E]; [by left|right]. apply negb_false_iff in E.
  unfold is_type. apply orb_true_iff in E as [E|E]; [apply orb_true_iff in E as [E|E]|]; apply Z.eqb_eq in E; by rewrite E.
Qed.

Lemma wruns_compose_answer ql rd edns udp s :
  length id = 2 -> rd = 0%Z \/ rd = 1%Z -> Forall qe_ok ql ->
  ready (a_cache s) -> a_sva s = [] -> a_ar s = [] -> a_cb s = [] ->
  wruns (compose_answer now rnd_recs udpbufsize dns_cached_resolve ql id rd edns udp) s (fun res s' =>
    ready (a_cache s') /\ forall rc, res = Some rc -> wst id rc ql arcount s').
Proof.
  intros Hid Hrd Hql Hg Hsv Har Hcb. unfold compose_answer. apply wruns_bind, wruns_malloc. intros ok c Hc Hp.
  assert (Hgc : ready c) by (by eapply ready_mem). destruct ok; cbn [negb]; [|apply wruns_giveup; by split].
  apply wruns_bind, wruns_mod.
  apply wruns_bind. eapply wruns_weaken; [apply wruns_put_questions; [exact Hql|apply wst_header; [done..|by apply reply_header_ok|]]|].
  { destruct (two_bytes id Hid) as (a & b & ->). apply counted_zero. }
  intros [[]|] s1 [Hg1 H1]; [|by split]. destruct H1 as [_ H1]. cbn [app] in H1. apply (wst_later _ _ _ _ ancount) in H1; [|vm_compute; lia].
  destruct (existsb unsupported ql) eqn:Eu.
  - apply wruns_bind. eapply wruns_weaken; [by eapply wruns_set_rcode|]. intros [[]|] s2 [Hg2 H2]; [|by split].
    apply wruns_ret. split; [done|]. intros rc [= <-]. apply (wst_later _ _ _ ancount); [vm_compute; lia|apply H2].
  - apply wruns_bind. eapply wruns_weaken; [eapply wruns_answer_questions; [done|done|by apply supported_types|done]|]. intros [[rc|aa]|] s2 [Hg2 H2]; [| |by split].
    + apply wruns_ret. split; [done|]. by intros ? [= <-].
    + apply wruns_bind. eapply wruns_weaken; [by apply (wruns_add_sections id RC_OK now rnd_recs udpbufsize ql)|]. intros [[]|] s3 [Hg3 H3]; [|by split]. destruct H3 as [_ Hs3].
      eapply (wruns_safe _ _ _ _ _ _ _ top); [destruct aa; [apply safe_set_aa|by apply safe_ret]|done|intros; by split|].
      intros ? s4 _ Hs4. apply wruns_ret. split; [apply Hs4|]. by intros ? [= <-].
Qed.
End Whole.

(** ** Replies to erroneous queries *)

Definition extended (res : Z) : bool := negb (Z.ldiff res 15 =? 0)%Z.

(** The operation code an error reply has. *)
Definition reply_opcode (data : list Z) : Z :=
  match data !! 2 with Some b => h_opcode b | None => OP_QUERY end.

(** The reply to the message [data] with the return code [res]. *)
Definition error_message (udpbufsize : Z) (data : list Z) (res : Z) : list Z :=
  let hdr := mk_error_reply (take 2 data) (reply_opcode data) res in
  if extended res then bump arcount hdr ++ opt_rr udpbufsize res 0 0 else hdr.

Lemma add_opt_error u res hdr a b f1 f2 s :
  hdr = [a; b; f1; f2; 0; 0; 0; 0; 0; 0; 0; 0]%Z ->
  add_opt_pseudo_rr u res 0 0 (set_sz sizeof_dns_hdr_t (set_msg (hdr ++ replicate sizeof_opt_pseudo_rr 0%Z) s)) =
  Some (Some tt, set_sz (sizeof_dns_hdr_t + sizeof_opt_pseudo_rr) (set_msg (bump arcount hdr ++ opt_rr u res 0 0) s)).
Proof. intros ->. reflexivity. Qed.

Lemma wruns_tried {A} (m : W A) s r s' (Q : option (option A) -> answer -> Prop) :
  m s = Some (r, s') -> Q (Some r) s' -> wruns (tryW m) s Q.
Proof. intros E H. exists (Some r), s'. unfold tryW. by rewrite E. Qed.

Lemma wruns_error_reply u data res s :
  2 <= length data ->
  wruns (error_reply u data res) s (fun r s' => mem_only (a_cache s) (a_cache s') /\
    match r with
    | Some rc => rc = res /\ a_msg s' = error_message u data res /\ a_sz s' = length (a_msg s')
    | None => ~ plenty (a_cache s)
    end).
Proof.
  intros Hl. destruct data as [|d0 [|d1 data]]; [cbn in Hl; lia..|]. clear Hl. unfold error_reply. cbv zeta. fold (extended res).
  apply wruns_bind, wruns_malloc. intros ok c Hc Hp. destruct ok; cbn [negb]; [|apply wruns_giveup; split; [done|intros H; by destruct (Hp H)]].
  set (s1 := set_cache c s). apply step_lift with [d0; d1]; [apply (rd_bytes_front [d0; d1])|].
  apply wruns_bind, (wruns_weaken _ _ (fun r s' => r = Some (reply_opcode (d0 :: d1 :: data)) /\ s' = s1)).
  { destruct data as [|d2 data]; [by apply wruns_ret|]. cbn [length Nat.leb]. apply step_lift with d2; [done|]. by apply wruns_ret. }
  cbn beta. intros r s' [-> ->]. apply wruns_bind, wruns_mod. set (hdr := mk_error_reply _ _ _).
  assert (Eh : exists f1 f2, hdr = [d0; d1; f1; f2; 0; 0; 0; 0; 0; 0; 0; 0]%Z) by (by eexists _, _). destruct Eh as (f1 & f2 & Eh).
  apply wruns_bind. unfold error_message. cbv zeta. change (take 2 (d0 :: d1 :: data)) with [d0; d1]. fold hdr. destruct (extended res).
  - apply wruns_bind. eapply wruns_tried; [by apply (add_opt_error _ _ _ d0 d1 f1 f2)|]. apply wruns_ret, wruns_ret. splits; [done|done|done|].
    cbn [a_sz a_msg set_sz set_msg]. rewrite length_app, length_bump by (rewrite Eh; vm_compute; lia). by rewrite Eh.
  - apply wruns_ret, wruns_ret. splits; [done|done|cbn [a_msg set_sz set_msg]; apply app_nil_r|].
    cbn [a_sz a_msg set_sz set_msg]. rewrite app_nil_r. by rewrite Eh.
Qed.

(** ** Decoding *)

Lemma questions_ok data H p qs q : questions_at data H p qs q -> Forall qe_ok qs.
Proof. induction 1 as [|p qe ql p' N h c _ HN _ _ E _ _ _ IH]; constructor; [by exists N|done]. Qed.

Section Process.
Context {P : Platform} (now : Z) (rnd_recs : bool) (udpbufsize : Z).

Lemma check_edns_total data res ptr sz tc udp :
  bytes data -> sizeof_dns_hdr_t <= length data -> (res = RC_OK -> ptr + sz = length data) -> res = RC_OK \/ res = RC_TRUNC ->
  exists r, check_edns udpbufsize data res ptr sz tc udp = Some r.
Proof.
  intros Hb Hl Hptr Hres. unfold check_edns. rewrite get16_some by (unfold sizeof_dns_hdr_t, arcount in *; lia). sbind.
  destruct (_ =? 0)%Z; [by eexists|]. destruct Hres as [-> | ->]; [|by eexists]. cbn [Z.eqb RC_OK RC_TRUNC].
  change (RC_OK =? RC_TRUNC)%Z with false. cbv iota.
  destruct (lookup_lt_is_Some_2 data 3) as [f2 Hf2]; [unfold sizeof_dns_hdr_t in Hl; lia|].
  destruct (decode_additional_spec data f2 Hb Hf2 (Z.to_nat (count16 data arcount)) ptr sz 0
    {| ed_udpsize := 0; ed_rcode := 0; ed_version := 0; ed_do_flg := 0 |} (Hptr eq_refl)) as (res & k & ep & E & _).
  rewrite E. sbind. destruct (negb _); [by eexists|]. destruct (k =? 0); [by eexists|]. destruct (negb _); [by eexists|].
  destruct (negb _); by eexists.
Qed.

(** What is known when the question section has been read. *)
Definition request_ok (data : list Z) (r : Z + list dns_queryel * bool * option nat) : Prop :=
  match r with inl res => True | inr (ql, _, _) => exists H q, questions_at data H sizeof_dns_hdr_t ql q end.

Lemma runs_decode_request data f1 udp c :
  bytes data -> sizeof_dns_hdr_t <= length data ->
  runs (decode_request udpbufsize data f1 udp) c (fun r c' => mem_only c c' /\ request_ok data r).
Proof.
  intros Hb Hl. unfold decode_request. apply runs_bind. eapply runs_weaken; [by apply runs_decode_query|].
  intros [[[res ptr] sz] ql] c' (Hm & _ & Hcases & _).
  destruct ((res =? RC_TRUNC)%Z && _) eqn:E1; [by apply runs_ret|].
  destruct (negb (res =? RC_OK)%Z && negb (res =? RC_TRUNC)%Z) eqn:E2; [by apply runs_ret|].
  assert (Hok : (exists H q, questions_at data H sizeof_dns_hdr_t ql q) /\ (res = RC_OK -> ptr + sz = length data) /\ (res = RC_OK \/ res = RC_TRUNC)).
  { destruct Hcases as [(-> & qs & H & -> & _ & Hq & Hsz)|[(-> & qs & H & q & -> & _ & Hq)|[(-> & _)|(-> & _)]]]; [..|discriminate E2|discriminate E2];
      cbn [app]; splits; try tauto; try done; by eexists _, _. }
  destruct Hok as (Hql & Hptr & Hres). destruct (check_edns_total data res ptr sz (h_tc f1) udp Hb Hl Hptr Hres) as [e Ee].
  run_lift; [exact Ee|]. destruct e as [res'|[edns udp']]; [by apply runs_ret|]. apply runs_ret. split; [done|].
  destruct ql; [exact I|exact Hql].
Qed.

Lemma check_header_total data :
  exists h, check_header data = Some h /\ (h <> None -> 2 <= length data) /\
    (forall f1, h = Some (inr f1) -> sizeof_dns_hdr_t <= length data).
Proof.
  unfold check_header. destruct (length data <? 2) eqn:E1; boolp; [by exists None|].
  destruct (length data <? sizeof_dns_hdr_t) eqn:E2; boolp; [by eexists|]. unfold sizeof_dns_hdr_t in E2.
  destruct (rd_lt data 2) as [f1 ->]; [lia|]. destruct (rd_lt data 3) as [f2 ->]; [lia|]. sbind.
  rewrite !get16_some by (unfold ancount, nscount; lia). sbind.
  repeat (destruct (negb _); [eexists; split; [done|]; split; [intros; lia|by intros]|]).
  eexists. split; [done|]. split; [intros; lia|]. intros. unfold sizeof_dns_hdr_t. lia.
Qed.
End Process.

(** A reply to the message [data] with the return code [rc]: it lies within its allocation, repeats the identification, is
    marked as a response that is not truncated, and carries the code; behind the header are first questions, either
    none or those that stand in the message, and then records in the order of their sections, as many as the header counts. *)
Definition reply_to (data : list Z) (rc : Z) (s : answer) : Prop :=
  sizeof_dns_hdr_t <= a_sz s <= length (a_msg s) /\ take 2 (a_msg s) = take 2 data /\
  (exists f, a_msg s !! 2 = Some f /\ h_qr f = QR_RESP /\ h_tc f = 0%Z) /\
  (exists f, a_msg s !! 3 = Some f /\ h_rcode f = Z.land rc 15) /\
  exists hdr b qs fs, take (a_sz s) (a_msg s) = hdr ++ b /\ length hdr = sizeof_dns_hdr_t /\ framed b qs fs /\ counted hdr qs fs /\
    (qs = [] \/ exists H q, questions_at data H sizeof_dns_hdr_t qs q).

Lemma h_qr_mod f : h_qr f = ((f / 128) mod 2)%Z.
Proof. unfold h_qr. rewrite Z.shiftr_div_pow2 by lia. exact (Z.land_ones _ 1 ltac:(lia)). Qed.

Lemma land15_mod x : Z.land x 15 = (x mod 16)%Z.
Proof. exact (Z.land_ones x 4 ltac:(lia)). Qed.

Lemma h_qr_testbit f : Z.testbit f 7 = true -> h_qr f = QR_RESP.
Proof.
  intros H. rewrite h_qr_mod. pose proof (Z.testbit_spec' f 7 ltac:(lia)) as E. rewrite H in E. exact (eq_sym E).
Qed.

Lemma h_tc_mod f : h_tc f = ((f / 2) mod 2)%Z.
Proof. unfold h_tc. rewrite Z.shiftr_div_pow2 by lia. exact (Z.land_ones _ 1 ltac:(lia)). Qed.

Lemma h_tc_testbit f : Z.testbit f 1 = false -> h_tc f = 0%Z.
Proof. intros H. rewrite h_tc_mod. pose proof (Z.testbit_spec' f 1 ltac:(lia)) as E. rewrite H in E. exact (eq_sym E). Qed.

Lemma wst_reply {P : Platform} data rc qs lim s : wst (take 2 data) rc qs lim s -> (qs = [] \/ exists H q, questions_at data H sizeof_dns_hdr_t qs q) -> reply_to data rc s.
Proof.
  intros (_ & (hdr & b & es & slack & ((m & Hm & Hf) & Hh & Hs & _) & (_ & Hid & (f & Hf2 & Hbit) & (g & Hg & Hrc)) & fs & Hfr & Hcnt & _) & _) Hq.
  apply fills_lit in Hf as ->. rewrite length_lit in Hs. unfold reply_to. rewrite Hm, Hs. unfold sizeof_dns_hdr_t in *. splits.
  - lia.
  - rewrite !length_app, Hh. lia.
  - by rewrite take_app_le by lia.
  - exists f. rewrite lookup_app_l by lia. split; [done|]. split; [by apply h_qr_testbit, Hbit|by apply h_tc_testbit, Hbit].
  - exists g. by rewrite lookup_app_l by lia.
  - exists hdr, b, qs, fs. splits; try done. rewrite app_assoc. apply take_app_length'. rewrite length_app. lia.
Qed.

Lemma error_flags opcode res :
  h_qr (hdr_flags1 QR_RESP opcode 0 0 0) = QR_RESP /\ h_tc (hdr_flags1 QR_RESP opcode 0 0 0) = 0%Z /\ h_rcode (hdr_flags2 1 0 0 0 res) = Z.land res 15.
Proof.
  rewrite h_qr_mod, h_tc_mod. unfold h_rcode, hdr_flags1, hdr_flags2, QR_RESP. rewrite !land15_mod. Z.to_euclidean_division_equations; lia.
Qed.

Lemma error_message_reply u data res s :
  2 <= length data -> a_msg s = error_message u data res -> a_sz s = length (a_msg s) -> reply_to data res s.
Proof.
  intros Hl Hm Hs. destruct data as [|d0 [|d1 data]]; [cbn in Hl; lia..|]. unfold reply_to. rewrite Hs, Hm.
  rewrite firstn_all. unfold error_message. cbv zeta. change (take 2 (d0 :: d1 :: data)) with [d0; d1]. destruct (error_flags (reply_opcode (d0 :: d1 :: data)) res) as (E1 & E3 & E2).
  pose proof (counted_zero d0 d1 (hdr_flags1 QR_RESP (reply_opcode (d0 :: d1 :: data)) 0 0 0) (hdr_flags2 1 0 0 0 res)) as Hc.
  destruct (extended res); (splits; [vm_compute; lia|done|done|by eexists|by eexists|]).
  - exists (bump arcount (mk_error_reply [d0; d1] (reply_opcode (d0 :: d1 :: data)) res)), (opt_rr u res 0 0), [], [arcount]. splits; [done|done| | |by left].
    + apply (fr_record [] [] [] arcount [] [0%Z] T_OPT u [u8 (Z.shiftr res 4); u8 0; u8 (0 / 2 ^ 8); u8 0] []); [constructor|by do 2 right; left|constructor|split; [constructor|vm_compute; lia]| |done].
      split; [by repeat constructor|]. by exists 0, 0.
    + apply (counted_record _ [] []); [done|by do 2 right; left|done].
  - exists (mk_error_reply [d0; d1] (reply_opcode (d0 :: d1 :: data)) res), [], [], []. splits; [by rewrite app_nil_r|done|constructor|done|by left].
Qed.

Section Reply.
Context {P : Platform} (now : Z) (rnd_recs : bool) (udpbufsize : Z).
Context (dns_cached_resolve : list Z -> Z -> Z -> M (Z * option dns_cent * Z)) `{HR : !Resolver dns_cached_resolve}.

(** The cache is in order and the reply, if there is one, answers the message. *)
Definition replied (data : list Z) (res : option Z) (s' : answer) : Prop :=
  ready (a_cache s') /\ forall rc, res = Some rc -> reply_to data rc s'.

Lemma wruns_error_replied data res s :
  2 <= length data -> ready (a_cache s) -> wruns (error_reply udpbufsize data res) s (replied data).
Proof.
  intros Hl Hg. eapply wruns_weaken; [by apply wruns_error_reply|]. cbn beta. intros r s' [Hm H]. split; [by eapply ready_mem|].
  intros rc ->. destruct H as (-> & Hmsg & Hsz). by eapply error_message_reply.
Qed.

Lemma h_rd_bit b : h_rd b = 0%Z \/ h_rd b = 1%Z.
Proof. assert (E : h_rd b = (b mod 2)%Z) by exact (Z.land_ones b 1 ltac:(lia)). rewrite E. Z.to_euclidean_division_equations; lia. Qed.

Lemma wruns_process_query data udp c rnd :
  bytes data -> ready c ->
  wruns (process_query now rnd_recs udpbufsize dns_cached_resolve data udp) (no_answer c rnd) (replied data).
Proof.
  intros Hb Hg. unfold process_query. destruct (check_header_total data) as (h & Eh & Hl2 & Hl12). apply step_lift with h; [done|].
  destruct h as [[res|f1]|]; [apply wruns_error_replied; [by apply Hl2|done]| |apply wruns_giveup; by split].
  specialize (Hl2 ltac:(done)). specialize (Hl12 f1 eq_refl).
  apply wruns_bind, wruns_cache. eapply runs_weaken; [by apply runs_decode_request|]. cbn beta. intros r c1 [Hm Hr].
  assert (Hg1 : ready c1) by (by eapply ready_mem). set (s1 := set_cache c1 (no_answer c rnd)).
  destruct r as [res|[[ql edns] udp']]; [by apply wruns_error_replied|]. cbn in Hr.
  apply step_lift with (take 2 data).
  { destruct data as [|d0 [|d1 data]]; [cbn in Hl2; lia..|]. apply (rd_bytes_front [d0; d1]). }
  destruct (wruns_compose_answer now rnd_recs udpbufsize dns_cached_resolve (take 2 data) ql (h_rd f1) edns udp' s1)
    as (r & s2 & E & Hg2 & Hpost); [rewrite length_take; lia|apply h_rd_bit|by destruct Hr as (? & ? & Hr); eapply questions_ok|done..|].
  apply wruns_bind. eapply wruns_tried; [exact E|]. destruct r as [rc|]; [|by apply wruns_error_replied].
  apply wruns_ret. split; [done|]. intros ? [= <-]. eapply wst_reply; [by apply Hpost|by right].
Qed.
End Reply.
