(* ===== verification/QueryThms.v ===== *)
(** The theorems about decoding queries and answering them. *)
From S2P Require Import Prelude Names DnsName Compress RrTypes HashTab RrList Cent CentSpec Cache CacheInv CacheOps CacheThms.
From S2P Require Import Answer AnswerRr AnswerSet AnswerThms Query QueryDecode QuerySafe.

(** ** Decoding *)


(** [decode_query_additional] accesses no memory outside the message and ends.  It
    succeeds exactly when the message holds the announced number of additional records,
    and then has counted the OPT records among them and taken the UDP size, the
    extended return code, the version and the DO flag from the first of them. *)
Theorem decode_query_additional_correct (data : list Z) (f2 : Z) (n p sz : nat) (ep : edns_info) :
  bytes data -> data !! 3 = Some f2 -> p + sz = length data ->
  exists res numopt ep', decode_query_additional n data p sz 0 ep = Some (res, numopt, ep') /\
    (res = RC_OK \/ res = RC_TRUNC \/ res = RC_FORMAT) /\
    (res = RC_OK -> exists rs H q, additional_at data H p rs q /\ length rs = n) /\
    (forall rs q, length rs = n -> additional_at data 255 p rs q ->
       res = RC_OK /\ numopt = opts rs /\
       ep' = match List.find is_opt rs with Some x => edns_of (h_rcode f2) x | None => ep end).
Proof.
  intros Hb Hf2 Hsz. destruct (decode_additional_spec data f2 Hb Hf2 n p sz 0 ep Hsz) as (res & k & ep' & E & Hres & (rs & H & q & Hrs & Hiff & -> & ->) & Hcomp).
  exists res, (0 + opts rs), (edns_after (h_rcode f2) 0 ep rs). splits; [done|done|..].
  - intros Hok. exists rs, H, q. split; [done|by apply Hiff].
  - intros rs' q' Hlen Hrs'. pose proof (Hcomp rs' q' Hlen Hrs') as ->. split; [done|].
    destruct (additional_at_det _ _ _ _ _ Hrs' _ _ _ Hrs) as [-> _]; [rewrite Hlen; symmetry; by apply Hiff|]. done.
Qed.

(** ** Answering *)

Section Process.
Context {P : Platform} (now : Z) (rnd_recs : bool) (udpbufsize : Z).
Context (dns_cached_resolve : list Z -> Z -> Z -> M (Z * option dns_cent * Z)).

(** C4: whatever bytes arrive, and whatever allocations fail, processing them as a query
    is memory safe, violates no assertion and ends, given a resolver that keeps the
    cache in order and returns proper entries (the interface [Resolver], which the resolver of
    this program satisfies).  Afterwards the cache is in order, all copies of entries have been
    released, and a reply, if there is one, is well formed ([reply_to]): it lies within its
    allocation, repeats the identification of the query, is marked as a response that is not
    truncated, and carries the return code that is reported; behind the header come questions,
    either none or those that were read from the query, and then records in the order of the
    sections, each with a name, a type, a class, a time-to-live, and data as long as it says; and
    the header counts the questions and the records of each section (modulo 2^16). *)
Theorem process_query_safe (data : list Z) (udp : option nat) (c : cache) (rnd : list Z) :
  Resolver dns_cached_resolve -> bytes data -> ready c ->
  wruns (process_query now rnd_recs udpbufsize dns_cached_resolve data udp) (no_answer c rnd) (fun res s' =>
    ready (a_cache s') /\ forall rc, res = Some rc -> reply_to data rc s').
Proof. intros HR. by apply wruns_process_query. Qed.

(** The run refuses the message [data] with the code [code]. *)
Definition refused_with (data : list Z) (c : cache) (run : option (option Z * answer)) (code : Z) : Prop :=
  exists s', run = Some (Some code, s') /\ mem_only c (a_cache s') /\ take (a_sz s') (a_msg s') = error_message udpbufsize data code.

Lemma error_refused data c s res :
  2 <= length data -> mem_only c (a_cache s) -> plenty (a_cache s) -> refused_with data c (error_reply udpbufsize data res s) res.
Proof.
  intros Hl Hm Hp. destruct (wruns_error_reply udpbufsize data res s Hl) as (r & s' & E & Hm' & H). destruct r as [rc|]; [|by destruct H].
  destruct H as (-> & Hmsg & Hsz). exists s'. splits; [done|eauto with pdnsd|]. by rewrite Hsz, take_ge by done.
Qed.

Lemma refused_header data udp c rnd res :
  plenty c -> check_header data = Some (Some (inl res)) ->
  refused_with data c (process_query now rnd_recs udpbufsize dns_cached_resolve data udp (no_answer c rnd)) res.
Proof.
  intros Hp E. destruct (check_header_total data) as (h & E' & Hl & _). unfold process_query. rewrite E.
  apply (error_refused data c (no_answer c rnd)); [apply Hl; congruence|apply mem_only_refl|done].
Qed.

Lemma refused_request data udp c rnd f1 res c1 :
  check_header data = Some (Some (inr f1)) -> decode_request udpbufsize data f1 udp c = Some (inl res, c1) ->
  mem_only c c1 -> plenty c1 ->
  refused_with data c (process_query now rnd_recs udpbufsize dns_cached_resolve data udp (no_answer c rnd)) res.
Proof.
  intros E Hd Hm Hp. destruct (check_header_total data) as (h & E' & Hl & _). unfold process_query. rewrite E.
  pose proof (error_refused data c (set_cache c1 (no_answer c rnd)) res ltac:(apply Hl; congruence) Hm Hp) as H.
  unfold mbind, W_bind, liftW, cacheW. cbn [mbind option_bind]. change (a_cache (no_answer c rnd)) with c. rewrite Hd. exact H.
Qed.

(** The run answers the questions [qs] of the message [data], whose flags are [f1], with the cache [c1]. *)
Definition answers_to (data : list Z) (f1 : Z) (qs : list dns_queryel) (edns : bool) (limit : option nat) (c1 : cache) (rnd : list Z) : option (option Z * answer) :=
  (id ← liftW (rd_bytes data 0 2);
   r ← tryW (compose_answer now rnd_recs udpbufsize dns_cached_resolve qs id (h_rd f1) edns limit);
   match r with Some rc => mret rc | None => error_reply udpbufsize data RC_SERVFAIL end) (no_answer c1 rnd).

Lemma accepted_request data udp c rnd f1 qs edns limit c1 :
  check_header data = Some (Some (inr f1)) -> decode_request udpbufsize data f1 udp c = Some (inr (qs, edns, limit), c1) ->
  process_query now rnd_recs udpbufsize dns_cached_resolve data udp (no_answer c rnd) = answers_to data f1 qs edns limit c1 rnd.
Proof.
  intros E Hd. unfold process_query. rewrite E. unfold mbind, W_bind, liftW, cacheW. cbn [mbind option_bind]. change (a_cache (no_answer c rnd)) with c. by rewrite Hd.
Qed.

(** The header checks for a message with a whole header. *)
Lemma check_header_full data f1 f2 :
  sizeof_dns_hdr_t <= length data -> data !! 2 = Some f1 -> data !! 3 = Some f2 ->
  check_header data = Some (
    if negb (h_qr f1 =? QR_QUERY)%Z then None
    else if negb (h_opcode f1 =? OP_QUERY)%Z then Some (inl RC_NOTSUPP)
    else if negb (h_z f2 =? 0)%Z then Some (inl RC_FORMAT)
    else if negb (h_rcode f2 =? RC_OK)%Z then None
    else if negb (count16 data ancount =? 0)%Z then Some (inl RC_FORMAT)
    else if negb (count16 data nscount =? 0)%Z then Some (inl RC_FORMAT)
    else Some (inr f1)).
Proof.
  intros Hl H1 H2. unfold check_header. bool_false (length data <? sizeof_dns_hdr_t). unfold sizeof_dns_hdr_t in Hl.
  bool_false (length data <? 2). unfold rd. rewrite H1, H2. sbind. rewrite !get16_some by (unfold ancount, nscount; lia). sbind.
  by repeat (destruct (negb _); [done|]).
Qed.

(** The number of questions that the header announces cannot be read. *)
Definition unreadable (data : list Z) : Prop :=
  forall H qs q, length qs = Z.to_nat (count16 data qdcount) -> ~ questions_at data H sizeof_dns_hdr_t qs q.

Lemma request_malformed data f1 udp c :
  bytes data -> sizeof_dns_hdr_t <= length data -> plenty c -> unreadable data ->
  (h_tc f1 = 0%Z \/ count16 data arcount <> 0%Z \/ forall H qe q, ~ questions_at data H sizeof_dns_hdr_t [qe] q) ->
  exists c1, decode_request udpbufsize data f1 udp c = Some (inl RC_FORMAT, c1) /\ mem_only c c1 /\ plenty c1.
Proof.
  intros Hb Hl Hp Hno Hwhy. destruct (runs_decode_query data c Hb Hl) as ([[[res ptr] sz] ql] & c1 & E & Hm & Hp1 & Hcases & _).
  exists c1. splits; [|done|by apply Hp1]. unfold decode_request, mbind, M_bind. rewrite E.
  destruct Hcases as [(-> & qs & H & -> & Hlen & Hq & _)|[(-> & qs & H & q & -> & Hlen & Hq)|[(-> & _)|(-> & _ & H)]]]; [by destruct (Hno H qs ptr)| |done|done].
  cbn [app]. destruct (h_tc f1 =? 0)%Z eqn:Etc; boolp; [done|]. destruct qs as [|qe qs]; [done|]. destruct Hwhy as [?|[Hac|Hfirst]]; [done| |].
  - unfold liftM, check_edns. rewrite get16_some by (unfold sizeof_dns_hdr_t, arcount in *; lia). sbind. by bool_false (count16 data arcount =? 0)%Z.
  - inversion Hq; subst. edestruct Hfirst. eapply qa_cons; try done. constructor.
Qed.

(** What the additional section says of EDNS: the code of an error, or whether there is an OPT record and
    the new limit for the reply. *)
Definition edns_verdict (udp : option nat) (rs : list arec) : Z + bool * option nat :=
  match List.find is_opt rs with
  | None => inr (false, udp)
  | Some x =>
      if negb (ar_t1 x =? 0)%Z then inl RC_BADVERS else if negb (ar_t0 x =? 0)%Z then inl RC_FORMAT
      else inr (true, (fun u => if (UDP_BUFSIZE <? ar_class x)%Z then Z.to_nat (Z.min udpbufsize (ar_class x)) else u) <$> udp)
  end.

Lemma find_opts rs : (opts rs =? 0) = match List.find is_opt rs with Some _ => false | None => true end.
Proof. unfold opts. induction rs as [|x rs IH]; [done|]. cbn. by destruct (is_opt x). Qed.

Lemma check_edns_readable data f2 ptr sz tc udp rs q :
  bytes data -> sizeof_dns_hdr_t <= length data -> data !! 3 = Some f2 -> h_rcode f2 = RC_OK -> ptr + sz = length data ->
  length rs = Z.to_nat (count16 data arcount) -> additional_at data 255 ptr rs q ->
  check_edns udpbufsize data RC_OK ptr sz tc udp = Some (edns_verdict udp rs).
Proof.
  intros Hb Hl Hf2 Hrc Hsz Hr Hrs. unfold check_edns. rewrite get16_some by (unfold sizeof_dns_hdr_t, arcount in *; lia). sbind.
  destruct (count16 data arcount =? 0)%Z eqn:Eac; boolp.
  { rewrite Eac in Hr. by destruct rs. }
  change (RC_OK =? RC_TRUNC)%Z with false. cbv iota.
  destruct (decode_additional_spec data f2 Hb Hf2 (length rs) ptr sz 0 {| ed_udpsize := 0; ed_rcode := 0; ed_version := 0; ed_do_flg := 0 |} Hsz)
    as (res & k & ep & Ed & _ & (rs' & H' & q2 & Hrs' & Hiff & -> & ->) & Hcomp').
  pose proof (Hcomp' rs q eq_refl Hrs) as ->. destruct (additional_at_det _ _ _ _ _ Hrs _ _ _ Hrs') as [-> _]; [symmetry; by apply Hiff|].
  rewrite <- Hr, Ed. sbind. cbn [Z.eqb RC_OK orb negb Nat.add]. rewrite find_opts. unfold edns_verdict, edns_after. cbn [Nat.eqb]. destruct (List.find is_opt rs) as [x|]; [|done].
  cbn [ed_version ed_rcode ed_udpsize edns_of]. destruct (negb (ar_t1 x =? 0)%Z); [done|]. rewrite Hrc. unfold RC_OK. rewrite Z.lor_0_r, Z.shiftl_mul_pow2 by lia.
  replace (ar_t0 x * 2 ^ 4 =? 0)%Z with (ar_t0 x =? 0)%Z by (destruct (ar_t0 x =? 0)%Z eqn:E; boolp; symmetry; [by rewrite E|apply Z.eqb_neq; lia]).
  destruct (negb (ar_t0 x =? 0)%Z); [done|]. by destruct udp as [u|]; cbn; [destruct (UDP_BUFSIZE <? ar_class x)%Z|].
Qed.

Lemma check_edns_unreadable data f2 ptr sz udp :
  bytes data -> sizeof_dns_hdr_t <= length data -> data !! 3 = Some f2 -> ptr + sz = length data -> 
  (forall H rs q, length rs = Z.to_nat (count16 data arcount) -> ~ additional_at data H ptr rs q) ->
  check_edns udpbufsize data RC_OK ptr sz 0 udp = Some (inl RC_FORMAT).
Proof.
  intros Hb Hl Hf2 Hsz Hno. unfold check_edns. rewrite get16_some by (unfold sizeof_dns_hdr_t, arcount in *; lia). sbind.
  destruct (count16 data arcount =? 0)%Z eqn:Eac; boolp.
  { destruct (Hno 0 [] ptr); [by rewrite Eac|constructor]. }
  change (RC_OK =? RC_TRUNC)%Z with false. cbv iota.
  destruct (decode_query_additional_correct data f2 (Z.to_nat (count16 data arcount)) ptr sz {| ed_udpsize := 0; ed_rcode := 0; ed_version := 0; ed_do_flg := 0 |} Hb Hf2 Hsz)
    as (res & numopt & ep & -> & Hres & Hok & _). sbind.
  destruct Hres as [->|[->| ->]]; [|done|done]. destruct (Hok eq_refl) as (rs & H & q & Hrs & Hlen). by destruct (Hno H rs q).
Qed.

(** A question section that can be read. *)
Lemma request_readable data f1 udp c qs q e :
  bytes data -> sizeof_dns_hdr_t <= length data -> plenty c ->
  length qs = Z.to_nat (count16 data qdcount) -> questions_at data 255 sizeof_dns_hdr_t qs q ->
  (forall sz, q + sz = length data -> check_edns udpbufsize data RC_OK q sz (h_tc f1) udp = Some e) ->
  exists c1, mem_only c c1 /\ plenty c1 /\ decode_request udpbufsize data f1 udp c = Some (match e with
    | inl code => inl code
    | inr (edns, udp') => match qs with [] => inl RC_FORMAT | _ => inr (qs, edns, udp') end
    end, c1).
Proof.
  intros Hb Hl Hp Hn Hqs He. destruct (runs_decode_query data c Hb Hl) as ([[[res ptr] sz] ql] & c1 & E & Hm & Hp1 & Hcases & Hcomp).
  exists c1. splits; [done|by apply Hp1|]. unfold decode_request, mbind, M_bind. rewrite E. pose proof (Hcomp qs q Hp Hn Hqs) as ->.
  destruct Hcases as [(_ & qs' & H & -> & Hlen & Hq & Hsz)|[(? & _)|[(? & _)|(? & _)]]]; [|discriminate..].
  destruct (questions_at_det _ _ _ _ _ Hqs _ _ _ Hq) as [-> ->]; [lia|]. cbn [app Z.eqb RC_OK RC_TRUNC Pos.eqb andb negb].
  unfold liftM. rewrite (He sz Hsz). destruct e as [code|[edns udp']]; [done|]. by destruct qs.
Qed.

(** C28: which messages are not answered, and which are refused with which code, by the checks before
    the questions are looked at.  A message that is too short for an identification, is a response,
    or has a return code in its header is ignored (the last if the reserved bits are not set).
    One that is too short for a header, has reserved bits set, or announces answers or authority
    records is refused as malformed, and one with an operation other than a query as not supported.
    With a proper header, a message whose questions cannot be read is malformed if it is not marked
    as truncated, has additional records, or not even its first question can be read.  When they can
    be read, it is malformed if its additional records cannot (and it is not marked as truncated),
    if its first OPT record has an extended return code, or if it has no question; it is refused for
    the version if that of its first OPT record is not 0; and otherwise it is accepted: the answer
    is composed for its questions, with the limit that the OPT record gives.  The reply to a refused
    message is a header with the identification, the operation and the code, followed by an OPT
    record when the code needs one, and nothing else.  It is assumed that there is memory; messages
    that can only be read with more than 255 compression pointers in a name, and those marked as
    truncated whose sections are cut short further behind, are not covered. *)
Theorem process_query_refuses (data : list Z) (udp : option nat) (c : cache) (rnd : list Z) :
  bytes data -> plenty c ->
  let run := process_query now rnd_recs udpbufsize dns_cached_resolve data udp (no_answer c rnd) in
  let ignored := run = Some (None, no_answer c rnd) in
  let refused := refused_with data c run in
  let accepted f1 qs edns limit := exists c1, mem_only c c1 /\ run = answers_to data f1 qs edns limit c1 rnd in
  (length data < 2 -> ignored) /\
  (2 <= length data < sizeof_dns_hdr_t -> refused RC_FORMAT) /\
  (forall f1 f2, sizeof_dns_hdr_t <= length data -> data !! 2 = Some f1 -> data !! 3 = Some f2 ->
    (h_qr f1 <> QR_QUERY -> ignored) /\
    (h_qr f1 = QR_QUERY -> h_opcode f1 <> OP_QUERY -> refused RC_NOTSUPP) /\
    (h_qr f1 = QR_QUERY -> h_opcode f1 = OP_QUERY -> h_z f2 <> 0%Z -> refused RC_FORMAT) /\
    (h_qr f1 = QR_QUERY -> h_opcode f1 = OP_QUERY -> h_z f2 = 0%Z -> h_rcode f2 <> RC_OK -> ignored) /\
    (h_qr f1 = QR_QUERY -> h_opcode f1 = OP_QUERY -> h_z f2 = 0%Z -> h_rcode f2 = RC_OK ->
     (count16 data ancount <> 0%Z \/ count16 data nscount <> 0%Z -> refused RC_FORMAT) /\
     (count16 data ancount = 0%Z -> count16 data nscount = 0%Z ->
      (unreadable data -> (h_tc f1 = 0%Z \/ count16 data arcount <> 0%Z \/ forall H qe q, ~ questions_at data H sizeof_dns_hdr_t [qe] q) -> refused RC_FORMAT) /\
      (forall qs q, length qs = Z.to_nat (count16 data qdcount) -> questions_at data 255 sizeof_dns_hdr_t qs q ->
        (h_tc f1 = 0%Z -> (forall H rs q', length rs = Z.to_nat (count16 data arcount) -> ~ additional_at data H q rs q') -> refused RC_FORMAT) /\
        (forall rs q', length rs = Z.to_nat (count16 data arcount) -> additional_at data 255 q rs q' ->
          match edns_verdict udp rs with
          | inl code => refused code
          | inr (edns, limit) => if bool_decide (qs = []) then refused RC_FORMAT else accepted f1 qs edns limit
          end))))).
Proof.
  intros Hb Hp run ignored refused accepted. splits.
  - intros Hl. unfold ignored, run, process_query, check_header. by bool_true (length data <? 2).
  - intros [H1 H2]. apply refused_header; [done|]. unfold check_header. bool_false (length data <? 2). by bool_true (length data <? sizeof_dns_hdr_t).
  - intros f1 f2 Hl H1 H2. pose proof (check_header_full data f1 f2 Hl H1 H2) as Ech.
    assert (Hign : check_header data = Some None -> ignored) by (intros E; unfold ignored, run, process_query; by rewrite E).
    splits.
    + intros Hq. apply Hign. rewrite Ech. by bool_false (h_qr f1 =? QR_QUERY)%Z.
    + intros Hq Ho. apply refused_header; [done|]. rewrite Ech, Hq. cbn [QR_QUERY Z.eqb negb]. by bool_false (h_opcode f1 =? OP_QUERY)%Z.
    + intros Hq Ho Hz. apply refused_header; [done|]. rewrite Ech, Hq, Ho. cbn [QR_QUERY OP_QUERY Z.eqb negb]. by bool_false (h_z f2 =? 0)%Z.
    + intros Hq Ho Hz Hrc. apply Hign. rewrite Ech, Hq, Ho, Hz. cbn [QR_QUERY OP_QUERY Z.eqb negb]. by bool_false (h_rcode f2 =? RC_OK)%Z.
    + intros Hq Ho Hz Hrc. rewrite Hq, Ho, Hz, Hrc in Ech. cbn [QR_QUERY OP_QUERY RC_OK Z.eqb negb] in Ech. split.
      { intros Hc. apply refused_header; [done|]. rewrite Ech. destruct (count16 data ancount =? 0)%Z eqn:Ea; boolp; [|done]. cbn [negb]. destruct Hc as [?|?]; [done|].
        by bool_false (count16 data nscount =? 0)%Z. }
      intros Han Hns. rewrite Han, Hns in Ech.
      assert (Href : forall code c1, decode_request udpbufsize data f1 udp c = Some (inl code, c1) -> mem_only c c1 -> plenty c1 -> refused code).
      { intros code c1 E Hm Hp1. exact (refused_request data udp c rnd f1 _ c1 Ech E Hm Hp1). }
      split; [intros Hno Hwhy; destruct (request_malformed data f1 udp c Hb Hl Hp Hno Hwhy) as (c1 & E & Hm & Hp1); by eapply Href|]. intros qs q Hn Hqs. split.
      * intros Htc Hno. destruct (request_readable data f1 udp c qs q (inl RC_FORMAT) Hb Hl Hp Hn Hqs) as (c1 & Hm & Hp1 & E); [|by eapply Href].
        intros sz Hsz. rewrite Htc. by eapply check_edns_unreadable.
      * intros rs q' Hr Hrs. destruct (request_readable data f1 udp c qs q (edns_verdict udp rs) Hb Hl Hp Hn Hqs) as (c1 & Hm & Hp1 & E).
        { intros sz Hsz. by eapply check_edns_readable. }
        destruct (edns_verdict udp rs) as [code|[edns limit]]; [by eapply Href|]. destruct qs as [|qe qs]; [by eapply Href|]. cbn [bool_decide decide]. case_bool_decide; [done|].
        exists c1. split; [done|]. by apply accepted_request.
Qed.
End Process.

(** ** Examples *)

#[local] Existing Instance LP64.

(** A resolver that only looks into the cache. *)
Definition cache_resolver (nm : list Z) (qtype now : Z) : M (Z * option dns_cent * Z) :=
  '(c, _) ← lookup_cache now nm false;
  mret (match c with Some e => (RC_OK, Some e, cundef) | None => (RC_SERVFAIL, None, cundef) end).

#[local] Instance cache_resolver_ok : Resolver cache_resolver.
Proof.
  intros N r qtype now c HN _ Hc. unfold cache_resolver. apply runs_bind. eapply runs_weaken; [by apply runs_lookup_good|]. cbn beta.
  intros [[e|] w] c' [Hc' He]; apply runs_ret; (split; [done|]); [|discriminate]. intros _. exists e. split; [done|by apply He].
Qed.

Lemma good_fresh : good_cache fresh_cache.
Proof.
  split; [apply inv_fresh|]. intros K e H. apply abs_spec in H as (id & c & Hc & _); [|apply inv_fresh]. by rewrite fresh_none in Hc.
Qed.

Lemma ready_fresh : ready fresh_cache.
Proof. by split; [exact good_fresh|]. Qed.

(** The query with the identification 7 for the addresses of the name "a". *)
Definition demo_query : list Z := [0; 7; 1; 0; 0; 1; 0; 0; 0; 0; 0; 0; 1; 97; 0; 0; 1; 0; 1]%Z.

Lemma demo_query_bytes : bytes demo_query.
Proof. repeat constructor; discriminate. Qed.

Lemma process_query_safe_witness :
  wruns (process_query 1000 false 1024 cache_resolver demo_query None) (no_answer fresh_cache []) (fun res s' =>
    ready (a_cache s') /\ res = Some RC_SERVFAIL /\
    take (a_sz s') (a_msg s') = [0; 7; 129; 130; 0; 1; 0; 0; 0; 0; 0; 0; 1; 97; 0; 0; 1; 0; 1]%Z).
Proof.
  destruct (process_query_safe 1000 false 1024 cache_resolver demo_query None fresh_cache [] cache_resolver_ok demo_query_bytes ready_fresh)
    as (res & s' & Hrun & Hg & _).
  exists res, s'. split; [exact Hrun|]. split; [exact Hg|].
  assert (E : (fun x => (x.1, take (a_sz x.2) (a_msg x.2))) <$> process_query 1000 false 1024 cache_resolver demo_query None (no_answer fresh_cache [])
    = Some (Some RC_SERVFAIL, [0; 7; 129; 130; 0; 1; 0; 0; 0; 0; 0; 0; 1; 97; 0; 0; 1; 0; 1]%Z)) by (vm_compute; reflexivity).
  rewrite Hrun in E. cbn [fmap option_fmap option_map fst snd] in E. injection E as E1 E2. by split.
Defined.

(** The same with an OPT record that asks for version 1. *)
Definition demo_version : list Z :=
  [0; 7; 1; 0; 0; 1; 0; 0; 0; 0; 0; 1; 1; 97; 0; 0; 1; 0; 1; 0; 0; 41; 4; 0; 0; 1; 0; 0; 0; 0]%Z.

Lemma process_query_refuses_witness :
  refused_with 1024 demo_version fresh_cache (process_query 1000 false 1024 cache_resolver demo_version None (no_answer fresh_cache [])) RC_BADVERS /\
  error_message 1024 demo_version RC_BADVERS =
    [0; 7; 128; 128; 0; 0; 0; 0; 0; 0; 0; 1; 0; 0; 41; 4; 0; 1; 0; 0; 0; 0; 0]%Z.
Proof.
  split; [|reflexivity].
  destruct (process_query_refuses 1000 false 1024 cache_resolver demo_version None fresh_cache []) as (_ & _ & H).
  - repeat constructor; discriminate.
  - constructor.
  - destruct (H 1%Z 0%Z) as (_ & _ & _ & _ & Hv); [vm_compute; lia|reflexivity..|].
    destruct Hv as [_ Hv]; [reflexivity..|]. destruct Hv as [_ Hv]; [reflexivity..|].
    assert (Hroot : name_at demo_version (length demo_version) 19 [] 0 1) by (constructor; [vm_compute; lia|reflexivity]).
    assert (Ha : name_at demo_version (length demo_version) 12 [[97]]%Z 0 3).
    { apply (na_label _ _ 12 [97]%Z [] 0 1); [|vm_compute; lia|reflexivity|reflexivity|constructor; [vm_compute; lia|reflexivity]].
      split; [simpl; lia|repeat constructor; discriminate]. }
    destruct (Hv [{| qe_qtype := 1; qe_qclass := 1; qe_query := [1; 97; 0]%Z |}] 19) as [_ Hv'].
    + reflexivity.
    + apply (qa_cons _ _ 12 _ [] 19 [[97]]%Z 0 3 Ha wf_a); [lia|vm_compute; lia|reflexivity..|]. constructor.
    + apply (Hv' [{| ar_type := 41; ar_class := 1024; ar_t0 := 0; ar_t1 := 1; ar_t2 := 0 |}] 30); [reflexivity|].
      apply (aa_cons _ _ 19 _ [] 30 [] 0 1 0 Hroot); [split; [constructor|vm_compute; lia]|lia|vm_compute; lia|reflexivity..|]. constructor.
Defined.


Lemma decode_query_additional_correct_witness :
  exists ep', decode_query_additional 1 demo_version 19 11 0 {| ed_udpsize := 0; ed_rcode := 0; ed_version := 0; ed_do_flg := 0 |} = Some (RC_OK, 1, ep')
    /\ ed_version ep' = 1%Z /\ ed_udpsize ep' = 1024%Z.
Proof.
  destruct (decode_query_additional_correct demo_version 0 1 19 11 {| ed_udpsize := 0; ed_rcode := 0; ed_version := 0; ed_do_flg := 0 |})
    as (res & k & ep & E & _); [repeat constructor; discriminate|reflexivity|reflexivity|].
  exists ep. vm_compute in E. injection E as <- <- <-. by vm_compute.
Defined.
