(* ===== verification/Reply.v ===== *)
(** Reading the replies of name servers: the functions of [pdnsd/src/dns_query.c] that
    turn the resource records of a message into cache entries.

    The buffer that holds the message has exactly the length that was received.  The
    entries are collected in an array that does not belong to the cache.  A growing
    array may or may not need memory; the outcome is an input here each time. *)
From S2P Require Import Prelude Names DnsName RrTypes HashTab RrList Cent Cache Answer Query.

Definition RC_FATALERR : Z := 0xffff.

Definition GETINT32 (m : list Z) (off : nat) : option Z :=
  a ← rd m off; b ← rd m (off + 1); c ← rd m (off + 2); d ← rd m (off + 3);
  Some (Z.lor (Z.lor (Z.lor (Z.shiftl a 24) (Z.shiftl b 16)) (Z.shiftl c 8)) d).

(** ** Early returns

    Computations that may return a code to the caller instead of going on. *)

Definition R (A : Type) : Type := cache -> option ((Z + A) * cache).

#[export] Instance R_ret : MRet R := fun A a s => Some (inr a, s).
#[export] Instance R_bind : MBind R := fun A B k m s =>
  match m s with
  | Some (inr a, s') => k a s'
  | Some (inl rc, s') => Some (inl rc, s')
  | None => None
  end.

Definition returns {A} (rc : Z) : R A := fun s => Some (inl rc, s).
Definition liftR {A} (o : option A) : R A := fun s => a ← o; Some (inr a, s).
Definition memR {A} (m : M A) : R A := fun s => '(a, s') ← m s; Some (inr a, s').

(** ** The data of one record *)

(** A record under construction: the local array [db], the number [slen] of bytes of it
    that have been filled ([nptr] is [db+slen]), and the position [bptr] and the number
    [blcnt] of the bytes of the record that have not been read. *)
Record scratch := { s_db : list Z; s_len : nat; s_ptr : nat; s_cnt : nat }.

Section Record_data.
Context (msg : list Z).

(** [decompress_name(msg, msgsz, &bptr, &blcnt, nptr, &len)]; the target must have room
    for any name. *)
Definition name_into (s : scratch) : R scratch :=
  d ← liftR (if decide (s_len s + DNSNAMEBUFSIZE <= length (s_db s))
             then decompress_name msg (length msg) (s_ptr s) (s_cnt s) (take DNSNAMEBUFSIZE (drop (s_len s) (s_db s)))
             else None);
  if negb (dr_rc d =? RC_OK)%Z then returns (if (dr_rc d =? RC_TRUNC)%Z then RC_FORMAT else dr_rc d)
  else mret {| s_db := take (s_len s) (s_db s) ++ dr_tgt d ++ drop (s_len s + DNSNAMEBUFSIZE) (s_db s);
               s_len := s_len s + dr_len d; s_ptr := dr_src d; s_cnt := dr_sz d |}.

(** [memcpy(nptr,bptr,n)] and the adjustment of the pointers. *)
Definition copy_in (n : nat) (s : scratch) : R scratch :=
  w ← liftR (rd_bytes msg (s_ptr s) n);
  db ← liftR (wr_bytes (s_db s) (s_len s) w);
  mret {| s_db := db; s_len := s_len s + n; s_ptr := s_ptr s + n; s_cnt := s_cnt s - n |}.

(** The same after the test for [record_too_short]. *)
Definition field_in (n : nat) (s : scratch) : R scratch :=
  if (s_cnt s <? n) then returns RC_FORMAT else copy_in n s.

(** The record is complete, unless there is [trailing_junk]. *)
Definition record_done (s : scratch) : R (list Z) :=
  if negb (s_cnt s =? 0) then returns RC_FORMAT else liftR (rd_bytes (s_db s) 0 (s_len s)).

Definition db_of (n ptr rdlength : nat) : scratch :=
  {| s_db := replicate n 0%Z; s_len := 0; s_ptr := ptr; s_cnt := rdlength |}.

(** The three character strings of a NAPTR record. *)
Fixpoint naptr_len (j : nat) (bptr blcnt len : nat) : R nat :=
  match j with
  | O => mret len
  | S j' =>
      if (blcnt <=? len) then returns RC_FORMAT
      else b ← liftR (rd msg (bptr + len)); naptr_len j' bptr blcnt (len + Z.to_nat b + 1)
  end.

Definition naptr_rdata (ptr rdlength : nat) : R (list Z) :=
  len ← naptr_len 3 ptr rdlength 4;
  s ← field_in len (db_of (4 + 3 * 256 + DNSNAMEBUFSIZE) ptr rdlength);
  s ← name_into s;
  record_done s.

(** A NXT record: a name and whatever follows, unless the array is too small. *)
Definition nxt_rdata (ptr rdlength : nat) : R (list Z) :=
  s ← name_into (db_of 1040 ptr rdlength);
  if (length (s_db s) <? s_len s + s_cnt s) then returns RC_FORMAT
  else
    s ← copy_in (s_cnt s) s;
    liftR (rd_bytes (s_db s) 0 (s_len s)).

(** A name that should not be compressed, behind [k] bytes of other data; when it is
    compressed, the record is built anew with the plain name. *)
Definition plain_name (k ptr rdlength : nat) : R (list Z) :=
  let bptr := ptr + k in
  let blcnt := rdlength - k in
  rest ← liftR (adv msg bptr);
  normal ← liftR (isnormalencdomname rest blcnt);
  if (normal : bool) then liftR (rd_bytes msg ptr rdlength)
  else
    s ← name_into (db_of DNSNAMEBUFSIZE bptr blcnt);
    ok ← memR malloc;
    if (ok : bool) then
      front ← liftR (rd_bytes msg ptr k);
      nm ← liftR (rd_bytes (s_db s) 0 (s_len s));
      back ← liftR (rd_bytes msg (s_ptr s) (s_cnt s));
      mret (front ++ nm ++ back)
    else returns RC_FATALERR.

(** Records that consist of names and fields of fixed length. *)
Definition name_rdata (ptr rdlength : nat) : R (list Z) :=
  s ← name_into (db_of DNSNAMEBUFSIZE ptr rdlength);
  record_done s.

Definition two_names_rdata (ptr rdlength : nat) : R (list Z) :=
  s ← name_into (db_of (DNSNAMEBUFSIZE + DNSNAMEBUFSIZE) ptr rdlength);
  s ← name_into s;
  record_done s.

Definition pref_name_rdata (ptr rdlength : nat) : R (list Z) :=
  s ← field_in 2 (db_of (2 + DNSNAMEBUFSIZE) ptr rdlength);
  s ← name_into s;
  record_done s.

Definition soa_rdata (ptr rdlength : nat) : R (list Z) :=
  s ← name_into (db_of (DNSNAMEBUFSIZE + DNSNAMEBUFSIZE + 20) ptr rdlength);
  s ← name_into s;
  s ← field_in 20 s;
  record_done s.

Definition px_rdata (ptr rdlength : nat) : R (list Z) :=
  s ← field_in 2 (db_of (2 + DNSNAMEBUFSIZE + DNSNAMEBUFSIZE) ptr rdlength);
  s ← name_into s;
  s ← name_into s;
  record_done s.

Definition srv_rdata (ptr rdlength : nat) : R (list Z) :=
  s ← field_in 6 (db_of (6 + DNSNAMEBUFSIZE) ptr rdlength);
  s ← name_into s;
  record_done s.

(** The label [default_case], after a check of the length for addresses. *)
Definition raw_rdata (ptr rdlength : nat) : R (list Z) := liftR (rd_bytes msg ptr rdlength).

Definition addr_rdata (len ptr rdlength : nat) : R (list Z) :=
  if negb (rdlength =? len) then returns RC_FORMAT else raw_rdata ptr rdlength.

Definition ipseckey_rdata (ptr rdlength : nat) : R (list Z) :=
  if (rdlength <? 3) then returns RC_FORMAT
  else
    gwtp ← liftR (rd msg (ptr + 1));
    if (gwtp =? 0)%Z then raw_rdata ptr rdlength
    else if (gwtp =? 1)%Z then if (rdlength - 3 <? 4) then returns RC_FORMAT else raw_rdata ptr rdlength
    else if (gwtp =? 2)%Z then if (rdlength - 3 <? 16) then returns RC_FORMAT else raw_rdata ptr rdlength
    else if (gwtp =? 3)%Z then plain_name 3 ptr rdlength
    else returns RC_FORMAT.

Definition rrsig_rdata (ptr rdlength : nat) : R (list Z) :=
  if (rdlength <? 18) then returns RC_FORMAT else plain_name 18 ptr rdlength.

(** The [switch] of [rrs2cent]: the data to be stored. *)
Definition decode_rdata (type : Z) (ptr rdlength : nat) : R (list Z) :=
  if (type =? T_A)%Z then addr_rdata 4 ptr rdlength
  else if in_types type [T_CNAME; T_MB; T_MD; T_MF; T_MG; T_MR; T_NS; T_PTR] then name_rdata ptr rdlength
  else if in_types type [T_MINFO; T_RP] then two_names_rdata ptr rdlength
  else if in_types type [T_MX; T_AFSDB; T_RT; T_KX] then pref_name_rdata ptr rdlength
  else if (type =? T_SOA)%Z then soa_rdata ptr rdlength
  else if (type =? T_AAAA)%Z then addr_rdata 16 ptr rdlength
  else if (type =? T_PX)%Z then px_rdata ptr rdlength
  else if (type =? T_SRV)%Z then srv_rdata ptr rdlength
  else if (type =? T_NXT)%Z then nxt_rdata ptr rdlength
  else if (type =? T_NAPTR)%Z then naptr_rdata ptr rdlength
  else if (type =? T_IPSECKEY)%Z then ipseckey_rdata ptr rdlength
  else if (type =? T_RRSIG)%Z then rrsig_rdata ptr rdlength
  else if (type =? T_NSEC)%Z then plain_name 0 ptr rdlength
  else raw_rdata ptr rdlength.
End Record_data.

(** ** Arrays of entries *)

(** The index of the entry of a name. *)
Fixpoint find_cent (centa : list dns_cent) (nm : list Z) : option (option nat) :=
  match centa with
  | [] => Some None
  | ce :: centa' =>
      b ← rhnicmp (qname ce) nm;
      if (b : bool) then Some (Some 0) else r ← find_cent centa' nm; Some (option_map S r)
  end.

Section Collect.
Context {P : Platform}.

Fixpoint free_cents (centa : list dns_cent) : M unit :=
  match centa with
  | [] => mret tt
  | c :: centa' => _ ← free_cent c; free_cents centa'
  end.

Definition rr_to_cache (centa : list dns_cent) (oname : list Z) (tp ttl : Z) (data : list Z) (fl queryts : Z)
    : M (Z * list dns_cent) :=
  i ← liftM (find_cent centa oname);
  match i with
  | Some i =>
      cent ← liftM (centa !! i);
      '(ok, cent) ← add_cent_rr cent tp ttl queryts fl data;
      mret (if (ok : bool) then RC_OK else RC_FATALERR, <[i := cent]> centa)
  | None =>
      ok ← malloc;
      if (ok : bool) then
        r ← init_cent oname 0 0 0;
        match r with
        | Some cent =>
            '(ok, cent) ← add_cent_rr cent tp ttl queryts fl data;
            mret (if (ok : bool) then RC_OK else RC_FATALERR, centa ++ [cent])
        | None => ok ← malloc; mret (RC_FATALERR, if (ok : bool) then centa else [])
        end
      else _ ← free_cents centa; mret (RC_FATALERR, [])
  end.

(** What [rrs2cent] works on: the position [*ptr] in the message, the number [*lcnt] of
    bytes from there on, the array, the number of OPT records and their information. *)
Record section := { sc_ptr : nat; sc_lcnt : nat; sc_centa : list dns_cent; sc_numopt : nat; sc_ep : edns_info }.

Definition sc_move (n : nat) (s : section) : section :=
  {| sc_ptr := sc_ptr s + n; sc_lcnt := sc_lcnt s - n; sc_centa := sc_centa s; sc_numopt := sc_numopt s; sc_ep := sc_ep s |}.
Definition sc_at (ptr lcnt : nat) (s : section) : section :=
  {| sc_ptr := ptr; sc_lcnt := lcnt; sc_centa := sc_centa s; sc_numopt := sc_numopt s; sc_ep := sc_ep s |}.
Definition sc_set_centa (centa : list dns_cent) (s : section) : section :=
  {| sc_ptr := sc_ptr s; sc_lcnt := sc_lcnt s; sc_centa := centa; sc_numopt := sc_numopt s; sc_ep := sc_ep s |}.

(** The fixed part of a record. *)
Record rr_hdr := { rh_type : Z; rh_class : Z; rh_ttl : Z; rh_rdlength : nat; rh_ttlp : nat }.

Definition rr_header_at (msg : list Z) (p : nat) : option rr_hdr :=
  type ← GETINT16 msg p;
  class ← GETINT16 msg (p + 2);
  ttl ← GETINT32 msg (p + 4);
  rdlength ← GETINT16 msg (p + 8);
  Some {| rh_type := type; rh_class := class; rh_ttl := ttl; rh_rdlength := Z.to_nat rdlength; rh_ttlp := p + 4 |}.

(** An OPT record. *)
Definition note_opt (msg : list Z) (h : rr_hdr) (s : section) : option section :=
  ep ← (if (sc_numopt s =? 0) then
          t0 ← rd msg (rh_ttlp h);
          t1 ← rd msg (rh_ttlp h + 1);
          t2 ← rd msg (rh_ttlp h + 2);
          f ← rd msg 3;
          Some {| ed_udpsize := rh_class h; ed_rcode := Z.lor (Z.shiftl t0 4) (h_rcode f); ed_version := t1;
                  ed_do_flg := Z.land (Z.shiftr t2 7) 1 |}
        else Some (sc_ep s));
  Some {| sc_ptr := sc_ptr s; sc_lcnt := sc_lcnt s; sc_centa := sc_centa s; sc_numopt := S (sc_numopt s); sc_ep := ep |}.

(** A record that is cached: [inl] the code with which [rrs2cent] returns, or [inr] the
    new value of [retval]. *)
Definition store_rr (msg oname : list Z) (h : rr_hdr) (fl queryts retval : Z) (s : section) : M ((Z + Z) * section) :=
  r ← decode_rdata msg (rh_type h) (sc_ptr s) (rh_rdlength h);
  match r with
  | inl rc => mret (inl rc, s)
  | inr data =>
      '(rc, centa) ← rr_to_cache (sc_centa s) oname (rh_type h) (rh_ttl h) data fl queryts;
      mret (if (rc =? RC_FATALERR)%Z then inl rc else inr (if (rc =? RC_OK)%Z then retval else rc), sc_set_centa centa s)
  end.

(** The body of the loop of [rrs2cent]: [inl] the returned code, or [inr] the code kept
    in [retval]. *)
Definition rrs2cent_step (msg : list Z) (fl queryts retval : Z) (s : section) : M ((Z + Z) * section) :=
  d ← liftM (decompress_name msg (length msg) (sc_ptr s) (sc_lcnt s) (replicate DNSNAMEBUFSIZE 0%Z));
  if negb (dr_rc d =? RC_OK)%Z then mret (inl (dr_rc d), s)
  else
    let s := sc_at (dr_src d) (dr_sz d) s in
    if (sc_lcnt s <? sizeof_rr_hdr_t) then mret (inl RC_TRUNC, s)
    else
      h ← liftM (rr_header_at msg (sc_ptr s));
      let s := sc_move sizeof_rr_hdr_t s in
      if (sc_lcnt s <? rh_rdlength h) then mret (inl RC_TRUNC, s)
      else if (rh_type h =? T_OPT)%Z then
        s ← liftM (note_opt msg h s);
        mret (inr retval, sc_move (rh_rdlength h) s)
      else if negb (not_cached_type (rh_type h) || negb (rh_class h =? C_IN)%Z) then
        '(r, s) ← store_rr msg (dr_tgt d) h fl queryts retval s;
        mret (r, match r with inl _ => s | inr _ => sc_move (rh_rdlength h) s end)
      else mret (inr retval, sc_move (rh_rdlength h) s).

Fixpoint rrs2cent (recnum : nat) (msg : list Z) (fl queryts retval : Z) (s : section) : M (Z * section) :=
  match recnum with
  | O => mret (retval, s)
  | S n =>
      '(r, s) ← rrs2cent_step msg fl queryts retval s;
      match r with
      | inl rc => mret (rc, s)
      | inr retval => rrs2cent n msg fl queryts retval s
      end
  end.
End Collect.
