(* ===== verification/ReplyData.v ===== *)
(** Specification of the reading of record data in Reply: what is accepted is what the
    message holds, in the layout of its type. *)
From S2P Require Import Prelude Names DnsName Compress RrTypes HashTab RrList Cent CentSpec Cache CacheInv Answer AnswerRr AnswerSet Query QueryDecode QuerySafe Reply.

(** ** Computations with early returns *)

Lemma runs_Rbind {A B} (m : R A) (k : A -> R B) s (Q : Z + B -> cache -> Prop) :
  runs (m : M (Z + A)) s (fun r s' => match r with inr a => runs (k a : M (Z + B)) s' Q | inl rc => Q (inl rc) s' end) ->
  runs (mbind k m : R B) s Q.
Proof.
  intros (r & s' & E & H). destruct r as [rc|a].
  - exists (inl rc), s'. split; [|exact H]. unfold mbind, R_bind. by rewrite E.
  - destruct H as (r & s2 & E2 & H). exists r, s2. split; [|exact H]. unfold mbind, R_bind. by rewrite E.
Qed.

Lemma runs_Rret {A} (a : A) s (Q : Z + A -> cache -> Prop) : Q (inr a) s -> runs (mret a : R A) s Q.
Proof. intros H. by exists (inr a), s. Qed.

Lemma runs_returns {A} rc s (Q : Z + A -> cache -> Prop) : Q (inl rc) s -> runs (returns rc : R A) s Q.
Proof. intros H. by exists (inl rc), s. Qed.

Lemma runs_liftR {A} (o : option A) a s (Q : Z + A -> cache -> Prop) : o = Some a -> Q (inr a) s -> runs (liftR o : R A) s Q.
Proof. intros -> H. by exists (inr a), s. Qed.

Lemma step_liftR {A B} (o : option A) a (k : A -> R B) s (Q : Z + B -> cache -> Prop) :
  o = Some a -> runs (k a : M (Z + B)) s Q -> runs (mbind k (liftR o) : R B) s Q.
Proof. intros E H. apply runs_Rbind. by eapply runs_liftR. Qed.

Lemma runs_memR {A} (m : M A) s (Q : Z + A -> cache -> Prop) : runs m s (fun a s' => Q (inr a) s') -> runs (memR m : R A) s Q.
Proof. intros (a & s' & E & H). exists (inr a), s'. split; [|done]. unfold memR. by rewrite E. Qed.

(** Only allocations have happened. *)
Definition mem_step (c c' : cache) : Prop := mem_only c c' /\ (plenty c -> plenty c').

Lemma mem_step_refl c : mem_step c c.
Proof. split; auto with pdnsd. Qed.

Lemma mem_step_trans a b c : mem_step a b -> mem_step b c -> mem_step a c.
Proof. intros [? ?] [? ?]. split; eauto with pdnsd. Qed.

#[export] Hint Resolve mem_step_refl mem_step_trans : pdnsd.

(** ** Data in a message

    [data_at msg H p ps q]: the pieces [ps] stand at offset [p] of the message, and end at
    [q]; the names take at most [H] compression pointers each. *)
Inductive data_at (msg : list Z) (H : nat) : nat -> list piece -> nat -> Prop :=
  | da_nil p : data_at msg H p [] p
  | da_lit p l ps q :
      rd_bytes msg p (length l) = Some l -> data_at msg H (p + length l) ps q -> data_at msg H p (Lit l :: ps) q
  | da_nm p N h c ps q :
      name_at msg (length msg) p N h c -> wf_name N -> h <= H -> data_at msg H (p + c) ps q -> data_at msg H p (Nm N :: ps) q.

Lemma data_at_mono msg H H' p ps q : H <= H' -> data_at msg H p ps q -> data_at msg H' p ps q.
Proof. intros Hle. induction 1; [constructor|by constructor|]. eapply da_nm; eauto. lia. Qed.

Lemma data_at_app msg H p ps q ps' q' : data_at msg H p ps q -> data_at msg H q ps' q' -> data_at msg H p (ps ++ ps') q'.
Proof. induction 1; intros; cbn [app]; [done|constructor; eauto|eapply da_nm; eauto]. Qed.

Lemma data_at_le msg H p ps q : data_at msg H p ps q -> p <= q.
Proof. induction 1; lia. Qed.

Lemma rd_bytes_eq msg p n w : rd_bytes msg p n = Some w -> length w = n /\ p + n <= length msg.
Proof.
  unfold rd_bytes. destruct (decide (p + n <= length msg)); [|done]. intros [= <-]. split; [|done].
  rewrite length_take, length_drop. lia.
Qed.

Lemma rd_bytes_bytes msg p n w : bytes msg -> rd_bytes msg p n = Some w -> bytes w.
Proof. unfold rd_bytes. intros Hb H. destruct (decide _); [|done]. injection H as <-. by apply Forall_take, Forall_drop. Qed.

Lemma rd_bytes_some msg p n : p + n <= length msg -> exists w, rd_bytes msg p n = Some w.
Proof. intros H. unfold rd_bytes. rewrite decide_True by done. by eexists. Qed.

Section Scratch.
Context (msg : list Z) (Hb : bytes msg) (ptr rdlength : nat) (Hend : ptr + rdlength <= length msg).

(** The array holds the pieces that have been read. *)
Definition gathered (n : nat) (ps : list piece) (s : scratch) : Prop :=
  length (s_db s) = n /\ s_len s = length (flat ps) /\ take (s_len s) (s_db s) = flat ps /\
  Forall piece_ok ps /\ s_ptr s + s_cnt s = ptr + rdlength /\ exists H, data_at msg H ptr ps (s_ptr s).

Lemma gathered_start n : gathered n [] (db_of n ptr rdlength).
Proof. unfold gathered, db_of. cbn. splits; [apply length_replicate|done|done|constructor|done|]. exists 0. constructor. Qed.

Lemma runs_name_in n ps s c :
  gathered n ps s -> s_len s + DNSNAMEBUFSIZE <= n ->
  runs (name_into msg s : M _) c (fun r c' => c' = c /\
    match r with
    | inl rc => rc = RC_FORMAT /\ forall N ps', data_at msg 255 (s_ptr s) (Nm N :: ps') (ptr + rdlength) -> False
    | inr s' => exists N, gathered n (ps ++ [Nm N]) s' /\
        forall N' ps', data_at msg 255 (s_ptr s) (Nm N' :: ps') (ptr + rdlength) ->
          N' = N /\ data_at msg 255 (s_ptr s') ps' (ptr + rdlength)
    end).
Proof.
  intros (Hn & Hl & Ht & Hok & He & H & Hda) Hroom. unfold name_into. rewrite decide_True by lia.
  destruct (decompress_name_spec msg (length msg) (s_ptr s) (s_cnt s) (take DNSNAMEBUFSIZE (drop (s_len s) (s_db s))))
    as (d & Hd & Hlen & Hrc & Hgood & _ & Hcomp); [done|done|rewrite length_take, length_drop; lia|].
  eapply step_liftR; [exact Hd|]. destruct (decide (dr_rc d = RC_OK)) as [E|E].
  - rewrite E. cbn [RC_OK Z.eqb negb]. apply runs_Rret. split; [done|].
    destruct (Hgood E) as (N & h & k & T & Hna & HN & Htg & Hdl & Hk & Hsrc & Hsz). exists N. split.
    + unfold gathered. cbn [s_db s_len s_ptr s_cnt]. rewrite flat_snoc. cbn [piece_bytes]. splits.
      * rewrite !length_app, length_take, length_drop, Hlen. lia.
      * rewrite length_app. lia.
      * rewrite app_assoc. rewrite Ht, Htg, Hdl, Hl, <- length_app, <- !app_assoc, app_assoc. apply take_app_length.
      * apply Forall_app. split; [done|]. by apply Forall_cons.
      * lia.
      * exists (H `max` h). rewrite Hsrc. eapply data_at_app; [eapply data_at_mono; [|exact Hda]; lia|].
        eapply da_nm; [done|done|lia|constructor].
    + intros N' ps' HD. inversion HD as [| |? ? h' k' ? ? Hna' HN' Hh' HD']; subst.
      destruct (name_at_det _ _ _ _ _ _ Hna _ _ _ Hna') as (-> & -> & ->). split; [done|]. cbn [s_ptr]. by rewrite Hsrc.
  - assert (Ecode : negb (dr_rc d =? RC_OK)%Z = true) by (destruct Hrc as [?|[->| ->]]; done). rewrite Ecode.
    apply runs_returns. split; [done|]. split; [destruct Hrc as [?|[->| ->]]; done|].
    intros N ps' HD. inversion HD as [| |? ? h' k' ? ? Hna' HN' Hh' HD']; subst. apply E.
    apply data_at_le in HD'. eapply Hcomp; [done|done|lia|done].
Qed.

Lemma runs_copy_in k n ps s c :
  gathered n ps s -> s_len s + k <= n -> k <= s_cnt s ->
  runs (copy_in msg k s : M _) c (fun r c' => c' = c /\
    match r with
    | inl rc => False
    | inr s' => exists w, length w = k /\ gathered n (ps ++ [Lit w]) s' /\ s_cnt s' = s_cnt s - k /\
        forall l ps', length l = k -> data_at msg 255 (s_ptr s) (Lit l :: ps') (ptr + rdlength) ->
          l = w /\ data_at msg 255 (s_ptr s') ps' (ptr + rdlength)
    end).
Proof.
  intros (Hn & Hl & Ht & Hok & He & H & Hda) Hroom Hcnt. unfold copy_in.
  destruct (rd_bytes_some msg (s_ptr s) k) as [w Hw]; [lia|]. pose proof (rd_bytes_eq _ _ _ _ Hw) as [Hlw _].
  eapply step_liftR; [exact Hw|].
  assert (Ew : wr_bytes (s_db s) (s_len s) w = Some (take (s_len s) (s_db s) ++ w ++ drop (s_len s + k) (s_db s))).
  { pose proof (wr_bytes_app_mid w (take (s_len s) (s_db s)) (drop (s_len s) (s_db s))) as E.
    rewrite length_take_le, take_drop, drop_drop, Hlw in E by lia. apply E. rewrite length_drop. lia. }
  eapply step_liftR; [exact Ew|]. apply runs_Rret. split; [done|]. exists w. split; [done|]. split; [|split; [done|]].
  - unfold gathered. cbn [s_db s_len s_ptr s_cnt]. rewrite flat_snoc. cbn [piece_bytes]. splits.
    + rewrite !length_app, length_take, length_drop. lia.
    + rewrite length_app. lia.
    + rewrite app_assoc, Ht, Hl, <- Hlw, <- length_app. apply take_app_length.
    + apply Forall_app. split; [done|]. apply Forall_cons. split; [by eapply rd_bytes_bytes|constructor].
    + lia.
    + exists H. eapply data_at_app; [exact Hda|]. rewrite <- Hlw. constructor; [by rewrite Hlw|constructor].
  - intros l ps' Hll HD. inversion HD as [|? ? ? ? Hrd HD'|]; subst. rewrite Hll in Hrd, HD'. rewrite Hw in Hrd. injection Hrd as ->.
    split; [done|]. by cbn [s_ptr].
Qed.

Lemma runs_field_in k n ps s c :
  gathered n ps s -> (k <= s_cnt s -> s_len s + k <= n) ->
  runs (field_in msg k s : M _) c (fun r c' => c' = c /\
    match r with
    | inl rc => rc = RC_FORMAT /\ forall l ps', length l = k -> data_at msg 255 (s_ptr s) (Lit l :: ps') (ptr + rdlength) -> False
    | inr s' => exists w, length w = k /\ gathered n (ps ++ [Lit w]) s' /\
        forall l ps', length l = k -> data_at msg 255 (s_ptr s) (Lit l :: ps') (ptr + rdlength) ->
          l = w /\ data_at msg 255 (s_ptr s') ps' (ptr + rdlength)
    end).
Proof.
  intros Hf Hroom. unfold field_in. destruct (s_cnt s <? k) eqn:E; boolp.
  - apply runs_returns. splits; [done|done|]. intros l ps' Hl HD. destruct Hf as (_ & _ & _ & _ & He & _).
    inversion HD as [|? ? ? ? _ HD'|]; subst. apply data_at_le in HD'. lia.
  - eapply runs_weaken; [apply (runs_copy_in k n ps s c Hf); [by apply Hroom|done]|]. cbn beta. intros [rc|s'] c' [-> H]; [done|].
    split; [done|]. destruct H as (w & Hw & Hf' & _ & Hc). by exists w.
Qed.

Lemma runs_record_done n ps s c :
  gathered n ps s ->
  runs (record_done s : M _) c (fun r c' => c' = c /\
    match r with
    | inl rc => rc = RC_FORMAT /\ (data_at msg 255 (s_ptr s) [] (ptr + rdlength) -> False)
    | inr data => data = flat ps /\ Forall piece_ok ps /\ exists H, data_at msg H ptr ps (ptr + rdlength)
    end).
Proof.
  intros (Hn & Hl & Ht & Hok & He & Hda). unfold record_done. destruct (s_cnt s =? 0) eqn:E; boolp; cbn [negb].
  - eapply runs_liftR; [|split; [done|split; [done|]]].
    + unfold rd_bytes. rewrite decide_True; [by rewrite drop_0, Ht|].
      assert (length (take (s_len s) (s_db s)) = s_len s) as E2 by (rewrite Ht; lia). rewrite length_take in E2. lia.
    + split; [done|]. replace (ptr + rdlength) with (s_ptr s) by lia. done.
  - apply runs_returns. split; [done|]. split; [done|]. intros HD. inversion HD. lia.
Qed.


(** Most records are a sequence of names and of fields of fixed length. *)
Fixpoint read_script (sc : list (option nat)) (s : scratch) : R (list Z) :=
  match sc with
  | [] => record_done s
  | None :: sc' => s ← name_into msg s; read_script sc' s
  | Some k :: sc' => s ← field_in msg k s; read_script sc' s
  end.

Definition fits (x : option nat) (p : piece) : Prop :=
  match x, p with None, Nm _ => True | Some k, Lit l => length l = k | _, _ => False end.

Definition space (sc : list (option nat)) : nat := list_sum (map (default DNSNAMEBUFSIZE) sc).

(** What the record read from [s] on adds to the pieces [ps]. *)
Definition script_post (sc : list (option nat)) (ps : list piece) (s : scratch) (c : cache) (r : Z + list Z) (c' : cache) : Prop :=
  c' = c /\
  match r with
  | inl rc => rc = RC_FORMAT
  | inr data => exists ps', Forall2 fits sc ps' /\ data = flat (ps ++ ps') /\ Forall piece_ok (ps ++ ps') /\
      exists H, data_at msg H ptr (ps ++ ps') (ptr + rdlength)
  end /\
  (forall ps', Forall2 fits sc ps' -> data_at msg 255 (s_ptr s) ps' (ptr + rdlength) -> r = inr (flat (ps ++ ps'))).

Lemma runs_script sc : forall n ps s c,
  gathered n ps s -> s_len s + space sc <= n -> runs (read_script sc s : M _) c (script_post sc ps s c).
Proof.
  induction sc as [|x sc IH]; intros n ps s c Hf Hroom; cbn [read_script].
  { eapply runs_weaken; [by eapply runs_record_done|]. cbn beta. intros [rc|data] c' [-> H].
    - destruct H as [-> H]. unfold script_post; splits; [done|done|]. intros ps' Hps'%Forall2_nil_inv_l. subst. by intros ?%H.
    - destruct H as (-> & Hok & Hda). unfold script_post; splits; [done|exists []; rewrite !app_nil_r; by splits|].
      intros ps' Hps'%Forall2_nil_inv_l. subst. by rewrite app_nil_r. }
  assert (Hsp : space (x :: sc) = default DNSNAMEBUFSIZE x + space sc) by done. rewrite Hsp in Hroom.
  assert (Hstep : forall p s' c', gathered n (ps ++ [p]) s' -> fits x p -> piece_ok p -> c' = c ->
    (forall p' ps', fits x p' -> data_at msg 255 (s_ptr s) (p' :: ps') (ptr + rdlength) -> p' = p /\ data_at msg 255 (s_ptr s') ps' (ptr + rdlength)) ->
    runs (read_script sc s' : M _) c' (script_post (x :: sc) ps s c)).
  { intros p s' c' Hf' Hfit Hpok -> Hdet. eapply runs_weaken; [apply (IH n _ s' c Hf')|].
    - pose proof Hf as (_ & El & _). pose proof Hf' as (_ & -> & _). rewrite flat_snoc, length_app, <- El.
      enough (length (piece_bytes p) <= default DNSNAMEBUFSIZE x) by lia.
      destruct x as [k|], p as [l|N]; cbn in *; [lia|done|done|]. by destruct Hpok.
    - cbn beta. intros r c' (-> & Hr & Hcomp). split; [done|]. split.
      + destruct r as [rc|data]; [done|]. destruct Hr as (ps' & Hfits & Hd & Hok & Hda). exists (p :: ps').
        rewrite <- !app_assoc in *. splits; [by constructor|done..].
      + intros ps' Hps' HD. destruct ps' as [|p' ps']; [by apply Forall2_cons_nil_inv in Hps'|]. apply Forall2_cons in Hps' as [Hp' Hps'].
        destruct (Hdet p' ps' Hp' HD) as [-> HD']. rewrite (Hcomp ps' Hps' HD'). by rewrite <- app_assoc. }
  destruct x as [k|]; [change (default DNSNAMEBUFSIZE (Some k)) with k in Hroom|change (default DNSNAMEBUFSIZE None) with DNSNAMEBUFSIZE in Hroom]; apply runs_Rbind.
  - eapply runs_weaken; [apply (runs_field_in k n ps s c Hf); lia|]. cbn beta. intros [rc|s'] c' [-> H].
    + destruct H as [-> H]. unfold script_post; splits; [done|done|]. intros ps' Hps' HD. destruct ps' as [|p' ps']; [by apply Forall2_cons_nil_inv in Hps'|].
      apply Forall2_cons in Hps' as [Hp' _]. destruct p' as [l|]; [|done]. by destruct (H l ps').
    + destruct H as (w & Hw & Hf' & Hdet). apply (Hstep (Lit w) s'); [done|done| |done|].
      * destruct Hf' as (_ & _ & _ & Hok & _). apply Forall_app in Hok as [_ Hok]. by apply Forall_cons in Hok as [Hok _].
      * intros p' ps' Hp' HD. destruct p' as [l|]; [|done]. by destruct (Hdet l ps' Hp' HD) as [-> ?].
  - eapply runs_weaken; [apply (runs_name_in n ps s c Hf); lia|]. cbn beta. intros [rc|s'] c' [-> H].
    + destruct H as [-> H]. unfold script_post; splits; [done|done|]. intros ps' Hps' HD. destruct ps' as [|p' ps']; [by apply Forall2_cons_nil_inv in Hps'|].
      apply Forall2_cons in Hps' as [Hp' _]. destruct p' as [|N]; [done|]. by destruct (H N ps').
    + destruct H as (N & Hf' & Hdet). apply (Hstep (Nm N) s'); [done|done| |done|].
      * destruct Hf' as (_ & _ & _ & Hok & _). apply Forall_app in Hok as [_ Hok]. by apply Forall_cons in Hok as [Hok _].
      * intros p' ps' Hp' HD. destruct p' as [|N']; [done|]. by destruct (Hdet N' ps' HD) as [-> ?].
Qed.
End Scratch.

(** ** The records of each type *)

Section Types.
Context (msg : list Z) (Hb : bytes msg).

(** The types whose data are names and fields of fixed length only. *)
Definition named_type (type : Z) : bool :=
  in_types type [T_CNAME; T_MB; T_MD; T_MF; T_MG; T_MR; T_NS; T_PTR] || in_types type [T_MINFO; T_RP] ||
  in_types type [T_MX; T_AFSDB; T_RT; T_KX] || in_types type [T_SOA] || in_types type [T_PX] || in_types type [T_SRV].

(** What reading a record of the given type yields: a malformed record is refused, and
    data that are accepted are those at this place of the message, with plain names. *)
Definition decoded_data (type : Z) (ptr rdlength : nat) (c : cache) (r : Z + list Z) (c' : cache) : Prop :=
  mem_step c c' /\
  match r with
  | inl rc => rc = RC_FORMAT \/ (rc = RC_FATALERR /\ ~ plenty c)
  | inr data => (exists ps, wire type ps /\ data = flat ps) /\
      exists ps H, data_at msg H ptr ps (ptr + rdlength) /\ data = flat ps
  end /\
  (named_type type = true -> forall ps, layout type ps -> data_at msg 255 ptr ps (ptr + rdlength) -> r = inr (flat ps)).

Context (ptr rdlength : nat) (Hend : ptr + rdlength <= length msg).

Lemma runs_scripted type sc n c :
  space sc <= n -> (forall ps, layout type ps <-> Forall2 fits sc ps) ->
  runs (read_script msg sc (db_of n ptr rdlength) : M _) c (decoded_data type ptr rdlength c).
Proof.
  intros Hn Hlay. eapply runs_weaken; [apply (runs_script msg Hb ptr rdlength Hend sc n [] _ c (gathered_start _ _ _ n)); exact Hn|].
  intros r c' (-> & Hr & Hcomp). split; [auto with pdnsd|]. split.
  - destruct r as [rc|data]; [by left|]. destruct Hr as (ps & Hfits & Hd & Hok & H & Hda). cbn [app] in *.
    split; [exists ps; split; [split; [by apply Hlay|done]|done]|by exists ps, H].
  - intros _ ps Hps HD. apply (Hcomp ps); [by apply Hlay|done].
Qed.

Lemma flat_one l : flat [Lit l] = l.
Proof. apply app_nil_r. Qed.

(** Records that are taken as they are. *)
Lemma runs_raw_of type c :
  (forall l, length l = rdlength -> layout type [Lit l]) -> named_type type = false ->
  runs (liftR (rd_bytes msg ptr rdlength) : M _) c (decoded_data type ptr rdlength c).
Proof.
  intros Hlay Hn. destruct (rd_bytes_some msg ptr rdlength Hend) as [w Hw]. pose proof (rd_bytes_eq _ _ _ _ Hw) as [Hlw _].
  eapply runs_liftR; [exact Hw|]. split; [auto with pdnsd|]. split; [|congruence]. split.
  - exists [Lit w]. split; [|by rewrite flat_one]. split; [by apply Hlay|]. apply Forall_cons. split; [by eapply rd_bytes_bytes|constructor].
  - exists [Lit w], 0. split; [|by rewrite flat_one]. rewrite <- Hlw. constructor; [by rewrite Hlw|constructor].
Qed.

Lemma runs_raw type c :
  layout type = (fun ps => exists l, ps = [Lit l]) -> named_type type = false ->
  runs (liftR (rd_bytes msg ptr rdlength) : M _) c (decoded_data type ptr rdlength c).
Proof. intros Hlay. apply runs_raw_of. intros l _. rewrite Hlay. by exists l. Qed.

Lemma runs_refuse type c : named_type type = false -> runs (returns RC_FORMAT : M (Z + list Z)) c (decoded_data type ptr rdlength c).
Proof. intros Hn. apply (runs_returns (A := list Z)). split; [auto with pdnsd|]. split; [by left|congruence]. Qed.

Lemma rd_bytes_join m p a b x y : rd_bytes m p a = Some x -> rd_bytes m (p + a) b = Some y -> rd_bytes m p (a + b) = Some (x ++ y).
Proof.
  intros Hx Hy. pose proof (rd_bytes_eq _ _ _ _ Hx) as [_ Ha]. pose proof (rd_bytes_eq _ _ _ _ Hy) as [_ Hpb]. unfold rd_bytes in *.
  rewrite decide_True in Hx by lia. rewrite decide_True in Hy by lia. rewrite decide_True by lia. injection Hx as <-. injection Hy as <-.
  by rewrite <- take_take_drop, drop_drop.
Qed.

(** The strings of a NAPTR record. *)
Lemma runs_naptr_len j : forall len c,
  runs (naptr_len msg j ptr rdlength len : M _) c (fun r c' => c' = c /\
    match r with
    | inl rc => rc = RC_FORMAT
    | inr len' => len <= len' <= len + j * 256 /\ (len' <= rdlength ->
        exists cs, length cs = j /\ rd_bytes msg (ptr + len) (len' - len) = Some (concat (map char_string cs)))
    end).
Proof.
  induction j as [|j IH]; intros len c; cbn [naptr_len].
  { apply runs_Rret. split; [done|]. split; [lia|]. intros Hl. exists []. split; [done|]. rewrite Nat.sub_diag.
    unfold rd_bytes. by rewrite decide_True by lia. }
  destruct (rdlength <=? len) eqn:E; boolp; [by apply runs_returns|].
  destruct (rd_lt msg (ptr + len)) as [b Hrd]; [lia|]. pose proof (rd_byte _ _ _ Hb Hrd) as Hbb. eapply step_liftR; [exact Hrd|].
  eapply runs_weaken; [apply IH|]. cbn beta. intros [rc|len'] c' [-> H]; [by split|]. split; [done|].
  unfold is_byte in Hbb. destruct H as [Hle Hcs]. split; [lia|]. intros Hl. destruct (Hcs Hl) as (cs & Hlc & Hr).
  destruct (rd_bytes_some msg (ptr + len + 1) (Z.to_nat b)) as [w Hw]; [lia|]. pose proof (rd_bytes_eq _ _ _ _ Hw) as [Hlw _].
  assert (H1 : rd_bytes msg (ptr + len) 1 = Some [b]).
  { unfold rd_bytes. rewrite decide_True by lia. f_equal. unfold rd in Hrd. by rewrite (drop_S _ _ _ Hrd). }
  exists (w :: cs). split; [cbn; lia|]. cbn [map concat].
  replace (len' - len) with (1 + Z.to_nat b + (len' - (len + Z.to_nat b + 1))) by lia.
  apply (rd_bytes_join _ _ _ _ (char_string w)); [|by replace (ptr + len + (1 + Z.to_nat b)) with (ptr + (len + Z.to_nat b + 1)) by lia].
  unfold char_string. rewrite Hlw, Z2Nat.id by lia. by apply (rd_bytes_join _ _ _ _ [b]).
Qed.


Lemma data_at_lit m H p w ps q : data_at m H p (Lit w :: ps) q -> rd_bytes m p (length w) = Some w /\ data_at m H (p + length w) ps q.
Proof. intros HD. by inversion HD. Qed.

Lemma runs_naptr c :
  runs (naptr_rdata msg ptr rdlength : M _) c (decoded_data T_NAPTR ptr rdlength c).
Proof.
  assert (Hrej : decoded_data T_NAPTR ptr rdlength c (inl RC_FORMAT) c) by (split; [auto with pdnsd|split; [by left|done]]).
  apply (runs_Rbind (B := list Z)). eapply runs_weaken; [apply runs_naptr_len|]. cbn beta. intros [rc|len] c' [-> H]; [by subst rc|].
  destruct H as [Hle Hcs].
  apply (runs_Rbind (B := list Z)). eapply runs_weaken; [apply (runs_field_in msg Hb ptr rdlength Hend len _ [] _ c (gathered_start _ _ _ _)); cbn [s_len db_of]; lia|].
  cbn beta. intros [rc|s1] c' [-> H]; [by destruct H as [-> _]|]. destruct H as (w & Hw & Hf1 & _).
  apply (runs_Rbind (B := list Z)). eapply runs_weaken; [apply (runs_name_in msg Hb ptr rdlength Hend _ _ _ c Hf1)|].
  { pose proof Hf1 as (_ & -> & _). cbn [app]. rewrite flat_one, Hw. lia. }
  cbn beta. intros [rc|s2] c' [-> H]; [by destruct H as [-> _]|]. destruct H as (N & Hf2 & _).
  eapply runs_weaken; [apply (runs_record_done msg ptr rdlength Hend _ _ s2 c Hf2)|]. cbn beta. intros [rc|data] c' [-> H]; [by destruct H as [-> _]|].
  destruct H as (-> & Hok & H & Hda). cbn [app] in *. split; [auto with pdnsd|]. split; [|done]. split; [|by exists [Lit w; Nm N], H].
  exists [Lit w; Nm N]. split; [|done]. split; [|done]. pose proof (data_at_le _ _ _ _ _ (proj2 (data_at_lit _ _ _ _ _ _ Hda))) as Hlw.
  destruct (data_at_lit _ _ _ _ _ _ Hda) as [Hrw _]. rewrite Hw in *. destruct Hcs as (cs & Hlc & Hrc); [lia|].
  destruct (rd_bytes_some msg ptr 4) as [l Hl]; [lia|]. pose proof (rd_bytes_eq _ _ _ _ Hl) as [Hll _].
  pose proof (rd_bytes_join _ _ _ _ _ _ Hl Hrc) as Hj. replace (4 + (len - 4)) with len in Hj by lia. rewrite Hrw in Hj. injection Hj as ->.
  destruct cs as [|c1 [|c2 [|c3 [|]]]]; try discriminate Hlc. exists l, c1, c2, c3, N. split; [done|]. cbn [map concat]. by rewrite app_nil_r.
Qed.

Lemma runs_nxt c :
  runs (nxt_rdata msg ptr rdlength : M _) c (decoded_data T_NXT ptr rdlength c).
Proof.
  assert (Hrej : decoded_data T_NXT ptr rdlength c (inl RC_FORMAT) c) by (split; [auto with pdnsd|split; [by left|done]]).
  apply (runs_Rbind (B := list Z)). eapply runs_weaken; [apply (runs_name_in msg Hb ptr rdlength Hend 1040 [] _ c (gathered_start _ _ _ _)); vm_compute; lia|].
  cbn beta. intros [rc|s1] c' [-> H]; [by destruct H as [-> _]|]. destruct H as (N & Hf1 & _). cbn [app] in Hf1.
  destruct (length (s_db s1) <? s_len s1 + s_cnt s1) eqn:E; boolp; [by apply (runs_returns (A := list Z))|].
  assert (En : length (s_db s1) = 1040) by apply Hf1.
  apply (runs_Rbind (B := list Z)). eapply runs_weaken; [apply (runs_copy_in msg Hb ptr rdlength Hend (s_cnt s1) 1040 _ _ c Hf1); lia|].
  cbn beta. intros [rc|s2] c' [-> H]; [done|]. destruct H as (w & Hw & Hf2 & Hcnt & _).
  pose proof (runs_record_done msg ptr rdlength Hend 1040 _ s2 c Hf2) as Hd. unfold record_done in Hd. rewrite Hcnt, Nat.sub_diag in Hd. cbn [Nat.eqb negb] in Hd.
  eapply runs_weaken; [exact Hd|]. cbn beta. intros [rc|data] c' [-> H]; [by destruct H as [-> _]|].
  destruct H as (-> & Hok & H & Hda). cbn [app] in *. split; [auto with pdnsd|]. split; [|done]. split; [|by exists [Nm N; Lit w], H].
  exists [Nm N; Lit w]. split; [|done]. split; [by exists N, w|done].
Qed.

Lemma bytes_flat ps : Forall piece_ok ps -> bytes (flat ps).
Proof.
  induction 1 as [|p ps Hp _ IH]; [constructor|]. unfold flat. cbn [map concat]. apply Forall_app. split; [|exact IH].
  destruct p as [l|N]; [done|]. by apply bytes_enc_name, Hp.
Qed.

(** Names that should be plain. *)
Lemma runs_plain_name type k c :
  layout type = (fun ps => exists l, ps = [Lit l]) -> named_type type = false -> k <= rdlength ->
  runs (plain_name msg k ptr rdlength : M _) c (decoded_data type ptr rdlength c).
Proof.
  intros Hlay Hn Hk. unfold plain_name. cbv zeta.
  eapply (step_liftR (B := list Z)); [unfold adv; rewrite decide_True by lia; done|].
  destruct (isnormalencdomname_spec (drop (ptr + k) msg) (rdlength - k)) as (b & Eb & _); [by apply Forall_drop|rewrite length_drop; lia|].
  eapply (step_liftR (B := list Z)); [exact Eb|]. destruct b; [by apply runs_raw|].
  apply (runs_Rbind (B := list Z)). eapply runs_weaken; [apply (runs_name_in msg Hb (ptr + k) (rdlength - k) ltac:(lia) _ [] _ c (gathered_start _ _ _ _)); cbn [s_len db_of]; lia|].
  cbn beta. intros [rc|s1] c' [-> H].
  { destruct H as [-> _]. split; [auto with pdnsd|]. split; [by left|congruence]. }
  destruct H as (N & Hf1 & _). cbn [app] in Hf1. destruct Hf1 as (_ & Hl & Ht & Hok & He & H & Hda).
  apply (runs_Rbind (B := list Z)), runs_memR. eapply runs_weaken; [apply runs_malloc_any|]. cbn beta. intros ok c1 [Hm Hp]. assert (Hms : mem_step c c1) by (split; [done|intros H0; by apply Hp]). destruct ok.
  2:{ apply (runs_returns (A := list Z)). split; [done|]. split; [|congruence]. right. split; [done|]. intros Hpl. by destruct (Hp Hpl). }
  destruct (rd_bytes_some msg ptr k) as [front Hfr]; [lia|]. pose proof (rd_bytes_eq _ _ _ _ Hfr) as [Hlf _].
  eapply (step_liftR (B := list Z)); [exact Hfr|].
  assert (Hnm : rd_bytes (s_db s1) 0 (s_len s1) = Some (enc_name N)).
  { unfold rd_bytes. assert (length (take (s_len s1) (s_db s1)) = s_len s1) as E by (rewrite Ht; lia). rewrite length_take in E.
    rewrite decide_True by lia. rewrite drop_0, Ht. f_equal. apply app_nil_r. }
  eapply (step_liftR (B := list Z)); [exact Hnm|].
  destruct (rd_bytes_some msg (s_ptr s1) (s_cnt s1)) as [back Hbk]; [lia|]. pose proof (rd_bytes_eq _ _ _ _ Hbk) as [Hlb _].
  eapply (step_liftR (B := list Z)); [exact Hbk|]. apply (runs_Rret (A := list Z)).
  assert (Hps : Forall piece_ok [Lit front; Nm N; Lit back]).
  { apply Forall_cons. split; [by eapply rd_bytes_bytes|]. apply Forall_cons in Hok as [Hok _]. apply Forall_cons. split; [done|].
    apply Forall_cons. split; [by eapply rd_bytes_bytes|constructor]. }
  assert (Hflat : flat [Lit front; Nm N; Lit back] = front ++ enc_name N ++ back) by (unfold flat; cbn; by rewrite app_nil_r).
  split; [done|]. split; [|congruence]. split.
  - exists [Lit (front ++ enc_name N ++ back)]. split; [|by rewrite flat_one]. split; [rewrite Hlay; by eexists|].
    apply Forall_cons. split; [|constructor]. cbn [piece_ok]. rewrite <- Hflat. by apply bytes_flat.
  - exists [Lit front; Nm N; Lit back], H. split; [|by rewrite Hflat]. constructor; [by rewrite Hlf|]. rewrite Hlf.
    apply (data_at_app _ _ _ [Nm N] (s_ptr s1)); [exact Hda|]. replace (ptr + rdlength) with (s_ptr s1 + length back) by lia.
    constructor; [by rewrite Hlb|constructor].
Qed.

(** ** [decode_rdata] *)


Lemma layout_raw type :
  in_types type [T_CNAME; T_MB; T_MD; T_MF; T_MG; T_MR; T_NS; T_PTR] = false -> in_types type [T_MINFO; T_RP] = false ->
  in_types type [T_MX; T_AFSDB; T_RT; T_KX] = false -> (type =? T_SOA)%Z = false -> (type =? T_PX)%Z = false ->
  (type =? T_SRV)%Z = false -> (type =? T_NXT)%Z = false -> (type =? T_NAPTR)%Z = false -> (type =? T_A)%Z = false -> (type =? T_AAAA)%Z = false ->
  layout type = (fun ps => exists l, ps = [Lit l]) /\ named_type type = false.
Proof.
  intros H1 H2 H3 H4 H5 H6 H7 H8 H9 H10. unfold named_type, layout. rewrite H1, H2, H3. unfold in_types. cbn [existsb]. by rewrite H4, H5, H6, H7, H8, H9, H10.
Qed.

Lemma fits_iff sc (Q : list piece -> Prop) :
  (forall ps, Q ps -> Forall2 fits sc ps) -> (forall ps, Forall2 fits sc ps -> Q ps) -> forall ps, Q ps <-> Forall2 fits sc ps.
Proof. intros H1 H2 ps. split; auto. Qed.

Ltac fits_inv := repeat match goal with
  | H : Forall2 fits (_ :: _) ?ps |- _ => destruct ps as [|[|] ?]; [by apply Forall2_cons_nil_inv in H|..]; apply Forall2_cons in H as [? H]; try done
  | H : Forall2 fits [] _ |- _ => apply Forall2_nil_inv_l in H; subst
  end.
Ltac fits_tac := intros ?ps; split; [intros; repeat match goal with H : exists _, _ |- _ => destruct H | H : _ /\ _ |- _ => destruct H end; subst; repeat constructor; done|
  intros; fits_inv; cbn [fits] in *; eauto 10].

Lemma runs_decode_rdata type c :
  runs (decode_rdata msg type ptr rdlength : M _) c (decoded_data type ptr rdlength c).
Proof.
  unfold decode_rdata, addr_rdata, raw_rdata, ipseckey_rdata, rrsig_rdata.
  destruct (type =? T_A)%Z eqn:EA; [apply Z.eqb_eq in EA as ->; destruct (Nat.eqb_spec rdlength 4) as [Hn|]; [|by apply runs_refuse]; apply runs_raw_of; [intros l Hl; exists l; by rewrite Hl|done]|].
  destruct (in_types type [T_CNAME; T_MB; T_MD; T_MF; T_MG; T_MR; T_NS; T_PTR]) eqn:E1.
  { apply (runs_scripted type [None]); [vm_compute; lia|]. unfold layout. rewrite E1. fits_tac. }
  destruct (in_types type [T_MINFO; T_RP]) eqn:E2.
  { apply (runs_scripted type [None; None]); [vm_compute; lia|]. unfold layout. rewrite E1, E2. fits_tac. }
  destruct (in_types type [T_MX; T_AFSDB; T_RT; T_KX]) eqn:E3.
  { apply (runs_scripted type [Some 2; None]); [vm_compute; lia|]. unfold layout. rewrite E1, E2, E3. fits_tac. }
  destruct (type =? T_SOA)%Z eqn:E4; [apply Z.eqb_eq in E4 as ->; apply (runs_scripted T_SOA [None; None; Some 20]); [vm_compute; lia|]; cbn; fits_tac|].
  destruct (type =? T_AAAA)%Z eqn:E5; [apply Z.eqb_eq in E5 as ->; destruct (Nat.eqb_spec rdlength 16) as [Hn|]; [|by apply runs_refuse]; apply runs_raw_of; [intros l Hl; exists l; by rewrite Hl|done]|].
  destruct (type =? T_PX)%Z eqn:E6; [apply Z.eqb_eq in E6 as ->; apply (runs_scripted T_PX [Some 2; None; None]); [vm_compute; lia|]; cbn; fits_tac|].
  destruct (type =? T_SRV)%Z eqn:E7; [apply Z.eqb_eq in E7 as ->; apply (runs_scripted T_SRV [Some 6; None]); [vm_compute; lia|]; cbn; fits_tac|].
  destruct (type =? T_NXT)%Z eqn:E8; [apply Z.eqb_eq in E8 as ->; apply runs_nxt|].
  destruct (type =? T_NAPTR)%Z eqn:E9; [apply Z.eqb_eq in E9 as ->; apply runs_naptr|].
  destruct (layout_raw type) as [Hlay Hn]; [done..|].
  destruct (type =? T_IPSECKEY)%Z eqn:E10.
  { destruct (rdlength <? 3) eqn:El; boolp; [by apply runs_refuse|]. destruct (rd_lt msg (ptr + 1)) as [g Hg]; [lia|].
    eapply (step_liftR (B := list Z)); [exact Hg|]. repeat (destruct (g =? _)%Z; [try (destruct (_ <? _); [by apply runs_refuse|]); try by apply runs_raw|]).
    - apply runs_plain_name; [done|done|lia].
    - by apply runs_refuse. }
  destruct (type =? T_RRSIG)%Z eqn:E11.
  { destruct (rdlength <? 18) eqn:El; boolp; [by apply runs_refuse|]. apply runs_plain_name; [done|done|lia]. }
  destruct (type =? T_NSEC)%Z eqn:E12; [apply runs_plain_name; [done|done|lia]|]. by apply runs_raw.
Qed.
End Types.
