(* ===== verification/ReplySpec.v ===== *)
(** Specification of the collection of records in Reply: the array of entries holds the
    records of the message and nothing else. *)
From S2P Require Import Prelude Names DnsName Compress RrTypes HashTab RrList Cent CentSpec Cache CacheInv CacheOps.
From S2P Require Import Answer AnswerRr AnswerSet Query QueryDecode QuerySafe Reply ReplyData.

Section Collect.
Context {P : Platform}.

(** ** Entries of an array *)

(** Addresses have the right length. *)
Definition sized_data (tp : Z) (d : list Z) : Prop := (tp = T_A -> length d = 4) /\ (tp = T_AAAA -> length d = 16).
Definition sized (c : dns_cent) : Prop := forall tp d, d ∈ records c tp -> sized_data tp d.

(** An entry that collects records: well formed, positive, not local. *)
Definition fresh_cent (c : dns_cent) : Prop := good_cent c /\ is_neg c = false /\ tst (flags c) DF_LOCAL = false /\ sized c.

Definition key (c : dns_cent) : list Z := fold_key (qname c).

(** At most one entry for each name. *)
Definition arr_ok (ca : list dns_cent) : Prop := Forall fresh_cent ca /\ NoDup (map key ca).

Lemma type_index_inj tp tp' i : type_index tp = Some i -> type_index tp' = Some i -> tp = tp'.
Proof.
  unfold type_index. intros H H'.
  destruct ((0 <=? tp - T_MIN)%Z && (tp - T_MIN <? Z.of_nat T_NUM)%Z) eqn:E; [|discriminate H].
  destruct ((0 <=? tp' - T_MIN)%Z && (tp' - T_MIN <? Z.of_nat T_NUM)%Z) eqn:E'; [|discriminate H']. boolp.
  assert (Hnd : NoDup rrlkuptab) by (apply (bool_decide_unpack _); vm_compute; done).
  pose proof (NoDup_lookup _ _ _ _ Hnd H H') as Eq. unfold T_MIN in *. lia.
Qed.

Lemma cached_index tp : not_cached_type tp = false -> type_index tp = Some (type_idx tp) /\ type_idx tp < NRRTOT.
Proof.
  intros Ht. pose proof (not_cached_range tp Ht) as Hrng. unfold T_MIN, T_MAX in Hrng. unfold type_index, type_idx.
  replace (0 <=? tp - T_MIN)%Z with true by (symmetry; apply Z.leb_le; unfold T_MIN; lia).
  unfold not_cached_type in Ht. apply orb_false_iff in Ht as [_ Ht].
  replace (tp - T_MIN <? Z.of_nat T_NUM)%Z with true by (symmetry; apply Z.ltb_lt; unfold T_MIN, T_NUM; lia). cbn [andb].
  destruct (rrlkuptab !! Z.to_nat (tp - T_MIN)) as [i|]; [|done]. boolp. by split.
Qed.

Lemma records_at c tp : shape c -> not_cached_type tp = false -> records c tp = rrs_at c (type_idx tp).
Proof.
  intros Hs Ht. destruct (cached_index tp Ht) as [Hi Hlt]. unfold records. rewrite getrrset_slot, Hi by done. cbn [mbind option_bind].
  bool_true (type_idx tp <? NRRTOT). unfold rrs_at. by destruct (slot c (type_idx tp)).
Qed.

(** The sets of two entries that agree elsewhere. *)
Lemma records_other c c' tp tp' :
  shape c -> shape c' -> not_cached_type tp = false -> tp' <> tp ->
  (forall j, j <> type_idx tp -> slot c' j = slot c j) -> records c' tp' = records c tp'.
Proof.
  intros Hs Hs' Ht Hne Ho. unfold records. rewrite !getrrset_slot by done. destruct (type_index tp') as [i|] eqn:Hi; [|done].
  cbn [mbind option_bind]. destruct (i <? NRRTOT); [|done]. rewrite Ho; [done|]. intros ->.
  destruct (cached_index tp Ht) as [Hi' _]. apply Hne. by eapply type_index_inj.
Qed.

Lemma no_lents c : cent_lents c = [] <-> forall idx, lent_of c idx = None.
Proof.
  split.
  - intros H idx. destruct (lent_of c idx) as [p|] eqn:E; [|done]. assert (p ∈ cent_lents c) as Hp by (apply elem_of_cent_lents; by exists idx).
    rewrite H in Hp. by apply not_elem_of_nil in Hp.
  - intros H. destruct (cent_lents c) as [|p l] eqn:E; [done|]. assert (p ∈ cent_lents c) as Hp by (rewrite E; by left).
    apply elem_of_cent_lents in Hp as [idx Hp]. by rewrite H in Hp.
Qed.

(** Adding a record to an entry whose data have the layout of their types. *)
Lemma runs_add_record c tp ttl ts fl data s :
  good_cent c -> is_neg c = false -> tst (flags c) DF_LOCAL && negb (tst fl CF_LOCAL) = false -> not_cached_type tp = false ->
  (exists ps, wire tp ps /\ data = flat ps) ->
  runs (add_cent_rr c tp ttl ts fl data) s (fun r s' =>
    mem_only s s' /\ (plenty s -> r.1 = true /\ plenty s') /\ good_cent r.2 /\ is_neg r.2 = false /\ keeps c r.2 /\
    (forall m, Z.land m DF_NEGATIVE = 0%Z -> tst (flags r.2) m = tst (flags c) m) /\
    (forall tp', tp' <> tp -> records r.2 tp' = records c tp') /\
    records r.2 tp = records c tp ++ (if bool_decide (r.1 = true /\ data ∉ records c tp) then [data] else []) /\
    (forall j, j <> type_idx tp -> slot r.2 j = slot c j) /\
    (slot c (type_idx tp) = None -> r.1 = true -> exists rs, slot r.2 (type_idx tp) = Some rs /\ rs_ttl rs = ttl /\ rs_ts rs = ts /\ rs_flags rs = u16 fl)).
Proof.
  intros (Hok & Hl & Hw) Hneg Hloc Ht Hd. pose proof Hok as (Hs & _). rewrite no_lents in Hl.
  eapply runs_weaken; [by apply runs_add_cent_rr|]. cbn beta zeta. rewrite Hloc.
  intros r s' (Hm & Hp & Hok' & Hk & Hfl & Hn & Hln & Hnew & Ho & Hr & Hold & Hnw). pose proof Hok' as (Hs' & _).
  set (idx := type_idx tp) in *. destruct (cached_index tp Ht) as [Hi Hlt]. fold idx in Hi, Hlt.
  assert (Hoth : forall tp', tp' <> tp -> records r.2 tp' = records c tp') by (intros; by eapply records_other).
  assert (Hrec : records r.2 tp = records c tp ++ (if bool_decide (r.1 = true /\ data ∉ records c tp) then [data] else [])).
  { by rewrite !(records_at _ tp) by done. }
  splits; [done|done| |by apply Hn|done|done|done|done|done|intros H1 H2; destruct (Hnw H1 H2) as (rs & ? & ? & ? & ? & _); by exists rs].
  split; [done|]. split.
  - apply no_lents. intros [j|]; [|done]. destruct (decide (j = idx)) as [->|Hj].
    + unfold lent_of. destruct (slot c idx) as [rs|] eqn:Hsl.
      * destruct (Hold rs eq_refl) as (rs' & -> & _ & _ & _ & Elt). specialize (Hl (Some idx)). unfold lent_of in Hl. rewrite Hsl in Hl.
        cbn in Hl |- *. congruence.
      * destruct r as [[] c']; cbn [fst snd] in *; [by destruct (Hnw eq_refl eq_refl) as (rs' & -> & _ & _ & _ & ?)|by rewrite Hnew].
    + specialize (Hl (Some j)). unfold lent_of in *. by rewrite Ho.
  - intros tp' rs Hg. assert (E : rs_rrs rs = records r.2 tp') by (unfold records; by rewrite Hg). rewrite E.
    assert (Hold' : forall tp', Forall (fun rr => exists ps, wire tp' ps /\ rr = flat ps) (records c tp')).
    { intros tp2. unfold records. destruct (getrrset c tp2) as [[rs2|]|] eqn:E2; [by apply Hw|constructor..]. }
    destruct (decide (tp' = tp)) as [->|Hne]; [|by rewrite Hoth]. rewrite Hrec. apply Forall_app. split; [done|].
    destruct (bool_decide (r.1 = true /\ data ∉ records c tp)); [|constructor]. by apply Forall_singleton.
Qed.

(** Adding a record to such an entry. *)
Lemma runs_add_fresh c tp ttl ts fl data s :
  fresh_cent c -> not_cached_type tp = false -> (exists ps, wire tp ps /\ data = flat ps) -> sized_data tp data ->
  runs (add_cent_rr c tp ttl ts fl data) s (fun r s' =>
    mem_only s s' /\ (plenty s -> r.1 = true /\ plenty s') /\ fresh_cent r.2 /\ key r.2 = key c /\ keeps c r.2 /\
    (forall tp', tp' <> tp -> records r.2 tp' = records c tp') /\
    records r.2 tp = records c tp ++ (if bool_decide (r.1 = true /\ data ∉ records c tp) then [data] else [])).
Proof.
  intros (Hg & Hneg & Hloc & Hsz) Ht Hd Hsd. eapply runs_weaken; [apply runs_add_record; try done; by rewrite Hloc|]. cbn beta.
  intros r s' (Hm & Hp & Hg' & Hn & Hk & Hfl & Hoth & Hrec & _). splits; [done|done| |unfold key; by destruct Hk as [-> _]|done|done|done].
  unfold fresh_cent. splits; [done|done|by rewrite Hfl|]. intros tp' d. destruct (decide (tp' = tp)) as [->|Hne]; [|rewrite Hoth by done; apply Hsz].
  rewrite Hrec. intros [Hin|Hin]%elem_of_app; [by apply Hsz|]. case_bool_decide; [by apply list_elem_of_singleton in Hin as ->|by apply not_elem_of_nil in Hin].
Qed.

(** ** Finding an entry *)

Lemma find_cent_spec ca N r :
  Forall fresh_cent ca -> wf_name N ->
  exists o, find_cent ca (enc_name N ++ r) = Some o /\
    match o with
    | Some i => exists c, ca !! i = Some c /\ key c = fold_key (enc_name N)
    | None => fold_key (enc_name N) ∉ map key ca
    end.
Proof.
  intros Hca HN. induction Hca as [|c ca Hc _ (o & Eo & Ho)]; cbn [find_cent]; [exists None; split; [done|apply not_elem_of_nil]|].
  destruct Hc as (((_ & (N' & HN' & Eq) & _) & _) & _).
  rewrite Eq, <- (app_nil_r (enc_name N')), rhnicmp_enc by (apply HN || apply HN'). sbind.
  assert (Hk : key c = fold_key (enc_name N) <-> name_eqi N' N) by (unfold key; rewrite Eq; symmetry; apply fold_key_eqi; [apply HN'|apply HN]).
  destruct (bool_decide (name_eqi N' N)) eqn:E.
  - exists (Some 0). split; [done|]. exists c. split; [done|]. apply Hk. by apply bool_decide_eq_true in E.
  - rewrite Eo. sbind. apply bool_decide_eq_false in E. destruct o as [i|]; cbn [option_map]; eexists; (split; [done|]); [done|].
    cbn [map]. apply not_elem_of_cons. split; [|done]. intros H. apply E, Hk. done.
Qed.

(** ** [rr_to_cache] *)

(** The array has the record [d] of type [tp] for the name with the key [K]. *)
Definition holds (ca : list dns_cent) (K : list Z) (tp : Z) (d : list Z) : Prop :=
  exists c, c ∈ ca /\ key c = K /\ d ∈ records c tp.

(** The entries that were there keep their place and their name. *)
Definition extends (ca ca' : list dns_cent) : Prop := forall i c, ca !! i = Some c -> exists c', ca' !! i = Some c' /\ keeps c c'.

Lemma keeps_refl c : keeps c c.
Proof. by unfold keeps. Qed.

Lemma extends_refl ca : extends ca ca.
Proof. intros i c H. exists c. split; [done|apply keeps_refl]. Qed.

Lemma extends_trans a b c : extends a b -> extends b c -> extends a c.
Proof.
  intros H1 H2 i x Hx. destruct (H1 i x Hx) as (y & Hy & Ky). destruct (H2 i y Hy) as (z & Hz & Kz).
  exists z. split; [done|by eapply keeps_trans].
Qed.

Lemma runs_free_cents ca s : Forall fresh_cent ca -> runs (free_cents ca) s (fun _ s' => s' = s).
Proof.
  intros Hca. revert s. induction Hca as [|c ca ((Hok & Hl & _) & _) _ IH]; intros s; cbn [free_cents]; [by apply runs_ret|].
  run_with runs_free_copy; [done|apply Hok|]. intros ? ? ->. apply IH.
Qed.

Definition new_record (ca : list dns_cent) (K : list Z) (tp : Z) (d : list Z) (ca' : list dns_cent) : Prop :=
  forall K' tp' d', holds ca' K' tp' d' <-> holds ca K' tp' d' \/ (K' = K /\ tp' = tp /\ d' = d).

(** The result of storing one record. *)
Definition stored (ca : list dns_cent) (K : list Z) (tp : Z) (d : list Z) (s : cache) (res : Z * list dns_cent) (s' : cache) : Prop :=
  mem_only s s' /\ arr_ok res.2 /\
  ((res.1 = RC_OK /\ (plenty s -> plenty s') /\ extends ca res.2 /\ new_record ca K tp d res.2) \/
   (res.1 = RC_FATALERR /\ ~ plenty s)).

(** The entry at [i] has been given the record. *)
Lemma new_record_insert ca i c c' tp d :
  ca !! i = Some c -> key c' = key c -> NoDup (map key ca) ->
  (forall tp', tp' <> tp -> records c' tp' = records c tp') ->
  records c' tp = records c tp ++ (if bool_decide (true = true /\ d ∉ records c tp) then [d] else []) ->
  new_record ca (key c) tp d (<[i := c']> ca).
Proof.
  intros Hi Hk Hnd Ho Hr K tp' d'. assert (Hlt : i < length ca) by (by eapply lookup_lt_Some).
  assert (Hin : forall x, x ∈ records c' tp <-> x ∈ records c tp \/ x = d).
  { intros x. rewrite Hr, elem_of_app. case_bool_decide as Hb; [by rewrite list_elem_of_singleton|].
    assert (d ∈ records c tp) by (destruct (decide (d ∈ records c tp)); [done|exfalso; apply Hb; done]).
    split; [by intros [?|?%not_elem_of_nil]; [left|]|by intros [?| ->]; left]. }
  split.
  - intros (x & Hx & HK & Hd). apply list_elem_of_lookup in Hx as [j Hj]. destruct (decide (i = j)) as [<-|Hij].
    + rewrite list_lookup_insert_eq in Hj by done. injection Hj as <-. rewrite Hk in HK. subst K.
      destruct (decide (tp' = tp)) as [->|Hne].
      * apply Hin in Hd as [Hd| ->]; [left|by right]. exists c. split; [by eapply list_elem_of_lookup_2|done].
      * rewrite Ho in Hd by done. left. exists c. split; [by eapply list_elem_of_lookup_2|done].
    + rewrite list_lookup_insert_ne in Hj by done. left. exists x. split; [by eapply list_elem_of_lookup_2|done].
  - assert (Hc' : c' ∈ <[i:=c']> ca) by (eapply list_elem_of_lookup_2; by apply list_lookup_insert_eq).
    intros [(x & Hx & HK & Hd)|(-> & -> & ->)].
    + apply list_elem_of_lookup in Hx as [j Hj]. destruct (decide (i = j)) as [<-|Hij].
      * rewrite Hi in Hj. injection Hj as <-. exists c'. split; [done|]. split; [congruence|].
        destruct (decide (tp' = tp)) as [->|Hne]; [apply Hin; by left|by rewrite Ho].
      * exists x. split; [|done]. eapply list_elem_of_lookup_2. rewrite list_lookup_insert_ne by done. exact Hj.
    + exists c'. split; [done|]. split; [done|]. apply Hin. by right.
Qed.

Lemma new_record_snoc ca c tp d :
  (forall tp', tp' <> tp -> records c tp' = []) -> records c tp = [d] -> new_record ca (key c) tp d (ca ++ [c]).
Proof.
  intros Ho Hr K tp' d'. split.
  - intros (x & Hx & HK & Hd). apply elem_of_app in Hx as [Hx|Hx]; [left; by exists x|]. apply list_elem_of_singleton in Hx as ->.
    destruct (decide (tp' = tp)) as [->|Hne]; [|rewrite Ho in Hd by done; by apply not_elem_of_nil in Hd].
    rewrite Hr in Hd. apply list_elem_of_singleton in Hd as ->. by right.
  - intros [(x & Hx & HK & Hd)|(-> & -> & ->)]; [exists x; split; [apply elem_of_app; by left|done]|].
    exists c. split; [apply elem_of_app; right; by left|]. split; [done|]. rewrite Hr. by left.
Qed.

Lemma arr_ok_insert ca i c c' : arr_ok ca -> ca !! i = Some c -> fresh_cent c' -> key c' = key c -> arr_ok (<[i := c']> ca).
Proof.
  intros [Hf Hnd] Hi Hc' Hk. split; [by apply Forall_insert|]. rewrite list_fmap_insert, list_insert_id; [done|].
  rewrite list_lookup_fmap, Hi. cbn. by rewrite Hk.
Qed.

Lemma records_empty c tp : shape c -> (forall i, slot c i = None) -> records c tp = [].
Proof.
  intros Hs Hsl. unfold records. rewrite getrrset_slot by done. destruct (type_index tp) as [i|]; [|done]. cbn [mbind option_bind].
  destruct (i <? NRRTOT); [|done]. by rewrite Hsl.
Qed.

Lemma runs_rr_to_cache ca N r tp ttl data fl ts s :
  arr_ok ca -> wf_name N -> not_cached_type tp = false -> (exists ps, wire tp ps /\ data = flat ps) -> sized_data tp data ->
  runs (rr_to_cache ca (enc_name N ++ r) tp ttl data fl ts) s (stored ca (fold_key (enc_name N)) tp data s).
Proof.
  intros [Hf Hnd] HN Ht Hd Hsd. unfold rr_to_cache. destruct (find_cent_spec ca N r Hf HN) as (o & Eo & Ho). run_lift; [exact Eo|].
  destruct o as [i|].
  - destruct Ho as (c & Hi & Hk). run_lift; [exact Hi|]. assert (Hc : fresh_cent c) by (by eapply Forall_lookup_1).
    run_with runs_add_fresh; [done..|]. intros [ok c'] s' (Hm & Hp & Hc' & Hk' & Hkp & Hoth & Hr). cbn [fst snd] in *.
    apply runs_ret. split; [done|]. cbn [fst snd]. split; [by eapply arr_ok_insert|]. destruct ok.
    + left. splits; [done|by intros [_ ?]%Hp| |].
      * intros j x Hj. destruct (decide (i = j)) as [<-|Hij].
        -- exists c'. rewrite list_lookup_insert_eq by (by eapply lookup_lt_Some). rewrite Hi in Hj. injection Hj as <-. done.
        -- exists x. rewrite list_lookup_insert_ne by done. split; [done|apply keeps_refl].
      * rewrite <- Hk. by apply new_record_insert.
    + right. split; [done|]. by intros [? _]%Hp.
  - apply runs_bind. eapply runs_weaken; [apply runs_malloc_any|]. cbn beta. intros ok s1 [Hm1 Hp1]. destruct ok.
    + run_with runs_init_cent; [done|]. intros res s2 (Hm2 & Hp2 & Hres). destruct res as [c|].
      * destruct (Hres c eq_refl) as (Hok & Hq & Hfl & Hl & Hsl & _ & Hneg).
        assert (Hc : fresh_cent c).
        { split; [split; [done|split; [done|]]|splits; [done|by rewrite Hfl|intros tp' d; rewrite (records_empty c tp' (proj1 Hok) Hsl); by intros ?%not_elem_of_nil]]. intros tp' rs Hg. pose proof (records_empty c tp' (proj1 Hok) Hsl) as E.
          unfold records in E. rewrite Hg in E. rewrite E. constructor. }
        run_with runs_add_fresh; [done..|]. intros [ok c'] s3 (Hm3 & Hp3 & Hc' & Hk' & Hkp & Hoth & Hr). cbn [fst snd] in *.
        assert (Hkey : key c' = fold_key (enc_name N)) by (rewrite Hk'; unfold key; by rewrite Hq).
        apply runs_ret. split; [eauto with pdnsd|]. cbn [fst snd]. split.
        { split; [apply Forall_app; split; [done|by apply Forall_singleton]|]. rewrite map_app. apply NoDup_app. splits; [done|intros x Hx|apply NoDup_singleton].
          cbn [map]. intros H%list_elem_of_singleton. rewrite Hkey in H. by subst x. }
        assert (Hpl2 : plenty s -> plenty s2).
        { intros H. apply Hp2, Hp1, H. }
        destruct ok.
        -- left. splits; [done|intros H; apply Hp3, Hpl2, H| |].
           ++ intros j x Hj. exists x. split; [by apply lookup_app_l_Some|apply keeps_refl].
           ++ rewrite <- Hkey. apply new_record_snoc.
              ** intros tp' Hne. rewrite Hoth by done. by apply records_empty; [apply Hok|].
              ** rewrite Hr, (records_empty c tp (proj1 Hok) Hsl). rewrite bool_decide_true; [done|]. split; [done|apply not_elem_of_nil].
        -- right. split; [done|]. intros H. by destruct (Hp3 (Hpl2 H)).
      * apply runs_bind. eapply runs_weaken; [apply runs_malloc_any|]. cbn beta. intros ok s3 [Hm3 _].
        apply runs_ret. split; [eauto with pdnsd|]. cbn [fst snd]. split; [destruct ok; [by split|split; constructor]|]. right. split; [done|].
        intros H. destruct (Hp2 (proj2 (Hp1 H))) as [[? ?] _]. done.
    + run_with runs_free_cents; [done|]. intros ? ? ->. apply runs_ret. split; [done|]. split; [split; constructor|]. right. split; [done|].
      intros H. by destruct (Hp1 H).
Qed.

(** ** [rrs2cent] *)

(** A record of a message: its data if it is of a kind that is cached. *)
Record mrec := { mr_name : list (list Z); mr_type : Z; mr_class : Z; mr_ttl : Z; mr_data : option (list Z) }.

Definition cached_kind (h : rr_hdr) : Prop := rh_type h <> T_OPT /\ not_cached_type (rh_type h) = false /\ rh_class h = C_IN.

(** [mrecs msg p rs q]: the records [rs] stand at offset [p] of the message and end at [q]. *)
Inductive mrecs (msg : list Z) : nat -> list mrec -> nat -> Prop :=
  | mr_nil p : mrecs msg p [] p
  | mr_cons p N h c hd x rs q :
      name_at msg (length msg) p N h c -> wf_name N -> rr_header_at msg (p + c) = Some hd ->
      p + c + sizeof_rr_hdr_t + rh_rdlength hd <= length msg ->
      mr_name x = N -> mr_type x = rh_type hd -> mr_class x = rh_class hd -> mr_ttl x = rh_ttl hd ->
      match mr_data x with
      | Some d => cached_kind hd /\ exists ps H, data_at msg H (p + c + sizeof_rr_hdr_t) ps (p + c + sizeof_rr_hdr_t + rh_rdlength hd) /\ d = flat ps
      | None => ~ cached_kind hd
      end ->
      mrecs msg (p + c + sizeof_rr_hdr_t + rh_rdlength hd) rs q -> mrecs msg p (x :: rs) q.

(** The types whose data are taken as they are. *)
Definition raw_type (type : Z) : bool :=
  negb (named_type type || in_types type [T_A; T_AAAA; T_NXT; T_NAPTR; T_IPSECKEY; T_RRSIG; T_NSEC]).

(** The data of a record that are certainly accepted: the layouts made of names and
    fields of fixed length, addresses, and data that are taken as they are.  Of the types NXT, NAPTR, IPSECKEY, RRSIG
    and NSEC this says nothing. *)
Definition readable (msg : list Z) (type : Z) (p len : nat) : Prop :=
  (named_type type = true /\ exists ps, layout type ps /\ data_at msg 255 p ps (p + len)) \/
  (type = T_A /\ len = 4) \/ (type = T_AAAA /\ len = 16) \/ raw_type type = true.

(** [clean_recs msg p n q]: [n] records that can be read stand at offset [p] and end at
    [q]; those that are not cached need not be readable. *)
Inductive clean_recs (msg : list Z) : nat -> nat -> nat -> Prop :=
  | cr_nil p : clean_recs msg p 0 p
  | cr_cons p N h c hd n q :
      name_at msg (length msg) p N h c -> wf_name N -> h <= 255 -> rr_header_at msg (p + c) = Some hd ->
      p + c + sizeof_rr_hdr_t + rh_rdlength hd <= length msg ->
      (cached_kind hd -> readable msg (rh_type hd) (p + c + sizeof_rr_hdr_t) (rh_rdlength hd)) ->
      clean_recs msg (p + c + sizeof_rr_hdr_t + rh_rdlength hd) n q -> clean_recs msg p (S n) q.

(** No record of which this is certain stands at [p]. *)
Definition stuck (msg : list Z) (p : nat) : Prop := forall q, ~ clean_recs msg p 1 q.

(** The array [ca'] has the records of [ca] and those of the message. *)
Definition collected (ca : list dns_cent) (rs : list mrec) (ca' : list dns_cent) : Prop :=
  forall K tp d, holds ca' K tp d <-> holds ca K tp d \/
    exists x, x ∈ rs /\ mr_data x = Some d /\ mr_type x = tp /\ fold_key (enc_name (mr_name x)) = K.

Lemma collected_nil ca : collected ca [] ca.
Proof. intros K tp d. split; [by left|]. by intros [?|(x & ?%not_elem_of_nil & _)]. Qed.

Lemma collected_skip ca x rs ca' : mr_data x = None -> collected ca rs ca' -> collected ca (x :: rs) ca'.
Proof.
  intros Hx Hc K tp d. rewrite (Hc K tp d). split; (intros [?|(y & Hy & Hd & ?)]; [by left|right]); [exists y; split; [by right|done]|].
  apply elem_of_cons in Hy as [->|Hy]; [congruence|by exists y].
Qed.

Lemma collected_cons ca x d rs ca1 ca' :
  mr_data x = Some d -> new_record ca (fold_key (enc_name (mr_name x))) (mr_type x) d ca1 -> collected ca1 rs ca' -> collected ca (x :: rs) ca'.
Proof.
  intros Hx Hn Hc K tp d'. rewrite (Hc K tp d'), (Hn K tp d'). split.
  - intros [[?|(-> & -> & ->)]|(y & Hy & ?)]; [by left|right; exists x; split; [by left|done]|right; exists y; split; [by right|done]].
  - intros [?|(y & Hy & Hd & <- & <-)]; [by left; left|]. apply elem_of_cons in Hy as [->|Hy]; [left; right; split_and!; congruence|right; by exists y].
Qed.

Lemma get32_total m p : p + 4 <= length m -> exists x, GETINT32 m p = Some x.
Proof.
  intros H. unfold GETINT32. destruct (rd_lt m p) as [a ->]; [lia|]. destruct (rd_lt m (p + 1)) as [b ->]; [lia|].
  destruct (rd_lt m (p + 2)) as [c ->]; [lia|]. destruct (rd_lt m (p + 3)) as [d ->]; [lia|]. by eexists.
Qed.

Lemma rr_header_total m p : p + sizeof_rr_hdr_t <= length m -> exists h, rr_header_at m p = Some h /\ rh_ttlp h = p + 4.
Proof.
  unfold sizeof_rr_hdr_t. intros H. unfold rr_header_at. destruct (get16_total m p) as [a ->]; [lia|].
  destruct (get16_total m (p + 2)) as [b ->]; [lia|]. destruct (get32_total m (p + 4)) as [c ->]; [lia|].
  destruct (get16_total m (p + 8)) as [d ->]; [lia|]. by eexists.
Qed.

Section Message.
Context (msg : list Z) (Hb : bytes msg) (Hlen : 4 <= length msg) (fl ts : Z).

(** A section of the message that is being read. *)
Definition sec_ok (s : section) : Prop := sc_ptr s + sc_lcnt s = length msg /\ arr_ok (sc_centa s).

(** The codes with which the reading may end. *)
Definition sec_code (rc : Z) (c : cache) : Prop := rc = RC_FORMAT \/ rc = RC_TRUNC \/ (rc = RC_FATALERR /\ ~ plenty c).

Definition step_post (retval : Z) (s : section) (c : cache) (r : (Z + Z) * section) (c' : cache) : Prop :=
  mem_step c c' /\
  match r.1 with
  | inl rc => sec_code rc c /\ arr_ok (sc_centa r.2) /\
      (rc <> RC_FATALERR -> sc_centa r.2 = sc_centa s)
  | inr rv => rv = retval /\ sec_ok r.2 /\ extends (sc_centa s) (sc_centa r.2) /\
      exists x, mrecs msg (sc_ptr s) [x] (sc_ptr r.2) /\
        match mr_data x with
        | Some d => new_record (sc_centa s) (fold_key (enc_name (mr_name x))) (mr_type x) d (sc_centa r.2)
        | None => sc_centa r.2 = sc_centa s
        end
  end.

Lemma decode_sized type ptr len c d c' : decode_rdata msg type ptr len c = Some (inr d, c') -> sized_data type d.
Proof.
  intros E. split; intros ->; unfold decode_rdata, addr_rdata, raw_rdata, liftR, returns in E; cbn in E.
  - destruct (Nat.eqb_spec len 4) as [->|]; [|done]. destruct (rd_bytes msg ptr 4) as [w|] eqn:Ew; [|done]. cbn in E. injection E as <- _.
    by apply rd_bytes_eq in Ew as [? _].
  - destruct (Nat.eqb_spec len 16) as [->|]; [|done]. destruct (rd_bytes msg ptr 16) as [w|] eqn:Ew; [|done]. cbn in E. injection E as <- _.
    by apply rd_bytes_eq in Ew as [? _].
Qed.

Lemma runs_store_rr N r h retval s c :
  sec_ok s -> wf_name N -> not_cached_type (rh_type h) = false -> rh_rdlength h <= sc_lcnt s ->
  runs (store_rr msg (enc_name N ++ r) h fl ts retval s) c (fun r c' => mem_step c c' /\
    match r.1 with
    | inl rc => sec_code rc c /\ arr_ok (sc_centa r.2) /\ (rc <> RC_FATALERR -> sc_centa r.2 = sc_centa s)
    | inr rv => rv = retval /\ arr_ok (sc_centa r.2) /\ r.2 = sc_set_centa (sc_centa r.2) s /\ extends (sc_centa s) (sc_centa r.2) /\
        exists d ps H, data_at msg H (sc_ptr s) ps (sc_ptr s + rh_rdlength h) /\ d = flat ps /\
          new_record (sc_centa s) (fold_key (enc_name N)) (rh_type h) d (sc_centa r.2)
    end).
Proof.
  intros [Hp Ha] HN Ht Hrd. unfold store_rr. apply runs_bind.
  destruct (runs_decode_rdata msg Hb (sc_ptr s) (rh_rdlength h) ltac:(lia) (rh_type h) c) as (res & c1 & E & Hm & Hres & _).
  exists res, c1. split; [exact E|]. destruct res as [rc|data].
  - apply runs_ret. split; [done|]. cbn [fst snd]. splits; [|done|done]. unfold sec_code. tauto.
  - destruct Hres as [Hw (ps & H & Hda & Hd)]. run_with runs_rr_to_cache; [done..|by eapply decode_sized|].
    intros [rc ca] c2 (Hm2 & Ha2 & Hcase). cbn [fst snd] in *. apply runs_ret.
    assert (Hms : mem_step c1 c2) by (split; [done|]; destruct Hcase as [(_ & H2 & _)|(_ & H2)]; [done|by intros ?%H2]).
    split; [eauto with pdnsd|]. cbn [fst snd sc_centa sc_set_centa].
    destruct Hcase as [(-> & Hpl & Hext & Hnew)|(-> & Hnp)].
    + cbn [RC_OK RC_FATALERR Z.eqb Pos.eqb]. splits; [done|done|done|done|by exists data, ps, H].
    + cbn [RC_FATALERR Z.eqb Pos.eqb]. splits; [|done|done]. right. right. split; [done|]. intros Hpl. by apply Hnp, Hm.
Qed.

Lemma runs_note_opt h s :
  rh_ttlp h + 3 <= length msg -> sec_ok s ->
  exists s', note_opt msg h s = Some s' /\ sec_ok s' /\ sc_ptr s' = sc_ptr s /\ sc_lcnt s' = sc_lcnt s /\ sc_centa s' = sc_centa s.
Proof.
  intros Hh Hs. unfold note_opt. destruct (sc_numopt s =? 0); [|by eexists].
  destruct (rd_lt msg (rh_ttlp h)) as [t0 ->]; [lia|]. destruct (rd_lt msg (rh_ttlp h + 1)) as [t1 ->]; [lia|].
  destruct (rd_lt msg (rh_ttlp h + 2)) as [t2 ->]; [lia|]. destruct (rd_lt msg 3) as [f ->]; [lia|]. by eexists.
Qed.

Lemma sec_ok_move n s : n <= sc_lcnt s -> sec_ok s -> sec_ok (sc_move n s).
Proof. intros Hn [Hp Ha]. split; [cbn; lia|done]. Qed.

Lemma runs_rrs2cent_step retval s c : sec_ok s -> runs (rrs2cent_step msg fl ts retval s) c (step_post retval s c).
Proof.
  intros Hs. pose proof Hs as [Hp Ha]. unfold rrs2cent_step. destruct (decompress_cases msg (sc_ptr s) (sc_lcnt s) Hb Hp) as (d & Hd & Hcases).
  run_lift; [exact Hd|].
  destruct Hcases as [(Hrc & N & h & k & T & Hna & HN & Hk & Hsrc & Hdsz & Htgt & _)|(Hrc & _)].
  2:{ assert (E : negb (dr_rc d =? RC_OK)%Z = true) by (destruct Hrc as [->| ->]; done). rewrite E.
      apply runs_ret. split; [auto with pdnsd|]. cbn [fst snd]. splits; [|done|done]. unfold sec_code. tauto. }
  rewrite Hrc, Hsrc, Hdsz. cbn [RC_OK Z.eqb negb]. cbv zeta. set (s1 := sc_at (sc_ptr s + k) (sc_lcnt s - k) s).
  assert (Hs1 : sec_ok s1) by (split; [cbn; lia|done]).
  assert (Htr : forall s', sc_centa s' = sc_centa s -> step_post retval s c (inl RC_TRUNC, s') c).
  { intros s' E. split; [auto with pdnsd|]. cbn [fst snd]. rewrite E. splits; [|done|done]. right. by left. }
  destruct (sc_lcnt s1 <? sizeof_rr_hdr_t) eqn:E1; boolp; [by apply runs_ret, Htr|].
  destruct (rr_header_total msg (sc_ptr s1)) as (hd & Hhd & Httl); [destruct Hs1; lia|]. run_lift; [exact Hhd|].
  set (s2 := sc_move sizeof_rr_hdr_t s1). assert (Hs2 : sec_ok s2) by (by apply sec_ok_move).
  destruct (sc_lcnt s2 <? rh_rdlength hd) eqn:E2; boolp; [by apply runs_ret, Htr|].
  assert (Hin : sc_ptr s2 + rh_rdlength hd <= length msg) by (destruct Hs2; lia).
  assert (Hskip : forall s3, ~ cached_kind hd -> sec_ok s3 -> sc_ptr s3 = sc_ptr s2 -> sc_lcnt s3 = sc_lcnt s2 -> sc_centa s3 = sc_centa s ->
    step_post retval s c (inr retval, sc_move (rh_rdlength hd) s3) c).
  { intros s3 Hn Hs3 Ep El Ec. split; [auto with pdnsd|]. cbn [fst snd]. splits; [done|apply sec_ok_move; [lia|done]|cbn; rewrite Ec; apply extends_refl|].
    exists {| mr_name := N; mr_type := rh_type hd; mr_class := rh_class hd; mr_ttl := rh_ttl hd; mr_data := None |}. split; [|done].
    cbn [sc_ptr sc_move]. rewrite Ep. eapply (mr_cons msg (sc_ptr s) N h k hd); try done. constructor. }
  destruct (rh_type hd =? T_OPT)%Z eqn:E3; boolp.
  { destruct (runs_note_opt hd s2) as (s3 & E & Hs3 & Hp3 & Hl3 & Hc3); [rewrite Httl; destruct Hs1; unfold sizeof_rr_hdr_t in *; lia|done|].
    run_lift; [exact E|]. apply runs_ret. apply Hskip; try done. by intros [? _]. }
  destruct (negb (not_cached_type (rh_type hd) || negb (rh_class hd =? C_IN)%Z)) eqn:E4.
  2:{ apply runs_ret, Hskip; try done. intros (_ & Hn & Hcl). rewrite Hn, Hcl in E4. discriminate E4. }
  apply negb_true_iff, orb_false_iff in E4 as [E4 E5]. apply negb_false_iff, Z.eqb_eq in E5.
  rewrite Htgt. run_with runs_store_rr; [done..|]. intros [r s3] c' [Hm H]. cbn [fst snd] in *. apply runs_ret. split; [done|]. cbn [fst snd].
  destruct r as [rc|rv]; [done|]. destruct H as (-> & Ha3 & E & Hext & dd & ps & H & Hda & Hdd & Hnew).
  assert (Hs3 : sec_ok s3) by (rewrite E; split; [apply Hs2|done]).
  splits; [done|apply sec_ok_move; [rewrite E; cbn; cbn in E2; lia|done]|done|].
  exists {| mr_name := N; mr_type := rh_type hd; mr_class := rh_class hd; mr_ttl := rh_ttl hd; mr_data := Some dd |}. split; [|done].
  rewrite E. eapply (mr_cons msg (sc_ptr s) N h k hd); try done; [|constructor]. cbn [mr_data]. split; [done|by exists ps, H].
Qed.

Lemma decode_raw type ptr len : raw_type type = true -> decode_rdata msg type ptr len = raw_rdata msg ptr len.
Proof.
  unfold raw_type, named_type. intros H. apply negb_true_iff in H. repeat (apply orb_false_iff in H as [H ?]). unfold in_types in *. cbn [existsb] in *.
  repeat match goal with E : _ || _ = false |- _ => apply orb_false_iff in E as [? ?] end.
  unfold decode_rdata, in_types. cbn [existsb]. by repeat match goal with E : (type =? _)%Z = false |- _ => rewrite E; clear E end.
Qed.

Lemma decode_readable type ptr len c :
  ptr + len <= length msg -> readable msg type ptr len -> exists d c', decode_rdata msg type ptr len c = Some (inr d, c').
Proof.
  intros Hend Hr. destruct (runs_decode_rdata msg Hb ptr len Hend type c) as (r & c' & E & _ & Hres & Hcomp).
  destruct Hr as [(Hn & ps & Hlay & Hda)|Hr].
  - rewrite (Hcomp Hn ps Hlay Hda) in E. by eexists _, _.
  - destruct (rd_bytes_some msg ptr len Hend) as [w Hw]. exists w, c. destruct Hr as [[-> ->]|[[-> ->]|Hraw]]; [..|rewrite (decode_raw type ptr len Hraw)];
      unfold decode_rdata, addr_rdata, raw_rdata, liftR; cbn [Z.eqb T_A T_AAAA T_SOA Pos.eqb in_types existsb orb negb Nat.eqb]; rewrite Hw; done.
Qed.

(** Such a record is read. *)
Lemma runs_store_clean N T h retval s c :
  sec_ok s -> wf_name N -> not_cached_type (rh_type h) = false -> rh_rdlength h <= sc_lcnt s ->
  readable msg (rh_type h) (sc_ptr s) (rh_rdlength h) ->
  runs (store_rr msg (enc_name N ++ T) h fl ts retval s) c (fun r _ => (exists rv, r.1 = inr rv) \/ (r.1 = inl RC_FATALERR /\ ~ plenty c)).
Proof.
  intros [Hp Ha] HN Ht Hrd Hr. unfold store_rr. apply runs_bind.
  destruct (decode_readable (rh_type h) (sc_ptr s) (rh_rdlength h) c ltac:(lia) Hr) as (d & c1 & Ed).
  destruct (runs_decode_rdata msg Hb (sc_ptr s) (rh_rdlength h) ltac:(lia) (rh_type h) c) as (r & c1' & E & Hm & Hres & _).
  rewrite Ed in E. injection E as <- <-. exists (inr d), c1. split; [exact Ed|]. destruct Hres as [Hw _].
  run_with runs_rr_to_cache; [done..|by eapply decode_sized|]. intros [rc ca] c2 (_ & _ & Hcase). cbn [fst snd] in *. apply runs_ret. cbn [fst].
  destruct Hcase as [(-> & _)|(-> & Hnp)]; [left; by eexists|right]. split; [done|]. intros Hpl. by apply Hnp, Hm.
Qed.

Lemma runs_step_clean retval s c n q :
  sec_ok s -> clean_recs msg (sc_ptr s) (S n) q ->
  runs (rrs2cent_step msg fl ts retval s) c (fun r _ => (exists rv, r.1 = inr rv) \/ (r.1 = inl RC_FATALERR /\ ~ plenty c)).
Proof.
  intros Hs Hcl. inversion Hcl as [|? N h k hd ? ? Hna HN Hh Hhd Hin Hrd Hrest Heq]; subst. pose proof Hs as [Hsp _].
  unfold rrs2cent_step. destruct (decompress_cases msg (sc_ptr s) (sc_lcnt s) Hb Hsp) as (d & Hd & Hcases). run_lift; [exact Hd|].
  destruct Hcases as [(Hrc & N' & h' & k' & T & Hna' & HN' & Hk & Hsrc & Hdsz & Htgt & _)|(_ & _ & _ & Hno)]; [|by destruct (Hno N h k)].
  destruct (name_at_det _ _ _ _ _ _ Hna _ _ _ Hna') as (-> & -> & ->).
  rewrite Hrc, Hsrc, Hdsz. cbn [RC_OK Z.eqb negb]. cbv zeta. set (s1 := sc_at (sc_ptr s + k) (sc_lcnt s - k) s).
  assert (Hl1 : sc_ptr s1 + sc_lcnt s1 = length msg) by (cbn; lia). change (sc_ptr s + k) with (sc_ptr s1) in Hhd, Hin, Hrd.
  bool_false (sc_lcnt s1 <? sizeof_rr_hdr_t). run_lift; [exact Hhd|]. set (s2 := sc_move sizeof_rr_hdr_t s1).
  assert (Hl2 : sc_ptr s2 + sc_lcnt s2 = length msg) by (cbn in Hl1, Hin |- *; lia). change (sc_ptr s1 + sizeof_rr_hdr_t) with (sc_ptr s2) in Hin, Hrd.
  bool_false (sc_lcnt s2 <? rh_rdlength hd).
  destruct (rh_type hd =? T_OPT)%Z eqn:E3; boolp.
  { destruct (runs_note_opt hd s2) as (s3 & E & _); [|by split; [|apply Hs]|run_lift; [exact E|]; apply runs_ret; left; by eexists].
    destruct (rr_header_total msg (sc_ptr s1)) as (hd' & Hhd' & Ht); [cbn in Hl2, Hin |- *; lia|]. rewrite Hhd in Hhd'. injection Hhd' as <-. rewrite Ht.
    cbn in Hin |- *. unfold sizeof_rr_hdr_t in *. lia. }
  destruct (negb _) eqn:E4; [|apply runs_ret; left; by eexists].
  apply negb_true_iff, orb_false_iff in E4 as [E4 E5]. apply negb_false_iff, Z.eqb_eq in E5.
  rewrite Htgt. apply runs_bind. eapply runs_weaken; [apply runs_store_clean; [by split; [|apply Hs]|done|done|lia|by apply Hrd]|].
  cbn beta. intros [r s3] c' [[rv E]|[E Hn]]; cbn [fst] in E; subst r; apply runs_ret; [left; by eexists|by right].
Qed.

(** A record at which reading stops, unless memory ran out, cannot be read. *)
Lemma step_stuck retval s c rc s' c' : sec_ok s -> rrs2cent_step msg fl ts retval s c = Some ((inl rc, s'), c') -> rc <> RC_FATALERR -> stuck msg (sc_ptr s).
Proof.
  intros Hs E Hne q Hq. destruct (runs_step_clean retval s c 0 q Hs Hq) as (r & c2 & E2 & Hr). rewrite E in E2. injection E2 as <- <-.
  destruct Hr as [[rv ?]|[[= ?] _]]; done.
Qed.

(** What reading [n] records yields. *)
Definition read_post (n : nat) (retval : Z) (s : section) (c : cache) (r : Z * section) (c' : cache) : Prop :=
  mem_step c c' /\ arr_ok (sc_centa r.2) /\
  (r.1 = retval \/ sec_code r.1 c) /\
  exists rs q, mrecs msg (sc_ptr s) rs q /\ length rs <= n /\
    (r.1 = retval /\ length rs = n /\ sec_ok r.2 /\ q = sc_ptr r.2 /\ extends (sc_centa s) (sc_centa r.2) /\
       collected (sc_centa s) rs (sc_centa r.2) \/
     sec_code r.1 c /\ length rs < n /\
       (r.1 <> RC_FATALERR -> stuck msg q /\ extends (sc_centa s) (sc_centa r.2) /\ collected (sc_centa s) rs (sc_centa r.2))).

Lemma mrecs_app p rs q rs' q' : mrecs msg p rs q -> mrecs msg q rs' q' -> mrecs msg p (rs ++ rs') q'.
Proof. induction 1; intros; cbn [app]; [done|]. eapply mr_cons; eauto. Qed.

Lemma runs_rrs2cent n retval : forall s c, sec_ok s -> runs (rrs2cent n msg fl ts retval s) c (read_post n retval s c).
Proof.
  induction n as [|n IH]; intros s c Hs; cbn [rrs2cent].
  { apply runs_ret. split; [auto with pdnsd|]. cbn [fst snd]. splits; [apply Hs|by left|]. exists [], (sc_ptr s). splits; [constructor|done|].
    left. splits; [done|done|done|done|apply extends_refl|apply collected_nil]. }
  apply runs_bind. destruct (runs_rrs2cent_step retval s c Hs) as ([r s1] & c1 & E1 & Hm & H). exists (r, s1), c1. split; [exact E1|]. cbn [fst snd] in H.
  destruct r as [rc|rv].
  - apply runs_ret. destruct H as (Hcode & Ha & Hsame). split; [done|]. cbn [fst snd]. splits; [done|by right|]. exists [], (sc_ptr s). splits; [constructor|cbn; lia|].
    right. splits; [done|cbn; lia|]. intros Hne. rewrite (Hsame Hne). splits; [by eapply step_stuck|apply extends_refl|apply collected_nil].
  - destruct H as (-> & Hs1 & Hext & x & Hx & Hnew). eapply runs_weaken; [by apply IH|].
    intros r c2 (Hm2 & Ha2 & Hcode & rs & q & Hrs & Hlen' & Hcase).
    assert (Hsc : sec_code r.1 c1 -> sec_code r.1 c) by (unfold sec_code; intros [?|[?|[? Hn]]]; [by left|by right; left|right; right; split; [done|]; intros ?%Hm; done]).
    split; [eauto with pdnsd|]. splits; [done|tauto|]. exists ([x] ++ rs), q. splits; [by eapply mrecs_app|cbn; lia|].
    assert (Hcol : forall ca, collected (sc_centa s1) rs ca -> collected (sc_centa s) (x :: rs) ca).
    { intros ca Hca. destruct (mr_data x) as [d|] eqn:Ed; [by eapply collected_cons|]. apply collected_skip; [done|]. by rewrite <- Hnew. }
    destruct Hcase as [(-> & Hl & Hsec & -> & He & Hc)|(Hcd & Hl & He)].
    + left. splits; [done|cbn; lia|done|done|by eapply extends_trans|by apply Hcol].
    + right. splits; [by apply Hsc|cbn; lia|]. intros Hne. destruct (He Hne) as (He0 & He1 & He2). splits; [done|by eapply extends_trans|by apply Hcol].
Qed.
Lemma step_clean retval s c n q :
  sec_ok s -> plenty c -> clean_recs msg (sc_ptr s) (S n) q ->
  runs (rrs2cent_step msg fl ts retval s) c (fun r c' => step_post retval s c r c' /\ plenty c' /\
    r.1 = inr retval /\ clean_recs msg (sc_ptr r.2) n q).
Proof.
  intros Hs Hp Hcl. destruct (runs_rrs2cent_step retval s c Hs) as (r & c' & E & Hpost). exists r, c'. split; [exact E|].
  split; [exact Hpost|]. destruct Hpost as [Hm Hpost]. split; [by apply Hm|].
  destruct (runs_step_clean retval s c n q Hs Hcl) as (r' & c2 & E' & [[rv Er]|[_ Hnp]]); [|done]. rewrite E in E'. injection E' as <- <-.
  rewrite Er in Hpost. destruct Hpost as (-> & Hs' & _ & x & Hx & _). split; [done|].
  inversion Hcl as [|? N h k hd ? ? Hna HN Hh Hhd Hin Hrd Hrest Heq]; subst.
  inversion Hx as [|? N' h' k' hd' ? ? ? Hna' HN' Hhd' Hin' _ _ _ _ _ Hnil]; subst.
  destruct (name_at_det _ _ _ _ _ _ Hna _ _ _ Hna') as (-> & -> & ->). rewrite Hhd in Hhd'. injection Hhd' as <-.
  inversion Hnil; subst. congruence.
Qed.

Lemma runs_clean n retval : forall s c q,
  sec_ok s -> plenty c -> clean_recs msg (sc_ptr s) n q ->
  runs (rrs2cent n msg fl ts retval s) c (fun r c' => r.1 = retval /\ sc_ptr r.2 = q /\ plenty c').
Proof.
  induction n as [|n IH]; intros s c q Hs Hp Hcl; cbn [rrs2cent]; [apply runs_ret; by inversion Hcl|].
  apply runs_bind. eapply runs_weaken; [by apply step_clean|]. intros [r1 s1] c1 (Hpost & Hp1 & Hr & Hcl'). cbn [fst snd] in *. subst r1.
  destruct Hpost as [_ (_ & Hs1 & _)]. by apply IH.
Qed.
End Message.
End Collect.
