(* ===== verification/ReplyThms.v ===== *)
(** The theorems about the reading of replies. *)
From S2P Require Import Prelude Names DnsName Compress RrTypes HashTab RrList Cent CentSpec Cache CacheInv CacheOps CacheThms.
From S2P Require Import Answer AnswerRr AnswerSet Query QueryDecode QuerySafe QueryThms Reply ReplyData ReplySpec.

Section Theorems.
Context {P : Platform}.


(** The [switch] of [rrs2cent] over the types turns the data of a record into the form
    the cache keeps, for any message and any length: it refuses malformed data with
    [RC_FORMAT], fails otherwise only for lack of memory, and what it accepts is made of
    the names (decompressed) and the bytes that stand in the message from the first to the
    last byte of the record, and has the layout of its type, so that it can be written into a reply later.
    Well-formed data of the types that consist of names and fixed fields are accepted. *)
Theorem decode_rdata_correct (msg : list Z) (type : Z) (ptr rdlength : nat) (c : cache) :
  bytes msg -> ptr + rdlength <= length msg ->
  runs (decode_rdata msg type ptr rdlength : M _) c (fun r c' =>
    mem_only c c' /\
    match r with
    | inl rc => rc = RC_FORMAT \/ (rc = RC_FATALERR /\ ~ plenty c)
    | inr data => (exists ps, layout type ps /\ Forall piece_ok ps /\ data = flat ps) /\
        exists ps H, data_at msg H ptr ps (ptr + rdlength) /\ data = flat ps
    end /\
    (named_type type = true -> forall ps, layout type ps -> data_at msg 255 ptr ps (ptr + rdlength) -> r = inr (flat ps))).
Proof.
  intros Hb Hend. eapply runs_weaken; [by apply runs_decode_rdata|]. intros r c' ([Hm _] & Hr & Hcomp). splits; [done| |done].
  destruct r as [rc|d]; [done|]. destruct Hr as [(ps & [Hl Hok] & Hd) Hrest]. split; [by exists ps|done].
Qed.
End Theorems.

(** ** Examples *)

#[local] Existing Instance LP64.

(** A reply to the query for the addresses of "a", with two records whose names point to
    the question: the address 10.0.0.1, and a mail exchange "m.a". *)
Definition demo_reply : list Z :=
  ([0; 7; 129; 128; 0; 1; 0; 2; 0; 0; 0; 0; 1; 97; 0; 0; 1; 0; 1;
   192; 12; 0; 1; 0; 1; 0; 0; 0; 60; 0; 4; 10; 0; 0; 1;
   192; 12; 0; 15; 0; 1; 0; 0; 0; 60; 0; 6; 0; 5; 1; 109; 192; 12])%Z.

Lemma demo_reply_bytes : bytes demo_reply.
Proof. apply (bool_decide_unpack _). vm_compute. exact I. Qed.

Definition demo_section : section :=
  {| sc_ptr := 19; sc_lcnt := 34; sc_centa := []; sc_numopt := 0; sc_ep := {| ed_udpsize := 0; ed_rcode := 0; ed_version := 0; ed_do_flg := 0 |} |}.


Lemma decode_rdata_correct_witness :
  runs (decode_rdata demo_reply T_MX 47 6 : M _) fresh_cache (fun r _ => r = inr [0; 5; 1; 109; 1; 97; 0]%Z).
Proof.
  destruct (decode_rdata_correct demo_reply T_MX 47 6 fresh_cache demo_reply_bytes) as (r & c' & Hrun & _ & _ & Hcomp); [vm_compute; lia|].
  exists r, c'. split; [exact Hrun|]. vm_compute in Hrun. by injection Hrun as <- _.
Defined.
