(* ===== verification/Disk.v ===== *)
(** The cache file: [read_disk_cache], [write_rrset] and [write_disk_cache] of
    [pdnsd/src/cache.c].

    A file is the list of its bytes.  Reading stops for good at the first item that is not there
    in full, so a read error is the same as a file that ends there.  Each write may fail after
    some of the bytes; the outcomes are an input.  Structures are written as they are in memory:
    packed, integers with the least significant byte first, and [time_t] a signed [long], as on
    all Android targets.  Messages to the log are left out, and locks are not modelled. *)
From S2P Require Import Prelude Names RrTypes HashTab RrList Cent Cache Answer.

(** ** Structures in files *)

Fixpoint le_bytes (n : nat) (v : Z) : list Z :=
  match n with
  | O => []
  | S n' => (v mod 256)%Z :: le_bytes n' (v / 256)
  end.

Fixpoint le_value (l : list Z) : Z :=
  match l with
  | [] => 0
  | b :: l' => (b + 256 * le_value l')%Z
  end.

(** The member of [n] bytes at offset [off] of a structure, unsigned and signed. *)
Definition u_field (off n : nat) (l : list Z) : Z := le_value (take n (drop off l)).
Definition s_field (off n : nat) (l : list Z) : Z :=
  let v := u_field off n l in if (2 * v <? 256 ^ Z.of_nat n)%Z then v else (v - 256 ^ Z.of_nat n)%Z.

(** A type with its layout in a file. *)
Class Stored (A : Type) := {
  sizeof : nat;
  to_bytes : A -> list Z;
  of_bytes : list Z -> A;
}.
#[global] Arguments sizeof A {_}.

Record rr_fbucket := { rdlen : Z }.
Record rr_fset := { sh_tp : Z; sh_num_rr : Z; sh_flags : Z; sh_ttl : Z; sh_ts : Z }.
Record dns_file := { fe_qlen : Z; fe_num_rrs : Z; fe_flags : Z; fe_c_ns : Z; fe_c_soa : Z }.
Record dom_fttlts := { ft_ttl : Z; ft_ts : Z }.

Section Layouts.
Context {P : Platform}.

Definition sizeof_long : nat := Z.to_nat (ul_bits / 8).
Definition sizeof_time_t : nat := sizeof_long.

#[export] Instance stored_fbucket : Stored rr_fbucket := {|
  sizeof := 2;
  to_bytes x := le_bytes 2 (rdlen x);
  of_bytes l := {| rdlen := u_field 0 2 l |} |}.

#[export] Instance stored_fset : Stored rr_fset := {|
  sizeof := 4 + (sizeof_time_t + sizeof_time_t);
  to_bytes x := le_bytes 1 (sh_tp x) ++ le_bytes 1 (sh_num_rr x) ++ le_bytes 2 (sh_flags x) ++
    le_bytes sizeof_time_t (sh_ttl x) ++ le_bytes sizeof_time_t (sh_ts x);
  of_bytes l := {| sh_tp := u_field 0 1 l; sh_num_rr := u_field 1 1 l; sh_flags := u_field 2 2 l;
    sh_ttl := s_field 4 sizeof_time_t l; sh_ts := s_field (4 + sizeof_time_t) sizeof_time_t l |} |}.

#[export] Instance stored_file : Stored dns_file := {|
  sizeof := 6;
  to_bytes x := le_bytes 1 (fe_qlen x) ++ le_bytes 1 (fe_num_rrs x) ++ le_bytes 2 (fe_flags x) ++
    le_bytes 1 (fe_c_ns x) ++ le_bytes 1 (fe_c_soa x);
  of_bytes l := {| fe_qlen := u_field 0 1 l; fe_num_rrs := u_field 1 1 l; fe_flags := u_field 2 2 l;
    fe_c_ns := u_field 4 1 l; fe_c_soa := u_field 5 1 l |} |}.

#[export] Instance stored_fttlts : Stored dom_fttlts := {|
  sizeof := sizeof_time_t + sizeof_time_t;
  to_bytes x := le_bytes sizeof_time_t (ft_ttl x) ++ le_bytes sizeof_time_t (ft_ts x);
  of_bytes l := {| ft_ttl := s_field 0 sizeof_time_t l; ft_ts := s_field sizeof_time_t sizeof_time_t l |} |}.

(** [cachverid], the characters of "pd13". *)
Definition cachverid : list Z := [112; 100; 49; 51]%Z.

(** ** Reading *)

(** [fread(p,n,1,f)]: the item and the rest of the file, or none when it is not there. *)
Definition fread (n : nat) (f : list Z) : option (list Z * list Z) :=
  if (n <=? length f) then Some (take n f, drop n f) else None.

(** [fread(&x,sizeof(x),1,f)]. *)
Definition fread_struct {A} `{Stored A} (f : list Z) : option (A * list Z) :=
  '(b, f) ← fread (sizeof A) f; Some (of_bytes b, f).

(** Where [read_disk_cache] jumps to when it gives up, with the entry under construction
    when that is freed there. *)
Inductive stop :=
  | free_data_fclose
  | free_cent_data_fclose (ce : dns_cent)
  | free_cent_data_fclose_exit (ce : dns_cent)
  | free_data_fclose_exit.

Definition tryM {A B} (m : M (stop + A)) (k : A -> M (stop + B)) : M (stop + B) :=
  r ← m;
  match r with
  | inl e => mret (inl e)
  | inr a => k a
  end.

Definition goto {A} (e : stop) : M (stop + A) := mret (inl e).
Definition go {A} (a : A) : M (stop + A) := mret (inr a).
Definition need {A} (e : stop) (o : option A) : M (stop + A) :=
  match o with Some a => go a | None => goto e end.

(** One record; [data] is the buffer for record data, [dtsz] its length. *)
Definition read_rr (sh : rr_fset) (ce : dns_cent) (data f : list Z) : M (stop + (dns_cent * list Z * list Z)) :=
  tryM (need (free_cent_data_fclose ce) (fread_struct f)) (fun '(rr, f) =>
  let n := Z.to_nat (rdlen rr) in
  tryM (if (length data <? n) then
          ok ← malloc;
          if (ok : bool) then go (data ++ replicate (n - length data) 0%Z) else goto (free_cent_data_fclose_exit ce)
        else go data) (fun data =>
  tryM (if (n =? 0) then go (data, f)
        else tryM (need (free_cent_data_fclose ce) (fread n f)) (fun '(b, f) =>
             data ← liftM (wr_bytes data 0 b);
             go (data, f))) (fun '(data, f) =>
  d ← liftM (rd_bytes data 0 n);
  '(ok, ce) ← add_cent_rr ce (sh_tp sh) (sh_ttl sh) (sh_ts sh) (sh_flags sh) d;
  if (ok : bool) then go (ce, data, f) else goto (free_cent_data_fclose_exit ce)))).

Fixpoint read_rrs (num_rr : nat) (sh : rr_fset) (ce : dns_cent) (data f : list Z)
    : M (stop + (dns_cent * list Z * list Z)) :=
  match num_rr with
  | O => go (ce, data, f)
  | S n => tryM (read_rr sh ce data f) (fun '(ce, data, f) => read_rrs n sh ce data f)
  end.

(** One set. *)
Definition read_rrset (prevtp : Z) (ce : dns_cent) (data f : list Z) : M (stop + (Z * dns_cent * list Z * list Z)) :=
  tryM (need (free_cent_data_fclose ce) (fread_struct f)) (fun '(sh, f) =>
  if not_cached_type (sh_tp sh) then goto free_data_fclose
  else if (sh_tp sh <=? prevtp)%Z then goto free_data_fclose
  else
    '(ok, ce) ← add_cent_rrset_by_type ce (sh_tp sh) (sh_ttl sh) (sh_ts sh) (sh_flags sh);
    if negb ok then goto (free_cent_data_fclose_exit ce)
    else
      tryM (read_rrs (Z.to_nat (sh_num_rr sh)) sh ce data f) (fun '(ce, data, f) =>
      go (sh_tp sh, ce, data, f))).

Fixpoint read_rrsets (num_rrs : nat) (prevtp : Z) (ce : dns_cent) (data f : list Z)
    : M (stop + (dns_cent * list Z * list Z)) :=
  match num_rrs with
  | O => go (ce, data, f)
  | S n => tryM (read_rrset prevtp ce data f) (fun '(tp, ce, data, f) => read_rrsets n tp ce data f)
  end.

(** The check of a name: whether its labels add up to [qlen]. *)
Fixpoint labels_fit (fuel : nat) (nb : list Z) (qlen i : nat) : option bool :=
  match fuel with
  | O => None
  | S fu =>
      if (i <? qlen) then
        lb ← rd nb i;
        if (lb =? 0)%Z || (63 <? lb)%Z then Some false
        else let i := i + Z.to_nat lb + 1 in
             if (qlen <? i) then Some false else labels_fit fu nb qlen i
      else Some true
  end.

(** The name in [nb[256]] without its last byte. *)
Definition read_name (qlen : nat) (f : list Z) : M (stop + (list Z * list Z)) :=
  let nb := replicate 256 0%Z in
  if (qlen =? 0) then go (nb, f)
  else
    tryM (need free_data_fclose (fread qlen f)) (fun '(b, f) =>
    nb ← liftM (wr_bytes nb 0 b);
    ok ← liftM (labels_fit (S qlen) nb qlen 0);
    if (ok : bool) then go (nb, f) else goto free_data_fclose).

Context (now : Z) (global : globals).

(** One entry, from its header to its addition to the cache. *)
Definition read_entry (data f : list Z) : M (stop + (list Z * list Z)) :=
  tryM (need free_data_fclose (fread_struct f)) (fun '(fe, f) =>
  tryM (if tst (fe_flags fe) DF_NEGATIVE then need free_data_fclose (fread_struct f)
        else go ({| ft_ttl := 0; ft_ts := 0 |}, f)) (fun '(fttlts, f) =>
  let qlen := Z.to_nat (fe_qlen fe) in
  tryM (read_name qlen f) (fun '(nb, f) =>
  nb ← liftM (wr nb qlen 0%Z);
  ce ← init_cent nb (ft_ttl fttlts) (ft_ts fttlts) (fe_flags fe);
  match ce with
  | None => goto free_data_fclose_exit
  | Some ce =>
      let ce := set_c_soa (fe_c_soa fe) (set_c_ns (fe_c_ns fe) ce) in
      tryM (read_rrsets (Z.to_nat (fe_num_rrs fe)) 0 ce data f) (fun '(ce, data, f) =>
      _ ← add_cache now global ce;
      _ ← free_cent ce;
      go (data, f))
  end))).

Fixpoint read_entries (fuel : nat) (cnt : Z) (data f : list Z) : M (stop + unit) :=
  match fuel with
  | O => liftM None
  | S fu =>
      if (0 <? cnt)%Z then
        tryM (read_entry data f) (fun '(data, f) => read_entries fu (cnt - 1)%Z data f)
      else go tt
  end.

(** The version identifier, the number of entries and the entries. *)
Definition read_file (f : list Z) : M (stop + unit) :=
  tryM (need free_data_fclose (fread (length cachverid) f)) (fun '(buf, f) =>
  if decide (buf = cachverid) then
    tryM (need free_data_fclose (fread sizeof_long f)) (fun '(cnt, f) =>
    read_entries (S (length f)) (le_value cnt) (replicate 512 0%Z) f)
  else goto free_data_fclose).

(** What happens at the places that are jumped to: whether [read_disk_cache] returns, which
    it does unless memory has run out. *)
Definition read_end (e : stop) : M bool :=
  match e with
  | free_data_fclose => mret true
  | free_cent_data_fclose ce => _ ← free_cent ce; mret true
  | free_cent_data_fclose_exit ce => _ ← free_cent ce; mret false
  | free_data_fclose_exit => mret false
  end.

(** The sort at the end. *)
Definition sort_cache : M unit :=
  s ← getM;
  if insert_sort s then mret tt
  else l ← liftM (sort_rrl (rrlent_ts s) (rrl s));
       modM (fun s => with_insert_sort true (with_rrl l s)).

(** [read_disk_cache]; there is no file when it cannot be opened.  The result is false when
    the program exits. *)
Definition read_disk_cache (file : option (list Z)) : M bool :=
  match file with
  | None => mret true
  | Some f =>
      ok ← malloc;
      if negb ok then mret false
      else
        _ ← modM (with_insert_sort false);
        r ← read_file f;
        returns ← read_end (match r with inl e => e | inr _ => free_data_fclose end);
        if (returns : bool) then _ ← sort_cache; mret true else mret false
  end.

(** ** Writing *)

(** A file that is being written: its contents, and for the next calls of [fwrite] whether
    they fail and after how many bytes; calls beyond the list succeed. *)
Record wfile := { contents : list Z; faults : list (option nat) }.

Definition fwrite (b : list Z) (f : wfile) : bool * wfile :=
  match faults f with
  | [] => (true, {| contents := contents f ++ b; faults := [] |})
  | None :: l => (true, {| contents := contents f ++ b; faults := l |})
  | Some k :: l => (false, {| contents := contents f ++ take k b; faults := l |})
  end.

(** The number of records that are written. *)
Fixpoint count_rrs (rrs : list (list Z)) (num_rr : nat) : nat :=
  match rrs with
  | [] => num_rr
  | _ :: rrs' => if (num_rr <? 255) then count_rrs rrs' (S num_rr) else num_rr
  end.

Fixpoint write_rrs (num_rr : nat) (rrs : list (list Z)) (f : wfile) : option (bool * wfile) :=
  match num_rr with
  | O => Some (true, f)
  | S n =>
      match rrs with
      | [] => None
      | rr :: rrs' =>
          let rf := {| rdlen := u16 (Z.of_nat (length rr)) |} in
          let '(ok, f) := fwrite (to_bytes rf) f in
          if negb ok then Some (false, f)
          else
            let '(ok, f) := if (rdlen rf =? 0)%Z then (true, f) else fwrite (take (Z.to_nat (rdlen rf)) rr) f in
            if negb ok then Some (false, f) else write_rrs n rrs' f
      end
  end.

Definition write_rrset (tp : Z) (rrs : rr_set) (f : wfile) : option (bool * wfile) :=
  let num_rr := count_rrs (rs_rrs rrs) 0 in
  let sh := {| sh_tp := tp; sh_num_rr := Z.of_nat num_rr; sh_flags := rs_flags rrs; sh_ttl := rs_ttl rrs; sh_ts := rs_ts rrs |} in
  let '(ok, f) := fwrite (to_bytes sh) f in
  if negb ok then Some (false, f) else write_rrs num_rr (rs_rrs rrs) f.

(** Whether an entry has a set that is not local. *)
Fixpoint has_foreign (le : dns_cent) (ixs : list nat) : option bool :=
  match ixs with
  | [] => Some false
  | j :: ixs' =>
      r ← rrarr_index le j;
      match r with
      | Some rs => if negb (tst (rs_flags rs) CF_LOCAL) then Some true else has_foreign le ixs'
      | None => has_foreign le ixs'
      end
  end.

(** Whether an entry is written. *)
Definition to_write (le : dns_cent) : option bool :=
  if tst (flags le) DF_NEGATIVE then Some (negb (tst (flags le) DF_LOCAL))
  else jlim ← rrarr_len le; has_foreign le (seq 0 jlim).

(** The count in [df.num_rrs], an [unsigned char]. *)
Fixpoint count_foreign (le : dns_cent) (ixs : list nat) (n : Z) : option Z :=
  match ixs with
  | [] => Some n
  | j :: ixs' =>
      r ← rrarr_index le j;
      count_foreign le ixs'
        (match r with Some rs => if negb (tst (rs_flags rs) CF_LOCAL) then u8 (n + 1) else n | None => n end)
  end.

(** The loop over [RRITERLIST], which has the length [NRRITERLIST]. *)
Fixpoint write_rrsets (le : dns_cent) (iterlist : list Z) (f : wfile) : option (bool * wfile) :=
  match iterlist with
  | [] => Some (true, f)
  | tp :: l =>
      r ← getrrset_eff le tp;
      match r with
      | Some rrset =>
          if negb (tst (rs_flags rrset) CF_LOCAL) then
            '(ok, f) ← write_rrset tp rrset f;
            if (ok : bool) then write_rrsets le l f else Some (false, f)
          else write_rrsets le l f
      | None => write_rrsets le l f
      end
  end.

(** The code behind the label [write_rrs]. *)
Definition write_entry (le : dns_cent) (f : wfile) : option (bool * wfile) :=
  len ← rhnlen (qname le);
  jlim ← rrarr_len le;
  n ← count_foreign le (seq 0 jlim) 0;
  let df := {| fe_qlen := u8 (Z.of_nat len - 1); fe_num_rrs := n; fe_flags := flags le; fe_c_ns := c_ns le; fe_c_soa := c_soa le |} in
  let '(ok, f) := fwrite (to_bytes df) f in
  if negb ok then Some (false, f)
  else
    '(ok, f) ← (if tst (flags le) DF_NEGATIVE then
                  match body le with
                  | Neg _ ttl ts => Some (fwrite (to_bytes {| ft_ttl := ttl; ft_ts := ts |}) f)
                  | Rr _ _ => None
                  end
                else Some (true, f));
    if negb ok then Some (false, f)
    else
      '(ok, f) ← (if (fe_qlen df =? 0)%Z then Some (true, f)
                  else q ← rd_bytes (qname le) 0 (Z.to_nat (fe_qlen df)); Some (fwrite q f));
      if negb ok then Some (false, f)
      else l ← rriterlist le; write_rrsets le l f.

(** The first loop over the hash table: the number of entries that are written, an
    [unsigned long]. *)
Fixpoint count_entries (s : cache) (ids : list positive) (en : Z) : option Z :=
  match ids with
  | [] => Some en
  | id :: ids' =>
      le ← cents s !! id;
      w ← to_write le;
      count_entries s ids' (if (w : bool) then ((en + 1) mod 2 ^ ul_bits)%Z else en)
  end.

(** The second loop. *)
Fixpoint write_entries (s : cache) (ids : list positive) (f : wfile) : option wfile :=
  match ids with
  | [] => Some f
  | id :: ids' =>
      le ← cents s !! id;
      w ← to_write le;
      if (w : bool) then
        '(ok, f) ← write_entry le f;
        if (ok : bool) then write_entries s ids' f else Some f
      else write_entries s ids' f
  end.

(** The loops visit the entries of the hash table. *)
Definition all_entries (s : cache) : list positive :=
  fetch_all (S (length (concat (buckets s)))) (buckets s) {| pos_bucket := 0; pos_ent := [] |}.

(** [write_disk_cache]: [opened] tells whether the file could be opened; the result is what
    is in the file at the end. *)
Definition write_disk_cache (opened : bool) (outcomes : list (option nat)) : M (option (list Z)) :=
  _ ← purge_cache now (g_perm_cache global * 1024) false;
  if negb opened then mret None
  else
    s ← getM;
    let '(ok, f) := fwrite cachverid {| contents := []; faults := outcomes |} in
    if negb ok then mret (Some (contents f))
    else
      en ← liftM (count_entries s (all_entries s) 0);
      let '(ok, f) := fwrite (le_bytes sizeof_long en) f in
      if negb ok then mret (Some (contents f))
      else f ← liftM (write_entries s (all_entries s) f); mret (Some (contents f)).
End Layouts.
