(* ===== verification/DiskSpec.v ===== *)
(** Reading the cache file (Disk) is safe: the layouts of the structures, and what the
    reader does to the cache for any contents of the file. *)
From S2P Require Import Prelude Names DnsName Compress RrTypes HashTab RrList Cent CentSpec Cache CacheInv CachePurge CacheAdd CacheOps.
From S2P Require Import Answer AnswerRr AnswerSet Query QueryDecode QuerySafe Reply ReplyData ReplySpec Disk.

(** ** Integers in files *)

Lemma length_le_bytes n : forall v, length (le_bytes n v) = n.
Proof. induction n as [|n IH]; intros v; [done|]. cbn [le_bytes length]. by rewrite IH. Qed.

Lemma le_value_bytes n : forall v, le_value (le_bytes n v) = (v mod 256 ^ Z.of_nat n)%Z.
Proof.
  induction n as [|n IH]; intros v; cbn [le_bytes le_value].
  - change (256 ^ Z.of_nat 0)%Z with 1%Z. by rewrite Z.mod_1_r.
  - rewrite IH, Nat2Z.inj_succ, Z.pow_succ_r by lia. rewrite Z.rem_mul_r by lia. lia.
Qed.

Lemma le_value_bound l : bytes l -> (0 <= le_value l < 256 ^ Z.of_nat (length l))%Z.
Proof.
  induction 1 as [|b l Hb _ IH]; cbn [le_value length]; [lia|]. unfold is_byte in Hb.
  rewrite Nat2Z.inj_succ, Z.pow_succ_r by lia. lia.
Qed.

Lemma u_field_at pre n v post : u_field (length pre) n (pre ++ le_bytes n v ++ post) = (v mod 256 ^ Z.of_nat n)%Z.
Proof. unfold u_field. rewrite drop_app_length, take_app_length' by (by rewrite length_le_bytes). apply le_value_bytes. Qed.

Definition fits_u (n : nat) (v : Z) : Prop := (0 <= v < 256 ^ Z.of_nat n)%Z.
Definition fits_s (n : nat) (v : Z) : Prop := (- 256 ^ Z.of_nat n <= 2 * v < 256 ^ Z.of_nat n)%Z.

Lemma u_field_fits off pre n v post : length pre = off -> fits_u n v -> u_field off n (pre ++ le_bytes n v ++ post) = v.
Proof. intros <- Hv. rewrite u_field_at. by apply Z.mod_small. Qed.

Lemma s_field_fits off pre n v post : length pre = off -> fits_s n v -> s_field off n (pre ++ le_bytes n v ++ post) = v.
Proof.
  intros <- [Hl Hu]. unfold s_field. rewrite u_field_at. set (w := (256 ^ Z.of_nat n)%Z) in *.
  assert (0 < w)%Z by (unfold w; lia). destruct (decide (0 <= v)%Z).
  - rewrite Z.mod_small by lia. by bool_true (2 * v <? w)%Z.
  - replace (v mod w)%Z with (v + w)%Z by (apply Z.mod_unique with (-1)%Z; lia). bool_false (2 * (v + w) <? w)%Z. lia.
Qed.

(** What a layout promises for values in the range of the members. *)
Class StoredOk (A : Type) {St : Stored A} (F : A -> Prop) : Prop := {
  length_to_bytes : forall x, length (to_bytes x) = sizeof A;
  of_to_bytes : forall x, F x -> of_bytes (to_bytes x) = x;
}.

Section Layouts.
Context {P : Platform}.

Definition fits_fbucket (x : rr_fbucket) : Prop := fits_u 2 (rdlen x).
Definition fits_fset (x : rr_fset) : Prop :=
  fits_u 1 (sh_tp x) /\ fits_u 1 (sh_num_rr x) /\ fits_u 2 (sh_flags x) /\
  fits_s sizeof_time_t (sh_ttl x) /\ fits_s sizeof_time_t (sh_ts x).
Definition fits_file (x : dns_file) : Prop :=
  fits_u 1 (fe_qlen x) /\ fits_u 1 (fe_num_rrs x) /\ fits_u 2 (fe_flags x) /\ fits_u 1 (fe_c_ns x) /\ fits_u 1 (fe_c_soa x).
Definition fits_fttlts (x : dom_fttlts) : Prop := fits_s sizeof_time_t (ft_ttl x) /\ fits_s sizeof_time_t (ft_ts x).

#[export] Instance fbucket_ok : StoredOk rr_fbucket fits_fbucket.
Proof.
  split; [intros x; cbn [to_bytes stored_fbucket]; apply length_le_bytes|]. intros [n] Hn. cbn [to_bytes of_bytes stored_fbucket rdlen].
  f_equal. rewrite <- (app_nil_r (le_bytes _ _)). by apply (u_field_fits 0 []).
Qed.

#[export] Instance fttlts_ok : StoredOk dom_fttlts fits_fttlts.
Proof.
  split; [intros x; cbn [to_bytes stored_fttlts sizeof]; by rewrite length_app, !length_le_bytes|].
  intros [a b] [Ha Hb]. cbn [to_bytes of_bytes stored_fttlts ft_ttl ft_ts] in *. f_equal.
  - by apply (s_field_fits 0 []).
  - rewrite <- (app_nil_r (le_bytes _ b)). apply s_field_fits; [apply length_le_bytes|done].
Qed.

#[export] Instance file_ok : StoredOk dns_file fits_file.
Proof.
  split; [by intros x; cbn [to_bytes stored_file sizeof]; rewrite !length_app, !length_le_bytes|].
  intros [a b c d e] (Ha & Hb & Hc & Hd & He). cbn [to_bytes of_bytes stored_file fe_qlen fe_num_rrs fe_flags fe_c_ns fe_c_soa] in *. f_equal.
  - by apply (u_field_fits 0 []).
  - by apply u_field_fits.
  - rewrite (app_assoc (le_bytes 1 a)). by apply u_field_fits.
  - rewrite (app_assoc (le_bytes 1 a)), (app_assoc (_ ++ _) (le_bytes 2 c)). by apply u_field_fits.
  - rewrite (app_assoc (le_bytes 1 a)), (app_assoc (_ ++ _) (le_bytes 2 c)), (app_assoc (_ ++ _) (le_bytes 1 d)), <- (app_nil_r (le_bytes 1 e)).
    by apply u_field_fits.
Qed.

#[export] Instance fset_ok : StoredOk rr_fset fits_fset.
Proof.
  split; [by intros x; cbn [to_bytes stored_fset sizeof]; rewrite !length_app, !length_le_bytes|].
  intros [a b c d e] (Ha & Hb & Hc & Hd & He). cbn [to_bytes of_bytes stored_fset sh_tp sh_num_rr sh_flags sh_ttl sh_ts] in *. f_equal.
  - by apply (u_field_fits 0 []).
  - by apply u_field_fits.
  - rewrite (app_assoc (le_bytes 1 a)). by apply u_field_fits.
  - rewrite (app_assoc (le_bytes 1 a)), (app_assoc (_ ++ _) (le_bytes 2 c)). by apply s_field_fits.
  - rewrite (app_assoc (le_bytes 1 a)), (app_assoc (_ ++ _) (le_bytes 2 c)), (app_assoc (_ ++ _) (le_bytes _ d)), <- (app_nil_r (le_bytes _ e)).
    apply s_field_fits; [|done]. rewrite !length_app, !length_le_bytes. lia.
Qed.
End Layouts.

Lemma fread_app a f : fread (length a) (a ++ f) = Some (a, f).
Proof. unfold fread. rewrite length_app. bool_true (length a <=? length a + length f). by rewrite take_app_length, drop_app_length. Qed.

Lemma fread_struct_app {A} {St : Stored A} {F : A -> Prop} {Ok : StoredOk A F} (x : A) f : F x -> fread_struct (to_bytes x ++ f) = Some (x, f).
Proof. intros Hx. unfold fread_struct. rewrite <- (length_to_bytes x), fread_app. sbind. by rewrite of_to_bytes. Qed.

Lemma fread_some n f b f' : fread n f = Some (b, f') -> f = b ++ f' /\ length b = n.
Proof.
  unfold fread. destruct (n <=? length f) eqn:E; [|done]. boolp. intros [= <- <-]. split; [by rewrite take_drop|rewrite length_take; lia].
Qed.

Lemma fread_struct_some {A} {St : Stored A} f (x : A) f' : fread_struct f = Some (x, f') -> exists b, f = b ++ f' /\ length b = sizeof A /\ x = of_bytes b.
Proof. unfold fread_struct. intros E. inv_bind. apply fread_some in H as [-> ?]. by eexists. Qed.

(** ** Steps of the reader *)

Section Reading.
Context {P : Platform}.

(** An entry that is not in the cache: well formed, without nodes in the list. *)
Definition loose (c : dns_cent) : Prop := cent_ok c /\ forall idx, lent_of c idx = None.

Definition stop_ok (e : stop) : Prop :=
  match e with
  | free_cent_data_fclose ce | free_cent_data_fclose_exit ce => loose ce
  | free_data_fclose | free_data_fclose_exit => True
  end.

(** A step that only uses memory: it gives up properly or has a result. *)
Definition stepped {A} (s : cache) (Q : A -> Prop) (r : stop + A) (s' : cache) : Prop :=
  mem_only s s' /\ match r with inl e => stop_ok e | inr a => Q a end.

Lemma runs_try {A B} (m : M (stop + A)) (k : A -> M (stop + B)) s Q :
  runs m s (fun r s' => match r with inl e => Q (inl e) s' | inr a => runs (k a) s' Q end) -> runs (tryM m k) s Q.
Proof. intros H. unfold tryM. apply runs_bind. eapply runs_weaken; [exact H|]. cbn beta. intros [e|a] s'; [apply runs_ret|done]. Qed.

Lemma step_try {A B} (m : M (stop + A)) (k : A -> M (stop + B)) s Q Q' :
  runs m s (stepped s Q) -> (forall a s', Q a -> runs (k a) s' (stepped s' Q')) -> runs (tryM m k) s (stepped s Q').
Proof.
  intros Hm Hk. apply runs_try. eapply runs_weaken; [exact Hm|]. cbn beta. intros [e|a] s' [Hs H]; [by split|].
  eapply runs_weaken; [by apply Hk|]. cbn beta. intros r s'' [Hs' Hr]. split; [by eapply mem_only_trans|done].
Qed.

Lemma step_go {A} (a : A) s (Q : A -> Prop) : Q a -> runs (go a) s (stepped s Q).
Proof. intros H. apply runs_ret. by split; [auto with pdnsd|]. Qed.

Lemma step_goto {A} e s (Q : A -> Prop) : stop_ok e -> runs (goto e) s (stepped s Q).
Proof. intros H. apply runs_ret. by split; [auto with pdnsd|]. Qed.

Lemma step_need {A} e (o : option A) s (Q : A -> Prop) :
  stop_ok e -> (forall a, o = Some a -> Q a) -> runs (need e o) s (stepped s Q).
Proof. intros He Ho. destruct o as [a|]; [by apply step_go, Ho|by apply step_goto]. Qed.

(** A computation of the cache that only uses memory. *)
Lemma step_run {A B} (m : M A) (k : A -> M (stop + B)) s (R : A -> Prop) Q :
  runs m s (fun a s' => mem_only s s' /\ R a) -> (forall a s', R a -> runs (k a) s' (stepped s' Q)) ->
  runs (mbind k m) s (stepped s Q).
Proof.
  intros Hm Hk. apply runs_bind. eapply runs_weaken; [exact Hm|]. cbn beta. intros a s' [Hs H].
  eapply runs_weaken; [by apply Hk|]. cbn beta. intros r s'' [Hs' Hr]. split; [by eapply mem_only_trans|done].
Qed.

(** ** Building an entry *)

Lemma flags_same c c' :
  shape c -> shape c' -> is_neg c' = is_neg c ->
  (forall m, Z.land m DF_NEGATIVE = 0%Z -> tst (flags c') m = tst (flags c) m) -> flags c' = flags c.
Proof.
  intros [Hc _] [Hc' _] Hn H.
  assert (Hbit : forall f k, (0 <= k)%Z -> tst f (2 ^ k) = Z.testbit f k).
  { intros f k Hk. unfold tst. destruct (Z.testbit f k) eqn:E.
    - apply negb_true_iff, Z.eqb_neq. intros E0. assert (Z.testbit (Z.land f (2 ^ k)) k = true); [|by rewrite E0, Z.bits_0 in H0].
      by rewrite Z.land_spec, E, Z.pow2_bits_true.
    - apply negb_false_iff, Z.eqb_eq, Z.bits_inj'. intros n Hn'. rewrite Z.land_spec, Z.bits_0.
      destruct (decide (n = k)) as [->|Hne]; [by rewrite E|]. by rewrite (Z.pow2_bits_false k n), andb_false_r by lia. }
  apply Z.bits_inj'. intros k Hk. rewrite <- !Hbit by done. destruct (decide (k = 0)%Z) as [->|Hne].
  - change (2 ^ 0)%Z with DF_NEGATIVE. congruence.
  - apply H. apply Z.bits_inj'. intros n Hn'. rewrite Z.land_spec, Z.bits_0. unfold DF_NEGATIVE.
    destruct (decide (n = k)) as [->|Hnk]; [|by rewrite Z.pow2_bits_false by lia].
    change 1%Z with (2 ^ 0)%Z. by rewrite (Z.pow2_bits_false 0 k), andb_false_r by lia.
Qed.

(** Adding a record keeps an entry out of the list. *)
Lemma runs_add_loose ce tp ttl ts fl d s :
  loose ce -> not_cached_type tp = false ->
  runs (add_cent_rr ce tp ttl ts fl d) s (fun r s' => mem_only s s' /\ loose r.2 /\ keeps ce r.2 /\
    (forall j, j <> type_idx tp -> slot r.2 j = slot ce j)).
Proof.
  intros [Hok Hl] Ht. eapply runs_weaken; [by apply runs_add_cent_rr|]. cbn beta zeta.
  intros r s' (Hm & _ & Hok' & Hk & _ & _ & Hln & Hnew & Ho & Hr). splits; try done. split; [done|].
  set (idx := type_idx tp) in *. intros [j|]; [|done]. destruct (decide (j = idx)) as [->|Hj].
  2:{ specialize (Hl (Some j)). unfold lent_of in *. by rewrite Ho. }
  destruct (tst (flags ce) DF_LOCAL && negb (tst fl CF_LOCAL)); [subst r; by apply Hl|]. destruct Hr as (_ & Hold & Hnw).
  specialize (Hl (Some idx)). unfold lent_of in *. destruct (slot ce idx) as [rs|] eqn:Hsl.
  - destruct (Hold rs eq_refl) as (rs' & -> & _ & _ & _ & Elt). cbn in Hl |- *. congruence.
  - destruct r as [[] c']; cbn [fst snd] in *; [by destruct (Hnw eq_refl eq_refl) as (rs' & -> & _ & _ & _ & ?)|by rewrite Hnew].
Qed.

(** Adding an empty set. *)
Lemma runs_add_set_loose ce tp ttl ts fl s :
  loose ce -> not_cached_type tp = false -> slot ce (type_idx tp) = None ->
  runs (add_cent_rrset_by_type ce tp ttl ts fl) s (fun r s' => mem_only s s' /\ (plenty s -> r.1 = true /\ plenty s') /\
    loose r.2 /\ keeps ce r.2 /\ is_neg r.2 = false /\
    (forall m, Z.land m DF_NEGATIVE = 0%Z -> tst (flags r.2) m = tst (flags ce) m) /\
    (forall j, j <> type_idx tp -> slot r.2 j = slot ce j) /\
    if (r.1 : bool) then slot r.2 (type_idx tp) = Some (new_rrset ttl ts fl) else slot r.2 (type_idx tp) = None).
Proof.
  intros [Hok Hl] Ht Hsl. destruct (cached_index tp Ht) as [Hi Hlt]. unfold add_cent_rrset_by_type. unfold type_index in Hi.
  destruct ((0 <=? tp - T_MIN)%Z && (tp - T_MIN <? Z.of_nat T_NUM)%Z); [|done]. run_lift; [exact Hi|].
  pose proof (Hl None) as Hln. eapply runs_weaken; [apply (runs_add_rrset ce (type_idx tp)); [done|done|done|by rewrite Hln]|].
  cbn beta. intros r s' (Hr & Hp & Hok' & Hk & Hn & Hf & Hres).
  assert (Hm : mem_only s s') by (destruct Hr as [m ->]; rewrite Hln; cbn [drop_lent]; exists m; by destruct s).
  assert (Hneg : lent_of r.2 None = None) by (unfold lent_of, is_neg in *; by destruct (body r.2)).
  assert (Hoth : forall j, j <> type_idx tp -> slot r.2 j = slot ce j) by (destruct (r.1); [apply Hres|by intros j _]).
  splits; try done.
  - split; [done|]. intros [j|]; [|done]. destruct (decide (j = type_idx tp)) as [->|Hj].
    + unfold lent_of. destruct (r.1); [destruct Hres as [-> _]; done|]. by rewrite Hres, Hsl.
    + specialize (Hl (Some j)). unfold lent_of in *. by rewrite Hoth.
  - destruct (r.1); [apply Hres|]. by rewrite Hres.
Qed.

(** ** Records and sets *)

Lemma step_read_rr sh ce data f s :
  loose ce -> not_cached_type (sh_tp sh) = false ->
  runs (read_rr sh ce data f) s (stepped s (fun '(ce', data', f') => loose ce' /\ f' `suffix_of` f /\
    forall j, j <> type_idx (sh_tp sh) -> slot ce' j = slot ce j)).
Proof.
  intros Hce Ht. unfold read_rr.
  eapply step_try; [apply step_need with (Q := fun x => x.2 `suffix_of` f); [done|]|].
  { intros [rr f1] H. apply fread_struct_some in H as (b & -> & _). by exists b. }
  intros [rr f1] s1 Hf1. cbn [snd] in Hf1. set (n := Z.to_nat (rdlen rr)).
  eapply step_try with (Q := fun data => n <= length data).
  { destruct (length data <? n) eqn:E; boolp; [|by apply step_go].
    eapply (step_run _ _ _ (fun _ => True)); [eapply runs_weaken; [apply runs_malloc|]; by intros|]. intros [] s2 _; [|by apply step_goto].
    apply step_go. rewrite length_app, length_replicate. lia. }
  clear data. intros data s2 Hd. eapply step_try with (Q := fun x => n <= length x.1 /\ x.2 `suffix_of` f).
  { destruct (n =? 0) eqn:E; [by apply step_go|]. boolp.
    eapply step_try; [apply step_need with (Q := fun x => length x.1 = n /\ x.2 `suffix_of` f1); [done|]|].
    { intros [b f2] H. apply fread_some in H as [-> ?]. split; [done|by exists b]. }
    intros [b f2] s3 [Hb Hf2]. cbn [fst snd] in *. destruct (wr_bytes_total b data 0) as (d' & Hw & Hl'); [lia|].
    run_lift; [exact Hw|]. apply step_go. cbn [fst snd]. split; [lia|by etrans]. }
  clear Hd. intros [d' f2] s3 [Hd' Hf2]. cbn [fst snd] in *. run_lift; [unfold rd_bytes; by rewrite decide_True by lia|].
  eapply step_run; [by apply runs_add_loose|]. intros [ok ce'] s4 (Hl' & _ & Ho). cbn [fst snd] in *.
  destruct ok; [by apply step_go|by apply step_goto].
Qed.

Lemma step_read_rrs sh n : forall ce data f s,
  loose ce -> not_cached_type (sh_tp sh) = false ->
  runs (read_rrs n sh ce data f) s (stepped s (fun '(ce', data', f') => loose ce' /\ f' `suffix_of` f /\
    forall j, j <> type_idx (sh_tp sh) -> slot ce' j = slot ce j)).
Proof.
  induction n as [|n IH]; intros ce data f s Hce Ht; cbn [read_rrs]; [by apply step_go|].
  eapply step_try; [by apply step_read_rr|]. intros [[ce1 d1] f1] s1 (Hl & Hf & Ho).
  eapply runs_weaken; [by apply IH|]. cbn beta. intros r s2 [Hm Hr]. split; [done|]. destruct r as [e|[[ce2 d2] f2]]; [done|].
  destruct Hr as (Hl2 & Hf2 & Ho2). splits; [done|by etrans|]. intros j Hj. rewrite Ho2, Ho; done.
Qed.

(** No sets of types above [tp] yet. *)
Definition empty_above (ce : dns_cent) (tp : Z) : Prop :=
  forall tp', not_cached_type tp' = false -> (tp < tp')%Z -> slot ce (type_idx tp') = None.

Lemma type_idx_inj tp tp' : not_cached_type tp = false -> not_cached_type tp' = false -> type_idx tp = type_idx tp' -> tp = tp'.
Proof.
  intros Ht Ht' E. destruct (cached_index tp Ht) as [H _], (cached_index tp' Ht') as [H' _]. rewrite E in H. by eapply type_index_inj.
Qed.

Lemma empty_above_next ce ce' tp tp' :
  empty_above ce tp -> not_cached_type tp' = false -> (tp < tp')%Z ->
  (forall j, j <> type_idx tp' -> slot ce' j = slot ce j) -> empty_above ce' tp'.
Proof.
  intros He Ht Hlt Ho t Hct Ht'. rewrite Ho; [apply He; [done|lia]|]. intros E. apply type_idx_inj in E; [lia|done..].
Qed.

Lemma step_read_rrset prevtp ce data f s :
  loose ce -> empty_above ce prevtp ->
  runs (read_rrset prevtp ce data f) s (stepped s (fun '(tp, ce', data', f') =>
    loose ce' /\ empty_above ce' tp /\ f' `suffix_of` f)).
Proof.
  intros Hce He. unfold read_rrset.
  eapply step_try; [apply step_need with (Q := fun x => x.2 `suffix_of` f); [done|]|].
  { intros [sh f1] H. apply fread_struct_some in H as (b & -> & _). by exists b. }
  intros [sh f1] s1 Hf1. cbn [snd] in Hf1. destruct (not_cached_type (sh_tp sh)) eqn:Ht; [by apply step_goto|].
  destruct (sh_tp sh <=? prevtp)%Z eqn:Etp; [by apply step_goto|]. boolp.
  eapply step_run; [eapply runs_weaken; [apply (runs_add_set_loose ce); [done|done|by apply He]|]|].
  { cbn beta. intros r s' (Hm & _ & Hl & _ & _ & _ & Ho & _). exact (conj Hm (conj Hl Ho)). }
  intros [ok ce1] s2 [Hl Ho]. cbn [fst snd] in *. destruct ok; cbn [negb]; [|by apply step_goto].
  eapply step_try; [by apply step_read_rrs|]. intros [[ce2 d2] f2] s3 (Hl2 & Hf2 & Ho2). apply step_go.
  splits; [done| |by etrans]. eapply empty_above_next; [exact He|done|done|]. intros j Hj. rewrite Ho2, Ho; done.
Qed.

Lemma step_read_rrsets n : forall prevtp ce data f s,
  loose ce -> empty_above ce prevtp ->
  runs (read_rrsets n prevtp ce data f) s (stepped s (fun '(ce', data', f') => loose ce' /\ f' `suffix_of` f)).
Proof.
  induction n as [|n IH]; intros prevtp ce data f s Hce He; cbn [read_rrsets]; [by apply step_go|].
  eapply step_try; [by apply step_read_rrset|]. intros [[[tp ce1] d1] f1] s1 (Hl & He1 & Hf).
  eapply runs_weaken; [by apply IH|]. cbn beta. intros r s2 [Hm Hr]. split; [done|]. destruct r as [e|[[ce2 d2] f2]]; [done|].
  destruct Hr as [? ?]. split; [done|by etrans].
Qed.
End Reading.

(** ** Names *)

Section Names.
Context {P : Platform}.

Lemma labels_fit_spec nb qlen : bytes nb -> qlen < length nb -> forall fuel i, i <= qlen -> qlen - i < fuel ->
  exists ok, labels_fit fuel nb qlen i = Some ok /\
    (ok = true -> exists N, Forall wf_label N /\ take (qlen - i) (drop i nb) = enc_labels N).
Proof.
  intros Hb Hq. induction fuel as [|fuel IH]; intros i Hi Hf; [lia|]. cbn [labels_fit]. destruct (i <? qlen) eqn:E; boolp.
  2:{ exists true. split; [done|]. intros _. exists []. split; [constructor|]. by replace (qlen - i) with 0 by lia. }
  destruct (rd_lt nb i) as [lb Hlb]; [lia|]. rewrite Hlb. sbind. pose proof (rd_byte nb i lb Hb Hlb) as Hby. unfold is_byte in Hby.
  destruct ((lb =? 0)%Z || (63 <? lb)%Z) eqn:El; [by exists false|]. boolp.
  destruct (qlen <? i + Z.to_nat lb + 1) eqn:Eq; [by exists false|]. boolp.
  destruct (IH (i + Z.to_nat lb + 1)) as (ok & Hrun & Hok); [lia|lia|]. exists ok. split; [done|]. intros ->.
  destruct (Hok eq_refl) as (N & HN & HE). set (n := Z.to_nat lb) in *.
  exists (take n (drop (S i) nb) :: N).
  assert (Hl : length (take n (drop (S i) nb)) = n) by (rewrite length_take, length_drop; lia).
  split.
  - constructor; [|done]. split; [lia|]. apply Forall_take, Forall_drop, Hb.
  - unfold enc_labels. cbn [map concat]. fold (enc_labels N). rewrite <- HE. unfold enc_label. rewrite Hl.
    rewrite (drop_S nb lb i Hlb). replace (qlen - i) with (S (n + (qlen - (i + n + 1)))) by lia. cbn [take app].
    f_equal; [unfold n; lia|]. rewrite <- take_take_drop, drop_drop. do 3 f_equal. lia.
Qed.

Lemma step_read_name qlen f s :
  bytes f -> qlen <= 255 ->
  runs (read_name qlen f) s (stepped s (fun '(nb, f') => f' `suffix_of` f /\
    exists N r, wf_name N /\ wr nb qlen 0%Z = Some (enc_name N ++ r))).
Proof.
  intros Hb Hq. unfold read_name. destruct (qlen =? 0) eqn:E; boolp.
  - apply step_go. split; [done|]. subst qlen. exists [], (replicate 255 0%Z). split; [split; [constructor|vm_compute; lia]|].
    rewrite wr_lt by (rewrite length_replicate; lia). done.
  - eapply step_try; [apply step_need with (Q := fun x => f = x.1 ++ x.2 /\ length x.1 = qlen); [done|]|].
    { intros [b f1] H. by apply fread_some in H. }
    intros [b f1] s1 [Ef Hl]. cbn [fst snd] in *. subst f. apply Forall_app in Hb as [Hb _].
    pose proof (wr_bytes_app_mid b [] (replicate 256 0%Z)) as Hw. cbn [app length] in Hw. rewrite length_replicate, drop_replicate in Hw.
    run_lift; [apply Hw; lia|]. set (nb := b ++ replicate (256 - length b) 0%Z).
    assert (Hnb : bytes nb) by (apply Forall_app; split; [done|apply Forall_replicate; unfold is_byte; lia]).
    assert (Hln : length nb = 256) by (unfold nb; rewrite length_app, length_replicate; lia).
    destruct (labels_fit_spec nb qlen Hnb ltac:(lia) (S qlen) 0) as (ok & Hrun & Hok); [lia|lia|].
    run_lift; [exact Hrun|]. destruct ok; [|by apply step_goto]. apply step_go. split; [by exists b|].
    destruct (Hok eq_refl) as (N & HN & HE). rewrite drop_0, Nat.sub_0_r in HE. exists N, (drop (S qlen) nb).
    assert (Hln2 : length (enc_labels N) = qlen) by (rewrite <- HE, length_take; lia). split.
    + split; [done|]. unfold enc_name. rewrite length_app, Hln2. unfold DNSNAMEBUFSIZE. cbn [length]. lia.
    + rewrite wr_lt by lia. rewrite insert_take_drop by lia. unfold enc_name. by rewrite HE, <- app_assoc.
Qed.
End Names.

(** ** Entries *)

Section Entries.
Context {P : Platform} (now : Z) (global : globals).

Lemma named_size s s' cent : inv s -> inv s' -> named s s' cent -> size (cents s') <= size (cents s) + 1.
Proof.
  intros Hi Hi' Hn. pose proof Hi' as (_ & [m' Hm'] & _).
  assert (Hd : exists id0, dom (cents s') ⊆ {[id0]} ∪ dom (cents s)).
  { destruct (set_choose_or_empty (dom (cents s') ∖ dom (cents s))) as [[id0 [Hin Hout]%elem_of_difference]|Hno].
    - exists id0. intros id Hid. apply elem_of_dom in Hid as [c' Hc']. destruct (Hn id c' Hc') as [Hk|(c & Hc & _)].
      + apply elem_of_dom in Hin as [c0 Hc0]. destruct (Hn id0 c0 Hc0) as [Hk0|(c & Hc & _)].
        * assert (id = id0) as -> by (eapply (key_unique s' m'); [done|done|exact Hc'|exact Hc0|congruence]). set_solver.
        * destruct Hout. apply elem_of_dom. by exists c.
      + apply elem_of_union_r, elem_of_dom. by exists c.
    - exists 1%positive. intros id Hid. apply elem_of_union_r. destruct (decide (id ∈ dom (cents s))); [done|]. set_solver. }
  destruct Hd as [id0 Hd]. apply subseteq_size in Hd. rewrite size_dom in Hd.
  etrans; [exact Hd|]. rewrite size_union_alt, size_singleton. pose proof (size_dom (cents s)) as Hs.
  assert (size (dom (cents s) ∖ {[id0]}) <= size (dom (cents s))) by (apply subseteq_size; set_solver). lia.
Qed.

Lemma read_try {A B} (m : M (stop + A)) (k : A -> M (stop + B)) s0 s (Q : stop + B -> cache -> Prop) Q1 :
  mem_only s0 s -> runs m s (stepped s Q1) ->
  (forall e s', mem_only s0 s' -> stop_ok e -> Q (inl e) s') ->
  (forall a s', mem_only s0 s' -> Q1 a -> runs (k a) s' Q) -> runs (tryM m k) s Q.
Proof.
  intros Hm H He Ha. apply runs_try. eapply runs_weaken; [exact H|]. cbn beta. intros [e|a] s' [Hm' Hr].
  - apply He; [by eapply mem_only_trans|done].
  - apply Ha; [by eapply mem_only_trans|done].
Qed.

(** The cache after an entry has been read. *)
Definition grown_by_one (s s' : cache) : Prop :=
  inv s' /\ (insert_sort s = true -> insert_sort s' = true) /\ size (cents s') <= size (cents s) + 1.

Lemma grown_read_mem s s' : inv s -> mem_only s s' -> grown_by_one s s'.
Proof. intros Hi Hm. split; [by eapply mem_only_inv|]. destruct Hm as [m ->]. split; [done|]. cbn. lia. Qed.

Lemma runs_add_read s0 s ce :
  inv s0 -> mem_only s0 s -> room s0 -> loose ce ->
  runs (add_cache now global ce) s (fun _ s' => grown_by_one s0 s').
Proof.
  intros Hi Hm Hr [Hok _]. assert (Hi' : inv s) by (by eapply mem_only_inv). pose proof Hi' as (_ & [m Hh] & _).
  pose proof Hok as (_ & (N & HN & Hq) & _). assert (Hr' : room s) by (destruct Hm as [x ->]; exact Hr).
  eapply runs_weaken; [by apply (runs_add_cache now global s m N ce)|]. cbn beta. intros _ s' [(Hi2 & _ & _ & His & Hn) _].
  assert (E : cents s = cents s0 /\ insert_sort s = insert_sort s0) by (destruct Hm as [x ->]; done). destruct E as [E1 E2].
  unfold grown_by_one. splits; [done|by rewrite <- E2|]. rewrite <- E1. by eapply named_size.
Qed.

Lemma loose_set_c c a b : loose c -> loose (set_c_soa a (set_c_ns b c)).
Proof. intros [Hok Hl]. by split. Qed.

Lemma runs_read_entry data f s :
  inv s -> bytes f -> room s ->
  runs (read_entry now global data f) s (fun r s' => grown_by_one s s' /\
    match r with inl e => stop_ok e | inr (_, f') => f' `suffix_of` f /\ length f' < length f end).
Proof.
  intros Hi Hb Hroom. unfold read_entry.
  assert (He : forall e s', mem_only s s' -> stop_ok e -> grown_by_one s s' /\ stop_ok e) by (intros; split; [by apply grown_read_mem|done]).
  eapply (read_try _ _ s s _ (fun x => exists b, f = b ++ x.2 /\ length b = 6 /\ x.1 = of_bytes b)); [auto with pdnsd| |done|].
  { apply step_need; [done|]. intros [fe f1] H. by apply fread_struct_some in H. }
  intros [fe f1] s1 Hm1 (b & -> & Hlb & Hfe). cbn [fst snd] in *. apply Forall_app in Hb as [Hbb Hb1].
  assert (Hq : Z.to_nat (fe_qlen fe) <= 255).
  { rewrite Hfe. cbn [of_bytes stored_file fe_qlen]. unfold u_field. rewrite drop_0.
    assert (H1 : bytes (take 1 b)) by (by apply Forall_take). apply le_value_bound in H1. rewrite length_take, Hlb in H1. cbn in H1. lia. }
  eapply (read_try _ _ s s1 _ (fun x => x.2 `suffix_of` f1)); [done| |done|].
  { destruct (tst (fe_flags fe) DF_NEGATIVE); [|by apply step_go]. apply step_need; [done|].
    intros [ft f2] H. apply fread_struct_some in H as (b2 & -> & _). by exists b2. }
  intros [ft f2] s2 Hm2 Hf2. cbn [fst snd] in *. assert (Hb2 : bytes f2) by (destruct Hf2 as [x ->]; by apply Forall_app in Hb1 as [_ ?]).
  eapply (read_try _ _ s s2); [done|by apply step_read_name|done|].
  intros [nb f3] s3 Hm3 (Hf3 & N & r & HN & Hw). run_lift; [exact Hw|].
  apply runs_bind. eapply runs_weaken; [by apply runs_init_cent|]. cbn beta. intros [ce|] s4 (Hm4 & _ & Hce).
  2:{ apply runs_ret. apply He; [by eapply mem_only_trans|done]. }
  destruct (Hce ce eq_refl) as (Hok & _ & _ & Hcl & Hsl & _).
  eapply (read_try _ _ s s4); [by eapply mem_only_trans|apply step_read_rrsets|done|].
  - apply loose_set_c. split; [done|]. by apply no_lents.
  - intros tp _ _. exact (Hsl _).
  - intros [[ce' d'] f4] s5 Hm5 (Hl & Hf4). apply runs_bind. eapply runs_weaken; [by apply (runs_add_read s)|].
    cbn beta. intros _ s6 Hs6. apply runs_bind. eapply runs_weaken; [apply runs_free_copy; [by apply no_lents, Hl|apply Hl]|].
    cbn beta. intros _ s7 ->. apply runs_ret. split; [done|]. assert (Hs : f4 `suffix_of` f1) by (etrans; [exact Hf4|]; by etrans).
    split; [etrans; [exact Hs|]; by exists b|]. apply suffix_length in Hs. rewrite length_app. lia.
Qed.

(** Room for the entries of a file of [n] bytes. *)
Definition roomy (s : cache) (n : nat) : Prop := insert_sort s = true \/ (Z.of_nat (NRRTOT * (size (cents s) + n)) < 2 ^ 32)%Z.

Lemma roomy_le s s' n n' :
  roomy s n -> (insert_sort s = true -> insert_sort s' = true) -> size (cents s') + n' <= size (cents s) + n -> roomy s' n'.
Proof. intros [H|H] His Hle; [left; auto|right]. unfold NRRTOT in *. lia. Qed.

Lemma roomy_countable s n : inv s -> roomy s n -> countable_rrl s.
Proof. intros Hi [H|H]; [by left|right]. pose proof (rrl_length s (proj1 Hi)). unfold NRRTOT in *. lia. Qed.

Lemma runs_read_entries fuel : forall cnt data f s,
  inv s -> bytes f -> roomy s (S (length f)) -> length f < fuel ->
  runs (read_entries now global fuel cnt data f) s (fun r s' => inv s' /\ countable_rrl s' /\ match r with inl e => stop_ok e | inr _ => True end).
Proof.
  induction fuel as [|fuel IH]; intros cnt data f s Hi Hb Hr Hf; [lia|]. cbn [read_entries].
  destruct (0 <? cnt)%Z; [|apply runs_ret; splits; [done|by eapply roomy_countable|done]]. apply runs_try.
  eapply runs_weaken; [apply runs_read_entry; [done|done|]|].
  { destruct Hr as [?|?]; [by left|right]. unfold NRRTOT in *. lia. }
  cbn beta. intros [e|[d' f']] s' [(Hi' & His & Hsz) He].
  - splits; [done| |done]. eapply (roomy_countable s' 0); [done|]. eapply roomy_le; [exact Hr|done|lia].
  - destruct He as [Hs Hl]. apply IH; [done| | |lia].
    + destruct Hs as [x ->]. by apply Forall_app in Hb as [_ ?].
    + eapply roomy_le; [exact Hr|done|lia].
Qed.

Lemma runs_read_file f s :
  inv s -> bytes f -> roomy s (S (length f)) ->
  runs (read_file now global f) s (fun r s' => inv s' /\ countable_rrl s' /\ match r with inl e => stop_ok e | inr _ => True end /\
    (take (length cachverid) f <> cachverid -> s' = s)).
Proof.
  intros Hi Hb Hr. unfold read_file. assert (Hc : countable_rrl s) by (by eapply roomy_countable).
  destruct (fread (length cachverid) f) as [[buf f1]|] eqn:E1; cbn [need]; [|by apply runs_try, runs_ret].
  apply runs_try, runs_ret. destruct (decide (buf = cachverid)) as [->|Hne]; [|by apply runs_ret].
  apply fread_some in E1 as [-> H1]. apply Forall_app in Hb as [_ Hb]. rewrite length_app in Hr. rewrite take_app_length.
  destruct (fread sizeof_long f1) as [[cnt f2]|] eqn:E2; cbn [need]; [|by apply runs_try, runs_ret].
  apply runs_try, runs_ret. apply fread_some in E2 as [-> H2]. apply Forall_app in Hb as [_ Hb]. rewrite length_app in Hr.
  eapply runs_weaken; [apply runs_read_entries; [done|done| |lia]|].
  - eapply roomy_le; [exact Hr|done|lia].
  - cbn beta. intros r s' (? & ? & ?). by splits.
Qed.

Lemma runs_read_end e s : stop_ok e -> runs (read_end e) s (fun _ s' => s' = s).
Proof.
  assert (Hf : forall ce, loose ce -> runs (free_cent ce) s (fun _ s' => s' = s)) by (intros ce [Hok Hl]; apply runs_free_copy; [by apply no_lents|apply Hok]).
  intros He. destruct e as [|ce|ce|]; cbn [read_end stop_ok] in *; try (by apply runs_ret);
    apply runs_bind; (eapply runs_weaken; [by apply Hf|]); cbn beta; intros _ s' ->; by apply runs_ret.
Qed.

Lemma runs_sort_cache s : inv s -> countable_rrl s ->
  runs sort_cache s (fun _ s' => inv s' /\ insert_sort s' = true /\ cents s' = cents s /\
    (insert_sort s = false -> StronglySorted (older (rrlent_ts s')) (rrl s'))).
Proof.
  intros Hi Hc. unfold sort_cache. apply runs_bind, runs_get. destruct (insert_sort s) eqn:E; [by apply runs_ret|].
  destruct (sort_rrl_spec (rrlent_ts s) (rrl s)) as (l & Hsort & Hp & Hs); [apply rrlent_ts_ok, Hi|destruct Hc; [congruence|lia]|].
  run_lift; [exact Hsort|]. apply runs_mod. splits; [by apply inv_perm|done|done|]. done.
Qed.

Lemma runs_read_disk_cache file s :
  inv s -> bytes (default [] file) -> roomy (with_insert_sort false s) (S (length (default [] file))) ->
  runs (read_disk_cache now global file) s (fun ret s' => inv s' /\ (ret = true -> is_Some file -> insert_sort s' = true) /\
    (take (length cachverid) (default [] file) <> cachverid -> cents s' = cents s)).
Proof.
  intros Hi Hb Hr. unfold read_disk_cache. destruct file as [f|]; [|apply runs_ret; splits; [done|by intros _ [? ?]|done]].
  cbn [default from_option] in *. apply runs_bind. eapply runs_weaken; [apply runs_malloc|]. cbn beta. intros ok s1 Hm.
  assert (Hi1 : inv s1) by (by eapply mem_only_inv). assert (Hc1 : cents s1 = cents s) by (by destruct Hm as [x ->]).
  destruct ok; cbn [negb]; [|by apply runs_ret].
  apply runs_bind, runs_mod. set (s2 := with_insert_sort false s1).
  assert (Hi2 : inv s2) by (pose proof (inv_perm s1 (rrl s1) false Hi1 ltac:(done)) as H; by rewrite with_rrl_id in H).
  apply runs_bind. eapply runs_weaken; [apply (runs_read_file f s2); [done|done|]|].
  { destruct Hm as [m ->]. exact Hr. }
  cbn beta. intros r s3 (Hi3 & Hc3 & He & Hv). apply runs_bind. eapply runs_weaken; [apply runs_read_end; by destruct r|].
  assert (Hv' : take (length cachverid) f <> cachverid -> cents s3 = cents s) by (intros H; rewrite (Hv H); exact Hc1).
  cbn beta. intros ret s4 ->. destruct ret; [|by apply runs_ret].
  apply runs_bind. eapply runs_weaken; [by apply runs_sort_cache|]. cbn beta. intros _ s5 (Hi5 & His & Hcs & _). apply runs_ret.
  splits; [done|done|]. intros H. unfold id in H. rewrite Hcs. by apply Hv'.
Qed.
End Entries.
