(* ===== verification/DiskWrite.v ===== *)
(** What [write_disk_cache] of Disk writes: the bytes of the file as a function of the
    entries of the cache. *)
From S2P Require Import Prelude Names DnsName Compress RrTypes HashTab RrList Cent CentSpec Cache CacheInv CachePurge CacheAdd CacheOps.
From S2P Require Import Answer AnswerRr AnswerSet Query QueryDecode QuerySafe Reply ReplyData ReplySpec Disk DiskSpec.

Section Writing.
Context {P : Platform}.

(** ** The contents of the file *)

(** The sets that are saved are those that are not local. *)
Definition foreign (r : option rr_set) : option rr_set :=
  rs ← r; if tst (rs_flags rs) CF_LOCAL then None else Some rs.

(** The sets of an entry with their types, in the order of the file. *)
Definition file_sets (c : dns_cent) : list (Z * rr_set) :=
  omap (fun tp => pair tp <$> foreign (slot c (type_idx tp))) (default [] (rriterlist c)).

(** Whether an entry is saved. *)
Definition saved (c : dns_cent) : bool :=
  if is_neg c then negb (tst (flags c) DF_LOCAL) else bool_decide (omap foreign (sets c) <> []).

Definition enc_rr (rr : list Z) : list Z := to_bytes {| rdlen := Z.of_nat (length rr) |} ++ rr.

Definition set_header (tp : Z) (rs : rr_set) : rr_fset :=
  {| sh_tp := tp; sh_num_rr := Z.of_nat (length (take 255 (rs_rrs rs))); sh_flags := rs_flags rs; sh_ttl := rs_ttl rs; sh_ts := rs_ts rs |}.
Definition enc_set (x : Z * rr_set) : list Z :=
  to_bytes (set_header x.1 x.2) ++ concat (enc_rr <$> take 255 (rs_rrs x.2)).

Definition entry_header (c : dns_cent) : dns_file :=
  {| fe_qlen := Z.of_nat (length (qname c)) - 1; fe_num_rrs := Z.of_nat (length (file_sets c)); fe_flags := flags c; fe_c_ns := c_ns c; fe_c_soa := c_soa c |}.
Definition enc_times (c : dns_cent) : list Z :=
  match body c with Neg _ ttl ts => to_bytes {| ft_ttl := ttl; ft_ts := ts |} | Rr _ _ => [] end.
Definition enc_entry (c : dns_cent) : list Z :=
  to_bytes (entry_header c) ++ enc_times c ++ take (length (qname c) - 1) (qname c) ++ concat (enc_set <$> file_sets c).

(** Values in the range of their types in the file. *)
Definition storable_set (rs : rr_set) : Prop :=
  fits_u 2 (rs_flags rs) /\ fits_s sizeof_time_t (rs_ttl rs) /\ fits_s sizeof_time_t (rs_ts rs) /\
  Forall (fun rr => fits_u 2 (Z.of_nat (length rr))) (rs_rrs rs).
Definition storable (c : dns_cent) : Prop :=
  fits_u 2 (flags c) /\ fits_u 1 (c_ns c) /\ fits_u 1 (c_soa c) /\
  (forall l ttl ts, body c = Neg l ttl ts -> fits_s sizeof_time_t ttl /\ fits_s sizeof_time_t ts) /\
  forall i rs, slot c i = Some rs -> storable_set rs.

(** ** Writing

    [wrote f b r]: a write of [b] to [f] in one or more calls has the result [r].  Part of
    [b] may be missing if it has failed. *)
Definition wrote (f : wfile) (b : list Z) (r : bool * wfile) : Prop :=
  (faults f = [] -> r.1 = true /\ faults r.2 = []) /\
  exists p, p `prefix_of` b /\ contents r.2 = contents f ++ p /\ (r.1 = true -> p = b).

Lemma wrote_none f : wrote f [] (true, f).
Proof. split; [done|]. exists []. cbn. by rewrite app_nil_r. Qed.

Lemma wrote_fwrite b f : wrote f b (fwrite b f).
Proof.
  unfold fwrite, wrote. destruct (faults f) as [|[k|] l]; cbn [fst snd contents faults]; (split; [done|]).
  - by exists b.
  - exists (take k b). splits; [apply prefix_take|done|done].
  - by exists b.
Qed.

(** One write after the other; the second is left out when the first has failed. *)
Lemma wrote_app f b b' r r' : wrote f b r -> (r.1 = true -> wrote r.2 b' r') -> (r.1 = false -> r' = (false, r.2)) -> wrote f (b ++ b') r'.
Proof.
  intros (Hf & p & Hp & Hc & He) Hs Hn. destruct (r.1) eqn:E.
  - destruct (Hs eq_refl) as (Hf' & p' & Hp' & Hc' & He'). split; [intros H; by apply Hf', Hf|]. exists (b ++ p'). rewrite (He eq_refl) in Hc.
    splits; [by apply prefix_app|by rewrite Hc', Hc, app_assoc|]. intros H. by rewrite He'.
  - rewrite (Hn eq_refl). split; [intros H; by destruct (Hf H)|]. exists p. cbn [fst snd]. splits; [by apply prefix_app_r|done|done].
Qed.

(** The shape in which the code does it. *)
Lemma wrote_seq f b b' r (k : wfile -> option (bool * wfile)) :
  wrote f b r -> (forall f', exists r', k f' = Some r' /\ wrote f' b' r') ->
  exists r', (let '(ok, f') := r in if negb ok then Some (false, f') else k f') = Some r' /\ wrote f (b ++ b') r'.
Proof.
  intros Hr Hk. destruct r as [[] f1]; cbn [negb].
  - destruct (Hk f1) as (r' & -> & Hr'). exists r'. split; [done|]. by eapply wrote_app.
  - exists (false, f1). split; [done|]. by eapply wrote_app.
Qed.

Lemma count_rrs_spec rrs : forall k, k <= 255 -> count_rrs rrs k = k + length (take (255 - k) rrs).
Proof.
  induction rrs as [|rr rrs IH]; intros k Hk; cbn [count_rrs]; [rewrite take_nil; cbn; lia|].
  destruct (k <? 255) eqn:E; boolp.
  - rewrite IH by lia. replace (255 - k) with (S (255 - S k)) by lia. cbn [take length]. lia.
  - replace (255 - k) with 0 by lia. cbn. lia.
Qed.

Lemma write_rrs_spec rrs : forall n f, n <= length rrs -> Forall (fun rr => fits_u 2 (Z.of_nat (length rr))) rrs ->
  exists r, write_rrs n rrs f = Some r /\ wrote f (concat (enc_rr <$> take n rrs)) r.
Proof.
  induction rrs as [|rr rrs IH]; intros n f Hn Hf; destruct n as [|n]; cbn [write_rrs length] in *; try lia;
    try (eexists; split; [done|apply wrote_none]).
  apply Forall_cons in Hf as [Hr Hf]. unfold fits_u in Hr. change (256 ^ Z.of_nat 2)%Z with (2 ^ 16)%Z in Hr.
  assert (E : u16 (Z.of_nat (length rr)) = Z.of_nat (length rr)) by (by apply Z.mod_small). rewrite E. cbn [rdlen].
  rewrite Nat2Z.id, (take_ge rr) by lia. cbn [take fmap list_fmap concat]. unfold enc_rr at 1. rewrite <- app_assoc.
  apply (wrote_seq f _ _ (fwrite _ f)); [apply wrote_fwrite|]. intros f1.
  apply (wrote_seq f1 rr _ (if (Z.of_nat (length rr) =? 0)%Z then (true, f1) else fwrite rr f1)).
  - destruct (Z.of_nat (length rr) =? 0)%Z eqn:E0; boolp; [|apply wrote_fwrite]. destruct rr; [apply wrote_none|cbn in E0; lia].
  - intros f2. apply IH; [lia|done].
Qed.

Lemma take_length_take {A} n (l : list A) : take (length (take n l)) l = take n l.
Proof. rewrite length_take. destruct (Nat.min_spec n (length l)) as [[? ->]|[? ->]]; [done|]. by rewrite !take_ge by lia. Qed.

Lemma write_rrset_spec tp rs f : storable_set rs -> exists r, write_rrset tp rs f = Some r /\ wrote f (enc_set (tp, rs)) r.
Proof.
  intros (_ & _ & _ & Hf). unfold write_rrset. rewrite count_rrs_spec by lia. cbn [Nat.add]. rewrite Nat.sub_0_r.
  apply (wrote_seq f _ _ (fwrite _ f)); [apply wrote_fwrite|]. intros f1. cbn [snd].
  pose proof (write_rrs_spec (rs_rrs rs) (length (take 255 (rs_rrs rs))) f1) as H. rewrite take_length_take in H.
  apply H; [rewrite length_take; lia|done].
Qed.

(** *** The sets of an entry *)

Lemma type_idx_cached : type_idx <$> rrcachiterlist ≡ₚ seq 0 NRRTOT.
Proof. decide_closed. Qed.
Lemma type_idx_mu : type_idx <$> rrmuiterlist ≡ₚ seq 0 NRRMU.
Proof. decide_closed. Qed.
Lemma iterlist_cached : Forall (fun tp => not_cached_type tp = false) rrcachiterlist /\ Forall (fun tp => not_cached_type tp = false) rrmuiterlist.
Proof. split; decide_closed. Qed.
Lemma iterlist_sorted : StronglySorted Z.lt rrcachiterlist /\ StronglySorted Z.lt rrmuiterlist.
Proof. split; decide_closed. Qed.

(** The list of types fits the arrays. *)
Lemma rriterlist_spec c : shape c ->
  exists l, rriterlist c = Some l /\ type_idx <$> l ≡ₚ seq 0 (length (sets c)) /\ Forall (fun tp => not_cached_type tp = false) l /\
    StronglySorted Z.lt l.
Proof.
  intros [Hn Hs]. unfold rriterlist, sets, is_neg in *. rewrite Hn. destruct (body c) as [|rrmu rrext].
  - exists []. splits; [done|done|constructor|constructor].
  - destruct Hs as [Hm He]. rewrite length_app, Hm. destruct rrext as [e|]; cbn [default].
    + specialize (He e eq_refl). exists rrcachiterlist. splits; [done| |apply iterlist_cached|apply iterlist_sorted].
      unfold id. rewrite He. apply type_idx_cached.
    + exists rrmuiterlist. splits; [done|apply type_idx_mu|apply iterlist_cached|apply iterlist_sorted].
Qed.

Lemma sets_slots c : sets c = slot c <$> seq 0 (length (sets c)).
Proof.
  apply list_eq. intros i. rewrite list_lookup_fmap. destruct (decide (i < length (sets c))) as [Hi|Hi].
  - rewrite lookup_seq_lt by done. cbn. unfold slot. by destruct (lookup_lt_is_Some_2 (sets c) i Hi) as [r ->].
  - rewrite (lookup_ge_None_2 (sets c)), (lookup_ge_None_2 (seq _ _)) by (rewrite ?length_seq; lia). done.
Qed.

Lemma length_omap_fmap {A B C} (f : A -> option B) (g : A -> B -> C) l : length (omap (fun x => g x <$> f x) l) = length (omap f l).
Proof. induction l as [|x l IH]; [done|]. cbn. destruct (f x); cbn; by rewrite IH. Qed.

Lemma omap_fmap {A B C} (f : A -> B) (g : B -> option C) (l : list A) : omap g (f <$> l) = omap (fun x => g (f x)) l.
Proof. induction l as [|x l IH]; [done|]. cbn. by rewrite IH. Qed.

(** As many types as indices are saved. *)
Lemma length_file_sets c : shape c -> length (file_sets c) = length (omap foreign (sets c)).
Proof.
  intros Hs. destruct (rriterlist_spec c Hs) as (l & Hl & Hp & _). unfold file_sets. rewrite Hl. cbn [default from_option].
  unfold id. rewrite (length_omap_fmap (fun tp => foreign (slot c (type_idx tp))) pair), (sets_slots c), <- Hp.
  by rewrite <- list_fmap_compose, omap_fmap.
Qed.

Lemma cached_is_type tp : not_cached_type tp = false -> is_type tp = true.
Proof. intros Ht. apply not_cached_range in Ht. unfold is_type. apply andb_true_iff. split; apply Z.leb_le; lia. Qed.

Lemma write_rrsets_spec c l : forall f, shape c -> is_neg c = false -> (forall i rs, slot c i = Some rs -> storable_set rs) ->
  Forall (fun tp => not_cached_type tp = false) l ->
  exists r, write_rrsets c l f = Some r /\ wrote f (concat (enc_set <$> omap (fun tp => pair tp <$> foreign (slot c (type_idx tp))) l)) r.
Proof.
  induction l as [|tp l IH]; intros f Hs Hn Hst Hl; cbn [write_rrsets omap list_omap]; [eexists; split; [done|apply wrote_none]|].
  apply Forall_cons in Hl as [Ht Hl]. destruct (cached_index tp Ht) as [Hi Hlt].
  rewrite (getrrset_eff_eq c tp Hn Hs) by (by apply cached_is_type). rewrite (getrrset_slot c tp Hs), Hi. sbind. bool_true (type_idx tp <? NRRTOT).
  destruct (slot c (type_idx tp)) as [rs|] eqn:Er; cbn [foreign mbind option_bind fmap option_fmap option_map]; [|by apply IH].
  destruct (tst (rs_flags rs) CF_LOCAL); cbn [negb fmap option_fmap option_map]; [by apply IH|].
  destruct (write_rrset_spec tp rs f (Hst _ _ Er)) as ([ok f1] & -> & Hw). sbind. cbn [fmap list_fmap concat].
  pose proof (wrote_seq f _ _ _ (write_rrsets c l) Hw (fun f' => IH f' Hs Hn Hst Hl)) as (r' & E & Hr'). exists r'. split; [|done].
  rewrite <- E. by destruct ok.
Qed.

(** ** Entries *)

Lemma foreign_some r rs : foreign r = Some rs <-> r = Some rs /\ tst (rs_flags rs) CF_LOCAL = false.
Proof.
  unfold foreign. destruct r as [rs'|]; cbn; [|by split; [|intros [? _]]].
  destruct (tst (rs_flags rs') CF_LOCAL) eqn:E; (split; [try (by intros [= <-])|intros [[= <-] ?]]); congruence.
Qed.

Lemma has_foreign_spec c : shape c -> is_neg c = false -> forall n k, k + n = length (sets c) ->
  has_foreign c (seq k n) = Some (bool_decide (omap foreign (drop k (sets c)) <> [])).
Proof.
  intros Hs Hn. induction n as [|n IH]; intros k Hk; cbn [seq has_foreign].
  - by rewrite drop_ge by lia.
  - destruct (lookup_lt_is_Some_2 (sets c) k) as [r Hr]; [lia|]. rewrite (rrarr_index_sets c k Hs Hn), Hr. sbind.
    rewrite (drop_S _ _ _ Hr). cbn [omap list_omap]. destruct r as [rs|]; cbn [foreign mbind option_bind]; [|apply IH; lia].
    destruct (tst (rs_flags rs) CF_LOCAL); cbn [negb]; [apply IH; lia|done].
Qed.

Lemma to_write_spec c : shape c -> to_write c = Some (saved c).
Proof.
  intros Hs. pose proof Hs as [Hn _]. unfold to_write, saved. rewrite Hn. destruct (is_neg c) eqn:E; [done|].
  rewrite (rrarr_len_sets c Hs). sbind. rewrite (has_foreign_spec c Hs E) by lia. by rewrite drop_0.
Qed.

Lemma length_omap_le {A B} (f : A -> option B) (l : list A) : length (omap f l) <= length l.
Proof. induction l as [|x l IH]; [done|]. cbn. destruct (f x); cbn; lia. Qed.

Lemma count_foreign_spec c : shape c -> is_neg c = false -> forall n k m, k + n = length (sets c) ->
  (0 <= m)%Z -> (m + Z.of_nat n < 256)%Z ->
  count_foreign c (seq k n) m = Some (m + Z.of_nat (length (omap foreign (drop k (sets c)))))%Z.
Proof.
  intros Hs Hn. induction n as [|n IH]; intros k m Hk Hm Hlt; cbn [seq count_foreign].
  - rewrite drop_ge by lia. cbn. f_equal. lia.
  - destruct (lookup_lt_is_Some_2 (sets c) k) as [r Hr]; [lia|]. rewrite (rrarr_index_sets c k Hs Hn), Hr. sbind.
    rewrite (drop_S _ _ _ Hr). cbn [omap list_omap]. destruct r as [rs|]; cbn [foreign mbind option_bind]; [|apply IH; lia].
    destruct (tst (rs_flags rs) CF_LOCAL); cbn [negb]; [apply IH; lia|].
    rewrite u8_small by (unfold is_byte; lia). rewrite IH by lia. cbn [length]. f_equal. unfold is_byte. lia.
Qed.

Lemma count_file_sets c : shape c ->
  exists n, rrarr_len c = Some n /\ count_foreign c (seq 0 n) 0 = Some (Z.of_nat (length (file_sets c))).
Proof.
  intros Hs. exists (length (sets c)). split; [by apply rrarr_len_sets|]. rewrite length_file_sets by done.
  pose proof (length_sets c Hs) as Hl. unfold NRRTOT in Hl. destruct (is_neg c) eqn:E.
  - unfold sets, is_neg in *. by destruct (body c).
  - rewrite (count_foreign_spec c Hs E) by lia. by rewrite drop_0.
Qed.

Lemma write_entry_spec c f : cent_ok c -> storable c -> exists r, write_entry c f = Some r /\ wrote f (enc_entry c) r.
Proof.
  intros (Hs & (N & HN & Hq) & _) (_ & _ & _ & _ & Hst). unfold write_entry. pose proof Hs as [Hng _].
  assert (Hlen : rhnlen (qname c) = Some (length (qname c))).
  { rewrite Hq at 1. rewrite <- (app_nil_r (enc_name N)). rewrite rhnlen_enc by apply HN. by rewrite Hq. }
  rewrite Hlen. sbind. destruct (count_file_sets c Hs) as (n & -> & Hn). sbind. rewrite Hn. sbind.
  assert (Hql : 0 < length (qname c) <= 256).
  { rewrite Hq. split; [unfold enc_name; rewrite length_app; cbn; lia|apply HN]. }
  assert (Eq : u8 (Z.of_nat (length (qname c)) - 1) = (Z.of_nat (length (qname c)) - 1)%Z) by (apply u8_small; unfold is_byte; lia).
  rewrite Eq. cbn [fe_qlen]. rewrite Hng. unfold enc_entry. apply (wrote_seq f _ _ (fwrite _ f)); [apply wrote_fwrite|]. intros f1.
  assert (Ht : exists r, (if is_neg c then match body c with
    | Neg _ ttl ts => Some (fwrite (to_bytes {| ft_ttl := ttl; ft_ts := ts |}) f1) | Rr _ _ => None end else Some (true, f1)) = Some r /\
    wrote f1 (enc_times c) r).
  { unfold is_neg, enc_times. destruct (body c); eexists; (split; [done|]); [apply wrote_fwrite|apply wrote_none]. }
  destruct Ht as (r1 & -> & Hr1). sbind. apply (wrote_seq f1 _ _ r1); [done|]. intros f2.
  assert (Hname : exists r, (if (Z.of_nat (length (qname c)) - 1 =? 0)%Z then Some (true, f2)
    else q ← rd_bytes (qname c) 0 (Z.to_nat (Z.of_nat (length (qname c)) - 1)); Some (fwrite q f2)) = Some r /\
    wrote f2 (take (length (qname c) - 1) (qname c)) r).
  { replace (Z.to_nat (Z.of_nat (length (qname c)) - 1)) with (length (qname c) - 1) by lia.
    destruct (Z.of_nat (length (qname c)) - 1 =? 0)%Z eqn:E; boolp.
    - replace (length (qname c) - 1) with 0 by lia. eexists. split; [done|apply wrote_none].
    - unfold rd_bytes. rewrite decide_True by lia. sbind. rewrite drop_0. eexists. split; [done|apply wrote_fwrite]. }
  destruct Hname as (r2 & -> & Hr2). sbind. apply (wrote_seq f2 _ _ r2); [done|]. intros f3.
  destruct (rriterlist_spec c Hs) as (l & Hl & _ & Hc & _). unfold file_sets. rewrite Hl. sbind. cbn [default from_option]. unfold id.
  destruct (is_neg c) eqn:E; [|by apply write_rrsets_spec].
  unfold rriterlist in Hl. rewrite Hng in Hl. injection Hl as <-. eexists. split; [done|apply wrote_none].
Qed.

(** ** The whole file *)

(** The entries that are saved, in the order of the hash table. *)
Definition saved_entries (s : cache) : list dns_cent := filter (fun c => saved c = true) (omap (fun id => cents s !! id) (all_entries s)).

Definition enc_cache (s : cache) : list Z :=
  cachverid ++ le_bytes sizeof_long (Z.of_nat (length (saved_entries s))) ++ concat (enc_entry <$> saved_entries s).

Lemma count_entries_spec s ids : forall n, (forall id c, cents s !! id = Some c -> cent_ok c) ->
  Forall (fun id => is_Some (cents s !! id)) ids -> (0 <= n)%Z -> (n + Z.of_nat (length ids) < 2 ^ ul_bits)%Z ->
  count_entries s ids n = Some (n + Z.of_nat (length (filter (fun c => saved c = true) (omap (fun id => cents s !! id) ids))))%Z.
Proof.
  induction ids as [|id ids IH]; intros n Hok Hids Hn Hlt; cbn [count_entries omap list_omap]; [cbn; f_equal; lia|].
  apply Forall_cons in Hids as [[c Hc] Hids]. rewrite Hc. sbind. rewrite to_write_spec by (eapply Hok, Hc). sbind. cbn [length] in Hlt.
  destruct (saved c) eqn:E.
  - rewrite Z.mod_small, IH by (done || lia). rewrite filter_cons_True by done. cbn [length]. f_equal. lia.
  - rewrite IH by (done || lia). by rewrite filter_cons_False by congruence.
Qed.

(** The rest of a file that is written. *)
Lemma write_entries_spec s ids : forall f, (forall id c, cents s !! id = Some c -> cent_ok c /\ storable c) ->
  Forall (fun id => is_Some (cents s !! id)) ids ->
  exists r, write_entries s ids f = Some r.2 /\
    wrote f (concat (enc_entry <$> filter (fun c => saved c = true) (omap (fun id => cents s !! id) ids))) r.
Proof.
  induction ids as [|id ids IH]; intros f Hok Hids; cbn [write_entries omap list_omap].
  { exists (true, f). split; [done|apply wrote_none]. }
  apply Forall_cons in Hids as [[c Hc] Hids]. rewrite Hc. sbind. rewrite to_write_spec by (eapply Hok, Hc). sbind.
  destruct (saved c) eqn:E; [|rewrite filter_cons_False by congruence; by apply IH].
  rewrite filter_cons_True by done. cbn [fmap list_fmap concat].
  destruct (write_entry_spec c f) as ([[] f1] & -> & Hw); [by eapply Hok|by eapply Hok|..]; sbind.
  - destruct (IH f1 Hok Hids) as (r & -> & Hr). exists r. split; [done|]. by eapply wrote_app.
  - exists (false, f1). split; [done|]. by eapply wrote_app.
Qed.
End Writing.

(** ** The order of the entries *)

Section Order.
Context {P : Platform}.

Lemma nodup_concat {A} (f : A -> option nat) (tab : list (list A)) : forall k,
  (forall b c x, tab !! b = Some c -> x ∈ c -> f x = Some (k + b)) -> Forall (fun c => NoDup c) tab -> NoDup (concat tab).
Proof.
  induction tab as [|c tab IH]; intros k Hf Hc; cbn [concat]; [constructor|]. apply Forall_cons in Hc as [Hc Htab]. apply NoDup_app. splits.
  - done.
  - intros x Hx Hin. apply list_elem_of_In, in_concat in Hin as (c' & Hc' & Hxc). apply list_elem_of_In in Hc', Hxc.
    apply list_elem_of_lookup in Hc' as [b Hb]. pose proof (Hf 0 c x eq_refl Hx) as H0. pose proof (Hf (S b) c' x Hb Hxc) as H1.
    rewrite H0 in H1. injection H1 as H1. lia.
  - apply (IH (S k)); [|done]. intros b c' x Hb Hx. rewrite (Hf (S b) c' x Hb Hx). f_equal. lia.
Qed.

(** The bucket of an entry follows from its name. *)
Definition bucket_of (s : cache) (id : positive) : option nat := q ← qname_at s id; '(b, _) ← dns_hash q; Some b.

Lemma all_entries_spec s : inv s ->
  NoDup (all_entries s) /\ forall id, id ∈ all_entries s <-> is_Some (cents s !! id).
Proof.
  intros Hi. pose proof Hi as (_ & [m [[[Hlen Hinv] Hrep] Hdom]] & _). unfold all_entries. rewrite fetch_all_spec by lia.
  assert (Hent : forall b c he, buckets s !! b = Some c -> he ∈ c -> exists N, wf_name N /\ qname_at s (hdata he) = Some (enc_name N) /\ hash_of N = (b, rhash he)).
  { intros b c he Hb Hin. destruct (Hinv b c Hb) as [Hok _]. rewrite Forall_forall in Hok. by apply Hok. }
  split.
  - rewrite concat_map. apply (nodup_concat (bucket_of s) _ 0).
    + intros b l id Hb Hid. rewrite list_lookup_fmap in Hb. destruct (buckets s !! b) as [c|] eqn:Hc; [|done]. injection Hb as <-.
      apply list_elem_of_fmap in Hid as (he & -> & Hhe). destruct (Hent b c he Hc Hhe) as (N & HN & Hq & Hh).
      unfold bucket_of. rewrite Hq. sbind. rewrite <- (app_nil_r (enc_name N)), dns_hash_enc by apply HN. sbind. by rewrite Hh.
    + apply Forall_fmap, Forall_lookup_2. intros b c Hc. cbn. destruct (Hinv b c Hc) as (_ & _ & Hnd).
      apply (NoDup_fmap_1 (key_of (qname_at s))). by rewrite <- list_fmap_compose.
  - intros id. rewrite Hdom, list_elem_of_fmap. split.
    + intros (he & -> & Hin). apply list_elem_of_In, in_concat in Hin as (c & Hc & Hhe). apply list_elem_of_In in Hc, Hhe.
      apply list_elem_of_lookup in Hc as [b Hb]. destruct (Hent b c he Hb Hhe) as (N & HN & Hq & Hh).
      exists (fold_key (enc_name N)). apply Hrep. exists b, c, he. splits; try done. unfold key_of. by rewrite Hq.
    + intros [K HK]. apply Hrep in HK as (b & c & he & Hb & Hin & <- & _). exists he. split; [done|].
      apply list_elem_of_In, in_concat. exists c. split; apply list_elem_of_In; [by eapply list_elem_of_lookup_2|done].
Qed.

Lemma length_all_entries s : inv s -> length (all_entries s) = size (cents s).
Proof.
  intros Hi. destruct (all_entries_spec s Hi) as [Hnd Hin]. rewrite <- (size_dom (cents s)), <- (size_list_to_set (C := gset positive)) by done.
  apply set_size_proper. intros id. by rewrite elem_of_list_to_set, Hin, elem_of_dom.
Qed.

Context (now : Z) (global : globals).

Lemma write_disk_cache_spec outcomes s s1 :
  inv s1 -> purge_cache now (g_perm_cache global * 1024) false s = Some (tt, s1) ->
  (forall id c, cents s1 !! id = Some c -> storable c) -> (Z.of_nat (size (cents s1)) < 2 ^ ul_bits)%Z ->
  exists f, write_disk_cache now global true outcomes s = Some (Some f, s1) /\ f `prefix_of` enc_cache s1 /\
    (outcomes = [] -> f = enc_cache s1).
Proof.
  intros Hi Hpurge Hst Hsz. unfold write_disk_cache. unfold mbind at 1, M_bind. rewrite Hpurge. cbn [negb].
  unfold mbind at 1, M_bind, getM.
  assert (Hids : Forall (fun id => is_Some (cents s1 !! id)) (all_entries s1)).
  { apply Forall_forall. intros id. by apply all_entries_spec. }
  assert (Hok : forall id c, cents s1 !! id = Some c -> cent_ok c) by (intros; by eapply inv_cent).
  set (f0 := {| contents := []; faults := outcomes |}).
  assert (Hfin : forall r, wrote f0 (enc_cache s1) r -> contents r.2 `prefix_of` enc_cache s1 /\ (outcomes = [] -> contents r.2 = enc_cache s1)).
  { intros r (Hf & p & Hp & Hc & He). cbn in Hc. rewrite Hc. split; [done|]. intros H. by apply He, Hf. }
  pose proof (wrote_fwrite cachverid f0) as H1. destruct (fwrite cachverid f0) as [[] f1]; cbn [negb].
  2:{ exists (contents f1). split; [done|]. apply (Hfin (false, f1)). unfold enc_cache. by eapply wrote_app. }
  unfold mbind at 1, M_bind, liftM at 1. rewrite count_entries_spec by (done || rewrite ?length_all_entries by done; lia).
  cbn [mbind option_bind]. fold (saved_entries s1). rewrite Z.add_0_l.
  pose proof (wrote_fwrite (le_bytes sizeof_long (Z.of_nat (length (saved_entries s1)))) f1) as H2.
  destruct (fwrite _ f1) as [[] f2]; cbn [negb].
  2:{ exists (contents f2). split; [done|]. apply (Hfin (false, f2)). unfold enc_cache. eapply wrote_app; [exact H1| |done]. intros _. by eapply wrote_app. }
  unfold mbind, M_bind, liftM.
  destruct (write_entries_spec s1 (all_entries s1) f2) as (r & -> & H3); [intros id c Hc; split; [by eapply Hok|by eapply Hst]|done|].
  cbn [mbind option_bind]. exists (contents r.2). split; [done|]. apply Hfin. unfold enc_cache.
  eapply wrote_app; [exact H1| |done]. intros _. eapply wrote_app; [exact H2| |done]. by intros _.
Qed.
End Order.
