(* ===== verification/DiskTrip.v ===== *)
(** Reading back (Disk) what has been written: the entries of a cache file that was written
    without errors are restored one by one. *)
From S2P Require Import Prelude Names DnsName Compress RrTypes HashTab RrList Cent CentSpec Cache CacheInv CachePurge CacheAdd CacheOps.
From S2P Require Import Answer AnswerRr AnswerSet Query QueryDecode QuerySafe Reply ReplyData ReplySpec Disk DiskSpec DiskWrite.

(** ** The array of less used types

    It is not allocated for the most used ones. *)

Definition no_ext (c : dns_cent) : Prop := match body c with Rr _ (Some _) => False | _ => True end.

Lemma M_bind_inv {A B} (m : M A) (k : A -> M B) s b s2 :
  mbind k m s = Some (b, s2) -> exists a s1, m s = Some (a, s1) /\ k a s1 = Some (b, s2).
Proof. unfold mbind, M_bind. destruct (m s) as [[a s1]|]; [|done]. intros H. by exists a, s1. Qed.

Lemma liftM_inv {A} (o : option A) s a s' : liftM o s = Some (a, s') -> o = Some a /\ s' = s.
Proof. unfold liftM. destruct o; [|done]. cbn. by intros [= -> ->]. Qed.

(** Take a run of a sequence apart. *)
Ltac inv_M := repeat match goal with
  | H : mbind _ _ _ = Some _ |- _ => apply M_bind_inv in H as (? & ? & ? & H)
  | H : liftM _ _ = Some _ |- _ => apply liftM_inv in H as [? ->]
  | H : mret _ _ = Some _ |- _ => injection H as <- <-
  | x : (_ * _)%type |- _ => destruct x
  | H : context [if ?b then _ else _] |- _ => destruct b eqn:?; try discriminate H
  end.

Section Ext.
Context {P : Platform}.

Lemma no_ext_set c i v c' : rrarr_set c i v = Some c' -> no_ext c -> no_ext c'.
Proof.
  unfold rrarr_set, no_ext. destruct (body c) as [|rrmu rrext]; [done|]. intros H Hn. destruct rrext as [e|]; [done|].
  destruct (i <? NRRMU); [|done]. destruct (decide (i < length rrmu)); [|done]. by injection H as <-.
Qed.

Lemma no_ext_add_rrset c idx ttl ts fl s r s' :
  add_cent_rrset_by_index c idx ttl ts fl s = Some (r, s') -> idx < NRRMU -> no_ext c -> no_ext r.2.
Proof.
  unfold add_cent_rrset_by_index. intros H Hi Hn. apply M_bind_inv in H as (c1 & s1 & H1 & H).
  assert (Hn1 : no_ext c1).
  { destruct (tst (flags c) DF_NEGATIVE); [|by injection H1 as <- <-]. destruct (body c) eqn:Hb; [|discriminate H1]. inv_M. done. }
  apply M_bind_inv in H as (o & s2 & H2 & H). unfold rrset_slot in H2. destruct (idx <? NRRMU) eqn:E; boolp; [|lia].
  injection H2 as <- <-. apply M_bind_inv in H as ([] & s3 & _ & H); apply M_bind_inv in H as (c2 & s4 & H2 & H);
    apply liftM_inv in H2 as [H2 ->]; injection H as <- <-; by eapply no_ext_set in H2.
Qed.

Lemma no_ext_add_rr c tp ttl ts fl d s r s' :
  add_cent_rr c tp ttl ts fl d s = Some (r, s') -> type_idx tp < NRRMU -> no_ext c -> no_ext r.2.
Proof.
  unfold add_cent_rr. intros H Hi Hn. destruct (tst (flags c) DF_LOCAL && negb (tst fl CF_LOCAL)); [by injection H as <- <-|].
  destruct ((0 <=? tp - T_MIN)%Z && (tp - T_MIN <? Z.of_nat T_NUM)%Z); [|discriminate H].
  apply M_bind_inv in H as (idx & s1 & H1 & H). apply liftM_inv in H1 as [H1 ->].
  assert (Hidx : idx < NRRMU) by (unfold type_idx in Hi; by rewrite H1 in Hi). destruct (idx <? NRRTOT); [|discriminate H].
  apply M_bind_inv in H as (o & s1 & H2 & H). apply liftM_inv in H2 as [_ ->].
  apply M_bind_inv in H as ([c1 found] & s1 & H2 & H).
  assert (Hn1 : no_ext c1).
  { destruct o as [rs|]; [|by injection H2 as <- <- <-]. apply M_bind_inv in H2 as (c2 & s2 & H3 & H2).
    apply liftM_inv in H3 as [H3 ->]. injection H2 as <- _ <-. by eapply no_ext_set. }
  destruct found as [rtail|]; [|by injection H as <- <-]. apply M_bind_inv in H as ([[ok c2] rt2] & s2 & H3 & H).
  injection H as <- <-. cbn [snd]. unfold add_cent_rr_int in H3. apply M_bind_inv in H3 as (rr & s3 & _ & H3).
  destruct rr as [rr|]; [|by injection H3 as <- <- <- <-]. apply M_bind_inv in H3 as ([ok3 c3] & s4 & H4 & H3).
  assert (Hn3 : no_ext c3).
  { destruct rtail; [by injection H4 as <- <- <-|]. apply M_bind_inv in H4 as (o3 & s5 & H5 & H4). apply liftM_inv in H5 as [_ ->].
    destruct o3; [by injection H4 as <- <- <-|]. by apply no_ext_add_rrset in H4. }
  destruct ok3; [|by injection H3 as <- <- <- <-]. clear H2 H4. inv_M.
  match goal with H : rrarr_set _ _ _ = Some _ |- _ => exact (no_ext_set _ _ _ _ H Hn3) end.
Qed.
End Ext.

(** ** Steps that succeed *)

Section Exact.
Context {P : Platform}.

(** With enough memory the step has a result. *)
Definition succeeds {A} (s : cache) (Q : A -> Prop) (r : stop + A) (s' : cache) : Prop :=
  mem_only s s' /\ plenty s' /\ exists a, r = inr a /\ Q a.

Lemma exact_try {A B} (m : M (stop + A)) (k : A -> M (stop + B)) s Q Q' :
  runs m s (succeeds s Q) -> (forall a s', plenty s' -> Q a -> runs (k a) s' (succeeds s' Q')) -> runs (tryM m k) s (succeeds s Q').
Proof.
  intros Hm Hk. apply runs_try. eapply runs_weaken; [exact Hm|]. cbn beta. intros r s' (Hs & Hp & a & -> & Ha).
  eapply runs_weaken; [by apply Hk|]. cbn beta. intros r s'' (Hs' & Hp' & Hr). split; [by eapply mem_only_trans|done].
Qed.

Lemma exact_go {A} (a : A) s (Q : A -> Prop) : plenty s -> Q a -> runs (go a) s (succeeds s Q).
Proof. intros Hp H. apply runs_ret. split; [auto with pdnsd|]. split; [done|by exists a]. Qed.

Lemma exact_need {A} e (o : option A) a s (Q : A -> Prop) : plenty s -> o = Some a -> Q a -> runs (need e o) s (succeeds s Q).
Proof. intros Hp -> H. by apply exact_go. Qed.

Lemma exact_run {A B} (m : M A) (k : A -> M (stop + B)) s (R : A -> Prop) Q :
  runs m s (fun a s' => mem_only s s' /\ plenty s' /\ R a) -> (forall a s', plenty s' -> R a -> runs (k a) s' (succeeds s' Q)) ->
  runs (mbind k m) s (succeeds s Q).
Proof.
  intros Hm Hk. apply runs_bind. eapply runs_weaken; [exact Hm|]. cbn beta. intros a s' (Hs & Hp & H).
  eapply runs_weaken; [by apply Hk|]. cbn beta. intros r s'' (Hs' & Hp' & Hr). split; [by eapply mem_only_trans|done].
Qed.

Lemma exact_malloc {B} (k : bool -> M (stop + B)) s Q :
  plenty s -> (forall s', plenty s' -> runs (k true) s' (succeeds s' Q)) -> runs (mbind k malloc) s (succeeds s Q).
Proof.
  intros Hp Hk. eapply (exact_run _ _ _ (fun b => b = true)).
  - eapply runs_weaken; [by apply runs_malloc_plenty|]. cbn beta. intros b s' (-> & ? & ?). done.
  - intros b s' Hp' ->. by apply Hk.
Qed.

(** ** Sets *)

(** Records are added unless they are there. *)
Definition add_once (l : list (list Z)) (d : list Z) : list (list Z) := if decide (d ∈ l) then l else l ++ [d].
Definition once (l : list (list Z)) : list (list Z) := fold_left add_once l [].

(** [ce'] is [ce] with the set [rs] at [idx]. *)
Definition built (ce ce' : dns_cent) (idx : nat) (rs : rr_set) : Prop :=
  loose ce' /\ keeps ce ce' /\ flags ce' = flags ce /\ is_neg ce' = false /\ slot ce' idx = Some rs /\
  (forall j, j <> idx -> slot ce' j = slot ce j) /\ (idx < NRRMU -> no_ext ce -> no_ext ce').

Lemma built_trans ce ce1 ce2 idx rs rs' : built ce ce1 idx rs -> built ce1 ce2 idx rs' -> built ce ce2 idx rs'.
Proof.
  intros (_ & Hk & Hf & _ & _ & Ho & He) (Hl & Hk' & Hf' & Hn & Hs & Ho' & He'). unfold built.
  splits; [done|by eapply keeps_trans|congruence|done|done| |auto]. intros j Hj. by rewrite Ho', Ho.
Qed.

(** What becomes of the records of a set that is read into an entry with these flags. *)
Definition taken (ceflags fl : Z) (rrs : list (list Z)) (d : list Z) : list (list Z) :=
  if tst ceflags DF_LOCAL && negb (tst fl CF_LOCAL) then rrs else add_once rrs d.

Lemma exact_add_rr ce tp ttl ts fl d s rs :
  loose ce -> not_cached_type tp = false -> slot ce (type_idx tp) = Some rs -> rs_ttl rs = ttl -> plenty s ->
  runs (add_cent_rr ce tp ttl ts fl d) s (fun r s' => mem_only s s' /\ plenty s' /\
    r.1 = true /\ built ce r.2 (type_idx tp) (rs_set_rrs (taken (flags ce) fl (rs_rrs rs) d) rs)).
Proof.
  intros [Hok Hl] Ht Hsl Httl Hp. set (idx := type_idx tp) in *. destruct (slot_lt ce idx rs) as [_ Hneg]; [apply Hok|done|].
  destruct (runs_add_cent_rr ce tp ttl ts fl d s Hok (Hl None) Ht) as (r & s' & Hrun & Hm & Hpl & Hok' & Hk & Hfl & Hn & Hln & _ & Ho & Hr).
  exists r, s'. split; [done|]. destruct (Hpl Hp) as [Hr1 Hp']. splits; [done|done|done|]. fold idx in Ho, Hr.
  specialize (Hn Hneg). assert (Hflags : flags r.2 = flags ce) by (apply flags_same; [apply Hok|apply Hok'|congruence|done]).
  assert (Hslot : slot r.2 idx = Some (rs_set_rrs (taken (flags ce) fl (rs_rrs rs) d) rs)).
  { unfold taken. destruct (tst (flags ce) DF_LOCAL && negb (tst fl CF_LOCAL)).
    - subst r. cbn [snd]. rewrite Hsl. by destruct rs.
    - destruct Hr as (Hrec & Hold & _). destruct (Hold rs Hsl) as (rs' & Hs' & Et & Ets & Ef & El). rewrite Hs'. f_equal.
      unfold rrs_at in Hrec. rewrite Hs', Hsl in Hrec. cbn [from_option] in Hrec. destruct rs as [a b c e l], rs' as [a' b' c' e' l'].
      unfold rs_set_rrs. cbn in *. subst. rewrite Z.min_id. f_equal. unfold add_once.
      destruct (decide (d ∈ l)); [rewrite bool_decide_false by tauto; by rewrite app_nil_r|by rewrite bool_decide_true by tauto]. }
  unfold built. splits; try done.
  - split; [done|]. intros [j|]; [|done]. destruct (decide (j = idx)) as [->|Hj].
    + specialize (Hl (Some idx)). unfold lent_of in *. rewrite Hslot. rewrite Hsl in Hl. exact Hl.
    + specialize (Hl (Some j)). unfold lent_of in *. by rewrite Ho.
  - intros Hi He. by eapply no_ext_add_rr.
Qed.

Lemma exact_read_rr sh ce data rr f s rs :
  loose ce -> not_cached_type (sh_tp sh) = false -> slot ce (type_idx (sh_tp sh)) = Some rs -> rs_ttl rs = sh_ttl sh -> plenty s ->
  fits_u 2 (Z.of_nat (length rr)) ->
  runs (read_rr sh ce data (enc_rr rr ++ f)) s (succeeds s (fun '(ce', data', f') => f' = f /\
    built ce ce' (type_idx (sh_tp sh)) (rs_set_rrs (taken (flags ce) (sh_flags sh) (rs_rrs rs) rr) rs))).
Proof.
  intros Hce Ht Hsl Httl Hp Hfit. unfold read_rr, enc_rr. rewrite <- app_assoc.
  eapply exact_try; [eapply exact_need; [done|exact (fread_struct_app {| rdlen := Z.of_nat (length rr) |} _ Hfit)|apply eq_refl]|].
  intros x s1 Hp1 <-. cbv beta iota zeta. cbn [rdlen].
  rewrite Nat2Z.id. eapply (exact_try _ _ _ (fun data => length rr <= length data)).
  { destruct (length data <? length rr) eqn:E; boolp; [|by apply exact_go].
    apply exact_malloc; [done|]. intros s2 Hp2. apply exact_go; [done|]. rewrite length_app, length_replicate. lia. }
  clear data. intros data s2 Hp2 Hd.
  eapply (exact_try _ _ _ (fun x => x.2 = f /\ length rr <= length x.1 /\ take (length rr) x.1 = rr)).
  { destruct (length rr =? 0) eqn:E; boolp.
    - apply exact_go; [done|]. cbn [fst snd]. destruct rr; [|done]. splits; [done|cbn; lia|done].
    - eapply exact_try; [eapply exact_need; [done|apply fread_app|apply eq_refl]|]. intros x s3 Hp3 <-. cbv beta iota.
      pose proof (wr_bytes_app_mid rr [] data Hd) as Hw. cbn [app length] in Hw. run_lift; [exact Hw|].
      apply exact_go; [done|]. cbn [fst snd]. splits; [done|rewrite length_app; lia|by rewrite take_app_length]. }
  intros [d' f2] s3 Hp3 (E & Hd' & Htk). cbn [fst snd] in *. subst f2. run_lift; [unfold rd_bytes; by rewrite decide_True by lia|].
  rewrite drop_0, Htk. eapply exact_run; [by eapply exact_add_rr|]. intros [ok ce'] s4 Hp4 [Hok Hb]. cbn [fst snd] in *. subst ok.
  by apply exact_go.
Qed.

Lemma exact_read_rrs sh rrs : forall ce data f s rs,
  loose ce -> not_cached_type (sh_tp sh) = false -> slot ce (type_idx (sh_tp sh)) = Some rs -> rs_ttl rs = sh_ttl sh -> plenty s ->
  Forall (fun rr => fits_u 2 (Z.of_nat (length rr))) rrs -> rrs <> [] ->
  runs (read_rrs (length rrs) sh ce data (concat (enc_rr <$> rrs) ++ f)) s (succeeds s (fun '(ce', data', f') => f' = f /\
    built ce ce' (type_idx (sh_tp sh)) (rs_set_rrs (fold_left (taken (flags ce) (sh_flags sh)) rrs (rs_rrs rs)) rs))).
Proof.
  induction rrs as [|rr rrs IH]; intros ce data f s rs Hce Ht Hsl Httl Hp Hf Hne; [done|]. cbn [read_rrs length fmap list_fmap concat fold_left].
  apply Forall_cons in Hf as [Hr Hf]. rewrite <- app_assoc. eapply exact_try; [by eapply exact_read_rr|].
  intros [[ce1 d1] f1] s1 Hp1 [-> Hb]. pose proof Hb as (Hl1 & _ & Hfl & _ & Hs1 & _). destruct rrs as [|rr2 rrs].
  { cbn [length read_rrs fmap list_fmap concat fold_left app]. by apply exact_go. }
  eapply runs_weaken; [by eapply (IH ce1)|]. cbn beta. intros r s2 (Hm & Hp2 & [[ce2 d2] f2] & -> & -> & Hb2).
  split; [done|]. split; [done|]. eexists. split; [done|]. split; [done|].
  eapply built_trans; [exact Hb|]. rewrite Hfl in Hb2. exact Hb2.
Qed.
End Exact.

Section Sets.
Context {P : Platform}.

(** A set as it is read back into an entry with the flags [ceflags]: without duplicates, the
    first 255 records only; none if the entry is local, which ignores records that are not. *)
Definition read_back (ceflags : Z) (rs : rr_set) : rr_set :=
  {| rs_lent := None; rs_ttl := rs_ttl rs; rs_ts := rs_ts rs; rs_flags := rs_flags rs;
     rs_rrs := if tst ceflags DF_LOCAL then [] else once (take 255 (rs_rrs rs)) |}.

Lemma fold_taken cf fl l : forall acc,
  fold_left (taken cf fl) l acc = if tst cf DF_LOCAL && negb (tst fl CF_LOCAL) then acc else fold_left add_once l acc.
Proof.
  induction l as [|d l IH]; intros acc; cbn [fold_left]; [by destruct (_ && _)|]. rewrite IH. unfold taken.
  by destruct (tst cf DF_LOCAL && negb (tst fl CF_LOCAL)).
Qed.

Lemma exact_add_set ce tp ttl ts fl s :
  loose ce -> is_neg ce = false -> not_cached_type tp = false -> slot ce (type_idx tp) = None -> fits_u 2 fl -> plenty s ->
  runs (add_cent_rrset_by_type ce tp ttl ts fl) s (fun r s' => mem_only s s' /\ plenty s' /\ r.1 = true /\
    built ce r.2 (type_idx tp) {| rs_lent := None; rs_ttl := ttl; rs_ts := ts; rs_flags := fl; rs_rrs := [] |}).
Proof.
  intros Hce Hn Ht Hsl Hfl Hp.
  destruct (runs_add_set_loose ce tp ttl ts fl s Hce Ht Hsl) as (r & s' & Hrun & Hm & Hpl & Hl & Hk & Hn' & Hf & Ho & Hres).
  exists r, s'. split; [done|]. destruct (Hpl Hp) as [Hr1 Hp']. rewrite Hr1 in Hres. splits; [done|done|done|].
  assert (Efl : u16 fl = fl) by (by apply Z.mod_small). unfold new_rrset in Hres. rewrite Efl in Hres.
  unfold built. splits; try done.
  - apply flags_same; [apply Hce|apply Hl|congruence|done].
  - intros Hi He. destruct (cached_index tp Ht) as [Hti _]. unfold type_index in Hti. unfold add_cent_rrset_by_type in Hrun.
    destruct ((0 <=? tp - T_MIN)%Z && (tp - T_MIN <? Z.of_nat T_NUM)%Z); [|done].
    apply M_bind_inv in Hrun as (idx & s1 & H1 & Hrun). apply liftM_inv in H1 as [H1 ->].
    rewrite Hti in H1. injection H1 as <-. by eapply no_ext_add_rrset.
Qed.

Lemma exact_read_rrset prevtp ce data tp rs f s :
  loose ce -> is_neg ce = false -> empty_above ce prevtp -> not_cached_type tp = false -> (prevtp < tp)%Z ->
  storable_set rs -> tst (rs_flags rs) CF_LOCAL = false -> plenty s ->
  runs (read_rrset prevtp ce data (enc_set (tp, rs) ++ f)) s (succeeds s (fun '(tp', ce', data', f') => tp' = tp /\ f' = f /\
    built ce ce' (type_idx tp) (read_back (flags ce) rs))).
Proof.
  intros Hce Hn He Ht Hlt (Hfl & Httl & Hts & Hrr) Hloc Hp. unfold read_rrset, enc_set. cbn [fst snd]. rewrite <- app_assoc.
  assert (Hfit : fits_fset (set_header tp rs)).
  { pose proof (not_cached_range tp Ht) as Hr. unfold T_MIN, T_MAX in Hr. unfold fits_fset, set_header. cbn.
    splits; try done; unfold fits_u; [lia|]. rewrite length_take. lia. }
  eapply exact_try; [eapply exact_need; [done|exact (fread_struct_app (set_header tp rs) _ Hfit)|apply eq_refl]|].
  intros x s1 Hp1 <-. cbv beta iota. cbn [set_header sh_tp sh_num_rr sh_flags sh_ttl sh_ts]. rewrite Ht. bool_false (tp <=? prevtp)%Z.
  eapply exact_run; [apply (exact_add_set ce tp); try done; by apply He|]. intros [ok ce1] s2 Hp2 [Hok Hb]. cbn [fst snd] in *. subst ok. cbn [negb].
  pose proof Hb as (Hl1 & _ & Hf1 & _ & Hs1 & _). rewrite Nat2Z.id.
  eapply (exact_try _ _ _ (fun '(ce', data', f') => f' = f /\ built ce ce' (type_idx tp) (read_back (flags ce) rs))).
  - destruct (take 255 (rs_rrs rs)) as [|rr rrs] eqn:Erw.
    + cbn [length read_rrs fmap list_fmap concat app]. apply exact_go; [done|]. split; [done|]. unfold read_back. rewrite Erw.
      cbn [once fold_left]. by destruct (tst (flags ce) DF_LOCAL).
    + eapply runs_weaken; [apply (exact_read_rrs (set_header tp rs) (rr :: rrs)); try done|].
      { rewrite <- Erw. by apply Forall_take. }
      cbn beta. intros r s3 (Hm & Hp3 & [[ce2 d2] f2] & -> & -> & Hb2). split; [done|]. split; [done|]. eexists. split; [done|].
      split; [done|]. eapply built_trans; [exact Hb|]. rewrite fold_taken, Hf1 in Hb2. cbn [set_header sh_flags sh_tp rs_rrs] in Hb2.
      rewrite Hloc, andb_true_r in Hb2. unfold read_back, once. rewrite Erw. exact Hb2.
  - intros [[ce2 d2] f2] s3 Hp3 [-> Hb2]. by apply exact_go.
Qed.

(** The sets of [l] have been added to [ce]. *)
Definition restored (ce ce' : dns_cent) (l : list (Z * rr_set)) : Prop :=
  loose ce' /\ keeps ce ce' /\ flags ce' = flags ce /\ is_neg ce' = false /\
  (forall x, x ∈ l -> slot ce' (type_idx x.1) = Some (read_back (flags ce) x.2)) /\
  (forall j, (forall x, x ∈ l -> type_idx x.1 <> j) -> slot ce' j = slot ce j) /\
  (Forall (fun x => type_idx x.1 < NRRMU) l -> no_ext ce -> no_ext ce').

Lemma exact_read_rrsets l : forall prevtp ce data f s,
  loose ce -> is_neg ce = false -> empty_above ce prevtp -> plenty s ->
  Forall (fun x => not_cached_type x.1 = false /\ storable_set x.2 /\ tst (rs_flags x.2) CF_LOCAL = false) l ->
  StronglySorted (fun x y => x.1 < y.1)%Z l -> Forall (fun x => prevtp < x.1)%Z l ->
  runs (read_rrsets (length l) prevtp ce data (concat (enc_set <$> l) ++ f)) s
    (succeeds s (fun '(ce', data', f') => f' = f /\ restored ce ce' l)).
Proof.
  induction l as [|[tp rs] l IH]; intros prevtp ce data f s Hce Hn He Hp Hl Hs Hlt; cbn [read_rrsets length fmap list_fmap concat].
  - apply exact_go; [done|]. split; [done|]. unfold restored. splits; try done. by intros x ?%not_elem_of_nil.
  - apply Forall_cons in Hl as [(Ht & Hst & Hloc) Hl]. cbn [fst snd] in *. inversion Hs as [|? ? Hs' Hhd]; subst.
    apply Forall_cons in Hlt as [Hlt _]. cbn [fst] in Hlt. rewrite <- app_assoc. eapply exact_try; [by eapply exact_read_rrset|].
    intros [[[tp' ce1] d1] f1] s1 Hp1 (-> & -> & Hl1 & Hk1 & Hf1 & Hn1 & Hs1 & Ho1 & He1).
    eapply runs_weaken; [apply (IH tp ce1)|]; try done; [by eapply empty_above_next|].
    cbn beta. intros r s2 (Hm & Hp2 & [[ce2 d2] f2] & -> & -> & Hl2 & Hk2 & Hf2 & Hn2 & Hs2 & Ho2 & He2).
    split; [done|]. split; [done|]. eexists. split; [done|]. split; [done|]. unfold restored.
    assert (Hdiff : forall x, x ∈ l -> type_idx x.1 <> type_idx tp).
    { intros x Hx E. rewrite Forall_forall in Hl, Hhd. destruct (Hl x Hx) as [Htx _]. specialize (Hhd x Hx). cbn in Hhd.
      apply type_idx_inj in E; [lia|done..]. }
    splits; [done|by eapply keeps_trans|congruence|done| | |].
    + intros x [->|Hx]%elem_of_cons; cbn [fst snd]; [by rewrite Ho2|]. rewrite Hs2 by done. by rewrite Hf1.
    + intros j Hj. rewrite Ho2 by (intros x Hx; apply Hj; by right). apply Ho1. intros ->. apply (Hj (tp, rs)); [by left|done].
    + intros [Hi Hall]%Forall_cons Hex. by apply He2, He1.
Qed.
End Sets.

(** ** Entries *)

Section Entry.
Context {P : Platform}.

Lemma labels_fit_enc N : forall pre r fuel, Forall wf_label N -> length N < fuel ->
  labels_fit fuel (pre ++ enc_labels N ++ r) (length pre + length (enc_labels N)) (length pre) = Some true.
Proof.
  induction N as [|l N IH]; intros pre r fuel HN Hf; (destruct fuel as [|fuel]; [cbn in Hf; lia|]); cbn [labels_fit].
  - change (length (enc_labels [])) with 0. by bool_false (length pre <? length pre + 0).
  - apply Forall_cons in HN as [[Hl Hb] HN]. unfold enc_labels. cbn [map concat]. fold (enc_labels N). unfold enc_label. rewrite !length_app. cbn [length].
    bool_true (length pre <? length pre + (S (length l) + length (enc_labels N))). cbn [app]. rewrite rd_app_mid. sbind.
    bool_false (Z.of_nat (length l) =? 0)%Z. bool_false (63 <? Z.of_nat (length l))%Z. cbn [orb]. rewrite Nat2Z.id.
    bool_false (length pre + (S (length l) + length (enc_labels N)) <? length pre + length l + 1).
    cbn [length] in Hf. specialize (IH (pre ++ Z.of_nat (length l) :: l) r fuel HN ltac:(lia)). rewrite length_app in IH. cbn [length] in IH.
    rewrite <- !app_assoc in IH |- *. cbn [app] in IH |- *.
    replace (length pre + (S (length l) + length (enc_labels N))) with (length pre + S (length l) + length (enc_labels N)) by lia.
    replace (length pre + length l + 1) with (length pre + S (length l)) by lia. exact IH.
Qed.

Lemma exact_read_name N f s :
  wf_name N -> plenty s ->
  runs (read_name (length (enc_labels N)) (enc_labels N ++ f)) s (succeeds s (fun '(nb, f') => f' = f /\
    exists r, wr nb (length (enc_labels N)) 0%Z = Some (enc_name N ++ r))).
Proof.
  intros [HN Hlen] Hp. unfold enc_name in Hlen. rewrite length_app in Hlen. cbn [length] in Hlen. unfold DNSNAMEBUFSIZE in Hlen.
  unfold read_name. destruct (length (enc_labels N) =? 0) eqn:E; boolp.
  - apply exact_go; [done|]. destruct (enc_labels N) eqn:EN; [|done]. split; [done|]. exists (replicate 255 0%Z).
    unfold enc_name. rewrite EN. rewrite wr_lt by (rewrite length_replicate; cbn; lia). done.
  - eapply exact_try; [eapply exact_need; [done|apply fread_app|apply eq_refl]|]. intros x s1 Hp1 <-. cbv beta iota.
    pose proof (wr_bytes_app_mid (enc_labels N) [] (replicate 256 0%Z)) as Hw. cbn [app length] in Hw. rewrite length_replicate, drop_replicate in Hw.
    run_lift; [apply Hw; lia|]. set (z := replicate (256 - length (enc_labels N)) 0%Z).
    assert (Hn : length N < S (length (enc_labels N))).
    { clear -HN. induction HN as [|l N [Hl _] _ IH]; [cbn; lia|]. unfold enc_labels in *. cbn [map concat length]. rewrite length_app. unfold enc_label at 1. cbn [length]. lia. }
    pose proof (labels_fit_enc N [] z (S (length (enc_labels N))) HN Hn) as Hfit. cbn [app length Nat.add] in Hfit.
    run_lift; [exact Hfit|]. apply exact_go; [done|]. split; [done|]. exists (drop 1 z).
    rewrite wr_app_mid by (unfold z; rewrite length_replicate; lia). unfold enc_name. by rewrite <- app_assoc.
Qed.

(** Sizes are not negative. *)
Definition sizes_ok : Prop :=
  (0 <= sizeof_rr_set_t)%Z /\ (0 <= sizeof_rr_bucket_t)%Z /\ (0 <= sizeof_ptr)%Z /\ (0 <= sizeof_dns_cent_t)%Z.

Context (Hsz : sizes_ok).

Lemma rrs_size_nonneg l : (0 <= rrs_size l)%Z.
Proof. destruct Hsz as (_ & ? & _). unfold rrs_size. induction l as [|x l IH]; cbn [fold_right]; lia. Qed.

Lemma rrs_size_once l : forall acc, (rrs_size (fold_left add_once l acc) <= rrs_size acc + rrs_size l)%Z.
Proof.
  induction l as [|x l IH]; intros acc; cbn [fold_left]; [cbn; lia|]. specialize (IH (add_once acc x)).
  destruct Hsz as (_ & Hb & _). change (rrs_size (x :: l)) with (sizeof_rr_bucket_t + Z.of_nat (length x) + rrs_size l)%Z. unfold add_once in *. destruct (decide (x ∈ acc)); [lia|].
  rewrite rrs_size_app in IH. change (rrs_size [x]) with (sizeof_rr_bucket_t + Z.of_nat (length x) + 0)%Z in IH. lia.
Qed.

Lemma rrset_size_back fl rs : (rrset_size (read_back fl rs) <= rrset_size rs)%Z.
Proof.
  unfold rrset_size, read_back. cbn [rs_rrs]. pose proof (rrs_size_nonneg (drop 255 (rs_rrs rs))) as Hd.
  assert (E : rrs_size (rs_rrs rs) = (rrs_size (take 255 (rs_rrs rs)) + rrs_size (drop 255 (rs_rrs rs)))%Z) by (by rewrite <- rrs_size_app, take_drop).
  pose proof (rrs_size_nonneg (rs_rrs rs)). pose proof (rrs_size_once (take 255 (rs_rrs rs)) []) as H1. cbn in H1.
  destruct (tst fl DF_LOCAL); [cbn; lia|]. unfold once. lia.
Qed.

Lemma rrset_size_nonneg rs : (0 <= rrset_size rs)%Z.
Proof. unfold rrset_size. pose proof (rrs_size_nonneg (rs_rrs rs)). destruct Hsz as (? & _). lia. Qed.

Lemma sets_size_slots c : shape c -> sets_size (sets c) = sets_size (slot c <$> seq 0 NRRTOT).
Proof.
  intros Hs. pose proof (length_sets c Hs) as Hl. replace NRRTOT with (length (sets c) + (NRRTOT - length (sets c))) by lia.
  rewrite seq_app, fmap_app, sets_size_app, <- sets_slots. cbn [Nat.add].
  assert (E : slot c <$> seq (length (sets c)) (NRRTOT - length (sets c)) = replicate (NRRTOT - length (sets c)) None).
  { apply list_eq. intros i. rewrite list_lookup_fmap. destruct (decide (i < NRRTOT - length (sets c))) as [Hi|Hi].
    - rewrite lookup_seq_lt, lookup_replicate_2 by done. cbn. unfold slot. by rewrite lookup_ge_None_2 by lia.
    - rewrite (lookup_ge_None_2 (seq _ _)) by (rewrite length_seq; lia). by rewrite lookup_ge_None_2 by (rewrite length_replicate; lia). }
  rewrite E, sets_size_nones. lia.
Qed.

Lemma sets_size_mono (f g : nat -> option rr_set) l :
  (forall j, from_option rrset_size 0%Z (f j) <= from_option rrset_size 0%Z (g j))%Z -> (sets_size (f <$> l) <= sets_size (g <$> l))%Z.
Proof. intros H. induction l as [|j l IH]; [done|]. cbn [fmap list_fmap]. rewrite !sets_size_cons. specialize (H j). lia. Qed.

Lemma cs_nonneg c : cent_ok c -> (0 <= cs c)%Z.
Proof.
  intros (_ & _ & -> & _). unfold cent_size, ext_size, rrext_size. destruct Hsz as (_ & _ & Hp & Hc).
  assert (0 <= sets_size (sets c))%Z.
  { induction (sets c) as [|[rs|] l IH]; [done|..]; rewrite sets_size_cons; cbn; [pose proof (rrset_size_nonneg rs)|]; lia. }
  unfold NRREXT. destruct (body c) as [|m [e|]]; lia.
Qed.

(** What is read for the entry [c]. *)
Definition loaded (c ce : dns_cent) : Prop :=
  loose ce /\ keeps c ce /\ flags ce = flags c /\ is_neg ce = is_neg c /\ (cs ce <= cs c)%Z /\
  if is_neg c then ce = strip c else forall j, slot ce j = read_back (flags c) <$> foreign (slot c j).

Lemma size_loaded c ce : cent_ok c -> cent_ok ce -> qname ce = qname c -> (no_ext c -> no_ext ce) ->
  (forall j, slot ce j = read_back (flags c) <$> foreign (slot c j)) -> (cs ce <= cs c)%Z.
Proof.
  intros (Hs & _ & Hc & _) (Hs' & _ & Hc' & _) Hq He Hsl. rewrite Hc, Hc'. unfold cent_size. rewrite Hq, !sets_size_slots by done.
  assert (Hext : (ext_size ce <= ext_size c)%Z).
  { unfold ext_size, no_ext, rrext_size in *. destruct Hsz as (_ & _ & Hp & _). unfold NRREXT.
    destruct (body c) as [|m [e|]]; destruct (body ce) as [|m' [e'|]]; try lia; exfalso; by apply He. }
  assert (Hsets : (sets_size (slot ce <$> seq 0 NRRTOT) <= sets_size (slot c <$> seq 0 NRRTOT))%Z).
  { apply sets_size_mono. intros j. rewrite Hsl. unfold foreign. destruct (slot c j) as [rs|]; cbn; [|lia].
    destruct (tst (rs_flags rs) CF_LOCAL); cbn; [apply rrset_size_nonneg|apply rrset_size_back]. }
  lia.
Qed.
End Entry.

Section Reload.
Context {P : Platform} (now : Z) (global : globals).

Lemma elem_of_file_sets c x : x ∈ file_sets c <->
  x.1 ∈ default [] (rriterlist c) /\ foreign (slot c (type_idx x.1)) = Some x.2.
Proof.
  unfold file_sets. rewrite list_elem_of_omap. split.
  - intros (tp & Hin & E). destruct (foreign (slot c (type_idx tp))) as [rs|] eqn:Er; [|done]. cbn in E. by injection E as <-.
  - intros [Hin E]. exists x.1. split; [done|]. rewrite E. by destruct x.
Qed.

Lemma file_sets_sorted_list (f : Z -> option rr_set) (l : list Z) :
  StronglySorted Z.lt l -> StronglySorted (fun x y : Z * rr_set => x.1 < y.1)%Z (omap (fun tp => pair tp <$> f tp) l).
Proof.
  induction 1 as [|tp l Hs IH Hall]; cbn [omap list_omap]; [constructor|]. destruct (f tp) as [rs|]; cbn [fmap option_fmap option_map]; [|done].
  constructor; [done|]. apply Forall_forall. intros x Hx. apply list_elem_of_omap in Hx as (tp' & Hin & E).
  destruct (f tp') as [rs'|]; [|done]. injection E as <-. cbn [fst]. rewrite Forall_forall in Hall. by apply Hall.
Qed.

Lemma file_sets_ok c : cent_ok c -> storable c ->
  Forall (fun x => not_cached_type x.1 = false /\ storable_set x.2 /\ tst (rs_flags x.2) CF_LOCAL = false) (file_sets c) /\
  StronglySorted (fun x y => x.1 < y.1)%Z (file_sets c) /\ Forall (fun x => 0 < x.1)%Z (file_sets c).
Proof.
  intros (Hs & _) (_ & _ & _ & _ & Hst). destruct (rriterlist_spec c Hs) as (l & Hl & _ & Hc & Hsort).
  assert (Hmem : forall x, x ∈ file_sets c -> not_cached_type x.1 = false /\ storable_set x.2 /\ tst (rs_flags x.2) CF_LOCAL = false).
  { intros x [Hx E]%elem_of_file_sets. rewrite Hl in Hx. cbn in Hx. unfold id in Hx. rewrite Forall_forall in Hc.
    apply foreign_some in E as [E ?]. splits; [by apply Hc|by eapply Hst|done]. }
  splits.
  - by apply Forall_forall.
  - unfold file_sets. rewrite Hl. cbn [default from_option]. unfold id. by apply file_sets_sorted_list.
  - apply Forall_forall. intros x Hx. destruct (Hmem x Hx) as [Ht _]. apply not_cached_range in Ht. unfold T_MIN in Ht. lia.
Qed.

Lemma restored_slots c ce0 ce : cent_ok c -> restored ce0 ce (file_sets c) -> (forall j, slot ce0 j = None) -> flags ce0 = flags c ->
  forall j, slot ce j = read_back (flags c) <$> foreign (slot c j).
Proof.
  intros (Hs & _) (_ & _ & _ & _ & Hin & Hout & _) H0 Hfl j. destruct (rriterlist_spec c Hs) as (l & Hl & Hp & Hc & _).
  destruct (foreign (slot c j)) as [rs|] eqn:E; cbn [fmap option_fmap option_map].
  - assert (Hj : j ∈ type_idx <$> l).
    { rewrite Hp. apply elem_of_seq. apply foreign_some in E as [E _]. apply slot_lookup, lookup_lt_Some in E. lia. }
    apply list_elem_of_fmap in Hj as (tp & -> & Htp). rewrite <- Hfl. apply (Hin (tp, rs)). apply elem_of_file_sets. cbn [fst snd].
    rewrite Hl. by split.
  - rewrite Hout, H0; [done|]. intros x [_ Hx]%elem_of_file_sets Ej. rewrite Ej in Hx. congruence.
Qed.

Lemma saved_slot c : saved c = true -> is_neg c = false -> exists j rs, foreign (slot c j) = Some rs.
Proof.
  unfold saved. intros Hs Hn. rewrite Hn in Hs. apply bool_decide_eq_true in Hs. destruct (omap foreign (sets c)) as [|rs l] eqn:E; [done|].
  assert (Hin : rs ∈ omap foreign (sets c)) by (rewrite E; by left). apply list_elem_of_omap in Hin as (r & Hr & Hf).
  apply list_elem_of_lookup in Hr as [j Hj]. exists j, rs. unfold slot. by rewrite Hj.
Qed.

Lemma no_ext_types c : shape c -> no_ext c -> Forall (fun x : Z * rr_set => type_idx x.1 < NRRMU) (file_sets c).
Proof.
  intros Hs Hne. apply Forall_forall. intros x [Hx _]%elem_of_file_sets. destruct Hs as [Hn _]. unfold rriterlist, no_ext, is_neg in *.
  rewrite Hn in Hx. destruct (body c) as [|m [e|]]; [by apply not_elem_of_nil in Hx|done|].
  assert (H : Forall (fun tp => type_idx tp < NRRMU) rrmuiterlist) by decide_closed. rewrite Forall_forall in H. by apply H.
Qed.

Context (Hsz : sizes_ok).

(** The entry as it is before it is added to the cache. *)
Lemma strip_loaded c ce : cent_ok c -> cent_ok ce -> keeps c ce -> flags ce = flags c -> is_neg c = true ->
  (forall l ttl ts, body c = Neg l ttl ts -> body ce = Neg None ttl ts) -> ce = strip c.
Proof.
  intros (_ & _ & Hc & Hn) (_ & _ & Hc' & Hn') (Hq & H1 & H2) Hf Hng Hb. unfold is_neg in Hng. destruct (body c) as [l ttl ts|] eqn:Ebc; [|done].
  specialize (Hb l ttl ts eq_refl). unfold cent_size, ext_size, sets in *. rewrite Ebc in Hc, Hn. rewrite Hb in Hc', Hn'. rewrite Hq in Hc'.
  destruct c, ce. unfold strip, set_body, strip_body. cbn in *. subst. done.
Qed.

Lemma entry_qlen c N : qname c = enc_name N -> Z.to_nat (fe_qlen (entry_header c)) = length (enc_labels N) /\
  take (length (qname c) - 1) (qname c) = enc_labels N.
Proof.
  intros Hq. unfold entry_header. cbn [fe_qlen]. rewrite Hq. unfold enc_name. rewrite length_app. cbn [length]. split; [lia|].
  replace (length (enc_labels N) + 1 - 1) with (length (enc_labels N)) by lia. by rewrite take_app_length.
Qed.

Lemma entry_header_fits c : cent_ok c -> storable c -> fits_file (entry_header c).
Proof.
  intros (Hs & (N & HN & Hq) & _) (Hf & Hns & Hsoa & _). unfold fits_file, entry_header. cbn. splits; try done; unfold fits_u.
  - rewrite Hq. destruct HN as [_ HN]. unfold DNSNAMEBUFSIZE, enc_name in *. rewrite length_app in *. cbn [length] in *. lia.
  - rewrite length_file_sets by done. pose proof (length_omap_le foreign (sets c)). pose proof (length_sets c Hs). unfold NRRTOT in *. lia.
Qed.

Lemma no_ext_init nb ttl ts fl s c s' : init_cent nb ttl ts fl s = Some (Some c, s') -> no_ext c.
Proof.
  unfold init_cent. intros H. inv_M. unfold no_ext. cbn [body]. by destruct (tst fl DF_NEGATIVE).
Qed.

(** The cache after the entry [c] of the file has been read and added. *)
Definition reread (c : dns_cent) (s s' : cache) : Prop :=
  inv s' /\ plenty s' /\ insert_sort s' = insert_sort s /\
  exists id c' ce, cents s !! id = None /\ cents s' = <[id := c']> (cents s) /\ loaded c ce /\ adjusted global ce c'.

Lemma runs_add_loaded c ce (data f : list Z) s0 s :
  inv s0 -> room s0 -> mem_only s0 s -> plenty s -> cent_ok c -> saved c = true -> loaded c ce ->
  abs s0 !! fold_key (qname c) = None -> (cache_size s0 + cs c <= cache_limit global)%Z ->
  runs (_ ← add_cache now global ce; _ ← free_cent ce; go (data, f)) s (fun r s' => r = inr (data, f) /\ reread c s0 s').
Proof.
  intros Hi Hroom Hm Hp Hok Hsv Hld Habs Hlim. pose proof Hok as (_ & (N & HN & Hq) & _).
  pose proof Hld as ([Hcok Hcl] & (Hqc & _) & _ & Hnc & Hcs & Hbody). assert (Hi1 : inv s) by (by eapply mem_only_inv).
  pose proof Hi1 as (_ & [mm Hmm] & _). assert (E1 : cents s = cents s0 /\ cache_size s = cache_size s0 /\ insert_sort s = insert_sort s0)
    by (destruct Hm as [x ->]; done). destruct E1 as (Ec & Ecs & Eis).
  assert (Habs1 : mm !! fold_key (enc_name N) = None).
  { apply (abs_none s mm _ Hi1 Hmm). rewrite <- Hq. by rewrite (abs_same s0 s Ec). }
  apply runs_bind. eapply runs_weaken; [apply (runs_add_cache now global s mm N ce)|]; try done; [congruence|by destruct Hm as [x ->]|].
  cbn beta. intros _ s2 [(Hi2 & _) Hfine]. destruct Hfine as (id & c' & Hid & Hcs2 & Had & _ & Hp2 & His2); [done|done| |rewrite Ecs; lia|].
  { destruct (is_neg c) eqn:En; [right; congruence|left]. intros E0. destruct (saved_slot c Hsv En) as (j & rs & Hj).
    pose proof (empty_entry ce Hcok E0 j) as Hno. rewrite Hbody, Hj in Hno. done. }
  apply runs_bind. eapply runs_weaken; [apply runs_free_copy; [by apply no_lents|apply Hcok]|]. cbn beta. intros _ s3 ->.
  apply runs_ret. split; [done|]. unfold reread. rewrite <- Ec. splits; [done|done|congruence|]. by exists id, c', ce.
Qed.

Lemma exact_then {A B} (m : M (stop + A)) (k : A -> M (stop + B)) s0 s Q R :
  mem_only s0 s -> runs m s (succeeds s Q) -> (forall a s', mem_only s0 s' -> plenty s' -> Q a -> runs (k a) s' R) -> runs (tryM m k) s R.
Proof.
  intros Hm H Hk. apply runs_try. eapply runs_weaken; [exact H|]. cbn beta. intros r s' (Hm' & Hp & a & -> & Ha).
  apply Hk; [by eapply mem_only_trans|done..].
Qed.

Lemma runs_reread_entry c data f s :
  inv s -> plenty s -> room s -> cent_ok c -> storable c -> saved c = true ->
  abs s !! fold_key (qname c) = None -> (cache_size s + cs c <= cache_limit global)%Z ->
  runs (read_entry now global data (enc_entry c ++ f)) s (fun r s' => exists data', r = inr (data', f) /\ reread c s s').
Proof.
  intros Hi Hp Hroom Hok Hst Hsv Habs Hlim. pose proof Hok as (Hs & (N & HN & Hq) & _). pose proof Hst as (Hfl & _ & _ & Hneg & _).
  destruct (entry_qlen c N Hq) as [Hql Hqt]. pose proof (entry_header_fits c Hok Hst) as Hfit. pose proof Hs as [Hng _].
  unfold read_entry, enc_entry. rewrite Hqt, <- !app_assoc.
  eapply (exact_then _ _ s s); [auto with pdnsd|eapply exact_need; [done|exact (fread_struct_app (entry_header c) _ Hfit)|apply eq_refl]|].
  intros x s1 Hm1 Hp1 <-. cbv beta iota zeta. rewrite Hql. cbn [entry_header fe_flags fe_num_rrs fe_c_ns fe_c_soa]. rewrite Hng, Nat2Z.id.
  eapply (exact_then _ _ s s1 (fun x => x.2 = enc_labels N ++ concat (enc_set <$> file_sets c) ++ f /\
    forall l ttl ts, body c = Neg l ttl ts -> x.1 = {| ft_ttl := ttl; ft_ts := ts |})); [done| |].
  { unfold enc_times, is_neg. destruct (body c) as [l ttl ts|] eqn:Eb; [|by apply exact_go].
    eapply exact_need; [done|apply (fread_struct_app {| ft_ttl := ttl; ft_ts := ts |}); exact (Hneg l ttl ts eq_refl)|].
    cbn [fst snd]. split; [done|]. by intros ? ? ? [= _ -> ->]. }
  intros [ft f1] s2 Hm2 Hp2 [E Hft]. cbn [fst snd] in *. subst f1.
  eapply (exact_then _ _ s s2); [done|by apply exact_read_name|]. intros [nb f2] s3 Hm3 Hp3 (-> & r & Hw). run_lift; [exact Hw|].
  apply runs_bind. destruct (runs_init_cent N r (ft_ttl ft) (ft_ts ft) (flags c) s3 HN) as ([ce0|] & s4 & Hrun & Hm4 & Hp4 & Hce0).
  2:{ destruct (Hp4 Hp3) as [[? ?] _]. done. }
  exists (Some ce0), s4. split; [exact Hrun|].
  destruct (Hp4 Hp3) as [_ Hp4']. clear Hp4. destruct (Hce0 ce0 eq_refl) as (Hok0 & Hq0 & Hf0 & Hl0 & Hsl0 & Hb0 & Hn0). clear Hce0.
  assert (Ef : u16 (flags c) = flags c) by (by apply Z.mod_small). rewrite Ef in Hf0.
  assert (Hn0' : is_neg ce0 = is_neg c) by (rewrite Hn0; exact Hng).
  set (ce1 := set_c_soa (c_soa c) (set_c_ns (c_ns c) ce0)).
  assert (Hl1 : loose ce1) by (apply loose_set_c; split; [done|by apply no_lents]).
  assert (Hk1 : keeps c ce1) by (unfold keeps; splits; [rewrite Hq; exact Hq0|done|done]).
  eapply (exact_then _ _ s s4 (fun '(ce, d', f') => f' = f /\ loaded c ce)); [by eapply mem_only_trans| |].
  2:{ intros [[ce d'] f'] s5 Hm5 Hp5 [-> Hld]. eapply runs_weaken; [by eapply (runs_add_loaded c)|].
      cbn beta. intros r' s' [-> Hr]. by exists d'. }
  destruct (is_neg c) eqn:En.
  - assert (E : file_sets c = []) by (unfold file_sets, rriterlist; by rewrite Hng). rewrite E.
    cbn [length read_rrsets fmap list_fmap concat app]. apply exact_go; [done|]. split; [done|].
    assert (Ece : ce1 = strip c).
    { apply strip_loaded; [done|apply Hl1|done|exact Hf0|done|]. intros l ttl ts Hb. specialize (Hb0 Hn0').
      rewrite (Hft l ttl ts Hb) in Hb0. exact Hb0. }
    unfold loaded. rewrite En. splits; [done|done|exact Hf0|exact Hn0'|rewrite Ece; cbn; lia|done].
  - destruct (file_sets_ok c Hok Hst) as (Hfs & Hsort & Hpos).
    eapply runs_weaken; [apply (exact_read_rrsets (file_sets c) 0 ce1 data f s4); try done; intros tp _ _; exact (Hsl0 _)|].
    cbn beta. intros r' s5 (Hm5 & Hp5 & [[ce d'] f'] & -> & -> & Hres). split; [done|]. split; [done|]. eexists. split; [done|]. split; [done|].
    pose proof (restored_slots c ce1 ce Hok Hres Hsl0 Hf0) as Hslots. destruct Hres as (Hl & Hk & Hf & Hn & _ & _ & Hex).
    assert (Hkeep : keeps c ce) by (by eapply keeps_trans). unfold loaded. rewrite En.
    splits; [done|done|rewrite Hf; exact Hf0|done| |done].
    eapply size_loaded; [done|done|apply Hl|apply Hkeep| |done]. intros Hne. apply Hex; [by apply no_ext_types|].
    exact (no_ext_init _ _ _ _ _ _ _ Hrun).
Qed.
End Reload.

(** ** The whole file *)

Section File.
Context {P : Platform} (now : Z) (global : globals).

(** The entry [x] that is found again for the entry [c], both without their nodes. *)
Definition reloaded (c x : dns_cent) : Prop :=
  keeps c x /\ is_neg x = is_neg c /\
  if is_neg c then adjust_dom_ttl global (strip c) = Some x
  else flags x = flags c /\ forall j, slot x j = adjust_ttl global <$> (read_back (flags c) <$> foreign (slot c j)).

Lemma adjust_dom_strip c ce : adjust_dom_ttl global (strip c) = Some ce -> strip ce = ce.
Proof.
  unfold adjust_dom_ttl, strip, strip_body. cbn [body set_body]. destruct (body c) as [l ttl ts|]; [|done]. intros H.
  destruct (tst _ DF_NOCACHE); [by injection H as <-|]. cbv zeta in H.
  destruct (ttl <? _)%Z; [by injection H as <-|]. destruct (_ <? ttl)%Z; by injection H as <-.
Qed.

Lemma strip_strip c : strip (strip c) = strip c.
Proof.
  unfold strip, set_body, strip_body. cbn [body]. f_equal. destruct (body c) as [|m e]; [done|].
  assert (E : forall l : list (option rr_set), strip_set <$> (strip_set <$> l) = strip_set <$> l).
  { intros l. rewrite <- list_fmap_compose. apply list_fmap_ext. intros i [rs|] _; [|done]. by destruct rs. }
  cbn. f_equal; [apply E|]. destruct e; [cbn; f_equal; apply E|done].
Qed.

Lemma reloaded_intro c ce c' : loaded c ce -> adjusted global ce c' -> reloaded c (strip c').
Proof.
  intros (_ & Hk & Hf & Hn & _ & Hb) (_ & Hk' & _ & Hn' & Had). unfold reloaded. rewrite is_neg_strip, Hn', Hn.
  splits; [exact (keeps_trans _ _ _ Hk Hk')|done|]. rewrite Hn in Had. destruct (is_neg c).
  - destruct Had as (c2 & Ha & ->). subst ce. rewrite strip_strip in Ha. by rewrite (adjust_dom_strip _ _ Ha).
  - destruct Had as [Hf' Had]. split; [exact (eq_trans Hf' Hf)|]. intros j. rewrite slot_strip, Had, Hb.
    destruct (foreign (slot c j)) as [rs|]; [|done]. cbn. f_equal. unfold adjust_ttl. cbn [rs_flags rs_ttl read_back].
    destruct (tst (rs_flags rs) CF_NOCACHE); [done|]. cbv zeta. destruct (rs_ttl rs <? _)%Z; [done|]. by destruct (_ <? rs_ttl rs)%Z.
Qed.

Lemma foreign_strip r fl : read_back fl <$> foreign (strip_set r) = read_back fl <$> foreign r.
Proof. destruct r as [rs|]; [|done]. cbn. by destruct (tst (rs_flags rs) CF_LOCAL). Qed.

Lemma reloaded_strip c x : reloaded c x -> reloaded (strip c) x.
Proof.
  intros (Hk & Hn & H). unfold reloaded. rewrite is_neg_strip, strip_strip. splits; [done|done|]. destruct (is_neg c); [done|].
  destruct H as [Hf H]. split; [done|]. intros j. by rewrite H, slot_strip, foreign_strip.
Qed.

Lemma saved_strip c : saved (strip c) = saved c.
Proof.
  unfold saved. rewrite is_neg_strip. destruct (is_neg c); [done|]. apply bool_decide_ext. rewrite sets_strip, omap_fmap.
  assert (E : forall l : list (option rr_set), omap (fun r => foreign (strip_set r)) l = [] <-> omap foreign l = []).
  { induction l as [|[rs|] l IH]; [done|..]; cbn; [|done]. by destruct (tst (rs_flags rs) CF_LOCAL). }
  by rewrite E.
Qed.

Context (Hsz : sizes_ok).

Definition sizes (l : list dns_cent) : Z := fold_right (fun c n => cs c + n)%Z 0%Z l.
Definition ckey (c : dns_cent) : list Z := fold_key (qname c).

Lemma runs_reread_entries L : forall fuel data s,
  inv s -> plenty s -> roomy s (length L) -> Forall (fun c => cent_ok c /\ storable c /\ saved c = true) L -> NoDup (ckey <$> L) ->
  (forall c, c ∈ L -> abs s !! ckey c = None) -> (cache_size s + sizes L <= cache_limit global)%Z -> length L < fuel ->
  runs (read_entries now global fuel (Z.of_nat (length L)) data (concat (enc_entry <$> L))) s (fun r s' => r = inr tt /\
    inv s' /\ insert_sort s' = insert_sort s /\ size (cents s') <= size (cents s) + length L /\
    (forall c, c ∈ L -> exists x, abs s' !! ckey c = Some x /\ reloaded c x) /\
    (forall K, (forall c, c ∈ L -> ckey c <> K) -> abs s' !! K = abs s !! K)).
Proof.
  induction L as [|c L IH]; intros fuel data s Hi Hp Hr HL Hnd Habs Hlim Hf; (destruct fuel as [|fuel]; [lia|]); cbn [read_entries].
  - apply runs_ret. splits; try done; [cbn; lia|by intros c ?%not_elem_of_nil].
  - apply Forall_cons in HL as [(Hok & Hst & Hsv) HL]. cbn [fmap list_fmap] in Hnd. apply NoDup_cons in Hnd as [Hc Hnd].
    cbn [length sizes fold_right] in *. fold (sizes L) in Hlim. bool_true (0 <? Z.of_nat (S (length L)))%Z. cbn [fmap list_fmap concat].
    assert (Hcs : (0 <= sizes L)%Z).
    { clear -HL Hsz. induction HL as [|x l (Hx & _) _ IHl]; [done|]. cbn. pose proof (cs_nonneg Hsz x Hx). unfold sizes in IHl. lia. }
    apply runs_try. eapply runs_weaken; [apply (runs_reread_entry now global Hsz c); try done|].
    { destruct Hr as [?|?]; [by left|right; unfold NRRTOT in *; lia]. } { apply Habs. by left. } { lia. }
    cbn beta. intros r s1 (d1 & -> & Hi1 & Hp1 & His1 & id & c' & ce & Hid & Hcs1 & Hld & Had).
    pose proof (abs_insert s s1 id c' Hi Hi1 Hid Hcs1) as Habs1.
    assert (Hk : fold_key (qname c') = ckey c).
    { unfold ckey. destruct Had as (_ & (-> & _) & _). destruct Hld as (_ & (-> & _) & _). done. }
    assert (Hsz1 : size (cents s1) = S (size (cents s))) by (rewrite Hcs1; by apply map_size_insert_None).
    assert (Htot : (cache_size s1 <= cache_size s + cs c)%Z).
    { destruct Hi as (_ & _ & _ & ->), Hi1 as (_ & _ & _ & ->). rewrite Hcs1, total_insert, delete_id by done.
      destruct Had as (_ & _ & -> & _). destruct Hld as (_ & _ & _ & _ & Hle & _). lia. }
    replace (Z.of_nat (S (length L)) - 1)%Z with (Z.of_nat (length L)) by lia.
    eapply runs_weaken; [apply (IH fuel d1 s1); try done|].
    + eapply roomy_le; [exact Hr|by rewrite His1|lia].
    + intros x Hx. rewrite Habs1, Hk, lookup_insert_ne; [apply Habs; by right|]. intros E. apply Hc. rewrite E. by apply list_elem_of_fmap_2.
    + lia.
    + lia.
    + cbn beta. intros r s2 (-> & Hi2 & His2 & Hs2 & Hin & Hout). splits; [done|done|congruence|lia| |].
      * intros x [->|Hx]%elem_of_cons; [|by apply Hin]. exists (strip c'). split; [|by eapply reloaded_intro].
        rewrite Hout; [by rewrite Habs1, Hk, lookup_insert_eq|]. intros y Hy E. apply Hc. rewrite <- E. by apply list_elem_of_fmap_2.
      * intros K HK. rewrite Hout by (intros y Hy; apply HK; by right). rewrite Habs1, Hk. apply lookup_insert_ne. apply HK. by left.
Qed.

Lemma total_ids ids : forall m : gmap positive dns_cent, (forall id c, m !! id = Some c -> (0 <= cs c)%Z) -> NoDup ids ->
  (sizes (filter (fun c => saved c = true) (omap (fun id => m !! id) ids)) <= total m)%Z.
Proof.
  induction ids as [|id ids IH]; intros m Hm Hnd; cbn [omap list_omap].
  - cbn. clear Hnd. induction m as [|id c m Hid IH] using map_ind; [by rewrite total_empty|]. rewrite total_insert, delete_id by done.
    assert (0 <= cs c)%Z by (apply (Hm id c); apply lookup_insert_eq).
    assert (0 <= total m)%Z; [|lia]. apply IH. intros id' c' Hc'. apply (Hm id'). rewrite lookup_insert_ne; [done|]. congruence.
  - apply NoDup_cons in Hnd as [Hid Hnd]. destruct (m !! id) as [c|] eqn:Hc; [|by apply IH].
    assert (E : omap (fun id => m !! id) ids = omap (fun i => delete id m !! i) ids).
    { clear -Hid. induction ids as [|i l IHl]; [done|]. apply not_elem_of_cons in Hid as [Hne Hl]. cbn.
      rewrite lookup_delete_ne by done. by rewrite IHl. }
    assert (Hd : forall id' c, delete id m !! id' = Some c -> (0 <= cs c)%Z) by (intros id' c' [_ H']%lookup_delete_Some; by eapply Hm).
    specialize (IH (delete id m) Hd Hnd). rewrite <- E in IH. rewrite (total_delete m id c Hc). pose proof (Hm id c Hc).
    destruct (decide (saved c = true)); [rewrite filter_cons_True by done; cbn; unfold sizes in IH; lia|].
    rewrite filter_cons_False by done. lia.
Qed.

Lemma length_enc_entries L : length L <= length (concat (enc_entry <$> L)).
Proof.
  induction L as [|c L IH]; [done|]. cbn [fmap list_fmap concat length]. rewrite length_app. unfold enc_entry at 1. rewrite length_app.
  pose proof (length_to_bytes (entry_header c)) as E. cbn [sizeof stored_file] in E. lia.
Qed.

Lemma elem_of_saved s c : inv s -> c ∈ saved_entries s <-> (exists id, cents s !! id = Some c) /\ saved c = true.
Proof.
  intros Hi. unfold saved_entries. rewrite list_elem_of_filter, list_elem_of_omap. destruct (all_entries_spec s Hi) as [_ Hall]. split.
  - intros [Hs (id & _ & Hid)]. split; [by exists id|done].
  - intros [[id Hid] Hs]. split; [done|]. exists id. split; [|done]. apply Hall. by exists c.
Qed.

Lemma saved_keys s : inv s -> NoDup (ckey <$> saved_entries s).
Proof.
  intros Hi. pose proof Hi as (_ & [m Hm] & _). destruct (all_entries_spec s Hi) as [Hnd _]. unfold saved_entries.
  induction (all_entries s) as [|id ids IH]; cbn [omap list_omap]; [constructor|]. apply NoDup_cons in Hnd as [Hid Hnd].
  destruct (cents s !! id) as [c|] eqn:Hc; [|by apply IH]. destruct (decide (saved c = true)).
  - rewrite filter_cons_True by done. cbn [fmap list_fmap]. constructor; [|by apply IH]. intros Hin.
    apply list_elem_of_fmap in Hin as (c' & E & Hin). apply list_elem_of_filter in Hin as [_ Hin].
    apply list_elem_of_omap in Hin as (id' & Hid' & Hc'). assert (id = id') as <- by (by eapply key_unique). done.
  - rewrite filter_cons_False by done. by apply IH.
Qed.

Lemma length_saved s : inv s -> length (saved_entries s) <= size (cents s).
Proof.
  intros Hi. rewrite <- (length_all_entries s Hi). unfold saved_entries. etrans; [apply length_filter|]. apply length_omap_le.
Qed.

Lemma le_value_count n : (32 <= ul_bits)%Z -> (Z.of_nat n < 2 ^ 32)%Z -> le_value (le_bytes sizeof_long (Z.of_nat n)) = Z.of_nat n.
Proof.
  intros Hul Hn. rewrite le_value_bytes. apply Z.mod_small. split; [lia|]. eapply Z.lt_le_trans; [exact Hn|].
  change (2 ^ 32)%Z with (256 ^ 4)%Z. apply Z.pow_le_mono_r; [lia|]. unfold sizeof_long.
  assert (4 <= ul_bits / 8)%Z by (apply Z.div_le_lower_bound; lia). lia.
Qed.

(** The entries of the file are restored, and nothing else is in the cache. *)
Definition restored_cache (s1 s2 : cache) : Prop :=
  forall K, match abs s1 !! K with
            | Some c => if saved c then exists x, abs s2 !! K = Some x /\ reloaded c x else abs s2 !! K = None
            | None => abs s2 !! K = None
            end.

Lemma abs_empty_cache s : cents s = ∅ -> abs s = ∅.
Proof. intros H. unfold abs. by rewrite H, map_to_list_empty. Qed.

Lemma restored_cache_intro s1 s2 : inv s1 ->
  (forall c, c ∈ saved_entries s1 -> exists x, abs s2 !! ckey c = Some x /\ reloaded c x) ->
  (forall K, (forall c, c ∈ saved_entries s1 -> ckey c <> K) -> abs s2 !! K = None) -> restored_cache s1 s2.
Proof.
  intros Hi Hin Hout K. pose proof Hi as (_ & [m Hm] & _). destruct (abs s1 !! K) as [e|] eqn:HK.
  - apply abs_spec in HK as (id & c & Hc & HK & ->); [|done]. rewrite saved_strip. destruct (saved c) eqn:Hs.
    + destruct (Hin c) as (x & Hx & Hr); [apply elem_of_saved; [done|]; split; [by exists id|done]|].
      exists x. subst K. split; [done|by apply reloaded_strip].
    + apply Hout. intros c' [[id' Hc'] Hs']%elem_of_saved E; [|done]. subst K. assert (id' = id) as -> by (by eapply key_unique).
      rewrite Hc in Hc'. congruence.
  - apply Hout. intros c [[id Hc] _]%elem_of_saved E; [|done].
    assert (abs s1 !! K = Some (strip c)) by (apply abs_spec; [done|]; by exists id, c). congruence.
Qed.

Lemma runs_read_back s1 s0 :
  (32 <= ul_bits)%Z -> inv s1 -> (forall id c, cents s1 !! id = Some c -> storable c) ->
  (Z.of_nat (NRRTOT * (size (cents s1) + 1)) < 2 ^ 32)%Z -> (cache_size s1 <= cache_limit global)%Z ->
  inv s0 -> cents s0 = ∅ -> plenty s0 ->
  runs (read_disk_cache now global (Some (enc_cache s1))) s0 (fun ret s2 => ret = true /\ inv s2 /\ insert_sort s2 = true /\
    StronglySorted (older (rrlent_ts s2)) (rrl s2) /\ restored_cache s1 s2).
Proof.
  intros Hul Hi1 Hst Hn Hlim Hi0 Hc0 Hp0. unfold read_disk_cache. apply runs_bind.
  eapply runs_weaken; [by apply runs_malloc_plenty|]. cbn beta. intros b s (-> & Hm & Hp). cbn [negb]. apply runs_bind, runs_mod.
  set (s2 := with_insert_sort false s). assert (Hi : inv s) by (by eapply mem_only_inv).
  assert (Hi2 : inv s2) by (pose proof (inv_perm s (rrl s) false Hi ltac:(done)) as H; by rewrite with_rrl_id in H).
  assert (Hc2 : cents s2 = ∅) by (destruct Hm as [x ->]; exact Hc0). pose proof (length_saved s1 Hi1) as Hls. unfold NRRTOT in Hn.
  apply runs_bind. unfold read_file, enc_cache. rewrite fread_app. cbn [need go]. apply runs_try, runs_ret. rewrite decide_True by done.
  rewrite <- (length_le_bytes sizeof_long (Z.of_nat (length (saved_entries s1)))) at 1. rewrite fread_app. cbn [need go].
  apply runs_try, runs_ret. rewrite le_value_count by (done || lia).
  pose proof (length_enc_entries (saved_entries s1)) as Hle. destruct (all_entries_spec s1 Hi1) as [Hnd _].
  eapply runs_weaken; [apply (runs_reread_entries (saved_entries s1)); try done|].
  - right. rewrite Hc2, map_size_empty. unfold NRRTOT. lia.
  - apply Forall_forall. intros c [[id Hc] Hs]%elem_of_saved; [|done]. exact (conj (inv_cent s1 id c Hi1 Hc) (conj (Hst id c Hc) Hs)).
  - by apply saved_keys.
  - intros c _. by rewrite (abs_empty_cache s2 Hc2).
  - destruct Hi2 as (_ & _ & _ & ->). rewrite Hc2, total_empty. destruct Hi1 as (Hh1 & Hh & Hnn & E). rewrite E in Hlim.
    etrans; [|exact Hlim]. unfold saved_entries. rewrite Z.add_0_l. apply total_ids; [|done]. intros id c Hc. apply cs_nonneg; [done|]. by eapply Hh1.
  - lia.
  - cbn beta. intros r s3 (-> & Hi3 & His3 & Hs3 & Hin & Hout). apply runs_bind. cbn [read_end]. apply runs_ret.
    apply runs_bind. eapply runs_weaken; [apply runs_sort_cache; [done|]|].
    { apply (roomy_countable s3 0); [done|]. right. rewrite Hc2, map_size_empty in Hs3. unfold NRRTOT. lia. }
    cbn beta. intros _ s4 (Hi4 & His4 & Hcs4 & Hsort). apply runs_ret. splits; [done|done|done|by apply Hsort|].
    apply restored_cache_intro; [done|..]; rewrite (abs_same s3 s4 Hcs4); [exact Hin|].
    intros K HK. rewrite Hout by done. by rewrite (abs_empty_cache s2 Hc2).
Qed.
End File.
