(* ===== verification/DiskThms.v ===== *)
(** The theorems about the cache file. *)
From S2P Require Import Prelude Names DnsName Compress RrTypes HashTab RrList Cent CentSpec Cache CacheInv CachePurge CacheAdd CacheOps CacheThms.
From S2P Require Import Answer AnswerRr AnswerSet Query QueryDecode QuerySafe Reply ReplyData ReplySpec Disk DiskSpec DiskWrite DiskTrip.

Section Theorems.
Context {P : Platform} (now : Z) (global : globals).

(** C22: reading the cache file is safe whatever the file contains and whatever allocations
    fail: no buffer is left, no assertion is violated, the loop over the entries ends, and the
    cache keeps its invariant.  Afterwards sets are inserted in order again.  A file that does
    not begin with the version identifier changes no entry. *)
Theorem read_disk_cache_safe (file : option (list Z)) (s : cache) :
  inv s -> bytes (default [] file) ->
  (Z.of_nat (NRRTOT * (size (cents s) + S (length (default [] file)))) < 2 ^ 32)%Z ->
  runs (read_disk_cache now global file) s (fun ret s' => inv s' /\
    (ret = true -> is_Some file -> insert_sort s' = true) /\
    (take (length cachverid) (default [] file) <> cachverid -> cents s' = cents s)).
Proof. intros Hi Hb Hr. apply runs_read_disk_cache; [done|done|]. right. exact Hr. Qed.

(** The cache is written without undefined behaviour whatever calls of [fwrite] fail, and
    the file is then a beginning of the complete one, which has the saved entries in the order
    of the hash table.  Before that the cache is purged, and writing does not change it. *)
Theorem write_disk_cache_prefix (outcomes : list (option nat)) (s s1 : cache) :
  inv s -> countable_rrl s -> purge_cache now (g_perm_cache global * 1024) false s = Some (tt, s1) ->
  (forall id c, cents s1 !! id = Some c -> storable c) -> (Z.of_nat (size (cents s1)) < 2 ^ ul_bits)%Z ->
  exists f, write_disk_cache now global true outcomes s = Some (Some f, s1) /\ f `prefix_of` enc_cache s1 /\
    (outcomes = [] -> f = enc_cache s1).
Proof.
  intros Hi Hc Hp Hst Hn. apply write_disk_cache_spec; try done.
  destruct (runs_purge_cache now s (g_perm_cache global * 1024) false Hi Hc) as (u & s2 & Hrun & Hi2 & _). congruence.
Qed.

(** C21: what is written is read back.  Reading the file of a cache [s1] into an empty cache
    restores every entry of it that has data that is not local and no other, under the same
    name, with the same flags; its sets have their times and flags, with the times-to-live
    adjusted, and their records in order, unless the entry is flagged as local.  Only the first 255 records of a set and no
    duplicates are restored, and local sets are not; the sets of an entry that is flagged as
    local come back without records.  The list of sets is sorted by age. *)
Theorem disk_cache_roundtrip (now' : Z) (s s1 s0 : cache) :
  sizes_ok -> (32 <= ul_bits)%Z -> inv s -> countable_rrl s -> purge_cache now (g_perm_cache global * 1024) false s = Some (tt, s1) ->
  (forall id c, cents s1 !! id = Some c -> storable c) -> (Z.of_nat (NRRTOT * (size (cents s1) + 1)) < 2 ^ 32)%Z ->
  (cache_size s1 <= cache_limit global)%Z -> inv s0 -> cents s0 = ∅ -> plenty s0 ->
  exists f, write_disk_cache now global true [] s = Some (Some f, s1) /\
    runs (read_disk_cache now' global (Some f)) s0 (fun ret s2 => ret = true /\ inv s2 /\ insert_sort s2 = true /\
      StronglySorted (older (rrlent_ts s2)) (rrl s2) /\
      restored_cache global s1 s2).
Proof.
  intros Hsz Hul Hi Hc Hp Hst Hn Hlim Hi0 Hc0 Hp0.
  assert (Hi1 : inv s1) by (destruct (runs_purge_cache now s (g_perm_cache global * 1024) false Hi Hc) as (u & s2 & Hrun & Hi2 & _); congruence).
  assert (Hfew : (Z.of_nat (size (cents s1)) < 2 ^ ul_bits)%Z).
  { assert (2 ^ 32 <= 2 ^ ul_bits)%Z by (apply Z.pow_le_mono_r; lia). unfold NRRTOT in *. lia. }
  destruct (write_disk_cache_spec now global [] s s1 Hi1 Hp Hst Hfew) as (f & Hw & _ & Hf). rewrite (Hf eq_refl) in Hw.
  exists (enc_cache s1). split; [done|]. by apply runs_read_back.
Qed.
End Theorems.

(** ** The theorems on an example *)

#[local] Existing Instance LP64.

Lemma lp64_sizes : sizes_ok.
Proof. unfold sizes_ok. cbn. lia. Qed.

Lemma storable_intro (c : dns_cent) :
  fits_u 2 (flags c) -> fits_u 1 (c_ns c) -> fits_u 1 (c_soa c) -> is_neg c = false ->
  Forall (fun r => from_option storable_set True r) (sets c) -> storable c.
Proof.
  intros Hf Hn Hs Hng Hall. unfold storable. splits; try done.
  - intros l ttl ts E. unfold is_neg in Hng. by rewrite E in Hng.
  - intros i rs Hi. apply slot_lookup in Hi. exact (Forall_lookup_1 _ _ _ _ Hall Hi).
Qed.

Lemma demo_entry id c : cents demo_cache !! id = Some c ->
  c = set_body (Rr (<[0 := Some (rs_set_lent (Some 1%positive) demo_set)]> no_rrmu) None) demo_cent.
Proof.
  intros H. apply elem_of_map_to_list in H. assert (E : map_to_list (cents demo_cache) =
    [(1%positive, set_body (Rr (<[0 := Some (rs_set_lent (Some 1%positive) demo_set)]> no_rrmu) None) demo_cent)]) by (vm_compute; reflexivity).
  rewrite E in H. apply list_elem_of_singleton in H. by injection H as -> ->.
Qed.

Lemma demo_storable id c : cents demo_cache !! id = Some c -> storable c.
Proof.
  intros ->%demo_entry. apply storable_intro; try done.
  repeat constructor; vm_compute; done.
Qed.

Lemma demo_purge : purge_cache 1000 (g_perm_cache demo_globals * 1024) false demo_cache = Some (tt, demo_cache).
Proof. vm_compute. reflexivity. Qed.

(** The first bytes of a cache file with one entry, whose header is cut off. *)
Lemma read_disk_cache_safe_witness :
  runs (read_disk_cache 1000 demo_globals (Some [112; 100; 49; 51; 1; 0; 0; 0; 0; 0; 0; 0; 1]%Z)) demo_cache (fun ret s' => inv s').
Proof.
  eapply runs_weaken; [apply (read_disk_cache_safe 1000 demo_globals (Some [112; 100; 49; 51; 1; 0; 0; 0; 0; 0; 0; 0; 1]%Z) demo_cache)|].
  - exact demo_cache_inv.
  - cbn. repeat constructor; cbn; lia.
  - vm_compute. reflexivity.
  - cbn beta. intros ret s' (Hi & _). exact Hi.
Defined.

Lemma write_disk_cache_prefix_witness :
  exists f, write_disk_cache 1000 demo_globals true [None; Some 3] demo_cache = Some (Some f, demo_cache) /\
    f `prefix_of` enc_cache demo_cache.
Proof.
  destruct (write_disk_cache_prefix 1000 demo_globals [None; Some 3] demo_cache demo_cache) as (f & H & Hp & _).
  - exact demo_cache_inv.
  - by left.
  - exact demo_purge.
  - exact demo_storable.
  - vm_compute. reflexivity.
  - exists f. split; [exact H|exact Hp].
Defined.

Lemma disk_cache_roundtrip_witness :
  exists f, write_disk_cache 1000 demo_globals true [] demo_cache = Some (Some f, demo_cache) /\
    runs (read_disk_cache 2000 demo_globals (Some f)) fresh_cache (fun ret s2 => inv s2 /\
      exists x, abs s2 !! [1; 97; 0]%Z = Some x).
Proof.
  destruct (disk_cache_roundtrip 1000 demo_globals 2000 demo_cache demo_cache fresh_cache) as (f & H & Hr).
  - exact lp64_sizes.
  - vm_compute. discriminate.
  - exact demo_cache_inv.
  - by left.
  - exact demo_purge.
  - exact demo_storable.
  - vm_compute. reflexivity.
  - vm_compute. discriminate.
  - exact inv_fresh.
  - reflexivity.
  - constructor.
  - exists f. split; [exact H|]. eapply runs_weaken; [exact Hr|]. cbn beta. intros ret s2 (_ & Hi & _ & _ & Hres). split; [exact Hi|].
    specialize (Hres [1; 97; 0]%Z). assert (E : option_map saved (abs demo_cache !! [1; 97; 0]%Z) = Some true) by (vm_compute; reflexivity).
    destruct (abs demo_cache !! [1; 97; 0]%Z) as [c|]; [|discriminate E]. injection E as E. rewrite E in Hres. destruct Hres as (x & Hx & _).
    by exists x.
Defined.

(** The sets of an entry that is flagged as local are written, since they are not local, but
    their records are ignored when they are read back: the name then seems to have no
    addresses. *)
Example local_entry_reload :
  let s := match set_cent_flags [1; 97; 0]%Z DF_LOCAL demo_cache with Some (_, s) => s | None => fresh_cache end in
  match write_disk_cache 1000 demo_globals true [] s with
  | Some (Some f, _) =>
      match read_disk_cache 1000 demo_globals (Some f) fresh_cache with
      | Some (true, s') => map (fun x => (qname x.2, rs_rrs <$> slot x.2 0)) (map_to_list (cents s')) = [([1; 97; 0]%Z, Some [])]
      | _ => False
      end
  | _ => False
  end.
Proof. vm_compute. reflexivity. Qed.
