(* ===== verification/DynList.v ===== *)
(** Dynamic arrays and lists ([pdnsd/src/list.c] and list.h).

    An array that has not been allocated is [None]; elements that have not been assigned to are
    [None] too.  The result of [realloc] is an input, and so are the bytes that it adds to a block.
    A dynamic list is one block of memory in which each item follows a word with the distance to the
    next item; its words are those of [size_t].

    The rest of the library treats both as lists, which the theorems here justify. *)
From S2P Require Import Prelude HashTab Disk DiskSpec.

(** ** Arrays *)

Section Arrays.
Context {A : Type}.

(** The elements and for how many there is room. *)
Record darray := { da_elem : list (option A); da_room : nat }.

Definition da_nel (a : option darray) : nat := match a with Some a => length (da_elem a) | None => 0 end.

Definition alloc_nel (n : nat) : nat := if (n =? 0) then 8 else Nat.ldiff (n + 7) 7.

(** A block that cannot be made larger is freed, after its elements have been cleaned up. *)
Definition lost (cleanup : bool) (a : option darray) : list (option A) := match a with Some a => if cleanup then da_elem a else [] | None => [] end.

(** [da_grow1]: the array, and the elements for which the clean-up routine was called. *)
Definition da_grow1 (ok cleanup : bool) (a : option darray) : option darray * list (option A) :=
  let k := da_nel a in
  if match a with None => true | Some _ => negb (k =? 0) && (Nat.land k 7 =? 0) end then
    if ok then (Some {| da_elem := (match a with Some a => da_elem a | None => [] end) ++ [None]; da_room := k + 8 |}, [])
    else (None, lost cleanup a)
  else (match a with Some a => Some {| da_elem := da_elem a ++ [None]; da_room := da_room a |} | None => None end, []).

(** [da_resize]. *)
Definition da_resize (ok cleanup : bool) (n : nat) (a : option darray) : option darray * list (option A) :=
  let ael := match a with Some a => alloc_nel (length (da_elem a)) | None => 0 end in
  let new_ael := alloc_nel n in
  let resized l := take n l ++ replicate (n - length l) None in
  if negb (new_ael =? ael) then
    if ok then (Some {| da_elem := resized (match a with Some a => da_elem a | None => [] end); da_room := new_ael |}, [])
    else (None, lost cleanup a)
  else (match a with Some a => Some {| da_elem := resized (da_elem a); da_room := da_room a |} | None => None end, []).

(** The room of an array is what [alloc_nel] says, which is enough. *)
Definition da_ok (a : option darray) : Prop := match a with Some a => da_room a = alloc_nel (length (da_elem a)) | None => True end.

Lemma alloc_nel_spec n : n <= alloc_nel n /\ alloc_nel n = Nat.max 8 ((n + 7) / 8 * 8).
Proof.
  unfold alloc_nel. destruct (n =? 0) eqn:E; boolp; [subst; split; [lia|done]|].
  assert (Hl : Nat.ldiff (n + 7) (Nat.ones 3) = (n + 7) / 8 * 8) by (by rewrite Nat.ldiff_ones_r, Nat.shiftl_mul_pow2, Nat.shiftr_div_pow2).
  change (Nat.ones 3) with 7 in Hl. rewrite Hl. pose proof (Nat.div_mod_eq (n + 7) 8). pose proof (Nat.mod_upper_bound (n + 7) 8 ltac:(lia)). lia.
Qed.

Lemma land_7 k : Nat.land k 7 = k mod 8.
Proof. change 7 with (Nat.ones 3). by rewrite Nat.land_ones. Qed.

Lemma alloc_nel_next k : alloc_nel (S k) = if negb (k =? 0) && (Nat.land k 7 =? 0) then k + 8 else alloc_nel k.
Proof.
  rewrite land_7, !(proj2 (alloc_nel_spec _)). destruct (k =? 0) eqn:E; boolp; [by subst|]. cbn [negb andb].
  pose proof (Nat.div_mod_eq k 8). pose proof (Nat.mod_upper_bound k 8 ltac:(lia)). destruct (k mod 8 =? 0) eqn:E8; boolp.
  - replace ((S k + 7) / 8) with (k / 8 + 1); [lia|]. apply (Nat.div_unique _ _ _ 0); lia.
  - replace ((S k + 7) / 8) with (k / 8 + 1) by (apply (Nat.div_unique _ _ _ (k mod 8)); lia).
    replace ((k + 7) / 8) with (k / 8 + 1); [done|]. apply (Nat.div_unique _ _ _ (k mod 8 - 1)); lia.
Qed.
End Arrays.

Lemma length_resized {A} n (l : list (option A)) : length (take n l ++ replicate (n - length l) None) = n.
Proof. rewrite length_app, length_take, length_replicate. lia. Qed.

(** [da_grow1] is an optimised [da_resize]: for every array with the room that belongs to its size
    it gives the same array, calls the clean-up routine for the same elements and asks for
    memory in the same cases as a resize by one element.  Both keep the room right, so that there is
    always room for the elements. *)
Theorem da_grow1_resize {A : Type} (ok cleanup : bool) (n : nat) (a : option (@darray A)) :
  da_ok a ->
  da_grow1 ok cleanup a = da_resize ok cleanup (S (da_nel a)) a /\
  da_ok (fst (da_grow1 ok cleanup a)) /\ da_ok (fst (da_resize ok cleanup n a)) /\
  match a with Some a => length (da_elem a) <= da_room a | None => True end.
Proof.
  intros Hok. assert (E : da_grow1 ok cleanup a = da_resize ok cleanup (S (da_nel a)) a).
  { unfold da_grow1, da_resize. destruct a as [a|]; [|done]. cbn [da_nel]. rewrite alloc_nel_next. set (k := length (da_elem a)).
    assert (Er : take (S k) (da_elem a) ++ replicate (S k - k) None = da_elem a ++ [None]) by (rewrite take_ge by (unfold k; lia); by replace (S k - k) with 1 by lia).
    fold k. rewrite Er. destruct (negb (k =? 0) && (Nat.land k 7 =? 0)) eqn:Eb; [|by rewrite Nat.eqb_refl].
    rewrite land_7 in Eb. apply andb_true_iff in Eb as [Ek%negb_true_iff Eb]. boolp. assert (Hne : k + 8 <> alloc_nel k).
    { rewrite (proj2 (alloc_nel_spec k)). pose proof (Nat.div_mod_eq k 8). replace ((k + 7) / 8) with (k / 8) by (apply (Nat.div_unique _ _ _ 7); lia). lia. }
    by bool_false (k + 8 =? alloc_nel k). }
  assert (Hr : forall m, da_ok (fst (da_resize ok cleanup m a))).
  { intros m. unfold da_resize. destruct (negb _) eqn:En.
    - destruct ok; [|done]. cbn. by rewrite length_resized.
    - destruct a as [a|]; [|done]. cbn in *. apply negb_false_iff, Nat.eqb_eq in En. rewrite length_resized. congruence. }
  split; [done|]. split; [by rewrite E|]. split; [apply Hr|]. destruct a as [a|]; [|done]. cbn in Hok. rewrite Hok. apply alloc_nel_spec.
Qed.

(** ** Lists *)

Section Lists.
Context {P : Platform}.

(** The width of [size_t]. *)
#[local] Notation W := (Z.of_nat sizeof_long).

Definition usize (x : Z) : Z := (x mod 256 ^ W)%Z.

Definition DLISTALIGN (len : Z) : Z := Z.land (len + (W - 1)) (Z.lnot (W - 1)).
Definition DLISTCHUNKSIZEMASK : Z := 0x3ff.
Definition chunks (sz : Z) : Z := Z.land (sz + DLISTCHUNKSIZEMASK) (Z.lnot DLISTCHUNKSIZEMASK).

(** [struct _dynamic_list_head]. *)
Record dlist_head := { dl_last : Z; dl_lastsz : Z; dl_data : list Z }.

Definition write_size (d : list Z) (off v : Z) : option (list Z) := wr_bytes d (Z.to_nat off) (le_bytes sizeof_long v).
Definition read_size (d : list Z) (off : Z) : option Z := b ← rd_bytes d (Z.to_nat off) sizeof_long; Some (le_value b).

(** [dlist_grow]: [None] is the null pointer. *)
Definition dlist_grow (ok : bool) (junk : nat -> list Z) (a : option dlist_head) (len : Z) : option (option dlist_head) :=
  '(sz, allocsz, a) ← match a with
    | Some h =>
        let sz := usize (dl_last h + dl_lastsz h) in
        d ← write_size (dl_data h) (dl_last h) (dl_lastsz h);
        Some (sz, chunks sz, Some {| dl_last := dl_last h; dl_lastsz := dl_lastsz h; dl_data := d |})
    | None => Some (0%Z, 0%Z, None)
    end;
  let szincr := DLISTALIGN (usize (len + W)) in
  let newsz := usize (sz + szincr) in
  let a := if (allocsz <? newsz)%Z then
             if ok then
               let d := match a with Some h => dl_data h | None => [] end in
               Some {| dl_last := 0; dl_lastsz := 0; dl_data := d ++ junk (Z.to_nat (chunks newsz) - length d) |}
             else None
           else a in
  match a with
  | Some h => d ← write_size (dl_data h) sz 0; Some (Some {| dl_last := sz; dl_lastsz := szincr; dl_data := d |})
  | None => Some None
  end.

Definition dlist_first (a : option dlist_head) : option Z := match a with Some _ => Some W | None => None end.
Definition dlist_next (d : list Z) (ref : Z) : option (option Z) :=
  incr ← read_size d (ref - W)%Z; Some (if (incr =? 0)%Z then None else Some (ref + incr)%Z).
Definition dlist_last (h : dlist_head) : Z := (dl_last h + W)%Z.

(** What callers do: room is made for an item, which is then stored. *)
Definition dlist_add (ok : bool) (junk : nat -> list Z) (a : option dlist_head) (it : list Z) : option (option dlist_head) :=
  a ← dlist_grow ok junk a (Z.of_nat (length it));
  match a with
  | Some h => d ← wr_bytes (dl_data h) (Z.to_nat (dlist_last h)) it; Some (Some {| dl_last := dl_last h; dl_lastsz := dl_lastsz h; dl_data := d |})
  | None => Some None
  end.

(** The items are added one after the other, until there is no memory. *)
Fixpoint dlist_adds (junk : nat -> list Z) (a : option dlist_head) (items : list (bool * list Z)) : option (option dlist_head) :=
  match items with
  | [] => Some a
  | (ok, it) :: items' =>
      a ← dlist_add ok junk a it;
      match a with Some _ => dlist_adds junk a items' | None => Some None end
  end.

(** The references from the first one on. *)
Fixpoint dlist_refs (fuel : nat) (d : list Z) (ref : option Z) : option (list Z) :=
  match ref, fuel with
  | None, _ => Some []
  | Some _, O => None
  | Some r, S fu => next ← dlist_next d r; l ← dlist_refs fu d next; Some (r :: l)
  end.

(** *** Sizes *)

(** A word is of 4 or of 8 bytes. *)
Context (HW : sizeof_long = 4 \/ sizeof_long = 8).

Lemma round_up_mask k n : (0 <= k)%Z -> Z.land (n + (2 ^ k - 1)) (Z.lnot (2 ^ k - 1)) = ((n + (2 ^ k - 1)) / 2 ^ k * 2 ^ k)%Z.
Proof.
  intros Hk. rewrite <- Z.ldiff_land. replace (2 ^ k - 1)%Z with (Z.ones k) at 2 by (rewrite Z.ones_equiv; lia). by rewrite Z.ldiff_ones_r, Z.shiftl_mul_pow2, Z.shiftr_div_pow2.
Qed.

Lemma round_up_bounds m n : (0 < m)%Z -> (n <= (n + (m - 1)) / m * m < n + m)%Z.
Proof. intros Hm. pose proof (Z.div_mod (n + (m - 1)) m ltac:(lia)). pose proof (Z.mod_pos_bound (n + (m - 1)) m Hm). lia. Qed.

Lemma align_eq n : DLISTALIGN n = ((n + (W - 1)) / W * W)%Z.
Proof. unfold DLISTALIGN. destruct HW as [->| ->]; [apply (round_up_mask 2)|apply (round_up_mask 3)]; lia. Qed.

Lemma W_pos : (0 < W)%Z.
Proof. destruct HW as [->| ->]; lia. Qed.

Lemma align_bounds n : (n <= DLISTALIGN n < n + W)%Z.
Proof. rewrite align_eq. apply round_up_bounds, W_pos. Qed.

Lemma align_mod n : (DLISTALIGN n mod W = 0)%Z.
Proof. rewrite align_eq. apply Z.mod_mul. pose proof W_pos. lia. Qed.

Lemma chunks_eq n : chunks n = ((n + 1023) / 1024 * 1024)%Z.
Proof. apply (round_up_mask 10). lia. Qed.

Lemma chunks_bounds n : (n <= chunks n < n + 1024)%Z.
Proof. rewrite chunks_eq. by apply (round_up_bounds 1024). Qed.

Lemma chunks_same n m : (n <= m <= chunks n)%Z -> chunks m = chunks n.
Proof.
  rewrite !chunks_eq. intros H. assert ((m + 1023) / 1024 = (n + 1023) / 1024)%Z as ->; [|done].
  pose proof (Z.div_mod (n + 1023) 1024 ltac:(lia)). pose proof (Z.mod_pos_bound (n + 1023) 1024 ltac:(lia)).
  symmetry. apply (Z.div_unique _ _ _ (m + 1023 - 1024 * ((n + 1023) / 1024))%Z); lia.
Qed.

(** *** Layout *)

(** The room for an item with its word. *)
Definition item_size (it : list Z) : Z := DLISTALIGN (Z.of_nat (length it) + W).
Fixpoint total (l : list (list Z)) : Z := match l with [] => 0%Z | it :: l' => (item_size it + total l')%Z end.

Lemma item_size_bounds it : (Z.of_nat (length it) + W <= item_size it < Z.of_nat (length it) + W + W)%Z.
Proof. apply align_bounds. Qed.

Lemma total_nonneg l : (0 <= total l)%Z.
Proof. induction l as [|it l IH]; cbn [total]; [lia|]. pose proof (item_size_bounds it). lia. Qed.

Lemma total_app l1 l2 : total (l1 ++ l2) = (total l1 + total l2)%Z.
Proof. induction l1 as [|it l1 IH]; cbn [total app]; [lia|]. rewrite IH. lia. Qed.

(** An item with its word [v] and the bytes up to the next one. *)
Definition block (v : Z) (it pad : list Z) : list Z := le_bytes sizeof_long v ++ it ++ pad.
Definition block_ok (it pad : list Z) : Prop := Z.of_nat (length (le_bytes sizeof_long 0 ++ it ++ pad)) = item_size it.

Lemma length_block v it pad : block_ok it pad -> Z.of_nat (length (block v it pad)) = item_size it.
Proof. unfold block_ok, block. by rewrite !length_app, !length_le_bytes. Qed.

(** Items that others follow. *)
Inductive chain : list (list Z) -> list Z -> Prop :=
  | chain_nil : chain [] []
  | chain_cons it pad l d : block_ok it pad -> chain l d -> chain (it :: l) (block (item_size it) it pad ++ d).

Lemma chain_snoc l d it pad : chain l d -> block_ok it pad -> chain (l ++ [it]) (d ++ block (item_size it) it pad).
Proof.
  induction 1 as [|it0 pad0 l d Hb Hc IH]; intros Hp; cbn [app].
  - rewrite <- (app_nil_r (block _ _ _)). by repeat constructor.
  - rewrite <- app_assoc. constructor; [done|]. by apply IH.
Qed.

Lemma length_chain l d : chain l d -> Z.of_nat (length d) = total l.
Proof. induction 1 as [|it pad l d Hb Hc IH]; cbn [total]; [done|]. rewrite length_app, Nat2Z.inj_add, (length_block _ _ _ Hb), IH. done. Qed.

(** The list [a] holds the items [l]. *)
Definition represents (l : list (list Z)) (h : dlist_head) : Prop :=
  exists l0 it front pad rest, l = l0 ++ [it] /\ chain l0 front /\ block_ok it pad /\ dl_data h = front ++ block 0 it pad ++ rest /\
    dl_last h = total l0 /\ dl_lastsz h = item_size it /\ Z.of_nat (length (dl_data h)) = chunks (total l).

Lemma store_item l front rest it : chain l front -> Z.of_nat (length (front ++ rest)) = chunks (total (l ++ [it])) ->
  exists d1 d2, write_size (front ++ rest) (total l) 0 = Some d1 /\ wr_bytes d1 (Z.to_nat (total l + W)) it = Some d2 /\
    represents (l ++ [it]) {| dl_last := total l; dl_lastsz := item_size it; dl_data := d2 |}.
Proof.
  intros Hc Hlen. pose proof (length_chain _ _ Hc) as Hf. pose proof (item_size_bounds it) as Hit. pose proof (chunks_bounds (total (l ++ [it]))) as Hch.
  rewrite total_app in Hch. cbn [total] in Hch. rewrite length_app, Nat2Z.inj_add, total_app in Hlen. cbn [total] in Hlen.
  assert (Hrest : (item_size it <= Z.of_nat (length rest))%Z) by lia.
  set (w := le_bytes sizeof_long 0). assert (Hw : length w = sizeof_long) by apply length_le_bytes.
  assert (Hr1 : sizeof_long + length it <= length rest) by lia. set (tail := drop (length it) (drop sizeof_long rest)).
  assert (Ht : length tail = length rest - sizeof_long - length it) by (unfold tail; rewrite !length_drop; lia).
  set (k := Z.to_nat (item_size it) - sizeof_long - length it). exists (front ++ w ++ drop sizeof_long rest), ((front ++ w) ++ it ++ tail). split; [|split].
  - unfold write_size. replace (Z.to_nat (total l)) with (length front) by lia. rewrite wr_bytes_app_mid; [|fold w; lia]. fold w. by rewrite Hw.
  - rewrite app_assoc. replace (Z.to_nat (total l + W)) with (length (front ++ w)) by (rewrite length_app; lia). apply wr_bytes_app_mid. rewrite length_drop. lia.
  - exists l, it, front, (take k tail), (drop k tail). cbn [dl_data dl_last dl_lastsz]. splits; try done.
    + unfold block_ok. fold w. rewrite !length_app, length_take. lia.
    + unfold block. fold w. by rewrite <- !app_assoc, take_drop.
    + rewrite !length_app, total_app. cbn [total]. lia.
Qed.

(** The numbers stay below the limit of [size_t]. *)
Definition small (n : Z) : Prop := (n + 2048 < 256 ^ W)%Z.

Lemma usize_small n : (0 <= n)%Z -> small n -> usize n = n.
Proof. intros H1 H2. apply Z.mod_small. unfold small in H2. lia. Qed.

Context (junk : nat -> list Z) (Hjunk : forall n, length (junk n) = n).

Lemma dlist_add_first ok it : small (total [it]) -> exists a, dlist_add ok junk None it = Some a /\
  match a with Some h => represents [it] h | None => ok = false end.
Proof.
  intros Hs. pose proof (item_size_bounds it) as Hit. pose proof W_pos. cbn [total] in Hs. rewrite Z.add_0_r in Hs.
  unfold dlist_add, dlist_grow. sbind. rewrite (usize_small (Z.of_nat (length it) + W)) by (unfold small in *; lia). fold (item_size it).
  rewrite (usize_small (0 + item_size it)) by (unfold small in *; lia). rewrite Z.add_0_l. bool_true (0 <? item_size it)%Z. destruct ok; [|by eexists].
  cbn [length dl_data app]. rewrite Nat.sub_0_r. set (rest := junk _).
  destruct (store_item [] [] rest it chain_nil) as (d1 & d2 & E1 & E2 & Hrep).
  { cbn [app total]. unfold rest. rewrite Hjunk, Z.add_0_r. pose proof (chunks_bounds (item_size it)). lia. }
  cbn [app total] in *. rewrite E1. sbind. unfold dlist_last. cbn [dl_data dl_last dl_lastsz]. rewrite E2. sbind. by eexists.
Qed.

Lemma dlist_add_more ok l h it : represents l h -> small (total (l ++ [it])) -> exists a, dlist_add ok junk (Some h) it = Some a /\
  match a with Some h => represents (l ++ [it]) h | None => ok = false end.
Proof.
  intros (l0 & it0 & front & pad & rest & -> & Hc & Hb & Hd & Hl & Hz & Hlen) Hs. pose proof (item_size_bounds it) as Hit. pose proof W_pos. pose proof (total_nonneg l0) as Hn0.
  pose proof (item_size_bounds it0) as Hit0. pose proof (chain_snoc _ _ _ _ Hc Hb) as Hc'. set (front' := front ++ block (item_size it0) it0 pad) in *.
  assert (Et : total (l0 ++ [it0]) = (total l0 + item_size it0)%Z) by (rewrite total_app; cbn [total]; lia).
  assert (Ets : total ((l0 ++ [it0]) ++ [it]) = (total (l0 ++ [it0]) + item_size it)%Z) by (rewrite total_app; cbn [total]; lia). rewrite Ets in Hs.
  unfold dlist_add, dlist_grow. rewrite Hl, Hz, Hd, <- Et. rewrite (usize_small (total (l0 ++ [it0]))) by (unfold small in *; lia).
  assert (Ew : write_size (front ++ block 0 it0 pad ++ rest) (total l0) (item_size it0) = Some (front' ++ rest)).
  { unfold write_size, block. replace (Z.to_nat (total l0)) with (length front) by (pose proof (length_chain _ _ Hc); lia). rewrite <- app_assoc.
    rewrite wr_bytes_app_mid by (rewrite length_app, !length_le_bytes; lia). rewrite length_le_bytes, drop_app_length' by (by rewrite length_le_bytes).
    unfold front', block. by rewrite <- !app_assoc. }
  rewrite Ew. sbind. rewrite (usize_small (Z.of_nat (length it) + W)) by (unfold small in *; lia). fold (item_size it).
  rewrite (usize_small (total (l0 ++ [it0]) + item_size it)) by (unfold small in *; lia). cbn [dl_data].
  assert (Hlen' : Z.of_nat (length (front' ++ rest)) = chunks (total (l0 ++ [it0]))).
  { rewrite <- Hlen, Hd. unfold front', block. rewrite !length_app, !length_le_bytes. lia. }
  pose proof (chunks_bounds (total (l0 ++ [it0]) + item_size it)) as Hch.
  destruct (chunks (total (l0 ++ [it0])) <? total (l0 ++ [it0]) + item_size it)%Z eqn:Ec; boolp.
  - destruct ok; [|by eexists]. cbn [dl_data]. rewrite <- app_assoc. set (more := junk _).
    destruct (store_item (l0 ++ [it0]) front' (rest ++ more) it Hc') as (d1 & d2 & E1 & E2 & Hrep).
    { rewrite app_assoc, length_app. unfold more. rewrite Hjunk, Ets. lia. }
    rewrite E1. sbind. unfold dlist_last. cbn [dl_data dl_last dl_lastsz]. rewrite E2. sbind. by eexists.
  - cbn [dl_data]. destruct (store_item (l0 ++ [it0]) front' rest it Hc') as (d1 & d2 & E1 & E2 & Hrep).
    { rewrite Hlen', Ets. symmetry. apply chunks_same. lia. }
    rewrite E1. sbind. unfold dlist_last. cbn [dl_data dl_last dl_lastsz]. rewrite E2. sbind. by eexists.
Qed.

Lemma dlist_adds_more items l h : represents l h -> small (total (l ++ map snd items)) -> exists a, dlist_adds junk (Some h) items = Some a /\
  match a with Some h' => represents (l ++ map snd items) h' | None => false ∈ map fst items end.
Proof.
  revert l h. induction items as [|[ok it] items IH]; intros l h Hr Hs; cbn [dlist_adds map fst snd] in *.
  { exists (Some h). by rewrite app_nil_r. }
  rewrite (snoc_assoc l) in Hs. destruct (dlist_add_more ok l h it Hr) as (a & -> & Ha).
  { rewrite total_app in Hs. pose proof (total_nonneg (map snd items)). unfold small in *. lia. }
  sbind. destruct a as [h'|]; [|exists None; split; [done|]; subst; by constructor]. destruct (IH _ _ Ha Hs) as (a & -> & Ha'). exists a. split; [done|].
  destruct a; [|by constructor]. by rewrite (snoc_assoc l).
Qed.

(** *** Reading back *)

(** An item can be read at the reference, which is aligned. *)
Definition item_at (d : list Z) (it : list Z) (ref : Z) : Prop := rd_bytes d (Z.to_nat ref) (length it) = Some it /\ (ref mod W = 0)%Z.

Lemma item_at_block pre v it pad post : (Z.of_nat (length pre) mod W = 0)%Z -> item_at (pre ++ block v it pad ++ post) it (Z.of_nat (length pre) + W).
Proof.
  intros Hp. split.
  - unfold block. replace (pre ++ (le_bytes sizeof_long v ++ it ++ pad) ++ post) with ((pre ++ le_bytes sizeof_long v) ++ it ++ pad ++ post) by (by rewrite <- !app_assoc).
    replace (Z.to_nat _) with (length (pre ++ le_bytes sizeof_long v)) by (rewrite length_app, length_le_bytes; lia). apply rd_bytes_app.
  - pose proof W_pos. rewrite Z.add_mod, Hp, Z.mod_same by lia. done.
Qed.

Lemma next_block pre v it pad post : (0 <= v < 256 ^ W)%Z ->
  dlist_next (pre ++ block v it pad ++ post) (Z.of_nat (length pre) + W) = Some (if (v =? 0)%Z then None else Some (Z.of_nat (length pre) + W + v)%Z).
Proof.
  intros Hv. unfold dlist_next, read_size, block. replace (Z.to_nat (Z.of_nat (length pre) + W - W)) with (length pre) by lia. rewrite <- app_assoc.
  pose proof (rd_bytes_app pre (le_bytes sizeof_long v) ((it ++ pad) ++ post)) as E. rewrite length_le_bytes in E. rewrite E. sbind. rewrite le_value_bytes, Z.mod_small by done. done.
Qed.

Lemma refs_chain l front pre it pad rest : chain l front -> block_ok it pad -> small (total l) -> (Z.of_nat (length pre) mod W = 0)%Z ->
  exists refs, dlist_refs (S (length l)) (pre ++ front ++ block 0 it pad ++ rest) (Some (Z.of_nat (length pre) + W)%Z) = Some refs /\
    Forall2 (item_at (pre ++ front ++ block 0 it pad ++ rest)) (l ++ [it]) refs /\ list.last refs = Some (Z.of_nat (length pre) + total l + W)%Z.
Proof.
  intros Hc Hb. revert pre. induction Hc as [|it0 pad0 l d Hb0 Hc IH]; intros pre Hs Hp; cbn [length app].
  - exists [(Z.of_nat (length pre) + W)%Z]. cbn [dlist_refs]. rewrite next_block by (pose proof W_pos; lia). cbn. split; [done|]. split; [|f_equal; lia].
    constructor; [by apply item_at_block|constructor].
  - cbn [total] in Hs. pose proof (item_size_bounds it0). pose proof W_pos. pose proof (total_nonneg l). rewrite <- (app_assoc (block _ _ _)).
    destruct (IH (pre ++ block (item_size it0) it0 pad0)) as (refs & Er & Hr & Hl).
    { unfold small in *. lia. }
    { rewrite length_app, Nat2Z.inj_add, (length_block _ _ _ Hb0), Z.add_mod, Hp by lia. unfold item_size. rewrite align_mod. done. }
    rewrite <- app_assoc in Er, Hr. rewrite length_app, Nat2Z.inj_add, (length_block _ _ _ Hb0) in Er, Hl.
    exists ((Z.of_nat (length pre) + W)%Z :: refs). cbn [dlist_refs]. rewrite next_block by (unfold small in *; lia). bool_false (item_size it0 =? 0)%Z. sbind.
    replace (Z.of_nat (length pre) + W + item_size it0)%Z with (Z.of_nat (length pre) + item_size it0 + W)%Z by lia. cbn [dlist_refs] in Er. rewrite Er. sbind. split; [done|].
    split; [constructor; [by apply item_at_block|done]|]. destruct refs as [|r refs]; [by destruct l; inversion Hr|]. cbn [total].
    change (list.last (_ :: r :: refs)) with (list.last (r :: refs)). rewrite Hl. f_equal. lia.
Qed.
End Lists.

(** A dynamic list keeps its items.  Whatever [realloc] leaves in new memory and however large
    items are, as long as the sizes are in the range of [size_t]: items that are added one after the other
    are stored within the block, and are found again in order, unchanged and at aligned addresses, from
    [dlist_first] on with [dlist_next]; [dlist_last] is the last of them.  There is no list
    only if there are no items or memory ran out. *)
Theorem dlist_roundtrip {P : Platform} (junk : nat -> list Z) (items : list (bool * list Z)) :
  sizeof_long = 4 \/ sizeof_long = 8 -> (forall n, length (junk n) = n) -> small (total (map snd items)) ->
  exists a, dlist_adds junk None items = Some a /\
    match a with
    | None => items = [] \/ false ∈ map fst items
    | Some h => exists refs, dlist_refs (length items) (dl_data h) (dlist_first a) = Some refs /\
        Forall2 (item_at (dl_data h)) (map snd items) refs /\ list.last refs = Some (dlist_last h)
    end.
Proof.
  intros HW Hj Hs. destruct items as [|[ok it] items]; [exists None; split; [done|by left]|]. cbn [dlist_adds map fst snd] in *.
  assert (Hn : (0 <= total (map snd items))%Z) by (by apply total_nonneg).
  destruct (dlist_add_first HW junk Hj ok it) as (a & -> & Ha); [cbn [total] in *; unfold small in *; lia|]. sbind.
  destruct a as [h|]; [|exists None; split; [done|]; right; subst; by constructor].
  destruct (dlist_adds_more HW junk Hj items [it] h Ha Hs) as (a & -> & Ha'). exists a. split; [done|]. destruct a as [h'|]; [|right; by constructor].
  destruct Ha' as (l0 & it0 & front & pad & rest & El & Hc & Hb & Hd & Hl & _). cbn [app] in El.
  destruct (refs_chain HW l0 front [] it0 pad rest Hc Hb) as (refs & Er & Hr & Hlast); [|done|].
  { rewrite El, (total_app HW) in Hs. pose proof (total_nonneg HW [it0]). unfold small in *. lia. }
  exists refs. rewrite Hd, El. cbn [dlist_first]. assert (Elen : length ((ok, it) :: items) = S (length l0)).
  { apply (f_equal length) in El. cbn [length] in *. rewrite length_map, length_app in El. cbn in El. lia. }
  rewrite Elen. split; [exact Er|]. split; [exact Hr|]. unfold dlist_last. rewrite Hl. exact Hlast.
Qed.

(** ** Examples *)

#[local] Existing Instance LP64.

Definition demo_array : option (@darray Z) := Some {| da_elem := replicate 8 (Some 1%Z); da_room := 8 |}.

(** There is no memory for the ninth element, and the others are cleaned up. *)
Lemma da_grow1_resize_witness : da_grow1 false true demo_array = (None, replicate 8 (Some 1%Z)) /\ da_ok (fst (da_grow1 true true demo_array)) /\ da_nel (fst (da_grow1 true true demo_array)) = 9.
Proof.
  destruct (da_grow1_resize false true 9 demo_array) as (E & _); [reflexivity|]. destruct (da_grow1_resize true true 9 demo_array) as (_ & H & _); [reflexivity|].
  split; [rewrite E; reflexivity|]. split; [exact H|reflexivity].
Defined.

Definition demo_items : list (bool * list Z) := [(true, [1; 2; 3]%Z); (true, replicate 1020 7%Z); (true, [])].

Lemma dlist_roundtrip_witness :
  (fun a => match a with Some h => dlist_refs 3 (dl_data h) (dlist_first a) | None => None end) <$> dlist_adds (fun n => replicate n 9%Z) None demo_items = Some (Some [8; 24; 1056]%Z) /\
  exists a, dlist_adds (fun n => replicate n 9%Z) None demo_items = Some a.
Proof.
  split; [vm_compute; reflexivity|]. destruct (dlist_roundtrip (fun n => replicate n 9%Z) demo_items) as (a & E & _).
  - right. reflexivity.
  - intros n. apply length_replicate.
  - vm_compute. reflexivity.
  - exists a. exact E.
Defined.
