(* ===== verification/Exec.v ===== *)
(** Using a reply: the part of [p_exec_query] in [pdnsd/src/dns_query.c] that follows the
    reception of a message, from the check of the question to the records that are
    cached and the list of name servers that is returned.

    The clock is read once ([now]).  The message buffer has exactly the length that was
    received.  The list of name servers, a [dlist] in the code, is the list of its items. *)
From S2P Require Import Prelude Names DnsName RrTypes HashTab RrList Cent Cache Answer Query Reply.

(** ** Data *)

(** The constants of consts.h. *)
Inductive const :=
  | C_ERR | C_ON | C_OFF | C_DEFAULT | C_DISCOVER | C_NONE | C_IF | C_EXEC | C_PING | C_QUERY | C_ONQUERY | C_ONTIMEOUT
  | UDP_ONLY | TCP_ONLY | TCP_UDP | UDP_TCP | C_DEV | C_DIALD | C_INCLUDED | C_EXCLUDED | C_SIMPLE_ONLY | C_FQDN_ONLY
  | C_AUTH | C_DOMAIN | C_FAIL | C_NEGATE.

#[export] Instance const_eq_dec : EqDecision const.
Proof. solve_decision. Defined.

(** Addresses with masks, as bytes in network order. *)
Record rejectlist := { rl_policy : const; rl_inherit : bool; rl_a4 : list (list Z * list Z); rl_a6 : list (list Z * list Z) }.

(** The fields of [query_stat_t] that matter here. *)
Record query_stat := {
  qs_flags : Z; qs_nocache : bool; qs_auth_serv : Z; qs_lean_query : bool; qs_trusted : bool;
  qs_aa : bool; qs_tc : bool; qs_ra : bool; qs_failed : Z;
  qs_nsdomain : option (list Z); qs_rejectlist : option rejectlist }.

Definition qs_set_bits (aa tc ra : bool) (st : query_stat) : query_stat :=
  {| qs_flags := qs_flags st; qs_nocache := qs_nocache st; qs_auth_serv := qs_auth_serv st; qs_lean_query := qs_lean_query st;
     qs_trusted := qs_trusted st; qs_aa := aa; qs_tc := tc; qs_ra := ra; qs_failed := qs_failed st;
     qs_nsdomain := qs_nsdomain st; qs_rejectlist := qs_rejectlist st |}.
Definition qs_set_failed (v : Z) (st : query_stat) : query_stat :=
  {| qs_flags := qs_flags st; qs_nocache := qs_nocache st; qs_auth_serv := qs_auth_serv st; qs_lean_query := qs_lean_query st;
     qs_trusted := qs_trusted st; qs_aa := qs_aa st; qs_tc := qs_tc st; qs_ra := qs_ra st; qs_failed := v;
     qs_nsdomain := qs_nsdomain st; qs_rejectlist := qs_rejectlist st |}.

(** [if(!st->failed) st->failed=1]. *)
Definition mark_failed (st : query_stat) : query_stat := if (qs_failed st =? 0)%Z then qs_set_failed 1 st else st.

(** Options of the configuration that are used here. *)
Record policies := { neg_domain_pol : const; neg_rrs_pol : const; deleg_only_zones : option (list (list Z)) }.

(** The three arrays [secs]: answer, authority and additional section. *)
Record sections := { ans_sec : list dns_cent; auth_sec : list dns_cent; add_sec : list dns_cent }.

(** What [p_exec_query] leaves: its return value, [*entp], [*ns], [*c_soa] if it has been
    set, and [*st]. *)
Record exec_result := { ex_rv : Z; ex_ent : option dns_cent; ex_ns : list (list Z); ex_c_soa : option Z; ex_st : query_stat }.

Definition h_aa (b : Z) : Z := Z.land (Z.shiftr b 2) 1.
Definition h_ra (b : Z) : Z := Z.land (Z.shiftr b 7) 1.
Definition flag (b : Z) : bool := negb (b =? 0)%Z.

Definition QT_MIN : Z := 251.
Definition QT_MAX : Z := 255.

(** A loop that stops at the first element with a property. *)
Fixpoint exists_opt {A} (f : A -> option bool) (l : list A) : option bool :=
  match l with
  | [] => Some false
  | x :: l' => b ← f x; if (b : bool) then Some true else exists_opt f l'
  end.

Fixpoint fold_opt {A B} (f : B -> A -> option B) (l : list A) (b : B) : option B :=
  match l with
  | [] => Some b
  | x :: l' => b ← f b x; fold_opt f l' b
  end.

Definition is_set {A} (r : option A) : bool := match r with Some _ => true | None => false end.

(** ** References to name servers and authorities *)

(** One entry [ce] of the authority section and an entry of the answer section. *)
Definition match_auth (st : query_stat) (cent ce : dns_cent) : option dns_cent :=
  '(ml, rem, _) ← domain_match (qname ce) (qname cent);
  if (rem =? 0) && (negb (ml =? 0) || negb (qs_auth_serv st =? 2)%Z) then
    ns ← get_rrsmu ce RRMUINDEX_NS;
    let cent := if is_set ns && ((c_ns cent =? cundef)%Z || (c_ns cent <? Z.of_nat ml)%Z) then set_c_ns (u8 (Z.of_nat ml)) cent else cent in
    soa ← get_rrsmu ce RRMUINDEX_SOA;
    Some (if is_set soa && ((c_soa cent =? cundef)%Z || (c_soa cent <? Z.of_nat ml)%Z) then set_c_soa (u8 (Z.of_nat ml)) cent else cent)
  else Some cent.

Definition note_refs (st : query_stat) (qtype : Z) (n : nat) (auth : list dns_cent) (cent : dns_cent) : option dns_cent :=
  scnt ← rhnsegcnt (qname cent);
  ns ← get_rrsmu cent RRMUINDEX_NS;
  let cent := if is_set ns then set_c_ns (u8 (Z.of_nat scnt)) cent else cent in
  soa ← get_rrsmu cent RRMUINDEX_SOA;
  let cent := if is_set soa then set_c_soa (u8 (Z.of_nat scnt)) cent else cent in
  wanted ← (if (QT_MIN <=? qtype)%Z && (qtype <=? QT_MAX)%Z then Some true
            else rs ← getrrset cent qtype; Some (is_set rs || ((n =? 1) && (num_rrs cent =? 0)%Z)));
  if (wanted : bool) then fold_opt (match_auth st) auth cent else Some cent.

(** ** Addresses that are to be rejected *)

(** The [i]th 32-bit word of an address in memory. *)
Definition addr_word (a : list Z) (i : nat) : option Z :=
  b0 ← rd a (4 * i); b1 ← rd a (4 * i + 1); b2 ← rd a (4 * i + 2); b3 ← rd a (4 * i + 3);
  Some (b0 + 2 ^ 8 * b1 + 2 ^ 16 * b2 + 2 ^ 24 * b3)%Z.

Definition word_equiv (a b m : list Z) (i : nat) : option bool :=
  x ← addr_word a i; y ← addr_word b i; z ← addr_word m i; Some (Z.land (Z.lxor x y) z =? 0)%Z.

Definition ADDR4MASK_EQUIV (a b m : list Z) : option bool := word_equiv a b m 0.

Fixpoint words_equiv (ixs : list nat) (a b m : list Z) : option bool :=
  match ixs with
  | [] => Some true
  | i :: ixs' => e ← word_equiv a b m i; if (e : bool) then words_equiv ixs' a b m else Some false
  end.
Definition ADDR6MASK_EQUIV (a b m : list Z) : option bool := words_equiv [0; 1; 2; 3] a b m.

Definition rejects_set (equiv : list Z -> list Z -> list Z -> option bool) (am : list (list Z * list Z)) (rs : option rr_set) : option bool :=
  match rs with
  | Some rs => exists_opt (fun rr => exists_opt (fun x => equiv rr x.1 x.2) am) (rs_rrs rs)
  | None => Some false
  end.

Definition rejects (rl : rejectlist) (cent : dns_cent) : option bool :=
  a ← get_rrsmu cent RRMUINDEX_A;
  r ← rejects_set ADDR4MASK_EQUIV (rl_a4 rl) a;
  if (r : bool) then Some true
  else
    a ← get_rrsmu cent RRMUINDEX_AAAA;
    rejects_set ADDR6MASK_EQUIV (rl_a6 rl) a.

Definition reject_answer (st : query_stat) (secs : sections) : option bool :=
  match qs_rejectlist st with
  | Some rl => exists_opt (rejects rl) (ans_sec secs ++ auth_sec secs ++ add_sec secs)
  | None => Some false
  end.

(** ** Time-to-live of negative answers *)

Definition soa_minimum (data : list Z) : option Z :=
  p ← skiprhn data;
  p ← skiprhn p;
  p ← adv p 16;
  GETINT32 p 0.

(** The time-to-live of a set with a SOA record. *)
Definition soa_ttl (rs : rr_set) (rr : list Z) : option Z :=
  min ← soa_minimum rr;
  Some (if (rs_ttl rs >? min)%Z then min else rs_ttl rs).

Definition lookup_cent_array (ca : list dns_cent) (nm : list Z) : option (option dns_cent) :=
  i ← find_cent ca nm;
  match i with Some i => ce ← ca !! i; Some (Some ce) | None => Some None end.

(** The SOA record of an entry, if there is one, gives the time-to-live. *)
Definition soa_of (cent : option dns_cent) (ttl : Z) : option Z :=
  match cent with
  | Some cent =>
      rs ← get_rrsmu cent RRMUINDEX_SOA;
      match rs with
      | Some rs => match rs_rrs rs with rr :: _ => soa_ttl rs rr | [] => Some ttl end
      | None => Some ttl
      end
  | None => Some ttl
  end.

Definition neg_domain_ttl (name : list Z) (ent : dns_cent) (auth : list dns_cent) (neg_ttl : Z) : option Z :=
  if negb (c_soa ent =? cundef)%Z then
    scnt ← rhnsegcnt name;
    if (c_soa ent <? Z.of_nat scnt)%Z then
      nm ← skipsegs name (scnt - Z.to_nat (c_soa ent));
      cent ← lookup_cent_array auth nm;
      soa_of cent neg_ttl
    else Some neg_ttl
  else Some neg_ttl.

(** The same for a record set that is missing: the entry itself may have a SOA record. *)
Definition neg_rrset_ttl (name : list Z) (ent : dns_cent) (auth : list dns_cent) (neg_ttl : Z) : option Z :=
  let above :=
    scnt ← (if negb (c_soa ent =? cundef)%Z then rhnsegcnt name else Some 0);
    nm ← (if negb (c_soa ent =? cundef)%Z && (c_soa ent <? Z.of_nat scnt)%Z
          then skipsegs name (scnt - Z.to_nat (c_soa ent)) else Some name);
    cent ← lookup_cent_array auth nm;
    soa_of cent neg_ttl in
  rs ← get_rrsmu ent RRMUINDEX_SOA;
  match rs with
  | Some rs => match rs_rrs rs with rr :: _ => soa_ttl rs rr | [] => above end
  | None => above
  end.

(** ** Zones that only delegate *)

(** Whether [nm] is in the zone, and then whether it is below it. *)
Definition in_zone (nm zone : list Z) : option (option bool) :=
  '(n, rem, zrem) ← domain_match nm zone;
  Some (if negb (n =? 0) && (zrem =? 0) then Some (negb (rem =? 0)) else None).

Fixpoint first_zone (nm : list Z) (zones : list (list Z)) : option (option bool) :=
  match zones with
  | [] => Some None
  | z :: zones' => r ← in_zone nm z; match r with Some b => Some (Some b) | None => first_zone nm zones' end
  end.

(** Whether the NS or SOA records of the entries show a delegation, and the number of
    entries with such records up to there. *)
Fixpoint find_delegation (zones : list (list Z)) (cents : list dns_cent) (authcnt : nat) : option (bool * nat) :=
  match cents with
  | [] => Some (false, authcnt)
  | ce :: cents' =>
      ns ← get_rrsmu ce RRMUINDEX_NS;
      soa ← (if is_set ns then Some ns else get_rrsmu ce RRMUINDEX_SOA);
      if is_set soa then
        z ← first_zone (qname ce) zones;
        match z with
        | Some false => find_delegation zones cents' (S authcnt)
        | _ => Some (true, S authcnt)
        end
      else find_delegation zones cents' authcnt
  end.

(** [missingdelegation] and [authcnt]. *)
Definition missing_delegation (name : list Z) (zones : list (list Z)) (secs : sections) : option (bool * nat) :=
  z ← first_zone name zones;
  match z with
  | Some true => '(found, authcnt) ← find_delegation zones (ans_sec secs ++ auth_sec secs) 0; Some (negb found, authcnt)
  | _ => Some (false, 0)
  end.

(** ** Name servers found in the reply *)

Definition idem : Z := 0xff.

(** Whether the list has the name server already. *)
Definition ns_known (ns : list (list Z)) (nm : list Z) : option bool :=
  exists_opt (fun p => b ← rd p 0; q ← (if (b =? idem)%Z then adv p 1 else skiprhn p); rhnicmp q nm) ns.

(** The list and [num_ns]; the records of one set. *)
Fixpoint collect_rrs (qname : list Z) (first : bool) (rrs : list (list Z)) (ns : list (list Z) * Z) : R (list (list Z) * Z) :=
  match rrs with
  | [] => mret ns
  | rr :: rrs' =>
      known ← liftR (ns_known ns.1 rr);
      if (known : bool) then collect_rrs qname first rrs' ns
      else
        sz1 ← liftR (if first then rhnlen qname else Some 1);
        sz2 ← liftR (rhnlen rr);
        ok ← memR malloc;
        if (ok : bool) then
          front ← liftR (if first then rd_bytes qname 0 sz1 else Some [idem]);
          back ← liftR (rd_bytes rr 0 sz2);
          collect_rrs qname false rrs' (ns.1 ++ [front ++ back], u16 (ns.2 + 1))
        else returns RC_FATALERR
  end.

Fixpoint collect_types (cent : dns_cent) (nstypes : list Z) (ns : list (list Z) * Z) : R (list (list Z) * Z) :=
  match nstypes with
  | [] => mret ns
  | tp :: tps =>
      rs ← liftR (getrrset cent tp);
      ns ← (match rs with Some rs => collect_rrs (qname cent) true (rs_rrs rs) ns | None => mret ns end : R _);
      collect_types cent tps ns
  end.

(** [st->trusted || !st->nsdomain || (domain_match(...),rem==0)]. *)
Definition in_domain (st : query_stat) (nm : list Z) : option bool :=
  if qs_trusted st then Some true
  else match qs_nsdomain st with
       | None => Some true
       | Some d => '(_, rem, _) ← domain_match d nm; Some (rem =? 0)
       end.

(** [*(cent->qname) || st->auth_serv!=2], and the entry is in the domain. *)
Definition admitted (st : query_stat) (nm : list Z) : option bool :=
  b ← rd nm 0;
  if flag b || negb (qs_auth_serv st =? 2)%Z then in_domain st nm else Some false.

Fixpoint collect_ns (st : query_stat) (cents : list dns_cent) (ns : list (list Z) * Z) : R (list (list Z) * Z) :=
  match cents with
  | [] => mret ns
  | cent :: cents' =>
      ok ← liftR (admitted st (qname cent));
      b ← liftR (rd (qname cent) 0);
      ns ← (if (ok : bool) && negb (b =? idem)%Z then collect_types cent [T_NS; T_SOA] ns else mret ns : R _);
      collect_ns st cents' ns
  end.

Section Exec.
Context {P : Platform} (now : Z) (global : globals) (conf : policies).

(** ** Returning *)

(** The label [free_centarrays_recvbuf_return]: the first entry of the answer section is
    treated separately. *)
Definition return_with (rv : Z) (ent : option dns_cent) (ns : list (list Z)) (c_soa : option Z) (st : query_stat) (secs : sections) : M exec_result :=
  _ ← free_cents (drop 1 (ans_sec secs));
  _ ← free_cents (auth_sec secs);
  _ ← free_cents (add_sec secs);
  mret {| ex_rv := rv; ex_ent := ent; ex_ns := ns; ex_c_soa := c_soa; ex_st := st |}.

(** The label [free_ent_centarrays_recvbuf_return]. *)
Definition return_error (rv : Z) (ns : list (list Z)) (st : query_stat) (secs : sections) : M exec_result :=
  _ ← (match ans_sec secs with [] => mret tt | ent :: _ => free_cent ent end);
  return_with rv None ns None st secs.

(** The records of one section that are added to the cache. *)
Fixpoint cache_entries (st : query_stat) (cents : list dns_cent) : M unit :=
  match cents with
  | [] => mret tt
  | cent :: cents' =>
      ok ← liftM (admitted st (qname cent));
      _ ← (if (ok : bool) then add_cache now global cent else mret tt);
      cache_entries st cents'
  end.

(** The label [add_additional]. *)
Definition add_additional (rv : Z) (ent : option dns_cent) (ns : list (list Z)) (c_soa : option Z) (st : query_stat)
    (neg_ans reject_ans : bool) (secs : sections) : M exec_result :=
  _ ← (if (qs_failed st =? 0)%Z && negb reject_ans then
         _ ← (if neg_ans then mret tt else cache_entries st (drop 1 (ans_sec secs)));
         _ ← cache_entries st (auth_sec secs);
         cache_entries st (add_sec secs)
       else mret tt);
  return_with rv ent ns c_soa st secs.

(** The label [cleanup_return_OK]. *)
Definition cleanup_return_OK (ns : list (list Z) * Z) (st : query_stat) (neg_ans reject_ans : bool) (secs : sections) : M exec_result :=
  if negb (qs_failed st =? 0)%Z && neg_ans && (ns.2 =? 0)%Z then return_error RC_SERVFAIL [] st secs
  else
    ok ← malloc;
    if (ok : bool) then
      ent ← liftM (ans_sec secs !! 0);
      add_additional RC_OK (Some ent) ns.1 None st neg_ans reject_ans secs
    else return_error RC_FATALERR [] st secs.

Definition set_ans (ans : list dns_cent) (secs : sections) : sections :=
  {| ans_sec := ans; auth_sec := auth_sec secs; add_sec := add_sec secs |}.

(** The label [name_error]. *)
Definition name_error (name : list Z) (ns : list (list Z)) (st : query_stat) (reject_ans : bool) (secs : sections) : M exec_result :=
  ent ← liftM (ans_sec secs !! 0);
  if bool_decide (neg_domain_pol conf = C_ON) || (bool_decide (neg_domain_pol conf = C_AUTH) && qs_aa st) then
    ttl ← liftM (neg_domain_ttl name ent (auth_sec secs) (g_neg_ttl global));
    ent ← negate_cent ent ttl now;
    let ent := if qs_nocache st then set_flags (Z.lor (flags ent) DF_NOCACHE) ent else ent in
    cleanup_return_OK (ns, 0%Z) st true reject_ans (set_ans (<[0 := ent]> (ans_sec secs)) secs)
  else
    _ ← free_cent ent;
    add_additional RC_NAMEERR None ns (Some (c_soa ent)) st true reject_ans secs.

(** ** The stages *)

(** The question of the reply must be that of the query: the position behind it. *)
Definition check_question (recv name : list Z) (qtype : Z) : option (option (nat * nat)) :=
  qd ← GETINT16 recv qdcount;
  if negb (qd =? 1)%Z then Some None
  else
    d ← decompress_name recv (length recv) sizeof_dns_hdr_t (length recv - sizeof_dns_hdr_t) (replicate DNSNAMEBUFSIZE 0%Z);
    if negb (dr_rc d =? RC_OK)%Z then Some None
    else
      same ← rhnicmp (dr_tgt d) name;
      if negb same then Some None
      else if (dr_sz d <? 4) then Some None
      else
        qt ← GETINT16 recv (dr_src d);
        if negb (qt =? qtype)%Z then Some None
        else Some (Some (dr_src d + 4, dr_sz d - 4)).

Definition no_edns : edns_info := {| ed_udpsize := 0; ed_rcode := 0; ed_version := 0; ed_do_flg := 0 |}.

(** The next section, with an empty array and no OPT records. *)
Definition next_section (s : section) : section :=
  {| sc_ptr := sc_ptr s; sc_lcnt := sc_lcnt s; sc_centa := []; sc_numopt := 0; sc_ep := sc_ep s |}.

(** One of the sections behind the answer section, if those before have been read. *)
Definition read_section (recv : list Z) (flags : Z) (count : nat) (rv : Z) (s : section) : M (Z * section) :=
  if (rv =? RC_OK)%Z then
    n ← liftM (GETINT16 recv count);
    if flag n then rrs2cent (Z.to_nat n) recv (Z.lor flags CF_ADDITIONAL) now RC_OK (next_section s)
    else mret (rv, next_section s)
  else mret (rv, next_section s).

(** All sections; the result has the last return code, the arrays, and the extended
    return code and [st], which an OPT record may change. *)
Definition read_sections (recv : list Z) (flags : Z) (ptr lcnt : nat) (ent : dns_cent) (rcode : Z) (st : query_stat)
    : M (Z * sections * Z * query_stat) :=
  n ← liftM (GETINT16 recv ancount);
  '(rv, s1) ← rrs2cent (Z.to_nat n) recv flags now RC_OK
    {| sc_ptr := ptr; sc_lcnt := lcnt; sc_centa := [ent]; sc_numopt := 0; sc_ep := no_edns |};
  '(rv, s2) ← read_section recv flags nscount rv s1;
  '(rv, s3) ← read_section recv flags arcount rv s2;
  let secs := {| ans_sec := sc_centa s1; auth_sec := sc_centa s2; add_sec := sc_centa s3 |} in
  if negb (sc_numopt s3 =? 0) && negb (rcode =? ed_rcode (sc_ep s3))%Z
  then mret (rv, secs, ed_rcode (sc_ep s3), mark_failed st)
  else mret (rv, secs, rcode, st).

(** Negative caching of a record set: the entry with a negative set of type [thint], if
    that is called for; false if there is no memory. *)
Definition neg_rrset (name : list Z) (thint flags : Z) (aa : bool) (st : query_stat) (ent : dns_cent) (auth : list dns_cent) : M (bool * dns_cent) :=
  rs ← liftM (if is_type thint then getrrset ent thint else Some None);
  if is_type thint && negb (is_set rs) && negb (qs_tc st) && (qs_failed st <=? 1)%Z &&
     (bool_decide (neg_rrs_pol conf = C_ON) || (bool_decide (neg_rrs_pol conf = C_AUTH) && aa) ||
      (bool_decide (neg_rrs_pol conf = C_DEFAULT) && (aa || qs_ra st)))
  then
    ttl ← liftM (neg_rrset_ttl name ent auth (g_neg_ttl global));
    add_cent_rrset_by_type ent thint ttl now (Z.lor CF_NEGATIVE flags)
  else mret (true, ent).

(** From the negative caching of record sets on. *)
Definition use_answer (name : list Z) (thint flags : Z) (aa : bool) (st : query_stat) (ns : list (list Z)) (secs : sections) : M exec_result :=
  ent ← liftM (ans_sec secs !! 0);
  let neg_ans := (num_rrs ent =? 0)%Z in
  '(ok, ent) ← neg_rrset name thint flags aa st ent (auth_sec secs);
  let secs := set_ans (<[0 := ent]> (ans_sec secs)) secs in
  if negb ok then return_error RC_FATALERR ns st secs
  else if (qs_failed st <=? 1)%Z then
    r ← collect_ns st (ans_sec secs ++ auth_sec secs) (ns, 0%Z);
    match r with
    | inl rc => return_error rc [] st secs
    | inr ns => cleanup_return_OK ns st neg_ans false secs
    end
  else cleanup_return_OK (ns, 0%Z) st neg_ans false secs.

(** The decisions about a reply that has been read. *)
Definition judge_answer (name : list Z) (thint qtype flags : Z) (aa : bool) (rcode : Z) (st : query_stat) (ns : list (list Z)) (secs : sections) : M exec_result :=
  ans ← liftM (mapM (note_refs st qtype (length (ans_sec secs)) (auth_sec secs)) (ans_sec secs));
  let secs := set_ans ans secs in
  reject_ans ← liftM (reject_answer st secs);
  if (rcode =? RC_NAMEERR)%Z then name_error name ns st reject_ans secs
  else if (reject_ans : bool) then
    match qs_rejectlist st with
    | Some rl => if bool_decide (rl_policy rl = C_NEGATE) && (qs_failed st <=? 1)%Z then name_error name ns st reject_ans secs
                 else return_error RC_SERVFAIL ns st secs
    | None => liftM None
    end
  else
    '(missing, authcnt) ← liftM (match deleg_only_zones conf with
                                  | Some zones => if (qs_auth_serv st <? 3)%Z then missing_delegation name zones secs else Some (false, 0)
                                  | None => Some (false, 0)
                                  end);
    if (missing : bool) && negb (authcnt =? 0) && (qs_failed st <=? 1)%Z then name_error name ns st reject_ans secs
    else if missing && (qs_auth_serv st <? 2)%Z then return_error RC_SERVFAIL ns st secs
    else use_answer name thint flags aa st ns secs.

(** A reply [recv] to the query for [name], with the return code [rcode] of its header;
    [rd_bit] is the RD bit of the query. *)
Definition use_reply (recv name : list Z) (thint rd_bit rcode : Z) (st : query_stat) (ns : list (list Z)) : M exec_result :=
  let qtype := if qs_lean_query st then thint else QT_ALL in
  let fail st rv := mret {| ex_rv := rv; ex_ent := None; ex_ns := ns; ex_c_soa := None; ex_st := st |} in
  q ← liftM (check_question recv name qtype);
  match q with
  | None => fail st RC_SERVFAIL
  | Some (ptr, lcnt) =>
      f1 ← liftM (rd recv 2);
      f2 ← liftM (rd recv 3);
      let tc := flag (h_tc f1) in
      let st := qs_set_bits (flag (h_aa f1) && (qs_failed st =? 0)%Z) tc (flag rd_bit && flag (h_ra f2)) st in
      let aa := qs_aa st && negb tc in
      let flags := if aa then Z.lor (qs_flags st) CF_AUTH else qs_flags st in
      ok ← malloc;
      if negb ok then fail st RC_FATALERR
      else
        ent ← init_cent name 0 0 (if aa && (qtype =? QT_ALL)%Z then DF_AUTH else 0%Z);
        match ent with
        | None => fail st RC_FATALERR
        | Some ent =>
            '(rv, secs, rcode, st) ← read_sections recv flags ptr lcnt ent rcode st;
            if (rv =? RC_OK)%Z || ((rv =? RC_TRUNC)%Z && tc) then judge_answer name thint qtype flags aa rcode st ns secs
            else if (rv =? RC_SERVFAIL)%Z then judge_answer name thint qtype flags aa rcode (mark_failed st) ns secs
            else return_error (if (rv =? RC_FATALERR)%Z then rv else RC_SERVFAIL) ns st secs
        end
  end.
End Exec.
