(* ===== verification/ExecStages.v ===== *)
(** The single stages of the use of replies in Exec: what they need, and what they do to
    the entries, the cache and the list of name servers. *)
From S2P Require Import Prelude Names DnsName Compress RrTypes HashTab RrList Cent CentSpec Cache CacheInv CachePurge CacheAdd CacheOps.
From S2P Require Import Answer AnswerRr AnswerSet Query QueryDecode QuerySafe Reply ReplyData ReplySpec Exec.

Section Grow.
Context {P : Platform}.

(** ** The cache while records are added *)

(** Records that were not in the cache before satisfy [Q]. *)
Definition grown (Q : list Z -> Z -> list Z -> Prop) (c c' : cache) : Prop :=
  good_cache c' /\ insert_sort c' = true /\
  forall K e' tp d, abs c' !! K = Some e' -> d ∈ records e' tp ->
    (exists e, abs c !! K = Some e /\ d ∈ records e tp) \/ Q K tp d.

Lemma grown_refl Q c : ready c -> grown Q c c.
Proof. intros [Hg Hi]. unfold grown. splits; [done|done|]. intros K e tp d He Hd. left. by exists e. Qed.

Lemma grown_trans Q a b c : grown Q a b -> grown Q b c -> grown Q a c.
Proof.
  intros (_ & _ & H1) (Hg & Hi & H2). unfold grown. splits; [done|done|]. intros K e tp d He Hd.
  destruct (H2 K e tp d He Hd) as [(e2 & He2 & Hd2)|?]; [|by right]. by apply (H1 K e2 tp d).
Qed.

Lemma grown_weaken (Q Q' : list Z -> Z -> list Z -> Prop) c c' : (forall K tp d, Q K tp d -> Q' K tp d) -> grown Q c c' -> grown Q' c c'.
Proof.
  intros HQ (Hg & Hi & H). unfold grown. splits; [done|done|]. intros K e tp d He Hd.
  destruct (H K e tp d He Hd) as [?|?]; [by left|right; auto].
Qed.

Lemma grown_ready Q c c' : grown Q c c' -> ready c'.
Proof. intros (Hg & Hi & _). by split. Qed.

Lemma grown_mem Q a b c : mem_only a b -> grown Q b c -> grown Q a c.
Proof.
  intros Hm (Hg & Hi & H). assert (E : abs b = abs a) by (apply abs_same; by destruct Hm as [m ->]).
  unfold grown. splits; [done|done|]. intros K e tp d He Hd. rewrite <- E. by apply (H K e tp d).
Qed.

Lemma grown_of_mem Q c c' : ready c -> mem_only c c' -> grown Q c c'.
Proof. intros Hr Hm. eapply grown_mem; [exact Hm|]. apply grown_refl. by eapply ready_mem. Qed.

Lemma abs_shape c K e : inv c -> abs c !! K = Some e -> shape e.
Proof. intros Hi He. apply abs_spec in He as (id & x & Hx & _ & ->); [|done]. by apply strip_ok, (inv_cent c id). Qed.

(** The set of a type, as an element of the array. *)
Lemma getrrset_some e tp rs : shape e -> getrrset e tp = Some (Some rs) <->
  exists j, type_index tp = Some j /\ j < NRRTOT /\ slot e j = Some rs.
Proof.
  intros Hs. rewrite getrrset_slot by done. split.
  - intros [= H]. destruct (type_index tp) as [j|]; [|done]. cbn [mbind option_bind] in H.
    destruct (j <? NRRTOT) eqn:E; [|done]. boolp. by exists j.
  - intros (j & -> & Hj & Hsl). cbn [mbind option_bind]. bool_true (j <? NRRTOT). by rewrite Hsl.
Qed.

Lemma elem_of_records e tp d : d ∈ records e tp <-> exists rs, getrrset e tp = Some (Some rs) /\ d ∈ rs_rrs rs.
Proof.
  unfold records. split.
  - intros H. destruct (getrrset e tp) as [[rs|]|]; [by exists rs|by apply not_elem_of_nil in H..].
  - intros (rs & -> & H). done.
Qed.

(** Adding an entry whose data have the layout of their types. *)
Lemma runs_add_good now global c cent :
  ready c -> cent_ok cent -> entry_wire cent ->
  runs (add_cache now global cent) c (fun _ c' => grown (fun K tp d => K = key cent /\ d ∈ records cent tp) c c').
Proof.
  intros [[Hi Hw] Hs] Hok Hwc. destruct (cent_name cent Hok) as (N & HN & Hq). pose proof Hi as (_ & [m Hm] & _).
  eapply runs_weaken; [apply (runs_add_cache now global c m N cent); [done..|by left]|]. cbn beta. intros _ c' [(Hi' & _ & Hd & Hs' & _) _].
  pose proof (derived_abs c c' cent Hi Hi' Hd) as Hfrom.
  assert (Hset : forall K e' tp rs', abs c' !! K = Some e' -> getrrset e' tp = Some (Some rs') ->
    (exists e rs, abs c !! K = Some e /\ getrrset e tp = Some (Some rs) /\ rs_rrs rs' = rs_rrs rs) \/
    (K = key cent /\ exists rs, getrrset cent tp = Some (Some rs) /\ rs_rrs rs' = rs_rrs rs)).
  { intros K e' tp rs' He' Hg. apply getrrset_some in Hg as (j & Hj & Hlt & Hsl); [|by eapply abs_shape].
    destruct (Hfrom K e' j rs' He' Hsl) as [(e & rs & He & Hse & E)|(HK & rs & Hsc & E)].
    - left. exists e, rs. splits; [done| |done]. apply getrrset_some; [by eapply (abs_shape c)|by exists j].
    - right. split; [done|]. exists rs. split; [|done]. apply getrrset_some; [apply Hok|by exists j]. }
  unfold grown. splits; [split; [done|]|by apply Hs'|].
  - intros K e' He' tp rs' Hg. destruct (Hset K e' tp rs' He' Hg) as [(e & rs & He & Hge & E)|(_ & rs & Hgc & E)]; rewrite E;
      [by apply (Hw K e He tp)|by apply (Hwc tp)].
  - intros K e' tp d He' (rs' & Hg & Hin)%elem_of_records.
    destruct (Hset K e' tp rs' He' Hg) as [(e & rs & He & Hge & E)|(HK & rs & Hgc & E)]; rewrite E in Hin.
    + left. exists e. split; [done|]. apply elem_of_records. by exists rs.
    + right. split; [done|]. apply elem_of_records. by exists rs.
Qed.

(** ** Names of the server's domain *)

Definition wire_name (nm : list Z) (N : list (list Z)) : Prop := wf_name N /\ exists r, nm = enc_name N ++ r.

(** [D] is [N] or one of its ancestors. *)
Definition below (D N : list (list Z)) : Prop := exists P, name_eqi N (P ++ D).

(** What a server may tell something about. *)
Definition may_tell (st : query_stat) (N : list (list Z)) : Prop :=
  (N <> [] \/ qs_auth_serv st <> 2%Z) /\
  (qs_trusted st = true \/ forall d, qs_nsdomain st = Some d -> exists D, wire_name d D /\ below D N).

(** The name [d] is a whole suffix of [nm]. *)
Lemma domain_rem a b D N : wire_name a D -> wire_name b N ->
  exists k os od, domain_match a b = Some (k, os, od) /\ k <= length D /\ k <= length N /\ (os = 0 <-> k = length D) /\ (od = 0 <-> k = length N) /\
    (os = 0 -> below D N) /\ (od = 0 -> below N D).
Proof.
  intros [HD [r ->]] [HN [r' ->]]. destruct (domain_match_parts D N r r' HD HN) as (k & os & od & a1 & a2 & b1 & b2 & E & -> & -> & H1 & H2 & Heq & -> & -> & _).
  exists k, (length (enc_labels a1)), (length (enc_labels b1)). rewrite !length_app.
  assert (Hz : forall ls : list (list Z), length (enc_labels ls) = 0 <-> length ls = 0).
  { intros [|l ls]; [done|]. unfold enc_labels, enc_label. cbn. lia. }
  splits; [done|lia|lia|rewrite Hz; lia|rewrite Hz; lia|..]; rewrite Hz; intros ->%length_zero_iff_nil; cbn [app].
  - exists b1. unfold name_eqi, lower_name in *. rewrite !map_app. by f_equal.
  - exists a1. unfold name_eqi, lower_name in *. rewrite !map_app. by f_equal.
Qed.
End Grow.

#[export] Hint Resolve grown_refl grown_trans grown_ready ready_mem grown_of_mem : pdnsd.

(** ** The stages that only look at the entries *)

(** What the code relies on in the state of a query. *)
Definition stat_ok (st : query_stat) : Prop :=
  (forall d, qs_nsdomain st = Some d -> exists D, wire_name d D) /\
  (forall rl, qs_rejectlist st = Some rl ->
     Forall (fun x => 4 <= length x.1 /\ 4 <= length x.2) (rl_a4 rl) /\ Forall (fun x => 16 <= length x.1 /\ 16 <= length x.2) (rl_a6 rl)).

Section Stages.
Context {P : Platform} (st : query_stat) (Hst : stat_ok st).

Lemma exists_opt_total {A} (f : A -> option bool) l :
  Forall (fun x => is_Some (f x)) l -> exists b, exists_opt f l = Some b /\ (b = false -> Forall (fun x => f x = Some false) l).
Proof.
  induction 1 as [|x l [b Hb] _ (b' & Hb' & IH)]; cbn [exists_opt]; [by exists false|]. rewrite Hb. sbind.
  destruct b; [by exists true|]. exists b'. split; [done|]. intros E. constructor; auto.
Qed.

Lemma fresh_name c : fresh_cent c -> exists N, wf_name N /\ qname c = enc_name N /\ wire_name (qname c) N.
Proof.
  intros (((_ & (N & HN & Hq) & _) & _) & _). exists N. splits; [done|done|]. split; [done|]. exists []. by rewrite app_nil_r.
Qed.

Lemma fresh_shape c : fresh_cent c -> shape c.
Proof. intros (((? & _) & _) & _). done. Qed.

Lemma fresh_wire c : fresh_cent c -> entry_wire c.
Proof. intros ((_ & _ & ?) & _). done. Qed.

Lemma admitted_spec nm N : wire_name nm N -> exists b, admitted st nm = Some b /\ (b = true -> may_tell st N).
Proof.
  intros Hn. pose proof Hn as [HN [r ->]]. unfold admitted.
  assert (Hb : exists b, rd (enc_name N ++ r) 0 = Some b /\ (flag b = true <-> N <> [])).
  { destruct N as [|l N]; [exists 0%Z; by split|]. eexists. split; [done|]. split; [done|]. intros _. unfold flag.
    destruct HN as [HN _]. apply Forall_cons in HN as [[Hl _] _]. apply negb_true_iff, Z.eqb_neq. lia. }
  destruct Hb as (b & -> & Hfl). sbind.
  destruct (flag b || negb (qs_auth_serv st =? 2)%Z) eqn:E; [|exists false; by split].
  assert (H1 : N <> [] \/ qs_auth_serv st <> 2%Z).
  { apply orb_true_iff in E as [E|E]; [left; by apply Hfl|right]. apply negb_true_iff in E. by boolp. }
  unfold in_domain. destruct (qs_trusted st) eqn:Et; [exists true; split; [done|]; intros _; split; [done|by left]|].
  destruct (qs_nsdomain st) as [d|] eqn:Ed; [|exists true; split; [done|]; intros _; split; [done|right; congruence]].
  destruct (proj1 Hst d Ed) as [D HD]. destruct (domain_rem d (enc_name N ++ r) D N HD Hn) as (k & os & od & -> & _ & _ & _ & _ & Hbl & _). sbind.
  exists (os =? 0). split; [done|]. intros E2. boolp. split; [done|]. right. intros d' Hd'. assert (d' = d) as -> by congruence. exists D. split; [done|by apply Hbl].
Qed.

(** *** References *)

(** The same entry with other references. *)
Definition twin (c c' : dns_cent) : Prop := exists x y, c' = set_c_ns x (set_c_soa y c).

Lemma twin_refl c : twin c c.
Proof. exists (c_ns c), (c_soa c). by destruct c. Qed.

Lemma twin_ns c x : twin c (set_c_ns x c).
Proof. exists x, (c_soa c). by destruct c. Qed.

Lemma twin_soa c y : twin c (set_c_soa y c).
Proof. exists (c_ns c), y. by destruct c. Qed.

Lemma twin_trans a b c : twin a b -> twin b c -> twin a c.
Proof. intros (x & y & ->) (x' & y' & ->). exists x', y'. by destruct a. Qed.

Lemma twin_if a b c (t : bool) : twin a b -> twin a c -> twin a (if t then b else c).
Proof. by destruct t. Qed.

Lemma twin_same c c' : twin c c' -> body c' = body c /\ flags c' = flags c /\ qname c' = qname c /\ num_rrs c' = num_rrs c /\ cs c' = cs c.
Proof. intros (x & y & ->). by destruct c. Qed.

Lemma twin_records c c' tp : twin c c' -> getrrset c' tp = getrrset c tp.
Proof. intros (x & y & ->). by destruct c. Qed.

Lemma twin_fresh c c' : twin c c' -> fresh_cent c -> fresh_cent c'.
Proof.
  intros (x & y & ->) ((Hok & Hl & Hw) & Hn & Hf & Hs). unfold fresh_cent, good_cent, entry_wire, sized, records in *. by destruct c.
Qed.

#[local] Hint Resolve twin_refl twin_ns twin_soa twin_if : pdnsd.

Lemma match_auth_spec cent ce : fresh_cent cent -> fresh_cent ce -> exists cent', match_auth st cent ce = Some cent' /\ twin cent cent'.
Proof.
  intros Hc Hce. unfold match_auth. destruct (fresh_name cent Hc) as (N & _ & _ & HN). destruct (fresh_name ce Hce) as (N' & _ & _ & HN').
  destruct (domain_rem _ _ _ _ HN' HN) as (k & os & od & -> & _). sbind. destruct (_ && _); [|eauto with pdnsd].
  destruct (get_rrsmu_ok ce RRMUINDEX_NS (fresh_shape ce Hce)) as [ns ->]; [unfold RRMUINDEX_NS, NRRMU; lia|]. sbind.
  destruct (get_rrsmu_ok ce RRMUINDEX_SOA (fresh_shape ce Hce)) as [soa ->]; [unfold RRMUINDEX_SOA, NRRMU; lia|]. sbind.
  eexists. split; [done|]. set (c1 := if is_set ns && _ then _ else _). assert (H1 : twin cent c1) by (unfold c1; auto with pdnsd).
  eapply twin_trans; [exact H1|]. auto with pdnsd.
Qed.

Lemma match_auths_spec auth : Forall fresh_cent auth -> forall cent, fresh_cent cent ->
  exists cent', fold_opt (match_auth st) auth cent = Some cent' /\ twin cent cent'.
Proof.
  induction 1 as [|ce auth Hce _ IH]; intros cent Hc; cbn [fold_opt]; [eauto with pdnsd|].
  destruct (match_auth_spec cent ce Hc Hce) as (c1 & -> & H1). sbind.
  destruct (IH c1 (twin_fresh _ _ H1 Hc)) as (c2 & E & H2). exists c2. split; [done|by eapply twin_trans].
Qed.

Lemma note_refs_spec qtype n auth cent : Forall fresh_cent auth -> fresh_cent cent ->
  exists cent', note_refs st qtype n auth cent = Some cent' /\ twin cent cent'.
Proof.
  intros Ha Hc. unfold note_refs. destruct (fresh_name cent Hc) as (N & HN & Hq & _). rewrite Hq.
  rewrite <- (app_nil_r (enc_name N)), rhnsegcnt_enc by apply HN. sbind.
  destruct (get_rrsmu_ok cent RRMUINDEX_NS (fresh_shape _ Hc)) as [ns ->]; [unfold RRMUINDEX_NS, NRRMU; lia|]. sbind. cbv zeta.
  set (c1 := if is_set ns then _ else cent). assert (H1 : twin cent c1) by (unfold c1; auto with pdnsd). pose proof (twin_fresh _ _ H1 Hc) as Hc1.
  destruct (get_rrsmu_ok c1 RRMUINDEX_SOA (fresh_shape _ Hc1)) as [soa ->]; [unfold RRMUINDEX_SOA, NRRMU; lia|]. sbind.
  set (c2 := if is_set soa then _ else c1). assert (H2 : twin c1 c2) by (unfold c2; auto with pdnsd). pose proof (twin_fresh _ _ H2 Hc1) as Hc2.
  assert (Hw : exists w : bool, (if (QT_MIN <=? qtype)%Z && (qtype <=? QT_MAX)%Z then Some true
     else rs ← getrrset c2 qtype; Some (is_set rs || ((n =? 1) && (num_rrs c2 =? 0)%Z))) = Some w).
  { destruct (_ && _); [by eexists|]. destruct (getrrset_total c2 qtype (fresh_shape _ Hc2)) as [o ->]. by eexists. }
  destruct Hw as [w ->]. sbind. assert (H12 : twin cent c2) by (by eapply twin_trans).
  destruct w; [|by exists c2]. destruct (match_auths_spec auth Ha c2 Hc2) as (c3 & E & H3). exists c3. split; [done|by eapply twin_trans].
Qed.

Lemma note_all_spec qtype n auth ans : Forall fresh_cent auth -> Forall fresh_cent ans ->
  exists ans', mapM (note_refs st qtype n auth) ans = Some ans' /\ Forall2 twin ans ans'.
Proof.
  intros Ha. induction 1 as [|c ans Hc _ (ans' & E & IH)]; [by exists []|]. destruct (note_refs_spec qtype n auth c Ha Hc) as (c' & Ec & Ht).
  exists (c' :: ans'). split; [|by constructor]. cbn [mapM]. rewrite Ec. sbind. by rewrite E.
Qed.

(** *** Rejection *)

Lemma addr_word_total a i : 4 * S i <= length a -> exists w, addr_word a i = Some w.
Proof.
  intros H. unfold addr_word. destruct (rd_lt a (4 * i)) as [b0 ->]; [lia|]. destruct (rd_lt a (4 * i + 1)) as [b1 ->]; [lia|].
  destruct (rd_lt a (4 * i + 2)) as [b2 ->]; [lia|]. destruct (rd_lt a (4 * i + 3)) as [b3 ->]; [lia|]. by eexists.
Qed.

Lemma word_equiv_total a b m i : 4 * S i <= length a -> 4 * S i <= length b -> 4 * S i <= length m -> exists r, word_equiv a b m i = Some r.
Proof.
  intros Ha Hb Hm. unfold word_equiv. destruct (addr_word_total a i Ha) as [x ->]. destruct (addr_word_total b i Hb) as [y ->].
  destruct (addr_word_total m i Hm) as [z ->]. by eexists.
Qed.

Lemma words_equiv_total n a b m : 4 * n <= length a -> 4 * n <= length b -> 4 * n <= length m ->
  forall ixs, Forall (fun i => i < n) ixs -> is_Some (words_equiv ixs a b m).
Proof.
  intros Ha Hb Hm. induction 1 as [|i ixs Hi _ IH]; cbn [words_equiv]; [by eexists|].
  destruct (word_equiv_total a b m i) as [r ->]; [lia..|]. sbind. by destruct r.
Qed.

(** None of the records [rrs] is in the list. *)
Definition no_match (equiv : list Z -> list Z -> list Z -> option bool) (am : list (list Z * list Z)) (rrs : list (list Z)) : Prop :=
  Forall (fun rr => Forall (fun x => equiv rr x.1 x.2 = Some false) am) rrs.

Lemma rejects_set_spec equiv am rs :
  (forall s rr, rs = Some s -> rr ∈ rs_rrs s -> Forall (fun x => is_Some (equiv rr x.1 x.2)) am) ->
  exists b, rejects_set equiv am rs = Some b /\ (b = false -> no_match equiv am (match rs with Some s => rs_rrs s | None => [] end)).
Proof.
  intros H. destruct rs as [s|]; [|exists false; split; [done|constructor]]. cbn [rejects_set].
  destruct (exists_opt_total (fun rr => exists_opt (fun x => equiv rr x.1 x.2) am) (rs_rrs s)) as (b & -> & Hb).
  { apply Forall_forall. intros rr Hrr. destruct (exists_opt_total (fun x => equiv rr x.1 x.2) am) as (b & -> & _); [by apply (H s)|by eexists]. }
  exists b. split; [done|]. intros E. apply Forall_forall. intros rr Hrr. specialize (Hb E). rewrite Forall_forall in Hb. specialize (Hb rr Hrr).
  destruct (exists_opt_total (fun x => equiv rr x.1 x.2) am) as (b' & Eb & Hf); [by apply (H s)|]. cbn beta in Hb. rewrite Eb in Hb. injection Hb as ->. by apply Hf.
Qed.

Lemma type_index_mu : type_index T_A = Some RRMUINDEX_A /\ type_index T_AAAA = Some RRMUINDEX_AAAA /\ type_index T_NS = Some RRMUINDEX_NS /\
  type_index T_SOA = Some RRMUINDEX_SOA.
Proof. by vm_compute. Qed.

(** No address of the entry is in the reject list. *)
Definition unrejected (rl : rejectlist) (c : dns_cent) : Prop :=
  no_match ADDR4MASK_EQUIV (rl_a4 rl) (records c T_A) /\ no_match ADDR6MASK_EQUIV (rl_a6 rl) (records c T_AAAA).

Lemma rejects_spec rl cent : qs_rejectlist st = Some rl -> fresh_cent cent ->
  exists b, rejects rl cent = Some b /\ (b = false -> unrejected rl cent).
Proof.
  intros Hrl Hc. destruct (proj2 Hst rl Hrl) as [H4 H6]. unfold rejects. pose proof (fresh_shape _ Hc) as Hsh. pose proof Hc as (_ & _ & _ & Hsz).
  destruct type_index_mu as (HA & HAAAA & _). rewrite (get_rrsmu_getrrset cent RRMUINDEX_A T_A) by (done || (unfold RRMUINDEX_A, NRRMU; lia)).
  destruct (getrrset_total cent T_A Hsh) as [a Ea]. rewrite Ea. sbind.
  destruct (rejects_set_spec ADDR4MASK_EQUIV (rl_a4 rl) a) as (b & -> & Hb).
  { intros s rr -> Hrr. eapply Forall_impl; [exact H4|]. intros x [Hx1 Hx2]. assert (length rr = 4) by (apply (Hsz T_A); [apply elem_of_records; by exists s|done]).
    apply word_equiv_total; lia. }
  sbind. destruct b; [by exists true|].
  rewrite (get_rrsmu_getrrset cent RRMUINDEX_AAAA T_AAAA) by (done || (unfold RRMUINDEX_AAAA, NRRMU; lia)).
  destruct (getrrset_total cent T_AAAA Hsh) as [a6 Ea6]. rewrite Ea6. sbind.
  destruct (rejects_set_spec ADDR6MASK_EQUIV (rl_a6 rl) a6) as (b & -> & Hb6).
  { intros s rr -> Hrr. eapply Forall_impl; [exact H6|]. intros x [Hx1 Hx2]. assert (length rr = 16) by (apply (Hsz T_AAAA); [apply elem_of_records; by exists s|done]).
    apply (words_equiv_total 4); [lia..|]. repeat constructor. }
  exists b. split; [done|]. intros ->. unfold unrejected, records. rewrite Ea, Ea6. split; [by destruct a; apply Hb|by destruct a6; apply Hb6].
Qed.

Lemma reject_answer_spec secs :
  Forall fresh_cent (ans_sec secs) -> Forall fresh_cent (auth_sec secs) -> Forall fresh_cent (add_sec secs) ->
  exists b, reject_answer st secs = Some b /\ (b = true -> is_Some (qs_rejectlist st)) /\
    (b = false -> forall rl, qs_rejectlist st = Some rl -> Forall (unrejected rl) (ans_sec secs)).
Proof.
  intros H1 H2 H3. unfold reject_answer. destruct (qs_rejectlist st) as [rl|] eqn:Erl; [|by exists false].
  assert (Hall : Forall fresh_cent (ans_sec secs ++ auth_sec secs ++ add_sec secs)) by (by repeat (apply Forall_app; split)).
  destruct (exists_opt_total (rejects rl) (ans_sec secs ++ auth_sec secs ++ add_sec secs)) as (b & -> & Hb).
  { eapply Forall_impl; [exact Hall|]. intros c Hc. destruct (rejects_spec rl c Erl Hc) as (b & -> & _). by eexists. }
  exists b. splits; [done|by eexists|]. intros E rl' [= <-]. specialize (Hb E). apply Forall_app in Hb as [Hb _].
  eapply Forall_impl; [apply Forall_and; split; [exact H1|exact Hb]|]. cbn beta. intros c [Hc Er].
  destruct (rejects_spec rl c Erl Hc) as (b' & Eb & Hu). rewrite Er in Eb. injection Eb as <-. by apply Hu.
Qed.
End Stages.

(** *** Time-to-live *)

Section Ttl.
Context {P : Platform}.

Lemma soa_minimum_total rr : (exists ps, wire T_SOA ps /\ rr = flat ps) -> exists m, soa_minimum rr = Some m.
Proof.
  intros (ps & [Hl Hok] & ->). cbn in Hl. destruct Hl as (A & B & l & Hlen & ->).
  apply Forall_cons in Hok as [HA Hok]. apply Forall_cons in Hok as [HB _]. unfold flat, soa_minimum. cbn [map concat piece_bytes].
  rewrite skiprhn_enc by apply HA. sbind. rewrite skiprhn_enc by apply HB. sbind. rewrite app_nil_r.
  unfold adv. rewrite decide_True by lia. sbind. apply get32_total. rewrite length_drop. lia.
Qed.

Lemma soa_set c rs : fresh_cent c -> get_rrsmu c RRMUINDEX_SOA = Some (Some rs) ->
  Forall (fun rr => exists ps, wire T_SOA ps /\ rr = flat ps) (rs_rrs rs).
Proof.
  intros Hc Hg. rewrite (get_rrsmu_getrrset c RRMUINDEX_SOA T_SOA) in Hg; [by apply (fresh_wire c Hc T_SOA)|by apply fresh_shape|unfold RRMUINDEX_SOA, NRRMU; lia|done].
Qed.

Lemma soa_ttl_total rs rr : (exists ps, wire T_SOA ps /\ rr = flat ps) -> exists t, soa_ttl rs rr = Some t.
Proof. intros H. unfold soa_ttl. destruct (soa_minimum_total rr H) as [m ->]. by eexists. Qed.

Lemma lookup_array_total ca N r : Forall fresh_cent ca -> wf_name N ->
  exists o, lookup_cent_array ca (enc_name N ++ r) = Some o /\ forall ce, o = Some ce -> fresh_cent ce.
Proof.
  intros Hca HN. unfold lookup_cent_array. destruct (find_cent_spec ca N r Hca HN) as (o & -> & Ho). sbind. destruct o as [i|]; [|by exists None].
  destruct Ho as (c & Hi & _). rewrite Hi. sbind. exists (Some c). split; [done|]. intros ce [= <-]. by eapply Forall_lookup_1.
Qed.

Lemma soa_of_total o ttl : (forall ce, o = Some ce -> fresh_cent ce) -> exists t, soa_of o ttl = Some t.
Proof.
  intros H. destruct o as [ce|]; cbn [soa_of]; [|by eexists]. specialize (H ce eq_refl).
  destruct (get_rrsmu_ok ce RRMUINDEX_SOA (fresh_shape ce H)) as [rs Hrs]; [unfold RRMUINDEX_SOA, NRRMU; lia|]. rewrite Hrs. sbind.
  destruct rs as [rs|]; [|by eexists]. pose proof (soa_set ce rs H Hrs) as Hw. destruct (rs_rrs rs) as [|rr rrs]; [by eexists|].
  apply Forall_cons in Hw as [Hw _]. by apply soa_ttl_total.
Qed.

Lemma above_total name N auth k : wire_name name N -> Forall fresh_cent auth ->
  exists nm o, skipsegs name k = Some nm /\ lookup_cent_array auth nm = Some o /\ forall ce, o = Some ce -> fresh_cent ce.
Proof.
  intros [HN [r ->]] Ha. rewrite skipsegs_enc by apply HN. destruct (lookup_array_total auth (drop k N) r Ha (wf_name_skip N k HN)) as (o & Eo & Ho).
  by exists (enc_name (drop k N) ++ r), o.
Qed.

Lemma neg_domain_ttl_total name N ent auth t : wire_name name N -> Forall fresh_cent auth ->
  exists ttl, neg_domain_ttl name ent auth t = Some ttl.
Proof.
  intros HN Ha. unfold neg_domain_ttl. destruct (negb _); [|by eexists]. pose proof HN as [HN' [r E]].
  assert (Hs : rhnsegcnt name = Some (length N)) by (rewrite E; apply rhnsegcnt_enc, HN'). rewrite Hs. sbind.
  destruct (_ <? _)%Z; [|by eexists]. destruct (above_total name N auth (length N - Z.to_nat (c_soa ent)) HN Ha) as (nm & o & -> & E2 & Ho). sbind.
  rewrite E2. sbind. by apply soa_of_total.
Qed.

Lemma neg_rrset_ttl_total name N ent auth t : wire_name name N -> fresh_cent ent -> Forall fresh_cent auth ->
  exists ttl, neg_rrset_ttl name ent auth t = Some ttl.
Proof.
  intros HN He Ha. unfold neg_rrset_ttl. cbv zeta. pose proof HN as [HN' [r E]].
  assert (Hs : rhnsegcnt name = Some (length N)) by (rewrite E; apply rhnsegcnt_enc, HN').
  match goal with |- context [match _ with Some rs => match rs_rrs rs with [] => ?a | _ => _ end | None => _ end] => assert (Hab : exists ttl, a = Some ttl) end.
  { rewrite Hs. assert (Hsc : exists scnt, (if negb (c_soa ent =? cundef)%Z then Some (length N) else Some 0) = Some scnt) by (destruct (negb _); by eexists).
    destruct Hsc as [scnt ->]. sbind. destruct (_ && _).
    - destruct (above_total name N auth (scnt - Z.to_nat (c_soa ent)) HN Ha) as (nm & o & -> & E2 & Ho). sbind. rewrite E2. sbind. by apply soa_of_total.
    - sbind. rewrite E. destruct (lookup_array_total auth N r Ha HN') as (o & -> & Ho). sbind. by apply soa_of_total. }
  destruct (get_rrsmu_ok ent RRMUINDEX_SOA (fresh_shape ent He)) as [rs Hrs]; [unfold RRMUINDEX_SOA, NRRMU; lia|]. rewrite Hrs. sbind.
  destruct rs as [rs|]; [|done]. pose proof (soa_set ent rs He Hrs) as Hw. destruct (rs_rrs rs) as [|rr rrs]; [done|].
  apply Forall_cons in Hw as [Hw _]. by apply soa_ttl_total.
Qed.

(** *** Delegation *)

Lemma first_zone_total nm N zones : wire_name nm N -> Forall (fun z => exists Z, wire_name z Z) zones -> exists r, first_zone nm zones = Some r.
Proof.
  intros HN. induction 1 as [|z zones [Z HZ] _ IH]; cbn [first_zone]; [by eexists|]. unfold in_zone.
  destruct (domain_rem nm z N Z HN HZ) as (k & os & od & -> & _). sbind. destruct (_ && _); [by eexists|done].
Qed.

Lemma find_delegation_total zones cents : Forall (fun z => exists Z, wire_name z Z) zones -> Forall fresh_cent cents ->
  forall n, exists r, find_delegation zones cents n = Some r.
Proof.
  intros Hz. induction 1 as [|ce cents Hce _ IH]; intros n; cbn [find_delegation]; [by eexists|].
  destruct (get_rrsmu_ok ce RRMUINDEX_NS (fresh_shape ce Hce)) as [ns ->]; [unfold RRMUINDEX_NS, NRRMU; lia|]. sbind.
  assert (Hs : exists soa, (if is_set ns then Some ns else get_rrsmu ce RRMUINDEX_SOA) = Some soa).
  { destruct (is_set ns); [by eexists|]. apply get_rrsmu_ok; [by apply fresh_shape|unfold RRMUINDEX_SOA, NRRMU; lia]. }
  destruct Hs as [soa ->]. sbind. destruct (is_set soa); [|apply IH]. destruct (fresh_name ce Hce) as (N & _ & _ & HN).
  destruct (first_zone_total (qname ce) N zones HN Hz) as [r ->]. sbind. destruct r as [[]|]; [by eexists|apply IH|by eexists].
Qed.

Lemma missing_delegation_total name N zones secs : wire_name name N -> Forall (fun z => exists Z, wire_name z Z) zones ->
  Forall fresh_cent (ans_sec secs) -> Forall fresh_cent (auth_sec secs) -> exists r, missing_delegation name zones secs = Some r.
Proof.
  intros HN Hz H1 H2. unfold missing_delegation. destruct (first_zone_total name N zones HN Hz) as [r ->]. sbind.
  destruct r as [[]|]; [|by eexists..]. destruct (find_delegation_total zones (ans_sec secs ++ auth_sec secs) Hz) with (n := 0) as [[b n] ->]; [by apply Forall_app|].
  by eexists.
Qed.
End Ttl.

(** ** Name servers *)

(** The zones and servers that a list of items stands for. *)
Inductive ns_pairs : list (list Z) -> list (list (list Z) * list (list Z)) -> Prop :=
  | np_nil : ns_pairs [] []
  | np_full ns l A B : ns_pairs ns l -> wf_name A -> wf_name B -> ns_pairs (ns ++ [enc_name A ++ enc_name B]) (l ++ [(A, B)])
  | np_idem ns l A B C : ns_pairs ns (l ++ [(A, B)]) -> wf_name C -> ns_pairs (ns ++ [idem :: enc_name C]) ((l ++ [(A, B)]) ++ [(A, C)]).

Section Servers.
Context {P : Platform} (st : query_stat) (Hst : stat_ok st).

Lemma ns_item ns l : ns_pairs ns l ->
  Forall (fun p => exists q N, (b ← rd p 0; if (b =? idem)%Z then adv p 1 else skiprhn p) = Some q /\ wire_name q N) ns.
Proof.
  assert (Hw : forall N, wf_name N -> wire_name (enc_name N) N) by (intros N HN; split; [done|exists []; by rewrite app_nil_r]).
  induction 1 as [|ns l A B _ IH HA HB|ns l A B C _ IH HC]; [constructor|apply Forall_app; split; [done|]; apply Forall_cons; (split; [|constructor])..].
  - exists (enc_name B), B. split; [|by apply Hw]. assert (Hb : exists b, rd (enc_name A ++ enc_name B) 0 = Some b /\ b <> idem).
    { destruct A as [|a A]; [by exists 0%Z|]. eexists. split; [done|]. destruct HA as [HA _]. apply Forall_cons in HA as [[Ha _] _]. unfold idem. lia. }
    destruct Hb as (b & -> & Hb). sbind. apply Z.eqb_neq in Hb. rewrite Hb. apply skiprhn_enc, HA.
  - exists (enc_name C), C. split; [|by apply Hw]. done.
Qed.

Lemma ns_known_total ns l rr N : ns_pairs ns l -> wire_name rr N -> exists b, ns_known ns rr = Some b.
Proof.
  intros Hns [HN [r ->]]. unfold ns_known. destruct (exists_opt_total (fun p => b ← rd p 0; q ← (if (b =? idem)%Z then adv p 1 else skiprhn p); rhnicmp q (enc_name N ++ r)) ns) as (b & E & _); [|by exists b].
  eapply Forall_impl; [by apply (ns_item ns l)|]. cbn beta. intros p (q & N' & Hq & [HN' [r' ->]]).
  destruct (rd p 0) as [b|]; [|done]. sbind. cbn [mbind option_bind] in Hq. rewrite Hq. sbind. rewrite rhnicmp_enc by (apply HN || apply HN'). by eexists.
Qed.

(** What has been added to the list: servers that the reply names for a zone the server may tell about. *)
Definition ns_post (Q : list (list Z) -> list (list Z) -> Prop) (l : list (list (list Z) * list (list Z))) (c : cache)
    (r : Z + list (list Z) * Z) (c' : cache) : Prop :=
  mem_step c c' /\
  match r with
  | inl rc => rc = RC_FATALERR /\ ~ plenty c
  | inr (ns, _) => exists l', ns_pairs ns (l ++ l') /\ Forall (fun x => Q x.1 x.2) l'
  end.

Lemma ns_post_trans Q l l1 c c1 r c' :
  mem_step c c1 -> Forall (fun x => Q x.1 x.2) l1 -> ns_post Q (l ++ l1) c1 r c' -> ns_post Q l c r c'.
Proof.
  intros Hm Hl [Hm' H]. split; [eauto with pdnsd|]. destruct r as [rc|[ns n]].
  - destruct H as [-> H]. split; [done|]. intros Hp. by apply H, Hm.
  - destruct H as (l' & Hns & Hl'). exists (l1 ++ l'). rewrite app_assoc. split; [done|]. by apply Forall_app.
Qed.

(** The records of one set begin with a name. *)
Lemma runs_collect_rrs (Q : list (list Z) -> list (list Z) -> Prop) A rrs : forall first ns l n c,
  wf_name A -> Forall (fun rr => exists B, wire_name rr B /\ Q A B) rrs -> ns_pairs ns l ->
  (first = false -> exists l0 B, l = l0 ++ [(A, B)]) ->
  runs (collect_rrs (enc_name A) first rrs (ns, n) : M _) c (ns_post Q l c).
Proof.
  induction rrs as [|rr rrs IH]; intros first ns l n c HA Hrrs Hns Hlast; cbn [collect_rrs].
  { apply runs_Rret. split; [auto with pdnsd|]. exists []. rewrite app_nil_r. split; [done|constructor]. }
  apply Forall_cons in Hrrs as [(B & HB & HQ) Hrrs]. destruct (ns_known_total ns l rr B Hns HB) as [known Hk].
  eapply step_liftR; [exact Hk|]. cbn [fst snd]. destruct known; [by apply IH|]. pose proof HB as [HwB [r ->]].
  assert (H1 : exists sz1 front, (if first then rhnlen (enc_name A) else Some 1) = Some sz1 /\
    (if first then rd_bytes (enc_name A) 0 sz1 else Some [idem]) = Some front /\ front = if first then enc_name A else [idem]).
  { destruct first; [|by eexists _, _]. exists (length (enc_name A)), (enc_name A). pose proof (rhnlen_enc A []) as E. rewrite app_nil_r in E.
    pose proof (rd_bytes_app [] (enc_name A) []) as E2. rewrite app_nil_r in E2. splits; [apply E, HA|exact E2|done]. }
  destruct H1 as (sz1 & front & E1 & E2 & ->). eapply step_liftR; [exact E1|]. eapply step_liftR; [apply rhnlen_enc, HwB|].
  apply runs_Rbind, runs_memR. eapply runs_weaken; [apply runs_malloc_any|]. cbn beta. intros ok c1 [Hm Hp].
  assert (Hms : mem_step c c1) by (split; [done|intros H; by apply Hp]). destruct ok.
  2:{ apply runs_returns. split; [done|]. split; [done|]. intros H. by destruct (Hp H). }
  eapply step_liftR; [exact E2|]. eapply step_liftR; [apply (rd_bytes_app [] (enc_name B) r)|].
  eapply runs_weaken; [apply (IH false _ (l ++ [(A, B)])); [done|done| |intros _; by exists l, B]|].
  - destruct first; [by apply np_full|]. destruct (Hlast eq_refl) as (l0 & B0 & ->). by apply np_idem.
  - intros res c' H. eapply ns_post_trans; [exact Hms| |exact H]. apply Forall_cons. by split.
Qed.

Lemma named_records c tp : fresh_cent c -> tp = T_NS \/ tp = T_SOA ->
  exists rs, getrrset c tp = Some rs /\ Forall (fun rr => exists B, wire_name rr B /\ rr ∈ records c tp) (match rs with Some rs => rs_rrs rs | None => [] end).
Proof.
  intros Hc Htp. destruct (getrrset_total c tp (fresh_shape c Hc)) as [rs Hrs]. exists rs. split; [done|]. destruct rs as [rs|]; [|constructor].
  pose proof (fresh_wire c Hc tp rs Hrs) as Hw. rewrite Forall_forall in Hw. apply Forall_forall. intros rr Hrr. destruct (Hw rr Hrr) as (ps & [Hl Hok] & ->).
  assert (Hps : exists B ps', ps = Nm B :: ps') by (destruct Htp as [-> | ->]; cbn in Hl; naive_solver). destruct Hps as (B & ps' & ->).
  apply Forall_cons in Hok as [HB _]. exists B. split; [split; [done|by exists (flat ps')]|]. apply elem_of_records. by exists rs.
Qed.

(** The zone and the server of a record of the entries. *)
Definition named_in (cents : list dns_cent) (A B : list (list Z)) : Prop :=
  may_tell st A /\ exists cent tp rr, cent ∈ cents /\ qname cent = enc_name A /\ (tp = T_NS \/ tp = T_SOA) /\ rr ∈ records cent tp /\ wire_name rr B.

Lemma runs_collect_types cents cent A tps : forall ns l n c,
  cent ∈ cents -> fresh_cent cent -> wf_name A -> qname cent = enc_name A -> may_tell st A ->
  Forall (fun tp => tp = T_NS \/ tp = T_SOA) tps -> ns_pairs ns l ->
  runs (collect_types cent tps (ns, n) : M _) c (ns_post (named_in cents) l c).
Proof.
  induction tps as [|tp tps IH]; intros ns l n c Hin Hc HA Hq Hm Htps Hns; cbn [collect_types].
  { apply runs_Rret. split; [auto with pdnsd|]. exists []. rewrite app_nil_r. split; [done|constructor]. }
  apply Forall_cons in Htps as [Htp Htps]. destruct (named_records cent tp Hc Htp) as (rs & Hrs & Hrr). eapply step_liftR; [exact Hrs|].
  apply runs_Rbind. eapply runs_weaken with (Q := ns_post (named_in cents) l c).
  { destruct rs as [rs|]; [|apply runs_Rret; split; [auto with pdnsd|]; exists []; rewrite app_nil_r; split; [done|constructor]].
    rewrite Hq. apply runs_collect_rrs; [done| |done|done]. eapply Forall_impl; [exact Hrr|]. cbn beta. intros rr (B & HB & Hrec). exists B.
    split; [done|]. split; [done|]. by exists cent, tp, rr. }
  intros [rc|[ns1 n1]] c1 H; [done|]. destruct H as [Hm1 (l1 & Hns1 & Hl1)]. eapply runs_weaken; [by apply IH|]. intros r c' H. by eapply ns_post_trans.
Qed.

Lemma runs_collect_ns all cents : forall ns l n c,
  (forall x, x ∈ cents -> x ∈ all) -> Forall fresh_cent cents -> ns_pairs ns l ->
  runs (collect_ns st cents (ns, n) : M _) c (ns_post (named_in all) l c).
Proof.
  induction cents as [|cent cents IH]; intros ns l n c Hsub Hf Hns; cbn [collect_ns].
  { apply runs_Rret. split; [auto with pdnsd|]. exists []. rewrite app_nil_r. split; [done|constructor]. }
  apply Forall_cons in Hf as [Hc Hf]. destruct (fresh_name cent Hc) as (A & HA & Hq & Hw).
  destruct (admitted_spec st Hst (qname cent) A Hw) as (ok & Eok & Hok). eapply step_liftR; [exact Eok|].
  assert (Hb : exists b, rd (qname cent) 0 = Some b) by (rewrite Hq; apply rd_lt; pose proof (enc_name_pos A); lia). destruct Hb as [b Hb].
  eapply step_liftR; [exact Hb|]. apply runs_Rbind. eapply runs_weaken with (Q := ns_post (named_in all) l c).
  { destruct (ok && negb (b =? idem)%Z) eqn:E.
    - apply andb_true_iff in E as [-> _]. eapply runs_collect_types; try done; [apply Hsub; by left|by apply Hok|].
      apply Forall_cons. split; [by left|]. apply Forall_cons. split; [by right|constructor].
    - apply runs_Rret. split; [auto with pdnsd|]. exists []. rewrite app_nil_r. split; [done|constructor]. }
  intros [rc|[ns1 n1]] c1 H; [done|]. destruct H as [Hm1 (l1 & Hns1 & Hl1)].
  eapply runs_weaken; [apply (IH ns1 (l ++ l1)); [intros x Hx; apply Hsub; by right|done|done]|]. intros r c' H. by eapply ns_post_trans.
Qed.
End Servers.

(** ** Negative answers *)

Section Negative.
Context {P : Platform}.

Lemma runs_del_unlinked a s : lents a = [] -> runs (del_rrsets a) s (fun n s' => n = sets_size a /\ s' = s).
Proof.
  intros Hl. unfold del_rrsets. eapply runs_weaken; [apply (runs_del_rrsets a 0 s); rewrite Hl; [constructor|by intros p ?%not_elem_of_nil]|].
  cbn beta. rewrite Hl, rrl_drop_nil, with_rrl_id. intros n s' [-> ->]. split; [lia|done].
Qed.

(** A collected entry made negative. *)
Lemma runs_negate_fresh c ttl ts s :
  fresh_cent c -> runs (negate_cent c ttl ts) s (fun c' s' => s' = s /\ good_cent c' /\ is_neg c' = true /\ qname c' = qname c /\ tst (flags c') DF_LOCAL = false).
Proof.
  intros ((Hok & Hl & _) & Hn & Hloc & _). pose proof Hok as ([Hfl Hsh] & Hq & Hcs & _). unfold negate_cent. rewrite Hfl, Hn. cbn [negb].
  unfold is_neg, cent_lents, cent_size, ext_size, sets in *. destruct (body c) as [|rrmu rrext] eqn:Hb; [done|]. rewrite lents_app in Hl.
  apply app_eq_nil in Hl as [Hl1 Hl2]. run_with runs_del_unlinked; [done|]. intros n s' [-> ->]. cbv zeta.
  rewrite sets_size_app in Hcs.
  assert (Hend : forall c1, qname c1 = qname c -> flags c1 = flags c -> cs c1 = (sizeof_dns_cent_t + Z.of_nat (length (qname c)))%Z ->
    let c2 := set_body (Neg None ttl ts) (set_flags (Z.lor (flags c1) DF_NEGATIVE) (set_num_rrs 0 c1)) in
    good_cent c2 /\ is_neg c2 = true /\ qname c2 = qname c /\ tst (flags c2) DF_LOCAL = false).
  { intros c1 Hq1 Hf1 Hc1. cbv zeta. split; [|splits; [done|done|cbn [flags set_body set_flags]; by rewrite Hf1, tst_lor_other]].
    assert (Ht : tst (Z.lor (flags c1) DF_NEGATIVE) DF_NEGATIVE = true).
    { unfold tst. rewrite Z.land_lor_distr_l, Z.land_diag. apply negb_true_iff, Z.eqb_neq. intros [_ ?]%Z.lor_eq_0_iff. done. }
    split; [|split; [done|]].
    - split; [split; [cbn [flags set_body set_flags]; by rewrite Ht|done]|]. splits; [destruct Hq as (N & HN & E); exists N; split; [done|cbn; congruence]| |done].
      unfold cent_size, ext_size, sets. cbn. rewrite Hc1, Hq1. lia.
    - intros tp rs Hg. unfold getrrset in Hg. cbn [flags set_body set_flags] in Hg. rewrite Ht in Hg. done. }
  destruct rrext as [e|]; cbn [default from_option id] in *.
  - apply runs_bind. eapply runs_weaken with (Q := fun c1 s1 => s1 = s /\ c1 = set_cs (cs (set_cs (cs c - sets_size rrmu) c) - sets_size e - rrext_size) (set_cs (cs c - sets_size rrmu) c)).
    { run_with runs_del_unlinked; [done|]. intros n s' [-> ->]. by apply runs_ret. }
    intros c1 s1 [-> ->]. apply runs_ret. split; [done|]. apply Hend; [done|done|]. cbn. lia.
  - apply runs_bind, runs_ret, runs_ret. split; [done|]. apply Hend; [done|done|]. cbn. cbn in Hcs. lia.
Qed.

(** An entry that is returned: its sets have the layout of their types, and it has
    the records of [c]. *)
Definition like_ent (c c' : dns_cent) : Prop :=
  good_cent c' /\ is_neg c' = false /\ tst (flags c') DF_LOCAL = false /\ sized c' /\ qname c' = qname c /\ forall tp, records c' tp = records c tp.

Lemma like_ent_refl c : fresh_cent c -> like_ent c c.
Proof. intros (? & ? & ? & ?). unfold like_ent. by splits. Qed.

Lemma runs_add_negative c tp ttl ts fl s :
  fresh_cent c -> not_cached_type tp = false -> getrrset c tp = Some None ->
  runs (add_cent_rrset_by_type c tp ttl ts fl) s (fun r s' => mem_step s s' /\ (plenty s -> r.1 = true) /\ like_ent c r.2).
Proof.
  intros ((Hok & Hl & Hw) & Hn & Hloc & Hsz) Ht Hg. destruct (cached_index tp Ht) as [Hi Hlt]. unfold add_cent_rrset_by_type. cbv zeta.
  unfold type_index in Hi. destruct ((0 <=? tp - T_MIN)%Z && (tp - T_MIN <? Z.of_nat T_NUM)%Z) eqn:E; [|done]. run_lift; [exact Hi|].
  assert (Hti : type_index tp = Some (type_idx tp)) by (unfold type_index; by rewrite E).
  assert (Hslot : slot c (type_idx tp) = None).
  { rewrite getrrset_slot, Hti in Hg by apply Hok. cbn [mbind option_bind] in Hg. rewrite (proj2 (Nat.ltb_lt _ _) Hlt) in Hg. by injection Hg. }
  assert (Hno : lent_of c None = None) by (unfold lent_of, is_neg in *; by destruct (body c)).
  eapply runs_weaken; [apply runs_add_rrset; [done|done|done|by rewrite Hno]|]. cbn beta. rewrite Hno. cbn [drop_lent].
  intros r s' ([m ->] & Hp & Hok' & Hk & Hn' & Hfl & Hres). rewrite with_rrl_id. split; [split; [by exists m|intros H; rewrite <- (with_rrl_id s); by apply Hp]|]. split; [intros H; by apply Hp|].
  assert (Hsl : forall j, slot r.2 j = slot c j \/ (j = type_idx tp /\ slot r.2 j = Some (new_rrset ttl ts fl))).
  { intros j. destruct r.1; [|left; apply Hres]. destruct Hres as [H1 H2]. destruct (decide (j = type_idx tp)) as [->|Hne]; [by right|left; by apply H2]. }
  assert (Hrec : forall tp', records r.2 tp' = records c tp').
  { intros tp'. unfold records. rewrite !getrrset_slot by (apply Hok || apply Hok'). destruct (type_index tp') as [j|]; [|done]. cbn [mbind option_bind].
    destruct (j <? NRRTOT); [|done]. destruct (Hsl j) as [->|[-> ->]]; [done|]. by rewrite Hslot. }
  unfold like_ent. splits; [split; [done|split]|done|by rewrite Hfl|intros tp' d; rewrite Hrec; apply Hsz|apply Hk|done].
  - apply no_lents. rewrite no_lents in Hl. intros [j|]; [|unfold lent_of, is_neg in *; by destruct (body r.2)].
    specialize (Hl (Some j)). unfold lent_of in *. destruct (Hsl j) as [->|[_ ->]]; [done|done].
  - intros tp' rs Hgr. assert (Er : rs_rrs rs = records r.2 tp') by (unfold records; by rewrite Hgr). rewrite Er, Hrec.
    unfold records. destruct (getrrset c tp') as [[rs2|]|] eqn:E2; [by apply Hw|constructor..].
Qed.

Lemma runs_neg_rrset now global conf name N thint fl aa st ent auth s :
  wire_name name N -> thint_ok thint -> fresh_cent ent -> Forall fresh_cent auth ->
  runs (neg_rrset now global conf name thint fl aa st ent auth) s (fun r s' => mem_step s s' /\ (plenty s -> r.1 = true) /\ like_ent ent r.2).
Proof.
  intros HN Hth He Ha. unfold neg_rrset. pose proof (fresh_shape ent He) as Hsh. destruct (getrrset_total ent thint Hsh) as [rs Hrs].
  assert (E : exists o, (if is_type thint then getrrset ent thint else Some None) = Some o) by (destruct (is_type thint); by eexists).
  destruct E as [o Eo]. run_lift; [exact Eo|].
  destruct (is_type thint && _ && _ && _ && _) eqn:Ec; [|apply runs_ret; splits; [auto with pdnsd|done|by apply like_ent_refl]].
  do 3 apply andb_true_iff in Ec as [Ec _]. apply andb_true_iff in Ec as [Ec Hset]. rewrite Ec in Eo. destruct (neg_rrset_ttl_total name N ent auth (g_neg_ttl global) HN He Ha) as [ttl Ettl].
  run_lift; [exact Ettl|]. destruct Hth as [Hth|Hth]; [|congruence]. apply runs_add_negative; [done|done|].
  destruct o; [|done]. done.
Qed.
End Negative.
