(* ===== verification/ExecSpec.v ===== *)
(** Specification of [use_reply] of Exec: memory safety, the state of the cache
    afterwards, and where the records in it and the returned entry come from. *)
From S2P Require Import Prelude Names DnsName Compress RrTypes HashTab RrList Cent CentSpec Cache CacheInv CachePurge CacheAdd CacheOps.
From S2P Require Import Answer AnswerRr AnswerSet Query QueryDecode QuerySafe Reply ReplyData ReplySpec Exec ExecStages.

Section Message.
Context {P : Platform} (recv : list Z) (Hb : bytes recv) (Hlen : sizeof_dns_hdr_t <= length recv).

(** ** Reading the sections *)

(** A record of some section of the message. *)
Definition has_record (rs : list mrec) (K : list Z) (tp : Z) (d : list Z) : Prop :=
  exists x, x ∈ rs /\ mr_data x = Some d /\ mr_type x = tp /\ fold_key (enc_name (mr_name x)) = K.
Definition in_message (K : list Z) (tp : Z) (d : list Z) : Prop := exists p rs q, mrecs recv p rs q /\ has_record rs K tp d.

Definition from_message (ca : list dns_cent) : Prop := forall K tp d, holds ca K tp d -> in_message K tp d.

Lemma from_message_nil : from_message [].
Proof. intros K tp d (c & ?%not_elem_of_nil & _). done. Qed.

Lemma from_collected ca p rs q ca' : from_message ca -> mrecs recv p rs q -> collected ca rs ca' -> from_message ca'.
Proof. intros Hf Hrs Hc K tp d [?|?]%Hc; [by apply Hf|]. by exists p, rs, q. Qed.

Lemma runs_read_section now fl count rv s c :
  count + 2 <= length recv -> (rv = RC_OK -> sc_ptr s + sc_lcnt s = length recv) ->
  runs (read_section now recv fl count rv s) c (fun r c' => mem_step c c' /\ arr_ok (sc_centa r.2) /\
    (r.1 = RC_OK -> sc_ptr r.2 + sc_lcnt r.2 = length recv) /\ (r.1 = RC_OK \/ r.1 = rv \/ sec_code r.1 c) /\
    (r.1 = RC_OK -> rv = RC_OK) /\ (r.1 <> RC_FATALERR -> rv <> RC_FATALERR /\ from_message (sc_centa r.2))).
Proof.
  intros Hcnt Hs. unfold read_section.
  assert (Hskip : forall c, runs (mret (rv, next_section s) : M _) c (fun r c' => mem_step c c' /\ arr_ok (sc_centa r.2) /\
    (r.1 = RC_OK -> sc_ptr r.2 + sc_lcnt r.2 = length recv) /\ (r.1 = RC_OK \/ r.1 = rv \/ sec_code r.1 c) /\
    (r.1 = RC_OK -> rv = RC_OK) /\ (r.1 <> RC_FATALERR -> rv <> RC_FATALERR /\ from_message (sc_centa r.2)))).
  { intros c0. apply runs_ret. cbn [fst snd next_section sc_centa sc_ptr sc_lcnt].
    splits; [auto with pdnsd|split; constructor|done|auto|done|intros ?; split; [done|apply from_message_nil]]. }
  destruct (rv =? RC_OK)%Z eqn:E; [|apply Hskip]. boolp. subst rv. destruct (get16_total recv count Hcnt) as [n Hn]. run_lift; [exact Hn|].
  destruct (flag n); [|apply Hskip].
  eapply runs_weaken; [apply (runs_rrs2cent recv Hb); [unfold sizeof_dns_hdr_t in Hlen; lia|split; [by apply Hs|split; constructor]]|].
  intros r c' (Hm & Ha & Hcode & rs & q & Hrs & _ & Hcase). splits; [done|done| |tauto|done|].
  - intros Er. destruct Hcase as [(_ & _ & [Hsp _] & _)|([?|[?|[? _]]] & _)]; [done|rewrite Er in *; discriminate..].
  - intros Hne. split; [done|]. eapply (from_collected []); [apply from_message_nil|exact Hrs|].
    destruct Hcase as [(_ & _ & _ & _ & _ & Hc)|(_ & _ & Hc)]; [done|by apply Hc].
Qed.

Definition secs_ok (secs : sections) : Prop := arr_ok (ans_sec secs) /\ arr_ok (auth_sec secs) /\ arr_ok (add_sec secs).
Definition secs_from (secs : sections) : Prop := from_message (ans_sec secs) /\ from_message (auth_sec secs) /\ from_message (add_sec secs).

(** The answer section from [ptr] on, of which all records have been read if it is
    [whole], and otherwise those up to one that cannot be read; and the entry for the name that was asked for. *)
Definition answer_for (ptr : nat) (N : list (list Z)) (whole : Prop) (ans : list dns_cent) : Prop :=
  exists e rest rs q, ans = e :: rest /\ qname e = enc_name N /\ mrecs recv ptr rs q /\
    (length rs = Z.to_nat (count16 recv ancount) \/ ~ whole /\ length rs < Z.to_nat (count16 recv ancount) /\ stuck recv q) /\
    forall tp d, d ∈ records e tp <-> has_record rs (fold_key (enc_name N)) tp d.

Lemma runs_read_sections now fl ptr lcnt ent N rcode st c :
  ptr + lcnt = length recv -> fresh_cent ent -> qname ent = enc_name N -> (forall tp, records ent tp = []) ->
  runs (read_sections now recv fl ptr lcnt ent rcode st) c (fun r c' => mem_step c c' /\ secs_ok r.1.1.2 /\
    (r.2 = st \/ r.2 = mark_failed st) /\ (r.1.1.1 = RC_OK \/ sec_code r.1.1.1 c) /\
    (r.1.1.1 <> RC_FATALERR -> secs_from r.1.1.2 /\ answer_for ptr N (r.1.1.1 = RC_OK) (ans_sec r.1.1.2))).
Proof.
  intros Hp He Hq Hno. unfold sizeof_dns_hdr_t in Hlen. unfold read_sections. set (n := count16 recv ancount).
  run_lift; [apply get16_some; unfold ancount; lia|]. fold n. apply runs_bind.
  eapply runs_weaken; [apply (runs_rrs2cent recv Hb ltac:(lia) fl now (Z.to_nat n) RC_OK); split; [done|]|].
  { split; [by apply Forall_singleton|]. apply NoDup_singleton. }
  cbn [sc_centa sc_ptr]. intros [rv1 s1] c1 (Hm1 & Ha1 & Hcode1 & rs & q & Hrs & Hrsl & Hcase1). cbn [fst snd] in *.
  assert (Hsp1 : rv1 = RC_OK -> sc_ptr s1 + sc_lcnt s1 = length recv).
  { intros Er. destruct Hcase1 as [(_ & _ & [Hsp _] & _)|([?|[?|[? _]]] & _)]; [done|subst rv1; discriminate..]. }
  assert (Hans : rv1 <> RC_FATALERR -> from_message (sc_centa s1) /\ answer_for ptr N (rv1 = RC_OK) (sc_centa s1)).
  { intros Hne. assert (Hec : (length rs = Z.to_nat n \/ rv1 <> RC_OK /\ length rs < Z.to_nat n /\ stuck recv q) /\ extends [ent] (sc_centa s1) /\ collected [ent] rs (sc_centa s1)).
    { destruct Hcase1 as [(_ & ? & _ & _ & ? & ?)|(Hsc & Hlt & H)]; [auto|]. destruct (H Hne) as (? & ? & ?). splits; [right|done|done].
      splits; [|done|done]. intros ->. destruct Hsc as [?|[?|[? _]]]; discriminate. } destruct Hec as (Hall & Hext & Hcol).
    assert (Hemp : forall K tp d, ~ holds [ent] K tp d).
    { intros K tp d (x & ->%list_elem_of_singleton & _ & Hd). rewrite Hno in Hd. by apply not_elem_of_nil in Hd. }
    split; [eapply (from_collected [ent]); [intros K tp d ?%Hemp; done|exact Hrs|exact Hcol]|].
    destruct (Hext 0 ent eq_refl) as (e & Hi & Hk & _). destruct (sc_centa s1) as [|e' rest] eqn:Es; [done|]. injection Hi as ->.
    exists e, rest, rs, q. assert (Hqe : qname e = enc_name N) by congruence. splits; [done|done|done|exact Hall|].
    intros tp d.
    assert (Hke : key e = fold_key (enc_name N)) by (unfold key; by rewrite Hqe). split.
    - intros Hd. destruct (proj1 (Hcol (fold_key (enc_name N)) tp d)) as [?%Hemp|H]; [|done|done]. exists e. split; [by left|done].
    - intros H. destruct (proj2 (Hcol (fold_key (enc_name N)) tp d)) as (x & Hx & Hkx & Hdx); [by right|].
      apply elem_of_cons in Hx as [->|Hx]; [done|]. exfalso. destruct Ha1 as [_ Hnd]. cbn [map] in Hnd. apply NoDup_cons in Hnd as [Hnin _].
      apply Hnin. rewrite Hke, <- Hkx. apply list_elem_of_fmap. by exists x. }
  apply runs_bind. eapply runs_weaken; [apply runs_read_section; [unfold nscount; lia|exact Hsp1]|].
  intros [rv2 s2] c2 (Hm2 & Ha2 & Hsp2 & Hcode2 & Hok2 & Hf2). cbn [fst snd] in *.
  apply runs_bind. eapply runs_weaken; [apply runs_read_section; [unfold arcount; lia|exact Hsp2]|].
  intros [rv3 s3] c3 (Hm3 & Ha3 & _ & Hcode3 & Hok3 & Hf3). cbn [fst snd] in *. cbv zeta.
  assert (Hsc : forall rv a b, mem_step a b -> sec_code rv b -> sec_code rv a).
  { intros rv a b Hm [?|[?|[? Hnp]]]; [by left|by right; left|]. right. right. split; [done|]. intros ?%Hm. done. }
  assert (Hcode : rv3 = RC_OK \/ sec_code rv3 c).
  { destruct Hcode3 as [?|[->|H3]]; [by left| |right; eapply Hsc; [|exact H3]; eauto with pdnsd].
    destruct Hcode2 as [?|[->|H2]]; [by left|done|right; eapply Hsc; [|exact H2]; done]. }
  assert (Hfin : rv3 <> RC_FATALERR -> secs_from {| ans_sec := sc_centa s1; auth_sec := sc_centa s2; add_sec := sc_centa s3 |} /\ answer_for ptr N (rv3 = RC_OK) (sc_centa s1)).
  { intros Hne. destruct (Hf3 Hne) as [Hne2 F3]. destruct (Hf2 Hne2) as [Hne1 F2]. destruct (Hans Hne1) as [F1 HA]. split; [by split|].
    destruct HA as (e & rest & rs' & q' & H1 & H2 & H3 & H4 & H5). exists e, rest, rs', q'. splits; [done..| |done].
    destruct H4 as [?|(Hn & ? & ?)]; [by left|right]. splits; [|done|done]. intros Hok. apply Hn, Hok2, Hok3, Hok. }
  assert (Hms : mem_step c c3) by eauto with pdnsd.
  destruct (_ && _); apply runs_ret; cbn [fst snd ans_sec]; (splits; [done|by split|auto|done|done]).
Qed.

(** Sections that can be read, without an additional section. *)
Lemma runs_read_clean now fl count s c q :
  sc_ptr s + sc_lcnt s = length recv -> count + 2 <= length recv -> plenty c -> clean_recs recv (sc_ptr s) (Z.to_nat (count16 recv count)) q ->
  (0 <= count16 recv count)%Z ->
  runs (read_section now recv fl count RC_OK s) c (fun r c' => r.1 = RC_OK /\ sc_ptr r.2 = q /\ sc_numopt (next_section r.2) = 0 /\ plenty c').
Proof.
  intros Hs Hcnt Hp Hcl Hn. unfold read_section. cbn [Z.eqb RC_OK]. run_lift; [by apply get16_some|].
  destruct (flag (count16 recv count)) eqn:E.
  - eapply runs_weaken; [apply (runs_clean recv Hb); [unfold sizeof_dns_hdr_t in Hlen; lia|split; [done|split; constructor]|done|exact Hcl]|]. cbn beta. tauto.
  - apply negb_false_iff in E. boolp. rewrite E in Hcl. apply runs_ret. inversion Hcl. by splits.
Qed.

Lemma count16_pos f : f + 2 <= length recv -> (0 <= count16 recv f)%Z.
Proof.
  intros H. pose proof (get16_some recv f H) as E. unfold GETINT16 in E. destruct (rd_lt recv f) as [a Ha]; [lia|]. destruct (rd_lt recv (f + 1)) as [b Hb']; [lia|].
  rewrite Ha, Hb' in E. cbn in E. injection E as <-. pose proof (rd_byte _ _ _ Hb Ha) as ?. pose proof (rd_byte _ _ _ Hb Hb') as ?. unfold is_byte in *.
  apply Z.lor_nonneg. split; [apply Z.shiftl_nonneg|]; lia.
Qed.

Lemma runs_sections_clean now fl ptr lcnt ent rcode st c q1 q2 :
  ptr + lcnt = length recv -> fresh_cent ent -> plenty c ->
  clean_recs recv ptr (Z.to_nat (count16 recv ancount)) q1 -> clean_recs recv q1 (Z.to_nat (count16 recv nscount)) q2 -> count16 recv arcount = 0%Z ->
  runs (read_sections now recv fl ptr lcnt ent rcode st) c (fun r _ => r.1.1.1 = RC_OK /\ r.1.2 = rcode /\ r.2 = st).
Proof.
  intros Hs He Hp H1 H2 H3. unfold sizeof_dns_hdr_t in Hlen. unfold read_sections. run_lift; [apply get16_some; unfold ancount; lia|].
  assert (Hok : sec_ok recv {| sc_ptr := ptr; sc_lcnt := lcnt; sc_centa := [ent]; sc_numopt := 0; sc_ep := no_edns |}).
  { split; [done|]. split; [by apply Forall_singleton|apply NoDup_singleton]. }
  apply runs_bind. eapply runs_weaken; [apply (runs_both _ _ _ _ (runs_clean recv Hb ltac:(lia) fl now _ RC_OK _ c q1 Hok Hp H1) (runs_rrs2cent recv Hb ltac:(lia) fl now _ RC_OK _ c Hok))|].
  intros [rv1 s1] c1 [(E1 & Hq1 & Hp1) (_ & _ & _ & rs & q & _ & _ & Hcase)]. cbn [fst snd] in *. subst rv1.
  destruct Hcase as [(_ & _ & [Hsp _] & _)|([?|[?|[? _]]] & _)]; [|discriminate..].
  rewrite <- Hq1 in H2. apply runs_bind.
  eapply runs_weaken; [apply (runs_both _ _ _ _ (runs_read_clean now fl nscount s1 c1 q2 Hsp ltac:(unfold nscount; lia) Hp1 H2 (count16_pos nscount ltac:(unfold nscount; lia))) (runs_read_section now fl nscount RC_OK s1 c1 ltac:(unfold nscount; lia) (fun _ => Hsp)))|].
  intros [rv2 s2] c2 [(E2 & Hq2 & _ & Hp2) (_ & _ & Hsp2 & _)]. cbn [fst snd] in *. subst rv2. unfold read_section at 1. cbn [Z.eqb RC_OK].
  apply runs_bind. run_lift; [apply get16_some; unfold arcount; lia|]. rewrite H3. cbn [flag Z.eqb negb]. apply runs_ret. cbn [next_section sc_numopt Nat.eqb negb andb]. by apply runs_ret.
Qed.
End Message.

(** ** The result *)

Section Result.
Context {P : Platform} (now : Z) (global : globals) (conf : policies) (recv : list Z) (st : query_stat) (Hst : stat_ok st).
Context (calm : Prop).

(** The state of the query, up to the bits of the reply. *)
Definition same_query (st' : query_stat) : Prop :=
  qs_auth_serv st' = qs_auth_serv st /\ qs_trusted st' = qs_trusted st /\ qs_nsdomain st' = qs_nsdomain st /\ qs_rejectlist st' = qs_rejectlist st.

Lemma same_tell st' A : same_query st' -> may_tell st' A -> may_tell st A.
Proof. unfold may_tell. by intros (-> & -> & -> & _). Qed.

Lemma same_stat st' : same_query st' -> stat_ok st'.
Proof. unfold stat_ok. by intros (_ & _ & -> & ->). Qed.

(** The records that may be new in the cache. *)
Definition news (K : list Z) (tp : Z) (d : list Z) : Prop := exists A, may_tell st A /\ K = fold_key (enc_name A) /\ in_message recv K tp d.

(** The name servers that may be new in the list. *)
Definition new_ns (A B : list (list Z)) : Prop :=
  may_tell st A /\ exists tp rr, (tp = T_NS \/ tp = T_SOA) /\ in_message recv (fold_key (enc_name A)) tp rr /\ wire_name rr B.

(** What is known of the result; a reply about which there is nothing to complain ([calm])
    is used unless memory runs out. *)
Definition result_ok (N : list (list Z)) (l : list (list (list Z) * list (list Z))) (Q : dns_cent -> Prop) (c : cache) (r : exec_result) (c' : cache) : Prop :=
  grown news c c' /\ same_query (ex_st r) /\
  (ex_rv r = RC_OK \/ ex_rv r = RC_NAMEERR \/ ex_rv r = RC_SERVFAIL \/ (ex_rv r = RC_FATALERR /\ ~ plenty c)) /\
  (calm -> ex_rv r = RC_OK \/ ex_rv r = RC_FATALERR) /\ (ex_rv r = RC_OK <-> is_Some (ex_ent r)) /\
  (forall e, ex_ent r = Some e -> good_cent e /\ qname e = enc_name N /\ (is_neg e = false -> Q e) /\ (calm -> is_neg e = false)) /\
  exists l', ns_pairs (ex_ns r) l' /\ forall x, x ∈ l' -> x ∈ l \/ new_ns x.1 x.2.

Lemma result_mem N l Q a b r c : mem_step a b -> result_ok N l Q b r c -> result_ok N l Q a r c.
Proof.
  intros [Hm Hp] (Hg & Hst' & Hrv & H). unfold result_ok. split; [by eapply grown_mem|]. split; [done|]. split; [|done].
  destruct Hrv as [?|[?|[?|[? Hnp]]]]; [by left|by right; left|by right; right; left|]. right. right. right. split; [done|]. intros ?%Hp. done.
Qed.

(** The entries besides the first of the answer section. *)
Definition others (secs : sections) : list dns_cent := drop 1 (ans_sec secs) ++ auth_sec secs ++ add_sec secs.

Definition secs_owned (secs : sections) : Prop :=
  (forall e, ans_sec secs !! 0 = Some e -> good_cent e) /\ Forall fresh_cent (others secs).

Definition secs_fine (secs : sections) : Prop :=
  secs_owned secs /\
  forall cent tp d, cent ∈ others secs -> d ∈ records cent tp -> in_message recv (key cent) tp d.

Lemma runs_return_with rv ent ns cs st' secs c : Forall fresh_cent (others secs) ->
  runs (return_with rv ent ns cs st' secs) c (fun r c' => c' = c /\ r = {| ex_rv := rv; ex_ent := ent; ex_ns := ns; ex_c_soa := cs; ex_st := st' |}).
Proof.
  intros Hf. apply Forall_app in Hf as [H1 Hf]. apply Forall_app in Hf as [H2 H3]. unfold return_with.
  run_with runs_free_cents; [done|]. intros _ c1 ->. run_with runs_free_cents; [done|]. intros _ c1 ->.
  run_with runs_free_cents; [done|]. intros _ c1 ->. by apply runs_ret.
Qed.

(** Returning without an entry. *)
Lemma runs_return_error N l Q rv ns st' secs c0 c :
  mem_step c0 c -> ready c -> secs_owned secs -> same_query st' -> ns_pairs ns l \/ ns = [] -> rv = RC_SERVFAIL \/ (rv = RC_FATALERR /\ ~ plenty c0) -> (calm -> rv = RC_FATALERR) ->
  runs (return_error rv ns st' secs) c (result_ok N l Q c0).
Proof.
  intros Hm Hr (He & Hf) Hq Hns Hrv Hcalm. unfold return_error. apply runs_bind. eapply runs_weaken with (Q := fun _ c' => c' = c).
  { destruct (ans_sec secs) as [|e rest]; [by apply runs_ret|]. destruct (He e eq_refl) as (Hok & Hl & _). apply runs_free_copy; [done|apply Hok]. }
  intros _ c' ->. eapply runs_weaken; [by apply runs_return_with|]. cbn beta. intros r c' [-> ->]. unfold result_ok. cbn.
  splits; [eapply grown_mem; [apply Hm|by apply grown_refl]|apply Hq..|tauto|auto| |done|].
  - split; [destruct Hrv as [->|[-> _]]; discriminate|]. by intros [? ?].
  - destruct Hns as [Hns| ->]; [exists l|exists []]; (split; [done || constructor|]); [by left|by intros x ?%not_elem_of_nil].
Qed.

Lemma runs_cache_entries st' cents : same_query st' -> Forall fresh_cent cents ->
  (forall cent tp d, cent ∈ cents -> d ∈ records cent tp -> in_message recv (key cent) tp d) ->
  forall c, ready c -> runs (cache_entries now global st' cents) c (fun _ c' => grown news c c').
Proof.
  intros Hq. induction 1 as [|cent cents Hc Hf IH]; intros Hmsg c Hr; cbn [cache_entries]; [apply runs_ret; by apply grown_refl|].
  destruct (fresh_name cent Hc) as (A & HA & Hqn & Hw). destruct (admitted_spec st' (same_stat st' Hq) (qname cent) A Hw) as (ok & Eok & Hok).
  run_lift; [exact Eok|]. apply runs_bind. eapply runs_weaken with (Q := fun _ c' => grown news c c').
  { destruct ok; [|apply runs_ret; by apply grown_refl]. eapply runs_weaken; [apply runs_add_good; [done|apply Hc|by apply fresh_wire]|].
    cbn beta. intros _ c' H. eapply grown_weaken; [|exact H]. cbn beta. intros K tp d [-> Hd]. exists A.
    splits; [by eapply same_tell; [|apply Hok]|unfold key; by rewrite Hqn|]. apply (Hmsg cent); [by left|done]. }
  intros _ c1 H1. eapply runs_weaken; [apply IH; [intros x tp d Hx; apply Hmsg; by right|by eapply grown_ready]|]. cbn beta. intros _ c2 H2. by eapply grown_trans.
Qed.

Lemma runs_add_additional N l Q rv ent ns cs st' neg rej secs c :
  ready c -> Forall fresh_cent (others secs) -> (forall cent tp d, cent ∈ others secs -> d ∈ records cent tp -> in_message recv (key cent) tp d) ->
  same_query st' -> rv = RC_OK /\ is_Some ent \/ rv = RC_NAMEERR /\ ent = None -> (calm -> rv = RC_OK) ->
  (forall e, ent = Some e -> good_cent e /\ qname e = enc_name N /\ (is_neg e = false -> Q e) /\ (calm -> is_neg e = false)) ->
  (exists l', ns_pairs ns l' /\ forall x, x ∈ l' -> x ∈ l \/ new_ns x.1 x.2) ->
  runs (add_additional now global rv ent ns cs st' neg rej secs) c (result_ok N l Q c).
Proof.
  intros Hr Hf Hmsg Hq Hrv Hcalm Hent Hns. unfold add_additional. apply runs_bind. eapply runs_weaken with (Q := fun _ c' => grown news c c').
  { destruct (_ && _); [|apply runs_ret; by apply grown_refl]. pose proof Hf as [H1 [H2 H3]%Forall_app]%Forall_app.
    assert (Hcache : forall sec, (forall x, x ∈ sec -> x ∈ others secs) -> Forall fresh_cent sec -> forall c0, ready c0 ->
      runs (cache_entries now global st' sec) c0 (fun _ c' => grown news c0 c')).
    { intros sec Hs Hfs c0 Hc0. apply runs_cache_entries; [done|done| |done]. intros x tp d Hx. by apply Hmsg, Hs. }
    apply runs_bind. eapply runs_weaken with (Q := fun _ c' => grown news c c').
    { destruct neg; [apply runs_ret; by apply grown_refl|]. apply Hcache; [|done|done]. intros x Hx. apply elem_of_app. by left. }
    intros _ c1 G1. apply runs_bind. eapply runs_weaken; [apply (Hcache (auth_sec secs)); [|done|by eapply grown_ready]|].
    { intros x Hx. apply elem_of_app. right. apply elem_of_app. by left. }
    cbn beta. intros _ c2 G2. eapply runs_weaken; [apply (Hcache (add_sec secs)); [|done|by eapply grown_ready]|].
    { intros x Hx. apply elem_of_app. right. apply elem_of_app. by right. }
    cbn beta. intros _ c3 G3. eauto using grown_trans. }
  intros _ c1 Hg. eapply runs_weaken; [by apply runs_return_with|]. cbn beta. intros r c' [-> ->]. unfold result_ok. cbn.
  splits; [done|apply Hq..|tauto|auto| |done|done]. destruct Hrv as [[-> ?]|[-> ->]]; [done|]. split; [discriminate|]. by intros [? ?].
Qed.

Lemma runs_cleanup N l Q ns n st' neg rej secs c :
  ready c -> secs_fine secs -> same_query st' -> (calm -> qs_failed st' = 0%Z) ->
  (exists e, ans_sec secs !! 0 = Some e /\ qname e = enc_name N /\ (is_neg e = false -> Q e) /\ (calm -> is_neg e = false)) ->
  (exists l', ns_pairs ns l' /\ forall x, x ∈ l' -> x ∈ l \/ new_ns x.1 x.2) ->
  runs (cleanup_return_OK now global (ns, n) st' neg rej secs) c (result_ok N l Q c).
Proof.
  intros Hr Hs Hq Hcalm (e & He & Hqe & HQ & Hnc) Hns. unfold cleanup_return_OK. cbn [fst snd]. pose proof Hs as [[Hg Hf] Hmsg]. pose proof (proj1 Hs) as Hown.
  destruct (_ && _ && _) eqn:Ef.
  { apply runs_return_error; auto with pdnsd. intros H. rewrite (Hcalm H) in Ef. discriminate Ef. }
  apply runs_bind. eapply runs_weaken; [apply runs_malloc_any|]. cbn beta. intros ok c1 [Hm Hp].
  assert (Hms : mem_step c c1) by (split; [done|intros H; by apply Hp]). assert (Hr1 : ready c1) by (by eapply ready_mem). destruct ok.
  - run_lift; [exact He|]. eapply runs_weaken; [apply (runs_add_additional N l Q); [done|done|done|done|by left|done| |done]|intros r c'; by apply result_mem].
    intros e' [= <-]. by splits; [apply Hg|..].
  - assert (Hnp : ~ plenty c) by (intros H; by destruct (Hp H)).
    apply runs_return_error; auto.
Qed.
End Result.

(** ** The decisions *)

Section Decide.
Context {P : Platform} (now : Z) (global : globals) (conf : policies) (recv : list Z) (st : query_stat) (Hst : stat_ok st).
Context (calm : Prop).
Context (name : list Z) (N : list (list Z)) (HN : wire_name name N) (l : list (list (list Z) * list (list Z))).

(** Entries that have been read from the message, the first one for the name. *)
Definition secs_read (secs : sections) : Prop :=
  Forall fresh_cent (ans_sec secs) /\ Forall fresh_cent (auth_sec secs) /\ Forall fresh_cent (add_sec secs) /\
  (forall cent tp d, cent ∈ ans_sec secs ++ auth_sec secs ++ add_sec secs -> d ∈ records cent tp -> in_message recv (key cent) tp d) /\
  exists e, ans_sec secs !! 0 = Some e /\ qname e = enc_name N.

(** Properties of the records of an entry. *)
Definition of_records (Q : dns_cent -> Prop) : Prop := forall a b, (forall tp, records b tp = records a tp) -> Q a -> Q b.

Lemma elem_of_others secs x : x ∈ others secs -> x ∈ ans_sec secs ++ auth_sec secs ++ add_sec secs.
Proof.
  unfold others. rewrite !elem_of_app. intros [Hx|Hx]; [left|by right]. destruct (ans_sec secs) as [|e ans]; [done|]. cbn in Hx. rewrite drop_0 in Hx. by right.
Qed.

(** Replacing the first entry. *)
Lemma secs_fine_first secs e' : secs_read secs -> good_cent e' -> secs_fine recv (set_ans (<[0 := e']> (ans_sec secs)) secs).
Proof.
  intros (H1 & H2 & H3 & Hmsg & e & He & _) Hg. unfold secs_fine, secs_owned, others, set_ans. cbn [ans_sec auth_sec add_sec].
  assert (Ed : drop 1 (<[0 := e']> (ans_sec secs)) = drop 1 (ans_sec secs)) by (by destruct (ans_sec secs)). rewrite Ed. split; [split|].
  - intros x Hx. rewrite list_lookup_insert_eq in Hx by (by eapply lookup_lt_Some). by injection Hx as <-.
  - apply Forall_app. split; [by apply Forall_drop|by apply Forall_app].
  - intros cent tp d Hc. by apply Hmsg, elem_of_others.
Qed.

Lemma secs_read_fine secs : secs_read secs -> secs_fine recv secs.
Proof.
  intros H. pose proof H as (H1 & _ & _ & _ & e & He & _). pose proof (Forall_lookup_1 _ _ _ _ H1 He) as [Hg _].
  pose proof (secs_fine_first secs e H Hg) as Hf. rewrite list_insert_id in Hf by done. unfold set_ans in Hf. by destruct secs.
Qed.

Lemma runs_name_error Q ns st' rej secs c :
  ready c -> secs_read secs -> same_query st st' -> ns_pairs ns l -> (calm -> False) ->
  runs (name_error now global conf name ns st' rej secs) c (result_ok recv st calm N l Q c).
Proof.
  intros Hr Hs Hq Hns Hcalm. pose proof Hs as (H1 & H2 & H3 & Hmsg & e & He & Hqe). pose proof (Forall_lookup_1 _ _ _ _ H1 He) as Hf. unfold name_error.
  assert (Hnsl : exists l', ns_pairs ns l' /\ forall x, x ∈ l' -> x ∈ l \/ new_ns recv st x.1 x.2) by (exists l; split; [done|by left]).
  run_lift; [exact He|]. destruct (_ || _).
  - destruct (neg_domain_ttl_total name N e (auth_sec secs) (g_neg_ttl global) HN H2) as [ttl Ettl]. run_lift; [exact Ettl|].
    run_with runs_negate_fresh; [done|]. intros e1 c1 (-> & Hg1 & Hn1 & Hq1 & _). cbv zeta.
    set (e2 := if qs_nocache st' then _ else e1).
    assert (H2' : good_cent e2 /\ is_neg e2 = true /\ qname e2 = qname e).
    { unfold e2. destruct (qs_nocache st'); [|done]. split; [|done]. destruct Hg1 as (Hok & Hl & Hw). destruct Hok as ([Hfl Hsh] & Hok). split; [|split; [done|]].
      - split; [split; [cbn [flags set_flags]; rewrite tst_lor_other; [exact Hfl|done]|exact Hsh]|exact Hok].
      - intros tp rs Hg. unfold getrrset in Hg. cbn [flags set_flags] in Hg. rewrite tst_lor_other in Hg by done. by apply (Hw tp). }
    destruct H2' as (Hg2 & Hn2 & Hq2). apply runs_cleanup; [done|done|by apply secs_fine_first|done|by intros ?%Hcalm| |done].
    exists e2. split; [apply list_lookup_insert_eq; by eapply lookup_lt_Some|]. splits; [congruence|congruence|by intros ?%Hcalm].
  - destruct (secs_read_fine secs Hs) as [[_ Hfo] Hmo]. destruct Hf as ((Hok & Hl & _) & _).
    run_with runs_free_copy; [done|apply Hok|]. intros _ c1 ->. apply runs_add_additional; try done. by right.
Qed.

Lemma runs_use_answer Q thint fl aa ns st' secs c :
  ready c -> secs_read secs -> same_query st st' -> ns_pairs ns l -> thint_ok thint -> of_records Q -> (calm -> qs_failed st' = 0%Z) ->
  (forall e, ans_sec secs !! 0 = Some e -> Q e) ->
  runs (use_answer now global conf name thint fl aa st' ns secs) c (result_ok recv st calm N l Q c).
Proof.
  intros Hr Hs Hq Hns Hth HQr Hcalm HQ. pose proof Hs as (H1 & H2 & H3 & Hmsg & e & He & Hqe). pose proof (Forall_lookup_1 _ _ _ _ H1 He) as Hf.
  unfold use_answer. run_lift; [exact He|]. cbv zeta. apply runs_bind. eapply runs_weaken; [by eapply runs_neg_rrset|].
  cbn beta. intros [ok e'] c1 (Hm & Hp & Hg & Hn & Hloc & Hsz & Hq' & Hrec). cbn [fst snd] in *. assert (Hr1 : ready c1) by (eapply ready_mem; [apply Hm|done]).
  set (secs' := set_ans _ secs). pose proof (secs_fine_first secs e' Hs Hg) as Hfine. fold secs' in Hfine. pose proof (proj1 Hfine) as Hown.
  assert (He' : exists x, ans_sec secs' !! 0 = Some x /\ qname x = enc_name N /\ (is_neg x = false -> Q x) /\ (calm -> is_neg x = false)).
  { exists e'. split; [apply list_lookup_insert_eq; by eapply lookup_lt_Some|]. splits; [congruence| |done]. intros _. by apply (HQr e); [|apply HQ]. }
  destruct ok; cbn [negb].
  2:{ apply runs_return_error; auto. right. split; [done|]. intros ?%Hp. done. }
  assert (Hfr : Forall fresh_cent (ans_sec secs' ++ auth_sec secs')).
  { apply Forall_app. split; [|done]. apply Forall_insert; [done|]. by split. }
  destruct (qs_failed st' <=? 1)%Z.
  2:{ eapply runs_weaken; [apply (runs_cleanup now global recv st Hst calm N l Q ns); try done; exists l; split; [done|by left]|]. intros r c'. by apply result_mem. }
  apply runs_bind. eapply runs_weaken; [apply (runs_collect_ns st' (same_stat st Hst st' Hq) (ans_sec secs' ++ auth_sec secs')); [done|done|exact Hns]|].
  intros [rc|[ns' n]] c2 [Hm2 Hres].
  - destruct Hres as [-> Hnp]. apply runs_return_error; [eauto with pdnsd|eapply ready_mem; [apply Hm2|done]|done|done|by right| |done].
    right. split; [done|]. intros ?%Hm. done.
  - destruct Hres as (l' & Hns' & Hl'). eapply runs_weaken; [apply (runs_cleanup now global recv st Hst calm N l Q ns'); try done|].
    + eapply ready_mem; [apply Hm2|done].
    + exists (l ++ l'). split; [done|]. intros x [?|Hx]%elem_of_app; [by left|right]. rewrite Forall_forall in Hl'. destruct (Hl' x Hx) as [Hmt (cent & tp & rr & Hc & Hqc & Htp & Hrr & Hw)].
      split; [by eapply same_tell|]. exists tp, rr. splits; [done| |done]. rewrite <- Hqc. apply elem_of_app in Hc as [Hc|Hc].
      * apply list_elem_of_lookup in Hc as [i Hi]. destruct i as [|i].
        -- unfold secs', set_ans in Hi. cbn [ans_sec] in Hi. rewrite list_lookup_insert_eq in Hi by (by eapply lookup_lt_Some). injection Hi as <-.
           rewrite Hrec in Hrr. rewrite Hq'. apply (Hmsg e); [apply elem_of_app; left; by eapply list_elem_of_lookup_2|done].
        -- unfold secs', set_ans in Hi. cbn [ans_sec] in Hi. rewrite list_lookup_insert_ne in Hi by done. apply (Hmsg cent); [apply elem_of_app; left; by eapply list_elem_of_lookup_2|done].
      * apply (Hmsg cent); [|done]. apply elem_of_app. right. apply elem_of_app. by left.
    + intros r c'. apply result_mem. eauto with pdnsd.
Qed.

(** The zones of the configuration. *)
Definition conf_ok : Prop := forall zones, deleg_only_zones conf = Some zones -> Forall (fun z => exists Z, wire_name z Z) zones.

Lemma twin_read ans secs : secs_read secs -> Forall2 twin (ans_sec secs) ans -> secs_read (set_ans ans secs).
Proof.
  intros (H1 & H2 & H3 & Hmsg & e & He & Hqe) Ht. unfold secs_read, set_ans. cbn [ans_sec auth_sec add_sec]. splits; [|done|done| |].
  - clear -H1 Ht. induction Ht; [constructor|]. apply Forall_cons in H1 as [? ?]. constructor; [by eapply twin_fresh|auto].
  - intros cent tp d Hc Hd. apply elem_of_app in Hc as [Hc|Hc]; [|apply (Hmsg cent); [apply elem_of_app; by right|done]].
    apply list_elem_of_lookup in Hc as [i Hi]. destruct (Forall2_lookup_r _ _ _ _ _ Ht Hi) as (x & Hx & Htw).
    destruct (twin_same _ _ Htw) as (_ & _ & Hq & _). unfold key. rewrite Hq. apply (Hmsg x); [apply elem_of_app; left; by eapply list_elem_of_lookup_2|].
    unfold records in *. by rewrite <- (twin_records _ _ _ Htw).
  - destruct (Forall2_lookup_l _ _ _ _ _ Ht He) as (y & Hy & Htw). exists y. split; [done|]. destruct (twin_same _ _ Htw) as (_ & _ & Hq & _). congruence.
Qed.

Lemma runs_judge_answer Q thint qtype fl aa rcode ns st' secs c :
  conf_ok -> ready c -> secs_read secs -> same_query st st' -> ns_pairs ns l -> thint_ok thint -> of_records Q ->
  (calm -> rcode <> RC_NAMEERR /\ qs_rejectlist st = None /\ deleg_only_zones conf = None /\ qs_failed st' = 0%Z) ->
  (forall e, ans_sec secs !! 0 = Some e -> (forall rl, qs_rejectlist st = Some rl -> unrejected rl e) -> Q e) ->
  runs (judge_answer now global conf name thint qtype fl aa rcode st' ns secs) c (result_ok recv st calm N l Q c).
Proof.
  intros Hcf Hr Hs Hq Hns Hth HQr Hcalm HQ. pose proof Hs as (H1 & H2 & H3 & _). pose proof (same_stat st Hst st' Hq) as Hst'. unfold judge_answer.
  destruct (note_all_spec st' qtype (length (ans_sec secs)) (auth_sec secs) (ans_sec secs) H2 H1) as (ans & Eans & Ht). run_lift; [exact Eans|]. cbv zeta.
  set (secs' := set_ans ans secs). assert (Hs' : secs_read secs') by (by apply twin_read). pose proof Hs' as (H1' & H2' & H3' & _).
  destruct (reject_answer_spec st' Hst' secs' H1' H2' H3') as (rej & Erej & Hrl & Hun). run_lift; [exact Erej|].
  destruct (rcode =? RC_NAMEERR)%Z eqn:Erc; boolp; [apply runs_name_error; try done; by intros [? _]%Hcalm|]. pose proof (proj1 (secs_read_fine secs' Hs')) as Hown.
  destruct rej.
  { destruct (Hrl eq_refl) as [rl Erl]. assert (Hnc : calm -> False) by (intros (_ & H & _)%Hcalm; destruct Hq as (_ & _ & _ & Hqr); congruence). rewrite Erl.
    destruct (_ && _); [by apply runs_name_error|]. apply runs_return_error; auto with pdnsd. by intros ?%Hnc. }
  assert (Hdel : exists r, match deleg_only_zones conf with
     | Some zones => if (qs_auth_serv st' <? 3)%Z then missing_delegation name zones secs' else Some (false, 0)
     | None => Some (false, 0) end = Some r).
  { destruct (deleg_only_zones conf) as [zones|] eqn:Ez; [|by eexists]. destruct (_ <? _)%Z; [|by eexists]. eapply missing_delegation_total; try done. by apply Hcf. }
  destruct Hdel as [[missing cnt] Edel]. run_lift; [exact Edel|]. cbv beta iota.
  assert (Hnm : calm -> missing = false) by (intros (_ & _ & H & _)%Hcalm; rewrite H in Edel; by injection Edel).
  destruct (_ && _ && _) eqn:Em; [apply runs_name_error; try done; intros H; rewrite (Hnm H) in Em; discriminate Em|].
  destruct (missing && (qs_auth_serv st' <? 2)%Z) eqn:Em2; [apply runs_return_error; auto with pdnsd; intros H; rewrite (Hnm H) in Em2; discriminate Em2|].
  apply runs_use_answer; try done; [by intros (_ & _ & _ & ?)%Hcalm|].
  intros y Hy. cbn [secs' set_ans ans_sec] in Hy. destruct (Forall2_lookup_r _ _ _ _ _ Ht Hy) as (e & He & Htw).
  assert (Hrec : forall tp, records y tp = records e tp) by (intros tp; unfold records; by rewrite (twin_records _ _ _ Htw)).
  apply (HQr e); [done|]. apply HQ; [done|]. intros rl Hrl'. destruct Hq as (_ & _ & _ & Hqr). rewrite <- Hqr in Hrl'.
  pose proof (Hun eq_refl rl Hrl') as Hall. apply (Forall_lookup_1 _ _ _ _ Hall) in Hy. unfold unrejected in *. by rewrite !Hrec in Hy.
Qed.
End Decide.

(** ** [use_reply] *)

Section Reply.
Context {P : Platform} (now : Z) (global : globals) (conf : policies) (recv : list Z) (Hb : bytes recv) (Hlen : sizeof_dns_hdr_t <= length recv).

(** The message has one question, for the name (in any case of letters) and type, that
    ends at [ptr]. *)
Definition asks (N : list (list Z)) (qtype : Z) (ptr : nat) : Prop :=
  count16 recv qdcount = 1%Z /\ exists N' h k, name_at recv (length recv) sizeof_dns_hdr_t N' h k /\ wf_name N' /\ name_eqi N' N /\
    ptr = sizeof_dns_hdr_t + k + 4 /\ ptr <= length recv /\ count16 recv (sizeof_dns_hdr_t + k) = qtype.

Lemma check_question_spec name N qtype : wire_name name N ->
  exists q, check_question recv name qtype = Some q /\
    match q with
    | Some (ptr, lcnt) => asks N qtype ptr /\ ptr + lcnt = length recv
    | None => forall N' h k ptr, asks N qtype ptr -> name_at recv (length recv) sizeof_dns_hdr_t N' h k -> h <= 255 -> False
    end.
Proof.
  intros [HN [r ->]]. unfold check_question, asks. rewrite get16_some by (unfold sizeof_dns_hdr_t, qdcount in *; lia). sbind.
  destruct (count16 recv qdcount =? 1)%Z eqn:E1; boolp; cbn [negb]; [|exists None; split; [done|]; by intros ? ? ? ? [? _]].
  destruct (decompress_cases recv sizeof_dns_hdr_t (length recv - sizeof_dns_hdr_t) Hb) as (d & -> & Hcases); [lia|]. sbind.
  destruct Hcases as [(Hrc & N' & h & k & T & Hna & HN' & Hk & Hsrc & Hdsz & Htgt & _)|(Hrc & _ & _ & Hno)].
  2:{ assert (Ec : negb (dr_rc d =? RC_OK)%Z = true) by (destruct Hrc as [->| ->]; done). rewrite Ec. exists None. split; [done|].
      intros N2 h2 k2 ptr [_ (N3 & h3 & k3 & Hna3 & HN3 & _)] Hna2 Hh2. destruct (name_at_det _ _ _ _ _ _ Hna3 _ _ _ Hna2) as (-> & -> & ->). by eapply Hno. }
  rewrite Hrc, Htgt, rhnicmp_enc by (apply HN || apply HN'). cbn [RC_OK Z.eqb negb mbind option_bind]. rewrite Hsrc, Hdsz.
  assert (Hdet : forall N2 h2 k2, name_at recv (length recv) sizeof_dns_hdr_t N2 h2 k2 -> N2 = N' /\ k2 = k).
  { intros N2 h2 k2 H2. destruct (name_at_det _ _ _ _ _ _ Hna _ _ _ H2) as (-> & _ & ->). done. }
  case_bool_decide as Heq; cbn [negb].
  2:{ exists None. split; [done|]. intros ? ? ? ? [_ (N3 & h3 & k3 & Hna3 & _ & He & _)] _ _. destruct (Hdet _ _ _ Hna3) as [-> _]. done. }
  destruct (_ <? 4) eqn:E4; boolp.
  { exists None. split; [done|]. intros ? ? ? ? [_ (N3 & h3 & k3 & Hna3 & _ & _ & -> & Hle & _)] _ _. destruct (Hdet _ _ _ Hna3) as [_ ->]. lia. }
  rewrite get16_some by lia. sbind. destruct (count16 recv (sizeof_dns_hdr_t + k) =? qtype)%Z eqn:E5; boolp; cbn [negb].
  - eexists. split; [done|]. cbn beta iota. split; [|lia]. split; [done|]. exists N', h, k. splits; [done..|lia|done].
  - exists None. split; [done|]. intros ? ? ? ? [_ (N3 & h3 & k3 & Hna3 & _ & _ & _ & _ & He)] _ _. destruct (Hdet _ _ _ Hna3) as [_ ->]. done.
Qed.

(** The entry that is returned has the records of the answer section for the name, none
    of them rejected. *)
Definition direct_answer (N : list (list Z)) (qtype : Z) (st : query_stat) (e : dns_cent) : Prop :=
  (exists ptr rs q, asks N qtype ptr /\ mrecs recv ptr rs q /\
     (length rs = Z.to_nat (count16 recv ancount) \/ length rs < Z.to_nat (count16 recv ancount) /\ stuck recv q) /\
     forall tp d, d ∈ records e tp <-> has_record rs (fold_key (enc_name N)) tp d) /\
  forall rl, qs_rejectlist st = Some rl -> unrejected rl e.

Lemma of_direct N qtype st : of_records (direct_answer N qtype st).
Proof.
  intros a b Hab [(ptr & rs & q & H1 & H2 & H3 & H4) Hu]. split.
  - exists ptr, rs, q. splits; [done..|]. intros tp d. by rewrite Hab.
  - intros rl Hrl. unfold unrejected. rewrite !Hab. by apply Hu.
Qed.

Lemma holds_elem ca c tp d : c ∈ ca -> d ∈ records c tp -> holds ca (key c) tp d.
Proof. intros Hc Hd. by exists c. Qed.

Lemma runs_init_fresh N r fl s : wf_name N -> tst fl DF_NEGATIVE = false -> tst (u16 fl) DF_LOCAL = false ->
  runs (init_cent (enc_name N ++ r) 0 0 fl) s (fun res s' => mem_step s s' /\ (plenty s -> is_Some res) /\
    forall c, res = Some c -> fresh_cent c /\ qname c = enc_name N /\ forall tp, records c tp = []).
Proof.
  intros HN Hneg Hloc. eapply runs_weaken; [by apply runs_init_cent|]. cbn beta. intros res s' (Hm & Hp & Hres).
  split; [split; [done|intros H; by apply Hp]|]. split; [intros H; by apply Hp|]. intros c Hc. destruct (Hres c Hc) as (Hok & Hq & Hfl & Hl & Hsl & _ & Hn).
  assert (Hrec : forall tp, records c tp = []) by (intros tp; by apply records_empty; [apply Hok|]).
  splits; [|done|done]. unfold fresh_cent, good_cent. splits; [done|done| |congruence|by rewrite Hfl|].
  - intros tp rs Hg. specialize (Hrec tp). unfold records in Hrec. rewrite Hg in Hrec. rewrite Hrec. constructor.
  - intros tp d Hd. rewrite Hrec in Hd. by apply not_elem_of_nil in Hd.
Qed.

(** A reply that is used: it has the question, its records can be read, and nothing in
    the state or the configuration stands against it. *)
Definition calm_reply (N : list (list Z)) (qtype rcode : Z) (st : query_stat) (c : cache) : Prop :=
  (exists ptr q1 q2 N' h k, asks N qtype ptr /\ name_at recv (length recv) sizeof_dns_hdr_t N' h k /\ h <= 255 /\
     clean_recs recv ptr (Z.to_nat (count16 recv ancount)) q1 /\ clean_recs recv q1 (Z.to_nat (count16 recv nscount)) q2) /\
  count16 recv arcount = 0%Z /\ rcode <> RC_NAMEERR /\ qs_failed st = 0%Z /\ qs_rejectlist st = None /\ deleg_only_zones conf = None /\ plenty c.

Lemma asks_det N qtype ptr ptr' : asks N qtype ptr -> asks N qtype ptr' -> ptr = ptr'.
Proof.
  intros [_ (N1 & h1 & k1 & H1 & _ & _ & -> & _)] [_ (N2 & h2 & k2 & H2 & _ & _ & -> & _)].
  by destruct (name_at_det _ _ _ _ _ _ H1 _ _ _ H2) as (_ & _ & ->).
Qed.

Lemma runs_use_reply name N thint rd_bit rcode st ns l c :
  wire_name name N -> thint_ok thint -> stat_ok st -> conf_ok conf -> ready c -> ns_pairs ns l ->
  let qtype := if qs_lean_query st then thint else QT_ALL in
  runs (use_reply now global conf recv name thint rd_bit rcode st ns) c (result_ok recv st (calm_reply N qtype rcode st c) N l (direct_answer N qtype st) c).
Proof.
  intros HN Hth Hst Hcf Hr Hns qtype. set (calm := calm_reply N qtype rcode st c). unfold use_reply. fold qtype. cbv zeta.
  assert (Hfail : forall st' rv c1, mem_step c c1 -> same_query st st' -> rv = RC_SERVFAIL \/ (rv = RC_FATALERR /\ ~ plenty c) -> (calm -> rv = RC_FATALERR) ->
    result_ok recv st calm N l (direct_answer N qtype st) c {| ex_rv := rv; ex_ent := None; ex_ns := ns; ex_c_soa := None; ex_st := st' |} c1).
  { intros st' rv c1 [Hm _] Hq Hrv Hcalm. unfold result_ok. cbn. splits; [eauto with pdnsd|apply Hq..|tauto|auto| |done|exists l; split; [done|by left]].
    split; [destruct Hrv as [->|[-> _]]; discriminate|by intros [? ?]]. }
  destruct (check_question_spec name N qtype HN) as (q & Eq & Hq). run_lift; [exact Eq|].
  destruct q as [[ptr lcnt]|]; [|apply runs_ret; apply Hfail; [auto with pdnsd|by repeat split|by left|intros [(p & q1 & q2 & N' & h & k & H1 & H2 & H3 & _) _]; by destruct (Hq N' h k p)]]. destruct Hq as [Hasks Hpl].
  unfold sizeof_dns_hdr_t in Hlen. destruct (rd_lt recv 2) as [f1 Hf1]; [lia|]. run_lift; [exact Hf1|]. destruct (rd_lt recv 3) as [f2 Hf2]; [lia|]. run_lift; [exact Hf2|].
  set (st1 := qs_set_bits _ _ _ st). assert (Hq1 : same_query st st1) by (by repeat split). set (tc := flag (h_tc f1)).
  set (aa := qs_aa st1 && negb tc). set (fl := if aa then Z.lor (qs_flags st1) CF_AUTH else qs_flags st1).
  apply runs_bind. eapply runs_weaken; [apply runs_malloc_any|]. cbn beta. intros ok c1 [Hm1 Hp1]. assert (Hms1 : mem_step c c1) by (split; [done|intros H; by apply Hp1]).
  destruct ok; cbn [negb]; [|apply runs_ret; apply Hfail; [done|done|right; split; [done|]; intros H; by destruct (Hp1 H)|done]].
  pose proof HN as [HwN [r Er]]. rewrite Er.
  apply runs_bind. eapply runs_weaken; [apply runs_init_fresh; [done|destruct (aa && (qtype =? QT_ALL)%Z); reflexivity..]|]. cbn beta. intros ent c2 (Hm2 & Hp2 & Hent).
  assert (Hms2 : mem_step c c2) by eauto with pdnsd.
  destruct ent as [ent|]; [|apply runs_ret; apply Hfail; [done|done|right; split; [done|]; intros H; apply Hms1 in H; by destruct (Hp2 H)|done]].
  destruct (Hent ent eq_refl) as (Hfresh & Hqe & Hempty). rewrite <- Er.
  apply runs_bind. pose proof (runs_read_sections recv Hb Hlen now fl ptr lcnt ent N rcode st1 c2 Hpl Hfresh Hqe Hempty) as ([[[rv secs] rc] st2] & c3 & E3 & Hm3 & Hso & Hst2 & Hcode & Hres).
  exists (rv, secs, rc, st2), c3. split; [exact E3|]. cbn [fst snd] in *.
  assert (Hcalm : calm -> rv = RC_OK /\ rc = rcode /\ st2 = st1).
  { intros [(p & q1 & q2 & _ & _ & _ & H1 & _ & _ & H2 & H3) (H4 & _ & _ & _ & _ & H5)]. rewrite (asks_det _ _ _ _ H1 Hasks) in H2.
    apply Hms2 in H5. destruct (runs_sections_clean recv Hb Hlen now fl ptr lcnt ent rcode st1 c2 q1 q2 Hpl Hfresh H5 H2 H3 H4) as (r2 & c4 & E4 & Hr2).
    rewrite E3 in E4. injection E4 as <- <-. exact Hr2. } assert (Hms3 : mem_step c c3) by eauto with pdnsd.
  assert (Hr3 : ready c3) by (eapply ready_mem; [apply Hms3|done]).
  assert (Hmark : forall x, same_query st x -> same_query st (mark_failed x)) by (intros x Hx; unfold mark_failed; destruct (qs_failed x =? 0)%Z; [|done]; destruct Hx as (? & ? & ? & ?); by repeat split).
  assert (Hq2 : same_query st st2) by (destruct Hst2 as [-> | ->]; [done|by apply Hmark]).
  assert (Hjudge : forall st3, same_query st st3 -> (calm -> st3 = st1) -> rv <> RC_FATALERR ->
    runs (judge_answer now global conf name thint qtype fl aa rc st3 ns secs) c3 (result_ok recv st calm N l (direct_answer N qtype st) c)).
  { intros st3 Hq3 Hst3 Hne. destruct (Hres Hne) as [(F1 & F2 & F3) (e & rest & rs & q & Eans & Hqn & Hrs & Hrl & Hrec)]. destruct Hso as ([A1 _] & [A2 _] & [A3 _]).
    eapply runs_weaken; [eapply (runs_judge_answer now global conf recv st Hst calm name N HN l (direct_answer N qtype st)); try done|intros r' c'; by apply result_mem].
    - unfold secs_read. splits; [done..| |exists e; by rewrite Eans]. intros cent tp d Hc Hd.
      apply elem_of_app in Hc as [Hc|Hc]; [by apply F1, holds_elem|]. apply elem_of_app in Hc as [Hc|Hc]; [by apply F2, holds_elem|by apply F3, holds_elem].
    - apply of_direct.
    - intros Hc. destruct (Hcalm Hc) as (_ & -> & _). rewrite (Hst3 Hc). destruct Hc as (_ & _ & ? & ? & ? & ? & _). by splits.
    - intros e' He' Hu. rewrite Eans in He'. injection He' as <-. split; [|done]. exists ptr, rs, q. splits; [done..| |done]. destruct Hrl as [?|(_ & ? & ?)]; auto. }
  destruct ((rv =? RC_OK)%Z || ((rv =? RC_TRUNC)%Z && tc)) eqn:Erv.
  { apply Hjudge; [done|by intros (_ & _ & ?)%Hcalm|]. intros ->. discriminate Erv. }
  destruct (rv =? RC_SERVFAIL)%Z eqn:Esf; boolp; [apply Hjudge; [by apply Hmark|by intros (? & _)%Hcalm; subst|by subst rv]|].
  apply runs_return_error; [done|done| |done|by left| |].
  - destruct Hso as ([A1 _] & [A2 _] & [A3 _]). 
    split; [intros e He; by apply (Forall_lookup_1 _ _ _ _ A1 He)|]. apply Forall_app. split; [by apply Forall_drop|by apply Forall_app].
  - destruct (rv =? RC_FATALERR)%Z eqn:Ef; boolp; [right|by left]. split; [done|]. subst rv. destruct Hcode as [?|[?|[?|[_ Hnp]]]]; [discriminate..|]. intros ?%Hms2. done.
  - by intros (-> & _)%Hcalm.
Qed.
End Reply.
