(* ===== verification/ExecThms.v ===== *)
(** The theorems about the use of replies. *)
From S2P Require Import Prelude Names DnsName Compress RrTypes HashTab RrList Cent CentSpec Cache CacheInv CachePurge CacheAdd CacheOps CacheThms.
From S2P Require Import Answer AnswerRr AnswerSet Query QueryDecode QuerySafe QueryThms Reply ReplyData ReplySpec ReplyThms Exec ExecStages ExecSpec.

Section Theorems.
Context {P : Platform} (now : Z) (global : globals) (conf : policies).
Context (recv name : list Z) (N : list (list Z)) (thint rd_bit rcode : Z) (st : query_stat).
Context (ns : list (list Z)) (l : list (list (list Z) * list (list Z))) (c : cache).

(** C5: a reply of at least the length of a header, whatever its bytes are and whatever
    allocations fail, is processed without leaving any buffer and without violating an
    assertion; the cache keeps its invariant and holds only data of the layout of their
    types.  The return code is one of four, [RC_FATALERR] only for lack of memory; an entry is
    returned exactly with [RC_OK], and it is well formed and for the name that was
    asked for.  The list of name servers stays well formed. *)
Theorem use_reply_safe :
  bytes recv -> sizeof_dns_hdr_t <= length recv -> wire_name name N -> thint_ok thint -> stat_ok st -> conf_ok conf -> ready c -> ns_pairs ns l ->
  runs (use_reply now global conf recv name thint rd_bit rcode st ns) c (fun r c' =>
    good_cache c' /\ insert_sort c' = true /\
    (ex_rv r = RC_OK \/ ex_rv r = RC_NAMEERR \/ ex_rv r = RC_SERVFAIL \/ (ex_rv r = RC_FATALERR /\ ~ plenty c)) /\
    (ex_rv r = RC_OK <-> is_Some (ex_ent r)) /\
    (forall e, ex_ent r = Some e -> good_cent e /\ qname e = enc_name N) /\
    exists l', ns_pairs (ex_ns r) l').
Proof.
  intros Hb Hl HN Hth Hst Hcf Hr Hns. eapply runs_weaken; [by apply runs_use_reply|]. cbn beta zeta.
  intros r c' ((Hg & Hi & _) & _ & Hrv & _ & Hok & Hent & l' & Hl' & _). splits; [done..| |by exists l'].
  intros e He. destruct (Hent e He) as (? & ? & _). done.
Qed.


End Theorems.

(** ** Examples *)

#[local] Existing Instance LP64.

Definition demo_conf : policies := {| neg_domain_pol := C_AUTH; neg_rrs_pol := C_DEFAULT; deleg_only_zones := None |}.
Definition demo_globals : globals := {| g_min_ttl := 120; g_max_ttl := 604800; g_neg_ttl := 900; g_perm_cache := 2048 |}.

(** The state of a query for the addresses of "a" that was sent to a server for that
    domain. *)
Definition demo_stat : query_stat :=
  {| qs_flags := 0; qs_nocache := false; qs_auth_serv := 2; qs_lean_query := true; qs_trusted := false;
     qs_aa := false; qs_tc := false; qs_ra := false; qs_failed := 0; qs_nsdomain := Some [1; 97; 0]%Z; qs_rejectlist := None |}.

Lemma demo_wire : wire_name [1; 97; 0]%Z [[97]]%Z.
Proof. split; [exact wf_a|]. by exists []. Qed.

Lemma demo_stat_ok : stat_ok demo_stat.
Proof. split; [|discriminate]. intros d [= <-]. exists [[97]]%Z. exact demo_wire. Qed.

Lemma demo_conf_ok : conf_ok demo_conf.
Proof. discriminate. Qed.

Lemma demo_ready : ready fresh_cache.
Proof. split; [exact good_fresh|reflexivity]. Qed.

(** A reply with the address of "a", and of "b", which is none of the server's business,
    and the name server "n.a" of "a" in the authority section. *)
Definition demo_use : list Z :=
  ([0; 7; 129; 128; 0; 1; 0; 2; 0; 1; 0; 0; 1; 97; 0; 0; 1; 0; 1;
   192; 12; 0; 1; 0; 1; 0; 0; 0; 60; 0; 4; 10; 0; 0; 1;
   1; 98; 0; 0; 1; 0; 1; 0; 0; 0; 60; 0; 4; 10; 0; 0; 2;
   192; 12; 0; 2; 0; 1; 0; 0; 0; 60; 0; 4; 1; 110; 192; 12])%Z.

Lemma demo_use_bytes : bytes demo_use.
Proof. apply (bool_decide_unpack _). vm_compute. exact I. Qed.

#[local] Notation demo_run := (use_reply 1000 demo_globals demo_conf demo_use [1; 97; 0]%Z T_A 1 RC_OK demo_stat []).

Lemma use_reply_safe_witness :
  runs demo_run fresh_cache (fun r c' => good_cache c' /\ ex_rv r = RC_OK /\
    (fun e => (qname e, records e T_A)) <$> ex_ent r = Some ([1; 97; 0]%Z, [[10; 0; 0; 1]%Z])).
Proof.
  destruct (use_reply_safe 1000 demo_globals demo_conf demo_use [1; 97; 0]%Z [[97]]%Z T_A 1 RC_OK demo_stat [] [] fresh_cache
    demo_use_bytes ltac:(vm_compute; lia) demo_wire ltac:(by left) demo_stat_ok demo_conf_ok demo_ready np_nil) as (r & c' & Hrun & Hg & _).
  exists r, c'. split; [exact Hrun|]. split; [exact Hg|].
  assert (E : (fun x => (ex_rv x.1, (fun e => (qname e, records e T_A)) <$> ex_ent x.1)) <$> demo_run fresh_cache
    = Some (RC_OK, Some ([1; 97; 0]%Z, [[10; 0; 0; 1]%Z]))) by (vm_compute; reflexivity).
  rewrite Hrun in E. cbn [fmap option_fmap option_map fst snd] in E. injection E as E1 E2. by split.
Defined.


