(* ===== verification/Net.v ===== *)
(** The operating system as a query sees it: sockets, the heap, random numbers, and
    [bind_socket] of [pdnsd/src/dns_query.c].

    What a system call returns is decided by a [kernel], which may answer each call
    differently: its functions get the number of calls that went before.  The world keeps
    what the program can get wrong: which sockets are open and what went through them, which
    blocks of the heap are allocated, and their contents.  To close a socket that is not open,
    to free a block twice, and to access memory outside of a block is undefined, so that the
    computation has no result. *)
From S2P Require Import Prelude Names RrTypes HashTab RrList Cent Cache.

(** ** The world *)

(** The error numbers that the code compares with, and all others. *)
Inductive errno :=
  | EINPROGRESS | EPIPE | ECONNREFUSED | ECONNRESET | EWOULDBLOCK | EADDRINUSE | EADDRNOTAVAIL
  | ENETUNREACH | EHOSTUNREACH | ENOPROTOOPT | ENETDOWN | EHOSTDOWN | ENONET | EOTHER (n : Z).

#[export] Instance errno_eq_dec : EqDecision errno.
Proof. solve_decision. Defined.

Inductive sock_type := SOCK_STREAM | SOCK_DGRAM.

#[export] Instance sock_type_eq_dec : EqDecision sock_type.
Proof. solve_decision. Defined.

(** An IPv4 address and a port. *)
Record sockaddr := { sin_addr : list Z; sin_port : Z }.

(** A socket: its type, the port it is bound to, the peer it is connected to, and the pieces of
    data that were sent and received. *)
Record conn := { c_type : sock_type; c_port : option Z; c_peer : option sockaddr; c_sent : list (list Z); c_recv : list (list Z) }.

Definition bound (p : Z) (c : conn) : conn :=
  {| c_type := c_type c; c_port := Some p; c_peer := c_peer c; c_sent := c_sent c; c_recv := c_recv c |}.
Definition connected (a : sockaddr) (c : conn) : conn :=
  {| c_type := c_type c; c_port := c_port c; c_peer := Some a; c_sent := c_sent c; c_recv := c_recv c |}.
Definition sent (l : list Z) (c : conn) : conn :=
  {| c_type := c_type c; c_port := c_port c; c_peer := c_peer c; c_sent := c_sent c ++ [l]; c_recv := c_recv c |}.
Definition received (l : list Z) (c : conn) : conn :=
  {| c_type := c_type c; c_port := c_port c; c_peer := c_peer c; c_sent := c_sent c; c_recv := c_recv c ++ [l] |}.

(** [past] has the sockets that were closed, the last one first; [tests] the calls of
    [sched_server_test] with their last argument. *)
Record world := {
  w_cache : cache;
  socks : gmap positive conn;
  past : list conn;
  heap : gmap positive (list Z);
  ticks : nat;
  tests : list (sockaddr * Z);
}.

Definition set_w_cache v w := {| w_cache := v; socks := socks w; past := past w; heap := heap w; ticks := ticks w; tests := tests w |}.
Definition set_socks v w := {| w_cache := w_cache w; socks := v; past := past w; heap := heap w; ticks := ticks w; tests := tests w |}.
Definition set_past v w := {| w_cache := w_cache w; socks := socks w; past := v; heap := heap w; ticks := ticks w; tests := tests w |}.
Definition set_heap v w := {| w_cache := w_cache w; socks := socks w; past := past w; heap := v; ticks := ticks w; tests := tests w |}.
Definition set_ticks v w := {| w_cache := w_cache w; socks := socks w; past := past w; heap := heap w; ticks := v; tests := tests w |}.
Definition set_tests v w := {| w_cache := w_cache w; socks := socks w; past := past w; heap := heap w; ticks := ticks w; tests := v |}.

(** What the calls return: an error or success, and data.  [k_read] and [k_recv] are also
    given the size of the buffer, [k_poll] the descriptors with the events that are waited for,
    and the time limit. *)
Record kernel := {
  k_socket : nat -> option errno;
  k_bind : nat -> Z -> option errno;
  k_fcntl : nat -> option errno;
  k_connect : nat -> sockaddr -> option errno;
  k_write : nat -> nat -> errno + nat;
  k_send : nat -> option errno;
  k_read : nat -> nat -> errno + list Z;
  k_recv : nat -> nat -> errno + list Z;
  k_rand16 : nat -> Z;
  k_random : nat -> Z;
  k_time : nat -> Z;
  k_poll : nat -> list (option positive * Z) -> Z -> errno + list Z;
}.

(** ** The monad *)

Definition IO (A : Type) : Type := world -> option (A * world).

#[export] Instance IO_ret : MRet IO := fun A a w => Some (a, w).
#[export] Instance IO_bind : MBind IO := fun A B k m w =>
  match m w with
  | Some (a, w') => k a w'
  | None => None
  end.

Definition liftIO {A} (o : option A) : IO A := fun w => a ← o; Some (a, w).
Definition getIO : IO world := fun w => Some (w, w).
Definition modIO (f : world -> world) : IO unit := fun w => Some (tt, f w).

(** An operation of the cache. *)
Definition cacheIO {A} (m : M A) : IO A := fun w => '(a, c) ← m (w_cache w); Some (a, set_w_cache c w).

(** The number of a system call. *)
Definition tick : IO nat := fun w => Some (ticks w, set_ticks (S (ticks w)) w).

(** ** The heap *)

(** A pointer to the beginning of a block; [Indet] is one that was never set. *)
Inductive pointer := Indet | Null | Ptr (b : positive).

#[export] Instance pointer_eq_dec : EqDecision pointer.
Proof. solve_decision. Defined.

Definition load (p : pointer) : IO (list Z) :=
  match p with
  | Ptr b => w ← getIO; liftIO (heap w !! b)
  | _ => liftIO None
  end.

(** The contents of a block replaced by others of the same length. *)
Definition store (p : pointer) (v : list Z) : IO unit :=
  m ← load p;
  match p with
  | Ptr b => if (length v =? length m) then modIO (fun w => set_heap (<[b := v]> (heap w)) w) else liftIO None
  | _ => liftIO None
  end.

Definition alloc (v : list Z) : IO pointer :=
  w ← getIO;
  let b := fresh (dom (heap w)) in
  _ ← modIO (fun w => set_heap (<[b := v]> (heap w)) w);
  mret (Ptr b).

(** [pdnsd_malloc]; [malloc(0)] is a block of no bytes.  A part of a new block that has not
    been written holds zeros here. *)
Definition pdnsd_malloc (n : nat) : IO pointer :=
  ok ← cacheIO malloc;
  if (ok : bool) then alloc (replicate n 0%Z) else mret Null.

Definition pdnsd_free (p : pointer) : IO unit :=
  match p with
  | Indet => liftIO None
  | Null => mret tt
  | Ptr b =>
      w ← getIO;
      _ ← liftIO (heap w !! b);
      modIO (fun w => set_heap (delete b (heap w)) w)
  end.

Section Kernel.
Context (K : kernel).

(** Whether [realloc(p,0)] frees the block and returns NULL, as it does in glibc and bionic. *)
Context (realloc_frees : bool).

(** [pdnsd_realloc]; the block may move, which does not matter: nothing else points to it. *)
Definition pdnsd_realloc (p : pointer) (n : nat) : IO pointer :=
  match p with
  | Indet => liftIO None
  | Null => pdnsd_malloc n
  | Ptr b =>
      m ← load p;
      if realloc_frees && (n =? 0) then _ ← pdnsd_free p; mret Null
      else
        ok ← cacheIO malloc;
        if (ok : bool) then
          _ ← modIO (fun w => set_heap (<[b := take n m ++ replicate (n - length m) 0%Z]> (heap w)) w);
          mret p
        else mret Null
  end.

Definition realloc_or_cleanup (ptr : pointer) (size : nat) : IO pointer :=
  retval ← pdnsd_realloc ptr size;
  match retval with
  | Null => _ ← pdnsd_free ptr; mret Null
  | _ => mret retval
  end.

(** ** System calls *)

Definition the_sock (fd : positive) : IO conn := w ← getIO; liftIO (socks w !! fd).
Definition put_sock (fd : positive) (c : conn) : IO unit := modIO (fun w => set_socks (<[fd := c]> (socks w)) w).

Definition socket (tp : sock_type) : IO (option positive) :=
  t ← tick;
  match k_socket K t with
  | Some _ => mret None
  | None =>
      w ← getIO;
      let fd := fresh (dom (socks w)) in
      _ ← put_sock fd {| c_type := tp; c_port := None; c_peer := None; c_sent := []; c_recv := [] |};
      mret (Some fd)
  end.

Definition bind (fd : positive) (port : Z) : IO (option errno) :=
  c ← the_sock fd;
  t ← tick;
  match k_bind K t port with
  | Some e => mret (Some e)
  | None => _ ← put_sock fd (bound port c); mret None
  end.

Definition fcntl (fd : positive) : IO (option errno) :=
  _ ← the_sock fd;
  t ← tick;
  mret (k_fcntl K t).

(** The peer is the one of the last call. *)
Definition connect (fd : positive) (a : sockaddr) : IO (option errno) :=
  c ← the_sock fd;
  t ← tick;
  _ ← put_sock fd (connected a c);
  mret (k_connect K t a).

(** [write] takes some of the data, at most all. *)
Definition write (fd : positive) (data : list Z) : IO (errno + nat) :=
  c ← the_sock fd;
  t ← tick;
  match k_write K t (length data) with
  | inl e => mret (inl e)
  | inr n => let n := Nat.min n (length data) in _ ← put_sock fd (sent (take n data) c); mret (inr n)
  end.

(** [send] of a datagram takes all or nothing. *)
Definition send (fd : positive) (data : list Z) : IO (option errno) :=
  c ← the_sock fd;
  t ← tick;
  match k_send K t with
  | Some e => mret (Some e)
  | None => _ ← put_sock fd (sent data c); mret None
  end.

(** [read] delivers at most [n] bytes, none at the end of the stream. *)
Definition read (fd : positive) (n : nat) : IO (errno + list Z) :=
  c ← the_sock fd;
  t ← tick;
  match k_read K t n with
  | inl e => mret (inl e)
  | inr l => _ ← put_sock fd (received (take n l) c); mret (inr (take n l))
  end.

(** [recv] of a datagram, of which what does not fit is lost. *)
Definition recv (fd : positive) (n : nat) : IO (errno + list Z) :=
  c ← the_sock fd;
  t ← tick;
  match k_recv K t n with
  | inl e => mret (inl e)
  | inr l => _ ← put_sock fd (received (take n l) c); mret (inr (take n l))
  end.

Definition close (fd : positive) : IO unit :=
  c ← the_sock fd;
  _ ← modIO (fun w => set_past (c :: past w) w);
  modIO (fun w => set_socks (delete fd (socks w)) w).

Definition get_rand16 : IO Z := t ← tick; mret (Z.land (k_rand16 K t) 0xffff).

(** [random], which does not return a negative number. *)
Definition random : IO Z := t ← tick; mret (Z.abs (k_random K t)).

Definition time : IO Z := t ← tick; mret (k_time K t).

(** [poll]: the events of each descriptor, as many as there are descriptors. *)
Definition poll (fds : list (option positive * Z)) (timeout : Z) : IO (errno + list Z) :=
  t ← tick;
  mret (match k_poll K t fds timeout with
        | inl e => inl e
        | inr l => inr (take (length fds) (l ++ replicate (length fds) 0%Z))
        end).

(** [sched_server_test] for one address: its status is [up], or is to be tested if that is -1. *)
Definition sched_server_test (a : sockaddr) (up : Z) : IO unit := modIO (fun w => set_tests ((a, up) :: tests w) w).

(** ** [bind_socket] *)

(** The smallest power of 2 from [m] on that is not below [range]; [range] is at most
    0x8000, so that 16 doublings are enough. *)
Fixpoint pow2_from (fuel : nat) (m range : Z) : option Z :=
  match fuel with
  | O => None
  | S fu => if (m <? range)%Z then pow2_from fu (Z.shiftl m 1) range else Some m
  end.

Definition port_mask (range : Z) : option Z :=
  if (range <=? 0x8000)%Z then m ← pow2_from 17 1 range; Some (m - 1)%Z else Some 0xffff%Z.

(** A random number below [range], none after [tries] numbers that were not. *)
Fixpoint rand_below (tries : nat) (range m : Z) : IO (option Z) :=
  match tries with
  | O => mret None
  | S n =>
      r ← get_rand16;
      let prt := Z.land r m in
      if (prt <? range)%Z then mret (Some prt) else rand_below n range m
  end.

Definition MAXTRY1 : nat := Z.to_nat 0x10000.

(** The loop from the call of [bind] on. *)
Fixpoint bind_port (fuel : nat) (fd : positive) (query_port_start query_port_end range m maxtry2 try2 prt pstart : Z) : IO bool :=
  match fuel with
  | O => liftIO None
  | S fu =>
      r ← bind fd (u16 prt);
      match r with
      | None => mret true
      | Some e =>
          if bool_decide (e <> EADDRINUSE /\ e <> EADDRNOTAVAIL) then mret false
          else
            let try2 := (try2 + 1)%Z in
            if (maxtry2 <=? try2)%Z then
              let prt := (prt + 1)%Z in
              let prt := if (query_port_end <? prt)%Z then query_port_start else prt in
              if (prt =? pstart)%Z then mret false
              else bind_port fu fd query_port_start query_port_end range m maxtry2 try2 prt pstart
            else
              r ← rand_below MAXTRY1 range m;
              match r with
              | None => mret false
              | Some p => let prt := (p + query_port_start)%Z in
                          bind_port fu fd query_port_start query_port_end range m maxtry2 try2 prt prt
              end
      end
  end.

Definition bind_socket (query_port_start query_port_end : Z) (fd : positive) : IO bool :=
  if (0 <=? query_port_start)%Z then
    let range := (query_port_end - query_port_start + 1)%Z in
    if (range <=? 0)%Z || (0x10000 <? range)%Z then mret false
    else
      m ← liftIO (port_mask range);
      let maxtry2 := (range * 2)%Z in
      r ← rand_below MAXTRY1 range m;
      match r with
      | None => mret false
      | Some p => let prt := (p + query_port_start)%Z in
                  bind_port (Z.to_nat (maxtry2 + range)) fd query_port_start query_port_end range m maxtry2 0 prt prt
      end
  else mret true.
End Kernel.
