(* ===== verification/NetSpec.v ===== *)
(** What the operations on the world do, and [bind_socket]. *)
From S2P Require Import Prelude Names RrTypes HashTab RrList Cent CentSpec Cache Answer AnswerRr AnswerSet Query QueryDecode QuerySafe Reply ReplyData Net.

(** ** Reasoning about computations *)

Definition iruns {A} (m : IO A) (w : world) (Q : A -> world -> Prop) : Prop :=
  exists a w', m w = Some (a, w') /\ Q a w'.

Lemma iruns_ret {A} (a : A) w (Q : A -> world -> Prop) : Q a w -> iruns (mret a) w Q.
Proof. intros H. by exists a, w. Qed.

Lemma iruns_bind {A B} (m : IO A) (k : A -> IO B) w (Q : B -> world -> Prop) :
  iruns m w (fun a w' => iruns (k a) w' Q) -> iruns (mbind k m) w Q.
Proof.
  intros (a & w1 & Hm & b & w2 & Hk & HQ). exists b, w2. split; [|done].
  unfold mbind, IO_bind. by rewrite Hm.
Qed.

Lemma iruns_weaken {A} (m : IO A) w (Q Q' : A -> world -> Prop) :
  iruns m w Q -> (forall a w', Q a w' -> Q' a w') -> iruns m w Q'.
Proof. intros (a & w' & Hm & H) HQ. exists a, w'. auto. Qed.

Lemma iruns_lift {A} (o : option A) a w (Q : A -> world -> Prop) : o = Some a -> Q a w -> iruns (liftIO o) w Q.
Proof. intros -> H. by exists a, w. Qed.

Lemma iruns_get w (Q : world -> world -> Prop) : Q w w -> iruns getIO w Q.
Proof. intros H. by exists w, w. Qed.

Lemma iruns_mod f w (Q : unit -> world -> Prop) : Q tt (f w) -> iruns (modIO f) w Q.
Proof. intros H. by exists tt, (f w). Qed.

Lemma iruns_cache {A} (m : M A) w (Q : A -> world -> Prop) :
  runs m (w_cache w) (fun a c => Q a (set_w_cache c w)) -> iruns (cacheIO m) w Q.
Proof. intros (a & c & Hm & HQ). exists a, (set_w_cache c w). split; [|done]. unfold cacheIO. by rewrite Hm. Qed.

Ltac io_with lem := apply iruns_bind; eapply iruns_weaken; [eapply lem|cbn beta].
Ltac io_lift := apply iruns_bind; eapply iruns_lift; [|].
Ltac io_ret := apply iruns_ret.

(** ** The state of the world *)

(** The sockets [S], those that have been closed [L], and the heap [H]; of the cache only the
    memory has changed since [C]. *)
Definition here (C : cache) (S : gmap positive conn) (L : list conn) (H : gmap positive (list Z)) (w : world) : Prop :=
  mem_step C (w_cache w) /\ socks w = S /\ past w = L /\ heap w = H.

Section Here.
Context (C : cache).

Lemma iruns_tick S L H w : here C S L H w -> iruns tick w (fun t w' => t = ticks w /\ ticks w' = Datatypes.S (ticks w) /\ here C S L H w').
Proof. intros Hw. by exists (ticks w), (set_ticks (Datatypes.S (ticks w)) w). Qed.

Lemma iruns_io_malloc S L H w : here C S L H w -> iruns (cacheIO malloc) w (fun b w' => (plenty C -> b = true) /\ here C S L H w').
Proof.
  intros (Hm & HS & HL & HH). apply iruns_cache. eapply runs_weaken; [apply runs_malloc_any|]. cbn beta.
  intros b c [Hm' Hp]. assert (Hs : mem_step (w_cache w) c) by (split; [done|intros H'; by apply Hp]).
  split; [intros H'; by apply Hp, Hm|]. unfold here. cbn. splits; eauto with pdnsd.
Qed.

Lemma iruns_load S L H b m w : here C S L H w -> H !! b = Some m -> iruns (load (Ptr b)) w (fun r w' => r = m /\ here C S L H w').
Proof.
  intros Hw Hb. unfold load. apply iruns_bind, iruns_get. destruct Hw as (? & ? & ? & HH). eapply iruns_lift; [rewrite HH; exact Hb|]. done.
Qed.

Lemma iruns_store S L H b m v w : here C S L H w -> H !! b = Some m -> length v = length m ->
  iruns (store (Ptr b) v) w (fun _ w' => here C S L (<[b := v]> H) w').
Proof.
  intros Hw Hb Hv. unfold store. io_with iruns_load; [done|done|]. intros r w1 [-> Hw1]. rewrite Hv, Nat.eqb_refl.
  apply iruns_mod. destruct Hw1 as (? & ? & ? & HH). unfold here. cbn. by rewrite HH.
Qed.

Lemma iruns_malloc S L H n w : here C S L H w ->
  iruns (pdnsd_malloc n) w (fun p w' => (p = Null /\ ~ plenty C /\ here C S L H w') \/
    exists b, p = Ptr b /\ H !! b = None /\ here C S L (<[b := replicate n 0%Z]> H) w').
Proof.
  intros Hw. unfold pdnsd_malloc. io_with iruns_io_malloc; [done|]. intros ok w1 [Hp Hw1]. destruct ok; cbn match.
  - unfold alloc. apply iruns_bind, iruns_get, iruns_bind, iruns_mod, iruns_ret. right. eexists. split; [done|].
    destruct Hw1 as (? & ? & ? & HH). unfold here. cbn. rewrite HH. split; [|done]. apply not_elem_of_dom, is_fresh.
  - io_ret. left. splits; [done| |done]. intros H'. by apply Hp in H'.
Qed.

Lemma iruns_free S L H b m w : here C S L H w -> H !! b = Some m ->
  iruns (pdnsd_free (Ptr b)) w (fun _ w' => here C S L (delete b H) w').
Proof.
  intros Hw Hb. unfold pdnsd_free. apply iruns_bind, iruns_get. destruct Hw as (? & ? & ? & HH).
  io_lift; [rewrite HH; exact Hb|]. apply iruns_mod. unfold here. cbn. by rewrite HH.
Qed.

(** A pointer that is null or to a block outside of [F], and the heap with that block. *)
Definition apart (p : pointer) (F : gmap positive (list Z)) : Prop :=
  match p with Indet => False | Null => True | Ptr b => F !! b = None end.
Definition hput (p : pointer) (v : list Z) (F : gmap positive (list Z)) : gmap positive (list Z) :=
  match p with Ptr b => <[b := v]> F | _ => F end.

Lemma iruns_free_apart S L F p v w : apart p F -> here C S L (hput p v F) w -> iruns (pdnsd_free p) w (fun _ w' => here C S L F w').
Proof.
  destruct p as [| |b]; [done| |]; cbn [apart hput]; intros Hp Hw; [by apply iruns_ret|].
  eapply iruns_weaken; [eapply iruns_free; [done|apply lookup_insert_eq]|]. cbn beta. intros _ w'. by rewrite delete_insert_id.
Qed.

Lemma iruns_realloc_or_cleanup rf S L F p v n w : apart p F -> here C S L (hput p v F) w -> rf = false \/ n <> 0 \/ p = Null ->
  iruns (realloc_or_cleanup rf p n) w (fun r w' => (r = Null /\ ~ plenty C /\ here C S L F w') \/
    exists b v', r = Ptr b /\ F !! b = None /\ length v' = n /\ here C S L (<[b := v']> F) w').
Proof.
  intros Hp Hw Hz. unfold realloc_or_cleanup, pdnsd_realloc. destruct p as [| |b]; [done| |]; cbn [apart hput] in *.
  - io_with iruns_malloc; [done|]. intros r w1 [(-> & Hn & Hw1)|(b & -> & Hb & Hw1)].
    + apply iruns_bind, iruns_ret, iruns_ret. by left.
    + io_ret. right. exists b, (replicate n 0%Z). rewrite length_replicate. done.
  - apply iruns_bind. io_with iruns_load; [done|apply lookup_insert_eq|]. intros m w1 [-> Hw1].
    replace (rf && (n =? 0)) with false by (symmetry; destruct rf; [|done]; destruct Hz as [?|[?|?]]; [done|by apply Nat.eqb_neq|done]).
    io_with iruns_io_malloc; [done|]. intros ok w2 [Hpl Hw2]. destruct ok; cbn match.
    + apply iruns_bind, iruns_mod, iruns_ret, iruns_ret. right. eexists b, _. split; [done|]. split; [done|].
      destruct Hw2 as (? & ? & ? & HH). split; [|unfold here; cbn; rewrite HH, insert_insert_eq; done].
      rewrite length_app, length_take, length_replicate. lia.
    + io_ret. io_with iruns_free; [done|apply lookup_insert_eq|]. intros _ w3 Hw3. rewrite delete_insert_id in Hw3 by done.
      io_ret. left. splits; [done| |done]. intros H'. by apply Hpl in H'.
Qed.
End Here.

(** ** System calls *)

Definition kernel_ok (K : kernel) : Prop :=
  (forall t n l, k_read K t n = inr l -> bytes l) /\ (forall t n l, k_recv K t n = inr l -> bytes l).

Section Calls.
Context (C : cache) (K : kernel).

Lemma iruns_sock S L H fd c w : here C S L H w -> S !! fd = Some c -> iruns (the_sock fd) w (fun r w' => r = c /\ here C S L H w' /\ ticks w' = ticks w).
Proof.
  intros Hw Hc. unfold the_sock. apply iruns_bind, iruns_get. destruct Hw as (? & HS & ? & ?). eapply iruns_lift; [rewrite HS; exact Hc|]. done.
Qed.

Lemma iruns_put S L H fd c w : here C S L H w -> iruns (put_sock fd c) w (fun _ w' => here C (<[fd := c]> S) L H w').
Proof. intros (? & HS & ? & ?). apply iruns_mod. unfold here. cbn. by rewrite HS. Qed.

Definition new_conn (tp : sock_type) : conn := {| c_type := tp; c_port := None; c_peer := None; c_sent := []; c_recv := [] |}.

Lemma iruns_socket tp S L H w : here C S L H w ->
  iruns (socket K tp) w (fun r w' => match r with
    | None => here C S L H w'
    | Some fd => S !! fd = None /\ here C (<[fd := new_conn tp]> S) L H w'
    end).
Proof.
  intros Hw. unfold socket. io_with iruns_tick; [done|]. intros t w1 (-> & _ & Hw1). destruct (k_socket K (ticks w)).
  - by io_ret.
  - apply iruns_bind, iruns_get. assert (Hfr : S !! fresh (dom (socks w1)) = None).
    { destruct Hw1 as (_ & <- & _). apply not_elem_of_dom, is_fresh. }
    io_with iruns_put; [done|]. intros _ w2 Hw2. by io_ret.
Qed.

Lemma iruns_bind_call S L H fd c port w : here C S L H w -> S !! fd = Some c ->
  iruns (bind K fd port) w (fun r w' => r = k_bind K (ticks w) port /\
    here C (match r with None => <[fd := bound port c]> S | Some _ => S end) L H w').
Proof.
  intros Hw Hc. unfold bind. io_with iruns_sock; [done|done|]. intros c' w1 (-> & Hw1 & Ht).
  io_with iruns_tick; [done|]. intros t w2 (-> & _ & Hw2). rewrite Ht. destruct (k_bind K (ticks w) port) as [e|].
  - by io_ret.
  - io_with iruns_put; [done|]. intros _ w3 Hw3. by io_ret.
Qed.

Lemma iruns_fcntl S L H fd c w : here C S L H w -> S !! fd = Some c ->
  iruns (fcntl K fd) w (fun r w' => (exists t, r = k_fcntl K t) /\ here C S L H w').
Proof.
  intros Hw Hc. unfold fcntl. io_with iruns_sock; [done|done|]. intros c' w1 (-> & Hw1 & _).
  io_with iruns_tick; [done|]. intros t w2 (-> & _ & Hw2). io_ret. by split; [eexists|].
Qed.

Lemma iruns_connect S L H fd c a w : here C S L H w -> S !! fd = Some c ->
  iruns (connect K fd a) w (fun r w' => (exists t, r = k_connect K t a) /\ here C (<[fd := connected a c]> S) L H w').
Proof.
  intros Hw Hc. unfold connect. io_with iruns_sock; [done|done|]. intros c' w1 (-> & Hw1 & _).
  io_with iruns_tick; [done|]. intros t w2 (-> & _ & Hw2). io_with iruns_put; [done|]. intros _ w3 Hw3. io_ret. by split; [eexists|].
Qed.

Lemma iruns_write S L H fd c data w : here C S L H w -> S !! fd = Some c ->
  iruns (write K fd data) w (fun r w' => match r with
    | inl e => (exists t, k_write K t (length data) = inl e) /\ here C S L H w'
    | inr n => n <= length data /\ (n = 0 -> data = [] \/ exists t, k_write K t (length data) = inr 0) /\
        here C (<[fd := sent (take n data) c]> S) L H w'
    end).
Proof.
  intros Hw Hc. unfold write. io_with iruns_sock; [done|done|]. intros c' w1 (-> & Hw1 & _).
  io_with iruns_tick; [done|]. intros t w2 (-> & _ & Hw2). destruct (k_write K (ticks w1) (length data)) as [e|n] eqn:E; cbv zeta.
  - io_ret. by split; [eexists|].
  - io_with iruns_put; [done|]. intros _ w3 Hw3. io_ret. splits; [lia| |done]. intros H0.
    destruct n; [right; by eexists|]. left. apply nil_length_inv. lia.
Qed.

Lemma iruns_send S L H fd c data w : here C S L H w -> S !! fd = Some c ->
  iruns (send K fd data) w (fun r w' => here C (match r with None => <[fd := sent data c]> S | Some _ => S end) L H w').
Proof.
  intros Hw Hc. unfold send. io_with iruns_sock; [done|done|]. intros c' w1 (-> & Hw1 & _).
  io_with iruns_tick; [done|]. intros t w2 (-> & _ & Hw2). destruct (k_send K (ticks w1)) as [e|]; [by io_ret|].
  io_with iruns_put; [done|]. intros _ w3 Hw3. by io_ret.
Qed.

Lemma iruns_read S L H fd c n w : kernel_ok K -> here C S L H w -> S !! fd = Some c ->
  iruns (read K fd n) w (fun r w' => match r with
    | inl e => (exists t, k_read K t n = inl e) /\ here C S L H w'
    | inr l => length l <= n /\ bytes l /\ (exists t l', k_read K t n = inr l' /\ l = take n l') /\ here C (<[fd := received l c]> S) L H w'
    end).
Proof.
  intros [Hk _] Hw Hc. unfold read. io_with iruns_sock; [done|done|]. intros c' w1 (-> & Hw1 & _).
  io_with iruns_tick; [done|]. intros t w2 (-> & _ & Hw2). destruct (k_read K (ticks w1) n) as [e|l] eqn:E.
  - io_ret. by split; [eexists|].
  - io_with iruns_put; [done|]. intros _ w3 Hw3. io_ret. splits; [rewrite length_take; lia|apply Forall_take; eauto|by eexists _, _|done].
Qed.

Lemma iruns_recv S L H fd c n w : kernel_ok K -> here C S L H w -> S !! fd = Some c ->
  iruns (recv K fd n) w (fun r w' => match r with
    | inl e => here C S L H w'
    | inr l => length l <= n /\ bytes l /\ here C (<[fd := received l c]> S) L H w'
    end).
Proof.
  intros [_ Hk] Hw Hc. unfold recv. io_with iruns_sock; [done|done|]. intros c' w1 (-> & Hw1 & _).
  io_with iruns_tick; [done|]. intros t w2 (-> & _ & Hw2). destruct (k_recv K (ticks w1) n) as [e|l] eqn:E; [by io_ret|].
  io_with iruns_put; [done|]. intros _ w3 Hw3. io_ret. splits; [rewrite length_take; lia|apply Forall_take; eauto|done].
Qed.

Lemma iruns_close S L H fd c w : here C S L H w -> S !! fd = Some c ->
  iruns (close fd) w (fun _ w' => here C (delete fd S) (c :: L) H w').
Proof.
  intros Hw Hc. unfold close. io_with iruns_sock; [done|done|]. intros c' w1 (-> & (? & HS & HL & HH) & _).
  apply iruns_bind, iruns_mod, iruns_mod. unfold here. cbn. by rewrite HS, HL.
Qed.

Lemma iruns_rand S L H w : here C S L H w ->
  iruns (get_rand16 K) w (fun r w' => r = Z.land (k_rand16 K (ticks w)) 0xffff /\ (0 <= r < 65536)%Z /\ ticks w' = Datatypes.S (ticks w) /\ here C S L H w').
Proof.
  intros Hw. unfold get_rand16. io_with iruns_tick; [done|]. intros t w1 (-> & Ht & Hw1). io_ret. splits; try done.
  all: change 0xffff%Z with (Z.ones 16); rewrite Z.land_ones by lia; pose proof (Z.mod_pos_bound (k_rand16 K (ticks w)) (2 ^ 16)); lia.
Qed.

Lemma iruns_test S L H a up w : here C S L H w -> iruns (sched_server_test a up) w (fun _ w' => here C S L H w').
Proof. intros (? & ? & ? & ?). apply iruns_mod. by unfold here. Qed.
End Calls.

(** ** [bind_socket] *)

Lemma pow2_from_spec range fuel : forall k, (0 <= k)%Z -> (range <= 2 ^ (k + Z.of_nat fuel))%Z ->
  exists j, pow2_from (S fuel) (2 ^ k) range = Some (2 ^ j)%Z /\ (k <= j)%Z /\ (range <= 2 ^ j)%Z /\ (j = k \/ 2 ^ j < 2 * range)%Z.
Proof.
  induction fuel as [|fu IH]; intros k Hk Hr; cbn [pow2_from]; destruct (2 ^ k <? range)%Z eqn:E; boolp.
  - rewrite Z.add_0_r in Hr. lia.
  - exists k. splits; auto; lia.
  - rewrite Z.shiftl_mul_pow2 by lia. change (2 ^ 1)%Z with 2%Z. replace (2 ^ k * 2)%Z with (2 ^ (k + 1))%Z by (rewrite Z.pow_add_r by lia; done).
    destruct (IH (k + 1)%Z) as (j & Ej & Hj & Hl & Hu); [lia|replace (k + 1 + Z.of_nat fu)%Z with (k + Z.of_nat (S fu))%Z by lia; done|].
    exists j. splits; [exact Ej|lia|done|]. right. destruct Hu as [->|?]; [|done]. rewrite Z.pow_add_r by lia. lia.
  - exists k. splits; auto; lia.
Qed.

(** The mask leaves all the numbers below [range], and fewer than [range] others unless all 16
    bits are needed. *)
Lemma port_mask_spec range : (0 < range <= 0x10000)%Z ->
  exists j, port_mask range = Some (2 ^ j - 1)%Z /\ (0 <= j <= 16)%Z /\ (range <= 2 ^ j < 2 * range)%Z.
Proof.
  intros Hr. unfold port_mask. destruct (range <=? 0x8000)%Z eqn:E; boolp.
  - destruct (pow2_from_spec range 16 0) as (j & Ej & Hj & Hl & Hu); [lia|change (2 ^ (0 + Z.of_nat 16))%Z with 65536%Z; lia|].
    exists j. change (2 ^ 0)%Z with 1%Z in Ej. rewrite Ej. assert (2 ^ j < 2 * range)%Z by (destruct Hu as [->|?]; lia). splits; try done.
    destruct (Z_lt_le_dec 16 j) as [H16|?]; [|lia]. assert (2 ^ 17 <= 2 ^ j)%Z by (apply Z.pow_le_mono_r; lia). change (2 ^ 17)%Z with 131072%Z in *. lia.
  - exists 16%Z. change (2 ^ 16)%Z with 65536%Z. splits; [done|lia..].
Qed.

Section BindSocket.
Context (C : cache) (K : kernel).

(** Among any [MAXTRY1] random numbers in a row there is one that can be used. *)
Definition fair_rand (range m : Z) : Prop :=
  forall t, exists i, i < MAXTRY1 /\ (Z.land (Z.land (k_rand16 K (t + i)) 0xffff) m < range)%Z.

Lemma iruns_rand_below S L H range j tries : (0 <= j)%Z -> forall w, here C S L H w ->
  iruns (rand_below K tries range (2 ^ j - 1)) w (fun r w' => here C S L H w' /\
    match r with
    | Some p => (0 <= p < range)%Z
    | None => forall i, i < tries -> (range <= Z.land (Z.land (k_rand16 K (ticks w + i)) 0xffff) (2 ^ j - 1))%Z
    end).
Proof.
  intros Hj. induction tries as [|n IH]; intros w Hw; cbn [rand_below]; [apply iruns_ret; split; [done|lia]|].
  io_with iruns_rand; [done|]. intros r w1 (-> & Hr & Ht & Hw1). cbv zeta.
  destruct (Z.land _ (2 ^ j - 1) <? range)%Z eqn:E; boolp.
  - io_ret. split; [done|]. split; [|done]. apply Z.land_nonneg. left. lia.
  - eapply iruns_weaken; [by apply IH|]. cbn beta. intros [p|] w2 [Hw2 H2]; split; try done.
    intros [|i] Hi; [by rewrite Nat.add_0_r|]. specialize (H2 i ltac:(lia)). rewrite Ht in H2. by replace (ticks w + Datatypes.S i) with (Datatypes.S (ticks w) + i) by lia.
Qed.

Context (a b : Z) (Ha : (0 <= a)%Z) (Hb : (b <= 65535)%Z) (Hab : (a <= b)%Z).
Let range := (b - a + 1)%Z.
Context (j : Z) (Hj : (0 <= j)%Z).

(** A port that is never in use, while the other ports give no other errors. *)
Definition free_port (p : Z) : Prop :=
  (a <= p <= b)%Z /\ (forall t, k_bind K t p = None) /\
  (forall t q e, k_bind K t q = Some e -> e = EADDRINUSE \/ e = EADDRNOTAVAIL) /\ fair_rand range (2 ^ j - 1).

Definition port_at (pstart i : Z) : Z := (a + (pstart - a + i) mod range)%Z.

Lemma port_at_bounds pstart i : (a <= port_at pstart i <= b)%Z.
Proof. unfold port_at. pose proof (Z.mod_pos_bound (pstart - a + i) range). unfold range in *. lia. Qed.

Lemma port_at_next pstart i : (a <= pstart <= b)%Z -> (0 <= i)%Z ->
  (if (b <? port_at pstart i + 1)%Z then a else (port_at pstart i + 1)%Z) = port_at pstart (i + 1).
Proof.
  intros Hp Hi. unfold port_at. assert (Hr : (0 < range)%Z) by (unfold range; lia).
  rewrite Z.add_assoc, <- (Z.add_mod_idemp_l (pstart - a + i) 1) by lia. set (x := ((pstart - a + i) mod range)%Z).
  assert (Hx : (0 <= x < range)%Z) by (apply Z.mod_pos_bound; lia).
  destruct (b <? a + x + 1)%Z eqn:E; boolp.
  - replace (x + 1)%Z with range by (unfold range in *; lia). rewrite Z.mod_same by lia. lia.
  - rewrite Z.mod_small by (unfold range in *; lia). lia.
Qed.

Lemma port_at_round pstart i : (a <= pstart <= b)%Z -> (0 <= i < range)%Z -> port_at pstart (i + 1) = pstart -> (i + 1 = range)%Z.
Proof.
  intros Hp Hi E. unfold port_at in E. destruct (Z_lt_le_dec (i + 1) range) as [Hlt|]; [|lia].
  assert (Hr : (0 < range)%Z) by (unfold range; lia).
  destruct (Z_lt_le_dec (pstart - a + (i + 1)) range).
  - rewrite Z.mod_small in E by lia. lia.
  - rewrite <- (Z.mod_add _ (-1)%Z) in E by lia. rewrite Z.mod_small in E by (unfold range in *; lia). unfold range in *. lia.
Qed.

Lemma port_at_hits pstart p : (a <= p <= b)%Z -> exists i, (0 <= i < range)%Z /\ port_at pstart i = p.
Proof.
  intros Hp. assert (Hr : (0 < range)%Z) by (unfold range; lia). exists ((p - pstart) mod range)%Z. split; [by apply Z.mod_pos_bound|].
  unfold port_at. rewrite Z.add_mod_idemp_r by lia. replace (pstart - a + (p - pstart))%Z with (p - a)%Z by lia.
  rewrite Z.mod_small by (unfold range; lia). lia.
Qed.

Lemma port_at_0 pstart : (a <= pstart <= b)%Z -> port_at pstart 0 = pstart.
Proof. intros H. unfold port_at. rewrite Z.add_0_r, Z.mod_small by (unfold range; lia). lia. Qed.

(** What the search does to the socket [fd]. *)
Definition binds (S : gmap positive conn) (L : list conn) (H : gmap positive (list Z)) (fd : positive) (c : conn) (r : bool) (w : world) : Prop :=
  if r then exists p, (a <= p <= b)%Z /\ here C (<[fd := bound p c]> S) L H w else here C S L H w /\ forall p, ~ free_port p.

Lemma iruns_bind_port S L H fd c fuel : S !! fd = Some c -> forall try2 pstart i w, here C S L H w ->
  (a <= pstart <= b)%Z -> (0 <= i < range)%Z -> (0 <= try2)%Z -> (i = 0 \/ range * 2 <= try2)%Z ->
  (forall k p, (0 <= k < i)%Z -> free_port p -> port_at pstart k <> p) ->
  (Z.max 0 (range * 2 - 1 - try2) + range - i <= Z.of_nat fuel)%Z ->
  iruns (bind_port K fuel fd a b range (2 ^ j - 1) (range * 2) try2 (port_at pstart i) pstart) w (binds S L H fd c).
Proof.
  intros Hc. induction fuel as [|fu IH]; intros try2 pstart i w Hw Hp Hi Ht0 Ht Hno Hf; [unfold range in *; lia|].
  cbn [bind_port]. pose proof (port_at_bounds pstart i) as Hpi.
  assert (Eu : u16 (port_at pstart i) = port_at pstart i) by (apply Z.mod_small; lia). rewrite Eu.
  io_with iruns_bind_call; [done|done|]. intros r w1 [Er Hw1]. destruct r as [e|]; [|io_ret; by eexists].
  case_bool_decide as He.
  { io_ret. split; [done|]. intros p (_ & _ & Hf2 & _). destruct (Hf2 _ _ _ (eq_sym Er)); tauto. }
  assert (Hno' : forall k p, (0 <= k < i + 1)%Z -> free_port p -> port_at pstart k <> p).
  { intros k p Hk Hfp. destruct (decide (k = i)) as [->|]; [|by apply Hno; [lia|]]. intros <-. destruct Hfp as (_ & Hb1 & _). by rewrite Hb1 in Er. }
  cbv zeta. destruct (range * 2 <=? try2 + 1)%Z eqn:E2; boolp.
  - rewrite port_at_next by lia. destruct (port_at pstart (i + 1) =? pstart)%Z eqn:E3; boolp.
    + io_ret. split; [done|]. intros p Hfp. apply port_at_round in E3; [|done|done].
      destruct (port_at_hits pstart p) as (k & Hk & Ek); [apply Hfp|]. apply (Hno' k p); [lia|done|done].
    + apply IH; [done|done| |lia|lia|done|lia].
      destruct (decide (i + 1 = range)%Z) as [E4|]; [|lia]. exfalso. apply E3. rewrite E4. unfold port_at.
      rewrite <- Z.add_mod_idemp_r, Z.mod_same, Z.add_0_r, Z.mod_small by (unfold range; lia). lia.
  - apply iruns_bind. eapply iruns_weaken; [by apply iruns_rand_below|]. cbn beta. intros [p|] w2 [Hw2 Hr].
    + rewrite <- (port_at_0 (p + a)) at 1 by (unfold range in *; lia).
      apply IH; [done|unfold range in *; lia|unfold range in *; lia|lia|by left|intros; lia|unfold range in *; lia].
    + io_ret. split; [done|]. intros p (_ & _ & _ & Hfair). destruct (Hfair (ticks w1)) as (k & Hk & Hlt). specialize (Hr k Hk). lia.
Qed.
End BindSocket.

(** A socket can be bound: any port will do, or there is a port of the range that is free, and
    random numbers are not stuck above the range. *)
Definition can_bind (K : kernel) (a b : Z) : Prop :=
  (a < 0)%Z \/ exists p m, port_mask (b - a + 1) = Some m /\ (a <= p <= b)%Z /\ (forall t, k_bind K t p = None) /\
    (forall t q e, k_bind K t q = Some e -> e = EADDRINUSE \/ e = EADDRNOTAVAIL) /\ fair_rand K (b - a + 1) m.

(** The port that a socket is bound to. *)
Definition port_ok (a b : Z) (p : option Z) : Prop :=
  if (0 <=? a)%Z then exists x, p = Some x /\ (a <= x <= b)%Z else p = None.

Lemma iruns_bind_socket C K a b S L H fd c w : (b <= 65535)%Z -> here C S L H w -> S !! fd = Some c -> c_port c = None ->
  iruns (bind_socket K a b fd) w (fun r w' =>
    if r then exists c', port_ok a b (c_port c') /\ c_type c' = c_type c /\ c_sent c' = c_sent c /\ c_recv c' = c_recv c /\ here C (<[fd := c']> S) L H w'
    else here C S L H w' /\ ~ can_bind K a b).
Proof.
  intros Hb Hw Hc Hcp. unfold bind_socket, port_ok. destruct (0 <=? a)%Z eqn:Ea; boolp.
  2: { io_ret. exists c. splits; try done. by rewrite insert_id. }
  cbv zeta. destruct ((b - a + 1 <=? 0)%Z || (0x10000 <? b - a + 1)%Z) eqn:E.
  { io_ret. split; [done|]. apply orb_true_iff in E as [E|E]; boolp; intros [?|(p & m & _ & Hp & _)]; lia. }
  boolp. destruct (port_mask_spec (b - a + 1)) as (j & Em & Hj & _); [lia|]. io_lift; [exact Em|].
  assert (Hno : (forall p, ~ free_port K a b j p) -> ~ can_bind K a b).
  { intros Hn [?|(p & m & Em' & Hp)]; [lia|]. rewrite Em in Em'. injection Em' as <-. by apply (Hn p). }
  apply iruns_bind. eapply iruns_weaken; [apply iruns_rand_below; [lia|done]|]. cbn beta. intros [p|] w1 [Hw1 Hr].
  - assert (Hpp : (a <= p + a <= b)%Z) by lia. rewrite <- (port_at_0 a b (p + a)) at 1 by done.
    eapply iruns_weaken; [apply (iruns_bind_port C K a b Ea Hb ltac:(lia) j ltac:(lia) S L H fd c); try done; try lia|].
    cbn beta. intros [] w2 H2; cbn in H2; [|destruct H2; auto]. destruct H2 as (q & Hq & Hw2). exists (bound q c). splits; try done. by eexists.
  - io_ret. split; [done|]. apply Hno. intros q (_ & _ & _ & Hf). destruct (Hf (ticks w)) as (k & Hk & Hlt). specialize (Hr k Hk). lia.
Qed.
