(* ===== verification/QuerySm.v ===== *)
(** Executing a query: the state machine [p_query_sm], [p_exec_query] and [p_cancel_query] of
    [pdnsd/src/dns_query.c], and the operations of its callers on a query.

    A query is the structure [query_stat_t]; the fields that only matter for the use of the
    reply are in [q_stat], see [Exec].  Messages are blocks of the heap.  The state machine is
    left by [return], by [break] out of the [switch], or through the labels behind the code for
    TCP; these are the constructors of [leave].  The addresses are IPv4 addresses, since the
    program is built without IPv6. *)
From S2P Require Import Prelude Names DnsName RrTypes HashTab RrList Cent Cache Answer Query Reply Exec Net.

(** ** Data *)

Inductive qstate :=
  | QS_INITIAL | QS_TCPINITIAL | QS_TCPWRITE | QS_TCPREAD | QS_UDPINITIAL | QS_UDPRECEIVE | QS_CANCELED | QS_DONE.

#[export] Instance qstate_eq_dec : EqDecision qstate.
Proof. solve_decision. Defined.

(** [query_stat_t].  No socket is -1 or a value that was never set; the error number is none
    while it is 0. *)
Record query := {
  q_a : sockaddr; q_timeout : Z; q_state : qstate; q_qm : const; q_edns_query : bool; q_needs_testing : Z; q_stat : query_stat;
  q_sock : option positive; q_transl : nat; q_recvl : nat; q_iolen : nat; q_msg : pointer; q_recvbuf : pointer; q_myrid : Z;
  q_s_errno : option errno }.

Definition q_set_state v st := {| q_a := q_a st; q_timeout := q_timeout st; q_state := v; q_qm := q_qm st; q_edns_query := q_edns_query st; q_needs_testing := q_needs_testing st; q_stat := q_stat st;
  q_sock := q_sock st; q_transl := q_transl st; q_recvl := q_recvl st; q_iolen := q_iolen st; q_msg := q_msg st; q_recvbuf := q_recvbuf st; q_myrid := q_myrid st; q_s_errno := q_s_errno st |}.
Definition q_set_qm v st := {| q_a := q_a st; q_timeout := q_timeout st; q_state := q_state st; q_qm := v; q_edns_query := q_edns_query st; q_needs_testing := q_needs_testing st; q_stat := q_stat st;
  q_sock := q_sock st; q_transl := q_transl st; q_recvl := q_recvl st; q_iolen := q_iolen st; q_msg := q_msg st; q_recvbuf := q_recvbuf st; q_myrid := q_myrid st; q_s_errno := q_s_errno st |}.
Definition q_set_edns_query v st := {| q_a := q_a st; q_timeout := q_timeout st; q_state := q_state st; q_qm := q_qm st; q_edns_query := v; q_needs_testing := q_needs_testing st; q_stat := q_stat st;
  q_sock := q_sock st; q_transl := q_transl st; q_recvl := q_recvl st; q_iolen := q_iolen st; q_msg := q_msg st; q_recvbuf := q_recvbuf st; q_myrid := q_myrid st; q_s_errno := q_s_errno st |}.
Definition q_set_needs_testing v st := {| q_a := q_a st; q_timeout := q_timeout st; q_state := q_state st; q_qm := q_qm st; q_edns_query := q_edns_query st; q_needs_testing := v; q_stat := q_stat st;
  q_sock := q_sock st; q_transl := q_transl st; q_recvl := q_recvl st; q_iolen := q_iolen st; q_msg := q_msg st; q_recvbuf := q_recvbuf st; q_myrid := q_myrid st; q_s_errno := q_s_errno st |}.
Definition q_set_stat v st := {| q_a := q_a st; q_timeout := q_timeout st; q_state := q_state st; q_qm := q_qm st; q_edns_query := q_edns_query st; q_needs_testing := q_needs_testing st; q_stat := v;
  q_sock := q_sock st; q_transl := q_transl st; q_recvl := q_recvl st; q_iolen := q_iolen st; q_msg := q_msg st; q_recvbuf := q_recvbuf st; q_myrid := q_myrid st; q_s_errno := q_s_errno st |}.
Definition q_set_sock v st := {| q_a := q_a st; q_timeout := q_timeout st; q_state := q_state st; q_qm := q_qm st; q_edns_query := q_edns_query st; q_needs_testing := q_needs_testing st; q_stat := q_stat st;
  q_sock := v; q_transl := q_transl st; q_recvl := q_recvl st; q_iolen := q_iolen st; q_msg := q_msg st; q_recvbuf := q_recvbuf st; q_myrid := q_myrid st; q_s_errno := q_s_errno st |}.
Definition q_set_transl v st := {| q_a := q_a st; q_timeout := q_timeout st; q_state := q_state st; q_qm := q_qm st; q_edns_query := q_edns_query st; q_needs_testing := q_needs_testing st; q_stat := q_stat st;
  q_sock := q_sock st; q_transl := v; q_recvl := q_recvl st; q_iolen := q_iolen st; q_msg := q_msg st; q_recvbuf := q_recvbuf st; q_myrid := q_myrid st; q_s_errno := q_s_errno st |}.
Definition q_set_recvl v st := {| q_a := q_a st; q_timeout := q_timeout st; q_state := q_state st; q_qm := q_qm st; q_edns_query := q_edns_query st; q_needs_testing := q_needs_testing st; q_stat := q_stat st;
  q_sock := q_sock st; q_transl := q_transl st; q_recvl := v; q_iolen := q_iolen st; q_msg := q_msg st; q_recvbuf := q_recvbuf st; q_myrid := q_myrid st; q_s_errno := q_s_errno st |}.
Definition q_set_iolen v st := {| q_a := q_a st; q_timeout := q_timeout st; q_state := q_state st; q_qm := q_qm st; q_edns_query := q_edns_query st; q_needs_testing := q_needs_testing st; q_stat := q_stat st;
  q_sock := q_sock st; q_transl := q_transl st; q_recvl := q_recvl st; q_iolen := v; q_msg := q_msg st; q_recvbuf := q_recvbuf st; q_myrid := q_myrid st; q_s_errno := q_s_errno st |}.
Definition q_set_msg v st := {| q_a := q_a st; q_timeout := q_timeout st; q_state := q_state st; q_qm := q_qm st; q_edns_query := q_edns_query st; q_needs_testing := q_needs_testing st; q_stat := q_stat st;
  q_sock := q_sock st; q_transl := q_transl st; q_recvl := q_recvl st; q_iolen := q_iolen st; q_msg := v; q_recvbuf := q_recvbuf st; q_myrid := q_myrid st; q_s_errno := q_s_errno st |}.
Definition q_set_recvbuf v st := {| q_a := q_a st; q_timeout := q_timeout st; q_state := q_state st; q_qm := q_qm st; q_edns_query := q_edns_query st; q_needs_testing := q_needs_testing st; q_stat := q_stat st;
  q_sock := q_sock st; q_transl := q_transl st; q_recvl := q_recvl st; q_iolen := q_iolen st; q_msg := q_msg st; q_recvbuf := v; q_myrid := q_myrid st; q_s_errno := q_s_errno st |}.
Definition q_set_myrid v st := {| q_a := q_a st; q_timeout := q_timeout st; q_state := q_state st; q_qm := q_qm st; q_edns_query := q_edns_query st; q_needs_testing := q_needs_testing st; q_stat := q_stat st;
  q_sock := q_sock st; q_transl := q_transl st; q_recvl := q_recvl st; q_iolen := q_iolen st; q_msg := q_msg st; q_recvbuf := q_recvbuf st; q_myrid := v; q_s_errno := q_s_errno st |}.
Definition q_set_s_errno v st := {| q_a := q_a st; q_timeout := q_timeout st; q_state := q_state st; q_qm := q_qm st; q_edns_query := q_edns_query st; q_needs_testing := q_needs_testing st; q_stat := q_stat st;
  q_sock := q_sock st; q_transl := q_transl st; q_recvl := q_recvl st; q_iolen := q_iolen st; q_msg := q_msg st; q_recvbuf := q_recvbuf st; q_myrid := q_myrid st; q_s_errno := v |}.

Definition RC_REFUSED : Z := 5.

(** [USE_UDP]. *)
Definition use_udp (st : query) : bool := bool_decide (q_qm st = UDP_ONLY) || bool_decide (q_qm st = UDP_TCP).

(** Options of the configuration that are used here. *)
Record net_conf := { query_port_start : Z; query_port_end : Z; udpbufsize : nat }.

(** How the [switch] of [p_query_sm] is left. *)
Inductive leave :=
  | Return (rv : Z) (st : query)
  | Break (retval : Z) (st : query)
  | Error_receiv_data (e : option errno) (st : query)
  | Tcp_failed (st : query).

Definition tryIO {A B} (m : IO (leave + A)) (k : A -> IO (leave + B)) : IO (leave + B) :=
  r ← m;
  match r with
  | inl e => mret (inl e)
  | inr a => k a
  end.

Definition leaves {A} (e : leave) : IO (leave + A) := mret (inl e).
Definition goes {A} (a : A) : IO (leave + A) := mret (inr a).

Section Sm.
Context (K : kernel) (realloc_frees : bool) (conf : net_conf).

Definition close_sock (st : query) : IO unit := fd ← liftIO (q_sock st); close fd.

(** [st->msg->hdr.id=htons(st->myrid)] for a new random number. *)
Definition new_id (st : query) : IO query :=
  r ← get_rand16 K;
  let st := q_set_myrid r st in
  m ← load (q_msg st);
  m ← liftIO (wr_bytes m dnsmsghdroffset (put16 (q_myrid st)));
  _ ← store (q_msg st) m;
  mret st.

Definition switch_to_udp (st : query) : IO query :=
  st ← new_id (q_set_qm UDP_ONLY st);
  mret (q_set_state QS_UDPINITIAL st).

Definition switch_to_tcp (st : query) : query :=
  q_set_stat (qs_set_failed 0 (q_stat st)) (q_set_state QS_INITIAL (q_set_qm TCP_ONLY st)).

Definition tentative_tcp_query (st : query) : bool :=
  bool_decide (q_qm st = TCP_UDP) &&
  (bool_decide (q_state st = QS_TCPWRITE) || (bool_decide (q_state st = QS_TCPREAD) && (q_iolen st =? 0))).

(** *** UDP *)

Definition sm_udp_initial (st : query) : IO (leave + unit) :=
  s ← socket K SOCK_DGRAM;
  let st := q_set_sock s st in
  match s with
  | None => leaves (Break RC_SERVFAIL st)
  | Some fd =>
      ok ← bind_socket K (query_port_start conf) (query_port_end conf) fd;
      if negb ok then _ ← close fd; leaves (Break RC_SERVFAIL st)
      else
        r ← connect K fd (q_a st);
        match r with
        | Some e =>
            let st := if bool_decide (e = ECONNREFUSED) then q_set_s_errno (Some e) st else st in
            _ ← close fd;
            leaves (Break RC_SERVFAIL st)
        | None =>
            m ← load (q_msg st);
            b ← liftIO (rd_bytes m dnsmsghdroffset (q_transl st));
            r ← send K fd b;
            match r with
            | Some e => _ ← close fd; leaves (Break RC_SERVFAIL (q_set_s_errno (Some e) st))
            | None => leaves (Return (-1) (q_set_state QS_UDPRECEIVE st))
            end
        end
  end.

Definition sm_udp_receive (st : query) : IO (leave + unit) :=
  fd ← liftIO (q_sock st);
  let bufsize := if q_edns_query st then udpbufsize conf else Z.to_nat UDP_BUFSIZE in
  p ← realloc_or_cleanup realloc_frees (q_recvbuf st) bufsize;
  let st := q_set_recvbuf p st in
  match p with
  | Null => _ ← close fd; leaves (Break RC_FATALERR st)
  | _ =>
      r ← recv K fd bufsize;
      match r with
      | inl e => _ ← close fd; leaves (Break RC_SERVFAIL (q_set_s_errno (Some e) st))
      | inr l =>
          m ← load p;
          m ← liftIO (wr_bytes m 0 l);
          _ ← store p m;
          let st := q_set_recvl (Z.to_nat (u16 (Z.of_nat (length l)))) st in
          bad ← (if (q_recvl st <? sizeof_dns_hdr_t) then mret true
                 else id ← liftIO (GETINT16 m 0); mret (negb (id =? q_myrid st)%Z));
          if (bad : bool) then leaves (Return (-1) (q_set_state QS_UDPRECEIVE st))
          else _ ← close fd; leaves (Return RC_OK (q_set_state QS_DONE st))
      end
  end.

(** *** TCP *)

Definition sm_tcp_initial (st : query) : IO (leave + query) :=
  s ← socket K SOCK_STREAM;
  let st := q_set_sock s st in
  match s with
  | None => leaves (Break RC_SERVFAIL st)
  | Some fd =>
      ok ← bind_socket K (query_port_start conf) (query_port_end conf) fd;
      if negb ok then _ ← close fd; leaves (Break RC_SERVFAIL st)
      else
        r ← fcntl K fd;
        r ← match r with Some e => mret (Some e) | None => fcntl K fd end;
        match r with
        | Some _ => _ ← close fd; leaves (Break RC_SERVFAIL st)
        | None =>
            let st := q_set_iolen 0 st in
            r ← connect K fd (q_a st);
            match r with
            | Some e =>
                if bool_decide (e = EINPROGRESS \/ e = EPIPE) then leaves (Return (-1) (q_set_state QS_TCPWRITE st))
                else if bool_decide (e = ECONNREFUSED) then
                  _ ← close fd; leaves (Tcp_failed (q_set_s_errno (Some e) st))
                else _ ← close fd; leaves (Break RC_SERVFAIL st)
            | None => goes (q_set_state QS_TCPWRITE st)
            end
        end
  end.

Definition sm_tcp_write (st : query) : IO (leave + query) :=
  fd ← liftIO (q_sock st);
  let rem := dnsmsghdroffset + q_transl st - q_iolen st in
  tryIO (if (0 <? rem) then
           m ← load (q_msg st);
           b ← liftIO (rd_bytes m (q_iolen st) rem);
           r ← write K fd b;
           match r with
           | inl e =>
               if bool_decide (e = EWOULDBLOCK) then leaves (Return (-1) st)
               else
                 let st := q_set_s_errno (Some e) st in
                 _ ← close fd;
                 if (q_iolen st =? 0) && bool_decide (e = ECONNREFUSED \/ e = ECONNRESET \/ e = EPIPE) then leaves (Tcp_failed st)
                 else leaves (Break RC_SERVFAIL st)
           | inr rv =>
               let st := q_set_iolen (q_iolen st + rv) st in
               if (rv <? rem) then leaves (Return (-1) st) else goes st
           end
         else goes st) (fun st =>
  goes (q_set_iolen 0 (q_set_state QS_TCPREAD st))).

(** The length in front of the message. *)
Definition sm_tcp_length (st : query) : IO (leave + query) :=
  fd ← liftIO (q_sock st);
  if (q_iolen st =? 0) then
    r ← read K fd 2;
    match r with
    | inl e => if bool_decide (e = EWOULDBLOCK) then leaves (Return (-1) st) else leaves (Error_receiv_data (Some e) st)
    | inr l =>
        if negb (length l =? 2) then leaves (Error_receiv_data None st)
        else
          n ← liftIO (GETINT16 l 0);
          let st := q_set_recvl (Z.to_nat n) (q_set_iolen 2 st) in
          p ← realloc_or_cleanup realloc_frees (q_recvbuf st) (q_recvl st);
          let st := q_set_recvbuf p st in
          match p with
          | Null => _ ← close fd; leaves (Break RC_FATALERR st)
          | _ => goes st
          end
    end
  else goes st.

Definition sm_tcp_data (st : query) : IO (leave + unit) :=
  fd ← liftIO (q_sock st);
  let offset := q_iolen st - 2 in
  let rem := q_recvl st - offset in
  tryIO (if (0 <? rem) then
           r ← read K fd rem;
           match r with
           | inl e => if bool_decide (e = EWOULDBLOCK) then leaves (Return (-1) st) else leaves (Error_receiv_data (Some e) st)
           | inr [] => leaves (Error_receiv_data None st)
           | inr l =>
               m ← load (q_recvbuf st);
               m ← liftIO (wr_bytes m offset l);
               _ ← store (q_recvbuf st) m;
               let st := q_set_iolen (q_iolen st + length l) st in
               if (length l <? rem) then leaves (Return (-1) st) else goes st
           end
         else goes st) (fun st =>
  _ ← close fd;
  leaves (Return RC_OK (q_set_state QS_DONE st))).

Definition sm_tcp_read (st : query) : IO (leave + unit) := tryIO (sm_tcp_length st) sm_tcp_data.

(** *** The machine *)

(** The [switch]. *)
Definition sm_switch (st : query) : IO (leave + unit) :=
  match q_state st with
  | QS_TCPINITIAL => tryIO (sm_tcp_initial st) (fun st => tryIO (sm_tcp_write st) sm_tcp_read)
  | QS_TCPWRITE => tryIO (sm_tcp_write st) sm_tcp_read
  | QS_TCPREAD => sm_tcp_read st
  | QS_UDPINITIAL => sm_udp_initial st
  | QS_UDPRECEIVE => sm_udp_receive st
  | _ => leaves (Break RC_SERVFAIL st)
  end.

(** The code behind the labels. *)
Definition sm_error (e : leave) : IO leave :=
  match e with
  | Error_receiv_data e st =>
      let st := match e with Some e => q_set_s_errno (Some e) st | None => st end in
      _ ← close_sock st;
      mret (Tcp_failed st)
  | _ => mret e
  end.

(** [p_query_sm].  The jump back to [tryagain] is taken at most once, since the method is
    then [UDP_ONLY]; the fuel counts the passes. *)
Fixpoint query_sm_loop (fuel : nat) (st : query) : IO (Z * query) :=
  match fuel with
  | O => liftIO None
  | S fu =>
      r ← sm_switch st;
      match r with
      | inr _ => liftIO None
      | inl e =>
          e ← sm_error e;
          match e with
          | Return rv st => mret (rv, st)
          | Break retval st => mret (retval, q_set_state QS_DONE st)
          | Tcp_failed st =>
              if bool_decide (q_qm st = TCP_UDP) then st ← switch_to_udp st; query_sm_loop fu st
              else mret (RC_SERVFAIL, q_set_state QS_DONE st)
          | Error_receiv_data _ _ => liftIO None
          end
      end
  end.

Definition p_query_sm (st : query) : IO (Z * query) := query_sm_loop 2 st.
End Sm.
