(* ===== verification/SmSpec.v ===== *)
(** The query state machine: what it holds in each state, and what went through its socket. *)
From S2P Require Import Prelude Names DnsName RrTypes HashTab RrList Cent CentSpec Cache Answer AnswerRr AnswerSet Query QueryDecode QuerySafe Reply ReplyData Exec Net NetSpec QuerySm.

(** ** The invariant *)

(** The block with the message [b]: the length that is sent over TCP, the message, and what is
    left behind it when the OPT record was taken off. *)
Definition msg_block (st : query) (b mb : list Z) : Prop :=
  exists slack, mb = put16 (Z.of_nat (length b)) ++ b ++ slack /\ q_transl st = length b /\ sizeof_dns_hdr_t <= length b /\ (Z.of_nat (length b) < 65536)%Z /\
    take 2 b = put16 (q_myrid st) /\ (0 <= q_myrid st < 65536)%Z.

(** The blocks of a query: its message and the buffer for the reply, beside the others [F]. *)
Definition owns (st : query) (F : gmap positive (list Z)) (b rb : list Z) (H : gmap positive (list Z)) : Prop :=
  exists i mb, q_msg st = Ptr i /\ F !! i = None /\ msg_block st b mb /\ apart (q_recvbuf st) (<[i := mb]> F) /\
    H = hput (q_recvbuf st) rb (<[i := mb]> F).

Section Waiting.
Context (conf : net_conf).

(** The socket of a query. *)
Definition own_sock (st : query) (c : conn) : Prop :=
  c_peer c = Some (q_a st) /\ port_ok (query_port_start conf) (query_port_end conf) (c_port c).

(** A query that waits for its socket [c]: what has been sent and received so far. *)
Definition waiting (st : query) (b rb : list Z) (c : conn) : Prop :=
  own_sock st c /\
  match q_state st with
  | QS_TCPWRITE => c_type c = SOCK_STREAM /\ c_recv c = [] /\ q_iolen st <= 2 + length b /\
      concat (c_sent c) = take (q_iolen st) (put16 (Z.of_nat (length b)) ++ b)
  | QS_TCPREAD => c_type c = SOCK_STREAM /\ concat (c_sent c) = put16 (Z.of_nat (length b)) ++ b /\
      if (q_iolen st =? 0) then c_recv c = []
      else 2 <= q_iolen st <= 2 + q_recvl st /\ (exists i, q_recvbuf st = Ptr i) /\ length rb = q_recvl st /\ (Z.of_nat (q_recvl st) < 65536)%Z /\
        bytes (take (q_iolen st - 2) rb) /\ concat (c_recv c) = put16 (Z.of_nat (q_recvl st)) ++ take (q_iolen st - 2) rb
  | QS_UDPRECEIVE => c_type c = SOCK_DGRAM /\ c_sent c = [b]
  | _ => False
  end.

(** The message [m] was received in reply to [b] over the socket [c]. *)
Definition exchange (st : query) (b m : list Z) (c : conn) : Prop :=
  own_sock st c /\
  match c_type c with
  | SOCK_STREAM => concat (c_sent c) = put16 (Z.of_nat (length b)) ++ b /\ concat (c_recv c) = put16 (Z.of_nat (length m)) ++ m
  | SOCK_DGRAM => c_sent c = [b] /\ exists ds, c_recv c = ds ++ [m]
  end.

(** What the machine leaves alone. *)
Definition kept (st st' : query) : Prop :=
  q_a st' = q_a st /\ q_timeout st' = q_timeout st /\ q_edns_query st' = q_edns_query st /\ q_needs_testing st' = q_needs_testing st /\
  q_stat st' = q_stat st /\ q_transl st' = q_transl st /\ q_msg st' = q_msg st /\
  (q_qm st' = q_qm st \/ (q_qm st = TCP_UDP /\ q_qm st' = UDP_ONLY)).

Lemma kept_query_refl st : kept st st.
Proof. unfold kept. splits; auto. Qed.

Lemma kept_query_trans a b c : kept a b -> kept b c -> kept a c.
Proof.
  intros (?&?&?&?&?&?&?&Hq) (?&?&?&?&?&?&?&Hq'). unfold kept. splits; try congruence.
  destruct Hq as [E|[E E']], Hq' as [E2|[E2 E2']]; rewrite ?E2, ?E; auto. all: right; split; congruence.
Qed.

(** The heap of a query in the middle of [p_query_sm], and the closed sockets. *)
Definition at_hand (C : cache) (S : gmap positive conn) (L : list conn) (F : gmap positive (list Z)) (st : query) (b rb : list Z) (w : world) : Prop :=
  exists L1 H, here C S (L1 ++ L) H w /\ owns st F b rb H.

(** A code of failure. *)
Definition fail_code (C : cache) (rv : Z) : Prop := rv = RC_SERVFAIL \/ (rv = RC_FATALERR /\ ~ plenty C).

(** How much there is left to do for a query over TCP, in bytes; a message has at most 65535. *)
Definition todo (st : query) : Z :=
  match q_state st with
  | QS_TCPINITIAL => Z.of_nat (q_transl st) + 65550
  | QS_TCPWRITE => Z.of_nat (2 + q_transl st - q_iolen st) + 65545
  | QS_TCPREAD => if (q_iolen st =? 0) then 65540 else Z.of_nat (2 + q_recvl st - q_iolen st)
  | _ => 0
  end.

Definition is_tcp (st : query) : Prop := q_qm st = TCP_ONLY /\ q_state st <> QS_UDPINITIAL /\ q_state st <> QS_UDPRECEIVE.

Context (K : kernel).

(** Sockets are ready when they are used, as after [poll]. *)
Definition responsive : Prop :=
  (forall t n, k_read K t n <> inl EWOULDBLOCK) /\ (forall t n, k_write K t n <> inl EWOULDBLOCK /\ (0 < n -> k_write K t n <> inr 0)).

(** A call that is to be repeated has done something. *)
Definition progress (st st' : query) : Prop := responsive -> is_tcp st -> is_tcp st' /\ (todo st' < todo st)%Z.
Definition no_regress (st st' : query) : Prop := is_tcp st -> is_tcp st' /\ (todo st' <= todo st)%Z.

Lemma progress_trans a b c : no_regress a b -> progress b c -> progress a c.
Proof. intros H1 H2 Hr Ha. destruct (H1 Ha) as [Hb ?]. destruct (H2 Hr Hb). split; [done|lia]. Qed.

Lemma progress_udp st st' : q_state st = QS_UDPINITIAL \/ q_state st = QS_UDPRECEIVE -> progress st st'.
Proof. intros H _ (_ & ? & ?). by destruct H. Qed.

(** A change of the state of a query over TCP. *)
Lemma tcp_kept st st' : kept st st' -> is_tcp st -> q_state st' = QS_TCPWRITE \/ q_state st' = QS_TCPREAD -> is_tcp st'.
Proof. intros (_ & _ & _ & _ & _ & _ & _ & Hq) (H & _ & _) Hs. unfold is_tcp. splits; [|by destruct Hs as [->| ->]..]. destruct Hq as [->|[? _]]; congruence. Qed.

Lemma no_regress_refl st : no_regress st st.
Proof. intros H. split; [done|lia]. Qed.

(** The state when the [switch] is left, beside the sockets [G] and blocks [F] of others. *)
Definition leaving (C : cache) (G : gmap positive conn) (L : list conn) (F : gmap positive (list Z)) (b : list Z) (st : query) (e : leave) (w : world) : Prop :=
  match e with
  | Return rv st' => kept st st' /\
      ((rv = (-1)%Z /\ progress st st' /\ exists fd c rb, q_sock st' = Some fd /\ G !! fd = None /\ waiting st' b rb c /\ at_hand C (<[fd := c]> G) L F st' b rb w) \/
       (rv = RC_OK /\ q_state st' = QS_DONE /\ exists c rb L1 H i, q_recvbuf st' = Ptr i /\ q_recvl st' <= length rb /\ bytes (take (q_recvl st') rb) /\
          exchange st' b (take (q_recvl st') rb) c /\ here C G (c :: L1 ++ L) H w /\ owns st' F b rb H))
  | Break rv st' => kept st st' /\ fail_code C rv /\ exists rb, at_hand C G L F st' b rb w
  | Error_receiv_data _ st' => kept st st' /\ exists fd c rb, q_sock st' = Some fd /\ G !! fd = None /\ at_hand C (<[fd := c]> G) L F st' b rb w
  | Tcp_failed st' => kept st st' /\ exists rb, at_hand C G L F st' b rb w
  end.

Lemma leaving_kept C G L F b st st' e w : kept st st' -> no_regress st st' -> leaving C G L F b st' e w -> leaving C G L F b st e w.
Proof.
  intros Hk Hn. destruct e as [rv s|rv s|e s|s]; cbn [leaving]; intros [Hk' H]; (split; [by eapply kept_query_trans|]); try exact H.
  destruct H as [(? & ? & H)|H]; [left|by right]. splits; [done|by eapply progress_trans|done].
Qed.
End Waiting.

(** Other fields have changed. *)
Ltac keeps := unfold kept; cbn; splits; auto.

(** ** Blocks *)

Lemma apart_lookup p i mb F v : apart p (<[i := mb]> F) -> hput p v (<[i := mb]> F) !! i = Some mb.
Proof.
  destruct p as [| |j]; cbn; [done|intros _; apply lookup_insert_eq|]. intros Hj.
  rewrite lookup_insert_ne; [apply lookup_insert_eq|]. intros ->. by rewrite lookup_insert_eq in Hj.
Qed.

Lemma owns_msg st F b rb H : owns st F b rb H -> exists i mb, q_msg st = Ptr i /\ msg_block st b mb /\ H !! i = Some mb.
Proof. intros (i & mb & Hm & _ & Hb & Ha & ->). exists i, mb. splits; [done|done|by apply apart_lookup]. Qed.

Lemma msg_block_length st b mb : msg_block st b mb -> 2 + length b <= length mb.
Proof. intros (sl & -> & _). rewrite !length_app. cbn. lia. Qed.

Lemma msg_block_read st b mb : msg_block st b mb -> rd_bytes mb dnsmsghdroffset (q_transl st) = Some b.
Proof.
  intros (sl & -> & -> & _). unfold rd_bytes, dnsmsghdroffset. rewrite decide_True by (rewrite !length_app; cbn; lia).
  f_equal. change (drop 2 (put16 (Z.of_nat (length b)) ++ b ++ sl)) with (b ++ sl). apply take_app_length.
Qed.

(** The rest of the message from an offset on. *)
Lemma msg_block_rest st b mb n : msg_block st b mb -> n <= 2 + length b ->
  rd_bytes mb n (2 + length b - n) = Some (drop n (put16 (Z.of_nat (length b)) ++ b)).
Proof.
  intros (sl & -> & _) Hn. set (p := put16 (Z.of_nat (length b)) ++ b). assert (Hp : length p = 2 + length b) by done.
  rewrite app_assoc. fold p. unfold rd_bytes. rewrite decide_True by (rewrite length_app; lia). f_equal.
  rewrite drop_app_le by lia. rewrite take_app_le by (rewrite length_drop; lia). apply take_ge. rewrite length_drop. lia.
Qed.

(** Another buffer for the reply. *)
Lemma owns_recvbuf st F b rb H : owns st F b rb H -> exists F', apart (q_recvbuf st) F' /\ H = hput (q_recvbuf st) rb F' /\
  owns (q_set_recvbuf Null st) F b [] F' /\ (forall i v, F' !! i = None -> owns (q_set_recvbuf (Ptr i) st) F b v (<[i := v]> F')).
Proof.
  intros (i & mb & Hm & Hi & Hb & Ha & ->). exists (<[i := mb]> F). splits; [done|done| |].
  - exists i, mb. splits; try done.
  - intros j v Hj. exists i, mb. splits; try done.
Qed.

Lemma owns_msg_update st st' F b b' rb H i mb mb' : owns st F b rb H -> q_msg st = Ptr i -> H !! i = Some mb -> q_msg st' = Ptr i -> q_recvbuf st' = q_recvbuf st ->
  msg_block st' b' mb' -> owns st' F b' rb (<[i := mb']> H).
Proof.
  intros (j & mb0 & Hm & Hj & Hb & Ha & ->) Hi Hl Hi' Hr Hb'. assert (j = i) as -> by congruence.
  exists i, mb'. rewrite Hr. splits; try done.
  - destruct (q_recvbuf st) as [| |k]; cbn in *; [done|done|]. destruct (decide (k = i)) as [->|]; [by rewrite lookup_insert_eq in Ha|]. by rewrite lookup_insert_ne in *.
  - destruct (q_recvbuf st) as [| |k]; cbn in *; [done|by rewrite insert_insert_eq|].
    destruct (decide (k = i)) as [->|]; [by rewrite lookup_insert_eq in Ha|]. rewrite insert_insert_ne, insert_insert_eq by done. done.
Qed.

(** Writing at the beginning of a block. *)
Lemma wr_bytes_0 m l : length l <= length m -> exists x, length l + length x = length m /\ wr_bytes m 0 l = Some (l ++ x).
Proof.
  intros H. exists (drop (length l) m). rewrite length_drop. split; [lia|].
  by apply (wr_bytes_app_mid l [] m).
Qed.

Section Machine.
Context (C : cache) (K : kernel) (rf : bool) (conf : net_conf).
Context (HK : kernel_ok K) (Hport : (query_port_end conf <= 65535)%Z) (Hudp : 0 < udpbufsize conf /\ (Z.of_nat (udpbufsize conf) < 65536)%Z).

(** With an implementation of [realloc] that frees for a size of zero, no two bytes that are read
    are both zero, so that no server announces an empty message. *)
Context (Hrf : rf = false \/ forall t l, k_read K t 2 = inr l -> take 2 l <> [0; 0]%Z).
Context (G : gmap positive conn) (F : gmap positive (list Z)).

Notation leaving' L b st := (fun r w => match r with inl e => leaving conf K C G L F b st e w | inr _ => False end).

Lemma at_hand_intro S L L1 st b rb H w : here C S (L1 ++ L) H w -> owns st F b rb H -> at_hand C S L F st b rb w.
Proof. intros ? ?. by exists L1, H. Qed.

(** Closing the socket of the query. *)
Lemma iruns_close_own L H fd c w : here C (<[fd := c]> G) L H w -> G !! fd = None ->
  iruns (close fd) w (fun _ w' => here C G (c :: L) H w').
Proof.
  intros Hw Hf. eapply iruns_weaken; [eapply iruns_close; [done|apply lookup_insert_eq]|]. cbn beta. intros _ w'. by rewrite delete_insert_id.
Qed.

Lemma iruns_close_break {A} (Q : A -> world -> Prop) L L1 H fd c st0 st b rb w rv : here C (<[fd := c]> G) (L1 ++ L) H w -> G !! fd = None -> owns st F b rb H -> kept st0 st -> fail_code C rv ->
  iruns (_ ← close fd; leaves (Break rv st)) w (fun (r : leave + A) w' => match r with inl e => leaving conf K C G L F b st0 e w' | inr a => Q a w' end).
Proof.
  intros Hw Hf Ho Hk Hrv. io_with iruns_close_own; [done|done|]. intros _ w1 Hw1. io_ret. cbn [leaving]. splits; [done|done|].
  exists rb. by apply (at_hand_intro _ _ (c :: L1) _ _ _ H).
Qed.

Lemma iruns_sm_udp_initial L L1 st b rb H w : q_state st = QS_UDPINITIAL -> here C G (L1 ++ L) H w -> owns st F b rb H ->
  iruns (sm_udp_initial K conf st) w (leaving' L b st).
Proof.
  intros Hst Hw Ho. unfold sm_udp_initial. io_with iruns_socket; [done|]. intros [fd|] w1 Hw1; cbv zeta.
  2: { io_ret. cbn [leaving]. splits; [keeps|by left|]. exists rb. by apply (at_hand_intro _ _ L1 _ _ _ H). }
  destruct Hw1 as [Hfd Hw1]. io_with iruns_bind_socket; [done|done|apply lookup_insert_eq|done|]. intros ok w2 Hw2. destruct ok; cbn [negb].
  2: { destruct Hw2 as [Hw2 _]. eapply iruns_close_break; [done|done|exact Ho|keeps|by left]. }
  destruct Hw2 as (c & Hp & Ht & Hs & Hr & Hw2). rewrite insert_insert_eq in Hw2.
  io_with iruns_connect; [done|apply lookup_insert_eq|]. intros r w3 [_ Hw3]. rewrite insert_insert_eq in Hw3. cbn [q_a q_set_sock] in Hw3. destruct r as [e|].
  - case_bool_decide; (eapply iruns_close_break; [done|done|exact Ho|keeps|by left]).
  - destruct (owns_msg _ _ _ _ _ Ho) as (i & mb & Hm & Hb & Hl). cbn [q_msg q_set_sock q_transl]. rewrite Hm.
    io_with iruns_load; [done|exact Hl|]. intros m w4 [-> Hw4]. io_lift; [by apply msg_block_read|].
    io_with iruns_send; [done|apply lookup_insert_eq|]. intros [e|] w5 Hw5.
    + eapply iruns_close_break; [done|done|exact Ho|keeps|by left].
    + rewrite insert_insert_eq in Hw5. io_ret. cbn [leaving]. split; [keeps|]. left. splits; [done|by apply progress_udp; left|]. exists fd, (sent b (connected (q_a st) c)), rb. splits; [done|done| |].
      * split; [split; [reflexivity|exact Hp]|]. cbn. rewrite Ht, Hs. done.
      * by eapply (at_hand_intro _ _ L1); [exact Hw5|exact Ho].
Qed.

Lemma iruns_sm_udp_receive L L1 st b rb c fd H w :
  q_state st = QS_UDPRECEIVE -> q_sock st = Some fd -> G !! fd = None -> waiting conf st b rb c -> here C (<[fd := c]> G) (L1 ++ L) H w -> owns st F b rb H ->
  iruns (sm_udp_receive K rf conf st) w (leaving' L b st).
Proof.
  intros Hst Hfd Hf Hwt Hw Ho. unfold sm_udp_receive. io_lift; [exact Hfd|]. cbv zeta.
  set (n := if q_edns_query st then udpbufsize conf else Z.to_nat UDP_BUFSIZE). assert (Hn : 0 < n /\ (Z.of_nat n < 65536)%Z) by (unfold n; destruct (q_edns_query st); [done|unfold UDP_BUFSIZE; lia]).
  destruct (owns_recvbuf _ _ _ _ _ Ho) as (F' & Ha & -> & Hnull & Hptr).
  io_with iruns_realloc_or_cleanup; [done|done|right; left; lia|]. intros p w1 [(-> & Hnp & Hw1)|(i & v & -> & Hi & Hv & Hw1)].
  { eapply iruns_close_break; [done|done|exact Hnull|keeps|by right]. }
  io_with iruns_recv; [done|done|apply lookup_insert_eq|]. intros [e|l] w2 Hw2.
  { eapply iruns_close_break; [done|done|by apply Hptr|keeps|by left]. }
  destruct Hw2 as (Hl & Hbl & Hw2). rewrite insert_insert_eq in Hw2.
  io_with iruns_load; [done|apply lookup_insert_eq|]. intros m w3 [-> Hw3].
  destruct (wr_bytes_0 v l) as (x & Hx & E); [lia|]. io_lift; [exact E|].
  io_with iruns_store; [done|apply lookup_insert_eq|rewrite length_app; lia|]. intros _ w4 Hw4. rewrite insert_insert_eq in Hw4.
  destruct Hwt as [Hown Hwt]. rewrite Hst in Hwt. destruct Hwt as [Hty Hse].
  assert (El : Z.to_nat (u16 (Z.of_nat (length l))) = length l) by (unfold u16; rewrite Z.mod_small by lia; lia). rewrite El.
  assert (Hwait : forall st', kept st st' -> q_state st' = QS_UDPRECEIVE -> waiting conf st' b (l ++ x) (received l c)).
  { intros st' (Ea & _) Hs'. split; [destruct Hown; split; cbn; [congruence|done]|]. by rewrite Hs'. }
  cbn [q_recvl q_set_recvl q_myrid q_set_recvbuf].
  assert (Hagain : iruns (leaves (A := unit) (Return (-1) (q_set_state QS_UDPRECEIVE (q_set_recvl (length l) (q_set_recvbuf (Ptr i) st))))) w4 (leaving' L b st)).
  { io_ret. cbn [leaving]. split; [keeps|]. left. splits; [done|by apply progress_udp; right|]. exists fd, (received l c), (l ++ x). splits; [done|done|by apply Hwait; [keeps|]|].
    eapply at_hand_intro; [exact Hw4|by apply Hptr]. }
  destruct (length l <? sizeof_dns_hdr_t) eqn:E1; boolp.
  { apply iruns_bind, iruns_ret. exact Hagain. }
  apply iruns_bind. io_lift; [rewrite get16_app by (unfold sizeof_dns_hdr_t in *; lia); by apply get16_some; unfold sizeof_dns_hdr_t in *; lia|].
  apply iruns_ret. destruct (count16 l 0 =? q_myrid st)%Z; cbn [negb]; [|exact Hagain].
  io_with iruns_close_own; [done|done|]. intros _ w5 Hw5. io_ret. cbn [leaving]. split; [keeps|]. right. splits; [done|done|].
  exists (received l c), (l ++ x), L1. eexists. exists i. cbn [q_recvl q_set_state q_set_recvl]. rewrite take_app_length, length_app.
  splits; [done|lia|done| |exact Hw5|by apply Hptr]. split; [exact Hown|]. cbn. rewrite Hty. split; [done|by eexists].
Qed.

(** A stage that may go on, with a query that holds its socket. *)
Definition waits (L : list conn) (st : query) (b rb : list Z) (w : world) : Prop :=
  exists fd c, q_sock st = Some fd /\ G !! fd = None /\ waiting conf st b rb c /\ at_hand C (<[fd := c]> G) L F st b rb w.

Notation stage L b st Q := (fun r w => match r with inl e => leaving conf K C G L F b st e w | inr st' => kept st st' /\ no_regress st st' /\ Q st' /\ exists rb, waits L st' b rb w end).

Lemma waits_return L b rb st st' w : kept st st' -> progress K st st' -> waits L st' b rb w -> leaving conf K C G L F b st (Return (-1) st') w.
Proof. intros Hk Hpr (fd & c & H1 & H2 & H3 & H4). split; [done|]. left. splits; [done|done|]. by exists fd, c, rb. Qed.

Lemma iruns_sm_tcp_initial L L1 st b rb H w : q_state st = QS_TCPINITIAL -> here C G (L1 ++ L) H w -> owns st F b rb H ->
  iruns (sm_tcp_initial K conf st) w (stage L b st (fun st' => q_state st' = QS_TCPWRITE)).
Proof.
  intros Hst Hw Ho. unfold sm_tcp_initial. io_with iruns_socket; [done|]. intros [fd|] w1 Hw1; cbv zeta.
  2: { io_ret. cbn [leaving]. splits; [keeps|by left|]. exists rb. by apply (at_hand_intro _ _ L1 _ _ _ H). }
  destruct Hw1 as [Hfd Hw1]. io_with iruns_bind_socket; [done|done|apply lookup_insert_eq|done|]. intros ok w2 Hw2. destruct ok; cbn [negb].
  2: { destruct Hw2 as [Hw2 _]. eapply iruns_close_break; [done|done|exact Ho|keeps|by left]. }
  destruct Hw2 as (c & Hp & Ht & Hs & Hr & Hw2). rewrite insert_insert_eq in Hw2.
  io_with iruns_fcntl; [done|apply lookup_insert_eq|]. intros r w3 [_ Hw3].
  apply iruns_bind. eapply (iruns_weaken _ _ (fun _ w' => here C (<[fd := c]> G) (L1 ++ L) H w')).
  { destruct r as [e|]; [by io_ret|]. eapply iruns_weaken; [eapply iruns_fcntl; [done|apply lookup_insert_eq]|]. by intros ? ? [_ ?]. }
  clear r w3 Hw3. intros r w3 Hw3. destruct r as [e|].
  { eapply iruns_close_break; [done|done|exact Ho|keeps|by left]. }
  io_with iruns_connect; [done|apply lookup_insert_eq|]. intros r w4 [_ Hw4]. rewrite insert_insert_eq in Hw4. cbn [q_a q_set_sock q_set_iolen] in Hw4.
  set (st1 := q_set_state QS_TCPWRITE (q_set_iolen 0 (q_set_sock (Some fd) st))).
  assert (Hwait : waits L st1 b rb w4).
  { exists fd, (connected (q_a st) c). splits; [done|done| |eapply at_hand_intro; [exact Hw4|exact Ho]].
    split; [split; [reflexivity|exact Hp]|]. cbn. rewrite Ht, Hs, Hr. splits; try done. lia. }
  assert (Hk : kept st st1) by (unfold st1; keeps).
  assert (Hpr : is_tcp st -> is_tcp st1 /\ (todo st1 < todo st)%Z).
  { intros Ht1. split; [by eapply tcp_kept; [exact Hk| |left]|]. unfold todo. rewrite Hst. cbn. lia. }
  destruct r as [e|]; [|io_ret; splits; [done|intros Ht1; destruct (Hpr Ht1); split; [done|lia]|done|by exists rb]].
  case_bool_decide; [io_ret; apply (waits_return _ _ rb); [done|by intros _|done]|].
  case_bool_decide; [|eapply iruns_close_break; [done|done|exact Ho|keeps|by left]].
  io_with iruns_close_own; [done|done|]. intros _ w5 Hw5. io_ret. cbn [leaving]. split; [keeps|]. exists rb.
  eapply (at_hand_intro _ _ (_ :: L1)); [exact Hw5|exact Ho].
Qed.

Lemma iruns_sm_tcp_write L st b rb w : q_state st = QS_TCPWRITE -> waits L st b rb w ->
  iruns (sm_tcp_write K st) w (stage L b st (fun st' => q_state st' = QS_TCPREAD)).
Proof.
  intros Hst (fd & c & Hfd & Hf & [[Hpeer Hp] Hwt] & L1 & H & Hw & Ho). rewrite Hst in Hwt. destruct Hwt as (Hty & Hrc & Hio & Hse).
  unfold sm_tcp_write. io_lift; [exact Hfd|]. cbv zeta. set (p := put16 (Z.of_nat (length b)) ++ b) in *.
  assert (Hlp : length p = 2 + length b) by done.
  destruct (owns_msg _ _ _ _ _ Ho) as (i & mb & Hm & Hb & Hl). assert (Htr : q_transl st = length b) by (by destruct Hb as (? & _ & ? & _)).
  unfold dnsmsghdroffset. rewrite Htr. set (rem := 2 + length b - q_iolen st).
  (* the end, when all has been sent *)
  assert (Hend : forall st' c' w', kept st st' -> owns st' F b rb H -> q_sock st' = Some fd -> own_sock conf st' c' -> c_type c' = SOCK_STREAM -> c_recv c' = [] -> concat (c_sent c') = p ->
    here C (<[fd := c']> G) (L1 ++ L) H w' ->
    iruns (goes (q_set_iolen 0 (q_set_state QS_TCPREAD st'))) w' (stage L b st (fun st' => q_state st' = QS_TCPREAD))).
  { intros st' c' w' Hk Ho' Hs' Hown' Ht' Hr' Hse' Hw'. io_ret. assert (Hk2 : kept st (q_set_iolen 0 (q_set_state QS_TCPREAD st'))) by (eapply kept_query_trans; [done|keeps]).
    splits; [done| |done|].
    { intros Ht1. split; [by eapply tcp_kept; [exact Hk2| |right]|]. unfold todo. rewrite Hst. cbn. lia. }
    exists rb, fd, c'. splits; [done|done| |by exists L1, H].
    split; [done|]. cbn. splits; done. }
  unfold tryIO. apply iruns_bind. destruct (0 <? rem) eqn:Er; boolp.
  2: { apply iruns_ret. eapply Hend; [apply kept_query_refl|done|done|by split|done|done| |done]. rewrite Hse. apply take_ge. lia. }
  rewrite Hm. io_with iruns_load; [done|exact Hl|]. intros m w1 [-> Hw1].
  io_lift; [apply (msg_block_rest _ _ _ _ Hb Hio)|]. fold p.
  assert (Hld : length (drop (q_iolen st) p) = rem) by (rewrite length_drop; lia).
  io_with iruns_write; [done|apply lookup_insert_eq|]. intros [e|n] w2 Hw2.
  - destruct Hw2 as [[t Hkw] Hw2]. case_bool_decide as He.
    { apply iruns_ret, iruns_ret. apply (waits_return _ _ rb); [apply kept_query_refl|intros [_ Hr] _; rewrite He in Hkw; by apply Hr in Hkw|]. exists fd, c. splits; [done|done| |by exists L1, H].
      split; [by split|]. rewrite Hst. done. }
    io_with iruns_close_own; [done|done|]. intros _ w3 Hw3.
    assert (Hah : at_hand C G L F (q_set_s_errno (Some e) st) b rb w3) by (eapply (at_hand_intro _ _ (_ :: L1)); [exact Hw3|exact Ho]).
    match goal with |- context [if ?t then _ else _] => destruct t end; apply iruns_ret, iruns_ret; cbn [leaving]; splits; try (by left); try keeps; by exists rb.
  - destruct Hw2 as (Hn & Hn0 & Hw2). rewrite insert_insert_eq in Hw2. rewrite Hld in Hn, Hn0.
    assert (Hse' : concat (c_sent (sent (take n (drop (q_iolen st) p)) c)) = take (q_iolen st + n) p).
    { cbn. rewrite concat_app. cbn. rewrite app_nil_r, Hse, take_take_drop. done. }
    destruct (n <? rem) eqn:En; boolp; apply iruns_ret.
    + apply iruns_ret. apply (waits_return _ _ rb); [keeps| |].
      { intros [_ Hr] Ht1. assert (n <> 0).
        { intros ->. destruct (Hn0 eq_refl) as [E|[t Hkw]]; [rewrite E in Hld; cbn in Hld; lia|]. destruct (Hr t rem) as [_ Hr']. by apply Hr'. }
        split; [by eapply tcp_kept; [|exact Ht1|left]; [keeps|]|]. unfold todo. cbn [q_state q_set_iolen q_iolen q_transl]. rewrite Hst. lia. }
      exists fd, (sent (take n (drop (q_iolen st) p)) c). splits; [done|done| |by exists L1, H].
      split; [by split|]. cbn [q_state q_set_iolen q_iolen]. rewrite Hst. splits; [done|done|lia|exact Hse'].
    + eapply (Hend _ (sent (take n (drop (q_iolen st) p)) c)); [keeps|exact Ho|done|by split|done|done| |done]. rewrite Hse'. apply take_ge. lia.
Qed.

Lemma iruns_sm_tcp_length L st b rb w : q_state st = QS_TCPREAD -> waits L st b rb w ->
  iruns (sm_tcp_length K rf st) w (stage L b st (fun st' => q_state st' = QS_TCPREAD /\ q_iolen st' <> 0)).
Proof.
  intros Hst Hwaits. pose proof Hwaits as (fd & c & Hfd & Hf & [[Hpeer Hp] Hwt] & L1 & H & Hw & Ho). rewrite Hst in Hwt. destruct Hwt as (Hty & Hse & Hio).
  unfold sm_tcp_length. io_lift; [exact Hfd|]. destruct (q_iolen st =? 0) eqn:E0; boolp.
  2: { io_ret. splits; [apply kept_query_refl|apply no_regress_refl|done|done|by exists rb]. }
  io_with iruns_read; [done|done|apply lookup_insert_eq|]. intros [e|l] w1 Hw1.
  - destruct Hw1 as [[t Hkr] Hw1]. assert (Hah : at_hand C (<[fd := c]> G) L F st b rb w1) by (by exists L1, H). case_bool_decide as He; io_ret.
    + apply (waits_return _ _ rb); [apply kept_query_refl|intros [Hr _] _; rewrite He in Hkr; by apply Hr in Hkr|]. exists fd, c. splits; try done. split; [by split|]. rewrite Hst. splits; [done..|]. by rewrite E0.
    + cbn [leaving]. split; [apply kept_query_refl|]. by exists fd, c, rb.
  - destruct Hw1 as (Hl & Hbl & (t & l' & Hk & El) & Hw1). rewrite insert_insert_eq in Hw1. destruct (length l =? 2) eqn:E2; boolp; cbn [negb].
    2: { io_ret. cbn [leaving]. split; [apply kept_query_refl|]. exists fd, (received l c), rb. splits; [done|done|by exists L1, H]. }
    destruct (get16_total l 0) as [n Hn]; [lia|]. io_lift; [exact Hn|]. cbv zeta. cbn [q_recvbuf q_set_recvl q_set_iolen q_recvl].
    pose proof (get16_range _ _ _ Hbl Hn) as Hrn. pose proof (put16_get16 _ _ _ Hbl Hn) as Hpl. rewrite drop_0, take_ge in Hpl by lia.
    destruct (owns_recvbuf _ _ _ _ _ Ho) as (F' & Ha & -> & Hnull & Hptr).
    io_with iruns_realloc_or_cleanup; [done|done| |].
    { destruct Hrf as [?|Hz]; [by left|]. right. left. intros Hz'. apply (Hz _ _ Hk). rewrite <- El, <- Hpl. assert (n = 0%Z) as -> by lia. done. }
    intros r w2 [(-> & Hnp & Hw2)|(i & v & -> & Hi & Hv & Hw2)].
    { eapply iruns_close_break; [done|done|exact Hnull|keeps|by right]. }
    io_ret. splits; [keeps| |done|done|].
    { intros Ht1. split; [by eapply tcp_kept; [|exact Ht1|right]; [keeps|]|]. unfold todo. cbn. rewrite Hst, E0. cbn. lia. }
    exists v, fd, (received l c). splits; [done|done| |eapply at_hand_intro; [exact Hw2|by apply Hptr]].
    split; [by split|]. cbn -[put16]. rewrite Hst. splits; try done; try lia; try (by eexists).
    rewrite concat_app, Hio. cbn -[put16]. rewrite app_nil_r, Z2Nat.id by lia. by rewrite Hpl, app_nil_r.
Qed.

Lemma iruns_sm_tcp_data L st b rb w : q_state st = QS_TCPREAD -> q_iolen st <> 0 -> waits L st b rb w ->
  iruns (sm_tcp_data K st) w (leaving' L b st).
Proof.
  intros Hst Hne (fd & c & Hfd & Hf & [[Hpeer Hp] Hwt] & L1 & H & Hw & Ho). rewrite Hst in Hwt. destruct Hwt as (Hty & Hse & Hio).
  destruct (q_iolen st =? 0) eqn:E0; boolp; [done|]. destruct Hio as (Hlen & (i & Hbuf) & Hrb & Hr16 & Hby & Hrc).
  unfold sm_tcp_data. io_lift; [exact Hfd|]. cbv zeta. set (off := q_iolen st - 2) in *. set (rem := q_recvl st - off).
  destruct (owns_recvbuf _ _ _ _ _ Ho) as (F' & Ha & -> & _ & Hptr). rewrite Hbuf in Ha, Hw, Ho. cbn [hput apart] in *.
  (* the whole message is there *)
  assert (Hend : forall st' rb' c' w', kept st st' -> q_recvbuf st' = Ptr i -> q_recvl st' = q_recvl st -> owns st' F b rb' (<[i := rb']> F') ->
    own_sock conf st' c' -> c_type c' = SOCK_STREAM -> concat (c_sent c') = put16 (Z.of_nat (length b)) ++ b -> length rb' = q_recvl st -> bytes rb' ->
    concat (c_recv c') = put16 (Z.of_nat (q_recvl st)) ++ rb' -> here C (<[fd := c']> G) (L1 ++ L) (<[i := rb']> F') w' ->
    iruns (_ ← close fd; leaves (A := unit) (Return RC_OK (q_set_state QS_DONE st'))) w' (leaving' L b st)).
  { intros st' rb' c' w' Hk Hb' Hl' Ho' Hown' Ht' Hse' Hrb' Hby' Hrc' Hw'. io_with iruns_close_own; [done|done|]. intros _ w1 Hw1. io_ret. cbn [leaving].
    split; [eapply kept_query_trans; [done|keeps]|]. right. splits; [done|done|]. exists c', rb', L1, (<[i := rb']> F'), i. cbn. rewrite Hl', take_ge by lia.
    splits; try done; try lia. split; [done|]. rewrite Ht'. split; [done|]. by rewrite Hrb'. }
  unfold tryIO. apply iruns_bind. destruct (0 <? rem) eqn:Er; boolp.
  2: { apply iruns_ret. eapply (Hend st rb); try done; [apply kept_query_refl|by rewrite take_ge in Hby by lia|]. by rewrite take_ge in Hrc by lia. }
  io_with iruns_read; [done|done|apply lookup_insert_eq|]. intros [e|l] w1 Hw1.
  - destruct Hw1 as [[t Hkr] Hw1]. assert (Hah : at_hand C (<[fd := c]> G) L F st b rb w1) by (by exists L1, (<[i := rb]> F')). case_bool_decide as He; apply iruns_ret, iruns_ret.
    + apply (waits_return _ _ rb); [apply kept_query_refl|intros [Hr _] _; rewrite He in Hkr; by apply Hr in Hkr|]. exists fd, c. splits; try done. split; [by split|]. rewrite Hst. splits; [done..|].
      bool_false (q_iolen st =? 0). splits; try done; try lia. by eexists.
    + cbn [leaving]. split; [apply kept_query_refl|]. by exists fd, c, rb.
  - destruct Hw1 as (Hl & Hbl & _ & Hw1). rewrite insert_insert_eq in Hw1. destruct l as [|x l0] eqn:El.
    { apply iruns_ret, iruns_ret. cbn [leaving]. split; [apply kept_query_refl|]. exists fd, (received [] c), rb. splits; [done|done|by exists L1, (<[i := rb]> F')]. }
    rewrite <- El in *. assert (Hl0 : length l <> 0) by (by rewrite El). clear El x l0. rewrite Hbuf. io_with iruns_load; [done|apply lookup_insert_eq|]. intros m w2 [-> Hw2].
    pose proof (wr_bytes_app_mid l (take off rb) (drop off rb)) as Ew. rewrite take_drop, length_take, Nat.min_l, length_drop in Ew by lia.
    specialize (Ew ltac:(lia)). set (rb' := take off rb ++ l ++ drop (length l) (drop off rb)) in *.
    assert (Hrb' : length rb' = q_recvl st) by (unfold rb'; rewrite !length_app, !length_drop, length_take; lia).
    io_lift; [exact Ew|]. io_with iruns_store; [done|apply lookup_insert_eq|lia|]. intros _ w3 Hw3. rewrite insert_insert_eq in Hw3.
    assert (Htk : take (off + length l) rb' = take off rb ++ l).
    { unfold rb'. rewrite app_assoc. apply take_app_length'. rewrite length_app, length_take. lia. }
    assert (Hrc' : concat (c_recv (received l c)) = put16 (Z.of_nat (q_recvl st)) ++ take (off + length l) rb').
    { cbn -[put16]. rewrite concat_app. cbn -[put16]. by rewrite app_nil_r, Hrc, Htk, <- app_assoc. }
    assert (Hby' : bytes (take (off + length l) rb')) by (rewrite Htk; by apply Forall_app).
    assert (Ho' : owns (q_set_iolen (q_iolen st + length l) st) F b rb' (<[i := rb']> F')).
    { pose proof (Hptr i rb' Ha) as Hx. unfold owns in *. cbn in *. rewrite Hbuf. exact Hx. }
    assert (Eio : q_iolen st + length l - 2 = off + length l) by lia.
    destruct (length l <? rem) eqn:En; boolp; apply iruns_ret.
    + apply iruns_ret. apply (waits_return _ _ rb'); [keeps| |].
      { intros _ Ht1. split; [by eapply tcp_kept; [|exact Ht1|right]; [keeps|]|]. unfold todo. cbn [q_state q_set_iolen q_iolen q_recvl]. rewrite Hst.
        bool_false (q_iolen st =? 0). bool_false (q_iolen st + length l =? 0). lia. }
      exists fd, (received l c). splits; [done|done| |by exists L1, (<[i := rb']> F')].
      split; [by split|]. cbn [q_state q_set_iolen q_iolen q_recvl q_recvbuf]. rewrite Hst, Eio. bool_false (q_iolen st + length l =? 0).
      splits; try done; try lia. by eexists.
    + rewrite take_ge in Hrc', Hby' by lia. eapply (Hend (q_set_iolen (q_iolen st + length l) st) rb' (received l c)); try done. keeps.
Qed.
(** ** The machine *)

Lemma iruns_try {A B} (m : IO (leave + A)) (k : A -> IO (leave + B)) (P : leave -> world -> Prop) (Q : A -> world -> Prop) (R : B -> world -> Prop) w :
  iruns m w (fun r w' => match r with inl e => P e w' | inr a => Q a w' end) ->
  (forall a w', Q a w' -> iruns (k a) w' (fun r w'' => match r with inl e => P e w'' | inr b => R b w'' end)) ->
  iruns (tryIO m k) w (fun r w' => match r with inl e => P e w' | inr b => R b w' end).
Proof.
  intros Hm Hk. apply iruns_bind. eapply iruns_weaken; [exact Hm|]. cbn beta. intros [e|a] w' H; [by io_ret|by apply Hk].
Qed.

Lemma iruns_leaving L b st st' (m : IO (leave + unit)) w : kept st st' -> no_regress st st' -> iruns m w (leaving' L b st') -> iruns m w (leaving' L b st).
Proof. intros Hk Hn Hm. eapply iruns_weaken; [exact Hm|]. intros [e|] w'; [|done]. by apply leaving_kept. Qed.

Lemma iruns_sm_tcp_read L st b rb w : q_state st = QS_TCPREAD -> waits L st b rb w -> iruns (sm_tcp_read K rf st) w (leaving' L b st).
Proof.
  intros Hst Hw. unfold sm_tcp_read. eapply iruns_try; [by eapply iruns_sm_tcp_length|]. cbn beta.
  intros st' w' (Hk & Hn & [Hs Hi] & rb' & Hw'). eapply iruns_leaving; [exact Hk|exact Hn|]. by eapply iruns_sm_tcp_data.
Qed.

Lemma iruns_sm_tcp_rest L st b rb w : q_state st = QS_TCPWRITE -> waits L st b rb w ->
  iruns (tryIO (sm_tcp_write K st) (sm_tcp_read K rf)) w (leaving' L b st).
Proof.
  intros Hst Hw. eapply iruns_try; [by eapply iruns_sm_tcp_write|]. cbn beta. intros st' w' (Hk & Hn & Hs & rb' & Hw').
  eapply iruns_leaving; [exact Hk|exact Hn|]. by eapply iruns_sm_tcp_read.
Qed.

(** A query that is to be started, or waits for its socket. *)
Definition in_progress (L : list conn) (st : query) (b rb : list Z) (w : world) : Prop :=
  ((q_state st = QS_TCPINITIAL \/ q_state st = QS_UDPINITIAL) /\ at_hand C G L F st b rb w) \/ waits L st b rb w.

Lemma iruns_sm_switch L st b rb w : in_progress L st b rb w -> iruns (sm_switch K rf conf st) w (leaving' L b st).
Proof.
  unfold sm_switch. intros [([E|E] & L1 & H & Hw & Ho)|Hwaits].
  - rewrite E. eapply iruns_try; [by eapply iruns_sm_tcp_initial|]. cbn beta. intros st' w' (Hk & Hn & Hs & rb' & Hw').
    eapply iruns_leaving; [exact Hk|exact Hn|]. by eapply iruns_sm_tcp_rest.
  - rewrite E. by eapply iruns_sm_udp_initial.
  - pose proof Hwaits as (fd & c & Hfd & Hf & Hwt & L1 & H & Hw & Ho). destruct (q_state st) eqn:E;
      try (destruct Hwt as [_ Hwt]; rewrite E in Hwt; contradiction).
    + by eapply iruns_sm_tcp_rest.
    + by eapply iruns_sm_tcp_read.
    + by eapply iruns_sm_udp_receive.
Qed.

(** A new identifier in the message. *)
Lemma iruns_new_id L st b rb w : at_hand C G L F st b rb w ->
  iruns (new_id K st) w (fun st' w' => exists r, st' = q_set_myrid r st /\ at_hand C G L F st' (put16 r ++ drop 2 b) rb w').
Proof.
  clear Hudp. intros (L1 & H & Hw & Ho). unfold new_id. io_with iruns_rand; [done|]. intros r w1 (_ & Hr & _ & Hw1). cbv zeta.
  destruct (owns_msg _ _ _ _ _ Ho) as (i & mb & Hm & Hb & Hl). cbn [q_msg q_set_myrid q_myrid]. rewrite Hm.
  io_with iruns_load; [done|exact Hl|]. intros m w2 [-> Hw2]. pose proof Hb as (sl & Emb & Htr & Hlb & Hlb' & _).
  set (b' := put16 r ++ drop 2 b). assert (Hlb2 : length b' = length b) by (unfold b'; rewrite length_app, length_drop; unfold sizeof_dns_hdr_t in *; cbn; lia).
  assert (Ew : wr_bytes mb dnsmsghdroffset (put16 r) = Some (put16 (Z.of_nat (length b)) ++ b' ++ sl)).
  { rewrite Emb. change dnsmsghdroffset with (length (put16 (Z.of_nat (length b)))). rewrite (wr_bytes_app_mid (put16 r) (put16 (Z.of_nat (length b))) (b ++ sl)) by (rewrite length_app; unfold sizeof_dns_hdr_t in *; cbn; lia).
    unfold b'. rewrite <- app_assoc. change (length (put16 r)) with 2. rewrite drop_app_le by (unfold sizeof_dns_hdr_t in *; lia). done. }
  io_lift; [exact Ew|]. io_with iruns_store; [done|exact Hl|rewrite Emb, !length_app; lia|]. intros _ w3 Hw3. io_ret. exists r. split; [done|].
  eexists L1, _. split; [exact Hw3|]. eapply owns_msg_update; [exact Ho|done|exact Hl|done|done|].
  fold b'. exists sl. rewrite Hlb2. splits; first [exact Htr|exact Hlb|exact Hlb'|apply Hr|done].
Qed.

(** How [p_query_sm] returns: it waits, has received a reply, or has failed. *)
Definition received_reply (L : list conn) (st : query) (b m : list Z) (w : world) : Prop :=
  q_state st = QS_DONE /\ exists c rb L1 H i, q_recvbuf st = Ptr i /\ q_recvl st <= length rb /\ m = take (q_recvl st) rb /\ bytes m /\
    exchange conf st b m c /\ here C G (c :: L1 ++ L) H w /\ owns st F b rb H.

Definition sm_result (L : list conn) (st : query) (b : list Z) (r : Z * query) (w : world) : Prop :=
  kept st r.2 /\ exists b', drop 2 b' = drop 2 b /\
    ((r.1 = (-1)%Z /\ progress K st r.2 /\ exists rb, waits L r.2 b' rb w) \/ (r.1 = RC_OK /\ exists m, received_reply L r.2 b' m w) \/
     (fail_code C r.1 /\ q_state r.2 = QS_DONE /\ exists rb, at_hand C G L F r.2 b' rb w)).

Lemma iruns_query_sm_loop fuel L : forall st b rb w, in_progress L st b rb w -> 0 < fuel -> (q_qm st = TCP_UDP -> 1 < fuel) ->
  iruns (query_sm_loop K rf conf fuel st) w (sm_result L st b).
Proof.
  induction fuel as [|fu IH]; intros st b rb w Hp Hf Hf2; [lia|]. cbn [query_sm_loop]. apply iruns_bind.
  eapply iruns_weaken; [by eapply iruns_sm_switch|]. cbn beta. intros [e|] w1 He; [|done].
  apply iruns_bind. eapply (iruns_weaken _ _ (fun e' w2 => leaving conf K C G L F b st e' w2 /\ match e' with Error_receiv_data _ _ => False | _ => True end)).
  { destruct e as [rv st'|rv st'|e st'|st']; cbn [sm_error]; try (by io_ret).
    destruct He as (Hk & fd & c & rb' & Hfd & Hfr & L1 & H & Hw1 & Ho). apply iruns_bind. unfold close_sock.
    set (st2 := match e with Some e => q_set_s_errno (Some e) st' | None => st' end).
    assert (E2 : q_sock st2 = q_sock st' /\ kept st' st2 /\ owns st2 F b rb' H) by (unfold st2; destruct e; splits; try keeps; exact Ho).
    destruct E2 as (Es & Hk2 & Ho2). rewrite Es. apply iruns_bind. eapply iruns_lift; [exact Hfd|].
    eapply iruns_weaken; [by eapply iruns_close_own|]. cbn beta. intros _ w2 Hw2. io_ret. split; [|done]. cbn [leaving].
    split; [by eapply kept_query_trans|]. exists rb'. by eapply (at_hand_intro _ _ (_ :: L1)). }
  clear e He. intros e w2 [He Hne]. destruct e as [rv st'|rv st'|e st'|st']; cbn [leaving] in He; [..|done|].
  - destruct He as [Hk He]. io_ret. split; [done|]. exists b. split; [done|].
    destruct He as [(-> & Hpr & fd & c & rb' & H1 & H2 & H3 & H4)|(-> & Hd & H)]; cbn [fst snd]; [left; splits; [done|done|]; by exists rb', fd, c|]. right. left. split; [done|].
    destruct H as (c & rb' & L1 & H & i & ? & ? & ? & ? & ? & ?). eexists. split; [done|]. by exists c, rb', L1, H, i.
  - destruct He as (Hk & Hrv & rb' & Hah). io_ret. split; [eapply kept_query_trans; [done|keeps]|]. exists b. split; [done|]. right. right. splits; [done|done|]. by exists rb'.
  - destruct He as (Hk & rb' & Hah). case_bool_decide as Hq.
    + assert (Hq0 : q_qm st = TCP_UDP) by (destruct Hk as (_&_&_&_&_&_&_&[E|[E _]]); congruence).
      unfold switch_to_udp. apply iruns_bind, iruns_bind. assert (Hah' : at_hand C G L F (q_set_qm UDP_ONLY st') b rb' w2) by exact Hah.
      eapply iruns_weaken; [by apply iruns_new_id|]. cbn beta. intros st2 w3 (r & -> & Hah2). apply iruns_ret.
      eapply iruns_weaken; [eapply IH; [left; split; [by right|exact Hah2]|specialize (Hf2 Hq0); lia|discriminate]|]. cbn beta.
      intros [rv2 st3] w4 (Hk3 & b' & Hb' & H3).
      split; [|exists b'; split; [|destruct H3 as [(? & _ & H3)|H3]; [left; splits; [done|intros _ (Hq1 & _); congruence|done]|by right]]].
      * eapply kept_query_trans; [exact Hk|]. eapply kept_query_trans; [|exact Hk3]. keeps.
      * exact Hb'.
    + io_ret. split; [eapply kept_query_trans; [done|keeps]|]. exists b. split; [done|]. right. right. splits; [by left|done|]. by exists rb'.
Qed.

Lemma iruns_p_query_sm L st b rb w : in_progress L st b rb w -> iruns (p_query_sm K rf conf st) w (sm_result L st b).
Proof. intros H. eapply iruns_query_sm_loop; [done|lia|lia]. Qed.

End Machine.
