(* ===== verification/QueryExec.v ===== *)
(** Executing a query, continued: [p_exec_query] with its retries, [p_cancel_query], and what
    [p_recursive_query] and [add_qserv] do to a query. *)
From S2P Require Import Prelude Names DnsName RrTypes HashTab RrList Cent Cache Answer Query Reply Exec Net QuerySm.

Section Exec.
Context {P : Platform} (now : Z) (global : globals) (pol : policies).
Context (K : kernel) (realloc_frees : bool) (conf : net_conf).

(** ** The message *)

Definition rd_bit (st : query) (name : option (list Z)) : Z :=
  match name with Some _ => if qs_trusted (q_stat st) then 1 else 0 | None => 0 end%Z.

(** [add_opt_pseudo_rr] on the message of the query.  Its return value is not looked at. *)
Definition add_edns (st : query) (transl : nat) : IO nat :=
  m ← load (q_msg st);
  w ← getIO;
  let a := {| a_msg := drop dnsmsghdroffset m; a_sz := transl; a_cb := []; a_sva := []; a_ar := []; a_cache := w_cache w; a_random := [] |} in
  '(_, a) ← liftIO (add_opt_pseudo_rr (Z.of_nat (udpbufsize conf)) RC_OK 0 0 a);
  _ ← modIO (set_w_cache (a_cache a));
  _ ← store (q_msg st) (take dnsmsghdroffset m ++ a_msg a);
  mret (a_sz a).

(** [st->msg->len=htons(st->transl)]. *)
Definition set_len (st : query) : IO unit :=
  m ← load (q_msg st);
  m ← liftIO (wr_bytes m 0 (put16 (Z.of_nat (q_transl st))));
  store (q_msg st) m.

Definition start_state (st : query) : qstate := if use_udp st then QS_UDPINITIAL else QS_TCPINITIAL.

(** The case [QS_INITIAL]: no query when there is no memory. *)
Definition initial (name : option (list Z)) (thint : Z) (st : query) : IO (query + query) :=
  rrnlen ← liftIO (match name with Some n => rhnlen n | None => Some 0 end);
  let allocsz := dnsmsghdroffset + sizeof_dns_hdr_t +
    match name with Some _ => rrnlen + 4 + (if q_edns_query st then sizeof_opt_pseudo_rr else 0) | None => 0 end in
  p ← pdnsd_malloc allocsz;
  let st := q_set_msg p st in
  match p with
  | Null => mret (inl (q_set_state QS_DONE st))
  | _ =>
      r ← get_rand16 K;
      let st := q_set_myrid r st in
      m ← load p;
      m ← liftIO (wr_bytes m dnsmsghdroffset
            (put16 (q_myrid st) ++ [rd_bit st name; 0%Z] ++ put16 (match name with Some _ => 1 | None => 0 end) ++
             put16 0 ++ put16 0 ++ put16 0));
      _ ← store p m;
      transl ← match name with
               | Some n =>
                   b ← liftIO (rd_bytes n 0 rrnlen);
                   let qtype := if qs_lean_query (q_stat st) then thint else QT_ALL in
                   m ← liftIO (wr_bytes m (dnsmsghdroffset + sizeof_dns_hdr_t) (b ++ put16 qtype ++ put16 C_IN));
                   _ ← store p m;
                   let transl := sizeof_dns_hdr_t + (rrnlen + 4) in
                   if q_edns_query st then add_edns st transl else mret transl
               | None => mret sizeof_dns_hdr_t
               end;
      let st := q_set_transl (Z.to_nat (u16 (Z.of_nat transl))) st in
      _ ← set_len st;
      let st := q_set_recvbuf Null st in
      mret (inr (q_set_state (start_state st) st))
  end.

(** ** Checking the reply *)

Definition with_query (r : exec_result) (st : query) : exec_result * query := (r, q_set_stat (ex_st r) st).

(** A return with a code and nothing else. *)
Definition just (rv : Z) (ns : list (list Z)) (st : query) : IO (exec_result * query) :=
  mret ({| ex_rv := rv; ex_ent := None; ex_ns := ns; ex_c_soa := None; ex_st := q_stat st |}, st).

(** [discard_reply]. *)
Definition discard_reply (rv : Z) (ns : list (list Z)) (st : query) : IO (exec_result * query) :=
  _ ← pdnsd_free (q_msg st);
  _ ← pdnsd_free (q_recvbuf st);
  just (if (rv =? RC_OK)%Z then RC_SERVFAIL else rv) ns (q_set_state QS_DONE st).

(** The return when the state machine has failed. *)
Definition query_failed (rv : Z) (ns : list (list Z)) (st : query) : IO (exec_result * query) :=
  _ ← pdnsd_free (q_msg st);
  _ ← pdnsd_free (q_recvbuf st);
  let st := q_set_state QS_DONE st in
  if (q_needs_testing st =? 0)%Z then just rv ns st
  else if bool_decide (q_s_errno st ∈ [Some ENETUNREACH; Some EHOSTUNREACH; Some ENOPROTOOPT; Some ECONNREFUSED;
                                       Some ENETDOWN; Some EHOSTDOWN; Some ENONET]) then
    _ ← sched_server_test (q_a st) 0;
    just rv ns (q_set_needs_testing 0 st)
  else just rv ns st.

(** What is to be done with a reply. *)
Inductive verdict :=
  | Discard (rv : Z) (st : query)
  | Use (rcode : Z) (st : query)
  | Tryagain (st : query).

(** [resetstate_tryagain]. *)
Definition resetstate (st : query) : IO verdict :=
  st ← new_id K st;
  mret (Tryagain (q_set_state (start_state st) st)).

(** [try_withoutedns]; [rv] is the code that is returned when that is not possible. *)
Definition try_withoutedns (rv : Z) (st : query) : IO verdict :=
  m ← load (q_msg st);
  '(transl, h) ← liftIO (remove_opt_pseudo_rr (drop dnsmsghdroffset m) (q_transl st));
  _ ← store (q_msg st) (take dnsmsghdroffset m ++ h);
  n ← liftIO (GETINT16 h arcount);
  if negb (transl =? 0) && (n =? 0)%Z then
    let st := q_set_transl (Z.to_nat (u16 (Z.of_nat transl))) st in
    _ ← set_len st;
    resetstate (q_set_edns_query false st)
  else mret (Discard rv st).

(** The return code is not that of a success. *)
Definition reply_failed (entp : bool) (rcode : Z) (f2 : Z) (buf : list Z) (st : query) : IO verdict :=
  if negb entp then mret (Discard rcode st)
  else
    m ← load (q_msg st);
    q1 ← liftIO (rd m (dnsmsghdroffset + 2));
    q_ar ← liftIO (GETINT16 m (dnsmsghdroffset + arcount));
    let edns := q_edns_query st && negb (q_ar =? 0)%Z in
    if (rcode =? RC_SERVFAIL)%Z || (rcode =? RC_NOTSUPP)%Z || (rcode =? RC_REFUSED)%Z then
      if flag (Z.land q1 1) && negb (flag (h_ra f2)) then
        m ← liftIO (wr m (dnsmsghdroffset + 2) (Z.land q1 0xfe));
        _ ← store (q_msg st) m;
        resetstate st
      else if negb (rcode =? RC_SERVFAIL)%Z && edns then try_withoutedns rcode st
      else
        n ← liftIO (GETINT16 buf ancount);
        if negb (n =? 0)%Z && (qs_auth_serv (q_stat st) =? 2)%Z then
          mret (Use rcode (q_set_state QS_DONE (q_set_stat (qs_set_failed 3 (q_stat st)) st)))
        else mret (Discard rcode st)
    else if (rcode =? RC_FORMAT)%Z && edns then try_withoutedns rcode st
    else mret (Discard rcode st).

(** The checks of a reply from the "basic sanity checks" on. *)
Definition check_reply (entp : bool) (st : query) : IO verdict :=
  if (q_recvl st <? sizeof_dns_hdr_t) then mret (Discard RC_OK st)
  else
    buf ← load (q_recvbuf st);
    id ← liftIO (GETINT16 buf 0);
    f1 ← liftIO (rd buf 2);
    f2 ← liftIO (rd buf 3);
    if negb (id =? q_myrid st)%Z then mret (Discard RC_OK st)
    else if negb (h_qr f1 =? QR_RESP)%Z then mret (Discard RC_OK st)
    else if negb (h_opcode f1 =? OP_QUERY)%Z then mret (Discard RC_OK st)
    else
      let rcode := h_rcode f2 in
      if negb (h_z f2 =? 0)%Z then mret (Discard RC_OK st)
      else
        st ← (if (q_needs_testing st =? 0)%Z then mret st
              else _ ← sched_server_test (q_a st) 1; mret (q_set_needs_testing 0 st));
        if (rcode =? RC_OK)%Z || (rcode =? RC_NAMEERR)%Z then mret (Use rcode (q_set_state QS_DONE st))
        else reply_failed entp rcode f2 buf st.

(** ** [p_exec_query] *)

(** From the release of the message on. *)
Definition take_reply (entp : bool) (name : option (list Z)) (thint rcode : Z) (ns : list (list Z)) (st : query) : IO (exec_result * query) :=
  m ← load (q_msg st);
  q1 ← liftIO (rd m (dnsmsghdroffset + 2));
  _ ← pdnsd_free (q_msg st);
  if entp then
    buf ← load (q_recvbuf st);
    msg ← liftIO (rd_bytes buf 0 (q_recvl st));
    name ← liftIO name;
    r ← cacheIO (use_reply now global pol msg name thint (Z.land q1 1) rcode (q_stat st) ns);
    _ ← pdnsd_free (q_recvbuf st);
    mret (with_query r st)
  else
    _ ← pdnsd_free (q_recvbuf st);
    just rcode ns st.

(** The loop at [tryagain].  A query is sent again at most twice: without RD, and without the
    OPT record. *)
Fixpoint exec_loop (fuel : nat) (entp : bool) (name : option (list Z)) (thint : Z) (ns : list (list Z)) (st : query)
    : IO (exec_result * query) :=
  match fuel with
  | O => liftIO None
  | S fu =>
      '(rv, st) ← p_query_sm K realloc_frees conf st;
      if (rv =? -1)%Z then just (-1) ns st
      else if negb (rv =? RC_OK)%Z then query_failed rv ns st
      else
        v ← check_reply entp st;
        match v with
        | Discard rv st => discard_reply rv ns st
        | Use rcode st => take_reply entp name thint rcode ns st
        | Tryagain st => exec_loop fu entp name thint ns st
        end
  end.

(** [p_exec_query]; [entp] tells whether an entry is asked for. *)
Definition p_exec_query (entp : bool) (name : option (list Z)) (thint : Z) (ns : list (list Z)) (st : query) : IO (exec_result * query) :=
  match q_state st with
  | QS_INITIAL =>
      r ← initial name thint st;
      match r with
      | inl st => just RC_FATALERR ns st
      | inr st => exec_loop 3 entp name thint ns st
      end
  | QS_TCPINITIAL | QS_TCPWRITE | QS_TCPREAD | QS_UDPINITIAL | QS_UDPRECEIVE => exec_loop 3 entp name thint ns st
  | QS_CANCELED | QS_DONE => just RC_SERVFAIL ns (q_set_state QS_DONE st)
  end.

Definition p_cancel_query (st : query) : IO query :=
  _ ← match q_state st with
      | QS_TCPWRITE | QS_TCPREAD | QS_UDPRECEIVE => close_sock st
      | _ => mret tt
      end;
  _ ← match q_state st with
      | QS_TCPWRITE | QS_TCPREAD | QS_UDPRECEIVE | QS_TCPINITIAL | QS_UDPINITIAL =>
          _ ← pdnsd_free (q_recvbuf st); pdnsd_free (q_msg st)
      | _ => mret tt
      end;
  mret (if bool_decide (q_state st <> QS_INITIAL /\ q_state st <> QS_DONE) then q_set_state QS_CANCELED st else st).

(** ** The callers *)

(** [add_qserv]: the new query; [method] is [global.query_method]. *)
Definition new_query (a : sockaddr) (timeout flags : Z) (nocache lean_query edns_query : bool) (auth_s needs_testing : Z) (trusted : bool)
    (nsdomain : option (list Z)) (rl : option rejectlist) (method : const) : query :=
  {| q_a := a; q_timeout := timeout; q_state := QS_INITIAL; q_qm := method; q_edns_query := edns_query; q_needs_testing := needs_testing;
     q_stat := {| qs_flags := flags; qs_nocache := nocache; qs_auth_serv := auth_s; qs_lean_query := lean_query; qs_trusted := trusted;
                  qs_aa := false; qs_tc := false; qs_ra := false; qs_failed := 0; qs_nsdomain := nsdomain; qs_rejectlist := rl |};
     q_sock := None; q_transl := 0; q_recvl := 0; q_iolen := 0; q_msg := Indet; q_recvbuf := Indet; q_myrid := 0; q_s_errno := None |}.

(** A timeout of a query in [p_recursive_query]: one over TCP that has not received anything is
    tried again over UDP. *)
Definition timed_out (entp : bool) (name : option (list Z)) (thint : Z) (ns : list (list Z)) (st : query) : IO (option exec_result * query) :=
  let st := if negb (bool_decide (q_state st = QS_DONE)) && negb (q_needs_testing st =? 0)%Z then q_set_needs_testing 2 st else st in
  if tentative_tcp_query st then
    _ ← close_sock st;
    st ← switch_to_udp K st;
    '(r, st) ← p_exec_query entp name thint ns st;
    mret (Some r, st)
  else mret (None, st).

(** A reply to a query over UDP that was truncated: the query starts again over TCP. *)
Definition retry_tcp (st : query) : option query :=
  if bool_decide (q_qm st = UDP_TCP) && qs_tc (q_stat st) then Some (switch_to_tcp st) else None.
End Exec.
