(* ===== verification/QueryRun.v ===== *)
(** Executing a query: the message that is sent, the checks of the reply, and the loop of
    [p_exec_query]. *)
From S2P Require Import Prelude Names DnsName Compress RrTypes HashTab RrList Cent CentSpec Cache CacheInv CachePurge CacheAdd CacheOps CacheThms.
From S2P Require Import Answer AnswerRr AnswerSet Query QueryDecode QuerySafe Reply ReplyData ReplySpec Exec ExecStages ExecSpec.
From S2P Require Import Net NetSpec QuerySm SmSpec QueryExec.

(** ** The message *)

Definition opt_of (x : option Z) : list Z := match x with Some u => opt_rr u RC_OK 0 0 | None => [] end.

Definition query_hdr (id rd qd ar : Z) : list Z := put16 id ++ [rd; 0%Z] ++ put16 qd ++ put16 0 ++ put16 0 ++ put16 ar.

(** The question for a name. *)
Definition question (qn : option (list (list Z))) (qtype : Z) : list Z :=
  match qn with Some N => enc_name N ++ put16 qtype ++ put16 C_IN | None => [] end.

Definition query_msg (id rd : Z) (qn : option (list (list Z))) (qtype : Z) (opt : option Z) : list Z :=
  query_hdr id rd (match qn with Some _ => 1 | None => 0 end)%Z (match opt with Some _ => 1 | None => 0 end)%Z ++ question qn qtype ++ opt_of opt.

Lemma length_query_hdr id rd qd ar : length (query_hdr id rd qd ar) = sizeof_dns_hdr_t.
Proof. done. Qed.

Definition wf_qn (qn : option (list (list Z))) : Prop := match qn with Some N => wf_name N | None => True end.

Lemma length_question qn qtype : wf_qn qn -> length (question qn qtype) <= 260.
Proof. destruct qn as [N|]; cbn; [|lia]. intros [_ H]. rewrite length_app. unfold DNSNAMEBUFSIZE in H. cbn [length app put16]. lia. Qed.

Lemma length_query_msg id rd qn qtype opt : wf_qn qn -> sizeof_dns_hdr_t <= length (query_msg id rd qn qtype opt) <= 283.
Proof.
  intros H. pose proof (length_question qn qtype H). unfold query_msg. rewrite !length_app, length_query_hdr. unfold sizeof_dns_hdr_t.
  destruct opt; cbn [opt_of]; [change (length (opt_rr z RC_OK 0 0)) with 11|cbn [length]]; lia.
Qed.

(** An OPT record for which there is space. *)
Lemma wruns_add_opt_fit s hdr b z u : a_msg s = hdr ++ b ++ z -> length hdr = sizeof_dns_hdr_t -> a_sz s = length hdr + length b -> length z = sizeof_opt_pseudo_rr ->
  wruns (add_opt_pseudo_rr u RC_OK 0 0) s (fun _ s' => a_msg s' = bump arcount hdr ++ b ++ opt_rr u RC_OK 0 0 /\
    a_sz s' = length hdr + length b + sizeof_opt_pseudo_rr /\ a_cache s' = a_cache s).
Proof.
  intros Hm Hh Hs Hz. unfold add_opt_pseudo_rr. apply wruns_bind, wruns_get, wruns_bind. fold (opt_rr u RC_OK 0 0). set (o := opt_rr u RC_OK 0 0).
  assert (Hal : allocsz s = dnsmsghdroffset + a_sz s + sizeof_opt_pseudo_rr) by (unfold allocsz; rewrite Hm, !length_app; lia).
  unfold reserve. apply wruns_bind, wruns_get. rewrite Hal, Nat.ltb_irrefl.
  apply wruns_ret, wruns_bind, wruns_get, wruns_bind.
  eapply wruns_weaken; [apply (wruns_putbytes s (a_sz s) o (hdr ++ b) z [])|]; [by rewrite app_nil_r, Hm, app_assoc|rewrite length_app; lia|done|].
  cbn beta. intros ? ? [-> ->]. apply wruns_bind, wruns_mod.
  eapply wruns_weaken; [apply (wruns_add_count _ hdr (b ++ o))|]; [cbn [a_msg set_sz set_msg]; by rewrite app_nil_r, app_assoc|rewrite Hh; vm_compute; lia|].
  cbn beta. intros ? ? [-> ->]. cbn. splits; [done|lia|done].
Qed.

Lemma wr_bytes_at m1 m2 m3 l n : n = length m1 -> length l = length m2 -> wr_bytes (m1 ++ m2 ++ m3) n l = Some (m1 ++ l ++ m3).
Proof. intros -> Hl. rewrite wr_bytes_app_mid by (rewrite length_app; lia). by rewrite Hl, drop_app_length. Qed.

(** [rd] is also the name of a bit here. *)
Notation rd_in := Prelude.rd (only parsing).

Section Run.
Context (C : cache) (K : kernel) (rf : bool) (conf : net_conf).
Context (HK : kernel_ok K) (Hport : (query_port_end conf <= 65535)%Z) (Hudp : 0 < udpbufsize conf /\ (Z.of_nat (udpbufsize conf) < 65536)%Z).
Context (Hrf : rf = false \/ forall t l, k_read K t 2 = inr l -> take 2 l <> [0; 0]%Z).
Context (G : gmap positive conn) (F : gmap positive (list Z)).
Context (qn : option (list (list Z))) (thint : Z) (Hqn : wf_qn qn).

Definition qtype_of (st : query) : Z := if qs_lean_query (q_stat st) then thint else QT_ALL.

(** The OPT record of a query, if there is one. *)
Definition opt_in (st : query) : option Z :=
  match qn with Some _ => if q_edns_query st then Some (Z.of_nat (udpbufsize conf)) else None | None => None end.

(** The message [b] of the query [st]; [rd] is its RD bit. *)
Definition is_query (st : query) (rd : Z) (b : list Z) : Prop :=
  b = query_msg (q_myrid st) rd qn (qtype_of st) (opt_in st) /\ (rd = 0 \/ (rd = 1 /\ is_Some qn /\ qs_trusted (q_stat st) = true))%Z.

(** How often the query can still be sent again. *)
Definition resends (st : query) (rd : Z) : nat := (if (rd =? 0)%Z then 0 else 1) + (if q_edns_query st then 1 else 0).

Lemma is_query_length st rd b : is_query st rd b -> sizeof_dns_hdr_t <= length b /\ (Z.of_nat (length b) < 65536)%Z.
Proof. intros [-> _]. pose proof (length_query_msg (q_myrid st) rd qn (qtype_of st) (opt_in st) Hqn). lia. Qed.

(** Another identifier. *)
Lemma is_query_id st st' rd b b' : is_query st rd b -> drop 2 b' = drop 2 b -> take 2 b' = put16 (q_myrid st') -> q_stat st' = q_stat st -> q_edns_query st' = q_edns_query st ->
  is_query st' rd b'.
Proof.
  intros [-> Hrd] Hd Ht Hs He. unfold is_query. rewrite Hs. split; [|done].
  rewrite <- (take_drop 2 b'), Ht, Hd. unfold opt_in, qtype_of. by rewrite He, Hs.
Qed.

Lemma msg_block_id st b mb : msg_block st b mb -> take 2 b = put16 (q_myrid st).
Proof. by intros (? & _ & _ & _ & _ & ? & _). Qed.

Lemma owns_id st b rb H : owns st F b rb H -> take 2 b = put16 (q_myrid st).
Proof. intros (i & mb & _ & _ & Hb & _). by eapply msg_block_id. Qed.

Lemma at_hand_id S L st b rb w : at_hand C S L F st b rb w -> take 2 b = put16 (q_myrid st).
Proof. intros (L1 & H & _ & Ho). by eapply owns_id. Qed.

(** The name in memory. *)
Definition name_is (name : option (list Z)) : Prop :=
  match name, qn with Some n, Some N => wire_name n N | None, None => True | _, _ => False end.

(** The fields that a start leaves alone. *)
Definition same_server (st st' : query) : Prop :=
  q_a st' = q_a st /\ q_timeout st' = q_timeout st /\ q_needs_testing st' = q_needs_testing st /\ q_stat st' = q_stat st /\
  q_edns_query st' = q_edns_query st /\ q_qm st' = q_qm st.

Lemma replicate_split (n k : nat) (x : Z) : replicate (n + k) x = replicate n x ++ replicate k x.
Proof. apply replicate_add. Qed.

Lemma iruns_set_len S L H st i p rest w : here C S L H w -> q_msg st = Ptr i -> H !! i = Some (p ++ rest) -> length p = 2 ->
  iruns (set_len st) w (fun _ w' => here C S L (<[i := put16 (Z.of_nat (q_transl st)) ++ rest]> H) w').
Proof.
  intros Hw Hm Hi Hp. unfold set_len. rewrite Hm. io_with iruns_load; [done|exact Hi|]. intros m w1 [-> Hw1].
  io_lift; [by apply (wr_bytes_at [] p rest)|]. eapply iruns_store; [done|exact Hi|]. rewrite !length_app, Hp. done.
Qed.

Lemma iruns_add_edns S L H st i hdr q z w : here C S L H w -> q_msg st = Ptr i -> H !! i = Some ([0%Z; 0%Z] ++ hdr ++ q ++ z) ->
  length hdr = sizeof_dns_hdr_t -> length z = sizeof_opt_pseudo_rr ->
  iruns (add_edns conf st (length hdr + length q)) w (fun n w' => n = length hdr + length q + sizeof_opt_pseudo_rr /\
    here C S L (<[i := [0%Z; 0%Z] ++ bump arcount hdr ++ q ++ opt_rr (Z.of_nat (udpbufsize conf)) RC_OK 0 0]> H) w').
Proof.
  intros Hw Hm Hi Hh Hz. unfold add_edns. rewrite Hm. io_with iruns_load; [done|exact Hi|]. intros m w1 [-> Hw1].
  apply iruns_bind, iruns_get. change (drop dnsmsghdroffset ([0%Z; 0%Z] ++ hdr ++ q ++ z)) with (hdr ++ q ++ z).
  set (a := {| a_msg := hdr ++ q ++ z; a_sz := length hdr + length q; a_cb := []; a_sva := []; a_ar := []; a_cache := w_cache w1; a_random := [] |}).
  edestruct (wruns_add_opt_fit a hdr q z (Z.of_nat (udpbufsize conf))) as (r0 & s' & E & Hm' & Hs' & Hc'); [done..|].
  io_lift; [exact E|]. cbv beta iota. apply iruns_bind, iruns_mod. rewrite Hc', Hm'.
  assert (Hw2 : here C S L H (set_w_cache (a_cache a) w1)) by (by destruct Hw1 as (? & ? & ? & ?)).
  io_with iruns_store; [exact Hw2|exact Hi| |].
  { change (take dnsmsghdroffset ([0%Z; 0%Z] ++ hdr ++ q ++ z)) with [0%Z; 0%Z]. rewrite !length_app, length_bump by (rewrite Hh; vm_compute; lia). by rewrite Hz. }
  intros _ w3 Hw3. io_ret. rewrite Hs'. split; [done|exact Hw3].
Qed.

Lemma iruns_initial L name st w : name_is name -> here C G L F w ->
  iruns (initial K conf name thint st) w (fun r w' => match r with
    | inl st' => st' = q_set_state QS_DONE (q_set_msg Null st) /\ ~ plenty C /\ here C G L F w'
    | inr st' => exists rd b, same_server st st' /\ q_state st' = start_state st' /\ q_recvbuf st' = Null /\ is_query st' rd b /\ at_hand C G L F st' b [] w'
    end).
Proof.
  intros Hname Hw. unfold initial.
  set (q := question qn (qtype_of st)). set (o := opt_of (opt_in st)).
  (* the length of the name *)
  apply iruns_bind. eapply (iruns_lift _ (match qn with Some N => length (enc_name N) | None => 0 end)).
  { unfold name_is in Hname. destruct name as [n|], qn as [N|]; try done. destruct Hname as [HN [r ->]]. by apply rhnlen_enc, HN. }
  set (rrnlen := match qn with Some N => length (enc_name N) | None => 0 end).
  assert (Hal : dnsmsghdroffset + sizeof_dns_hdr_t + match name with Some _ => rrnlen + 4 + (if q_edns_query st then sizeof_opt_pseudo_rr else 0) | None => 0 end =
    2 + (12 + (length q + length o))).
  { unfold q, o, opt_in, rrnlen, name_is in *. destruct name as [n|], qn as [N|]; try done. cbn [question]. rewrite !length_app.
    unfold dnsmsghdroffset, sizeof_dns_hdr_t, sizeof_opt_pseudo_rr, sizeof_rr_hdr_t. change (length (put16 (qtype_of st))) with 2. change (length (put16 C_IN)) with 2.
    destruct (q_edns_query st); [change (length (opt_of (Some (Z.of_nat (udpbufsize conf))))) with 11|change (length (opt_of None)) with 0]; lia. }
  cbv zeta. rewrite Hal. io_with iruns_malloc; [done|]. intros p w1 [(-> & Hnp & Hw1)|(i & -> & Hi & Hw1)].
  { io_ret. done. }
  io_with iruns_rand; [done|]. intros r w2 (_ & Hr & _ & Hw2).
  io_with iruns_load; [done|apply lookup_insert_eq|]. intros m w3 [-> Hw3]. cbn [q_myrid q_set_myrid].
  set (hdr := query_hdr r (rd_bit (q_set_myrid r (q_set_msg (Ptr i) st)) name) (match qn with Some _ => 1 | None => 0 end)%Z 0).
  assert (Eh : put16 r ++ [rd_bit (q_set_myrid r (q_set_msg (Ptr i) st)) name; 0%Z] ++ put16 (match name with Some _ => 1 | None => 0 end) ++ put16 0 ++ put16 0 ++ put16 0 = hdr).
  { unfold hdr, name_is in *. destruct name, qn; done. }
  rewrite Eh. set (z := replicate (length q) 0%Z). set (zo := replicate (length o) 0%Z).
  io_lift.
  { change dnsmsghdroffset with (length [0%Z; 0%Z]). rewrite (replicate_split 2), (replicate_split 12), (replicate_split (length q)). fold z zo.
    apply (wr_bytes_at [0%Z; 0%Z] (replicate 12 0%Z) (z ++ zo) hdr); done. }
  io_with iruns_store; [done|apply lookup_insert_eq| |].
  { rewrite length_replicate, !length_app. unfold z, zo. rewrite !length_replicate. change (length hdr) with 12. cbn. lia. }
  intros _ w4 Hw4. rewrite insert_insert_eq in Hw4.
  (* the question and the OPT record *)
  set (opt := opt_in st) in *. set (hdr' := query_hdr r (rd_bit (q_set_myrid r (q_set_msg (Ptr i) st)) name) (match qn with Some _ => 1 | None => 0 end)%Z (match opt with Some _ => 1 | None => 0 end)%Z).
  apply iruns_bind. eapply (iruns_weaken _ _ (fun transl w' => transl = length (hdr' ++ q ++ o) /\ here C G L (<[i := [0%Z; 0%Z] ++ hdr' ++ q ++ o]> F) w')).
  { unfold name_is in Hname. destruct name as [n|] eqn:En, qn as [N|] eqn:Eq; try done.
    2: { io_ret. assert (Eo : opt = None) by (unfold opt, opt_in; by rewrite Eq). assert (Eq' : q = []) by done.
      assert (Eh' : hdr' = hdr) by (unfold hdr', hdr; by rewrite Eo). assert (Eo' : o = []) by (unfold o; by rewrite Eo).
      unfold z, zo in Hw4. rewrite Eq', Eo' in Hw4. rewrite Eh', Eq', Eo'. done. }
    destruct Hname as [HN [r' ->]]. apply iruns_bind. eapply (iruns_lift _ (enc_name N)).
    { unfold rd_bytes. rewrite decide_True by (rewrite length_app; unfold rrnlen; lia). rewrite drop_0. f_equal. apply take_app_length. }
    io_lift.
    { fold (qtype_of st). change (if qs_lean_query (q_stat (q_set_myrid r (q_set_msg (Ptr i) st))) then thint else QT_ALL) with (qtype_of st).
      change (enc_name N ++ put16 (qtype_of st) ++ put16 C_IN) with q. rewrite app_assoc. apply (wr_bytes_at _ z zo q); [done|]. unfold z. by rewrite length_replicate. }
    io_with iruns_store; [done|apply lookup_insert_eq| |].
    { rewrite !length_app. unfold z. rewrite length_replicate. lia. }
    intros _ w5 Hw5. rewrite insert_insert_eq in Hw5. rewrite <- app_assoc in Hw5.
    assert (Hlq : sizeof_dns_hdr_t + (rrnlen + 4) = length hdr + length q).
    { unfold q, rrnlen. cbn [question]. rewrite !length_app. change (length hdr) with 12. cbn. unfold sizeof_dns_hdr_t. lia. }
    assert (Eo : opt = if q_edns_query st then Some (Z.of_nat (udpbufsize conf)) else None) by (unfold opt, opt_in; by rewrite Eq).
    cbn [q_edns_query q_set_myrid q_set_msg]. rewrite Hlq. destruct (q_edns_query st) eqn:Ee.
    2: { io_ret. assert (Eh' : hdr' = hdr) by (unfold hdr', hdr; by rewrite Eo). assert (Eo' : o = []) by (unfold o; by rewrite Eo).
      unfold zo in Hw5. rewrite Eo' in Hw5. rewrite Eh', Eo', app_nil_r, length_app. rewrite app_nil_r in Hw5. done. }
    assert (Eh' : hdr' = bump arcount hdr) by (unfold hdr', hdr; by rewrite Eo). assert (Eo' : o = opt_rr (Z.of_nat (udpbufsize conf)) RC_OK 0 0) by (unfold o; by rewrite Eo).
    assert (Hlo : length o = sizeof_opt_pseudo_rr) by (by rewrite Eo').
    assert (Hz : length zo = sizeof_opt_pseudo_rr) by (unfold zo; by rewrite length_replicate).
    eapply iruns_weaken; [eapply (iruns_add_edns _ _ _ _ i hdr q zo); [exact Hw5|done|apply lookup_insert_eq|done|done]|]. cbn beta. intros n w6 [-> Hw6].
    rewrite insert_insert_eq in Hw6. rewrite Eh', Eo'. split; [|exact Hw6]. rewrite !length_app, <- Eo', Hlo, length_bump by (vm_compute; lia). lia. }
  cbn beta. intros transl w5 [-> Hw5]. set (b := hdr' ++ q ++ o) in *.
  set (rd := rd_bit (q_set_myrid r (q_set_msg (Ptr i) st)) name) in *.
  assert (Hb : b = query_msg r rd qn (qtype_of st) (opt_in st)) by done.
  assert (Hlb : sizeof_dns_hdr_t <= length b /\ (Z.of_nat (length b) < 65536)%Z).
  { rewrite Hb. pose proof (length_query_msg r rd qn (qtype_of st) (opt_in st) Hqn). lia. }
  assert (Eu : Z.to_nat (u16 (Z.of_nat (length b))) = length b) by (unfold u16; rewrite Z.mod_small by lia; lia). rewrite Eu.
  apply iruns_bind. eapply iruns_weaken; [eapply (iruns_set_len _ _ _ _ i [0%Z; 0%Z] b); [exact Hw5|done|apply lookup_insert_eq|done]|].
  cbn beta. intros _ w7 Hw7. rewrite insert_insert_eq in Hw7. io_ret.
  exists rd, b. splits; [by unfold same_server|by unfold start_state|done| |].
  - split; [done|]. unfold rd, rd_bit, name_is in *. cbn. destruct name, qn; try done; [|by left]. destruct (qs_trusted (q_stat st)); [right|left]; splits; by try eexists.
  - apply (at_hand_intro C F _ _ [] _ _ _ _ _ Hw7). exists i, (put16 (Z.of_nat (length b)) ++ b). splits; try done.
    exists []. rewrite app_nil_r. splits; try done; first [apply Hlb|apply Hr].
Qed.
(** ** The reply *)

(** The fields that the execution of a query leaves alone; the state of the server may be
    marked as failed. *)
Definition stat_like (st st' : query_stat) : Prop := st' = st \/ st' = qs_set_failed 3 st.
Definition like (st st' : query) : Prop :=
  q_a st' = q_a st /\ q_timeout st' = q_timeout st /\ stat_like (q_stat st) (q_stat st').

Lemma like_query_refl st : like st st.
Proof. unfold like, stat_like. auto. Qed.

Lemma like_query_trans a b c : like a b -> like b c -> like a c.
Proof.
  intros (H1 & H2 & H3) (H4 & H5 & H6). unfold like, stat_like. splits; [congruence..|].
  destruct H3 as [E|E], H6 as [E'|E']; rewrite E', ?E; auto.
Qed.

Lemma kept_like st st' : kept st st' -> like st st'.
Proof. intros (? & ? & _ & _ & ? & _). unfold like, stat_like. auto. Qed.

Lemma server_like st st' : same_server st st' -> like st st'.
Proof. intros (? & ? & _ & ? & _). unfold like, stat_like. auto. Qed.

(** A reply with the header that is expected, and its return code. *)
Definition answers (id : Z) (m : list Z) (rcode : Z) : Prop :=
  sizeof_dns_hdr_t <= length m /\ count16 m 0 = id /\
  exists f1 f2, m !! 2 = Some f1 /\ m !! 3 = Some f2 /\ h_qr f1 = QR_RESP /\ h_opcode f1 = OP_QUERY /\ h_z f2 = 0%Z /\ rcode = h_rcode f2.
Definition good_header (st : query) : list Z -> Z -> Prop := answers (q_myrid st).

Definition judged (L : list conn) (st : query) (rd : Z) (b m : list Z) (v : verdict) (w : world) : Prop :=
  match v with
  | Discard rv st' => (0 <= rv < 16)%Z /\ like st st' /\ exists b' rb, at_hand C G L F st' b' rb w
  | Use rcode st' => (0 <= rcode < 16)%Z /\ like st st' /\ is_query st' rd b /\ good_header st' m rcode /\ received_reply C conf G F L st' b m w
  | Tryagain st' => like st st' /\ q_qm st' = q_qm st /\ q_state st' = start_state st' /\ exists rd' b' rb, is_query st' rd' b' /\ at_hand C G L F st' b' rb w /\
      resends st' rd' < resends st rd
  end.

Lemma received_hand L st b m w : received_reply C conf G F L st b m w -> exists rb, at_hand C G L F st b rb w.
Proof. intros (_ & c & rb & L1 & H & i & _ & _ & _ & _ & _ & Hw & Ho). exists rb. by exists (c :: L1), H. Qed.

(** A query whose message has changed gets a new identifier and starts again. *)
Lemma iruns_resetstate L st st1 rd rd' b b' m rb w : at_hand C G L F st1 b' rb w -> is_query st1 rd' b' -> like st st1 -> q_qm st1 = q_qm st -> resends st1 rd' < resends st rd ->
  iruns (resetstate K st1) w (judged L st rd b m).
Proof.
  intros Hh Hq Hlk Hqm Hlt. unfold resetstate. apply iruns_bind. eapply iruns_weaken; [by eapply iruns_new_id|]. cbn beta.
  intros st2 w1 (r & -> & Hh1). io_ret. cbn [judged]. splits; [exact Hlk|exact Hqm|by unfold start_state|]. eexists rd', _, rb. split; [|split; [exact Hh1|exact Hlt]].
  eapply is_query_id; [exact Hq|done|done|done|done].
Qed.

Lemma bytes_put16 x : bytes (put16 x).
Proof. unfold put16, u8. repeat constructor; apply Z.mod_pos_bound; lia. Qed.

Lemma bytes_query_hdr id rd qd ar : is_byte rd -> bytes (query_hdr id rd qd ar).
Proof. intros H. unfold query_hdr. repeat first [apply Forall_app; split|apply bytes_put16|apply Forall_cons; split|done]. Qed.

Lemma iruns_try_withoutedns L st rd b m rb rv w : at_hand C G L F st b rb w -> is_query st rd b -> q_edns_query st = true -> is_Some qn -> (0 <= rv < 16)%Z ->
  iruns (try_withoutedns K rv st) w (judged L st rd b m).
Proof.
  intros (L1 & H & Hw & Ho) [Hb Hrd] He [N HN] Hrv. unfold try_withoutedns.
  destruct (owns_msg _ _ _ _ _ Ho) as (i & mb & Hm & Hblk & Hl). rewrite Hm. io_with iruns_load; [done|exact Hl|]. intros mm w1 [-> Hw1].
  pose proof Hblk as (sl & -> & Htr & _ & Hlen & Hid & Hmy). change (drop dnsmsghdroffset (put16 (Z.of_nat (length b)) ++ b ++ sl)) with (b ++ sl).
  set (hdr := query_hdr (q_myrid st) rd 1 0). set (q := question (Some N) (qtype_of st)). set (o := opt_rr (Z.of_nat (udpbufsize conf)) RC_OK 0 0).
  assert (Eb : b = bump arcount hdr ++ q ++ o) by (rewrite Hb; unfold query_msg, opt_in; by rewrite HN, He).
  assert (Er : is_byte rd) by (unfold is_byte; lia).
  assert (Eh : bump arcount hdr ++ q ++ o ++ sl = b ++ sl) by (rewrite Eb, <- !app_assoc; done).
  assert (Elen : length b = length (hdr ++ q ++ o)) by (rewrite Eb, !length_app, length_bump by (vm_compute; lia); done).
  pose proof (remove_opt hdr q (Z.of_nat (udpbufsize conf)) RC_OK 0 0 sl (bytes_query_hdr _ _ _ _ Er) eq_refl ltac:(done)) as Erm. cbv zeta in Erm. fold o in Erm.
  rewrite Eh in Erm. rewrite Htr, Elen. io_lift; [exact Erm|]. cbv beta iota. clear Erm.
  change (take dnsmsghdroffset (put16 (Z.of_nat (length (hdr ++ q ++ o))) ++ b ++ sl)) with (put16 (Z.of_nat (length (hdr ++ q ++ o)))).
  io_with iruns_store; [done|exact Hl| |].
  { rewrite Eb. rewrite !length_app, length_bump by (vm_compute; lia). lia. }
  intros _ w2 Hw2. io_lift; [rewrite get16_app by (vm_compute; lia); apply get16_some; vm_compute; lia|].
  assert (Hpos : 0 < length (hdr ++ q)) by (rewrite length_app; change (length hdr) with 12; lia). bool_false (length (hdr ++ q) =? 0).
  change (count16 hdr arcount =? 0)%Z with true. cbn [negb andb].
  assert (Hl2 : (Z.of_nat (length (hdr ++ q)) < 65536)%Z) by (rewrite Elen, (app_assoc hdr), length_app in Hlen; lia).
  assert (Eu : Z.to_nat (u16 (Z.of_nat (length (hdr ++ q)))) = length (hdr ++ q)) by (unfold u16; rewrite Z.mod_small by lia; lia). rewrite Eu.
  apply iruns_bind. eapply iruns_weaken; [eapply (iruns_set_len _ _ _ (q_set_transl (length (hdr ++ q)) st) i (put16 (Z.of_nat (length (hdr ++ q ++ o)))));
    [exact Hw2|exact Hm|apply lookup_insert_eq|done]|]. cbn beta. intros _ w3 Hw3. rewrite insert_insert_eq in Hw3.
  eapply (iruns_resetstate L st (q_set_edns_query false (q_set_transl (length (hdr ++ q)) st)) rd rd b (hdr ++ q) m rb).
  - eapply at_hand_intro; [exact Hw3|]. eapply owns_msg_update; [exact Ho|exact Hm|exact Hl|exact Hm|done|].
    exists (o ++ sl). cbn [q_transl q_set_transl]. splits; first [exact Hl2|reflexivity|apply Hmy|by rewrite <- app_assoc|rewrite length_app; change (length hdr) with 12; unfold sizeof_dns_hdr_t; lia].
  - split; [|done]. unfold query_msg, opt_in. rewrite HN. cbn [q_edns_query q_set_edns_query opt_of]. by rewrite app_nil_r.
  - unfold like, stat_like. cbn. auto.
  - done.
  - unfold resends. cbn [q_edns_query q_set_edns_query]. rewrite He. lia.
Qed.

(** The bytes of the message that are looked at again. *)
Lemma query_block_bits st rd b mb : is_query st rd b -> msg_block st b mb ->
  rd_in mb (dnsmsghdroffset + 2) = Some rd /\ GETINT16 mb (dnsmsghdroffset + arcount) = Some (match opt_in st with Some _ => 1 | None => 0 end)%Z.
Proof.
  intros [-> _] (sl & -> & _). unfold query_msg. destruct (opt_in st); split; reflexivity.
Qed.

(** The RD bit is cleared. *)
Lemma query_block_norec st b mb : is_query st 1 b -> msg_block st b mb ->
  exists mb' b', wr mb (dnsmsghdroffset + 2) (Z.land 1 0xfe) = Some mb' /\ length mb' = length mb /\ msg_block st b' mb' /\ is_query st 0 b'.
Proof.
  intros [-> _] (sl & -> & Htr & Hl & Hl' & Hid & Hmy). set (b' := query_msg (q_myrid st) 0 qn (qtype_of st) (opt_in st)).
  exists (put16 (Z.of_nat (length b')) ++ b' ++ sl), b'. splits; [reflexivity|done| |split; [done|by left]].
  exists sl. splits; first [exact Htr|exact Hl|exact Hl'|apply Hmy|reflexivity].
Qed.

Lemma iruns_reply_failed entp L st rd b m rb L1 H i c rcode f2 w : q_recvbuf st = Ptr i -> q_recvl st <= length rb -> m = take (q_recvl st) rb -> bytes m ->
  q_state st = QS_DONE -> exchange conf st b m c -> here C G (c :: L1 ++ L) H w -> owns st F b rb H ->
  is_query st rd b -> good_header st m rcode -> (0 <= rcode < 16)%Z ->
  iruns (reply_failed K entp rcode f2 rb st) w (judged L st rd b m).
Proof.
  intros Hbuf Hlr Em Hbm Hst Hex Hw Ho Hq Hgh Hrc. unfold reply_failed.
  assert (Hdis : forall w', here C G (c :: L1 ++ L) H w' -> iruns (mret (Discard rcode st)) w' (judged L st rd b m)).
  { intros w' Hw'. io_ret. cbn [judged]. splits; [lia..|apply like_query_refl|]. exists b, rb. by exists (c :: L1), H. }
  destruct entp; cbn [negb]; [|by apply Hdis].
  destruct (owns_msg _ _ _ _ _ Ho) as (j & mb & Hm & Hblk & Hl). rewrite Hm. io_with iruns_load; [done|exact Hl|]. intros mm w1 [-> Hw1].
  destruct (query_block_bits _ _ _ _ Hq Hblk) as [Erd Ear]. io_lift; [exact Erd|]. io_lift; [exact Ear|]. cbv zeta.
  assert (Hah : at_hand C G L F st b rb w1) by (by exists (c :: L1), H).
  assert (Hopt : q_edns_query st && negb ((match opt_in st with Some _ => 1 | None => 0 end) =? 0)%Z = true -> q_edns_query st = true /\ is_Some qn).
  { unfold opt_in. destruct (q_edns_query st), qn; cbn; done. }
  destruct ((rcode =? RC_SERVFAIL)%Z || (rcode =? RC_NOTSUPP)%Z || (rcode =? RC_REFUSED)%Z).
  2: { destruct (rcode =? RC_FORMAT)%Z; cbn [andb]; [|by apply Hdis]. destruct (q_edns_query st && _) eqn:Eo; [|by apply Hdis].
       destruct (Hopt eq_refl). by eapply iruns_try_withoutedns. }
  destruct (flag (Z.land rd 1) && negb (flag (h_ra f2))) eqn:Er.
  { apply andb_true_iff in Er as [Er _]. assert (rd = 1%Z) as -> by (destruct Hq as [_ [->|[-> _]]]; done).
    destruct (query_block_norec _ _ _ Hq Hblk) as (mb' & b' & Ew & Elen & Hblk' & Hq'). io_lift; [exact Ew|].
    io_with iruns_store; [done|exact Hl|done|]. intros _ w2 Hw2.
    eapply (iruns_resetstate L st st 1 0 b b' m rb); [|done|apply like_query_refl|done|unfold resends; cbn; lia].
    eapply (at_hand_intro C F _ _ (c :: L1)); [exact Hw2|]. by eapply owns_msg_update. }
  destruct (negb (rcode =? RC_SERVFAIL)%Z && _) eqn:Eo.
  { apply andb_true_iff in Eo as [_ Eo]. destruct (Hopt Eo). by eapply iruns_try_withoutedns. }
  assert (Hlm : sizeof_dns_hdr_t <= length rb) by (destruct Hgh as [Hg _]; rewrite Em, length_take in Hg; lia).
  io_lift; [apply get16_some; unfold ancount, sizeof_dns_hdr_t in *; lia|].
  match goal with |- context [if ?t then _ else _] => destruct t end; [|by apply Hdis].
  io_ret. cbn [judged]. splits; [lia..|unfold like, stat_like; cbn; auto|done|done|]. split; [done|]. by exists c, rb, L1, H, i.
Qed.

Lemma iruns_check_reply entp L st rd b m w : received_reply C conf G F L st b m w -> is_query st rd b ->
  iruns (check_reply K entp st) w (judged L st rd b m).
Proof.
  intros (Hst & c & rb & L1 & H & i & Hbuf & Hlr & Em & Hbm & Hex & Hw & Ho) Hq. unfold check_reply.
  assert (Hdis : forall w', here C G (c :: L1 ++ L) H w' -> iruns (mret (Discard RC_OK st)) w' (judged L st rd b m)).
  { intros w' Hw'. io_ret. cbn [judged]. splits; [done..|apply like_query_refl|]. exists b, rb. by exists (c :: L1), H. }
  destruct (q_recvl st <? sizeof_dns_hdr_t) eqn:E; boolp; [by apply Hdis|].
  destruct (owns_recvbuf _ _ _ _ _ Ho) as (F' & Ha & -> & _). rewrite Hbuf. rewrite Hbuf in Ho, Hw, Hdis. cbn [hput] in *.
  io_with iruns_load; [done|apply lookup_insert_eq|]. intros bf w1 [-> Hw1].
  assert (Hlm : length m = q_recvl st) by (rewrite Em, length_take; lia). unfold sizeof_dns_hdr_t in E.
  assert (Erb : rb = m ++ drop (q_recvl st) rb) by (by rewrite Em, take_drop).
  assert (Hbit : forall k, k < 4 -> exists f, rd_in rb k = Some f /\ m !! k = Some f).
  { intros k Hk. destruct (lookup_lt_is_Some_2 m k) as [f Hf]; [lia|]. exists f. split; [|done]. rewrite Erb. by apply lookup_app_l_Some. }
  io_lift; [rewrite Erb, get16_app by lia; apply get16_some; lia|].
  destruct (Hbit 2) as (f1 & Hf1 & Hm1); [lia|]. destruct (Hbit 3) as (f2 & Hf2 & Hm2); [lia|]. io_lift; [exact Hf1|]. io_lift; [exact Hf2|].
  destruct (count16 m 0 =? q_myrid st)%Z eqn:E1; boolp; cbn [negb]; [|by apply Hdis].
  destruct (h_qr f1 =? QR_RESP)%Z eqn:E2; boolp; cbn [negb]; [|by apply Hdis].
  destruct (h_opcode f1 =? OP_QUERY)%Z eqn:E3; boolp; cbn [negb]; [|by apply Hdis].
  destruct (h_z f2 =? 0)%Z eqn:E4; boolp; cbn [negb]; [|by apply Hdis].
  assert (Hgh : good_header st m (h_rcode f2)) by (unfold good_header, answers, sizeof_dns_hdr_t; splits; [lia|done|]; by exists f1, f2).
  assert (Hrc : (0 <= h_rcode f2 < 16)%Z).
  { unfold h_rcode. change 15%Z with (Z.ones 4). rewrite Z.land_ones by lia. apply Z.mod_pos_bound. lia. }
  apply iruns_bind. eapply (iruns_weaken _ _ (fun st' w' => here C G (c :: L1 ++ L) (<[i := rb]> F') w' /\ (st' = st \/ st' = q_set_needs_testing 0 st))).
  { destruct (q_needs_testing st =? 0)%Z; [io_ret; auto|]. io_with iruns_test; [done|]. intros _ w2 Hw2. io_ret. auto. }
  cbn beta. intros st' w2 [Hw2 Hst'].
  assert (Hsame : q_recvbuf st' = Ptr i /\ q_recvl st' = q_recvl st /\ q_state st' = QS_DONE /\ exchange conf st' b m c /\ owns st' F b rb (<[i := rb]> F') /\
    is_query st' rd b /\ good_header st' m (h_rcode f2) /\ like st st' /\ resends st' rd = resends st rd /\ q_qm st' = q_qm st).
  { destruct Hst' as [->| ->]; splits; try done; try apply like_query_refl. by unfold like, stat_like; cbn; auto. }
  destruct Hsame as (Hb' & Hl' & Hs' & Hex' & Ho' & Hq' & Hgh' & Hlk & Hre & Hqm).
  destruct ((h_rcode f2 =? RC_OK)%Z || (h_rcode f2 =? RC_NAMEERR)%Z).
  - io_ret. cbn [judged]. splits; [lia..|exact Hlk|done|done|]. split; [done|]. exists c, rb, L1, (<[i := rb]> F'), i. cbn. rewrite Hl'. done.
  - eapply iruns_weaken; [eapply (iruns_reply_failed entp L st' rd b m rb L1); rewrite ?Hl'; try done|].
    cbn beta. intros [rv s|rc s|s] w3; cbn [judged].
    + intros (? & ? & ?). splits; first [by eapply like_query_trans|tauto].
    + intros (? & ? & ? & ? & ?). splits; first [by eapply like_query_trans|tauto].
    + intros (? & ? & ? & rd' & b' & rb' & ? & ? & ?). splits; [by eapply like_query_trans|congruence|done|]. exists rd', b', rb'. splits; [done..|lia].
Qed.

End Run.
