(* ===== verification/QueryLoop.v ===== *)
(** Executing a query: the loop of [p_exec_query], and the operations of its callers. *)
From S2P Require Import Prelude Names DnsName Compress RrTypes HashTab RrList Cent CentSpec Cache CacheInv CachePurge CacheAdd CacheOps CacheThms.
From S2P Require Import Answer AnswerRr AnswerSet Query QueryDecode QuerySafe Reply ReplyData ReplySpec Exec ExecStages ExecSpec.
From S2P Require Import Net NetSpec QuerySm SmSpec QueryExec QueryRun.

(** ** What is assumed of a query and its surroundings *)

(** The ports and the size of a datagram are in their ranges. *)
Definition net_conf_ok (conf : net_conf) : Prop :=
  (query_port_end conf <= 65535)%Z /\ 0 < udpbufsize conf /\ (Z.of_nat (udpbufsize conf) < 65536)%Z.

(** With an implementation of [realloc] that frees for a size of zero, no server announces an
    empty message: no two bytes that are read are both zero. *)
Definition no_empty_reply (K : kernel) (rf : bool) : Prop :=
  rf = false \/ forall t l, k_read K t 2 = inr l -> take 2 l <> [0; 0]%Z.

Section Loop.
Context {P : Platform} (now : Z) (global : globals) (pol : policies).
Context (C : cache) (K : kernel) (rf : bool) (conf : net_conf).
Context (HK : kernel_ok K) (Hconf : net_conf_ok conf) (Hrf : no_empty_reply K rf).
Context (G : gmap positive conn) (F : gmap positive (list Z)).
Context (entp : bool) (name : option (list Z)) (qn : option (list (list Z))) (thint : Z) (Hqn : wf_qn qn) (Hname : name_is qn name).
Context (Hentp : entp = true -> is_Some name) (Hth : thint_ok thint) (Hpol : conf_ok pol) (HC : ready C).
Context (ns : list (list Z)) (l : list (list (list Z) * list (list Z))) (Hns : ns_pairs ns l).

(** The result of a reply [m] with the return code [rcode] to a query with the RD bit [rd]. *)
Definition reply_result (m : list Z) (rd rcode : Z) (st : query_stat) (c : cache) : option (exec_result * cache) :=
  match name with
  | Some n => if entp then use_reply now global pol m n thint rd rcode st ns c
              else Some ({| ex_rv := rcode; ex_ent := None; ex_ns := ns; ex_c_soa := None; ex_st := st |}, c)
  | None => Some ({| ex_rv := rcode; ex_ent := None; ex_ns := ns; ex_c_soa := None; ex_st := st |}, c)
  end.

(** A bound on the calls that a query over TCP still needs when sockets are ready. *)
Definition calls_left (st : query) (rd : Z) : Z := (Z.of_nat (resends st rd) * 70000 + todo st)%Z.

(** A query that waits for its socket; [N] bounds the calls that were left before. *)
Definition pending (L : list conn) (N : Z) (st0 st : query) (r : exec_result) (w : world) : Prop :=
  like st0 st /\ r = {| ex_rv := (-1); ex_ent := None; ex_ns := ns; ex_c_soa := None; ex_st := q_stat st |} /\
  exists rd b rb, is_query conf qn thint st rd b /\ waits C conf G F L st b rb w /\
    (responsive K -> is_tcp st0 -> is_tcp st /\ calls_left st rd < N)%Z.

(** A query that has failed. *)
Definition unanswered (st0 st : query) (r : exec_result) (w : world) : Prop :=
  like st0 st /\ mem_step C (w_cache w) /\ exists rv, r = {| ex_rv := rv; ex_ent := None; ex_ns := ns; ex_c_soa := None; ex_st := q_stat st |} /\
    ((1 <= rv < 16)%Z \/ (rv = RC_FATALERR /\ ~ plenty C)).

(** A query whose reply was used: the message [b] went to the server, and the reply [m] to it
    came back, over the socket that was closed last. *)
Definition answered (L : list conn) (st0 : query) (r : exec_result) (w : world) : Prop :=
  exists st1 rd b m rcode c L1 C1, like st0 st1 /\ is_query conf qn thint st1 rd b /\ past w = c :: L1 ++ L /\ exchange conf st1 b m c /\ bytes m /\
    good_header st1 m rcode /\ mem_step C C1 /\ reply_result m rd rcode (q_stat st1) C1 = Some (r, w_cache w).

(** A query that is done holds nothing. *)
Definition finished (L : list conn) (st0 st : query) (r : exec_result) (w : world) : Prop :=
  q_state st = QS_DONE /\ socks w = G /\ heap w = F /\ (exists L1, past w = L1 ++ L) /\ (unanswered st0 st r w \/ (q_stat st = ex_st r /\ answered L st0 r w)).

Definition executed (L : list conn) (N : Z) (st0 : query) (x : exec_result * query) (w : world) : Prop :=
  q_a x.2 = q_a st0 /\ q_timeout x.2 = q_timeout st0 /\ (pending L N st0 x.2 x.1 w \/ finished L st0 x.2 x.1 w).

Lemma executed_like L N N' st st' x w : like st st' -> (is_tcp st -> is_tcp st' /\ (N' <= N)%Z) -> executed L N' st' x w -> executed L N st x w.
Proof.
  intros Hlk Htcp (Ha & Ht & H). pose proof Hlk as (Ea & Et & _). split; [congruence|]. split; [congruence|].
  destruct H as [(? & ? & rd & b & rb & H1 & H2 & H3)|(H1 & H2 & H3 & H4 & H5)].
  - left. split; [by eapply like_query_trans|]. split; [done|]. exists rd, b, rb. splits; [done..|]. intros Hr Htc. destruct (Htcp Htc). destruct (H3 Hr) as [? ?]; [done|]. split; [done|lia].
  - right. unfold finished. splits; try done. destruct H5 as [[? ?]|[? (st1 & rd & b & m & rc & c & L1 & C1 & Hlk' & H5)]]; [left; split; [by eapply like_query_trans|done]|]. right. split; [done|].
    exists st1, rd, b, m, rc, c, L1, C1. split; [by eapply like_query_trans|done].
Qed.

(** The blocks are freed. *)
Lemma iruns_free_msg S L H st b rb w : here C S L H w -> owns st F b rb H ->
  iruns (pdnsd_free (q_msg st)) w (fun _ w' => here C S L (hput (q_recvbuf st) rb F) w' /\ apart (q_recvbuf st) F).
Proof.
  intros Hw (i & mb & Hm & Hi & _ & Ha & ->). rewrite Hm. eapply iruns_weaken; [eapply iruns_free; [done|by apply apart_lookup]|].
  cbn beta. intros _ w' Hw'. destruct (q_recvbuf st) as [| |j]; cbn [hput apart] in *; [done|by rewrite delete_insert_id in Hw'|].
  destruct (decide (j = i)) as [->|]; [by rewrite lookup_insert_eq in Ha|]. rewrite lookup_insert_ne in Ha by done.
  rewrite delete_insert_ne, delete_insert_id in Hw' by done. done.
Qed.

Lemma iruns_free_both {A} (k : IO A) Q L st b rb w : at_hand C G L F st b rb w ->
  (forall L1 w', here C G (L1 ++ L) F w' -> iruns k w' Q) ->
  iruns (_ ← pdnsd_free (q_msg st); _ ← pdnsd_free (q_recvbuf st); k) w Q.
Proof.
  intros (L1 & H & Hw & Ho) Hk. io_with iruns_free_msg; [done|done|]. intros _ w1 [Hw1 Ha].
  io_with iruns_free_apart; [done|done|]. intros _ w2 Hw2. by eapply Hk.
Qed.

Lemma fail_range rv : fail_code C rv -> ((1 <= rv < 16)%Z \/ (rv = RC_FATALERR /\ ~ plenty C)).
Proof. intros [->|?]; [left; done|by right]. Qed.

Lemma iruns_query_failed L N st0 st b rb rv w : at_hand C G L F st b rb w -> like st0 st -> fail_code C rv ->
  iruns (query_failed rv ns st) w (executed L N st0).
Proof.
  intros Hh Hlk Hrv. pose proof Hlk as (Ea & Et & Est). unfold query_failed. eapply iruns_free_both; [done|]. intros L1 w1 Hw1. cbv zeta.
  assert (Hfin : forall st' w', here C G (L1 ++ L) F w' -> q_state st' = QS_DONE -> like st st' -> iruns (just rv ns st') w' (executed L N st0)).
  { intros st' w' (Hm & HS & HL & HH) Hs Hlk'. pose proof (like_query_trans _ _ _ Hlk Hlk') as Hlk2. io_ret. unfold executed. cbn. splits; [apply Hlk2..|]. right. unfold finished. splits; try done; [by exists L1|].
    left. split; [done|]. split; [done|]. exists rv. split; [done|by apply fail_range]. }
  destruct (_ =? 0)%Z; [by apply Hfin; [done|done|unfold like, stat_like; auto]|]. case_bool_decide; [|by apply Hfin; [done|done|unfold like, stat_like; auto]].
  io_with iruns_test; [done|]. intros _ w2 Hw2. by apply Hfin; [done|done|unfold like, stat_like; auto].
Qed.

Lemma iruns_discard_reply L N st0 st b rb rv w : at_hand C G L F st b rb w -> like st0 st -> (0 <= rv < 16)%Z ->
  iruns (discard_reply rv ns st) w (executed L N st0).
Proof.
  intros Hh Hlk Hrv. pose proof Hlk as (Ea & Et & Est). unfold discard_reply. eapply iruns_free_both; [done|]. intros L1 w1 (Hm & HS & HL & HH). io_ret. unfold executed. cbn.
  splits; [done..|]. right. unfold finished. splits; try done; [by exists L1|]. left. split; [done|]. split; [done|]. eexists. split; [done|]. left.
  destruct (rv =? RC_OK)%Z eqn:E; boolp; [done|]. unfold RC_OK in E. lia.
Qed.
Lemma stat_ok_like st st' : like st st' -> stat_ok (q_stat st) -> stat_ok (q_stat st').
Proof. intros (_ & _ & [->| ->]); done. Qed.

(** What [reply_result] does. *)
Lemma runs_reply_result m rd rcode st c : bytes m -> sizeof_dns_hdr_t <= length m -> stat_ok st -> ready c ->
  exists r c', reply_result m rd rcode st c = Some (r, c') /\ (if entp then ex_rv r <> (-1)%Z else ex_rv r = rcode).
Proof.
  intros Hb Hl Hst Hc. unfold reply_result. destruct name as [n|], qn as [N|], entp; try done; try (by eexists _, _).
  - destruct (runs_use_reply now global pol m Hb Hl n N thint rd rcode st ns l c) as (r & c' & E & _ & _ & Hrv & _); try done.
    exists r, c'. split; [done|]. destruct Hrv as [->|[->|[->|[-> _]]]]; done.
  - destruct (Hentp eq_refl). done.
Qed.

Lemma iruns_take_reply L N st0 st rd b m rcode w : received_reply C conf G F L st b m w -> is_query conf qn thint st rd b -> good_header st m rcode ->
  like st0 st -> stat_ok (q_stat st) -> iruns (take_reply now global pol entp name thint rcode ns st) w (executed L N st0).
Proof.
  intros (Hst & c & rb & L1 & H & i & Hbuf & Hlr & Em & Hbm & Hex & Hw & Ho) Hq Hgh Hlk Hok. unfold take_reply. pose proof Hlk as (Ea & Et & _).
  destruct (owns_msg _ _ _ _ _ Ho) as (j & mb & Hm & Hblk & Hl). rewrite Hm. io_with iruns_load; [done|exact Hl|]. intros mm w1 [-> Hw1].
  destruct (query_block_bits _ _ _ _ _ _ _ Hq Hblk) as [Erd _]. io_lift; [exact Erd|]. rewrite <- Hm.
  assert (Eland : Z.land rd 1 = rd) by (destruct Hq as [_ [->|[-> _]]]; done).
  io_with iruns_free_msg; [done|done|]. intros _ w2 [Hw2 Ha]. rewrite Hbuf in *. cbn [hput apart] in *.
  assert (Hlm : length m = q_recvl st) by (rewrite Em, length_take; lia).
  assert (Hrun : forall C1, mem_step C C1 -> exists r c', reply_result m rd rcode (q_stat st) C1 = Some (r, c')).
  { intros C1 HC1. destruct (runs_reply_result m rd rcode (q_stat st) C1) as (r & c' & Er & _); [done|apply Hgh|done|by eapply ready_mem; [apply HC1|]|]. by exists r, c'. }
  assert (Hfin : forall r C1 st' w', mem_step C C1 -> reply_result m rd rcode (q_stat st) C1 = Some (r, w_cache w') -> past w' = c :: L1 ++ L -> socks w' = G -> heap w' = F ->
    q_a st' = q_a st -> q_timeout st' = q_timeout st -> q_state st' = QS_DONE -> q_stat st' = ex_st r -> executed L N st0 (r, st') w').
  { intros r C1 st' w' HC1 Er HL HS HH Ha' Ht' Hs' Hx'. unfold executed. cbn. splits; [congruence..|]. right. unfold finished. cbn. splits; try done; [by exists (c :: L1)|].
    right. split; [done|]. by exists st, rd, b, m, rcode, c, L1, C1. }
  destruct entp eqn:Ee.
  - destruct (Hentp eq_refl) as [n En]. io_with iruns_load; [done|apply lookup_insert_eq|]. intros bf w3 [-> Hw3].
    apply iruns_bind. eapply (iruns_lift _ m); [unfold rd_bytes; rewrite decide_True by lia; by rewrite drop_0, Em|]. rewrite En.
    apply iruns_bind. eapply iruns_lift; [done|]. rewrite Eland. apply iruns_bind. destruct Hw3 as (Hm3 & HS3 & HL3 & HH3).
    destruct (Hrun (w_cache w3) Hm3) as (r & c' & Er). pose proof Er as Eu. unfold reply_result in Eu. rewrite En, Ee in Eu.
    exists r, (set_w_cache c' w3). split; [unfold cacheIO; by rewrite Eu|]. unfold pdnsd_free. apply iruns_bind, iruns_bind, iruns_get.
    io_lift; [cbn; rewrite HH3; apply lookup_insert_eq|]. apply iruns_mod, iruns_ret. eapply (Hfin r (w_cache w3)); try done. cbn. rewrite HH3. by apply delete_insert_id.
  - io_with iruns_free_apart; [done|exact Hw2|]. intros _ w3 (Hm3 & HS3 & HL3 & HH3). io_ret.
    eapply (Hfin _ (w_cache w3)); try done. unfold reply_result. rewrite Ee. destruct name; done.
Qed.

(** What there is to do for a query over TCP at its start. *)
Lemma start_tcp L st rd b rb w : is_query conf qn thint st rd b -> at_hand C G L F st b rb w -> q_state st = start_state st -> q_qm st = TCP_ONLY ->
  is_tcp st /\ (todo st < 70000)%Z.
Proof.
  intros Hq Hh Hs Hqm. assert (Es : q_state st = QS_TCPINITIAL) by (rewrite Hs; unfold start_state, use_udp; by rewrite Hqm).
  split; [unfold is_tcp; by rewrite Es|]. assert (Htr : q_transl st <= 283).
  { destruct Hh as (L1 & H & _ & Ho). destruct (owns_msg _ _ _ _ _ Ho) as (i & mb & _ & (sl & _ & -> & _) & _). destruct Hq as [-> _].
    pose proof (length_query_msg (q_myrid st) rd qn (qtype_of thint st) (opt_in conf qn st) Hqn). lia. }
  unfold todo. rewrite Es. lia.
Qed.

Lemma todo_nonneg st : (0 <= todo st)%Z.
Proof. unfold todo. destruct (q_state st); try lia. destruct (_ =? 0); lia. Qed.

Lemma iruns_exec_loop L fuel : forall st rd b rb w, in_progress C conf G F L st b rb w -> is_query conf qn thint st rd b -> resends st rd < fuel -> stat_ok (q_stat st) ->
  iruns (exec_loop now global pol K rf conf fuel entp name thint ns st) w (executed L (calls_left st rd) st).
Proof.
  destruct Hconf as (Hp1 & Hp2 & Hp3). induction fuel as [|fu IH]; intros st rd b rb w Hin Hq Hf Hok; [lia|]. cbn [exec_loop].
  apply iruns_bind. eapply iruns_weaken; [by eapply iruns_p_query_sm|]. cbn beta. intros [rv st1] w1 (Hk & b1 & Hb1 & Hres). cbn [fst snd] in *.
  pose proof (kept_like _ _ Hk) as Hlk. assert (Hok1 : stat_ok (q_stat st1)) by (by eapply stat_ok_like).
  assert (Hq1 : take 2 b1 = put16 (q_myrid st1) -> is_query conf qn thint st1 rd b1) by (intros E; destruct Hk as (_ & _ & ? & _ & ? & _); by eapply is_query_id).
  assert (Hre : resends st1 rd = resends st rd) by (destruct Hk as (_ & _ & E & _); unfold resends; by rewrite E).
  destruct Hres as [(-> & Hpr & rb1 & Hwt)|[(-> & m & Hrec)|(Hfc & Hd & rb1 & Hah)]].
  - bool_true (-1 =? -1)%Z. io_ret. unfold executed. cbn. splits; [apply Hlk..|]. left. split; [done|]. split; [done|]. exists rd, b1, rb1. splits; [|done|].
    + apply Hq1. destruct Hwt as (? & ? & _ & _ & _ & Hah). by eapply at_hand_id.
    + intros Hr Ht. destruct (Hpr Hr Ht). split; [done|]. unfold calls_left. rewrite Hre. lia.
  - change (RC_OK =? -1)%Z with false. change (negb (RC_OK =? RC_OK)%Z) with false. cbn match.
    assert (Hq1' : is_query conf qn thint st1 rd b1) by (apply Hq1; destruct (received_hand _ _ _ _ _ _ _ _ _ Hrec); by eapply at_hand_id).
    apply iruns_bind. eapply iruns_weaken; [by eapply iruns_check_reply|]. cbn beta. intros v w2 Hv.
    destruct v as [rv st2|rcode st2|st2]; cbn [judged] in Hv.
    + destruct Hv as (Hrv & Hlk2 & b2 & rb2 & Hah). eapply iruns_discard_reply; [done|by eapply like_query_trans|done].
    + destruct Hv as (Hrv & Hlk2 & Hq2 & Hgh & Hrec2). eapply iruns_take_reply; try done; [by eapply like_query_trans|by eapply stat_ok_like].
    + destruct Hv as (Hlk2 & Hqm & Hs2 & rd2 & b2 & rb2 & Hq2 & Hah2 & Hlt). eapply iruns_weaken; [eapply (IH st2 rd2 b2 rb2)|]; [| done | |by eapply stat_ok_like|].
      * left. split; [|done]. rewrite Hs2. unfold start_state. destruct (use_udp st2); auto.
      * lia.
      * intros x w3. apply executed_like; [by eapply like_query_trans|]. intros [Ht _]. destruct (start_tcp _ _ _ _ _ _ Hq2 Hah2 Hs2) as [? ?].
        { destruct Hk as (_ & _ & _ & _ & _ & _ & _ & [?|[? _]]); congruence. }
        split; [done|]. pose proof (todo_nonneg st). unfold calls_left. lia.
  - assert (rv <> (-1)%Z /\ rv <> RC_OK) as [H1 H2] by (destruct Hfc as [->|[-> _]]; done).
    bool_false (rv =? -1)%Z. bool_false (rv =? RC_OK)%Z. cbn [negb]. by eapply iruns_query_failed.
Qed.

(** A query between two calls: not started, waiting, or done; [N] bounds the calls that are left. *)
Definition resting (L : list conn) (N : Z) (st : query) (w : world) : Prop :=
  match q_state st with
  | QS_INITIAL => here C G L F w /\ (280000 <= N)%Z
  | QS_DONE | QS_CANCELED => here C G L F w
  | QS_TCPWRITE | QS_TCPREAD | QS_UDPRECEIVE => exists rd b rb, is_query conf qn thint st rd b /\ waits C conf G F L st b rb w /\ (calls_left st rd <= N)%Z
  | QS_TCPINITIAL | QS_UDPINITIAL => False
  end.

Lemma resends_2 st rd : resends st rd <= 2.
Proof. unfold resends. destruct (rd =? 0)%Z, (q_edns_query st); lia. Qed.

Lemma iruns_p_exec_query L N st w : resting L N st w -> stat_ok (q_stat st) ->
  iruns (p_exec_query now global pol K rf conf entp name thint ns st) w (executed L N st).
Proof.
  intros Hr Hok. destruct Hconf as (_ & Hudp). unfold resting in Hr. unfold p_exec_query.
  assert (Hidle : forall st' rv w', here C G L F w' -> q_state st' = QS_DONE -> like st st' ->
    ((1 <= rv < 16)%Z \/ (rv = RC_FATALERR /\ ~ plenty C)) -> iruns (just rv ns st') w' (executed L N st)).
  { intros st' rv w' (Hm & HS & HL & HH) Hs Hlk Hrv. io_ret. unfold executed. cbn. splits; [apply Hlk..|]. right. unfold finished. splits; try done; [by exists []|].
    left. split; [done|]. split; [done|]. by exists rv. }
  assert (Hgo : forall rd b rb, is_query conf qn thint st rd b -> waits C conf G F L st b rb w -> (calls_left st rd <= N)%Z ->
    iruns (exec_loop now global pol K rf conf 3 entp name thint ns st) w (executed L N st)).
  { intros rd b rb Hq Hwt HN. eapply iruns_weaken; [eapply (iruns_exec_loop L 3 st rd b rb); [by right|done|pose proof (resends_2 st rd); lia|done]|].
    intros x w'. apply executed_like; [apply like_query_refl|done]. }
  destruct (q_state st) eqn:Es; try done.
  - apply iruns_bind. eapply iruns_weaken; [eapply iruns_initial; try done; apply Hr|]. cbn beta. intros [st1|st1] w1 H1.
    + destruct H1 as (-> & Hnp & Hw1). apply Hidle; [done|done|unfold like, stat_like; auto|by right].
    + destruct H1 as (rd & b & Hss & Hs1 & _ & Hq & Hah). destruct Hr as [_ HN]. pose proof (server_like _ _ Hss) as Hlk.
      eapply iruns_weaken; [eapply (iruns_exec_loop L 3 st1 rd b [])|]; [|done|pose proof (resends_2 st1 rd); lia|by eapply stat_ok_like|].
      * left. split; [|done]. rewrite Hs1. unfold start_state. destruct (use_udp st1); auto.
      * intros x w2. apply executed_like; [done|]. intros [Ht _]. destruct (start_tcp _ _ _ _ _ _ Hq Hah Hs1) as [? ?]; [by destruct Hss as (_ & _ & _ & _ & _ & ->)|].
        split; [done|]. pose proof (resends_2 st1 rd). unfold calls_left. lia.
  - destruct Hr as (rd & b & rb & Hq & Hwt & HN). by eapply Hgo.
  - destruct Hr as (rd & b & rb & Hq & Hwt & HN). by eapply Hgo.
  - destruct Hr as (rd & b & rb & Hq & Hwt & HN). by eapply Hgo.
  - apply Hidle; [done|done|unfold like, stat_like; auto|by left].
  - apply Hidle; [done|done|unfold like, stat_like; auto|by left].
Qed.

(** ** Cancelling and timeouts *)

Lemma iruns_close_sock L st b rb w : waits C conf G F L st b rb w -> iruns (close_sock st) w (fun _ w' => at_hand C G L F st b rb w').
Proof.
  intros (fd & c & Hfd & Hf & _ & L1 & H & Hw & Ho). unfold close_sock. io_lift; [exact Hfd|].
  eapply iruns_weaken; [by eapply iruns_close_own|]. cbn beta. intros _ w' Hw'. by exists (c :: L1), H.
Qed.

Lemma iruns_p_cancel_query L N st w : resting L N st w ->
  iruns (p_cancel_query st) w (fun st' w' => (exists L1, here C G (L1 ++ L) F w') /\ q_stat st' = q_stat st /\
    (q_state st' = if bool_decide (q_state st = QS_INITIAL) then QS_INITIAL else if bool_decide (q_state st = QS_DONE) then QS_DONE else QS_CANCELED) /\ q_a st' = q_a st).
Proof.
  intros Hr. unfold resting in Hr. unfold p_cancel_query. destruct (q_state st) eqn:Es; try done.
  1,5,6: apply iruns_bind, iruns_ret, iruns_bind, iruns_ret, iruns_ret; split; [exists []; apply Hr|done].
  all: destruct Hr as (rd & b & rb & Hq & Hwt & _); io_with iruns_close_sock; [done|]; intros _ w1 (L1 & H & Hw & Ho);
    pose proof Ho as (i & mb & Hm & Hi & Hb & Ha & ->); apply iruns_bind;
    (io_with iruns_free_apart; [exact Ha|exact Hw|]); intros _ w2 Hw2; rewrite Hm;
    (eapply iruns_weaken; [eapply iruns_free; [exact Hw2|apply lookup_insert_eq]|]); cbn beta; intros _ w3 Hw3; rewrite delete_insert_id in Hw3 by done;
    io_ret; split; [by exists L1|done].
Qed.

Lemma iruns_switch_to_udp L st b rb w : at_hand C G L F st b rb w ->
  iruns (switch_to_udp K st) w (fun st' w' => q_state st' = QS_UDPINITIAL /\ q_a st' = q_a st /\ q_timeout st' = q_timeout st /\ q_stat st' = q_stat st /\
    q_edns_query st' = q_edns_query st /\ exists b', drop 2 b' = drop 2 b /\ at_hand C G L F st' b' rb w').
Proof.
  intros Hh. unfold switch_to_udp. apply iruns_bind. assert (Hh' : at_hand C G L F (q_set_qm UDP_ONLY st) b rb w) by exact Hh.
  eapply iruns_weaken; [by apply iruns_new_id|]. cbn beta. intros st2 w3 (r & -> & Hh2). io_ret. splits; try done. eexists. split; [|exact Hh2]. done.
Qed.

Lemma iruns_timed_out L N st w : resting L N st w -> stat_ok (q_stat st) ->
  iruns (timed_out now global pol K rf conf entp name thint ns st) w (fun x w' =>
    match x.1 with
    | Some r => executed L N st (r, x.2) w'
    | None => resting L N x.2 w' /\ q_stat x.2 = q_stat st /\ q_a x.2 = q_a st
    end).
Proof.
  intros Hr Hok. unfold timed_out. cbv zeta. set (st1 := if _ && _ then q_set_needs_testing 2 st else st).
  assert (E1 : resting L N st1 w /\ stat_ok (q_stat st1) /\ like st st1).
  { unfold st1. destruct (_ && _); [|splits; [done..|apply like_query_refl]]. splits; [exact Hr|exact Hok|unfold like, stat_like; cbn; auto]. }
  assert (Es : q_stat st1 = q_stat st /\ q_qm st1 = q_qm st) by (unfold st1; destruct (_ && _); done). destruct Es as [Es Eqm]. clearbody st1. destruct E1 as (Hr1 & Hok1 & Hlk).
  destruct (tentative_tcp_query st1) eqn:Et; [|io_ret; destruct Hlk as [? _]; done]. unfold tentative_tcp_query in Et. apply andb_true_iff in Et as [Eq Et]. apply bool_decide_eq_true in Eq.
  assert (Hwt : exists rd b rb, is_query conf qn thint st1 rd b /\ waits C conf G F L st1 b rb w).
  { unfold resting in Hr1. destruct (q_state st1); cbn in Et; try done; destruct Hr1 as (rd & b & rb & ? & ? & _); by exists rd, b, rb. }
  clear Et. destruct Hwt as (rd & b & rb & Hq & Hwt). io_with iruns_close_sock; [done|]. intros _ w1 Hh1.
  io_with iruns_switch_to_udp; [done|]. intros st2 w2 (Hs2 & Ha2 & Ht2 & Hst2 & He2 & b' & Hb' & Hh2).
  apply iruns_bind. unfold p_exec_query. rewrite Hs2. eapply iruns_weaken; [eapply (iruns_exec_loop L 3 st2 rd b' rb)|].
  - left. by split; [right|].
  - eapply is_query_id; [exact Hq|done|by eapply at_hand_id|done|done].
  - pose proof (resends_2 st2 rd). lia.
  - by rewrite Hst2.
  - cbn beta. intros [r st3] w3 H3. io_ret. cbn. eapply executed_like; [|intros [? _]|exact H3]; [|congruence].
    eapply like_query_trans; [exact Hlk|]. unfold like, stat_like. auto.
Qed.
End Loop.
