(* ===== verification/QueryStep.v ===== *)
(** Queries between the calls of [p_exec_query]: the steps of a query and what holds between them. *)
From S2P Require Import Prelude Names DnsName Compress RrTypes HashTab RrList Cent CentSpec Cache CacheInv CachePurge CacheAdd CacheOps CacheThms.
From S2P Require Import Answer AnswerRr AnswerSet Query QueryDecode QuerySafe Reply ReplyData ReplySpec Exec ExecStages ExecSpec.
From S2P Require Import Net NetSpec QuerySm SmSpec QueryExec QueryRun QueryLoop.

(** ** Queries between calls *)

Lemma here_now C S L H w : here C S L H w -> here (w_cache w) S L H w.
Proof. intros (_ & ? & ? & ?). unfold here. splits; auto with pdnsd. Qed.

Lemma waits_now C conf G F L st b rb w : waits C conf G F L st b rb w -> waits (w_cache w) conf G F L st b rb w.
Proof. intros (fd & c & ? & ? & ? & L1 & H & Hw & Ho). exists fd, c. splits; [done..|]. exists L1, H. split; [by eapply here_now|done]. Qed.

Section Rest.
Context {P : Platform} (now : Z) (global : globals) (pol : policies).
Context (C : cache) (K : kernel) (rf : bool) (conf : net_conf) (G : gmap positive conn) (F : gmap positive (list Z)).
Context (entp : bool) (name : option (list Z)) (qn : option (list (list Z))) (thint : Z) (Hqn : wf_qn qn) (Hname : name_is qn name).
Context (Hentp : entp = true -> is_Some name) (Hth : thint_ok thint) (Hpol : conf_ok pol) (HC : ready C).
Context (ns : list (list Z)) (l : list (list (list Z) * list (list Z))) (Hns : ns_pairs ns l).

(** A reply leaves the cache and the query in order. *)
Lemma reply_result_ok m rd rcode st c r c' : bytes m -> sizeof_dns_hdr_t <= length m -> stat_ok st -> ready c ->
  reply_result now global pol entp name thint ns m rd rcode st c = Some (r, c') ->
  ready c' /\ stat_ok (ex_st r) /\ ((0 <= rcode < 16)%Z -> ex_rv r <> (-1)%Z) /\ (exists l', ns_pairs (ex_ns r) l') /\
  (is_Some (ex_ent r) -> entp = true).
Proof.
  intros Hb Hl Hst Hc E. unfold reply_result in E.
  assert (Hplain : Some ({| ex_rv := rcode; ex_ent := None; ex_ns := ns; ex_c_soa := None; ex_st := st |}, c) = Some (r, c') ->
    ready c' /\ stat_ok (ex_st r) /\ ((0 <= rcode < 16)%Z -> ex_rv r <> (-1)%Z) /\ (exists l', ns_pairs (ex_ns r) l') /\ (is_Some (ex_ent r) -> entp = true)).
  { intros [= <- <-]. cbn. splits; first [done|lia|by exists l|by intros [? ?]]. }
  destruct name as [n|]; [|by apply Hplain]. destruct entp; [|by apply Hplain]. destruct qn as [N|]; [|done].
  destruct (runs_use_reply now global pol m Hb Hl n N thint rd rcode st ns l c) as (r' & c2 & E2 & Hg & Hsq & Hrv & _ & _ & _ & l' & Hl' & _); try done.
  rewrite E in E2. injection E2 as <- <-. destruct Hg as (Hg & Hi & _). splits; [done| | |by exists l'|done].
  - destruct Hsq as (_ & _ & E3 & E4). unfold stat_ok. by rewrite E3, E4.
  - intros _. destruct Hrv as [->|[->|[->|[-> _]]]]; done.
Qed.

Lemma good_header_len st m rcode : good_header st m rcode -> sizeof_dns_hdr_t <= length m.
Proof. by intros [? _]. Qed.

Lemma executed_rests L N st0 x w : stat_ok (q_stat st0) -> executed now global pol C K conf G F entp name qn thint ns L N st0 x w ->
  ready (w_cache w) /\ stat_ok (q_stat x.2) /\ exists N' L', resting (w_cache w) conf G F qn thint L' N' x.2 w.
Proof.
  intros Hst (Ha & Ht & [(Hlk & Hx & rd & b & rb & Hq & Hwt & _)|(Hd & HS & HH & (L1 & HL) & Hfin)]).
  - pose proof Hwt as (fd & c & _ & _ & [_ Hwaiting] & L1 & H & [Hm _] & _). splits.
    + by eapply ready_mem; [apply Hm|].
    + by eapply stat_ok_like.
    + exists (calls_left x.2 rd), L. apply waits_now in Hwt. unfold resting. destruct (q_state x.2); try done; by exists rd, b, rb.
  - assert (Hrest : forall c, mem_step c (w_cache w) -> exists N' L', resting (w_cache w) conf G F qn thint L' N' x.2 w).
    { intros c Hc. exists 0%Z, (L1 ++ L). unfold resting. rewrite Hd. eapply here_now. by split; [exact Hc|]. }
    destruct Hfin as [(Hlk & Hm & rv & _ & _)|(Hx & st1 & rd & b & m & rc & c & L2 & C1 & Hlk & Hq & HL' & Hex & Hbm & Hgh & HC1 & Hres)].
    + splits; [by eapply ready_mem; [apply Hm|]| |by eapply Hrest]. by eapply stat_ok_like.
    + apply reply_result_ok in Hres as (Hr & Hs & _); [|done|by eapply good_header_len|by eapply stat_ok_like|by eapply ready_mem; [apply HC1|]].
      splits; [done|by rewrite Hx|]. eapply Hrest. auto with pdnsd.
Qed.
End Rest.

Section Steps.
Context {P : Platform} (global : globals) (pol : policies) (K : kernel) (rf : bool) (conf : net_conf).
Context (entp : bool) (name : option (list Z)) (thint : Z).

(** What can happen to a query: it is executed, times out or is cancelled; a truncated reply
    makes it start again over TCP; and others use the cache in the meantime. *)
Inductive qstep : query * world -> query * world -> Prop :=
  | step_exec now ns l st w r st' w' : ns_pairs ns l ->
      p_exec_query now global pol K rf conf entp name thint ns st w = Some ((r, st'), w') -> qstep (st, w) (st', w')
  | step_timeout now ns l st w r st' w' : ns_pairs ns l ->
      timed_out now global pol K rf conf entp name thint ns st w = Some ((r, st'), w') -> qstep (st, w) (st', w')
  | step_cancel st w st' w' : p_cancel_query st w = Some (st', w') -> qstep (st, w) (st', w')
  | step_retry st st' w : q_state st = QS_DONE -> retry_tcp st = Some st' -> qstep (st, w) (st', w)
  | step_cache st w c : ready c -> qstep (st, w) (st, set_w_cache c w).

Context (HK : kernel_ok K) (Hconf : net_conf_ok conf) (Hrf : no_empty_reply K rf).
Context (qn : option (list (list Z))) (Hqn : wf_qn qn) (Hname : name_is qn name).
Context (Hentp : entp = true -> is_Some name) (Hth : thint_ok thint) (Hpol : conf_ok pol).
Context (G : gmap positive conn) (F : gmap positive (list Z)).

(** The invariant. *)
Definition at_rest (x : query * world) : Prop :=
  ready (w_cache x.2) /\ stat_ok (q_stat x.1) /\ exists N L, resting (w_cache x.2) conf G F qn thint L N x.1 x.2.

(** Others have used the cache. *)
Lemma resting_cache C c L N st w : resting C conf G F qn thint L N st w -> resting c conf G F qn thint L N st (set_w_cache c w).
Proof.
  assert (Hh : forall S L H, here C S L H w -> here c S L H (set_w_cache c w)) by (intros S L0 H (_ & ? & ? & ?); unfold here; splits; auto with pdnsd).
  unfold resting. destruct (q_state st); try done; [|intros (rd & b & rb & Hq & (fd & cn & ? & ? & ? & L1 & H & Hw & Ho) & HN)..|auto|auto].
  1: intros [Hw ?]; auto.
  all: exists rd, b, rb; splits; [done| |done]; exists fd, cn; splits; [done..|]; exists L1, H; auto.
Qed.

Lemma resting_now C L N st w : resting C conf G F qn thint L N st w -> mem_step C (w_cache w) /\ resting (w_cache w) conf G F qn thint L N st w.
Proof.
  intros Hr. split; [|pose proof (resting_cache _ (w_cache w) _ _ _ _ Hr) as E; by destruct w].
  unfold resting in Hr. destruct (q_state st); try done; [apply Hr|destruct Hr as (rd & b & rb & Hq & (fd & cn & ? & ? & ? & L1 & H & Hw & Ho) & HN); apply Hw..|apply Hr|apply Hr].
Qed.

Lemma rest_idle C L st w : q_state st = QS_INITIAL \/ q_state st = QS_DONE \/ q_state st = QS_CANCELED ->
  here C G L F w -> exists N L, resting (w_cache w) conf G F qn thint L N st w.
Proof.
  intros Hs Hw. exists 280000%Z, L. apply here_now in Hw. unfold resting. destruct Hs as [->|[->| ->]]; [|done..]. split; [done|lia].
Qed.

Lemma qstep_rest x y : qstep x y -> at_rest x -> at_rest y.
Proof.
  intros Hs. destruct Hs as [now ns l st w r st' w' Hns E|now ns l st w r st' w' Hns E|st w st' w' E|st st' w Hd E|st w c Hc]; intros (Hr & Hok & N & L & Hrest); cbn [fst snd] in *.
  - destruct (iruns_p_exec_query now global pol (w_cache w) K rf conf HK Hconf Hrf G F entp name qn thint Hqn Hname Hentp Hth Hpol Hr ns l Hns L N st w Hrest Hok) as (x & w2 & E2 & Hx).
    rewrite E in E2. injection E2 as <- <-. by eapply executed_rests in Hx.
  - destruct (iruns_timed_out now global pol (w_cache w) K rf conf HK Hconf Hrf G F entp name qn thint Hqn Hname Hentp Hth Hpol Hr ns l Hns L N st w Hrest Hok) as (x & w2 & E2 & Hx).
    rewrite E in E2. injection E2 as <- <-. cbn [fst snd] in Hx. destruct r as [r|]; [by eapply executed_rests in Hx|].
    destruct Hx as (Hx & Es & _). apply resting_now in Hx as [Hm Hx]. unfold at_rest. cbn [fst snd]. rewrite Es. splits; [eapply ready_mem; [apply Hm|done]|done|by exists N, L].
  - destruct (iruns_p_cancel_query (w_cache w) conf G F qn thint L N st w Hrest) as (x & w2 & E2 & (L1 & Hx) & Es & Hst' & _).
    rewrite E in E2. injection E2 as <- <-. unfold at_rest. cbn [fst snd]. rewrite Es. splits; [eapply ready_mem; [apply Hx|done]|done|].
    eapply rest_idle; [|exact Hx]. rewrite Hst'. repeat case_bool_decide; auto.
  - unfold retry_tcp in E. destruct (_ && _); [|done]. injection E as <-. unfold at_rest. cbn [fst snd]. splits; [done|exact Hok|]. eapply rest_idle; [by left|].
    unfold resting in Hrest. rewrite Hd in Hrest. exact Hrest.
  - unfold at_rest. cbn [fst snd]. splits; [done|done|]. exists N, L. by eapply resting_cache.
Qed.

(** The server of a query stays the same. *)
Lemma qstep_server x y : qstep x y -> at_rest x -> q_a y.1 = q_a x.1.
Proof.
  intros Hs. destruct Hs as [now ns l st w r st' w' Hns E|now ns l st w r st' w' Hns E|st w st' w' E|st st' w Hd E|st w c Hc]; intros (Hr & Hok & N & L & Hrest); cbn [fst snd] in *.
  - destruct (iruns_p_exec_query now global pol (w_cache w) K rf conf HK Hconf Hrf G F entp name qn thint Hqn Hname Hentp Hth Hpol Hr ns l Hns L N st w Hrest Hok) as (x & w2 & E2 & Hx).
    rewrite E in E2. injection E2 as <- <-. apply Hx.
  - destruct (iruns_timed_out now global pol (w_cache w) K rf conf HK Hconf Hrf G F entp name qn thint Hqn Hname Hentp Hth Hpol Hr ns l Hns L N st w Hrest Hok) as (x & w2 & E2 & Hx).
    rewrite E in E2. injection E2 as <- <-. cbn [fst snd] in Hx. destruct r as [r|]; apply Hx.
  - destruct (iruns_p_cancel_query (w_cache w) conf G F qn thint L N st w Hrest) as (x & w2 & E2 & _ & _ & _ & Ha). rewrite E in E2. by injection E2 as <- <-.
  - unfold retry_tcp in E. destruct (_ && _); [|done]. by injection E as <-.
  - done.
Qed.

Lemma steps_server x y : rtc qstep x y -> at_rest x -> q_a y.1 = q_a x.1.
Proof. induction 1 as [|x y z Hs _ IH]; intros Hx; [done|]. rewrite IH by (by eapply qstep_rest). by apply qstep_server. Qed.

(** The sockets that were closed before a call. *)
Lemma resting_past C L N st w : resting C conf G F qn thint L N st w -> resting C conf G F qn thint (past w) N st w.
Proof.
  unfold resting. destruct (q_state st); try done; [|intros (rd & b & rb & Hq & (fd & cn & ? & ? & ? & L1 & H & Hw & Ho) & HN)..| |].
  1: intros [(? & ? & _ & ?) ?]; unfold here; splits; auto.
  4,5: intros (? & ? & _ & ?); unfold here; splits; auto.
  all: exists rd, b, rb; splits; [done| |done]; exists fd, cn; splits; [done..|]; exists [], H; split; [|done]; destruct Hw as (? & ? & _ & ?); unfold here; splits; auto.
Qed.

Lemma new_rests st w : q_state st = QS_INITIAL -> stat_ok (q_stat st) -> ready (w_cache w) -> socks w = G -> heap w = F -> at_rest (st, w).
Proof.
  intros Hs Hok Hr HS HH. unfold at_rest. cbn [fst snd]. splits; [done..|]. eapply (rest_idle (w_cache w) (past w)); [by left|]. unfold here. splits; auto with pdnsd.
Qed.

Lemma steps_rest x y : rtc qstep x y -> at_rest x -> at_rest y.
Proof. induction 1; eauto using qstep_rest. Qed.

Lemma at_rest_idle st w : at_rest (st, w) -> q_state st ∈ [QS_INITIAL; QS_DONE; QS_CANCELED] -> socks w = G /\ heap w = F.
Proof.
  intros (_ & _ & N & L & Hr) Hs. unfold resting in Hr. cbn [fst snd] in *.
  rewrite !elem_of_cons, elem_of_nil in Hs. destruct Hs as [E|[E|[E|[]]]]; rewrite E in Hr.
  - destruct Hr as [(_ & ? & _ & ?) _]. done.
  - destruct Hr as (_ & ? & _ & ?). done.
  - destruct Hr as (_ & ? & _ & ?). done.
Qed.

(** Calls of [p_exec_query] until it does not return -1, as [p_recursive_query] makes them
    whenever [poll] reports the socket. *)
Fixpoint run_query (now : Z) (calls : nat) (ns : list (list Z)) (st : query) : IO (option (exec_result * query)) :=
  match calls with
  | O => mret None
  | S n =>
      '(r, st) ← p_exec_query now global pol K rf conf entp name thint ns st;
      if (ex_rv r =? -1)%Z then run_query now n ns st else mret (Some (r, st))
  end.

Lemma h_rcode_range f : (0 <= h_rcode f < 16)%Z.
Proof. unfold h_rcode. change 15%Z with (Z.ones 4). rewrite Z.land_ones by lia. apply Z.mod_pos_bound. lia. Qed.

Lemma finished_rv C now ns l L st0 st r w : ready C -> ns_pairs ns l -> stat_ok (q_stat st0) -> finished now global pol C conf G F entp name qn thint ns L st0 st r w -> ex_rv r <> (-1)%Z.
Proof.
  intros HC Hns Hok (_ & _ & _ & _ & [(_ & _ & rv & -> & Hrv)|(_ & st1 & rd & b & m & rc & c & L1 & C1 & Hlk & _ & _ & _ & Hbm & Hgh & HC1 & Hres)]); [cbn; unfold RC_FATALERR in *; lia|].
  pose proof Hgh as (Hl & _ & f1 & f2 & _ & _ & _ & _ & _ & ->).
  eapply reply_result_ok in Hres as (_ & _ & Hrv & _); try done; [apply Hrv, h_rcode_range|by eapply stat_ok_like|by eapply ready_mem; [apply HC1|]].
Qed.

Lemma iruns_run_query C now ns l calls : responsive K -> ready C -> ns_pairs ns l -> forall st w N L, resting C conf G F qn thint L N st w -> stat_ok (q_stat st) -> is_tcp st ->
  (N < Z.of_nat calls)%Z -> (q_state st <> QS_INITIAL -> 0 <= N)%Z -> iruns (run_query now calls ns st) w (fun x w' => exists r st', x = Some (r, st') /\ ex_rv r <> (-1)%Z /\ q_state st' = QS_DONE /\ socks w' = G /\ heap w' = F).
Proof.
  intros Hresp HC Hns. induction calls as [|n IH]; intros st w N L Hr Hok Ht HN H0.
  { exfalso. unfold resting in Hr. destruct (q_state st) eqn:Es; try done; try (specialize (H0 ltac:(done)); lia). destruct Hr. lia. }
  cbn [run_query]. apply iruns_bind.
  eapply iruns_weaken; [eapply (iruns_p_exec_query now global pol C K rf conf HK Hconf Hrf G F entp name qn thint Hqn Hname Hentp Hth Hpol HC ns l Hns L N st w Hr Hok)|].
  cbn beta. intros [r st1] w1 (_ & _ & [(Hlk & Hx & rd & b & rb & Hq & Hwt & Hpr)|Hfin]); cbn [fst snd] in *.
  - rewrite Hx. cbn [ex_rv]. bool_true (-1 =? -1)%Z. destruct (Hpr Hresp Ht) as [Ht1 HN1].
    eapply (IH st1 w1 (calls_left st1 rd) L); [|by eapply stat_ok_like|done|lia|].
    + pose proof Hwt as (fd & c & _ & _ & [_ Hwaiting] & _). unfold resting. destruct (q_state st1); try done; exists rd, b, rb; splits; try done; lia.
    + intros _. pose proof (todo_nonneg st1). unfold calls_left. lia.
  - pose proof (finished_rv C now ns l L st st1 r w1 HC Hns Hok Hfin) as Hrv. bool_false (ex_rv r =? -1)%Z. io_ret.
    destruct Hfin as (? & ? & ? & _). by exists r, st1.
Qed.
End Steps.
