(* ===== verification/QueryIoThms.v ===== *)
(** The theorems about the execution of queries. *)
From S2P Require Import Prelude Names DnsName Compress RrTypes HashTab RrList Cent CentSpec Cache CacheInv CachePurge CacheAdd CacheOps CacheThms.
From S2P Require Import Answer AnswerRr AnswerSet Query QueryDecode QuerySafe QueryThms Reply ReplyData ReplySpec Exec ExecStages ExecSpec ExecThms.
From S2P Require Import Net NetSpec QuerySm SmSpec QueryExec QueryRun QueryLoop QueryStep.

Section Theorems.
Context {P : Platform} (global : globals) (pol : policies) (K : kernel) (rf : bool) (conf : net_conf).
Context (entp : bool) (name : option (list Z)) (thint : Z) (qn : option (list (list Z))).

(** C8: whatever system calls and allocations fail, and in whatever order a query is
    executed, cancelled, times out and is started again over TCP, while others use the cache:
    every operation is defined, so that no block is freed twice or used after it was freed and
    no socket is closed twice; a query that is done, cancelled or not yet started holds neither a socket
    nor a block, and cancelling gives back whatever a query holds.  With an implementation of
    [realloc] that frees for a size of zero this needs that no server announces an empty message. *)
Theorem query_steps_safe (st0 st : query) (w0 w : world) :
  kernel_ok K -> net_conf_ok conf -> no_empty_reply K rf -> wf_qn qn -> name_is qn name -> (entp = true -> is_Some name) -> thint_ok thint -> conf_ok pol ->
  q_state st0 = QS_INITIAL -> stat_ok (q_stat st0) -> ready (w_cache w0) -> rtc (qstep global pol K rf conf entp name thint) (st0, w0) (st, w) ->
  (forall now ns l, ns_pairs ns l -> is_Some (p_exec_query now global pol K rf conf entp name thint ns st w) /\
     is_Some (timed_out now global pol K rf conf entp name thint ns st w)) /\
  (exists st' w', p_cancel_query st w = Some (st', w') /\ q_state st' ∈ [QS_INITIAL; QS_DONE; QS_CANCELED] /\ socks w' = socks w0 /\ heap w' = heap w0) /\
  (q_state st ∈ [QS_INITIAL; QS_DONE; QS_CANCELED] -> socks w = socks w0 /\ heap w = heap w0).
Proof.
  intros HK Hc Hrf Hqn Hname He Hth Hpol Hs0 Hok0 Hr0 Hsteps.
  assert (Hrest : at_rest conf thint qn (socks w0) (heap w0) (st, w)) by (eapply steps_rest; try done; by apply new_rests).
  pose proof Hrest as (Hr & Hok & N & L & Hx). cbn [fst snd] in *. splits.
  - intros now ns l Hns. split.
    + destruct (iruns_p_exec_query now global pol (w_cache w) K rf conf HK Hc Hrf (socks w0) (heap w0) entp name qn thint Hqn Hname He Hth Hpol Hr ns l Hns L N st w Hx Hok)
        as (x & w2 & E & _). by eexists.
    + destruct (iruns_timed_out now global pol (w_cache w) K rf conf HK Hc Hrf (socks w0) (heap w0) entp name qn thint Hqn Hname He Hth Hpol Hr ns l Hns L N st w Hx Hok)
        as (x & w2 & E & _). by eexists.
  - destruct (iruns_p_cancel_query (w_cache w) conf (socks w0) (heap w0) qn thint L N st w Hx) as (st' & w' & E & (L1 & Hw') & _ & Hst' & _).
    destruct Hw' as (_ & ? & _ & ?). exists st', w'. splits; try done. rewrite Hst', !elem_of_cons. repeat case_bool_decide; auto.
  - by eapply at_rest_idle.
Qed.

(** An entry comes only from a reply that was received over the socket [c], which was connected to the server [a] of the
    query and closed since [w]: the message that went out there is the query, and the reply to it with its identifier is
    what [use_reply] was given. *)
Definition genuine (now : Z) (ns : list (list Z)) (n : list Z) (N : list (list Z)) (a : sockaddr) (st : query) (w : world) (r : exec_result) (w' : world) : Prop :=
  forall e, ex_ent r = Some e ->
    exists id rd opt m rcode c L C1 st1, past w' = c :: L ++ past w /\ mem_step (w_cache w) C1 /\ stat_like (q_stat st) st1 /\
      let b := query_msg id rd (Some N) (if qs_lean_query st1 then thint else QT_ALL) opt in
      c_peer c = Some a /\ port_ok (query_port_start conf) (query_port_end conf) (c_port c) /\ (rd = 0 \/ rd = 1 /\ qs_trusted st1 = true)%Z /\
      match c_type c with
      | SOCK_STREAM => concat (c_sent c) = put16 (Z.of_nat (length b)) ++ b /\ concat (c_recv c) = put16 (Z.of_nat (length m)) ++ m
      | SOCK_DGRAM => c_sent c = [b] /\ exists ds, c_recv c = ds ++ [m]
      end /\
      answers id m rcode /\ use_reply now global pol m n thint rd rcode st1 ns C1 = Some (r, w_cache w').

Lemma finished_genuine now ns l n N G F C0 st r st' w w' : ready C0 -> C0 = w_cache w -> ns_pairs ns l -> wire_name n N -> stat_ok (q_stat st) ->
  finished now global pol C0 conf G F true (Some n) (Some N) thint ns (past w) st st' r w' -> genuine now ns n N (q_a st) st w r w'.
Proof.
  intros Hr -> Hns Hn Hok Hfin e He.
  destruct Hfin as (_ & _ & _ & _ & [(_ & _ & rv & -> & _)|(_ & st1 & rd & b & m & rc & c & L1 & C1 & Hlk & [-> Hrd] & HL & [[Hpe Hpo] Hex] & Hbm & Hgh & HC1 & Hres)]); [done|].
  destruct Hlk as (Ea & _ & Hst). exists (q_myrid st1), rd, (opt_in conf (Some N) st1), m, rc, c, L1, C1, (q_stat st1). rewrite <- Ea. splits; [done..|]. cbv zeta. splits; try done.
  destruct Hrd as [?|(? & _ & ?)]; auto.
Qed.

(** C9: in whatever way a query for a name has come to where it is, over TCP or UDP, through calls that read and wrote in pieces, timeouts,
    cancellations and a new start over TCP: when [p_exec_query], or the call of it after a timeout, returns an entry,
    the entry comes from a reply that was received over a connection to the
    server of the query.  The message that went out there is the query for the name, with its
    type and with the RD bit only for a trusted server; over TCP all of it was sent after its
    length, and the reply is what came back after its length, and over UDP the reply is one
    datagram.  It carries the identifier of the query and is a response to a standard query, and
    the result is what [use_reply] makes of it.  The local port is in the configured range.
    Otherwise the query still waits (-1) or has failed, and there is no entry.  Like C8 this needs that no server announces
    an empty message if [realloc] frees for a size of zero. *)
Theorem p_exec_query_exchange (now : Z) (ns : list (list Z)) (l : list (list (list Z) * list (list Z))) (st0 st : query) (w0 w : world) (n : list Z) (N : list (list Z)) :
  kernel_ok K -> net_conf_ok conf -> no_empty_reply K rf -> wire_name n N -> thint_ok thint -> conf_ok pol -> ns_pairs ns l ->
  q_state st0 = QS_INITIAL -> stat_ok (q_stat st0) -> ready (w_cache w0) -> rtc (qstep global pol K rf conf true (Some n) thint) (st0, w0) (st, w) ->
  iruns (p_exec_query now global pol K rf conf true (Some n) thint ns st) w (fun x w' =>
    (ex_rv x.1 = (-1)%Z <-> q_state x.2 <> QS_DONE) /\ genuine now ns n N (q_a st0) st w x.1 w') /\
  iruns (timed_out now global pol K rf conf true (Some n) thint ns st) w (fun x w' =>
    forall r, x.1 = Some r -> (ex_rv r = (-1)%Z <-> q_state x.2 <> QS_DONE) /\ genuine now ns n N (q_a st0) st w r w').
Proof.
  intros HK Hc Hrf Hn Hth Hpol Hns Hs Hok Hr Hsteps. assert (Hqn : wf_qn (Some N)) by apply Hn. assert (He : true = true -> is_Some (Some n)) by (intros _; by eexists).
  assert (H0 : at_rest conf thint (Some N) (socks w0) (heap w0) (st0, w0)) by by apply new_rests.
  assert (Ea : q_a st = q_a st0) by exact (steps_server global pol K rf conf true (Some n) thint HK Hc Hrf (Some N) Hqn Hn He Hth Hpol (socks w0) (heap w0) (st0, w0) (st, w) Hsteps H0).
  assert (Hrest : at_rest conf thint (Some N) (socks w0) (heap w0) (st, w)) by exact (steps_rest global pol K rf conf true (Some n) thint HK Hc Hrf (Some N) Hqn Hn He Hth Hpol (socks w0) (heap w0) (st0, w0) (st, w) Hsteps H0).
  destruct Hrest as (Hr1 & Hok1 & M & L & Hx). cbn [fst snd] in *. apply resting_past in Hx. rewrite <- Ea.
  assert (Hboth : forall r st' w', executed now global pol (w_cache w) K conf (socks w0) (heap w0) true (Some n) (Some N) thint ns (past w) M st (r, st') w' ->
    (ex_rv r = (-1)%Z <-> q_state st' <> QS_DONE) /\ genuine now ns n N (q_a st) st w r w').
  { intros r st' w' (_ & _ & [Hp|Hfin]); cbn [fst snd] in *.
    - destruct Hp as (_ & -> & rd & b & rb & _ & (fd & c & _ & _ & [_ Hwt] & _) & _). split; [|done]. split; [|done]. intros _. by destruct (q_state st').
    - split; [|by eapply finished_genuine]. assert (Hrv : ex_rv r <> (-1)%Z) by (by eapply (finished_rv global pol conf true (Some n) thint (Some N))).
      split; [done|intros Hne; by destruct Hfin as [Hd _]]. }
  split.
  - eapply iruns_weaken; [by eapply (iruns_p_exec_query now global pol (w_cache w) K rf conf HK Hc Hrf (socks w0) (heap w0) true (Some n) (Some N) thint)|]. cbn beta. intros [r st'] w' H. by apply Hboth.
  - eapply iruns_weaken; [by eapply (iruns_timed_out now global pol (w_cache w) K rf conf HK Hc Hrf (socks w0) (heap w0) true (Some n) (Some N) thint)|]. cbn beta.
    intros [o st'] w' H r [= ->]. by apply Hboth.
Qed.

(** C10: a query over TCP ends.  When sockets are ready whenever they are used, as [poll] reports, the
    query is finished after a bounded number of calls of [p_exec_query], whatever the server sends
    and whatever fails, and holds neither a socket nor a block then.  The bound covers the bytes
    of three queries and replies, since a query is sent at most three times.  An exception is an announcement of
    an empty message where [realloc] frees for a size of zero, which is excluded as in C8. *)
Theorem tcp_query_ends (now : Z) (ns : list (list Z)) (l : list (list (list Z) * list (list Z))) (st : query) (w : world) :
  kernel_ok K -> net_conf_ok conf -> no_empty_reply K rf -> wf_qn qn -> name_is qn name -> (entp = true -> is_Some name) -> thint_ok thint -> conf_ok pol -> ns_pairs ns l ->
  q_state st = QS_INITIAL -> q_qm st = TCP_ONLY -> stat_ok (q_stat st) -> ready (w_cache w) -> responsive K ->
  iruns (run_query global pol K rf conf entp name thint now (Z.to_nat 280001) ns st) w (fun x w' =>
    exists r st', x = Some (r, st') /\ ex_rv r <> (-1)%Z /\ q_state st' = QS_DONE /\ socks w' = socks w /\ heap w' = heap w).
Proof.
  intros HK Hc Hrf Hqn Hname He Hth Hpol Hns Hs Hqm Hok Hr Hresp.
  eapply (iruns_run_query global pol K rf conf entp name thint HK Hc Hrf qn Hqn Hname He Hth Hpol (socks w) (heap w) (w_cache w) now ns l _ Hresp Hr Hns st w 280000 (past w)); try done.
  - unfold resting. rewrite Hs. split; [|apply Z.le_refl]. unfold here. splits; auto with pdnsd.
  - unfold is_tcp. by rewrite Hs.
Qed.

(** [bind_socket] ends, and when it succeeds the socket is bound to a port of the range
    that is configured, or is left alone when any port will do; nothing else changes.  It fails only when no socket
    could be bound: the range is not one, or random numbers stay above it, or there is an
    error other than a port in use, or each port of the range was in use when it was tried. *)
Theorem bind_socket_correct (a b : Z) (fd : positive) (c : conn) (w : world) :
  (b <= 65535)%Z -> socks w !! fd = Some c -> c_port c = None ->
  iruns (bind_socket K a b fd) w (fun r w' => heap w' = heap w /\ past w' = past w /\ (forall fd', fd' <> fd -> socks w' !! fd' = socks w !! fd') /\
    if r then exists c', socks w' !! fd = Some c' /\ port_ok a b (c_port c') /\ c_type c' = c_type c else socks w' = socks w /\ ~ can_bind K a b).
Proof.
  intros Hb Hc Hp. assert (Hw : here (w_cache w) (socks w) (past w) (heap w) w) by (unfold here; splits; auto with pdnsd).
  eapply iruns_weaken; [by apply (iruns_bind_socket _ K a b _ _ _ fd c w Hb Hw Hc Hp)|]. cbn beta. intros [] w' H.
  - destruct H as (c' & H1 & H2 & _ & _ & _ & HS & HL & HH). splits; [done..| |].
    + intros fd' Hne. by rewrite HS, lookup_insert_ne.
    + exists c'. by rewrite HS, lookup_insert_eq.
  - destruct H as [(_ & HS & HL & HH) Hn]. splits; [done..| |done|done]. intros fd' _. by rewrite HS.
Qed.
End Theorems.

(** ** Examples *)

#[local] Existing Instance LP64.

(** A server that accepts each connection at once and answers with the bytes of [reply], a
    function of the number of the call; random numbers are 7. *)
Definition demo_kernel (reply : nat -> list Z) : kernel := {|
  k_socket := fun _ => None; k_bind := fun _ p => if (p =? 1026)%Z then None else Some EADDRINUSE; k_fcntl := fun _ => None;
  k_connect := fun _ _ => None; k_write := fun _ n => inr n; k_send := fun _ => None;
  k_read := fun t _ => inr (reply t); k_recv := fun t _ => inr (reply t); k_rand16 := fun _ => 7%Z;
  k_random := fun _ => 0%Z; k_time := fun t => Z.of_nat t; k_poll := fun _ fds _ => inr (map snd fds) |}.

(** The length of the reply, and the reply of the example in [ExecThms]. *)
Definition demo_replies (t : nat) : list Z := if (t =? 6) then [0; 68]%Z else demo_use.

Definition demo_net : net_conf := {| query_port_start := -1; query_port_end := 0; udpbufsize := 1024 |}.

Definition demo_query (method : const) : query :=
  new_query {| sin_addr := [10; 0; 0; 9]%Z; sin_port := 53 |} 60 0 false true false 2 0 false (Some [1; 97; 0]%Z) None method.

Definition demo_world : world := {| w_cache := fresh_cache; socks := ∅; past := []; heap := ∅; ticks := 0; tests := [] |}.

Lemma demo_kernel_ok reply : (forall t, bytes (reply t)) -> kernel_ok (demo_kernel reply).
Proof. intros H. split; intros t n x [= <-]; apply H. Qed.

Lemma demo_replies_bytes t : bytes (demo_replies t).
Proof. unfold demo_replies. destruct (t =? 6); [repeat constructor; discriminate|exact demo_use_bytes]. Qed.

Lemma demo_net_ok : net_conf_ok demo_net.
Proof. unfold net_conf_ok, demo_net. cbn [query_port_end udpbufsize]. lia. Qed.

Lemma demo_query_ok method : stat_ok (q_stat (demo_query method)).
Proof. split; [|discriminate]. intros d [= <-]. exists [[97]]%Z. exact demo_wire. Qed.

#[local] Notation demo_exec := (p_exec_query 1000 demo_globals demo_conf (demo_kernel demo_replies) true demo_net true (Some [1; 97; 0]%Z) T_A []).

Lemma demo_no_empty : no_empty_reply (demo_kernel demo_replies) true.
Proof. right. intros t l [= <-]. unfold demo_replies. destruct (t =? 6); discriminate. Qed.

(** The query after a call; the cache is not compared. *)
Lemma query_steps_safe_witness :
  exists st w, demo_exec (demo_query TCP_ONLY) demo_world = Some (st, w) /\ socks w = ∅ /\ heap w = ∅ /\ is_Some (p_cancel_query st.2 w).
Proof.
  assert (E0 : is_set (demo_exec (demo_query TCP_ONLY) demo_world) = true) by (vm_compute; reflexivity).
  destruct (demo_exec (demo_query TCP_ONLY) demo_world) as [[[r st] w]|] eqn:E; [clear E0|discriminate E0].
  exists (r, st), w. split; [reflexivity|].
  destruct (query_steps_safe demo_globals demo_conf (demo_kernel demo_replies) true demo_net true (Some [1; 97; 0]%Z) T_A (Some [[97]]%Z)
    (demo_query TCP_ONLY) st demo_world w) as (_ & (st' & w' & Hc & _) & Hidle).
  - exact (demo_kernel_ok _ demo_replies_bytes).
  - exact demo_net_ok.
  - exact demo_no_empty.
  - exact wf_a.
  - exact demo_wire.
  - intros _. by eexists.
  - by left.
  - exact demo_conf_ok.
  - reflexivity.
  - exact (demo_query_ok _).
  - exact demo_ready.
  - apply rtc_once. exact (step_exec _ _ _ _ _ _ _ _ 1000 [] [] _ _ _ _ _ np_nil E).
  - assert (Hd : q_state st = QS_DONE).
    { assert (E2 : (fun x => q_state x.1.2) <$> demo_exec (demo_query TCP_ONLY) demo_world = Some QS_DONE) by (vm_compute; reflexivity).
      rewrite E in E2. by injection E2. }
    destruct Hidle as [HS HH]; [rewrite Hd; vm_compute; right; left|]. split; [exact HS|]. split; [exact HH|]. cbn [snd]. rewrite Hc. by eexists.
Defined.

(** Over UDP: the query is sent by one call and the reply is read by the next. *)
Lemma p_exec_query_exchange_witness :
  exists r st w, demo_exec (demo_query UDP_ONLY) demo_world = Some ((r, st), w) /\ ex_rv r = (-1)%Z /\ q_state st = QS_UDPRECEIVE /\
  iruns (demo_exec st) w (fun x w' => (exists e, ex_ent x.1 = Some e) /\ exists c L, past w' = c :: L /\ c_type c = SOCK_DGRAM /\
    c_peer c = Some {| sin_addr := [10; 0; 0; 9]%Z; sin_port := 53 |}).
Proof.
  assert (E0 : (fun x => (ex_rv x.1.1, q_state x.1.2)) <$> demo_exec (demo_query UDP_ONLY) demo_world = Some ((-1)%Z, QS_UDPRECEIVE)) by (vm_compute; reflexivity).
  assert (E2 : (x ← demo_exec (demo_query UDP_ONLY) demo_world; y ← demo_exec x.1.2 x.2; Some (is_set (ex_ent y.1.1), map c_type (past y.2))) = Some (true, [SOCK_DGRAM])) by (vm_compute; reflexivity).
  destruct (demo_exec (demo_query UDP_ONLY) demo_world) as [[[r st] w]|] eqn:E; [|discriminate E0]. injection E0 as E0 E1.
  exists r, st, w. split; [reflexivity|]. split; [exact E0|]. split; [exact E1|]. cbn [mbind option_bind fst snd] in E2.
  destruct (p_exec_query_exchange demo_globals demo_conf (demo_kernel demo_replies) true demo_net T_A 1000 [] [] (demo_query UDP_ONLY) st demo_world w [1; 97; 0]%Z [[97]]%Z
    (demo_kernel_ok _ demo_replies_bytes) demo_net_ok demo_no_empty demo_wire ltac:(by left) demo_conf_ok np_nil eq_refl (demo_query_ok _) demo_ready
    (rtc_once _ _ (step_exec _ _ _ _ _ _ _ _ 1000 [] [] _ _ _ _ _ np_nil E))) as [(x & w' & Ex & _ & Hent) _].
  exists x, w'. split; [exact Ex|]. rewrite Ex in E2. cbn [mbind option_bind] in E2. injection E2 as E2 E3.
  destruct x as [rx sx]. cbn [fst snd] in *. destruct (ex_ent rx) as [e|] eqn:Ee; [|discriminate E2]. split; [by exists e|].
  destruct (Hent e Ee) as (id & rd & opt & m & rc & c & L & C1 & st1 & HL & _ & _ & Hp & _). exists c, (L ++ past w). split; [exact HL|]. rewrite HL in E3. cbn [map] in E3. injection E3 as E3 _. split; [exact E3|exact Hp].
Defined.

Lemma tcp_query_ends_witness :
  iruns (run_query demo_globals demo_conf (demo_kernel demo_replies) true demo_net true (Some [1; 97; 0]%Z) T_A 1000 (Z.to_nat 280001) [] (demo_query TCP_ONLY)) demo_world
    (fun x w' => exists r st', x = Some (r, st') /\ ex_rv r <> (-1)%Z /\ heap w' = ∅).
Proof.
  eapply iruns_weaken; [apply (tcp_query_ends demo_globals demo_conf (demo_kernel demo_replies) true demo_net true (Some [1; 97; 0]%Z) T_A (Some [[97]]%Z) 1000 [] [] (demo_query TCP_ONLY) demo_world
    (demo_kernel_ok _ demo_replies_bytes) demo_net_ok demo_no_empty wf_a demo_wire ltac:(intros _; by eexists) ltac:(by left) demo_conf_ok np_nil eq_refl eq_refl (demo_query_ok _) demo_ready)|].
  - split; [discriminate|]. intros t n. split; [discriminate|]. intros Hn [= ->]. lia.
  - cbn beta. intros x w' (r & st' & H1 & H2 & _ & _ & H3). by exists r, st'.
Defined.

(** One socket that is open. *)
Definition demo_socket : world :=
  {| w_cache := fresh_cache; socks := {[1%positive := new_conn SOCK_STREAM]}; past := []; heap := ∅; ticks := 0; tests := [] |}.

(** Only one port of the range is free. *)
Lemma bind_socket_correct_witness :
  iruns (bind_socket (demo_kernel demo_replies) 1024 1027 1) demo_socket (fun r w' => r = true /\
    exists c', socks w' !! 1%positive = Some c' /\ c_port c' = Some 1026%Z).
Proof.
  destruct (bind_socket_correct (demo_kernel demo_replies) 1024 1027 1 (new_conn SOCK_STREAM) demo_socket
    ltac:(lia) ltac:(vm_compute; reflexivity) eq_refl) as (r & w' & E & _ & _ & _ & Hr).
  exists r, w'. split; [exact E|].
  assert (E2 : (fun x => (x.1, c_port <$> socks x.2 !! 1%positive)) <$> bind_socket (demo_kernel demo_replies) 1024 1027 1 demo_socket
    = Some (true, Some (Some 1026%Z))) by (vm_compute; reflexivity).
  rewrite E in E2. cbn [fmap option_fmap option_map fst snd] in E2. injection E2 as -> E2. split; [reflexivity|].
  destruct Hr as (c' & Hc & _). exists c'. split; [exact Hc|]. rewrite Hc in E2. by injection E2.
Defined.

(** ** An empty reply

    After a refusal a query is sent again while the buffer for the reply is kept.  The server then announces a
    message of length 0. *)

(** C40: with an implementation of [realloc] that frees the block for a size of 0 and returns
    NULL, as those of glibc and bionic do, a server can make the program free a block twice.  Whenever a query that waits for the length of a reply
    still has a buffer and the server announces an empty message, [realloc] frees the buffer, and [realloc_or_cleanup], which takes
    the result for a failure, frees it again, although it is not allocated any more.  With the other implementation
    the query goes on. *)
Theorem empty_reply_double_free (K : kernel) (st : query) (w : world) (fd : positive) (c : conn) (b : positive) (m : list Z) :
  q_sock st = Some fd -> socks w !! fd = Some c -> q_iolen st = 0 -> q_recvbuf st = Ptr b -> heap w !! b = Some m -> k_read K (ticks w) 2 = inr [0; 0]%Z ->
  (exists w1 w2, read K fd 2 w = Some (inr [0; 0]%Z, w1) /\ heap w1 = heap w /\
    pdnsd_realloc true (Ptr b) 0 w1 = Some (Null, w2) /\ heap w2 = delete b (heap w) /\
    realloc_or_cleanup true (Ptr b) 0 w1 = (_ ← pdnsd_free (Ptr b); mret Null) w2) /\
  sm_tcp_length K true st w = None /\ is_Some (sm_tcp_length K false st w).
Proof.
  intros Hfd Hc Hio Hbuf Hm Hk.
  assert (Er : read K fd 2 w = Some (inr [0; 0]%Z, set_socks (<[fd := received [0; 0]%Z c]> (socks w)) (set_ticks (S (ticks w)) w))).
  { unfold read, the_sock, getIO, tick, put_sock, modIO, liftIO, mbind, IO_bind, mret, IO_ret. cbn. rewrite Hc. cbn. rewrite Hk. reflexivity. }
  set (w1 := set_socks _ _) in Er. assert (Hm1 : heap w1 !! b = Some m) by exact Hm.
  assert (Ea : pdnsd_realloc true (Ptr b) 0 w1 = Some (Null, set_heap (delete b (heap w)) w1)).
  { unfold pdnsd_realloc, pdnsd_free, load, getIO, modIO, liftIO, mbind, IO_bind, mret, IO_ret. cbn. rewrite Hm. cbn. rewrite Hm. reflexivity. }
  set (w2 := set_heap _ _) in Ea. assert (Hm2 : heap w2 !! b = None) by apply lookup_delete_eq.
  assert (Ec : realloc_or_cleanup true (Ptr b) 0 w1 = (_ ← pdnsd_free (Ptr b); mret Null) w2).
  { unfold realloc_or_cleanup. unfold mbind at 1, IO_bind at 1. by rewrite Ea. }
  split; [by exists w1, w2|].
  assert (Es : forall rf, sm_tcp_length K rf st w = (p ← realloc_or_cleanup rf (Ptr b) 0; let st := q_set_recvbuf p (q_set_recvl 0 (q_set_iolen 2 st)) in
    match p with Null => _ ← close fd; leaves (Break RC_FATALERR st) | _ => goes st end) w1).
  { intros rf. unfold sm_tcp_length. rewrite Hfd, Hio. unfold mbind at 1, IO_bind at 1. cbn [liftIO mbind option_bind Nat.eqb]. unfold mbind at 1, IO_bind at 1. rewrite Er.
    cbn. by rewrite Hbuf. }
  rewrite !Es. split.
  - unfold mbind at 1, IO_bind at 1. rewrite Ec. unfold pdnsd_free, getIO, liftIO, mbind, IO_bind. by rewrite Hm2.
  - cut (iruns (p ← realloc_or_cleanup false (Ptr b) 0; let st := q_set_recvbuf p (q_set_recvl 0 (q_set_iolen 2 st)) in
      match p with Null => _ ← close fd; leaves (Break RC_FATALERR st) | _ => goes st end) w1 (fun _ _ => True)); [intros (x & w3 & E & _); by eexists|].
    assert (Hw1 : here (w_cache w1) (socks w1) (past w1) (hput (Ptr b) m (delete b (heap w1))) w1).
    { unfold here. cbn [hput]. rewrite insert_delete_id by exact Hm1. splits; auto with pdnsd. }
    io_with iruns_realloc_or_cleanup; [apply lookup_delete_eq|exact Hw1|by left|]. intros p w3 [(-> & _ & Hw3)|(i & v & -> & _ & _ & Hw3)]; [|by io_ret].
    io_with iruns_close; [exact Hw3|apply lookup_insert_eq|]. intros _ w4 _. by io_ret.
Qed.

(** A server that refuses a recursive query over TCP.  The length of the second reply is not there at once, and is 0. *)
Definition refusals (t : nat) : errno + list Z :=
  if (t =? 6) then inr [0; 12]%Z else if (t =? 7) then inr [0; 7; 128; 5; 0; 0; 0; 0; 0; 0; 0; 0]%Z
  else if (t =? 14) then inl EWOULDBLOCK else inr [0; 0]%Z.
Definition refusing_kernel : kernel := {|
  k_socket := fun _ => None; k_bind := fun _ _ => None; k_fcntl := fun _ => None;
  k_connect := fun _ _ => None; k_write := fun _ n => inr n; k_send := fun _ => None;
  k_read := fun t _ => refusals t; k_recv := fun _ _ => inr []; k_rand16 := fun _ => 7%Z;
  k_random := fun _ => 0%Z; k_time := fun t => Z.of_nat t; k_poll := fun _ fds _ => inr (map snd fds) |}.

Definition trusted_query : query :=
  new_query {| sin_addr := [10; 0; 0; 9]%Z; sin_port := 53 |} 60 0 false true false 2 0 true None None TCP_ONLY.

(** The server is asked again without RD, and the next call frees the buffer twice. *)
Lemma empty_reply_double_free_witness :
  exists r st w, p_exec_query 1000 demo_globals demo_conf refusing_kernel true demo_net true (Some [1; 97; 0]%Z) T_A [] trusted_query demo_world = Some ((r, st), w) /\
    ex_rv r = (-1)%Z /\ q_state st = QS_TCPREAD /\ sm_tcp_length refusing_kernel true st w = None /\
    p_exec_query 1000 demo_globals demo_conf refusing_kernel true demo_net true (Some [1; 97; 0]%Z) T_A [] st w = None.
Proof.
  set (go := p_exec_query 1000 demo_globals demo_conf refusing_kernel true demo_net true (Some [1; 97; 0]%Z) T_A []).
  assert (E0 : (fun x => (ex_rv x.1.1, q_state x.1.2, (q_sock x.1.2, q_iolen x.1.2, q_recvbuf x.1.2), (is_set (socks x.2 !! 1%positive), is_set (heap x.2 !! 2%positive)), ticks x.2)) <$> go trusted_query demo_world
    = Some ((-1)%Z, QS_TCPREAD, (Some 1%positive, 0, Ptr 2), (true, true), 15)) by (vm_compute; reflexivity).
  assert (E2 : (fun x => go x.1.2 x.2) <$> go trusted_query demo_world = Some None) by (vm_compute; reflexivity).
  destruct (go trusted_query demo_world) as [[[r st] w]|] eqn:E; [|discriminate E0]. injection E2 as E2. cbn [fmap option_fmap option_map fst snd] in E0.
  injection E0 as Hrv Hst Hfd Hio Hbuf Hs Hh Ht. exists r, st, w. split; [reflexivity|]. split; [exact Hrv|]. split; [exact Hst|]. split; [|exact E2].
  destruct (socks w !! 1%positive) as [c|] eqn:Es; [|discriminate Hs]. destruct (heap w !! 2%positive) as [m|] eqn:Eh; [|discriminate Hh].
  apply (empty_reply_double_free refusing_kernel st w 1 c 2 m Hfd Es Hio Hbuf Eh). rewrite Ht. reflexivity.
Defined.
