(* ===== verification/Resolve.v ===== *)
(** The resolver of [pdnsd/src/dns_query.c]: when the cache answers, and which servers are
    asked.

    The servers are those of the configuration ([servparm_t] of conff.h) with what is known of
    their status; an array of the code that is not allocated is the empty list, unless the code
    tells the two apart.  The lists of addresses to reject that [add_rejectlist] allocates are
    values, and are linked only so that they can be freed.  Addresses are IPv4 addresses. *)
From S2P Require Import Prelude Names DnsName RrTypes HashTab RrList Cent Cache Answer Query Reply Exec Net QuerySm QueryExec.

(** ** Data *)

Definition RC_NOTCACHED : Z := 0xfffa.
Definition RC_CACHED : Z := 0xfffb.
Definition RC_STALE : Z := 0xfffc.

Definition MAXNAMESERVIPS : nat := 3.

(** [atup_t]: whether the server is up at an address, when that was tested, and the address. *)
Record atup := { at_is_up : bool; at_i_ts : Z; at_a : list Z }.

(** The fields of [servparm_t] that are used here. *)
Record servparm := {
  sp_port : Z; sp_uptest : const; sp_timeout : Z; sp_interval : Z; sp_scheme : list Z;
  sp_purge_cache : bool; sp_nocache : bool; sp_lean_query : bool; sp_edns_query : bool; sp_is_proxy : bool; sp_rootserver : Z; sp_rand_servers : bool;
  sp_rejectrecursively : bool; sp_rejectpolicy : const; sp_policy : const; sp_alist : list slist; sp_atup_a : list atup;
  sp_reject_a4 : option (list (list Z * list Z)); sp_reject_a6 : option (list (list Z * list Z));
  sp_preset : bool; sp_label : option (list Z); sp_ping_a : list Z }.

(** Options of the configuration that are used here; [g_timeout] is [global.timeout]. *)
Record resolve_conf := {
  g_paranoid : bool; g_lndown_kluge : bool; g_timeout : Z; g_par_queries : nat; g_query_method : const; g_debug_p : bool }.

(** [needs_testing] of servers.h. *)
Definition needs_testing (sp : servparm) : bool :=
  ((0 <? sp_interval sp) || (sp_interval sp =? -2))%Z &&
  (bool_decide (sp_uptest sp <> C_NONE) || match sp_scheme sp with c :: _ => negb (c =? 0)%Z | [] => false end).

(** [mk_flag_val] of cache.h. *)
Definition mk_flag_val (sp : servparm) : Z :=
  Z.lor (Z.lor (if sp_purge_cache sp then 0 else CF_NOPURGE) (if sp_nocache sp then CF_NOCACHE else 0))
    (if (sp_rootserver sp =? 0)%Z then 0 else CF_ROOTSERV).

Definition CFF_NOINHERIT : Z := Z.lor (Z.lor CF_LOCAL CF_AUTH) (Z.lor CF_ADDITIONAL CF_ROOTSERV).

(** ** Servers for a name *)

(** The first entry of the access list that applies, if any. *)
Fixpoint access_rule (name : list Z) (alist : list slist) : option (option bool) :=
  match alist with
  | [] => Some None
  | sl :: alist' =>
      '(_, nrem, lrem) ← domain_match name (sl_domain sl);
      if (lrem =? 0) && (negb (sl_exact sl) || (nrem =? 0)) then Some (Some (sl_included sl))
      else access_rule name alist'
  end.

Definition use_server (s : servparm) (name : list Z) : option bool :=
  r ← access_rule name (sp_alist s);
  match r with
  | Some b => Some b
  | None =>
      if bool_decide (sp_policy s = C_SIMPLE_ONLY) || bool_decide (sp_policy s = C_FQDN_ONLY) then
        n ← rhnsegcnt name;
        Some (if (n <=? 1) then bool_decide (sp_policy s = C_SIMPLE_ONLY) else bool_decide (sp_policy s = C_FQDN_ONLY))
      else Some (bool_decide (sp_policy s = C_INCLUDED))
  end.

Definition serv_has_rejectlist (s : servparm) : bool := is_set (sp_reject_a4 s) || is_set (sp_reject_a6 s).

Definition add_rejectlist (sp : servparm) : M (option rejectlist) :=
  ok ← malloc;
  mret (if (ok : bool) then
    Some {| rl_policy := sp_rejectpolicy sp; rl_inherit := sp_rejectrecursively sp;
            rl_a4 := default [] (sp_reject_a4 sp); rl_a6 := default [] (sp_reject_a6 sp) |}
  else None).

(** [da_grow1] of list.c: memory is needed for the first element and for each eighth one after it. *)
Definition da_grow1 {A} (l : list A) : M bool :=
  if (Nat.land (length l) 7 =? 0) then malloc else mret true.

(** [add_qserv]: when there is no memory, the array is gone. *)
Definition add_qserv (q : list query) (st : query) : M (option (list query)) :=
  ok ← da_grow1 q;
  mret (if (ok : bool) then Some (q ++ [st]) else None).

(** ** Name servers in the cache *)

(** The loop over the addresses of one server: those that are not among the first [n]. *)
Fixpoint grow_addrs (serva : list (list Z)) (n : nat) (res : list (list Z)) : M (option (list (list Z))) :=
  match serva with
  | [] => mret (Some res)
  | a :: serva' =>
      if bool_decide (a ∈ take n res) then grow_addrs serva' n res
      else
        ok ← da_grow1 res;
        if (ok : bool) then grow_addrs serva' n (res ++ [a]) else mret None
  end.

(** The first addresses of a set. *)
Fixpoint in_addrs (rrs : list (list Z)) : option (list (list Z)) :=
  match rrs with
  | [] => Some []
  | rr :: rrs' => a ← rd_bytes rr 0 4; l ← in_addrs rrs'; Some (a :: l)
  end.
Definition first_addrs (rs : option rr_set) : option (list (list Z)) :=
  match rs with
  | Some rs => in_addrs (take MAXNAMESERVIPS (rs_rrs rs))
  | None => Some []
  end.

Section Lookup.
Context {P : Platform} (now : Z).

(** The addresses of a name server that are in the cache and are not too old. *)
Definition ns_addrs (nsname : list Z) : M (list (list Z)) :=
  '(servent, _) ← lookup_cache now nsname false;
  match servent with
  | Some servent =>
      rs ← liftM (get_rrsmu servent RRMUINDEX_A);
      serva ← liftM (first_addrs (match rs with Some rs => if timedout now rs then None else Some rs | None => None end));
      _ ← free_cent servent;
      mret serva
  | None => mret []
  end.

(** The loop over the name servers: there is no result when memory runs out, or when one of them
    has no address. *)
Fixpoint ns_loop (rrs : list (list Z)) (res : list (list Z)) : M (list (list Z)) :=
  match rrs with
  | [] => mret res
  | rr :: rrs' =>
      serva ← ns_addrs rr;
      match serva with
      | [] => mret []
      | _ =>
          r ← grow_addrs serva (length res) res;
          match r with
          | Some res => ns_loop rrs' res
          | None => mret []
          end
      end
  end.

Definition lookup_ns (domain : list Z) : M (list (list Z)) :=
  '(cent, _) ← lookup_cache now domain false;
  match cent with
  | Some cent =>
      rs ← liftM (get_rrsmu cent RRMUINDEX_NS);
      res ← match rs with
            | Some rs => if tst (rs_flags rs) CF_ROOTSERV && negb (timedout now rs) then ns_loop (rs_rrs rs) [] else mret []
            | None => mret []
            end;
      _ ← free_cent cent;
      mret res
  | None => mret []
  end.

(** ** What the cache knows of a name *)

(** [set_flags_ttl]: whether there is a set, the flags so far, and the time when the first set expires. *)
Definition add_flags_ttl (flags ttl : Z) (rs : rr_set) : Z * Z :=
  let t := (rs_ts rs + clat_adj (rs_ttl rs))%Z in
  (Z.lor flags (rs_flags rs), if (ttl =? 0)%Z || (t <? ttl)%Z then t else ttl).

Definition set_flags_ttl (flags ttl : Z) (cached : dns_cent) (tp : Z) : option (bool * (Z * Z)) :=
  r ← getrrset cached tp;
  Some (match r with Some rs => (true, add_flags_ttl flags ttl rs) | None => (false, (flags, ttl)) end).

Definition set_all_flags_ttl (flags ttl : Z) (cached : dns_cent) : option (Z * Z) :=
  n ← rrarr_len cached;
  fold_opt (fun x i => r ← rrarr_index cached i; Some (match r with Some rs => add_flags_ttl x.1 x.2 rs | None => x end)) (seq 0 n) (flags, ttl).

(** [lookup_cache_status]: the return code, [*cachedp], [*flagsp], and [*c_soa]; the pointer
    [c_soa] may be null. *)
Record cache_status := { cs_rc : Z; cs_cached : option dns_cent; cs_flags : Z; cs_c_soa : option Z }.

(** The authority of a name that is negated locally. *)
Definition local_soa (cached : dns_cent) (c_soa : option Z) : M (option Z) :=
  match c_soa with
  | None => mret None
  | Some v =>
      if negb (Cent.c_soa cached =? cundef)%Z then mret (Some (Cent.c_soa cached))
      else
        have ← liftM (have_rr cached T_SOA);
        if (have : bool) then n ← liftM (rhnsegcnt (qname cached)); mret (Some (u8 (Z.of_nat n)))
        else
          owner ← getlocalowner (qname cached) T_SOA;
          match owner with
          | Some o => n ← liftM (rhnsegcnt o); mret (Some (u8 (Z.of_nat n)))
          | None => mret (Some v)
          end
  end.

(** The flags and the time of expiry of the sets that answer a query, and whether these say
    that there are no records. *)
Definition answer_flags (cached : dns_cent) (thint queryts : Z) : option (Z * Z * bool) :=
  if (thint =? QT_ALL)%Z then '(f, t) ← set_all_flags_ttl 0 0 cached; Some (f, t, false)
  else
    '(have, (f, t)) ← set_flags_ttl 0 0 cached T_CNAME;
    cn ← get_rrsmu cached RRMUINDEX_CNAME;
    if negb have || match cn with Some rs => tst (rs_flags rs) CF_NEGATIVE | None => false end then
      if (T_MIN <=? thint)%Z && (thint <=? T_MAX)%Z then
        '(have, (f, t)) ← set_flags_ttl 0 0 cached thint;
        if (have : bool) then
          r ← getrrset cached thint;
          rs ← r;
          Some (f, t, tst (rs_flags rs) CF_NEGATIVE && (queryts <=? t)%Z)
        else Some (f, t, false)
      else if (thint =? QT_MAILB)%Z then
        '(_, (f, t)) ← set_flags_ttl 0 0 cached T_MB;
        '(_, (f, t)) ← set_flags_ttl f t cached T_MG;
        '(_, (f, t)) ← set_flags_ttl f t cached T_MR;
        Some (f, t, false)
      else if (thint =? QT_MAILA)%Z then
        '(_, (f, t)) ← set_flags_ttl 0 0 cached T_MD;
        '(_, (f, t)) ← set_flags_ttl f t cached T_MF;
        Some (f, t, false)
      else Some (0%Z, 0%Z, false)
    else Some (f, t, false).

(** The decision for an entry that is not local: the flags, and whether a query is needed. *)
Definition requery (cached : dns_cent) (thint queryts : Z) : option (Z * bool) :=
  if tst (flags cached) DF_NEGATIVE then
    match body cached with
    | Neg _ ttl ts => Some (0%Z, negb (queryts <=? ts + clat_adj ttl)%Z)
    | Rr _ _ => None
    end
  else
    '(f, t, neg) ← answer_flags cached thint queryts;
    let need_req :=
      if (thint =? QT_ALL)%Z then negb (tst (flags cached) DF_AUTH)
      else if (QT_MIN <=? thint)%Z && (thint <=? QT_MAX)%Z then negb (tst f CF_AUTH && negb (tst f CF_ADDITIONAL))
      else false in
    Some (f, negb (tst f CF_LOCAL) && (need_req || (t <? queryts)%Z) && negb neg).

Definition lookup_cache_status (name : list Z) (thint queryts : Z) (c_soa : option Z) : M cache_status :=
  '(cached, wild) ← lookup_cache now name true;
  match cached with
  | None => mret {| cs_rc := RC_NOTCACHED; cs_cached := None; cs_flags := 0; cs_c_soa := c_soa |}
  | Some cached =>
      if tst (flags cached) DF_LOCAL then
        if tst (flags cached) DF_NEGATIVE || (wild =? w_locnerr)%Z then
          c_soa ← local_soa cached c_soa;
          _ ← free_cent cached;
          mret {| cs_rc := RC_NAMEERR; cs_cached := None; cs_flags := 0; cs_c_soa := c_soa |}
        else mret {| cs_rc := RC_OK; cs_cached := Some cached; cs_flags := 0; cs_c_soa := c_soa |}
      else
        '(f, stale) ← liftM (requery cached thint queryts);
        mret {| cs_rc := if (stale : bool) then RC_STALE else RC_CACHED; cs_cached := Some cached; cs_flags := f; cs_c_soa := c_soa |}
  end.
End Lookup.
