(* ===== verification/Recurse.v ===== *)
(** The recursion over name servers of [pdnsd/src/dns_query.c]: [auth_ok], [p_recursive_query],
    [p_dns_resolve] and [p_dns_cached_resolve].

    [hops] bounds the depth of the recursion.  It is the argument over which the resolver is
    defined; a function that needs the resolver for [hops-1] is given it as [lower], which is
    [None] when [hops] is 0.  The arrays of servers that were asked higher up ([qslist]) and the
    names that are being resolved ([qhlist]) are lists.  The pointer [c_soa] may be null, which is
    [None]; otherwise its target is threaded through.  What is known of the servers may change with
    every look at it, since other threads test them. *)
From S2P Require Import Prelude Names DnsName RrTypes HashTab RrList Cent Cache Answer Query Reply Exec Net QuerySm QueryExec Resolve.

Section Recurse.
Context {P : Platform} (global : globals) (pol : policies) (K : kernel) (realloc_frees : bool) (conf : net_conf) (rc : resolve_conf).

(** The servers at each time, also after [test_onquery] has tested them; the addresses of network
    interfaces ([is_local_addr] of netdev.c); and whether the thread that tests servers is told to
    stop. *)
Context (servers : nat -> list servparm) (is_local_addr : nat -> list Z -> bool) (interrupted : nat -> bool).

(** How often [poll] is called in a row at most. *)
Context (polls_max : nat).

Definition get_servers : IO (list servparm) := t ← tick; mret (servers t).
Definition local_addr (a : list Z) : IO bool := t ← tick; mret (is_local_addr t a).

(** The result of a resolver: its return code, the entry, and [*c_soa]. *)
Definition resolved : Type := Z * option dns_cent * option Z.

(** A resolver; the servers to ask are those of the configuration if none are given. *)
Definition resolver : Type :=
  option (list query) -> list Z -> Z -> list (list query) -> list (list Z * Z) -> Z -> option Z -> IO resolved.

Definition has_entry (rc : Z) : bool := (rc =? RC_OK)%Z || (rc =? RC_CACHED)%Z || (rc =? RC_STALE)%Z.

(** [pdnsd_free] after [free_cent], where there is an entry. *)
Definition free_ent (ent : option dns_cent) : IO unit :=
  match ent with Some e => cacheIO (free_cent e) | None => mret tt end.

(** [r_dns_cached_resolve]. *)
Definition r_resolve (res : resolver) (name : list Z) (thint : Z) (qhlist : list (list Z * Z)) (queryts : Z) (c_soa : option Z) : IO resolved :=
  '(rv, cached, c_soa) ← res None name thint [] qhlist queryts c_soa;
  if has_entry rv then
    cached ← liftIO cached;
    if tst (flags cached) DF_NEGATIVE then
      let c_soa := match c_soa with Some _ => Some (Cent.c_soa cached) | None => None end in
      _ ← cacheIO (free_cent cached);
      mret (RC_NAMEERR, None, c_soa)
    else mret (RC_OK, Some cached, c_soa)
  else mret (rv, None, c_soa).

Section Lower.
(** The resolver for [hops-1]. *)
Context (lower : option resolver).

(** ** [auth_ok] *)

Definition aa_needed (thint : Z) (ent : dns_cent) : option bool :=
  if (QT_MIN <=? thint)%Z && (thint <=? QT_MAX)%Z then Some true
  else if (T_MIN <=? thint)%Z && (thint <=? T_MAX)%Z then
    a ← have_rr ent thint;
    if (a : bool) then Some false else b ← have_rr ent T_CNAME; Some (negb b)
  else Some false.

(** Whether the domains of all the name servers lie between the domain of the server that was
    asked and the name, so that its claim to be authoritative is not believed. *)
Fixpoint delegates (asked name : list Z) (items : list (list Z)) : option bool :=
  match items with
  | [] => Some true
  | nsdomain :: items' =>
      b ← rd nsdomain 0;
      if (b =? idem)%Z then delegates asked name items'
      else
        '(_, rem, crem) ← domain_match nsdomain asked;
        if negb (negb (rem =? 0) && (crem =? 0)) then Some false
        else
          '(_, rem, _) ← domain_match nsdomain name;
          if negb (rem =? 0) then Some false else delegates asked name items'
  end.

Definition trust_aa (qse : query_stat) (name : list Z) (ns : list (list Z)) : option bool :=
  match qs_nsdomain qse, ns with
  | None, _ | _, [] => Some true
  | Some asked, first :: ns' =>
      '(_, rem, crem) ← domain_match first asked;
      if negb (negb (rem =? 0) && (crem =? 0)) then Some true
      else
        '(_, rem, _) ← domain_match first name;
        if negb (rem =? 0) then Some true else d ← delegates asked name ns'; Some (negb d)
  end.

(** Whether looking up the address of a name server would be a step back. *)
Definition in_progress (name : list Z) (thint : Z) (qhlist : list (list Z * Z)) (nsname : list Z) : option bool :=
  exists_opt (fun x => e ← rhnicmp x.1 nsname; Some (e && (x.2 =? T_A)%Z)) ((name, thint) :: qhlist).

(** A server of the arrays that has been asked. *)
Definition already_queried (q : list query) (qslist : list (list query)) (a : list Z) : bool :=
  existsb (existsb (fun qs => bool_decide (q_state qs = QS_DONE) && bool_decide (sin_addr (q_a qs) = a))) (q :: qslist).

Definition ns_query (qse : query) (a : list Z) (nsdomain : option (list Z)) : query :=
  let st := q_stat qse in
  new_query {| sin_addr := a; sin_port := 53 |} (q_timeout qse) (Z.land (qs_flags st) (Z.lnot CFF_NOINHERIT)) false (qs_lean_query st) (q_edns_query qse) 2 0
    (negb (g_paranoid rc)) nsdomain (match qs_rejectlist st with Some rl => if rl_inherit rl then Some rl else None | None => None end) (g_query_method rc).

(** The loop over the addresses of a name server; [n] servers were known before. *)
Fixpoint add_servers (q : list query) (qslist : list (list query)) (qse : query) (nsdomain : option (list Z)) (n : nat) (serva : list (list Z)) (serv : list query) : IO (option (list query)) :=
  match serva with
  | [] => mret (Some serv)
  | a :: serva' =>
      l ← local_addr a;
      if (l : bool) || bool_decide (a ∈ map (fun qs => sin_addr (q_a qs)) (take n serv)) || already_queried q qslist a
      then add_servers q qslist qse nsdomain n serva' serv
      else
        r ← cacheIO (add_qserv serv (ns_query qse a nsdomain));
        match r with
        | Some serv => add_servers q qslist qse nsdomain n serva' serv
        | None => mret None
        end
  end.

(** The addresses of a name server. *)
Definition server_addrs (name : list Z) (thint : Z) (qhlist : list (list Z * Z)) (nsname : list Z) : IO (list (list Z)) :=
  lower ← liftIO lower;
  now ← time K;
  '(rv, servent, _) ← r_resolve lower nsname T_A ((name, thint) :: qhlist) now None;
  if (rv =? RC_OK)%Z then
    servent ← liftIO servent;
    rs ← liftIO (get_rrsmu servent RRMUINDEX_A);
    serva ← liftIO (first_addrs rs);
    _ ← cacheIO (free_cent servent);
    mret serva
  else mret [].

Section AuthOk.
Context (q : list query) (name : list Z) (thint : Z) (qslist : list (list query)) (qhlist : list (list Z * Z)) (qse : query).

(** One name server. *)
Definition use_ns (nsdomain : option (list Z)) (nsname : list Z) (serv : list query) : IO (option (list query)) :=
  skip ← liftIO (in_progress name thint qhlist nsname);
  if (skip : bool) then mret (Some serv)
  else
    serva ← server_addrs name thint qhlist nsname;
    add_servers q qslist qse nsdomain (length serv) serva serv.

(** The name servers that are defined locally. *)
Fixpoint use_local (nsdomain : option (list Z)) (rrs : list (list Z)) (serv : list query) : IO (option (list query)) :=
  match rrs with
  | [] => mret (Some serv)
  | rr :: rrs' =>
      r ← use_ns nsdomain rr serv;
      match r with
      | Some serv => use_local nsdomain rrs' serv
      | None => mret None
      end
  end.

(** The loop over the list of name servers.  While [skip] is set, the other servers for a domain
    are passed over.  In debug mode a message about a domain that does not match prints the
    name of the server, which has not been set. *)
Fixpoint ns_servers (skip : bool) (nsdomain : option (list Z)) (items : list (list Z)) (serv : list query) : IO (option (list query)) :=
  match items with
  | [] => mret (Some serv)
  | it :: items' =>
      b ← liftIO (rd it 0);
      if (b =? idem)%Z then
        if skip then ns_servers skip nsdomain items' serv
        else
          nsname ← liftIO (adv it 1);
          r ← use_ns nsdomain nsname serv;
          match r with
          | Some serv => ns_servers false nsdomain items' serv
          | None => mret None
          end
      else
        out ← (if g_paranoid rc then '(_, rem, _) ← liftIO (domain_match it name); mret (negb (rem =? 0)) else mret false);
        if (out : bool) then
          if g_debug_p rc then liftIO None else ns_servers true (Some it) items' serv
        else
          loc ← cacheIO (lookup_cache_local_rrset it T_NS);
          match loc with
          | Some rs =>
              r ← use_local (Some it) (rs_rrs rs) serv;
              match r with
              | Some serv => _ ← cacheIO (del_rrset rs); ns_servers true (Some it) items' serv
              | None => mret None
              end
          | None =>
              nsname ← liftIO (skiprhn it);
              r ← use_ns (Some it) nsname serv;
              match r with
              | Some serv => ns_servers false (Some it) items' serv
              | None => mret None
              end
          end
  end.

(** [auth_ok]: its return value, and [*serv]. *)
Definition auth_ok (ent : dns_cent) (ns : list (list Z)) (serv : list query) : IO (Z * list query) :=
  let st := q_stat qse in
  if (1 <? qs_failed st)%Z then mret (0%Z, serv)
  else
    need ← (if (qs_auth_serv st =? 0)%Z || tst (flags ent) DF_NEGATIVE then mret false else liftIO (aa_needed thint ent));
    if negb need then mret (1%Z, serv)
    else
      ok ← (if qs_aa st then liftIO (trust_aa st name ns) else mret false);
      if (ok : bool) then mret (1%Z, serv)
      else
        if is_set lower then
          r ← ns_servers false None ns serv;
          mret (match r with
                | Some serv' => ((if (length serv <? length serv')%nat then 1 else 0)%Z, serv')
                | None => ((-1)%Z, [])
                end)
        else mret (0%Z, serv).
End AuthOk.

(** ** [p_recursive_query] *)

(** The variables of [p_recursive_query]: the servers, the bounds [dc] and [mc] of those that may be
    active, the return code, the entry with the list of name servers and the servers to ask for an
    authoritative answer, and the best of the answers that were not good enough with its quality.
    [r_qse] is the index of the server that gave the answer. *)
Record rquery := {
  r_q : list query; r_dc : nat; r_mc : nat; r_rv : Z; r_ent : option dns_cent; r_ns : list (list Z); r_serv : list query;
  r_save : option (dns_cent * list query * list (list Z)); r_qual : Z; r_qse : option nat; r_c_soa : option Z }.

Definition set_q v s := {| r_q := v; r_dc := r_dc s; r_mc := r_mc s; r_rv := r_rv s; r_ent := r_ent s; r_ns := r_ns s; r_serv := r_serv s; r_save := r_save s; r_qual := r_qual s; r_qse := r_qse s; r_c_soa := r_c_soa s |}.
Definition set_dc v s := {| r_q := r_q s; r_dc := v; r_mc := r_mc s; r_rv := r_rv s; r_ent := r_ent s; r_ns := r_ns s; r_serv := r_serv s; r_save := r_save s; r_qual := r_qual s; r_qse := r_qse s; r_c_soa := r_c_soa s |}.
Definition set_mc v s := {| r_q := r_q s; r_dc := r_dc s; r_mc := v; r_rv := r_rv s; r_ent := r_ent s; r_ns := r_ns s; r_serv := r_serv s; r_save := r_save s; r_qual := r_qual s; r_qse := r_qse s; r_c_soa := r_c_soa s |}.
Definition set_rv v s := {| r_q := r_q s; r_dc := r_dc s; r_mc := r_mc s; r_rv := v; r_ent := r_ent s; r_ns := r_ns s; r_serv := r_serv s; r_save := r_save s; r_qual := r_qual s; r_qse := r_qse s; r_c_soa := r_c_soa s |}.
Definition set_serv v s := {| r_q := r_q s; r_dc := r_dc s; r_mc := r_mc s; r_rv := r_rv s; r_ent := r_ent s; r_ns := r_ns s; r_serv := v; r_save := r_save s; r_qual := r_qual s; r_qse := r_qse s; r_c_soa := r_c_soa s |}.
Definition set_qse v s := {| r_q := r_q s; r_dc := r_dc s; r_mc := r_mc s; r_rv := r_rv s; r_ent := r_ent s; r_ns := r_ns s; r_serv := r_serv s; r_save := r_save s; r_qual := r_qual s; r_qse := v; r_c_soa := r_c_soa s |}.
Definition set_save v s := {| r_q := r_q s; r_dc := r_dc s; r_mc := r_mc s; r_rv := r_rv s; r_ent := r_ent s; r_ns := r_ns s; r_serv := r_serv s; r_save := v; r_qual := r_qual s; r_qse := r_qse s; r_c_soa := r_c_soa s |}.

(** What [p_exec_query] leaves behind. *)
Definition set_result (i : nat) (qs : query) (r : exec_result) s :=
  {| r_q := <[i := qs]> (r_q s); r_dc := r_dc s; r_mc := r_mc s; r_rv := ex_rv r; r_ent := match ex_ent r with Some e => Some e | None => r_ent s end; r_ns := ex_ns r;
     r_serv := r_serv s; r_save := r_save s; r_qual := r_qual s; r_qse := r_qse s;
     r_c_soa := match r_c_soa s, ex_c_soa r with Some _, Some v => Some v | c, _ => c end |}.

(** The next server, the label [done], or [free_ent_return_failed]; a truncated reply has to be
    asked for again ([Retry]). *)
Inductive outcome := Next | Done | Failed | Retry.

Definition W_AUTHOK : Z := 8.
Definition W_NOTFAILED : Z := 2.
Definition W_NOTTRUNC : Z := 1.
Definition GOODQUAL : Z := (W_AUTHOK + 3 * W_NOTFAILED)%Z.

(** [save_query_result]. *)
Definition save_query_result (i : nat) (ent : dns_cent) (qs : query_stat) (authok : Z) (s : rquery) : IO rquery :=
  let qval := (authok * W_AUTHOK + (3 - qs_failed qs) * W_NOTFAILED + (if qs_tc qs then 0 else 1) * W_NOTTRUNC)%Z in
  save ← match r_save s with
         | Some (e, v, n) => if (r_qual s <? qval)%Z then _ ← cacheIO (free_cent e); mret None else mret (Some (e, v, n))
         | None => mret None
         end;
  match save with
  | None =>
      mret {| r_q := r_q s; r_dc := r_dc s; r_mc := r_mc s; r_rv := r_rv s; r_ent := r_ent s; r_ns := []; r_serv := [];
              r_save := Some (ent, r_serv s, match r_serv s with [] => [] | _ => r_ns s end); r_qual := qval; r_qse := Some i; r_c_soa := r_c_soa s |}
  | Some _ =>
      _ ← cacheIO (free_cent ent);
      mret {| r_q := r_q s; r_dc := r_dc s; r_mc := r_mc s; r_rv := r_rv s; r_ent := r_ent s; r_ns := []; r_serv := [];
              r_save := save; r_qual := r_qual s; r_qse := r_qse s; r_c_soa := r_c_soa s |}
  end.

Section Query.
Context (name : list Z) (thint : Z) (qslist : list (list query)) (qhlist : list (list Z * Z)).

(** What follows a call of [p_exec_query] for the server [i]. *)
Definition use_result (i : nat) (qs : query) (r : exec_result) (s : rquery) : IO (outcome * rquery) :=
  let s := set_result i qs r s in
  if (ex_rv r =? RC_OK)%Z then
    ent ← liftIO (r_ent s);
    '(authok, serv) ← auth_ok (r_q s) name thint qslist qhlist qs ent (r_ns s) (r_serv s);
    let s := set_serv serv s in
    let again := bool_decide (q_qm qs = UDP_TCP) && qs_tc (q_stat qs) in
    if (authok <? 0)%Z then mret (Failed, s)
    else if negb (authok =? 0)%Z && (qs_failed (q_stat qs) =? 0)%Z && negb again then mret (Done, set_qse (Some i) s)
    else
      s ← save_query_result i ent (q_stat qs) authok s;
      mret (if again then Retry else Next, s)
  else mret (if (ex_rv r =? RC_NAMEERR)%Z || (ex_rv r =? RC_FATALERR)%Z then Done else Next, s).

(** One server, from the label [retryquery] on; the method is not [UDP_TCP] any more when that is
    jumped to. *)
Fixpoint try_query (fuel : nat) (i : nat) (s : rquery) : IO (outcome * rquery) :=
  match fuel with
  | O => liftIO None
  | S fu =>
      qs ← liftIO (r_q s !! i);
      now ← time K;
      '(r, qs) ← p_exec_query now global pol K realloc_frees conf true (Some name) thint (r_ns s) qs;
      '(o, s) ← use_result i qs r s;
      match o with
      | Retry => qs ← liftIO (r_q s !! i); try_query fu i (set_q (<[i := switch_to_tcp qs]> (r_q s)) s)
      | _ => mret (o, s)
      end
  end.

(** [if (qs->state==QS_DONE && i==dc) dc++]. *)
Definition pass_done (i : nat) (s : rquery) : option rquery :=
  qs ← r_q s !! i;
  Some (if bool_decide (q_state qs = QS_DONE) && (i =? r_dc s) then set_dc (S (r_dc s)) s else s).

(** The loop that starts the queries from [j] on; [n] servers from [i] on are left. *)
Fixpoint start_loop (n i j : nat) (s : rquery) : IO (outcome * rquery) :=
  match n with
  | O => mret (Next, s)
  | S n' =>
      '(o, s) ← (if (j <=? i) then try_query 2 i s else mret (Next, s));
      match o with
      | Next => s ← liftIO (pass_done i s); start_loop n' (S i) j s
      | _ => mret (o, set_mc i s)
      end
  end.

Definition POLLIN : Z := 1.
Definition POLLOUT : Z := 4.
Definition POLLFAIL : Z := 0x38.

Definition poll_event (qs : query) : Z :=
  match q_state qs with
  | QS_TCPREAD | QS_UDPRECEIVE => POLLIN
  | QS_TCPWRITE => POLLOUT
  | _ => 0
  end.

(** Whether the events [ev] are those that the query waits for, or errors. *)
Definition srv_event (qs : query) (ev : Z) : bool := negb (poll_event qs =? 0)%Z && tst ev (Z.lor (poll_event qs) POLLFAIL).

(** The servers from [a] to [b] that are not done, with their indices. *)
Definition active (a b : nat) (q : list query) : list (nat * query) :=
  filter (fun x => q_state x.2 <> QS_DONE) (zip (seq a (b - a)) (take (b - a) (drop a q))).

(** The loop after a timeout, and how many queries were tried again. *)
Fixpoint timeout_loop (n i : nat) (again : nat) (s : rquery) : IO (outcome * nat * rquery) :=
  match n with
  | O => mret (Next, again, s)
  | S n' =>
      qs ← liftIO (r_q s !! i);
      now ← time K;
      '(r, qs) ← timed_out now global pol K realloc_frees conf true (Some name) thint (r_ns s) qs;
      match r with
      | None => timeout_loop n' (S i) again (set_q (<[i := qs]> (r_q s)) s)
      | Some r =>
          '(o, s) ← use_result i qs r s;
          match o with
          | Done | Failed => mret (o, again, s)
          | _ => timeout_loop n' (S i) (S again) s
          end
      end
  end.

(** The search for a descriptor among those that are left. *)
Fixpoint find_poll (fd : option positive) (polls : list (option positive * Z)) : option (Z * list (option positive * Z)) :=
  match polls with
  | [] => None
  | (fd', ev) :: polls' => if bool_decide (fd' = fd) then Some (ev, polls') else find_poll fd polls'
  end.

(** The loop over the events; [nevents] of them are left. *)
Fixpoint event_loop (n i : nat) (polls : list (option positive * Z)) (nevents : Z) (s : rquery) : IO (outcome * Z * rquery) :=
  match n with
  | O => mret (Next, nevents, s)
  | S n' =>
      qs ← liftIO (r_q s !! i);
      '(o, polls, nevents, s) ←
        (if bool_decide (q_state qs = QS_DONE) then mret (Next, polls, nevents, s)
         else
           '(ev, polls) ← liftIO (find_poll (q_sock qs) polls);
           if srv_event qs ev then
             '(o, s) ← try_query 2 i s;
             mret (o, polls, (nevents - 1)%Z, s)
           else mret (Next, polls, nevents, s));
      match o with
      | Next => s ← liftIO (pass_done i s); event_loop n' (S i) polls nevents s
      | _ => mret (o, nevents, s)
      end
  end.

(** The time limit for [poll]: that of the servers of this round that are active, or the global one
    if there are no more servers and no query over TCP that might be tried again over UDP. *)
Definition max_timeout (j : nat) (ts0 ts now : Z) (s : rquery) : Z :=
  let act := active (r_dc s) (r_mc s) (r_q s) in
  let maxto := (foldl Z.max 0 (map (fun x => q_timeout x.2) (filter (fun x => (j <= x.1)%nat) act)) - (now - ts))%Z in
  if (r_mc s =? length (r_q s)) && negb (existsb tentative_tcp_query (take (r_mc s - j) (drop j (r_q s)))) then
    Z.max maxto (g_timeout rc - (now - ts0))
  else maxto.

(** The loop around [poll]. *)
Fixpoint poll_loop (fuel j : nat) (ts0 ts : Z) (s : rquery) : IO (outcome * rquery) :=
  match fuel with
  | O => liftIO None
  | S fu =>
      let s := set_rv RC_SERVFAIL s in
      match active (r_dc s) (r_mc s) (r_q s) with
      | [] => mret (Next, set_dc (r_mc s) s)
      | act =>
          now ← time K;
          let fds := map (fun x => (q_sock x.2, poll_event x.2)) act in
          let maxto := max_timeout j ts0 ts now s in
          r ← poll K fds (if (0 <? maxto)%Z then (maxto * 1000)%Z else 0%Z);
          match r with
          | inl _ => mret (Done, s)
          | inr revents =>
              let nevents := length (filter (fun ev => ev <> 0%Z) revents) in
              if (nevents =? 0) then
                '(o, again, s) ← timeout_loop (r_mc s - j) j 0 s;
                match o with
                | Done | Failed => mret (o, s)
                | _ =>
                    more ← (if (r_mc s =? length (r_q s)) && negb (again =? 0) then
                              now ← time K; mret ((now - ts0 <? g_timeout rc)%Z && (r_dc s <? r_mc s))
                            else mret false);
                    if (more : bool) then poll_loop fu j ts0 ts s else mret (Next, s)
                end
              else
                '(o, nevents, s) ← event_loop (r_mc s - r_dc s) (r_dc s) (zip (map fst fds) revents) (Z.of_nat nevents) s;
                match o with
                | Done | Failed => mret (o, s)
                | _ =>
                    if (0 <? nevents)%Z then mret (Done, set_rv RC_SERVFAIL s)
                    else if (r_dc s <? r_mc s) then poll_loop fu j ts0 ts s
                    else mret (Next, s)
                end
          end
      end
  end.

(** The loop over rounds of [par_queries] servers. *)
Fixpoint round_loop (fuel j : nat) (ts0 : Z) (s : rquery) : IO (outcome * rquery) :=
  if (j <? length (r_q s)) then
    match fuel with
    | O => liftIO None
    | S fu =>
        let s := set_mc (Nat.min (j + g_par_queries rc) (length (r_q s))) s in
        '(o, s) ← start_loop (r_mc s - r_dc s) (r_dc s) j s;
        match o with
        | Next =>
            '(o, s) ← (if (r_dc s <? r_mc s) then ts ← time K; poll_loop (polls_max + length (r_q s)) j ts0 ts s else mret (Next, s));
            match o with
            | Next => round_loop fu (j + g_par_queries rc) ts0 s
            | _ => mret (o, s)
            end
        | _ => mret (o, s)
        end
    end
  else mret (Next, s).

(** The servers from [i] on that are cancelled, [n] of them. *)
Fixpoint cancel_loop (n i : nat) (q : list query) : IO (list query) :=
  match n with
  | O => mret q
  | S n' =>
      qs ← liftIO (q !! i);
      qs ← p_cancel_query qs;
      cancel_loop n' (S i) (<[i := qs]> q)
  end.

(** The servers that have not answered in time are to be tested. *)
Fixpoint test_loop (q : list query) : IO unit :=
  match q with
  | [] => mret tt
  | qs :: q' => _ ← (if (1 <? q_needs_testing qs)%Z then sched_server_test (q_a qs) (-1) else mret tt); test_loop q'
  end.

(** From the labels [free_ent_return_failed], [done] and [cancel_queries] to the end of the block. *)
Definition end_queries (o : outcome) (s : rquery) : IO rquery :=
  s ← match o with
      | Failed => _ ← free_ent (r_ent s); mret (set_rv RC_FATALERR s)
      | _ => mret s
      end;
  s ← match o with
      | Next | Retry => mret s
      | Done | Failed => _ ← free_ent (match r_save s with Some (e, _, _) => Some e | None => None end); mret (set_save None s)
      end;
  q ← cancel_loop (r_mc s - r_dc s) (r_dc s) (r_q s);
  _ ← test_loop (take (r_mc s) q);
  mret (set_q q s).

(** An answer that is not good enough is not to be cached. *)
Definition mark_nocache (ent : dns_cent) : option dns_cent :=
  if tst (flags ent) DF_NEGATIVE then Some (set_flags (Z.lor (flags ent) DF_NOCACHE) ent)
  else
    n ← rrarr_len ent;
    fold_opt (fun e i => r ← rrarr_index e i;
      match r with Some rs => rrarr_set e i (Some (rs_set_flags (Z.lor (rs_flags rs) CF_NOCACHE) rs)) | None => Some e end) (seq 0 n) ent.

(** A reference to an authority that is replaced by a better one. *)
Definition better (saved x : Z) : Z := if negb (saved =? cundef)%Z && ((x =? cundef)%Z || (x <? saved)%Z) then saved else x.

(** The servers in the authority section are asked; the answer is kept if its server claims to be
    authoritative or to have recursion. *)
Definition ask_authority (q : list query) (qse : query_stat) (ent : dns_cent) (serv : list query) (c_soa : option Z) : IO resolved :=
  let save_ns := Cent.c_ns ent in
  let save_soa := Cent.c_soa ent in
  entsave ← (if qs_aa qse || qs_ra qse then mret (Some ent) else _ ← cacheIO (free_cent ent); mret None);
  lower ← liftIO lower;
  now ← time K;
  '(rv, ent, c_soa) ← lower (Some serv) name thint (q :: qslist) qhlist now c_soa;
  if (rv =? RC_OK)%Z || (rv =? RC_CACHED)%Z || ((rv =? RC_STALE)%Z && negb (is_set entsave)) then
    ent ← liftIO ent;
    let ent := set_c_soa (better save_soa (Cent.c_soa ent)) (set_c_ns (better save_ns (Cent.c_ns ent)) ent) in
    _ ← free_ent entsave;
    mret (rv, Some ent, c_soa)
  else if (rv =? RC_NAMEERR)%Z then
    _ ← free_ent entsave;
    mret (rv, None, better save_soa <$> c_soa)
  else
    match entsave with
    | Some e =>
        _ ← (if (rv =? RC_STALE)%Z then ent ← liftIO ent; cacheIO (free_cent ent) else mret tt);
        mret (RC_OK, Some e, c_soa)
    | None => mret (rv, None, c_soa)
    end.

(** [p_recursive_query]: the result, and [*nocache]. *)
Definition p_recursive_query (q : list query) (c_soa : option Z) : IO (resolved * bool) :=
  ts0 ← time K;
  '(o, s) ← round_loop (length q) 0 ts0
    {| r_q := q; r_dc := 0; r_mc := 0; r_rv := RC_SERVFAIL; r_ent := None; r_ns := []; r_serv := []; r_save := None; r_qual := 0; r_qse := None; r_c_soa := c_soa |};
  s ← end_queries o s;
  r ← match r_save s with
      | Some (e, serv, ns) =>
          e ← liftIO (if (r_qual s <? GOODQUAL)%Z then mark_nocache e else Some e);
          mret (inr (e, serv))
      | None =>
          if (r_rv s =? RC_OK)%Z then e ← liftIO (r_ent s); mret (inr (e, r_serv s))
          else mret (inl (if (r_rv s =? RC_FATALERR)%Z then RC_SERVFAIL else r_rv s))
      end;
  match r with
  | inl rv => mret ((rv, None, r_c_soa s), false)
  | inr (ent, serv) =>
      i ← liftIO (r_qse s);
      qse ← liftIO (r_q s !! i);
      match serv with
      | [] => mret ((RC_OK, Some ent, r_c_soa s), qs_nocache (q_stat qse))
      | _ => r ← ask_authority (r_q s) (q_stat qse) ent serv (r_c_soa s); mret (r, qs_nocache (q_stat qse))
      end
  end.
End Query.

(** ** [p_dns_resolve] *)

(** The variables of [p_dns_resolve]: the array of servers, and which root servers have been seen. *)
Record picked := { pk_serv : list query; pk_one_up : bool; pk_seen : Z; pk_rjl : option rejectlist }.

(** The reject list of a server is made once; without memory nothing is asked. *)
Definition with_rejectlist (sp : servparm) (cond : bool) (s : picked) : IO (option picked) :=
  if serv_has_rejectlist sp && cond && negb (is_set (pk_rjl s)) then
    rl ← cacheIO (add_rejectlist sp);
    mret (match rl with
          | Some rl => Some {| pk_serv := pk_serv s; pk_one_up := pk_one_up s; pk_seen := pk_seen s; pk_rjl := Some rl |}
          | None => None
          end)
  else mret (Some s).

Definition pick (st : query) (s : picked) : IO (option picked) :=
  r ← cacheIO (add_qserv (pk_serv s) st);
  mret (match r with
        | Some serv => Some {| pk_serv := serv; pk_one_up := true; pk_seen := pk_seen s; pk_rjl := pk_rjl s |}
        | None => None
        end).

Definition set_seen (v : Z) (s : picked) : picked := {| pk_serv := pk_serv s; pk_one_up := pk_one_up s; pk_seen := v; pk_rjl := pk_rjl s |}.

Definition rhn_arpa : list Z := [4; 97; 114; 112; 97; 0]%Z.

(** How many labels of the name the domains have whose servers are looked up first. *)
Definition top_labels (name : list Z) (nseg : nat) : option nat :=
  mseg ← (if (2 <=? nseg) then '(_, rem, _) ← domain_match rhn_arpa name; Some (if (rem =? 0) then 3 else 1) else Some 1);
  Some (if (nseg <=? mseg) then nseg - 1 else mseg).

(** The servers of the longest such domain that are in the cache. *)
Fixpoint cached_ns (now : Z) (name : list Z) (nseg mseg : nat) : M (option (list Z * list (list Z))) :=
  match mseg with
  | O => mret None
  | S m =>
      topdomain ← liftM (skipsegs name (nseg - mseg));
      adrs ← lookup_ns now topdomain;
      match adrs with
      | [] => cached_ns now name nseg m
      | _ => mret (Some (topdomain, adrs))
      end
  end.

(** A list from a random position on. *)
Definition rotate_random {A} (rand : bool) (l : list A) : IO (list A) :=
  if rand then r ← random K; let k := Z.to_nat (r mod Z.of_nat (length l)) in mret (drop k l ++ take k l) else mret l.

(** The query that is sent to a server of the configuration, and to a server for a top level domain. *)
Definition conf_query (sp : servparm) (a : list Z) (rl : option rejectlist) : query :=
  new_query {| sin_addr := a; sin_port := sp_port sp |} (sp_timeout sp) (mk_flag_val sp) (sp_nocache sp) (sp_lean_query sp) (sp_edns_query sp)
    (if (sp_rootserver sp =? 0)%Z then (if sp_is_proxy sp then 0 else 1) else 3) (if needs_testing sp then 1 else 0) true None rl (g_query_method rc).
Definition top_query (sp : servparm) (topdomain a : list Z) (rl : option rejectlist) : query :=
  new_query {| sin_addr := a; sin_port := 53 |} (sp_timeout sp) (Z.land (mk_flag_val sp) (Z.lnot CFF_NOINHERIT)) (sp_nocache sp) (sp_lean_query sp) (sp_edns_query sp)
    2 0 (negb (g_paranoid rc)) (Some topdomain) rl (g_query_method rc).

Fixpoint pick_all (l : list (list Z)) (mk : list Z -> query) (s : picked) : IO (option picked) :=
  match l with
  | [] => mret (Some s)
  | a :: l' => r ← pick (mk a) s; match r with Some s => pick_all l' mk s | None => mret None end
  end.

(** What a root server is replaced by: [None] when memory runs out; the flag tells whether the
    other addresses of the root server are passed over. *)
Definition instead_of_root (name : list Z) (sp : servparm) (s : picked) : IO (option (bool * picked)) :=
  if (pk_seen s =? 0)%Z then
    let s := set_seen 1 s in
    nseg ← liftIO (rhnsegcnt name);
    mseg ← liftIO (top_labels name nseg);
    now ← time K;
    r ← cacheIO (cached_ns now name nseg mseg);
    match r with
    | None => mret (Some (false, s))
    | Some (topdomain, adrs) =>
        adrs ← rotate_random (sp_rand_servers sp) adrs;
        r ← with_rejectlist sp (sp_rejectrecursively sp) s;
        match r with
        | None => mret None
        | Some s =>
            r ← pick_all adrs (fun a => top_query sp topdomain a (pk_rjl s)) s;
            mret (match r with Some s => Some (true, set_seen 2 s) | None => None end)
        end
    end
  else mret (Some ((pk_seen s =? 2)%Z, s)).

(** The loop over the addresses of a server. *)
Fixpoint pick_addrs (name : list Z) (sp : servparm) (l : list atup) (s : picked) : IO (option picked) :=
  match l with
  | [] => mret (Some s)
  | x :: l' =>
      if at_is_up x then
        r ← (if (sp_rootserver sp =? 0)%Z then mret (Some (false, s)) else instead_of_root name sp s);
        match r with
        | None => mret None
        | Some (true, s) => mret (Some s)
        | Some (false, s) =>
            r ← with_rejectlist sp true s;
            match r with
            | None => mret None
            | Some s =>
                r ← pick (conf_query sp (at_a x) (pk_rjl s)) s;
                match r with Some s => pick_addrs name sp l' s | None => mret None end
            end
        end
      else pick_addrs name sp l' s
  end.

(** The loop over the servers. *)
Fixpoint pick_servers (name : list Z) (l : list servparm) (s : picked) : IO (option picked) :=
  match l with
  | [] => mret (Some s)
  | sp :: l' =>
      use ← (if (sp_rootserver sp <=? 1)%Z then liftIO (use_server sp name) else mret false);
      if (use : bool) && negb (length (sp_atup_a sp) =? 0) then
        adrs ← rotate_random (sp_rand_servers sp) (sp_atup_a sp);
        r ← pick_addrs name sp adrs {| pk_serv := pk_serv s; pk_one_up := pk_one_up s; pk_seen := pk_seen s; pk_rjl := None |};
        match r with Some s => pick_servers name l' s | None => mret None end
      else pick_servers name l' s
  end.

(** The new entry is added to the cache, and what the cache knows then is the answer. *)
Definition merge_cached (name : list Z) (cached : dns_cent) : IO dns_cent :=
  now ← time K;
  _ ← cacheIO (add_cache now global cached);
  now ← time K;
  '(tc, _) ← cacheIO (lookup_cache now name false);
  match tc with
  | Some tc => _ ← cacheIO (free_cent cached); mret tc
  | None => mret cached
  end.

Definition p_dns_resolve (name : list Z) (thint : Z) (qhlist : list (list Z * Z)) (c_soa : option Z) : IO resolved :=
  l ← get_servers;
  r ← pick_servers name l {| pk_serv := []; pk_one_up := false; pk_seen := 0; pk_rjl := None |};
  match r with
  | Some s =>
      if pk_one_up s then
        '(rv, cached, c_soa, nocache) ← p_recursive_query name thint [] qhlist (pk_serv s) c_soa;
        if (rv =? RC_OK)%Z then
          cached ← liftIO cached;
          cached ← (if (nocache : bool) then mret cached else merge_cached name cached);
          mret (rv, Some cached, c_soa)
        else mret (rv, cached, c_soa)
      else mret (RC_SERVFAIL, None, c_soa)
  | None => mret (RC_SERVFAIL, None, c_soa)
  end.

(** ** [p_dns_cached_resolve] *)

(** No server is up. *)
Definition linkdown : IO bool :=
  l ← get_servers;
  mret (negb (existsb (fun sp => (sp_rootserver sp <=? 1)%Z && existsb at_is_up (sp_atup_a sp)) l)).

Definition cached_resolve : resolver := fun q name thint qslist qhlist queryts c_soa =>
  now ← time K;
  st ← cacheIO (lookup_cache_status now name thint queryts c_soa);
  let cached := cs_cached st in
  let c_soa := cs_c_soa st in
  if (cs_rc st =? RC_OK)%Z then mret (RC_CACHED, cached, c_soa)
  else if (cs_rc st =? RC_NAMEERR)%Z then mret (RC_NAMEERR, None, c_soa)
  else
    down ← (if g_lndown_kluge rc && negb (tst (cs_flags st) CF_LOCAL) then linkdown else mret false);
    if (down : bool) then _ ← free_ent cached; mret (RC_SERVFAIL, None, c_soa)
    else if (cs_rc st =? RC_CACHED)%Z then mret (RC_CACHED, cached, c_soa)
    else
      '(rv, ent, c_soa) ← match q with
                          | Some q => '(r, _) ← p_recursive_query name thint qslist qhlist q c_soa; mret r
                          | None => p_dns_resolve name thint qhlist c_soa
                          end;
      if has_entry rv then _ ← free_ent cached; mret (rv, ent, c_soa)
      else if (rv =? RC_SERVFAIL)%Z && is_set cached && tst (cs_flags st) CF_NOPURGE then mret (RC_STALE, cached, c_soa)
      else _ ← free_ent cached; mret (rv, None, c_soa).
End Lower.

(** [p_dns_cached_resolve]. *)
Fixpoint p_dns_cached_resolve (hops : nat) : resolver :=
  cached_resolve (match hops with O => None | S h => Some (p_dns_cached_resolve h) end).

(** [r_dns_cached_resolve], the resolver for the rest of the program. *)
Definition r_dns_cached_resolve (hops : nat) : list Z -> Z -> list (list Z * Z) -> Z -> option Z -> IO resolved := r_resolve (p_dns_cached_resolve hops).

(** [dns_cached_resolve] of dns_query.h as the part of the program that answers queries uses it.
    Each call happens at some point of the history of system calls, given by [start], while the
    sockets and blocks in [S] and [H] belong to others; the caller's [c_soa] is set before. *)
Definition dns_cached_resolve (start : list Z -> Z -> Z -> cache -> nat) (S : gmap positive conn) (H : gmap positive (list Z)) (name : list Z) (thint queryts : Z) : M (Z * option dns_cent * Z) := fun c =>
  '((rv, ent, c_soa), w) ← r_dns_cached_resolve MAX_HOPS name thint [] queryts (Some cundef)
    {| w_cache := c; socks := S; past := []; heap := H; ticks := start name thint queryts c; tests := [] |};
  Some ((rv, ent, default cundef c_soa), w_cache w).

(** ** Root servers *)

(** The array of servers of [simple_dns_cached_resolve]. *)
Fixpoint simple_servers (atup_a : list atup) (port : Z) (edns_query : bool) (timeout : Z) (serv : list query) : M (option (list query)) :=
  match atup_a with
  | [] => mret (Some serv)
  | x :: atup_a' =>
      r ← add_qserv serv (new_query {| sin_addr := at_a x; sin_port := port |} timeout 0 false true edns_query 0 0 true None None (g_query_method rc));
      match r with Some serv => simple_servers atup_a' port edns_query timeout serv | None => mret None end
  end.

Definition not_negative (cached : dns_cent) : IO (Z * option dns_cent) :=
  if tst (flags cached) DF_NEGATIVE then _ ← cacheIO (free_cent cached); mret (RC_NAMEERR, None) else mret (RC_OK, Some cached).

Definition simple_dns_cached_resolve (atup_a : list atup) (port : Z) (edns_query : bool) (timeout : Z) (name : list Z) (thint : Z) : IO (Z * option dns_cent) :=
  queryts ← time K;
  now ← time K;
  st ← cacheIO (lookup_cache_status now name thint queryts None);
  if (cs_rc st =? RC_OK)%Z then mret (RC_OK, cs_cached st)
  else if (cs_rc st =? RC_NAMEERR)%Z then mret (RC_NAMEERR, None)
  else if (cs_rc st =? RC_CACHED)%Z then cached ← liftIO (cs_cached st); not_negative cached
  else
    _ ← free_ent (cs_cached st);
    r ← cacheIO (simple_servers atup_a port edns_query timeout []);
    match r with
    | None => mret (RC_SERVFAIL, None)
    | Some qserv =>
        '(rv, cached, _, _) ← p_recursive_query None name thint [] [] qserv None;
        if (rv =? RC_OK)%Z then cached ← liftIO cached; cached ← merge_cached name cached; not_negative cached
        else if (rv =? RC_CACHED)%Z || (rv =? RC_STALE)%Z then cached ← liftIO cached; not_negative cached
        else mret (rv, None)
    end.

(** The loop over the names of root servers; [nfail] of them have no address.  No memory is [None]. *)
Fixpoint root_loop (atup_a : list atup) (port : Z) (edns_query : bool) (timeout : Z) (rrs : list (list Z)) (nfail : nat) (res : list (list Z)) : IO (option (nat * list (list Z))) :=
  match rrs with
  | [] => mret (Some (nfail, res))
  | rr :: rrs' =>
      '(rv, servent) ← simple_dns_cached_resolve atup_a port edns_query timeout rr T_A;
      serva ← (if (rv =? RC_OK)%Z then
                 servent ← liftIO servent;
                 rs ← liftIO (get_rrsmu servent RRMUINDEX_A);
                 serva ← liftIO (first_addrs rs);
                 _ ← cacheIO (free_cent servent);
                 mret serva
               else mret []);
      match serva with
      | [] => root_loop atup_a port edns_query timeout rrs' (S nfail) res
      | _ =>
          r ← cacheIO (grow_addrs serva (length res) res);
          match r with
          | Some res => root_loop atup_a port edns_query timeout rrs' nfail res
          | None => mret None
          end
      end
  end.

Definition dns_rootserver_resolv (atup_a : list atup) (port : Z) (edns_query : bool) (timeout : Z) : IO (list (list Z)) :=
  '(rv, cent) ← simple_dns_cached_resolve atup_a port edns_query timeout [0%Z] T_NS;
  if (rv =? RC_OK)%Z then
    cent ← liftIO cent;
    rs ← liftIO (get_rrsmu cent RRMUINDEX_NS);
    res ← match rs with
          | Some rs =>
              r ← root_loop atup_a port edns_query timeout (rs_rrs rs) 0 [];
              mret (match r with Some (nfail, res) => if (length res <? nfail) then [] else res | None => [] end)
          | None => mret []
          end;
    _ ← cacheIO (free_cent cent);
    mret res
  else mret [].

(** ** [query_uptest] *)

(** The loop around [poll] for a query that waits: its return code, or the query when it has timed
    out.  The return value for a failure to wait is that for a failed query. *)
Fixpoint uptest_wait (fuel : nat) (name : option (list Z)) (timeout ts tpassed : Z) (qs : query) : IO (Z + query) :=
  match fuel with
  | O => liftIO None
  | S fu =>
      t ← tick;
      if interrupted t then _ ← p_cancel_query qs; mret (inl RC_SERVFAIL)
      else
        r ← poll K [(q_sock qs, poll_event qs)] (if (tpassed <? timeout)%Z then ((timeout - tpassed) * 1000)%Z else 0%Z);
        match r with
        | inl _ => _ ← p_cancel_query qs; mret (inl RC_SERVFAIL)
        | inr revents =>
            ev ← liftIO (revents !! 0);
            if (ev =? 0)%Z then qs ← p_cancel_query qs; mret (inr qs)
            else if srv_event qs ev then
              now ← time K;
              '(r, qs) ← p_exec_query now global pol K realloc_frees conf false name T_A [] qs;
              if (ex_rv r =? -1)%Z then now ← time K; uptest_wait fu name timeout ts (now - ts) qs
              else mret (inl (ex_rv r))
            else _ ← p_cancel_query qs; mret (inl RC_SERVFAIL)
        end
  end.

(** One try, from the label [try_again] on. *)
Definition uptest_once (name : option (list Z)) (timeout : Z) (qs : query) : IO (Z + query) :=
  now ← time K;
  '(r, qs) ← p_exec_query now global pol K realloc_frees conf false name T_A [] (q_set_s_errno None (q_set_qm (g_query_method rc) (q_set_state QS_INITIAL qs)));
  if (ex_rv r =? -1)%Z then ts ← time K; uptest_wait polls_max name timeout ts 0 qs else mret (inl (ex_rv r)).

Fixpoint uptest_loop (rep : nat) (name : option (list Z)) (timeout : Z) (qs : query) : IO bool :=
  r ← uptest_once name timeout qs;
  match r, rep with
  | inl rv, _ => mret (negb (rv =? RC_SERVFAIL)%Z && negb (rv =? RC_FATALERR)%Z)
  | inr qs, S (S _ as rep') => uptest_loop rep' name timeout qs
  | inr _, _ => mret false
  end.

(** [query_uptest]: whether the server answers; it is asked up to [rep] times. *)
Definition query_uptest (rep : nat) (addr : list Z) (port : Z) (name : option (list Z)) (timeout : Z) : IO bool :=
  uptest_loop rep name timeout (new_query {| sin_addr := addr; sin_port := port |} timeout 0 false true false 0 0 true None None (g_query_method rc)).
End Recurse.
