(* ===== verification/Forward.v ===== *)
(** Facts about computations that do not depend on the state: time goes on, and the
    method of a query changes to UDP at most. *)
From S2P Require Import Prelude Names DnsName RrTypes HashTab RrList Cent Cache Answer Query Reply Exec Net QuerySm QueryExec.

(** The number of calls does not go down, and the result satisfies [Q]. *)
Definition leads {A} (Q : A -> Prop) (m : IO A) : Prop := forall w a w', m w = Some (a, w') -> ticks w <= ticks w' /\ Q a.

Definition top {A} (_ : A) : Prop := True.

Lemma leads_bind {A B} (Q1 : A -> Prop) (Q : B -> Prop) (m : IO A) (k : A -> IO B) :
  leads Q1 m -> (forall a, Q1 a -> leads Q (k a)) -> leads Q (mbind k m).
Proof.
  intros Hm Hk w b w' E. unfold mbind, IO_bind in E. destruct (m w) as [[a w1]|] eqn:E1; [|done].
  destruct (Hm _ _ _ E1) as [? Ha]. destruct (Hk a Ha _ _ _ E). split; [lia|done].
Qed.

Lemma leads_weaken {A} (Q Q' : A -> Prop) (m : IO A) : leads Q m -> (forall a, Q a -> Q' a) -> leads Q' m.
Proof. intros Hm HQ w a w' E. destruct (Hm w a w' E). auto. Qed.

Lemma leads_ret {A} (Q : A -> Prop) (a : A) : Q a -> leads Q (mret a).
Proof. intros H w b w' [= <- <-]. auto. Qed.

Lemma leads_lift {A} (Q : A -> Prop) (o : option A) : (forall a, o = Some a -> Q a) -> leads Q (liftIO o).
Proof. intros H w a w' E. unfold liftIO in E. destruct o; [|done]. injection E as <- <-. auto. Qed.

Lemma leads_get : leads top getIO.
Proof. intros w a w' [= <- <-]. by split. Qed.

Lemma leads_mod f : (forall w, ticks w <= ticks (f w)) -> leads top (modIO f).
Proof. intros H w a w' [= <- <-]. by split. Qed.

Lemma leads_cache {A} (m : M A) : leads top (cacheIO m).
Proof. intros w a w' E. unfold cacheIO in E. destruct (m (w_cache w)) as [[b c]|]; [|done]. injection E as <- <-. by split. Qed.

Lemma leads_tick : leads top tick.
Proof. intros w a w' [= <- <-]. split; [cbn; lia|done]. Qed.

Create HintDb leads.
#[export] Hint Resolve leads_get leads_cache leads_tick : leads.

(** Take a computation apart; what is known of intermediate results is forgotten unless a lemma
    of the database tells it. *)
Ltac leads_step :=
  match goal with
  | |- leads _ (mbind _ _) => eapply leads_bind; [solve [eauto with leads nocore]|intros ? ?]
  | |- leads _ (mbind _ _) => apply (leads_bind top); [|intros ? _]
  | |- leads _ (mret _) => apply leads_ret
  | |- leads _ (liftIO _) => apply leads_lift; intros
  | |- leads _ (modIO _) => apply leads_mod; intros
  | |- leads _ (let _ := _ in _) => cbv zeta
  | |- leads _ (match ?x with _ => _ end) => destruct x
  | |- leads _ _ => solve [eauto with leads nocore]
  | |- top _ => exact I
  end.
Ltac leads := repeat leads_step; try done.

Lemma leads_load p : leads top (load p).
Proof. unfold load. leads. Qed.
#[export] Hint Resolve leads_load : leads.
Lemma leads_store p v : leads top (Net.store p v).
Proof. unfold Net.store. leads. Qed.
Lemma leads_malloc n : leads top (pdnsd_malloc n).
Proof. unfold pdnsd_malloc, alloc. leads. Qed.
Lemma leads_free p : leads top (pdnsd_free p).
Proof. unfold pdnsd_free. leads. Qed.
#[export] Hint Resolve leads_store leads_malloc leads_free : leads.
Lemma leads_realloc rf p n : leads top (realloc_or_cleanup rf p n).
Proof. unfold realloc_or_cleanup, pdnsd_realloc. leads. Qed.
#[export] Hint Resolve leads_realloc : leads.

Section Calls.
Context (K : kernel).

Lemma leads_sock fd : leads top (the_sock fd).
Proof. unfold the_sock. leads. Qed.
Lemma leads_put fd c : leads top (put_sock fd c).
Proof. unfold put_sock. leads. Qed.
#[local] Hint Resolve leads_sock leads_put : leads.

Lemma leads_socket tp : leads top (socket K tp).
Proof. unfold socket. leads. Qed.
Lemma leads_bind_call fd p : leads top (bind K fd p).
Proof. unfold bind. leads. Qed.
Lemma leads_fcntl fd : leads top (fcntl K fd).
Proof. unfold fcntl. leads. Qed.
Lemma leads_connect fd a : leads top (connect K fd a).
Proof. unfold connect. leads. Qed.
Lemma leads_write fd l : leads top (write K fd l).
Proof. unfold write. leads. Qed.
Lemma leads_send fd l : leads top (send K fd l).
Proof. unfold send. leads. Qed.
Lemma leads_read fd n : leads top (read K fd n).
Proof. unfold read. leads. Qed.
Lemma leads_recv fd n : leads top (recv K fd n).
Proof. unfold recv. leads. Qed.
Lemma leads_close fd : leads top (close fd).
Proof. unfold close. leads. Qed.
Lemma leads_rand : leads top (get_rand16 K).
Proof. unfold get_rand16. leads. Qed.
Lemma leads_random : leads top (random K).
Proof. unfold random. leads. Qed.
Lemma leads_time : leads top (time K).
Proof. unfold time. leads. Qed.
Lemma leads_test a up : leads top (sched_server_test a up).
Proof. unfold sched_server_test. leads. Qed.
#[local] Hint Resolve leads_rand leads_bind_call : leads.

Lemma leads_rand_below n r m : leads top (rand_below K n r m).
Proof. induction n; cbn [rand_below]; leads. Qed.
#[local] Hint Resolve leads_rand_below : leads.
Lemma leads_bind_port fuel : forall fd a b r m x y p s, leads top (bind_port K fuel fd a b r m x y p s).
Proof. induction fuel; intros; cbn [bind_port]; leads. Qed.
#[local] Hint Resolve leads_bind_port : leads.
Lemma leads_bind_socket a b fd : leads top (bind_socket K a b fd).
Proof. unfold bind_socket. leads. Qed.
End Calls.
#[export] Hint Resolve leads_socket leads_fcntl leads_connect leads_write leads_send leads_read leads_recv leads_close leads_rand leads_random leads_time leads_test leads_bind_socket : leads.

(** ** Queries *)

Section Method.
Context {P : Platform} (now : Z) (global : globals) (pol : policies) (K : kernel) (rf : bool) (conf : net_conf).

(** A property of the method that [UDP_ONLY] has. *)
Context (Q : const -> Prop) (HQ : Q UDP_ONLY).

Definition by_method (st : query) : Prop := Q (q_qm st).

Definition left_by (e : leave) : Prop :=
  match e with Return _ st | Break _ st | Error_receiv_data _ st | Tcp_failed st => by_method st end.
Definition went {A} (R : A -> Prop) (x : leave + A) : Prop := match x with inl e => left_by e | inr a => R a end.

Lemma leads_try {A B} (R : A -> Prop) (S : B -> Prop) (m : IO (leave + A)) (k : A -> IO (leave + B)) :
  leads (went R) m -> (forall a, R a -> leads (went S) (k a)) -> leads (went S) (tryIO m k).
Proof. intros Hm Hk. unfold tryIO. eapply leads_bind; [exact Hm|]. intros [e|a] Ha; [by apply leads_ret|by apply Hk]. Qed.

Lemma leads_close_sock st : leads top (close_sock st).
Proof. unfold close_sock. leads. Qed.
Lemma leads_new_id_qm st : leads (fun st' => q_qm st' = q_qm st) (new_id K st).
Proof. unfold new_id. leads. Qed.
Lemma leads_new_id st : by_method st -> leads by_method (new_id K st).
Proof. intros H. eapply leads_weaken; [apply leads_new_id_qm|]. intros st' E. unfold by_method. by rewrite E. Qed.
#[local] Hint Resolve leads_close_sock leads_new_id : leads.

Lemma leads_switch_to_udp st : leads (fun st' => q_qm st' = UDP_ONLY) (switch_to_udp K st).
Proof. unfold switch_to_udp. eapply leads_bind; [apply leads_new_id_qm|]. intros st' E. by apply leads_ret. Qed.

Lemma leads_udp_initial st : by_method st -> leads (went top) (sm_udp_initial K conf st).
Proof. intros H. unfold sm_udp_initial, leaves. repeat leads_step; cbn; try exact H. by destruct (bool_decide _). Qed.
Lemma leads_udp_receive st : by_method st -> leads (went top) (sm_udp_receive K rf conf st).
Proof. intros H. unfold sm_udp_receive, leaves. repeat leads_step; cbn; try exact H. Qed.
Lemma leads_tcp_initial st : by_method st -> leads (went by_method) (sm_tcp_initial K conf st).
Proof. intros H. unfold sm_tcp_initial, leaves, goes. repeat leads_step; cbn; try exact H. Qed.
Lemma leads_tcp_write st : by_method st -> leads (went by_method) (sm_tcp_write K st).
Proof.
  intros H. unfold sm_tcp_write. apply (leads_bind top); [leads|]. intros fd _. cbv zeta. apply (leads_try by_method); unfold leaves, goes; repeat leads_step; cbn; try exact H.
  intros st' H'. repeat leads_step. exact H'.
Qed.
Lemma leads_tcp_read st : by_method st -> leads (went top) (sm_tcp_read K rf st).
Proof.
  intros H. unfold sm_tcp_read. apply (leads_try by_method).
  - unfold sm_tcp_length, leaves, goes. repeat leads_step; cbn; try exact H.
  - intros st' H'. unfold sm_tcp_data. apply (leads_bind top); [leads|]. intros fd _. cbv zeta. apply (leads_try by_method); unfold leaves, goes; repeat leads_step; cbn; try exact H'.
    intros st2 H2. repeat leads_step. exact H2.
Qed.
#[local] Hint Resolve leads_udp_initial leads_udp_receive leads_tcp_initial leads_tcp_write leads_tcp_read : leads.

Lemma leads_sm_switch st : by_method st -> leads (went top) (sm_switch K rf conf st).
Proof.
  intros H. unfold sm_switch. assert (Hw : forall st', by_method st' -> leads (went top) (tryIO (sm_tcp_write K st') (sm_tcp_read K rf))).
  { intros st' H'. eapply leads_try; eauto with leads. }
  destruct (q_state st); auto with leads; try (apply leads_ret; exact H). eapply leads_try; eauto with leads.
Qed.

Lemma leads_query_sm fuel : forall st, by_method st -> leads (fun x => by_method x.2) (query_sm_loop K rf conf fuel st).
Proof.
  induction fuel as [|fu IH]; intros st H; cbn [query_sm_loop]; [by apply leads_lift|].
  eapply leads_bind; [by apply leads_sm_switch|]. intros [e|a] He; [|by apply leads_lift].
  apply (leads_bind left_by).
  { unfold sm_error. destruct e; repeat leads_step; try exact He. by destruct e. }
  intros [rv st'|rv st'|e' st'|st'] H'; [by apply leads_ret|by apply leads_ret|by apply leads_lift|].
  destruct (bool_decide _); [|by apply leads_ret]. eapply leads_bind; [apply leads_switch_to_udp|]. intros st2 E. apply IH. unfold by_method. by rewrite E.
Qed.

Lemma leads_add_edns st n : leads top (add_edns conf st n).
Proof. unfold add_edns. leads. Qed.
Lemma leads_set_len st : leads top (set_len st).
Proof. unfold set_len. leads. Qed.
#[local] Hint Resolve leads_add_edns leads_set_len : leads.

Lemma leads_initial name thint st : by_method st -> leads (fun x => match x with inl st' | inr st' => by_method st' end) (initial K conf name thint st).
Proof. intros H. unfold initial. repeat leads_step; exact H. Qed.

Definition judged_by (v : verdict) : Prop := match v with Discard _ st | Use _ st | Tryagain st => by_method st end.

Lemma leads_resetstate st : by_method st -> leads judged_by (resetstate K st).
Proof. intros H. unfold resetstate. eapply leads_bind; [by apply leads_new_id|]. intros st' H'. leads. Qed.
Lemma leads_try_withoutedns rv st : by_method st -> leads judged_by (try_withoutedns K rv st).
Proof. intros H. unfold try_withoutedns. repeat leads_step; try exact H. by apply leads_resetstate. Qed.
#[local] Hint Resolve leads_resetstate leads_try_withoutedns : leads.
Lemma leads_reply_failed entp rcode f2 buf st : by_method st -> leads judged_by (reply_failed K entp rcode f2 buf st).
Proof. intros H. unfold reply_failed. repeat leads_step; try exact H. Qed.
#[local] Hint Resolve leads_reply_failed : leads.
Lemma leads_check_reply entp st : by_method st -> leads judged_by (check_reply K entp st).
Proof.
  intros H. unfold check_reply. repeat (match goal with |- leads _ (mbind _ (if (_ =? 0)%Z then _ else _)) => fail 1 | _ => leads_step end); try exact H.
  apply (leads_bind by_method); [repeat leads_step; exact H|]. intros st' H'. repeat leads_step; exact H'.
Qed.

Lemma leads_just rv ns st : by_method st -> leads (fun x => by_method x.2) (just rv ns st).
Proof. intros H. unfold just. leads. Qed.
Lemma leads_exec_loop fuel entp name thint ns : forall st, by_method st -> leads (fun x => by_method x.2) (exec_loop now global pol K rf conf fuel entp name thint ns st).
Proof.
  induction fuel as [|fu IH]; intros st H; cbn [exec_loop]; [by apply leads_lift|].
  eapply leads_bind; [by apply leads_query_sm|]. intros [rv st1] H1. cbn [snd] in H1. destruct (_ =? _)%Z; [by apply leads_just|].
  destruct (negb _).
  - unfold query_failed. repeat leads_step; apply leads_just; exact H1.
  - eapply leads_bind; [by apply leads_check_reply|]. intros [rv' st2|rc st2|st2] H2; cbn in H2.
    + unfold discard_reply. repeat leads_step. apply leads_just. exact H2.
    + unfold take_reply. repeat leads_step; try exact H2. by apply leads_just.
    + by apply IH.
Qed.

Lemma leads_p_exec_query entp name thint ns st : by_method st ->
  leads (fun x => by_method x.2) (p_exec_query now global pol K rf conf entp name thint ns st).
Proof.
  intros H. unfold p_exec_query. destruct (q_state st); try by apply leads_exec_loop.
  - eapply leads_bind; [by apply leads_initial|]. intros [st'|st'] H'; [by apply leads_just|by apply leads_exec_loop].
  - apply leads_just. exact H.
  - apply leads_just. exact H.
Qed.

Lemma leads_p_cancel_query st : leads top (p_cancel_query st).
Proof. unfold p_cancel_query. leads. Qed.
End Method.

(** A timeout leaves the method alone, or the query goes on over UDP. *)
Lemma leads_timed_out {P : Platform} now global pol K rf conf entp name thint ns st :
  leads (fun x => match x.1 with Some _ => tentative_tcp_query st = true /\ q_qm x.2 = UDP_ONLY | None => q_qm x.2 = q_qm st /\ q_state x.2 = q_state st end)
    (timed_out now global pol K rf conf entp name thint ns st).
Proof.
  unfold timed_out. cbv zeta. set (st1 := if _ && _ then _ else _).
  assert (E1 : q_qm st1 = q_qm st /\ q_state st1 = q_state st /\ tentative_tcp_query st1 = tentative_tcp_query st) by (unfold st1; by destruct (_ && _)).
  destruct E1 as (E1 & E2 & E3). clearbody st1. destruct (tentative_tcp_query st1) eqn:Et; [|by apply leads_ret].
  apply (leads_bind top); [apply leads_close_sock|]. intros _ _. eapply leads_bind; [apply leads_switch_to_udp|]. intros st2 E4.
  eapply leads_bind; [by apply (leads_p_exec_query now global pol K rf conf (fun m => m = UDP_ONLY) eq_refl)|]. intros [r st3] E5. by apply leads_ret.
Qed.

Lemma tentative_method st : tentative_tcp_query st = true -> q_qm st = TCP_UDP /\ q_state st ∈ [QS_TCPWRITE; QS_TCPREAD].
Proof.
  unfold tentative_tcp_query. intros [E1 E2]%andb_true_iff. apply bool_decide_eq_true in E1. split; [done|].
  apply orb_true_iff in E2 as [E2|[E2 _]%andb_true_iff]; apply bool_decide_eq_true in E2; set_solver.
Qed.
