(* ===== verification/Parallel.v ===== *)
(** Several queries at once: what each of them holds, beside what the others hold. *)
From S2P Require Import Prelude Names DnsName Compress RrTypes HashTab RrList Cent CentSpec Cache CacheInv CachePurge CacheAdd CacheOps CacheThms.
From S2P Require Import Answer AnswerRr AnswerSet Query QueryDecode QuerySafe Reply ReplyData ReplySpec Exec ExecStages ExecSpec.
From S2P Require Import Net NetSpec QuerySm SmSpec QueryExec QueryRun QueryLoop QueryStep Forward.

(** ** The part of the world that a query holds *)

Abbreviation sockets := (gmap positive conn).
Abbreviation blocks := (gmap positive (list Z)).

Lemma apart_union p (A B : blocks) : A ##ₘ B -> apart p (A ∪ B) <-> apart p A /\ apart p B.
Proof. intros HD. destruct p as [| |b]; cbn; [tauto..|]. apply lookup_union_None. Qed.

Lemma hput_union p v (A B : blocks) : apart p (A ∪ B) -> hput p v (A ∪ B) = hput p v A ∪ B.
Proof. destruct p as [| |b]; cbn; [done..|]. intros _. by rewrite insert_union_l. Qed.

Lemma hput_disjoint p v (A B : blocks) : A ##ₘ B -> apart p B -> hput p v A ##ₘ B.
Proof. destruct p as [| |b]; cbn; [done..|]. intros HD Hb. by apply map_disjoint_insert_l. Qed.

(** The blocks of a query, without those of others. *)
Lemma owns_split st (F : blocks) b rb H : owns st F b rb H <-> exists h, owns st ∅ b rb h /\ h ##ₘ F /\ H = h ∪ F.
Proof.
  split.
  - intros (i & mb & Hm & Hi & Hb & Ha & ->). rewrite insert_union_singleton_l in Ha.
    assert (HD : {[i := mb]} ##ₘ F) by (by apply map_disjoint_singleton_l).
    pose proof Ha as Ha'. apply apart_union in Ha' as [Ha1 Ha2]; [|done].
    exists (hput (q_recvbuf st) rb {[i := mb]}). split; [|split].
    + exists i, mb. unfold owns. splits; try done; by rewrite insert_empty.
    + by apply hput_disjoint.
    + rewrite insert_union_singleton_l. by apply hput_union.
  - intros (h & (i & mb & Hm & _ & Hb & Ha & ->) & HD & ->). rewrite insert_empty in *.
    assert (Hi : F !! i = None).
    { apply (map_disjoint_Some_l _ _ _ mb HD). pose proof (apart_lookup (q_recvbuf st) i mb ∅ rb) as E. rewrite insert_empty in E. by apply E. }
    assert (Ha2 : apart (q_recvbuf st) F).
    { destruct (q_recvbuf st) as [| |k]; cbn in *; [done..|]. apply (map_disjoint_Some_l _ _ _ rb HD), lookup_insert_eq. }
    assert (Hs : {[i := mb]} ##ₘ F) by (by apply map_disjoint_singleton_l).
    assert (Ha3 : apart (q_recvbuf st) ({[i := mb]} ∪ F)) by (by apply apart_union).
    exists i, mb. rewrite insert_union_singleton_l. splits; try done. by rewrite hput_union.
Qed.

Section Piece.
Context (conf : net_conf) (qn : option (list (list Z))) (thint : Z).

(** What a query holds between two calls. *)
Definition piece (st : query) (s : sockets) (h : blocks) : Prop :=
  stat_ok (q_stat st) /\
  match q_state st with
  | QS_INITIAL | QS_DONE | QS_CANCELED => s = ∅ /\ h = ∅
  | QS_TCPWRITE | QS_TCPREAD | QS_UDPRECEIVE =>
      exists fd c rd b rb, q_sock st = Some fd /\ s = {[fd := c]} /\ waiting conf st b rb c /\ is_query conf qn thint st rd b /\ owns st ∅ b rb h
  | QS_TCPINITIAL | QS_UDPINITIAL => False
  end.

Lemma piece_rests st s h G F w : piece st s h -> s ##ₘ G -> h ##ₘ F -> socks w = s ∪ G -> heap w = h ∪ F ->
  exists N, resting (w_cache w) conf G F qn thint (past w) N st w.
Proof.
  intros [Hok Hp] HS HH ES EH. assert (Hh : forall S H, socks w = S -> heap w = H -> here (w_cache w) S (past w) H w) by (intros; unfold here; splits; auto with pdnsd).
  assert (Hidle : s = ∅ /\ h = ∅ -> here (w_cache w) G (past w) F w) by (intros [-> ->]; rewrite map_empty_union in ES; rewrite map_empty_union in EH; auto).
  assert (Hwt : (exists fd c rd b rb, q_sock st = Some fd /\ s = {[fd := c]} /\ waiting conf st b rb c /\ is_query conf qn thint st rd b /\ owns st ∅ b rb h) ->
    exists N rd b rb, is_query conf qn thint st rd b /\ waits (w_cache w) conf G F (past w) st b rb w /\ (calls_left st rd <= N)%Z).
  { intros (fd & c & rd & b & rb & Hfd & -> & Hw & Hq & Ho). exists (calls_left st rd), rd, b, rb. splits; [done| |lia].
    apply map_disjoint_singleton_l in HS. exists fd, c. splits; [done..|]. exists [], (h ∪ F). split; [apply Hh; [by rewrite insert_union_singleton_l|done]|].
    apply owns_split. by exists h. }
  unfold resting. destruct (q_state st); try done; try (by exists 0%Z; apply Hidle); try (destruct (Hwt Hp) as (N & H); by exists N).
  exists 280000%Z. split; [by apply Hidle|lia].
Qed.

Lemma rests_piece st G F C L N w : stat_ok (q_stat st) -> resting C conf G F qn thint L N st w ->
  exists s h, piece st s h /\ s ##ₘ G /\ h ##ₘ F /\ socks w = s ∪ G /\ heap w = h ∪ F.
Proof.
  intros Hok Hr. assert (Hidle : forall L, here C G L F w -> exists s h, s = ∅ /\ h = ∅ /\ s ##ₘ G /\ h ##ₘ F /\ socks w = s ∪ G /\ heap w = h ∪ F).
  { intros L' (_ & HS & _ & HH). exists ∅, ∅. splits; try done; try apply map_disjoint_empty_l; by rewrite map_empty_union. }
  assert (Hwt : (exists rd b rb, is_query conf qn thint st rd b /\ waits C conf G F L st b rb w /\ (calls_left st rd <= N)%Z) ->
    exists s h, (exists fd c rd b rb, q_sock st = Some fd /\ s = {[fd := c]} /\ waiting conf st b rb c /\ is_query conf qn thint st rd b /\ owns st ∅ b rb h) /\
      s ##ₘ G /\ h ##ₘ F /\ socks w = s ∪ G /\ heap w = h ∪ F).
  { intros (rd & b & rb & Hq & (fd & c & Hfd & Hf & Hw & L1 & H & (_ & HS & _ & HH) & Ho) & _). apply owns_split in Ho as (h & Ho & HD & ->).
    exists {[fd := c]}, h. splits; [by exists fd, c, rd, b, rb|by apply map_disjoint_singleton_l|done| |done]. by rewrite HS, insert_union_singleton_l. }
  unfold piece. unfold resting in Hr. destruct (q_state st); try done.
  1: destruct Hr as [Hr _].
  all: first [destruct (Hidle _ Hr) as (s & h & -> & -> & H); by exists ∅, ∅|destruct (Hwt Hr) as (s & h & Hx & H); by exists s, h].
Qed.

(** ** Several queries *)

(** The queries hold [S] and [H] beside [G] and [F], which others hold. *)
Inductive together (G : sockets) (F : blocks) : list query -> sockets -> blocks -> Prop :=
  | together_nil : together G F [] G F
  | together_cons st s h qs S H : piece st s h -> together G F qs S H -> s ##ₘ S -> h ##ₘ H -> together G F (st :: qs) (s ∪ S) (h ∪ H).

(** One of several queries can be changed, if it stays apart from the rest. *)
Lemma together_focus G F qs S H i st : together G F qs S H -> qs !! i = Some st ->
  exists s h S' H', piece st s h /\ s ##ₘ S' /\ h ##ₘ H' /\ S = s ∪ S' /\ H = h ∪ H' /\
    forall st' s' h', piece st' s' h' -> s' ##ₘ S' -> h' ##ₘ H' -> together G F (<[i := st']> qs) (s' ∪ S') (h' ∪ H').
Proof.
  intros HT. revert i. induction HT as [|st1 s1 h1 qs S H Hp HT IH HS HH]; intros i Hi; [done|]. destruct i as [|i]; cbn in Hi.
  - injection Hi as ->. exists s1, h1, S, H. splits; try done. intros st' s' h' Hp' HS' HH'. by constructor.
  - destruct (IH i Hi) as (s & h & S' & H' & Hp' & HS' & HH' & -> & -> & Hk). exists s, h, (s1 ∪ S'), (h1 ∪ H').
    apply map_disjoint_union_r in HS as [HS1 HS2]. apply map_disjoint_union_r in HH as [HH1 HH2]. splits; [done|..].
    + apply map_disjoint_union_r. split; [by apply map_disjoint_sym|done].
    + apply map_disjoint_union_r. split; [by apply map_disjoint_sym|done].
    + rewrite !(assoc_L (∪)). by rewrite (map_union_comm s1 s).
    + rewrite !(assoc_L (∪)). by rewrite (map_union_comm h1 h).
    + intros st' s' h' Hp2 HS3 HH3. apply map_disjoint_union_r in HS3 as [HS3 HS4]. apply map_disjoint_union_r in HH3 as [HH3 HH4].
      rewrite !(assoc_L (∪)), (map_union_comm s' s1), (map_union_comm h' h1) by done. rewrite <- !(assoc_L (∪)). cbn. constructor; [done|by apply Hk|..].
      * apply map_disjoint_union_r. split; [by apply map_disjoint_sym|done].
      * apply map_disjoint_union_r. split; [by apply map_disjoint_sym|done].
Qed.

(** Queries that are idle hold nothing. *)
Definition idle (st : query) : Prop := q_state st ∈ [QS_INITIAL; QS_DONE; QS_CANCELED].

Lemma together_idle G F qs S H : together G F qs S H -> Forall idle qs -> S = G /\ H = F.
Proof.
  induction 1 as [|st s h qs S H [_ Hp] HT IH HS HH]; intros Hi; [done|]. apply Forall_cons in Hi as [Hst Hi]. destruct (IH Hi) as [-> ->].
  unfold idle in Hst. rewrite !elem_of_cons, elem_of_nil in Hst. destruct Hst as [E|[E|[E|[]]]]; rewrite E in Hp; destruct Hp as [-> ->]; by rewrite !map_empty_union.
Qed.

Lemma together_new G F qs : Forall (fun st => q_state st = QS_INITIAL /\ stat_ok (q_stat st)) qs -> together G F qs G F.
Proof.
  induction 1 as [|st qs [Hs Hok] _ IH]; [constructor|]. assert (E : together G F (st :: qs) (∅ ∪ G) (∅ ∪ F)); [|by rewrite !map_empty_union in E].
  constructor; [|done|apply map_disjoint_empty_l..]. split; [done|]. by rewrite Hs.
Qed.

End Piece.

(** ** Operations on one of several queries *)

Section One.
Context {P : Platform} (now : Z) (global : globals) (pol : policies) (K : kernel) (rf : bool) (conf : net_conf).
Context (HK : kernel_ok K) (Hconf : net_conf_ok conf) (Hrf : no_empty_reply K rf) (Hpol : conf_ok pol).
Context (name : list Z) (N : list (list Z)) (thint : Z) (HN : wire_name name N) (Hth : thint_ok thint).
Context (G : sockets) (F : blocks).

Abbreviation all_hold := (together conf (Some N) thint G F).

(** The codes that [p_exec_query] returns. *)
Definition code_ok (rv : Z) : Prop := (-1 <= rv < 16)%Z \/ rv = RC_FATALERR.

(** The result of a call: an entry comes with the code of success, and a query that is not done has
    returned -1. *)
Definition exec_out (r : exec_result) (st : query) : Prop :=
  (exists l, ns_pairs (ex_ns r) l) /\ (ex_rv r = RC_OK <-> is_Some (ex_ent r)) /\ (forall e, ex_ent r = Some e -> good_cent e /\ qname e = enc_name N) /\
  (ex_rv r = (-1)%Z <-> q_state st <> QS_DONE) /\ code_ok (ex_rv r).

Lemma executed_out C G' F' ns l L M st x w : ready C -> ns_pairs ns l -> stat_ok (q_stat st) ->
  executed now global pol C K conf G' F' true (Some name) (Some N) thint ns L M st x w -> exec_out x.1 x.2 /\ ready (w_cache w).
Proof.
  intros HC Hns Hok Hx. assert (Hready : ready (w_cache w)) by (eapply (executed_rests now global pol C K conf G' F' true (Some name) (Some N) thint ltac:(apply HN) HN ltac:(intros _; by eexists) Hth Hpol HC ns l Hns L M st x w Hok Hx)). split; [|done].
  destruct Hx as (_ & _ & [(Hlk & -> & rd & b & rb & _ & (fd & c & _ & _ & [_ Hwt] & _) & _)|Hfin]).
  - unfold exec_out. cbn. splits; [by exists l|split; [discriminate|by intros [? ?]]|done| |left; lia]. split; [|done]. intros _. by destruct (q_state x.2).
  - assert (Hrv : ex_rv x.1 <> (-1)%Z) by (exact (finished_rv global pol conf true (Some name) thint (Some N) ltac:(apply HN) HN ltac:(intros _; by eexists) Hth Hpol G' F' C now ns l L st x.2 x.1 w HC Hns Hok Hfin)).
    destruct Hfin as (Hd & _ & _ & _ & [(_ & _ & rv & E & Hrv2)|(_ & st1 & rd & b & m & rc & c & L1 & C1 & Hlk & _ & _ & _ & Hbm & Hgh & HC1 & Hres)]).
    + unfold exec_out. rewrite E in *. cbn in *. splits; [by exists l| |done|split; [lia|done]|unfold code_ok; destruct Hrv2 as [?|[? _]]; [left; lia|by right]]. split; [|by intros [? ?]]. unfold RC_OK, RC_FATALERR in *. lia.
    + cbn in Hres. destruct (runs_use_reply now global pol m Hbm ltac:(apply Hgh) name N thint rd rc (q_stat st1) ns l C1) as (r' & c2 & E2 & _ & _ & Hcode & _ & Hio & He & l' & Hl' & _); try done;
        [by eapply stat_ok_like|by eapply ready_mem; [apply HC1|]|].
      rewrite Hres in E2. injection E2 as E2 _. rewrite E2 in *. unfold exec_out. splits; [by exists l'|done| |split; [done|congruence]|unfold code_ok, RC_OK, RC_NAMEERR, RC_SERVFAIL in *; destruct Hcode as [?|[?|[?|[? _]]]]; [left; lia..|by right]]. intros e Ee. destruct (He e Ee) as (? & ? & _). done.
Qed.

(** A query is put back among the others. *)
Lemma put_back S' H' qs i st st' C L M w : stat_ok (q_stat st') -> resting C conf S' H' (Some N) thint L M st' w ->
  (forall st' s' h', piece conf (Some N) thint st' s' h' -> s' ##ₘ S' -> h' ##ₘ H' -> all_hold (<[i := st']> qs) (s' ∪ S') (h' ∪ H')) ->
  qs !! i = Some st -> all_hold (<[i := st']> qs) (socks w) (heap w).
Proof. intros Hok Hr Hk Hi. destruct (rests_piece conf (Some N) thint st' S' H' C L M w Hok Hr) as (s & h & Hp & HS & HH & -> & ->). by apply Hk. Qed.

Lemma iruns_exec_at ns l qs i st w : all_hold qs (socks w) (heap w) -> ready (w_cache w) -> qs !! i = Some st -> ns_pairs ns l ->
  iruns (p_exec_query now global pol K rf conf true (Some name) thint ns st) w (fun x w' =>
    all_hold (<[i := x.2]> qs) (socks w') (heap w') /\ ready (w_cache w') /\ exec_out x.1 x.2 /\ ticks w <= ticks w' /\ (q_qm x.2 = q_qm st \/ q_qm x.2 = UDP_ONLY) /\
    stat_ok (q_stat x.2)).
Proof.
  intros Hall Hr Hi Hns. destruct (together_focus conf (Some N) thint G F qs _ _ i st Hall Hi) as (s & h & S' & H' & Hp & HS & HH & ES & EH & Hk).
  destruct (piece_rests conf (Some N) thint st s h S' H' w Hp HS HH ES EH) as [M Hrest]. pose proof Hp as [Hok _].
  destruct (iruns_p_exec_query now global pol (w_cache w) K rf conf HK Hconf Hrf S' H' true (Some name) (Some N) thint ltac:(apply HN) HN ltac:(intros _; by eexists) Hth Hpol Hr ns l Hns (past w) M st w Hrest Hok)
    as (x & w' & E & Hx). exists x, w'. split; [done|].
  destruct (executed_out _ _ _ _ _ _ _ _ _ _ Hr Hns Hok Hx) as [Hout Hr'].
  destruct (executed_rests now global pol (w_cache w) K conf S' H' true (Some name) (Some N) thint ltac:(apply HN) HN ltac:(intros _; by eexists) Hth Hpol Hr ns l Hns (past w) M st x w' Hok Hx) as (_ & Hok' & M' & L' & Hrest').
  destruct (leads_p_exec_query now global pol K rf conf (fun m => m = q_qm st \/ m = UDP_ONLY) (or_intror eq_refl) true (Some name) thint ns st (or_introl eq_refl) _ _ _ E) as [Ht Hqm].
  splits; try done. by eapply put_back.
Qed.

Lemma iruns_timeout_at ns l qs i st w : all_hold qs (socks w) (heap w) -> ready (w_cache w) -> qs !! i = Some st -> ns_pairs ns l ->
  iruns (timed_out now global pol K rf conf true (Some name) thint ns st) w (fun x w' =>
    all_hold (<[i := x.2]> qs) (socks w') (heap w') /\ ready (w_cache w') /\ ticks w <= ticks w' /\ stat_ok (q_stat x.2) /\
    match x.1 with
    | Some r => exec_out r x.2 /\ tentative_tcp_query st = true /\ q_qm x.2 = UDP_ONLY
    | None => q_qm x.2 = q_qm st /\ q_state x.2 = q_state st
    end).
Proof.
  intros Hall Hr Hi Hns. destruct (together_focus conf (Some N) thint G F qs _ _ i st Hall Hi) as (s & h & S' & H' & Hp & HS & HH & ES & EH & Hk).
  destruct (piece_rests conf (Some N) thint st s h S' H' w Hp HS HH ES EH) as [M Hrest]. pose proof Hp as [Hok _].
  destruct (iruns_timed_out now global pol (w_cache w) K rf conf HK Hconf Hrf S' H' true (Some name) (Some N) thint ltac:(apply HN) HN ltac:(intros _; by eexists) Hth Hpol Hr ns l Hns (past w) M st w Hrest Hok)
    as (x & w' & E & Hx). exists x, w'. split; [done|].
  destruct (leads_timed_out now global pol K rf conf true (Some name) thint ns st _ _ _ E) as [Ht Hqm]. destruct x as [[r|] st']; cbn [fst snd] in *.
  - destruct (executed_out _ _ _ _ _ _ _ _ _ _ Hr Hns Hok Hx) as [Hout Hr'].
    destruct (executed_rests now global pol (w_cache w) K conf S' H' true (Some name) (Some N) thint ltac:(apply HN) HN ltac:(intros _; by eexists) Hth Hpol Hr ns l Hns (past w) M st (r, st') w' Hok Hx) as (_ & Hok' & M' & L' & Hrest').
    splits; try done; [by eapply put_back|apply Hqm..].
  - destruct Hx as (Hx & Es & _). pose proof Hx as Hx'. apply resting_now in Hx' as [Hm _]. rewrite <- Es in Hok.
    splits; try done; [by eapply put_back|eapply ready_mem; [apply Hm|done]|apply Hqm..].
Qed.

Lemma iruns_cancel_at qs i st w : all_hold qs (socks w) (heap w) -> ready (w_cache w) -> qs !! i = Some st ->
  iruns (p_cancel_query st) w (fun st' w' => all_hold (<[i := st']> qs) (socks w') (heap w') /\ ready (w_cache w') /\ ticks w <= ticks w' /\ idle st' /\ q_stat st' = q_stat st).
Proof.
  intros Hall Hr Hi. destruct (together_focus conf (Some N) thint G F qs _ _ i st Hall Hi) as (s & h & S' & H' & Hp & HS & HH & ES & EH & Hk).
  destruct (piece_rests conf (Some N) thint st s h S' H' w Hp HS HH ES EH) as [M Hrest]. pose proof Hp as [Hok _].
  destruct (iruns_p_cancel_query (w_cache w) conf S' H' (Some N) thint (past w) M st w Hrest) as (st' & w' & E & (L1 & Hw') & Es & Hst' & _).
  exists st', w'. split; [done|]. destruct (leads_p_cancel_query _ _ _ _ E) as [Ht _]. rewrite <- Es in Hok.
  assert (Hidle : idle st') by (unfold idle; rewrite Hst', !elem_of_cons; repeat case_bool_decide; auto).
  splits; try done; [|eapply ready_mem; [apply Hw'|done]].
  destruct (rest_idle conf thint (Some N) S' H' (w_cache w) (L1 ++ past w) st' w') as (M' & L' & Hr'); [|done|by eapply put_back].
  unfold idle in Hidle. rewrite !elem_of_cons, elem_of_nil in Hidle. tauto.
Qed.
End One.
