(* ===== verification/ResolveSpec.v ===== *)
(** What the resolver reads from the cache, and the choice of servers for a name. *)
From S2P Require Import Prelude Names DnsName Compress RrTypes HashTab RrList Cent CentSpec Cache CacheInv CachePurge CacheAdd CacheOps CacheThms.
From S2P Require Import Answer AnswerRr AnswerSet Query QueryDecode QuerySafe Reply ReplyData ReplySpec Exec ExecStages ExecSpec.
From S2P Require Import Net QuerySm QueryExec Resolve.

(** ** Computations that leave the cache in order *)

Section Orderly.
Context {P : Platform}.

Definition orderly {A} (Q : A -> Prop) (m : M A) : Prop := forall c, ready c -> runs m c (fun a c' => ready c' /\ Q a).

Lemma orderly_ret {A} (Q : A -> Prop) a : Q a -> orderly Q (mret a).
Proof. intros H c Hc. by apply runs_ret. Qed.
Lemma orderly_bind {A B} (R : A -> Prop) (Q : B -> Prop) (m : M A) (k : A -> M B) :
  orderly R m -> (forall a, R a -> orderly Q (k a)) -> orderly Q (mbind k m).
Proof. intros Hm Hk c Hc. apply runs_bind. eapply runs_weaken; [by apply Hm|]. cbn beta. intros a c' [Hc' Ha]. by apply Hk. Qed.
Lemma orderly_lift {A B} (o : option A) a (Q : B -> Prop) (k : A -> M B) : o = Some a -> orderly Q (k a) -> orderly Q (mbind k (liftM o)).
Proof. intros -> Hk c Hc. apply runs_bind. eapply runs_lift; [done|]. by apply Hk. Qed.
Lemma orderly_malloc : orderly (fun _ => True) malloc.
Proof. intros c Hc. eapply runs_weaken; [apply runs_malloc_any|]. cbn beta. intros b c' [Hm _]. split; [by eapply ready_mem|done]. Qed.
Lemma orderly_weaken {A} (Q Q' : A -> Prop) m : orderly Q m -> (forall a, Q a -> Q' a) -> orderly Q' m.
Proof. intros Hm HQ c Hc. eapply runs_weaken; [by apply Hm|]. cbn beta. intros a c' [? ?]. auto. Qed.

Lemma orderly_free c : good_cent c -> orderly (fun _ => True) (free_cent c).
Proof. intros ([Hs _] & Hl & _) c0 Hc. eapply runs_weaken; [by apply runs_free_copy|]. cbn beta. by intros _ c' ->. Qed.

End Orderly.

(** The records of an entry have the sizes of their types. *)
Lemma wire_addr rr : (exists ps, wire T_A ps /\ rr = flat ps) -> rd_bytes rr 0 4 = Some rr /\ length rr = 4 /\ bytes rr.
Proof.
  intros (ps & [Hlay Hok] & ->). cbn in Hlay. destruct Hlay as (l & Hl & ->). apply Forall_cons in Hok as [Hb _]. unfold flat. cbn. rewrite app_nil_r.
  splits; [|exact Hl|exact Hb]. unfold rd_bytes. rewrite decide_True by lia. by rewrite drop_0, take_ge by lia.
Qed.

Lemma wire_ns rr : (exists ps, wire T_NS ps /\ rr = flat ps) -> exists N, wire_name rr N.
Proof.
  intros (ps & [Hlay Hok] & ->). cbn in Hlay. destruct Hlay as (N & ->). apply Forall_cons in Hok as [HN _]. exists N. split; [exact HN|].
  by exists [].
Qed.

Definition is_addr (a : list Z) : Prop := length a = 4 /\ bytes a.

Lemma in_addrs_wire rrs : Forall (fun rr => exists ps, wire T_A ps /\ rr = flat ps) rrs -> exists l, in_addrs rrs = Some l /\ Forall is_addr l.
Proof.
  induction 1 as [|rr rrs Hrr _ (l & El & Hl)]; cbn [in_addrs]; [by exists []|]. destruct (wire_addr rr Hrr) as (-> & Hlen & Hb). sbind. rewrite El. sbind.
  exists (rr :: l). split; [done|]. by constructor.
Qed.

Lemma first_addrs_wire rs : (forall x, rs = Some x -> Forall (fun rr => exists ps, wire T_A ps /\ rr = flat ps) (rs_rrs x)) ->
  exists l, first_addrs rs = Some l /\ Forall is_addr l.
Proof. intros H. unfold first_addrs. destruct rs as [rs|]; [|by exists []]. apply in_addrs_wire, Forall_take. by apply H. Qed.

(** The set of addresses, and of name servers, of an entry. *)
Lemma get_set `{Platform} c i tp : good_cent c -> i < NRRMU -> type_index tp = Some i ->
  exists rs, get_rrsmu c i = Some rs /\ forall x, rs = Some x -> Forall (fun rr => exists ps, wire tp ps /\ rr = flat ps) (rs_rrs x).
Proof.
  intros ([Hs _] & _ & Hw) Hi Ht. rewrite (get_rrsmu_getrrset c i tp Hs Hi Ht). destruct (getrrset_total c tp Hs) as [rs E]. exists rs. split; [done|].
  intros x ->. by apply Hw.
Qed.

Section Status.
Context {P : Platform} (now : Z).

Lemma orderly_lookup name N wild : wire_name name N -> orderly (fun res => forall e, res.1 = Some e -> good_cent e) (lookup_cache now name wild).
Proof.
  intros (HN & r & ->) c Hc. eapply runs_weaken; [by apply (runs_lookup_ready now c N r wild)|]. cbn beta zeta. intros res c' (? & _ & ? & _). auto.
Qed.

Lemma orderly_local name N tp : wire_name name N -> orderly (fun res => forall rs, res = Some rs -> rs_lent rs = None /\
    Forall (fun rr => exists ps, wire tp ps /\ rr = flat ps) (rs_rrs rs)) (lookup_cache_local_rrset name tp).
Proof.
  intros (HN & r & ->) c Hc. pose proof Hc as [[Hi Hw] _]. pose proof Hi as (_ & [m Hm] & _). unfold lookup_cache_local_rrset.
  apply runs_bind. eapply runs_weaken; [by apply (runs_hash_lookup c m N r)|]. cbn beta. intros [ce loc] c1 (-> & Hce & _). cbn [fst] in Hce. subst ce.
  destruct (m !! fold_key (enc_name N)) as [id|] eqn:HK; [|by apply runs_ret]. destruct (hash_entry c m _ id Hm HK) as (e & He & Hk).
  apply runs_bind. eapply runs_deref; [exact He|]. pose proof (proj1 (inv_cent c id e Hi He)) as Hs. destruct (getrrset_total e tp Hs) as [o Eo].
  run_lift; [exact Eo|]. destruct o as [rs|]; [|by apply runs_ret]. destruct (tst (rs_flags rs) CF_LOCAL); [|by apply runs_ret].
  eapply runs_weaken; [apply runs_copy_rrset|]. cbn beta. intros res c' (Hmo & _ & Hcp). split; [by eapply ready_mem|]. intros x Hx. rewrite (Hcp x Hx). split; [done|].
  assert (Hx2 : getrrset (strip e) tp = Some (Some (rs_set_lent None rs))).
  { rewrite getrrset_slot in Eo by done. rewrite getrrset_slot by (by apply strip_ok, (inv_cent c id)). injection Eo as Eo. f_equal.
    destruct (type_index tp) as [j|]; [|done]. cbn [mbind option_bind] in *. destruct (j <? NRRTOT); [|done]. by rewrite slot_strip, Eo. }
  apply (Hw (fold_key (qname e)) (strip e)) in Hx2; [done|]. apply abs_spec; [done|]. by exists id, e.
Qed.

Lemma orderly_del_rrset rs : rs_lent rs = None -> orderly (fun _ => True) (del_rrset rs).
Proof. intros Hl c Hc. eapply runs_weaken; [apply runs_del_rrset; by rewrite Hl|]. cbn beta. intros n c' [_ ->]. rewrite Hl. split; [|done]. cbn. by destruct c. Qed.
End Status.

(** ** The decision whether to ask *)

Section Decision.
Context {P : Platform}.

Lemma set_flags_ttl_total c f t tp : shape c -> exists r, set_flags_ttl f t c tp = Some r.
Proof. intros Hs. unfold set_flags_ttl. destruct (getrrset_total c tp Hs) as [o ->]. by eexists. Qed.

Lemma set_all_total c f t : shape c -> is_neg c = false -> exists r, set_all_flags_ttl f t c = Some r.
Proof.
  intros Hs Hn. unfold set_all_flags_ttl. rewrite rrarr_len_sets by done. sbind. assert (Hi : Forall (fun i => i < length (sets c)) (seq 0 (length (sets c)))).
  { apply Forall_forall. intros i Hi. apply list_elem_of_In, in_seq in Hi. lia. }
  generalize (f, t). induction Hi as [|i l Hi _ IH]; intros x; cbn [fold_opt]; [by eexists|]. rewrite rrarr_index_sets by done.
  destruct (lookup_lt_is_Some_2 _ _ Hi) as [o ->]. sbind. apply IH.
Qed.

Lemma answer_flags_total c thint queryts : shape c -> is_neg c = false -> exists r, answer_flags c thint queryts = Some r.
Proof.
  intros Hs Hn. unfold answer_flags. destruct (thint =? QT_ALL)%Z; [destruct (set_all_total c 0 0 Hs Hn) as [[? ?] ->]; by eexists|].
  destruct (set_flags_ttl_total c 0 0 T_CNAME Hs) as [[have [f t]] E]. rewrite E. sbind.
  rewrite (get_rrsmu_getrrset c RRMUINDEX_CNAME T_CNAME Hs) by (reflexivity || (vm_compute; lia)). destruct (getrrset_total c T_CNAME Hs) as [cn ->]. sbind.
  destruct (negb have || _); [|by eexists]. destruct (_ && _).
  - unfold set_flags_ttl. destruct (getrrset_total c thint Hs) as [[rs|] ->]; sbind; [|by eexists]. destruct (add_flags_ttl 0 0 rs). by eexists.
  - repeat case_match; repeat (match goal with |- context [set_flags_ttl ?f ?t c ?tp] => destruct (set_flags_ttl_total c f t tp Hs) as [[? [? ?]] ->]; sbind end); by eexists.
Qed.

Lemma requery_total c thint queryts : cent_ok c -> exists r, requery c thint queryts = Some r.
Proof.
  intros [Hs _]. unfold requery. pose proof Hs as [-> _]. destruct (is_neg c) eqn:En.
  - unfold is_neg in En. destruct (body c); [by eexists|done].
  - destruct (answer_flags_total c thint queryts Hs En) as [[[f t] neg] ->]. by eexists.
Qed.

(** The set of an entry that answers a query for one type: an alias, unless it is known that
    there is none, or the set of the type. *)
Definition answering (c : dns_cent) (thint : Z) : option rr_set :=
  match getrrset c T_CNAME with
  | Some (Some rs) => if tst (rs_flags rs) CF_NEGATIVE then default None (getrrset c thint) else Some rs
  | _ => default None (getrrset c thint)
  end.

(** A set that may still be used. *)
Definition usable (queryts : Z) (rs : rr_set) : bool := tst (rs_flags rs) CF_LOCAL || (queryts <=? rs_ts rs + clat_adj (rs_ttl rs))%Z.

Lemma lor_0_l f : Z.lor 0 f = f.
Proof. done. Qed.

Lemma requery_one c thint queryts : shape c -> is_neg c = false -> (T_MIN <= thint <= T_MAX)%Z -> (0 < queryts)%Z ->
  requery c thint queryts = Some (match answering c thint with Some rs => rs_flags rs | None => 0%Z end,
    match answering c thint with Some rs => negb (usable queryts rs) | None => true end).
Proof.
  intros Hs Hn Ht Hq. unfold requery. pose proof Hs as [-> _]. rewrite Hn. unfold answer_flags, set_flags_ttl, answering, QT_ALL, QT_MIN, QT_MAX in *. unfold T_MIN, T_MAX in Ht.
  bool_false (thint =? 255)%Z. rewrite (get_rrsmu_getrrset c RRMUINDEX_CNAME T_CNAME Hs) by (reflexivity || (vm_compute; lia)).
  bool_false (251 <=? thint)%Z. cbn [andb orb]. unfold T_MIN, T_MAX. bool_true (1 <=? thint)%Z. bool_true (thint <=? 51)%Z. cbn [andb].
  assert (Hone : forall rs neg, (neg = true -> (queryts <= rs_ts rs + clat_adj (rs_ttl rs))%Z) ->
    negb (tst (rs_flags rs) CF_LOCAL) && (rs_ts rs + clat_adj (rs_ttl rs) <? queryts)%Z && negb neg = negb (usable queryts rs)).
  { intros rs neg Hneg. unfold usable. destruct (tst (rs_flags rs) CF_LOCAL); [done|]. cbn [negb andb orb]. rewrite Z.ltb_antisym.
    destruct (queryts <=? _)%Z eqn:E; cbn [negb andb]; [done|]. destruct neg; [|done]. boolp. specialize (Hneg eq_refl). lia. }
  destruct (getrrset_total c T_CNAME Hs) as [cn Ecn]. destruct (getrrset_total c thint Hs) as [o Eo]. rewrite Ecn, !Eo. sbind. cbn [default].
  assert (Hno : ('(f, t, neg) ← ('(have, (f, t)) ← Some (match o with Some rs => (true, add_flags_ttl 0 0 rs) | None => (false, (0, 0)%Z) end);
      if (have : bool) then rs ← o; Some (f, t, tst (rs_flags rs) CF_NEGATIVE && (queryts <=? t)%Z) else Some (f, t, false));
      Some (f, negb (tst f CF_LOCAL) && (t <? queryts)%Z && negb neg)) =
      Some (match o with Some rs => rs_flags rs | None => 0%Z end, match o with Some rs => negb (usable queryts rs) | None => true end)).
  { destruct o as [rs|]; unfold add_flags_ttl; sbind; cbn [Z.eqb orb].
    - rewrite lor_0_l, Hone; [done|]. intros E%andb_true_iff. destruct E as [_ E]. by boolp.
    - change (tst 0 CF_LOCAL) with false. bool_true (0 <? queryts)%Z. done. }
  destruct cn as [rs|]; cbn [negb orb].
  - unfold add_flags_ttl at 1. destruct (tst (rs_flags rs) CF_NEGATIVE); [exact Hno|].
    sbind. cbn [Z.eqb orb]. rewrite lor_0_l, Hone; [done|discriminate].
  - exact Hno.
Qed.

(** A local name that is negated. *)
Lemma orderly_local_soa c v : good_cent c -> orderly (fun r => is_Some v <-> is_Some r) (local_soa c v).
Proof.
  intros Hg. unfold local_soa. destruct v as [v|]; [|by apply orderly_ret]. assert (Hs : forall x : Z, is_Some (Some v) <-> is_Some (Some x)) by (intros; split; intros _; by eexists).
  destruct (negb _); [by apply orderly_ret|]. pose proof Hg as ((Hsh & Hnm) & _ & _).
  pose proof (has_type_spec c T_SOA Hsh) as Hht. unfold has_type in Hht. cbn in Hht. eapply orderly_lift; [exact Hht|].
  destruct (cent_name c ltac:(apply Hg)) as (N & HN & Hq).
  destruct (has_records c T_SOA); [eapply orderly_lift; [rewrite Hq, <- (app_nil_r (enc_name N)); apply rhnsegcnt_enc; by apply wf_name_forall|by apply orderly_ret]|].
  eapply (orderly_bind (fun o => forall nm, o = Some nm -> exists N, wf_name N /\ nm = enc_name N)).
  - intros cc Hcc. rewrite Hq, <- (app_nil_r (enc_name N)). eapply runs_weaken; [apply runs_getlocalowner; [apply Hcc|done|reflexivity]|].
    cbn beta. intros o c' [-> Ho]. split; [done|]. intros nm E. destruct (Ho nm E) as (N' & HN' & ->). exists N'. by rewrite app_nil_r.
  - intros [nm|] Ho; [|by apply orderly_ret]. destruct (Ho nm eq_refl) as (N' & HN' & ->).
    eapply orderly_lift; [rewrite <- (app_nil_r (enc_name N')); apply rhnsegcnt_enc; by apply wf_name_forall|by apply orderly_ret].
Qed.
End Decision.

Section StatusOf.
Context {P : Platform} (now : Z).

(** What [lookup_cache_status] returns. *)
Definition status_ok (st : cache_status) : Prop :=
  ((cs_rc st = RC_NOTCACHED \/ cs_rc st = RC_NAMEERR) /\ cs_cached st = None) \/
  ((cs_rc st = RC_OK \/ cs_rc st = RC_CACHED \/ cs_rc st = RC_STALE) /\ exists e, cs_cached st = Some e /\ good_cent e).

Lemma orderly_status name N thint queryts c_soa : wire_name name N ->
  orderly status_ok (lookup_cache_status now name thint queryts c_soa).
Proof.
  intros HN. unfold lookup_cache_status. eapply orderly_bind; [by eapply orderly_lookup|]. intros [[e|] wild] He; cbn [fst] in He; [|apply orderly_ret; left; auto].
  specialize (He e eq_refl). destruct (tst (flags e) DF_LOCAL).
  - destruct (_ || _).
    + eapply orderly_bind; [by apply orderly_local_soa|]. intros v _. eapply orderly_bind; [by apply orderly_free|]. intros _ _. apply orderly_ret. left. auto.
    + apply orderly_ret. right. split; [by left|]. by exists e.
  - destruct (requery_total e thint queryts) as [[f stale] E]; [apply He|]. eapply orderly_lift; [exact E|]. apply orderly_ret. right.
    split; [destruct stale; auto|by exists e].
Qed.

(** *** Name servers of top level domains *)

Lemma orderly_grow {A} (l : list A) : orderly (fun _ => True) (da_grow1 l).
Proof. unfold da_grow1. destruct (_ =? 0); [apply orderly_malloc|by apply orderly_ret]. Qed.

Lemma orderly_grow_addrs (Q : list Z -> Prop) serva n : Forall Q serva -> forall res, Forall Q res -> orderly (fun r => forall l, r = Some l -> Forall Q l) (grow_addrs serva n res).
Proof.
  induction 1 as [|a serva Ha _ IH]; intros res Hres; cbn [grow_addrs]; [apply orderly_ret; by intros l [= <-]|].
  destruct (bool_decide _); [by apply IH|]. eapply orderly_bind; [apply orderly_grow|]. intros [] _; [|by apply orderly_ret].
  apply IH. apply Forall_app. split; [done|by constructor].
Qed.

Lemma orderly_ns_addrs nsname N : wire_name nsname N -> orderly (Forall is_addr) (ns_addrs now nsname).
Proof.
  intros HN. unfold ns_addrs. eapply orderly_bind; [by eapply orderly_lookup|]. intros [[e|] wild] He; cbn [fst] in He; [|by apply orderly_ret].
  specialize (He e eq_refl). destruct (get_set e RRMUINDEX_A T_A He) as (rs & E & Hrs); [vm_compute; lia|done|]. eapply orderly_lift; [exact E|].
  destruct (first_addrs_wire (match rs with Some rs => if timedout now rs then None else Some rs | None => None end)) as (l & El & Hl).
  { intros x Hx. apply Hrs. destruct rs as [rs|]; [|done]. by destruct (timedout now rs). }
  eapply orderly_lift; [exact El|]. eapply orderly_bind; [by apply orderly_free|]. intros _ _. by apply orderly_ret.
Qed.

Lemma orderly_ns_loop rrs : Forall (fun rr => exists N, wire_name rr N) rrs -> forall res, Forall is_addr res -> orderly (Forall is_addr) (ns_loop now rrs res).
Proof.
  induction 1 as [|rr rrs [N HN] _ IH]; intros res Hres; cbn [ns_loop]; [by apply orderly_ret|]. eapply orderly_bind; [by eapply orderly_ns_addrs|].
  intros serva Hs. destruct serva as [|a serva]; [by apply orderly_ret|]. eapply orderly_bind; [by apply orderly_grow_addrs|].
  intros [r|] Hr; [by apply IH, Hr|by apply orderly_ret].
Qed.

Lemma orderly_lookup_ns domain D : wire_name domain D -> orderly (Forall is_addr) (lookup_ns now domain).
Proof.
  intros HD. unfold lookup_ns. eapply orderly_bind; [by eapply orderly_lookup|]. intros [[e|] wild] He; cbn [fst] in He; [|by apply orderly_ret].
  specialize (He e eq_refl). destruct (get_set e RRMUINDEX_NS T_NS He) as (rs & E & Hrs); [vm_compute; lia|done|]. eapply orderly_lift; [exact E|].
  apply (orderly_bind (Forall is_addr)).
  - destruct rs as [rs|]; [|by apply orderly_ret]. destruct (_ && _); [|by apply orderly_ret]. apply orderly_ns_loop; [|constructor].
    eapply Forall_impl; [by apply Hrs|]. intros rr. apply wire_ns.
  - intros res Hres. eapply orderly_bind; [by apply orderly_free|]. intros _ _. by apply orderly_ret.
Qed.

(** *** Arrays of servers *)

(** A query that has not been started. *)
Definition new_q (st : query) : Prop := q_state st = QS_INITIAL /\ stat_ok (q_stat st).

Lemma orderly_add_qserv q st : Forall new_q q -> new_q st ->
  orderly (fun r => forall l, r = Some l -> l = q ++ [st] /\ Forall new_q l) (add_qserv q st).
Proof.
  intros Hq Hst. unfold add_qserv. eapply orderly_bind; [apply orderly_grow|]. intros [] _; apply orderly_ret; [|done]. intros l [= <-]. split; [done|].
  apply Forall_app. split; [done|by constructor].
Qed.
End StatusOf.

(** ** Servers of the configuration *)

Definition reject_ok (rl : rejectlist) : Prop :=
  Forall (fun x => 4 <= length x.1 /\ 4 <= length x.2) (rl_a4 rl) /\ Forall (fun x => 16 <= length x.1 /\ 16 <= length x.2) (rl_a6 rl).

Definition server_ok (sp : servparm) : Prop :=
  Forall (fun sl => exists D, wire_name (sl_domain sl) D) (sp_alist sp) /\
  Forall (fun x => 4 <= length x.1 /\ 4 <= length x.2) (default [] (sp_reject_a4 sp)) /\
  Forall (fun x => 16 <= length x.1 /\ 16 <= length x.2) (default [] (sp_reject_a6 sp)).

Lemma orderly_add_rejectlist {P : Platform} sp : server_ok sp -> orderly (fun r => forall rl, r = Some rl -> reject_ok rl) (add_rejectlist sp).
Proof. intros (_ & H4 & H6). unfold add_rejectlist. eapply orderly_bind; [apply orderly_malloc|]. intros [] _; apply orderly_ret; [|done]. by intros rl [= <-]. Qed.

(** *** The access list *)

Lemma access_rule_total name N alist : wire_name name N -> Forall (fun sl => exists D, wire_name (sl_domain sl) D) alist -> exists o, access_rule name alist = Some o.
Proof.
  intros (HN & r & ->). induction 1 as [|sl alist (D & HD & r' & E) _ IH]; cbn [access_rule]; [by eexists|]. rewrite E.
  destruct (domain_match_parts N D r r' HN HD) as (k & os & od & _ & _ & _ & _ & -> & _). sbind. destruct (_ && _); [by eexists|done].
Qed.

Lemma use_server_total sp name N : wire_name name N -> server_ok sp -> exists b, use_server sp name = Some b.
Proof.
  intros HN [Hal _]. unfold use_server. destruct (access_rule_total name N _ HN Hal) as [[b|] ->]; sbind; [by eexists|].
  destruct (_ || _); [|by eexists]. destruct HN as (HN & r & ->). rewrite rhnsegcnt_enc by (by apply wf_name_forall). by eexists.
Qed.

(** What the policy of a server says when no entry of its list applies. *)
Definition by_policy (pol : const) (N : list (list Z)) : bool :=
  match pol with
  | C_SIMPLE_ONLY => (length N <=? 1)
  | C_FQDN_ONLY => negb (length N <=? 1)
  | C_INCLUDED => true
  | _ => false
  end.

Lemma access_rule_spec N r rules : wf_name N -> Forall (fun x => wf_name (ru_dom x)) rules ->
  access_rule (enc_name N ++ r) (slist_of <$> rules) = Some (ru_included <$> List.find (applies N) rules).
Proof.
  intros HN. induction 1 as [|x rules Hd _ IH]; [done|]. cbn [fmap list_fmap access_rule List.find slist_of sl_domain sl_exact sl_included].
  pose proof (domain_match_enc N (ru_dom x) r []) as E. rewrite !app_nil_r in E. pose proof (wf_name_labels _ HN). pose proof (wf_name_labels _ Hd).
  rewrite E by (apply HN || apply Hd || lia). cbv zeta. sbind. rewrite !enc_labels_zero. unfold applies.
  pose proof (common_suffix_le N (ru_dom x)) as Hle. set (m := common_suffix N (ru_dom x)) in *.
  assert ((Nat.min (length (ru_dom x) - m) (length (ru_dom x)) =? 0) = (m =? length (ru_dom x))) as ->.
  { destruct (Nat.eqb_spec m (length (ru_dom x))); [apply Nat.eqb_eq|apply Nat.eqb_neq]; lia. }
  destruct (Nat.eqb_spec m (length (ru_dom x))) as [Em|Em]; cbn [andb]; [|by apply IH].
  assert ((Nat.min (length N - m) (length N) =? 0) = (length N =? length (ru_dom x))) as ->.
  { destruct (Nat.eqb_spec (length N) (length (ru_dom x))); [apply Nat.eqb_eq|apply Nat.eqb_neq]; lia. }
  destruct (negb _ || _); [done|by apply IH].
Qed.

Lemma use_server_spec sp N r rules : wf_name N -> Forall (fun x => wf_name (ru_dom x)) rules -> sp_alist sp = slist_of <$> rules ->
  use_server sp (enc_name N ++ r) = Some (match List.find (applies N) rules with Some x => ru_included x | None => by_policy (sp_policy sp) N end).
Proof.
  intros HN Hr E. unfold use_server. rewrite E, access_rule_spec by done. sbind. destruct (List.find (applies N) rules); [done|]. cbn [fmap option_fmap option_map].
  rewrite rhnsegcnt_enc by (by apply wf_name_forall). destruct (sp_policy sp); try done; cbn; by destruct (length N <=? 1).
Qed.
