(* ===== verification/RecurseSpec.v ===== *)
(** The recursion over name servers: the parts that do not send queries themselves, and the
    interface between the levels of the recursion. *)
From S2P Require Import Prelude Names DnsName Compress RrTypes HashTab RrList Cent CentSpec Cache CacheInv CachePurge CacheAdd CacheOps CacheThms.
From S2P Require Import Answer AnswerRr AnswerSet Query QueryDecode QuerySafe Reply ReplyData ReplySpec Exec ExecStages ExecSpec.
From S2P Require Import Net NetSpec QuerySm SmSpec QueryExec QueryRun QueryLoop QueryStep Forward Parallel Resolve ResolveSpec Recurse.

(** ** Computations that leave sockets and the heap as they are *)

Section Still.
Context {P : Platform}.

Definition still {A} (Q : A -> Prop) (m : IO A) : Prop := forall w, ready (w_cache w) ->
  iruns m w (fun a w' => socks w' = socks w /\ heap w' = heap w /\ ready (w_cache w') /\ ticks w <= ticks w' /\ Q a).

Lemma still_ret {A} (Q : A -> Prop) a : Q a -> still Q (mret a).
Proof. intros H w Hw. apply iruns_ret. auto. Qed.
Lemma still_bind {A B} (R : A -> Prop) (Q : B -> Prop) (m : IO A) (k : A -> IO B) :
  still R m -> (forall a, R a -> still Q (k a)) -> still Q (mbind k m).
Proof.
  intros Hm Hk w Hw. apply iruns_bind. eapply iruns_weaken; [by apply Hm|]. cbn beta. intros a w1 (HS & HH & Hr & Ht & Ha).
  eapply iruns_weaken; [by apply Hk|]. cbn beta. intros b w2 (HS2 & HH2 & Hr2 & Ht2 & Hb). splits; try done; [congruence..|lia].
Qed.
Lemma still_weaken {A} (Q Q' : A -> Prop) (m : IO A) : still Q m -> (forall a, Q a -> Q' a) -> still Q' m.
Proof. intros Hm HQ w Hw. eapply iruns_weaken; [by apply Hm|]. cbn beta. intros a w' (? & ? & ? & ? & ?). splits; auto. Qed.
Lemma still_lift {A B} (o : option A) a (Q : B -> Prop) (k : A -> IO B) : o = Some a -> still Q (k a) -> still Q (mbind k (liftIO o)).
Proof. intros -> Hk w Hw. apply iruns_bind. eapply iruns_lift; [done|]. by apply Hk. Qed.
Lemma still_cache {A} (Q : A -> Prop) (m : M A) : orderly Q m -> still Q (cacheIO m).
Proof. intros Hm w Hw. apply iruns_cache. eapply runs_weaken; [by apply Hm|]. cbn beta. intros a c [Hc Ha]. splits; done. Qed.
Lemma still_tick : still (fun _ => True) tick.
Proof. intros w Hw. exists (ticks w), (set_ticks (S (ticks w)) w). split; [done|]. splits; try done. cbn. lia. Qed.

Lemma iruns_time K w : ready (w_cache w) -> iruns (time K) w (fun _ w' => socks w' = socks w /\ heap w' = heap w /\ ready (w_cache w') /\ ticks w < ticks w').
Proof. intros Hw. exists (k_time K (ticks w)), (set_ticks (S (ticks w)) w). split; [done|]. splits; try done. cbn. lia. Qed.
Lemma still_time K : still (fun _ => True) (time K).
Proof. unfold time. eapply still_bind; [apply still_tick|]. intros t _. by apply still_ret. Qed.
Lemma still_random K : still (fun r => (0 <= r)%Z) (random K).
Proof. unfold random. eapply still_bind; [apply still_tick|]. intros t _. apply still_ret. lia. Qed.
Lemma still_test a up : still (fun _ => True) (sched_server_test a up).
Proof. intros w Hw. by apply iruns_mod. Qed.

Lemma still_free ent : (forall e, ent = Some e -> good_cent e) -> still (fun _ => True) (free_ent ent).
Proof. intros H. unfold free_ent. destruct ent as [e|]; [|by apply still_ret]. apply still_cache, orderly_free. by apply H. Qed.
End Still.

Ltac still_step lem := eapply still_bind; [eapply lem|].

(** ** Answers that are not to be cached *)

Section NoCache.
Context {P : Platform}.

Definition nocache_set (rs : rr_set) : rr_set := rs_set_flags (Z.lor (rs_flags rs) CF_NOCACHE) rs.

(** Sets replaced by others with the same records. *)
Lemma good_sets c c' : good_cent c -> cent_ok c' -> is_neg c = false -> is_neg c' = false ->
  (forall i, exists f : rr_set -> rr_set, slot c' i = f <$> slot c i /\ forall rs, rs_rrs (f rs) = rs_rrs rs /\ rs_lent (f rs) = rs_lent rs) -> good_cent c'.
Proof.
  intros (Hok & Hl & Hw) Hok' Hn Hn' Hs. split; [done|]. rewrite no_lents in *. split.
  - intros [i|]; [|by rewrite pos_lent]. specialize (Hl (Some i)). unfold lent_of in *. destruct (Hs i) as (f & -> & Hf). destruct (slot c i) as [rs|]; [|done]. cbn in *. by destruct (Hf rs) as [_ ->].
  - intros tp rs Hg. rewrite getrrset_slot in Hg by apply Hok'. specialize (Hw tp). rewrite getrrset_slot in Hw by apply Hok. destruct (type_index tp) as [i|]; [|done]. cbn [mbind option_bind] in *.
    destruct (i <? NRRTOT); [|done]. injection Hg as Hg. destruct (Hs i) as (f & E & Hf). rewrite E in Hg. destruct (slot c i) as [rs0|]; [|done]. injection Hg as <-. destruct (Hf rs0) as [-> _]. by apply Hw.
Qed.

Definition nocache_step (e : dns_cent) (i : nat) : option dns_cent :=
  r ← rrarr_index e i; match r with Some rs => rrarr_set e i (Some (nocache_set rs)) | None => Some e end.

Lemma nocache_loop c : is_neg c = false -> forall n i e, i + n = length (sets c) -> cent_ok e -> is_neg e = false -> length (sets e) = length (sets c) -> qname e = qname c ->
  (forall j, slot e j = if (j <? i) then nocache_set <$> slot c j else slot c j) ->
  exists c', fold_opt nocache_step (seq i n) e = Some c' /\ cent_ok c' /\ is_neg c' = false /\ qname c' = qname c /\ forall j, slot c' j = nocache_set <$> slot c j.
Proof.
  intros Hneg. induction n as [|n IH]; intros i e Hn Hok Hne Hlen Hq Hsl; cbn [seq fold_opt].
  - exists e. splits; try done. intros j. rewrite Hsl. destruct (Nat.ltb_spec j i); [done|]. destruct (slot c j) as [rs|] eqn:E; [|done].
    apply slot_lookup, lookup_lt_Some in E. lia.
  - pose proof Hok as [Hsh _]. destruct (lookup_lt_is_Some_2 (sets e) i ltac:(lia)) as [o Eo]. assert (Ei : slot e i = o) by (unfold slot; by rewrite Eo).
    assert (Eii : slot c i = o) by (specialize (Hsl i); rewrite Nat.ltb_irrefl, Ei in Hsl; done).
    assert (Hstep : exists e', nocache_step e i = Some e' /\ cent_ok e' /\ is_neg e' = false /\ length (sets e') = length (sets e) /\ qname e' = qname e /\
      slot e' i = nocache_set <$> o /\ forall j, j <> i -> slot e' j = slot e j).
    { unfold nocache_step. rewrite rrarr_index_sets, Eo by done. sbind. destruct o as [rs|]; [|by exists e].
      destruct (retouch_set e i rs (nocache_set rs) Hok Ei eq_refl eq_refl) as (b & E & Hok' & H1 & H2 & Hn' & _ & Hs' & _). exists (set_body b e). splits; try done. by rewrite Hs', length_insert. }
    destruct Hstep as (e' & -> & Hok' & Hn' & Hl' & Hq' & H1 & H2). sbind. apply IH; try done; [lia|congruence..|]. intros j. destruct (decide (j = i)) as [->|Hji].
    + by rewrite H1, Eii, (proj2 (Nat.ltb_lt _ _)) by lia.
    + rewrite H2, Hsl by done. destruct (Nat.ltb_spec j i), (Nat.ltb_spec j (S i)); try done; lia.
Qed.

(** Each set of the entry is marked, or the negative entry itself. *)
Lemma mark_nocache_spec e : good_cent e -> exists e', mark_nocache e = Some e' /\ good_cent e' /\ qname e' = qname e /\ is_neg e' = is_neg e /\
  (if is_neg e then flags e' = Z.lor (flags e) DF_NOCACHE else forall i, slot e' i = nocache_set <$> slot e i).
Proof.
  intros He. pose proof He as (Hok & Hl & Hw). pose proof Hok as ([Hf Hsh] & Hq & Hcs & Hnum). unfold mark_nocache. rewrite Hf. destruct (is_neg e) eqn:Hn.
  - eexists. split; [done|]. splits; try done. split; [split; [split; [cbn [flags set_flags]; rewrite tst_lor_other by done; by rewrite Hf|exact Hsh]|done]|]. split; [done|].
    intros tp rs Hg. apply (Hw tp). unfold getrrset in *. cbn [flags set_flags] in Hg. rewrite tst_lor_other in Hg by done. exact Hg.
  - rewrite rrarr_len_sets by apply Hok. sbind. destruct (nocache_loop e Hn (length (sets e)) 0 e) as (c' & E & Hok' & Hn' & Hq' & Hs'); try done.
    exists c'. splits; try done. eapply good_sets; try done. intros i. exists nocache_set. by split.
Qed.

Lemma good_refs e x y : good_cent e -> good_cent (set_c_soa x (set_c_ns y e)).
Proof. intros (? & ? & ?). by destruct e. Qed.
End NoCache.

(** ** The resolver *)

(** The names that are being resolved. *)
Definition hints_ok (l : list (list Z * Z)) : Prop := Forall (fun x => exists N, wire_name x.1 N) l.

(** An entry comes with one of the three codes. *)
Definition resolved_ok `{Platform} (x : resolved) : Prop := forall e, has_entry x.1.1 = true -> x.1.2 = e -> exists c, e = Some c /\ good_cent c.

(** What each level of the recursion relies on in the one below. *)
Class ResolverOk `{Platform} (res : resolver) : Prop :=
  resolver_still : forall q name N thint qslist qhlist queryts c_soa, wire_name name N -> thint_ok thint ->
    (forall l, q = Some l -> Forall new_q l) -> hints_ok qhlist -> still resolved_ok (res q name thint qslist qhlist queryts c_soa).

(** The zones of a list of name servers are names. *)
Lemma ns_pairs_wf ns l : ns_pairs ns l -> Forall (fun x => wf_name x.1) l.
Proof.
  induction 1 as [|ns l A B _ IH HA _|ns l A B C _ IH _]; [done|..]; rewrite !Forall_app, !Forall_singleton in *; cbn in *; tauto.
Qed.

Section Spec.
Context {P : Platform} (global : globals) (pol : policies) (K : kernel) (rf : bool) (conf : net_conf) (rc : resolve_conf).
Context (is_local_addr : nat -> list Z -> bool).

(** The resolver for [hops-1], if there is one. *)
Context (lower : option resolver) (Hlow : forall res, lower = Some res -> ResolverOk res).

Lemma still_r_resolve res name N thint qhlist queryts c_soa : ResolverOk res -> wire_name name N -> thint_ok thint -> hints_ok qhlist ->
  still (fun x : resolved => (x.1.1 = RC_OK -> exists e, x.1.2 = Some e /\ good_cent e) /\ (forall e, x.1.2 = Some e -> tst (flags e) DF_NEGATIVE = false))
    (r_resolve res name thint qhlist queryts c_soa).
Proof.
  intros HR HN Hth Hh. unfold r_resolve. eapply still_bind; [by eapply HR|]. intros [[rv ent] v] Hx. cbn [fst snd] in *.
  destruct (has_entry rv) eqn:E; [|apply still_ret; cbn [fst snd]; split; [|done]; intros ->; discriminate E]. destruct (Hx ent E eq_refl) as (c & -> & Hc). eapply still_lift; [done|].
  destruct (tst (flags c) DF_NEGATIVE) eqn:En; cbv zeta.
  - eapply still_bind; [by apply still_cache, orderly_free|]. intros _ _. by apply still_ret.
  - apply still_ret. cbn [fst snd]. split; [intros _; by exists c|]. by intros e [= <-].
Qed.

(** *** [auth_ok] *)

Section Name.
Context (q : list query) (name : list Z) (N : list (list Z)) (thint : Z) (qslist : list (list query)) (qhlist : list (list Z * Z)) (qse : query).
Context (HN : wire_name name N) (Hhints : hints_ok qhlist) (Hqse : stat_ok (q_stat qse)).

Lemma aa_needed_total ent : shape ent -> exists b, aa_needed thint ent = Some b.
Proof.
  intros Hs. unfold aa_needed. destruct (_ && _); [by eexists|]. destruct ((T_MIN <=? thint)%Z && (thint <=? T_MAX)%Z) eqn:E; [|by eexists].
  pose proof (has_type_spec ent thint Hs) as H1. unfold has_type in H1. replace (is_type thint) with true in H1 by exact (eq_sym E). rewrite H1. sbind. destruct (true && has_records ent thint); [by eexists|].
  pose proof (has_type_spec ent T_CNAME Hs) as H2. unfold has_type in H2. cbn in H2. rewrite H2. by eexists.
Qed.

(** The items of the list of name servers that stands for the zones and servers [l]. *)
Inductive ns_it (l : list (list (list Z) * list (list Z))) : list Z -> Prop :=
  | it_full A B : wf_name A -> wf_name B -> (A, B) ∈ l -> ns_it l (enc_name A ++ enc_name B)
  | it_again C : wf_name C -> ns_it l (idem :: enc_name C).

Lemma ns_it_more l l' x : ns_it l x -> ns_it (l ++ l') x.
Proof. intros [A B HA HB Hin|C HC]; [|by constructor]. constructor; [done..|]. apply elem_of_app. by left. Qed.

Lemma ns_items ns l : ns_pairs ns l -> Forall (ns_it l) ns /\ forall x ns', ns = x :: ns' -> exists A B, wf_name A /\ x = enc_name A ++ enc_name B.
Proof.
  assert (Hmore : forall (l l' : list (list (list Z) * list (list Z))) ns, Forall (ns_it l) ns -> Forall (ns_it (l ++ l')) ns).
  { intros l0 l' ns0 Hf. eapply Forall_impl; [exact Hf|]. intros x. apply ns_it_more. }
  induction 1 as [|ns l A B H [IH1 IH2] HA HB|ns l A B C H [IH1 IH2] HC]; [by split|..].
  - split; [apply Forall_app; split; [by apply Hmore|]; apply Forall_singleton; apply it_full; [done..|]; apply elem_of_app; right; by left|].
    intros x ns' E. destruct ns as [|y ns]; cbn in E; injection E as <- <-; [|by eapply IH2]. by exists A, B.
  - split; [apply Forall_app; split; [by apply Hmore|]; apply Forall_singleton; by apply it_again|]. intros x ns' E. destruct ns as [|y ns]; cbn in E; injection E as <- <-; [|by eapply IH2].
    inversion H; [by destruct l|by destruct ns|by destruct ns].
Qed.

Lemma full_head A B : wf_name A -> exists b, rd (enc_name A ++ enc_name B) 0 = Some b /\ (b =? idem)%Z = false.
Proof.
  intros [HA _]. destruct A as [|a A]; [by exists 0%Z|]. eexists. split; [done|]. apply Forall_cons in HA as [[Ha _] _]. apply Z.eqb_neq. unfold idem. lia.
Qed.

(** *** Whether a server is believed to be authoritative *)

(** [domain_match] tells which of two names is below the other. *)
Lemma domain_below a b D M : wire_name a D -> wire_name b M -> exists k os od, domain_match a b = Some (k, os, od) /\ (os = 0 <-> below D M) /\ (od = 0 <-> below M D).
Proof.
  assert (Hsnoc : forall a1 a2 b1 b2 Q : list (list Z), name_eqi (b1 ++ b2) (Q ++ a1 ++ a2) -> length a2 = length b2 ->
    (forall x y a1' b1', a1 = a1' ++ [x] -> b1 = b1' ++ [y] -> map tolower x <> map tolower y) -> length (enc_labels a1) = 0).
  { intros a1 a2 b1 b2 Q E Hlen Hmax. destruct a1 as [|x a1' _] using rev_ind; [done|]. exfalso. unfold name_eqi, lower_name in E. rewrite app_assoc, !(map_app _ _ a2), (map_app _ b1) in E.
    apply app_inj_2 in E as [E _]; [|by rewrite !length_map]. destruct b1 as [|y b1' _] using rev_ind.
    - apply (f_equal length) in E. repeat (rewrite length_map in E || rewrite length_app in E || cbn [length] in E). lia.
    - rewrite app_assoc, !map_app in E. cbn in E. apply app_inj_tail in E as [_ E]. by apply (Hmax x y a1' b1'). }
  intros [HD [r ->]] [HM [r' ->]]. destruct (domain_match_parts D M r r' HD HM) as (k & os & od & a1 & a2 & b1 & b2 & E & -> & -> & H1 & H2 & Heq & -> & -> & Hmax).
  exists k, (length (enc_labels a1)), (length (enc_labels b1)). split; [done|].
  assert (Hz : forall ls : list (list Z), length (enc_labels ls) = 0 -> ls = []) by (intros [|l ls]; [done|]; unfold enc_labels, enc_label; cbn; lia).
  split; split; [intros ->%Hz|intros [Q HQ]; apply (Hsnoc a1 a2 b1 b2 Q); [done|congruence|done]|intros ->%Hz|intros [Q HQ]; apply (Hsnoc b1 b2 a1 a2 Q); [done|congruence|]].
  - exists b1. cbn [app]. unfold name_eqi, lower_name in *. rewrite !map_app. by f_equal.
  - exists a1. cbn [app]. unfold name_eqi, lower_name in *. rewrite !map_app. by f_equal.
  - intros x y b1' a1' Eb Ea Exy. by apply (Hmax y x a1' b1').
Qed.

(** A zone between the domain of the server that was asked and the name: the server should have
    referred to the servers of the zone. *)
Definition between (D A : list (list Z)) : Prop := below D A /\ ~ below A D /\ below A N.

Lemma delegates_app asked it items : delegates asked name (items ++ [it]) = (b ← delegates asked name items; if (b : bool) then delegates asked name [it] else Some false).
Proof.
  induction items as [|x items IH]; cbn [app]; [done|]. cbn [delegates]. destruct (rd x 0) as [b|]; [|done]. sbind. destruct (b =? idem)%Z; [exact IH|].
  destruct (domain_match x asked) as [[[k1 rem] crem]|]; [|done]. sbind. destruct (negb _); [done|]. destruct (domain_match x name) as [[[k2 rem2] crem2]|]; [|done]. sbind. by destruct (negb _).
Qed.

Lemma delegates_full asked D A B items : wire_name asked D -> wf_name A -> exists b, (b = true <-> between D A) /\
  delegates asked name ((enc_name A ++ enc_name B) :: items) = if b then delegates asked name items else Some false.
Proof.
  intros HD HA. cbn [delegates]. destruct (full_head A B HA) as (b & E1 & E2). rewrite E1. sbind. rewrite E2. assert (Hw : wire_name (enc_name A ++ enc_name B) A) by (split; [done|by eexists]).
  destruct (domain_below _ _ _ _ Hw HD) as (k & os & od & -> & H1 & H2). destruct (domain_below _ _ _ _ Hw HN) as (k2 & os2 & od2 & -> & H3 & _). sbind.
  exists (negb (os =? 0) && (od =? 0) && (os2 =? 0)). split; [|by destruct (negb (os =? 0)), (od =? 0), (os2 =? 0)].
  rewrite !andb_true_iff, negb_true_iff, Nat.eqb_neq, !Nat.eqb_eq, H1, H2, H3. unfold between. tauto.
Qed.

Lemma delegates_spec asked D ns l : wire_name asked D -> ns_pairs ns l -> exists b, delegates asked name ns = Some b /\ (b = true <-> Forall (fun x => between D x.1) l).
Proof.
  intros HD. induction 1 as [|ns l A B H (b & E & Hb) HA HB|ns l A B C H (b & E & Hb) HC].
  - exists true. split; [done|]. by split.
  - destruct (delegates_full asked D A B [] HD HA) as (b2 & Hb2 & E2). exists (b && b2). rewrite delegates_app, E. sbind. split; [destruct b; [|done]; rewrite E2; by destruct b2|].
    rewrite andb_true_iff, Hb, Hb2, Forall_app, Forall_singleton. done.
  - exists b. rewrite delegates_app, E. sbind. split; [by destruct b|]. rewrite Hb, !Forall_app, !Forall_singleton. cbn. tauto.
Qed.

(** The claim of a server to be authoritative is not believed when all the zones it names are
    between its domain and the name. *)
Definition distrusted (st : query_stat) (l : list (list (list Z) * list (list Z))) : Prop :=
  exists d D, qs_nsdomain st = Some d /\ wire_name d D /\ l <> [] /\ Forall (fun x => between D x.1) l.

Lemma trust_aa_spec st ns l : stat_ok st -> ns_pairs ns l -> exists b, trust_aa st name ns = Some b /\ (b = false <-> distrusted st l).
Proof.
  intros [Hst _] Hns. unfold trust_aa, distrusted. destruct (qs_nsdomain st) as [asked|]; [|exists true; split; [done|]; split; [done|]; by intros (? & ? & ? & _)].
  destruct (Hst asked eq_refl) as [D HD]. destruct (ns_items ns l Hns) as [_ Hfirst]. destruct (delegates_spec asked D ns l HD Hns) as (b & Eb & Hb). destruct ns as [|x ns].
  { exists true. split; [done|]. split; [done|]. intros (d & D' & _ & _ & Hne & _). destruct l as [|y l]; [done|]. inversion Hns; by destruct ns. }
  assert (Hne : l <> []) by (intros ->; inversion Hns; by match goal with E : _ ++ [_] = [] |- _ => apply app_nil in E as [_ ?] end).
  exists (negb b). split.
  - destruct (Hfirst x ns eq_refl) as (A & B & HA & ->). set (it := enc_name A ++ enc_name B) in *. cbn [delegates] in Eb. destruct (full_head A B HA) as (c & E1 & E2). fold it in E1. rewrite E1 in Eb. cbn [mbind option_bind] in Eb. rewrite E2 in Eb.
    destruct (domain_match it asked) as [[[k1 rem] crem]|]; [|done]. sbind. cbn [mbind option_bind] in Eb. destruct (negb _); [by injection Eb as <-|].
    destruct (domain_match it name) as [[[k2 rem2] crem2]|]; [|done]. sbind. cbn [mbind option_bind] in Eb. destruct (negb _); [by injection Eb as <-|]. by rewrite Eb.
  - rewrite negb_false_iff, Hb. split; [intros Hf; by exists asked, D|]. intros (d & D' & E & HD' & _ & Hf). injection E as <-. destruct HD as [HD1 [r1 E1]], HD' as [HD2 [r2 E2]].
    rewrite E1 in E2. apply enc_name_inj in E2 as [<- _]; [done|apply HD1|apply HD2].
Qed.

Lemma in_progress_total nsname B : wire_name nsname B -> exists b, in_progress name thint qhlist nsname = Some b.
Proof.
  intros [HB [r ->]]. unfold in_progress. destruct (exists_opt_total (fun x : list Z * Z => e ← rhnicmp x.1 (enc_name B ++ r); Some (e && (x.2 =? T_A)%Z)) ((name, thint) :: qhlist)) as (b & E & _); [|by exists b].
  assert (Hall : hints_ok ((name, thint) :: qhlist)) by (constructor; [by exists N|done]).
  eapply Forall_impl; [exact Hall|]. cbn beta. intros [x tp] (M & HM & r' & E). cbn [fst snd] in *. rewrite E, rhnicmp_enc by (apply HM || apply HB). by eexists.
Qed.

(** The zones and servers that have been received. *)
Context (received : list (list (list Z) * list (list Z))).

(** A server that is asked for an authoritative answer: its domain is one of those in the list, in paranoid mode
    the name is in that domain, it has not been asked on the way here, it is asked on port 53, trusted unless in paranoid mode, with the
    other settings of the server that was asked. *)
Definition ns_server (st : query) : Prop :=
  exists A B a, (A, B) ∈ received /\ (g_paranoid rc = true -> below A N) /\ is_addr a /\ already_queried q qslist a = false /\
    sin_addr (q_a st) = a /\ sin_port (q_a st) = 53%Z /\ qs_nsdomain (q_stat st) = Some (enc_name A ++ enc_name B) /\ qs_trusted (q_stat st) = negb (g_paranoid rc) /\
    qs_auth_serv (q_stat st) = 2%Z /\ st = ns_query rc qse a (Some (enc_name A ++ enc_name B)).

Definition domain_ok (nsdomain : option (list Z)) : Prop :=
  exists A B, nsdomain = Some (enc_name A ++ enc_name B) /\ wf_name A /\ (A, B) ∈ received /\ (g_paranoid rc = true -> below A N).

Context (Hreceived : Forall (fun x => wf_name x.1) received).

Lemma ns_server_new st : ns_server st -> new_q st.
Proof.
  intros (A & B & a & Hin & _ & _ & _ & _ & _ & _ & _ & _ & ->). destruct Hqse as [_ Hrl]. split; [done|]. split; cbn.
  - intros d [= <-]. exists A. split; [|by eexists]. rewrite Forall_forall in Hreceived. by apply (Hreceived (A, B)).
  - intros rl. destruct (qs_rejectlist (q_stat qse)) as [rl0|]; [|done]. destruct (rl_inherit rl0); [|done]. intros [= <-]. by apply Hrl.
Qed.

Lemma still_add_servers nsdomain n serva : domain_ok nsdomain -> Forall is_addr serva -> forall serv, Forall ns_server serv ->
  still (fun r => forall l, r = Some l -> Forall ns_server l /\ length serv <= length l) (add_servers rc is_local_addr q qslist qse nsdomain n serva serv).
Proof.
  intros Hdom. induction 1 as [|a serva Ha _ IH]; intros serv Hserv; cbn [add_servers]; [apply still_ret; by intros l [= <-]|].
  apply (still_bind (fun _ => True)); [unfold local_addr; eapply still_bind; [apply still_tick|]; intros; by apply still_ret|]. intros loc _.
  destruct (loc || bool_decide _ || already_queried q qslist a) eqn:E; [by apply IH|]. apply orb_false_iff in E as [_ Hq].
  assert (Hnew : ns_server (ns_query rc qse a nsdomain)) by (destruct Hdom as (A & B & -> & _ & Hin & Hb); by exists A, B, a).
  eapply still_bind; [eapply still_cache, orderly_add_qserv; [eapply Forall_impl; [exact Hserv|apply ns_server_new]|by apply ns_server_new]|].
  intros [l|] Hl; [|by apply still_ret]. destruct (Hl l eq_refl) as [-> _]. eapply still_weaken; [apply IH; apply Forall_app; split; [done|by constructor]|].
  cbn beta. intros r Hr l El. destruct (Hr l El) as [? Hlen]. split; [done|]. rewrite length_app in Hlen. cbn in Hlen. lia.
Qed.

Lemma still_server_addrs nsname B : is_Some lower -> wire_name nsname B -> still (Forall is_addr) (server_addrs K lower name thint qhlist nsname).
Proof.
  intros [res Er] HB. unfold server_addrs. eapply still_lift; [exact Er|]. eapply still_bind; [apply still_time|]. intros now _.
  eapply still_bind; [eapply still_r_resolve; [by apply Hlow|exact HB|by left|constructor; [by exists N|done]]|].
  intros [[rv ent] v] [Hok _]. cbn [fst snd] in *. destruct (rv =? RC_OK)%Z eqn:E; boolp; [|by apply still_ret]. destruct (Hok E) as (e & -> & He).
  eapply still_lift; [done|]. destruct (get_set e RRMUINDEX_A T_A He) as (rs & Ers & Hrs); [vm_compute; lia|done|]. eapply still_lift; [exact Ers|].
  destruct (first_addrs_wire rs Hrs) as (l & El & Hl). eapply still_lift; [exact El|]. eapply still_bind; [by apply still_cache, orderly_free|]. intros _ _. by apply still_ret.
Qed.

(** What is done to the list of servers. *)
Definition grows (serv : list query) (r : option (list query)) : Prop := forall l, r = Some l -> Forall ns_server l /\ length serv <= length l.

Lemma grows_trans serv l r : length serv <= length l -> grows l r -> grows serv r.
Proof. intros H Hr x E. destruct (Hr x E). split; [done|lia]. Qed.

Lemma still_use_ns nsdomain nsname B serv : is_Some lower -> domain_ok nsdomain -> wire_name nsname B -> Forall ns_server serv ->
  still (grows serv) (use_ns K rc is_local_addr lower q name thint qslist qhlist qse nsdomain nsname serv).
Proof.
  intros Hl Hd HB Hserv. unfold use_ns. destruct (in_progress_total nsname B HB) as [b E]. eapply still_lift; [exact E|].
  destruct b; [apply still_ret; by intros l [= <-]|]. eapply still_bind; [by eapply still_server_addrs|]. intros serva Hs. by apply still_add_servers.
Qed.

Lemma still_use_local nsdomain rrs : is_Some lower -> domain_ok nsdomain -> Forall (fun rr => exists B, wire_name rr B) rrs -> forall serv, Forall ns_server serv ->
  still (grows serv) (use_local K rc is_local_addr lower q name thint qslist qhlist qse nsdomain rrs serv).
Proof.
  intros Hl Hd. induction 1 as [|rr rrs [B HB] _ IH]; intros serv Hserv; cbn [use_local]; [apply still_ret; by intros l [= <-]|].
  eapply still_bind; [by eapply still_use_ns|]. intros [l|] Hr; [|by apply still_ret]. destruct (Hr l eq_refl) as [? ?].
  eapply still_weaken; [by apply IH|]. intros r. by apply grows_trans.
Qed.

(** In debug mode with paranoia the message about a server that is not responsible cannot be printed. *)
Context (Hdebug : g_paranoid rc = true -> g_debug_p rc = false).

Lemma still_ns_servers items : is_Some lower -> Forall (ns_it received) items -> forall skip nsdomain serv, Forall ns_server serv ->
  (skip = false -> domain_ok nsdomain \/ forall it items', items = it :: items' -> exists A B, wf_name A /\ it = enc_name A ++ enc_name B) ->
  still (grows serv) (ns_servers K rc is_local_addr lower q name thint qslist qhlist qse skip nsdomain items serv).
Proof.
  intros Hl. induction 1 as [|it items Hit _ IH]; intros skip nsdomain serv Hserv Hd; cbn [ns_servers]; [apply still_ret; by intros l [= <-]|].
  assert (Hgo : forall skip' nsd l, Forall ns_server l -> length serv <= length l -> (skip' = false -> domain_ok nsd) ->
    still (grows serv) (ns_servers K rc is_local_addr lower q name thint qslist qhlist qse skip' nsd items l)).
  { intros skip' nsd l Hl' Hlen Hnsd. eapply still_weaken; [apply IH; [done|by left; apply Hnsd]|]. intros r. by apply grows_trans. }
  destruct Hit as [A B HA HB Hin|C HC].
  - destruct (full_head A B HA) as (b & Eb & Ei). eapply still_lift; [exact Eb|]. rewrite Ei. set (it := enc_name A ++ enc_name B).
    assert (Hw : wire_name it A) by (split; [done|by eexists]).
    apply (still_bind (fun out => (out = true -> g_paranoid rc = true) /\ (out = false -> g_paranoid rc = true -> below A N))).
    { destruct (g_paranoid rc); [|by apply still_ret]. destruct (domain_rem _ _ _ _ Hw HN) as (k & os & od & E & _ & _ & _ & _ & Hb & _).
      eapply still_lift; [exact E|]. apply still_ret. split; [done|]. intros H _. destruct (Nat.eqb_spec os 0); [by apply Hb|done]. }
    intros [] [Hp Hb].
    { rewrite (Hdebug (Hp eq_refl)). apply Hgo; [done|lia|done]. }
    assert (Hok : domain_ok (Some it)) by (exists A, B; splits; auto).
    eapply still_bind; [by eapply still_cache, (orderly_local it A T_NS)|]. intros [rs|] Hrs.
    + destruct (Hrs rs eq_refl) as [Hlent Hrr]. eapply still_bind; [apply (still_use_local (Some it) (rs_rrs rs)); [done|done| |done]|].
      { eapply Forall_impl; [exact Hrr|]. intros rr. apply wire_ns. }
      intros [l|] Hr; [|by apply still_ret]. destruct (Hr l eq_refl) as [? ?]. eapply still_bind; [by apply still_cache, orderly_del_rrset|]. intros _ _. by apply Hgo.
    + eapply still_lift; [apply skiprhn_enc, HA|]. eapply still_bind; [apply (still_use_ns (Some it) (enc_name B) B); [done|done|split; [done|exists []; by rewrite app_nil_r]|done]|].
      intros [l|] Hr; [|by apply still_ret]. destruct (Hr l eq_refl) as [? ?]. by apply Hgo.
  - eapply still_lift; [done|]. change (idem =? idem)%Z with true. cbv iota. destruct skip; [by apply Hgo|].
    assert (Hok : domain_ok nsdomain).
    { destruct (Hd eq_refl) as [?|Hf]; [done|]. destruct (Hf _ _ eq_refl) as (A & B & [HA _] & E). destruct A as [|x A]; [discriminate E|].
      apply Forall_cons in HA as [[Hx _] _]. injection E as E _. unfold idem in E. lia. }
    eapply still_lift; [done|]. eapply still_bind; [apply (still_use_ns nsdomain (enc_name C) C); [done|done|split; [done|exists []; by rewrite app_nil_r]|done]|].
    intros [l|] Hr; [|by apply still_ret]. destruct (Hr l eq_refl) as [? ?]. by apply Hgo.
Qed.

(** When the answer of the server is not good enough: one is needed that is authoritative, and this one is not or is not
    believed. *)
Definition not_enough (ent : dns_cent) : Prop :=
  (qs_failed (q_stat qse) <= 1)%Z /\ qs_auth_serv (q_stat qse) <> 0%Z /\ tst (flags ent) DF_NEGATIVE = false /\ aa_needed thint ent = Some true /\
  (qs_aa (q_stat qse) = true -> distrusted (q_stat qse) received).

(** The return value of [auth_ok] and the servers it has found. *)
Definition auth_result (ent : dns_cent) (x : Z * list query) : Prop :=
  (~ not_enough ent /\ x = (if (1 <? qs_failed (q_stat qse))%Z then 0 else 1, [])%Z) \/
  (not_enough ent /\ match lower with
     | None => x = (0, [])%Z
     | Some _ => Forall ns_server x.2 /\ (x = (-1, [])%Z \/ x.1 = match x.2 with [] => 0 | _ => 1 end%Z)
     end).

Lemma auth_result_found ent x : auth_result ent x -> (-1 <= x.1 <= 1)%Z /\ Forall ns_server x.2 /\ (x.1 = 0%Z -> x.2 = []) /\ (x.2 <> [] -> is_Some lower).
Proof.
  intros [[_ ->]|[_ H]]; [destruct (_ <? _)%Z; cbn; splits; try done; lia|]. destruct lower as [res|].
  - destruct H as [Hs [->|E]]; [cbn; splits; try done; lia|]. rewrite E. destruct x.2 as [|y l]; cbn; splits; try done; lia.
  - subst x. cbn. splits; try done; lia.
Qed.

Lemma still_auth_ok ent ns : good_cent ent -> ns_pairs ns received ->
  still (auth_result ent) (auth_ok K rc is_local_addr lower q name thint qslist qhlist qse ent ns []).
Proof.
  intros Hent Hns. unfold auth_ok. cbv zeta. destruct (1 <? qs_failed (q_stat qse))%Z eqn:Ef.
  { apply still_ret. left. rewrite Ef. apply Z.ltb_lt in Ef. split; [unfold not_enough; lia|done]. }
  assert (Hone : ~ not_enough ent -> still (auth_result ent) (mret (1%Z, []))) by (intros Hn; apply still_ret; left; by rewrite Ef).
  destruct (aa_needed_total ent ltac:(apply Hent)) as [b Eb].
  apply (still_bind (fun need => need = negb ((qs_auth_serv (q_stat qse) =? 0)%Z || tst (flags ent) DF_NEGATIVE) && b)).
  { destruct (_ || _); [by apply still_ret|]. intros w Hw. eapply iruns_lift; [exact Eb|]. splits; done. }
  intros need ->. destruct (negb (negb _ && b)) eqn:En.
  { apply Hone. unfold not_enough. intros (_ & H1 & H2 & H3 & _). rewrite Eb in H3. injection H3 as ->. rewrite H2, (proj2 (Z.eqb_neq _ _) H1) in En. done. }
  apply negb_false_iff, andb_true_iff in En as [En ->]. apply negb_true_iff, orb_false_iff in En as [Ea Eneg]. boolp.
  destruct (trust_aa_spec (q_stat qse) ns received Hqse Hns) as (t & Et & Ht).
  apply (still_bind (fun ok => ok = qs_aa (q_stat qse) && t)).
  { destruct (qs_aa _); [|by apply still_ret]. intros w Hw. eapply iruns_lift; [exact Et|]. splits; done. }
  intros ok ->. destruct (qs_aa (q_stat qse) && t) eqn:Eok.
  { apply Hone. apply andb_true_iff in Eok as [Eaa ->]. intros (_ & _ & _ & _ & H). apply H, Ht in Eaa. done. }
  assert (Hne : not_enough ent).
  { unfold not_enough. splits; [lia|done..|]. intros Eaa. rewrite Eaa in Eok. by apply Ht. }
  destruct (is_set lower) eqn:El; [|apply still_ret; right; split; [done|by destruct lower]]. assert (Hl : is_Some lower) by (unfold is_set in El; by case_match). destruct (ns_items ns received Hns) as [Hit Hfirst].
  eapply still_bind; [apply still_ns_servers; [done|done|constructor|right; exact Hfirst]|].
  intros r Hr. apply still_ret. right. split; [done|]. destruct Hl as [res ->]. destruct r as [serv|]; cbn [fst snd]; [|split; [done|by left]].
  destruct (Hr serv eq_refl) as [Hs _]. split; [done|]. right. by destruct serv.
Qed.
End Name.
End Spec.
