(* ===== verification/RecurseLoop.v ===== *)
(** The recursion over name servers: the loops of [p_recursive_query]. *)
From S2P Require Import Prelude Names DnsName Compress RrTypes HashTab RrList Cent CentSpec Cache CacheInv CachePurge CacheAdd CacheOps CacheThms.
From S2P Require Import Answer AnswerRr AnswerSet Query QueryDecode QuerySafe Reply ReplyData ReplySpec Exec ExecStages ExecSpec.
From S2P Require Import Net NetSpec QuerySm SmSpec QueryExec QueryRun QueryLoop QueryStep Forward Parallel Resolve ResolveSpec Recurse RecurseSpec.

(** ** Lists of queries *)

(** How many queries may still go from TCP to UDP. *)
Definition tcp_udp (q : list query) : nat := length (filter (fun st => q_qm st = TCP_UDP) q).

Lemma tcp_udp_insert i st x q : q !! i = Some st -> (q_qm x = TCP_UDP -> q_qm st = TCP_UDP) -> tcp_udp (<[i := x]> q) <= tcp_udp q.
Proof.
  unfold tcp_udp. revert i. induction q as [|y q IH]; intros i Hi Hx; [done|]. destruct i as [|i]; cbn in Hi.
  - injection Hi as ->. change (<[0 := x]> (st :: q)) with (x :: q). rewrite !filter_cons. destruct (decide (q_qm x = TCP_UDP)); [rewrite decide_True by auto; cbn; lia|destruct (decide _); cbn; lia].
  - change (<[S i := x]> (y :: q)) with (y :: <[i := x]> q). rewrite !filter_cons. specialize (IH i Hi Hx). destruct (decide (q_qm y = TCP_UDP)); cbn; lia.
Qed.

Lemma tcp_udp_less i st x q : q !! i = Some st -> q_qm st = TCP_UDP -> q_qm x <> TCP_UDP -> S (tcp_udp (<[i := x]> q)) <= tcp_udp q.
Proof.
  unfold tcp_udp. revert i. induction q as [|y q IH]; intros i Hi Hst Hx; [done|]. destruct i as [|i]; cbn in Hi.
  - injection Hi as ->. change (<[0 := x]> (st :: q)) with (x :: q). rewrite !filter_cons. rewrite decide_False by done. rewrite decide_True by done. cbn. lia.
  - change (<[S i := x]> (y :: q)) with (y :: <[i := x]> q). rewrite !filter_cons. specialize (IH i Hi Hst Hx). destruct (decide (q_qm y = TCP_UDP)); cbn; lia.
Qed.

Lemma tcp_udp_le q : tcp_udp q <= length q.
Proof. apply length_filter. Qed.

Lemma active_done a b q : b <= a -> active a b q = [].
Proof. intros H. unfold active. by replace (b - a) with 0 by lia. Qed.

Lemma active_step i b q st : i < b -> q !! i = Some st ->
  active i b q = (if bool_decide (q_state st = QS_DONE) then [] else [(i, st)]) ++ active (S i) b q.
Proof.
  intros Hb Hi. unfold active. replace (b - i) with (S (b - S i)) by lia. rewrite (drop_S _ _ _ Hi). cbn [seq take zip zip_with].
  rewrite filter_cons. cbn [snd]. case_bool_decide as H; [by rewrite decide_False by tauto|by rewrite decide_True by done].
Qed.

Lemma active_insert i x b q : active (S i) b (<[i := x]> q) = active (S i) b q.
Proof. unfold active. by rewrite drop_insert_lt by lia. Qed.

Lemma active_nil_done b q : b <= length q -> forall n i, i + n = b -> active i b q = [] -> forall k st, i <= k < b -> q !! k = Some st -> q_state st = QS_DONE.
Proof.
  intros Hb. induction n as [|n IH]; intros i Hi Ha k st Hk Hst; [lia|]. destruct (lookup_lt_is_Some_2 q i) as [x Hx]; [lia|].
  rewrite (active_step i b q x) in Ha by (done || lia). apply app_eq_nil in Ha as [H1 H2]. destruct (decide (k = i)) as [->|].
  - rewrite Hx in Hst. injection Hst as ->. by case_bool_decide.
  - apply (IH (S i)) with (k := k); [lia|done|lia|done].
Qed.

(** Queries before and from a position on are idle. *)
Definition idle_below (d : nat) (q : list query) : Prop := forall k st, k < d -> q !! k = Some st -> idle st.
Definition idle_from (m : nat) (q : list query) : Prop := forall k st, m <= k -> q !! k = Some st -> idle st.

Lemma idle_below_insert d q i x : d <= i -> idle_below d q -> idle_below d (<[i := x]> q).
Proof. intros Hd H k st Hk Hst. rewrite list_lookup_insert_ne in Hst by lia. by apply (H k). Qed.
Lemma idle_from_insert m q i x : i < m -> idle_from m q -> idle_from m (<[i := x]> q).
Proof. intros Hd H k st Hk Hst. rewrite list_lookup_insert_ne in Hst by lia. by apply (H k). Qed.

Lemma idle_done st : q_state st = QS_DONE -> idle st.
Proof. intros E. unfold idle. rewrite E. set_solver. Qed.
Lemma idle_new st : q_state st = QS_INITIAL -> idle st.
Proof. intros E. unfold idle. rewrite E. set_solver. Qed.

Lemma busy_tentative st : q_state st ∈ [QS_TCPWRITE; QS_TCPREAD] -> ~ idle st.
Proof. unfold idle. rewrite !elem_of_cons, !elem_of_nil. intuition congruence. Qed.

Lemma ns_pairs_nil : exists l, ns_pairs [] l.
Proof. exists []. constructor. Qed.

Section Loops.
Context {P : Platform} (global : globals) (pol : policies) (K : kernel) (rf : bool) (conf : net_conf) (rc : resolve_conf).
Context (is_local_addr : nat -> list Z -> bool).
Context (HK : kernel_ok K) (Hconf : net_conf_ok conf) (Hrf : no_empty_reply K rf) (Hpol : conf_ok pol).
Context (Hdebug : g_paranoid rc = true -> g_debug_p rc = false).
Context (lower : option resolver) (Hlow : forall res, lower = Some res -> ResolverOk res).
Context (name : list Z) (N : list (list Z)) (thint : Z) (HN : wire_name name N) (Hth : thint_ok thint).
Context (qslist : list (list query)) (qhlist : list (list Z * Z)) (Hhints : hints_ok qhlist).
Context (G : sockets) (F : blocks).

Abbreviation all_hold := (together conf (Some N) thint G F).

(** Servers that are to be asked. *)
Definition to_ask (serv : list query) : Prop := Forall new_q serv /\ (serv <> [] -> is_Some lower).

(** The answer that has been saved. *)
Definition save_ok (s : rquery) : Prop :=
  forall e v n, r_save s = Some (e, v, n) -> good_cent e /\ to_ask v /\ exists i, r_qse s = Some i /\ i < length (r_q s).

(** The state of the loops. *)
Definition sound (s : rquery) (w : world) : Prop :=
  ready (w_cache w) /\ all_hold (r_q s) (socks w) (heap w) /\ (exists l, ns_pairs (r_ns s) l) /\ save_ok s /\ code_ok (r_rv s).

(** There are no servers to ask from an earlier reply, and an answer that came in was saved. *)
Definition calm (s : rquery) : Prop := r_serv s = [] /\ (r_rv s = RC_OK -> is_Some (r_save s)).

(** What holds when a loop is left. *)
Definition served (o : outcome) (s : rquery) : Prop :=
  match o with
  | Next | Retry => calm s
  | Done => r_rv s = RC_OK -> exists e i, r_ent s = Some e /\ good_cent e /\ to_ask (r_serv s) /\ r_qse s = Some i /\ i < length (r_q s)
  | Failed => exists e, r_ent s = Some e /\ good_cent e
  end.

(** Only the query [i] has changed. *)
Definition only_at (i : nat) (x : query) (s s' : rquery) : Prop := r_q s' = <[i := x]> (r_q s) /\ r_dc s' = r_dc s /\ r_mc s' = r_mc s.

Lemma still_save i ent st authok s : good_cent ent -> to_ask (r_serv s) -> save_ok s -> i < length (r_q s) ->
  still (fun s' => r_q s' = r_q s /\ r_dc s' = r_dc s /\ r_mc s' = r_mc s /\ r_rv s' = r_rv s /\ r_serv s' = [] /\ is_Some (r_save s') /\ r_ns s' = [] /\ save_ok s') (save_query_result i ent st authok s).
Proof.
  intros Hent Hask Hsave Hi. unfold save_query_result. cbv zeta.
  eapply (still_bind (fun v => v = None \/ v = r_save s)).
  - destruct (r_save s) as [[[e v] n]|] eqn:Es; [|apply still_ret; by left]. destruct (_ <? _)%Z; [|apply still_ret; by right].
    destruct (Hsave e v n Es) as [He _]. eapply still_bind; [by apply still_cache, orderly_free|]. intros _ _. apply still_ret. by left.
  - intros [x|] Hx.
    + destruct Hx as [?|Hx]; [done|]. eapply still_bind; [by apply still_cache, orderly_free|]. intros _ _. apply still_ret. cbn. splits; try done.
      unfold save_ok. cbn. rewrite Hx. exact Hsave.
    + apply still_ret. cbn. splits; try done. unfold save_ok. cbn. intros e v n [= <- <- <-]. splits; [done..|]. by exists i.
Qed.

Abbreviation use := (use_result K rc is_local_addr lower name thint qslist qhlist).

(** The reply to the query [i]. *)
Lemma iruns_use_result i qs r s w : i < length (r_q s) -> all_hold (<[i := qs]> (r_q s)) (socks w) (heap w) -> ready (w_cache w) ->
  exec_out N r qs -> stat_ok (q_stat qs) -> calm s -> save_ok s ->
  iruns (use i qs r s) w (fun x w' => sound x.2 w' /\ served x.1 x.2 /\ only_at i qs s x.2 /\ ticks w <= ticks w' /\
    (x.1 = Retry -> q_qm qs = UDP_TCP) /\ (x.1 <> Next -> q_state qs = QS_DONE)).
Proof.
  intros Hi Hall Hr (Hns & Hok & He & Hd & Hcode) Hst [Hserv _] Hsave. unfold use_result. cbv zeta. set (s1 := set_result i qs r s).
  assert (Hlen : length (r_q s1) = length (r_q s)) by apply length_insert.
  assert (Hsave1 : save_ok s1) by (unfold save_ok; cbn; rewrite length_insert; exact Hsave).
  assert (Hdone : ex_rv r <> (-1)%Z -> q_state qs = QS_DONE) by (intros Hne; destruct (decide (q_state qs = QS_DONE)); [done|]; exfalso; apply Hne; by apply Hd).
  destruct (ex_rv r =? RC_OK)%Z eqn:Erv; boolp.
  - destruct (proj1 Hok Erv) as [e Ee]. destruct (He e Ee) as [Hge _]. assert (Eent : r_ent s1 = Some e) by (cbn; by rewrite Ee). rewrite Eent.
    apply iruns_bind. eapply iruns_lift; [done|]. destruct Hns as [l Hns]. change (r_serv s1) with (r_serv s). rewrite Hserv.
    apply iruns_bind. eapply iruns_weaken; [eapply (still_auth_ok K rc is_local_addr lower Hlow (r_q s1) name N thint qslist qhlist qs HN Hhints Hst l (ns_pairs_wf _ _ Hns) Hdebug e (r_ns s1) Hge Hns w Hr)|].
    cbn beta. intros [authok serv] w1 (HS & HH & Hr1 & Ht1 & Hauth). destruct (auth_result_found _ _ Hlow _ _ _ _ _ _ _ _ Hauth) as (Hauth' & Hnew & Hz & Hlo). clear Hauth. rename Hauth' into Hauth. cbn [fst snd] in *. set (s2 := set_serv serv s1).
    assert (Hask : to_ask serv) by (split; [eapply Forall_impl; [exact Hnew|]; intros ?; apply ns_server_new; [done|by eapply ns_pairs_wf]|done]).
    assert (Hsnd : forall s', r_q s' = r_q s1 -> (exists l, ns_pairs (r_ns s') l) -> save_ok s' -> r_rv s' = r_rv s1 -> sound s' w1).
    { intros s' Eq Hn Hs' Erv'. unfold sound. rewrite Eq, HS, HH, Erv'. splits; done. }
    destruct (authok <? 0)%Z eqn:Ea; boolp.
    { io_ret. cbn [fst snd]. splits; try done; [by apply Hsnd; [|exists l| |]|exists e; done|by intros _; apply Hdone; rewrite Erv]. }
    destruct (negb _ && _ && negb _) eqn:Eb.
    { io_ret. cbn [fst snd]. splits; try done; [apply Hsnd; [done|by exists l| |done]| |by intros _; apply Hdone; rewrite Erv].
      - unfold save_ok. cbn. intros e' v n Es. destruct (Hsave1 e' v n Es) as (? & ? & _). splits; [done..|]. exists i. split; [done|]. rewrite length_insert. done.
      - cbn. intros _. exists e, i. rewrite length_insert. splits; try done; apply Hask. }
    apply iruns_bind. eapply iruns_weaken; [apply (still_save i e (q_stat qs) authok s2); [done|done|done|cbn; by rewrite length_insert|exact Hr1]|].
    cbn beta. intros s3 w2 (HS2 & HH2 & Hr2 & Ht2 & Eq & Edc & Emc & Erv3 & Hsv & Hsome & Hn & Hsave3). io_ret. cbn [fst snd]. assert (Hcalm : calm s3) by (by split).
    assert (Hsnd3 : sound s3 w2) by (unfold sound; rewrite Eq, HS2, HH2, HS, HH, Hn, Erv3; splits; try done; apply ns_pairs_nil).
    assert (Honly : only_at i qs s s3) by (unfold only_at; rewrite Eq, Edc, Emc; done).
    destruct (bool_decide (q_qm qs = UDP_TCP) && qs_tc (q_stat qs)) eqn:Eag; [apply andb_true_iff in Eag as [Eag _]; apply bool_decide_eq_true in Eag|];
      splits; try done; lia || (intros _; apply Hdone; by rewrite Erv).
  - io_ret. cbn [fst snd]. assert (Hsnd : sound s1 w) by (unfold sound; splits; done).
    destruct (_ || _) eqn:Eor.
    + splits; try done; [intros E; exfalso; apply Erv; exact E|]. intros _. apply Hdone. intros E. rewrite E in Eor. discriminate Eor.
    + by splits.
Qed.

(** The state of a query that holds nothing may be changed. *)
Lemma all_hold_again q S H i st st' : all_hold q S H -> q !! i = Some st -> idle st -> idle st' -> stat_ok (q_stat st') -> all_hold (<[i := st']> q) S H.
Proof.
  intros Hall Hi Hst Hst' Hok. destruct (together_focus conf (Some N) thint G F q S H i st Hall Hi) as (s & h & S' & H' & [_ Hp] & HS & HH & -> & -> & Hk).
  assert (E : s = ∅ /\ h = ∅) by (unfold idle in Hst; rewrite !elem_of_cons, elem_of_nil in Hst; by destruct Hst as [E|[E|[E|[]]]]; rewrite E in Hp).
  destruct E as [-> ->]. apply Hk; [|done..]. split; [done|]. unfold idle in Hst'. rewrite !elem_of_cons, elem_of_nil in Hst'. by destruct Hst' as [->|[->|[->|[]]]].
Qed.

(** What the call for the query [i], now [st'], has done. *)
Definition tried (i : nat) (st st' : query) (s : rquery) (o : outcome) (s' : rquery) : Prop :=
  served o s' /\ only_at i st' s s' /\ o <> Retry /\ (q_qm st' = TCP_UDP -> q_qm st = TCP_UDP) /\ (o <> Next -> q_state st' = QS_DONE).

Abbreviation try := (try_query global pol K rf conf rc is_local_addr lower name thint qslist qhlist).

Lemma iruns_try_query fuel : forall i st s w, r_q s !! i = Some st -> sound s w -> calm s -> (0 < fuel /\ (q_qm st = UDP_TCP -> 1 < fuel)) ->
  iruns (try fuel i s) w (fun x w' => exists st', sound x.2 w' /\ tried i st st' s x.1 x.2 /\ ticks w < ticks w').
Proof.
  induction fuel as [|fu IH]; intros i st s w Hi (Hr & Hall & [l Hns] & Hsave & Hrv) Hserv [Hf1 Hf2]; [lia|]. cbn [try_query]. io_lift; [exact Hi|].
  pose proof (lookup_lt_Some _ _ _ Hi) as Hlt.
  apply iruns_bind. eapply iruns_weaken; [by apply iruns_time|]. cbn beta. intros now w1 (HS & HH & Hr1 & Ht1).
  rewrite <- HS, <- HH in Hall.
  apply iruns_bind. eapply iruns_weaken; [eapply (iruns_exec_at now global pol K rf conf HK Hconf Hrf Hpol name N thint HN Hth G F (r_ns s) l (r_q s) i st w1); done|].
  cbn beta. intros [r qs] w2 (Hall2 & Hr2 & Hout & Ht2 & Hqm & Hst). cbn [fst snd] in *.
  apply iruns_bind. eapply iruns_weaken; [by eapply iruns_use_result|]. cbn beta. intros [o s'] w3 (Hs3 & Hsv & Ho & Ht3 & Hre & Hd). cbn [fst snd] in *.
  assert (Hqm' : q_qm qs = TCP_UDP -> q_qm st = TCP_UDP) by (destruct Hqm as [->| ->]; done).
  assert (Hend : o <> Retry -> iruns (mret (o, s')) w3 (fun x w' => exists st', sound x.2 w' /\ tried i st st' s x.1 x.2 /\ ticks w < ticks w')).
  { intros Hne. io_ret. exists qs. cbn [fst snd]. unfold tried. splits; try done. lia. }
  destruct o; try by apply Hend. clear Hend. destruct Ho as (Eq & Edc & Emc). specialize (Hre eq_refl). specialize (Hd ltac:(done)).
  assert (Hi' : r_q s' !! i = Some qs) by (rewrite Eq; by apply list_lookup_insert_eq). io_lift; [exact Hi'|].
  eapply iruns_weaken; [apply (IH i (switch_to_tcp qs)); cbn [r_q set_q r_serv]|].
  - apply list_lookup_insert_eq. by apply lookup_lt_Some in Hi'.
  - destruct Hs3 as (? & Hall3 & ? & Hsave3 & ?). unfold sound. cbn. splits; try done; [|unfold save_ok; cbn; rewrite length_insert; exact Hsave3].
    eapply all_hold_again; [done|done|by apply idle_done|by apply idle_new|done].
  - exact Hsv.
  - split; [|done]. assert (q_qm st = UDP_TCP) by (destruct Hqm as [E|E]; congruence). specialize (Hf2 H). lia.
  - cbn beta. intros [o s2] w4 (st' & Hs4 & (Hsv4 & (Eq4 & Edc4 & Emc4) & Hne & Hq4 & Hd4) & Ht4). exists st'. cbn [fst snd set_q r_q r_dc r_mc] in *.
    split; [done|]. split; [|lia]. unfold tried, only_at. splits; try done; [by rewrite Eq4, Eq, !list_insert_insert_eq|congruence|congruence|]. intros E. discriminate (Hq4 E).
Qed.

(** Only the queries between [dc] and [mc] may be active. *)
Definition span (s : rquery) : Prop :=
  r_dc s <= r_mc s <= length (r_q s) /\ idle_below (r_dc s) (r_q s) /\ idle_from (r_mc s) (r_q s).

(** The state but for [dc]. *)
Definition alike (s s' : rquery) : Prop :=
  r_q s' = r_q s /\ r_mc s' = r_mc s /\ (calm s -> calm s') /\ forall w, sound s w -> sound s' w.

Lemma pass_done_spec i st s : r_q s !! i = Some st -> r_dc s <= i -> idle_below (r_dc s) (r_q s) ->
  exists s', pass_done i s = Some s' /\ alike s s' /\ r_dc s <= r_dc s' <= S i /\ idle_below (r_dc s') (r_q s').
Proof.
  intros Hi Hle Hb. unfold pass_done. rewrite Hi. sbind. eexists. split; [done|]. destruct (_ && _) eqn:E; [|by unfold alike; splits; try done; lia].
  boolp. apply bool_decide_eq_true in H. subst i. unfold alike. splits; try done; cbn; try lia.
  intros k x Hk Hx. destruct (decide (k = r_dc s)) as [->|]; [|apply (Hb k); [lia|done]]. rewrite Hi in Hx. injection Hx as <-. by apply idle_done.
Qed.

Lemma sound_lookup s i : i < length (r_q s) -> exists st, r_q s !! i = Some st.
Proof. intros H. by apply lookup_lt_is_Some_2 in H. Qed.

Lemma sound_mc s m w : sound s w -> sound (set_mc m s) w.
Proof. done. Qed.

(** What a loop leaves behind. *)
Definition looped (s : rquery) (w : world) (o : outcome) (s' : rquery) (w' : world) : Prop :=
  sound s' w' /\ served o s' /\ o <> Retry /\ length (r_q s') = length (r_q s) /\ ticks w <= ticks w'.

Abbreviation start := (start_loop global pol K rf conf rc is_local_addr lower name thint qslist qhlist).

Lemma iruns_start_loop n : forall i j s w, sound s w -> calm s -> i + n = r_mc s -> r_mc s <= length (r_q s) -> r_dc s <= i ->
  idle_below (r_dc s) (r_q s) -> idle_from (max i j) (r_q s) -> j <= r_mc s ->
  iruns (start n i j s) w (fun x w' => looped s w x.1 x.2 w' /\ span x.2 /\ (x.1 = Next -> r_mc x.2 = r_mc s)).
Proof.
  induction n as [|n IH]; intros i j s w Hs Hserv Hn Hmc Hdc Hb Hfr Hj; cbn [start_loop].
  { io_ret. unfold looped, span. cbn [fst snd]. splits; try done; try lia. by replace (max i j) with (r_mc s) in Hfr by lia. }
  destruct (sound_lookup s i) as [st Hi]; [lia|]. apply iruns_bind.
  eapply (iruns_weaken _ _ (fun x w' => looped s w x.1 x.2 w' /\ r_dc x.2 = r_dc s /\ r_mc x.2 = r_mc s /\ idle_below (r_dc s) (r_q x.2) /\
    idle_from (max (S i) j) (r_q x.2) /\ (x.1 <> Next -> idle_from i (r_q x.2)))).
  - destruct (j <=? i) eqn:Ej; boolp.
    + eapply iruns_weaken; [apply (iruns_try_query 2 i st); [done..|lia]|]. cbn beta. intros [o s'] w' (st' & Hs' & (Hsv & (Eq & Edc & Emc) & Hne & _ & Hd) & Ht). cbn [fst snd] in *.
      replace (max i j) with i in Hfr by lia. unfold looped. rewrite Eq, length_insert. splits; try done; [lia|by apply idle_below_insert| |].
      * intros k x Hk Hx. rewrite list_lookup_insert_ne in Hx by lia. apply (Hfr k); [lia|done].
      * intros Hnn k x Hk Hx. destruct (decide (k = i)) as [->|]; [|rewrite list_lookup_insert_ne in Hx by lia; by apply (Hfr k)].
        rewrite list_lookup_insert_eq in Hx by lia. injection Hx as <-. by apply idle_done, Hd.
    + io_ret. unfold looped. cbn [fst snd]. splits; try done. replace (max (S i) j) with (max i j) by lia. done.
  - cbn beta. intros [o s'] w' ((Hs' & Hsv & Hne & Hlen & Ht) & Edc & Emc & Hb' & Hfr' & Hfi). cbn [fst snd] in *.
    assert (Hstop : o <> Next -> iruns (mret (o, set_mc i s')) w' (fun x w' => looped s w x.1 x.2 w' /\ span x.2 /\ (x.1 = Next -> r_mc x.2 = r_mc s))).
    { intros Ho. io_ret. unfold looped, span. cbn [fst snd r_dc r_mc r_q set_mc]. rewrite Edc, Hlen. splits; try done; try lia. by apply Hfi. }
    destruct o; try by apply Hstop. clear Hstop. destruct (sound_lookup s' i) as [st' Hi']; [lia|].
    destruct (pass_done_spec i st' s' Hi' ltac:(lia) ltac:(by rewrite Edc)) as (s2 & E & (Eq2 & Emc2 & Esv2 & Hs2) & Hdc2 & Hb2). io_lift; [exact E|].
    eapply iruns_weaken; [apply (IH (S i) j s2 w')|].
    + by apply Hs2.
    + by apply Esv2.
    + lia.
    + rewrite Eq2. lia.
    + lia.
    + done.
    + by rewrite Eq2.
    + lia.
    + cbn beta. intros [o s3] w3 ((Hs3 & Hsv3 & Hne3 & Hlen3 & Ht3) & Hsp & Hmc3). cbn [fst snd] in *. unfold looped. rewrite Hlen3, Eq2. splits; try done; [lia|].
      intros Ho. rewrite (Hmc3 Ho). congruence.
Qed.

(** A query that was changed inside of the bounds. *)
Lemma idle_below_same d q i st st' : q !! i = Some st -> (idle st -> idle st') -> idle_below d q -> idle_below d (<[i := st']> q).
Proof.
  intros Hi Hst H k x Hk Hx. destruct (decide (k = i)) as [->|]; [|rewrite list_lookup_insert_ne in Hx by lia; by apply (H k)].
  pose proof (lookup_lt_Some _ _ _ Hi). rewrite list_lookup_insert_eq in Hx by done. injection Hx as <-. apply Hst. by apply (H i).
Qed.

Abbreviation timeouts := (timeout_loop global pol K rf conf rc is_local_addr lower name thint qslist qhlist).

Lemma iruns_timeout_loop n : forall i again s w, sound s w -> calm s -> i + n <= r_mc s -> span s ->
  iruns (timeouts n i again s) w (fun x w' => looped s w x.1.1 x.2 w' /\ span x.2 /\ r_mc x.2 = r_mc s /\ r_dc x.2 = r_dc s /\
    tcp_udp (r_q x.2) + x.1.2 <= tcp_udp (r_q s) + again).
Proof.
  induction n as [|n IH]; intros i again s w Hs Hserv Hn Hsp; cbn [timeout_loop].
  { io_ret. unfold looped. cbn [fst snd]. by splits. }
  destruct Hsp as ([Hdm Hml] & Hb & Hfr). destruct (sound_lookup s i) as [st Hi]; [lia|]. io_lift; [exact Hi|]. destruct Hs as (Hr & Hall & [l Hns] & Hsave & Hrv).
  apply iruns_bind. eapply iruns_weaken; [by apply iruns_time|]. cbn beta. intros now w1 (HS & HH & Hr1 & Ht1). rewrite <- HS, <- HH in Hall.
  apply iruns_bind. eapply iruns_weaken; [eapply (iruns_timeout_at now global pol K rf conf HK Hconf Hrf Hpol name N thint HN Hth G F (r_ns s) l (r_q s) i st w1); done|].
  cbn beta. intros [o st'] w2 (Hall2 & Hr2 & Ht2 & Hst & Ho). cbn [fst snd] in *. destruct o as [r|].
  - destruct Ho as (Hout & Hten & Hqm). apply tentative_method in Hten as [Hq0 Hq1]. apply iruns_bind. pose proof (lookup_lt_Some _ _ _ Hi) as Hlt.
    eapply iruns_weaken; [by eapply iruns_use_result|]. cbn beta. intros [o s'] w3 (Hs3 & Hsv & (Eq & Edc & Emc) & Ht3 & Hre & Hd). cbn [fst snd] in *.
    assert (Hsp' : span s').
    { unfold span. rewrite Eq, Edc, Emc, length_insert. splits; try done; [|apply idle_from_insert; [lia|done]]. eapply idle_below_same; [done| |done].
      by intros Hid%(busy_tentative st Hq1). }
    pose proof (tcp_udp_less i st st' (r_q s) Hi Hq0 ltac:(by rewrite Hqm)) as Hless.
    assert (Hlen : length (r_q s') = length (r_q s)) by (by rewrite Eq, length_insert).
    assert (Hgo : calm s' -> iruns (timeouts n (S i) (S again) s') w3 (fun x w' => looped s w x.1.1 x.2 w' /\ span x.2 /\ r_mc x.2 = r_mc s /\ r_dc x.2 = r_dc s /\
      tcp_udp (r_q x.2) + x.1.2 <= tcp_udp (r_q s) + again)).
    { intros Hsv'. eapply iruns_weaken; [apply IH; [done|done|lia|done]|]. cbn beta. intros [[o2 n2] s2] w4 ((? & ? & ? & ? & ?) & ? & ? & ? & Hle). cbn [fst snd] in *.
      rewrite Eq in Hle. unfold looped. splits; try done; try lia; congruence. }
    destruct o.
    + by apply Hgo.
    + io_ret. unfold looped. cbn [fst snd]. rewrite Eq, length_insert. splits; try done; lia.
    + io_ret. unfold looped. cbn [fst snd]. rewrite Eq, length_insert. splits; try done; lia.
    + specialize (Hre eq_refl). congruence.
  - destruct Ho as [Hqm Hq]. eapply iruns_weaken; [apply (IH (S i) again)|].
    + unfold sound. cbn. splits; try done; [by exists l|]. unfold save_ok. cbn. rewrite length_insert. exact Hsave.
    + done.
    + cbn. lia.
    + unfold span. cbn. rewrite length_insert. splits; try done; [|apply idle_from_insert; [lia|done]]. eapply idle_below_same; [done| |done]. unfold idle. by rewrite Hq.
    + cbn beta. intros [[o2 n2] s2] w4 ((? & ? & ? & Hlen & ?) & ? & ? & ? & Hle). cbn [fst snd set_q r_q] in *.
      pose proof (tcp_udp_insert i st st' (r_q s) Hi ltac:(by rewrite Hqm)). rewrite length_insert in Hlen. unfold looped. splits; try done; lia.
Qed.

Abbreviation events := (event_loop global pol K rf conf rc is_local_addr lower name thint qslist qhlist).

(** The descriptors of the queries that are not done. *)
Definition fds_of (i : nat) (s : rquery) : list (option positive) := map (fun x => q_sock x.2) (active i (r_mc s) (r_q s)).

Lemma iruns_event_loop n : forall i polls nev s w, sound s w -> calm s -> i + n = r_mc s -> span s -> r_dc s <= i -> map fst polls = fds_of i s ->
  iruns (events n i polls nev s) w (fun x w' => looped s w x.1.1 x.2 w' /\ span x.2 /\ r_mc x.2 = r_mc s /\ tcp_udp (r_q x.2) <= tcp_udp (r_q s)).
Proof.
  induction n as [|n IH]; intros i polls nev s w Hs Hserv Hn Hsp Hdi Hpolls; cbn [event_loop].
  { io_ret. unfold looped. cbn [fst snd]. by splits. }
  destruct Hsp as ([Hdm Hml] & Hb & Hfr). destruct (sound_lookup s i) as [st Hi]; [lia|]. io_lift; [exact Hi|]. apply iruns_bind.
  unfold fds_of in Hpolls. rewrite (active_step i (r_mc s) (r_q s) st ltac:(lia) Hi), map_app in Hpolls.
  eapply (iruns_weaken _ _ (fun x w' => looped s w x.1.1.1 x.2 w' /\ span x.2 /\ r_mc x.2 = r_mc s /\ r_dc x.2 = r_dc s /\ tcp_udp (r_q x.2) <= tcp_udp (r_q s) /\
    map fst x.1.1.2 = fds_of (S i) x.2)).
  - case_bool_decide as Hd; [io_ret; unfold looped, span; cbn [fst snd]; by splits|].
    destruct polls as [|[fd ev] polls]; [discriminate Hpolls|]. cbn [map fst snd app] in Hpolls. injection Hpolls as -> Hpolls.
    apply iruns_bind. eapply iruns_lift; [cbn [find_poll]; by rewrite bool_decide_true|]. cbv iota beta.
    destruct (srv_event st ev); [|io_ret; unfold looped, span; cbn [fst snd]; by splits].
    apply iruns_bind. eapply iruns_weaken; [apply (iruns_try_query 2 i st); [done..|lia]|]. cbn beta. intros [o s'] w' (st' & Hs' & (Hsv & (Eq & Edc & Emc) & Hne & Hqm & _) & Ht). cbn [fst snd] in *.
    io_ret. unfold looped, span, fds_of. cbn [fst snd]. rewrite Eq, Edc, Emc, length_insert, active_insert.
    splits; try done; [lia|by apply idle_below_insert|apply idle_from_insert; [lia|done]|by eapply tcp_udp_insert].
  - cbn beta. intros [[[o polls'] nev'] s'] w' ((Hs' & Hsv & Hne & Hlen & Ht) & Hsp' & Emc & Edc & Hq & Hp'). cbn [fst snd] in *.
    assert (Hstop : iruns (mret (o, nev', s')) w' (fun x w' => looped s w x.1.1 x.2 w' /\ span x.2 /\ r_mc x.2 = r_mc s /\ tcp_udp (r_q x.2) <= tcp_udp (r_q s))).
    { io_ret. unfold looped. cbn [fst snd]. by splits. }
    destruct o; try done. clear Hstop. destruct (sound_lookup s' i) as [st' Hi']; [lia|]. destruct Hsp' as (? & Hb' & Hfr').
    destruct (pass_done_spec i st' s' Hi' ltac:(lia) Hb') as (s2 & E & (Eq2 & Emc2 & Esv2 & Hs2) & Hdc2 & Hb2). io_lift; [exact E|].
    eapply iruns_weaken; [apply (IH (S i) polls' nev' s2 w')|].
    + by apply Hs2.
    + by apply Esv2.
    + lia.
    + unfold span. rewrite Eq2, Emc2 in *. splits; try done; lia.
    + lia.
    + unfold fds_of in *. by rewrite Eq2, Emc2.
    + cbn beta. intros [[o2 n2] s3] w3 ((? & ? & ? & Hlen3 & ?) & ? & ? & ?). cbn [fst snd] in *. rewrite Eq2 in *. unfold looped. splits; try done; try lia; congruence.
Qed.

(** From the call number [T] on, [poll] reports nothing more: until then datagrams that are no
    replies may keep a query over UDP waiting, whatever its time limit. *)
Definition quiet (T : nat) : Prop := forall t fds to l, T <= t -> k_poll K t fds to = inr l -> Forall (fun ev => ev = 0%Z) l.

Lemma iruns_poll fds to w : ready (w_cache w) -> iruns (poll K fds to) w (fun r w' =>
  socks w' = socks w /\ heap w' = heap w /\ ready (w_cache w') /\ ticks w < ticks w' /\
  forall ev, r = inr ev -> length ev = length fds /\ forall T, quiet T -> T <= ticks w -> filter (fun x => x <> 0%Z) ev = []).
Proof.
  intros Hw. unfold poll. eexists _, _. split; [reflexivity|]. splits; try done; [cbn; lia|]. intros ev. destruct (k_poll K (ticks w) fds to) as [e|l] eqn:E; [done|].
  intros [= <-]. split; [rewrite length_take, length_app, length_replicate; lia|]. intros T HT Hle.
  assert (Hz : Forall (fun x => x = 0%Z) (take (length fds) (l ++ replicate (length fds) 0%Z))).
  { apply Forall_take, Forall_app. split; [by eapply HT|by apply Forall_replicate]. }
  induction Hz as [|x ev -> _ IH]; [done|]. by rewrite filter_cons, decide_False by tauto.
Qed.

Context (T : nat) (HT : quiet T).

Abbreviation polling := (poll_loop global pol K rf conf rc is_local_addr lower name thint qslist qhlist).

Lemma span_all_done s : span s -> active (r_dc s) (r_mc s) (r_q s) = [] -> span (set_dc (r_mc s) s).
Proof.
  intros ([Hdm Hml] & Hb & Hfr) Ha. unfold span. cbn. splits; try done. intros k st Hk Hst. destruct (decide (k < r_dc s)); [by apply (Hb k)|].
  apply idle_done. eapply (active_nil_done (r_mc s) (r_q s) Hml (r_mc s - r_dc s) (r_dc s)); [lia|done| |done]. lia.
Qed.

(** A loop goes on from where another has stopped. *)
Lemma looped_trans s w s1 w1 o s2 w2 : sound s1 w1 -> length (r_q s1) = length (r_q s) -> ticks w <= ticks w1 -> looped s1 w1 o s2 w2 -> looped s w o s2 w2.
Proof. intros _ Hl Ht (? & ? & ? & ? & ?). unfold looped. splits; try done; try lia; congruence. Qed.

Definition polled (s : rquery) (w : world) (x : outcome * rquery) (w' : world) : Prop :=
  looped s w x.1 x.2 w' /\ span x.2 /\ (x.1 = Next -> r_mc x.2 = r_mc s).

Lemma iruns_poll_loop fuel : forall j ts0 ts s w, sound s w -> calm s -> span s -> j <= r_mc s -> T - ticks w + tcp_udp (r_q s) < fuel ->
  iruns (polling fuel j ts0 ts s) w (polled s w).
Proof.
  induction fuel as [|fu IH]; intros j ts0 ts s w Hs Hserv Hsp Hj Hf; [lia|]. cbn [poll_loop]. cbv zeta. set (s1 := set_rv RC_SERVFAIL s).
  assert (Hs1 : sound s1 w) by (destruct Hs as (? & ? & ? & ? & _); unfold sound; splits; try done; left; cbn; unfold RC_SERVFAIL; lia). assert (Hsp1 : span s1) by exact Hsp. assert (Hserv1 : calm s1) by (split; [apply Hserv|done]).
  destruct (active (r_dc s1) (r_mc s1) (r_q s1)) as [|a act] eqn:Ea.
  { io_ret. unfold polled, looped. cbn [fst snd]. splits; try done. by apply span_all_done. }
  apply iruns_bind. eapply iruns_weaken; [apply iruns_time, Hs|]. cbn beta. intros now w1 (HS1 & HH1 & Hr1 & Ht1).
  rewrite <- Ea. set (fds := map _ (active _ _ _)).
  apply iruns_bind. eapply iruns_weaken; [by apply iruns_poll|]. cbn beta. intros r w2 (HS2 & HH2 & Hr2 & Ht2 & Hev).
  assert (Hs2 : sound s1 w2) by (destruct Hs1 as (_ & Hall & Hns & Hsv & Hrv); unfold sound; rewrite HS2, HH2, HS1, HH1; by splits).
  destruct r as [e|ev].
  { io_ret. unfold polled, looped. cbn [fst snd]. splits; try done; lia. }
  destruct (Hev ev eq_refl) as [Hlen Hquiet]. clear Hev.
  assert (Hstop : forall o s' w', o <> Next -> looped s1 w2 o s' w' -> span s' -> iruns (mret (o, s')) w' (polled s w)).
  { intros o s' w' Ho Hl Hsp'. io_ret. unfold polled. cbn [fst snd]. splits; try done. eapply looped_trans; [exact Hs2|done|lia|done]. }
  assert (Hnext : forall s' w', looped s1 w2 Next s' w' -> span s' -> r_mc s' = r_mc s1 -> iruns (mret (Next, s')) w' (polled s w)).
  { intros s' w' Hl Hsp' Hmc. io_ret. unfold polled. cbn [fst snd]. splits; try done. eapply looped_trans; [exact Hs2|done|lia|done]. }
  assert (Hgo : forall s' w', looped s1 w2 Next s' w' -> span s' -> r_mc s' = r_mc s1 -> T - ticks w' + tcp_udp (r_q s') < fu -> iruns (polling fu j ts0 ts s') w' (polled s w)).
  { intros s' w' (H1 & H2 & H3 & H4 & H5) Hsp' Hmc Hfu. change (r_mc s1) with (r_mc s) in Hmc. change (r_q s1) with (r_q s) in H4.
    eapply iruns_weaken; [apply IH; [done|done|done|lia|done]|]. cbn beta. intros x w4 (Hl & Hsp4 & Hmc4). unfold polled. splits; try done; [|intros E; by rewrite Hmc4].
    eapply looped_trans; [exact H1|done|lia|done]. }
  destruct (length (filter _ ev) =? 0) eqn:En; boolp.
  - apply iruns_bind. eapply iruns_weaken; [apply (iruns_timeout_loop _ _ _ s1 w2 Hs2 Hserv1); [|done]; change (r_mc s1) with (r_mc s); lia|]. cbn beta.
    intros [[o again] s3] w3 (Hl3 & Hsp3 & Hmc3 & Hdc3 & Htu). cbn [fst snd] in *. pose proof Hl3 as (Hs3 & Hsv3 & Hne3 & Hlen3 & Ht3).
    destruct o; try done; [|by apply Hstop|by apply Hstop]. apply iruns_bind.
    eapply (iruns_weaken _ _ (fun b w' => looped s1 w2 Next s3 w' /\ (b = true -> 0 < again))).
    + destruct (_ && negb (again =? 0)) eqn:Eb; [|by io_ret]. apply andb_true_iff in Eb as [_ Eb]. apply negb_true_iff, Nat.eqb_neq in Eb. apply iruns_bind. eapply iruns_weaken; [by apply iruns_time, Hs3|].
      cbn beta. intros now3 w4 (HS4 & HH4 & Hr4 & Ht4). io_ret. split; [|lia]. destruct Hs3 as (_ & ? & ? & ? & ?). unfold looped, sound. rewrite HS4, HH4. splits; try done. lia.
    + cbn beta. intros [] w4 [Hl4 Hag]; [|by apply Hnext]. apply Hgo; try done. specialize (Hag eq_refl). destruct Hl4 as (_ & _ & _ & _ & Ht4).
      change (r_q s1) with (r_q s) in Htu. lia.
  - assert (Hlt : ticks w1 < T).
    { destruct (decide (T <= ticks w1)) as [Hle|]; [|lia]. exfalso. apply En. by rewrite (Hquiet T HT Hle). }
    apply iruns_bind. eapply iruns_weaken; [apply (iruns_event_loop _ _ _ _ s1 w2 Hs2 Hserv1)|].
    + destruct Hsp1 as ([? _] & _). lia.
    + done.
    + done.
    + unfold fds, fds_of. rewrite map_map. cbn [fst].
      assert (Hz : forall (l : list (option positive)) (m : list Z), length m = length l -> map fst (zip l m) = l).
      { induction l as [|x l IHl]; intros [|y m] E; try done. cbn. f_equal. apply IHl. by injection E. }
      apply Hz. rewrite Hlen. unfold fds. by rewrite !length_map.
    + cbn beta. intros [[o nev] s3] w3 (Hl3 & Hsp3 & Hmc3 & Htu). cbn [fst snd] in *. pose proof Hl3 as (Hs3 & Hsv3 & Hne3 & Hlen3 & Ht3).
      destruct o; try done; [|by apply Hstop|by apply Hstop]. destruct (0 <? nev)%Z.
      { apply Hstop; [done| |done]. destruct Hs3 as (? & ? & ? & ? & _). unfold looped, sound. splits; try done. left. cbn. unfold RC_SERVFAIL. lia. }
      destruct (_ <? _); [|by apply Hnext]. apply Hgo; try done. change (r_q s1) with (r_q s) in Htu. lia.
Qed.

Context (polls_max : nat) (Hpolls : T < polls_max) (Hpar : 0 < g_par_queries rc).

Abbreviation rounds := (round_loop global pol K rf conf rc is_local_addr polls_max lower name thint qslist qhlist).

(** All servers of the rounds before [j] are below [mc]. *)
Lemma iruns_round_loop fuel : forall j ts0 s w, sound s w -> calm s -> span s -> (j < length (r_q s) -> r_mc s = j) -> length (r_q s) - j <= fuel ->
  iruns (rounds fuel j ts0 s) w (fun x w' => looped s w x.1 x.2 w' /\ span x.2).
Proof.
  induction fuel as [|fu IH]; intros j ts0 s w Hs Hcalm Hsp Hmc Hf; cbn [round_loop]; destruct (j <? length (r_q s)) eqn:Ej; boolp; try lia;
    try (io_ret; unfold looped; cbn [fst snd]; by splits).
  specialize (Hmc Ej). cbv zeta. set (m := Nat.min (j + g_par_queries rc) (length (r_q s))). set (s1 := set_mc m s). destruct Hsp as ([Hdm Hml] & Hb & Hfr).
  apply iruns_bind. eapply iruns_weaken; [apply (iruns_start_loop (r_mc s1 - r_dc s1) (r_dc s1) j s1 w)|].
  - exact Hs.
  - exact Hcalm.
  - cbn. lia.
  - cbn. lia.
  - done.
  - exact Hb.
  - cbn. replace (max (r_dc s) j) with (r_mc s) by lia. exact Hfr.
  - cbn. lia.
  - cbn beta. intros [o s2] w2 (Hl2 & Hsp2 & Hmc2). cbn [fst snd] in *. pose proof Hl2 as (Hs2 & Hsv2 & Hne2 & Hlen2 & Ht2).
    assert (Hstop : iruns (mret (o, s2)) w2 (fun x w' => looped s w x.1 x.2 w' /\ span x.2)) by (io_ret; by split). destruct o; try done. clear Hstop. specialize (Hmc2 eq_refl).
    apply iruns_bind. eapply (iruns_weaken _ _ (polled s2 w2)).
    + destruct (_ <? _); [|io_ret; unfold polled, looped; cbn [fst snd]; by splits]. apply iruns_bind. eapply iruns_weaken; [apply iruns_time, Hs2|].
      cbn beta. intros ts w3 (HS3 & HH3 & Hr3 & Ht3). destruct Hs2 as (_ & ? & ? & ? & ?).
      assert (Hs3 : sound s2 w3) by (unfold sound; rewrite HS3, HH3; by splits).
      eapply iruns_weaken; [apply (iruns_poll_loop _ j ts0 ts s2 w3 Hs3 Hsv2 Hsp2); [rewrite Hmc2; cbn; lia|pose proof (tcp_udp_le (r_q s2)); lia]|].
      cbn beta. intros x w4 (Hl & Hsp4 & Hmc4). unfold polled. splits; try done. eapply looped_trans; [exact Hs3|done|lia|done].
    + cbn beta. intros [o s3] w3 (Hl3 & Hsp3 & Hmc3). cbn [fst snd] in *. pose proof Hl3 as (Hs3 & Hsv3 & Hne3 & Hlen3 & Ht3).
      assert (Hl : looped s w o s3 w3) by (by eapply looped_trans; [exact Hs2| | |]).
      assert (Hstop : iruns (mret (o, s3)) w3 (fun x w' => looped s w x.1 x.2 w' /\ span x.2)) by (io_ret; by split). destruct o; try done. clear Hstop. specialize (Hmc3 eq_refl).
      change (r_q s1) with (r_q s) in Hlen2. change (r_mc s1) with m in Hmc2. destruct Hl as (_ & _ & _ & Hl4 & Ht4).
      eapply iruns_weaken; [apply (IH (j + g_par_queries rc) ts0 s3 w3 Hs3 Hsv3 Hsp3)|].
      * rewrite Hl4. intros Hlt. lia.
      * lia.
      * cbn beta. intros x w4 (Hl & Hsp4). split; [|done]. eapply looped_trans; [exact Hs3|done|lia|done].
Qed.

Lemma iruns_cancel_loop n : forall i q w, all_hold q (socks w) (heap w) -> ready (w_cache w) -> i + n <= length q -> idle_below i q -> idle_from (i + n) q ->
  iruns (cancel_loop n i q) w (fun q' w' => all_hold q' (socks w') (heap w') /\ ready (w_cache w') /\ ticks w <= ticks w' /\ length q' = length q /\ Forall idle q').
Proof.
  induction n as [|n IH]; intros i q w Hall Hr Hn Hb Hfr; cbn [cancel_loop].
  - io_ret. splits; try done. apply Forall_lookup. intros k st Hk. rewrite Nat.add_0_r in Hfr. destruct (decide (k < i)); [by apply (Hb k)|apply (Hfr k); [lia|done]].
  - destruct (lookup_lt_is_Some_2 q i ltac:(lia)) as [st Hi]. io_lift; [exact Hi|].
    apply iruns_bind. eapply iruns_weaken; [by apply (iruns_cancel_at conf N thint G F q i st w)|]. cbn beta. intros st' w1 (Hall1 & Hr1 & Ht1 & Hid & _).
    eapply iruns_weaken; [apply (IH (S i)); [done|done|by rewrite length_insert; lia| |]|].
    + intros k x Hk Hx. destruct (decide (k = i)) as [->|]; [rewrite list_lookup_insert_eq in Hx by lia; by injection Hx as <-|rewrite list_lookup_insert_ne in Hx by lia; apply (Hb k); [lia|done]].
    + replace (S i + n) with (i + S n) by lia. apply idle_from_insert; [lia|done].
    + cbn beta. intros q' w2 (? & ? & ? & Hlen & ?). rewrite length_insert in Hlen. splits; try done. lia.
Qed.

Lemma still_test_loop q : still (fun _ => True) (test_loop q).
Proof.
  induction q as [|st q IH]; cbn [test_loop]; [by apply still_ret|]. eapply (still_bind (fun _ => True)); [|intros; exact IH].
  destruct (_ <? _)%Z; [apply still_test|by apply still_ret].
Qed.

(** What is known after the queries: there is an answer that was saved, or one that was accepted,
    or none. *)
Definition ended (s : rquery) : Prop :=
  save_ok s /\ code_ok (r_rv s) /\ (r_save s = None -> r_rv s = RC_OK -> exists e i, r_ent s = Some e /\ good_cent e /\ to_ask (r_serv s) /\ r_qse s = Some i /\ i < length (r_q s)).

(** The rest of the queries is cancelled. *)
Lemma iruns_cancel_rest s w : all_hold (r_q s) (socks w) (heap w) -> ready (w_cache w) -> span s -> ended s ->
  iruns (q ← cancel_loop (r_mc s - r_dc s) (r_dc s) (r_q s); _ ← test_loop (take (r_mc s) q); mret (set_q q s)) w
    (fun s' w' => socks w' = G /\ heap w' = F /\ ready (w_cache w') /\ ticks w <= ticks w' /\ ended s').
Proof.
  intros Hall Hr ([Hdm Hml] & Hb & Hfr) Hend.
  apply iruns_bind. eapply iruns_weaken; [apply (iruns_cancel_loop _ (r_dc s) (r_q s) w Hall Hr); [lia|done|by replace (r_dc s + (r_mc s - r_dc s)) with (r_mc s) by lia]|].
  cbn beta. intros q w2 (Hall2 & Hr2 & Ht2 & Hlen & Hid). destruct (together_idle conf (Some N) thint G F q _ _ Hall2 Hid) as [HS2 HH2].
  apply iruns_bind. eapply iruns_weaken; [by apply still_test_loop|]. cbn beta. intros _ w3 (HS3 & HH3 & Hr3 & Ht3 & _). io_ret. splits; [congruence|congruence|done|lia|].
  unfold ended, save_ok in *. cbn. rewrite Hlen. exact Hend.
Qed.

Lemma iruns_end_queries o s w : sound s w -> served o s -> o <> Retry -> span s ->
  iruns (end_queries o s) w (fun s' w' => socks w' = G /\ heap w' = F /\ ready (w_cache w') /\ ticks w <= ticks w' /\ ended s').
Proof.
  intros (Hr & Hall & Hns & Hsave & Hcode) Hsv Hne Hsp. unfold end_queries.
  assert (Hfree : still (fun _ => True) (free_ent (match r_save s with Some (e, _, _) => Some e | None => None end))).
  { apply still_free. intros e. destruct (r_save s) as [[[e' v] n]|] eqn:E; [|done]. intros [= ->]. by apply (Hsave e v n). }
  assert (Hrest : forall s' w', still (fun _ => True) (free_ent (match r_save s with Some (e, _, _) => Some e | None => None end)) -> ready (w_cache w') ->
    socks w' = socks w -> heap w' = heap w -> ticks w <= ticks w' -> span s' -> r_q s' = r_q s -> r_save s' = r_save s -> ended (set_save None s') ->
    iruns (s0 ← (_ ← free_ent (match r_save s' with Some (e, _, _) => Some e | None => None end); mret (set_save None s'));
           q ← cancel_loop (r_mc s0 - r_dc s0) (r_dc s0) (r_q s0); _ ← test_loop (take (r_mc s0) q); mret (set_q q s0)) w'
      (fun s' w' => socks w' = G /\ heap w' = F /\ ready (w_cache w') /\ ticks w <= ticks w' /\ ended s')).
  { intros s' w' Hf Hr' HS HH Ht Hsp' Eq Es Hend. rewrite Es. apply iruns_bind. apply iruns_bind. eapply iruns_weaken; [by apply Hf|]. cbn beta. intros _ w1 (HS1 & HH1 & Hr1 & Ht1 & _). io_ret.
    eapply iruns_weaken; [apply (iruns_cancel_rest (set_save None s') w1); [|done|exact Hsp'|exact Hend]|cbn beta; intros s2 w2 (? & ? & ? & ? & ?); splits; try done; lia].
    cbn. by rewrite Eq, HS1, HH1, HS, HH. }
  destruct o; try done; cbn in Hsv.
  - apply iruns_bind. io_ret. apply iruns_bind. io_ret. apply iruns_cancel_rest; try done. split; [done|]. split; [done|]. intros E1 E2. destruct (proj2 Hsv E2) as [? E]. by rewrite E in E1.
  - apply iruns_bind. io_ret. apply Hrest; try done.
  - destruct Hsv as (e & E & He). apply iruns_bind. apply iruns_bind. eapply iruns_weaken; [apply still_free; [rewrite E; by intros ? [= <-]|done]|].
    cbn beta. intros _ w1 (HS1 & HH1 & Hr1 & Ht1 & _). io_ret. apply Hrest; try done. unfold ended, save_ok. cbn. splits; try done. by right.
Qed.

(** The servers that are authoritative are asked. *)
Lemma still_ask_authority q st ent serv c_soa : good_cent ent -> to_ask serv -> serv <> [] ->
  still resolved_ok (ask_authority K lower name thint qslist qhlist q st ent serv c_soa).
Proof.
  intros He [Hnew Hlo] Hs. destruct (Hlo Hs) as [low El]. unfold ask_authority. cbv zeta.
  eapply (still_bind (fun x => forall e, x = Some e -> good_cent e)).
  { destruct (_ || _); [apply still_ret; by intros e [= <-]|]. eapply still_bind; [by apply still_cache, orderly_free|]. intros _ _. by apply still_ret. }
  intros entsave Hsave. eapply still_lift; [exact El|]. eapply still_bind; [apply still_time|]. intros now _.
  eapply still_bind; [eapply (Hlow low El); [exact HN|done|by intros l [= <-]|done]|]. intros [[rv o] v] Hres.
  assert (Hfree : forall (r : resolved), resolved_ok r -> still resolved_ok (_ ← free_ent entsave; mret r)).
  { intros r Hr. eapply still_bind; [by apply still_free|]. intros _ _. by apply still_ret. }
  destruct (_ || _) eqn:E1.
  { assert (Hh : has_entry rv = true).
    { unfold has_entry. destruct (rv =? RC_OK)%Z; [done|]. destruct (rv =? RC_CACHED)%Z; [done|]. cbn in E1 |- *. by apply andb_true_iff in E1 as [-> _]. }
    destruct (Hres o Hh eq_refl) as (e & -> & Hge). eapply still_lift; [done|]. apply Hfree. intros x _ <-. cbn [fst snd]. eexists. split; [done|]. by apply good_refs. }
  destruct (rv =? RC_NAMEERR)%Z eqn:E2; [apply Z.eqb_eq in E2; apply Hfree; intros x Hh; by subst rv|].
  destruct entsave as [e|]; [|apply still_ret; intros x Hh; cbn [fst snd] in Hh; unfold has_entry in Hh; cbn [is_set negb] in E1; rewrite andb_true_r in E1; congruence].
  eapply (still_bind (fun _ => True)).
  { destruct (rv =? RC_STALE)%Z eqn:E3; boolp; [|by apply still_ret]. destruct (Hres o ltac:(by subst rv) eq_refl) as (e' & -> & Hge). eapply still_lift; [done|]. by apply still_cache, orderly_free. }
  intros _ _. apply still_ret. intros x _ <-. cbn [fst snd]. exists e. split; [done|]. by apply Hsave.
Qed.

Abbreviation recursive := (p_recursive_query global pol K rf conf rc is_local_addr polls_max lower name thint qslist qhlist).

Lemma iruns_p_recursive_query q c_soa w : Forall new_q q -> ready (w_cache w) -> socks w = G -> heap w = F ->
  iruns (recursive q c_soa) w (fun x w' => socks w' = G /\ heap w' = F /\ ready (w_cache w') /\ ticks w <= ticks w' /\ resolved_ok x.1).
Proof.
  intros Hq Hr HS HH. unfold p_recursive_query. apply iruns_bind. eapply iruns_weaken; [by apply iruns_time|]. cbn beta. intros ts0 w1 (HS1 & HH1 & Hr1 & Ht1).
  set (s0 := Build_rquery _ _ _ _ _ _ _ _ _ _ _). assert (Hs0 : sound s0 w1).
  { unfold sound. cbn. rewrite HS1, HH1, HS, HH. splits; [done|by apply together_new|apply ns_pairs_nil|done|left; unfold RC_SERVFAIL; lia]. }
  apply iruns_bind. eapply iruns_weaken; [apply (iruns_round_loop _ 0 ts0 s0 w1 Hs0); [done| |done|cbn; lia]|].
  { unfold span. cbn. splits; try lia; [intros k st Hk; lia|]. intros k st _ Hk. apply idle_new. cbn in Hk. apply (proj1 (Forall_lookup _ _) Hq k st Hk). }
  cbn beta. intros [o s1] w2 ((Hs1 & Hsv & Hne & Hlen & Ht2) & Hsp). cbn [fst snd] in *.
  apply iruns_bind. eapply iruns_weaken; [by apply iruns_end_queries|]. cbn beta. intros s2 w3 (HS3 & HH3 & Hr3 & Ht3 & Hsave & Hcode & Hacc).
  enough (H : still (fun x => resolved_ok x.1) (r ← match r_save s2 with
      | Some (e, serv, ns) => e ← liftIO (if (r_qual s2 <? GOODQUAL)%Z then mark_nocache e else Some e); mret (inr (e, serv))
      | None => if (r_rv s2 =? RC_OK)%Z then e ← liftIO (r_ent s2); mret (inr (e, r_serv s2)) else mret (inl (if (r_rv s2 =? RC_FATALERR)%Z then RC_SERVFAIL else r_rv s2))
      end;
    match r with
    | inl rv => mret ((rv, None, r_c_soa s2), false)
    | inr (ent, serv) =>
        i ← liftIO (r_qse s2);
        qse ← liftIO (r_q s2 !! i);
        match serv with
        | [] => mret ((RC_OK, Some ent, r_c_soa s2), qs_nocache (q_stat qse))
        | _ => r ← ask_authority K lower name thint qslist qhlist (r_q s2) (q_stat qse) ent serv (r_c_soa s2); mret (r, qs_nocache (q_stat qse))
        end
    end)).
  { eapply iruns_weaken; [by apply H|]. cbn beta. intros x w4 (? & ? & ? & ? & ?). splits; try done; try congruence. lia. }
  eapply (still_bind (fun r => match r with
    | inl rv => has_entry rv = false
    | inr (e, serv) => good_cent e /\ to_ask serv /\ exists i, r_qse s2 = Some i /\ i < length (r_q s2) end)).
  - destruct (r_save s2) as [[[e serv] ns]|] eqn:Es.
    + destruct (Hsave e serv ns Es) as (He & Hask & Hi). assert (Hm : exists e', (if (r_qual s2 <? GOODQUAL)%Z then mark_nocache e else Some e) = Some e' /\ good_cent e').
      { destruct (_ <? _)%Z; [|by exists e]. destruct (mark_nocache_spec e He) as (e' & -> & ? & _). by exists e'. }
      destruct Hm as (e' & Em & He'). eapply still_lift; [exact Em|]. apply still_ret. by splits.
    + destruct (r_rv s2 =? RC_OK)%Z eqn:Erv; boolp.
      * destruct (Hacc eq_refl Erv) as (e & i & Ee & He & Hask & Hi). eapply still_lift; [exact Ee|]. apply still_ret. splits; try done. by exists i.
      * apply still_ret. destruct (r_rv s2 =? RC_FATALERR)%Z eqn:Ef; boolp; [done|]. unfold has_entry. unfold code_ok, RC_OK, RC_CACHED, RC_STALE, RC_FATALERR in *.
        by rewrite !(proj2 (Z.eqb_neq _ _)) by lia.
  - intros [rv|[e serv]] Hx; [apply still_ret; intros x Hh; cbn in Hh; congruence|]. destruct Hx as (He & Hask & i & Ei & Hi).
    eapply still_lift; [exact Ei|]. destruct (lookup_lt_is_Some_2 _ _ Hi) as [qse Eq]. eapply still_lift; [exact Eq|].
    destruct serv as [|a serv]; [apply still_ret; intros x _ <-; by exists e|]. eapply still_bind; [by apply still_ask_authority|]. intros x Hx. by apply still_ret.
Qed.
End Loops.
