(* ===== verification/RecursePick.v ===== *)
(** The recursion over name servers: which servers of the configuration [p_dns_resolve] asks. *)
From S2P Require Import Prelude Names DnsName Compress RrTypes HashTab RrList Cent CentSpec Cache CacheInv CachePurge CacheAdd CacheOps CacheThms.
From S2P Require Import Answer AnswerRr AnswerSet Query QueryDecode QuerySafe Reply ReplyData ReplySpec Exec ExecStages ExecSpec.
From S2P Require Import Net NetSpec QuerySm SmSpec QueryExec QueryRun QueryLoop QueryStep Forward Parallel Resolve ResolveSpec Recurse RecurseSpec Keeps.

(** ** What a server contributes *)

(** The list of addresses to reject that belongs to a server. *)
Definition reject_list (sp : servparm) : rejectlist :=
  {| rl_policy := sp_rejectpolicy sp; rl_inherit := sp_rejectrecursively sp; rl_a4 := default [] (sp_reject_a4 sp); rl_a6 := default [] (sp_reject_a6 sp) |}.
Definition reject_for (sp : servparm) (cond : bool) : option rejectlist := if serv_has_rejectlist sp && cond then Some (reject_list sp) else None.

Section Pick.
Context {P : Platform} (K : kernel) (rc : resolve_conf) (name : list Z) (N : list (list Z)) (HN : wire_name name N).

(** Whether a server may be asked for the name. *)
Definition asked (sp : servparm) : bool := (sp_rootserver sp <=? 1)%Z && default false (use_server sp name).

(** One query for each address that is up, and one for each server of a domain that was found in the cache. *)
Definition direct_queries (sp : servparm) (l : list atup) : list query :=
  map (fun x => conf_query rc sp (at_a x) (reject_for sp true)) (filter (fun x => at_is_up x = true) l).
Definition domain_queries (sp : servparm) (d : list Z) (adrs : list (list Z)) : list query :=
  map (fun a => top_query rc sp d a (reject_for sp (sp_rejectrecursively sp))) adrs.

Definition any_up (l : list atup) : bool := existsb at_is_up l.
Definition root_up (sp : servparm) : bool := asked sp && negb (sp_rootserver sp =? 0)%Z && any_up (sp_atup_a sp).

(** The queries for a root server, when [o] was found in the cache; [seen] tells whether there was another root server before
    it, since servers of a domain are asked only once. *)
Definition root_queries (o : option (list Z * list (list Z))) (seen : bool) (sp : servparm) (l : list atup) : list query :=
  match o with
  | Some (d, adrs) => if seen || negb (any_up l) then [] else domain_queries sp d adrs
  | None => direct_queries sp l
  end.

(** The queries for a server. *)
Definition contribution (o : option (list Z * list (list Z))) (seen : bool) (sp : servparm) : list query :=
  if asked sp then
    if (sp_rootserver sp =? 0)%Z then direct_queries sp (sp_atup_a sp) else root_queries o seen sp (sp_atup_a sp)
  else [].

(** The queries for each server of a list. *)
Fixpoint contributions (o : option (list Z * list (list Z))) (seen : bool) (l : list servparm) : list (list query) :=
  match l with
  | [] => []
  | sp :: l' => contribution o seen sp :: contributions o (seen || root_up sp) l'
  end.

(** The servers of a domain of the name that [cached_ns] finds in the cache [C]. *)
Definition looked_up (C : cache) (o : option (list Z * list (list Z))) : Prop :=
  exists now m c1 c2, mem_step C c1 /\ top_labels name (length N) = Some m /\ cached_ns now name (length N) m c1 = Some (o, c2).

(** ** Memory *)

Lemma keeps_grow {A} (l : list A) : keeps (da_grow1 l).
Proof. unfold da_grow1. keeps. Qed.
#[local] Hint Resolve keeps_grow : keeps.
Lemma keeps_grow_addrs l n : forall res, keeps (grow_addrs l n res).
Proof. induction l; intros; cbn [grow_addrs]; keeps. Qed.
Lemma keeps_ns_addrs now nm : keeps (ns_addrs now nm).
Proof. unfold ns_addrs. keeps. Qed.
#[local] Hint Resolve keeps_grow_addrs keeps_ns_addrs : keeps.
Lemma keeps_ns_loop now l : forall res, keeps (ns_loop now l res).
Proof. induction l; intros; cbn [ns_loop]; keeps. Qed.
#[local] Hint Resolve keeps_ns_loop : keeps.
Lemma keeps_lookup_ns now d : keeps (lookup_ns now d).
Proof. unfold lookup_ns. keeps. Qed.
#[local] Hint Resolve keeps_lookup_ns : keeps.
Lemma keeps_cached_ns now nm n m : keeps (cached_ns now nm n m).
Proof. induction m; cbn [cached_ns]; keeps. Qed.

Lemma suffix_plenty c c' : mem c' `suffix_of` mem c -> plenty c -> plenty c'.
Proof. intros [l E]. unfold plenty. rewrite E. by intros [_ ?]%Forall_app. Qed.

(** ** The steps *)

Section Here.
Context (S : gmap positive conn) (L : list conn) (H : gmap positive (list Z)).
#[local] Notation at_ C w := (here C S L H w).

Lemma iruns_rotate {A} C b (l : list A) w : at_ C w -> iruns (rotate_random K b l) w (fun l' w' => l' ≡ₚ l /\ at_ C w').
Proof.
  intros Hw. unfold rotate_random. destruct b; [|by io_ret]. unfold random. apply iruns_bind. io_with iruns_tick; [done|]. intros t w1 (_ & _ & Hw1). io_ret. cbv zeta. io_ret.
  split; [|done]. rewrite (Permutation_app_comm (drop _ _)). by rewrite take_drop.
Qed.

Lemma iruns_clock C w : at_ C w -> iruns (time K) w (fun _ w' => at_ C w').
Proof. intros Hw. unfold time. io_with iruns_tick; [done|]. intros t w1 (_ & _ & Hw1). by io_ret. Qed.

(** The state of the loops over the addresses of [sp]. *)
Definition picks (sp : servparm) (s : picked) : Prop := pk_rjl s = None \/ pk_rjl s = reject_for sp true.

Lemma iruns_rejectlist C sp cond s w : at_ C w -> iruns (with_rejectlist sp cond s) w (fun r w' => at_ C w' /\ (plenty C -> is_Some r) /\
    forall s', r = Some s' -> pk_serv s' = pk_serv s /\ pk_one_up s' = pk_one_up s /\ pk_seen s' = pk_seen s /\
      pk_rjl s' = if is_set (pk_rjl s) then pk_rjl s else reject_for sp cond).
Proof.
  intros Hw. unfold with_rejectlist, reject_for. destruct (serv_has_rejectlist sp && cond && negb (is_set (pk_rjl s))) eqn:E.
  - apply andb_true_iff in E as [-> E]. apply iruns_bind, iruns_cache. unfold add_rejectlist. apply runs_bind. eapply runs_weaken; [apply runs_alloc|]. cbn beta. intros ok c [Hm Hp]. apply runs_ret.
    assert (Hh : at_ C (set_w_cache c w)).
    { destruct Hw as (Hs & ? & ? & ?). split; [|done]. cbn. eapply mem_step_trans; [exact Hs|]. split; [done|]. intros Hpl. by apply Hp. }
    io_ret. split; [done|]. split; [intros Hpl; apply Hw in Hpl; destruct (Hp Hpl) as [-> _]; by eexists|].
    intros s'. destruct ok; [|done]. intros [= <-]. cbn. splits; try done. by destruct (is_set (pk_rjl s)).
  - io_ret. split; [done|]. split; [by eexists|]. intros s' [= <-]. splits; try done. destruct (pk_rjl s) as [rl|] eqn:Er; [done|]. cbn in *. rewrite andb_true_r in E. by rewrite E.
Qed.

Lemma iruns_pick C st s w : at_ C w -> iruns (pick st s) w (fun r w' => at_ C w' /\ (plenty C -> is_Some r) /\
    forall s', r = Some s' -> pk_serv s' = pk_serv s ++ [st] /\ pk_one_up s' = true /\ pk_seen s' = pk_seen s /\ pk_rjl s' = pk_rjl s).
Proof.
  intros Hw. unfold pick. apply iruns_bind, iruns_cache. unfold add_qserv, da_grow1.
  apply runs_bind, (runs_weaken _ _ (fun b c' => mem_only (w_cache w) c' /\ (plenty (w_cache w) -> b = true /\ plenty c'))).
  { destruct (_ =? 0); [apply runs_alloc|]. apply runs_ret. split; [auto with pdnsd|done]. }
  cbn beta. intros ok c [Hm Hp]. apply runs_ret. assert (Hh : at_ C (set_w_cache c w)).
  { destruct Hw as (Hs & ? & ? & ?). split; [|done]. cbn. eapply mem_step_trans; [exact Hs|]. split; [done|]. intros Hpl. by apply Hp. }
  io_ret. split; [done|]. split; [intros Hpl; apply Hw in Hpl; destruct (Hp Hpl) as [-> _]; by eexists|]. intros s'. destruct ok; [|done]. by intros [= <-].
Qed.

Lemma iruns_pick_all C l mk : forall s w, at_ C w -> iruns (pick_all l mk s) w (fun r w' => at_ C w' /\ (plenty C -> is_Some r) /\
    forall s', r = Some s' -> pk_serv s' = pk_serv s ++ map mk l /\ pk_one_up s' = (pk_one_up s || negb (length l =? 0)) /\ pk_seen s' = pk_seen s /\ pk_rjl s' = pk_rjl s).
Proof.
  induction l as [|a l IH]; intros s w Hw; cbn [pick_all].
  - io_ret. split; [done|]. split; [by eexists|]. intros s' [= <-]. rewrite app_nil_r, orb_false_r. by splits.
  - io_with iruns_pick; [done|]. intros [s1|] w1 (Hw1 & Hp1 & H1); [|io_ret; splits; try done; intros Hpl; destruct (Hp1 Hpl); done].
    destruct (H1 s1 eq_refl) as (E1 & E2 & E3 & E4). eapply iruns_weaken; [by apply IH|]. cbn beta. intros r w2 (Hw2 & Hp2 & Hr). splits; try done.
    intros s' Es. destruct (Hr s' Es) as (-> & -> & -> & ->). rewrite E1, E2, <- app_assoc. splits; try done. by rewrite orb_true_r.
Qed.

(** ** The servers of a domain *)

Lemma top_labels_total : exists m, top_labels name (length N) = Some m.
Proof.
  unfold top_labels. destruct (2 <=? length N); [|by eexists].
  assert (Ha : wire_name rhn_arpa [[97; 114; 112; 97]]%Z).
  { split; [|by exists []]. split; [repeat constructor; try lia; done|vm_compute; lia]. }
  destruct (domain_rem _ _ _ _ Ha HN) as (k & os & od & -> & _). by eexists.
Qed.

(** What is found: addresses, at least one, of servers for a domain that the name is in. *)
Definition servers_for (o : option (list Z * list (list Z))) : Prop :=
  forall d l, o = Some (d, l) -> l <> [] /\ Forall is_addr l /\ exists D, D `suffix_of` N /\ wire_name d D.

Lemma orderly_cached_ns now n mseg : orderly servers_for (cached_ns now name n mseg).
Proof.
  induction mseg as [|m IH]; cbn [cached_ns]; [by apply orderly_ret|]. destruct HN as (Hw & r & Er). eapply orderly_lift; [rewrite Er; apply skipsegs_enc, Hw|].
  set (k := n - Datatypes.S m). assert (Hd : wire_name (enc_name (drop k N) ++ r) (drop k N)) by (split; [by apply wf_name_skip|by exists r]).
  eapply orderly_bind; [by eapply orderly_lookup_ns|]. intros [|a l] Hl; [exact IH|]. apply orderly_ret. intros d l' [= <- <-]. splits; try done. exists (drop k N). split; [|done].
  exists (take k N). by rewrite take_drop.
Qed.

(** The state after the search in the cache [C]. *)
Definition searched (C : cache) (o : option (list Z * list (list Z))) (C2 : cache) : Prop :=
  looked_up C o /\ servers_for o /\ ready C2 /\ (plenty C -> plenty C2).

Lemma iruns_cached_ns C now m w : ready C -> at_ C w -> top_labels name (length N) = Some m ->
  iruns (cacheIO (cached_ns now name (length N) m)) w (fun o w' => exists C2, searched C o C2 /\ at_ C2 w').
Proof.
  intros HC (Hm & HS & HL & HH) Em. apply iruns_cache. assert (Hr : ready (w_cache w)) by (by eapply ready_mem; [apply Hm|]).
  destruct (orderly_cached_ns now (length N) m _ Hr) as (o & c & E & Hc & Ho). exists o, c. split; [done|]. exists c. split; [|split; [split; auto with pdnsd|by splits]].
  split; [by exists now, m, (w_cache w), c|]. splits; try done. intros Hp. eapply suffix_plenty; [apply (keeps_cached_ns _ _ _ _ _ _ _ E)|]. by apply Hm.
Qed.

(** ** The addresses of a server *)

(** What has been added to the array of servers. *)
Definition adds (s s' : picked) (ch : list query) : Prop := pk_serv s' = pk_serv s ++ ch /\ pk_one_up s' = (pk_one_up s || negb (length ch =? 0)).

Lemma adds_none s s' : pk_serv s' = pk_serv s -> pk_one_up s' = pk_one_up s -> adds s s' [].
Proof. unfold adds. intros -> ->. by rewrite app_nil_r, orb_false_r. Qed.

Lemma adds_trans s s1 s2 a b : adds s s1 a -> adds s1 s2 b -> adds s s2 (a ++ b).
Proof.
  intros [E1 E2] [E3 E4]. unfold adds. rewrite E3, E1, E4, E2, length_app, <- app_assoc. split; [done|]. rewrite <- orb_assoc. f_equal.
  by destruct (length a), (length b).
Qed.

Lemma direct_none sp l : any_up l = false -> direct_queries sp l = [].
Proof.
  unfold direct_queries, any_up. induction l as [|x l IH]; [done|]. cbn [existsb]. intros [Ex El]%orb_false_iff. rewrite filter_cons, Ex, decide_False by done. by apply IH.
Qed.

Lemma direct_cons sp x l : at_is_up x = true -> direct_queries sp (x :: l) = conf_query rc sp (at_a x) (reject_for sp true) :: direct_queries sp l.
Proof. intros E. unfold direct_queries. by rewrite filter_cons, decide_True. Qed.
Lemma direct_skip sp x l : at_is_up x = false -> direct_queries sp (x :: l) = direct_queries sp l.
Proof. intros E. unfold direct_queries. rewrite filter_cons, decide_False; [done|]. by rewrite E. Qed.

Lemma direct_perm sp l l' : l ≡ₚ l' -> direct_queries sp l ≡ₚ direct_queries sp l'.
Proof. intros E. unfold direct_queries. by rewrite E. Qed.
Lemma any_up_perm l l' : l ≡ₚ l' -> any_up l = any_up l'.
Proof. unfold any_up. induction 1 as [|x l l' _ IH|x y l|l l1 l2 _ IH1 _ IH2]; cbn; [done|by rewrite IH|by destruct (at_is_up x), (at_is_up y)|by rewrite IH1]. Qed.

(** The end of a pass of the loop over the addresses: the query is added, and the loop goes on. *)
Lemma iruns_next C sp x l s w (Q : option picked -> world -> Prop) : at_ C w -> picks sp s ->
  (forall w', at_ C w' -> ~ plenty C -> Q None w') ->
  (forall s' w', at_ C w' -> adds s s' [conf_query rc sp (at_a x) (reject_for sp true)] -> pk_seen s' = pk_seen s -> picks sp s' -> iruns (pick_addrs K rc name sp l s') w' Q) ->
  iruns (r ← with_rejectlist sp true s;
         match r with
         | None => mret None
         | Some s => r ← pick (conf_query rc sp (at_a x) (pk_rjl s)) s; match r with Some s => pick_addrs K rc name sp l s | None => mret None end
         end) w Q.
Proof.
  intros Hw Hp Hnone Hnext. io_with iruns_rejectlist; [done|]. intros [s1|] w1 (Hw1 & Hp1 & H1).
  2:{ io_ret. apply Hnone; [done|]. intros Hpl. by destruct (Hp1 Hpl). }
  destruct (H1 s1 eq_refl) as (E1 & E2 & E3 & E4).
  assert (Erj : pk_rjl s1 = reject_for sp true) by (rewrite E4; destruct Hp as [->|E]; [done|rewrite E; by destruct (reject_for sp true)]).
  io_with iruns_pick; [done|]. intros [s2|] w2 (Hw2 & Hp2 & H2).
  2:{ io_ret. apply Hnone; [done|]. intros Hpl. by destruct (Hp2 Hpl). }
  destruct (H2 s2 eq_refl) as (F1 & F2 & F3 & F4). rewrite Erj in F1. apply Hnext; [done| |congruence|right; congruence].
  split; [by rewrite F1, E1|]. rewrite F2. by rewrite orb_true_r.
Qed.

(** No search in the cache is due. *)
Lemma iruns_pick_addrs C sp l : forall s w, at_ C w -> picks sp s -> (sp_rootserver sp = 0 \/ pk_seen s <> 0)%Z ->
  iruns (pick_addrs K rc name sp l s) w (fun r w' => at_ C w' /\ (r = None -> ~ plenty C) /\ forall s', r = Some s' -> pk_seen s' = pk_seen s /\
    adds s s' (if negb (sp_rootserver sp =? 0)%Z && (pk_seen s =? 2)%Z then [] else direct_queries sp l)).
Proof.
  induction l as [|x l IH]; intros s w Hw Hp Hs; cbn [pick_addrs].
  { io_ret. splits; try done. intros s' [= <-]. split; [done|]. rewrite (direct_none sp [] eq_refl). destruct (_ && _); by apply adds_none. }
  destruct (at_is_up x) eqn:Eup; [|rewrite direct_skip by done; by apply IH]. rewrite direct_cons by done.
  assert (Hgo : iruns (if (sp_rootserver sp =? 0)%Z then mret (Some (false, s)) else instead_of_root K rc name sp s) w
    (fun r w' => r = Some (negb (sp_rootserver sp =? 0)%Z && (pk_seen s =? 2)%Z, s) /\ w' = w)).
  { destruct (sp_rootserver sp =? 0)%Z eqn:E; boolp; [by io_ret|]. unfold instead_of_root. rewrite (proj2 (Z.eqb_neq _ _)) by tauto. by io_ret. }
  apply iruns_bind. eapply iruns_weaken; [exact Hgo|]. cbn beta. intros r w' (-> & ->). destruct (negb _ && _) eqn:E.
  { io_ret. splits; try done. intros s' [= <-]. split; [done|]. by apply adds_none. }
  apply (iruns_next C); [done..| |].
  { intros w' Hw' Hpl. by splits. }
  intros s1 w1 Hw1 Ha1 Es1 Hp1. eapply iruns_weaken; [apply IH; [done..|by rewrite Es1]|]. cbn beta. rewrite Es1, E. intros r w2 (Hw2 & Hn & Hr). splits; try done.
  intros s' Er. destruct (Hr s' Er) as [-> Ha]. split; [done|]. by apply (adds_trans s s1 s' [_] _).
Qed.

(** The flag after the search. *)
Definition seen_of (o : option (list Z * list (list Z))) : Z := if is_set o then 2%Z else 1%Z.

(** A search is due at the first address of a root server that is up. *)
Lemma iruns_pick_root C sp l : forall s w, ready C -> at_ C w -> pk_rjl s = None -> sp_rootserver sp <> 0%Z -> pk_seen s = 0%Z -> any_up l = true ->
  iruns (pick_addrs K rc name sp l s) w (fun r w' => exists o C2, searched C o C2 /\ at_ C2 w' /\ (r = None -> ~ plenty C) /\
    forall s', r = Some s' -> pk_seen s' = seen_of o /\ exists ch, adds s s' ch /\ root_queries o false sp l ≡ₚ ch).
Proof.
  induction l as [|x l IH]; intros s w HC Hw Hrj Hr Hs Hup; [done|]. cbn [pick_addrs]. unfold root_queries. cbn [any_up existsb] in *. fold (any_up l) in *.
  destruct (at_is_up x) eqn:Eup.
  2:{ rewrite direct_skip by done. by apply IH. }
  cbn [orb negb] in *. rewrite direct_cons by done. rewrite (proj2 (Z.eqb_neq _ _)) by done. unfold instead_of_root. rewrite Hs. cbn [Z.eqb].
  apply iruns_bind, iruns_bind. destruct HN as (Hwf & rest & Ename). eapply iruns_lift; [rewrite Ename; by apply rhnsegcnt_enc, wf_name_forall|].
  destruct top_labels_total as [m Em]. io_lift; [exact Em|]. io_with iruns_clock; [exact Hw|]. intros now w1 Hw1. io_with iruns_cached_ns; [done..|].
  intros o w2 (C2 & HC2 & Hw2). assert (Hpl : ~ plenty C2 -> ~ plenty C) by (intros Hn Hpc; by apply Hn, HC2). destruct o as [[d adrs]|].
  - destruct HC2 as (Hlk & Hsf & Hrd & Hpc). destruct (Hsf _ _ eq_refl) as (Hne & _). io_with (iruns_rotate C2 (sp_rand_servers sp) adrs); [exact Hw2|]. intros adrs' w3 [Hperm Hw3].
    io_with iruns_rejectlist; [exact Hw3|]. intros [s1|] w4 (Hw4 & Hp4 & H4).
    2:{ io_ret. io_ret. exists (Some (d, adrs)), C2. splits; try done. intros _ Hpl'. by destruct (Hp4 (Hpc Hpl')). }
    destruct (H4 s1 eq_refl) as (E1 & E2 & E3 & E4). cbn in E1, E2, E3, E4. rewrite Hrj in E4. cbn in E4. io_with iruns_pick_all; [exact Hw4|]. intros [s2|] w5 (Hw5 & Hp5 & H5).
    2:{ io_ret. io_ret. exists (Some (d, adrs)), C2. splits; try done. intros _ Hpl'. by destruct (Hp5 (Hpc Hpl')). }
    io_ret. io_ret. exists (Some (d, adrs)), C2. splits; try done. intros s' [= <-]. destruct (H5 s2 eq_refl) as (F1 & F2 & _ & _). split; [done|].
    eexists. split; [split; cbn; [by rewrite F1, E1|by rewrite F2, E2, length_map]|]. unfold domain_queries. by rewrite E4, Hperm.
  - io_ret. apply (iruns_next C2); [exact Hw2|by left|intros w' Hw' Hn; exists None, C2; splits; auto; done|]. intros s1 w3 Hw3 Ha Es Hp1.
    eapply iruns_weaken; [apply (iruns_pick_addrs C2); [done..|right; by rewrite Es]|]. cbn beta. rewrite Es. cbn [pk_seen set_seen Z.eqb]. rewrite andb_false_r.
    intros r w4 (Hw4 & Hn & Hrr). exists None, C2. splits; try done; [by intros E; apply Hpl, Hn|]. intros s' Er. destruct (Hrr s' Er) as [-> Ha2]. split; [done|].
    eexists. split; [|done]. apply (adds_trans s s1 s' [_] _); [|done]. exact Ha.
Qed.

Lemma iruns_none_up C sp l : forall s w, any_up l = false -> at_ C w -> iruns (pick_addrs K rc name sp l s) w (fun r w' => r = Some s /\ at_ C w').
Proof. induction l as [|x l IH]; intros s w; cbn [pick_addrs any_up existsb]; [intros; by io_ret|]. intros [-> E]%orb_false_iff Hw. by apply IH. Qed.

(** ** The loop over the servers *)

(** Whether a server is passed over, and otherwise its addresses from some position on. *)
Lemma iruns_server C sp l s w (Q : option picked -> world -> Prop) : at_ C w -> server_ok sp ->
  (asked sp = false \/ sp_atup_a sp = [] -> iruns (pick_servers K rc name l s) w Q) ->
  (forall adrs w', asked sp = true -> adrs ≡ₚ sp_atup_a sp -> at_ C w' -> iruns (
     r ← pick_addrs K rc name sp adrs {| pk_serv := pk_serv s; pk_one_up := pk_one_up s; pk_seen := pk_seen s; pk_rjl := None |};
     match r with Some s => pick_servers K rc name l s | None => mret None end) w' Q) ->
  iruns (pick_servers K rc name (sp :: l) s) w Q.
Proof.
  intros Hw Hsp Hover Hgo. cbn [pick_servers]. destruct (use_server_total sp name N HN Hsp) as [u Eu]. apply iruns_bind.
  eapply (iruns_weaken _ _ (fun b w' => b = asked sp /\ w' = w)).
  { unfold asked. rewrite Eu. destruct (sp_rootserver sp <=? 1)%Z; [by eapply iruns_lift|by io_ret]. }
  cbn beta. intros b w' [-> ->]. destruct (asked sp); cbn [andb]; [|by apply Hover; left]. destruct (length (sp_atup_a sp) =? 0) eqn:El; cbn [negb].
  { apply Hover. right. by apply Nat.eqb_eq, nil_length_inv in El. }
  io_with (iruns_rotate C (sp_rand_servers sp) (sp_atup_a sp)); [exact Hw|]. intros adrs w1 [Hperm Hw1]. by apply Hgo.
Qed.

Lemma passed_over o seen sp : asked sp = false \/ sp_atup_a sp = [] -> contribution o seen sp = [] /\ root_up sp = false.
Proof.
  unfold contribution, root_up. intros [E|E]; rewrite E; [done|]. split; [|by rewrite andb_false_r]. destruct (asked sp), (sp_rootserver sp =? 0)%Z, o as [[]|]; try done. cbn. by rewrite orb_true_r.
Qed.

Definition all_added (o : option (list Z * list (list Z))) (seen : bool) (l : list servparm) (s s' : picked) : Prop :=
  exists chs, adds s s' (concat chs) /\ Forall2 Permutation (contributions o seen l) chs.

Lemma all_added_cons o seen sp l s s1 s' ch : adds s s1 ch -> contribution o seen sp ≡ₚ ch -> all_added o (seen || root_up sp) l s1 s' -> all_added o seen (sp :: l) s s'.
Proof.
  intros Ha Hp (chs & Ha2 & Hp2). exists (ch :: chs). split; [by apply (adds_trans s s1 s' ch (concat chs))|]. by constructor.
Qed.
Lemma all_added_over o seen sp l s s' : asked sp = false \/ sp_atup_a sp = [] -> all_added o seen l s s' -> all_added o seen (sp :: l) s s'.
Proof.
  intros E Ha. destruct (passed_over o seen sp E) as [Ec Er]. apply (all_added_cons o seen sp l s s s' []); [by apply adds_none|by rewrite Ec|]. by rewrite Er, orb_false_r.
Qed.

Lemma adds_start s s' ch : adds {| pk_serv := pk_serv s; pk_one_up := pk_one_up s; pk_seen := pk_seen s; pk_rjl := None |} s' ch -> adds s s' ch.
Proof. done. Qed.

(** After the search. *)
Lemma iruns_pick_servers_after C o l : Forall server_ok l -> forall s w, at_ C w -> pk_seen s = seen_of o ->
  iruns (pick_servers K rc name l s) w (fun r w' => at_ C w' /\ (r = None -> ~ plenty C) /\ forall s', r = Some s' -> all_added o true l s s').
Proof.
  induction 1 as [|sp l Hsp _ IH]; intros s w Hw Hs.
  { io_ret. splits; try done. intros s' [= <-]. exists []. split; [by apply adds_none|constructor]. }
  apply (iruns_server C); [done..| |].
  { intros E. eapply iruns_weaken; [by apply IH|]. cbn beta. intros r w' (? & ? & H1). splits; try done. intros s' Es. by apply all_added_over, H1. }
  intros adrs w1 Eask Hperm Hw1. assert (Hns : pk_seen s <> 0%Z) by (rewrite Hs; by destruct o). io_with iruns_pick_addrs; [exact Hw1|by left|by right|].
  intros [s1|] w2 (Hw2 & Hn & H2); [|by io_ret]. destruct (H2 s1 eq_refl) as [Es Ha]. cbn in Es. eapply iruns_weaken; [apply IH; [done|congruence]|]. cbn beta.
  intros r w3 (? & ? & H3). splits; try done. intros s' Er. eapply all_added_cons; [apply adds_start, Ha| |by apply H3]. unfold contribution. rewrite Eask.
  cbn [pk_seen]. rewrite Hs. destruct (sp_rootserver sp =? 0)%Z; cbn [negb andb]; [by apply direct_perm|]. unfold root_queries. destruct o as [[d a]|]; cbn; [done|by apply direct_perm].
Qed.

(** Before it. *)
Lemma iruns_pick_servers C l : ready C -> Forall server_ok l -> forall s w, at_ C w -> pk_seen s = 0%Z ->
  iruns (pick_servers K rc name l s) w (fun r w' => exists o C2, servers_for o /\ ready C2 /\ at_ C2 w' /\ (r = None -> ~ plenty C) /\
    forall s', r = Some s' -> (existsb root_up l = true -> looked_up C o) /\ all_added o false l s s').
Proof.
  intros HC. induction 1 as [|sp l Hsp Hl IH]; intros s w Hw Hs.
  { io_ret. exists None, C. splits; try done. intros s' [= <-]. split; [done|]. exists []. split; [by apply adds_none|constructor]. }
  cbn [existsb]. apply (iruns_server C); [done..| |].
  { intros E. destruct (passed_over None false sp E) as [_ Er]. rewrite Er. eapply iruns_weaken; [by apply IH|]. cbn beta. intros r w' (o & C2 & ? & ? & ? & ? & H1).
    exists o, C2. splits; try done. intros s' Es. destruct (H1 s' Es). split; [done|]. by apply all_added_over. }
  intros adrs w1 Eask Hperm Hw1. pose proof (any_up_perm _ _ Hperm) as Eup. destruct (root_up sp) eqn:Er; cbn [orb].
  - unfold root_up in Er. rewrite Eask in Er. apply andb_true_iff in Er as [Er Eu]. cbn in Er. apply negb_true_iff in Er. io_with (iruns_pick_root C sp adrs); [done|exact Hw1|done|by apply Z.eqb_neq|done|congruence|].
    intros r w2 (o & C2 & (Hlk & Hsf & Hrd & Hpl) & Hw2 & Hn & H2). destruct r as [s1|]; [|io_ret; by exists o, C2]. destruct (H2 s1 eq_refl) as (Es & ch & Ha & Hch).
    eapply iruns_weaken; [by apply (iruns_pick_servers_after C2 o)|]. cbn beta. intros r w3 (Hw3 & Hn3 & H3). exists o, C2. splits; try done; [intros E Hp; by apply (Hn3 E), Hpl|].
    intros s' E. split; [done|]. eapply all_added_cons; [apply adds_start, Ha| |cbn [orb]; unfold root_up; rewrite Eask, Er, Eu; by apply H3]. unfold contribution. rewrite Eask, Er, <- Hch. unfold root_queries.
    rewrite <- Eup. destruct o as [[d a]|]; [done|]. by apply direct_perm.
  - assert (Hcase : (sp_rootserver sp = 0 \/ any_up adrs = false)%Z).
    { unfold root_up in Er. rewrite Eask, <- Eup in Er. destruct (sp_rootserver sp =? 0)%Z eqn:E; boolp; [by left|by right]. }
    apply iruns_bind. eapply (iruns_weaken _ _ (fun r w' => at_ C w' /\ (r = None -> ~ plenty C) /\ forall s', r = Some s' -> pk_seen s' = 0%Z /\ adds s s' (direct_queries sp adrs))).
    { destruct Hcase as [E0|E0].
      - eapply iruns_weaken; [apply (iruns_pick_addrs C); [exact Hw1|by left|by left]|]. cbn beta. rewrite E0. cbn [Z.eqb negb andb pk_seen]. intros r w2 (? & ? & H2). splits; try done.
        intros s' E. destruct (H2 s' E) as [-> ?]. done.
      - rewrite direct_none by done. eapply iruns_weaken; [apply (iruns_none_up C sp adrs _ w1 E0 Hw1)|]. cbn beta. intros r w2 [-> ?]. splits; try done. intros s' [= <-]. split; [done|]. by apply adds_none. }
    cbn beta. intros [s1|] w2 (Hw2 & Hn & H2); [|by io_ret; exists None, C].
    destruct (H2 s1 eq_refl) as [Es Ha]. eapply iruns_weaken; [by apply IH|]. cbn beta. intros r w3 (o & C2 & ? & ? & ? & ? & H3). exists o, C2. splits; try done.
      intros s' E. destruct (H3 s' E). split; [done|]. eapply all_added_cons; [exact Ha| |cbn [orb]; by rewrite Er]. unfold contribution. rewrite Eask.
      destruct (sp_rootserver sp =? 0)%Z eqn:E0; [by apply direct_perm|]. destruct Hcase as [E1|E1]; [by rewrite E1 in E0|]. unfold root_queries. rewrite <- Eup, E1. cbn.
      rewrite (direct_none sp adrs), (direct_none sp (sp_atup_a sp)) by congruence. by destruct o as [[]|].
Qed.
End Here.

Lemma leads_rotate {A} b (l : list A) : leads top (rotate_random K b l).
Proof. unfold rotate_random, random. leads. Qed.
Lemma leads_rejectlist sp cond s : leads top (with_rejectlist sp cond s).
Proof. unfold with_rejectlist. leads. Qed.
Lemma leads_pick st s : leads top (pick st s).
Proof. unfold pick. leads. Qed.
#[local] Hint Resolve leads_rotate leads_rejectlist leads_pick : leads.
Lemma leads_pick_all l mk : forall s, leads top (pick_all l mk s).
Proof. induction l; intros; cbn [pick_all]; leads. Qed.
#[local] Hint Resolve leads_pick_all : leads.
Lemma leads_pick_addrs sp l : forall s, leads top (pick_addrs K rc name sp l s).
Proof. induction l; intros; cbn [pick_addrs]; [leads|]. unfold instead_of_root, time. leads. Qed.
#[local] Hint Resolve leads_pick_addrs : leads.
Lemma leads_pick_servers l : forall s, leads top (pick_servers K rc name l s).
Proof. induction l; intros; cbn [pick_servers]; leads. Qed.

(** Each of the queries is new, and its data fit. *)
Lemma contribution_new o seen sp : server_ok sp -> servers_for o -> Forall new_q (contribution o seen sp).
Proof.
  intros (_ & H4 & H6) Ho. assert (Hrl : forall cond rl, reject_for sp cond = Some rl -> reject_ok rl) by (unfold reject_for; intros cond rl; destruct (_ && _); [|done]; by intros [= <-]).
  assert (Hd : Forall new_q (direct_queries sp (sp_atup_a sp))).
  { apply Forall_map, Forall_true. intros x. split; [done|]; split; cbn; [done|]; apply Hrl. }
  unfold contribution. destruct (asked sp); [|done]. destruct (_ =? _)%Z; [done|]. unfold root_queries. destruct o as [[d l]|]; [|done]. destruct (_ || _); [done|].
  destruct (Ho _ _ eq_refl) as (_ & _ & D & _ & HD). apply Forall_map, Forall_true. intros a. split; [done|]. split; cbn; [intros d' [= <-]; by exists D|apply Hrl].
Qed.

Lemma contributions_new o l : Forall server_ok l -> servers_for o -> forall seen chs, Forall2 Permutation (contributions o seen l) chs -> Forall new_q (concat chs).
Proof.
  intros Hl Ho. induction Hl as [|sp l Hsp _ IH]; intros seen chs Hc; cbn [contributions] in Hc.
  - apply Forall2_nil_inv_l in Hc as ->. constructor.
  - apply Forall2_cons_inv_l in Hc as (ch & chs' & Hp & Hc & ->). cbn. apply Forall_app. split; [|by eapply IH]. rewrite <- Hp. by apply contribution_new.
Qed.

Definition no_picks : picked := {| pk_serv := []; pk_one_up := false; pk_seen := 0; pk_rjl := None |}.

(** The queries of the servers of the configuration: those that [contributions] tells, where [o] has been found in
    the cache if a root server is to be asked. *)
Lemma iruns_picked l w : Forall server_ok l -> ready (w_cache w) -> iruns (pick_servers K rc name l no_picks) w (fun r w' =>
  socks w' = socks w /\ past w' = past w /\ heap w' = heap w /\ ready (w_cache w') /\ (r = None -> ~ plenty (w_cache w)) /\
  forall s, r = Some s -> exists o chs, (existsb root_up l = true -> looked_up (w_cache w) o) /\ servers_for o /\
    pk_serv s = concat chs /\ Forall2 Permutation (contributions o false l) chs /\ (pk_one_up s = true <-> pk_serv s <> [])).
Proof.
  intros Hl Hw. eapply iruns_weaken; [apply (iruns_pick_servers (socks w) (past w) (heap w) (w_cache w) l Hw Hl); [|done]|].
  { split; [split; auto with pdnsd|done]. }
  cbn beta. intros r w' (o & C2 & Ho & HC2 & (Hm & ? & ? & ?) & Hn & Hch). splits; try done; [by eapply ready_mem; [apply Hm|]|].
  intros s E. destruct (Hch s E) as [Hlk (chs & [E1 E2] & Hp)]. cbn in E1, E2. exists o, chs. splits; try done. rewrite E2, E1. by destruct (concat chs).
Qed.

Lemma still_picked l : Forall server_ok l -> still (fun r => forall s, r = Some s -> Forall new_q (pk_serv s)) (pick_servers K rc name l no_picks).
Proof.
  intros Hl w Hw. destruct (iruns_picked l w Hl Hw) as (r & w' & E & HS & _ & HH & Hr & _ & H). exists r, w'. split; [done|]. splits; try done; [by eapply leads_pick_servers|].
  intros s Es. destruct (H s Es) as (o & chs & _ & Ho & -> & Hc & _). by eapply contributions_new.
Qed.
End Pick.
