(* ===== verification/RecurseRun.v ===== *)
(** The recursion over name servers: the resolver of each level, the search for root servers, and
    the test whether a server answers. *)
From S2P Require Import Prelude Names DnsName Compress RrTypes HashTab RrList Cent CentSpec Cache CacheInv CachePurge CacheAdd CacheOps CacheThms.
From S2P Require Import Answer AnswerRr AnswerSet Query QueryDecode QuerySafe Reply ReplyData ReplySpec Exec ExecStages ExecSpec.
From S2P Require Import Net NetSpec QuerySm SmSpec QueryExec QueryRun QueryLoop QueryStep Forward Parallel Resolve ResolveSpec Recurse RecurseSpec RecurseLoop RecursePick.

Section Run.
Context {P : Platform} (global : globals) (pol : policies) (K : kernel) (rf : bool) (conf : net_conf) (rc : resolve_conf).
Context (servers : nat -> list servparm) (is_local_addr : nat -> list Z -> bool) (interrupted : nat -> bool) (polls_max : nat).

(** What the program and its environment have to satisfy. *)
Record environment (T : nat) : Prop := {
  env_kernel : kernel_ok K;
  env_conf : net_conf_ok conf;
  env_replies : no_empty_reply K rf;
  env_policies : conf_ok pol;
  env_servers : forall t, Forall server_ok (servers t);
  env_debug : g_paranoid rc = true -> g_debug_p rc = false;
  env_par : 0 < g_par_queries rc;
  env_quiet : quiet K T;
  env_polls : T < polls_max }.

Context (T : nat) (Env : environment T).

Lemma still_p_recursive_query lower name N thint qslist qhlist q c_soa : (forall res, lower = Some res -> ResolverOk res) ->
  wire_name name N -> thint_ok thint -> hints_ok qhlist -> Forall new_q q ->
  still (fun x => resolved_ok x.1) (p_recursive_query global pol K rf conf rc is_local_addr polls_max lower name thint qslist qhlist q c_soa).
Proof.
  intros Hlow HN Hth Hh Hq w Hw. destruct Env as [H1 H2 H3 H4 H5 H6 H7 H8 H9].
  exact (iruns_p_recursive_query global pol K rf conf rc is_local_addr H1 H2 H3 H4 H6 lower Hlow name N thint HN Hth qslist qhlist Hh (socks w) (heap w) T H8 polls_max H9 H7 q c_soa w Hq Hw eq_refl eq_refl).
Qed.

Lemma still_get_servers : still (Forall server_ok) (get_servers servers).
Proof. unfold get_servers. eapply still_bind; [apply still_tick|]. intros t _. apply still_ret. apply (env_servers T Env). Qed.

Lemma still_merge_cached name N e : wire_name name N -> good_cent e -> still good_cent (merge_cached global K name e).
Proof.
  intros HN He. unfold merge_cached. eapply still_bind; [apply still_time|]. intros now _.
  apply (still_bind (fun _ => True)).
  { apply still_cache. intros c Hc. eapply runs_weaken; [apply runs_add_good; [done|apply He..]|]. cbn beta. intros _ c' (? & ? & _). by split. }
  intros _ _. eapply still_bind; [apply still_time|]. intros now2 _. eapply still_bind; [by eapply still_cache, orderly_lookup|].
  intros [[tc|] wild] Htc; [|by apply still_ret]. eapply still_bind; [by apply still_cache, orderly_free|]. intros _ _. apply still_ret. by apply Htc.
Qed.

Section Level.
Context (lower : option resolver) (Hlow : forall res, lower = Some res -> ResolverOk res).

Lemma still_p_dns_resolve name N thint qhlist c_soa : wire_name name N -> thint_ok thint -> hints_ok qhlist ->
  still resolved_ok (p_dns_resolve global pol K rf conf rc servers is_local_addr polls_max lower name thint qhlist c_soa).
Proof.
  intros HN Hth Hh. unfold p_dns_resolve. eapply still_bind; [apply still_get_servers|]. intros l Hl.
  eapply still_bind; [by apply (still_picked K rc name N HN l Hl)|]. intros [s|] Hs; [|by apply still_ret]. destruct (pk_one_up s); [|by apply still_ret].
  eapply still_bind; [apply (still_p_recursive_query lower name N thint [] qhlist (pk_serv s) c_soa Hlow HN Hth Hh); by apply Hs|].
  intros [[[rv o] v] nocache] Hx. cbn [fst snd] in Hx. destruct (rv =? RC_OK)%Z eqn:E; [|by apply still_ret]. apply Z.eqb_eq in E. destruct (Hx o ltac:(by subst rv) eq_refl) as (e & -> & He).
  eapply still_lift; [done|]. apply (still_bind good_cent); [destruct nocache; [by apply still_ret|by eapply still_merge_cached]|].
  intros e' He'. apply still_ret. intros x _ <-. by exists e'.
Qed.

Lemma resolver_level : ResolverOk (cached_resolve global pol K rf conf rc servers is_local_addr polls_max lower).
Proof.
  intros q name N thint qslist qhlist queryts c_soa HN Hth Hq Hh. unfold cached_resolve. eapply still_bind; [apply still_time|]. intros now _.
  eapply still_bind; [by eapply still_cache, orderly_status|]. intros st Hst. cbv zeta.
  assert (Hc : forall e, cs_cached st = Some e -> good_cent e) by (intros e E; destruct Hst as [[_ ?]|[_ (e' & ? & ?)]]; congruence).
  assert (Hnone : forall rv v, has_entry rv = false -> resolved_ok (rv, None, v)) by (intros rv v Hn x Hh'; cbn in Hh'; congruence).
  assert (Hsome : forall rv v, cs_rc st = RC_OK \/ cs_rc st = RC_CACHED \/ cs_rc st = RC_STALE -> resolved_ok (rv, cs_cached st, v)).
  { intros rv v H x _ <-. cbn [fst snd]. destruct Hst as [[[E|E] _]|[_ (e & -> & He)]]; [rewrite E in H; by destruct H as [|[|]]..|]. by exists e. }
  destruct (cs_rc st =? RC_OK)%Z eqn:E1; [apply Z.eqb_eq in E1; apply still_ret, Hsome; auto|]. destruct (cs_rc st =? RC_NAMEERR)%Z; [by apply still_ret, Hnone|].
  apply (still_bind (fun _ => True)).
  { destruct (_ && _); [|by apply still_ret]. unfold linkdown. eapply still_bind; [apply still_get_servers|]. intros l _. by apply still_ret. }
  intros [] _; [eapply still_bind; [by apply still_free|]; intros _ _; by apply still_ret, Hnone|].
  destruct (cs_rc st =? RC_CACHED)%Z eqn:E2; [apply Z.eqb_eq in E2; apply still_ret, Hsome; auto|].
  apply (still_bind resolved_ok).
  { destruct q as [q|]; [|by eapply still_p_dns_resolve]. eapply still_bind; [eapply still_p_recursive_query; [done|exact HN|done|done|by apply Hq]|].
    intros [r nocache] Hr. by apply still_ret. }
  intros [[rv ent] v] Hr. destruct (has_entry rv) eqn:Ee; [eapply still_bind; [by apply still_free|]; intros _ _; by apply still_ret|].
  destruct (_ && _ && _) eqn:Es; [|eapply still_bind; [by apply still_free|]; intros _ _; by apply still_ret, Hnone].
  apply andb_true_iff in Es as [Es _]. apply andb_true_iff in Es as [_ Es]. apply still_ret. intros x _ <-. cbn [fst snd].
  destruct (cs_cached st) as [e|]; [|done]. exists e. split; [done|by apply Hc].
Qed.
End Level.

#[global] Instance resolver_hops hops : ResolverOk (p_dns_cached_resolve global pol K rf conf rc servers is_local_addr polls_max hops).
Proof. induction hops as [|h IH]; cbn [p_dns_cached_resolve]; apply resolver_level; [done|]. by intros res [= <-]. Qed.

(** The resolver keeps the promise on which the processing of queries relies. *)
#[global] Instance dns_cached_resolve_ok start S H : Resolver (dns_cached_resolve global pol K rf conf rc servers is_local_addr polls_max start S H).
Proof.
  intros N r qtype now c HN Hth Hc. set (w := {| w_cache := c; socks := S; past := []; heap := H; ticks := start (enc_name N ++ r) qtype now c; tests := [] |}).
  assert (HW : wire_name (enc_name N ++ r) N) by (split; [done|by exists r]). unfold dns_cached_resolve. fold w.
  destruct (still_r_resolve _ (enc_name N ++ r) N qtype [] now (Some cundef) (resolver_hops MAX_HOPS) HW Hth (Forall_nil_2 _) w Hc) as ([[rv ent] v] & w' & E & _ & _ & Hr & _ & Hok & _).
  unfold r_dns_cached_resolve. exists (rv, ent, default cundef v), (w_cache w'). split; [|by split]. cbv beta. fold w. by rewrite E.
Qed.

(** ** Root servers *)

Lemma still_simple_servers l port edns timeout : forall serv, Forall new_q serv -> still (fun r => forall q, r = Some q -> Forall new_q q) (cacheIO (simple_servers rc l port edns timeout serv)).
Proof.
  intros serv Hs. apply still_cache. revert serv Hs. induction l as [|x l IH]; intros serv Hs; cbn [simple_servers]; [apply orderly_ret; by intros q [= <-]|].
  eapply orderly_bind; [apply orderly_add_qserv; [done|by split]|]. intros [q|] Hq; [|by apply orderly_ret]. apply IH. by apply Hq.
Qed.

(** The result of a simple resolver. *)
Definition simple_ok (x : Z * option dns_cent) : Prop := x.1 = RC_OK -> exists e, x.2 = Some e /\ good_cent e.

Lemma still_not_negative e : good_cent e -> still simple_ok (not_negative e).
Proof.
  intros He. unfold not_negative. destruct (tst _ _); [|apply still_ret; intros _; by exists e]. eapply still_bind; [by apply still_cache, orderly_free|]. intros _ _. by apply still_ret.
Qed.

Lemma still_simple_resolve l port edns timeout name N thint : wire_name name N -> thint_ok thint ->
  still simple_ok (simple_dns_cached_resolve global pol K rf conf rc is_local_addr polls_max l port edns timeout name thint).
Proof.
  intros HN Hth. unfold simple_dns_cached_resolve. eapply still_bind; [apply still_time|]. intros queryts _. eapply still_bind; [apply still_time|]. intros now _.
  eapply still_bind; [by eapply still_cache, orderly_status|]. intros st Hst.
  assert (Hc : cs_rc st = RC_OK \/ cs_rc st = RC_CACHED -> exists e, cs_cached st = Some e /\ good_cent e).
  { intros H. destruct Hst as [[[E|E] _]|[_ ?]]; [rewrite E in H; by destruct H..|done]. }
  destruct (cs_rc st =? RC_OK)%Z eqn:E1; [apply Z.eqb_eq in E1; apply still_ret; intros _; auto|]. destruct (cs_rc st =? RC_NAMEERR)%Z; [by apply still_ret|].
  destruct (cs_rc st =? RC_CACHED)%Z eqn:E2; [apply Z.eqb_eq in E2; destruct (Hc (or_intror E2)) as (e & -> & He); eapply still_lift; [done|]; by apply still_not_negative|].
  eapply still_bind; [apply still_free; intros e E; destruct Hst as [[_ ?]|[_ (e' & ? & ?)]]; congruence|]. intros _ _.
  eapply still_bind; [by apply still_simple_servers|]. intros [q|] Hq; [|by apply still_ret].
  eapply still_bind; [eapply (still_p_recursive_query None); [done|exact HN|done|constructor|by apply Hq]|]. intros [[[rv o] v] nocache] Hx. cbn [fst snd] in Hx.
  assert (Ho : has_entry rv = true -> exists e, o = Some e /\ good_cent e) by (intros H; by destruct (Hx o H eq_refl) as (e & -> & He); exists e).
  destruct (rv =? RC_OK)%Z eqn:E3.
  { apply Z.eqb_eq in E3. destruct (Ho ltac:(by subst rv)) as (e & -> & He). eapply still_lift; [done|]. eapply still_bind; [by eapply still_merge_cached|]. intros e' He'. by apply still_not_negative. }
  destruct (_ || _) eqn:E4; [|apply still_ret; cbn; intros E; cbn in E; by rewrite E in E3].
  destruct (Ho ltac:(unfold has_entry; by rewrite E3)) as (e & -> & He). eapply still_lift; [done|]. by apply still_not_negative.
Qed.

Lemma still_root_loop l port edns timeout rrs : Forall (fun rr => exists B, wire_name rr B) rrs -> forall nfail res, Forall is_addr res ->
  still (fun r => forall n res', r = Some (n, res') -> Forall is_addr res' /\ n <= nfail + length rrs) (root_loop global pol K rf conf rc is_local_addr polls_max l port edns timeout rrs nfail res).
Proof.
  induction 1 as [|rr rrs [B HB] _ IH]; intros nfail res Hres; cbn [root_loop]; [apply still_ret; intros n res' [= <- <-]; split; [done|cbn; lia]|].
  eapply still_bind; [eapply still_simple_resolve; [exact HB|by left]|]. intros [rv o] Hx. unfold simple_ok in Hx. cbn [fst snd] in Hx.
  apply (still_bind (Forall is_addr)).
  { destruct (rv =? RC_OK)%Z eqn:E; [|by apply still_ret]. apply Z.eqb_eq in E. destruct (Hx E) as (e & -> & He). eapply still_lift; [done|].
    destruct (get_set e RRMUINDEX_A T_A He) as (rs & Ers & Hrs); [vm_compute; lia|done|]. eapply still_lift; [exact Ers|].
    destruct (first_addrs_wire rs Hrs) as (l' & El & Hl). eapply still_lift; [exact El|]. eapply still_bind; [by apply still_cache, orderly_free|]. intros _ _. by apply still_ret. }
  intros serva Hs. destruct serva as [|a serva].
  { eapply still_weaken; [by apply IH|]. cbn beta. intros r Hr n res' E. destruct (Hr n res' E). split; [done|cbn; lia]. }
  eapply still_bind; [by eapply still_cache, (orderly_grow_addrs is_addr)|]. intros [res'|] Hr; [|by apply still_ret].
  eapply still_weaken; [apply IH; by apply Hr|]. cbn beta. intros r Hr' n res2 E. destruct (Hr' n res2 E). split; [done|cbn; lia].
Qed.

Lemma still_rootserver l port edns timeout : still (Forall is_addr) (dns_rootserver_resolv global pol K rf conf rc is_local_addr polls_max l port edns timeout).
Proof.
  unfold dns_rootserver_resolv. eapply still_bind; [apply (still_simple_resolve l port edns timeout [0%Z] [] T_NS)|].
  - split; [split; [constructor|vm_compute; lia]|by exists []].
  - by left.
  - intros [rv o] Hx. unfold simple_ok in Hx. cbn [fst snd] in Hx. destruct (rv =? RC_OK)%Z eqn:E; [|by apply still_ret]. apply Z.eqb_eq in E. destruct (Hx E) as (e & -> & He).
    eapply still_lift; [done|]. destruct (get_set e RRMUINDEX_NS T_NS He) as (rs & Ers & Hrs); [vm_compute; lia|done|]. eapply still_lift; [exact Ers|].
    apply (still_bind (Forall is_addr)).
    + destruct rs as [rs|]; [|by apply still_ret]. eapply still_bind; [apply still_root_loop; [|constructor]; eapply Forall_impl; [by apply Hrs|]; intros rr; apply wire_ns|].
      intros [[n res]|] Hr; apply still_ret; [|constructor]. destruct (Hr n res eq_refl) as [? _]. by destruct (_ <? _).
    + intros res Hres. eapply still_bind; [by apply still_cache, orderly_free|]. intros _ _. by apply still_ret.
Qed.

(** ** The test of a server *)

Section Uptest.
Context (name : option (list Z)) (qn : option (list (list Z))) (Hqn : wf_qn qn) (Hname : name_is qn name) (G : sockets) (F : blocks).

Abbreviation resting_at := (at_rest conf T_A qn G F).

Lemma iruns_exec_rest now st w : resting_at (st, w) -> iruns (p_exec_query now global pol K rf conf false name T_A [] st) w (fun x w' =>
  resting_at (x.2, w') /\ (ex_rv x.1 <> (-1)%Z -> q_state x.2 = QS_DONE) /\ ticks w <= ticks w').
Proof.
  intros (Hr & Hok & M & L & Hrest). cbn [fst snd] in *. destruct Env as [HK Hconf Hrf Hpol _ _ _ _ _].
  destruct (iruns_p_exec_query now global pol (w_cache w) K rf conf HK Hconf Hrf G F false name qn T_A Hqn Hname ltac:(done) ltac:(by left) Hpol Hr [] [] ltac:(constructor) L M st w Hrest Hok) as (x & w' & E & Hx).
  exists x, w'. split; [done|]. destruct (leads_p_exec_query now global pol K rf conf (fun _ => True) I false name T_A [] st I _ _ _ E) as [Ht _].
  splits; [|intros Hne; destruct Hx as (_ & _ & [(_ & Hp & _)|Hfin]); [by rewrite Hp in Hne|apply Hfin]|done].
  by destruct (executed_rests now global pol (w_cache w) K conf G F false name qn T_A Hqn Hname ltac:(done) ltac:(by left) Hpol Hr [] [] ltac:(constructor) L M st x w' Hok Hx).
Qed.

Definition freed (w w' : world) : Prop := socks w' = G /\ heap w' = F /\ ready (w_cache w') /\ ticks w <= ticks w'.

Lemma iruns_cancel_rest_at st w : resting_at (st, w) -> iruns (p_cancel_query st) w (fun st' w' => freed w w' /\ stat_ok (q_stat st')).
Proof.
  intros (Hr & Hok & M & L & Hrest). cbn [fst snd] in *. destruct (iruns_p_cancel_query (w_cache w) conf G F qn T_A L M st w Hrest) as (st' & w' & E & (L1 & Hm & HS & _ & HH) & Es & _).
  exists st', w'. split; [done|]. destruct (leads_p_cancel_query _ _ _ _ E) as [Ht _]. unfold freed. rewrite Es. splits; try done. eapply ready_mem; [apply Hm|done].
Qed.

(** The world has changed only in what is not the query's. *)
Lemma rest_same st w w' : resting_at (st, w) -> socks w' = socks w -> heap w' = heap w -> past w' = past w -> w_cache w' = w_cache w -> resting_at (st, w').
Proof.
  intros (Hr & Hok & M & L & Hrest) HS HH HL HC. unfold at_rest. cbn [fst snd] in *. rewrite HC. splits; [done..|]. exists M, L. unfold resting in *.
  assert (Hh : forall S L H, here (w_cache w) S L H w -> here (w_cache w) S L H w') by (unfold here; intros S L0 H (? & ? & ? & ?); rewrite HC, HS, HL, HH; done).
  destruct (q_state st); try done; try by apply Hh.
  1: destruct Hrest as [? ?]; auto.
  all: destruct Hrest as (rd & b & rb & Hq & (fd & c & ? & ? & ? & L1 & H & Hw & Ho) & HM); exists rd, b, rb; splits; try done; exists fd, c; splits; try done; exists L1, H; auto.
Qed.

Lemma iruns_uptest_wait fuel : forall timeout ts tp st w, resting_at (st, w) -> T - ticks w < fuel ->
  iruns (uptest_wait global pol K rf conf interrupted fuel name timeout ts tp st) w (fun x w' => freed w w' /\ forall st', x = inr st' -> stat_ok (q_stat st')).
Proof.
  induction fuel as [|fu IH]; intros timeout ts tp st w Hrest Hf; [lia|]. cbn [uptest_wait].
  assert (Hstop : forall (x : Z) w1, resting_at (st, w1) -> ticks w <= ticks w1 ->
    iruns (_ ← p_cancel_query st; mret (inl x : Z + query)) w1 (fun x w' => freed w w' /\ forall st', x = inr st' -> stat_ok (q_stat st'))).
  { intros x w1 H1 Ht. apply iruns_bind. eapply iruns_weaken; [by apply iruns_cancel_rest_at|]. cbn beta. intros st' w2 [(? & ? & ? & ?) _]. io_ret. split; [|done]. unfold freed. splits; try done. lia. }
  apply iruns_bind. exists (ticks w), (set_ticks (S (ticks w)) w). split; [done|]. cbn beta. set (w1 := set_ticks _ w).
  assert (H1 : resting_at (st, w1)) by (by eapply rest_same). destruct (interrupted (ticks w)); [apply Hstop; [done|cbn; lia]|].
  apply iruns_bind. unfold poll at 1. exists (match k_poll K (ticks w1) [(q_sock st, poll_event st)] (if (tp <? timeout)%Z then ((timeout - tp) * 1000)%Z else 0%Z) with inl e => inl e | inr l => inr (take 1 (l ++ [0%Z])) end), (set_ticks (S (ticks w1)) w1).
  split; [done|]. cbn beta. set (w2 := set_ticks _ w1). assert (H2 : resting_at (st, w2)) by (by eapply rest_same).
  destruct (k_poll K (ticks w1) _ _) as [e|l] eqn:Ek; [apply Hstop; [done|cbn; lia]|].
  assert (Hev : exists ev, take 1 (l ++ [0%Z]) !! 0 = Some ev /\ (T <= ticks w1 -> ev = 0%Z)).
  { destruct l as [|ev l]; [by exists 0%Z|]. exists ev. split; [done|]. intros Hle. pose proof (env_quiet T Env (ticks w1) _ _ _ Hle Ek) as Hz. by apply Forall_cons in Hz as [? _]. }
  destruct Hev as (ev & Eev & Hz). apply iruns_bind. eapply iruns_lift; [exact Eev|]. destruct (ev =? 0)%Z eqn:E0.
  { apply iruns_bind. eapply iruns_weaken; [by apply iruns_cancel_rest_at|]. cbn beta. intros st' w3 [(? & ? & ? & Ht) Hok]. io_ret. split; [|by intros ? [= <-]]. unfold freed. splits; try done. cbn in Ht. lia. }
  apply Z.eqb_neq in E0. assert (Hlt : ticks w1 < T) by (destruct (decide (T <= ticks w1)) as [Hle|]; [by destruct E0; apply Hz|lia]). cbn in Hlt.
  destruct (srv_event st ev); [|apply Hstop; [done|cbn; lia]].
  apply iruns_bind. exists (k_time K (ticks w2)), (set_ticks (S (ticks w2)) w2). split; [done|]. cbn beta. set (w3 := set_ticks _ w2). assert (H3 : resting_at (st, w3)) by (by eapply rest_same).
  apply iruns_bind. eapply iruns_weaken; [by apply iruns_exec_rest|]. cbn beta. intros [r st'] w4 (H4 & Hd & Ht4). cbn [fst snd] in *. cbn in Ht4.
  destruct (ex_rv r =? -1)%Z eqn:Er.
  - apply iruns_bind. exists (k_time K (ticks w4)), (set_ticks (S (ticks w4)) w4). split; [done|]. cbn beta.
    eapply iruns_weaken; [apply IH; [by eapply rest_same|cbn; lia]|]. cbn beta. intros x w5 [(? & ? & ? & Ht5) Hx]. cbn in Ht5. split; [|done]. unfold freed. splits; try done. lia.
  - apply Z.eqb_neq in Er. destruct (at_rest_idle conf T_A qn G F st' w4 H4) as [HS HH]; [rewrite (Hd Er); set_solver|]. io_ret. split; [|done]. unfold freed. splits; try done; [apply H4|lia].
Qed.

Lemma iruns_time_rest st w : resting_at (st, w) -> iruns (time K) w (fun _ w' => resting_at (st, w') /\ ticks w < ticks w').
Proof. intros H. exists (k_time K (ticks w)), (set_ticks (S (ticks w)) w). split; [done|]. split; [by eapply rest_same|cbn; lia]. Qed.

Lemma iruns_uptest_once timeout st w : stat_ok (q_stat st) -> ready (w_cache w) -> socks w = G -> heap w = F ->
  iruns (uptest_once global pol K rf conf rc interrupted polls_max name timeout st) w (fun x w' => freed w w' /\ forall st', x = inr st' -> stat_ok (q_stat st')).
Proof.
  intros Hok Hr HS HH. unfold uptest_once. set (st0 := q_set_s_errno _ _). assert (H0 : resting_at (st0, w)) by (by apply new_rests).
  apply iruns_bind. eapply iruns_weaken; [by apply (iruns_time_rest st0)|]. cbn beta. intros now w1 [H1 Ht1].
  apply iruns_bind. eapply iruns_weaken; [by apply iruns_exec_rest|]. cbn beta. intros [r st1] w2 (H2 & Hd & Ht2). cbn [fst snd] in *. destruct (ex_rv r =? -1)%Z eqn:Er.
  - apply iruns_bind. eapply iruns_weaken; [by apply (iruns_time_rest st1)|]. cbn beta. intros ts w3 [H3 Ht3].
    eapply iruns_weaken; [apply iruns_uptest_wait; [done|pose proof (env_polls T Env); lia]|]. cbn beta. intros x w4 [(? & ? & ? & ?) ?]. split; [|done]. unfold freed. splits; try done. lia.
  - apply Z.eqb_neq in Er. destruct (at_rest_idle conf T_A qn G F st1 w2 H2) as [? ?]; [rewrite (Hd Er); set_solver|]. io_ret. split; [|done]. unfold freed. splits; try done; [apply H2|lia].
Qed.

Lemma iruns_uptest_loop rep : forall timeout st w, stat_ok (q_stat st) -> ready (w_cache w) -> socks w = G -> heap w = F ->
  iruns (uptest_loop global pol K rf conf rc interrupted polls_max rep name timeout st) w (fun _ w' => freed w w').
Proof.
  induction rep as [|rep IH]; intros timeout st w Hok Hr HS HH; cbn [uptest_loop];
    (apply iruns_bind; eapply iruns_weaken; [by apply iruns_uptest_once|]; cbn beta; intros [rv|st'] w' [Hf Hst]; try by io_ret).
  destruct rep as [|rep]; [by io_ret|]. destruct Hf as (? & ? & ? & ?). eapply iruns_weaken; [apply IH; [by apply Hst|done..]|].
  cbn beta. intros _ w2 (? & ? & ? & ?). unfold freed. splits; try done. lia.
Qed.
End Uptest.

Lemma still_query_uptest rep addr port name qn timeout : wf_qn qn -> name_is qn name ->
  still (fun _ => True) (query_uptest global pol K rf conf rc interrupted polls_max rep addr port name timeout).
Proof.
  intros Hqn Hname w Hw. unfold query_uptest. eapply iruns_weaken; [apply (iruns_uptest_loop name qn Hqn Hname (socks w) (heap w)); try done; by split|].
  cbn beta. intros b w' (? & ? & ? & ?). by splits.
Qed.
End Run.
