(* ===== verification/RecurseThms.v ===== *)
(** The theorems about the recursion over name servers. *)
From S2P Require Import Prelude Names DnsName Compress RrTypes HashTab RrList Cent CentSpec Cache CacheInv CachePurge CacheAdd CacheOps CacheThms.
From S2P Require Import Answer AnswerRr AnswerSet AnswerThms Query QueryDecode QuerySafe QueryThms Reply ReplyData ReplySpec Exec ExecStages ExecSpec ExecThms.
From S2P Require Import Net NetSpec QuerySm SmSpec QueryExec QueryRun QueryLoop QueryStep QueryIoThms Forward Parallel.
From S2P Require Import Resolve ResolveSpec Recurse RecurseSpec RecurseLoop RecursePick RecurseRun.

Section Theorems.
Context {P : Platform} (global : globals) (pol : policies) (K : kernel) (rf : bool) (conf : net_conf) (rc : resolve_conf).
Context (servers : nat -> list servparm) (is_local_addr : nat -> list Z -> bool) (interrupted : nat -> bool) (polls_max : nat).

(** C11: the resolver ends and leaves nothing behind, in an [environment] where [poll] reports nothing
    more from some call on (otherwise it may go on, see [RecurseLimits.flood_keeps_waiting]), no server announces an empty
    message if [realloc] frees for a size of zero, the configuration is a sane one, and debugging is
    off in paranoid mode.  Within this, whatever servers reply, whatever system calls
    and allocations fail, and however deep the recursion goes: every operation is defined, all the
    queries that were started in parallel are finished or cancelled, so that each socket is closed
    and each block freed, the cache is in order, and success comes with an entry that is positive
    and whose data have the layout of their types. *)
Theorem resolver_safe (T hops : nat) (name : list Z) (N : list (list Z)) (thint : Z) (qhlist : list (list Z * Z)) (queryts : Z) (c_soa : option Z) (w : world) :
  environment pol K rf conf rc servers polls_max T -> wire_name name N -> thint_ok thint -> hints_ok qhlist -> ready (w_cache w) ->
  iruns (r_dns_cached_resolve global pol K rf conf rc servers is_local_addr polls_max hops name thint qhlist queryts c_soa) w (fun x w' =>
    socks w' = socks w /\ heap w' = heap w /\ ready (w_cache w') /\
    (x.1.1 = RC_OK -> exists e, x.1.2 = Some e /\ good_cent e /\ tst (flags e) DF_NEGATIVE = false)).
Proof.
  intros Env HN Hth Hh Hw. eapply iruns_weaken; [eapply still_r_resolve; [by eapply resolver_hops|exact HN|done|done|exact Hw]|].
  cbn beta. intros x w' (HS & HH & Hr & _ & Hok & Hneg). splits; try done. intros E. destruct (Hok E) as (e & Ee & He). exists e. splits; try done. by apply Hneg.
Qed.

(** C12: the parts work together.  With the resolver that asks the servers of the configuration,
    and in the environment described at C11, whatever the servers reply and whatever message
    arrives: [process_query] is memory safe, satisfies its assertions and ends, the cache is in
    order afterwards, and a reply is well formed as described at C4: it has the identification of
    the query and the return code that is reported, and behind its header the questions and the
    records that the header counts. *)
Theorem query_resolved_safe (T : nat) (now udpbuf : Z) (rnd_recs : bool) (start : list Z -> Z -> Z -> cache -> nat) (S : gmap positive conn) (H : gmap positive (list Z))
    (data : list Z) (udp : option nat) (c : cache) (rnd : list Z) :
  environment pol K rf conf rc servers polls_max T -> bytes data -> ready c ->
  wruns (process_query now rnd_recs udpbuf (dns_cached_resolve global pol K rf conf rc servers is_local_addr polls_max start S H) data udp) (no_answer c rnd) (fun res s' =>
    ready (a_cache s') /\ forall rcode, res = Some rcode -> reply_to data rcode s').
Proof. intros Env Hb Hc. apply wruns_process_query; [by eapply dns_cached_resolve_ok|done|done]. Qed.

(** C15: which servers are asked for a name.  Every server of the configuration contributes, in the
    order of the list, what [contribution] tells: nothing if its list of domains and its policy do
    not allow the name; one query for each of its addresses that is up if it is not a root server;
    and if it is one, one query for each of its addresses that is up when [cached_ns] has found
    nothing in the cache, and otherwise one for each address that was found, of servers for a domain
    of the name, the first time that a root server is up, and none the other times.  The cache is
    only searched once, and nothing but memory has been taken before.  Each query carries the list
    of addresses to reject of its server, if that is for the servers of its servers too or the
    server is asked itself.  There is a list of queries unless memory runs out, and the flag tells
    whether it has a query. *)
Theorem pick_servers_correct (name : list Z) (N : list (list Z)) (l : list servparm) (w : world) :
  wire_name name N -> Forall server_ok l -> ready (w_cache w) ->
  iruns (pick_servers K rc name l no_picks) w (fun r w' =>
    socks w' = socks w /\ heap w' = heap w /\ ready (w_cache w') /\ (r = None -> ~ plenty (w_cache w)) /\
    forall s, r = Some s -> exists o chs, (existsb (root_up name) l = true -> looked_up name N (w_cache w) o) /\ servers_for N o /\
      pk_serv s = concat chs /\ Forall2 Permutation (contributions rc name o false l) chs /\ (pk_one_up s = true <-> pk_serv s <> [])).
Proof.
  intros HN Hl Hw. eapply iruns_weaken; [by apply (iruns_picked K rc name N HN l w Hl Hw)|]. cbn beta. intros r w' (HS & _ & HH & Hr & Hn & Hs). by splits.
Qed.

(** C18: whether a server may be asked for a name is decided by the first entry of its list whose
    domain the name is in (or is, for an exact entry), and otherwise by the policy for names with
    one label and for others. *)
Theorem use_server_correct (sp : servparm) (N : list (list Z)) (r : list Z) (rules : list rule) :
  wf_name N -> Forall (fun x => wf_name (ru_dom x)) rules -> sp_alist sp = slist_of <$> rules ->
  use_server sp (enc_name N ++ r) = Some (match List.find (applies N) rules with Some x => ru_included x | None => by_policy (sp_policy sp) N end).
Proof. apply use_server_spec. Qed.


(** The search for the root servers and the test whether a server answers end and leave
    nothing behind, whatever happens; what is found are addresses. *)
Theorem server_tests_safe (T : nat) (l : list atup) (port timeout : Z) (edns : bool) (rep : nat) (addr : list Z) (name : option (list Z)) (qn : option (list (list Z))) (w : world) :
  environment pol K rf conf rc servers polls_max T -> wf_qn qn -> name_is qn name -> ready (w_cache w) ->
  iruns (dns_rootserver_resolv global pol K rf conf rc is_local_addr polls_max l port edns timeout) w (fun res w' =>
    socks w' = socks w /\ heap w' = heap w /\ ready (w_cache w') /\ Forall is_addr res) /\
  iruns (query_uptest global pol K rf conf rc interrupted polls_max rep addr port name timeout) w (fun _ w' =>
    socks w' = socks w /\ heap w' = heap w /\ ready (w_cache w')).
Proof.
  intros Env Hqn Hname Hw. split.
  - eapply iruns_weaken; [by eapply still_rootserver|]. cbn beta. intros res w' (? & ? & ? & _ & ?). by splits.
  - eapply iruns_weaken; [by eapply still_query_uptest|]. cbn beta. intros res w' (? & ? & ? & _ & _). by splits.
Qed.

(** Whether an entry that is not local answers a query for one type without asking again. *)
Definition answers_still (queryts thint : Z) (c : dns_cent) : bool :=
  match body c with
  | Neg _ ttl ts => (queryts <=? ts + clat_adj ttl)%Z
  | Rr _ _ => match answering c thint with Some rs => usable queryts rs | None => false end
  end.

(** What [lookup_cache_status] says of the entry [x] that has been found; [wild] tells how. *)
Definition told (queryts thint : Z) (x : dns_cent) (wild : Z) (st : cache_status) : Prop :=
  if tst (flags x) DF_LOCAL then
    if is_neg x || (wild =? w_locnerr)%Z then cs_rc st = RC_NAMEERR /\ cs_cached st = None else cs_rc st = RC_OK /\ cs_cached st = Some x
  else cs_cached st = Some x /\ cs_rc st = if answers_still queryts thint x then RC_CACHED else RC_STALE.

(** C17: when the cache answers.  The entry for the name, or the one that the search up the
    hierarchy yields, is used without its expired sets.  A local entry is the answer, or says that
    the name does not exist.  Another one is the answer as long as the alias, or the set
    of the type that is asked for, or the negative entry, has not been older than its time-to-live
    when the query came; otherwise servers are to be asked.  Nothing is found only if there is no
    such entry, all of it has expired, or there is no memory for the copy. *)
Theorem lookup_cache_status_correct (now : Z) (c : cache) (N : list (list Z)) (r : list Z) (thint queryts : Z) (v : option Z) :
  ready c -> wf_name N -> (T_MIN <= thint <= T_MAX)%Z -> (0 < queryts)%Z ->
  let ref := find_ref (abs c) N true in
  runs (lookup_cache_status now (enc_name N ++ r) thint queryts v) c (fun st c' => ready c' /\
    ((cs_rc st = RC_NOTCACHED /\ cs_cached st = None /\ (plenty c -> forall K e, ref.1 = Some K -> abs c !! K = Some e -> expired now e = true)) \/
     (exists K e x, ref.1 = Some K /\ abs c !! K = Some e /\ expired now e = false /\ fresh_part now e x /\ good_cent x /\ told queryts thint x ref.2 st))).
Proof.
  intros Hc HN Ht Hq ref. unfold lookup_cache_status. apply runs_bind. eapply runs_weaken; [by apply (runs_lookup_ready now c N r true)|]. cbn beta zeta. fold ref.
  intros [o wild] c1 (Hc1 & Ew & Hgood & Href). cbn [fst snd] in *. subst wild. destruct o as [x|].
  - specialize (Hgood x eq_refl). destruct ref.1 as [K0|] eqn:EK; [|by destruct Href]. destruct Href as (e & He & Hcase). destruct (expired now e) eqn:Ex; [by destruct Hcase|].
    destruct Hcase as (_ & x' & Hfr & _ & Hx). rewrite <- (Hx x eq_refl) in Hfr. clear x' Hx.
    assert (Hend : forall st c2, ready c2 -> told queryts thint x ref.2 st -> ready c2 /\
      ((cs_rc st = RC_NOTCACHED /\ cs_cached st = None /\ (plenty c -> forall K e, Some K0 = Some K -> abs c !! K = Some e -> expired now e = true)) \/
       (exists K e x, Some K0 = Some K /\ abs c !! K = Some e /\ expired now e = false /\ fresh_part now e x /\ good_cent x /\ told queryts thint x ref.2 st))).
    { intros st c2 H2 Htold. split; [done|]. right. by exists K0, e, x. }
    pose proof Hgood as ((Hs & _) & _). pose proof Hs as [Hfl _]. rewrite Hfl. destruct (tst (flags x) DF_LOCAL) eqn:El.
    + destruct (is_neg x || (ref.2 =? w_locnerr)%Z) eqn:En.
      * apply runs_bind. eapply runs_weaken; [by apply orderly_local_soa|]. cbn beta. intros v' c2 [Hc2 _]. apply runs_bind. eapply runs_weaken; [by apply orderly_free|].
        cbn beta. intros _ c3 [Hc3 _]. apply runs_ret. apply Hend; [done|]. unfold told. by rewrite El, En.
      * apply runs_ret. apply Hend; [done|]. unfold told. by rewrite El, En.
    + assert (Er : exists f, requery x thint queryts = Some (f, negb (answers_still queryts thint x))).
      { unfold answers_still. destruct (is_neg x) eqn:En.
        - unfold requery. replace (tst (flags x) DF_NEGATIVE) with true by congruence. unfold is_neg in En. destruct (body x); [by eexists|done].
        - rewrite requery_one by done. eexists. f_equal. f_equal. unfold is_neg in En. destruct (body x); [done|]. by destruct (answering x thint). }
      destruct Er as [f Er]. run_lift; [exact Er|]. apply runs_ret. apply Hend; [done|]. unfold told. rewrite El. split; [done|]. by destruct (answers_still _ _ _).
  - apply runs_ret. split; [done|]. left. splits; try done. intros Hp K0 e EK He. rewrite EK in Href. destruct Href as (e' & He' & Hcase). rewrite He in He'. injection He' as <-.
    destruct (expired now e); [done|]. destruct Hcase as [Hsome _]. by destruct (Hsome Hp).
Qed.
End Theorems.

(** ** Examples *)

#[local] Existing Instance LP64.

(** A server that answers at once with the reply of the example in [ExecThms], over UDP or after
    its length over TCP; [poll] never reports anything. *)
Definition answering_kernel : kernel := {|
  k_socket := fun _ => None; k_bind := fun _ _ => None; k_fcntl := fun _ => None; k_connect := fun _ _ => None; k_write := fun _ n => inr n; k_send := fun _ => None;
  k_read := fun _ n => inr (if (n =? 2) then [0; 68]%Z else demo_use); k_recv := fun _ _ => inr demo_use; k_rand16 := fun _ => 7%Z;
  k_random := fun _ => 1%Z; k_time := fun _ => 1000%Z; k_poll := fun _ _ _ => inr [] |}.

Definition demo_resolve (method : const) : resolve_conf :=
  {| g_paranoid := false; g_lndown_kluge := false; g_timeout := 10; g_par_queries := 2; g_query_method := method; g_debug_p := true |}.

(** Two addresses, of which one is down; names that end in "b" are not its business. *)
Definition demo_server : servparm := {|
  sp_port := 53; sp_uptest := C_NONE; sp_timeout := 60; sp_interval := -1; sp_scheme := []; sp_purge_cache := true; sp_nocache := false; sp_lean_query := true;
  sp_edns_query := false; sp_is_proxy := true; sp_rootserver := 0; sp_rand_servers := true; sp_rejectrecursively := false; sp_rejectpolicy := C_FAIL; sp_policy := C_INCLUDED;
  sp_alist := [{| sl_domain := [1; 98; 0]%Z; sl_exact := false; sl_included := false |}];
  sp_atup_a := [{| at_is_up := true; at_i_ts := 900; at_a := [10; 0; 0; 9]%Z |}; {| at_is_up := false; at_i_ts := 900; at_a := [10; 0; 0; 8]%Z |}];
  sp_reject_a4 := Some [([10; 9; 9; 0]%Z, [255; 255; 255; 0]%Z)]; sp_reject_a6 := None; sp_preset := true; sp_label := None; sp_ping_a := [0; 0; 0; 0]%Z |}.

Definition demo_rule : rule := {| ru_dom := [[98]]%Z; ru_exact := false; ru_included := false |}.

Lemma wf_b : wf_name [[98]]%Z.
Proof. split; [repeat constructor; simpl; lia|vm_compute; lia]. Qed.

Lemma demo_server_ok : server_ok demo_server.
Proof.
  split; [|split; [repeat constructor; vm_compute; lia|constructor]]. constructor; [|constructor]. exists [[98]]%Z. split; [exact wf_b|]. by exists [].
Qed.

Lemma demo_environment method : environment demo_conf answering_kernel true demo_net (demo_resolve method) (fun _ => [demo_server]) 1 0.
Proof.
  split.
  - split; [|intros t n l [= <-]; exact demo_use_bytes]. intros t n l [= <-]. destruct (n =? 2); [repeat constructor; discriminate|exact demo_use_bytes].
  - exact demo_net_ok.
  - right. intros t l [= <-]. discriminate.
  - exact demo_conf_ok.
  - intros _. constructor; [exact demo_server_ok|constructor].
  - discriminate.
  - vm_compute. lia.
  - intros t fds to l _ [= <-]. constructor.
  - lia.
Qed.

#[local] Notation demo_resolver := (r_dns_cached_resolve demo_globals demo_conf answering_kernel true demo_net (demo_resolve TCP_ONLY) (fun _ => [demo_server]) (fun _ _ => false) 1 5 [1; 97; 0]%Z T_A [] 1000 None).

(** What a resolver returns. *)
Definition result (x : resolved * world) : Z * option (list Z * list (list Z)) := (x.1.1.1, (fun e => (qname e, records e T_A)) <$> x.1.1.2).

Lemma resolver_safe_witness :
  iruns demo_resolver demo_world (fun x w' => socks w' = ∅ /\ heap w' = ∅ /\ x.1.1 = RC_OK /\ (fun e => (qname e, records e T_A)) <$> x.1.2 = Some ([1; 97; 0]%Z, [[10; 0; 0; 1]%Z])).
Proof.
  destruct (resolver_safe demo_globals demo_conf answering_kernel true demo_net (demo_resolve TCP_ONLY) (fun _ => [demo_server]) (fun _ _ => false) 1 0 5 [1; 97; 0]%Z [[97]]%Z T_A [] 1000 None demo_world
    (demo_environment TCP_ONLY) demo_wire ltac:(by left) (Forall_nil_2 _) demo_ready) as (x & w' & E & HS & HH & _).
  exists x, w'. split; [exact E|]. split; [exact HS|]. split; [exact HH|].
  assert (E2 : result <$> demo_resolver demo_world = Some (RC_OK, Some ([1; 97; 0]%Z, [[10; 0; 0; 1]%Z]))) by (vm_compute; reflexivity).
  rewrite E in E2. injection E2 as E2 E3. by split.
Defined.

#[local] Notation demo_process := (process_query 1000 false 1024
  (dns_cached_resolve demo_globals demo_conf answering_kernel true demo_net (demo_resolve TCP_ONLY) (fun _ => [demo_server]) (fun _ _ => false) 1 (fun _ _ _ _ => 0) ∅ ∅) QueryThms.demo_query None).

(** The query is answered with the address and the name server that the reply of the server has. *)
Definition demo_answer : list Z :=
  [0; 7; 129; 128; 0; 1; 0; 1; 0; 1; 0; 0; 1; 97; 0; 0; 1; 0; 1; 192; 12; 0; 1; 0; 1; 0; 0; 0; 120; 0; 4; 10; 0; 0; 1; 192; 12; 0; 2; 0; 1; 0; 0; 0; 120; 0; 4; 1; 110; 192; 12]%Z.

Lemma query_resolved_safe_witness :
  wruns demo_process (no_answer fresh_cache []) (fun res s' => ready (a_cache s') /\ res = Some RC_OK /\ take (a_sz s') (a_msg s') = demo_answer).
Proof.
  destruct (query_resolved_safe demo_globals demo_conf answering_kernel true demo_net (demo_resolve TCP_ONLY) (fun _ => [demo_server]) (fun _ _ => false) 1 0 1000 1024 false (fun _ _ _ _ => 0) ∅ ∅ QueryThms.demo_query None fresh_cache []
    (demo_environment TCP_ONLY) demo_query_bytes demo_ready) as (res & s' & Hrun & Hg & _).
  exists res, s'. split; [exact Hrun|]. split; [exact Hg|].
  assert (E : (fun x => (x.1, take (a_sz x.2) (a_msg x.2))) <$> demo_process (no_answer fresh_cache []) = Some (Some RC_OK, demo_answer)) by (vm_compute; reflexivity).
  rewrite Hrun in E. injection E as E1 E2. by split.
Defined.

#[local] Notation demo_pick := (pick_servers answering_kernel (demo_resolve TCP_ONLY) [1; 97; 0]%Z [demo_server] no_picks).

Lemma pick_servers_correct_witness :
  iruns demo_pick demo_world (fun r w' => exists s, r = Some s /\ pk_one_up s = true /\ pk_serv s = [conf_query (demo_resolve TCP_ONLY) demo_server [10; 0; 0; 9]%Z (Some (reject_list demo_server))]).
Proof.
  destruct (pick_servers_correct answering_kernel (demo_resolve TCP_ONLY) [1; 97; 0]%Z [[97]]%Z [demo_server] demo_world demo_wire
    (Forall_cons_2 _ _ _ demo_server_ok (Forall_nil_2 _)) demo_ready) as (r & w' & E & _ & _ & _ & _ & Hs).
  exists r, w'. split; [exact E|].
  assert (E2 : option_map (fun x : option picked * world => option_map pk_serv x.1) (demo_pick demo_world) = Some (Some [conf_query (demo_resolve TCP_ONLY) demo_server [10; 0; 0; 9]%Z (Some (reject_list demo_server))])) by (vm_compute; reflexivity).
  rewrite E in E2. injection E2 as E2. destruct r as [s|]; [|discriminate E2]. injection E2 as E2. exists s. split; [reflexivity|]. split; [|exact E2].
  destruct (Hs s eq_refl) as (o & chs & _ & _ & _ & _ & Hup). apply Hup. rewrite E2. discriminate.
Defined.

Lemma use_server_correct_witness : use_server demo_server [1; 97; 1; 98; 0]%Z = Some false /\ use_server demo_server [1; 97; 0]%Z = Some true.
Proof.
  split.
  - apply (use_server_correct demo_server [[97]; [98]]%Z [] [demo_rule]); [|constructor; [exact wf_b|constructor]|reflexivity].
    split; [repeat constructor; simpl; lia|vm_compute; lia].
  - apply (use_server_correct demo_server [[97]]%Z [] [demo_rule] wf_a); [constructor; [exact wf_b|constructor]|reflexivity].
Defined.

Lemma demo_cent_good : good_cent demo_cent.
Proof.
  split; [exact demo_cent_ok|]. split; [reflexivity|]. eapply addresses_wire; [apply demo_cent_ok|reflexivity| |repeat constructor; discriminate].
  intros i. do 8 (destruct i as [|i]; [reflexivity|]). reflexivity.
Qed.

#[local] Notation demo_lower := (Some (p_dns_cached_resolve demo_globals demo_conf answering_kernel true demo_net (demo_resolve TCP_ONLY) (fun _ => [demo_server]) (fun _ _ => false) 1 0)).
#[local] Notation demo_auth := (auth_ok answering_kernel (demo_resolve TCP_ONLY) (fun _ _ => false) demo_lower [] [1; 97; 0]%Z T_NS [] [] (demo_query TCP_ONLY) demo_cent [[1; 97; 0; 1; 97; 0]%Z] []).


#[local] Notation demo_uptest := (query_uptest demo_globals demo_conf answering_kernel true demo_net (demo_resolve TCP_ONLY) (fun _ => false) 1 2 [10; 0; 0; 9]%Z 53 (Some [1; 97; 0]%Z) 60).

Lemma server_tests_safe_witness :
  iruns demo_uptest demo_world (fun b w' => b = true /\ socks w' = ∅ /\ heap w' = ∅).
Proof.
  destruct (server_tests_safe demo_globals demo_conf answering_kernel true demo_net (demo_resolve TCP_ONLY) (fun _ => [demo_server]) (fun _ _ => false) (fun _ => false) 1 0
    (sp_atup_a demo_server) 53 60 false 2 [10; 0; 0; 9]%Z (Some [1; 97; 0]%Z) (Some [[97]]%Z) demo_world (demo_environment TCP_ONLY) wf_a demo_wire demo_ready) as [_ (b & w' & E & HS & HH & _)].
  exists b, w'. split; [exact E|]. assert (E2 : fst <$> demo_uptest demo_world = Some true) by (vm_compute; reflexivity). rewrite E in E2. injection E2 as E2. split; [exact E2|]. split; [exact HS|exact HH].
Defined.

(** An entry that was valid until 1300. *)
Lemma lookup_cache_status_correct_witness :
  (fun x => (cs_rc x.1, is_set (cs_cached x.1))) <$> lookup_cache_status 1200 (enc_name [[97]]%Z ++ []) T_A 1250 None demo_cache = Some (RC_CACHED, true) /\
  (fun x => (cs_rc x.1, is_set (cs_cached x.1))) <$> lookup_cache_status 1200 (enc_name [[97]]%Z ++ []) T_MX 1250 None demo_cache = Some (RC_STALE, true) /\
  exists st c', lookup_cache_status 1200 (enc_name [[97]]%Z ++ []) T_A 1250 None demo_cache = Some (st, c') /\ ready c'.
Proof.
  split; [vm_compute; reflexivity|]. split; [vm_compute; reflexivity|].
  assert (Hr : ready demo_cache).
  { destruct (runs_add_good 1000 CacheThms.demo_globals fresh_cache demo_cent demo_ready demo_cent_ok ltac:(apply demo_cent_good)) as (u & c & E & Hg & Hi & _).
    unfold demo_cache. rewrite E. by split. }
  destruct (lookup_cache_status_correct 1200 demo_cache [[97]]%Z [] T_A 1250 None Hr wf_a) as (st & c' & E & Hc & _); [vm_compute; split; discriminate|lia|].
  by exists st, c'.
Defined.
