(* ===== verification/RecurseLimits.v ===== *)
(** The recursion over name servers: where its time limits fail. *)
From S2P Require Import Prelude Names DnsName Compress RrTypes HashTab RrList Cent CentSpec Cache CacheInv CachePurge CacheAdd CacheOps CacheThms.
From S2P Require Import Answer AnswerRr AnswerSet Query QueryDecode QuerySafe QueryThms Reply ReplyData ReplySpec Exec ExecStages ExecSpec ExecThms.
From S2P Require Import Net NetSpec QuerySm SmSpec QueryExec QueryRun QueryLoop QueryStep QueryIoThms Forward Parallel.
From S2P Require Import Resolve ResolveSpec Recurse RecurseSpec RecurseLoop RecursePick RecurseRun RecurseThms.

#[local] Existing Instance LP64.

(** ** The code of a query that still waits

    A server that never answers: connections over TCP are not established, datagrams are sent,
    and [poll] reports nothing.  Each system call takes 100 seconds. *)

Definition silent_kernel (tcp : bool) : kernel := {|
  k_socket := fun _ => None; k_bind := fun _ _ => None; k_fcntl := fun _ => None; k_connect := fun t _ => if tcp && (t <? 9) then Some EINPROGRESS else None;
  k_write := fun _ _ => inl EWOULDBLOCK; k_send := fun _ => None; k_read := fun _ _ => inl EWOULDBLOCK; k_recv := fun _ _ => inl EWOULDBLOCK; k_rand16 := fun _ => 7%Z;
  k_random := fun _ => 1%Z; k_time := fun t => (10000 + 100 * Z.of_nat t)%Z; k_poll := fun _ _ _ => inr [] |}.

(** An address of "a" in the cache that has expired, but is not to be removed. *)
Definition kept_set : rr_set := {| rs_lent := None; rs_ttl := 300; rs_ts := 1000; rs_flags := CF_NOPURGE; rs_rrs := [[10; 0; 0; 1]]%Z |}.
Definition kept_cent : dns_cent :=
  set_cs (cs sample_cent + rrset_size kept_set) (set_num_rrs 1 (set_body (Rr (<[0 := Some kept_set]> no_rrmu) None) sample_cent)).
Definition kept_world : world := {|
  w_cache := match add_cache 1000 demo_globals kept_cent fresh_cache with Some (_, s) => s | None => fresh_cache end;
  socks := ∅; past := []; heap := ∅; ticks := 0; tests := [] |}.

#[local] Notation ask method := (r_dns_cached_resolve demo_globals demo_conf (silent_kernel (bool_decide (method = TCP_UDP))) true demo_net (demo_resolve method)
  (fun _ => [demo_server]) (fun _ _ => false) 1 5 [1; 97; 0]%Z T_A [] 10000 None).

(** When a query over TCP is tried again over UDP and the global time limit is exceeded then,
    [p_recursive_query] returns -1, the code of a query that still waits, instead of the one for
    a failure, and so does the resolver.  This is not an error code of the protocol, and the data
    in the cache that have expired but are kept for such a case are not used, as they are when
    only UDP or only TCP is used. *)
Theorem timeout_code_lost :
  result <$> ask TCP_UDP demo_world = Some ((-1)%Z, None) /\ result <$> ask UDP_ONLY demo_world = Some (RC_SERVFAIL, None) /\
  result <$> ask TCP_UDP kept_world = Some ((-1)%Z, None) /\
  result <$> ask UDP_ONLY kept_world = Some (RC_OK, Some ([1; 97; 0]%Z, [[10; 0; 0; 1]%Z])) /\
  result <$> ask TCP_ONLY kept_world = Some (RC_OK, Some ([1; 97; 0]%Z, [[10; 0; 0; 1]%Z])).
Proof. splits; vm_compute; reflexivity. Qed.

(** ** Datagrams that are no replies

    Whenever a query waits, a datagram of one byte is there. *)

Definition flood_kernel : kernel := {|
  k_socket := fun _ => None; k_bind := fun _ _ => None; k_fcntl := fun _ => None; k_connect := fun _ _ => None; k_write := fun _ n => inr n; k_send := fun _ => None;
  k_read := fun _ _ => inr []; k_recv := fun _ _ => inr [0%Z]; k_rand16 := fun _ => 7%Z;
  k_random := fun _ => 1%Z; k_time := fun t => Z.of_nat t; k_poll := fun _ fds _ => inr (map snd fds) |}.

#[local] Notation flood_loop := (poll_loop demo_globals demo_conf flood_kernel true demo_net (demo_resolve UDP_ONLY) (fun _ _ => false) None [1; 97; 0]%Z T_A [] []).

(** The state of [p_recursive_query] for one server before its queries are started, and after. *)
Definition flood_query : rquery :=
  {| r_q := [demo_query UDP_ONLY]; r_dc := 0; r_mc := 1; r_rv := RC_SERVFAIL; r_ent := None; r_ns := []; r_serv := []; r_save := None; r_qual := 0; r_qse := None; r_c_soa := None |}.
Definition flood_started : rquery * world :=
  match start_loop demo_globals demo_conf flood_kernel true demo_net (demo_resolve UDP_ONLY) (fun _ _ => false) None [1; 97; 0]%Z T_A [] [] 1 0 0 flood_query demo_world with
  | Some ((_, s), w) => (s, w)
  | None => (flood_query, demo_world)
  end.

(** The state when datagrams have come; those that were received over the socket are [l]. *)
Definition flooded : rquery := set_q (map (fun q => q_set_recvl 1 (q_set_recvbuf (Ptr 2) q)) (r_q flood_started.1)) flood_started.1.
Definition flooded_world (t : nat) (l : list (list Z)) : world :=
  let w := flood_started.2 in
  set_ticks t (set_heap (<[2%positive := replicate (Z.to_nat UDP_BUFSIZE) 0%Z]> (heap w))
    (set_socks ((fun c => {| c_type := c_type c; c_port := c_port c; c_peer := c_peer c; c_sent := c_sent c; c_recv := l |}) <$> socks w) w)).

(** The rest of the loop is abstracted from, so that one pass can be evaluated. *)
Ltac one_pass m := cbn [poll_loop]; generalize (flood_loop m); intros ?; vm_compute; reflexivity.

Lemma flood_first m : flood_loop (S m) 0 0 0 flood_started.1 flood_started.2 = flood_loop m 0 0 0 flooded (flooded_world (4 + ticks flood_started.2) [[0%Z]]).
Proof. one_pass m. Qed.

Lemma flood_again m t l : flood_loop (S m) 0 0 0 flooded (flooded_world t l) = flood_loop m 0 0 0 flooded (flooded_world (S (S (S (S t)))) (l ++ [[0%Z]])).
Proof. one_pass m. Qed.

(** C37: time limits are not enforced while datagrams arrive.  If datagrams that are no replies keep
    coming, the loop around [poll] goes on after any number of passes, although the time limits of
    the server (60) and of the configuration (10) have been exceeded: they are used
    only as a limit for [poll], which returns because of the datagram. *)
Theorem flood_keeps_waiting (n : nat) :
  exists s w, (forall m, flood_loop (S n + m) 0 0 0 flood_started.1 flood_started.2 = flood_loop m 0 0 0 s w) /\
    (Z.of_nat n <= k_time flood_kernel (ticks w))%Z /\ map q_state (r_q s) = [QS_UDPRECEIVE].
Proof.
  assert (Hn : exists t l, n <= t /\ forall m, flood_loop (S n + m) 0 0 0 flood_started.1 flood_started.2 = flood_loop m 0 0 0 flooded (flooded_world t l)).
  { induction n as [|n (t & l & Ht & IH)]; [exists (4 + ticks flood_started.2), [[0%Z]]; split; [lia|exact flood_first]|].
    exists (S (S (S (S t)))), (l ++ [[0%Z]]). split; [lia|]. intros m. rewrite <- flood_again. replace (S (S n) + m) with (S n + S m) by lia. exact (IH (S m)). }
  destruct Hn as (t & l & Ht & H). exists flooded, (flooded_world t l). split; [exact H|]. split; [|vm_compute; reflexivity].
  change (Z.of_nat n <= Z.of_nat t)%Z. lia.
Qed.
