(* ===== verification/Threads.v ===== *)
(** Threads that share data under one mutex, as the threads of pdnsd share the table of servers.

    A thread is a program in a monad.  Access to the shared data is one step for each look at it and
    each assignment, so that other threads may come in between; a loop without a bound is an
    [Iter].  [pthread_cond_timedwait] releases the mutex and may return at any time later, because
    of a signal, a timeout or for no reason.  A dangling pointer, a block that is freed twice and a
    violated assertion are [Crash].

    [safe] says for one thread, whatever others do that follow the same rules, that it does not
    crash; [reach_good] says the same for all threads together. *)
From S2P Require Import Prelude.

(** What the environment tells a thread: the result of a system call, the content of a file, or
    addresses. *)
Inductive input := Int (z : Z) | Bytes (l : list Z) | Addrs (l : list (list Z)).

Section Thread.
Context {St : Set}.

Inductive thread : Set -> Type :=
  | Ret {A : Set} (a : A) : thread A
  | Crash {A : Set} : thread A
  | Ask {A : Set} (k : input -> thread A) : thread A
  | Lock {A : Set} (k : thread A) : thread A
  | Unlock {A : Set} (k : thread A) : thread A
  | Wait {A : Set} (until : Z) (k : bool -> thread A) : thread A
  | Get {A : Set} (k : St -> thread A) : thread A
  | Upd {A : Set} (g : St -> St) (k : thread A) : thread A
  | Spawn {A : Set} (k : bool -> thread A) : thread A
  | Iter {A X B : Set} (body : X -> thread (X + B)) (x : X) (k : B -> thread A) : thread A.

Fixpoint tbind {A B : Set} (t : thread A) : (A -> thread B) -> thread B :=
  match t with
  | Ret a => fun k => k a
  | Crash => fun _ => Crash
  | Ask f => fun k => Ask (fun i => tbind (f i) k)
  | Lock t => fun k => Lock (tbind t k)
  | Unlock t => fun k => Unlock (tbind t k)
  | Wait u f => fun k => Wait u (fun b => tbind (f b) k)
  | Get f => fun k => Get (fun s => tbind (f s) k)
  | Upd g t => fun k => Upd g (tbind t k)
  | Spawn f => fun k => Spawn (fun b => tbind (f b) k)
  | Iter body x f => fun k => Iter body x (fun b => tbind (f b) k)
  end.

(** One pass of a loop and what follows it. *)
Definition unroll {A X B : Set} (body : X -> thread (X + B)) (x : X) (k : B -> thread A) : thread A :=
  tbind (body x) (fun r => match r with inl x' => Iter body x' k | inr b => k b end).

(** ** All threads together *)

(** The shared data, the owner of the mutex, and the threads; the flag marks the one that
    takes commands. *)
Record conf := { c_data : St; c_owner : option nat; c_threads : list (bool * thread unit) }.

(** The thread that [pthread_create] starts. *)
Context (child : thread unit).

(** One step of thread [i], whose program is [t]: the program after it, the data and the owner. *)
Inductive tstep {A : Set} (i : nat) : St * option nat * thread A -> St * option nat * thread A -> Prop :=
  | s_ask s o k inp : tstep i (s, o, Ask k) (s, o, k inp)
  | s_lock s k : tstep i (s, None, Lock k) (s, Some i, k)
  | s_unlock s k : tstep i (s, Some i, Unlock k) (s, None, k)
  | s_wait s u k b : tstep i (s, Some i, Wait u k) (s, None, Lock (k b))
  | s_get s o k : tstep i (s, o, Get k) (s, o, k s)
  | s_upd s o g k : tstep i (s, o, Upd g k) (g s, o, k)
  | s_iter s o (X B : Set) (body : X -> thread (X + B)) x k : tstep i (s, o, Iter body x k) (s, o, unroll body x k).

Inductive step : conf -> conf -> Prop :=
  | step_thread s o l i c t s' o' t' : l !! i = Some (c, t) -> tstep i (s, o, t) (s', o', t') ->
      step {| c_data := s; c_owner := o; c_threads := l |} {| c_data := s'; c_owner := o'; c_threads := <[i := (c, t')]> l |}
  | step_spawn s o l i c k : l !! i = Some (c, Spawn k) ->
      step {| c_data := s; c_owner := o; c_threads := l |} {| c_data := s; c_owner := o; c_threads := <[i := (c, k true)]> l ++ [(false, child)] |}
  | step_nospawn s o l i c k : l !! i = Some (c, Spawn k) ->
      step {| c_data := s; c_owner := o; c_threads := l |} {| c_data := s; c_owner := o; c_threads := <[i := (c, k false)]> l |}.

Definition crashed (x : conf) : Prop := exists i c, c_threads x !! i = Some (c, Crash).

(** The states that can be reached. *)
Inductive reach : conf -> conf -> Prop :=
  | reach_refl x : reach x x
  | reach_step x y z : reach x y -> step y z -> reach x z.
End Thread.

(** ** A given order of steps *)

Section Run.
Context {St : Set}.

(** One step of a thread with the given input and outcome of [Wait]; [Spawn] is left out. *)
Definition next {A : Set} (i : nat) (inp : input) (b : bool) (s : St) (o : option nat) (t : @thread St A) : option (St * option nat * @thread St A) :=
  match t with
  | Ret _ | Crash | Spawn _ => None
  | Ask k => Some (s, o, k inp)
  | Lock k => match o with None => Some (s, Some i, k) | Some _ => None end
  | Unlock k => if bool_decide (o = Some i) then Some (s, None, k) else None
  | Wait _ k => if bool_decide (o = Some i) then Some (s, None, Lock (k b)) else None
  | Get k => Some (s, o, k s)
  | Upd g k => Some (g s, o, k)
  | Iter body x k => Some (s, o, unroll body x k)
  end.

Lemma next_tstep {A : Set} i inp b s o (t : @thread St A) s' o' t' : next i inp b s o t = Some (s', o', t') -> tstep i (s, o, t) (s', o', t').
Proof.
  destruct t; cbn; try discriminate; try (intros [= <- <- <-]; constructor).
  - destruct o; [discriminate|]. intros [= <- <- <-]. constructor.
  - destruct (bool_decide _) eqn:E; [|discriminate]. apply bool_decide_eq_true in E as ->. intros [= <- <- <-]. constructor.
  - destruct (bool_decide _) eqn:E; [|discriminate]. apply bool_decide_eq_true in E as ->. intros [= <- <- <-]. constructor.
Qed.

(** A turn: the thread, how many steps it makes, and the input and outcome of [Wait] in them. *)
Record turn := { t_thread : nat; t_steps : nat; t_input : input; t_timeout : bool }.

Fixpoint moves (n i : nat) (inp : input) (b : bool) (x : @conf St) : option (@conf St) :=
  match n with
  | O => Some x
  | S n' =>
      '(c, t) ← c_threads x !! i;
      '(s, o, t) ← next i inp b (c_data x) (c_owner x) t;
      moves n' i inp b {| c_data := s; c_owner := o; c_threads := <[i := (c, t)]> (c_threads x) |}
  end.

Fixpoint run (l : list turn) (x : @conf St) : option (@conf St) :=
  match l with
  | [] => Some x
  | u :: l' => x ← moves (t_steps u) (t_thread u) (t_input u) (t_timeout u) x; run l' x
  end.

Lemma moves_reach child n i inp b x y z : reach child x y -> moves n i inp b y = Some z -> reach child x z.
Proof.
  revert y. induction n as [|n IH]; intros y Hy H; cbn in H; [by injection H as <-|]. destruct (c_threads y !! i) as [[c t]|] eqn:E; [|done]. cbn in H.
  destruct (next i inp b (c_data y) (c_owner y) t) as [[[s o] t']|] eqn:En; [|done]. cbn in H. eapply IH; [|exact H]. eapply reach_step; [exact Hy|].
  destruct y. eapply step_thread; [exact E|]. by apply next_tstep in En.
Qed.

Lemma run_reach child l x y z : reach child x y -> run l y = Some z -> reach child x z.
Proof.
  revert y. induction l as [|u l IH]; intros y Hy H; cbn in H; [by injection H as <-|]. destruct (moves _ _ _ _ y) as [y'|] eqn:E; [|done]. cbn in H.
  eapply IH; [|exact H]. by eapply moves_reach.
Qed.

Definition is_crash {A : Set} (t : @thread St A) : bool := match t with Crash => true | _ => false end.
Definition has_crashed (x : @conf St) : bool := existsb (fun ct => is_crash ct.2) (c_threads x).

Lemma is_crash_spec {A : Set} (t : @thread St A) : is_crash t = true -> t = Crash.
Proof. by destruct t. Qed.

Lemma has_crashed_spec x : has_crashed x = true -> crashed x.
Proof.
  intros H. apply existsb_exists in H as ([c t] & Hin & Ht%is_crash_spec). apply list_elem_of_In, list_elem_of_lookup in Hin as [i Hi]. exists i, c. cbn in Ht. by rewrite Hi, Ht.
Qed.
End Run.

Arguments thread St A : clear implicits.
Arguments conf St : clear implicits.

Declare Scope thread_scope.
Delimit Scope thread_scope with thread.
Notation "x <- m ; k" := (tbind m (fun x => k)) (at level 20, m at level 100, k at level 200, right associativity) : thread_scope.
Notation "' p <- m ; k" := (tbind m (fun x => match x with p => k end)) (at level 20, p pattern, m at level 100, k at level 200, right associativity) : thread_scope.

(** ** The rules *)

Section Safe.
Context {St : Set} (cnt : St -> Z) (same ctl : St -> St -> Prop) (inv : St -> Prop).
Context `{!Equivalence same, !Equivalence ctl}.

(** [cnt] counts the users of the data.  While there are any, the data stay the [same], which leaves
    open what users do not rely on; what [ctl] compares is changed only by the thread that takes
    commands; [inv] holds when the mutex is free.

    What a thread knows when others have run: its role is [c], and it is a user [u] times. *)
Definition rely (c : bool) (u : nat) (s s' : St) : Prop := (0 < u -> same s s') /\ (c = true -> ctl s s').

Lemma rely_refl c u s : rely c u s s.
Proof. by split. Qed.

Lemma rely_trans c u s1 s2 s3 : rely c u s1 s2 -> rely c u s2 s3 -> rely c u s1 s3.
Proof. intros [H1 H2] [H3 H4]. split; intros H; [transitivity s2; auto|transitivity s2; auto]. Qed.

(** [safe c t h u s Q]: a thread of role [c] with the program [t], which holds the mutex if [h], is a
    user [u] times and has last seen the data [s], does not crash, keeps the rules, and ends in [Q]. *)
Fixpoint safe (c : bool) {A : Set} (t : thread St A) : bool -> nat -> St -> (bool -> nat -> St -> A -> Prop) -> Prop :=
  match t with
  | Ret a => fun h u s Q => Q h u s a
  | Crash => fun _ _ _ _ => False
  | Ask k => fun h u s Q => forall i, safe c (k i) h u s Q
  | Lock t => fun h u s Q => h = false /\ forall s', rely c u s s' -> inv s' -> (Z.of_nat u <= cnt s')%Z -> safe c t true u s' Q
  | Unlock t => fun h u s Q => h = true /\ inv s /\ safe c t false u s Q
  | Wait _ k => fun h u s Q => h = true /\ inv s /\ forall b s', rely c u s s' -> inv s' -> (Z.of_nat u <= cnt s')%Z -> safe c (k b) true u s' Q
  | Get k => fun h u s Q => if h : bool then safe c (k s) h u s Q else forall s', rely c u s s' -> safe c (k s') h u s' Q
  | Upd g t => fun h u s Q => h = true /\ exists u', (cnt (g s) - cnt s = Z.of_nat u' - Z.of_nat u)%Z /\
      (same s (g s) \/ cnt s = 0%Z) /\ (c = true \/ ctl s (g s)) /\ safe c t true u' (g s) Q
  | Spawn k => fun h u s Q => forall b, safe c (k b) h u s Q
  | Iter body x k => fun h u s Q => exists I : bool -> nat -> St -> _ -> Prop, I h u s x /\
      forall h u s x, I h u s x -> safe c (body x) h u s (fun h u s r => match r with inl x' => I h u s x' | inr b => safe c (k b) h u s Q end)
  end.

Lemma safe_weaken c {A : Set} (t : thread St A) h u s (Q Q' : bool -> nat -> St -> A -> Prop) :
  safe c t h u s Q -> (forall h u s a, Q h u s a -> Q' h u s a) -> safe c t h u s Q'.
Proof.
  intros H HQ. revert h u s Q Q' H HQ.
  induction t as [A a|A|A k IH|A t IH|A t IH|A w k IH|A k IH|A g t IH|A k IH|A X B body IHb x k IHk]; cbn; intros h u s Q Q' H HQ; try done.
  - by apply HQ.
  - intros i. by eapply IH.
  - destruct H as [Hh H]. split; [done|]. intros s' H1 H2 H3. by eapply IH; [apply H|].
  - destruct H as (Hh & Hi & H). split; [done|]. split; [done|]. by eapply IH.
  - destruct H as (Hh & Hi & H). split; [done|]. split; [done|]. intros b s' H1 H2 H3. by eapply IH; [apply H|].
  - destruct h; [by eapply IH|]. intros s' H1. by eapply IH; [apply H|].
  - destruct H as (Hh & u' & H1 & H2 & H3 & H). split; [done|]. exists u'. splits; try done. by eapply IH.
  - intros b. by eapply IH.
  - destruct H as (I & HI & H). exists I. split; [done|]. intros h' u' s' x' Hx. eapply IHb; [by apply H|]. cbn. intros h2 u2 s2 [x2|b] H2; [done|]. by eapply IHk.
Qed.

Lemma safe_tbind c {A B : Set} (t : thread St A) (k : A -> thread St B) h u s Q :
  safe c t h u s (fun h u s a => safe c (k a) h u s Q) -> safe c (tbind t k) h u s Q.
Proof.
  revert h u s. induction t as [A a|A|A f IH|A t IH|A t IH|A w f IH|A f IH|A g t IH|A f IH|A X C body IHb x f IHk]; cbn; intros h u s H; try done.
  - intros i. by apply IH.
  - destruct H as [Hh H]. split; [done|]. intros s' H1 H2 H3. by apply IH, H.
  - destruct H as (Hh & Hi & H). splits; try done. by apply IH.
  - destruct H as (Hh & Hi & H). splits; try done. intros b s' H1 H2 H3. by apply IH, H.
  - destruct h; [by apply IH|]. intros s' H1. by apply IH, H.
  - destruct H as (Hh & u' & H1 & H2 & H3 & H). split; [done|]. exists u'. splits; try done. by apply IH.
  - intros b. by apply IH.
  - destruct H as (I & HI & H). exists I. split; [done|]. intros h' u' s' x' Hx. eapply safe_weaken; [by apply H|]. cbn. intros h2 u2 s2 [x2|b] H2; [done|]. by apply IHk.
Qed.

Lemma safe_unroll c {A X B : Set} (body : X -> thread St (X + B)) x (k : B -> thread St A) h u s Q :
  safe c (Iter body x k) h u s Q -> safe c (unroll body x k) h u s Q.
Proof.
  intros (I & HI & H). apply safe_tbind. eapply safe_weaken; [by apply H|]. cbn beta. intros h' u' s' [x'|b] Hr; [|done]. by exists I.
Qed.

(** A thread ends without the mutex and is no user then. *)
Definition ends (h : bool) (u : nat) (s : St) (_ : unit) : Prop := h = false /\ u = 0.

(** ** Soundness *)

Abbreviation holds o i := (bool_decide (o = Some i)).

(** What a step of a thread does to the data, as far as others are concerned. *)
Definition effect (c : bool) (u u' : nat) (s s' : St) : Prop :=
  (cnt s' - cnt s = Z.of_nat u' - Z.of_nat u)%Z /\ (same s s' \/ cnt s = 0%Z) /\ (c = true \/ ctl s s').

Lemma effect_refl c u s : effect c u u s s.
Proof. split; [lia|]. by split; [left|right]. Qed.

(** What is known of thread [i] when the data are [s] and the owner is [o]. *)
Definition fine (i : nat) (o : option nat) (s : St) (c : bool) (t : thread St unit) (u : nat) : Prop :=
  exists s0, rely c u s0 s /\ (o = Some i -> s0 = s) /\ safe c t (holds o i) u s0 ends.

Lemma tstep_fine i s o t s' o' t' c u : tstep i (s, o, t) (s', o', t') -> fine i o s c t u -> (o = None -> inv s) -> (Z.of_nat u <= cnt s)%Z ->
  exists u', fine i o' s' c t' u' /\ effect c u u' s s' /\ (o' = None -> inv s') /\
    (o' = o \/ (o = None /\ o' = Some i) \/ (o = Some i /\ o' = None)) /\ (s' = s \/ o = Some i).
Proof.
  intros Hstep (s0 & Hr & Hs0 & Hsafe) Hinv Hu. inversion Hstep; subst; cbn in Hsafe.
  - exists u. split; [exists s0; by splits|]. splits; auto using effect_refl.
  - destruct Hsafe as [_ Hsafe]. exists u. split.
    { exists s'. split; [apply rely_refl; apply _|]. split; [done|]. rewrite bool_decide_true by done. apply Hsafe; [done|by apply Hinv|done]. }
    splits; auto using effect_refl; done.
  - rewrite bool_decide_true in Hsafe by done. destruct Hsafe as (_ & Hi & Hsafe). pose proof (Hs0 eq_refl) as ->. exists u. split.
    { by exists s'. }
    splits; auto using effect_refl.
  - rewrite bool_decide_true in Hsafe by done. destruct Hsafe as (_ & Hi & Hsafe). pose proof (Hs0 eq_refl) as ->. exists u. split.
    { exists s'. split; [done|]. split; [done|]. split; [done|]. intros. by apply Hsafe. }
    splits; auto using effect_refl.
  - exists u. split; [|splits; auto using effect_refl]. exists s'. split; [apply rely_refl; apply _|]. split; [done|].
    destruct (holds o' i) eqn:E; [|by apply Hsafe]. apply bool_decide_eq_true in E. rewrite (Hs0 E) in Hsafe. exact Hsafe.
  - destruct Hsafe as (Hh & u' & H1 & H2 & H3 & Hsafe). apply bool_decide_eq_true in Hh. pose proof (Hs0 Hh) as ->. exists u'. split.
    { exists (g s). split; [apply rely_refl; apply _|]. split; [done|]. by rewrite bool_decide_true. }
    split; [by splits|]. split; [by rewrite Hh|]. split; [by left|by right].
  - exists u. split; [|splits; auto using effect_refl]. exists s0. splits; try done.
    by apply safe_unroll.
Qed.

(** The others are still fine after a step of [i]. *)
Lemma fine_others i j o o' s s' c c' u u' t v : effect c u u' s s' -> (o' = o \/ (o = None /\ o' = Some i) \/ (o = Some i /\ o' = None)) -> (s' = s \/ o = Some i) ->
  i <> j -> (Z.of_nat v <= cnt s)%Z -> ~ (c = true /\ c' = true) -> fine j o s c' t v -> fine j o' s' c' t v.
Proof.
  intros (_ & Hsame & Hctl) Ho Hs Hij Hv Hc (s0 & Hr & Hs0 & Hsafe).
  assert (Ej : o' = Some j <-> o = Some j) by (destruct Ho as [->|[[-> ->]|[-> ->]]]; split; congruence).
  exists s0. split; [|split].
  - eapply rely_trans; [apply _..|exact Hr|]. split; intros H.
    + destruct Hsame as [|E]; [done|]. rewrite E in Hv. lia.
    + destruct Hctl as [->|]; [by destruct Hc|done].
  - intros E. apply Ej in E. rewrite (Hs0 E). destruct Hs as [->|E']; [done|]. congruence.
  - replace (holds o' j) with (holds o j); [done|]. by apply bool_decide_ext.
Qed.

(** ** All threads together *)

(** The count of users is right, the threads are fine, and one at most takes commands. *)
Definition all_fine (x : conf St) : Prop :=
  exists us : list nat, length us = length (c_threads x) /\ cnt (c_data x) = Z.of_nat (sum_list us) /\ (c_owner x = None -> inv (c_data x)) /\
    (forall i, c_owner x = Some i -> i < length us) /\
    (forall i j t t', c_threads x !! i = Some (true, t) -> c_threads x !! j = Some (true, t') -> i = j) /\
    (forall i c t u, c_threads x !! i = Some (c, t) -> us !! i = Some u -> fine i (c_owner x) (c_data x) c t u).

Lemma sum_insert (us : list nat) i u u' : us !! i = Some u -> sum_list (<[i := u']> us) + u = sum_list us + u'.
Proof. revert i. induction us as [|v us IH]; intros [|i] H; cbn in *; [done..|injection H as ->; lia|].
  specialize (IH i H). change (v + sum_list (<[i := u']> us) + u = v + sum_list us + u'). lia.
Qed.

Lemma sum_elem (us : list nat) i u : us !! i = Some u -> u <= sum_list us.
Proof. revert i. induction us as [|v us IH]; intros [|i] H; cbn in *; [done..|injection H as ->; lia|]. specialize (IH i H). lia. Qed.

(** The role of a thread does not change. *)
Lemma commands_insert (l : list (bool * thread St unit)) i c t t0 : l !! i = Some (c, t0) ->
  (forall i j t t', l !! i = Some (true, t) -> l !! j = Some (true, t') -> i = j) ->
  forall j k a b, <[i := (c, t)]> l !! j = Some (true, a) -> <[i := (c, t)]> l !! k = Some (true, b) -> j = k.
Proof.
  intros Hi H j k a b Hj Hk. apply list_lookup_insert_Some in Hj, Hk.
  destruct Hj as [(-> & Hj & _)|[_ Hj]], Hk as [(-> & Hk & _)|[_ Hk]]; [done|..]; try (injection Hj as -> _); try (injection Hk as -> _); by eapply H.
Qed.

Section Sound.
Context (child : thread St unit) (Hchild : forall s, safe false child false 0 s ends).

Lemma fine_insert s o (l : list (bool * thread St unit)) (us : list nat) i c t u s' o' t' u' : (forall i c t u, l !! i = Some (c, t) -> us !! i = Some u -> fine i o s c t u) ->
  (forall i j t t', l !! i = Some (true, t) -> l !! j = Some (true, t') -> i = j) -> cnt s = Z.of_nat (sum_list us) ->
  l !! i = Some (c, t) -> us !! i = Some u -> effect c u u' s s' -> (o' = o \/ (o = None /\ o' = Some i) \/ (o = Some i /\ o' = None)) -> (s' = s \/ o = Some i) ->
  fine i o' s' c t' u' -> forall j d r v, <[i := (c, t')]> l !! j = Some (d, r) -> <[i := u']> us !! j = Some v -> fine j o' s' d r v.
Proof.
  intros Hf Huniq Hcnt Hi Hu Heff Ho Hs Hfine j d r v Hj Hv. destruct (decide (i = j)) as [<-|Hne].
  - rewrite list_lookup_insert_eq in Hj by (by eapply lookup_lt_Some). rewrite list_lookup_insert_eq in Hv by (by eapply lookup_lt_Some).
    injection Hj as <- <-. by injection Hv as <-.
  - rewrite list_lookup_insert_ne in Hj by done. rewrite list_lookup_insert_ne in Hv by done. eapply (fine_others i j); try done.
    + apply sum_elem in Hv. lia.
    + intros [-> ->]. by apply Hne, (Huniq i j t r).
    + by eapply Hf.
Qed.

Lemma all_fine_step x y : step child x y -> all_fine x -> all_fine y.
Proof.
  intros Hstep (us & Hlen & Hcnt & Hinv & Hown & Huniq & Hf).
  assert (Hus : forall i z, c_threads x !! i = Some z -> exists u, us !! i = Some u) by (intros i z Hz; apply lookup_lt_is_Some; rewrite Hlen; by eapply lookup_lt_Some).
  inversion Hstep as [s o l i c t s' o' t' Hi Ht|s o l i c k Hi|s o l i c k Hi]; subst; cbn in *; destruct (Hus i _ Hi) as [u Hu]; pose proof (Hf _ _ _ _ Hi Hu) as Hfi.
  - destruct (tstep_fine _ _ _ _ _ _ _ _ u Ht Hfi Hinv) as (u' & Hfi' & Heff & Hinv' & Ho & Hs); [apply sum_elem in Hu; lia|].
    exists (<[i := u']> us). cbn. rewrite !length_insert. split; [done|]. split.
    { pose proof (sum_insert us i u u' Hu). destruct Heff as [Heff _]. lia. }
    split; [done|]. split.
    { intros j ->. apply lookup_lt_Some in Hu. destruct Ho as [<-|[[-> [= ->]]|[_ [=]]]]; [by apply Hown|done]. }
    split; [by eapply commands_insert|]. by eapply fine_insert.
  - assert (Hfi' : fine i o s c (k true) u) by (destruct Hfi as (s0 & ? & ? & Hk); exists s0; splits; try done; by apply Hk).
    exists (us ++ [0]). cbn. rewrite !length_app, length_insert. split; [cbn; lia|]. split; [rewrite sum_list_with_app; cbn; lia|]. split; [done|].
    split; [intros j Hj; specialize (Hown j Hj); lia|]. split.
    { intros j1 j2 t1 t2 H1 H2. apply lookup_snoc_Some in H1, H2. destruct H1 as [[_ H1]|[_ H1]]; [|done]. destruct H2 as [[_ H2]|[_ H2]]; [|done].
      exact (commands_insert _ _ _ _ _ Hi Huniq _ _ _ _ H1 H2). }
    intros j d r v Hj Hv. apply lookup_snoc_Some in Hj, Hv. rewrite length_insert in Hj. destruct Hj as [[Hlt Hj]|[-> [= <- <-]]].
    + destruct Hv as [[_ Hv]|[-> _]]; [|lia]. eapply (fine_insert s o l us i c (Spawn k) u s o (k true) u); try done; [apply effect_refl|by left..|].
      by rewrite list_insert_id.
    + destruct Hv as [[Hlt _]|[_ <-]]; [lia|]. exists s. split; [apply rely_refl; apply _|]. split; [done|]. rewrite bool_decide_false; [apply Hchild|].
      intros ->. specialize (Hown _ eq_refl). lia.
  - exists us. cbn. rewrite length_insert. splits; try done; [by eapply commands_insert|]. intros j d r v Hj Hv.
    assert (Hfi' : fine i o s c (k false) u) by (destruct Hfi as (s0 & ? & ? & Hk); exists s0; splits; try done; by apply Hk).
    eapply (fine_insert s o l us i c (Spawn k) u s o (k false) u); try done; [apply effect_refl|by left..|]. by rewrite list_insert_id.
Qed.

(** Data that are in use stay the same, and only the owner of the mutex changes anything. *)
Lemma step_same x y : step child x y -> all_fine x -> (same (c_data x) (c_data y) \/ cnt (c_data x) = 0%Z) /\ (c_data y = c_data x \/ exists i, c_owner x = Some i).
Proof.
  intros Hstep (us & Hlen & Hcnt & Hinv & Hown & Huniq & Hf).
  inversion Hstep as [s o l i c t s' o' t' Hi Ht|s o l i c k Hi|s o l i c k Hi]; subst; cbn in *; [|by split; left..].
  destruct (lookup_lt_is_Some_2 us i) as [u Hu]; [rewrite Hlen; by eapply lookup_lt_Some|].
  destruct (tstep_fine _ _ _ _ _ _ _ _ u Ht (Hf _ _ _ _ Hi Hu) Hinv) as (u' & _ & Heff & _ & _ & Hs); [apply sum_elem in Hu; lia|].
  split; [apply Heff|]. destruct Hs as [Hs|Ho]; [by left|]. right. by exists i.
Qed.

(** In every state that is reached from threads that are fine, none has crashed. *)
Lemma reach_fine x y : reach child x y -> all_fine x -> all_fine y.
Proof. induction 1; eauto using all_fine_step. Qed.

Lemma fine_not_crashed x : all_fine x -> ~ crashed x.
Proof.
  intros (us & Hlen & _ & _ & _ & _ & Hf) (i & c & Hi). assert (Hlt : i < length us) by (rewrite Hlen; by eapply lookup_lt_Some).
  apply lookup_lt_is_Some in Hlt as [u Hu]. by destruct (Hf _ _ _ _ Hi Hu) as (s0 & _ & _ & Hs).
Qed.

(** Whether all threads have ended. *)
Definition is_ret {A : Set} (t : thread St A) : bool := match t with Ret _ => true | _ => false end.
Definition ended (x : conf St) : Prop := Forall (fun ct => is_ret ct.2 = true) (c_threads x).

(** A thread that has the mutex, or has not ended while the mutex is free, can go on. *)
Lemma safe_moves {A : Set} (t : thread St A) i o c u s s0 (Q : bool -> nat -> St -> A -> Prop) : safe c t (holds o i) u s0 Q -> (forall u s a, ~ Q true u s a) ->
  o = Some i \/ (o = None /\ is_ret t = false) -> (exists s' o' t', tstep i (s, o, t) (s', o', t')) \/ (exists k, t = Spawn k).
Proof.
  intros Hs HQ Ho. assert (Hh : holds o i = true -> o = Some i) by apply bool_decide_eq_true.
  destruct t; cbn in Hs; try (left; do 3 eexists; by constructor).
  - destruct Ho as [->|[_ H]]; [|done]. rewrite bool_decide_true in Hs by done. by apply HQ in Hs.
  - done.
  - destruct Hs as [Hs _]. destruct Ho as [->|[-> _]]; [by rewrite bool_decide_true in Hs|]. left. do 3 eexists. constructor.
  - destruct Hs as [->%Hh _]. left. do 3 eexists. constructor.
  - destruct Hs as [->%Hh _]. left. do 3 eexists. by apply (s_wait i s until k true).
  - right. by eexists.
  Unshelve. exact (Int 0).
Qed.

Lemma fine_moves x i c t u : c_threads x !! i = Some (c, t) -> fine i (c_owner x) (c_data x) c t u ->
  c_owner x = Some i \/ (c_owner x = None /\ is_ret t = false) -> exists y, step child x y.
Proof.
  destruct x as [s o l]. cbn. intros Hi (s0 & _ & _ & Hs) Ho. destruct (safe_moves t i o c u s s0 ends Hs) as [(s' & o' & t' & H)|[k ->]]; [by intros ? ? ? []|done|..].
  - eexists. by eapply step_thread.
  - eexists. by eapply step_spawn.
Qed.

Lemma fine_goes_on x : all_fine x -> ended x \/ exists y, step child x y.
Proof.
  intros (us & Hlen & _ & _ & Hown & _ & Hf). destruct (c_owner x) as [i|] eqn:Eo.
  - right. pose proof (Hown i eq_refl) as Hi. destruct (lookup_lt_is_Some_2 us i Hi) as [u Hu]. rewrite Hlen in Hi.
    destruct (lookup_lt_is_Some_2 _ i Hi) as [[c t] Ht]. eapply (fine_moves x i c t u); rewrite ?Eo; [done|by eapply Hf|by left].
  - destruct (decide (Forall (fun ct => is_ret ct.2 = true) (c_threads x))) as [He|He]; [by left|]. right.
    apply not_Forall_Exists in He; [|apply _]. apply Exists_exists in He as ([c t] & Hin & Ht). apply list_elem_of_lookup in Hin as [i Hi].
    destruct (lookup_lt_is_Some_2 us i) as [u Hu]; [rewrite Hlen; by eapply lookup_lt_Some|].
    eapply (fine_moves x i c t u); rewrite ?Eo; [done|by eapply Hf|]. right. split; [done|]. by apply not_true_iff_false.
Qed.
End Sound.
End Safe.
