(* ===== verification/Servers.v ===== *)
(** The table of servers and its threads ([pdnsd/src/servers.c], and the exchange of the table in
    [reload_config_file] of conff.c).

    The data are shared by the threads that answer queries, the thread that tests servers, and the
    one that takes commands ([Threads]).  The table is an array, and each of its sections has an array of
    addresses; both are blocks of memory with a number, and a pointer into one of them is good only as
    long as the block is the current one.  The result of a test of a server, the time and the
    content of a file are what the environment says.  The signal that interrupts tests arrives at
    once. *)
From S2P Require Import Prelude Exec Resolve Threads.
Local Open Scope thread_scope.

(** ** Data *)

Record server_data : Set := {
  sd_block : nat; sd_table : list (nat * servparm); sd_next : nat;
  server_data_users : Z; server_status_ping : Z; signal_interrupt : bool; retest_flag : bool; schm : list Z; sd_running : bool }.

Definition set_table v s := {| sd_block := sd_block s; sd_table := v; sd_next := sd_next s; server_data_users := server_data_users s; server_status_ping := server_status_ping s; signal_interrupt := signal_interrupt s; retest_flag := retest_flag s; schm := schm s; sd_running := sd_running s |}.
Definition set_users v s := {| sd_block := sd_block s; sd_table := sd_table s; sd_next := sd_next s; server_data_users := v; server_status_ping := server_status_ping s; signal_interrupt := signal_interrupt s; retest_flag := retest_flag s; schm := schm s; sd_running := sd_running s |}.
Definition set_ping v s := {| sd_block := sd_block s; sd_table := sd_table s; sd_next := sd_next s; server_data_users := server_data_users s; server_status_ping := v; signal_interrupt := signal_interrupt s; retest_flag := retest_flag s; schm := schm s; sd_running := sd_running s |}.
Definition set_interrupt v s := {| sd_block := sd_block s; sd_table := sd_table s; sd_next := sd_next s; server_data_users := server_data_users s; server_status_ping := server_status_ping s; signal_interrupt := v; retest_flag := retest_flag s; schm := schm s; sd_running := sd_running s |}.
Definition set_retest v s := {| sd_block := sd_block s; sd_table := sd_table s; sd_next := sd_next s; server_data_users := server_data_users s; server_status_ping := server_status_ping s; signal_interrupt := signal_interrupt s; retest_flag := v; schm := schm s; sd_running := sd_running s |}.
Definition set_schm v s := {| sd_block := sd_block s; sd_table := sd_table s; sd_next := sd_next s; server_data_users := server_data_users s; server_status_ping := server_status_ping s; signal_interrupt := signal_interrupt s; retest_flag := retest_flag s; schm := v; sd_running := sd_running s |}.
Definition set_running v s := {| sd_block := sd_block s; sd_table := sd_table s; sd_next := sd_next s; server_data_users := server_data_users s; server_status_ping := server_status_ping s; signal_interrupt := signal_interrupt s; retest_flag := retest_flag s; schm := schm s; sd_running := v |}.

Definition at_set_up v (x : atup) : atup := {| at_is_up := v; at_i_ts := at_i_ts x; at_a := at_a x |}.
Definition at_set_ts v (x : atup) : atup := {| at_is_up := at_is_up x; at_i_ts := v; at_a := at_a x |}.

Definition sp_set_atup v (sp : servparm) : servparm := {|
  sp_port := sp_port sp; sp_uptest := sp_uptest sp; sp_timeout := sp_timeout sp; sp_interval := sp_interval sp; sp_scheme := sp_scheme sp;
  sp_purge_cache := sp_purge_cache sp; sp_nocache := sp_nocache sp; sp_lean_query := sp_lean_query sp; sp_edns_query := sp_edns_query sp; sp_is_proxy := sp_is_proxy sp;
  sp_rootserver := sp_rootserver sp; sp_rand_servers := sp_rand_servers sp; sp_rejectrecursively := sp_rejectrecursively sp; sp_rejectpolicy := sp_rejectpolicy sp; sp_policy := sp_policy sp;
  sp_alist := sp_alist sp; sp_atup_a := v; sp_reject_a4 := sp_reject_a4 sp; sp_reject_a6 := sp_reject_a6 sp; sp_preset := sp_preset sp; sp_label := sp_label sp; sp_ping_a := sp_ping_a sp |}.
Definition sp_set_rootserver v (sp : servparm) : servparm := {|
  sp_port := sp_port sp; sp_uptest := sp_uptest sp; sp_timeout := sp_timeout sp; sp_interval := sp_interval sp; sp_scheme := sp_scheme sp;
  sp_purge_cache := sp_purge_cache sp; sp_nocache := sp_nocache sp; sp_lean_query := sp_lean_query sp; sp_edns_query := sp_edns_query sp; sp_is_proxy := sp_is_proxy sp;
  sp_rootserver := v; sp_rand_servers := sp_rand_servers sp; sp_rejectrecursively := sp_rejectrecursively sp; sp_rejectpolicy := sp_rejectpolicy sp; sp_policy := sp_policy sp;
  sp_alist := sp_alist sp; sp_atup_a := sp_atup_a sp; sp_reject_a4 := sp_reject_a4 sp; sp_reject_a6 := sp_reject_a6 sp; sp_preset := sp_preset sp; sp_label := sp_label sp; sp_ping_a := sp_ping_a sp |}.

Abbreviation T := (thread server_data).

(** ** Memory *)

(** A pointer to a section: the block of the table and the index. *)
Record sp_ref : Set := { r_block : nat; r_i : nat }.

(** A pointer to an address of a section: the section, the block of the array and the index. *)
Record at_ref : Set := { a_sp : sp_ref; a_block : nat; a_j : nat }.

Definition deref_sp (s : server_data) (r : sp_ref) : option (nat * servparm) :=
  if (sd_block s =? r_block r) then sd_table s !! r_i r else None.
Definition deref_at (s : server_data) (a : at_ref) : option atup :=
  '(b, sp) ← deref_sp s (a_sp a);
  if (b =? a_block a) then sp_atup_a sp !! a_j a else None.

Definition read_sp (r : sp_ref) : T servparm := Get (fun s => match deref_sp s r with Some (_, sp) => Ret sp | None => Crash end).
Definition read_at (a : at_ref) : T atup := Get (fun s => match deref_at s a with Some x => Ret x | None => Crash end).

Definition put_sp (i : nat) (f : nat * servparm -> nat * servparm) (s : server_data) : server_data := set_table (alter f i (sd_table s)) s.
Definition put_at (i j : nat) (f : atup -> atup) : server_data -> server_data := put_sp i (fun x => (x.1, sp_set_atup (alter f j (sp_atup_a x.2)) x.2)).
Definition write_at (a : at_ref) (f : atup -> atup) : T unit :=
  Get (fun s => match deref_at s a with Some _ => Upd (put_at (r_i (a_sp a)) (a_j a) f) (Ret tt) | None => Crash end).

(** [&DA_INDEX(servers,i)] and [&DA_INDEX(sp->atup_a,j)]. *)
Definition sp_at (i : nat) : T sp_ref := Get (fun s => Ret {| r_block := sd_block s; r_i := i |}).
Definition at_at (r : sp_ref) (j : nat) : T at_ref :=
  Get (fun s => match deref_sp s r with Some (b, _) => Ret {| a_sp := r; a_block := b; a_j := j |} | None => Crash end).

Definition num_servers : T nat := Get (fun s => Ret (length (sd_table s))).
Definition num_addrs (r : sp_ref) : T nat := sp <- read_sp r; Ret (length (sp_atup_a sp)).

(** What the environment says. *)
Definition ask : T Z := Ask (fun i => Ret (match i with Int z => z | _ => 0%Z end)).
Definition ask_bytes : T (list Z) := Ask (fun i => Ret (match i with Bytes l => l | _ => [] end)).
Definition ask_addrs : T (list (list Z)) := Ask (fun i => Ret (match i with Addrs l => l | _ => [] end)).
Definition time : T Z := ask.

(** Loops over the indices from [i] on, [n] of them; [any] tells whether the body was true once. *)
Fixpoint each (n i : nat) (f : nat -> T unit) : T unit :=
  match n with O => Ret tt | S n' => _ <- f i; each n' (S i) f end.
Fixpoint any (n i : nat) (f : nat -> T bool) (acc : bool) : T bool :=
  match n with O => Ret acc | S n' => b <- f i; any n' (S i) f (acc || b) end.

(** ** Users of the data *)

Definition incr_users : T unit := Upd (fun s => set_users (server_data_users s + 1)%Z s) (Ret tt).
Definition decr_users : T unit :=
  u <- Get (fun s => Ret (server_data_users s));
  if (0 <? u)%Z then Upd (set_users (u - 1)%Z) (Ret tt) else Crash.

Definition lock_server_data : T unit := Lock (_ <- incr_users; Unlock (Ret tt)).
Definition unlock_server_data : T unit := Lock (_ <- decr_users; Unlock (Ret tt)).

(** [start_servstat_thread]; 11 stands for an error of [pthread_create]. *)
Definition start_servstat_thread : T Z := Spawn (fun ok => if ok then Upd (set_running true) (Ret 0%Z) else Ret 11%Z).

(** The thread that tests servers is started or woken up. *)
Definition wake_up (retest : bool) : T Z :=
  running <- Get (fun s => Ret (sd_running s));
  if (running : bool) then
    _ <- (if retest then Upd (set_retest true) (Ret tt) else Ret tt);
    ask
  else start_servstat_thread.

(** The thread that tests servers is interrupted. *)
Definition interrupt_tests : T unit :=
  b <- Get (fun s => Ret ((0 <? server_status_ping s)%Z && sd_running s));
  if (b : bool) then (e <- ask; if (e =? 0)%Z then Upd (set_interrupt true) (Ret tt) else Ret tt) else Ret tt.

(** The loop that waits until there is no user; [false] after a timeout. *)
Definition wait_users (until : Z) : T bool :=
  Iter (fun _ : unit =>
    u <- Get (fun s => Ret (server_data_users s));
    if (0 <? u)%Z then Wait until (fun timedout => Ret (if timedout then inr false else inl tt)) else Ret (inr true)) tt Ret.

Definition exclusive_lock_server_data (tm : Z) : T bool :=
  Lock (
    _ <- interrupt_tests;
    now <- time;
    ok <- wait_users (now + tm)%Z;
    if (ok : bool) then Ret true else Unlock (Ret false)).

Definition exclusive_unlock_server_data (retest : bool) : T unit :=
  _ <- (if retest then wake_up false else Ret 0%Z);
  Unlock (Ret tt).

(** ** Tests *)

Section Tests.
(** [fnmatch] of the C library, and whether this is the thread that tests servers. *)
Context (fnmatch : list Z -> list Z -> bool) (self : bool).

(** A string in a buffer: up to a null byte or the end of the line. *)
Fixpoint line (l : list Z) : list Z :=
  match l with
  | [] => []
  | c :: l' => if (c =? 0)%Z || (c =? 10)%Z then [] else c :: line l'
  end.

Definition nonempty (l : list Z) : bool := match l with c :: _ => negb (c =? 0)%Z | [] => false end.

Definition scheme_ok (r : sp_ref) : T bool :=
  sp <- read_sp r;
  if nonempty (sp_scheme sp) then
    known <- Get (fun s => Ret (nonempty (schm s)));
    ok <- (if (known : bool) then Ret true
           else
             sc <- ask;
             if (sc <? 0)%Z then Ret false
             else
               n <- ask;
               if (n <? 0)%Z then Ret false
               else l <- ask_bytes; Upd (set_schm (line (take 31 l))) (Ret true));
    if (ok : bool) then Get (fun s => Ret (fnmatch (sp_scheme sp) (schm s))) else Ret false
  else Ret true.

Definition is_query_test (c : const) : bool := bool_decide (c = C_PING) || bool_decide (c = C_QUERY).

(** The test itself, without the mutex. *)
Definition run_uptest (a : at_ref) (r : sp_ref) (j : nat) : T bool :=
  sp <- read_sp r;
  match sp_uptest sp with
  | C_NONE => a <- at_at r j; x <- read_at a; Ret (at_is_up x)
  | C_PING => _ <- read_at a; z <- ask; Ret (negb (z =? -1)%Z)
  | C_IF => z <- ask; Ret (negb (z =? 0)%Z)
  | C_DEV | C_DIALD => z <- ask; if (z =? 0)%Z then Ret false else z <- ask; Ret (negb (z =? 0)%Z)
  | C_EXEC => z <- ask; Ret (negb (z =? 0)%Z)
  | C_QUERY => _ <- read_at a; z <- ask; Ret (negb (z =? 0)%Z)
  | _ => Ret false
  end.

(** [uptest]: the mutex is released during the test, while the data are in use. *)
Definition uptest (r : sp_ref) (j : nat) : T bool :=
  a <- at_at r j;
  sp <- read_sp r;
  let count := is_query_test (sp_uptest sp) && self in
  _ <- incr_users;
  _ <- (if count then Upd (fun s => set_ping (server_status_ping s + 1)%Z s) (Ret tt) else Ret tt);
  Unlock (
    ret <- run_uptest a r j;
    Lock (
      _ <- (if count then Upd (fun s => set_ping (server_status_ping s - 1)%Z s) (Ret tt) else Ret tt);
      _ <- decr_users;
      Ret ret)).

Definition interrupted_now : T bool := Get (fun s => Ret (signal_interrupt s)).

(** Each address on its own; [n] of them from [j] on. *)
Fixpoint test_each (r : sp_ref) (n j : nat) : T unit :=
  match n with
  | O => Ret tt
  | S n' =>
      a <- at_at r j;
      s_ts <- time;
      up <- uptest r j;
      _ <- write_at a (at_set_up up);
      stop <- interrupted_now;
      if (stop : bool) then Ret tt
      else _ <- write_at a (at_set_ts s_ts); test_each r n' (S j)
  end.

Definition is_inaddr_any (a : list Z) : bool := forallb (fun b => (b =? 0)%Z) a.

(** [retest]: all the addresses of a section, or one. *)
Definition retest (i : nat) (j : option nat) : T unit :=
  r <- sp_at i;
  nsrvs <- num_addrs r;
  if (nsrvs =? 0) then Ret tt
  else
    let '(j, n) := match j with Some j => (j, if (j <? nsrvs) then S j else nsrvs) | None => (0, nsrvs) end in
    ok <- scheme_ok r;
    sp <- read_sp r;
    if negb ok then
      s_ts <- time;
      each (n - j) j (fun j => a <- at_at r j; _ <- write_at a (at_set_up false); write_at a (at_set_ts s_ts))
    else if bool_decide (sp_uptest sp = C_NONE) then
      s_ts <- time;
      each (n - j) j (fun j => a <- at_at r j; write_at a (at_set_ts s_ts))
    else if bool_decide (sp_uptest sp = C_QUERY) || (bool_decide (sp_uptest sp = C_PING) && is_inaddr_any (sp_ping_a sp)) then
      test_each r (n - j) j
    else
      s_ts <- time;
      res <- uptest r j;
      each (n - j) j (fun j =>
        a <- at_at r j;
        _ <- write_at a (at_set_up res);
        stop <- interrupted_now;
        sp <- read_sp r;
        if (stop : bool) && bool_decide (sp_uptest sp = C_PING) then Ret tt else write_at a (at_set_ts s_ts)).

(** ** The thread that tests servers *)

Definition needs_intermittent_testing (sp : servparm) : bool :=
  (0 <? sp_interval sp)%Z && (bool_decide (sp_uptest sp <> C_NONE) || nonempty (sp_scheme sp)).

Definition resolv_rootserver_addrs (r : sp_ref) : T (list (list Z)) :=
  _ <- incr_users;
  Unlock (_ <- read_sp r; adrs <- ask_addrs; Lock (_ <- decr_users; Ret adrs)).

(** Whether a section with root servers that are not known yet has a server to ask. *)
Definition discovery_ready (i : nat) (r : sp_ref) : T bool :=
  ok <- scheme_ok r;
  sp <- read_sp r;
  m <- num_addrs r;
  if negb ok then now <- time; _ <- each m 0 (fun j => a <- at_at r j; write_at a (at_set_ts now)); Ret false
  else if is_query_test (sp_uptest sp) then
    if (0 <? sp_interval sp)%Z then Ret (negb (m =? 0))
    else
      now <- time;
      any m 0 (fun j => a <- at_at r j; x <- read_at a; _ <- write_at a (at_set_ts now); Ret (at_is_up x || (at_i_ts x =? 0)%Z)) false
  else
    _ <- retest i None;
    m <- num_addrs r;
    any m 0 (fun j => a <- at_at r j; x <- read_at a; Ret (at_is_up x)) false.

(** The loop that waits for exclusive access: after a timeout [continue] goes on with this loop,
    although the addresses have been freed.  The result tells whether they have. *)
Definition wait_discovery (until : Z) : T bool :=
  Iter (fun freed : bool =>
    u <- Get (fun s => Ret (server_data_users s));
    if (0 <? u)%Z then Wait until (fun timedout => if timedout then (if freed then Crash else Ret (inl true)) else Ret (inl freed))
    else Ret (inr freed)) false Ret.

Fixpoint new_addrs (r : sp_ref) (adrs : list (list Z)) : T (list atup) :=
  match adrs with
  | [] => Ret []
  | a :: adrs' =>
      sp <- read_sp r;
      ts <- (if (sp_interval sp <? 0)%Z then time else Ret 0%Z);
      l <- new_addrs r adrs';
      Ret ({| at_is_up := sp_preset sp; at_i_ts := ts; at_a := a |} :: l)
  end.

(** The section gets the addresses that were found; [None] when nothing comes of it, with whether to
    keep testing. *)
Definition discover (i : nat) (r : sp_ref) : T (option bool) :=
  ready <- discovery_ready i r;
  if negb ready then sp <- read_sp r; Ret (Some (needs_intermittent_testing sp))
  else
    adrs <- resolv_rootserver_addrs r;
    match adrs with
    | [] => m <- num_addrs r; Ret (Some (negb (m =? 0)))
    | _ =>
        now <- time;
        freed <- wait_discovery (now + 60)%Z;
        mem <- ask;
        if (freed : bool) then Crash
        else if (mem =? 0)%Z then Ret (Some true)
        else
          ata <- new_addrs r adrs;
          Upd (fun s => put_sp (r_i r) (fun x => (sd_next s, sp_set_rootserver 1 (sp_set_atup ata x.2)))
                 {| sd_block := sd_block s; sd_table := sd_table s; sd_next := S (sd_next s); server_data_users := server_data_users s;
                    server_status_ping := server_status_ping s; signal_interrupt := signal_interrupt s; retest_flag := retest_flag s; schm := schm s; sd_running := sd_running s |})
            (Ret None)
    end.

(** The tests of single addresses that are due; [n] of them from [j] on. *)
Fixpoint individual_tests (i : nat) (r : sp_ref) (n j : nat) : T unit :=
  match n with
  | O => Ret tt
  | S n' =>
      stop <- interrupted_now;
      if (stop : bool) then Ret tt
      else
        a <- at_at r j;
        x <- read_at a;
        sp <- read_sp r;
        due <- (if (at_i_ts x =? 0)%Z then Ret true
                else if needs_intermittent_testing sp then now <- time; Ret ((sp_interval sp <? now - at_i_ts x)%Z || (now <? at_i_ts x)%Z)
                else Ret false);
        _ <- (if (due : bool) then retest i (Some j) else Ret tt);
        individual_tests i r n' (S j)
  end.

(** One section: whether to keep testing. *)
Definition test_section (i : nat) : T bool :=
  r <- sp_at i;
  sp <- read_sp r;
  d <- (if (sp_rootserver sp =? 2)%Z then discover i r else Ret None);
  match d with
  | Some keep => Ret keep
  | None =>
      sp <- read_sp r;
      let keep := needs_testing sp in
      m <- num_addrs r;
      some <- any m 0 (fun j => a <- at_at r j; x <- read_at a; Ret (negb (at_i_ts x =? 0)%Z)) false;
      _ <- (if (some : bool) then individual_tests i r m 0
            else stop <- interrupted_now; if (stop : bool) then Ret tt else retest i None);
      Ret keep
  end.

(** All sections, again as long as somebody asks for it. *)
Definition test_sections : T bool :=
  Iter (fun _ : unit =>
    _ <- Upd (set_retest false) (Ret tt);
    _ <- Upd (set_schm []) (Ret tt);
    n <- num_servers;
    keep <- any n 0 test_section false;
    stop <- interrupted_now;
    again <- Get (fun s => Ret (retest_flag s));
    Ret (if negb stop && again then inl tt else inr keep)) tt Ret.

(** The time to wait for the next test, in seconds. *)
Definition min_wait (now : Z) (l : list servparm) : Z :=
  foldl (fun w sp => foldl (fun w x =>
    if (at_i_ts x =? 0)%Z then (if (0 <? w)%Z then 0%Z else w)
    else if needs_intermittent_testing sp then (let wait := (at_i_ts x + sp_interval sp - now)%Z in if (wait <? w)%Z then wait else w)
    else w) w (sp_atup_a sp)) 3600%Z l.

(** The time at which to wake up, in seconds and nanoseconds: half a second later than that. *)
Definition wake_time (now usec : Z) (l : list servparm) : Z * Z :=
  let minwait := min_wait now l in
  let sec := if (0 <? minwait)%Z then (now + minwait)%Z else now in
  let nsec := (usec * 1000 + 500000000)%Z in
  if (1000000000 <=? nsec)%Z then (sec + 1, nsec - 1000000000)%Z else (sec, nsec).

Definition servstat_thread : T unit :=
  Lock (
    _ <- Upd (set_interrupt false) (Ret tt);
    Iter (fun _ : unit =>
      keep <- test_sections;
      _ <- Upd (set_interrupt false) (Ret tt);
      if negb keep then Ret (inr tt)
      else
        now <- time;
        usec <- ask;
        l <- Get (fun s => Ret (map snd (sd_table s)));
        Wait (fst (wake_time now usec l)) (fun _ => Ret (inl tt))) tt
      (fun _ => Upd (set_running false) (Unlock (Ret tt)))).

(** ** Commands and queries *)

(** What is done to one address: marked up or down, or scheduled for a test. *)
Definition mark_at (up : option bool) (a : at_ref) : T bool :=
  match up with
  | Some b => _ <- write_at a (at_set_up b); now <- time; _ <- write_at a (at_set_ts now); Ret false
  | None => x <- read_at a; if (at_i_ts x =? 0)%Z then Ret false else _ <- write_at a (at_set_ts 0); Ret true
  end.

Definition sched_one (up : option bool) (sa : list Z) : T bool :=
  n <- num_servers;
  any n 0 (fun i =>
    r <- sp_at i;
    m <- num_addrs r;
    any m 0 (fun j => a <- at_at r j; x <- read_at a; if bool_decide (at_a x = sa) then mark_at up a else Ret false) false) false.

Fixpoint sched_all (up : option bool) (sa : list (list Z)) (acc : bool) : T bool :=
  match sa with
  | [] => Ret acc
  | a :: sa' => b <- sched_one up a; sched_all up sa' (acc || b)
  end.

(** [sched_server_test]; [up] is [None] for a test. *)
Definition sched_server_test (sa : list (list Z)) (up : option bool) : T unit :=
  Lock (_ <- sched_all up sa false; Unlock (Ret tt)).

Definition matches (label : option (list Z)) (sp : servparm) : bool :=
  match label with None => true | Some l => bool_decide (sp_label sp = Some l) end.

Definition mark_section (label : option (list Z)) (up : option bool) (i : nat) : T bool :=
  r <- sp_at i;
  sp <- read_sp r;
  if matches label sp then
    m <- num_addrs r;
    let root := negb (m =? 0) && (1 <? sp_rootserver sp)%Z && match up with Some true => true | _ => false end in
    any m 0 (fun j => a <- at_at r j; mark_at up a) root
  else Ret false.

(** [mark_servers]: one section or all of them, those with the label. *)
Definition mark_servers (i : option nat) (label : option (list Z)) (up : option bool) : T Z :=
  Lock (
    n <- num_servers;
    let '(i, n) := match i with Some i => (i, if (i <? n) then S i else n) | None => (0, n) end in
    signal_test <- any (n - i) i (mark_section label up) false;
    rv <- (if (signal_test : bool) then wake_up true else Ret 0%Z);
    Unlock (Ret rv)).

Definition onquery_section (i : nat) : T bool :=
  r <- sp_at i;
  sp <- read_sp r;
  if (sp_interval sp =? -1)%Z then
    if (sp_rootserver sp <=? 1)%Z then _ <- retest i None; Ret false
    else m <- num_addrs r; _ <- each m 0 (fun j => a <- at_at r j; write_at a (at_set_ts 0)); Ret true
  else Ret false.

Definition test_onquery : T unit :=
  Lock (
    _ <- Upd (set_schm []) (Ret tt);
    n <- num_servers;
    signal_test <- any n 0 onquery_section false;
    _ <- (if (signal_test : bool) then wake_up true else Ret 0%Z);
    Unlock (Ret tt)).

Fixpoint same_addrs (ar : list (list Z)) (l : list atup) : bool :=
  match ar, l with
  | a :: ar', x :: l' => bool_decide (a = at_a x) && same_addrs ar' l'
  | _, _ => true
  end.

Definition ETIMEDOUT : Z := 110.
Definition ENOMEM : Z := 12.

(** Exclusive access for [change_servers], and the new array: an error code, or none. *)
Definition change_addrs (r : sp_ref) (n : nat) : T (option Z) :=
  _ <- interrupt_tests;
  now <- time;
  ok <- wait_users (now + 60)%Z;
  if negb ok then Ret (Some ETIMEDOUT)
  else
    mem <- ask;
    if (mem =? 0)%Z then Ret (Some ENOMEM)
    else
      sp <- read_sp r;
      Upd (fun s => put_sp (r_i r) (fun x => (sd_next s, (if (1 <? sp_rootserver x.2)%Z then sp_set_rootserver 1 else id)
                                                 (sp_set_atup (replicate n {| at_is_up := false; at_i_ts := 0; at_a := [] |}) x.2)))
             {| sd_block := sd_block s; sd_table := sd_table s; sd_next := S (sd_next s); server_data_users := server_data_users s;
                server_status_ping := server_status_ping s; signal_interrupt := signal_interrupt s; retest_flag := retest_flag s; schm := schm s; sd_running := sd_running s |})
        (Ret None).

(** What is done to each address of the section. *)
Definition change_at (r : sp_ref) (change : bool) (up : option bool) (j : nat) (new : list Z) : T bool :=
  a <- at_at r j;
  sp <- read_sp r;
  _ <- (if change then write_at a (fun x => {| at_is_up := sp_preset sp; at_i_ts := at_i_ts x; at_a := new |}) else Ret tt);
  match up with
  | Some b => _ <- write_at a (at_set_up b); now <- time; _ <- write_at a (at_set_ts now); Ret false
  | None => x <- read_at a; if change || negb (at_i_ts x =? 0)%Z then _ <- write_at a (at_set_ts 0); Ret true else Ret false
  end.

Fixpoint change_all (r : sp_ref) (change : bool) (up : option bool) (j : nat) (ar : list (list Z)) (acc : bool) : T bool :=
  match ar with
  | [] => Ret acc
  | new :: ar' => b <- change_at r change up j new; change_all r change up (S j) ar' (acc || b)
  end.

(** [change_servers]: its return value. *)
Definition change_servers (i : nat) (ar : list (list Z)) (up : option bool) : T Z :=
  Lock (
    r <- sp_at i;
    sp <- read_sp r;
    let change := negb (length ar =? length (sp_atup_a sp)) || (1 <? sp_rootserver sp)%Z || negb (same_addrs ar (sp_atup_a sp)) in
    e <- (if change then change_addrs r (length ar) else Ret None);
    match e with
    | Some e => Unlock (Ret e)
    | None =>
        signal_test <- change_all r change up 0 ar false;
        rv <- (if (signal_test : bool) then wake_up true else Ret 0%Z);
        Unlock (Ret rv)
    end).

(** The new table in [reload_config_file]: whether it was put in place. *)
Definition exchange_servers (servers_new : list servparm) : T bool :=
  ok <- exclusive_lock_server_data 60;
  if (ok : bool) then
    _ <- Upd (fun s => {| sd_block := sd_next s; sd_table := zip (seq (S (sd_next s)) (length servers_new)) servers_new; sd_next := sd_next s + S (length servers_new);
                          server_data_users := server_data_users s; server_status_ping := server_status_ping s; signal_interrupt := signal_interrupt s;
                          retest_flag := retest_flag s; schm := schm s; sd_running := sd_running s |}) (Ret tt);
    _ <- exclusive_unlock_server_data true;
    Ret true
  else Ret false.

Fixpoint look_sections (n i : nat) : T (list servparm) :=
  match n with
  | O => Ret []
  | S n' => r <- sp_at i; sp <- read_sp r; l <- look_sections n' (S i); Ret (sp :: l)
  end.

(** What [p_dns_resolve], [p_dns_cached_resolve] and [report_conf_stat] do with the table: they look
    at its sections one after the other. *)
Definition read_servers : T (list servparm) :=
  _ <- lock_server_data;
  n <- num_servers;
  l <- look_sections n 0;
  _ <- unlock_server_data;
  Ret l.
End Tests.
