(* ===== verification/ServersSpec.v ===== *)
(** The table of servers: what each operation does while other threads run. *)
From S2P Require Import Prelude Exec Resolve Threads Servers.

(** ** What users rely on *)

(** An address and a section without what is known of their status. *)
Definition shape_at (x : atup) : atup := {| at_is_up := false; at_i_ts := 0; at_a := at_a x |}.
Definition shape (sp : servparm) : servparm := sp_set_atup (map shape_at (sp_atup_a sp)) sp.

(** The same table, except for the status of servers. *)
Definition same (s s' : server_data) : Prop :=
  sd_block s = sd_block s' /\ map (prod_map id shape) (sd_table s) = map (prod_map id shape) (sd_table s').

(** A table at the same place and of the same size. *)
Definition same_place (s s' : server_data) : Prop := sd_block s = sd_block s' /\ length (sd_table s) = length (sd_table s').

(** There are no root servers left to discover. *)
Definition no_discovery (l : list servparm) : Prop := Forall (fun sp => (sp_rootserver sp <= 1)%Z) l.
Definition data_ok (s : server_data) : Prop := no_discovery (map snd (sd_table s)).

#[export] Instance same_equiv : Equivalence same.
Proof. split; [by intros s|intros s s' []; by split|intros s1 s2 s3 [] []; split; congruence]. Qed.
#[export] Instance same_place_equiv : Equivalence same_place.
Proof. split; [by intros s|intros s s' []; by split|intros s1 s2 s3 [] []; split; congruence]. Qed.

Lemma same_same_place s s' : same s s' -> same_place s s'.
Proof. intros [E H]. split; [done|]. apply (f_equal length) in H. by rewrite !length_map in H. Qed.

Lemma same_lookup s s' i x : same s s' -> sd_table s !! i = Some x -> exists x', sd_table s' !! i = Some x' /\ x'.1 = x.1 /\ shape x'.2 = shape x.2.
Proof.
  intros [_ H] Hx. apply (f_equal (fun l => l !! i)) in H. rewrite !list_lookup_fmap, Hx in H. destruct (sd_table s' !! i) as [x'|]; [|discriminate H].
  exists x'. split; [done|]. assert (H2 : prod_map id shape x = prod_map id shape x') by (apply (inj Some); exact H).
  split; [exact (eq_sym (f_equal fst H2))|exact (eq_sym (f_equal snd H2))].
Qed.

Lemma shape_uptest sp sp' : shape sp' = shape sp -> sp_uptest sp' = sp_uptest sp /\ sp_rootserver sp' = sp_rootserver sp /\ sp_interval sp' = sp_interval sp /\ sp_scheme sp' = sp_scheme sp /\
  length (sp_atup_a sp') = length (sp_atup_a sp).
Proof.
  intros H. assert (H2 : map shape_at (sp_atup_a sp') = map shape_at (sp_atup_a sp)) by exact (f_equal sp_atup_a H). apply (f_equal length) in H2. rewrite !length_map in H2.
  splits; [exact (f_equal sp_uptest H)|exact (f_equal sp_rootserver H)|exact (f_equal sp_interval H)|exact (f_equal sp_scheme H)|done].
Qed.

Lemma same_ok s s' : same s s' -> data_ok s -> data_ok s'.
Proof.
  intros Hs Hok. unfold data_ok, no_discovery in *. apply Forall_forall. intros sp Hin. apply list_elem_of_fmap in Hin as (x' & -> & Hin).
  apply list_elem_of_lookup in Hin as [i Hi]. symmetry in Hs. destruct (same_lookup _ _ _ _ Hs Hi) as (x & Hx & _ & Hsh). apply shape_uptest in Hsh as (_ & <- & _).
  rewrite Forall_forall in Hok. apply Hok, list_elem_of_fmap. exists x. split; [done|]. by eapply list_elem_of_lookup_2.
Qed.

Lemma deref_same s s' r x : same s s' -> deref_sp s r = Some x -> exists x', deref_sp s' r = Some x' /\ x'.1 = x.1 /\ shape x'.2 = shape x.2.
Proof.
  intros Hs. unfold deref_sp. replace (sd_block s') with (sd_block s) by apply Hs. destruct (sd_block s =? r_block r); [|done]. by apply same_lookup.
Qed.

Lemma shape_lookup sp sp' j x : shape sp' = shape sp -> sp_atup_a sp !! j = Some x -> exists x', sp_atup_a sp' !! j = Some x' /\ at_a x' = at_a x.
Proof.
  intros H Hx. assert (H2 : map shape_at (sp_atup_a sp') = map shape_at (sp_atup_a sp)) by exact (f_equal sp_atup_a H).
  apply (f_equal (fun l => l !! j)) in H2. rewrite !list_lookup_fmap, Hx in H2. destruct (sp_atup_a sp' !! j) as [x'|]; [|discriminate H2].
  exists x'. split; [done|]. by injection H2.
Qed.

Lemma deref_at_same s s' a x : same s s' -> deref_at s a = Some x -> exists x', deref_at s' a = Some x' /\ at_a x' = at_a x.
Proof.
  intros Hs H. unfold deref_at in *. destruct (deref_sp s (a_sp a)) as [[b sp]|] eqn:E; [|done]. destruct (deref_same _ _ _ _ Hs E) as ([b' sp'] & -> & Eb & Esp). cbn in *. subst b'.
  destruct (b =? a_block a); [|done]. by eapply shape_lookup.
Qed.

Lemma map_alter {A B} (g : A -> B) f (l : list A) i : (forall x, g (f x) = g x) -> map g (alter f i l) = map g l.
Proof. intros H. revert i. induction l as [|x l IH]; intros [|i]; cbn; [done..|by rewrite H|]. f_equal. apply IH. Qed.

Lemma same_put_at i j f s : (forall x, shape_at (f x) = shape_at x) -> same s (put_at i j f s).
Proof.
  intros H. split; [done|]. symmetry. apply map_alter. intros [b sp]. unfold prod_map, shape. cbn. by rewrite map_alter.
Qed.

(** ** Threads that leave the table the same *)

Abbreviation ssafe := (safe server_data_users same same_place data_ok).

(** The data are looked at with the mutex, or as a user without it. *)
Definition may_look (h : bool) (u : nat) (s : server_data) : Prop := if h then (Z.of_nat u <= server_data_users s)%Z else 0 < u.

(** Started with data that are the same as [s], the program ends so, with a result in [R]; in between
    it may release the mutex as a user. *)
Definition calm (c : bool) (s : server_data) (h : bool) {A : Set} (t : T A) (R : A -> Prop) : Prop :=
  forall u s1, same s s1 -> may_look h u s1 -> ssafe c t h u s1 (fun h' u' s' a => h' = h /\ u' = u /\ same s s' /\ may_look h u s' /\ R a).

Section Calm.
Context (c : bool) (s : server_data) (h : bool).
#[local] Notation calm := (calm c s h).

Lemma calm_ret {A : Set} (a : A) (R : A -> Prop) : R a -> calm (Ret a) R.
Proof. by intros HR u s1 Hs Hu. Qed.

Lemma calm_bind {A B : Set} (t : T A) (k : A -> T B) R1 R : calm t R1 -> (forall a, R1 a -> calm (k a) R) -> calm (tbind t k) R.
Proof.
  intros H1 H2 u s1 Hs Hu. apply safe_tbind. eapply safe_weaken; [by apply H1|]. cbn beta. intros h' u' s' a (-> & -> & Hs' & Hu' & Ha). by apply H2.
Qed.

Lemma calm_weaken {A : Set} (t : T A) (R R' : A -> Prop) : calm t R -> (forall a, R a -> R' a) -> calm t R'.
Proof. intros H HR u s1 Hs Hu. eapply safe_weaken; [by apply H|]. cbn beta. intros h' u' s' a (? & ? & ? & ? & ?). splits; auto. Qed.

Lemma calm_get {A : Set} (k : server_data -> T A) R : (forall s1, same s s1 -> calm (k s1) R) -> calm (Get k) R.
Proof.
  intros H u s1 Hs Hu. cbn. revert H Hu. unfold ServersSpec.calm, may_look. destruct h; intros H Hu; [by apply H|]. intros s2 [H2 _]. specialize (H2 Hu).
  assert (H3 : same s s2) by (by transitivity s1). by apply H.
Qed.

Lemma calm_ask {A : Set} (k : input -> T A) R : (forall i, calm (k i) R) -> calm (Ask k) R.
Proof. intros H u s1 Hs Hu i. by apply H. Qed.

Lemma calm_spawn {A : Set} (k : bool -> T A) R : (forall b, calm (k b) R) -> calm (Spawn k) R.
Proof. intros H u s1 Hs Hu b. by apply H. Qed.

Lemma calm_iter {A X B : Set} (body : X -> T (X + B)) x (k : B -> T A) R1 R :
  (forall x, calm (body x) (fun r => match r with inl _ => True | inr b => R1 b end)) -> (forall b, R1 b -> calm (k b) R) -> calm (Iter body x k) R.
Proof.
  intros Hb Hk u s1 Hs Hu. exists (fun h' u' s' _ => h' = h /\ u' = u /\ same s s' /\ may_look h u s'). split; [by splits|].
  intros h' u' s' x' (-> & -> & Hs' & Hu'). eapply safe_weaken; [by apply Hb|]. cbn beta. intros h2 u2 s2 [x2|b] (-> & -> & Hs2 & Hu2 & Hr); [by splits|].
  by apply Hk.
Qed.

(** *** Access to the table *)

Lemma calm_read_sp r x : deref_sp s r = Some x -> calm (read_sp r) (fun sp => shape sp = shape x.2).
Proof. intros H. apply calm_get. intros s1 Hs. destruct (deref_same _ _ _ _ Hs H) as ([b sp] & -> & _ & E). by apply calm_ret. Qed.

Lemma calm_sp_at i : calm (sp_at i) (fun r => r = {| r_block := sd_block s; r_i := i |}).
Proof. apply calm_get. intros s1 [-> _]. by apply calm_ret. Qed.

Lemma calm_num_servers : calm num_servers (fun n => n = length (sd_table s)).
Proof. apply calm_get. intros s1 [_ ->]%same_same_place. by apply calm_ret. Qed.

Lemma calm_num_addrs r x : deref_sp s r = Some x -> calm (num_addrs r) (fun n => n = length (sp_atup_a x.2)).
Proof. intros H. eapply calm_bind; [by apply calm_read_sp|]. intros sp E. apply calm_ret. by apply shape_uptest in E as (_ & _ & _ & _ & E). Qed.

Lemma calm_at_at r x j : deref_sp s r = Some x -> calm (at_at r j) (fun a => a = {| a_sp := r; a_block := x.1; a_j := j |}).
Proof. intros H. apply calm_get. intros s1 Hs. destruct (deref_same _ _ _ _ Hs H) as ([b sp] & -> & E & _). cbn in E. subst. by apply calm_ret. Qed.

Lemma deref_at_ref r x j : deref_sp s r = Some x -> j < length (sp_atup_a x.2) -> exists y, deref_at s {| a_sp := r; a_block := x.1; a_j := j |} = Some y.
Proof. intros H Hj. unfold deref_at. cbn. rewrite H. destruct x as [b sp]. cbn. rewrite Nat.eqb_refl. by apply lookup_lt_is_Some. Qed.

Lemma calm_read_at a x : deref_at s a = Some x -> calm (read_at a) (fun y => at_a y = at_a x).
Proof. intros H. apply calm_get. intros s1 Hs. destruct (deref_at_same _ _ _ _ Hs H) as (y & -> & E). by apply calm_ret. Qed.

Lemma calm_z : calm ask (fun _ => True).
Proof. apply calm_ask. intros i. by apply calm_ret. Qed.

Lemma calm_each n i f : (forall j, i <= j < i + n -> calm (f j) (fun _ => True)) -> calm (each n i f) (fun _ => True).
Proof.
  revert i. induction n as [|n IH]; intros i H; cbn [each]; [by apply calm_ret|]. eapply calm_bind; [apply H; lia|]. intros _ _. apply IH. intros j Hj. apply H. lia.
Qed.

Lemma calm_any n i f acc : (forall j, i <= j < i + n -> calm (f j) (fun _ => True)) -> calm (any n i f acc) (fun _ => True).
Proof.
  revert i acc. induction n as [|n IH]; intros i acc H; cbn [any]; [by apply calm_ret|]. eapply calm_bind; [apply H; lia|]. intros b _. apply IH. intros j Hj. apply H. lia.
Qed.
End Calm.

(** *** With the mutex *)

Section Holding.
Context (c : bool) (s : server_data) (Hok : data_ok s).

#[local] Notation calm := (calm c s true).

Lemma calm_upd {A : Set} (g : server_data -> server_data) (k : T A) R :
  (forall s1, same s s1 -> same s1 (g s1) /\ server_data_users (g s1) = server_data_users s1) -> calm k R -> calm (Upd g k) R.
Proof.
  intros Hg Hk u s1 Hs Hu. destruct (Hg s1 Hs) as [H1 H2]. split; [done|]. exists u. rewrite H2. split; [lia|]. split; [by left|].
  split; [right; by apply same_same_place|]. apply Hk; [by transitivity s1|]. unfold may_look. by rewrite H2.
Qed.

Lemma calm_write_at a x f : deref_at s a = Some x -> (forall y, shape_at (f y) = shape_at y) -> calm (write_at a f) (fun _ => True).
Proof.
  intros H Hf. apply calm_get. intros s1 Hs. destruct (deref_at_same _ _ _ _ Hs H) as (y & -> & _). apply calm_upd; [|by apply calm_ret].
  intros s2 _. split; [by apply same_put_at|done].
Qed.

(** The mutex is released while the data are in use. *)
Lemma calm_use {A : Set} (pre post : T unit) (t : T A) R : calm pre (fun _ => True) -> ServersSpec.calm c s false t R -> calm post (fun _ => True) ->
  calm (tbind incr_users (fun _ => tbind pre (fun _ => Unlock (tbind t (fun a => Lock (tbind post (fun _ => tbind decr_users (fun _ => Ret a)))))))) R.
Proof.
  intros Hpre Ht Hpost u s1 Hs Hu. split; [done|]. exists (S u). cbn. unfold may_look in *. split; [lia|]. split; [by left|]. split; [by right|].
  apply safe_tbind. eapply safe_weaken; [apply (Hpre (S u)); [by transitivity s1|cbn; lia]|]. cbn beta. intros h2 u2 s2 _ (-> & -> & Hs2 & Hu2 & _).
  split; [done|]. split; [by eapply same_ok|]. apply safe_tbind. eapply safe_weaken; [apply (Ht (S u)); [done|cbn; lia]|]. cbn beta.
  intros h3 u3 s3 a (-> & -> & Hs3 & _ & Ha). split; [done|]. intros s4 [H4 _] _ Hu4. assert (Hs4 : same s s4) by (transitivity s3; [done|apply H4; lia]).
  apply safe_tbind. eapply safe_weaken; [by apply (Hpost (S u))|]. cbn beta. intros h5 u5 s5 _ (-> & -> & Hs5 & Hu5 & _). cbn in Hu5.
  cbn. bool_true (0 <? server_data_users s5)%Z. cbn. split; [done|]. exists u. split; [lia|]. split; [by left|]. split; [by right|]. splits; try done. lia.
Qed.
End Holding.

(** A step of a proof that a program is [calm]. *)
Ltac calm_step := lazymatch goal with
  | |- calm _ _ _ (tbind (read_sp _) _) _ => eapply calm_bind; [by eapply calm_read_sp|]; intros ?sp ?Hsp
  | |- calm _ _ _ (tbind (sp_at _) _) _ => eapply calm_bind; [apply calm_sp_at|]; intros ? ->
  | |- calm _ _ _ (tbind num_servers _) _ => eapply calm_bind; [apply calm_num_servers|]; intros ? ->
  | |- calm _ _ _ (tbind (num_addrs _) _) _ => eapply calm_bind; [by eapply calm_num_addrs|]; intros ? ->
  | |- calm _ _ _ (tbind (at_at _ _) _) _ => eapply calm_bind; [by eapply calm_at_at|]; intros ? ->
  | |- calm _ _ _ (tbind (read_at _) _) _ => eapply calm_bind; [by eapply calm_read_at|]; intros ?x ?Hx
  | |- calm _ _ _ (tbind (write_at _ _) _) _ => eapply calm_bind; [by eapply calm_write_at|]; intros [] _
  | |- calm _ _ _ (tbind ask _) _ => eapply calm_bind; [apply calm_z|]; intros ? _
  | |- calm _ _ _ (tbind time _) _ => eapply calm_bind; [apply calm_z|]; intros ? _
  | |- calm _ _ _ (write_at _ _) _ => by eapply calm_write_at
  | |- calm _ _ _ (Ret _) _ => by apply calm_ret
  end.

(** ** The operations *)

Section Ops.
Context (fnmatch : list Z -> list Z -> bool) (c : bool) (s : server_data) (Hok : data_ok s).

#[local] Notation calm := (calm c s true).
#[local] Notation here i := {| r_block := sd_block s; r_i := i |}.

Lemma deref_here i : i < length (sd_table s) -> exists x, deref_sp s (here i) = Some x /\ (sp_rootserver x.2 <= 1)%Z.
Proof.
  intros Hi. unfold deref_sp. cbn. rewrite Nat.eqb_refl. apply lookup_lt_is_Some in Hi as [x Hx]. exists x. split; [done|].
  unfold data_ok, no_discovery in Hok. rewrite Forall_forall in Hok. apply Hok, list_elem_of_fmap. exists x. split; [done|]. by eapply list_elem_of_lookup_2.
Qed.

Lemma calm_interrupted : calm interrupted_now (fun _ => True).
Proof. apply calm_get. intros s1 _. by apply calm_ret. Qed.

(** Updates of other variables than the table. *)
Lemma calm_set {A : Set} g (k : T A) R : (forall s1, sd_table (g s1) = sd_table s1 /\ sd_block (g s1) = sd_block s1 /\ server_data_users (g s1) = server_data_users s1) ->
  calm k R -> calm (Upd g k) R.
Proof. intros Hg. apply calm_upd. intros s1 _. destruct (Hg s1) as (E1 & E2 & E3). split; [split; by rewrite ?E1, ?E2|done]. Qed.

Lemma calm_scheme_ok r x : deref_sp s r = Some x -> calm (scheme_ok fnmatch r) (fun _ => True).
Proof.
  intros Hr. unfold scheme_ok. calm_step. destruct (nonempty _); [|calm_step]. eapply calm_bind with (R1 := fun _ => True).
  - apply calm_get. intros s1 _. by apply calm_ret.
  - intros known _. eapply calm_bind with (R1 := fun _ => True).
    + destruct known; [calm_step|]. calm_step. destruct (_ <? 0)%Z; [calm_step|]. calm_step. destruct (_ <? 0)%Z; [calm_step|].
      eapply calm_bind with (R1 := fun _ => True); [apply calm_ask; intros i; by apply calm_ret|]. intros l _. by apply calm_set, calm_ret.
    + intros [] _; [|calm_step]. apply calm_get. intros s1 _. by apply calm_ret.
Qed.

Lemma calm_uptest self r x j : deref_sp s r = Some x -> j < length (sp_atup_a x.2) -> calm (uptest self r j) (fun _ => True).
Proof.
  intros Hr Hj. unfold uptest. destruct (deref_at_ref s r x j Hr Hj) as [y Hy]. calm_step. calm_step.
  apply (calm_use c s Hok _ _ (run_uptest _ r j)).
  - destruct (_ && _); [by apply calm_set, calm_ret|calm_step].
  - unfold run_uptest. calm_step. destruct (sp_uptest sp0); repeat calm_step; destruct (_ =? 0)%Z; repeat calm_step.
  - destruct (_ && _); [by apply calm_set, calm_ret|calm_step].
Qed.

Lemma shape_up b y : shape_at (at_set_up b y) = shape_at y.
Proof. done. Qed.
Lemma shape_ts t y : shape_at (at_set_ts t y) = shape_at y.
Proof. done. Qed.

Lemma calm_test_each self r x n j : deref_sp s r = Some x -> j + n <= length (sp_atup_a x.2) -> calm (test_each self r n j) (fun _ => True).
Proof.
  intros Hr. revert j. induction n as [|n IH]; intros j Hj; cbn [test_each]; [calm_step|]. destruct (deref_at_ref s r x j Hr) as [y Hy]; [lia|].
  calm_step. calm_step. eapply calm_bind; [eapply calm_uptest; [done|lia]|]. intros up _. calm_step. eapply calm_bind; [apply calm_interrupted|].
  intros [] _; [calm_step|]. calm_step. apply IH. lia.
Qed.

(** Each index of a loop over addresses is one of the section. *)
Ltac each_at Hr j Hj := intros j Hj; destruct (deref_at_ref s _ _ j Hr) as [?y ?Hy]; [lia|].

Lemma calm_retest self i j x : deref_sp s (here i) = Some x -> match j with Some j => j < length (sp_atup_a x.2) | None => True end ->
  calm (retest fnmatch self i j) (fun _ => True).
Proof.
  intros Hr Hj. unfold retest. calm_step. calm_step. destruct (length (sp_atup_a x.2) =? 0) eqn:E0; [calm_step|]. apply Nat.eqb_neq in E0.
  set (jn := match j with Some j => _ | None => _ end). assert (Hjn : jn.1 < jn.2 <= length (sp_atup_a x.2)).
  { unfold jn. destruct j as [j|]; [|cbn; lia]. bool_true (j <? length (sp_atup_a x.2)). cbn. lia. }
  destruct jn as [j0 n]. cbn in Hjn. eapply calm_bind; [by eapply calm_scheme_ok|]. intros ok _. calm_step. destruct (negb ok).
  { calm_step. apply calm_each. each_at Hr k Hk. repeat calm_step. }
  destruct (bool_decide _).
  { calm_step. apply calm_each. each_at Hr k Hk. repeat calm_step. }
  destruct (_ || _); [eapply calm_test_each; [done|lia]|]. calm_step. eapply calm_bind; [eapply calm_uptest; [done|lia]|]. intros res _.
  apply calm_each. each_at Hr k Hk. repeat calm_step. eapply calm_bind; [apply calm_interrupted|]. intros stop _. calm_step. destruct (_ && _); calm_step.
Qed.

Lemma calm_individual self i x n j : deref_sp s (here i) = Some x -> j + n <= length (sp_atup_a x.2) -> calm (individual_tests fnmatch self i (here i) n j) (fun _ => True).
Proof.
  intros Hr. revert j. induction n as [|n IH]; intros j Hj; cbn [individual_tests]; [calm_step|]. eapply calm_bind; [apply calm_interrupted|]. intros [] _; [calm_step|].
  destruct (deref_at_ref s _ x j Hr) as [y Hy]; [lia|]. repeat calm_step. eapply calm_bind with (R1 := fun _ => True).
  - destruct (_ =? 0)%Z; [calm_step|]. destruct (needs_intermittent_testing _); repeat calm_step.
  - intros due _. eapply calm_bind with (R1 := fun _ => True); [|intros _ _; apply IH; lia]. destruct due; [|calm_step]. eapply calm_retest; [done|]. cbn. lia.
Qed.

Lemma calm_test_section self i : i < length (sd_table s) -> calm (test_section fnmatch self i) (fun _ => True).
Proof.
  intros Hi. destruct (deref_here i Hi) as (x & Hr & Hroot). unfold test_section. calm_step. calm_step. apply shape_uptest in Hsp as (_ & Er & _).
  bool_false (sp_rootserver sp =? 2)%Z. eapply calm_bind; [by apply (calm_ret c s true None (fun d => d = None))|]. intros d ->. calm_step. calm_step.
  eapply calm_bind; [apply calm_any; each_at Hr k Hk; repeat calm_step|]. intros some _. eapply calm_bind with (R1 := fun _ => True); [|intros; calm_step].
  destruct some; [by eapply calm_individual|]. eapply calm_bind; [apply calm_interrupted|]. intros [] _; [calm_step|]. by eapply calm_retest.
Qed.

Lemma calm_test_sections self : calm (test_sections fnmatch self) (fun _ => True).
Proof.
  apply calm_iter with (R1 := fun _ => True); [|intros; calm_step]. intros _. eapply calm_bind with (R1 := fun _ => True); [by apply calm_set, calm_ret|]. intros _ _.
  eapply calm_bind with (R1 := fun _ => True); [by apply calm_set, calm_ret|]. intros _ _. calm_step. eapply calm_bind.
  { apply calm_any. intros j Hj. apply calm_test_section. lia. }
  intros keep _. eapply calm_bind; [apply calm_interrupted|]. intros stop _. eapply calm_bind with (R1 := fun _ => True); [apply calm_get; intros; calm_step|].
  intros again _. apply calm_ret. by destruct (_ && _).
Qed.

Lemma calm_wake_up b : calm (wake_up b) (fun _ => True).
Proof.
  eapply calm_bind with (R1 := fun _ => True); [apply calm_get; intros; calm_step|]. intros [] _.
  - eapply calm_bind with (R1 := fun _ => True); [destruct b; [by apply calm_set, calm_ret|calm_step]|]. intros _ _. apply calm_z.
  - apply calm_spawn. intros []; [by apply calm_set, calm_ret|calm_step].
Qed.

Lemma calm_wake_if (b : bool) : calm (if b then wake_up true else Ret 0%Z) (fun _ => True).
Proof. destruct b; [apply calm_wake_up|calm_step]. Qed.

Lemma calm_interrupt_tests : calm interrupt_tests (fun _ => True).
Proof.
  eapply calm_bind with (R1 := fun _ => True); [apply calm_get; intros; calm_step|]. intros [] _; [|calm_step]. calm_step.
  destruct (_ =? 0)%Z; [by apply calm_set, calm_ret|calm_step].
Qed.

Lemma calm_mark_at up a x : deref_at s a = Some x -> calm (mark_at up a) (fun _ => True).
Proof. intros Ha. unfold mark_at. destruct up; repeat calm_step. destruct (_ =? 0)%Z; repeat calm_step. Qed.

Lemma calm_sched_all up sa acc : calm (sched_all up sa acc) (fun _ => True).
Proof.
  revert acc. induction sa as [|a sa IH]; intros acc; cbn [sched_all]; [calm_step|]. eapply calm_bind with (R1 := fun _ => True); [|intros b _; apply IH].
  unfold sched_one. calm_step. apply calm_any. intros i Hi. destruct (deref_here i) as (x & Hr & _); [lia|]. repeat calm_step. apply calm_any. each_at Hr k Hk. repeat calm_step.
  destruct (bool_decide _); [by eapply calm_mark_at|calm_step].
Qed.

Lemma calm_mark_section label up i : i < length (sd_table s) -> calm (mark_section label up i) (fun _ => True).
Proof.
  intros Hi. destruct (deref_here i Hi) as (x & Hr & _). unfold mark_section. repeat calm_step. destruct (matches _ _); [|calm_step]. calm_step.
  apply calm_any. each_at Hr k Hk. calm_step. by eapply calm_mark_at.
Qed.

Lemma calm_onquery self i : i < length (sd_table s) -> calm (onquery_section fnmatch self i) (fun _ => True).
Proof.
  intros Hi. destruct (deref_here i Hi) as (x & Hr & _). unfold onquery_section. repeat calm_step. destruct (_ =? -1)%Z; [|calm_step]. destruct (_ <=? 1)%Z.
  - eapply calm_bind; [by eapply calm_retest|]. intros; calm_step.
  - calm_step. eapply calm_bind; [apply calm_each; each_at Hr k Hk; repeat calm_step|]. intros; calm_step.
Qed.
End Ops.
