(* ===== verification/ServersRun.v ===== *)
(** The table of servers: the operations that start without the mutex, and the threads. *)
From S2P Require Import Prelude Exec Resolve Threads Servers ServersSpec.

(** ** From one operation to the next *)

(** What a thread that is no user knows of the data when it has the mutex. *)
Definition held (s : server_data) : Prop := data_ok s /\ (0 <= server_data_users s)%Z.

(** The thread is outside of every operation, with a result in [R]. *)
Definition outside {A : Set} (R : server_data -> A -> Prop) (h : bool) (u : nat) (s : server_data) (a : A) : Prop := h = false /\ u = 0 /\ R s a.

Section Run.
Context (fnmatch : list Z -> list Z -> bool) (c : bool).

Lemma calm_then {A B : Set} s s1 u (t : T A) (k : A -> T B) R Q : calm c s true t R -> same s s1 -> (Z.of_nat u <= server_data_users s1)%Z ->
  (forall s' a, same s s' -> (Z.of_nat u <= server_data_users s')%Z -> R a -> ssafe c (k a) true u s' Q) -> ssafe c (tbind t k) true u s1 Q.
Proof.
  intros Ht Hs Hu Hk. apply safe_tbind. eapply safe_weaken; [by apply (Ht u)|]. cbn beta. intros h' u' s' a (-> & -> & Hs' & Hu' & Ha). by apply Hk.
Qed.

(** An operation that leaves the table the same and ends with the release of the mutex. *)
Lemma safe_lock {A : Set} (t : T A) s Q : (forall s', held s' -> rely same same_place c 0 s s' -> ssafe c t true 0 s' Q) -> ssafe c (Lock t) false 0 s Q.
Proof. intros H. split; [done|]. intros s' Hr Hok Hu. apply H; [by split|done]. Qed.

Lemma safe_unlock {A : Set} (a : A) s s' u (R : server_data -> A -> Prop) : data_ok s -> same s s' -> R s' a -> u = 0 -> ssafe c (Unlock (Ret a)) true u s' (outside R).
Proof. intros Hok Hs HR ->. split; [done|]. split; [by eapply same_ok|done]. Qed.

(** *** Users of the data *)

Lemma run_lock_server_data s Q : (forall s', held s' -> rely same same_place c 0 s s' -> Q false 1 (set_users (server_data_users s' + 1)%Z s') tt) -> ssafe c lock_server_data false 0 s Q.
Proof.
  intros H. apply safe_lock. intros s' [Hok Hu] Hr. cbn. split; [done|]. exists 1. split; [lia|]. split; [by left|]. split; [by right|]. split; [done|]. split; [done|].
  by apply H.
Qed.

Lemma run_unlock_server_data s (R : server_data -> unit -> Prop) : (forall s', R s' tt) -> ssafe c unlock_server_data false 1 s (outside R).
Proof.
  intros HR. split; [done|]. intros s' Hr Hok Hu. cbn. bool_true (0 <? server_data_users s')%Z. cbn. split; [done|]. exists 0. split; [lia|]. split; [by left|]. split; [by right|].
  split; [done|]. split; [done|]. split; [done|]. split; [done|]. apply HR.
Qed.

(** A user sees each section as it was when it became one. *)
Lemma calm_look_sections s n i : i + n <= length (sd_table s) -> calm c s false (look_sections n i) (fun l => map shape l = map (fun x => shape x.2) (take n (drop i (sd_table s)))).
Proof.
  revert i. induction n as [|n IH]; intros i Hi; cbn [look_sections]; [by apply calm_ret|]. destruct (lookup_lt_is_Some_2 (sd_table s) i) as [x Hx]; [lia|].
  assert (Hr : deref_sp s {| r_block := sd_block s; r_i := i |} = Some x) by (unfold deref_sp; cbn; by rewrite Nat.eqb_refl). repeat calm_step.
  eapply calm_bind; [apply IH; lia|]. intros l Hl. apply calm_ret. cbn [map]. rewrite (drop_S _ _ _ Hx). cbn. f_equal; [done|exact Hl].
Qed.

Lemma run_read_servers s : ssafe c read_servers false 0 s (outside (fun _ l => exists s1, held s1 /\ rely same same_place c 0 s s1 /\ map shape l = map (fun x => shape x.2) (sd_table s1))).
Proof.
  unfold read_servers. apply safe_tbind. apply run_lock_server_data. intros s1 Hs1 Hr. set (s2 := set_users _ s1). apply safe_tbind.
  eapply safe_weaken; [apply (calm_num_servers c s2 false 1); [done|cbn; lia]|]. cbn beta. intros h u s3 n (-> & -> & Hs3 & _ & ->). apply safe_tbind.
  eapply safe_weaken; [apply (calm_look_sections s2 (length (sd_table s2)) 0); [done|done|cbn; lia]|]. cbn beta. intros h u s4 l (-> & -> & Hs4 & _ & Hl). apply safe_tbind.
  eapply safe_weaken; [by apply (run_unlock_server_data _ (fun _ _ => True))|]. cbn beta. intros h u s5 _ (-> & -> & _). split; [done|]. split; [done|].
  exists s1. split; [done|]. split; [done|]. rewrite Hl, drop_0, firstn_all. done.
Qed.

(** *** Exclusive access *)

Lemma run_wait_users until s Q : held s ->
  (forall s' b, held s' -> (c = true -> same_place s s') -> (b = true -> server_data_users s' = 0%Z) -> Q true 0 s' b) -> ssafe c (wait_users until) true 0 s Q.
Proof.
  intros Hs HQ. exists (fun h u s' _ => h = true /\ u = 0 /\ held s' /\ (c = true -> same_place s s')). split; [by splits|].
  intros h u s1 [] (-> & -> & [Hok Hu] & Hpl). cbn. destruct (0 <? server_data_users s1)%Z eqn:E; boolp.
  - cbn. split; [done|]. split; [done|]. intros b s2 [_ Hr] Hok2 Hu2. assert (Hpl2 : c = true -> same_place s s2) by (intros Hc; transitivity s1; auto). destruct b; cbn; [|by splits].
    by apply HQ.
  - cbn. apply HQ; [by split|done|]. intros _. lia.
Qed.

Lemma run_exclusive_lock tm s Q : (forall s', held s' -> rely same same_place c 0 s s' -> server_data_users s' = 0%Z -> Q true 0 s' true) -> (forall s', Q false 0 s' false) ->
  ssafe c (exclusive_lock_server_data tm) false 0 s Q.
Proof.
  intros Hyes Hno. apply safe_lock. intros s1 [Hok1 Hu1] Hr. apply (calm_then s1 s1 0 _ _ _ _ (calm_interrupt_tests c s1)); [done|done|]. intros s2 _ Hs2 Hu2 _.
  apply (calm_then s1 s2 0 _ _ _ _ (calm_z c s1 true)); [done|done|]. intros s3 now Hs3 Hu3 _. apply safe_tbind. apply run_wait_users; [split; [by eapply same_ok|done]|].
  intros s4 b Hs4 Hpl Hz. destruct b; [|split; [done|]; split; [apply Hs4|apply Hno]]. apply Hyes; [done| |by apply Hz]. split; [lia|]. intros Hc.
  transitivity s1; [by apply Hr|]. transitivity s3; [by apply same_same_place|auto].
Qed.

(** *** Commands and queries *)

Lemma run_sched_server_test sa up s : ssafe c (sched_server_test sa up) false 0 s (outside (fun _ _ => True)).
Proof.
  apply safe_lock. intros s1 [Hok Hu] _. apply (calm_then s1 s1 0 _ _ _ _ (calm_sched_all c s1 Hok up sa false)); [done|done|]. intros s2 _ Hs2 _ _. by eapply safe_unlock.
Qed.

Lemma run_mark_servers i label up s : ssafe c (mark_servers i label up) false 0 s (outside (fun _ _ => True)).
Proof.
  apply safe_lock. intros s1 [Hok Hu] _. apply (calm_then s1 s1 0 _ _ _ _ (calm_num_servers c s1 true)); [done|done|]. intros s2 n Hs2 Hu2 ->.
  destruct (match i with Some i => _ | None => _ end) as [i0 n] eqn:Ein.
  assert (Hin : n <= length (sd_table s1)) by (destruct i as [i|]; injection Ein as <- <-; [destruct (i <? _) eqn:E; boolp; lia|lia]).
  eapply (calm_then s1 s2 0); [apply calm_any; intros j Hj; apply (calm_mark_section c s1 Hok); lia|done|done|]. intros s3 b Hs3 Hu3 _.
  eapply (calm_then s1 s3 0); [apply calm_wake_if|done|done|]. intros s4 rv Hs4 _ _. by eapply safe_unlock.
Qed.

Lemma run_test_onquery self s : ssafe c (test_onquery fnmatch self) false 0 s (outside (fun _ _ => True)).
Proof.
  apply safe_lock. intros s1 [Hok Hu] _. eapply (calm_then s1 s1 0 _ _ (fun _ => True)); [by apply calm_set, calm_ret|done|done|]. intros s2 _ Hs2 Hu2 _.
  apply (calm_then s1 s2 0 _ _ _ _ (calm_num_servers c s1 true)); [done|done|]. intros s3 n Hs3 Hu3 ->.
  eapply (calm_then s1 s3 0); [apply calm_any; intros j Hj; apply (calm_onquery fnmatch c s1 Hok); lia|done|done|]. intros s4 b Hs4 Hu4 _.
  eapply (calm_then s1 s4 0); [apply calm_wake_if|done|done|]. intros s5 rv Hs5 _ _. by eapply safe_unlock.
Qed.

(** The thread that tests servers never stops by itself as long as there is something to test. *)
Lemma run_servstat_thread self s : ssafe c (servstat_thread fnmatch self) false 0 s ends.
Proof.
  apply safe_lock. intros s1 [Hok Hu] _. split; [done|]. exists 0. split; [cbn; lia|]. split; [by left|]. split; [by right|].
  exists (fun h u s' _ => h = true /\ u = 0 /\ held s'). split; [by splits|]. clear. intros h u s [] (-> & -> & [Hok Hu]).
  eapply (calm_then s s 0); [by apply (calm_test_sections fnmatch c s Hok)|done|done|]. intros s2 keep Hs2 Hu2 _.
  eapply (calm_then s s2 0 _ _ (fun _ => True)); [by apply calm_set, calm_ret|done|done|]. intros s3 _ Hs3 Hu3 _. destruct keep; cbn [negb].
  - eapply (calm_then s s3 0); [apply calm_z|done|done|]. intros s4 now Hs4 Hu4 _. cbn. split; [done|]. split; [by eapply same_ok|]. by intros _ s5 _ Hok5 Hu5.
  - cbn. split; [done|]. exists 0. split; [lia|]. split; [by left|]. split; [by right|]. split; [done|]. split; [by eapply same_ok|]. by split.
Qed.
End Run.

(** ** Commands that change the table *)

Section Change.
Abbreviation csafe := (ssafe true).

Lemma table_new (l : list servparm) n : map snd (zip (seq n (length l)) l) = l.
Proof. apply (snd_zip (seq n (length l)) l). by rewrite length_seq. Qed.

Lemma run_exchange_servers new s : no_discovery new -> csafe (exchange_servers new) false 0 s (outside (fun _ _ => True)).
Proof.
  intros Hnew. unfold exchange_servers. apply safe_tbind. apply run_exclusive_lock; [|intros s1; cbn; unfold outside; splits; done]. intros s1 [Hok Hu] _ Hz. set (g := fun s : server_data => _).
  split; [done|]. exists 0. split; [cbn; lia|]. split; [by right|]. split; [by left|].
  assert (Hg : data_ok (g s1)) by (unfold data_ok; replace (map snd _) with new; [done|symmetry; apply table_new]). cbn [tbind exclusive_unlock_server_data].
  apply safe_tbind. eapply (calm_then true (g s1) (g s1) 0); [apply calm_wake_up|done|done|]. intros s2 _ Hs2 _ _. split; [done|]. split; [by eapply same_ok|]. by split.
Qed.

(** The data while [change_servers] has exclusive access: the section [r] has [n] addresses. *)
Definition changing (s0 : server_data) (r : sp_ref) (n : nat) (s : server_data) : Prop :=
  held s /\ server_data_users s = 0%Z /\ same_place s0 s /\ exists x, deref_sp s r = Some x /\ length (sp_atup_a x.2) = n.

Lemma data_ok_put i f s : (forall x, (sp_rootserver x.2 <= 1)%Z -> (sp_rootserver (f x).2 <= 1)%Z) -> data_ok s -> data_ok (put_sp i f s).
Proof. unfold data_ok, no_discovery. cbn. rewrite !Forall_fmap. intros Hf Hs. apply Forall_alter; [done|]. intros x _. apply Hf. Qed.

Lemma deref_put r f s x : deref_sp s r = Some x -> deref_sp (put_sp (r_i r) f s) r = Some (f x).
Proof. unfold deref_sp. cbn. destruct (_ =? _); [|done]. intros Hx. by rewrite list_lookup_alter_eq, Hx. Qed.

Lemma changing_put s0 r n j f s : changing s0 r n s -> changing s0 r n (put_at (r_i r) j f s).
Proof.
  intros ([Hok Hu] & Hz & Hpl & x & Hx & Hn). split; [split; [by apply data_ok_put|done]|]. split; [done|]. split.
  - transitivity s; [done|]. split; [done|]. cbn. by rewrite length_alter.
  - eexists. split; [by apply deref_put|]. cbn. by rewrite length_alter.
Qed.

Lemma exclusive_write s0 r n a f : a_sp a = r -> forall s, changing s0 r n s -> is_Some (deref_at s a) -> csafe (write_at a f) true 0 s (fun h u s' _ => h = true /\ u = 0 /\ changing s0 r n s' /\ is_Some (deref_at s' a)).
Proof.
  intros Er s Hs [y Hy]. cbn. rewrite Hy. cbn. split; [done|]. exists 0. split; [lia|]. split; [right; apply Hs|]. split; [by left|]. split; [done|]. split; [done|].
  rewrite Er. split; [by apply changing_put|]. unfold deref_at in *. destruct (deref_sp s (a_sp a)) as [[b sp]|] eqn:E; [|done]. cbn in Hy. destruct (b =? a_block a) eqn:Eb; [|done].
  rewrite <- Er. unfold put_at. rewrite (deref_put _ _ _ _ E). cbn. rewrite Eb, list_lookup_alter_eq, Hy. by eexists.
Qed.

(** A write to an address in the middle of a program. *)
Lemma exclusive_write_then {B : Set} s0 r n a f (k : unit -> T B) s Q : a_sp a = r -> changing s0 r n s -> is_Some (deref_at s a) ->
  (forall s', changing s0 r n s' -> is_Some (deref_at s' a) -> csafe (k tt) true 0 s' Q) -> csafe (tbind (write_at a f) k) true 0 s Q.
Proof.
  intros Er Hs Ha Hk. apply safe_tbind. eapply safe_weaken; [by apply (exclusive_write s0 r n)|]. cbn beta. intros h u s' [] (-> & -> & Hs' & Ha'). by apply Hk.
Qed.

Lemma run_change_at s0 r n change up j new s : changing s0 r n s -> j < n -> csafe (change_at r change up j new) true 0 s (fun h u s' _ => h = true /\ u = 0 /\ changing s0 r n s').
Proof.
  intros Hs Hj. pose proof Hs as (_ & _ & _ & [b sp] & Hx & Hn). cbn in Hn. unfold change_at. cbn. rewrite Hx. cbn. rewrite Hx. cbn. set (a := {| a_sp := r; a_block := b; a_j := j |}).
  assert (Ha : is_Some (deref_at s a)) by (unfold deref_at; cbn; rewrite Hx; cbn; rewrite Nat.eqb_refl; apply lookup_lt_is_Some; lia).
  assert (Hrest : forall s1, changing s0 r n s1 -> is_Some (deref_at s1 a) -> csafe (match up with
     | Some b => tbind (write_at a (at_set_up b)) (fun _ => tbind time (fun now => tbind (write_at a (at_set_ts now)) (fun _ => Ret false)))
     | None => tbind (read_at a) (fun x => if change || negb (at_i_ts x =? 0)%Z then tbind (write_at a (at_set_ts 0)) (fun _ => Ret true) else Ret false)
     end) true 0 s1 (fun h u s' _ => h = true /\ u = 0 /\ changing s0 r n s')).
  { intros s1 Hs1 Ha1. destruct up as [up|].
    - apply (exclusive_write_then s0 r n); [done..|]. intros s2 Hs2 Ha2 i. cbn [tbind]. apply (exclusive_write_then s0 r n); [done..|]. by intros s3 Hs3 Ha3.
    - cbn [tbind read_at safe]. destruct Ha1 as [y Hy]. rewrite Hy. cbn [tbind]. destruct (_ || _); [|by splits]. apply (exclusive_write_then s0 r n); [done|done|by eexists|]. by intros s3 Hs3 Ha3. }
  destruct change; [|by apply Hrest]. apply (exclusive_write_then s0 r n); [done..|]. intros s1 Hs1 Ha1. by apply Hrest.
Qed.

Lemma run_change_all s0 r n change up ar j acc s : changing s0 r n s -> j + length ar <= n ->
  csafe (change_all r change up j ar acc) true 0 s (fun h u s' _ => h = true /\ u = 0 /\ changing s0 r n s').
Proof.
  revert j acc s. induction ar as [|a ar IH]; intros j acc s Hs Hj; [by cbn|]. cbn [length] in Hj. cbn [change_all]. apply safe_tbind.
  eapply safe_weaken; [apply (run_change_at s0 r n); [done|lia]|]. cbn beta. intros h u s' b (-> & -> & Hs'). apply IH; [done|lia].
Qed.

(** Without new addresses only the status changes. *)
Lemma calm_change_all s r x up ar j acc : deref_sp s r = Some x -> j + length ar <= length (sp_atup_a x.2) -> calm true s true (change_all r false up j ar acc) (fun _ => True).
Proof.
  intros Hr. revert j acc. induction ar as [|a ar IH]; intros j acc Hj; cbn [change_all]; [calm_step|]. cbn [length] in Hj.
  destruct (deref_at_ref s r x j Hr) as [y Hy]; [lia|]. eapply calm_bind with (R1 := fun _ => True); [|intros b _; apply IH; lia].
  unfold change_at. repeat calm_step. eapply calm_bind with (R1 := fun _ => True); [calm_step|]. intros _ _. destruct up; repeat calm_step. destruct (_ || _); repeat calm_step.
Qed.

Lemma run_change_addrs s0 r x n s Q : held s -> same s0 s -> deref_sp s0 r = Some x -> (forall s' e, held s' -> Q true 0 s' (Some e)) ->
  (forall s', changing s0 r n s' -> Q true 0 s' None) -> csafe (change_addrs r n) true 0 s Q.
Proof.
  intros [Hok Hu] Hs0 Hr Herr Hnew. unfold change_addrs. eapply (calm_then true s0 s 0); [apply calm_interrupt_tests|done|done|]. intros s1 _ Hs1 Hu1 _.
  eapply (calm_then true s0 s1 0); [apply calm_z|done|done|]. intros s2 now Hs2 Hu2 _. apply safe_tbind. apply run_wait_users.
  { split; [|done]. eapply same_ok; [exact Hs2|]. by eapply same_ok; [symmetry; exact Hs0|]. }
  intros s3 b Hs3 Hpl Hz. assert (Hpl3 : same_place s0 s3) by (transitivity s2; [by apply same_same_place|by apply Hpl]). destruct b; cbn [negb]; [|by apply Herr].
  intros i. cbn [tbind]. destruct (_ =? 0)%Z; [by apply Herr|].
  assert (Hr3 : exists x3, deref_sp s3 r = Some x3).
  { destruct Hpl3 as [Eb El]. unfold deref_sp in *. rewrite <- Eb. destruct (_ =? _); [|done]. apply lookup_lt_is_Some. rewrite <- El. by eapply lookup_lt_Some. }
  destruct Hr3 as [[b3 sp3] Hr3]. cbn. rewrite Hr3. cbn. split; [done|]. exists 0. split; [lia|]. split; [right; by apply Hz|]. split; [by left|]. apply Hnew.
  destruct Hs3 as [Hok3 Hu3]. split; [split; [|done]|].
  - eapply (data_ok_put (r_i r) _ {| sd_block := sd_block s3; sd_table := sd_table s3 |}); [|exact Hok3]. intros [b' sp'] H'. cbn in *. by destruct (1 <? _)%Z.
  - split; [by apply Hz|]. split.
    + transitivity s3; [done|]. split; [done|]. cbn. by rewrite length_alter.
    + eexists. split; [eapply (deref_put r _ {| sd_block := sd_block s3; sd_table := sd_table s3 |}); exact Hr3|]. cbn. destruct (1 <? _)%Z; cbn; apply length_replicate.
Qed.

Lemma run_change_servers i ar up s : i < length (sd_table s) -> csafe (change_servers i ar up) false 0 s (outside (fun _ _ => True)).
Proof.
  intros Hi. apply safe_lock. intros s0 [Hok Hu] [_ Hpl]. specialize (Hpl eq_refl). destruct Hpl as [_ El]. rewrite El in Hi. destruct (deref_here s0 Hok i Hi) as (x & Hr & _).
  eapply (calm_then true s0 s0 0); [apply calm_sp_at|done|done|]. intros s1 r Hs1 Hu1 ->. set (r := {| r_block := sd_block s0; r_i := i |}) in *.
  eapply (calm_then true s0 s1 0); [by eapply calm_read_sp|done|done|]. intros s2 sp Hs2 Hu2 Hsp. set (change := _ || _ || _). destruct change eqn:Ec.
  - apply safe_tbind. apply (run_change_addrs s0 r x); [split; [by eapply same_ok|done]|done|done|..].
    + intros s3 e [Hok3 Hu3]. split; [done|]. split; [done|]. by split.
    + intros s3 Hs3. apply safe_tbind. eapply safe_weaken; [apply (run_change_all s0 r (length ar)); [done|lia]|]. cbn beta. intros h u s4 b (-> & -> & ([Hok4 Hu4] & _)).
      eapply (calm_then true s4 s4 0); [apply calm_wake_if|done|done|]. intros s5 rv Hs5 _ _. by eapply safe_unlock.
  - cbn [tbind]. unfold change in Ec. apply orb_false_iff in Ec as [Ec _]. apply orb_false_iff in Ec as [Ec _]. apply negb_false_iff, Nat.eqb_eq in Ec.
    apply shape_uptest in Hsp as (_ & _ & _ & _ & Hlen). eapply (calm_then true s0 s2 0); [apply (calm_change_all s0 r x); [done|lia]|done|done|]. intros s3 b Hs3 Hu3 _.
    eapply (calm_then true s0 s3 0); [apply calm_wake_if|done|done|]. intros s4 rv Hs4 _ _. by eapply safe_unlock.
Qed.
End Change.
