(* ===== verification/ServersMark.v ===== *)
(** The table of servers: what [mark_servers] does to it, and how long the thread that tests servers
    sleeps. *)
From S2P Require Import Prelude Exec Resolve Threads Servers ServersSpec ServersRun.

(** ** With the mutex and without releasing it *)

(** From the data [s] the program ends with data and a result in [P]. *)
Definition exact {A : Set} (t : T A) (s : server_data) (P : server_data -> A -> Prop) : Prop :=
  forall c u, ssafe c t true u s (fun h u' s' a => h = true /\ u' = u /\ P s' a).

Lemma exact_ret {A : Set} (a : A) s P : P s a -> exact (Ret a) s P.
Proof. by intros H c u. Qed.

Lemma exact_bind {A B : Set} (t : T A) (k : A -> T B) s P P' : exact t s P -> (forall s' a, P s' a -> exact (k a) s' P') -> exact (tbind t k) s P'.
Proof.
  intros Ht Hk c u. apply safe_tbind. eapply safe_weaken; [apply Ht|]. cbn beta. intros h u' s' a (-> & -> & Ha). by apply Hk.
Qed.

Lemma exact_weaken {A : Set} (t : T A) s (P P' : server_data -> A -> Prop) : exact t s P -> (forall s' a, P s' a -> P' s' a) -> exact t s P'.
Proof. intros Ht HP c u. eapply safe_weaken; [apply Ht|]. cbn beta. intros h u' s' a (? & ? & ?). splits; auto. Qed.

Lemma exact_ask s P : (forall z, P s z) -> exact ask s P.
Proof. by intros H c u i. Qed.

Lemma exact_read_sp s r x P : deref_sp s r = Some x -> P s x.2 -> exact (read_sp r) s P.
Proof. intros Hr HP c u. cbn. rewrite Hr. destruct x as [b sp]. by cbn. Qed.

Lemma exact_read_at s a x P : deref_at s a = Some x -> P s x -> exact (read_at a) s P.
Proof. intros Hr HP c u. cbn. by rewrite Hr. Qed.

Lemma exact_write_at s a f x P : deref_at s a = Some x -> (forall y, shape_at (f y) = shape_at y) -> P (put_at (r_i (a_sp a)) (a_j a) f s) tt -> exact (write_at a f) s P.
Proof.
  intros Hr Hf HP c u. cbn. rewrite Hr. cbn. split; [done|]. exists u. split; [lia|]. pose proof (same_put_at (r_i (a_sp a)) (a_j a) f s Hf) as Hs.
  split; [by left|]. split; [right; by apply same_same_place|]. by splits.
Qed.

(** ** One address *)

Definition marked (up : option bool) (x x' : atup) : Prop :=
  at_a x' = at_a x /\ match up with Some b => at_is_up x' = b | None => at_is_up x' = at_is_up x /\ at_i_ts x' = 0%Z end.

(** Whether a test has to be signalled for an address. *)
Definition to_test (up : option bool) (x : atup) : bool := match up with Some _ => false | None => negb (at_i_ts x =? 0)%Z end.

(** The table with other addresses for section [i]. *)
Definition with_addrs (i : nat) (l : list atup) (s : server_data) : server_data := put_sp i (fun x => (x.1, sp_set_atup l x.2)) s.

Lemma alter_const {A} (f : A -> A) i (l : list A) x : l !! i = Some x -> alter f i l = <[i := f x]> l.
Proof. revert i. induction l as [|y l IH]; intros [|i] H; cbn in *; [done..|by injection H as ->|]. f_equal. by apply IH. Qed.

Lemma alter_middle {A} (f : A -> A) l1 y l2 : alter f (length l1) (l1 ++ y :: l2) = l1 ++ f y :: l2.
Proof. induction l1 as [|z l1 IH]; cbn; [done|]. f_equal. apply IH. Qed.

Lemma sp_set_set v w sp : sp_set_atup v (sp_set_atup w sp) = sp_set_atup v sp.
Proof. done. Qed.
Lemma sp_set_id sp : sp_set_atup (sp_atup_a sp) sp = sp.
Proof. by destruct sp. Qed.

(** A section of the data while its addresses are changed. *)
Lemma deref_with s r x l : deref_sp s r = Some x -> deref_sp (with_addrs (r_i r) l s) r = Some (x.1, sp_set_atup l x.2).
Proof. intros Hx. by apply (deref_put r (fun x => (x.1, sp_set_atup l x.2))). Qed.

Lemma put_with s r x l j f : deref_sp s r = Some x -> put_at (r_i r) j f (with_addrs (r_i r) l s) = with_addrs (r_i r) (alter f j l) s.
Proof.
  intros Hx. unfold put_at, with_addrs, put_sp, set_table. cbn. f_equal. unfold deref_sp in Hx. destruct (_ =? _); [|done].
  rewrite (alter_const _ _ (sd_table s) x Hx), (alter_const (fun x0 => (x0.1, sp_set_atup (alter f j l) x0.2)) _ (sd_table s) x Hx).
  rewrite (alter_const _ _ _ (x.1, sp_set_atup l x.2)), list_insert_insert_eq; [done|]. apply list_lookup_insert_eq. by eapply lookup_lt_Some.
Qed.

Lemma deref_at_with s r x l j y : deref_sp s r = Some x -> l !! j = Some y -> deref_at (with_addrs (r_i r) l s) {| a_sp := r; a_block := x.1; a_j := j |} = Some y.
Proof. intros Hx Hy. unfold deref_at. cbn [a_sp]. rewrite (deref_with _ _ _ _ Hx). cbn. by rewrite Nat.eqb_refl. Qed.

Lemma exact_mark_at up s r x l1 y l2 : deref_sp s r = Some x ->
  exact (mark_at up {| a_sp := r; a_block := x.1; a_j := length l1 |}) (with_addrs (r_i r) (l1 ++ y :: l2) s) (fun s' b =>
    b = to_test up y /\ exists y', marked up y y' /\ s' = with_addrs (r_i r) (l1 ++ y' :: l2) s).
Proof.
  intros Hx. set (a := {| a_sp := r |}). assert (Hd : forall y, deref_at (with_addrs (r_i r) (l1 ++ y :: l2) s) a = Some y) by (intros y0; apply deref_at_with; [done|by apply list_lookup_middle]).
  assert (Hp : forall f y, put_at (r_i r) (length l1) f (with_addrs (r_i r) (l1 ++ y :: l2) s) = with_addrs (r_i r) (l1 ++ f y :: l2) s).
  { intros f y0. rewrite (put_with _ _ x) by done. by rewrite alter_middle. }
  unfold mark_at. destruct up as [up|].
  - eapply exact_bind; [eapply (exact_write_at _ a _ y (fun s' _ => s' = with_addrs (r_i r) (l1 ++ at_set_up up y :: l2) s)); [done|done|apply Hp]|]. intros s' _ ->.
    eapply exact_bind; [by apply (exact_ask _ (fun s' _ => s' = with_addrs (r_i r) (l1 ++ at_set_up up y :: l2) s))|]. intros s' now ->.
    eapply exact_bind; [eapply (exact_write_at _ a _ _ (fun s' _ => s' = with_addrs (r_i r) (l1 ++ at_set_ts now (at_set_up up y) :: l2) s)); [done|done|apply Hp]|]. intros s' _ ->.
    apply exact_ret. split; [done|]. by exists (at_set_ts now (at_set_up up y)).
  - eapply exact_bind; [by eapply (exact_read_at _ a y (fun s' z => s' = with_addrs (r_i r) (l1 ++ y :: l2) s /\ z = y))|]. intros s' z [-> ->]. unfold to_test. destruct (_ =? 0)%Z eqn:E.
    + apply exact_ret. split; [done|]. exists y. split; [|done]. boolp. by split.
    + eapply exact_bind; [eapply (exact_write_at _ a _ y (fun s' _ => s' = with_addrs (r_i r) (l1 ++ at_set_ts 0 y :: l2) s)); [done|done|apply Hp]|]. intros s' _ ->.
      apply exact_ret. split; [done|]. by exists (at_set_ts 0 y).
Qed.

(** ** One section *)

Lemma exact_mark_addrs up s r x l1 l2 acc : deref_sp s r = Some x ->
  exact (any (length l2) (length l1) (fun j => tbind (at_at r j) (fun a => mark_at up a)) acc) (with_addrs (r_i r) (l1 ++ l2) s) (fun s' b =>
    b = acc || existsb (to_test up) l2 /\ exists l2', Forall2 (marked up) l2 l2' /\ s' = with_addrs (r_i r) (l1 ++ l2') s).
Proof.
  intros Hx. revert l1 acc. induction l2 as [|y l2 IH]; intros l1 acc; cbn [any length existsb].
  { apply exact_ret. split; [by rewrite orb_false_r|]. by exists []. }
  eapply exact_bind.
  - intros c u. cbn [tbind at_at safe]. rewrite (deref_with _ _ _ _ Hx). cbn [tbind]. exact (exact_mark_at up s r x l1 y l2 Hx c u).
  - intros s' b (-> & y' & Hy & ->). cbn beta. rewrite (snoc_assoc l1 l2). replace (S (length l1)) with (length (l1 ++ [y'])) by (rewrite length_snoc; lia).
    eapply exact_weaken; [apply IH|]. cbn beta. intros s2 b (-> & l2' & Hl & ->). split; [by rewrite orb_assoc|]. exists (y' :: l2'). split; [by constructor|]. by rewrite <- (app_assoc l1).
Qed.

(** What happens to a section, and whether that has to be signalled. *)
Definition marked_section (label : option (list Z)) (up : option bool) (x x' : nat * servparm) : Prop :=
  if matches label x.2 then exists l', Forall2 (marked up) (sp_atup_a x.2) l' /\ x' = (x.1, sp_set_atup l' x.2) else x' = x.
Definition signals (label : option (list Z)) (up : option bool) (x : nat * servparm) : bool :=
  matches label x.2 &&
  ((negb (length (sp_atup_a x.2) =? 0) && (1 <? sp_rootserver x.2)%Z && match up with Some true => true | _ => false end) || existsb (to_test up) (sp_atup_a x.2)).

Lemma with_middle t1 x t2 l s : with_addrs (length t1) l (set_table (t1 ++ x :: t2) s) = set_table (t1 ++ (x.1, sp_set_atup l x.2) :: t2) s.
Proof. unfold with_addrs, put_sp, set_table. cbn. by rewrite alter_middle. Qed.

Lemma exact_mark_section label up s t1 x t2 :
  exact (mark_section label up (length t1)) (set_table (t1 ++ x :: t2) s) (fun s' b => b = signals label up x /\ exists x', marked_section label up x x' /\ s' = set_table (t1 ++ x' :: t2) s).
Proof.
  set (s0 := set_table _ s). set (r := {| r_block := sd_block s; r_i := length t1 |}).
  assert (Hx : deref_sp s0 r = Some x) by (unfold deref_sp; cbn; rewrite Nat.eqb_refl; by apply list_lookup_middle).
  assert (H0 : with_addrs (r_i r) ([] ++ sp_atup_a x.2) s0 = s0) by (unfold s0; cbn [r r_i app]; rewrite with_middle, sp_set_id; by destruct x).
  unfold mark_section, signals, marked_section. apply (exact_bind _ _ s0 (fun s' r' => s' = s0 /\ r' = r)); [by intros c u|]. intros s1 r1 [-> ->].
  eapply exact_bind; [by apply (exact_read_sp s0 r x (fun s' sp => s' = s0 /\ sp = x.2))|]. intros s1 sp [-> ->]. destruct (matches label x.2); [|apply exact_ret; split; [done|by exists x]].
  eapply (exact_bind _ _ s0 (fun s' n => s' = s0 /\ n = length (sp_atup_a x.2))).
  { eapply exact_bind; [by apply (exact_read_sp s0 r x (fun s' sp => s' = s0 /\ sp = x.2))|]. intros s1 sp [-> ->]. by apply exact_ret. }
  intros s1 n [-> ->]. rewrite <- H0. eapply exact_weaken; [apply (exact_mark_addrs up s0 r x [] (sp_atup_a x.2) _ Hx)|]. cbn beta. intros s' b (-> & l' & Hl & ->).
  split; [done|]. eexists. split; [by exists l'|]. unfold s0. cbn [r r_i app]. apply with_middle.
Qed.

(** ** All sections *)

Lemma exact_mark_sections label up s t1 t2 t3 acc :
  exact (any (length t2) (length t1) (mark_section label up) acc) (set_table (t1 ++ t2 ++ t3) s) (fun s' b =>
    b = acc || existsb (signals label up) t2 /\ exists t2', Forall2 (marked_section label up) t2 t2' /\ s' = set_table (t1 ++ t2' ++ t3) s).
Proof.
  revert t1 acc. induction t2 as [|x t2 IH]; intros t1 acc; cbn [any length existsb app].
  { apply exact_ret. split; [by rewrite orb_false_r|]. by exists []. }
  eapply exact_bind; [apply exact_mark_section|]. cbn beta. intros s' b (-> & x' & Hx & ->). rewrite (snoc_assoc t1). replace (S (length t1)) with (length (t1 ++ [x'])) by (rewrite length_snoc; lia).
  eapply exact_weaken; [apply IH|]. cbn beta. intros s2 b (-> & t2' & Ht & ->). split; [by rewrite orb_assoc|]. exists (x' :: t2'). split; [by constructor|]. by rewrite <- (app_assoc t1).
Qed.

Lemma marked_rootserver label up t t' : Forall2 (marked_section label up) t t' -> Forall (fun sp => (sp_rootserver sp <= 1)%Z) (map snd t) -> Forall (fun sp => (sp_rootserver sp <= 1)%Z) (map snd t').
Proof.
  induction 1 as [|x x' t t' Hx _ IH]; cbn; intros H; [done|]. inversion_clear H. constructor; [|by apply IH]. unfold marked_section in Hx.
  destruct (matches _ _); [|by subst x']. by destruct Hx as (l' & _ & ->).
Qed.

(** A test that is to be done is done by a thread that runs, or there is an error. *)
Lemma exact_wake_if (b : bool) s : exact (if b then wake_up true else Ret 0%Z) s (fun s' rv => sd_table s' = sd_table s /\ (b = true -> sd_running s' = true \/ rv <> 0%Z)).
Proof.
  destruct b; [|by apply exact_ret]. intros c u. unfold wake_up. cbn [tbind safe]. destruct (sd_running s) eqn:E; cbn [tbind].
  - split; [done|]. exists u. split; [cbn; lia|]. split; [by left|]. split; [by right|]. intros i. cbn. splits; try done. intros _. by left.
  - intros [].
    + split; [done|]. exists u. split; [cbn; lia|]. split; [by left|]. split; [by right|]. cbn. splits; try done. intros _. by left.
    + cbn. splits; try done. intros _. by right.
Qed.

(** The sections that a command is about, between the others. *)
Definition chosen (i : option nat) (t t1 t2 t3 : list (nat * servparm)) : Prop :=
  t = t1 ++ t2 ++ t3 /\ match i with None => t1 = [] /\ t3 = [] | Some i => t2 = take 1 (drop i t) /\ t1 = take i t end.

(** The range of indices that [mark_servers] goes through. *)
Definition range (i : option nat) (n : nat) : nat * nat := match i with Some i => (i, if (i <? n) then S i else n) | None => (0, n) end.

Lemma range_chosen i t : exists t1 t2 t3, chosen i t t1 t2 t3 /\ (range i (length t)).2 - (range i (length t)).1 = length t2 /\ (t2 = [] \/ length t1 = (range i (length t)).1).
Proof.
  destruct i as [i|]; [|exists [], t, []; splits; [by split; [rewrite app_nil_r|]|cbn; lia|by right]].
  exists (take i t), (take 1 (drop i t)), (drop (S i) t). split; [split; [|done]|].
  - rewrite <- (take_drop i t) at 1. f_equal. rewrite <- (take_drop 1 (drop i t)) at 1. by rewrite drop_drop, Nat.add_1_r.
  - cbn [range fst snd]. rewrite length_take, length_drop, length_take. destruct (i <? length t) eqn:E; boolp; [split; [lia|right; lia]|]. split; [lia|]. left. by rewrite drop_ge.
Qed.

Lemma set_table_id s t : sd_table s = t -> set_table t s = s.
Proof. intros <-. by destruct s. Qed.

Lemma exact_mark_range label up s i t1 t2 t3 : chosen i (sd_table s) t1 t2 t3 -> t2 = [] \/ length t1 = (range i (length (sd_table s))).1 ->
  exact (any (length t2) (range i (length (sd_table s))).1 (mark_section label up) false) s (fun s' b =>
    b = existsb (signals label up) t2 /\ exists t2', Forall2 (marked_section label up) t2 t2' /\ s' = set_table (t1 ++ t2' ++ t3) s).
Proof.
  intros [Ht _] [->|<-].
  - apply exact_ret. split; [done|]. exists []. split; [done|]. by rewrite set_table_id.
  - rewrite <- (set_table_id s (t1 ++ t2 ++ t3)) at 1 by done. eapply exact_weaken; [apply exact_mark_sections|]. cbn beta. intros s' b (-> & t2' & H & ->). split; [done|]. by exists t2'.
Qed.

Lemma mark_servers_spec c s i label up :
  ssafe c (mark_servers i label up) false 0 s (outside (fun s' rv => exists s1 t1 t2 t3 t2', held s1 /\ rely same same_place c 0 s s1 /\
    chosen i (sd_table s1) t1 t2 t3 /\ Forall2 (marked_section label up) t2 t2' /\ sd_table s' = t1 ++ t2' ++ t3 /\
    (existsb (signals label up) t2 = true -> sd_running s' = true \/ rv <> 0%Z))).
Proof.
  apply safe_lock. intros s1 [Hok Hu] Hr. destruct (range_chosen i (sd_table s1)) as (t1 & t2 & t3 & Hc & Hn & Hl).
  match goal with |- ssafe _ _ _ _ _ ?Q => change (ssafe c (let '(i0, n) := range i (length (sd_table s1)) in
    tbind (any (n - i0) i0 (mark_section label up) false) (fun b => tbind (if b : bool then wake_up true else Ret 0%Z) (fun rv => Unlock (Ret rv)))) true 0 s1 Q) end.
  pose proof (exact_mark_range label up s1 i t1 t2 t3 Hc Hl) as Hm. rewrite <- Hn in Hm. destruct (range i (length (sd_table s1))) as [i0 n]. cbn [fst snd] in *.
  apply safe_tbind. eapply safe_weaken; [apply Hm|]. cbn beta. intros h u s2 b (-> & -> & -> & t2' & Ht & ->).
  assert (Hok2 : data_ok (set_table (t1 ++ t2' ++ t3) s1)).
  { unfold data_ok, no_discovery in *. destruct Hc as [Et _]. rewrite Et, !map_app, !Forall_app in Hok. destruct Hok as (H1 & H2 & H3). cbn. rewrite !map_app, !Forall_app. splits; [done| |done].
    by eapply marked_rootserver. }
  apply safe_tbind. eapply safe_weaken; [apply exact_wake_if|]. cbn beta. intros h u s3 rv (-> & -> & Et & Hw). split; [done|]. split; [unfold data_ok in *; by rewrite Et|].
  split; [done|]. split; [done|]. exists s1, t1, t2, t3, t2'. by splits.
Qed.

(** ** Sleep *)

(** In how many seconds an address is to be tested, if ever. *)
Definition due (now : Z) (sp : servparm) (x : atup) : option Z :=
  if (at_i_ts x =? 0)%Z then Some 0%Z else if needs_intermittent_testing sp then Some (at_i_ts x + sp_interval sp - now)%Z else None.
Definition dues (now : Z) (l : list servparm) : list Z := concat (map (fun sp => omap (due now sp) (sp_atup_a sp)) l).

Lemma foldl_due now sp l w : foldl (fun w x =>
    if (at_i_ts x =? 0)%Z then (if (0 <? w)%Z then 0%Z else w)
    else if needs_intermittent_testing sp then (let wait := (at_i_ts x + sp_interval sp - now)%Z in if (wait <? w)%Z then wait else w)
    else w) w l = foldl Z.min w (omap (due now sp) l).
Proof.
  revert w. induction l as [|x l IH]; intros w; [done|]. cbn [foldl omap list_omap]. rewrite IH. unfold due at 2. destruct (at_i_ts x =? 0)%Z.
  - cbn [foldl]. f_equal. destruct (0 <? w)%Z eqn:E; boolp; lia.
  - destruct (needs_intermittent_testing sp); [|done]. cbn [foldl]. f_equal. cbn zeta. destruct (_ <? w)%Z eqn:E; boolp; lia.
Qed.

Lemma min_wait_dues now l : min_wait now l = foldl Z.min 3600%Z (dues now l).
Proof.
  unfold min_wait, dues. generalize 3600%Z. induction l as [|sp l IH]; intros w; [done|]. cbn [foldl map concat]. rewrite foldl_due, foldl_app. apply IH.
Qed.

Lemma foldl_min w l : (foldl Z.min w l <= w)%Z /\ Forall (fun d => (foldl Z.min w l <= d)%Z) l /\ (foldl Z.min w l = w \/ foldl Z.min w l ∈ l).
Proof.
  revert w. induction l as [|d l IH]; intros w; cbn [foldl]; [splits; [lia|constructor|by left]|]. destruct (IH (Z.min w d)) as (H1 & H2 & H3). splits; [lia|constructor; [lia|done]|].
  destruct H3 as [H3|H3]; [|right; by constructor]. rewrite H3. destruct (Z.min_spec w d) as [[_ ->]|[_ ->]]; [by left|right; by constructor].
Qed.

Lemma elem_dues now l d : d ∈ dues now l <-> exists sp x, sp ∈ l /\ x ∈ sp_atup_a sp /\ due now sp x = Some d.
Proof.
  unfold dues. split.
  - intros H. apply list_elem_of_In, in_concat in H as (l0 & H0 & Hd). apply in_map_iff in H0 as (sp & <- & Hsp). apply list_elem_of_In in Hd. apply list_elem_of_omap in Hd as (x & Hx & Hd).
    exists sp, x. split; [by apply list_elem_of_In|done].
  - intros (sp & x & Hsp & Hx & Hd). apply list_elem_of_In, in_concat. exists (omap (due now sp) (sp_atup_a sp)). split; [apply in_map_iff; exists sp; split; [done|by apply list_elem_of_In]|].
    apply list_elem_of_In, list_elem_of_omap. by exists x.
Qed.
