(* ===== verification/ServersThms.v ===== *)
(** The theorems about the table of servers. *)
From S2P Require Import Prelude Exec Resolve Threads Servers ServersSpec ServersRun ServersMark.
Local Open Scope thread_scope.

(** ** The threads of the program *)

(** What a thread that answers queries does with the table: it looks at it, reports that a server
    does or does not answer, or has the servers tested for which that is done with each query. *)
Inductive query_op : Set := Look | Report (sa : list (list Z)) (up : option bool) | Onquery.

(** The commands that are taken. *)
Inductive command : Set :=
  | Mark (i : option nat) (label : option (list Z)) (up : option bool)
  | Change (i : nat) (ar : list (list Z)) (up : option bool)
  | Reload (servers_new : list servparm)
  | Status.

Section System.
Context (fnmatch : list Z -> list Z -> bool).

Definition do_query (q : query_op) : T unit :=
  match q with
  | Look => _ <- read_servers; Ret tt
  | Report sa up => sched_server_test sa up
  | Onquery => test_onquery fnmatch false
  end.

(** The thread that takes commands checks an index without the mutex. *)
Definition do_command (x : command) : T unit :=
  match x with
  | Mark i label up => _ <- mark_servers i label up; Ret tt
  | Change i ar up => n <- num_servers; if (i <? n) then _ <- change_servers i ar up; Ret tt else Ret tt
  | Reload new => _ <- exchange_servers new; Ret tt
  | Status => _ <- read_servers; Ret tt
  end.

Fixpoint in_turn {X : Set} (f : X -> T unit) (l : list X) : T unit :=
  match l with [] => Ret tt | x :: l' => _ <- f x; in_turn f l' end.

(** The table [l], one thread for commands, any number of them for queries; the thread that tests
    servers is there or is started when it is needed. *)
Definition first_data (running : bool) (l : list servparm) : server_data :=
  {| sd_block := 0; sd_table := zip (seq 1 (length l)) l; sd_next := S (length l); server_data_users := 0; server_status_ping := 0;
     signal_interrupt := false; retest_flag := false; schm := []; sd_running := running |}.
Definition system (running : bool) (l : list servparm) (commands : list command) (queries : list (list query_op)) : conf server_data :=
  {| c_data := first_data running l; c_owner := None;
     c_threads := (true, in_turn do_command commands) :: (if running then [(false, servstat_thread fnmatch true)] else []) ++ map (fun q => (false, in_turn do_query q)) queries |}.

Definition command_ok (x : command) : Prop := match x with Reload new => no_discovery new | _ => True end.

(** *** One thread *)

Lemma run_do_query q c s : ssafe c (do_query q) false 0 s (outside (fun _ _ => True)).
Proof.
  destruct q; cbn [do_query]; [|apply run_sched_server_test|apply run_test_onquery]. apply safe_tbind. eapply safe_weaken; [apply run_read_servers|]. cbn beta.
  by intros h u s' a (-> & -> & _).
Qed.

Lemma run_do_command x s : command_ok x -> ssafe true (do_command x) false 0 s (outside (fun _ _ => True)).
Proof.
  assert (Hw : forall (A : Set) (t : T A) s0, ssafe true t false 0 s0 (outside (fun _ _ => True)) -> ssafe true (tbind t (fun _ => Ret tt)) false 0 s0 (outside (fun _ _ => True))).
  { intros A t s0 H. apply safe_tbind. eapply safe_weaken; [exact H|]. cbn beta. by intros h u s' a (-> & -> & _). }
  intros Hx. destruct x as [i label up|i ar up|new|]; cbn [do_command].
  - apply Hw, run_mark_servers.
  - intros s' Hr. change (ssafe true (if (i <? length (sd_table s')) then tbind (change_servers i ar up) (fun _ => Ret tt) else Ret tt) false 0 s' (outside (fun _ _ => True))).
    destruct (i <? length (sd_table s')) eqn:E; [|by split]. apply Nat.ltb_lt in E. by apply Hw, run_change_servers.
  - by apply Hw, run_exchange_servers.
  - apply Hw. eapply safe_weaken; [apply run_read_servers|]. cbn beta. by intros h u s' a (-> & -> & _).
Qed.

Lemma run_in_turn {X : Set} (f : X -> T unit) l c s : Forall (fun x => forall s, ssafe c (f x) false 0 s (outside (fun _ _ => True))) l -> ssafe c (in_turn f l) false 0 s ends.
Proof.
  intros Hl. revert s. induction Hl as [|x l Hx Hl IH]; intros s; cbn [in_turn]; [by cbn|]. apply safe_tbind. eapply safe_weaken; [apply Hx|]. cbn beta.
  intros h u s' a (-> & -> & _). apply IH.
Qed.

(** *** All of them *)

Lemma system_fine running l commands queries : no_discovery l -> Forall command_ok commands -> all_fine server_data_users same same_place data_ok (system running l commands queries).
Proof.
  intros Hl Hc. set (x := system _ _ _ _).
  assert (Hother : forall i c t, c_threads x !! S i = Some (c, t) -> c = false /\ forall s, ssafe false t false 0 s ends).
  { intros i c t Hi. cbn in Hi. apply lookup_app_Some in Hi as [Hi|[_ Hi]].
    - destruct running; [|done]. destruct i as [|i]; [|done]. injection Hi as <- <-. split; [done|]. intros s. apply run_servstat_thread.
    - apply list_lookup_fmap_Some in Hi as (q & [= -> ->] & _). split; [done|]. intros s. apply run_in_turn. apply Forall_true. intros o s1. apply run_do_query. }
  exists (replicate (length (c_threads x)) 0). split; [by rewrite length_replicate|]. split.
  { replace (sum_list _) with 0; [done|]. generalize (length (c_threads x)). by induction n as [|n IH]; cbn. }
  split; [intros _; unfold data_ok; cbn [x system first_data c_data sd_table]; by rewrite table_new|]. split; [done|]. split.
  - intros [|i] [|j] t t' Hi Hj; [done|..].
    + by destruct (Hother _ _ _ Hj).
    + by destruct (Hother _ _ _ Hi).
    + by destruct (Hother _ _ _ Hi).
  - intros i c t u Hi Hu. apply lookup_replicate in Hu as [-> _]. exists (c_data x). split; [apply rely_refl; apply _|]. split; [done|]. change (c_owner x) with (@None nat). rewrite bool_decide_false by done.
    destruct i as [|i].
    + injection Hi as <- <-. apply run_in_turn. eapply Forall_impl; [exact Hc|]. intros o Ho s. by apply run_do_command.
    + destruct (Hother _ _ _ Hi) as [-> H]. apply H.
Qed.

(** C19: the table of servers is protected.  However the threads that answer queries, the one that takes
    commands (which may exchange the table and the addresses of servers) and the one that tests servers
    are interleaved, whatever tests, allocations and waits come to: no pointer into a table or an
    array that has been freed is used, the assertion on the number of users holds, the table stays
    the same except for the status of servers while it is in use, data are changed only by the owner
    of the mutex, and there is no deadlock.  This is for configurations without root servers to be discovered. *)
Theorem server_data_protected (running : bool) (l : list servparm) (commands : list command) (queries : list (list query_op)) (x y : conf server_data) :
  no_discovery l -> Forall command_ok commands -> reach (servstat_thread fnmatch true) (system running l commands queries) x ->
  ~ crashed x /\ (0 <= server_data_users (c_data x))%Z /\ (ended x \/ exists z, step (servstat_thread fnmatch true) x z) /\
  (step (servstat_thread fnmatch true) x y ->
    (same (c_data x) (c_data y) \/ server_data_users (c_data x) = 0%Z) /\ (c_data y = c_data x \/ exists i, c_owner x = Some i)).
Proof.
  intros Hl Hc Hx. assert (Hchild : forall s, ssafe false (servstat_thread fnmatch true) false 0 s ends) by (intros s; apply run_servstat_thread).
  pose proof (reach_fine _ _ _ _ _ Hchild _ _ Hx (system_fine running l commands queries Hl Hc)) as Hf. split; [exact (fine_not_crashed _ _ _ _ _ Hf)|]. split.
  { destruct Hf as (us & _ & -> & _). lia. }
  split; [exact (fine_goes_on _ _ _ _ _ _ Hf)|]. intros Hy. exact (step_same _ _ _ _ _ _ _ Hy Hf).
Qed.
End System.


(** How long the thread that tests servers sleeps.  It wakes up half a second after the first time at
    which a server is due, or half a second from now if one is due already, and after an hour and half a second
    at the latest; the time is a correct one for [pthread_cond_timedwait]. *)
Theorem wake_time_correct (now usec sec nsec : Z) (l : list servparm) :
  (0 <= usec < 1000000)%Z -> wake_time now usec l = (sec, nsec) ->
  (0 <= nsec < 1000000000)%Z /\ exists w, (sec * 1000000000 + nsec = (now + w) * 1000000000 + usec * 1000 + 500000000)%Z /\ (0 <= w <= 3600)%Z /\
  (forall sp x d, sp ∈ l -> x ∈ sp_atup_a sp -> due now sp x = Some d -> (w <= Z.max 0 d)%Z) /\
  (w = 3600%Z \/ exists sp x d, sp ∈ l /\ x ∈ sp_atup_a sp /\ due now sp x = Some d /\ w = Z.max 0 d).
Proof.
  intros Hu. unfold wake_time. rewrite min_wait_dues. destruct (foldl_min 3600 (dues now l)) as (H1 & H2 & H3). set (w0 := foldl Z.min 3600%Z (dues now l)) in *. intros E.
  assert (Hw : (0 <= nsec < 1000000000)%Z /\ (sec * 1000000000 + nsec = (now + Z.max 0 w0) * 1000000000 + usec * 1000 + 500000000)%Z).
  { destruct (Z.ltb_spec 0 w0), (Z.leb_spec 1000000000 (usec * 1000 + 500000000)%Z); injection E as <- <-; lia. }
  split; [apply Hw|]. exists (Z.max 0 w0). split; [apply Hw|]. split; [lia|]. split.
  - intros sp x d Hsp Hx Hd. rewrite Forall_forall in H2. assert (w0 <= d)%Z by (apply H2, elem_dues; by exists sp, x). lia.
  - destruct H3 as [->|H3]; [by left|]. right. apply elem_dues in H3 as (sp & x & Hsp & Hx & Hd). by exists sp, x, w0.
Qed.

(** ** Examples *)

Definition no_match (_ _ : list Z) : bool := false.

(** A section with one server that is up, without a test. *)
Definition demo_section (root : Z) : servparm := {|
  sp_port := 53; sp_uptest := C_NONE; sp_timeout := 60; sp_interval := 60; sp_scheme := []; sp_purge_cache := true; sp_nocache := false; sp_lean_query := true;
  sp_edns_query := false; sp_is_proxy := true; sp_rootserver := root; sp_rand_servers := false; sp_rejectrecursively := false; sp_rejectpolicy := C_FAIL; sp_policy := C_INCLUDED;
  sp_alist := []; sp_atup_a := [{| at_is_up := true; at_i_ts := 0; at_a := [10; 0; 0; 9]%Z |}]; sp_reject_a4 := None; sp_reject_a6 := None; sp_preset := true; sp_label := None;
  sp_ping_a := [0; 0; 0; 0]%Z |}.

Abbreviation demo_addrs := (Addrs [[10; 0; 0; 1]%Z]).
Abbreviation demo_turn i n inp b := {| t_thread := i; t_steps := n; t_input := inp; t_timeout := b |}.

(** A thread uses the table while a reload waits for it, tests go on, and the reload is done at last. *)
Definition demo_system (root : Z) : conf server_data := system no_match true [demo_section root] [Reload [demo_section 0]] [[Look]].
Definition demo_turns : list turn :=
  [demo_turn 2 3 demo_addrs false; demo_turn 0 6 (Int 0) false; demo_turn 1 27 (Int 7) false; demo_turn 2 7 (Int 0) false; demo_turn 0 4 (Int 0) false].

Lemma server_data_protected_witness : exists x, run demo_turns (demo_system 1) = Some x /\ ~ crashed x /\ server_data_users (c_data x) = 0%Z.
Proof.
  destruct (run demo_turns (demo_system 1)) as [x|] eqn:E; [|vm_compute in E; discriminate E]. exists x. split; [reflexivity|].
  destruct (server_data_protected no_match true [demo_section 1] [Reload [demo_section 0]] [[Look]] x x) as (Hc & _).
  - constructor; [discriminate|constructor].
  - constructor; [constructor; [discriminate|constructor]|constructor].
  - eapply run_reach; [apply reach_refl|exact E].
  - split; [exact Hc|]. assert (E2 : option_map (fun x => server_data_users (c_data x)) (run demo_turns (demo_system 1)) = Some 0%Z) by (vm_compute; reflexivity).
    rewrite E in E2. injection E2 as E2. exact E2.
Defined.

(** The server of the section has never been tested, so it is due at once. *)
Lemma wake_time_correct_witness : wake_time 100 600000 [demo_section 0] = (101, 100000000)%Z /\ exists w, (101 * 1000000000 + 100000000 = (100 + w) * 1000000000 + 600000 * 1000 + 500000000)%Z.
Proof.
  assert (E : wake_time 100 600000 [demo_section 0] = (101, 100000000)%Z) by (vm_compute; reflexivity). split; [exact E|].
  destruct (wake_time_correct 100 600000 101 100000000 [demo_section 0]) as (_ & w & H & _); [lia|exact E|]. exists w. exact H.
Defined.

(** While a query uses the table, the thread that tests servers waits to put in place the addresses of root
    servers that it has found; in the second case the configuration is exchanged then. *)
Definition timeout_turns : list turn := [demo_turn 2 3 (Int 0) false; demo_turn 1 39 demo_addrs true].
Definition reload_turns : list turn :=
  [demo_turn 2 3 (Int 0) false; demo_turn 1 34 demo_addrs false; demo_turn 0 6 (Int 0) false; demo_turn 2 7 (Int 0) false; demo_turn 0 7 (Int 0) false; demo_turn 1 5 (Int 1) false].

