(* ===== verification/Serve.v ===== *)
(** The threads that receive queries over UDP and TCP and those that answer them
    ([pdnsd/src/dns_answer.c] 1345-2105).

    The threads share the counters [procs] and [qprocs], which are only changed under the mutex
    [proc_lock]: each change is one step here.  What else a thread does, it does to its own socket
    and its own blocks of memory.  Whether a new thread can be created, and whether a datagram
    comes with its destination address, is up to the environment. *)
From S2P Require Import Prelude Names RrTypes HashTab RrList Cent Cache DnsName Answer Query Net Recurse.

(** ** Limits on threads *)

(** [procs], [qprocs], [spawned] and [dropped]. *)
Record proc_counts := { procs : Z; qprocs : Z; spawned : Z; dropped : Z }.

Section Limits.
Context (proc_limit procq_limit : Z).

(** A server thread has got a query: whether to create a thread for it. *)
Definition accept_query (c : proc_counts) : bool * proc_counts :=
  if (qprocs c <? proc_limit + procq_limit)%Z
  then (true, {| procs := procs c; qprocs := qprocs c + 1; spawned := spawned c + 1; dropped := dropped c |})
  else (false, {| procs := procs c; qprocs := qprocs c; spawned := spawned c; dropped := dropped c + 1 |}).

(** [pthread_create] has failed. *)
Definition create_failed (c : proc_counts) : proc_counts :=
  {| procs := procs c; qprocs := qprocs c - 1; spawned := spawned c - 1; dropped := dropped c + 1 |}.

(** A thread begins its work, if it may; otherwise it tries again later. *)
Definition start_proc (c : proc_counts) : option proc_counts :=
  if (procs c <? proc_limit)%Z then Some {| procs := procs c + 1; qprocs := qprocs c; spawned := spawned c; dropped := dropped c |} else None.

Definition decrease_procs (c : proc_counts) : proc_counts :=
  {| procs := procs c - 1; qprocs := qprocs c - 1; spawned := spawned c; dropped := dropped c |}.

(** A server thread waits for a query or is about to create a thread; threads that were created
    wait for their turn or are active. *)
Inductive phase := Listening | Creating.

Record service := { s_counts : proc_counts; s_servers : list phase; s_waiting : nat; s_active : nat }.

Inductive serve_step : service -> service -> Prop :=
  | ss_query i c c' l n m ok : l !! i = Some Listening -> accept_query c = (ok, c') ->
      serve_step {| s_counts := c; s_servers := l; s_waiting := n; s_active := m |}
        {| s_counts := c'; s_servers := if (ok : bool) then <[i := Creating]> l else l; s_waiting := n; s_active := m |}
  | ss_created i c l n m : l !! i = Some Creating ->
      serve_step {| s_counts := c; s_servers := l; s_waiting := n; s_active := m |}
        {| s_counts := c; s_servers := <[i := Listening]> l; s_waiting := S n; s_active := m |}
  | ss_failed i c l n m : l !! i = Some Creating ->
      serve_step {| s_counts := c; s_servers := l; s_waiting := n; s_active := m |}
        {| s_counts := create_failed c; s_servers := <[i := Listening]> l; s_waiting := n; s_active := m |}
  | ss_start c c' l n m : start_proc c = Some c' ->
      serve_step {| s_counts := c; s_servers := l; s_waiting := S n; s_active := m |}
        {| s_counts := c'; s_servers := l; s_waiting := n; s_active := S m |}
  | ss_end c l n m :
      serve_step {| s_counts := c; s_servers := l; s_waiting := n; s_active := S m |}
        {| s_counts := decrease_procs c; s_servers := l; s_waiting := n; s_active := m |}.

(** The server threads for UDP and TCP have been started. *)
Definition service_start : service :=
  {| s_counts := {| procs := 0; qprocs := 0; spawned := 0; dropped := 0 |}; s_servers := [Listening; Listening]; s_waiting := 0; s_active := 0 |}.
End Limits.

(** ** Answers *)

(** [resp->hdr.tc=1]. *)
Definition set_tc (msg : list Z) : option (list Z) := f ← rd msg 2; wr msg 2 (Z.lor f 2).

Section Serve.
Context {P : Platform} (K : kernel) (rnd_recs : bool) (udpbufsize : Z).
Context (dns_cached_resolve : list Z -> Z -> Z -> M (Z * option dns_cent * Z)).
(** The random numbers that [process_query] uses, [global.tcp_qtimeout], and whether a datagram has
    its destination address with it. *)
Context (rnd : nat -> list Z) (tcp_qtimeout : Z) (has_pktinfo : nat -> bool).

(** What [process_query] leaves in [*udp]. *)
Definition limit_after (data : list Z) (udp : option nat) (c : cache) : option nat :=
  match check_header data with
  | Some (Some (inr f1)) =>
      match decode_query data c with
      | Some ((res, ptr, sz, ql), _) =>
          if (res =? RC_TRUNC)%Z && ((h_tc f1 =? 0)%Z || match ql with [] => true | _ => false end) then udp
          else if negb (res =? RC_OK)%Z && negb (res =? RC_TRUNC)%Z then udp
          else match check_edns udpbufsize data res ptr sz (h_tc f1) udp with Some (inr (_, udp')) => udp' | _ => udp end
      | None => udp
      end
  | _ => udp
  end.

(** The call of [process_query]: the reply, a new block, its length, and [*udp]. *)
Definition process (p : pointer) (len : nat) (udp : option nat) : IO (option (pointer * nat * option nat)) :=
  m ← load p;
  data ← liftIO (rd_bytes m 0 len);
  now ← time K;
  w ← getIO;
  '(r, s) ← liftIO (process_query now rnd_recs udpbufsize dns_cached_resolve data udp (no_answer (w_cache w) (rnd (ticks w))));
  _ ← modIO (set_w_cache (a_cache s));
  match r with
  | None => mret None
  | Some _ => resp ← alloc (a_msg s); mret (Some (resp, a_sz s, limit_after data udp (w_cache w)))
  end.

(** [udp_answer_thread]; the clean-up routine frees the data. *)
Definition udp_answer_thread (sock : positive) (data : pointer) (len : nat) : IO unit :=
  r ← process data len (Some (Z.to_nat UDP_BUFSIZE));
  match r with
  | None => pdnsd_free data
  | Some (resp, rlen, udpmaxrespsize) =>
      rlen ← (match udpmaxrespsize with
              | Some u =>
                  if (u <? rlen) then m ← load resp; m ← liftIO (set_tc m); _ ← store resp m; mret u
                  else mret rlen
              | None => mret rlen
              end);
      m ← load resp;
      d ← liftIO (rd_bytes m 0 rlen);
      _ ← send K sock d;
      _ ← pdnsd_free resp;
      pdnsd_free data
  end.

(** One round of [udp_server_thread], with the thread that answers; [false] when there is no memory,
    which ends the server.  [accepted] is the decision of [accept_query], [created] that of
    [pthread_create]. *)
Definition udp_serve (sock : positive) (accepted created : bool) : IO bool :=
  buf ← pdnsd_malloc (Z.to_nat udpbufsize);
  match buf with
  | Ptr _ =>
      r ← recv K sock (Z.to_nat udpbufsize);
      match r with
      | inr l =>
          m ← load buf;
          m ← liftIO (wr_bytes m 0 l);
          _ ← store buf m;
          t ← tick;
          if has_pktinfo t && accepted && created then _ ← udp_answer_thread sock buf (length l); mret true
          else _ ← pdnsd_free buf; mret true
      | inl _ => _ ← pdnsd_free buf; mret true
      end
  | _ => mret false
  end.

(** ** TCP *)

(** Whether [poll] says that there is something to read. *)
Definition client_ready (sock : positive) : IO bool :=
  r ← poll K [(Some sock, POLLIN)] (tcp_qtimeout * 1000)%Z;
  mret (match r with inr l => existsb (fun e => negb (e =? 0)%Z) l | inl _ => false end).

(** [write_all]: whether all was written.  A write of at least one byte each time makes one
    unit of fuel per byte enough. *)
Fixpoint write_all (fuel : nat) (sock : positive) (data : list Z) : IO bool :=
  match data, fuel with
  | [], _ => mret true
  | _, O => liftIO None
  | _, S fu =>
      r ← write K sock data;
      match r with
      | inl _ => mret false
      | inr m => write_all fu sock (drop m data)
      end
  end.

(** The loop that reads the query: all of it was read, or how much was when a read failed; nothing after
    a timeout. *)
Inductive query_read := Complete | TimedOut | Broken (olen : nat).

Fixpoint read_query (fuel : nat) (sock : positive) (buf : pointer) (rlen olen : nat) : IO query_read :=
  match fuel with
  | O => liftIO None
  | S fu =>
      if (olen <? rlen) then
        ok ← client_ready sock;
        if negb ok then mret TimedOut
        else
          r ← read K sock (rlen - olen);
          match r with
          | inr (b :: l) =>
              m ← load buf;
              m ← liftIO (wr_bytes m olen (b :: l));
              _ ← store buf m;
              read_query fu sock buf rlen (olen + length (b :: l))
          | _ => mret (Broken olen)
          end
      else mret Complete
  end.

(** A message with its length in front. *)
Definition frame (m : list Z) : list Z := put16 (Z.of_nat (length m)) ++ m.

(** The reply to a query that did not arrive in full. *)
Definition tcp_error (sock : positive) (buf : pointer) (olen : nat) : IO unit :=
  if (2 <=? olen) then
    m ← load buf;
    id ← liftIO (rd_bytes m 0 2);
    opcode ← (if (3 <=? olen) then b ← liftIO (rd m 2); mret (h_opcode b) else mret OP_QUERY);
    _ ← write_all (dnsmsghdroffset + sizeof_dns_hdr_t) sock (put16 (Z.of_nat sizeof_dns_hdr_t) ++ mk_error_reply id opcode RC_FORMAT);
    mret tt
  else mret tt.

(** The query has been read. *)
Definition tcp_reply (sock : positive) (buf : pointer) (rlen : nat) : IO unit :=
  r ← process buf rlen None;
  _ ← pdnsd_free buf;
  match r with
  | None => mret tt
  | Some (resp, nlen, _) =>
      m ← load resp;
      d ← liftIO (rd_bytes m 0 nlen);
      _ ← write_all (dnsmsghdroffset + nlen) sock (put16 (Z.of_nat nlen) ++ d);
      pdnsd_free resp
  end.

(** The body of [tcp_answer_thread]. *)
Definition tcp_answer (sock : positive) : IO unit :=
  ok ← client_ready sock;
  if negb ok then mret tt
  else
    r ← read K sock 2;
    match r with
    | inr [b1; b0] =>
        let rlen := Z.to_nat (b1 * 2 ^ 8 + b0)%Z in
        if (rlen =? 0) then mret tt
        else
          buf ← pdnsd_malloc rlen;
          match buf with
          | Ptr _ =>
              x ← read_query (S rlen) sock buf rlen 0;
              match x with
              | Complete => tcp_reply sock buf rlen
              | TimedOut => pdnsd_free buf
              | Broken olen => _ ← tcp_error sock buf olen; pdnsd_free buf
              end
          | _ => mret tt
          end
    | _ => mret tt
    end.

(** [tcp_answer_thread]; the clean-up routine closes the socket and frees the argument. *)
Definition tcp_answer_thread (sock : positive) (csock : pointer) : IO unit :=
  _ ← tcp_answer sock;
  _ ← close sock;
  pdnsd_free csock.

(** [accept]: a new socket, unless there is an error. *)
Definition accept : IO (option positive) := socket K SOCK_STREAM.

(** One round of [tcp_server_thread]. *)
Definition tcp_serve (accepted created : bool) : IO bool :=
  csock ← pdnsd_malloc 4;
  match csock with
  | Ptr _ =>
      s ← accept;
      match s with
      | None => _ ← pdnsd_free csock; mret true
      | Some sock =>
          if accepted && created then _ ← tcp_answer_thread sock csock; mret true
          else _ ← close sock; _ ← pdnsd_free csock; mret true
      end
  | _ => mret false
  end.
End Serve.
