(* ===== verification/ServeThms.v ===== *)
(** What the threads that receive and answer queries do: the limits on their number, the replies
    that are sent over UDP and TCP, and that nothing is left behind. *)
From S2P Require Import Prelude Names RrTypes HashTab RrList Cent CentSpec Cache DnsName Answer AnswerRr AnswerSet Query QueryDecode QuerySafe QueryThms Reply ReplyData Net NetSpec QuerySm SmSpec Recurse Threads Serve.

(** ** Limits on threads *)

Definition weight (x : phase) : nat := match x with Creating => 1 | Listening => 0 end.
Definition creating (l : list phase) : nat := sum_list (weight <$> l).

Lemma creating_insert l i a b : l !! i = Some a -> creating (<[i := b]> l) + weight a = creating l + weight b.
Proof. intros H. unfold creating. rewrite list_fmap_insert. apply sum_insert. by rewrite list_lookup_fmap, H. Qed.

Lemma creating_elem l i : l !! i = Some Creating -> 0 < creating l.
Proof. intros H. pose proof (creating_insert l i Creating Listening H). cbn in *. lia. Qed.

Section Limits.
Context (proc_limit procq_limit : Z).

(** The counters count the threads, and are within their limits. *)
Definition counted (x : service) : Prop :=
  procs (s_counts x) = Z.of_nat (s_active x) /\ qprocs (s_counts x) = Z.of_nat (creating (s_servers x) + s_waiting x + s_active x) /\
  (procs (s_counts x) <= proc_limit)%Z /\ (qprocs (s_counts x) <= proc_limit + procq_limit)%Z.

Lemma counted_step x y : serve_step proc_limit procq_limit x y -> counted x -> counted y.
Proof.
  unfold counted. destruct 1 as [i c c' l n m ok Hi Hq|i c l n m Hi|i c l n m Hi|c c' l n m Hs|c l n m]; cbn [s_counts s_servers s_waiting s_active]; intros (H1 & H2 & H3 & H4).
  - unfold accept_query in Hq. destruct (Z.ltb_spec (qprocs c) (proc_limit + procq_limit)); injection Hq as <- <-; cbn [procs qprocs]; [|splits; lia].
    pose proof (creating_insert l i _ Creating Hi). cbn [weight] in *. splits; lia.
  - pose proof (creating_insert l i _ Listening Hi). pose proof (creating_elem l i Hi). cbn [weight] in *. splits; lia.
  - cbn [create_failed procs qprocs]. pose proof (creating_insert l i _ Listening Hi). pose proof (creating_elem l i Hi). cbn [weight] in *. splits; lia.
  - unfold start_proc in Hs. destruct (Z.ltb_spec (procs c) proc_limit); [|done]. injection Hs as <-. cbn [procs qprocs]. splits; lia.
  - cbn [decrease_procs procs qprocs]. splits; lia.
Qed.

(** C20: in every order in which queries arrive and threads are created, start and end, no more than [proc_limit]
    queries are worked on at a time, and no more than [proc_limit] and [procq_limit] together are there: worked on, waiting for a
    place, or with their thread being created (so more than [procq_limit] may wait while places are free); the counters are
    exact, so that a query is refused only when the limit is reached, and a thread that waits can start as soon as
    there is a place. *)
Theorem service_limited (x : service) :
  (0 <= proc_limit)%Z -> (0 <= procq_limit)%Z -> rtc (serve_step proc_limit procq_limit) service_start x ->
  procs (s_counts x) = Z.of_nat (s_active x) /\ qprocs (s_counts x) = Z.of_nat (creating (s_servers x) + s_waiting x + s_active x) /\
  (Z.of_nat (s_active x) <= proc_limit)%Z /\ (Z.of_nat (creating (s_servers x) + s_waiting x + s_active x) <= proc_limit + procq_limit)%Z /\
  ((accept_query proc_limit procq_limit (s_counts x)).1 = false -> Z.of_nat (creating (s_servers x) + s_waiting x + s_active x) = (proc_limit + procq_limit)%Z) /\
  (start_proc proc_limit (s_counts x) = None <-> Z.of_nat (s_active x) = proc_limit).
Proof.
  intros Hp Hq Hx. assert (H : counted x).
  { eapply (rtc_ind_l (fun y => counted y -> counted x)); [done| |exact Hx|unfold counted; cbn; splits; lia]. intros y z Hs _ IH Hy. apply IH. by eapply counted_step. }
  destruct H as (H1 & H2 & H3 & H4). splits; try lia.
  - unfold accept_query. destruct (Z.ltb_spec (qprocs (s_counts x)) (proc_limit + procq_limit)); [done|]. intros _. lia.
  - unfold start_proc. destruct (Z.ltb_spec (procs (s_counts x)) proc_limit); split; intros ?; try done; lia.
Qed.
End Limits.

(** ** Replies *)

Lemma here_self w : here (w_cache w) (socks w) (past w) (heap w) w.
Proof. unfold here. splits; [apply mem_step_refl|done..]. Qed.

(** A message that answers the query [q], with the TC bit [tc]. *)
Definition is_reply (q m : list Z) (tc : Z) : Prop :=
  sizeof_dns_hdr_t <= length m /\ take 2 m = take 2 q /\ exists f, m !! 2 = Some f /\ h_qr f = QR_RESP /\ h_tc f = tc.

Lemma reply_to_message q rc s : reply_to q rc s -> is_reply q (take (a_sz s) (a_msg s)) 0.
Proof.
  intros (Hl & Hid & (f & Hf & H) & _). unfold is_reply, sizeof_dns_hdr_t in *. splits.
  - rewrite length_take. lia.
  - rewrite take_take. by replace (2 `min` a_sz s) with 2 by lia.
  - exists f. by rewrite lookup_take_lt by lia.
Qed.

Lemma h_tc_set f : h_tc (Z.lor f 2) = 1%Z /\ h_qr (Z.lor f 2) = h_qr f.
Proof.
  unfold h_tc, h_qr. rewrite !Z.shiftr_lor, !Z.land_lor_distr_l. change (Z.land (Z.shiftr 2 1) 1) with 1%Z. change (Z.land (Z.shiftr 2 7) 1) with 0%Z. rewrite Z.lor_0_r.
  split; [|done]. destruct (h_rd_bit (Z.shiftr f 1)) as [E|E]; unfold h_rd in E; by rewrite E.
Qed.

(** What is sent when only [n] bytes may be. *)
Lemma set_tc_reply q m n : is_reply q (take n m) 0 -> exists m', set_tc m = Some m' /\ length m' = length m /\ is_reply q (take n m') 1 /\ (forall i, i <> 2 -> m' !! i = m !! i).
Proof.
  intros (Hl & Hid & f & Hf & Hq & _). unfold sizeof_dns_hdr_t in Hl. rewrite length_take in Hl. rewrite lookup_take_lt in Hf by lia.
  unfold set_tc. unfold rd at 1. rewrite Hf. sbind. rewrite wr_lt by lia. eexists. split; [done|]. split; [apply length_insert|]. split.
  - unfold is_reply, sizeof_dns_hdr_t. splits.
    + rewrite length_take, length_insert. lia.
    + rewrite <- Hid, !take_take. by rewrite take_insert_ge by lia.
    + exists (Z.lor f 2). rewrite lookup_take_lt, list_lookup_insert_eq by lia. split; [done|]. destruct (h_tc_set f) as [-> ->]. done.
  - intros i Hi. by rewrite list_lookup_insert_ne.
Qed.

Section Serve.
Context {P : Platform} (K : kernel) (rnd_recs : bool) (udpbufsize : Z).
Context (dns_cached_resolve : list Z -> Z -> Z -> M (Z * option dns_cent * Z)).
Context (rnd : nat -> list Z) (tcp_qtimeout : Z) (has_pktinfo : nat -> bool).
#[local] Notation process := (process K rnd_recs udpbufsize dns_cached_resolve rnd).

(** The message [m] is what [process_query] makes of the query [q] with some state of the cache; [lim] is the
    limit that it sets. *)
Definition answered (udp : option nat) (q m : list Z) (lim : option nat) : Prop :=
  exists now c r rc s, ready c /\ Query.process_query now rnd_recs udpbufsize dns_cached_resolve q udp (no_answer c r) = Some (Some rc, s) /\
    m = take (a_sz s) (a_msg s) /\ lim = limit_after udpbufsize q udp c /\ is_reply q m 0.

(** [process_query] has no reply to the query [q]: it is to be ignored, or there is no memory. *)
Definition unanswered (udp : option nat) (q : list Z) : Prop :=
  exists now c r s, ready c /\ Query.process_query now rnd_recs udpbufsize dns_cached_resolve q udp (no_answer c r) = Some (None, s).

Lemma limit_cases q udp c : limit_after udpbufsize q udp c = udp \/
  exists u sz, udp = Some u /\ (UDP_BUFSIZE < sz)%Z /\ limit_after udpbufsize q udp c = Some (Z.to_nat (Z.min udpbufsize sz)).
Proof.
  unfold limit_after. destruct (check_header q) as [[[|f1]|]|]; try by left. destruct (decode_query q c) as [[[[[res ptr] sz] ql] c1]|]; [|by left].
  destruct (_ && _); [by left|]. destruct (_ && _); [by left|]. unfold check_edns.
  destruct (GETINT16 q arcount) as [ac|]; [|by left]. sbind. destruct (_ =? 0)%Z; [by left|]. destruct (_ =? _)%Z; [by left|].
  destruct (decode_query_additional _ _ _ _ _ _) as [[[res' numopt] ep]|]; [|by left]. sbind. destruct (negb _); [by left|]. destruct (_ =? 0); [by left|].
  destruct (negb _); [by left|]. destruct (negb _); [by left|]. destruct udp as [u|]; [|by left].
  destruct (Z.ltb_spec UDP_BUFSIZE (ed_udpsize ep)); [|by left]. right. by exists u, (ed_udpsize ep).
Qed.

Lemma limit_bounds q c : (UDP_BUFSIZE <= udpbufsize)%Z ->
  exists u, limit_after udpbufsize q (Some (Z.to_nat UDP_BUFSIZE)) c = Some u /\ (UDP_BUFSIZE <= Z.of_nat u <= udpbufsize)%Z.
Proof.
  intros Hu. destruct (limit_cases q (Some (Z.to_nat UDP_BUFSIZE)) c) as [E|(u & sz & _ & Hsz & E)]; rewrite E; (eexists; split; [done|]; unfold UDP_BUFSIZE in *; lia).
Qed.

Lemma rd_bytes_take m n : n <= length m -> rd_bytes m 0 n = Some (take n m).
Proof. intros H. unfold rd_bytes. by rewrite decide_True by lia. Qed.

Context `{HR : !Resolver dns_cached_resolve}.

(** A block [b] of the heap [H] and what is in it. *)
Lemma iruns_process C S L H b m len udp w : here C S L H w -> ready C -> H !! b = Some m -> len <= length m -> bytes (take len m) ->
  iruns (process (Ptr b) len udp) w (fun r w' => exists C', ready C' /\
    match r with
    | None => here C' S L H w' /\ unanswered udp (take len m)
    | Some (p, n, lim) => exists b' msg, p = Ptr b' /\ H !! b' = None /\ here C' S L (<[b' := msg]> H) w' /\ n <= length msg /\ answered udp (take len m) (take n msg) lim
    end).
Proof.
  intros Hw HC Hb Hlen Hq. unfold Serve.process. io_with iruns_load; [done|done|]. intros ? w1 [-> Hw1]. io_lift; [by apply rd_bytes_take|].
  unfold time. apply iruns_bind. io_with iruns_tick; [done|]. intros t w2 (_ & _ & Hw2). io_ret. apply iruns_bind, iruns_get.
  destruct Hw2 as ((Hm & _) & HS & HL & HH). pose proof (ready_mem _ _ Hm HC) as Hr.
  destruct (wruns_process_query (k_time K t) rnd_recs udpbufsize dns_cached_resolve (take len m) udp (w_cache w2) (rnd (ticks w2)) Hq Hr) as (r & s & E & Hs & Hrep).
  io_lift; [exact E|]. cbn beta iota. apply iruns_bind, iruns_mod. destruct r as [rc|].
  - unfold alloc. apply iruns_bind, iruns_bind, iruns_get, iruns_bind, iruns_mod, iruns_ret, iruns_ret. exists (a_cache s). split; [done|].
    pose proof (reply_to_message _ _ _ (Hrep rc eq_refl)) as Hmsg. destruct (Hrep rc eq_refl) as (Hl & _).
    eexists _, _. split; [done|]. unfold here. cbn. rewrite HH. splits; try done; [apply not_elem_of_dom, is_fresh|apply mem_step_refl|lia|].
    by exists (k_time K t), (w_cache w2), (rnd (ticks w2)), rc, s.
  - io_ret. exists (a_cache s). split; [done|]. split; [unfold here; cbn; splits; try done; apply mem_step_refl|]. by exists (k_time K t), (w_cache w2), (rnd (ticks w2)), s.
Qed.

(** What goes out over UDP for the query [q]: the whole reply, or as much of it as the limit allows, with
    the TC bit. *)
Definition udp_sent (q d : list Z) : Prop :=
  exists m u, answered (Some (Z.to_nat UDP_BUFSIZE)) q m (Some u) /\ (UDP_BUFSIZE <= Z.of_nat u <= udpbufsize)%Z /\
    length d = Nat.min u (length m) /\ (forall i, i <> 2 -> i < length d -> d !! i = m !! i) /\
    (length m <= u -> d = m) /\ is_reply q d (if (length m <=? u) then 0 else 1).

Context (Hbuf : (UDP_BUFSIZE <= udpbufsize)%Z).

Lemma iruns_udp_answer C S L H fd c b m len w : here C S L H w -> ready C -> S !! fd = Some c -> H !! b = Some m -> len <= length m -> bytes (take len m) ->
  iruns (udp_answer_thread K rnd_recs udpbufsize dns_cached_resolve rnd fd (Ptr b) len) w (fun _ w' => exists C' c', ready C' /\ here C' (<[fd := c']> S) L (delete b H) w' /\
    c_recv c' = c_recv c /\ (c_sent c' = c_sent c \/ exists d, c_sent c' = c_sent c ++ [d] /\ udp_sent (take len m) d)).
Proof.
  intros Hw HC Hc Hb Hlen Hq. unfold udp_answer_thread. io_with iruns_process; [done..|]. intros [[[p n] lim]|] w1 (C1 & HC1 & Hw1); cbn match.
  2:{ destruct Hw1 as [Hw1 _]. eapply iruns_weaken; [by eapply iruns_free|]. cbn beta. intros _ w2 Hw2. exists C1, c. rewrite insert_id by done. splits; try done. by left. }
  destruct Hw1 as (b' & msg & -> & Hb' & Hw1 & Hn & Ha). assert (Hne : b' <> b) by (intros ->; congruence).
  pose proof Ha as (now & c0 & r & rc & s & Hc0 & Eq & Em & Elim & Hrep). destruct (limit_bounds (take len m) c0 Hbuf) as (u & Eu & Hu). rewrite Eu in Elim. subst lim.
  assert (Hlm : length (take n msg) = n) by (rewrite length_take; lia).
  apply iruns_bind, (iruns_weaken _ _ (fun k w' => exists msg', here C1 S L (<[b' := msg']> H) w' /\ k <= length msg' /\ udp_sent (take len m) (take k msg'))).
  - destruct (Nat.ltb_spec u n) as [Hlt|Hge].
    + assert (Hrep' : is_reply (take len m) (take u msg) 0).
      { destruct Hrep as (H1 & H2 & f & H3 & H4). unfold is_reply, sizeof_dns_hdr_t, UDP_BUFSIZE in *. splits; [rewrite length_take; lia| |exists f].
        - rewrite <- H2, !take_take. by replace (2 `min` u) with (2 `min` n) by lia.
        - rewrite lookup_take_lt in H3 |- * by lia. done. }
      destruct (set_tc_reply _ _ _ Hrep') as (msg' & E' & Hl' & Hrep'' & Hsame).
      io_with iruns_load; [done|apply lookup_insert_eq|]. intros ? w2 [-> Hw2]. io_lift; [exact E'|]. io_with iruns_store; [done|apply lookup_insert_eq|done|].
      intros _ w3 Hw3. rewrite insert_insert_eq in Hw3. io_ret. exists msg'. splits; [done|lia|]. exists (take n msg), u. rewrite length_take, Hlm.
      splits; [exact Ha|lia|lia|lia| |lia|by bool_false (n <=? u)]. intros i Hi Hil. rewrite !lookup_take_lt by lia. by apply Hsame.
    + io_ret. exists msg. splits; [done..|]. exists (take n msg), u. rewrite Hlm. splits; [exact Ha|lia|lia|lia|done|done|by bool_true (n <=? u)].
  - cbn beta. intros k w2 (msg' & Hw2 & Hk & Hd). io_with iruns_load; [done|apply lookup_insert_eq|]. intros ? w3 [-> Hw3]. io_lift; [by apply rd_bytes_take|].
    io_with iruns_send; [done|done|]. intros e w4 Hw4. io_with iruns_free; [done|apply lookup_insert_eq|]. intros _ w5 Hw5. rewrite delete_insert_id in Hw5 by done.
    eapply iruns_weaken; [by eapply iruns_free|]. cbn beta. intros _ w6 Hw6. destruct e as [e|].
    + exists C1, c. rewrite insert_id by done. splits; try done. by left.
    + eexists C1, _. splits; [done|exact Hw6|done|]. right. by eexists.
Qed.

(** What one round of the UDP server does with its socket. *)
Definition udp_round (c c' : conn) : Prop :=
  (c_sent c' = c_sent c /\ (c_recv c' = c_recv c \/ exists q, c_recv c' = c_recv c ++ [q])) \/
  exists q d, c_recv c' = c_recv c ++ [q] /\ c_sent c' = c_sent c ++ [d] /\ udp_sent q d.

Context (HK : kernel_ok K).

Lemma iruns_udp_serve C S L H fd c accepted created w : here C S L H w -> ready C -> S !! fd = Some c ->
  iruns (udp_serve K rnd_recs udpbufsize dns_cached_resolve rnd has_pktinfo fd accepted created) w (fun _ w' =>
    exists C' c', ready C' /\ here C' (<[fd := c']> S) L H w' /\ udp_round c c').
Proof.
  intros Hw HC Hc. unfold udp_serve.
  assert (Hquiet : forall C' c' w', ready C' -> here C' (<[fd := c']> S) L H w' -> udp_round c c' -> iruns (mret true) w' (fun _ w' => exists C' c', ready C' /\ here C' (<[fd := c']> S) L H w' /\ udp_round c c')).
  { intros C' c' w' H1 H2 H3. io_ret. by exists C', c'. }
  assert (Hsame : udp_round c c) by (left; split; [done|by left]).
  io_with iruns_malloc; [done|]. intros r w1 [(-> & _ & Hw1)|(b & -> & Hb & Hw1)]; cbn match.
  { io_ret. exists C, c. by rewrite insert_id. }
  io_with iruns_recv; [done|done|done|]. intros [e|l] w2 Hw2.
  { io_with iruns_free; [done|apply lookup_insert_eq|]. intros _ w3 Hw3. rewrite delete_insert_id in Hw3 by done. eapply Hquiet; [exact HC| |exact Hsame]. by rewrite insert_id. }
  destruct Hw2 as (Hl & Hbl & Hw2). io_with iruns_load; [done|apply lookup_insert_eq|]. intros ? w3 [-> Hw3].
  destruct (wr_bytes_0 (replicate (Z.to_nat udpbufsize) 0%Z) l) as (x & Hx & E); [by rewrite length_replicate|]. rewrite length_replicate in Hx. io_lift; [exact E|].
  io_with iruns_store; [done|apply lookup_insert_eq|rewrite length_app, length_replicate; lia|]. intros _ w4 Hw4. rewrite insert_insert_eq in Hw4.
  io_with iruns_tick; [done|]. intros t w5 (_ & _ & Hw5). destruct (_ && created).
  - io_with iruns_udp_answer; [exact Hw5|done|apply lookup_insert_eq|apply lookup_insert_eq|rewrite length_app; lia|by rewrite take_app_length|]. rewrite take_app_length.
    intros _ w6 (C' & c' & HC' & Hw6 & Hrecv & Hsent). rewrite insert_insert_eq, delete_insert_id in Hw6 by done. eapply Hquiet; [exact HC'|exact Hw6|].
    destruct Hsent as [Hs|(d & Hs & Hd)]; [left; split; [done|right; by exists l]|right; by exists l, d].
  - io_with iruns_free; [done|apply lookup_insert_eq|]. intros _ w6 Hw6. rewrite delete_insert_id in Hw6 by done. eapply Hquiet; [exact HC|exact Hw6|].
    left. split; [done|]. right. by exists l.
Qed.

(** ** TCP *)

(** A write of something takes at least one byte of it, as POSIX says of a blocking socket. *)
Definition writes_some : Prop := forall t n, 0 < n -> k_write K t n <> inr 0.
Definition write_fails : Prop := exists t n e, k_write K t n = inl e.

(** A read fails or is short, [poll] does not report anything, and [accept] fails. *)
Definition read_short : Prop := exists t n, match k_read K t n with inl _ => True | inr l => length l < n end.
Definition poll_silent : Prop := exists t fds tmo, match k_poll K t fds tmo with inl _ => True | inr l => Forall (eq 0%Z) (take 1 l) end.
Definition accept_fails : Prop := exists t e, k_socket K t = Some e.

Context (HW : writes_some).

Lemma iruns_write_all C L H S fd fuel : forall c data w, here C (<[fd := c]> S) L H w -> length data <= fuel ->
  iruns (write_all K fuel fd data) w (fun ok w' => exists c' p, here C (<[fd := c']> S) L H w' /\ c_recv c' = c_recv c /\
    concat (c_sent c') = concat (c_sent c) ++ p /\ p `prefix_of` data /\ (p = data \/ write_fails)).
Proof.
  induction fuel as [|fu IH]; intros c data w Hw Hl; (destruct data as [|d data]; [exists true, w; split; [done|]; exists c, []; rewrite app_nil_r; splits; try done; by left|]); [cbn in Hl; lia|].
  cbn [write_all]. io_with iruns_write; [done|apply lookup_insert_eq|]. intros [e|n] w1.
  - intros ((t & Ht) & Hw1). io_ret. exists c, []. rewrite app_nil_r. splits; [done|done|done|apply prefix_nil|]. right. by eexists t, _, e.
  - intros (Hn & H0 & Hw1). rewrite insert_insert_eq in Hw1. assert (Hpos : n <> 0).
    { intros E. destruct (H0 E) as [?|(t & Ht)]; [done|]. apply (HW t (length (d :: data))); [cbn; lia|done]. }
    eapply iruns_weaken; [apply (IH _ _ _ Hw1); rewrite length_drop; cbn in *; lia|]. cbn beta. intros ok w2 (c' & p & Hw2 & Hr & Hs & Hp & Hor).
    exists c', (take n (d :: data) ++ p). splits; [done|done| | |].
    + rewrite Hs. cbn [sent c_sent]. rewrite concat_app. cbn [concat]. by rewrite app_nil_r, <- app_assoc.
    + rewrite <- (take_drop n (d :: data)) at 2. by apply prefix_app.
    + destruct Hor as [->|Hf]; [left; apply take_drop|by right].
Qed.

Lemma iruns_client_ready C S L H fd w : here C S L H w -> iruns (client_ready K tcp_qtimeout fd) w (fun ok w' => here C S L H w' /\ (ok = false -> poll_silent)).
Proof.
  intros Hw. unfold client_ready, poll. apply iruns_bind. io_with iruns_tick; [done|]. intros t w1 (_ & _ & Hw1). io_ret. io_ret. split; [done|]. intros E.
  exists t, [(Some fd, POLLIN)], (tcp_qtimeout * 1000)%Z. destruct (k_poll K t _ _) as [e|l]; [done|]. destruct l as [|x l]; [constructor|]. cbn in E |- *.
  rewrite orb_false_r in E. apply negb_false_iff, Z.eqb_eq in E. by constructor.
Qed.

Lemma iruns_accept C S L H w : here C S L H w ->
  iruns (accept K) w (fun r w' => match r with
    | None => here C S L H w' /\ accept_fails
    | Some fd => S !! fd = None /\ here C (<[fd := new_conn SOCK_STREAM]> S) L H w'
    end).
Proof.
  intros Hw. unfold accept. destruct (iruns_socket C K SOCK_STREAM S L H w Hw) as (r & w' & E & Hr). exists r, w'. split; [exact E|].
  destruct r as [fd|]; [done|]. split; [done|]. unfold socket, tick, getIO, put_sock, modIO, mbind, IO_bind, mret, IO_ret in E.
  destruct (k_socket K (ticks w)) as [e|] eqn:Ek; [by exists (ticks w), e|discriminate E].
Qed.

(** The query arrives in pieces: [pre] is what was received before it, the buffer has [olen] bytes of it. *)
Lemma iruns_read_query C S L H fd b rlen pre fuel : forall c m olen w,
  here C (<[fd := c]> S) L (<[b := m]> H) w -> length m = rlen -> olen <= rlen -> bytes m -> concat (c_recv c) = pre ++ take olen m -> rlen - olen < fuel ->
  iruns (read_query K tcp_qtimeout fuel fd (Ptr b) rlen olen) w (fun x w' => exists c' m' n, here C (<[fd := c']> S) L (<[b := m']> H) w' /\
    length m' = rlen /\ bytes m' /\ c_sent c' = c_sent c /\ concat (c_recv c') = pre ++ take n m' /\
    match x with Complete => n = rlen | TimedOut => n < rlen /\ poll_silent | Broken k => k = n /\ n < rlen /\ read_short end).
Proof.
  induction fuel as [|fu IH]; intros c m olen w Hw Hm Ho Hb Hr Hf; [lia|]. cbn [read_query]. destruct (Nat.ltb_spec olen rlen) as [Hlt|Hge].
  2:{ io_ret. exists c, m, olen. splits; try done. lia. }
  io_with iruns_client_ready; [done|]. intros ok w1 [Hw1 Hsil]. destruct ok; cbn [negb]; [|io_ret; exists c, m, olen; splits; auto].
  io_with iruns_read; [done|done|apply lookup_insert_eq|]. intros [e|l] w2.
  { intros [(t & Ht) Hw2]. io_ret. exists c, m, olen. splits; try done. exists t, (rlen - olen). by rewrite Ht. }
  intros (Hl & Hbl & (t & l' & Ht & El) & Hw2). rewrite insert_insert_eq in Hw2. destruct l as [|x l].
  { io_ret. exists (received [] c), m, olen. splits; try done; [cbn [received c_recv]; by rewrite concat_app, app_nil_r|].
    exists t, (rlen - olen). rewrite Ht. destruct l' as [|? l']; [cbn; lia|]. destruct (rlen - olen) eqn:E0; [lia|done]. }
  set (ch := x :: l) in *. assert (Hch : 0 < length ch) by (cbn; lia). io_with iruns_load; [done|apply lookup_insert_eq|]. intros ? w3 [-> Hw3].
  assert (E : wr_bytes m olen ch = Some (take olen m ++ ch ++ drop (length ch) (drop olen m))).
  { pose proof (wr_bytes_app_mid ch (take olen m) (drop olen m)) as E. rewrite take_drop, length_take_le in E by lia. apply E. rewrite length_drop. lia. }
  io_lift; [exact E|]. set (m' := _ ++ ch ++ _) in E |- *.
  assert (Hm' : length m' = length m) by (by eapply wr_bytes_length).
  io_with iruns_store; [done|apply lookup_insert_eq|done|]. intros _ w4 Hw4. rewrite insert_insert_eq in Hw4.
  eapply iruns_weaken; [apply (IH (received ch c) m'); [exact Hw4|lia|lia| | |lia]|cbn beta; by intros x' w5].
  - unfold m'. rewrite !Forall_app. splits; [by apply Forall_take|done|by do 2 apply Forall_drop].
  - cbn [received c_recv]. rewrite concat_app, Hr. cbn [concat]. rewrite app_nil_r, <- app_assoc. f_equal. unfold m'. rewrite app_assoc, take_app_le by (rewrite length_app, length_take; lia).
    by rewrite (take_ge (take olen m ++ ch)) by (rewrite length_app, length_take; lia).
Qed.

(** The client gets [e], or the beginning of it if a write fails. *)
Definition written (e p : list Z) : Prop := p = e \/ (write_fails /\ p `prefix_of` e).

(** What the client gets over a connection on which the bytes [r] of it were read: the reply to its query, if all of that has been
    read and there is a reply; an error message, if a read failed after two bytes of the query; and nothing if the
    query is not all there for other reasons.  [C] is the cache, which knows whether there is enough memory. *)
Definition tcp_exchange (C : cache) (r p : list Z) : Prop :=
  (exists q m, q <> [] /\ r = frame q /\ answered None q m None /\ written (frame m) p) \/
  (exists q, q <> [] /\ r = frame q /\ unanswered None q /\ p = []) \/
  (exists q n, r = put16 n ++ q /\ length q < Z.to_nat n /\ (n < 65536)%Z /\
    ((2 <= length q /\ read_short /\ written (frame (error_message udpbufsize q RC_FORMAT)) p) \/
     (length q < 2 /\ read_short /\ p = []) \/ (poll_silent /\ p = []) \/ (q = [] /\ ~ plenty C /\ p = []))) \/
  (p = [] /\ (length r < 2 /\ (read_short \/ poll_silent) \/ r = [0; 0]%Z)).

Lemma put16_bytes b1 b0 : is_byte b1 -> is_byte b0 -> put16 (b1 * 2 ^ 8 + b0) = [b1; b0].
Proof. unfold is_byte, put16, u8. intros H1 H0. f_equal; [|f_equal]; Z.to_euclidean_division_equations; lia. Qed.

Lemma length_error_message q : 2 <= length q -> length (error_message udpbufsize q RC_FORMAT) = sizeof_dns_hdr_t.
Proof. destruct q as [|? [|? q]]; cbn; intros; [lia..|done]. Qed.

Lemma iruns_tcp_error C S L H fd c b m n w : here C (<[fd := c]> S) L H w -> H !! b = Some m -> n <= length m -> c_sent c = [] ->
  iruns (tcp_error K fd (Ptr b) n) w (fun _ w' => exists c', here C (<[fd := c']> S) L H w' /\ c_recv c' = c_recv c /\
    if (2 <=? n) then written (frame (error_message udpbufsize (take n m) RC_FORMAT)) (concat (c_sent c')) else concat (c_sent c') = []).
Proof.
  intros Hw Hb Hn Hs. unfold tcp_error. destruct (Nat.leb_spec 2 n) as [H2|H2]; [|io_ret; exists c; rewrite Hs; by splits].
  io_with iruns_load; [done|done|]. intros ? w1 [-> Hw1]. io_lift; [apply rd_bytes_take; lia|].
  apply iruns_bind, (iruns_weaken _ _ (fun o w' => o = reply_opcode (take n m) /\ w' = w1)).
  { unfold reply_opcode. destruct (Nat.leb_spec 3 n) as [H3|H3]; [|io_ret; rewrite lookup_take_ge by lia; done].
    destruct (rd_lt m 2) as [f Hf]; [lia|]. io_lift; [exact Hf|]. io_ret. rewrite lookup_take_lt by lia. unfold rd in Hf. by rewrite Hf. }
  cbn beta. intros o ? [-> ->]. io_with iruns_write_all; [done| |].
  { unfold mk_error_reply. rewrite !length_app, length_take_le by lia. cbn. unfold sizeof_dns_hdr_t. lia. }
  intros ok w2 (c' & p & Hw2 & Hr & Hp & Hpre & Hor). io_ret. exists c'. splits; [done..|]. rewrite Hp, Hs. cbn [concat app].
  unfold written, frame. rewrite length_error_message by (rewrite length_take; lia). unfold error_message. change (extended RC_FORMAT) with false. cbv zeta. cbn match.
  rewrite take_take, Nat.min_l by lia. destruct Hor; auto.
Qed.

Lemma iruns_tcp_reply C S L H fd c b m w : here C (<[fd := c]> S) L H w -> ready C -> H !! b = Some m -> bytes m -> c_sent c = [] ->
  iruns (tcp_reply K rnd_recs udpbufsize dns_cached_resolve rnd fd (Ptr b) (length m)) w (fun _ w' => exists C' c', ready C' /\ here C' (<[fd := c']> S) L (delete b H) w' /\ c_recv c' = c_recv c /\
    ((concat (c_sent c') = [] /\ unanswered None m) \/ exists r, answered None m r None /\ written (frame r) (concat (c_sent c')))).
Proof.
  intros Hw HC Hb Hbm Hs. unfold tcp_reply. io_with iruns_process; [done|done|done|done|by apply Forall_take|]. rewrite take_ge by done.
  intros [[[p n] lim]|] w1 (C1 & HC1 & Hw1); cbn match.
  2:{ destruct Hw1 as [Hw1 Hun]. io_with iruns_free; [done|done|]. intros _ w2 Hw2. io_ret. exists C1, c. rewrite Hs. splits; try done. by left. }
  destruct Hw1 as (b' & msg & -> & Hb' & Hw1 & Hn & Ha). assert (Hne : b' <> b) by (intros ->; congruence).
  assert (lim = None) as ->.
  { destruct Ha as (now & c0 & r & rc & s & _ & _ & _ & -> & _). by destruct (limit_cases m None c0) as [E|(? & ? & ? & _)]. }
  io_with iruns_free; [exact Hw1|by rewrite lookup_insert_ne by done|]. intros _ w2 Hw2. rewrite delete_insert_ne in Hw2 by done.
  io_with iruns_load; [done|apply lookup_insert_eq|]. intros ? w3 [-> Hw3]. io_lift; [by apply rd_bytes_take|].
  assert (Hlr : length (take n msg) = n) by (rewrite length_take; lia).
  io_with iruns_write_all; [done|rewrite length_app, Hlr; cbn; lia|]. intros ok w4 (c' & p & Hw4 & Hr & Hp & Hpre & Hor).
  eapply iruns_weaken; [eapply iruns_free; [done|apply lookup_insert_eq]|]. cbn beta. intros _ w5 Hw5.
  rewrite delete_insert_id in Hw5 by (rewrite lookup_delete_ne by done; exact Hb'). exists C1, c'. splits; [done..|]. right. exists (take n msg).
  rewrite Hp, Hs. cbn [concat app]. unfold written, frame. rewrite Hlr. split; [done|]. destruct Hor; auto.
Qed.

Lemma iruns_tcp_answer C S L H fd c w : here C (<[fd := c]> S) L H w -> ready C -> c_sent c = [] -> c_recv c = [] ->
  iruns (tcp_answer K rnd_recs udpbufsize dns_cached_resolve rnd tcp_qtimeout fd) w (fun _ w' => exists C' c', ready C' /\ here C' (<[fd := c']> S) L H w' /\
    tcp_exchange C (concat (c_recv c')) (concat (c_sent c'))).
Proof.
  intros Hw HC Hs Hr. unfold tcp_answer.
  assert (Hquiet : forall c' w', here C (<[fd := c']> S) L H w' -> c_sent c' = [] -> tcp_exchange C (concat (c_recv c')) [] -> iruns (mret tt) w' (fun _ w' => exists C' c', ready C' /\ here C' (<[fd := c']> S) L H w' /\
    tcp_exchange C (concat (c_recv c')) (concat (c_sent c')))).
  { intros c' w' H1 H2 H3. io_ret. exists C, c'. splits; [done..|]. by rewrite H2. }
  assert (Hfew : forall r, length r < 2 -> read_short \/ poll_silent -> tcp_exchange C r []) by (intros r H1 H2; right; right; right; split; [done|by left]).
  io_with iruns_client_ready; [done|]. intros ok w1 [Hw1 Hsil]. destruct ok; cbn [negb]; [|eapply Hquiet; [exact Hw1|exact Hs|]; rewrite Hr; apply Hfew; [cbn; lia|right; auto]].
  io_with iruns_read; [done|done|apply lookup_insert_eq|]. intros [e|l] w2.
  { intros [(t & Ht) Hw2]. eapply Hquiet; [exact Hw2|exact Hs|]. rewrite Hr. apply Hfew; [cbn; lia|left]. exists t, 2. by rewrite Ht. }
  intros (Hl & Hbl & (t & l' & Ht & El) & Hw2). rewrite insert_insert_eq in Hw2.
  assert (Hrec : concat (c_recv (received l c)) = l) by (cbn [received c_recv]; rewrite Hr; cbn; apply app_nil_r).
  assert (Hshort : length l < 2 -> tcp_exchange C (concat (c_recv (received l c))) []).
  { intros Hl2. rewrite Hrec. apply Hfew; [done|left]. exists t, 2. rewrite Ht. rewrite El, length_take in Hl2. lia. }
  destruct l as [|b1 [|b0 [|]]]; [(eapply Hquiet; [exact Hw2|exact Hs|]; apply Hshort; cbn; lia)..| |cbn in Hl; lia].
  apply Forall_cons in Hbl as [Hb1 Hbl]. apply Forall_cons in Hbl as [Hb0 _]. cbv zeta.
  set (rlen := Z.to_nat (b1 * 2 ^ 8 + b0)). assert (Hn : (Z.of_nat rlen = b1 * 2 ^ 8 + b0)%Z) by (unfold rlen, is_byte in *; lia).
  assert (Hput : put16 (Z.of_nat rlen) = [b1; b0]) by (by rewrite Hn, put16_bytes). assert (Hrlen : (Z.of_nat rlen < 65536)%Z) by (unfold is_byte in *; lia).
  assert (Hpart : forall q p, length q < rlen -> (2 <= length q /\ read_short /\ written (frame (error_message udpbufsize q RC_FORMAT)) p) \/
     (length q < 2 /\ read_short /\ p = []) \/ (poll_silent /\ p = []) \/ (q = [] /\ ~ plenty C /\ p = []) -> tcp_exchange C (put16 (Z.of_nat rlen) ++ q) p).
  { intros q p Hq Hor. right. right. left. exists q, (Z.of_nat rlen). by rewrite Nat2Z.id. }
  destruct (Nat.eqb_spec rlen 0) as [E0|E0].
  { eapply Hquiet; [exact Hw2|exact Hs|]. rewrite Hrec. right. right. right. split; [done|]. right. rewrite <- Hput, E0. done. }
  io_with iruns_malloc; [done|]. intros r w3 [(-> & Hnp & Hw3)|(b & -> & Hb & Hw3)]; cbn match.
  { eapply Hquiet; [exact Hw3|exact Hs|]. rewrite Hrec, <- Hput, <- (app_nil_r (put16 _)). apply Hpart; [cbn; lia|]. do 3 right. done. }
  io_with iruns_read_query; [exact Hw3|apply length_replicate|lia|apply Forall_replicate; unfold is_byte; lia| |lia|].
  { rewrite Hrec, take_0, app_nil_r. reflexivity. }
  cbn [received c_sent]. rewrite Hs. intros x w4 (c' & m & n & Hw4 & Hm & Hbm & Hs' & Hr' & Hx). rewrite <- Hput in Hr'. destruct x as [| |k].
  - subst n. rewrite take_ge in Hr' by lia. rewrite <- Hm. eapply iruns_weaken; [eapply iruns_tcp_reply; [exact Hw4|exact HC|apply lookup_insert_eq|exact Hbm|exact Hs']|].
    cbn beta. intros _ w5 (C' & c2 & HC' & Hw5 & Hrc & Hout). rewrite delete_insert_id in Hw5 by done. exists C', c2. splits; [done..|]. rewrite Hrc, Hr', <- Hm. fold (frame m).
    assert (Hne : m <> []) by (intros ->; cbn in Hm; lia).
    destruct Hout as [[Ho Hun]|(m' & Ha & Ho)]; [right; left; by exists m|left; by exists m, m'].
  - destruct Hx as [Hlt Hps]. eapply iruns_weaken; [eapply iruns_free; [exact Hw4|apply lookup_insert_eq]|]. cbn beta. intros _ w5 Hw5. rewrite delete_insert_id in Hw5 by done.
    exists C, c'. splits; [done..|]. rewrite Hs', Hr'. apply Hpart; [rewrite length_take; lia|]. right. right. by left.
  - destruct Hx as (-> & Hlt & Hrs). io_with iruns_tcp_error; [exact Hw4|apply lookup_insert_eq|lia|done|]. intros _ w5 (c2 & Hw5 & Hrc & Hout).
    eapply iruns_weaken; [eapply iruns_free; [exact Hw5|apply lookup_insert_eq]|]. cbn beta. intros _ w6 Hw6. rewrite delete_insert_id in Hw6 by done.
    exists C, c2. splits; [done..|]. rewrite Hrc, Hr'. assert (Hln : length (take n m) = n) by (rewrite length_take; lia). apply Hpart; rewrite Hln; [done|].
    destruct (Nat.leb_spec 2 n); [by left|right; by left].
Qed.

(** A round without a connection is one without memory or in which [accept] failed; a connection for which there is no
    thread is closed at once. *)
Definition tcp_round (C : cache) (served : bool) (l : list conn) : Prop :=
  (l = [] /\ (~ plenty C \/ accept_fails)) \/
  exists c, l = [c] /\ if served then tcp_exchange C (concat (c_recv c)) (concat (c_sent c)) else c_recv c = [] /\ c_sent c = [].

Lemma iruns_tcp_serve C S L H accepted created w : here C S L H w -> ready C ->
  iruns (tcp_serve K rnd_recs udpbufsize dns_cached_resolve rnd tcp_qtimeout accepted created) w (fun _ w' => exists C' l, ready C' /\ here C' S (l ++ L) H w' /\
    tcp_round C (accepted && created) l).
Proof.
  intros Hw HC. unfold tcp_serve. io_with iruns_malloc; [done|]. intros r w1 [(-> & Hnp & Hw1)|(b & -> & Hb & Hw1)]; cbn match.
  { io_ret. exists C, []. splits; [done..|left; auto]. }
  io_with iruns_accept; [done|]. intros [fd|] w2.
  2:{ intros [Hw2 Ha]. io_with iruns_free; [done|apply lookup_insert_eq|]. intros _ w3 Hw3. rewrite delete_insert_id in Hw3 by done. io_ret. exists C, []. splits; [done..|left; auto]. }
  intros (Hfd & Hw2).
  assert (Hend : forall served C' c w', ready C' -> here C' (<[fd := c]> S) L (<[b := replicate 4 0%Z]> H) w' ->
      (if (served : bool) then tcp_exchange C (concat (c_recv c)) (concat (c_sent c)) else c_recv c = [] /\ c_sent c = []) ->
    iruns (close fd) w' (fun _ w' => iruns (pdnsd_free (Ptr b)) w' (fun _ w' => exists C' l, ready C' /\ here C' S (l ++ L) H w' /\ tcp_round C served l))).
  { intros served C' c w' HC' Hw' Hx. eapply iruns_weaken; [eapply iruns_close; [done|apply lookup_insert_eq]|]. cbn beta. intros _ w3 Hw3. rewrite delete_insert_id in Hw3 by done.
    eapply iruns_weaken; [eapply iruns_free; [done|apply lookup_insert_eq]|]. cbn beta. intros _ w4 Hw4. rewrite delete_insert_id in Hw4 by done.
    exists C', [c]. splits; [done..|]. right. by exists c. }
  destruct (accepted && created).
  - unfold tcp_answer_thread. apply iruns_bind. io_with iruns_tcp_answer; [exact Hw2|done|done|done|]. intros _ w3 (C' & c' & HC' & Hw3 & Hx).
    apply iruns_bind. eapply iruns_weaken; [by eapply (Hend true)|]. cbn beta. intros _ w4 H4. eapply iruns_weaken; [exact H4|]. cbn beta. intros _ w5 H5. by io_ret.
  - apply iruns_bind. eapply iruns_weaken; [by eapply (Hend false C _ w2 HC Hw2)|]. cbn beta. intros _ w4 H4. apply iruns_bind.
    eapply iruns_weaken; [exact H4|]. cbn beta. intros _ w5 H5. by io_ret.
Qed.
End Serve.

(** ** Theorems *)

Section Service.
Context {P : Platform} (K : kernel) (rnd_recs : bool) (udpbufsize : Z).
Context (dns_cached_resolve : list Z -> Z -> Z -> M (Z * option dns_cent * Z)).
Context (rnd : nat -> list Z) (tcp_qtimeout : Z) (has_pktinfo : nat -> bool).

(** C13: a round of the UDP server.  Whatever arrives and whatever fails, it is memory safe and ends, the
    buffer and the reply are freed, and the cache is in order.  At most one datagram is sent for a query:
    the reply that [process_query] composes for it, in full and without the TC bit if it fits into the limit,
    which is 512 bytes or what the EDNS record allows, up to the size of the configuration; otherwise its
    beginning, up to the limit, with the TC bit set. *)
Theorem udp_service_correct (sock : positive) (c : conn) (accepted created : bool) (w : world) :
  Resolver dns_cached_resolve -> kernel_ok K -> (UDP_BUFSIZE <= udpbufsize)%Z -> ready (w_cache w) -> socks w !! sock = Some c ->
  iruns (udp_serve K rnd_recs udpbufsize dns_cached_resolve rnd has_pktinfo sock accepted created) w (fun _ w' =>
    ready (w_cache w') /\ heap w' = heap w /\ past w' = past w /\ exists c', socks w' = <[sock := c']> (socks w) /\
    ((c_sent c' = c_sent c /\ (c_recv c' = c_recv c \/ exists q, c_recv c' = c_recv c ++ [q])) \/
     exists q d, c_recv c' = c_recv c ++ [q] /\ c_sent c' = c_sent c ++ [d] /\ udp_sent rnd_recs udpbufsize dns_cached_resolve q d)).
Proof.
  intros HR HK Hbuf Hr Hc. pose proof (here_self w) as Hw.
  eapply iruns_weaken; [by eapply iruns_udp_serve|]. cbn beta. intros _ w' (C' & c' & HC' & ((Hm & _) & HS & HL & HH) & Hround).
  splits; [by eapply ready_mem|done|done|]. by exists c'.
Qed.

End Service.

(** How a client takes a message apart. *)
Definition unframe (l : list Z) : option (list Z * list Z) :=
  match l with
  | b1 :: b0 :: r => let n := Z.to_nat (b1 * 2 ^ 8 + b0) in if (n <=? length r) then Some (take n r, drop n r) else None
  | _ => None
  end.

(** The length in front of a message has 16 bits.  A message of up to 65535 bytes is read back by the client; of a longer one,
    which the TCP server does not prevent, the client reads a shorter one. *)
Theorem frame_limit (m r : list Z) :
  (length m < Z.to_nat 65536 -> unframe (frame m ++ r) = Some (m, r)) /\
  (Z.to_nat 65536 <= length m -> exists x y, unframe (frame m ++ r) = Some (x, y) /\ length x < length m).
Proof.
  unfold frame, put16, u8. cbn [app unframe]. set (n := Z.of_nat (length m)).
  assert (E : ((n / 2 ^ 8) mod 2 ^ 8 * 2 ^ 8 + n mod 2 ^ 8 = n mod 65536)%Z) by (Z.to_euclidean_division_equations; lia). rewrite E. rewrite length_app. split; intros H.
  - rewrite Z.mod_small by lia. replace (Z.to_nat n) with (length m) by lia. bool_true (length m <=? length m + length r). by rewrite take_app_length, drop_app_length.
  - pose proof (Z.mod_pos_bound n 65536). bool_true (Z.to_nat (n mod 65536) <=? length m + length r). eexists _, _. split; [done|]. rewrite length_take, length_app. lia.
Qed.

(** ** Examples *)

#[local] Existing Instance LP64.

(** A kernel through which the query of an earlier example arrives, in pieces of at most 8 bytes over TCP, and that
    takes at most 10 bytes at a time. *)
Definition demo_serve_kernel : kernel := {|
  k_socket := fun _ => None; k_bind := fun _ _ => None; k_fcntl := fun _ => None; k_connect := fun _ _ => None;
  k_write := fun _ n => inr (Nat.min n 10); k_send := fun _ => None;
  k_read := fun _ n => inr (if (n =? 2) then put16 (Z.of_nat (length demo_query)) else take 8 (drop (length demo_query - n) demo_query));
  k_recv := fun _ _ => inr demo_query; k_rand16 := fun _ => 0%Z; k_random := fun _ => 0%Z; k_time := fun _ => 1000%Z;
  k_poll := fun _ _ _ => inr [1%Z] |}.

Definition demo_conn (tp : sock_type) : conn := {| c_type := tp; c_port := Some 53%Z; c_peer := None; c_sent := []; c_recv := [] |}.
Definition demo_serve_world (S : gmap positive conn) : world := {| w_cache := fresh_cache; socks := S; past := []; heap := ∅; ticks := 0; tests := [] |}.

Lemma demo_serve_kernel_ok : kernel_ok demo_serve_kernel.
Proof.
  split; intros t n l E; injection E as <-; [|exact demo_query_bytes]. destruct (n =? 2); [repeat constructor; unfold is_byte; vm_compute; intuition congruence|].
  apply Forall_take, Forall_drop. exact demo_query_bytes.
Qed.

Lemma demo_serve_writes : writes_some demo_serve_kernel.
Proof. intros t n Hn E. injection E as E. lia. Qed.

Abbreviation demo_udp := (udp_serve demo_serve_kernel false 1024 cache_resolver (fun _ => []) (fun _ => true) 1 true true (demo_serve_world {[1%positive := demo_conn SOCK_DGRAM]})).
Abbreviation demo_tcp := (tcp_serve demo_serve_kernel false 1024 cache_resolver (fun _ => []) 5 true true (demo_serve_world ∅)).

Definition demo_reply : list Z := [0; 7; 129; 130; 0; 1; 0; 0; 0; 0; 0; 0; 1; 97; 0; 0; 1; 0; 1]%Z.

(** Two queries arrive, a thread is created for the first one and starts, and for the second one that fails. *)
Lemma service_limited_witness : exists x, rtc (serve_step 1 1) service_start x /\ s_active x = 1 /\ (Z.of_nat (s_active x) <= 1)%Z.
Proof.
  eexists. assert (H : rtc (serve_step 1 1) service_start
    {| s_counts := {| procs := 1; qprocs := 1; spawned := 1; dropped := 1 |}; s_servers := [Listening; Listening]; s_waiting := 0; s_active := 1 |}).
  { eapply rtc_l; [eapply (ss_query 1 1 0); reflexivity|]. eapply rtc_l; [eapply (ss_query 1 1 1); reflexivity|]. eapply rtc_l; [eapply (ss_created 1 1 0); reflexivity|].
    eapply rtc_l; [eapply (ss_failed 1 1 1); reflexivity|]. eapply rtc_l; [eapply ss_start; reflexivity|]. apply rtc_refl. }
  split; [exact H|]. split; [reflexivity|]. apply (service_limited 1 1 _ ltac:(lia) ltac:(lia) H).
Defined.

Lemma udp_service_correct_witness : exists a w', demo_udp = Some (a, w') /\ heap w' = ∅ /\ c_sent <$> socks w' !! 1%positive = Some [demo_reply].
Proof.
  destruct (udp_service_correct demo_serve_kernel false 1024 cache_resolver (fun _ => []) (fun _ => true) 1 (demo_conn SOCK_DGRAM) true true
    (demo_serve_world {[1%positive := demo_conn SOCK_DGRAM]}) cache_resolver_ok demo_serve_kernel_ok ltac:(discriminate) ready_fresh eq_refl) as (a & w' & E & _ & Hh & _).
  exists a, w'. split; [exact E|]. split; [exact Hh|].
  assert (E2 : (fun x => c_sent <$> socks x.2 !! 1%positive) <$> demo_udp = Some (Some [demo_reply])) by (vm_compute; reflexivity).
  rewrite E in E2. injection E2 as E2. exact E2.
Defined.

