(* ===== verification/Hosts.v ===== *)
(** Local data: hosts files ([read_hosts], [add_host] and [a2ptrstr] of [pdnsd/src/dns.c]) and the records
    for reverse resolving of a local entry ([add_reverse_cache] of [pdnsd/src/cache.c]).

    A line of the file is a buffer that ends with a NUL; the conversions of addresses are those of the
    C library and are parameters. *)
From S2P Require Import Prelude Names NameText Text DnsName RrTypes HashTab RrList Cent Cache.

(** ** Names of addresses *)

(** A byte with [%u]. *)
Definition show_dec (b : Z) : list Z :=
  if (b <? 10)%Z then [(48 + b)%Z]
  else if (b <? 100)%Z then [(48 + b / 10)%Z; (48 + b mod 10)%Z]
  else [(48 + b / 100)%Z; (48 + (b / 10) mod 10)%Z; (48 + b mod 10)%Z].

Definition dot : list Z := [46%Z].
(** "in-addr.arpa." and "ip6.arpa.". *)
Definition in_addr_arpa : list Z := [105; 110; 45; 97; 100; 100; 114; 46; 97; 114; 112; 97; 46]%Z.
Definition ip6_arpa : list Z := [105; 112; 54; 46; 97; 114; 112; 97; 46]%Z.

(** The loop over the bytes of an IPv6 address from the [n]-th one down: where it has got to, or nothing. *)
Fixpoint a2ptr_loop (n : nat) (p buf : list Z) (offs : nat) : option (option nat * list Z) :=
  match n with
  | O => Some (Some offs, buf)
  | S i =>
      bt ← rd p i;
      '(k, buf) ← snprintf buf offs (DNSNAMEBUFSIZE - offs) [hexdigit (Z.land bt 0xf); 46%Z; hexdigit (Z.land (Z.shiftr bt 4) 0xf); 46%Z];
      if (DNSNAMEBUFSIZE <=? offs + k) then Some (None, buf) else a2ptr_loop i p buf (offs + k)
  end.

Definition a2ptrstr (a : list Z) (tp : Z) (buf : list Z) : option (bool * list Z) :=
  if (tp =? T_A)%Z then
    p3 ← rd a 3; p2 ← rd a 2; p1 ← rd a 1; p0 ← rd a 0;
    '(n, buf) ← snprintf buf 0 DNSNAMEBUFSIZE (show_dec p3 ++ dot ++ show_dec p2 ++ dot ++ show_dec p1 ++ dot ++ show_dec p0 ++ dot ++ in_addr_arpa);
    Some (n <? DNSNAMEBUFSIZE, buf)
  else if (tp =? T_AAAA)%Z then
    '(o, buf) ← a2ptr_loop 16 a buf 0;
    match o with
    | Some offs => strncp buf offs (ip6_arpa ++ [0%Z]) (DNSNAMEBUFSIZE - offs)
    | None => Some (false, buf)
    end
  else Some (false, buf).

(** The name in wire form: [a2ptrstr] and [str2rhn] one after the other. *)
Definition ptr_name (a : list Z) (tp : Z) : option (option (list Z)) :=
  '(ok, buf) ← a2ptrstr a tp (replicate DNSNAMEBUFSIZE 0%Z);
  if (ok : bool) then
    '(ok, rhn) ← str2rhn buf (replicate DNSNAMEBUFSIZE 0%Z);
    Some (if (ok : bool) then Some rhn else None)
  else Some None.

Section Local.
Context {P : Platform} (now : Z) (global : globals).

(** ** Hosts files *)

(** One half of [add_host]: an entry with the record and one for the name server; [false] without
    memory. *)
Definition host_entry (name : list Z) (tp : Z) (data rns : list Z) (ttl flags : Z) : M bool :=
  c ← init_cent name 0 0 flags;
  match c with
  | None => mret false
  | Some ce =>
      '(ok, ce) ← add_cent_rr ce tp ttl 0 CF_LOCAL data;
      if negb ok then _ ← free_cent ce; mret false
      else
        n ← liftM (rhnlen rns);
        ns ← liftM (rd_bytes rns 0 n);
        '(ok, ce) ← add_cent_rr ce T_NS ttl 0 CF_LOCAL ns;
        if negb ok then _ ← free_cent ce; mret false
        else _ ← add_cache now global ce; _ ← free_cent ce; mret true
  end.

(** [add_host]: 1, 0 without memory, or -1. *)
Definition add_host (pn rns a : list Z) (tp ttl flags : Z) (reverse : bool) : M Z :=
  ok ← host_entry pn tp a rns ttl flags;
  if negb ok then mret 0%Z
  else if reverse then
    r ← liftM (ptr_name a tp);
    match r with
    | None => mret (-1)%Z
    | Some rhn =>
        n ← liftM (rhnlen pn);
        d ← liftM (rd_bytes pn 0 n);
        ok ← host_entry rhn T_PTR d rns ttl flags;
        mret (if (ok : bool) then 1%Z else 0%Z)
    end
  else mret 1%Z.

Definition isspace (c : Z) : bool := ((9 <=? c) && (c <=? 13) || (c =? 32))%Z.

(** [strchr(buf,'#')], where the line is cut off. *)
Fixpoint cut_comment (fuel : nat) (buf : list Z) (p : nat) : option (list Z) :=
  match fuel with
  | O => None
  | S fu =>
      c ← rd buf p;
      if (c =? 0)%Z then Some buf else if (c =? 35)%Z then wr buf p 0 else cut_comment fu buf (S p)
  end.

(** The loops over the line.  [None] inside is the jump to [nextline] at its end. *)
Fixpoint skip_spaces (fuel : nat) (buf : list Z) (p : nat) : option (option nat) :=
  match fuel with
  | O => None
  | S fu =>
      c ← rd buf p;
      if (c =? 0)%Z then Some None else if isspace c then skip_spaces fu buf (S p) else Some (Some p)
  end.
Fixpoint next_space (fuel : nat) (buf : list Z) (p : nat) : option (option nat) :=
  match fuel with
  | O => None
  | S fu =>
      c ← rd buf (S p);
      if (c =? 0)%Z then Some None else if isspace c then Some (Some (S p)) else next_space fu buf (S p)
  end.
Fixpoint next_word (fuel : nat) (buf : list Z) (p : nat) : option (option nat) :=
  match fuel with
  | O => None
  | S fu =>
      c ← rd buf (S p);
      if (c =? 0)%Z then Some None else if isspace c then next_word fu buf (S p) else Some (Some (S p))
  end.
Fixpoint word_end (fuel : nat) (buf : list Z) (p : nat) : option nat :=
  match fuel with
  | O => None
  | S fu =>
      c ← rd buf (S p);
      if (c =? 0)%Z || isspace c then Some (S p) else word_end fu buf (S p)
  end.

(** [inet_aton], and [inet_pton] for IPv6. *)
Context (inet_aton inet_pton6 : list Z -> option (list Z)).
Context (rns : list Z) (ttl flags : Z) (aliases : bool).

(** The name between [pn] and [p]. *)
Definition host_name (buf : list Z) (pn p : nat) (rhn : list Z) : option (bool * list Z) :=
  '(e, rhn) ← parsestr2rhn (drop pn buf) (p - pn) rhn;
  Some (bool_decide (e = PE_none), rhn).

(** The other names of a line; [false] without memory. *)
Fixpoint alias_loop (fuel : nat) (buf : list Z) (p : nat) (a : list Z) (tp : Z) (rhn : list Z) : M bool :=
  match fuel with
  | O => liftM None
  | S fu =>
      q ← liftM (skip_spaces (length buf) buf p);
      match q with
      | None => mret true
      | Some pn =>
          p ← liftM (word_end (length buf) buf pn);
          '(ok, rhn) ← liftM (host_name buf pn p rhn);
          if negb ok then mret true
          else
            res ← add_host rhn rns a tp ttl flags false;
            if (res =? 0)%Z then mret false else alias_loop fu buf p a tp rhn
      end
  end.

(** The line is taken apart: the address and the name are between these positions. *)
Definition split_line (buf : list Z) : option (option (nat * nat * nat * nat * list Z)) :=
  let fu := length buf in
  buf ← cut_comment fu buf 0;
  o ← skip_spaces fu buf 0;
  match o with
  | None => Some None
  | Some pi =>
      o ← next_space fu buf pi;
      match o with
      | None => Some None
      | Some e =>
          buf ← wr buf e 0;
          o ← next_word fu buf e;
          match o with
          | None => Some None
          | Some pn => p ← word_end fu buf pn; Some (Some (pi, e, pn, p, buf))
          end
      end
  end.

Definition parse_addr (text : list Z) : option (Z * list Z) :=
  match inet_aton text with
  | Some a => Some (T_A, a)
  | None => match inet_pton6 text with Some a => Some (T_AAAA, a) | None => None end
  end.

(** One line of the file; [false] without memory. *)
Definition hosts_line (line : list Z) : M bool :=
  o ← liftM (split_line (line ++ [0%Z]));
  match o with
  | None => mret true
  | Some (pi, e, pn, p, buf) =>
      '(ok, rhn) ← liftM (host_name buf pn p (replicate DNSNAMEBUFSIZE 0%Z));
      if negb ok then mret true
      else
        text ← liftM (rd_bytes buf pi (e - pi));
        match parse_addr text with
        | None => mret true
        | Some (tp, a) =>
            res ← add_host rhn rns a tp ttl flags true;
            if (res =? 0)%Z then mret false
            else if (res <? 0)%Z then mret true
            else if aliases then alias_loop (length buf) buf p a tp rhn else mret true
        end
  end.

Fixpoint hosts_lines (lines : list (list Z)) : M bool :=
  match lines with
  | [] => mret true
  | l :: lines' => ok ← hosts_line l; if (ok : bool) then hosts_lines lines' else mret false
  end.

(** [read_hosts]: 1 on success.  [lines] is what [getline] returns one after the other, and [eof] whether
    that ended at the end of the file. *)
Definition read_hosts (opened eof : bool) (lines : list (list Z)) : M Z :=
  if negb opened then mret 0%Z
  else
    ok ← malloc;
    if negb ok then mret 0%Z
    else ok ← hosts_lines lines; mret (if (ok : bool) && eof then 1%Z else 0%Z).

(** ** Reverse resolving *)

(** One record: the entry borrows the NS and SOA sets of [cent] while it is added. *)
Definition reverse_rr (cent : dns_cent) (rs : rr_set) (tp : Z) (data : list Z) : M bool :=
  r ← liftM (ptr_name data tp);
  match r with
  | None => mret false
  | Some rhn =>
      c ← init_cent rhn 0 0 (Cent.flags cent);
      match c with
      | None => mret false
      | Some ce =>
          n ← liftM (rhnlen (qname cent));
          d ← liftM (rd_bytes (qname cent) 0 n);
          '(ok, ce) ← add_cent_rr ce T_PTR (rs_ttl rs) (rs_ts rs) (rs_flags rs) d;
          if negb ok then _ ← free_cent ce; mret false
          else
            ns ← liftM (rrarr_index cent RRMUINDEX_NS);
            soa ← liftM (rrarr_index cent RRMUINDEX_SOA);
            lent ← liftM (c ← rrarr_set ce RRMUINDEX_NS ns; rrarr_set c RRMUINDEX_SOA soa);
            _ ← add_cache now global lent;
            ce ← liftM (c ← rrarr_set lent RRMUINDEX_NS None; rrarr_set c RRMUINDEX_SOA None);
            _ ← free_cent ce;
            mret true
      end
  end.

Fixpoint reverse_rrs (cent : dns_cent) (rs : rr_set) (tp : Z) (rrs : list (list Z)) : M bool :=
  match rrs with
  | [] => mret true
  | d :: rrs' => ok ← reverse_rr cent rs tp d; if (ok : bool) then reverse_rrs cent rs tp rrs' else mret false
  end.

Definition reverse_set (cent : dns_cent) (tp : Z) : M bool :=
  o ← liftM (getrrset cent tp);
  match o with Some rs => reverse_rrs cent rs tp (rs_rrs rs) | None => mret true end.

Definition add_reverse_cache (cent : dns_cent) : M bool :=
  ok ← reverse_set cent T_A;
  if (ok : bool) then reverse_set cent T_AAAA else mret false.
End Local.
