(* ===== verification/HostsThms.v ===== *)
(** What hosts files do to the cache, the names of addresses, and the records for reverse resolving. *)
From S2P Require Import Prelude Names NameText Text DnsName Compress RrTypes HashTab RrList Cent CentSpec Cache CacheInv CachePurge CacheAdd CacheOps CacheThms.
From S2P Require Import Answer AnswerRr AnswerSet Query QueryDecode QuerySafe QueryThms Reply ReplyData ReplySpec Exec ExecStages QuerySm SmSpec Hosts.

(** ** Names of addresses *)

Definition label_in_addr : list Z := [105; 110; 45; 97; 100; 100; 114]%Z.
Definition label_ip6 : list Z := [105; 112; 54]%Z.
Definition label_arpa : list Z := [97; 114; 112; 97]%Z.

(** The two labels for a byte of an IPv6 address. *)
Definition nibbles (b : Z) : list (list Z) := [[hexdigit (Z.land b 0xf)]; [hexdigit (Z.land (Z.shiftr b 4) 0xf)]].

(** The labels of the name for an address (RFC 1035 3.5, RFC 3596 2.5). *)
Definition ptr_labels (a : list Z) (tp : Z) : list (list Z) :=
  if (tp =? T_A)%Z then map show_dec (rev a) ++ [label_in_addr; label_arpa] else concat (map nibbles (rev a)) ++ [label_ip6; label_arpa].

(** An address of the given type. *)
Definition is_addr (tp : Z) (a : list Z) : Prop := bytes a /\ ((tp = T_A /\ length a = 4) \/ (tp = T_AAAA /\ length a = 16)).

Lemma text_label l : 1 <= length l <= 63 -> Forall (fun c => 0 < c < 256 /\ c <> 46)%Z l -> wf_text l.
Proof.
  intros Hl H. split; [split; [lia|]|]; (eapply Forall_impl; [exact H|]); cbn beta; unfold is_byte; intros; lia.
Qed.

Lemma show_dec_text b : is_byte b -> wf_text (show_dec b) /\ length (show_dec b) <= 3.
Proof.
  unfold is_byte. intros H. unfold show_dec.
  repeat match goal with |- context [(?x <? ?y)%Z] => destruct (Z.ltb_spec x y) end; (split; [apply text_label|]; cbn [length]; try lia);
    repeat constructor; Z.to_euclidean_division_equations; lia.
Qed.

Lemma land_15_bound x : (0 <= Z.land x 0xf < 16)%Z.
Proof. change 0xf%Z with (Z.ones 4). rewrite Z.land_ones by lia. apply Z.mod_pos_bound. lia. Qed.

Lemma nibbles_text b : Forall wf_text (nibbles b).
Proof.
  assert (H : forall x, wf_text [hexdigit (Z.land x 0xf)]).
  { intros x. pose proof (land_15_bound x). apply text_label; [cbn; lia|]. constructor; [|constructor]. unfold hexdigit. destruct (Z.ltb_spec (Z.land x 15) 10); lia. }
  constructor; [apply H|]. constructor; [apply H|constructor].
Qed.

Lemma length_dotted_enc ls : length (enc_labels ls) = length (dotted ls).
Proof. induction ls as [|l ls IH]; [done|]. rewrite enc_labels_cons, dotted_cons, !length_app, length_enc_label, IH. cbn. lia. Qed.

Lemma dotted_bytes ls : Forall wf_text ls -> bytes (dotted ls) /\ Forall (fun c => c <> 0)%Z (dotted ls).
Proof.
  induction 1 as [|l ls [[_ Hb] Hc] _ [IH1 IH2]]; [by split; constructor|]. rewrite dotted_cons. split; rewrite Forall_app, Forall_cons.
  - splits; [done|unfold is_byte; lia|done].
  - splits; [eapply Forall_impl; [exact Hc|]; cbn; tauto|lia|done].
Qed.

(** A text in a buffer denotes its name. *)
Lemma text_name ls rest : Forall wf_text ls -> ls <> [] -> length (dotted ls) < DNSNAMEBUFSIZE ->
  wf_name ls /\ exists r, str2rhn (dotted ls ++ 0%Z :: rest) (replicate DNSNAMEBUFSIZE 0%Z) = Some (true, enc_name ls ++ r) /\ length (enc_name ls ++ r) = DNSNAMEBUFSIZE.
Proof.
  intros Hls Hne Hlen. destruct (dotted_bytes ls Hls) as [Hb Hz]. assert (Hwf : wf_name ls).
  { split; [by apply wf_text_label|]. rewrite length_enc_name, length_dotted_enc. lia. }
  split; [done|]. assert (Hn : names_text (dotted ls) ls) by (unfold names_text; splits; [done|done|]; left; by split).
  destruct (str2rhn_spec (dotted ls ++ 0%Z :: rest) (dotted ls) (replicate DNSNAMEBUFSIZE 0%Z)) as (ok & rhn & E & Hl & Ht & Hf);
    [split; [done|by exists rest]|done|by rewrite length_replicate|].
  destruct ok; [|by destruct (Hf eq_refl ls)]. destruct (Ht eq_refl) as (ls' & r & Hn' & ->). pose proof (names_text_inj _ _ _ Hn Hn') as <-. by exists r.
Qed.

Lemma snprintf_fits pre rest text sz : length text < sz -> sz <= length rest -> exists rest',
  snprintf (pre ++ rest) (length pre) sz text = Some (length text, pre ++ text ++ 0%Z :: rest') /\ length (text ++ 0%Z :: rest') = length rest.
Proof.
  intros Hs Hr. rewrite snprintf_app by lia. rewrite take_ge by lia. eexists. split; [done|]. rewrite length_app. cbn. rewrite length_drop. lia.
Qed.

(** The bytes of an IPv6 address from the [n]-th one down, as text. *)
Lemma a2ptr_loop_spec a : length a = 16 -> bytes a -> forall n pre rest, n <= 16 -> length pre = 4 * (16 - n) -> length (pre ++ rest) = DNSNAMEBUFSIZE ->
  exists rest', a2ptr_loop n a (pre ++ rest) (length pre) = Some (Some 64, pre ++ dotted (concat (map nibbles (rev (take n a)))) ++ rest') /\
    length (pre ++ dotted (concat (map nibbles (rev (take n a)))) ++ rest') = DNSNAMEBUFSIZE.
Proof.
  intros Ha Hb. induction n as [|n IH]; intros pre rest Hn Hp Hl; cbn [a2ptr_loop].
  - exists rest. split; [|done]. cbn. do 3 f_equal. lia.
  - destruct (rd_lt a n) as [bt Hbt]; [lia|]. rewrite Hbt. sbind. rewrite length_app in Hl. unfold DNSNAMEBUFSIZE in *.
    set (t := [hexdigit (Z.land bt 15); 46%Z; hexdigit (Z.land (Z.shiftr bt 4) 15); 46%Z]). assert (Ht : length t = 4) by done.
    destruct (snprintf_fits pre rest t (256 - length pre)) as (rest1 & -> & Hr1); [lia|lia|]. sbind. cbv iota.
    bool_false (256 <=? length pre + length t).
    destruct (IH (pre ++ t) (0%Z :: rest1)) as (rest' & E & Hl'); [lia|rewrite length_app; lia|rewrite <- app_assoc, length_app, Hr1; lia|].
    rewrite <- app_assoc, length_app in E. rewrite E. exists rest'.
    assert (Et : pre ++ dotted (concat (map nibbles (rev (take (S n) a)))) ++ rest' = (pre ++ t) ++ dotted (concat (map nibbles (rev (take n a)))) ++ rest').
    { rewrite (take_S_r a n bt Hbt), rev_app_distr. cbn [rev app map concat]. rewrite dotted_app, <- !app_assoc. done. }
    rewrite Et. by split.
Qed.

Lemma ptr_name_spec (a : list Z) (tp : Z) :
  is_addr tp a -> exists r, ptr_name a tp = Some (Some (enc_name (ptr_labels a tp) ++ r)) /\ wf_name (ptr_labels a tp).
Proof.
  intros [Hb Ha]. unfold ptr_name. assert (Hgen : forall ls rest, ls = ptr_labels a tp -> Forall wf_text ls -> ls <> [] -> length (dotted ls) < DNSNAMEBUFSIZE ->
    a2ptrstr a tp (replicate DNSNAMEBUFSIZE 0%Z) = Some (true, dotted ls ++ 0%Z :: rest) ->
    exists r, ptr_name a tp = Some (Some (enc_name (ptr_labels a tp) ++ r)) /\ wf_name (ptr_labels a tp)).
  { intros ls rest <- Hls Hne Hlen E. destruct (text_name ls rest Hls Hne Hlen) as (Hwf & r & E2 & _). exists r. split; [|done].
    unfold ptr_name. rewrite E. sbind. cbv iota. by rewrite E2. }
  destruct Ha as [[-> Hl]|[-> Hl]].
  - destruct a as [|p0 [|p1 [|p2 [|p3 [|]]]]]; try discriminate Hl. repeat match goal with H : bytes (_ :: _) |- _ => apply Forall_cons in H as [? H] end.
    destruct (show_dec_text p0) as [W0 L0], (show_dec_text p1) as [W1 L1], (show_dec_text p2) as [W2 L2], (show_dec_text p3) as [W3 L3]; try done.
    set (ls := [show_dec p3; show_dec p2; show_dec p1; show_dec p0; label_in_addr; label_arpa]).
    assert (Hlen : length (dotted ls) <= 29) by (unfold dotted; cbn [map concat ls]; rewrite !length_app; cbn [length label_in_addr label_arpa app]; lia).
    assert (Et : show_dec p3 ++ dot ++ show_dec p2 ++ dot ++ show_dec p1 ++ dot ++ show_dec p0 ++ dot ++ in_addr_arpa = dotted ls).
    { unfold dotted, ls. cbn [map concat]. rewrite <- !app_assoc. done. }
    destruct (snprintf_fits [] (replicate DNSNAMEBUFSIZE 0%Z) (dotted ls) DNSNAMEBUFSIZE) as (rest & E & _); [unfold DNSNAMEBUFSIZE; lia|rewrite length_replicate; unfold DNSNAMEBUFSIZE; lia|].
    apply (Hgen ls rest); [done| |done|unfold DNSNAMEBUFSIZE; lia|].
    + repeat (constructor; [first [done|apply text_label; [cbn; lia|repeat constructor; lia]]|]). constructor.
    + unfold a2ptrstr. cbn [Z.eqb T_A Pos.eqb]. unfold rd. cbn [lookup list_lookup]. sbind. rewrite Et. cbn [app length] in E. rewrite E. sbind. cbv iota.
      unfold DNSNAMEBUFSIZE. by bool_true (length (dotted ls) <? 256).
  - destruct (a2ptr_loop_spec a Hl Hb 16 [] (replicate DNSNAMEBUFSIZE 0%Z)) as (rest & E & Hlr); [lia|done|by rewrite app_nil_l, length_replicate|].
    rewrite take_ge in E, Hlr by lia. change (length (@nil Z)) with 0 in E. cbn [app] in E, Hlr. set (ls := concat (map nibbles (rev a))) in *.
    assert (H32 : forall l, length (dotted (concat (map nibbles l))) = 4 * length l).
    { induction l as [|b l IH]; [done|]. cbn [map concat]. rewrite dotted_app, length_app, IH. cbn. lia. }
    assert (Hd : length (dotted ls) = 64) by (unfold ls; rewrite H32, length_rev, Hl; done).
    rewrite length_app, Hd in Hlr. assert (Ets : dotted (ls ++ [label_ip6; label_arpa]) = dotted ls ++ ip6_arpa) by (by rewrite dotted_app).
    apply (Hgen (ls ++ [label_ip6; label_arpa]) (replicate 182 0%Z)); [done| | | |].
    + apply Forall_app. split; [|repeat constructor; unfold is_byte; lia]. unfold ls. apply Forall_concat, Forall_map, Forall_forall. intros b _. apply nibbles_text.
    + by destruct ls.
    + rewrite Ets, length_app, Hd. cbn. unfold DNSNAMEBUFSIZE. lia.
    + unfold a2ptrstr. cbn [Z.eqb T_A T_AAAA Pos.eqb]. rewrite E. sbind. cbv iota. rewrite Ets. unfold strncp.
      change (strlen (ip6_arpa ++ [0%Z])) with (Some 9). sbind. unfold DNSNAMEBUFSIZE in *. cbn [Nat.sub Nat.min].
      change (take 9 (ip6_arpa ++ [0%Z])) with ip6_arpa. pose proof (wr_bytes_app_mid (ip6_arpa ++ replicate 183 0%Z) (dotted ls) rest) as Ew. rewrite Hd in Ew.
      rewrite Ew by (rewrite length_app, length_replicate; cbn; lia). sbind. rewrite drop_ge by (rewrite length_app, length_replicate; cbn; lia). by rewrite app_nil_r, <- app_assoc.
Qed.

(** The name under which an address is looked up.  For every IPv4 and IPv6 address the conversion stays
    within its buffers and gives the name with the bytes of the address in reverse order, in decimal below
    in-addr.arpa or as hexadecimal digits below ip6.arpa. *)
Theorem ptr_name_correct (a : list Z) (tp : Z) :
  is_addr tp a -> exists r, ptr_name a tp = Some (Some (enc_name (ptr_labels a tp) ++ r)) /\ wf_name (ptr_labels a tp).
Proof. apply ptr_name_spec. Qed.

(** ** Entries *)

Lemma addr_wire tp a : is_addr tp a -> not_cached_type tp = false /\ exists ps, wire tp ps /\ a = flat ps.
Proof.
  intros [Hb Ha]. split; [by destruct Ha as [[-> _]|[-> _]]|]. exists [Lit a]. split; [|unfold flat; cbn; by rewrite app_nil_r].
  split; [|constructor; [done|constructor]]. destruct Ha as [[-> Hl]|[-> Hl]]; by exists a.
Qed.

Lemma name_wire tp N : tp = T_NS \/ tp = T_PTR -> wf_name N -> not_cached_type tp = false /\ exists ps, wire tp ps /\ enc_name N = flat ps.
Proof.
  intros Ht HN. split; [by destruct Ht as [-> | ->]|]. exists [Nm N]. split; [|unfold flat; cbn; by rewrite app_nil_r].
  split; [|constructor; [done|constructor]]. destruct Ht as [-> | ->]; by exists N.
Qed.

Section Hosts.
Context {P : Platform} (now : Z) (global : globals).

Lemma runs_init_good N r fl s : wf_name N -> tst fl DF_NEGATIVE = false ->
  runs (init_cent (enc_name N ++ r) 0 0 fl) s (fun res s' => mem_only s s' /\
    forall c, res = Some c -> good_cent c /\ is_neg c = false /\ qname c = enc_name N /\ flags c = u16 fl /\ forall i, slot c i = None).
Proof.
  intros HN Hf. eapply runs_weaken; [by apply runs_init_cent|]. cbn beta. intros res s' (Hm & _ & H). split; [done|]. intros c Hc.
  destruct (H c Hc) as (Hok & Hq & Hfl & Hl & Hs & _ & Hn). splits; try done; [|by rewrite Hn]. split; [done|]. split; [done|]. intros tp rs Hg.
  apply getrrset_some in Hg as (j & _ & _ & E); [by rewrite Hs in E|apply Hok].
Qed.

(** The entry is added and freed. *)
Lemma runs_enter_entry Q c cc : ready cc -> good_cent c -> (forall tp d, d ∈ records c tp -> Q (key c) tp d) ->
  runs (_ ← add_cache now global c; _ ← free_cent c; mret true) cc (fun ok c' => ok = true /\ grown Q cc c').
Proof.
  intros Hr (Hok & Hl & Hw) HQ. run_with runs_add_good; [done..|]. intros _ c1 Hg.
  run_with runs_free_copy; [done|apply Hok|]. intros _ c2 ->. apply runs_ret. split; [done|]. eapply grown_weaken; [|exact Hg].
  cbn beta. intros K tp d [-> Hd]. by apply HQ.
Qed.

Lemma runs_abandon Q c cc c0 : ready c0 -> mem_only c0 cc -> good_cent c -> runs (_ ← free_cent c; mret false) cc (fun ok c' => ok = false /\ grown Q c0 c').
Proof.
  intros Hr Hm (Hok & Hl & _). run_with runs_free_copy; [done|apply Hok|]. intros _ c2 ->. apply runs_ret. split; [done|]. by apply grown_of_mem.
Qed.

Context (R : list (list Z)) (HR : wf_name R) (rr : list Z) (flags : Z) (Hfl : tst flags DF_NEGATIVE = false).

(** What an entry of a host holds. *)
Definition entry_record (N : list (list Z)) (tp : Z) (data : list Z) (K : list Z) (tp' : Z) (d : list Z) : Prop :=
  K = fold_key (enc_name N) /\ ((tp' = tp /\ d = data) \/ (tp' = T_NS /\ d = enc_name R)).

Lemma runs_host_entry N r tp data ttl s : ready s -> wf_name N -> not_cached_type tp = false -> tp <> T_NS -> (exists ps, wire tp ps /\ data = flat ps) ->
  runs (host_entry now global (enc_name N ++ r) tp data (enc_name R ++ rr) ttl flags) s (fun _ s' => grown (entry_record N tp data) s s').
Proof.
  intros Hr HN Ht Hne Hw. unfold host_entry. run_with runs_init_good; [done|done|]. intros [ce|] s1 [Hm1 Hc]; [|apply runs_ret; by apply grown_of_mem].
  destruct (Hc ce eq_refl) as (Hg & Hn & Hq & Hf & Hs). assert (Hrec0 : forall t, records ce t = []) by (intros; apply records_empty; [apply Hg|done]).
  run_with runs_add_record; [done|done|by rewrite andb_false_r|done|done|]. intros [ok c1] s2 (Hm2 & _ & Hg1 & Hn1 & Hk1 & _ & Ho1 & Hr1 & _). cbn [fst snd] in *.
  rewrite Hrec0 in Hr1. cbn [app] in Hr1. assert (Hm : mem_only s s2) by eauto with pdnsd. destruct ok; cbn [negb].
  2:{ eapply runs_weaken; [by apply (runs_abandon (entry_record N tp data) c1 s2 s)|]. cbn beta. by intros ok s3 [_ ?]. }
  run_lift; [apply rhnlen_enc, HR|]. run_lift; [apply rd_bytes_front|]. destruct (name_wire T_NS R (or_introl eq_refl) HR) as [HtN HwN].
  run_with runs_add_record; [done|done|by rewrite andb_false_r|done|done|]. intros [ok c2] s3 (Hm3 & _ & Hg2 & Hn2 & Hk2 & _ & Ho2 & Hr2 & _). cbn [fst snd] in *.
  rewrite Ho1, Hrec0 in Hr2 by done. cbn [app] in Hr2. assert (Hm' : mem_only s s3) by eauto with pdnsd. destruct ok; cbn [negb].
  2:{ eapply runs_weaken; [by apply (runs_abandon (entry_record N tp data) c2 s3 s)|]. cbn beta. by intros ok s4 [_ ?]. }
  eapply runs_weaken; [apply (runs_enter_entry (entry_record N tp data)); [by eapply ready_mem|done|]|].
  - intros t d Hd. split; [unfold key; destruct Hk2 as [-> _], Hk1 as [-> _]; by rewrite Hq|]. destruct (decide (t = T_NS)) as [->|Hns].
    + right. split; [done|]. rewrite Hr2 in Hd. case_bool_decide; [by apply list_elem_of_singleton in Hd|by apply not_elem_of_nil in Hd].
    + left. rewrite Ho2 in Hd by done. destruct (decide (t = tp)) as [->|Htp]; [|rewrite Ho1, Hrec0 in Hd by done; by apply not_elem_of_nil in Hd].
      rewrite Hr1 in Hd. case_bool_decide; [by apply list_elem_of_singleton in Hd|by apply not_elem_of_nil in Hd].
  - cbn beta. intros ok s4 [_ Hgr]. by eapply grown_mem.
Qed.

(** The records for the host with the address [a] and the names of which [H] holds: the address, and the name
    server, under a name; a name, and the name server, under the name of the address. *)
Definition host_record (H : list (list Z) -> Prop) (a : list Z) (tp : Z) (K : list Z) (tp' : Z) (d : list Z) : Prop :=
  exists N, H N /\
    (K = fold_key (enc_name N) /\ (tp' = tp /\ d = a \/ tp' = T_NS /\ d = enc_name R) \/
     K = fold_key (enc_name (ptr_labels a tp)) /\ (tp' = T_PTR /\ d = enc_name N \/ tp' = T_NS /\ d = enc_name R)).

Lemma addr_not_ns tp a : is_addr tp a -> tp <> T_NS.
Proof. by intros [_ [[-> _]|[-> _]]]. Qed.

Lemma runs_add_host (H : list (list Z) -> Prop) N r a tp ttl reverse s : H N -> ready s -> wf_name N -> is_addr tp a ->
  runs (add_host now global (enc_name N ++ r) (enc_name R ++ rr) a tp ttl flags reverse) s (fun _ s' => grown (host_record H a tp) s s').
Proof.
  intros HP Hr HN Ha. destruct (addr_wire tp a Ha) as [Ht Hw]. unfold add_host. run_with runs_host_entry; [done..|by eapply addr_not_ns|done|]. intros ok s1 Hg1.
  assert (Hg1' : grown (host_record H a tp) s s1).
  { eapply grown_weaken; [|exact Hg1]. intros K t d [HK Hd]. exists N. split; [done|]. by left. }
  destruct (negb ok); [by apply runs_ret|]. destruct reverse; [|by apply runs_ret].
  destruct (ptr_name_spec a tp Ha) as (r' & E & Hwf). run_lift; [exact E|]. run_lift; [apply rhnlen_enc, HN|]. run_lift; [apply rd_bytes_front|].
  destruct (name_wire T_PTR N (or_intror eq_refl) HN) as [HtP HwP].
  run_with runs_host_entry; [by eapply grown_ready|done|done|done|done|]. intros ok' s2 Hg2. apply runs_ret. eapply grown_trans; [exact Hg1'|].
  eapply grown_weaken; [|exact Hg2]. intros K t d [HK Hd]. exists N. split; [done|]. by right.
Qed.

(** ** Lines *)

Lemma cstr_drop buf text k : cstr buf text -> k <= length text -> cstr (drop k buf) (drop k text).
Proof. intros [Hz (r & ->)] Hk. split; [by apply Forall_drop|]. exists r. by rewrite drop_app_le. Qed.

(** The character at the position [p] of a line that goes on with [text]. *)
Lemma cstr_rd buf p text : cstr (drop p buf) text -> exists c, rd buf p = Some c /\ match text with [] => c = 0%Z | c0 :: _ => c = c0 /\ c <> 0%Z end.
Proof.
  intros [Hz (r & E)]. unfold rd. rewrite <- (Nat.add_0_r p), <- lookup_drop, E. destruct text as [|c text]; [by exists 0%Z|]. exists c. split; [done|]. by apply Forall_cons in Hz as [? _].
Qed.

Lemma cstr_next buf p c text : cstr (drop p buf) (c :: text) -> cstr (drop (S p) buf) text.
Proof. intros H. apply (cstr_drop _ _ 1) in H; [|cbn; lia]. by rewrite drop_drop, Nat.add_1_r in H. Qed.

(** The position [q] is [n] characters after [p], and [text] goes on there with [t]. *)
Definition ahead (buf : list Z) (p q : nat) (text t : list Z) : Prop := exists u, text = u ++ t /\ q = p + length u /\ cstr (drop q buf) t.

Lemma ahead_refl buf p text : cstr (drop p buf) text -> ahead buf p p text text.
Proof. intros H. exists []. cbn. splits; [done|lia|done]. Qed.

Lemma ahead_cons buf p q c text t : ahead buf (S p) q text t -> ahead buf p q (c :: text) t.
Proof. intros (u & -> & -> & H). exists (c :: u). splits; [done|cbn; lia|done]. Qed.

Lemma skip_spaces_spec buf fuel : forall p text, cstr (drop p buf) text -> length text < fuel ->
  exists o, skip_spaces fuel buf p = Some o /\ forall q, o = Some q -> exists c t, ahead buf p q text (c :: t).
Proof.
  induction fuel as [|fu IH]; intros p text Hc Hf; [lia|]. cbn [skip_spaces]. destruct (cstr_rd _ _ _ Hc) as (c & -> & Hx). sbind. destruct text as [|c0 text].
  { rewrite Hx. by exists None. }
  destruct Hx as [<- Hz]. bool_false (c =? 0)%Z. destruct (isspace c); [|exists (Some p); split; [done|]; intros q [= <-]; exists c, text; by apply ahead_refl].
  destruct (IH (S p) text) as (o & -> & Ho); [by eapply cstr_next|cbn in Hf; lia|]. exists o. split; [done|]. intros q Hq. destruct (Ho q Hq) as (c' & t & Ha). exists c', t. by apply ahead_cons.
Qed.

(** The other loops look at the characters behind [p]. *)
Lemma next_space_spec buf fuel : forall p c0 text, cstr (drop p buf) (c0 :: text) -> length text < fuel ->
  exists o, next_space fuel buf p = Some o /\ forall q, o = Some q -> exists c t, ahead buf (S p) q text (c :: t).
Proof.
  induction fuel as [|fu IH]; intros p c0 text Hc Hf; [lia|]. apply cstr_next in Hc. cbn [next_space]. destruct (cstr_rd _ _ _ Hc) as (c & -> & Hx). sbind. destruct text as [|c1 text].
  { rewrite Hx. by exists None. }
  destruct Hx as [<- Hz]. bool_false (c =? 0)%Z. destruct (isspace c); [exists (Some (S p)); split; [done|]; intros q [= <-]; exists c, text; by apply ahead_refl|].
  destruct (IH (S p) c text) as (o & -> & Ho); [done|cbn in Hf; lia|]. exists o. split; [done|]. intros q Hq. destruct (Ho q Hq) as (c' & t & Ha). exists c', t. by apply ahead_cons.
Qed.

Lemma next_word_spec buf fuel : forall p text, cstr (drop (S p) buf) text -> length text < fuel ->
  exists o, next_word fuel buf p = Some o /\ forall q, o = Some q -> exists c t, ahead buf (S p) q text (c :: t).
Proof.
  induction fuel as [|fu IH]; intros p text Hc Hf; [lia|]. cbn [next_word]. destruct (cstr_rd _ _ _ Hc) as (c & -> & Hx). sbind. destruct text as [|c1 text].
  { rewrite Hx. by exists None. }
  destruct Hx as [<- Hz]. bool_false (c =? 0)%Z. destruct (isspace c); [|exists (Some (S p)); split; [done|]; intros q [= <-]; exists c, text; by apply ahead_refl].
  destruct (IH (S p) text) as (o & -> & Ho); [by eapply cstr_next|cbn in Hf; lia|]. exists o. split; [done|]. intros q Hq. destruct (Ho q Hq) as (c' & t & Ha). exists c', t. by apply ahead_cons.
Qed.

Lemma word_end_spec buf fuel : forall p c0 text, cstr (drop p buf) (c0 :: text) -> length text < fuel ->
  exists q t, word_end fuel buf p = Some q /\ ahead buf (S p) q text t.
Proof.
  induction fuel as [|fu IH]; intros p c0 text Hc Hf; [lia|]. apply cstr_next in Hc. cbn [word_end]. destruct (cstr_rd _ _ _ Hc) as (c & -> & Hx). sbind. destruct text as [|c1 text].
  { rewrite Hx. exists (S p), []. split; [done|]. by apply ahead_refl. }
  destruct Hx as [<- Hz]. bool_false (c =? 0)%Z. cbn [orb]. destruct (isspace c); [exists (S p), (c :: text); split; [done|]; by apply ahead_refl|].
  destruct (IH (S p) c text) as (q & t & -> & Ha); [done|cbn in Hf; lia|]. exists q, t. split; [done|]. by apply ahead_cons.
Qed.

(** [t] stands somewhere in [l], and a name is written there. *)
Definition within (l t : list Z) : Prop := exists u v, l = u ++ t ++ v.
Definition line_name (l : list Z) (N : list (list Z)) : Prop := exists t, within l t /\ names_text_lax t N.

Lemma within_trans l t x : within l t -> within t x -> within l x.
Proof. intros (u & v & ->) (u' & v' & ->). exists (u ++ u'), (v' ++ v). by rewrite <- !app_assoc. Qed.

Lemma within_tail c l : within (c :: l) l.
Proof. exists [c], []. by rewrite app_nil_r. Qed.

Lemma line_name_within l t N : within l t -> line_name t N -> line_name l N.
Proof. intros H (x & Hx & HN). exists x. split; [by eapply within_trans|done]. Qed.

Lemma ahead_within buf p q text t : ahead buf p q text t -> within text t.
Proof. intros (u & -> & _). exists u, []. by rewrite app_nil_r. Qed.

Lemma cut_comment_spec buf text fuel : bytes buf -> cstr buf text -> forall p, p <= length text -> length text - p < fuel ->
  exists buf' text', cut_comment fuel buf p = Some buf' /\ length buf' = length buf /\ bytes buf' /\ cstr buf' text' /\ within text text'.
Proof.
  intros Hb Hc. induction fuel as [|fu IH]; intros p Hp Hf; [lia|]. cbn [cut_comment]. destruct (cstr_rd buf p (drop p text)) as (c & Ec & Hx); [by apply cstr_drop|]. rewrite Ec. sbind.
  destruct (drop p text) as [|c0 t] eqn:Et; [rewrite Hx; exists buf, text; splits; try done; exists [], []; by rewrite app_nil_r|]. destruct Hx as [<- Hz]. bool_false (c =? 0)%Z.
  assert (Hlt : p < length text) by (apply (f_equal length) in Et; rewrite length_drop in Et; cbn in Et; lia).
  destruct (c =? 35)%Z; [|apply IH; lia]. destruct Hc as [Hnz (r & ->)]. rewrite wr_lt by (rewrite length_app; lia). eexists _, (take p text).
  splits; [done|apply length_insert|apply Forall_insert; [done|unfold is_byte; lia]| |exists [], (drop p text); by rewrite take_drop]. split; [by apply Forall_take|]. exists (drop (S p) text ++ 0%Z :: r).
  rewrite insert_app_l by done. by rewrite insert_take_drop, <- app_assoc by done.
Qed.

Lemma host_name_spec buf pn p c0 text t rhn : bytes buf -> cstr (drop pn buf) (c0 :: text) -> ahead buf (S pn) p text t -> length rhn = DNSNAMEBUFSIZE ->
  exists ok rhn', host_name buf pn p rhn = Some (ok, rhn') /\ length rhn' = DNSNAMEBUFSIZE /\ (ok = true -> exists N r, wf_name N /\ line_name (c0 :: text) N /\ rhn' = enc_name N ++ r).
Proof.
  intros Hb Hc (u & -> & -> & Ht) Hl. pose proof Hc as [Hz (r & E)]. unfold host_name. replace (S pn + length u - pn) with (length (c0 :: u)) by (cbn; lia).
  rewrite app_comm_cons in Hz, E. apply Forall_app in Hz as [Hz _].
  destruct (parsestr2rhn_correct (drop pn buf) (length (c0 :: u)) (c0 :: u) rhn) as (e & rhn' & Ep & Hl' & Hok & _); [|apply (Forall_drop _ pn) in Hb; rewrite E, <- app_assoc in Hb; by apply Forall_app in Hb as [Hb _]|done|].
  { unfold cstr_upto. splits; [done|rewrite E, <- app_assoc; by eexists|by left]. }
  rewrite Ep. sbind. eexists _, _. splits; [done|done|]. intros He%bool_decide_eq_true. destruct (Hok He) as (N & r' & HN & ->). exists N, r'. splits; [apply HN| |done].
  exists (c0 :: u). split; [by exists [], t|done].
Qed.

Lemma ahead_length buf p q text t : ahead buf p q text t -> length t <= length text /\ cstr (drop q buf) t.
Proof. intros (u & -> & _ & H). split; [rewrite length_app; lia|done]. Qed.

Lemma cstr_length buf p text : cstr (drop p buf) text -> p + length text < length buf.
Proof. intros [_ (r & E)]. apply (f_equal length) in E. rewrite length_drop, length_app in E. cbn in E. lia. Qed.

Context (inet_aton inet_pton6 : list Z -> option (list Z)).
Context (Haton : forall text a, inet_aton text = Some a -> is_addr T_A a) (Hpton : forall text a, inet_pton6 text = Some a -> is_addr T_AAAA a).
Context (ttl : Z) (aliases : bool).

(** The records of the hosts in a file. *)
Definition line_record (l K : list Z) (tp : Z) (d : list Z) : Prop :=
  exists text tp0 a, within l text /\ parse_addr inet_aton inet_pton6 text = Some (tp0, a) /\ host_record (line_name l) a tp0 K tp d.
Definition file_record (lines : list (list Z)) (K : list Z) (tp : Z) (d : list Z) : Prop :=
  exists l, l ∈ lines /\ line_record l K tp d.

Lemma parse_addr_ok text tp a : parse_addr inet_aton inet_pton6 text = Some (tp, a) -> is_addr tp a.
Proof.
  unfold parse_addr. destruct (inet_aton text) as [x|] eqn:E; [intros [= <- <-]; by eapply Haton|].
  destruct (inet_pton6 text) as [x|] eqn:E2; [|done]. intros [= <- <-]. by eapply Hpton.
Qed.

Lemma runs_alias_loop line buf a tp fuel : bytes buf -> is_addr tp a -> forall p text rhn s, ready s -> within line text -> cstr (drop p buf) text -> length text < fuel -> length rhn = DNSNAMEBUFSIZE ->
  runs (alias_loop now global (enc_name R ++ rr) ttl flags fuel buf p a tp rhn) s (fun _ s' => grown (host_record (line_name line) a tp) s s').
Proof.
  intros Hb Ha. induction fuel as [|fu IH]; intros p text rhn s Hr Hin Hc Hf Hl; [lia|]. cbn [alias_loop]. pose proof (cstr_length _ _ _ Hc) as Hlen.
  destruct (skip_spaces_spec buf (length buf) p text Hc) as (o & E & Ho); [lia|]. run_lift; [exact E|].
  destruct o as [pn|]; [|apply runs_ret; by apply grown_refl]. destruct (Ho pn eq_refl) as (c & t & Hah). destruct (ahead_length _ _ _ _ _ Hah) as [Hlt Hcn]. cbn in Hlt.
  pose proof (cstr_length _ _ _ Hcn) as Hlen'. destruct (word_end_spec buf (length buf) pn c t Hcn) as (q & t' & Eq & Hq); [cbn in Hlen'; lia|]. run_lift; [exact Eq|].
  destruct (host_name_spec buf pn q c t t' rhn Hb Hcn Hq Hl) as (ok & rhn' & En & Hl' & Hok). run_lift; [exact En|]. cbn beta iota. destruct ok; cbn [negb]; [|apply runs_ret; by apply grown_refl].
  destruct (Hok eq_refl) as (N & r & HN & Hname & ->). pose proof (within_trans _ _ _ Hin (ahead_within _ _ _ _ _ Hah)) as Hin'.
  run_with (runs_add_host (line_name line)); [by eapply line_name_within|done..|]. intros res s1 Hg. destruct (res =? 0)%Z; [by apply runs_ret|].
  destruct (ahead_length _ _ _ _ _ Hq) as [Hlq Hcq]. eapply runs_weaken; [apply (IH q t'); [by eapply grown_ready| |exact Hcq|lia|exact Hl']|].
  { eapply within_trans; [exact Hin'|]. eapply within_trans; [apply within_tail|by eapply ahead_within]. }
  cbn beta. intros _ s2 Hg2. by eapply grown_trans.
Qed.

Lemma cstr_line line : exists text, cstr (line ++ [0%Z]) text /\ within line text.
Proof.
  cut (exists text v, cstr (line ++ [0%Z]) text /\ line = text ++ v); [intros (text & v & Hc & E); exists text; split; [done|by exists [], v]|].
  induction line as [|c line (text & v & [Hz (r & E)] & Ev)]; [exists [], []; split; [split; [constructor|by exists []]|done]|].
  destruct (decide (c = 0%Z)) as [->|Hc]; [exists [], (0%Z :: line); split; [split; [constructor|by eexists]|done]|].
  exists (c :: text), v. split; [split; [by constructor|]; exists r; cbn; by rewrite E|cbn; by f_equal].
Qed.

(** The characters between two positions, also when the one behind them has been overwritten. *)
Lemma rd_bytes_ahead buf p q c text t x : cstr (drop p buf) (c :: text) -> ahead buf (S p) q text t ->
  exists txt, rd_bytes (<[q := x]> buf) p (q - p) = Some txt /\ within (c :: text) txt.
Proof.
  intros Hc (u & -> & -> & Ht). pose proof (cstr_length _ _ _ Hc) as Hl. destruct Hc as [_ (r & E)]. cbn in Hl. rewrite length_app in Hl.
  exists (c :: u). split; [|by exists [], t]. unfold rd_bytes. rewrite decide_True by (rewrite length_insert; lia). f_equal.
  rewrite drop_insert_ge, take_insert_ge by lia. rewrite E. replace (S p + length u - p) with (length (c :: u)) by (cbn; lia).
  rewrite app_comm_cons, <- app_assoc. apply take_app_length.
Qed.

Lemma split_line_spec line : bytes line -> exists o, split_line (line ++ [0%Z]) = Some o /\
  forall pi e pn p buf, o = Some (pi, e, pn, p, buf) -> bytes buf /\ (exists txt, rd_bytes buf pi (e - pi) = Some txt /\ within line txt) /\
    exists c text t, cstr (drop pn buf) (c :: text) /\ within line (c :: text) /\ ahead buf (S pn) p text t.
Proof.
  intros Hb. set (buf0 := line ++ [0%Z]). assert (Hb0 : bytes buf0) by (apply Forall_app; split; [done|constructor; [unfold is_byte; lia|constructor]]).
  destruct (cstr_line line) as (text0 & Hc0 & Hin0). fold buf0 in Hc0. pose proof (cstr_length buf0 0 text0 Hc0) as Hl0. unfold split_line. cbv zeta.
  destruct (cut_comment_spec buf0 text0 (length buf0) Hb0 Hc0 0) as (buf & text & -> & Hl & Hbb & Hc & Hin1); [lia|lia|]. pose proof (within_trans _ _ _ Hin0 Hin1) as Hin. sbind. rewrite <- Hl. pose proof (cstr_length buf 0 text Hc) as Hlt.
  destruct (skip_spaces_spec buf (length buf) 0 text Hc) as (o & -> & Ho); [lia|]. sbind. destruct o as [pi|]; [|by exists None]. destruct (Ho pi eq_refl) as (c1 & t1 & Ha1).
  destruct (ahead_length _ _ _ _ _ Ha1) as [_ Hc1]. pose proof (cstr_length _ _ _ Hc1) as Hl1. cbn in Hl1.
  destruct (next_space_spec buf (length buf) pi c1 t1 Hc1) as (o2 & -> & Ho2); [lia|]. sbind. destruct o2 as [e|]; [|by exists None]. destruct (Ho2 e eq_refl) as (c2 & t2 & Ha2).
  destruct (ahead_length _ _ _ _ _ Ha2) as [_ Hc2]. pose proof (cstr_length _ _ _ Hc2) as Hl2. cbn in Hl2. destruct (rd_bytes_ahead buf pi e c1 t1 (c2 :: t2) 0 Hc1 Ha2) as (txt & Etxt & Htxt).
  pose proof (within_trans _ _ _ Hin (ahead_within _ _ _ _ _ Ha1)) as Hin2.
  rewrite wr_lt by lia. sbind. set (buf' := <[e := 0%Z]> buf). assert (Hlb : length buf' = length buf) by apply length_insert.
  assert (Hc2' : cstr (drop (S e) buf') t2) by (unfold buf'; rewrite drop_insert_lt by lia; by eapply cstr_next).
  rewrite <- Hlb. destruct (next_word_spec buf' (length buf') e t2 Hc2') as (o3 & -> & Ho3); [lia|]. sbind. destruct o3 as [pn|]; [|by exists None]. destruct (Ho3 pn eq_refl) as (c3 & t3 & Ha3).
  destruct (ahead_length _ _ _ _ _ Ha3) as [_ Hc3]. pose proof (cstr_length _ _ _ Hc3) as Hl3. cbn in Hl3.
  destruct (word_end_spec buf' (length buf') pn c3 t3 Hc3) as (q & t4 & -> & Ha4); [lia|]. sbind. eexists. split; [done|]. intros pi' e' pn' p' b' [= <- <- <- <- <-].
  splits; [apply Forall_insert; [done|unfold is_byte; lia]|exists txt; split; [done|by eapply within_trans]|]. exists c3, t3, t4. splits; [done| |done].
  eapply within_trans; [exact Hin2|]. eapply within_trans; [apply within_tail|]. eapply within_trans; [by eapply ahead_within|].
  eapply within_trans; [apply within_tail|by eapply ahead_within].
Qed.

Lemma runs_hosts_line line s : ready s -> bytes line ->
  runs (hosts_line now global inet_aton inet_pton6 (enc_name R ++ rr) ttl flags aliases line) s (fun _ s' => grown (line_record line) s s').
Proof.
  intros Hr Hb. unfold hosts_line. destruct (split_line_spec line Hb) as (o & E & Ho). run_lift; [exact E|].
  destruct o as [[[[[pi e] pn] p] buf]|]; [|apply runs_ret; by apply grown_refl]. destruct (Ho _ _ _ _ _ eq_refl) as (Hbb & (txt & Et & Htxt) & c & text & t & Hc & Hin & Ha).
  destruct (host_name_spec buf pn p c text t (replicate DNSNAMEBUFSIZE 0%Z) Hbb Hc Ha) as (ok & rhn & En & Hl & Hok); [by rewrite length_replicate|]. run_lift; [exact En|].
  cbn beta iota. destruct ok; cbn [negb]; [|apply runs_ret; by apply grown_refl]. destruct (Hok eq_refl) as (N & r & HN & Hname & Erhn).
  run_lift; [exact Et|].
  destruct (parse_addr inet_aton inet_pton6 txt) as [[tp a]|] eqn:Ea; [|apply runs_ret; by apply grown_refl]. pose proof (parse_addr_ok _ _ _ Ea) as Haddr.
  assert (Hrec : forall K t d, host_record (line_name line) a tp K t d -> line_record line K t d) by (intros K t' d H; by exists txt, tp, a).
  rewrite Erhn in Hl |- *. run_with (runs_add_host (line_name line)); [by eapply line_name_within|done..|]. intros res s1 Hg1. assert (Hg1' : grown (line_record line) s s1) by (eapply grown_weaken; [exact Hrec|exact Hg1]).
  destruct (res =? 0)%Z; [by apply runs_ret|]. destruct (res <? 0)%Z; [by apply runs_ret|]. destruct aliases; [|by apply runs_ret].
  destruct (ahead_length _ _ _ _ _ Ha) as [Hlt Hct]. pose proof (cstr_length _ _ _ Hct) as Hlen.
  eapply runs_weaken; [apply (runs_alias_loop line buf a tp (length buf) Hbb Haddr p t); [by eapply grown_ready|eapply within_trans; [exact Hin|]; eapply within_trans; [apply within_tail|by eapply ahead_within]|exact Hct|lia|exact Hl]|]. cbn beta. intros _ s2 Hg2.
  eapply grown_trans; [exact Hg1'|]. eapply grown_weaken; [exact Hrec|exact Hg2].
Qed.

Lemma runs_hosts_lines lines : Forall (fun l => bytes l) lines -> forall s, ready s ->
  runs (hosts_lines now global inet_aton inet_pton6 (enc_name R ++ rr) ttl flags aliases lines) s (fun _ s' => grown (file_record lines) s s').
Proof.
  induction 1 as [|l lines Hl _ IH]; intros s Hr; cbn [hosts_lines]; [apply runs_ret; by apply grown_refl|].
  run_with runs_hosts_line; [done|done|]. intros ok s1 Hg. assert (Hg' : grown (file_record (l :: lines)) s s1).
  { eapply grown_weaken; [|exact Hg]. intros K t d H. exists l. split; [by left|done]. }
  destruct ok; [|by apply runs_ret]. eapply runs_weaken; [apply IH; by eapply grown_ready|].
  cbn beta. intros _ s2 Hg2. eapply grown_trans; [exact Hg'|]. eapply grown_weaken; [|exact Hg2]. intros K t d (x & Hx & H). exists x. split; [by right|done].
Qed.

(** C23: a hosts file.  Whatever is in the file and whatever allocations fail, reading it is memory safe and ends,
    and the cache is in order afterwards.  The records that come into the cache come from lines of the file with an address and
    names: the address under a name of its line, a name of the line under the name of the
    address in in-addr.arpa or ip6.arpa, and the name server that was given under both; nothing else. *)
Theorem read_hosts_correct (opened eof : bool) (lines : list (list Z)) (s : cache) :
  Forall (fun l => bytes l) lines -> ready s ->
  runs (read_hosts now global inet_aton inet_pton6 (enc_name R ++ rr) ttl flags aliases opened eof lines) s (fun _ s' =>
    ready s' /\ forall K e tp d, abs s' !! K = Some e -> d ∈ records e tp ->
      (exists e0, abs s !! K = Some e0 /\ d ∈ records e0 tp) \/
      exists l text tp0 a, l ∈ lines /\ within l text /\ parse_addr inet_aton inet_pton6 text = Some (tp0, a) /\ host_record (line_name l) a tp0 K tp d).
Proof.
  intros Hl Hr. assert (Hfin : forall s', grown (file_record lines) s s' -> ready s' /\ forall K e tp d, abs s' !! K = Some e -> d ∈ records e tp ->
    (exists e0, abs s !! K = Some e0 /\ d ∈ records e0 tp) \/
    exists l text tp0 a, l ∈ lines /\ within l text /\ parse_addr inet_aton inet_pton6 text = Some (tp0, a) /\ host_record (line_name l) a tp0 K tp d).
  { intros s' Hg. split; [by eapply grown_ready|]. intros K e tp d HK Hd. destruct (proj2 (proj2 Hg) K e tp d HK Hd) as [?|(l & Hin & text & tp0 & a & H)]; [by left|right; by exists l, text, tp0, a]. }
  unfold read_hosts. destruct (negb opened); [apply runs_ret, Hfin; by apply grown_refl|]. run_with runs_malloc_any. intros ok s1 [Hm _].
  destruct ok; cbn [negb]; [|apply runs_ret, Hfin; by apply grown_of_mem]. run_with runs_hosts_lines; [done|by eapply ready_mem|]. intros ok s2 Hg. apply runs_ret, Hfin. by eapply grown_mem.
Qed.
End Hosts.

(** ** Reverse resolving *)

Section Reverse.
Context {P : Platform} (now : Z) (global : globals).

Lemma rrarr_index_slot c i : shape c -> is_neg c = false -> i < NRRMU -> rrarr_index c i = Some (slot c i).
Proof.
  intros [Hn Hs] Hng Hi. unfold rrarr_index, slot, sets, is_neg in *. destruct (body c) as [|rrmu rrext]; [done|]. destruct Hs as [Hl _]. bool_true (i <? NRRMU).
  destruct (lookup_lt_is_Some_2 rrmu i) as [x Hx]; [lia|]. by rewrite lookup_app_l, Hx by lia.
Qed.

Lemma rrarr_set_none c i : shape c -> is_neg c = false -> i < NRRMU -> slot c i = None -> rrarr_set c i None = Some c.
Proof.
  intros [Hn Hs] Hng Hi Hsl. unfold rrarr_set, slot, sets, is_neg in *. destruct (body c) as [|rrmu rrext] eqn:Eb; [done|]. destruct Hs as [Hl _]. bool_true (i <? NRRMU).
  rewrite decide_True by lia. destruct (lookup_lt_is_Some_2 rrmu i) as [x Hx]; [lia|]. rewrite lookup_app_l, Hx in Hsl by lia. cbn in Hsl. subst x.
  rewrite list_insert_id by done. f_equal. destruct c. cbn in *. by subst.
Qed.

Lemma addr_of_wire tp d : tp = T_A \/ tp = T_AAAA -> (exists ps, wire tp ps /\ d = flat ps) -> is_addr tp d.
Proof.
  intros Ht (ps & [Hlay Hok] & ->).
  assert (H : exists l, ps = [Lit l] /\ ((tp = T_A /\ length l = 4) \/ (tp = T_AAAA /\ length l = 16))) by (destruct Ht as [-> | ->]; destruct Hlay as (l & Hl & ->); exists l; auto).
  destruct H as (l & -> & Hl). apply Forall_cons in Hok as [Hb _]. unfold flat. cbn. rewrite app_nil_r. by split.
Qed.

(** The sets of an entry of local data are local. *)
Definition all_local (c : dns_cent) : Prop := forall tp rs, getrrset c tp = Some (Some rs) -> tst (rs_flags rs) CF_LOCAL = true.

Context (cent : dns_cent) (Hg : good_cent cent) (Hn : is_neg cent = false) (Hloc : all_local cent).
Context (Hns : slot cent RRMUINDEX_NS = None) (Hsoa : slot cent RRMUINDEX_SOA = None).

(** The record for an address of the entry. *)
Definition reverse_record (K : list Z) (tp : Z) (d : list Z) : Prop :=
  tp = T_PTR /\ d = qname cent /\ exists tp0 a, (tp0 = T_A \/ tp0 = T_AAAA) /\ a ∈ records cent tp0 /\ K = fold_key (enc_name (ptr_labels a tp0)).

Lemma runs_reverse_rr rs tp d s : ready s -> tp = T_A \/ tp = T_AAAA -> getrrset cent tp = Some (Some rs) -> d ∈ rs_rrs rs ->
  runs (reverse_rr now global cent rs tp d) s (fun _ s' => grown reverse_record s s').
Proof.
  intros Hr Ht Hrs Hd. pose proof Hg as ((Hsh & (N & HN & Hq) & _) & _ & Hw). assert (Ha : is_addr tp d) by (apply addr_of_wire; [done|]; pose proof (Hw tp rs Hrs) as Hf; rewrite Forall_forall in Hf; by apply Hf).
  destruct (ptr_name_spec d tp Ha) as (r & E & Hwf). unfold reverse_rr. run_lift; [exact E|].
  assert (Hfl : tst (flags cent) DF_NEGATIVE = false) by (destruct Hsh as [-> _]; done).
  run_with runs_init_good; [done|done|]. intros [ce|] s1 [Hm1 Hc]; [|apply runs_ret; by apply grown_of_mem]. destruct (Hc ce eq_refl) as (Hgc & Hnc & Hqc & _ & Hsc).
  assert (Hrec0 : forall t, records ce t = []) by (intros; apply records_empty; [apply Hgc|done]).
  rewrite Hq, <- (app_nil_r (enc_name N)). run_lift; [apply rhnlen_enc, HN|]. run_lift; [apply rd_bytes_front|]. destruct (name_wire T_PTR N (or_intror eq_refl) HN) as [HtP HwP].
  run_with runs_add_record; [done|done|by rewrite (Hloc tp rs Hrs), andb_false_r|done|done|]. intros [ok c1] s2 (Hm2 & _ & Hg1 & Hn1 & Hk1 & _ & Ho1 & Hr1 & Hsl & _). cbn [fst snd] in *.
  rewrite Hrec0 in Hr1. assert (Hm : mem_only s s2) by eauto with pdnsd. destruct ok; cbn [negb].
  2:{ eapply runs_weaken; [by apply (runs_abandon reverse_record c1 s2 s)|]. cbn beta. by intros ok s3 [_ ?]. }
  pose proof Hg1 as ((Hsh1 & _) & _). assert (H1 : slot c1 RRMUINDEX_NS = None) by (rewrite Hsl by done; apply Hsc). assert (H3 : slot c1 RRMUINDEX_SOA = None) by (rewrite Hsl by done; apply Hsc).
  assert (Hlt1 : RRMUINDEX_NS < NRRMU) by (vm_compute; lia). assert (Hlt3 : RRMUINDEX_SOA < NRRMU) by (vm_compute; lia).
  assert (Eset : (c ← rrarr_set c1 RRMUINDEX_NS None; rrarr_set c RRMUINDEX_SOA None) = Some c1) by (rewrite rrarr_set_none by done; sbind; by apply rrarr_set_none).
  run_lift; [rewrite rrarr_index_slot, Hns by done; reflexivity|]. run_lift; [rewrite rrarr_index_slot, Hsoa by done; reflexivity|]. run_lift; [exact Eset|].
  run_with runs_add_good; [by eapply ready_mem|apply Hg1|apply Hg1|]. intros _ s3 Hgr. run_lift; [exact Eset|].
  run_with runs_free_copy; [apply Hg1|done|]. intros _ s4 ->. apply runs_ret. eapply grown_mem; [exact Hm|]. eapply grown_weaken; [|exact Hgr].
  cbn beta. intros K t x [-> Hx]. destruct (decide (t = T_PTR)) as [->|Hne]; [|rewrite Ho1, Hrec0 in Hx by done; by apply not_elem_of_nil in Hx].
  rewrite Hr1 in Hx. cbn [app] in Hx. case_bool_decide; [|by apply not_elem_of_nil in Hx]. apply list_elem_of_singleton in Hx as ->.
  split; [done|]. split; [done|]. exists tp, d. splits; [done|apply elem_of_records; by exists rs|]. unfold key. destruct Hk1 as [-> _]. by rewrite Hqc.
Qed.

Lemma runs_reverse_set tp s : ready s -> tp = T_A \/ tp = T_AAAA -> runs (reverse_set now global cent tp) s (fun _ s' => grown reverse_record s s').
Proof.
  intros Hr Ht. pose proof Hg as ((Hsh & _) & _). unfold reverse_set.
  destruct (getrrset cent tp) as [o|] eqn:Eo; [|by rewrite getrrset_slot in Eo]. run_lift; [done|]. destruct o as [rs|]; [|apply runs_ret; by apply grown_refl].
  assert (H : forall l s, (forall d, d ∈ l -> d ∈ rs_rrs rs) -> ready s -> runs (reverse_rrs now global cent rs tp l) s (fun _ s' => grown reverse_record s s')); [|by apply H].
  clear s Hr. induction l as [|d l IH]; intros s Hl Hr; cbn [reverse_rrs]; [apply runs_ret; by apply grown_refl|].
  run_with runs_reverse_rr; [done|done|done|apply Hl; by left|]. intros ok s1 Hgr. destruct ok; [|by apply runs_ret].
  eapply runs_weaken; [apply IH; [intros; apply Hl; by right|by eapply grown_ready]|]. cbn beta. intros _ s2 Hg2. by eapply grown_trans.
Qed.

(** The records for reverse resolving of a local entry that has no name servers and no SOA record of its own: the cache
    stays in order, whatever allocations fail, and what comes into it are records with the name of the entry under
    the names of its addresses. *)
Theorem add_reverse_correct (s : cache) : ready s ->
  runs (add_reverse_cache now global cent) s (fun _ s' => ready s' /\
    forall K e tp d, abs s' !! K = Some e -> d ∈ records e tp -> (exists e0, abs s !! K = Some e0 /\ d ∈ records e0 tp) \/ reverse_record K tp d).
Proof.
  intros Hr. assert (Hfin : forall s', grown reverse_record s s' -> ready s' /\ forall K e tp d, abs s' !! K = Some e -> d ∈ records e tp ->
    (exists e0, abs s !! K = Some e0 /\ d ∈ records e0 tp) \/ reverse_record K tp d) by (intros s' Hgr; split; [by eapply grown_ready|apply Hgr]).
  unfold add_reverse_cache. run_with runs_reverse_set; [done|by left|]. intros ok s1 Hg1. destruct ok; [|by apply runs_ret, Hfin].
  eapply runs_weaken; [apply runs_reverse_set; [by eapply grown_ready|by right]|]. cbn beta. intros _ s2 Hg2. apply Hfin. by eapply grown_trans.
Qed.
End Reverse.

(** ** Examples *)

#[local] Existing Instance LP64.

Lemma ptr_name_correct_witness : exists r, ptr_name [10; 0; 0; 200]%Z T_A = Some (Some ([3; 50; 48; 48; 1; 48; 1; 48; 2; 49; 48; 7; 105; 110; 45; 97; 100; 100; 114; 4; 97; 114; 112; 97; 0]%Z ++ r)).
Proof.
  destruct (ptr_name_correct [10; 0; 0; 200]%Z T_A) as (r & E & _); [split; [repeat constructor; discriminate|left; by split]|]. exists r. rewrite E. reflexivity.
Defined.

(** The text 10.0.0.1, and a line with it and two names. *)
Definition demo_ip : list Z := [49; 48; 46; 48; 46; 48; 46; 49]%Z.
Definition demo_aton (text : list Z) : option (list Z) := if bool_decide (text = demo_ip) then Some [10; 0; 0; 1]%Z else None.
Definition demo_line : list Z := [32]%Z ++ demo_ip ++ [9; 97; 32; 98; 32; 35; 99; 10]%Z.

Abbreviation demo_read := (read_hosts 1000 demo_globals demo_aton (fun _ => None) ([1; 110; 0]%Z ++ []) 86400 DF_LOCAL true true true [demo_line; [10]%Z] fresh_cache).

Lemma read_hosts_correct_witness : exists s', demo_read = Some (1%Z, s') /\ ready s' /\
  (fun c => (qname c, records c T_A, records c T_NS)) <$> (map_to_list (cents s')).*2 =
  [([1; 98; 0], [[10; 0; 0; 1]], [[1; 110; 0]]);
   ([1; 49; 1; 48; 1; 48; 2; 49; 48; 7; 105; 110; 45; 97; 100; 100; 114; 4; 97; 114; 112; 97; 0], [], [[1; 110; 0]]); ([1; 97; 0], [[10; 0; 0; 1]], [[1; 110; 0]])]%Z.
Proof.
  destruct (read_hosts_correct 1000 demo_globals [[110]]%Z ltac:(split; [repeat constructor; simpl; lia|vm_compute; lia]) [] DF_LOCAL eq_refl demo_aton (fun _ => None)) with
    (ttl := 86400%Z) (aliases := true) (opened := true) (eof := true) (lines := [demo_line; [10]%Z]) (s := fresh_cache) as (rv & s' & E & Hr & _).
  - intros text a. unfold demo_aton. destruct (bool_decide _); [|discriminate]. intros [= <-]. split; [repeat constructor; discriminate|left; by split].
  - discriminate.
  - repeat constructor; discriminate.
  - exact ready_fresh.
  - assert (E2 : (fun x => (x.1, (fun c => (qname c, records c T_A, records c T_NS)) <$> (map_to_list (cents x.2)).*2)) <$> demo_read = Some (1%Z,
      [([1; 98; 0], [[10; 0; 0; 1]], [[1; 110; 0]]);
       ([1; 49; 1; 48; 1; 48; 2; 49; 48; 7; 105; 110; 45; 97; 100; 100; 114; 4; 97; 114; 112; 97; 0], [], [[1; 110; 0]]); ([1; 97; 0], [[10; 0; 0; 1]], [[1; 110; 0]])]%Z)) by (vm_compute; reflexivity).
    change (enc_name [[110]]%Z) with [1; 110; 0]%Z in E. exists s'. rewrite E in E2 |- *. injection E2 as -> E2. split; [reflexivity|]. split; [exact Hr|exact E2].
Defined.

(** A local entry with an address and a name server. *)
Definition local_set (d : list Z) : rr_set := {| rs_lent := None; rs_ttl := 86400; rs_ts := 0; rs_flags := CF_LOCAL; rs_rrs := [d] |}.
Definition demo_local : dns_cent :=
  set_cs (cs sample_cent + rrset_size (local_set [10; 0; 0; 1]%Z) + rrset_size (local_set [1; 110; 0]%Z)) (set_num_rrs 2 (set_flags DF_LOCAL
    (set_body (Rr (<[1 := Some (local_set [1; 110; 0]%Z)]> (<[0 := Some (local_set [10; 0; 0; 1]%Z)]> no_rrmu)) None) sample_cent))).

